(* ===== verification/_CoqProject ===== *)
-Q . S2P
Prelude.v
ArithUint256.v
Chain.v
MedianTime.v
VersionBits.v
Pow.v
Headers.v
BoolEE.v
Serialize.v
Script.v
Standard.v
Transaction.v
Merkle.v
Compressor.v
AssetTypes.v
AssetNames.v
Base58.v
Coins.v
LruCache.v
AssetCache.v
AssetDump.v
Interpreter.v
Hasher.v
Sha2.v
Sha1.v
Ripemd160.v
Hashes.v
CuckooCache.v
SigHash.v
VerifyScript.v
AssetTx.v
TxCheck.v
PartialMerkle.v
TxLocks.v
TxInputs.v
Blocks.v
AssetRules.v
TxAssets.v
Connect.v
History.v
CheckQueue.v
ConnectBlock.v
ChainState.v
