(* ===== verification/Prelude.v ===== *)
(** Verification of the validation core of the Hemp0x node, a descendant of
    Bitcoin and Ravencoin with on-chain assets.

    * The program

    A node receives block headers and blocks.  A header is checked and enters
    the block index, a tree of headers; a block is checked on its own and
    against its parent, and the blocks of the branch with most work are
    connected one after the other: every transaction is checked against the
    set of unspent outputs and the state of the assets, its scripts are run,
    and it is applied to both.  A reorganisation disconnects blocks from undo
    data.  The unspent outputs and the assets are kept in stacks of write-back
    caches over databases.

    * Files and what they model (sources under src/src/)

    Arithmetic and the block index:
    - [Prelude]: machine integers as [Z] with the wrap-around written out,
      counted loops, array accesses, the result type, tactics and hints.
    - [ArithUint256] (arith_uint256): 256-bit numbers as limbs, the compact
      encoding of targets.
    - [Chain] (chain.h, chain.cpp, [AddToBlockIndex]): the index as an arena
      of entries, ancestors over skip pointers, work, the active chain.
    - [MedianTime]: the median time past and its monotonicity.
    - [VersionBits] (versionbits.cpp): states of deployments, with the cache.
    - [Pow] (pow.cpp): retargets and the check of a proof of work.
    - [Headers] (validation.cpp, checkpoints.cpp): the checks on headers,
      [AcceptBlockHeader], the subsidy.

    Formats:
    - [Serialize] (serialize.h), [Transaction] (primitives/transaction.h),
      [Compressor] (compressor.cpp, undo.h), [AssetTypes] (assettypes.h and
      the parsers of assets.cpp), [Base58] (base58.cpp).
    - [Merkle] (consensus/merkle.cpp) and [PartialMerkle] (merkleblock.cpp).

    Scripts:
    - [Script] (script/script.cpp), [Standard] (script/standard.cpp).
    - [Interpreter] (script/interpreter.cpp): [EvalScript]; [SigHash]: what
      signatures sign; [VerifyScript]: an input against an output.
    - [Hasher] (the buffering of crypto/*.cpp), [Sha2], [Sha1], [Ripemd160]
      (the unrolled rounds) and [Hashes] (the classes, hash.h, the keyed
      hashes): an instance of the interpreter's [HashFunctions].
    - [CuckooCache] (cuckoocache.h, script/sigcache.cpp): the hash table that
      displaces elements, and the cache of valid signatures over it.

    Assets:
    - [BoolEE] (LibBoolEE.cpp): verifier strings; [AssetNames] (assets.cpp):
      names; [AssetTx]: the form of issues.
    - [LruCache] ([CLRUCache]), [AssetCache] ([CAssetsCache]), [AssetDump]
      ([DumpCacheToDatabase]): the state of the assets.
    - [AssetRules] (the contextual checks of assets.cpp) and [TxAssets]
      ([CheckTxAssets] of consensus/tx_verify.cpp).

    Transactions and blocks:
    - [TxCheck] ([CheckTransaction]), [TxLocks] ([IsFinalTx], sequence locks),
      [TxInputs] ([CheckTxInputs], signature operations).
    - [Coins] (coins.cpp, txdb.cpp): unspent outputs.
    - [Blocks] ([CheckBlock], [ContextualCheckBlock], witness commitments).
    - [Connect] ([AddCoins], [UpdateCoins], [DisconnectBlock]),
      [ConnectBlock] ([CheckInputs], [ConnectBlock]).
    - [CheckQueue] (checkqueue.h): the threads that run the script checks of a
      block, as an interleaving step relation; [wait_threads] of
      [ConnectBlock] puts their verdict in the place of a loop.
    - [History] and [ChainState]: the chain as a sequence of connected and
      disconnected blocks; definitions of the specification only.

    * How code is modelled

    Integers keep their width: [w32], [w64], [s64] and the like write the
    wrap-around out where the code may reach it.  Bytes are a [list Z], a
    [uint256] its 32 bytes or the number of them.  Code that throws, asserts
    or dereferences returns a [result], with the failures as constructors of
    an error type; a check that rejects returns its reason.  Code that changes
    objects takes and returns them: the monad [stm] threads the cache that a
    lookup fills, arenas model pointers, nodes with identities model list
    iterators.  Interfaces are classes: [CCoinsView] with [CoinsViewLaws] for
    anything that answers for unspent outputs, [AssetsLookup] with
    [AssetsLookupLaws] for the asset state, [BaseSignatureChecker] for the
    interpreter, [ThresholdConditionChecker] for deployments, [Node],
    [HeaderHashes] and [HashFunctions] for the rest of the node.  Clients are
    proved against the laws; the implementations are instances.

    * What the theorems show

    - The whole chain ([ChainState]): along every sequence of blocks that the
      node connects and disconnects, with flushes, lookups and activations in
      between, the unspent outputs are those of applying the transactions of
      the active chain, no identifier repeats, all money together is within
      the subsidies (and what reissue outputs carried before values were
      enforced), and the last block can be undone.
    - A block ([ConnectBlock], [Connect]): a connected block spends what is
      unspent and mature, with scripts that hold unless it is assumed valid;
      disconnecting throws nothing, restores the unspent outputs unless it
      fails, which without the asset index it does not, and without assets
      restores everything.
    - The checks, each with its exact verdict: headers and the index as an
      invariant over all histories of acceptance, inputs and fees, locks,
      amounts, conservation of assets, tokens that authorise commands,
      restrictions, issues, block rejections that hold for every block with
      the header, commitments.
    - Scripts: termination and limits of the interpreter, flags only restrict,
      multisignature, key hashes on every branch, what signatures commit to.
    - Script threads: in every interleaving the verdict is that of all checks
      together, and the master returns after boundedly many steps.
    - Hashes: the buffered, unrolled code computes the published functions
      however a message is cut; the signature cache over them answers as the
      signature check does, up to collisions.
    - Optimised code against references: Merkle roots in one pass, skip-list
      ancestors, Dark Gravity Wave over 256-bit limbs, cached deployment
      states, the in-place signature serializer.
    - Refinements of caches: coins, recently used entries, assets and their
      databases, crashes in the middle of a database write.
    - Round trips of every format, in both directions where the reader is
      strict.

    * Fuel and bounds

    Recursion that is not structural carries fuel: the walks over the index
    take the number of its entries, verifier strings and scripts their length,
    regular expressions the length of the text; each has a theorem that the
    fuel is enough for every input.  Heights are below 2^31, sizes below the
    limits of the code, as hypotheses where the proofs need them.

    * What is not modelled

    Elliptic curve operations and the proof-of-work hashes are parameters.
    So are the hashes where only their values matter: theorems hold for all
    functions, or name the finitely many strings that must not collide, and
    [Hashes] gives the functions of the node, with which some of the
    witnesses are computed.  The answers of the signature and script caches are
    parameters of [ConnectBlock], supposed to be right where scripts are
    claimed to hold; [CuckooCache] shows when those of the signature cache
    are.  Of the node
    around the validation core the memory pool and relay policy, mining,
    the network, the wallet, the interfaces for users, message and reward
    databases, block files and process life cycle are not modelled: they are
    threads, files, sockets and floating point estimates around the modelled
    operations.  Of [ConnectBlock] the optional indexes, the message store and
    the lists of the wallet are left out; of [ActivateBestChain] the choice of
    the branch.  Logging, statistics and texts of errors are dropped
    throughout.

    * This file

    Shared vocabulary of the development: machine-width integers written
    out over [Z], counted loops, array reads and writes on lists, limb and
    byte lists read as numbers, and the result type used for code that
    throws or asserts.  The tactics and the hint database [hemp] used by
    the component files are declared here. *)

From Stdlib Require Import ZArith List Bool Lia.
Import ListNotations.
Open Scope Z_scope.

(** * Machine-width integers *)

Definition wrap (w x : Z) : Z := x mod 2 ^ w.
Definition w8 (x : Z) : Z := wrap 8 x.
Definition w16 (x : Z) : Z := wrap 16 x.
Definition w32 (x : Z) : Z := wrap 32 x.
Definition w64 (x : Z) : Z := wrap 64 x.

(** Two's complement reading of the low [w] bits. *)
Definition swrap (w x : Z) : Z :=
  (x + 2 ^ (w - 1)) mod 2 ^ w - 2 ^ (w - 1).
Definition s32 (x : Z) : Z := swrap 32 x.
Definition s64 (x : Z) : Z := swrap 64 x.

Definition in_u (w x : Z) : Prop := 0 <= x < 2 ^ w.
Definition in_s (w x : Z) : Prop := - 2 ^ (w - 1) <= x < 2 ^ (w - 1).

(** The unit of amounts (src/amount.h). *)
Definition COIN : Z := 100000000.

Create HintDb hemp.
Create Rewrite HintDb hemp.

Lemma pow2_pos (w : Z) : 0 <= w -> 0 < 2 ^ w.
Proof. intros; apply Z.pow_pos_nonneg; lia. Qed.

Lemma wrap_bounds (w x : Z) : 0 <= w -> in_u w (wrap w x).
Proof. intros; apply Z.mod_pos_bound, pow2_pos; lia. Qed.

Lemma wrap_id (w x : Z) : in_u w x -> wrap w x = x.
Proof. intros; apply Z.mod_small; assumption. Qed.

Lemma swrap_id (w x : Z) : 0 < w -> in_s w x -> swrap w x = x.
Proof.
  unfold swrap, in_s; intros Hw Hx.
  assert (2 ^ w = 2 * 2 ^ (w - 1))
    by (rewrite <- Z.pow_succ_r by lia; f_equal; lia).
  rewrite Z.mod_small; lia.
Qed.

Lemma swrap_bounds (w x : Z) : 0 < w -> in_s w (swrap w x).
Proof.
  unfold swrap, in_s; intros Hw.
  assert (2 ^ w = 2 * 2 ^ (w - 1))
    by (rewrite <- Z.pow_succ_r by lia; f_equal; lia).
  assert (0 < 2 ^ (w - 1)) by (apply pow2_pos; lia).
  pose proof (Z.mod_pos_bound (x + 2 ^ (w - 1)) (2 ^ w)). lia.
Qed.

Lemma testbit_high (w x n : Z) : in_u w x -> w <= n -> Z.testbit x n = false.
Proof.
  unfold in_u; intros Hx Hn.
  destruct (Z.eq_dec x 0) as [-> | Hne]; [apply Z.testbit_0_l |].
  assert (Hw : 0 <= w) by (destruct (Z.neg_nonneg_cases w); auto;
                           rewrite Z.pow_neg_r in Hx; lia).
  apply Z.bits_above_log2; [lia |]; apply Z.log2_lt_pow2; [lia |].
  eapply Z.lt_le_trans; [apply Hx |]; apply Z.pow_le_mono_r; lia.
Qed.

Lemma in_u_testbit (w x : Z) : 0 <= w -> 0 <= x ->
  (forall n, w <= n -> Z.testbit x n = false) -> in_u w x.
Proof.
  intros Hw Hx H; split; [assumption |].
  destruct (Z.lt_ge_cases x (2 ^ w)) as [| Hge]; [assumption |].
  assert (0 < 2 ^ w) by (apply Z.pow_pos_nonneg; lia).
  assert (Hb : Z.testbit x (Z.log2 x) = true) by (apply Z.bit_log2; lia).
  rewrite H in Hb; [discriminate |]; apply Z.log2_le_pow2; lia.
Qed.

(** Numbers below bit [n] and multiples of [2^n] have no bit in common. *)
Lemma land_shift_disjoint (x y n : Z) : in_u n x -> 0 <= n ->
  Z.land x (Z.shiftl y n) = 0.
Proof.
  intros Hx Hn; apply Z.bits_inj'; intros k Hk.
  rewrite Z.land_spec, Z.testbit_0_l, Z.shiftl_spec by lia.
  destruct (Z.lt_ge_cases k n).
  - rewrite (Z.testbit_neg_r _ (k - n)) by lia; apply andb_false_r.
  - rewrite (testbit_high n x k) by assumption; reflexivity.
Qed.

(** Adding a number above bit [n] to one below it is a disjunction. *)
Lemma add_lor_shift (x y n : Z) : in_u n x -> 0 <= n ->
  x + 2 ^ n * y = Z.lor x (Z.shiftl y n).
Proof.
  intros Hx Hn; rewrite Z.mul_comm, <- Z.shiftl_mul_pow2 by lia.
  rewrite Z.add_nocarry_lxor, Z.lxor_lor; auto; apply land_shift_disjoint; auto.
Qed.

(** Testing one bit with a mask. *)
Lemma land_pow2_eqb (x k : Z) : 0 <= k ->
  (Z.land x (2 ^ k) =? 0) = negb (Z.testbit x k).
Proof.
  intros Hk; apply eq_true_iff_eq; rewrite Z.eqb_eq, negb_true_iff; split; intros H.
  - apply (f_equal (fun z => Z.testbit z k)) in H.
    rewrite Z.land_spec, Z.pow2_bits_true, andb_true_r, Z.testbit_0_l in H by lia.
    exact H.
  - apply Z.bits_inj'; intros n Hn; rewrite Z.land_spec, Z.testbit_0_l.
    rewrite Z.pow2_bits_eqb by lia; destruct (Z.eqb_spec k n); subst.
    + rewrite H; reflexivity.
    + apply andb_false_r.
Qed.

(** The top bit of a [k+1]-bit number. *)
Lemma testbit_top (x k : Z) : 0 <= k -> in_u (k + 1) x ->
  Z.testbit x k = (2 ^ k <=? x).
Proof.
  unfold in_u; intros Hk Hx; rewrite Z.pow_add_r in Hx by lia.
  assert (0 < 2 ^ k) by (apply Z.pow_pos_nonneg; lia).
  apply eq_true_iff_eq; rewrite Z.testbit_true, Z.leb_le by lia; split; intros H'.
  - destruct (Z.lt_ge_cases x (2 ^ k)); [| lia]; rewrite Z.div_small in H'; [discriminate | lia].
  - replace (x / 2 ^ k) with 1; [reflexivity |].
    apply (Z.div_unique_pos _ _ 1 (x - 2 ^ k)); lia.
Qed.

#[export] Hint Resolve wrap_bounds wrap_id swrap_bounds pow2_pos : hemp.

(** Case analysis on the innermost scrutinee, remembering its value. *)
Ltac case_if :=
  match goal with
  | |- context [if ?b then _ else _] =>
      lazymatch b with
      | context [if _ then _ else _] => fail
      | _ => destruct b eqn:?
      end
  end.

(** Turn boolean comparisons of the context into propositions. *)
Ltac bool_to_prop :=
  repeat match goal with
  | H : (_ && _)%bool = true |- _ => apply andb_prop in H; destruct H
  | H : (_ || _)%bool = false |- _ => apply orb_false_elim in H; destruct H
  | H : negb _ = true |- _ => apply negb_true_iff in H
  | H : negb _ = false |- _ => apply negb_false_iff in H
  | H : (_ <? _) = true |- _ => apply Z.ltb_lt in H
  | H : (_ <? _) = false |- _ => apply Z.ltb_ge in H
  | H : (_ <=? _) = true |- _ => apply Z.leb_le in H
  | H : (_ <=? _) = false |- _ => apply Z.leb_gt in H
  | H : (_ =? _) = true |- _ => apply Z.eqb_eq in H
  | H : (_ =? _) = false |- _ => apply Z.eqb_neq in H
  | H : (_ >? _) = _ |- _ => rewrite Z.gtb_ltb in H
  | H : (_ >=? _) = _ |- _ => rewrite Z.geb_leb in H
  end.

(** Split the conjunctions written in the goal, not those of definitions. *)
Ltac split_all := repeat match goal with |- _ /\ _ => split end.

(** Invert an equation between constructor applications and substitute. *)
Ltac inv H := inversion H; subst; clear H.

(** * Results of code that throws or asserts *)

Inductive result (E A : Type) : Type :=
| Ok (a : A)
| Err (e : E).
Arguments Ok {E A} a.
Arguments Err {E A} e.

Definition bind {E A B : Type} (x : result E A) (f : A -> result E B)
  : result E B :=
  match x with
  | Ok a => f a
  | Err e => Err e
  end.

Declare Scope hemp_scope.
Delimit Scope hemp_scope with hemp.
Notation "'let!' x := c 'in' k" := (bind c (fun x => k))
  (at level 10, x pattern, c at level 100, k at level 200)
  : hemp_scope.
Open Scope hemp_scope.

Lemma bind_ok {E A B : Type} (x : result E A) (f : A -> result E B) (b : B) :
  bind x f = Ok b <-> exists a, x = Ok a /\ f a = Ok b.
Proof.
  destruct x as [a | e]; simpl; split.
  - eauto.
  - intros (a' & [= <-] & H); exact H.
  - discriminate.
  - intros (a' & [=] & _).
Qed.

Definition is_some {A : Type} (o : option A) : bool :=
  match o with Some _ => true | None => false end.

(** * Counted loops and arrays *)

(** [for (i = 0; i < n; i++) s = body(i, s)] *)
Fixpoint loop_from {S : Type} (i n : nat) (body : nat -> S -> S) (s : S) : S :=
  match n with
  | O => s
  | Datatypes.S n' => loop_from (Datatypes.S i) n' body (body i s)
  end.
Definition loop {S : Type} (n : nat) (body : nat -> S -> S) (s : S) : S :=
  loop_from 0 n body s.

Lemma loop_from_inv {S : Type} (P : nat -> S -> Prop) (body : nat -> S -> S) :
  forall n i s,
    P i s ->
    (forall j t, (i <= j < i + n)%nat -> P j t -> P (Datatypes.S j) (body j t)) ->
    P (i + n)%nat (loop_from i n body s).
Proof.
  induction n as [| n IH]; simpl; intros i s H0 Hstep.
  - rewrite Nat.add_0_r; exact H0.
  - rewrite Nat.add_succ_r, <- Nat.add_succ_l.
    apply IH; [apply Hstep; [lia | exact H0] |].
    intros; apply Hstep; [lia | assumption].
Qed.

Lemma loop_inv {S : Type} (P : nat -> S -> Prop) (n : nat)
    (body : nat -> S -> S) (s : S) :
  P O s ->
  (forall j t, (j < n)%nat -> P j t -> P (Datatypes.S j) (body j t)) ->
  P n (loop n body s).
Proof.
  intros H0 Hs; apply (loop_from_inv P body n 0 s H0).
  intros; apply Hs; [lia | assumption].
Qed.

(** Array read; the default is never reached by in-range code. *)
Definition get (l : list Z) (i : nat) : Z := nth i l 0.

Fixpoint upd {A : Type} (l : list A) (i : nat) (v : A) : list A :=
  match l, i with
  | [], _ => []
  | _ :: t, O => v :: t
  | x :: t, Datatypes.S i' => x :: upd t i' v
  end.

Lemma length_upd {A : Type} (l : list A) i v : length (upd l i v) = length l.
Proof. revert i; induction l; destruct i; simpl; auto. Qed.

Lemma nth_upd {A} (l : list A) (i j : nat) (v d : A) : (i < length l)%nat ->
  nth j (upd l i v) d = if Nat.eqb i j then v else nth j l d.
Proof.
  revert i j; induction l as [| x l IH]; intros [| i] [| j]; simpl; intros; try lia; auto.
  apply IH; lia.
Qed.

Lemma get_upd (l : list Z) i j v :
  (i < length l)%nat -> get (upd l i v) j = if Nat.eqb i j then v else get l j.
Proof. apply nth_upd. Qed.

Lemma Forall_upd {A : Type} (P : A -> Prop) (l : list A) i v :
  Forall P l -> P v -> Forall P (upd l i v).
Proof.
  intros H Hv; revert i; induction H; destruct i; simpl; constructor; auto.
Qed.

Lemma get_Forall (P : Z -> Prop) (l : list Z) i :
  Forall P l -> P 0 -> P (get l i).
Proof.
  intros H H0; unfold get; revert i.
  induction H; destruct i; simpl; auto.
Qed.

(** A function without collisions among some arguments. *)
Definition injective_on {A B} (f : A -> B) (l : list A) : Prop :=
  forall x y, In x l -> In y l -> f x = f y -> x = y.

Lemma injective_on_sub {A B} (f : A -> B) (l l' : list A) : (forall x, In x l' -> In x l) -> injective_on f l -> injective_on f l'.
Proof. intros S I x y X Y; apply I; auto. Qed.

(** Evaluated on byte strings. *)
Definition injective_onb (f : list Z -> list Z) (l : list (list Z)) : bool :=
  let m := map (fun x => (x, f x)) l in
  forallb (fun p => forallb (fun q =>
    if list_eq_dec Z.eq_dec (snd p) (snd q) then if list_eq_dec Z.eq_dec (fst p) (fst q) then true else false else true) m) m.

Lemma injective_onb_ok f l : injective_onb f l = true -> injective_on f l.
Proof.
  unfold injective_onb; intros H x y X Y E; rewrite forallb_forall in H.
  specialize (H (x, f x) ltac:(apply in_map_iff; eauto)); rewrite forallb_forall in H.
  specialize (H (y, f y) ltac:(apply in_map_iff; eauto)); cbn [fst snd] in H; rewrite E in H.
  destruct (list_eq_dec Z.eq_dec (f y) (f y)); [|contradiction]; destruct (list_eq_dec Z.eq_dec x y); [assumption|discriminate].
Qed.

Lemma list_ext (l m : list Z) :
  length l = length m -> (forall i, (i < length l)%nat -> get l i = get m i) -> l = m.
Proof.
  intros Hl H; apply (nth_ext l m 0 0 Hl); exact H.
Qed.

Lemma app_eq_length {A : Type} (a b c d : list A) : length a = length c -> a ++ b = c ++ d -> a = c /\ b = d.
Proof.
  revert c; induction a as [| x a IH]; intros [| y c] Hl E; try discriminate; auto.
  injection E as -> E; injection Hl as Hl; destruct (IH c Hl E) as [-> ->]; auto.
Qed.

Lemma app_eq_tail {A : Type} (a b c d : list A) : length b = length d -> a ++ b = c ++ d -> a = c /\ b = d.
Proof.
  intros Hl E; apply app_eq_length; [| exact E].
  apply (f_equal (@length A)) in E; rewrite !length_app in E; lia.
Qed.

Lemma firstn_S_nth {A : Type} (l : list A) (i : nat) (d : A) :
  (i < length l)%nat -> firstn (S i) l = firstn i l ++ [nth i l d].
Proof.
  revert l; induction i as [| i IH]; intros [| x l] H; simpl in *; try lia; auto.
  f_equal; apply IH; lia.
Qed.

Lemma Forall_firstn' {A : Type} (P : A -> Prop) (n : nat) (l : list A) :
  Forall P l -> Forall P (firstn n l).
Proof. intros H; revert n; induction H; intros [| n]; simpl; auto. Qed.

Lemma Forall_skipn' {A : Type} (P : A -> Prop) (n : nat) (l : list A) :
  Forall P l -> Forall P (skipn n l).
Proof. intros H; revert n; induction H; intros [| n]; simpl; auto. Qed.

#[export] Hint Resolve Forall_firstn' Forall_skipn' : hemp.
#[export] Hint Rewrite @length_upd @length_app @length_map @repeat_length
  @length_firstn @length_skipn @length_rev : hemp.

(** * Little-endian digit lists *)

(** The number whose base-[2^w] digits are [l], least significant first. *)
Fixpoint le_val (w : Z) (l : list Z) : Z :=
  match l with
  | [] => 0
  | x :: t => x + 2 ^ w * le_val w t
  end.

Lemma le_val_app w l m : 0 <= w ->
  le_val w (l ++ m) = le_val w l + 2 ^ (w * Z.of_nat (length l)) * le_val w m.
Proof.
  intros Hw; induction l as [| x l IH].
  - cbn [app le_val length]; rewrite Z.mul_0_r, Z.pow_0_r; lia.
  - cbn [le_val app length]; rewrite IH, Nat2Z.inj_succ, Z.mul_succ_r.
    rewrite Z.pow_add_r by lia; ring.
Qed.

Lemma le_val_bounds w l : 0 <= w -> Forall (in_u w) l ->
  0 <= le_val w l < 2 ^ (w * Z.of_nat (length l)).
Proof.
  intros Hw; induction 1 as [| x l Hx _ IH].
  - cbn [app le_val length]; rewrite Z.mul_0_r, Z.pow_0_r; lia.
  - cbn [le_val length]; rewrite Nat2Z.inj_succ, Z.mul_succ_r.
    rewrite Z.pow_add_r by lia; unfold in_u in Hx; nia.
Qed.

Lemma le_val_repeat0 w n : le_val w (repeat 0 n) = 0.
Proof. induction n; simpl; [reflexivity |]; rewrite IHn; lia. Qed.

Lemma le_val_inj w l m : 0 <= w ->
  Forall (in_u w) l -> Forall (in_u w) m -> length l = length m ->
  le_val w l = le_val w m -> l = m.
Proof.
  intros Hw Hl; revert m.
  induction Hl as [| x l Hx Hl IH]; intros [| y m] Hm Hlen E; try discriminate; auto.
  cbn [le_val] in E; inv Hm; injection Hlen as Hlen; unfold in_u in *.
  assert (0 < 2 ^ w) by (apply pow2_pos; lia).
  assert (Ex : x = y).
  { apply (f_equal (fun z => z mod 2 ^ w)) in E.
    rewrite !(Z.mul_comm (2 ^ w)), !Z_mod_plus_full, !Z.mod_small in E; assumption. }
  subst; f_equal; apply IH; auto; nia.
Qed.

(** Bit [n] of a digit list is bit [n mod w] of digit [n / w]. *)
Lemma le_val_testbit w l n : 0 < w -> 0 <= n -> Forall (in_u w) l ->
  Z.testbit (le_val w l) n = Z.testbit (get l (Z.to_nat (n / w))) (n mod w).
Proof.
  intros Hw Hn Hl; revert n Hn.
  induction Hl as [| x l Hx Hl IH]; intros n Hn; cbn [le_val].
  - unfold get; destruct (Z.to_nat (n / w)); simpl; rewrite !Z.testbit_0_l; reflexivity.
  - rewrite add_lor_shift, Z.lor_spec, Z.shiftl_spec by (auto; lia).
    destruct (Z.ltb_spec n w).
    + rewrite (Z.testbit_neg_r _ (n - w)), orb_false_r by lia.
      rewrite Z.div_small, Z.mod_small by lia; reflexivity.
    + rewrite (testbit_high w x n), orb_false_l, IH by (assumption || lia).
      replace (n / w) with ((n - w) / w + 1)
        by (rewrite <- Z.div_add by lia; f_equal; lia).
      rewrite Z2Nat.inj_add, Nat.add_comm by (try apply Z.div_pos; lia).
      unfold get; cbn [Z.to_nat Pos.to_nat Pos.iter_op Nat.add nth]; f_equal.
      rewrite <- (Z_mod_plus_full (n - w) 1 w); f_equal; lia.
Qed.

(** Split a number into [n] base-[2^w] digits. *)
Fixpoint le_split (w : Z) (n : nat) (x : Z) : list Z :=
  match n with
  | O => []
  | S n' => x mod 2 ^ w :: le_split w n' (x / 2 ^ w)
  end.

Lemma length_le_split w n x : length (le_split w n x) = n.
Proof. revert x; induction n; simpl; auto. Qed.

Lemma le_split_digits w n x : 0 <= w -> Forall (in_u w) (le_split w n x).
Proof.
  intros; revert x; induction n; simpl; constructor; auto.
  apply wrap_bounds; assumption.
Qed.

Lemma le_val_split w n x : 0 <= w ->
  le_val w (le_split w n x) = x mod 2 ^ (w * Z.of_nat n).
Proof.
  intros Hw; revert x; induction n as [| n IH]; intros x.
  - simpl; rewrite Z.mul_0_r, Z.mod_1_r; reflexivity.
  - cbn [le_split le_val]; rewrite IH, Nat2Z.inj_succ, Z.mul_succ_r.
    rewrite (Z.add_comm (w * _)), Z.pow_add_r by lia.
    assert (0 < 2 ^ w) by (apply pow2_pos; lia).
    assert (0 < 2 ^ (w * Z.of_nat n)) by (apply pow2_pos; lia).
    rewrite Z.rem_mul_r by lia; ring.
Qed.

Lemma le_split_val w l : 0 <= w -> Forall (in_u w) l ->
  le_split w (length l) (le_val w l) = l.
Proof.
  intros Hw Hl; apply (le_val_inj w); auto using le_split_digits, length_le_split.
  rewrite le_val_split by assumption; apply Z.mod_small, le_val_bounds; auto.
Qed.

#[export] Hint Rewrite length_le_split : hemp.
#[export] Hint Resolve le_split_digits Forall_upd : hemp.
