(* ===== verification/ArithUint256.v ===== *)
(** [base_uint<256>] and [arith_uint256] (src/arith_uint256.h,
    src/arith_uint256.cpp): 256-bit unsigned integers stored as eight 32-bit
    limbs, least significant first, and the "compact" encoding of difficulty
    targets.  An object is the list of its limbs [pn]; [val] reads it as a
    number.  The theorems say that every operator of the class computes the
    operation of its name on that number, modulo [2^256]. *)

From Stdlib Require Import ZArith List Bool Lia.
From S2P Require Import Prelude.
Import ListNotations.
Open Scope Z_scope.

Module BaseUint.

Definition WIDTH : nat := 8.

Definition val (pn : list Z) : Z := le_val 32 pn.

(** The representation invariant: [uint32_t pn[WIDTH]]. *)
Definition wf (pn : list Z) : Prop :=
  length pn = WIDTH /\ Forall (in_u 32) pn.

(** * Construction and assignment *)

Definition zero : list Z := repeat 0 WIDTH.

(** [base_uint(uint64_t b)] and [operator=(uint64_t b)] *)
Definition of_u64 (b : Z) : list Z :=
  [w32 b; w32 (Z.shiftr b 32)] ++ repeat 0 (WIDTH - 2).

(** * Bitwise operators *)

Fixpoint zip_limbs (f : Z -> Z -> Z) (a b : list Z) : list Z :=
  match a, b with
  | x :: a', y :: b' => f x y :: zip_limbs f a' b'
  | _, _ => []
  end.

Definition op_not (a : list Z) : bool := forallb (fun x => x =? 0) a.
Definition compl (a : list Z) : list Z := map (fun x => w32 (Z.lnot x)) a.
Definition bxor (a b : list Z) : list Z := zip_limbs Z.lxor a b.
Definition band (a b : list Z) : list Z := zip_limbs Z.land a b.
Definition bor (a b : list Z) : list Z := zip_limbs Z.lor a b.

(** [operator^=(uint64_t)], [operator|=(uint64_t)]: the two low limbs *)
Definition bxor_u64 (a : list Z) (b : Z) : list Z :=
  upd (upd a 0 (Z.lxor (get a 0) (w32 b))) 1
      (Z.lxor (get a 1) (w32 (Z.shiftr b 32))).
Definition bor_u64 (a : list Z) (b : Z) : list Z :=
  upd (upd a 0 (Z.lor (get a 0) (w32 b))) 1
      (Z.lor (get a 1) (w32 (Z.shiftr b 32))).

(** * Addition, negation, increment *)

(** The loop of [operator+=], from limb [i] on, with the running [carry]. *)
Fixpoint add_loop (carry : Z) (a b : list Z) : list Z :=
  match a, b with
  | x :: a', y :: b' =>
      let n := w64 (carry + x + y) in
      Z.land n 0xffffffff :: add_loop (Z.shiftr n 32) a' b'
  | _, _ => []
  end.
Definition add (a b : list Z) : list Z := add_loop 0 a b.

(** [while (i < WIDTH && ++pn[i] == 0) i++] *)
Fixpoint incr (a : list Z) : list Z :=
  match a with
  | [] => []
  | x :: a' =>
      let x' := w32 (x + 1) in
      if x' =? 0 then x' :: incr a' else x' :: a'
  end.

(** [while (i < WIDTH && --pn[i] == (uint32_t)-1) i++] *)
Fixpoint decr (a : list Z) : list Z :=
  match a with
  | [] => []
  | x :: a' =>
      let x' := w32 (x - 1) in
      if x' =? 0xffffffff then x' :: decr a' else x' :: a'
  end.

Definition neg (a : list Z) : list Z := incr (compl a).
Definition sub (a b : list Z) : list Z := add a (neg b).
Definition add_u64 (a : list Z) (b64 : Z) : list Z := add a (of_u64 b64).
Definition sub_u64 (a : list Z) (b64 : Z) : list Z := add a (neg (of_u64 b64)).

(** * Multiplication *)

(** [operator*=(uint32_t b32)] *)
Fixpoint mul_u32_loop (carry : Z) (b32 : Z) (a : list Z) : list Z :=
  match a with
  | [] => []
  | x :: a' =>
      let n := w64 (carry + w64 (b32 * x)) in
      Z.land n 0xffffffff :: mul_u32_loop (Z.shiftr n 32) b32 a'
  end.
Definition mul_u32 (a : list Z) (b32 : Z) : list Z := mul_u32_loop 0 b32 a.

(** The inner loop of [operator*=]: [pn] from limb [j] on, [a.pn[j]] and [b]. *)
Fixpoint mul_inner (carry : Z) (aj : Z) (pn b : list Z) : list Z :=
  match pn, b with
  | x :: pn', y :: b' =>
      let n := w64 (carry + x + w64 (aj * y)) in
      Z.land n 0xffffffff :: mul_inner (Z.shiftr n 32) aj pn' b'
  | _, _ => []
  end.

(** The outer loop, from index [j] on: [pn] is the result from limb [j] on,
    [a] the limbs of the first factor from [j] on. *)
Fixpoint mul_outer (pn a b : list Z) : list Z :=
  match a with
  | [] => pn
  | aj :: a' =>
      match mul_inner 0 aj pn b with
      | [] => []
      | x :: pn' => x :: mul_outer pn' a' b
      end
  end.
Definition mul (a b : list Z) : list Z := mul_outer zero a b.

(** * Shifts *)

(** [if (c) pn[j] |= v] *)
Definition or_at (c : bool) (j : nat) (v : Z) (pn : list Z) : list Z :=
  if c then upd pn j (Z.lor (get pn j) v) else pn.

Definition shl_body (a : list Z) (k : nat) (s : Z) (i : nat) (pn : list Z) : list Z :=
  let pn1 := or_at (Nat.ltb (i + k + 1) WIDTH && negb (s =? 0)) (i + k + 1)
                   (Z.shiftr (get a i) (32 - s)) pn in
  or_at (Nat.ltb (i + k) WIDTH) (i + k) (w32 (Z.shiftl (get a i) s)) pn1.

(** [operator<<=(unsigned int shift)] *)
Definition shl (a : list Z) (shift : Z) : list Z :=
  loop WIDTH (shl_body a (Z.to_nat (shift / 32)) (shift mod 32)) zero.

Definition shr_body (a : list Z) (k : nat) (s : Z) (i : nat) (pn : list Z) : list Z :=
  let pn1 := or_at (Nat.leb (k + 1) i && negb (s =? 0)) (i - k - 1)
                   (w32 (Z.shiftl (get a i) (32 - s))) pn in
  or_at (Nat.leb k i) (i - k) (Z.shiftr (get a i) s) pn1.

(** [operator>>=(unsigned int shift)] *)
Definition shr (a : list Z) (shift : Z) : list Z :=
  loop WIDTH (shr_body a (Z.to_nat (shift / 32)) (shift mod 32)) zero.

(** * Comparison *)

(** The loop of [CompareTo], over the limbs from the most significant one. *)
Fixpoint cmp_loop (a b : list Z) : Z :=
  match a, b with
  | x :: a', y :: b' =>
      if x <? y then -1 else if x >? y then 1 else cmp_loop a' b'
  | _, _ => 0
  end.
Definition CompareTo (a b : list Z) : Z := cmp_loop (rev a) (rev b).

Definition EqualTo (a : list Z) (b : Z) : bool :=
  if existsb (fun x => negb (x =? 0)) (skipn 2 a) then false
  else if negb (get a 1 =? Z.shiftr b 32) then false
  else if negb (get a 0 =? Z.land b 0xffffffff) then false
  else true.

Definition gt (a b : list Z) : bool := CompareTo a b >? 0.
Definition lt (a b : list Z) : bool := CompareTo a b <? 0.
Definition ge (a b : list Z) : bool := CompareTo a b >=? 0.
Definition le (a b : list Z) : bool := CompareTo a b <=? 0.

(** [memcmp(a.pn, b.pn, sizeof(a.pn)) == 0] *)
Fixpoint eqb (a b : list Z) : bool :=
  match a, b with
  | [], [] => true
  | x :: a', y :: b' => (x =? y) && eqb a' b'
  | _, _ => false
  end.

(** * Bit length and division *)

(** [for (nbits = n; nbits > 0; nbits--) if (x & 1 << nbits) return ...] *)
Fixpoint nbits_loop (n : nat) (pos x : Z) : Z :=
  match n with
  | O => 32 * pos + 1
  | S n' =>
      if negb (Z.land x (w32 (Z.shiftl 1 (Z.of_nat n))) =? 0)
      then 32 * pos + Z.of_nat n + 1
      else nbits_loop n' pos x
  end.

(** The limbs from the most significant one; [pos] is the index of the head. *)
Fixpoint bits_loop (l : list Z) : Z :=
  match l with
  | [] => 0
  | x :: l' =>
      if negb (x =? 0) then nbits_loop 31 (Z.of_nat (length l')) x
      else bits_loop l'
  end.
Definition bits (a : list Z) : Z := bits_loop (rev a).

Definition GetLow64 (a : list Z) : Z :=
  Z.lor (get a 0) (w64 (Z.shiftl (get a 1) 32)).

(** [pn[shift / 32] |= (1 << (shift & 31))] *)
Definition set_bit (q : list Z) (shift : Z) : list Z :=
  let j := Z.to_nat (shift / 32) in
  upd q j (Z.lor (get q j) (w32 (Z.shiftl 1 (Z.land shift 31)))).

(** [while (shift >= 0)] of [operator/=]: [n] iterations are left, so
    [shift = n - 1]. *)
Fixpoint div_loop (n : nat) (q num div : list Z) : list Z * list Z :=
  match n with
  | O => (q, num)
  | S n' =>
      let shift := Z.of_nat n' in
      let '(q1, num1) :=
        if ge num div then (set_bit q shift, sub num div) else (q, num) in
      div_loop n' q1 num1 (shr div 1)
  end.

Inductive uint_error := DivisionByZero.

(** [operator/=]: the quotient, or the exception; [div_mod] also returns the
    value left in [num]. *)
Definition div_mod (a b : list Z) : result uint_error (list Z * list Z) :=
  let num_bits := bits a in
  let div_bits := bits b in
  if div_bits =? 0 then Err DivisionByZero
  else if div_bits >? num_bits then Ok (zero, a)
  else
    let shift := num_bits - div_bits in
    Ok (div_loop (Z.to_nat (shift + 1)) zero a (shl b shift)).

Definition div (a b : list Z) : result uint_error (list Z) :=
  let! r := div_mod a b in Ok (fst r).

End BaseUint.

Module ArithU256.
Import BaseUint.

(** * The compact encoding *)

Record compact := mkCompact {
  target : list Z;
  fNegative : bool;
  fOverflow : bool
}.

Definition SetCompact (nCompact : Z) : compact :=
  let nSize := Z.shiftr nCompact 24 in
  let nWord0 := Z.land nCompact 0x007fffff in
  let nWord := if nSize <=? 3 then Z.shiftr nWord0 (8 * (3 - nSize)) else nWord0 in
  let t := if nSize <=? 3 then of_u64 nWord
           else shl (of_u64 nWord) (8 * (nSize - 3)) in
  {| target := t;
     fNegative := negb (nWord =? 0) && negb (Z.land nCompact 0x00800000 =? 0);
     fOverflow := negb (nWord =? 0) &&
                  ((nSize >? 34) || ((nWord >? 0xff) && (nSize >? 33))
                   || ((nWord >? 0xffff) && (nSize >? 32))) |}.

(** [None] stands for a failed [assert]. *)
Definition GetCompact (a : list Z) (fNeg : bool) : option Z :=
  let nSize := (bits a + 7) / 8 in
  let nCompact :=
    if nSize <=? 3 then w32 (w64 (Z.shiftl (GetLow64 a) (8 * (3 - nSize))))
    else w32 (GetLow64 (shr a (8 * (nSize - 3)))) in
  let '(nCompact, nSize) :=
    if negb (Z.land nCompact 0x00800000 =? 0)
    then (Z.shiftr nCompact 8, nSize + 1) else (nCompact, nSize) in
  if negb (Z.land nCompact (w32 (Z.lnot 0x007fffff)) =? 0) then None
  else if negb (nSize <? 256) then None
  else
    let nCompact := Z.lor nCompact (w32 (Z.shiftl nSize 24)) in
    Some (Z.lor nCompact
            (if fNeg && negb (Z.land nCompact 0x007fffff =? 0)
             then 0x00800000 else 0)).

(** * Conversion to and from the 32-byte [uint256] *)

(** [WriteLE32] of each limb, in order *)
Definition ArithToUint256 (a : list Z) : list Z :=
  flat_map (le_split 8 4) a.

(** [ReadLE32(a.begin() + x*4)] for [x = 0 .. WIDTH-1] *)
Definition UintToArith256 (bytes : list Z) : list Z :=
  map (fun x => le_val 8 (firstn 4 (skipn (x * 4) bytes))) (seq 0 WIDTH).

End ArithU256.

(** * Properties of the limb loops *)

Section Limbs.
Import BaseUint.

Definition limb_base : Z := 2 ^ 32.

(** One step of a carry loop: the low digit of [n], and the rest. *)
Lemma mod_digit (n R N : Z) : 0 < N ->
  (n + limb_base * R) mod (limb_base * N) = n mod limb_base + limb_base * ((n / limb_base + R) mod N).
Proof.
  intros HN; unfold limb_base; rewrite Z.rem_mul_r by lia.
  rewrite (Z.mul_comm (2 ^ 32) R), Z_mod_plus_full, Z.div_add by lia; reflexivity.
Qed.

Lemma pow_limbs (n : nat) : 2 ^ (32 * Z.of_nat (S n)) = limb_base * 2 ^ (32 * Z.of_nat n).
Proof. unfold limb_base; rewrite <- Z.pow_add_r by lia; f_equal; lia. Qed.

Lemma low_limb (n : Z) : Z.land n 0xffffffff = n mod limb_base.
Proof. exact (Z.land_ones n 32 ltac:(lia)). Qed.

Lemma high_limb (n : Z) : Z.shiftr n 32 = n / limb_base.
Proof. apply Z.shiftr_div_pow2; lia. Qed.

Lemma w64_small (n : Z) : 0 <= n < limb_base * limb_base -> w64 n = n.
Proof. apply Z.mod_small. Qed.

Lemma carry_bound (n k : Z) : 0 <= n < limb_base * k -> 0 <= n / limb_base < k.
Proof.
  intros H; split; [apply Z.div_pos | apply Z.div_lt_upper_bound]; unfold limb_base in *; lia.
Qed.

Lemma add_loop_val (a b : list Z) (c : Z) :
  Forall (in_u 32) a -> Forall (in_u 32) b -> length a = length b -> 0 <= c <= 1 ->
  val (add_loop c a b) = (c + val a + val b) mod 2 ^ (32 * Z.of_nat (length a)).
Proof.
  intros Ha; revert b c.
  induction Ha as [| x a Hx Ha IH]; intros [| y b] c Hb Hl Hc; try discriminate.
  - cbn; rewrite Z.mod_1_r; reflexivity.
  - inv Hb; injection Hl as Hl; unfold in_u in *.
    cbn [add_loop length]; unfold val in *; cbn [le_val].
    rewrite w64_small, low_limb, high_limb by (unfold limb_base; lia).
    rewrite IH; auto.
    + rewrite pow_limbs; fold limb_base.
      replace (c + (x + limb_base * le_val 32 a) + (y + limb_base * le_val 32 b))
        with (c + x + y + limb_base * (le_val 32 a + le_val 32 b)) by ring.
      rewrite mod_digit by (apply pow2_pos; lia); rewrite Z.add_assoc; reflexivity.
    + pose proof (carry_bound (c + x + y) 2); unfold limb_base in *; lia.
Qed.

Lemma mul_u32_loop_val (a : list Z) (b c : Z) :
  Forall (in_u 32) a -> in_u 32 b -> in_u 32 c ->
  val (mul_u32_loop c b a) = (c + b * val a) mod 2 ^ (32 * Z.of_nat (length a)).
Proof.
  intros Ha Hb; revert c; induction Ha as [| x a Hx Ha IH]; intros c Hc.
  - cbn; rewrite Z.mod_1_r; reflexivity.
  - unfold in_u in *; cbn [mul_u32_loop length]; unfold val in *; cbn [le_val].
    rewrite (w64_small (b * x)), w64_small, low_limb, high_limb by (unfold limb_base; nia).
    rewrite IH by (apply carry_bound; unfold limb_base; nia).
    rewrite pow_limbs; fold limb_base.
    replace (c + b * (x + limb_base * le_val 32 a)) with (c + b * x + limb_base * (b * le_val 32 a)) by ring.
    rewrite mod_digit by (apply pow2_pos; lia); reflexivity.
Qed.

Lemma mul_inner_val (pn b : list Z) (c aj : Z) :
  Forall (in_u 32) pn -> Forall (in_u 32) b -> (length pn <= length b)%nat ->
  in_u 32 aj -> in_u 32 c ->
  val (mul_inner c aj pn b)
  = (c + val pn + aj * val b) mod 2 ^ (32 * Z.of_nat (length pn)).
Proof.
  intros Hp; revert b c; induction Hp as [| x pn Hx Hp IH]; intros [| y b] c Hb Hl Haj Hc;
    try (simpl in Hl; lia); try (cbn; rewrite Z.mod_1_r; reflexivity).
  inv Hb; unfold in_u in *; cbn [mul_inner length]; unfold val in *; cbn [le_val].
  rewrite (w64_small (aj * y)), w64_small, low_limb, high_limb by (unfold limb_base; nia).
  rewrite IH; auto; [| simpl in Hl; lia | apply carry_bound; unfold limb_base; nia].
  rewrite pow_limbs; fold limb_base.
  replace (c + (x + limb_base * le_val 32 pn) + aj * (y + limb_base * le_val 32 b))
    with (c + x + aj * y + limb_base * (le_val 32 pn + aj * le_val 32 b)) by ring.
  rewrite mod_digit by (apply pow2_pos; lia); rewrite Z.add_assoc; reflexivity.
Qed.

Lemma limb_in (n : Z) : in_u 32 (Z.land n 0xffffffff).
Proof. rewrite low_limb; apply Z.mod_pos_bound; reflexivity. Qed.

Lemma mul_inner_wf (pn b : list Z) c aj : (length pn <= length b)%nat ->
  length (mul_inner c aj pn b) = length pn /\ Forall (in_u 32) (mul_inner c aj pn b).
Proof.
  revert b c; induction pn as [| x pn IH]; intros [| y b] c H; simpl in *; auto; try lia.
  destruct (IH b (Z.shiftr (w64 (c + x + w64 (aj * y))) 32)) as [-> ?]; [lia |].
  split; [reflexivity | constructor; auto using limb_in].
Qed.

Lemma mul_outer_val (a pn b : list Z) :
  Forall (in_u 32) a -> Forall (in_u 32) pn -> Forall (in_u 32) b ->
  length a = length pn -> (length pn <= length b)%nat ->
  val (mul_outer pn a b) = (val pn + val a * val b) mod 2 ^ (32 * Z.of_nat (length pn)).
Proof.
  intros Ha; revert pn; induction Ha as [| aj a Haj Ha IH]; intros pn Hp Hb Hl Hlb.
  - destruct pn; [| discriminate]; reflexivity.
  - cbn [mul_outer]; destruct pn as [| p0 pn0]; [discriminate |].
    pose proof (mul_inner_val (p0 :: pn0) b 0 aj Hp Hb Hlb Haj ltac:(split; [lia | reflexivity])) as Hi.
    destruct (mul_inner_wf (p0 :: pn0) b 0 aj Hlb) as [Hil Hif].
    destruct (mul_inner 0 aj (p0 :: pn0) b) as [| x pn']; [discriminate |].
    inv Hif; injection Hil as Hil; injection Hl as Hl; simpl in Hlb.
    cbn [length] in *; rewrite pow_limbs in *.
    unfold val in *; cbn [le_val] in *; rewrite IH by (auto; lia); fold limb_base in *.
    assert (0 < 2 ^ (32 * Z.of_nat (length pn0))) by (apply pow2_pos; lia).
    rewrite Hil.
    transitivity ((x + limb_base * (le_val 32 pn' + le_val 32 a * le_val 32 b))
                  mod (limb_base * 2 ^ (32 * Z.of_nat (length pn0)))).
    + rewrite mod_digit by assumption; unfold in_u in *.
      rewrite (Z.mod_small x), (Z.div_small x) by (unfold limb_base; lia); reflexivity.
    + rewrite Z.mul_add_distr_l, Z.add_assoc, Hi, Z.add_mod_idemp_l by (unfold limb_base; lia).
      f_equal; ring.
Qed.

Lemma incr_val (a : list Z) : Forall (in_u 32) a ->
  val (incr a) = (val a + 1) mod 2 ^ (32 * Z.of_nat (length a)).
Proof.
  induction 1 as [| x a Hx Ha IH]; [reflexivity |].
  cbn [incr length]; unfold val in *; rewrite pow_limbs; unfold in_u in Hx.
  replace (le_val 32 (x :: a) + 1) with ((x + 1) + limb_base * le_val 32 a)
    by (cbn [le_val]; unfold limb_base; ring).
  rewrite mod_digit by (apply pow2_pos; lia).
  assert (Hb := le_val_bounds 32 a ltac:(lia) Ha).
  change (w32 (x + 1)) with ((x + 1) mod limb_base).
  destruct (Z.eqb_spec ((x + 1) mod limb_base) 0) as [E | E]; cbn [le_val]; fold limb_base; f_equal.
  - rewrite IH; f_equal; f_equal.
    assert (x + 1 = limb_base) as ->; [| unfold limb_base; rewrite Z.div_same by lia; ring].
    destruct (Z.eq_dec (x + 1) limb_base); auto; rewrite Z.mod_small in E; unfold limb_base in *; lia.
  - f_equal; rewrite Z.div_small, Z.add_0_l, Z.mod_small; auto.
    split; [lia |]; destruct (Z.eq_dec (x + 1) limb_base) as [E1 |]; [| unfold limb_base in *; lia].
    rewrite E1, Z.mod_same in E; [lia | unfold limb_base; lia].
Qed.

Lemma decr_val (a : list Z) : Forall (in_u 32) a ->
  val (decr a) = (val a - 1) mod 2 ^ (32 * Z.of_nat (length a)).
Proof.
  induction 1 as [| x a Hx Ha IH]; [reflexivity |].
  cbn [decr length]; unfold val in *; rewrite pow_limbs; unfold in_u in Hx.
  replace (le_val 32 (x :: a) - 1) with ((x - 1) + limb_base * le_val 32 a)
    by (cbn [le_val]; unfold limb_base; ring).
  rewrite mod_digit by (apply pow2_pos; lia).
  assert (Hb := le_val_bounds 32 a ltac:(lia) Ha).
  change (w32 (x - 1)) with ((x - 1) mod limb_base).
  destruct (Z.eq_dec x 0) as [-> | Hx0].
  - change ((0 - 1) mod limb_base =? 0xffffffff) with true; cbn iota; cbn [le_val]; fold limb_base.
    f_equal; rewrite IH; f_equal; f_equal; unfold limb_base; change ((0 - 1) / 2 ^ 32) with (-1); ring.
  - rewrite (Z.mod_small (x - 1)), Z.div_small, Z.add_0_l by (unfold limb_base; lia).
    rewrite (Z.mod_small (le_val 32 a)) by assumption.
    destruct (Z.eqb_spec (x - 1) 0xffffffff); [lia |]; reflexivity.
Qed.

Lemma compl_val (a : list Z) : Forall (in_u 32) a ->
  val (compl a) = 2 ^ (32 * Z.of_nat (length a)) - 1 - val a.
Proof.
  induction 1 as [| x a Hx Ha IH]; [reflexivity |].
  cbn [compl map length]; unfold val in *; rewrite pow_limbs; cbn [le_val].
  fold (compl a); rewrite IH; fold limb_base; unfold w32, wrap, in_u in *.
  replace (Z.lnot x mod 2 ^ 32) with (limb_base - 1 - x); [ring |].
  rewrite <- (Z_mod_plus_full (Z.lnot x) 1); unfold Z.lnot, limb_base.
  rewrite Z.mod_small; lia.
Qed.

End Limbs.

(** * The representation invariant *)

Section Wf.
Import BaseUint.

Lemma zip_limbs_wf (f : Z -> Z -> Z) (a b : list Z) :
  (forall x y, in_u 32 x -> in_u 32 y -> in_u 32 (f x y)) ->
  wf a -> wf b -> wf (zip_limbs f a b).
Proof.
  intros Hf [Hla Ha] [Hlb Hb].
  assert (H : length (zip_limbs f a b) = length a /\ Forall (in_u 32) (zip_limbs f a b)).
  { assert (Hl : length a = length b) by congruence; clear Hla Hlb; revert b Hb Hl.
    induction Ha as [| x a Hx Ha IH]; intros [| y b] Hb Hl; try discriminate; simpl; auto.
    inv Hb; destruct (IH b) as [-> ?]; auto. }
  split; [rewrite <- Hla |]; apply H.
Qed.

Lemma add_loop_wf (a b : list Z) c : length a = length b ->
  length (add_loop c a b) = length a /\ Forall (in_u 32) (add_loop c a b).
Proof.
  revert b c; induction a as [| x a IH]; intros [| y b] c H; simpl in *; auto; try lia.
  destruct (IH b (Z.shiftr (w64 (c + x + y)) 32)) as [-> ?]; [lia |].
  split; [reflexivity | constructor; auto using limb_in].
Qed.

Lemma add_wf (a b : list Z) : wf a -> wf b -> wf (add a b).
Proof.
  intros [Ha _] [Hb _]; destruct (add_loop_wf a b 0) as [Hl Hf]; [congruence |].
  split; [unfold add; congruence | exact Hf].
Qed.

Lemma incr_wf (a : list Z) : wf a -> wf (incr a).
Proof.
  unfold wf; generalize WIDTH; intros w [Hl Ha]; revert w Hl.
  induction Ha as [| x a Hx Ha IH]; intros w Hl; simpl in *; auto.
  destruct w; [lia |]; destruct (IH w ltac:(lia)).
  destruct (_ =? 0); (split; [simpl; lia | constructor; auto with hemp]);
    apply wrap_bounds; lia.
Qed.

Lemma decr_wf (a : list Z) : wf a -> wf (decr a).
Proof.
  unfold wf; generalize WIDTH; intros w [Hl Ha]; revert w Hl.
  induction Ha as [| x a Hx Ha IH]; intros w Hl; simpl in *; auto.
  destruct w; [lia |]; destruct (IH w ltac:(lia)).
  destruct (_ =? _); (split; [simpl; lia | constructor; auto with hemp]);
    apply wrap_bounds; lia.
Qed.

Lemma compl_wf (a : list Z) : wf a -> wf (compl a).
Proof.
  intros [Hl _]; unfold compl; split; [rewrite length_map; exact Hl |].
  apply Forall_map, Forall_forall; intros; apply wrap_bounds; lia.
Qed.

Lemma zero_wf : wf zero.
Proof. split; [reflexivity | repeat constructor; unfold in_u; lia]. Qed.

Lemma of_u64_wf b : wf (of_u64 b).
Proof.
  split; [reflexivity |]; unfold of_u64; apply Forall_app; split.
  - repeat constructor; apply wrap_bounds; lia.
  - repeat constructor; unfold in_u; lia.
Qed.

Lemma neg_wf (a : list Z) : wf a -> wf (neg a).
Proof. intros; apply incr_wf, compl_wf; assumption. Qed.

Lemma sub_wf (a b : list Z) : wf a -> wf b -> wf (sub a b).
Proof. intros; apply add_wf; [| apply neg_wf]; assumption. Qed.

Lemma mul_u32_wf (a : list Z) b : wf a -> wf (mul_u32 a b).
Proof.
  unfold wf, mul_u32; generalize WIDTH; intros w [Hl Ha]; revert w Hl; generalize 0.
  induction Ha as [| x a Hx Ha IH]; intros c w Hl; simpl in *; auto.
  destruct w; [lia |]; destruct (IH (Z.shiftr (w64 (c + w64 (b * x))) 32) w ltac:(lia)).
  split; [simpl; lia | constructor; auto using limb_in].
Qed.

Lemma mul_outer_wf (a pn b : list Z) :
  length a = length pn -> (length pn <= length b)%nat -> Forall (in_u 32) pn ->
  length (mul_outer pn a b) = length pn /\ Forall (in_u 32) (mul_outer pn a b).
Proof.
  revert pn; induction a as [| aj a IH]; intros pn Hl Hb Hp; simpl; auto.
  destruct (mul_inner_wf pn b 0 aj Hb) as [Hil Hif].
  destruct (mul_inner 0 aj pn b) as [| x pn'], pn as [| p pn0]; try discriminate.
  simpl in *; inv Hif; destruct (IH pn') as [IHl IHf]; try lia; auto.
  split; [simpl; lia | auto].
Qed.

Lemma mul_wf (a b : list Z) : wf a -> wf b -> wf (mul a b).
Proof.
  intros [Ha _] [Hb _].
  destruct (mul_outer_wf a zero b) as [Hl Hf]; auto; try apply zero_wf.
  - rewrite Hb; reflexivity.
  - split; [exact Hl | exact Hf].
Qed.

Lemma val_bounds (a : list Z) : wf a -> 0 <= val a < 2 ^ 256.
Proof.
  intros [Hl Ha]; pose proof (le_val_bounds 32 a ltac:(lia) Ha) as H.
  rewrite Hl in H; exact H.
Qed.

Lemma val_inj (a b : list Z) : wf a -> wf b -> val a = val b -> a = b.
Proof. intros [Hl Ha] [Hm Hb]; apply le_val_inj; auto; lia || congruence. Qed.

Lemma val_zero : val zero = 0.
Proof. reflexivity. Qed.

Lemma val_of_u64 b : val (of_u64 b) = w64 b.
Proof.
  unfold of_u64, val; cbn [le_val app repeat WIDTH Nat.sub].
  unfold w32, w64, wrap; rewrite Z.shiftr_div_pow2 by lia.
  change (2 ^ 64) with (2 ^ 32 * 2 ^ 32); rewrite (Z.rem_mul_r b) by lia; lia.
Qed.

Lemma val_testbit (a : list Z) n : wf a -> 0 <= n ->
  Z.testbit (val a) n = Z.testbit (get a (Z.to_nat (n / 32))) (n mod 32).
Proof. intros [_ Ha] Hn; apply le_val_testbit; auto; lia. Qed.

Lemma get_in (a : list Z) i : wf a -> in_u 32 (get a i).
Proof. intros [_ Ha]; apply get_Forall; auto; unfold in_u; lia. Qed.

End Wf.

#[export] Hint Resolve add_wf incr_wf decr_wf compl_wf zero_wf of_u64_wf neg_wf
  sub_wf mul_u32_wf mul_wf get_in : hemp.

(** * Shifts *)

Section Shifts.
Import BaseUint.

Lemma in_u_lor (x y : Z) : in_u 32 x -> in_u 32 y -> in_u 32 (Z.lor x y).
Proof.
  intros Hx Hy; apply in_u_testbit; [lia | apply Z.lor_nonneg; unfold in_u in *; lia |].
  intros n Hn; rewrite Z.lor_spec, (testbit_high 32 x), (testbit_high 32 y); auto.
Qed.

Lemma in_u_shiftr (x n : Z) : 0 <= n -> in_u 32 x -> in_u 32 (Z.shiftr x n).
Proof.
  intros Hn Hx; rewrite Z.shiftr_div_pow2 by lia; unfold in_u in *.
  assert (0 < 2 ^ n) by (apply pow2_pos; lia).
  split; [apply Z.div_pos; lia |]; apply Z.div_lt_upper_bound; nia.
Qed.

(** [pn[j] |= v] is a disjunction with [v] shifted to limb [j]. *)
Lemma or_at_spec (c : bool) (j : nat) (v : Z) (pn : list Z) :
  wf pn -> in_u 32 v -> (c = true -> (j < WIDTH)%nat) ->
  wf (or_at c j v pn) /\
  val (or_at c j v pn) =
    Z.lor (val pn) (if c then Z.shiftl v (32 * Z.of_nat j) else 0).
Proof.
  intros [Hl Hf] Hv Hc; unfold or_at.
  destruct c; [| split; [split; auto | rewrite Z.lor_0_r; reflexivity]].
  specialize (Hc eq_refl).
  assert (Hwf : wf (upd pn j (Z.lor (get pn j) v))).
  { split; [rewrite length_upd; exact Hl | apply Forall_upd; [exact Hf |]].
    apply in_u_lor; [apply get_in; split; auto | exact Hv]. }
  split; [exact Hwf |]; apply Z.bits_inj'; intros n Hn.
  rewrite val_testbit, Z.lor_spec, val_testbit, Z.shiftl_spec by (auto; split; auto).
  rewrite get_upd by lia.
  pose proof (Z.div_mod n 32 ltac:(lia)); pose proof (Z.mod_pos_bound n 32 ltac:(lia)).
  assert (0 <= n / 32) by (apply Z.div_pos; lia).
  destruct (Nat.eqb_spec j (Z.to_nat (n / 32))) as [E | E].
  - rewrite Z.lor_spec, <- E; do 2 f_equal; lia.
  - destruct (Z.lt_ge_cases n (32 * Z.of_nat j)).
    + rewrite (Z.testbit_neg_r v) by lia; rewrite orb_false_r; reflexivity.
    + rewrite (testbit_high 32 v), orb_false_r by (auto; lia); reflexivity.
Qed.

(** The two halves of a limb shifted left by [32*m + s]. *)
Lemma shl_halves (x s : Z) (m : nat) : in_u 32 x -> 0 <= s < 32 ->
  Z.lor (if (Nat.ltb (m + 1) WIDTH && negb (s =? 0))%bool
         then Z.shiftl (Z.shiftr x (32 - s)) (32 * Z.of_nat (m + 1)) else 0)
        (if Nat.ltb m WIDTH
         then Z.shiftl (w32 (Z.shiftl x s)) (32 * Z.of_nat m) else 0)
  = Z.shiftl x (32 * Z.of_nat m + s) mod 2 ^ 256.
Proof.
  intros Hx Hs; apply Z.bits_inj'; intros n Hn.
  assert (Hlo : forall b : bool, Z.testbit (if b then Z.shiftl (w32 (Z.shiftl x s)) (32 * Z.of_nat m) else 0) n
    = (b && (n <? 32 * Z.of_nat m + 32) && Z.testbit x (n - 32 * Z.of_nat m - s))%bool).
  { intros []; [| apply Z.testbit_0_l]; rewrite Z.shiftl_spec by lia; unfold w32, wrap.
    destruct (Z.lt_ge_cases n (32 * Z.of_nat m)).
    - rewrite !Z.testbit_neg_r by lia; rewrite andb_false_r; reflexivity.
    - destruct (Z.ltb_spec n (32 * Z.of_nat m + 32)).
      + rewrite Z.mod_pow2_bits_low, Z.shiftl_spec by lia; reflexivity.
      + rewrite Z.mod_pow2_bits_high by lia; reflexivity. }
  assert (Hhi : forall b : bool, Z.testbit (if b then Z.shiftl (Z.shiftr x (32 - s)) (32 * Z.of_nat (m + 1)) else 0) n
    = (b && (32 * Z.of_nat m + 32 <=? n) && Z.testbit x (n - 32 * Z.of_nat m - s))%bool).
  { intros []; [| apply Z.testbit_0_l]; rewrite Z.shiftl_spec by lia.
    destruct (Z.leb_spec (32 * Z.of_nat m + 32) n).
    - rewrite Z.shiftr_spec by lia; cbn [andb]; f_equal; lia.
    - rewrite Z.testbit_neg_r by lia; reflexivity. }
  rewrite Z.lor_spec, Hlo, Hhi; clear Hlo Hhi.
  destruct (Z.lt_ge_cases n 256).
  - rewrite Z.mod_pow2_bits_low, Z.shiftl_spec, Z.sub_add_distr by lia.
    destruct (Z.testbit x _) eqn:E; rewrite ?andb_false_r, ?andb_true_r; auto.
    assert (0 <= n - 32 * Z.of_nat m - s < 32).
    { split; apply Z.nlt_ge || apply Z.nle_gt; intros ?.
      - rewrite Z.testbit_neg_r in E; [discriminate | lia].
      - rewrite (testbit_high 32) in E; [discriminate | auto | lia]. }
    unfold WIDTH; destruct (Nat.ltb_spec (m + 1) 8), (Nat.ltb_spec m 8), (Z.eqb_spec s 0),
      (Z.leb_spec (32 * Z.of_nat m + 32) n), (Z.ltb_spec n (32 * Z.of_nat m + 32));
      simpl; auto; lia.
  - rewrite Z.mod_pow2_bits_high by lia.
    unfold WIDTH; destruct (Nat.ltb_spec m 8), (Nat.ltb_spec (m + 1) 8),
      (Z.ltb_spec n (32 * Z.of_nat m + 32)); try lia; cbn [andb orb]; auto.
    + rewrite (testbit_high 32 x), !andb_false_r by (auto; lia); reflexivity.
Qed.

(** The two halves of limb [i] shifted right by [32*k + s]. *)
Lemma shr_halves (x s : Z) (i k : nat) : in_u 32 x -> 0 <= s < 32 ->
  Z.lor (if (Nat.leb (k + 1) i && negb (s =? 0))%bool
         then Z.shiftl (w32 (Z.shiftl x (32 - s))) (32 * Z.of_nat (i - k - 1)) else 0)
        (if Nat.leb k i
         then Z.shiftl (Z.shiftr x s) (32 * Z.of_nat (i - k)) else 0)
  = Z.shiftr (Z.shiftl x (32 * Z.of_nat i)) (32 * Z.of_nat k + s).
Proof.
  intros Hx Hs; apply Z.bits_inj'; intros n Hn.
  rewrite Z.shiftr_spec, Z.shiftl_spec, Z.lor_spec by lia.
  set (d := n + (32 * Z.of_nat k + s) - 32 * Z.of_nat i).
  assert (Hhi : Z.testbit (if Nat.leb k i then Z.shiftl (Z.shiftr x s) (32 * Z.of_nat (i - k)) else 0) n
    = (Nat.leb k i && (s <=? d) && Z.testbit x d)%bool).
  { destruct (Nat.leb_spec k i); [| apply Z.testbit_0_l]; rewrite Z.shiftl_spec by lia.
    destruct (Z.leb_spec s d); cbn [andb]; [rewrite Z.shiftr_spec by lia; f_equal; lia |].
    rewrite Z.testbit_neg_r by lia; reflexivity. }
  assert (Hlo : Z.testbit (if (Nat.leb (k + 1) i && negb (s =? 0))%bool
      then Z.shiftl (w32 (Z.shiftl x (32 - s))) (32 * Z.of_nat (i - k - 1)) else 0) n
    = (Nat.leb (k + 1) i && negb (s =? 0) && (d <? s) && Z.testbit x d)%bool).
  { destruct (Nat.leb_spec (k + 1) i), (Z.eqb_spec s 0); cbn [andb negb];
      try apply Z.testbit_0_l; rewrite Z.shiftl_spec by lia; unfold w32, wrap.
    destruct (Z.ltb_spec d s).
    - cbn [andb]; destruct (Z.lt_ge_cases n (32 * Z.of_nat (i - k - 1))).
      + rewrite !Z.testbit_neg_r by lia; reflexivity.
      + rewrite Z.mod_pow2_bits_low, Z.shiftl_spec by lia; f_equal; lia.
    - rewrite Z.mod_pow2_bits_high by lia; reflexivity. }
  rewrite Hhi, Hlo; clear Hhi Hlo.
  destruct (Z.testbit x d) eqn:E; rewrite ?andb_false_r, ?andb_true_r; auto.
  assert (0 <= d < 32).
  { split; apply Z.nlt_ge || apply Z.nle_gt; intros ?.
    - rewrite Z.testbit_neg_r in E; [discriminate | lia].
    - rewrite (testbit_high 32) in E; [discriminate | auto | lia]. }
  destruct (Nat.leb_spec (k + 1) i), (Nat.leb_spec k i), (Z.eqb_spec s 0),
    (Z.leb_spec s d), (Z.ltb_spec d s); cbn [andb orb negb]; auto; lia.
Qed.

Lemma val_firstn (a : list Z) (i : nat) : wf a -> (i < WIDTH)%nat ->
  val (firstn (S i) a) = Z.lor (val (firstn i a)) (Z.shiftl (get a i) (32 * Z.of_nat i)).
Proof.
  intros [Hl Hf] Hi; unfold val, get.
  assert (E : firstn (S i) a = firstn i a ++ [nth i a 0]).
  { rewrite (firstn_S_nth a i 0) by lia; reflexivity. }
  assert (Hn : length (firstn i a) = i) by (rewrite length_firstn; lia).
  rewrite E, le_val_app, Hn by lia; cbn [le_val]; rewrite Z.mul_0_r, Z.add_0_r.
  apply add_lor_shift; [| lia].
  pose proof (le_val_bounds 32 (firstn i a) ltac:(lia)) as Hb; rewrite Hn in Hb.
  apply Hb, Forall_firstn', Hf.
Qed.

Lemma shl_spec (a : list Z) (shift : Z) : wf a -> 0 <= shift ->
  wf (shl a shift) /\ val (shl a shift) = (val a * 2 ^ shift) mod 2 ^ 256.
Proof.
  intros Ha Hs; unfold shl.
  pose proof (Z.div_mod shift 32 ltac:(lia)); pose proof (Z.mod_pos_bound shift 32 ltac:(lia)).
  assert (0 <= shift / 32) by (apply Z.div_pos; lia).
  set (k := Z.to_nat (shift / 32)); set (s := shift mod 32) in *.
  assert (Hr := loop_inv (fun i pn => wf pn /\
     val pn = Z.shiftl (val (firstn i a)) shift mod 2 ^ 256) WIDTH (shl_body a k s) zero).
  destruct Hr as [Hw ->].
  - split; [apply zero_wf |]; rewrite Z.shiftl_0_l; reflexivity.
  - intros i pn Hi [Hw Hv]; unfold shl_body.
    assert (Hg := get_in a i Ha).
    destruct (or_at_spec (Nat.ltb (i + k + 1) WIDTH && negb (s =? 0)) (i + k + 1)
                (Z.shiftr (get a i) (32 - s)) pn Hw) as [Hw1 Hv1].
    { apply in_u_shiftr; [lia | exact Hg]. }
    { intros [?%Nat.ltb_lt _]%andb_prop; lia. }
    destruct (or_at_spec (Nat.ltb (i + k) WIDTH) (i + k) (w32 (Z.shiftl (get a i) s)) _ Hw1)
      as [Hw2 Hv2]; [apply wrap_bounds; lia | intros ?%Nat.ltb_lt; lia |].
    split; [exact Hw2 |]; rewrite Hv2, Hv1, Hv, <- Z.lor_assoc, shl_halves by assumption.
    rewrite val_firstn, Z.shiftl_lor, Z.shiftl_shiftl by (auto; lia).
    rewrite <- !Z.land_ones, Z.land_lor_distr_l by lia; do 3 f_equal; lia.
  - split; [exact Hw |]; rewrite firstn_all2, Z.shiftl_mul_pow2 by (destruct Ha; lia).
    reflexivity.
Qed.

Lemma shr_spec (a : list Z) (shift : Z) : wf a -> 0 <= shift ->
  wf (shr a shift) /\ val (shr a shift) = val a / 2 ^ shift.
Proof.
  intros Ha Hs; unfold shr.
  pose proof (Z.div_mod shift 32 ltac:(lia)); pose proof (Z.mod_pos_bound shift 32 ltac:(lia)).
  assert (0 <= shift / 32) by (apply Z.div_pos; lia).
  set (k := Z.to_nat (shift / 32)); set (s := shift mod 32) in *.
  assert (Hr := loop_inv (fun i pn => wf pn /\
     val pn = Z.shiftr (val (firstn i a)) shift) WIDTH (shr_body a k s) zero).
  destruct Hr as [Hw ->].
  - split; [apply zero_wf |]; rewrite Z.shiftr_0_l; reflexivity.
  - intros i pn Hi [Hw Hv]; unfold shr_body.
    assert (Hg := get_in a i Ha).
    destruct (or_at_spec (Nat.leb (k + 1) i && negb (s =? 0)) (i - k - 1)
                (w32 (Z.shiftl (get a i) (32 - s))) pn Hw) as [Hw1 Hv1].
    { apply wrap_bounds; lia. }
    { intros [?%Nat.leb_le _]%andb_prop; lia. }
    destruct (or_at_spec (Nat.leb k i) (i - k) (Z.shiftr (get a i) s) _ Hw1)
      as [Hw2 Hv2]; [apply in_u_shiftr; [lia | exact Hg] | intros ?%Nat.leb_le; lia |].
    split; [exact Hw2 |]; rewrite Hv2, Hv1, Hv, <- Z.lor_assoc, shr_halves by assumption.
    rewrite val_firstn, Z.shiftr_lor by (auto; lia); do 2 f_equal; lia.
  - split; [exact Hw |]; rewrite firstn_all2, Z.shiftr_div_pow2 by (destruct Ha; lia).
    reflexivity.
Qed.

End Shifts.

(** * Comparison, bit length and division *)

Section Order.
Import BaseUint.

(** The number of bits of a value: 0 for 0, else the highest set bit plus 1. *)
Definition bitlen (v : Z) : Z := if v =? 0 then 0 else Z.log2 v + 1.

Lemma val_rev_cons (x : Z) (p : list Z) :
  val (rev (x :: p)) = val (rev p) + 2 ^ (32 * Z.of_nat (length p)) * x.
Proof.
  unfold val; cbn [rev]; rewrite le_val_app, length_rev by lia; cbn [le_val]; ring.
Qed.

Lemma cmp_loop_spec (p q : list Z) :
  Forall (in_u 32) p -> Forall (in_u 32) q -> length p = length q ->
  cmp_loop p q = Z.sgn (val (rev p) - val (rev q)).
Proof.
  intros Hp; revert q; induction Hp as [| x p Hx Hp IH]; intros [| y q] Hq Hl;
    try discriminate; [reflexivity |]; injection Hl as Hl; inv Hq.
  rewrite !val_rev_cons, <- Hl; cbn [cmp_loop]; rewrite IH by assumption.
  assert (Hbp := le_val_bounds 32 (rev p) ltac:(lia) (Forall_rev Hp)).
  assert (Hbq := le_val_bounds 32 (rev q) ltac:(lia) (Forall_rev H2)).
  rewrite !length_rev, <- ?Hl in *; unfold val, in_u in *.
  set (N := 2 ^ (32 * Z.of_nat (length p))) in *.
  destruct (Z.ltb_spec x y); [| rewrite Z.gtb_ltb; destruct (Z.ltb_spec y x)].
  - symmetry; apply Z.sgn_neg; nia.
  - symmetry; apply Z.sgn_pos; nia.
  - assert (x = y) by lia; subst; f_equal; lia.
Qed.

Lemma CompareTo_spec (a b : list Z) : wf a -> wf b ->
  CompareTo a b = Z.sgn (val a - val b).
Proof.
  intros [Hla Ha] [Hlb Hb]; unfold CompareTo.
  rewrite cmp_loop_spec, !rev_involutive; auto using Forall_rev.
  rewrite !length_rev; congruence.
Qed.

Lemma nbits_loop_spec (n : nat) (pos x : Z) : (n <= 31)%nat ->
  0 < x < 2 ^ (Z.of_nat n + 1) -> nbits_loop n pos x = 32 * pos + Z.log2 x + 1.
Proof.
  induction n as [| n IH]; intros Hn Hx; cbn [nbits_loop].
  - assert (x = 1) by (change (2 ^ (Z.of_nat 0 + 1)) with 2 in Hx; lia).
    subst; change (Z.log2 1) with 0; lia.
  - unfold w32; rewrite wrap_id.
    2: { rewrite Z.shiftl_mul_pow2, Z.mul_1_l by lia; split; [apply Z.pow_nonneg; lia |].
         apply Z.pow_lt_mono_r; lia. }
    rewrite Z.shiftl_mul_pow2, Z.mul_1_l, land_pow2_eqb, negb_involutive by lia.
    destruct (Z.testbit x (Z.of_nat (S n))) eqn:E.
    + assert (Z.log2 x = Z.of_nat (S n)); [| lia].
      apply Z.le_antisymm.
      * apply Z.lt_succ_r, Z.log2_lt_pow2; [lia |]; replace (Z.succ _) with (Z.of_nat (S n) + 1) by lia; lia.
      * apply Z.le_ngt; intros Hlt; rewrite Z.bits_above_log2 in E; [discriminate | lia | exact Hlt].
    + rewrite IH; [lia | lia |]; split; [lia |].
      apply in_u_testbit; [lia | lia |]; intros m Hm.
      destruct (Z.eq_dec m (Z.of_nat (S n))) as [-> |]; [exact E |].
      apply (testbit_high (Z.of_nat (S n) + 1)); unfold in_u; lia.
Qed.

Lemma bits_spec (a : list Z) : wf a -> bits a = bitlen (val a).
Proof.
  intros [_ Ha]; unfold bits; rewrite <- (rev_involutive a) at 2.
  apply Forall_rev in Ha; induction Ha as [| x p Hx Hp IH]; [reflexivity |].
  rewrite val_rev_cons; cbn [bits_loop].
  assert (Hb := le_val_bounds 32 (rev p) ltac:(lia) (Forall_rev Hp)).
  rewrite length_rev in Hb; fold (val (rev p)) in Hb.
  destruct (Z.eqb_spec x 0) as [-> | Hx0]; cbn [negb].
  - rewrite Z.mul_0_r, Z.add_0_r; exact IH.
  - unfold in_u in Hx; rewrite nbits_loop_spec by (cbn; lia).
    set (N := 32 * Z.of_nat (length p)) in *; unfold bitlen.
    destruct (Z.eqb_spec (val (rev p) + 2 ^ N * x) 0); [nia |]; f_equal; symmetry.
    apply Z.log2_unique; [pose proof (Z.log2_nonneg x); lia |].
    destruct (Z.log2_spec x) as [H1 H2]; [lia |].
    pose proof (Z.log2_nonneg x).
    replace (Z.succ (N + Z.log2 x)) with (N + Z.succ (Z.log2 x)) by lia.
    rewrite !Z.pow_add_r by lia; nia.
Qed.

Lemma bitlen_bounds (v : Z) : 0 < v -> 2 ^ (bitlen v - 1) <= v < 2 ^ bitlen v.
Proof.
  intros Hv; unfold bitlen; destruct (Z.eqb_spec v 0); [lia |].
  pose proof (Z.log2_spec v Hv); rewrite Z.add_simpl_r; lia.
Qed.

Lemma bitlen_0 (v : Z) : 0 <= v -> bitlen v = 0 <-> v = 0.
Proof.
  intros Hv; unfold bitlen; destruct (Z.eqb_spec v 0); [tauto |].
  pose proof (Z.log2_nonneg v); lia.
Qed.

Lemma bitlen_nonneg (v : Z) : 0 <= bitlen v.
Proof. unfold bitlen; destruct (v =? 0); [lia |]; pose proof (Z.log2_nonneg v); lia. Qed.

Lemma bitlen_le (v w : Z) : 0 <= w -> 0 <= v < 2 ^ w -> bitlen v <= w.
Proof.
  intros Hw Hv; unfold bitlen; destruct (Z.eqb_spec v 0); [lia |].
  pose proof (proj1 (Z.log2_lt_pow2 v w ltac:(lia)) ltac:(lia)); lia.
Qed.

Lemma add_spec (a b : list Z) : wf a -> wf b ->
  val (add a b) = (val a + val b) mod 2 ^ 256.
Proof.
  intros [Hla Ha] [Hlb Hb]; unfold add; rewrite add_loop_val, Hla; auto; lia || congruence.
Qed.

Lemma neg_spec (a : list Z) : wf a -> val (neg a) = (- val a) mod 2 ^ 256.
Proof.
  intros H; destruct (compl_wf a H) as [Hlc Hc]; destruct H as [Hla Ha]; unfold neg.
  rewrite incr_val, compl_val, Hlc, Hla by assumption.
  change (32 * Z.of_nat WIDTH) with 256.
  rewrite <- (Z_mod_plus_full (- val a) 1); f_equal; lia.
Qed.

Lemma sub_spec (a b : list Z) : wf a -> wf b ->
  val (sub a b) = (val a - val b) mod 2 ^ 256.
Proof.
  intros Ha Hb; unfold sub; rewrite add_spec, neg_spec by auto with hemp.
  rewrite Z.add_mod_idemp_r by lia; reflexivity.
Qed.

Lemma set_bit_spec (q : list Z) (s : Z) : wf q -> 0 <= s < 256 ->
  Z.testbit (val q) s = false ->
  wf (set_bit q s) /\ val (set_bit q s) = val q + 2 ^ s.
Proof.
  intros Hq Hs Hbit; unfold set_bit.
  rewrite (Z.land_ones s 5 ltac:(lia) : Z.land s 31 = s mod 2 ^ 5).
  pose proof (Z.div_mod s 32 ltac:(lia)); pose proof (Z.mod_pos_bound s 32 ltac:(lia)).
  assert (0 <= s / 32 < 8) by (split; [apply Z.div_pos | apply Z.div_lt_upper_bound]; lia).
  destruct (or_at_spec true (Z.to_nat (s / 32)) (w32 (Z.shiftl 1 (s mod 2 ^ 5))) q Hq)
    as [Hw Hv]; [apply wrap_bounds; lia | unfold WIDTH; lia |].
  split; [exact Hw |]; unfold or_at in Hv; rewrite Hv; unfold w32; rewrite wrap_id.
  - rewrite Z.shiftl_shiftl, Z2Nat.id by (change (2 ^ 5) with 32; lia).
    change (2 ^ 5) with 32; replace (s mod 32 + 32 * (s / 32)) with s by lia.
    rewrite Z.shiftl_mul_pow2, Z.mul_1_l by lia; symmetry.
    rewrite Z.add_nocarry_lxor, Z.lxor_lor; auto; apply Z.bits_inj'; intros n Hn;
      rewrite Z.land_spec, Z.testbit_0_l, Z.pow2_bits_eqb by lia;
      destruct (Z.eqb_spec s n); subst; rewrite ?Hbit, ?andb_false_r; reflexivity.
  - change (2 ^ 5) with 32; rewrite Z.shiftl_mul_pow2, Z.mul_1_l by lia.
    split; [apply Z.pow_nonneg; lia | apply Z.pow_lt_mono_r; lia].
Qed.

(** [n] iterations of the division loop, with the divisor [D] shifted left
    by [n - 1]: the quotient bits below [n] are produced. *)
Lemma div_loop_spec (D : Z) (n : nat) : 0 < D -> forall q num d,
  wf q -> wf num -> wf d -> (n <= 256)%nat ->
  (n <> O -> val d = D * 2 ^ (Z.of_nat n - 1)) ->
  val num < D * 2 ^ Z.of_nat n ->
  val q mod 2 ^ Z.of_nat n = 0 ->
  let r := div_loop n q num d in
  wf (fst r) /\ wf (snd r) /\
  val (fst r) = val q + val num / D /\ val (snd r) = val num mod D.
Proof.
  intros HD; induction n as [| n IH]; intros q num d Hq Hnum Hd Hn Hdv Hlt Hqz; cbn [div_loop].
  - pose proof (val_bounds num Hnum); simpl fst; simpl snd.
    change (2 ^ Z.of_nat 0) with 1 in Hlt; rewrite Z.div_small, Z.mod_small by lia.
    repeat split; auto; try apply Hq; try apply Hnum; lia.
  - specialize (Hdv ltac:(discriminate)); rewrite Nat2Z.inj_succ in *.
    replace (Z.succ (Z.of_nat n) - 1) with (Z.of_nat n) in Hdv by lia.
    rewrite Z.pow_succ_r in * by lia.
    assert (HP : 0 < 2 ^ Z.of_nat n) by (apply pow2_pos; lia).
    destruct (shr_spec d 1 Hd ltac:(lia)) as [Hsw Hsv].
    assert (Hdiv : n <> O -> val (shr d 1) = D * 2 ^ (Z.of_nat n - 1)).
    { intros Hn0; rewrite Hsv, Hdv.
      replace (Z.of_nat n) with (Z.succ (Z.of_nat n - 1)) at 1 by lia.
      rewrite Z.pow_succ_r by lia.
      replace (D * (2 * 2 ^ (Z.of_nat n - 1))) with (D * 2 ^ (Z.of_nat n - 1) * 2) by ring.
      apply Z.div_mul; lia. }
    pose proof (val_bounds num Hnum); pose proof (val_bounds d Hd).
    assert (Hq' : val q mod 2 ^ Z.of_nat n = 0 /\ Z.testbit (val q) (Z.of_nat n) = false).
    { apply Z.mod_divide in Hqz; [| lia]; destruct Hqz as [c Hc]; split.
      - rewrite Hc; replace (c * (2 * 2 ^ Z.of_nat n)) with (c * 2 * 2 ^ Z.of_nat n) by ring.
        apply Z.mod_mul; lia.
      - rewrite Hc, <- Z.pow_succ_r, Z.mul_pow2_bits_low by lia; reflexivity. }
    unfold ge; rewrite CompareTo_spec, Z.geb_leb by assumption.
    destruct (Z.leb_spec 0 (Z.sgn (val num - val d))) as [Hge | Hge].
    + assert (Hge' : val d <= val num) by (destruct (Z.sgn_spec (val num - val d)); lia).
      destruct (set_bit_spec q (Z.of_nat n) Hq) as [Hbw Hbv]; [lia | apply Hq' |].
      assert (Hsub : val (sub num d) = val num - D * 2 ^ Z.of_nat n).
      { rewrite sub_spec, Z.mod_small by (auto; lia); lia. }
      destruct (IH (set_bit q (Z.of_nat n)) (sub num d) (shr d 1)) as (R1 & R2 & R3 & R4);
        auto with hemp; try lia.
      { rewrite Hbv, <- Z.add_mod_idemp_l, (proj1 Hq'), Z.add_0_l by lia; apply Z.mod_same; lia. }
      repeat split; try apply R1; try apply R2; [rewrite R3 | rewrite R4]; rewrite Hsub, ?Hbv.
      * replace (val num - D * 2 ^ Z.of_nat n) with (val num + (- 2 ^ Z.of_nat n) * D) by ring.
        rewrite Z.div_add by lia; ring.
      * replace (val num - D * 2 ^ Z.of_nat n) with (val num + (- 2 ^ Z.of_nat n) * D) by ring.
        apply Z_mod_plus_full.
    + assert (Hlt' : val num < val d) by (destruct (Z.sgn_spec (val num - val d)); lia).
      apply IH; auto; try lia; apply Hq'.
Qed.

Lemma div_mod_ok (a b : list Z) : wf a -> wf b -> val b <> 0 ->
  exists q r, div_mod a b = Ok (q, r) /\ wf q /\ wf r /\
              val q = val a / val b /\ val r = val a mod val b.
Proof.
  intros Ha Hb Hne; unfold div_mod; rewrite !bits_spec by assumption.
  pose proof (val_bounds a Ha) as Ba; pose proof (val_bounds b Hb) as Bb.
  pose proof (bitlen_bounds (val b) ltac:(lia)) as Lb.
  pose proof (bitlen_le (val a) 256 ltac:(lia) Ba).
  destruct (Z.eqb_spec (bitlen (val b)) 0) as [E |]; [apply (proj1 (bitlen_0 (val b) ltac:(lia))) in E; lia |].
  rewrite Z.gtb_ltb; pose proof (bitlen_nonneg (val b)).
  destruct (Z.ltb_spec (bitlen (val a)) (bitlen (val b))).
  - assert (val a < val b).
    { destruct (Z.eq_dec (val a) 0); [lia |].
      pose proof (bitlen_bounds (val a) ltac:(lia)).
      pose proof (Z.pow_le_mono_r 2 (bitlen (val a)) (bitlen (val b) - 1)); lia. }
    exists zero, a; rewrite val_zero, Z.mod_small, Z.div_small by lia.
    auto using zero_wf.
  - set (sh := bitlen (val a) - bitlen (val b)) in *.
    destruct (shl_spec b sh Hb ltac:(lia)) as [Hw Hv].
    assert (Ha0 : 0 < val a).
    { destruct (Z.eq_dec (val a) 0) as [E0 |]; [| lia].
      assert (bitlen (val a) = 0) by (apply bitlen_0; lia); lia. }
    pose proof (bitlen_bounds (val a) Ha0) as La.
    assert (Hs : 0 < 2 ^ sh) by (apply pow2_pos; lia).
    assert (E1 : 2 ^ bitlen (val b) * 2 ^ sh = 2 ^ bitlen (val a))
      by (rewrite <- Z.pow_add_r by lia; f_equal; lia).
    assert (E2 : 2 ^ (bitlen (val b) - 1) * 2 ^ (sh + 1) = 2 ^ bitlen (val a))
      by (rewrite <- Z.pow_add_r by lia; f_equal; lia).
    pose proof (Z.pow_le_mono_r 2 (bitlen (val a)) 256 ltac:(lia) ltac:(lia)).
    rewrite Z.mod_small in Hv by nia.
    destruct (div_loop_spec (val b) (Z.to_nat (sh + 1)) ltac:(lia) zero a (shl b sh))
      as (R1 & R2 & R3 & R4); auto using zero_wf; try lia;
      rewrite ?Z2Nat.id by lia; rewrite ?Z.add_simpl_r; auto.
    + assert (0 < 2 ^ (sh + 1)) by (apply pow2_pos; lia); nia.
    + eexists _, _; split; [rewrite <- surjective_pairing; reflexivity |].
      rewrite val_zero in R3; repeat split; try apply R1; try apply R2; assumption.
Qed.

End Order.

(** * The compact encoding *)

Section Compact.
Import BaseUint ArithU256.

(** The number a compact value denotes: [mantissa * 256^(exponent - 3)],
    rounded down. *)
Definition compact_value (nCompact : Z) : Z :=
  (nCompact mod 2 ^ 23) * 2 ^ (8 * (nCompact / 2 ^ 24)) / 2 ^ 24.

Lemma GetLow64_spec (a : list Z) : wf a -> GetLow64 a = val a mod 2 ^ 64.
Proof.
  intros Ha; pose proof (get_in a 0 Ha) as H0; pose proof (get_in a 1 Ha) as H1.
  unfold GetLow64, w64; rewrite wrap_id.
  2: { rewrite Z.shiftl_mul_pow2 by lia; unfold in_u in *; nia. }
  rewrite <- add_lor_shift by (auto; lia).
  destruct Ha as [Hl Ha]; destruct a as [| x [| y a]]; try discriminate.
  unfold get in *; cbn [nth] in *; unfold val; cbn [le_val].
  replace (x + 2 ^ 32 * (y + 2 ^ 32 * le_val 32 a))
    with (x + 2 ^ 32 * y + le_val 32 a * 2 ^ 64) by ring.
  rewrite Z_mod_plus_full, Z.mod_small; auto; unfold in_u in *; lia.
Qed.

(** [mantissa * 2^(8 e)] shifted down by three bytes, on both sides of the
    [nSize <= 3] test of the code. *)
Lemma scale_down (m e : Z) : 0 <= e <= 3 ->
  m * 2 ^ (8 * e) / 2 ^ 24 = m / 2 ^ (8 * (3 - e)).
Proof.
  intros He.
  replace (2 ^ 24) with (2 ^ (8 * (3 - e)) * 2 ^ (8 * e))
    by (rewrite <- Z.pow_add_r by lia; f_equal; lia).
  apply Z.div_mul_cancel_r; apply Z.pow_nonzero; lia.
Qed.

Lemma scale_up (m e : Z) : 3 <= e -> m * 2 ^ (8 * e) / 2 ^ 24 = m * 2 ^ (8 * (e - 3)).
Proof.
  intros He.
  replace (2 ^ (8 * e)) with (2 ^ (8 * (e - 3)) * 2 ^ 24)
    by (rewrite <- Z.pow_add_r by lia; f_equal; lia).
  rewrite Z.mul_assoc; apply Z.div_mul; lia.
Qed.

Lemma SetCompact_target (c : Z) : 0 <= c ->
  wf (target (SetCompact c)) /\
  val (target (SetCompact c)) = compact_value c mod 2 ^ 256.
Proof.
  intros Hc; unfold SetCompact, compact_value; cbn [target].
  rewrite (Z.land_ones c 23 ltac:(lia) : Z.land c 0x7fffff = c mod 2 ^ 23).
  rewrite (Z.shiftr_div_pow2 c 24) by lia.
  pose proof (Z.mod_pos_bound c (2 ^ 23) ltac:(lia)).
  assert (0 <= c / 2 ^ 24) by (apply Z.div_pos; lia).
  set (e := c / 2 ^ 24) in *; set (m := c mod 2 ^ 23) in *.
  destruct (Z.leb_spec e 3).
  - split; [apply of_u64_wf |]; rewrite val_of_u64, Z.shiftr_div_pow2, scale_down by lia.
    assert (0 <= m / 2 ^ (8 * (3 - e)) <= m).
    { split; [apply Z.div_pos; [lia | apply pow2_pos; lia] |].
      apply Z.div_le_upper_bound; [apply pow2_pos; lia |].
      pose proof (pow2_pos (8 * (3 - e)) ltac:(lia)); nia. }
    unfold w64, wrap; rewrite !Z.mod_small; lia.
  - destruct (shl_spec (of_u64 m) (8 * (e - 3)) (of_u64_wf m) ltac:(lia)) as [Hw Hv].
    split; [exact Hw |]; rewrite Hv, val_of_u64, scale_up by lia.
    unfold w64, wrap; rewrite (Z.mod_small m); [reflexivity | lia].
Qed.

(** The overflow flag is exactly "the denoted number has more than 256 bits". *)
Lemma SetCompact_overflow (c : Z) : in_u 32 c ->
  fOverflow (SetCompact c) = (2 ^ 256 <=? compact_value c).
Proof.
  unfold in_u; intros Hc; unfold SetCompact, compact_value; cbn [fOverflow].
  rewrite (Z.land_ones c 23 ltac:(lia) : Z.land c 0x7fffff = c mod 2 ^ 23).
  rewrite (Z.shiftr_div_pow2 c 24) by lia.
  pose proof (Z.mod_pos_bound c (2 ^ 23) ltac:(lia)).
  assert (0 <= c / 2 ^ 24) by (apply Z.div_pos; lia).
  set (e := c / 2 ^ 24) in *; set (m := c mod 2 ^ 23) in *.
  symmetry; destruct (Z.leb_spec e 3).
  - rewrite !Z.gtb_ltb.
    replace (34 <? e) with false by (symmetry; apply Z.ltb_ge; lia).
    replace (33 <? e) with false by (symmetry; apply Z.ltb_ge; lia).
    replace (32 <? e) with false by (symmetry; apply Z.ltb_ge; lia).
    rewrite !andb_false_r; apply Z.leb_gt; rewrite scale_down by lia.
    apply Z.div_lt_upper_bound; [apply pow2_pos; lia |].
    pose proof (pow2_pos (8 * (3 - e)) ltac:(lia)); nia.
  - rewrite scale_up by lia; apply eq_true_iff_eq.
    rewrite Z.leb_le, !Z.gtb_ltb, andb_true_iff, !orb_true_iff, !andb_true_iff,
      negb_true_iff, Z.eqb_neq, !Z.ltb_lt.
    assert (Hcases : e <= 32 \/ e = 33 \/ e = 34 \/ 35 <= e) by lia.
    destruct Hcases as [He | [-> | [-> | He]]].
    + pose proof (Z.pow_le_mono_r 2 (8 * (e - 3)) (8 * 29) ltac:(lia) ltac:(lia)); nia.
    + change (2 ^ (8 * (33 - 3))) with (2 ^ 240); lia.
    + change (2 ^ (8 * (34 - 3))) with (2 ^ 248); lia.
    + pose proof (Z.pow_le_mono_r 2 (8 * 32) (8 * (e - 3)) ltac:(lia) ltac:(lia)); nia.
Qed.

(** The two branches that extract the leading three bytes. *)
Lemma GetCompact_mantissa (a : list Z) (n : Z) : wf a -> 1 <= n ->
  let m := val a * 2 ^ 24 / 2 ^ (8 * n) in
  m < 2 ^ 24 ->
  (if n <=? 3 then w32 (w64 (Z.shiftl (GetLow64 a) (8 * (3 - n))))
   else w32 (GetLow64 (shr a (8 * (n - 3))))) = m.
Proof.
  intros Ha Hn m Hm; pose proof (val_bounds a Ha).
  assert (Hm0 : 0 <= m) by (apply Z.div_pos; [lia | apply pow2_pos; lia]).
  destruct (Z.leb_spec n 3).
  - assert (E : val a * 2 ^ (8 * (3 - n)) = m).
    { unfold m; replace (2 ^ 24) with (2 ^ (8 * (3 - n)) * 2 ^ (8 * n))
        by (rewrite <- Z.pow_add_r by lia; f_equal; lia).
      rewrite Z.mul_assoc, Z.div_mul; [reflexivity | apply Z.pow_nonzero; lia]. }
    assert (val a < 2 ^ 24) by (pose proof (pow2_pos (8 * (3 - n)) ltac:(lia)); nia).
    rewrite GetLow64_spec, Z.mod_small, Z.shiftl_mul_pow2, E by (auto; lia).
    unfold w32, w64, wrap; rewrite (Z.mod_small m), Z.mod_small; lia.
  - destruct (shr_spec a (8 * (n - 3)) Ha ltac:(lia)) as [Hw Hsv].
    rewrite GetLow64_spec, Hsv by assumption.
    replace (val a / 2 ^ (8 * (n - 3))) with m.
    + unfold w32, wrap; rewrite (Z.mod_small m), Z.mod_small; lia.
    + unfold m; replace (2 ^ (8 * n)) with (2 ^ (8 * (n - 3)) * 2 ^ 24)
        by (rewrite <- Z.pow_add_r by lia; f_equal; lia).
      apply Z.div_mul_cancel_r; [apply Z.pow_nonzero |]; lia.
Qed.

(** The tail of [GetCompact]: neither assertion fails and the three fields
    do not overlap. *)
Lemma GetCompact_assemble (e m : Z) (neg : bool) : 1 <= e <= 33 -> 2 ^ 15 <= m < 2 ^ 23 ->
  (if negb (Z.land m (w32 (Z.lnot 0x7fffff)) =? 0) then None
   else if negb (e <? 256) then None
   else Some (Z.lor (Z.lor m (w32 (Z.shiftl e 24)))
     (if neg && negb (Z.land (Z.lor m (w32 (Z.shiftl e 24))) 0x7fffff =? 0) then 2 ^ 23 else 0)))
  = Some (m + (if neg then 2 ^ 23 else 0) + 2 ^ 24 * e).
Proof.
  intros He Hm.
  change (w32 (Z.lnot 0x7fffff)) with (Z.shiftl 0x1ff 23).
  rewrite land_shift_disjoint, (proj2 (Z.ltb_lt e 256)) by (unfold in_u; lia).
  change (negb (0 =? 0)) with false; cbn [negb]; f_equal.
  assert (Hs : w32 (Z.shiftl e 24) = Z.shiftl e 24).
  { apply wrap_id; rewrite Z.shiftl_mul_pow2 by lia; unfold in_u; lia. }
  rewrite Hs, (Z.land_ones _ 23 ltac:(lia) : Z.land _ 0x7fffff = _ mod 2 ^ 23).
  rewrite <- add_lor_shift by (unfold in_u; lia).
  replace ((m + 2 ^ 24 * e) mod 2 ^ 23) with m.
  2: { replace (m + 2 ^ 24 * e) with (m + (2 * e) * 2 ^ 23) by ring.
       rewrite Z_mod_plus_full, Z.mod_small; lia. }
  destruct (Z.eqb_spec m 0); [lia |]; destruct neg; cbn [andb negb].
  - rewrite add_lor_shift by (unfold in_u; lia).
    rewrite <- Z.lor_assoc, (Z.lor_comm _ (2 ^ 23)), Z.lor_assoc.
    change (2 ^ 23) with (Z.shiftl 1 23) at 1.
    rewrite <- (add_lor_shift m 1 23), <- add_lor_shift by (unfold in_u; lia); lia.
  - rewrite Z.lor_0_r; lia.
Qed.

(** The exponent and mantissa [GetCompact] computes for a non-zero value:
    the mantissa is the value's three leading bytes, normalised so that its
    sign bit is clear. *)
Lemma GetCompact_parts (a : list Z) (neg : bool) : wf a -> 0 < val a ->
  exists e, 1 <= e <= 33 /\
    let m := val a * 2 ^ 24 / 2 ^ (8 * e) in
    2 ^ 15 <= m < 2 ^ 23 /\
    GetCompact a neg = Some (m + (if neg then 2 ^ 23 else 0) + 2 ^ 24 * e).
Proof.
  intros Ha Hv; pose proof (val_bounds a Ha).
  pose proof (bitlen_bounds (val a) Hv) as Hb.
  pose proof (bitlen_le (val a) 256 ltac:(lia) ltac:(lia)) as Hle.
  pose proof (bitlen_nonneg (val a)) as HL0.
  pose proof (bitlen_0 (val a) ltac:(lia)) as HL1.
  unfold GetCompact; rewrite bits_spec by assumption.
  set (L := bitlen (val a)) in *; set (n := (L + 7) / 8).
  assert (Hn : 8 * n - 7 <= L <= 8 * n /\ 1 <= n <= 32)
    by (unfold n; pose proof (Z.div_mod (L + 7) 8 ltac:(lia));
        pose proof (Z.mod_pos_bound (L + 7) 8 ltac:(lia)); lia).
  set (m1 := val a * 2 ^ 24 / 2 ^ (8 * n)).
  assert (HP : 0 < 2 ^ (8 * n)) by (apply pow2_pos; lia).
  assert (Hm1 : 2 ^ 16 <= m1 < 2 ^ 24).
  { pose proof (Z.pow_le_mono_r 2 (8 * n - 8) (L - 1) ltac:(lia) ltac:(lia)).
    pose proof (Z.pow_le_mono_r 2 L (8 * n) ltac:(lia) ltac:(lia)).
    assert (E : 2 ^ (8 * n) = 2 ^ (8 * n - 8) * 2 ^ 8)
      by (rewrite <- Z.pow_add_r by lia; f_equal; lia).
    split; [apply Z.div_le_lower_bound | apply Z.div_lt_upper_bound]; nia. }
  rewrite (GetCompact_mantissa a n Ha) by (fold m1; lia); fold m1.
  change 0x00800000 with (2 ^ 23).
  rewrite land_pow2_eqb, (testbit_top m1 23), negb_involutive by (unfold in_u; lia).
  destruct (Z.leb_spec (2 ^ 23) m1).
  - exists (n + 1); split; [lia |].
    assert (E : val a * 2 ^ 24 / 2 ^ (8 * (n + 1)) = m1 / 2 ^ 8).
    { unfold m1; rewrite Z.div_div, <- Z.pow_add_r by lia; do 2 f_equal; lia. }
    assert (Hm : 2 ^ 15 <= m1 / 2 ^ 8 < 2 ^ 23)
      by (split; [apply Z.div_le_lower_bound | apply Z.div_lt_upper_bound]; lia).
    cbn zeta; rewrite E; split; [exact Hm |].
    rewrite (Z.shiftr_div_pow2 m1 8) by lia; apply GetCompact_assemble; lia.
  - exists n; split; [lia |]; cbn zeta; fold m1; split; [lia |].
    apply GetCompact_assemble; lia.
Qed.

(** Dropping the bytes below the mantissa, and what is left. *)
Lemma compact_round (v e : Z) : 0 < v -> 0 <= e ->
  let m := v * 2 ^ 24 / 2 ^ (8 * e) in
  2 ^ 15 <= m ->
  let r := m * 2 ^ (8 * e) / 2 ^ 24 in
  0 < r /\ r <= v /\ (v < 2 ^ 23 -> r = v) /\ (v - r) * 2 ^ 15 <= v.
Proof.
  intros Hv He m Hm r.
  destruct (Z.le_ge_cases e 3).
  - assert (r = v); [| subst r; repeat split; lia].
    unfold r, m; replace (2 ^ 24) with (2 ^ (8 * (3 - e)) * 2 ^ (8 * e))
      by (rewrite <- Z.pow_add_r by lia; f_equal; lia).
    rewrite Z.mul_assoc, Z.div_mul by (apply Z.pow_nonzero; lia).
    rewrite <- Z.mul_assoc; apply Z.div_mul.
    pose proof (pow2_pos (8 * (3 - e)) ltac:(lia)); pose proof (pow2_pos (8 * e) ltac:(lia)); nia.
  - assert (HQ : 0 < 2 ^ (8 * (e - 3))) by (apply pow2_pos; lia).
    assert (Em : m = v / 2 ^ (8 * (e - 3))).
    { unfold m; replace (2 ^ (8 * e)) with (2 ^ (8 * (e - 3)) * 2 ^ 24)
        by (rewrite <- Z.pow_add_r by lia; f_equal; lia).
      apply Z.div_mul_cancel_r; lia. }
    assert (Er : r = m * 2 ^ (8 * (e - 3))) by (apply scale_up; lia).
    pose proof (Z.div_mod v (2 ^ (8 * (e - 3))) ltac:(lia)) as Hd.
    pose proof (Z.mod_pos_bound v (2 ^ (8 * (e - 3))) HQ).
    rewrite <- Em in Hd; repeat split; try nia.
    intros Hlt; destruct (Z.eq_dec e 3) as [-> |].
    + change (2 ^ (8 * (3 - 3))) with 1 in *; lia.
    + pose proof (Z.pow_le_mono_r 2 8 (8 * (e - 3)) ltac:(lia) ltac:(lia)); nia.
Qed.

Lemma GetCompact_zero (a : list Z) (neg : bool) : wf a -> val a = 0 ->
  GetCompact a neg = Some 0.
Proof.
  intros Ha Hv; assert (a = zero) as -> by (apply val_inj; auto using zero_wf).
  destruct neg; reflexivity.
Qed.

(** Reading back a compact number with clear parts. *)
Lemma SetCompact_parts (m e : Z) (neg : bool) : 2 ^ 15 <= m < 2 ^ 23 -> 0 <= e < 256 ->
  let c := m + (if neg then 2 ^ 23 else 0) + 2 ^ 24 * e in
  in_u 32 c /\ c mod 2 ^ 23 = m /\ c / 2 ^ 24 = e /\ Z.testbit c 23 = neg.
Proof.
  intros Hm He c.
  assert (E1 : c mod 2 ^ 24 = m + (if neg then 2 ^ 23 else 0)).
  { unfold c; rewrite (Z.mul_comm (2 ^ 24)), Z_mod_plus_full, Z.mod_small; [| destruct neg]; lia. }
  repeat split; try (unfold c; destruct neg; lia).
  - replace c with (m + ((if neg then 1 else 0) + 2 * e) * 2 ^ 23)
      by (unfold c; destruct neg; ring).
    rewrite Z_mod_plus_full, Z.mod_small; lia.
  - unfold c; rewrite (Z.mul_comm (2 ^ 24)), Z.div_add, Z.div_small by (destruct neg; lia); lia.
  - rewrite <- (Z.mod_pow2_bits_low c 24 23), E1, testbit_top by (unfold in_u; destruct neg; lia).
    destruct neg; [apply Z.leb_le | apply Z.leb_gt]; lia.
Qed.

End Compact.

(** * The operators compute on numbers *)

Section Theorems.
Import BaseUint ArithU256.

Lemma incr_spec (a : list Z) : wf a -> val (incr a) = (val a + 1) mod 2 ^ 256.
Proof. intros [Hl Ha]; rewrite incr_val, Hl by assumption; reflexivity. Qed.

Lemma decr_spec (a : list Z) : wf a -> val (decr a) = (val a - 1) mod 2 ^ 256.
Proof. intros [Hl Ha]; rewrite decr_val, Hl by assumption; reflexivity. Qed.

Lemma mul_u32_spec (a : list Z) (b : Z) : wf a -> in_u 32 b ->
  val (mul_u32 a b) = (val a * b) mod 2 ^ 256.
Proof.
  intros [Hl Ha] Hb; unfold mul_u32; rewrite mul_u32_loop_val, Hl; auto.
  - f_equal; ring.
  - unfold in_u; lia.
Qed.

Lemma mul_spec (a b : list Z) : wf a -> wf b ->
  val (mul a b) = (val a * val b) mod 2 ^ 256.
Proof.
  intros [Hla Ha] [Hlb Hb]; unfold mul; rewrite mul_outer_val; auto;
    try apply zero_wf; rewrite ?Hla, ?Hlb; auto.
Qed.

(** The arithmetic operators of [base_uint<256>] (+=, -=, unary -, ++,
    --, *= by a [uint32_t] and *= by a [base_uint]) keep the eight-limb
    representation and compute addition, subtraction, negation, successor,
    predecessor and multiplication modulo [2^256]; in particular no 64-bit
    intermediate of the carry loops overflows. *)
Theorem base_uint_ring (a b : list Z) (c : Z) : wf a -> wf b -> in_u 32 c ->
  (wf (add a b) /\ val (add a b) = (val a + val b) mod 2 ^ 256) /\
  (wf (sub a b) /\ val (sub a b) = (val a - val b) mod 2 ^ 256) /\
  (wf (neg a) /\ val (neg a) = (- val a) mod 2 ^ 256) /\
  (wf (incr a) /\ val (incr a) = (val a + 1) mod 2 ^ 256) /\
  (wf (decr a) /\ val (decr a) = (val a - 1) mod 2 ^ 256) /\
  (wf (mul_u32 a c) /\ val (mul_u32 a c) = (val a * c) mod 2 ^ 256) /\
  (wf (mul a b) /\ val (mul a b) = (val a * val b) mod 2 ^ 256).
Proof.
  intros; split_all; auto with hemp;
    auto using add_spec, sub_spec, neg_spec, incr_spec, decr_spec, mul_u32_spec, mul_spec.
Qed.

Lemma base_uint_ring_witness :
  val (add (neg (of_u64 1)) (of_u64 3)) = 2 /\
  val (mul (of_u64 (2 ^ 63)) (of_u64 (2 ^ 63))) = 2 ^ 126.
Proof.
  pose proof (base_uint_ring (neg (of_u64 1)) (of_u64 3) 7 (neg_wf _ (of_u64_wf 1))
    (of_u64_wf 3) ltac:(unfold in_u; lia)) as [[_ H1] _].
  pose proof (base_uint_ring (of_u64 (2 ^ 63)) (of_u64 (2 ^ 63)) 0 (of_u64_wf _)
    (of_u64_wf _) ltac:(unfold in_u; lia)) as (_ & _ & _ & _ & _ & _ & [_ H2]).
  split; [rewrite H1 | rewrite H2]; reflexivity.
Defined.

(** A bitwise operator applied limb by limb acts on the bits of the number. *)
Lemma zip_limbs_val (f : Z -> Z -> Z) (a b : list Z) :
  (forall x y n, 0 <= n -> Z.testbit (f x y) n = Z.testbit (f (Z.b2z (Z.testbit x n)) (Z.b2z (Z.testbit y n))) 0) ->
  f 0 0 = 0 ->
  (forall x y, in_u 32 x -> in_u 32 y -> in_u 32 (f x y)) ->
  wf a -> wf b -> wf (zip_limbs f a b) /\ val (zip_limbs f a b) = f (val a) (val b).
Proof.
  intros Hf H0 Hr Ha Hb; pose proof (zip_limbs_wf f a b Hr Ha Hb) as Hw.
  split; [exact Hw |]; apply Z.bits_inj'; intros n Hn.
  rewrite (Hf (val a)), !val_testbit by (auto; lia).
  assert (Hz : forall p q i, length p = length q ->
               get (zip_limbs f p q) i = f (get p i) (get q i)).
  { induction p as [| x p IH]; intros [| y q] [| i] Hl; unfold get in *; simpl in *; auto; lia. }
  rewrite Hz by (destruct Ha, Hb; congruence).
  rewrite Hf by (apply Z.mod_pos_bound; lia); reflexivity.
Qed.

Lemma band_spec (a b : list Z) : wf a -> wf b ->
  wf (band a b) /\ val (band a b) = Z.land (val a) (val b).
Proof.
  intros; apply zip_limbs_val; auto.
  - intros x y n Hn; rewrite !Z.land_spec; destruct (Z.testbit x n), (Z.testbit y n); reflexivity.
  - intros x y Hx Hy; apply in_u_testbit; [lia | apply Z.land_nonneg; left; apply Hx |].
    intros n Hn; rewrite Z.land_spec, (testbit_high 32 x); auto.
Qed.

Lemma bor_spec (a b : list Z) : wf a -> wf b ->
  wf (bor a b) /\ val (bor a b) = Z.lor (val a) (val b).
Proof.
  intros; apply zip_limbs_val; auto using in_u_lor.
  intros x y n Hn; rewrite !Z.lor_spec; destruct (Z.testbit x n), (Z.testbit y n); reflexivity.
Qed.

Lemma bxor_spec (a b : list Z) : wf a -> wf b ->
  wf (bxor a b) /\ val (bxor a b) = Z.lxor (val a) (val b).
Proof.
  intros; apply zip_limbs_val; auto.
  - intros x y n Hn; rewrite !Z.lxor_spec; destruct (Z.testbit x n), (Z.testbit y n); reflexivity.
  - intros x y Hx Hy; apply in_u_testbit; [lia | apply Z.lxor_nonneg; unfold in_u in *; lia |].
    intros n Hn; rewrite Z.lxor_spec, (testbit_high 32 x), (testbit_high 32 y); auto.
Qed.

(** The shift operators move the whole 256-bit number: [<<=] by any
    amount is multiplication by a power of two modulo [2^256], [>>=] is
    division by it, bits that cross a limb boundary included.  [~], [&=],
    [|=] and [^=] complement and combine the bits of the numbers. *)
Theorem base_uint_shifts (a b : list Z) (shift : Z) : wf a -> wf b -> 0 <= shift ->
  (wf (shl a shift) /\ val (shl a shift) = (val a * 2 ^ shift) mod 2 ^ 256) /\
  (wf (shr a shift) /\ val (shr a shift) = val a / 2 ^ shift) /\
  (wf (compl a) /\ val (compl a) = 2 ^ 256 - 1 - val a) /\
  (wf (band a b) /\ val (band a b) = Z.land (val a) (val b)) /\
  (wf (bor a b) /\ val (bor a b) = Z.lor (val a) (val b)) /\
  (wf (bxor a b) /\ val (bxor a b) = Z.lxor (val a) (val b)).
Proof.
  intros Ha Hb Hs.
  split; [apply shl_spec; auto |]; split; [apply shr_spec; auto |].
  split; [split; [apply compl_wf, Ha |] |].
  - destruct Ha as [Hl Ha]; rewrite compl_val, Hl by assumption; reflexivity.
  - auto using band_spec, bor_spec, bxor_spec.
Qed.

Lemma base_uint_shifts_witness :
  val (shl (of_u64 0xdeadbeef) 49) = 0xdeadbeef * 2 ^ 49.
Proof.
  destruct (base_uint_shifts (of_u64 0xdeadbeef) zero 49) as [[_ H] _];
    [apply of_u64_wf | apply zero_wf | lia |]; rewrite H; reflexivity.
Defined.

(** [operator/=] throws exactly when the divisor is zero, and otherwise
    its shift-and-subtract loop terminates with the quotient of the two
    numbers and leaves their remainder in [num]. *)
Theorem base_uint_division (a b : list Z) : wf a -> wf b ->
  (val b = 0 -> div a b = Err DivisionByZero) /\
  (val b <> 0 -> exists q r, div a b = Ok q /\ div_mod a b = Ok (q, r) /\
     wf q /\ wf r /\ val q = val a / val b /\ val r = val a mod val b).
Proof.
  intros Ha Hb; split; intros Hv.
  - unfold div, div_mod; rewrite (bits_spec b), Hv by assumption; reflexivity.
  - destruct (div_mod_ok a b Ha Hb Hv) as (q & r & E & H).
    exists q, r; unfold div; rewrite E; auto.
Qed.

Lemma base_uint_division_witness :
  exists q r, div (shl (of_u64 1000) 64) (of_u64 7) = Ok q /\
              div_mod (shl (of_u64 1000) 64) (of_u64 7) = Ok (q, r) /\
              val q = 1000 * 2 ^ 64 / 7 /\ val r = (1000 * 2 ^ 64) mod 7.
Proof.
  destruct (base_uint_division (shl (of_u64 1000) 64) (of_u64 7)) as [_ H];
    [apply shl_spec; [apply of_u64_wf | lia] | apply of_u64_wf |].
  destruct H as (q & r & E1 & E2 & _ & _ & Hq & Hr); [discriminate |].
  exists q, r; rewrite Hq, Hr; repeat split; try assumption; reflexivity.
Defined.

Lemma eqb_refl (a : list Z) : eqb a a = true.
Proof. induction a; simpl; rewrite ?Z.eqb_refl; auto. Qed.

Lemma eqb_eq (a b : list Z) : eqb a b = true -> a = b.
Proof.
  revert b; induction a as [| x a IH]; intros [| y b]; simpl; try discriminate; auto.
  intros [?%Z.eqb_eq ?%IH]%andb_prop; congruence.
Qed.

Lemma eqb_spec (a b : list Z) : wf a -> wf b -> eqb a b = (val a =? val b).
Proof.
  intros Ha Hb; apply eq_true_iff_eq; rewrite Z.eqb_eq; split.
  - intros ->%eqb_eq; reflexivity.
  - intros ->%(val_inj a b Ha Hb); apply eqb_refl.
Qed.

Lemma EqualTo_spec (a : list Z) (b : Z) : wf a -> in_u 64 b ->
  EqualTo a b = (val a =? b).
Proof.
  intros Ha Hb; rewrite <- (wrap_id 64 b Hb) at 2; fold (w64 b).
  rewrite <- val_of_u64, <- eqb_spec by auto using of_u64_wf.
  destruct Ha as [Hl _]; do 9 (destruct a as [| ? a]; try discriminate).
  unfold EqualTo, of_u64, get; cbn [skipn existsb nth app repeat WIDTH Nat.sub eqb].
  change 0xffffffff with (Z.ones 32); rewrite Z.land_ones by lia; fold (wrap 32 b) (w32 b).
  replace (w32 (Z.shiftr b 32)) with (Z.shiftr b 32).
  2: { symmetry; apply wrap_id; rewrite Z.shiftr_div_pow2 by lia; unfold in_u in *.
       split; [apply Z.div_pos | apply Z.div_lt_upper_bound]; lia. }
  repeat match goal with |- context [?x =? ?y] => destruct (x =? y) end; reflexivity.
Qed.

Lemma op_not_spec (a : list Z) : wf a -> op_not a = (val a =? 0).
Proof.
  intros [_ Ha]; induction Ha as [| x a Hx Ha IH]; [reflexivity |].
  cbn [op_not forallb]; fold (op_not a); rewrite IH; unfold val, in_u in *; cbn [le_val].
  pose proof (le_val_bounds 32 a ltac:(lia) Ha).
  destruct (Z.eqb_spec x 0), (Z.eqb_spec (le_val 32 a) 0), (Z.eqb_spec (x + 2 ^ 32 * le_val 32 a) 0);
    cbn; auto; lia.
Qed.

(** [CompareTo] and the relational operators order objects as the
    numbers they hold, [operator==] and [EqualTo] decide equality of those
    numbers, [operator!] tests for zero, and [bits] is the position of the
    highest set bit plus one, or zero. *)
Theorem base_uint_order (a b : list Z) (c : Z) : wf a -> wf b -> in_u 64 c ->
  CompareTo a b = Z.sgn (val a - val b) /\
  lt a b = (val a <? val b) /\ gt a b = (val b <? val a) /\
  le a b = (val a <=? val b) /\ ge a b = (val b <=? val a) /\
  eqb a b = (val a =? val b) /\ EqualTo a c = (val a =? c) /\
  op_not a = (val a =? 0) /\
  bits a = (if val a =? 0 then 0 else Z.log2 (val a) + 1).
Proof.
  intros Ha Hb Hc; unfold lt, gt, le, ge.
  rewrite eqb_spec, EqualTo_spec, op_not_spec, bits_spec, CompareTo_spec by assumption.
  split_all; auto; rewrite ?Z.gtb_ltb, ?Z.geb_leb;
    destruct (Z.sgn_spec (val a - val b)) as [[? ->] | [[? ->] | [? ->]]]; cbn; symmetry;
    (apply Z.ltb_lt || apply Z.ltb_ge || apply Z.leb_le || apply Z.leb_gt); lia.
Qed.

Lemma base_uint_order_witness :
  gt (shl (of_u64 1) 200) (of_u64 (2 ^ 64 - 1)) = true.
Proof.
  destruct (base_uint_order (shl (of_u64 1) 200) (of_u64 (2 ^ 64 - 1)) 0)
    as (_ & _ & H & _); [apply shl_spec; [apply of_u64_wf | lia] | apply of_u64_wf
    | unfold in_u; lia |]; rewrite H; reflexivity.
Defined.

Lemma SetCompact_negative (c : Z) : in_u 32 c ->
  fNegative (SetCompact c) = (negb (compact_value c =? 0) && Z.testbit c 23)%bool.
Proof.
  intros Hc; unfold SetCompact; cbn [fNegative]; change 0x00800000 with (2 ^ 23).
  rewrite land_pow2_eqb, negb_involutive by lia; do 2 f_equal.
  rewrite (Z.land_ones c 23 ltac:(lia) : Z.land c 0x7fffff = c mod 2 ^ 23).
  unfold compact_value; rewrite (Z.shiftr_div_pow2 c 24) by lia; unfold in_u in Hc.
  pose proof (Z.mod_pos_bound c (2 ^ 23) ltac:(lia)).
  assert (0 <= c / 2 ^ 24) by (apply Z.div_pos; lia).
  destruct (Z.leb_spec (c / 2 ^ 24) 3).
  - rewrite scale_down, Z.shiftr_div_pow2 by lia; reflexivity.
  - rewrite scale_up by lia; apply eq_true_iff_eq; rewrite !Z.eqb_eq.
    pose proof (pow2_pos (8 * (c / 2 ^ 24 - 3)) ltac:(lia)); nia.
Qed.

(** [SetCompact] decodes any 32-bit compact value: the target is the
    denoted number [mantissa * 256^(exponent-3)] (rounded down) modulo
    [2^256], the overflow flag is set exactly when that number needs more
    than 256 bits, and the negative flag exactly when the sign bit is set
    and the shifted mantissa is not zero. *)
Theorem SetCompact_decodes (c : Z) : in_u 32 c ->
  let r := SetCompact c in
  wf (target r) /\
  val (target r) = compact_value c mod 2 ^ 256 /\
  fOverflow r = (2 ^ 256 <=? compact_value c) /\
  fNegative r = (negb (compact_value c =? 0) && Z.testbit c 23)%bool.
Proof.
  intros Hc r; destruct (SetCompact_target c) as [Hw Hv]; [apply Hc |].
  split; [exact Hw |]; split; [exact Hv |]; split; [apply SetCompact_overflow, Hc |].
  apply SetCompact_negative, Hc.
Qed.

Lemma SetCompact_decodes_witness :
  val (target (SetCompact 0x05123456)) = 0x1234560000 /\
  fOverflow (SetCompact 0xff123456) = true.
Proof.
  destruct (SetCompact_decodes 0x05123456) as (_ & H1 & _); [unfold in_u; lia |].
  destruct (SetCompact_decodes 0xff123456) as (_ & _ & H2 & _); [unfold in_u; lia |].
  split; [rewrite H1 | rewrite H2]; reflexivity.
Defined.

Lemma GetCompact_rounds (a : list Z) (neg : bool) : wf a ->
  exists c, GetCompact a neg = Some c /\ in_u 32 c /\
    let r := SetCompact c in
    fOverflow r = false /\
    fNegative r = (neg && negb (val a =? 0))%bool /\
    val (target r) <= val a /\
    (val a < 2 ^ 23 -> val (target r) = val a) /\
    (val a - val (target r)) * 2 ^ 15 <= val a.
Proof.
  intros Ha; pose proof (val_bounds a Ha) as Hb.
  destruct (Z.eq_dec (val a) 0) as [E0 | Hne].
  - exists 0; rewrite (GetCompact_zero a neg Ha E0), E0; cbn.
    rewrite andb_false_r; unfold in_u; repeat split; lia.
  - destruct (GetCompact_parts a neg Ha ltac:(lia)) as (e & He & Hm & Hc).
    set (m := val a * 2 ^ 24 / 2 ^ (8 * e)) in *.
    eexists; split; [exact Hc |].
    destruct (SetCompact_parts m e neg Hm ltac:(lia)) as (Hu & Em & Ee & Eb).
    set (c := m + (if neg then 2 ^ 23 else 0) + 2 ^ 24 * e) in *.
    split; [exact Hu |]; cbn zeta.
    destruct (SetCompact_target c) as [_ ->]; [apply Hu |].
    destruct (compact_round (val a) e ltac:(lia) ltac:(lia) (proj1 Hm)) as (R1 & R2 & R3 & R4).
    fold m in R1, R2, R3, R4; rewrite <- Ee in R1, R2, R3, R4.
    rewrite <- Em in R1, R2, R3, R4; fold (compact_value c) in R1, R2, R3, R4.
    rewrite (SetCompact_overflow c Hu), (SetCompact_negative c Hu).
    rewrite Z.mod_small, Eb, (proj2 (Z.leb_gt _ _)) by lia.
    rewrite !(proj2 (Z.eqb_neq _ 0)) by lia; rewrite andb_true_r.
    split_all; auto.
Qed.

(** [GetCompact] never fails its assertions, and decoding what it
    produced gives the number back up to the bits below its three leading
    bytes: nothing is lost from a number below [2^23], and otherwise the
    result is at most the number and off by less than one part in [2^15];
    no overflow is flagged, and the sign is that of the argument. *)
Theorem GetCompact_SetCompact (a : list Z) (neg : bool) : wf a ->
  exists c, GetCompact a neg = Some c /\ in_u 32 c /\
    let r := SetCompact c in
    fOverflow r = false /\
    fNegative r = (neg && negb (val a =? 0))%bool /\
    val (target r) <= val a /\
    (val a < 2 ^ 23 -> val (target r) = val a) /\
    (val a - val (target r)) * 2 ^ 15 <= val a.
Proof. apply GetCompact_rounds. Qed.

Lemma GetCompact_SetCompact_witness :
  exists c, GetCompact (shl (of_u64 0xc0de) 24) false = Some c /\
    val (target (SetCompact c)) <= val (shl (of_u64 0xc0de) 24) /\
    fOverflow (SetCompact c) = false.
Proof.
  destruct (GetCompact_SetCompact (shl (of_u64 0xc0de) 24) false)
    as (c & E & _ & H1 & _ & H2 & _); [apply shl_spec; [apply of_u64_wf | lia] |].
  exists c; auto.
Defined.

(** A compact value as [GetCompact] writes it: zero, or a mantissa whose
    leading byte is used and whose bytes below the number's units are zero. *)
Definition canonical (c : Z) : Prop :=
  c = 0 \/
  (let m := c mod 2 ^ 23 in let e := c / 2 ^ 24 in
   2 ^ 15 <= m /\ 1 <= e /\ Z.testbit c 23 = false /\
   (e <= 3 -> m mod 2 ^ (8 * (3 - e)) = 0) /\ m * 2 ^ (8 * e) < 2 ^ 280).

(** The encoding is one-to-one on the values the node produces: every
    canonical, non-negative, non-overflowing compact target is what
    [GetCompact] returns for the number it denotes. *)
Theorem SetCompact_GetCompact (c : Z) : in_u 32 c -> canonical c ->
  GetCompact (target (SetCompact c)) false = Some c.
Proof.
  intros Hu [-> | (Hm & He & Hb & Hlow & Hov)]; [reflexivity |].
  destruct (SetCompact_target c) as [Hw Hv]; [apply Hu |].
  pose proof (Z.mod_pos_bound c (2 ^ 23) ltac:(lia)) as Hm'.
  assert (Ec : c = c mod 2 ^ 23 + 2 ^ 24 * (c / 2 ^ 24)).
  { pose proof (Z.div_mod c (2 ^ 24) ltac:(lia)).
    assert (c mod 2 ^ 24 < 2 ^ 23).
    { pose proof (testbit_top (c mod 2 ^ 24) 23 ltac:(lia)
        (Z.mod_pos_bound c (2 ^ 24) ltac:(lia))) as Ht.
      rewrite Z.mod_pow2_bits_low, Hb in Ht by lia; symmetry in Ht; apply Z.leb_gt in Ht; lia. }
    pose proof (Z.mod_pos_bound c (2 ^ 24) ltac:(lia)).
    replace (c mod 2 ^ 23) with (c mod 2 ^ 24); [lia |].
    rewrite <- (Z.mod_small (c mod 2 ^ 24) (2 ^ 23)) by lia.
    change (2 ^ 24) with (2 ^ 23 * 2); rewrite Z.rem_mul_r by lia.
    rewrite (Z.mul_comm (2 ^ 23)), Z_mod_plus_full, Z.mod_mod; lia. }
  set (m := c mod 2 ^ 23) in *; set (e := c / 2 ^ 24) in *.
  assert (Hcv : compact_value c * 2 ^ 24 = m * 2 ^ (8 * e)).
  { unfold compact_value; fold m e; destruct (Z.le_ge_cases e 3).
    - rewrite scale_down by lia; pose proof (Hlow ltac:(lia)) as Hz.
      apply Z.mod_divide in Hz; [| apply Z.pow_nonzero; lia]; destruct Hz as [k ->].
      rewrite Z.div_mul by (apply Z.pow_nonzero; lia).
      rewrite <- Z.mul_assoc, <- Z.pow_add_r by lia; do 2 f_equal; lia.
    - rewrite scale_up, <- Z.mul_assoc, <- Z.pow_add_r by lia; do 2 f_equal; lia. }
  assert (HE : 0 < 2 ^ (8 * e)) by (apply pow2_pos; lia).
  rewrite Z.mod_small in Hv by nia.
  destruct (GetCompact_parts (target (SetCompact c)) false Hw ltac:(nia)) as (e' & He' & Hmm & ->).
  rewrite Hv, Hcv in *; f_equal; rewrite Z.add_0_r, Ec at 1; fold m e.
  assert (Hcase : e' < e \/ e' = e \/ e < e') by lia; destruct Hcase as [Hlt | [-> | Hgt]].
  - replace (2 ^ (8 * e)) with (2 ^ (8 * (e - e')) * 2 ^ (8 * e')) in Hmm
      by (rewrite <- Z.pow_add_r by lia; f_equal; lia).
    rewrite Z.mul_assoc, Z.div_mul in Hmm by (apply Z.pow_nonzero; lia).
    pose proof (Z.pow_le_mono_r 2 8 (8 * (e - e')) ltac:(lia) ltac:(lia)); nia.
  - rewrite Z.div_mul by lia; reflexivity.
  - replace (2 ^ (8 * e')) with (2 ^ (8 * (e' - e)) * 2 ^ (8 * e)) in Hmm
      by (rewrite <- Z.pow_add_r by lia; f_equal; lia).
    rewrite Z.div_mul_cancel_r in Hmm by (try apply Z.pow_nonzero; lia).
    pose proof (Z.pow_le_mono_r 2 8 (8 * (e' - e)) ltac:(lia) ltac:(lia)).
    pose proof (Z.div_le_compat_l m (2 ^ 8) (2 ^ (8 * (e' - e))) ltac:(lia) ltac:(lia)).
    pose proof (Z.div_lt_upper_bound m (2 ^ 8) (2 ^ 15) ltac:(lia) ltac:(lia)); lia.
Qed.

Lemma SetCompact_GetCompact_witness :
  GetCompact (target (SetCompact 0x1e0ffff0)) false = Some 0x1e0ffff0.
Proof.
  apply (SetCompact_GetCompact 0x1e0ffff0); [unfold in_u; lia |].
  right; vm_compute; repeat split; congruence.
Defined.

Lemma flat_map_le_split (a : list Z) : Forall (in_u 32) a ->
  le_val 8 (flat_map (le_split 8 4) a) = le_val 32 a.
Proof.
  induction 1 as [| x a Hx Ha IH]; [reflexivity |].
  cbn [flat_map]; rewrite le_val_app, length_le_split, le_val_split, IH by lia.
  change (8 * Z.of_nat 4) with 32; rewrite Z.mod_small by exact Hx; reflexivity.
Qed.

Lemma UintToArith256_val (l : list Z) : length l = 32%nat -> Forall (in_u 8) l ->
  wf (UintToArith256 l) /\ val (UintToArith256 l) = le_val 8 l.
Proof.
  intros Hl Hf; split.
  - split; [reflexivity |]; apply Forall_map, Forall_forall; intros x Hx%in_seq.
    pose proof (le_val_bounds 8 (firstn 4 (skipn (x * 4) l)) ltac:(lia)
      ltac:(auto with hemp)) as H.
    rewrite length_firstn, length_skipn, Nat.min_l in H by (unfold WIDTH in *; lia); exact H.
  - do 33 (destruct l as [| ? l]; try discriminate).
    unfold UintToArith256, val; cbn [seq map WIDTH le_val firstn skipn Nat.mul Nat.add]; ring.
Qed.

(** [ArithToUint256] and [UintToArith256] convert between the limb form
    and the 32-byte little-endian [uint256] without changing the number, and
    are inverse to each other. *)
Theorem uint256_conversion (a bytes : list Z) :
  wf a -> length bytes = 32%nat -> Forall (in_u 8) bytes ->
  le_val 8 (ArithToUint256 a) = val a /\
  val (UintToArith256 bytes) = le_val 8 bytes /\
  UintToArith256 (ArithToUint256 a) = a /\
  ArithToUint256 (UintToArith256 bytes) = bytes.
Proof.
  assert (Hlen : forall l, length (flat_map (le_split 8 4) l) = (4 * length l)%nat).
  { induction l as [| x l IH]; [reflexivity |]; cbn [flat_map].
    rewrite length_app, length_le_split, IH; simpl; lia. }
  assert (Hdig : forall l, Forall (in_u 8) (flat_map (le_split 8 4) l)).
  { induction l as [| x l IH]; cbn [flat_map]; [constructor |].
    apply Forall_app; split; [apply le_split_digits; lia | exact IH]. }
  intros Ha Hl Hf; destruct (UintToArith256_val bytes Hl Hf) as [Hw Hv].
  assert (H1 : le_val 8 (ArithToUint256 a) = val a) by (apply flat_map_le_split, Ha).
  destruct (UintToArith256_val (ArithToUint256 a)) as [Hw2 Hv2].
  { unfold ArithToUint256; rewrite Hlen; destruct Ha as [-> _]; reflexivity. }
  { apply Hdig. }
  split_all; auto.
  - apply val_inj; auto; congruence.
  - apply (le_val_inj 8); [lia | apply Hdig | exact Hf | |].
    + unfold ArithToUint256; rewrite Hlen, Hl; destruct Hw as [-> _]; reflexivity.
    + unfold ArithToUint256; rewrite flat_map_le_split by apply Hw; exact Hv.
Qed.

Lemma uint256_conversion_witness :
  UintToArith256 (ArithToUint256 (of_u64 0x0102030405060708)) = of_u64 0x0102030405060708.
Proof.
  destruct (uint256_conversion (of_u64 0x0102030405060708) (repeat 7 32)) as (_ & _ & H & _).
  - apply of_u64_wf.
  - reflexivity.
  - apply Forall_forall; intros x ->%repeat_spec; unfold in_u; lia.
  - exact H.
Defined.

End Theorems.
