(* ===== verification/Chain.v ===== *)
(** The block index (src/chain.h, src/chain.cpp, [AddToBlockIndex] of
    src/validation.cpp): the tree of known block headers, its skip-list
    ancestor lookup, the work a block stands for, and the in-memory active
    chain [CChain].  Block index objects live in an arena, the list [a];
    a [CBlockIndex*] is a position of the arena, [nullptr] is [None]. *)

From Stdlib Require Import ZArith List Bool Lia Arith.
From S2P Require Import Prelude ArithUint256.
Import ListNotations.
Open Scope Z_scope.

(** * Data *)

Record CBlockHeader := mkHeader {
  h_nVersion : Z;
  h_hashPrevBlock : Z;
  h_hashMerkleRoot : Z;
  h_nTime : Z;
  h_nBits : Z;
  h_nNonce : Z;
  h_nHeight : Z;
  h_nNonce64 : Z;
  h_mix_hash : Z
}.

(** The members of [CBlockIndex] that the index itself maintains; the
    positions in the block files and the transaction counts are set when the
    block's data arrives and are not part of the index's logic. *)
Record CBlockIndex := mkIndex {
  phashBlock : Z;
  pprev : option nat;
  pskip : option nat;
  nHeight : Z;
  nChainWork : list Z;
  nStatus : Z;
  nSequenceId : Z;
  nTimeMax : Z;
  hdr : CBlockHeader
}.

Definition nTime (b : CBlockIndex) : Z := h_nTime (hdr b).
Definition nBits (b : CBlockIndex) : Z := h_nBits (hdr b).
Definition GetBlockTime (b : CBlockIndex) : Z := nTime b.
Definition GetBlockTimeMax (b : CBlockIndex) : Z := nTimeMax b.

Definition arena := list CBlockIndex.

(** What can go wrong in pointer-chasing code. *)
Inductive chain_error := AssertFailed | NullDeref | OutOfFuel | Thrown (e : BaseUint.uint_error).

Definition deref (a : arena) (p : nat) : result chain_error CBlockIndex :=
  match nth_error a p with Some b => Ok b | None => Err NullDeref end.

(** * Block status *)

Definition BLOCK_VALID_TREE : Z := 2.
Definition BLOCK_VALID_MASK : Z := 7.
Definition BLOCK_FAILED_MASK : Z := 96.

Definition IsValid (nUpTo : Z) (b : CBlockIndex) : bool :=
  if negb (Z.land (nStatus b) BLOCK_FAILED_MASK =? 0) then false
  else Z.land (nStatus b) BLOCK_VALID_MASK >=? nUpTo.

(** The new status and whether it changed. *)
Definition RaiseValidity (nUpTo : Z) (status : Z) : Z * bool :=
  if negb (Z.land status BLOCK_FAILED_MASK =? 0) then (status, false)
  else if Z.land status BLOCK_VALID_MASK <? nUpTo
       then (Z.lor (Z.land status (Z.lnot BLOCK_VALID_MASK)) nUpTo, true)
       else (status, false).

(** * Skip list *)

Definition InvertLowestOne (n : Z) : Z := Z.land n (n - 1).

Definition GetSkipHeight (height : Z) : Z :=
  if height <? 2 then 0
  else if negb (Z.land height 1 =? 0)
       then InvertLowestOne (InvertLowestOne (height - 1)) + 1
       else InvertLowestOne height.

(** [while (heightWalk > height)] of [GetAncestor]. *)
Fixpoint ancestor_walk (fuel : nat) (a : arena) (pindexWalk : nat)
    (heightWalk height : Z) : result chain_error nat :=
  match fuel with
  | O => Err OutOfFuel
  | S fuel' =>
      if heightWalk >? height then
        let heightSkip := GetSkipHeight heightWalk in
        let heightSkipPrev := GetSkipHeight (heightWalk - 1) in
        let! b := deref a pindexWalk in
        let follow :=
          ((heightSkip =? height) ||
           ((heightSkip >? height) &&
            negb ((heightSkipPrev <? heightSkip - 2) &&
                  (heightSkipPrev >=? height))))%bool in
        match pskip b, follow with
        | Some q, true => ancestor_walk fuel' a q heightSkip height
        | _, _ =>
            match pprev b with
            | None => Err AssertFailed
            | Some p => ancestor_walk fuel' a p (heightWalk - 1) height
            end
        end
      else Ok pindexWalk
  end.

(** The walk loses at least one height per iteration, so the height
    difference bounds its length. *)
Definition GetAncestor (a : arena) (p : nat) (height : Z)
  : result chain_error (option nat) :=
  let! b := deref a p in
  if (height >? nHeight b) || (height <? 0) then Ok None
  else
    let! r := ancestor_walk (S (Z.to_nat (nHeight b - height))) a p (nHeight b) height in
    Ok (Some r).

(** [BuildSkip] on an object with the given members; the value of [pskip]. *)
Definition BuildSkip (a : arena) (prev : option nat) (height : Z) (skip : option nat)
  : result chain_error (option nat) :=
  match prev with
  | Some p => GetAncestor a p (GetSkipHeight height)
  | None => Ok skip
  end.

(** * Proof of work of a block *)

Definition GetBlockProof (nBits : Z) : result chain_error (list Z) :=
  let r := ArithU256.SetCompact nBits in
  let bnTarget := ArithU256.target r in
  if ArithU256.fNegative r || ArithU256.fOverflow r || BaseUint.EqualTo bnTarget 0
  then Ok (BaseUint.of_u64 0)
  else
    match BaseUint.div (BaseUint.compl bnTarget)
                       (BaseUint.add bnTarget (BaseUint.of_u64 1)) with
    | Err e => Err (Thrown e)
    | Ok q => Ok (BaseUint.add q (BaseUint.of_u64 1))
    end.

Definition INT64_MAX : Z := 2 ^ 63 - 1.

Definition GetBlockProofEquivalentTime (to_work from_work : list Z)
    (tip_nBits nPowTargetSpacing : Z) : result chain_error Z :=
  let '(r, sign) :=
    if BaseUint.gt to_work from_work
    then (BaseUint.sub to_work from_work, 1)
    else (BaseUint.sub from_work to_work, -1) in
  let! proof := GetBlockProof tip_nBits in
  match BaseUint.div (BaseUint.mul r (BaseUint.of_u64 nPowTargetSpacing)) proof with
  | Err e => Err (Thrown e)
  | Ok q =>
      if BaseUint.bits q >? 63 then Ok (sign * INT64_MAX)
      else Ok (s64 (w64 (w64 sign * BaseUint.GetLow64 q)))
  end.

(** * Adding a header to the index *)

Record index_state := mkState {
  mapBlockIndex : arena;
  pindexBestHeader : option nat;
  setDirtyBlockIndex : list nat
}.

(** [mapBlockIndex.find(hash)] *)
Fixpoint find_from (i : nat) (a : arena) (hash : Z) : option nat :=
  match a with
  | [] => None
  | b :: a' => if phashBlock b =? hash then Some i else find_from (S i) a' hash
  end.
Definition find_hash (a : arena) (hash : Z) : option nat := find_from 0 a hash.

Section AddHeader.

(** [CBlockHeader::GetHash], the header hash. *)
Variable GetHash : CBlockHeader -> Z.

(** [new CBlockIndex(block)] *)
Definition new_index (hash : Z) (block : CBlockHeader) : CBlockIndex :=
  {| phashBlock := hash;
     pprev := None;
     pskip := None;
     nHeight := s32 (h_nHeight block);
     nChainWork := BaseUint.zero;
     nStatus := 0;
     nSequenceId := 0;
     nTimeMax := 0;
     hdr := block |}.

(** The assignments through [pindexNew->pprev]: parent, height, skip pointer. *)
Definition link_parent (a : arena) (obj : CBlockIndex)
  : result chain_error CBlockIndex :=
  match find_hash (a ++ [obj]) (h_hashPrevBlock (hdr obj)) with
  | None => Ok obj
  | Some p =>
      let! b := deref (a ++ [obj]) p in
      let obj1 :=
        {| phashBlock := phashBlock obj; pprev := Some p; pskip := pskip obj;
           nHeight := nHeight b + 1; nChainWork := nChainWork obj;
           nStatus := nStatus obj; nSequenceId := nSequenceId obj;
           nTimeMax := nTimeMax obj; hdr := hdr obj |} in
      let! skip := BuildSkip (a ++ [obj1]) (pprev obj1) (nHeight obj1) (pskip obj1) in
      Ok {| phashBlock := phashBlock obj1; pprev := pprev obj1; pskip := skip;
            nHeight := nHeight obj1; nChainWork := nChainWork obj1;
            nStatus := nStatus obj1; nSequenceId := nSequenceId obj1;
            nTimeMax := nTimeMax obj1; hdr := hdr obj1 |}
  end.

(** [nTimeMax], [nChainWork] and [RaiseValidity(BLOCK_VALID_TREE)] *)
Definition accumulate (a : arena) (obj : CBlockIndex)
  : result chain_error CBlockIndex :=
  let! parent :=
    match pprev obj with
    | None => Ok None
    | Some p => let! b := deref (a ++ [obj]) p in Ok (Some b)
    end in
  let! proof := GetBlockProof (nBits obj) in
  Ok {| phashBlock := phashBlock obj; pprev := pprev obj; pskip := pskip obj;
        nHeight := nHeight obj;
        nChainWork := BaseUint.add
          (match parent with Some b => nChainWork b | None => BaseUint.of_u64 0 end) proof;
        nStatus := fst (RaiseValidity BLOCK_VALID_TREE (nStatus obj));
        nSequenceId := nSequenceId obj;
        nTimeMax := match parent with
                    | Some b => Z.max (nTimeMax b) (nTime obj)
                    | None => nTime obj
                    end;
        hdr := hdr obj |}.

Definition AddToBlockIndex (st : index_state) (block : CBlockHeader)
  : result chain_error (index_state * nat) :=
  let a := mapBlockIndex st in
  let hash := GetHash block in
  match find_hash a hash with
  | Some p => Ok (st, p)
  | None =>
      let new := length a in
      let! obj := link_parent a (new_index hash block) in
      let! pindexNew := accumulate a obj in
      let a' := a ++ [pindexNew] in
      let! best :=
        match pindexBestHeader st with
        | None => Ok (Some new)
        | Some p =>
            let! b := deref a' p in
            Ok (if BaseUint.lt (nChainWork b) (nChainWork pindexNew)
                then Some new else Some p)
        end in
      Ok ({| mapBlockIndex := a';
             pindexBestHeader := best;
             setDirtyBlockIndex := new :: setDirtyBlockIndex st |}, new)
  end.

End AddHeader.

(** * Common ancestors *)

(** [while (pa != pb && pa && pb)]: the final pair of pointers. *)
Fixpoint lca_walk (fuel : nat) (a : arena) (pa pb : option nat)
  : result chain_error (option nat * option nat) :=
  match fuel with
  | O => Err OutOfFuel
  | S fuel' =>
      match pa, pb with
      | Some x, Some y =>
          if Nat.eqb x y then Ok (pa, pb)
          else
            let! bx := deref a x in
            let! by_ := deref a y in
            lca_walk fuel' a (pprev bx) (pprev by_)
      | _, _ => Ok (pa, pb)
      end
  end.

Definition LastCommonAncestor (a : arena) (pa pb : nat)
  : result chain_error (option nat) :=
  let! ba := deref a pa in
  let! bb := deref a pb in
  let! pr :=
    if nHeight ba >? nHeight bb then
      let! r := GetAncestor a pa (nHeight bb) in Ok (r, Some pb)
    else if nHeight bb >? nHeight ba then
      let! r := GetAncestor a pb (nHeight ba) in Ok (Some pa, r)
    else Ok (Some pa, Some pb) in
  let! r := lca_walk (S (S (Z.to_nat (Z.min (nHeight ba) (nHeight bb))))) a (fst pr) (snd pr) in
  match r with
  | (Some x, Some y) => if Nat.eqb x y then Ok (Some x) else Err AssertFailed
  | (None, None) => Ok None
  | _ => Err AssertFailed
  end.

(** * Median time past *)

Definition nMedianTimeSpan : nat := 11.

(** The times of the block and up to ten predecessors, in the order they are
    stored in [pmedian] (oldest first). *)
Fixpoint past_times (n : nat) (a : arena) (pindex : option nat) (acc : list Z)
  : result chain_error (list Z) :=
  match n, pindex with
  | S n', Some p =>
      let! b := deref a p in
      past_times n' a (pprev b) (GetBlockTime b :: acc)
  | _, _ => Ok acc
  end.

(** [std::sort] *)
Fixpoint insert_sorted (x : Z) (l : list Z) : list Z :=
  match l with
  | [] => [x]
  | y :: l' => if x <=? y then x :: l else y :: insert_sorted x l'
  end.
Definition sort (l : list Z) : list Z := fold_right insert_sorted [] l.

Definition GetMedianTimePast (a : arena) (p : nat) : result chain_error Z :=
  let! l := past_times nMedianTimeSpan a (Some p) [] in
  Ok (get (sort l) (length l / 2)).

(** * The active chain *)

(** [vChain]: one pointer per height. *)
Definition CChain := list (option nat).

Definition Tip (c : CChain) : option nat := last c None.
Definition Height (c : CChain) : Z := Z.of_nat (length c) - 1.

Definition at_height (c : CChain) (h : Z) : option nat :=
  if (h <? 0) || (h >=? Z.of_nat (length c)) then None
  else nth (Z.to_nat h) c None.

Definition ptr_eqb (p q : option nat) : bool :=
  match p, q with
  | Some x, Some y => Nat.eqb x y
  | None, None => true
  | _, _ => false
  end.

Definition Contains (a : arena) (c : CChain) (p : nat) : result chain_error bool :=
  let! b := deref a p in
  Ok (ptr_eqb (at_height c (nHeight b)) (Some p)).

Definition Next (a : arena) (c : CChain) (p : nat) : result chain_error (option nat) :=
  let! b := deref a p in
  let! found := Contains a c p in
  Ok (if found then at_height c (nHeight b + 1) else None).

(** [vChain.resize(n)]: truncate, or pad with null pointers. *)
Definition resize (c : CChain) (n : nat) : CChain :=
  firstn n c ++ repeat None (n - length c).

(** [while (pindex && vChain[pindex->nHeight] != pindex)] *)
Fixpoint settip_walk (fuel : nat) (a : arena) (c : CChain) (pindex : option nat)
  : result chain_error CChain :=
  match fuel with
  | O => Err OutOfFuel
  | S fuel' =>
      match pindex with
      | None => Ok c
      | Some p =>
          let! b := deref a p in
          if ptr_eqb (nth (Z.to_nat (nHeight b)) c None) (Some p) then Ok c
          else settip_walk fuel' a (upd c (Z.to_nat (nHeight b)) (Some p)) (pprev b)
      end
  end.

Definition SetTip (a : arena) (c : CChain) (pindex : option nat)
  : result chain_error CChain :=
  match pindex with
  | None => Ok []
  | Some p =>
      let! b := deref a p in
      settip_walk (S (S (Z.to_nat (nHeight b)))) a
        (resize c (Z.to_nat (nHeight b + 1))) (Some p)
  end.

(** [while (pindex && !Contains(pindex)) pindex = pindex->pprev] *)
Fixpoint fork_walk (fuel : nat) (a : arena) (c : CChain) (pindex : option nat)
  : result chain_error (option nat) :=
  match fuel with
  | O => Err OutOfFuel
  | S fuel' =>
      match pindex with
      | None => Ok None
      | Some p =>
          let! found := Contains a c p in
          if (found : bool) then Ok (Some p)
          else let! b := deref a p in fork_walk fuel' a c (pprev b)
      end
  end.

Definition FindFork (a : arena) (c : CChain) (pindex : option nat)
  : result chain_error (option nat) :=
  match pindex with
  | None => Ok None
  | Some p =>
      let! b := deref a p in
      let! start :=
        if nHeight b >? Height c then GetAncestor a p (Height c) else Ok (Some p) in
      fork_walk (S (S (Z.to_nat (nHeight b)))) a c start
  end.

(** [std::lower_bound] of [FindEarliestAtLeast]: halve the range
    [[first, first + count)]. *)
Fixpoint lower_bound_loop (fuel : nat) (a : arena) (c : CChain) (time : Z)
    (first count : nat) : result chain_error nat :=
  match fuel with
  | O => Err OutOfFuel
  | S fuel' =>
      if Nat.eqb count 0 then Ok first
      else
        let step := (count / 2)%nat in
        match nth (first + step) c None with
        | None => Err NullDeref
        | Some p =>
            let! b := deref a p in
            if GetBlockTimeMax b <? time
            then lower_bound_loop fuel' a c time (first + step + 1) (count - (step + 1))
            else lower_bound_loop fuel' a c time first step
        end
  end.

Definition FindEarliestAtLeast (a : arena) (c : CChain) (time : Z)
  : result chain_error (option nat) :=
  let! lower := lower_bound_loop (S (length c)) a c time 0 (length c) in
  Ok (if Nat.eqb lower (length c) then None else nth lower c None).

(** The loop of [GetLocator]: [hashes] is [vHave] in reverse. *)
Fixpoint locator_walk (fuel : nat) (a : arena) (c : CChain) (pindex : option nat)
    (nStep : Z) (hashes : list Z) : result chain_error (list Z) :=
  match fuel with
  | O => Err OutOfFuel
  | S fuel' =>
      match pindex with
      | None => Ok (rev hashes)
      | Some p =>
          let! b := deref a p in
          let hashes' := phashBlock b :: hashes in
          if nHeight b =? 0 then Ok (rev hashes')
          else
            let h := Z.max (nHeight b - nStep) 0 in
            let! found := Contains a c p in
            let! next :=
              if (found : bool) then Ok (at_height c h) else GetAncestor a p h in
            let nStep' := if Nat.ltb 10 (length hashes') then nStep * 2 else nStep in
            locator_walk fuel' a c next nStep' hashes'
      end
  end.

Definition GetLocator (a : arena) (c : CChain) (pindex : option nat)
  : result chain_error (list Z) :=
  let start := match pindex with None => Tip c | Some _ => pindex end in
  match start with
  | None => Ok []
  | Some p =>
      let! b := deref a p in
      locator_walk (S (Z.to_nat (nHeight b))) a c start 1 []
  end.

(** * Ancestors by parent links: the specification *)

(** The block [n] parent links above [p]. *)
Fixpoint up (n : nat) (a : arena) (p : nat) : option nat :=
  match n with
  | O => Some p
  | S n' =>
      match nth_error a p with
      | Some b => match pprev b with Some q => up n' a q | None => None end
      | None => None
      end
  end.

Definition height_of (a : arena) (p : nat) : Z :=
  match nth_error a p with Some b => nHeight b | None => 0 end.

(** The ancestor of [p] at height [h]. *)
Definition ancestor (a : arena) (p : nat) (h : Z) : option nat :=
  up (Z.to_nat (height_of a p - h)) a p.

(** Well-formedness of one entry at position [p]: a root has height 0; any
    other block is one above its parent, which comes earlier in the arena,
    and its skip pointer, if set, is the ancestor at [GetSkipHeight]. *)
Definition wf_entry (a : arena) (p : nat) (b : CBlockIndex) : Prop :=
  match pprev b with
  | None => nHeight b = 0 /\ pskip b = None
  | Some q =>
      (q < p)%nat /\ nHeight b = height_of a q + 1 /\
      (pskip b = None \/ pskip b = ancestor a q (GetSkipHeight (nHeight b)))
  end /\
  BaseUint.wf (nChainWork b).

Definition wf_index (a : arena) : Prop :=
  forall p b, nth_error a p = Some b -> wf_entry a p b.

Section Ancestors.

Variable a : arena.
Hypothesis Hwf : wf_index a.

Lemma height_nonneg (p : nat) : 0 <= height_of a p.
Proof.
  induction p as [p IH] using lt_wf_ind; unfold height_of.
  destruct (nth_error a p) as [b |] eqn:E; [| lia].
  destruct (Hwf p b E) as [H _]; destruct (pprev b) as [q |]; [| lia].
  destruct H as (Hq & -> & _); specialize (IH q Hq); lia.
Qed.

Lemma height_le_index (p : nat) : height_of a p <= Z.of_nat p.
Proof.
  induction p as [p IH] using lt_wf_ind; unfold height_of.
  destruct (nth_error a p) as [b |] eqn:E; [| lia].
  destruct (Hwf p b E) as [H _]; destruct (pprev b) as [q |]; [| lia].
  destruct H as (Q & -> & _); specialize (IH q Q); lia.
Qed.

Lemma up_valid (n : nat) (p : nat) : (p < length a)%nat ->
  Z.of_nat n <= height_of a p ->
  exists q, up n a p = Some q /\ (q < length a)%nat /\ (q <= p)%nat /\
            height_of a q = height_of a p - Z.of_nat n.
Proof.
  revert p; induction n as [| n IH]; intros p Hp Hn.
  - exists p; cbn [up]; repeat split; auto; lia.
  - cbn [up]; unfold height_of in Hn |- *.
    destruct (nth_error a p) as [b |] eqn:E; [| apply nth_error_None in E; lia].
    destruct (Hwf p b E) as [H _]; destruct (pprev b) as [q |]; [| lia].
    destruct H as (Hq & Hh & _).
    destruct (IH q) as (r & Hr & Hlr & Hle & Hhr); [lia | lia |].
    exists r; rewrite Hr; repeat split; auto; try lia.
    fold (height_of a r); lia.
Qed.

Lemma up_add (n m : nat) (p q : nat) : up n a p = Some q -> up (n + m) a p = up m a q.
Proof.
  revert p; induction n as [| n IH]; intros p H; cbn [up Nat.add] in *.
  - injection H as ->; reflexivity.
  - destruct (nth_error a p) as [b |]; [| discriminate].
    destruct (pprev b) as [r |]; [| discriminate]; apply IH, H.
Qed.

Lemma ancestor_valid (p : nat) (h : Z) : (p < length a)%nat -> 0 <= h <= height_of a p ->
  exists q, ancestor a p h = Some q /\ (q < length a)%nat /\ (q <= p)%nat /\ height_of a q = h.
Proof.
  intros Hp Hh; unfold ancestor.
  destruct (up_valid (Z.to_nat (height_of a p - h)) p) as (q & Hq & Hl & Hle & Hhq); auto; [lia |].
  exists q; repeat split; auto; lia.
Qed.

(** Ancestors compose. *)
Lemma ancestor_trans (p q : nat) (h k : Z) : (p < length a)%nat ->
  0 <= k <= h -> h <= height_of a p -> ancestor a p h = Some q ->
  ancestor a q k = ancestor a p k.
Proof.
  intros Hp Hk Hh Hq.
  destruct (ancestor_valid p h Hp ltac:(lia)) as (q' & Hq' & _ & _ & Hhq).
  rewrite Hq' in Hq; injection Hq as ->; unfold ancestor in *.
  rewrite <- (up_add _ (Z.to_nat (height_of a q - k)) _ _ Hq'); f_equal; lia.
Qed.

Lemma ancestor_self (p : nat) : ancestor a p (height_of a p) = Some p.
Proof. unfold ancestor; rewrite Z.sub_diag; reflexivity. Qed.

Lemma ancestor_prev (p q : nat) (b : CBlockIndex) (h : Z) :
  nth_error a p = Some b -> pprev b = Some q -> h < nHeight b ->
  ancestor a p h = ancestor a q h.
Proof.
  intros E Eq Hh; destruct (Hwf p b E) as [H _]; rewrite Eq in H.
  destruct H as (_ & Hhb & _); unfold ancestor at 1; unfold height_of; rewrite E.
  replace (Z.to_nat (nHeight b - h)) with (S (Z.to_nat (height_of a q - h))) by lia.
  cbn [up]; rewrite E, Eq; reflexivity.
Qed.

End Ancestors.

(** * The skip list finds the ancestor *)

Lemma land_le (x y : Z) : 0 <= y -> 0 <= Z.land x y <= y.
Proof.
  intros Hy; apply Z.ldiff_le; [assumption |].
  rewrite Z.ldiff_land, <- Z.land_assoc, Z.land_lnot_diag; apply Z.land_0_r.
Qed.

Lemma InvertLowestOne_bounds (n : Z) : 0 <= n ->
  0 <= InvertLowestOne n <= n /\ (0 < n -> InvertLowestOne n < n).
Proof.
  intros Hn; unfold InvertLowestOne.
  destruct (Z.eq_dec n 0) as [-> |]; [simpl; lia |].
  pose proof (land_le n (n - 1) ltac:(lia)); lia.
Qed.

Lemma GetSkipHeight_bounds (h : Z) : 0 <= GetSkipHeight h /\ (1 <= h -> GetSkipHeight h < h).
Proof.
  unfold GetSkipHeight; destruct (Z.ltb_spec h 2); [lia |].
  case_if.
  - pose proof (InvertLowestOne_bounds (h - 1) ltac:(lia)).
    pose proof (InvertLowestOne_bounds (InvertLowestOne (h - 1)) ltac:(lia)); lia.
  - pose proof (InvertLowestOne_bounds h ltac:(lia)); lia.
Qed.

Section SkipList.

Variable a : arena.
Hypothesis Hwf : wf_index a.

Lemma ancestor_walk_spec (h : Z) : 0 <= h -> forall fuel p,
  (p < length a)%nat -> h <= height_of a p ->
  (Z.to_nat (height_of a p - h) < fuel)%nat ->
  exists q, ancestor_walk fuel a p (height_of a p) h = Ok q /\ ancestor a p h = Some q.
Proof.
  intros Hh; induction fuel as [| fuel IH]; intros p Hp Hle Hf; [lia |].
  cbn [ancestor_walk]; rewrite Z.gtb_ltb.
  destruct (Z.ltb_spec h (height_of a p)).
  2: { exists p; split; [reflexivity |]; replace h with (height_of a p) by lia.
       apply ancestor_self. }
  unfold deref; destruct (nth_error a p) as [b |] eqn:E; [| apply nth_error_None in E; lia].
  assert (Hhp : height_of a p = nHeight b) by (unfold height_of; rewrite E; reflexivity).
  cbn [bind]; destruct (Hwf p b E) as [Hb _].
  destruct (pprev b) as [q |] eqn:Eq; [| lia].
  destruct Hb as (Hq & Hhb & Hskip).
  assert (Hstep : forall r k, (r < length a)%nat -> ancestor a p k = Some r ->
            height_of a r = k -> h <= k < height_of a p ->
            exists x, ancestor_walk fuel a r k h = Ok x /\ ancestor a p h = Some x).
  { intros r k Hr Hrk Hhr Hk.
    destruct (IH r Hr ltac:(lia) ltac:(lia)) as (x & Hx & Hax).
    exists x; rewrite Hhr in Hx; split; [exact Hx |].
    rewrite <- Hax; symmetry; apply (ancestor_trans a Hwf p r k h); auto; lia. }
  assert (Hprev : exists x, ancestor_walk fuel a q (height_of a p - 1) h = Ok x /\
                            ancestor a p h = Some x).
  { apply Hstep; try lia.
    rewrite (ancestor_prev a Hwf p q b) by (auto; lia).
    replace (height_of a p - 1) with (height_of a q) by lia; apply ancestor_self. }
  destruct (pskip b) as [s |] eqn:Es; [| exact Hprev].
  match goal with |- context [if ?c then _ else _] => destruct c eqn:Ec | |- _ => idtac end.
  all: try exact Hprev.
  destruct Hskip as [| Hskip]; [discriminate |].
  pose proof (GetSkipHeight_bounds (nHeight b)) as [Hs0 Hs1].
  destruct (ancestor_valid a Hwf q (GetSkipHeight (nHeight b))) as (s' & Hs' & Hsl & _ & Hsh); [lia | lia |].
  rewrite Hs' in Hskip; injection Hskip as <-.
  rewrite Hhp in *; apply Hstep; auto; [| bool_to_prop].
  - rewrite (ancestor_prev a Hwf p q b); auto; lia.
  - apply orb_prop in Ec; destruct Ec; bool_to_prop; lia.
Qed.

End SkipList.

(** * Block proof *)

Section Proofs.
Import BaseUint ArithU256.

(** The expected number of hashes a target stands for. *)
Definition work_of_target (t : Z) : Z := 2 ^ 256 / (t + 1).

Lemma compact_value_nonneg (c : Z) : 0 <= compact_value c.
Proof.
  unfold compact_value; apply Z.div_pos; [| lia].
  apply Z.mul_nonneg_nonneg; [apply Z.mod_pos_bound; lia | apply Z.pow_nonneg; lia].
Qed.

(** A target never has all bits set: its mantissa has 23 bits. *)
Lemma compact_value_not_max (c : Z) : in_u 32 c ->
  compact_value c < 2 ^ 256 -> compact_value c < 2 ^ 256 - 1.
Proof.
  unfold in_u; intros Hc Hv.
  destruct (Z.eq_dec (compact_value c) (2 ^ 256 - 1)) as [E | E]; [| lia]; exfalso.
  unfold compact_value in E.
  pose proof (Z.mod_pos_bound c (2 ^ 23) ltac:(lia)).
  assert (0 <= c / 2 ^ 24) by (apply Z.div_pos; lia).
  destruct (Z.le_gt_cases (c / 2 ^ 24) 3).
  - rewrite scale_down in E by lia.
    assert (c mod 2 ^ 23 / 2 ^ (8 * (3 - c / 2 ^ 24)) < 2 ^ 23); [| lia].
    apply Z.div_lt_upper_bound; [apply pow2_pos; lia |].
    pose proof (pow2_pos (8 * (3 - c / 2 ^ 24)) ltac:(lia)); nia.
  - rewrite scale_up in E by lia.
    apply (f_equal (fun z => z mod 2)) in E; change ((2 ^ 256 - 1) mod 2) with 1 in E.
    replace (8 * (c / 2 ^ 24 - 3)) with (Z.succ (8 * (c / 2 ^ 24 - 3) - 1)) in E by lia.
    rewrite Z.pow_succ_r, (Z.mul_comm 2), Z.mul_assoc, Z.mod_mul in E by lia; discriminate.
Qed.

Lemma GetBlockProof_ok (nBits : Z) : in_u 32 nBits ->
  exists w, GetBlockProof nBits = Ok w /\ wf w /\
    val w = (if fNegative (SetCompact nBits) || fOverflow (SetCompact nBits)
                || (compact_value nBits =? 0)
             then 0 else work_of_target (compact_value nBits)).
Proof.
  intros Hc; unfold GetBlockProof.
  destruct (SetCompact_target nBits) as [Hw Hv]; [apply Hc |].
  rewrite (SetCompact_overflow nBits Hc).
  assert (H0 : in_u 64 0) by (unfold in_u; lia); rewrite EqualTo_spec by assumption.
  destruct (fNegative (SetCompact nBits)); cbn [orb];
    [exists (of_u64 0); auto using of_u64_wf |].
  destruct (Z.leb_spec (2 ^ 256) (compact_value nBits)) as [| Hlt]; cbn [orb];
    [exists (of_u64 0); auto using of_u64_wf |].
  pose proof (compact_value_nonneg nBits); rewrite Z.mod_small in Hv by lia; rewrite Hv.
  destruct (Z.eqb_spec (compact_value nBits) 0); [exists (of_u64 0); auto using of_u64_wf |].
  pose proof (compact_value_not_max nBits Hc Hlt) as Hmax.
  set (t := target (SetCompact nBits)) in *; set (v := compact_value nBits) in *.
  assert (H1 : val (add t (of_u64 1)) = v + 1).
  { rewrite add_spec, Hv, Z.mod_small; auto using of_u64_wf; change (val (of_u64 1)) with 1; lia. }
  assert (H2 : val (compl t) = 2 ^ 256 - 1 - v).
  { destruct Hw as [Hl Hf]; rewrite compl_val, Hl, Hv by assumption; reflexivity. }
  destruct (div_mod_ok (compl t) (add t (of_u64 1))) as (q & r & E & Hq & _ & Hqv & _);
    auto with hemp; [lia |].
  unfold div; rewrite E; cbn [bind fst].
  assert (E2 : (2 ^ 256 - 1 - v) / (v + 1) + 1 = work_of_target v).
  { unfold work_of_target; rewrite <- Z.div_add by lia; f_equal; lia. }
  exists (add q (of_u64 1)); split; [reflexivity |]; split; [auto with hemp |].
  rewrite add_spec, Hqv, H1, H2 by auto with hemp.
  change (val (of_u64 1)) with 1; rewrite E2; apply Z.mod_small.
  unfold work_of_target; split; [apply Z.div_pos; lia |].
  apply Z.div_lt_upper_bound; nia.
Qed.

End Proofs.

(** * Growing the index *)

Section Growth.

Lemma nth_error_snoc {A} (l : list A) (x : A) (p : nat) :
  nth_error (l ++ [x]) p =
  if Nat.ltb p (length l) then nth_error l p
  else if Nat.eqb p (length l) then Some x else None.
Proof.
  destruct (Nat.ltb_spec p (length l)); [apply nth_error_app1; lia |].
  rewrite nth_error_app2 by lia; destruct (Nat.eqb_spec p (length l)) as [-> |].
  - rewrite Nat.sub_diag; reflexivity.
  - destruct (p - length l)%nat as [| [|]] eqn:E; simpl; auto; lia.
Qed.

Lemma height_of_app (a : arena) (x : CBlockIndex) (p : nat) : (p < length a)%nat ->
  height_of (a ++ [x]) p = height_of a p.
Proof. intros; unfold height_of; rewrite nth_error_app1 by lia; reflexivity. Qed.

Lemma up_app (a : arena) (x : CBlockIndex) : wf_index a -> forall n p,
  (p < length a)%nat -> up n (a ++ [x]) p = up n a p.
Proof.
  intros Hwf; induction n as [| n IH]; intros p Hp; cbn [up]; auto.
  rewrite nth_error_app1 by lia; destruct (nth_error a p) as [b |] eqn:E; auto.
  destruct (Hwf p b E) as [H _]; destruct (pprev b) as [q |]; auto; apply IH; lia.
Qed.

Lemma ancestor_app (a : arena) (x : CBlockIndex) (p : nat) (h : Z) : wf_index a ->
  (p < length a)%nat -> ancestor (a ++ [x]) p h = ancestor a p h.
Proof. intros; unfold ancestor; rewrite height_of_app, up_app by auto; reflexivity. Qed.

Lemma wf_index_snoc (a : arena) (x : CBlockIndex) : wf_index a ->
  wf_entry a (length a) x -> wf_index (a ++ [x]).
Proof.
  intros Hwf Hx.
  assert (Hmono : forall p b, (p <= length a)%nat -> wf_entry a p b -> wf_entry (a ++ [x]) p b).
  { intros p b Hp [H Hw]; split; [| exact Hw]; destruct (pprev b) as [q |]; [| exact H].
    destruct H as (Hq & Hh & Hs); rewrite height_of_app, ancestor_app by (auto; lia); auto. }
  intros p b; rewrite nth_error_snoc.
  destruct (Nat.ltb_spec p (length a)); [intros E; apply Hmono; [lia | apply Hwf, E] |].
  destruct (Nat.eqb_spec p (length a)) as [-> |]; [intros [= <-]; auto | discriminate].
Qed.

Lemma find_from_spec (a : arena) (h : Z) (i : nat) :
  match find_from i a h with
  | Some p => (i <= p < i + length a)%nat /\
              exists b, nth_error a (p - i) = Some b /\ phashBlock b = h
  | None => forall b, In b a -> phashBlock b <> h
  end.
Proof.
  revert i; induction a as [| b a IH]; intros i; cbn [find_from]; [intros ? [] |].
  destruct (Z.eqb_spec (phashBlock b) h) as [E | E].
  - split; [simpl; lia |]; exists b; rewrite Nat.sub_diag; auto.
  - specialize (IH (S i)); destruct (find_from (S i) a h) as [p |].
    + destruct IH as [Hp (b' & Hb & Hh)]; split; [simpl; lia |].
      exists b'; replace (p - i)%nat with (S (p - S i)) by lia; auto.
    + intros b' [<- | H]; auto.
Qed.

Lemma find_hash_some (a : arena) (h : Z) (p : nat) : find_hash a h = Some p ->
  (p < length a)%nat /\ exists b, nth_error a p = Some b /\ phashBlock b = h.
Proof.
  intros E; pose proof (find_from_spec a h 0) as H; unfold find_hash in E; rewrite E in H.
  rewrite Nat.sub_0_r in H; destruct H as [H1 H2]; split; [lia | exact H2].
Qed.

End Growth.

(** * Theorems about the index *)

(** GetAncestor on a well-formed index. *)
Lemma GetAncestor_ok (a : arena) (p : nat) (h : Z) : wf_index a -> (p < length a)%nat ->
  GetAncestor a p h =
  Ok (if (height_of a p <? h) || (h <? 0) then None else ancestor a p h).
Proof.
  intros Hwf Hp; unfold GetAncestor, deref, height_of.
  destruct (nth_error a p) as [b |] eqn:E; [| apply nth_error_None in E; lia].
  assert (Hh : height_of a p = nHeight b) by (unfold height_of; rewrite E; reflexivity).
  cbn [bind]; rewrite Z.gtb_ltb.
  destruct (Z.ltb_spec (nHeight b) h), (Z.ltb_spec h 0); cbn [orb]; auto.
  destruct (ancestor_walk_spec a Hwf h ltac:(lia) (S (Z.to_nat (nHeight b - h))) p) as (q & Hq & Ha);
    auto; try lia.
  rewrite Hh in Hq; rewrite Hq, Ha; reflexivity.
Qed.

(** C36: on every well-formed block index the skip-list walk of
    [GetAncestor] terminates without failing its assertion and returns the
    very block that following the parent pointers would reach, or null when
    the height is negative or above the block's own. *)
Theorem GetAncestor_correct (a : arena) (p : nat) (h : Z) :
  wf_index a -> (p < length a)%nat ->
  (0 <= h <= height_of a p ->
   exists q, GetAncestor a p h = Ok (Some q) /\ height_of a q = h /\
             up (Z.to_nat (height_of a p - h)) a p = Some q) /\
  (h < 0 \/ height_of a p < h -> GetAncestor a p h = Ok None).
Proof.
  intros Hwf Hp; rewrite (GetAncestor_ok a p h Hwf Hp); split; intros Hh.
  - destruct (ancestor_valid a Hwf p h Hp Hh) as (q & Hq & _ & _ & Hhq).
    exists q; rewrite (proj2 (Z.ltb_ge _ _)), (proj2 (Z.ltb_ge _ _)) by lia.
    cbn [orb]; rewrite Hq; auto.
  - destruct (Z.ltb_spec (height_of a p) h), (Z.ltb_spec h 0); cbn [orb]; auto; lia.
Qed.

(** The work [GetBlockProof] assigns to a compact target. *)
Definition block_work (nBits : Z) : Z :=
  if ArithU256.fNegative (ArithU256.SetCompact nBits)
     || ArithU256.fOverflow (ArithU256.SetCompact nBits)
     || (compact_value nBits =? 0)
  then 0 else work_of_target (compact_value nBits).

(** The running totals of an entry: maximal time and accumulated work. *)
Definition totals_ok (a : arena) (b : CBlockIndex) : Prop :=
  match pprev b with
  | None => nTimeMax b = nTime b /\
            BaseUint.val (nChainWork b) = block_work (nBits b) mod 2 ^ 256
  | Some q =>
      exists pb, nth_error a q = Some pb /\
        nTimeMax b = Z.max (nTimeMax pb) (nTime b) /\
        BaseUint.val (nChainWork b)
        = (BaseUint.val (nChainWork pb) + block_work (nBits b)) mod 2 ^ 256
  end.

(** The invariant of the block index: a well-formed tree with distinct
    hashes and correct totals, whose best header has the most work. *)
Definition wf_state (st : index_state) : Prop :=
  let a := mapBlockIndex st in
  wf_index a /\
  (forall p b, nth_error a p = Some b -> totals_ok a b) /\
  NoDup (map phashBlock a) /\
  match pindexBestHeader st with
  | None => a = []
  | Some p =>
      exists b, nth_error a p = Some b /\
        forall q c, nth_error a q = Some c ->
          BaseUint.val (nChainWork c) <= BaseUint.val (nChainWork b)
  end.

Section AddHeaderProofs.
Import BaseUint.

Variable GetHash : CBlockHeader -> Z.

(** What an added header must satisfy: its target is 32 bits wide, it is not
    its own parent, and only a header that declares height 0 lacks a parent. *)
Definition addable (a : arena) (block : CBlockHeader) : Prop :=
  in_u 32 (h_nBits block) /\
  h_hashPrevBlock block <> GetHash block /\
  (find_hash a (h_hashPrevBlock block) = None -> h_nHeight block = 0).

Lemma find_hash_app_other (a : arena) (x : CBlockIndex) (h : Z) :
  phashBlock x <> h -> find_hash (a ++ [x]) h = find_hash a h.
Proof.
  intros Hx; unfold find_hash; generalize 0%nat.
  induction a as [| b a IH]; intros i; cbn [app find_from].
  - rewrite (proj2 (Z.eqb_neq _ _) Hx); reflexivity.
  - rewrite IH; reflexivity.
Qed.

(** The object after its parent, height and skip pointer are set. *)
Lemma link_parent_ok (a : arena) (block : CBlockHeader) :
  wf_index a -> addable a block ->
  exists obj, link_parent a (new_index (GetHash block) block) = Ok obj /\
    pprev obj = find_hash a (h_hashPrevBlock block) /\
    phashBlock obj = GetHash block /\ hdr obj = block /\ nStatus obj = 0 /\
    wf_entry a (length a) obj.
Proof.
  intros Hwf (Hb & Hself & Hroot); unfold link_parent; cbn [hdr new_index].
  rewrite find_hash_app_other by (cbn; congruence).
  destruct (find_hash a (h_hashPrevBlock block)) as [p |] eqn:Ef.
  - destruct (find_hash_some a _ p Ef) as [Hp (b & Eb & _)].
    unfold deref; rewrite nth_error_app1, Eb by lia; cbn [bind].
    set (obj1 := {| phashBlock := _; pprev := Some p |}).
    assert (Hhb : height_of a p = nHeight b) by (unfold height_of; rewrite Eb; reflexivity).
    assert (Hw1 : wf_entry a (length a) obj1).
    { split; [| apply zero_wf]; cbn; repeat split; auto; lia. }
    unfold BuildSkip; cbn [pprev obj1].
    rewrite GetAncestor_ok, height_of_app, ancestor_app
      by (auto using wf_index_snoc; rewrite length_app; simpl; lia).
    pose proof (GetSkipHeight_bounds (nHeight b + 1)) as [Hs0 Hs1].
    pose proof (height_nonneg a Hwf p).
    cbn [nHeight obj1]; rewrite (proj2 (Z.ltb_ge _ _)), (proj2 (Z.ltb_ge _ _)) by lia.
    cbn [orb bind]; eexists; split; [reflexivity |]; do 4 (split; [reflexivity |]).
    split; [| apply zero_wf]; cbn [pprev pskip nHeight]; rewrite Hhb; auto.
  - eexists; split; [reflexivity |]; do 4 (split; [reflexivity |]).
    split; [| apply zero_wf]; cbn [new_index pprev pskip nHeight]; rewrite (Hroot eq_refl); auto.
Qed.

Lemma accumulate_ok (a : arena) (obj : CBlockIndex) :
  wf_index a -> wf_entry a (length a) obj -> in_u 32 (nBits obj) ->
  (forall q, pprev obj = Some q -> (q < length a)%nat) ->
  exists x, accumulate a obj = Ok x /\ wf_entry a (length a) x /\
    totals_ok a x /\ phashBlock x = phashBlock obj /\ pprev x = pprev obj /\
    hdr x = hdr obj /\ nHeight x = nHeight obj.
Proof.
  intros Hwf [He Hcw] Hn Hq; unfold accumulate.
  destruct (GetBlockProof_ok (nBits obj) Hn) as (w & Ew & Hww & Hwv).
  fold (block_work (nBits obj)) in Hwv.
  destruct (pprev obj) as [q |] eqn:Ep.
  - specialize (Hq q eq_refl); unfold deref; rewrite nth_error_app1 by lia.
    destruct (nth_error a q) as [pb |] eqn:Eq; [| apply nth_error_None in Eq; lia].
    destruct (Hwf q pb Eq) as [_ Hpw].
    rewrite Ew; cbn [bind]; eexists; split; [reflexivity |].
    split; [split; cbn [pprev pskip nHeight nChainWork]; auto with hemp |].
    split; [| cbn; auto]; unfold totals_ok, nTime, nBits; cbn [pprev nTimeMax nChainWork hdr].
    exists pb; repeat split; auto; rewrite add_spec, Hwv by assumption; reflexivity.
  - rewrite Ew; cbn [bind]; eexists; split; [reflexivity |].
    split; [split; cbn [pprev pskip nHeight nChainWork]; auto with hemp |].
    split; [| cbn; auto]; unfold totals_ok, nTime, nBits; cbn [pprev nTimeMax nChainWork hdr].
    split; auto; rewrite add_spec, Hwv by auto with hemp; reflexivity.
Qed.

Lemma totals_ok_snoc (a : arena) (x b : CBlockIndex) :
  totals_ok a b -> totals_ok (a ++ [x]) b.
Proof.
  unfold totals_ok; destruct (pprev b) as [q |]; auto.
  intros (pb & E & H); exists pb; split; auto.
  rewrite nth_error_app1; auto; apply nth_error_Some; congruence.
Qed.

(** The entry that is found or appended for a header. *)
Definition entry_for (a a' : arena) (block : CBlockHeader) (p : nat) : Prop :=
  exists b, nth_error a' p = Some b /\ phashBlock b = GetHash block /\
    (a' = a \/ a' = a ++ [b] /\ p = length a /\ hdr b = block /\ pprev b = find_hash a (h_hashPrevBlock block)).

Lemma AddToBlockIndex_ok (st : index_state) (block : CBlockHeader) :
  wf_state st -> addable (mapBlockIndex st) block ->
  exists st' p, AddToBlockIndex GetHash st block = Ok (st', p) /\ wf_state st' /\
    entry_for (mapBlockIndex st) (mapBlockIndex st') block p.
Proof.
  intros (Hwf & Htot & Hnd & Hbest) Hadd; unfold AddToBlockIndex.
  set (a := mapBlockIndex st) in *.
  destruct (find_hash a (GetHash block)) as [p |] eqn:Ef.
  { exists st, p; split; [reflexivity |]; split; [split; auto |].
    destruct (find_hash_some a _ p Ef) as [_ (b & Eb & Hb)]; exists b; auto. }
  destruct (link_parent_ok a block Hwf Hadd) as (obj & -> & Hpp & Hph & Hhd & _ & Hwe).
  cbn [bind].
  destruct (accumulate_ok a obj Hwf Hwe) as (x & -> & Hxe & Hxt & Hxh & Hxp & Hxhd & _).
  { unfold nBits; rewrite Hhd; apply Hadd. }
  { intros q Hq; rewrite Hpp in Hq; apply find_hash_some in Hq; apply Hq. }
  cbn [bind].
  assert (Hsnoc : wf_index (a ++ [x])) by (apply wf_index_snoc; auto).
  assert (Htot' : forall p b, nth_error (a ++ [x]) p = Some b -> totals_ok (a ++ [x]) b).
  { intros p b; rewrite nth_error_snoc; case_if; [intros E; eapply totals_ok_snoc, Htot, E |].
    case_if; [intros [= <-]; apply totals_ok_snoc, Hxt | discriminate]. }
  assert (Hnd' : NoDup (map phashBlock (a ++ [x]))).
  { rewrite map_app; apply NoDup_app; auto; [repeat constructor; intros [] |].
    intros h Hh; cbn [map In]; intros [<- | []]; rewrite Hxh, Hph in Hh.
    apply in_map_iff in Hh; destruct Hh as (b & Eb & Hin).
    pose proof (find_from_spec a (GetHash block) 0) as Hn.
    unfold find_hash in Ef; rewrite Ef in Hn; exact (Hn b Hin Eb). }
  assert (Hnew : nth_error (a ++ [x]) (length a) = Some x)
    by (rewrite nth_error_snoc, Nat.ltb_irrefl, Nat.eqb_refl; reflexivity).
  assert (Hentry : entry_for a (a ++ [x]) block (length a)).
  { exists x; split; [exact Hnew |]; split; [congruence |].
    right; repeat split; congruence. }
  assert (Hcase : forall q c, nth_error (a ++ [x]) q = Some c -> nth_error a q = Some c \/ c = x).
  { intros q c; rewrite nth_error_snoc; repeat case_if; auto; [intros [= <-]; auto | discriminate]. }
  destruct (pindexBestHeader st) as [p |]; cbn [bind].
  - destruct Hbest as (b & Eb & Hmax).
    assert (Hp : (p < length a)%nat) by (apply nth_error_Some; congruence).
    unfold deref; rewrite nth_error_app1, Eb by lia; cbn [bind].
    assert (Hlt : lt (nChainWork b) (nChainWork x) = (val (nChainWork b) <? val (nChainWork x))).
    { unfold lt; rewrite CompareTo_spec by (apply (Hwf _ _ Eb) || apply Hxe).
      destruct (Z.sgn_spec (val (nChainWork b) - val (nChainWork x))) as [[? ->] | [[? ->] | [? ->]]];
        symmetry; (apply Z.ltb_lt || apply Z.ltb_ge); lia. }
    rewrite Hlt; eexists _, (length a); split; [reflexivity |].
    split; [| exact Hentry].
    split; [exact Hsnoc |]; split; [exact Htot' |]; split; [exact Hnd' |]; cbn.
    destruct (Z.ltb_spec (val (nChainWork b)) (val (nChainWork x))).
    + exists x; split; [exact Hnew |]; intros q c [Hq | ->]%Hcase; [specialize (Hmax q c Hq) |]; lia.
    + exists b; split; [rewrite nth_error_app1; auto; lia |].
      intros q c [Hq | ->]%Hcase; [exact (Hmax q c Hq) | lia].
  - eexists _, (length a); split; [reflexivity |].
    split; [| exact Hentry].
    split; [exact Hsnoc |]; split; [exact Htot' |]; split; [exact Hnd' |]; cbn.
    exists x; split; [exact Hnew |]; intros q c [Hq | ->]%Hcase; [| lia].
    rewrite Hbest in Hq; destruct q; discriminate.
Qed.

(** Adding a header keeps the block index well formed: the insertion
    always succeeds, returns the entry of that header's hash, leaves every
    earlier entry in place, and afterwards heights, skip pointers, maximal
    times and accumulated work are again those of the tree and the best
    header is one of maximal work. *)
Theorem AddToBlockIndex_invariant (st : index_state) (block : CBlockHeader) :
  wf_state st -> addable (mapBlockIndex st) block ->
  exists st' p, AddToBlockIndex GetHash st block = Ok (st', p) /\
    wf_state st' /\
    (exists tail, mapBlockIndex st' = mapBlockIndex st ++ tail) /\
    exists b, nth_error (mapBlockIndex st') p = Some b /\ phashBlock b = GetHash block.
Proof.
  intros W A; destruct (AddToBlockIndex_ok st block W A) as (st' & p & E & W' & b & Eb & Hb & Hc).
  exists st', p; split; [exact E |]; split; [exact W' |]; split; [| eauto].
  destruct Hc as [-> | [-> _]]; [exists []; symmetry; apply app_nil_r | eauto].
Qed.

End AddHeaderProofs.

Definition ex_genesis : CBlockHeader := mkHeader 1 0 7 1000 0x1e0fffff 1 0 0 0.
Definition ex_block1 : CBlockHeader := mkHeader 1 1 8 1060 0x1e0fffff 2 1 0 0.

Definition empty_state : index_state := mkState [] None [].

Lemma wf_state_empty : wf_state empty_state.
Proof.
  split; [| split; [| split]]; cbn; auto using NoDup_nil; intros [|] ? [=].
Qed.

Lemma AddToBlockIndex_invariant_witness :
  exists st' p, AddToBlockIndex h_nNonce empty_state ex_genesis = Ok (st', p) /\ wf_state st'.
Proof.
  destruct (AddToBlockIndex_invariant h_nNonce empty_state ex_genesis wf_state_empty)
    as (st' & p & E & H & _).
  - repeat split; cbn; try lia; discriminate.
  - exists st', p; auto.
Defined.

(** A two-block index, for concrete evaluations. *)
Definition ex_arena : arena :=
  [ {| phashBlock := 1; pprev := None; pskip := None; nHeight := 0;
       nChainWork := BaseUint.of_u64 1048577; nStatus := 2; nSequenceId := 0;
       nTimeMax := 1000; hdr := ex_genesis |};
    {| phashBlock := 2; pprev := Some 0%nat; pskip := Some 0%nat; nHeight := 1;
       nChainWork := BaseUint.of_u64 2097154; nStatus := 2; nSequenceId := 0;
       nTimeMax := 1060; hdr := ex_block1 |} ].

Lemma wf_ex_arena : wf_index ex_arena.
Proof.
  intros [| [| [|]]] b [= <-]; (split; [| apply of_u64_wf]); cbn; auto; lia.
Qed.

Lemma totals_ex_arena (p : nat) (b : CBlockIndex) :
  nth_error ex_arena p = Some b -> totals_ok ex_arena b.
Proof.
  destruct p as [| [| [|]]]; intros [= <-]; unfold totals_ok; cbn [pprev].
  - split; [reflexivity | vm_compute; reflexivity].
  - eexists; split; [reflexivity |]; split; [reflexivity | vm_compute; reflexivity].
Qed.

Lemma GetAncestor_correct_witness : GetAncestor ex_arena 1 0 = Ok (Some 0%nat).
Proof.
  destruct (GetAncestor_correct ex_arena 1 0 wf_ex_arena) as [H _]; [cbn; lia |].
  destruct H as (q & E & _ & Hq); [cbn; lia |].
  rewrite E; vm_compute in Hq; injection Hq as <-; reflexivity.
Defined.

(** [GetBlockProof] never divides by zero and returns the exact expected
    work [2^256 / (target + 1)] of a valid target, and zero for a negative,
    overflowing or zero one. *)
Theorem GetBlockProof_correct (nBits : Z) : in_u 32 nBits ->
  exists w, GetBlockProof nBits = Ok w /\ BaseUint.wf w /\
    let r := ArithU256.SetCompact nBits in
    BaseUint.val w =
      if (ArithU256.fNegative r || ArithU256.fOverflow r
          || (BaseUint.val (ArithU256.target r) =? 0))%bool then 0
      else 2 ^ 256 / (BaseUint.val (ArithU256.target r) + 1).
Proof.
  intros Hc; destruct (GetBlockProof_ok nBits Hc) as (w & E & Hw & Hv).
  exists w; split; [exact E |]; split; [exact Hw |]; cbn zeta; rewrite Hv.
  destruct (SetCompact_target nBits) as [_ ->]; [apply Hc |].
  rewrite (SetCompact_overflow nBits Hc).
  destruct (ArithU256.fNegative _); cbn [orb]; [reflexivity |].
  destruct (Z.leb_spec (2 ^ 256) (compact_value nBits)); cbn [orb]; [reflexivity |].
  pose proof (compact_value_nonneg nBits); rewrite Z.mod_small by lia; reflexivity.
Qed.

Lemma GetBlockProof_correct_witness :
  exists w, GetBlockProof 0x1d00ffff = Ok w /\ BaseUint.val w = 0x100010001.
Proof.
  destruct (GetBlockProof_correct 0x1d00ffff) as (w & E & _ & H); [unfold in_u; lia |].
  exists w; split; [exact E |]; cbn zeta in H; rewrite H; vm_compute; reflexivity.
Defined.

(** * The active chain *)

(** The chain that ends in block [p]: its ancestor at every height. *)
Definition chain_of (a : arena) (p : nat) : CChain :=
  map (fun h => ancestor a p (Z.of_nat h)) (seq 0 (Z.to_nat (height_of a p + 1))).

Definition chain_ok (a : arena) (c : CChain) : Prop :=
  c = [] \/ exists p, (p < length a)%nat /\ c = chain_of a p.

Section ActiveChain.

Variable a : arena.
Hypothesis Hwf : wf_index a.

Lemma length_chain_of (p : nat) : length (chain_of a p) = Z.to_nat (height_of a p + 1).
Proof. unfold chain_of; rewrite length_map, length_seq; reflexivity. Qed.

Lemma nth_chain_of (p h : nat) : Z.of_nat h <= height_of a p ->
  nth h (chain_of a p) None = ancestor a p (Z.of_nat h).
Proof.
  intros Hh; unfold chain_of; set (f := fun h => ancestor a p (Z.of_nat h)).
  rewrite (nth_indep _ None (f O)), (map_nth f) by (rewrite length_map, length_seq; lia).
  rewrite seq_nth by lia; reflexivity.
Qed.

Lemma nth_ge_None (c : CChain) (h : nat) : (length c <= h)%nat -> nth h c None = None.
Proof. apply nth_overflow. Qed.

Lemma nth_resize (c : CChain) (n h : nat) : (h < n)%nat ->
  nth h (resize c n) None = nth h c None.
Proof.
  intros Hh; unfold resize; destruct (Nat.lt_ge_cases h (length c)).
  - rewrite app_nth1 by (rewrite length_firstn; lia).
    rewrite <- (firstn_skipn n c) at 2; rewrite app_nth1; auto.
    rewrite length_firstn; lia.
  - rewrite (nth_ge_None c) by lia; destruct (Nat.lt_ge_cases h (length (firstn n c))) as [Hl |].
    + rewrite length_firstn in Hl; lia.
    + rewrite app_nth2, nth_repeat by lia; reflexivity.
Qed.

Lemma length_resize (c : CChain) (n : nat) : length (resize c n) = n.
Proof. unfold resize; rewrite length_app, length_firstn, repeat_length; lia. Qed.

(** Two chains that agree at a height agree below it. *)
Lemma ancestor_agree (p t : nat) (k h : Z) (q : nat) :
  (p < length a)%nat -> (t < length a)%nat -> 0 <= h <= k ->
  k <= height_of a p -> k <= height_of a t ->
  ancestor a p k = Some q -> ancestor a t k = Some q ->
  ancestor a p h = ancestor a t h.
Proof.
  intros Hp Ht Hk Hkp Hkt E1 E2.
  rewrite <- (ancestor_trans a Hwf p q k h), <- (ancestor_trans a Hwf t q k h) by (auto; lia).
  reflexivity.
Qed.

Lemma settip_walk_ok (c c0 : CChain) (p : nat) :
  chain_ok a c -> (p < length a)%nat -> forall fuel k q,
  Z.of_nat k <= height_of a p -> ancestor a p (Z.of_nat k) = Some q ->
  length c0 = Z.to_nat (height_of a p + 1) ->
  (forall h, (h < length c0)%nat ->
     nth h c0 None = if Nat.leb h k then nth h c None else ancestor a p (Z.of_nat h)) ->
  (k + 1 < fuel)%nat ->
  settip_walk fuel a c0 (Some q) = Ok (chain_of a p).
Proof.
  intros Hc Hp fuel; revert c0; induction fuel as [| fuel IH]; intros c0 k q Hk Hq Hl Hn Hf; [lia |].
  destruct (ancestor_valid a Hwf p (Z.of_nat k) Hp ltac:(lia)) as (q' & Hq' & Hql & _ & Hqh).
  rewrite Hq in Hq'; injection Hq' as <-.
  cbn [settip_walk]; unfold deref.
  destruct (nth_error a q) as [b |] eqn:Eb; [| apply nth_error_None in Eb; lia].
  assert (Hhb : nHeight b = Z.of_nat k) by (unfold height_of in Hqh; rewrite Eb in Hqh; exact Hqh).
  cbn [bind]; rewrite Hhb, Nat2Z.id.
  assert (Hext : forall c1, length c1 = Z.to_nat (height_of a p + 1) ->
            (forall h, (h < length c1)%nat -> nth h c1 None = ancestor a p (Z.of_nat h)) ->
            c1 = chain_of a p).
  { intros c1 Hl1 H1; apply (nth_ext _ _ None None); [rewrite length_chain_of; exact Hl1 |].
    intros h Hh; rewrite H1, nth_chain_of by lia; reflexivity. }
  destruct (ptr_eqb (nth k c0 None) (Some q)) eqn:Et.
  - f_equal; apply Hext; [exact Hl |]; intros h Hh; rewrite Hn by assumption.
    destruct (Nat.leb_spec h k); [| reflexivity].
    rewrite Hn, Nat.leb_refl in Et by lia.
    destruct (nth k c None) as [x |] eqn:Ex; [| discriminate].
    cbn [ptr_eqb] in Et; apply Nat.eqb_eq in Et; subst x.
    destruct Hc as [-> | (t & Ht & ->)]; [destruct k; discriminate |].
    assert (Hkt : Z.of_nat k <= height_of a t).
    { destruct (Z.le_gt_cases (Z.of_nat k) (height_of a t)); auto.
      rewrite nth_ge_None in Ex; [discriminate |]; rewrite length_chain_of; lia. }
    rewrite nth_chain_of in Ex |- * by lia.
    apply (ancestor_agree t p (Z.of_nat k) (Z.of_nat h) q); auto; lia.
  - assert (Hk' : (k < length c0)%nat) by lia.
    destruct (Hwf q b Eb) as [Hb _]; destruct (pprev b) as [r |] eqn:Er.
    + destruct Hb as (Hr & Hhr & _); destruct k as [| k]; [pose proof (height_nonneg a Hwf r); lia |].
      apply (IH _ k r); try lia.
      * rewrite <- (ancestor_trans a Hwf p q (Z.of_nat (S k)) (Z.of_nat k)) by (auto; lia).
        rewrite (ancestor_prev a Hwf q r b) by (auto; lia).
        replace (Z.of_nat k) with (height_of a r) by lia; apply ancestor_self.
      * rewrite length_upd; exact Hl.
      * intros h Hh; rewrite length_upd in Hh; rewrite nth_upd, Hn by lia.
        destruct (Nat.eqb_spec (S k) h) as [<- |].
        -- rewrite (proj2 (Nat.leb_gt _ _)) by lia; symmetry; exact Hq.
        -- destruct (Nat.leb_spec h (S k)), (Nat.leb_spec h k); auto; lia.
    + assert (k = O) by lia; subst k; destruct fuel as [| fuel']; [lia |].
      cbn [settip_walk]; f_equal; apply Hext; [rewrite length_upd; exact Hl |].
      intros h Hh; rewrite length_upd in Hh; rewrite nth_upd, Hn by lia.
      destruct h as [| h]; [symmetry; exact Hq | reflexivity].
Qed.

End ActiveChain.

(** [SetTip] makes the active chain exactly the ancestors of the new
    tip, one per height, whatever chain was active before: a shorter chain, a
    longer one, or another branch.  Its walk stops at the first common block
    and that is enough. *)
Theorem SetTip_correct (a : arena) (c : CChain) (p : nat) :
  wf_index a -> chain_ok a c -> (p < length a)%nat ->
  exists c', SetTip a c (Some p) = Ok c' /\ chain_ok a c' /\
    Tip c' = Some p /\ Height c' = height_of a p /\
    forall h, 0 <= h <= height_of a p -> at_height c' h = ancestor a p h.
Proof.
  intros Hwf Hc Hp; pose proof (height_nonneg a Hwf p) as Hh0.
  exists (chain_of a p); unfold SetTip, deref.
  destruct (nth_error a p) as [b |] eqn:Eb; [| apply nth_error_None in Eb; lia].
  assert (Hhb : height_of a p = nHeight b) by (unfold height_of; rewrite Eb; reflexivity).
  cbn [bind]; rewrite <- Hhb.
  assert (Hat : forall h, 0 <= h <= height_of a p -> at_height (chain_of a p) h = ancestor a p h).
  { intros h Hh; unfold at_height; rewrite length_chain_of.
    rewrite (proj2 (Z.ltb_ge _ _)), Z.geb_leb, (proj2 (Z.leb_gt _ _)) by lia.
    cbn [orb]; rewrite nth_chain_of, Z2Nat.id by lia; reflexivity. }
  split; [| split; [right; exists p; auto | split; [| split; [| exact Hat]]]].
  - apply (settip_walk_ok a Hwf c _ p Hc Hp _ (Z.to_nat (height_of a p))); try lia.
    + rewrite Z2Nat.id by lia; apply ancestor_self.
    + apply length_resize.
    + intros h Hh; rewrite length_resize in Hh; rewrite nth_resize by lia.
      destruct (Nat.leb_spec h (Z.to_nat (height_of a p))); [reflexivity | lia].
  - unfold Tip.
    assert (E : chain_of a p = firstn (Z.to_nat (height_of a p)) (chain_of a p) ++ [Some p]).
    { rewrite <- (firstn_all (chain_of a p)) at 1; rewrite length_chain_of.
      replace (Z.to_nat (height_of a p + 1)) with (S (Z.to_nat (height_of a p))) by lia.
      rewrite (firstn_S_nth _ _ None) by (rewrite length_chain_of; lia); do 2 f_equal.
      rewrite nth_chain_of, Z2Nat.id by lia; apply ancestor_self. }
    rewrite E; apply last_last.
  - unfold Height; rewrite length_chain_of; lia.
Qed.

Lemma SetTip_correct_witness :
  exists c', SetTip ex_arena [] (Some 1%nat) = Ok c' /\ Tip c' = Some 1%nat.
Proof.
  destruct (SetTip_correct ex_arena [] 1 wf_ex_arena) as (c' & E & _ & H & _);
    [left; reflexivity | cbn; lia |]; exists c'; auto.
Defined.

(** * Forks *)

(** [r] is the last block the branches of [p] and [t] share; [None] when they
    share none. *)
Definition last_common (a : arena) (p t : nat) (r : option nat) : Prop :=
  match r with
  | Some q =>
      exists h, 0 <= h <= Z.min (height_of a p) (height_of a t) /\
        ancestor a p h = Some q /\ ancestor a t h = Some q /\
        forall k, h < k <= Z.min (height_of a p) (height_of a t) ->
                  ancestor a p k <> ancestor a t k
  | None =>
      forall k, 0 <= k <= Z.min (height_of a p) (height_of a t) ->
                ancestor a p k <> ancestor a t k
  end.

Section Forks.

Variable a : arena.
Hypothesis Hwf : wf_index a.

Lemma ancestor_down (p q r : nat) (b : CBlockIndex) (k : Z) :
  (p < length a)%nat -> 1 <= k <= height_of a p -> ancestor a p k = Some q ->
  nth_error a q = Some b -> pprev b = Some r -> ancestor a p (k - 1) = Some r.
Proof.
  intros Hp Hk Hq Eb Er.
  destruct (ancestor_valid a Hwf p k Hp ltac:(lia)) as (q' & Hq' & _ & _ & Hh).
  rewrite Hq in Hq'; injection Hq' as <-.
  destruct (Hwf q b Eb) as [Hb _]; rewrite Er in Hb; destruct Hb as (_ & Hhb & _).
  unfold height_of in Hh; rewrite Eb in Hh.
  rewrite <- (ancestor_trans a Hwf p q k (k - 1)) by (auto; lia).
  rewrite (ancestor_prev a Hwf q r b) by (auto; lia).
  replace (k - 1) with (height_of a r) by lia; apply ancestor_self.
Qed.

(** A block at height [k >= 1] of a branch has a parent; one at height 0 none. *)
Lemma entry_at (p q : nat) (k : Z) :
  (p < length a)%nat -> 0 <= k <= height_of a p -> ancestor a p k = Some q ->
  exists b, nth_error a q = Some b /\ nHeight b = k /\
    match pprev b with Some r => 1 <= k | None => k = 0 end.
Proof.
  intros Hp Hk Hq.
  destruct (ancestor_valid a Hwf p k Hp Hk) as (q' & Hq' & Hl & _ & Hh).
  rewrite Hq in Hq'; injection Hq' as <-; unfold height_of in Hh.
  destruct (nth_error a q) as [b |] eqn:Eb; [| apply nth_error_None in Eb; lia].
  exists b; repeat split; auto; destruct (Hwf q b Eb) as [Hb _].
  destruct (pprev b) as [r |]; [| lia].
  destruct Hb as (_ & Hhb & _); pose proof (height_nonneg a Hwf r); lia.
Qed.

Lemma at_height_chain_of (t : nat) (k : Z) : 0 <= k ->
  at_height (chain_of a t) k = if k <=? height_of a t then ancestor a t k else None.
Proof.
  intros Hk; pose proof (height_nonneg a Hwf t); unfold at_height.
  rewrite length_chain_of, (proj2 (Z.ltb_ge _ _)), Z.geb_leb, Z2Nat.id by lia; cbn [orb].
  destruct (Z.leb_spec (height_of a t + 1) k), (Z.leb_spec k (height_of a t)); auto; try lia.
  rewrite nth_chain_of, Z2Nat.id by lia; reflexivity.
Qed.

Lemma ptr_eqb_eq (x y : option nat) : ptr_eqb x y = true <-> x = y.
Proof.
  destruct x as [x |], y as [y |]; cbn; split; intros H; try congruence.
  - apply Nat.eqb_eq in H; congruence.
  - injection H as ->; apply Nat.eqb_refl.
Qed.

Lemma fork_walk_ok (p t : nat) : (p < length a)%nat -> (t < length a)%nat ->
  forall fuel k q, 0 <= k <= height_of a p -> (Z.to_nat k + 1 < fuel)%nat ->
  ancestor a p k = Some q ->
  (forall k', k < k' <= Z.min (height_of a p) (height_of a t) -> ancestor a p k' <> ancestor a t k') ->
  exists r, fork_walk fuel a (chain_of a t) (Some q) = Ok r /\ last_common a p t r.
Proof.
  intros Hp Ht; induction fuel as [| fuel IH]; intros k q Hk Hf Hq Hno; [lia |].
  destruct (entry_at p q k Hp Hk Hq) as (b & Eb & Hhb & Hpb).
  cbn [fork_walk]; unfold Contains, deref; rewrite Eb; cbn [bind].
  rewrite Hhb, at_height_chain_of by lia.
  destruct (ptr_eqb _ (Some q)) eqn:Ec.
  - apply ptr_eqb_eq in Ec; exists (Some q); split; [reflexivity |].
    destruct (Z.leb_spec k (height_of a t)); [| discriminate].
    exists k; repeat split; auto; lia.
  - assert (Hno' : forall k', k - 1 < k' <= Z.min (height_of a p) (height_of a t) ->
              ancestor a p k' <> ancestor a t k').
    { intros k' Hk'; destruct (Z.eq_dec k' k) as [-> |]; [| apply Hno; lia].
      intros E; rewrite (proj2 (Z.leb_le _ _)) in Ec by lia.
      rewrite <- E, Hq in Ec; cbn in Ec; rewrite Nat.eqb_refl in Ec; discriminate. }
    destruct (pprev b) as [r |] eqn:Er.
    + apply (IH (k - 1) r); auto; try lia; exact (ancestor_down p q r b k Hp ltac:(lia) Hq Eb Er).
    + subst k; destruct fuel as [| fuel']; [lia |].
      exists None; split; [reflexivity |]; intros k' Hk'; apply Hno'; lia.
Qed.

Lemma lca_walk_ok (p t : nat) : (p < length a)%nat -> (t < length a)%nat ->
  forall fuel k x y, 0 <= k <= Z.min (height_of a p) (height_of a t) ->
  (Z.to_nat k + 1 < fuel)%nat ->
  ancestor a p k = Some x -> ancestor a t k = Some y ->
  (forall k', k < k' <= Z.min (height_of a p) (height_of a t) -> ancestor a p k' <> ancestor a t k') ->
  exists r, lca_walk fuel a (Some x) (Some y) = Ok (r, r) /\ last_common a p t r.
Proof.
  intros Hp Ht; induction fuel as [| fuel IH]; intros k x y Hk Hf Hx Hy Hno; [lia |].
  cbn [lca_walk]; destruct (Nat.eqb_spec x y) as [<- | Hxy].
  - exists (Some x); split; [reflexivity |]; exists k; auto.
  - destruct (entry_at p x k Hp ltac:(lia) Hx) as (bx & Ebx & Hhx & Hpx).
    destruct (entry_at t y k Ht ltac:(lia) Hy) as (by_ & Eby & Hhy & Hpy).
    unfold deref; rewrite Ebx, Eby; cbn [bind].
    assert (Hno' : forall k', k - 1 < k' <= Z.min (height_of a p) (height_of a t) ->
              ancestor a p k' <> ancestor a t k').
    { intros k' Hk'; destruct (Z.eq_dec k' k) as [-> |]; [congruence | apply Hno; lia]. }
    destruct (pprev bx) as [rx |] eqn:Erx, (pprev by_) as [ry |] eqn:Ery; try lia.
    + apply (IH (k - 1) rx ry); auto; try lia.
      * exact (ancestor_down p x rx bx k Hp ltac:(lia) Hx Ebx Erx).
      * exact (ancestor_down t y ry by_ k Ht ltac:(lia) Hy Eby Ery).
    + subst k; destruct fuel as [| fuel']; [lia |].
      exists None; split; [reflexivity |]; intros k' Hk'; apply Hno'; lia.
Qed.

Lemma FindFork_ok (p t : nat) : (p < length a)%nat -> (t < length a)%nat ->
  exists r, FindFork a (chain_of a t) (Some p) = Ok r /\ last_common a p t r.
Proof.
  intros Hp Ht; pose proof (height_nonneg a Hwf p); pose proof (height_nonneg a Hwf t).
  destruct (entry_at p p (height_of a p) Hp ltac:(lia) (ancestor_self a p)) as (b & Eb & Hhb & _).
  unfold FindFork, deref; rewrite Eb; cbn [bind]; rewrite Hhb.
  unfold Height; rewrite length_chain_of, Z.gtb_ltb.
  replace (Z.of_nat (Z.to_nat (height_of a t + 1)) - 1) with (height_of a t) by lia.
  destruct (Z.ltb_spec (height_of a t) (height_of a p)).
  - rewrite (GetAncestor_ok a p _ Hwf Hp).
    rewrite (proj2 (Z.ltb_ge (height_of a p) _)), (proj2 (Z.ltb_ge _ 0)) by lia; cbn [orb].
    destruct (ancestor_valid a Hwf p (height_of a t) Hp ltac:(lia)) as (q & Hq & _).
    rewrite Hq; cbn [bind]; apply (fork_walk_ok p t Hp Ht _ (height_of a t) q); auto; lia.
  - cbn [bind]; apply (fork_walk_ok p t Hp Ht _ (height_of a p) p); auto using ancestor_self; lia.
Qed.

Lemma LastCommonAncestor_ok (p t : nat) : (p < length a)%nat -> (t < length a)%nat ->
  exists r, LastCommonAncestor a p t = Ok r /\ last_common a p t r.
Proof.
  intros Hp Ht; pose proof (height_nonneg a Hwf p); pose proof (height_nonneg a Hwf t).
  destruct (entry_at p p (height_of a p) Hp ltac:(lia) (ancestor_self a p)) as (b & Eb & Hhb & _).
  destruct (entry_at t t (height_of a t) Ht ltac:(lia) (ancestor_self a t)) as (c & Ec & Hhc & _).
  unfold LastCommonAncestor, deref; rewrite Eb, Ec; cbn [bind]; rewrite Hhb, Hhc, !Z.gtb_ltb.
  set (m := Z.min (height_of a p) (height_of a t)).
  destruct (ancestor_valid a Hwf p m Hp ltac:(lia)) as (x & Hx & _).
  destruct (ancestor_valid a Hwf t m Ht ltac:(lia)) as (y & Hy & _).
  assert (Hpr : (if height_of a t <? height_of a p
                 then let! r := GetAncestor a p (height_of a t) in Ok (r, Some t)
                 else if height_of a p <? height_of a t
                      then let! r := GetAncestor a t (height_of a p) in Ok (Some p, r)
                      else Ok (Some p, Some t)) = Ok (Some x, Some y)).
  { rewrite !GetAncestor_ok by assumption.
    destruct (Z.ltb_spec (height_of a t) (height_of a p)); [| destruct (Z.ltb_spec (height_of a p) (height_of a t))].
    - rewrite (proj2 (Z.ltb_ge (height_of a p) (height_of a t))),
        (proj2 (Z.ltb_ge (height_of a t) 0)) by lia; cbn [orb bind].
      replace m with (height_of a t) in Hx, Hy by lia; rewrite ancestor_self in Hy; congruence.
    - rewrite (proj2 (Z.ltb_ge (height_of a p) 0)) by lia; cbn [orb bind].
      replace m with (height_of a p) in Hx, Hy by lia; rewrite ancestor_self in Hx; congruence.
    - assert (m = height_of a p) as Em by lia; rewrite Em, ancestor_self in Hx.
      replace m with (height_of a t) in Hy by lia; rewrite ancestor_self in Hy; congruence. }
  rewrite Hpr; cbn [bind fst snd].
  destruct (lca_walk_ok p t Hp Ht (S (S (Z.to_nat m))) m x y) as (r & Er & Hr); auto; try lia.
  rewrite Er; cbn [bind]; exists r; split; [| exact Hr].
  destruct r; [rewrite Nat.eqb_refl |]; reflexivity.
Qed.

End Forks.

(** [LastCommonAncestor] of two blocks and [CChain::FindFork] of a block
    against the active chain terminate, never fail the final assertion, and
    return the highest block both branches share (null when the branches have
    different roots). *)
Theorem forks_correct (a : arena) (p t : nat) :
  wf_index a -> (p < length a)%nat -> (t < length a)%nat ->
  (exists r, LastCommonAncestor a p t = Ok r /\ last_common a p t r) /\
  (exists r, FindFork a (chain_of a t) (Some p) = Ok r /\ last_common a p t r).
Proof.
  intros Hwf Hp Ht; split; [apply LastCommonAncestor_ok | apply FindFork_ok]; assumption.
Qed.

Lemma forks_correct_witness :
  exists r, LastCommonAncestor ex_arena 1 0 = Ok r /\ last_common ex_arena 1 0 r.
Proof.
  apply (forks_correct ex_arena 1 0 wf_ex_arena); cbn; lia.
Defined.

(** * Searching the active chain by time, and block locators *)

Section Searching.

Variable a : arena.
Hypothesis Hwf : wf_index a.
Hypothesis Htot : forall p b, nth_error a p = Some b -> totals_ok a b.

(** The maximal time of the ancestor of [t] at height [h]. *)
Definition time_at (t : nat) (h : nat) : Z :=
  match ancestor a t (Z.of_nat h) with
  | Some q => match nth_error a q with Some b => nTimeMax b | None => 0 end
  | None => 0
  end.

Lemma time_at_mono (t : nat) (h k : nat) : (t < length a)%nat -> (h <= k)%nat ->
  Z.of_nat k <= height_of a t -> time_at t h <= time_at t k.
Proof.
  intros Ht Hhk; induction Hhk as [| k Hhk IH]; intros Hk; [lia |].
  etransitivity; [apply IH; lia |]; unfold time_at.
  destruct (ancestor_valid a Hwf t (Z.of_nat (S k)) Ht ltac:(lia)) as (q & Hq & _).
  destruct (entry_at a Hwf t q (Z.of_nat (S k)) Ht ltac:(lia) Hq) as (b & Eb & _ & Hpb).
  destruct (pprev b) as [r |] eqn:Er; [| lia].
  pose proof (ancestor_down a Hwf t q r b (Z.of_nat (S k)) Ht ltac:(lia) Hq Eb Er) as Hr.
  replace (Z.of_nat (S k) - 1) with (Z.of_nat k) in Hr by lia.
  rewrite Hq, Hr, Eb; pose proof (Htot q b Eb) as Hb; unfold totals_ok in Hb; rewrite Er in Hb.
  destruct Hb as (pb & -> & -> & _); lia.
Qed.

Lemma lower_bound_ok (t : nat) (time : Z) : (t < length a)%nat ->
  let n := Z.to_nat (height_of a t + 1) in
  forall fuel first count, (first + count <= n)%nat -> (count < fuel)%nat ->
  (forall h, (h < first)%nat -> time_at t h < time) ->
  (forall h, (first + count <= h < n)%nat -> time <= time_at t h) ->
  exists lo, lower_bound_loop fuel a (chain_of a t) time first count = Ok lo /\
    (lo <= n)%nat /\ (forall h, (h < lo)%nat -> time_at t h < time) /\
    (forall h, (lo <= h < n)%nat -> time <= time_at t h).
Proof.
  intros Ht n; pose proof (height_nonneg a Hwf t).
  induction fuel as [| fuel IH]; intros first count Hfc Hf Hlo Hhi; [lia |].
  cbn [lower_bound_loop]; destruct (Nat.eqb_spec count 0) as [-> | Hc].
  { exists first; split; [reflexivity |]; rewrite Nat.add_0_r in *; auto. }
  assert (Hstep : (count / 2 < count)%nat) by (apply Nat.div_lt; lia).
  set (m := (first + count / 2)%nat) in *.
  rewrite nth_chain_of by lia.
  destruct (ancestor_valid a Hwf t (Z.of_nat m) Ht ltac:(lia)) as (q & Hq & Hql & _).
  rewrite Hq; unfold deref.
  destruct (nth_error a q) as [b |] eqn:Eb; [| apply nth_error_None in Eb; lia].
  assert (Hb : time_at t m = nTimeMax b) by (unfold time_at; rewrite Hq, Eb; reflexivity).
  cbn [bind]; unfold GetBlockTimeMax; rewrite <- Hb.
  destruct (Z.ltb_spec (time_at t m) time).
  - apply IH; try lia; intros h Hh; [| apply Hhi; lia].
    pose proof (time_at_mono t h m Ht ltac:(lia) ltac:(lia)); lia.
  - apply IH; try lia; [exact Hlo |]; intros h Hh.
    pose proof (time_at_mono t m h Ht ltac:(lia) ltac:(lia)); lia.
Qed.

(** The locator's hashes are those of blocks at strictly decreasing heights,
    from the starting block down to a root. *)
Definition locator_ok (p : nat) (hashes : list Z) : Prop :=
  exists hs : list Z,
    hd_error hs = Some (height_of a p) /\ last hs (-1) = 0 /\
    (forall i, (S i < length hs)%nat -> get hs (S i) < get hs i) /\
    map Some hashes =
      map (fun h => match ancestor a p h with
                    | Some q => option_map phashBlock (nth_error a q)
                    | None => None end) hs.

Lemma locator_walk_ok (p t : nat) : (p < length a)%nat -> (t < length a)%nat ->
  forall fuel k q nStep acc, 0 <= k <= height_of a p -> (Z.to_nat k < fuel)%nat -> 1 <= nStep ->
  ancestor a p k = Some q ->
  exists out hs, locator_walk fuel a (chain_of a t) (Some q) nStep acc = Ok (rev acc ++ out) /\
    hd_error hs = Some k /\ last hs (-1) = 0 /\
    (forall i, (S i < length hs)%nat -> get hs (S i) < get hs i) /\
    map Some out = map (fun h => match ancestor a p h with
                                 | Some q => option_map phashBlock (nth_error a q)
                                 | None => None end) hs.
Proof.
  intros Hp Ht; induction fuel as [| fuel IH]; intros k q nStep acc Hk Hf Hs Hq; [lia |].
  destruct (entry_at a Hwf p q k Hp Hk Hq) as (b & Eb & Hhb & _).
  destruct (ancestor_valid a Hwf p k Hp Hk) as (q' & Hq' & Hql & _ & Hqh).
  rewrite Hq in Hq'; injection Hq' as <-.
  cbn [locator_walk]; unfold deref; rewrite Eb; cbn [bind]; rewrite Hhb.
  destruct (Z.eqb_spec k 0) as [-> | Hk0].
  { exists [phashBlock b], [0]; cbn [rev]; repeat split; auto; cbn [length map]; try lia.
    rewrite Hq, Eb; reflexivity. }
  set (h := Z.max (k - nStep) 0).
  destruct (ancestor_valid a Hwf p h Hp ltac:(lia)) as (r & Hr & _ & _ & Hrh).
  assert (Hnext : (let! found := Contains a (chain_of a t) q in
                   if (found : bool) then Ok (at_height (chain_of a t) h)
                   else GetAncestor a q h) = Ok (Some r)).
  { unfold Contains, deref; rewrite Eb; cbn [bind]; rewrite Hhb, !at_height_chain_of by (auto; lia).
    assert (Hqr : ancestor a q h = Some r)
      by (rewrite (ancestor_trans a Hwf p q k h) by (auto; lia); exact Hr).
    destruct (ptr_eqb _ _) eqn:Ec.
    - apply ptr_eqb_eq in Ec; destruct (Z.leb_spec k (height_of a t)); [| discriminate].
      rewrite (proj2 (Z.leb_le h (height_of a t))) by lia; f_equal.
      rewrite <- Hqr; symmetry; apply (ancestor_trans a Hwf t q k h); auto; lia.
    - rewrite GetAncestor_ok by assumption.
      rewrite (proj2 (Z.ltb_ge (height_of a q) h)), (proj2 (Z.ltb_ge h 0)) by lia.
      cbn [orb]; rewrite Hqr; reflexivity. }
  destruct (Contains a (chain_of a t) q) as [found |]; [| discriminate]; cbn [bind] in Hnext |- *.
  rewrite Hnext; cbn [bind].
  match goal with |- context [locator_walk fuel a _ _ ?ns _] => set (nStep' := ns) end.
  assert (Hns : 1 <= nStep') by (unfold nStep'; case_if; lia).
  destruct (IH h r nStep' (phashBlock b :: acc)) as (out & hs & E & Hhd & Hlast & Hdec & Hmap);
    auto; try lia.
  exists (phashBlock b :: out), (k :: hs); rewrite E; cbn [rev map]; rewrite <- app_assoc.
  destruct hs as [| h0 hs]; [discriminate |]; injection Hhd as ->.
  repeat split; auto.
  - intros [| i] Hi; unfold get in *; cbn [nth]; [lia |]; apply (Hdec i); simpl in *; lia.
  - rewrite Hq, Eb, Hmap; reflexivity.
Qed.

End Searching.

(** On an active chain whose time maxima are right, the binary search of
    [FindEarliestAtLeast] returns the lowest block whose maximal time reaches
    the argument, or null when no block does. *)
Theorem FindEarliestAtLeast_correct (a : arena) (t : nat) (time : Z) :
  wf_index a -> (forall p b, nth_error a p = Some b -> totals_ok a b) ->
  (t < length a)%nat ->
  exists r, FindEarliestAtLeast a (chain_of a t) time = Ok r /\
    match r with
    | None => forall h, Z.of_nat h <= height_of a t -> time_at a t h < time
    | Some q => exists h, Z.of_nat h <= height_of a t /\ ancestor a t (Z.of_nat h) = Some q /\
                  time <= time_at a t h /\ forall k, (k < h)%nat -> time_at a t k < time
    end.
Proof.
  intros Hwf Htot Ht; pose proof (height_nonneg a Hwf t); unfold FindEarliestAtLeast.
  rewrite length_chain_of; set (n := Z.to_nat (height_of a t + 1)).
  destruct (lower_bound_ok a Hwf Htot t time Ht (S n) 0 n) as (lo & -> & Hle & Hlo & Hhi);
    fold n; try lia.
  cbn [bind]; destruct (Nat.eqb_spec lo n) as [-> | Hne]; eexists; (split; [reflexivity |]).
  - intros h Hh; apply Hlo; lia.
  - rewrite nth_chain_of by lia.
    destruct (ancestor_valid a Hwf t (Z.of_nat lo) Ht ltac:(lia)) as (q & Hq & _); rewrite Hq.
    exists lo; repeat split; auto; try lia; apply Hhi; lia.
Qed.

Lemma FindEarliestAtLeast_correct_witness :
  FindEarliestAtLeast ex_arena (chain_of ex_arena 1) 1001 = Ok (Some 1%nat).
Proof.
  destruct (FindEarliestAtLeast_correct ex_arena 1 1001 wf_ex_arena totals_ex_arena)
    as (r & E & H); [cbn; lia |].
  rewrite E; destruct r as [q |]; [| specialize (H 1%nat ltac:(cbn; lia)); vm_compute in H; discriminate].
  destruct H as ([| [| h]] & Hh & Hq & Ht & _).
  - exfalso; vm_compute in Ht; auto.
  - vm_compute in Hq; congruence.
  - exfalso; change (height_of ex_arena 1) with 1 in Hh; lia.
Defined.

(** A block locator starts with the given block (the tip by default),
    ends with a root block, and lists blocks of that branch at strictly
    decreasing heights; building it always terminates, on the active chain
    and off it. *)
Theorem GetLocator_correct (a : arena) (t p : nat) :
  wf_index a -> (t < length a)%nat -> (p < length a)%nat ->
  exists hashes, GetLocator a (chain_of a t) (Some p) = Ok hashes /\ locator_ok a p hashes.
Proof.
  intros Hwf Ht Hp; pose proof (height_nonneg a Hwf p).
  destruct (entry_at a Hwf p p (height_of a p) Hp ltac:(lia) (ancestor_self a p)) as (b & Eb & Hhb & _).
  unfold GetLocator, deref; rewrite Eb; cbn [bind]; rewrite Hhb.
  destruct (locator_walk_ok a Hwf p t Hp Ht (S (Z.to_nat (height_of a p))) (height_of a p) p 1 [])
    as (out & hs & E & H1 & H2 & H3 & H4); auto using ancestor_self; try lia.
  exists out; split; [exact E |]; exists hs; auto.
Qed.

Lemma GetLocator_correct_witness :
  exists hashes, GetLocator ex_arena (chain_of ex_arena 1) (Some 1%nat) = Ok hashes /\
                 locator_ok ex_arena 1 hashes.
Proof. apply (GetLocator_correct ex_arena 1 1 wf_ex_arena); cbn; lia. Defined.
