(* ===== verification/MedianTime.v ===== *)
(** The median time past of a block ([CBlockIndex::GetMedianTimePast] of
    src/chain.h, modelled in [Chain]): it exists for every block of a
    well-formed index, is one of the block times, and never decreases from a
    block to its descendants when each block respects the rule of
    [ContextualCheckBlockHeader] (src/validation.cpp, "time-too-old") that its
    time is after the median time past of its parent.

    The time locks of [TxLocks] and the deployment states of [VersionBits]
    are measured against this clock. *)

From Stdlib Require Import ZArith List Bool Lia Arith Permutation Sorted.
From S2P Require Import Prelude ArithUint256 Chain.
Import ListNotations.
Open Scope Z_scope.

Lemma insert_permutation x l : Permutation (x :: l) (insert_sorted x l).
Proof.
  induction l as [|y l IH]; cbn; [reflexivity|destruct (x <=? y); [reflexivity|]].
  rewrite perm_swap; now apply perm_skip.
Qed.

Lemma sort_permutation l : Permutation l (sort l).
Proof. induction l as [|x l IH]; cbn; [reflexivity|rewrite <- insert_permutation; now apply perm_skip]. Qed.

Lemma insert_sorted_ok x l : StronglySorted Z.le l -> StronglySorted Z.le (insert_sorted x l).
Proof.
  induction 1 as [|y l S IH F]; cbn; [repeat constructor|].
  destruct (Z.leb_spec x y).
  - constructor; [now constructor|constructor; [lia|]].
    eapply Forall_impl; [|exact F]; cbn; lia.
  - constructor; [exact IH|].
    eapply Permutation_Forall; [apply insert_permutation|constructor; [lia|exact F]].
Qed.

Lemma sort_sorted l : StronglySorted Z.le (sort l).
Proof. induction l; cbn; [constructor|now apply insert_sorted_ok]. Qed.

Lemma sorted_unique u : StronglySorted Z.le u -> forall v, StronglySorted Z.le v -> Permutation u v -> u = v.
Proof.
  induction 1 as [|x u Su IH Fu]; intros v Sv Q; [now apply Permutation_nil in Q|].
  destruct Sv as [|y v Sv Fv]; [now apply Permutation_sym, Permutation_nil in Q|].
  rewrite Forall_forall in Fu, Fv; assert (x = y).
  { assert (X : In x (y :: v)) by (apply (Permutation_in _ Q); now left).
    assert (Y : In y (x :: u)) by (apply (Permutation_in _ (Permutation_sym Q)); now left).
    destruct X as [|X]; [auto|]; destruct Y as [|Y]; [auto|]; specialize (Fu _ Y); specialize (Fv _ X); lia. }
  subst y; f_equal; apply IH; auto; now apply Permutation_cons_inv in Q.
Qed.

Lemma sort_unique l l' : Permutation l l' -> sort l = sort l'.
Proof. intros P; apply sorted_unique; try apply sort_sorted; now rewrite <- !sort_permutation. Qed.

(** * Order statistics *)

(** How many elements are at least [m]. *)
Definition at_least (m : Z) (l : list Z) : nat := length (filter (Z.leb m) l).

Lemma at_least_cons m x l : at_least m (x :: l) = ((if (m <=? x)%Z then 1 else 0) + at_least m l)%nat.
Proof. unfold at_least; cbn; destruct (m <=? x); reflexivity. Qed.

Lemma at_least_le m l : (at_least m l <= length l)%nat.
Proof. apply filter_length_le. Qed.

Lemma at_least_app m l l' : at_least m (l ++ l') = (at_least m l + at_least m l')%nat.
Proof. unfold at_least; rewrite filter_app; apply length_app. Qed.

Lemma at_least_permutation m l l' : Permutation l l' -> at_least m l = at_least m l'.
Proof.
  intros P; induction P; rewrite ?at_least_cons; try (destruct (m <=? x)); try (destruct (m <=? y)); lia.
Qed.

Lemma at_least_all m l : Forall (Z.le m) l -> at_least m l = length l.
Proof.
  induction 1 as [|x l H F IH]; [reflexivity|rewrite at_least_cons, IH].
  destruct (Z.leb_spec m x); cbn; lia.
Qed.

(** The element of rank [i] of a sorted list is at least [m] exactly when the
    list has enough elements that are. *)
Lemma rank_at_least m l : StronglySorted Z.le l -> forall i, (i < length l)%nat ->
  m <= get l i <-> (length l - i <= at_least m l)%nat.
Proof.
  induction 1 as [|x l S IH F]; intros i L; [cbn in L; lia|].
  rewrite at_least_cons; destruct (Z.leb_spec m x) as [M|M].
  - rewrite at_least_all by (eapply Forall_impl; [|exact F]; cbn; lia).
    split; intros _; [cbn [length]; lia|]; destruct i; [exact M|].
    cbn in L |- *; assert (I : In (nth i l 0) l) by (apply nth_In; lia).
    rewrite Forall_forall in F; specialize (F _ I); lia.
  - pose proof (at_least_le m l); destruct i as [|i]; cbn [get nth length] in *; [split; cbn in *; lia|].
    specialize (IH i ltac:(lia)); unfold get in IH; rewrite IH; lia.
Qed.

Definition middle (l : list Z) : Z := get (sort l) (length l / 2).

Lemma middle_at_least m l : l <> [] ->
  m <= middle l <-> (length l - length l / 2 <= at_least m l)%nat.
Proof.
  intros N; unfold middle; pose proof (sort_permutation l) as P.
  rewrite rank_at_least, <- (Permutation_length P), <- (at_least_permutation _ _ _ P); [reflexivity|apply sort_sorted|].
  rewrite <- (Permutation_length P); destruct l; [contradiction|apply Nat.div_lt; cbn; lia].
Qed.

Lemma middle_in l : l <> [] -> In (middle l) l.
Proof.
  intros N; unfold middle; pose proof (sort_permutation l) as P.
  apply (Permutation_in _ (Permutation_sym P)); unfold get; apply nth_In.
  rewrite <- (Permutation_length P); destruct l; [contradiction|apply Nat.div_lt; cbn; lia].
Qed.

(** Adding a newer time above the median, and forgetting at most one old
    one, cannot lower the median. *)
Lemma middle_grows t w old : (old = [] \/ exists x, old = [x]) -> w ++ old <> [] ->
  middle (w ++ old) < t -> middle (w ++ old) <= middle (t :: w).
Proof.
  intros O N T; set (m := middle (w ++ old)) in *.
  pose proof (proj1 (middle_at_least m (w ++ old) N) ltac:(unfold m; lia)) as C.
  apply middle_at_least; [discriminate|]; rewrite at_least_cons, (proj2 (Z.leb_le m t)) by lia.
  rewrite at_least_app, length_app in C; pose proof (at_least_le m old); pose proof (at_least_le m w).
  destruct O as [->|(x & ->)]; cbn [length] in *.
  - rewrite Nat.add_0_r in C; change (at_least m []) with O in *.
    pose proof (Nat.Div0.div_le_mono (length w) (S (length w)) 2); lia.
  - rewrite Nat.add_1_r in C; lia.
Qed.

(** * The times of a block and its predecessors *)

Definition median (a : arena) (p : nat) : Z :=
  match GetMedianTimePast a p with Ok t => t | Err _ => 0 end.

(** The times of up to [n] blocks ending in [p], newest first. *)
Fixpoint window (n : nat) (a : arena) (p : nat) : list Z :=
  match n, nth_error a p with
  | S n', Some b => nTime b :: match pprev b with Some q => window n' a q | None => [] end
  | _, _ => []
  end.

(** The rule every accepted header satisfies: its time is after the median
    time past of its parent. *)
Definition times_advance (a : arena) : Prop :=
  forall p b q, nth_error a p = Some b -> pprev b = Some q -> median a q < nTime b.

Section Medians.
Variable a : arena.
Hypothesis Hwf : wf_index a.

Lemma past_times_window n : forall p acc, (p < length a)%nat ->
  past_times n a (Some p) acc = Ok (rev (window n a p) ++ acc).
Proof.
  induction n as [|n IH]; intros p acc P; [reflexivity|].
  cbn [past_times window]; unfold deref; destruct (nth_error a p) as [b|] eqn:E; [|apply nth_error_None in E; lia].
  cbn [bind]; destruct (Hwf p b E) as [H _]; destruct (pprev b) as [q|].
  - rewrite IH by (destruct H as (H & _); lia); cbn [rev]; now rewrite <- app_assoc.
  - destruct n; reflexivity.
Qed.

Lemma window_nonempty n p : (p < length a)%nat -> window (S n) a p <> [].
Proof. intros P; cbn; destruct (nth_error a p) eqn:E; [discriminate|apply nth_error_None in E; lia]. Qed.

Lemma median_window p : (p < length a)%nat -> GetMedianTimePast a p = Ok (middle (window nMedianTimeSpan a p)).
Proof.
  intros P; unfold GetMedianTimePast, middle; rewrite past_times_window by exact P; cbn [bind].
  rewrite app_nil_r, length_rev; do 2 f_equal; apply sort_unique, Permutation_sym, Permutation_rev.
Qed.

(** The median exists, and is one of the times. *)
Lemma median_ok (Htime : Forall (fun b => in_u 32 (nTime b)) a) p : (p < length a)%nat ->
  exists t, GetMedianTimePast a p = Ok t /\ in_u 32 t.
Proof.
  intros P; rewrite (median_window p P); eexists; split; [reflexivity|].
  assert (W : forall n q, Forall (in_u 32) (window n a q)).
  { induction n as [|n IH]; intros q; cbn; [constructor|]; destruct (nth_error a q) as [b|] eqn:E; [|constructor].
    constructor; [|destruct (pprev b); [apply IH|constructor]].
    apply (proj1 (Forall_forall _ _) Htime), (nth_error_In _ _ E). }
  exact (proj1 (Forall_forall _ _) (W nMedianTimeSpan p) _ (middle_in _ (window_nonempty 10 p P))).
Qed.

Lemma median_eq p : (p < length a)%nat -> GetMedianTimePast a p = Ok (median a p).
Proof. intros P; unfold median; now rewrite (median_window p P). Qed.

Lemma window_last n : forall q, exists old, (old = [] \/ exists x, old = [x]) /\
  window (S n) a q = window n a q ++ old.
Proof.
  induction n as [|n IH]; intros q.
  - cbn; destruct (nth_error a q) as [b|]; [|exists []; auto].
    exists [nTime b]; split; [right; eauto|destruct (pprev b); reflexivity].
  - change (window (S (S n)) a q) with
      (match nth_error a q with
       | Some b => nTime b :: match pprev b with Some r => window (S n) a r | None => [] end
       | None => [] end).
    cbn [window]; destruct (nth_error a q) as [b|]; [|exists []; auto].
    destruct (pprev b) as [r|]; [|exists []; auto].
    destruct (IH r) as (old & O & E); exists old; split; [exact O|]; cbn [app]; f_equal; exact E.
Qed.

Hypothesis Htimes : times_advance a.

Lemma median_step p b q : nth_error a p = Some b -> pprev b = Some q -> median a q <= median a p.
Proof.
  intros E Q; pose proof (Htimes p b q E Q) as T; destruct (Hwf p b E) as [H _]; rewrite Q in H.
  assert (P : (p < length a)%nat) by (apply nth_error_Some; congruence).
  unfold median in *; rewrite !median_window in * by lia.
  destruct (window_last 10 q) as (old & O & W); pose proof (window_nonempty 10 q ltac:(lia)) as N.
  change nMedianTimeSpan with 11%nat in *; rewrite W in *.
  replace (window 11 a p) with (nTime b :: window 10 a q) by (cbn; now rewrite E, Q).
  now apply middle_grows.
Qed.

(** The clock never runs backwards along a chain. *)
Lemma median_monotone n : forall p q, up n a p = Some q -> median a q <= median a p.
Proof.
  induction n as [|n IH]; cbn [up]; intros p q U; [injection U as ->; lia|].
  destruct (nth_error a p) as [b|] eqn:E; [|discriminate]; destruct (pprev b) as [r|] eqn:R; [|discriminate].
  specialize (IH r q U); pose proof (median_step p b r E R); lia.
Qed.
End Medians.
