(* ===== verification/VersionBits.v ===== *)
(** Deployment of soft forks by signalling in block versions
    (src/versionbits.h, src/versionbits.cpp), and the switches of
    src/validation.cpp that ask for the state of a deployment at the tip:
    [AreAssetsDeployed] and its siblings, and [ComputeBlockVersion].

    [AbstractThresholdConditionChecker] is the class
    [ThresholdConditionChecker], whose methods are its fields;
    [VersionBitsConditionChecker] is an instance.  Blocks are entries of the
    index of [Chain]; the cache that [GetStateFor] fills is an association
    list whose first entry for a key counts, as the assignments through
    [operator[]] leave it.

    The reference the cached computation is compared with, [state_at], knows
    neither the cache nor the shortcut for blocks before the start time: the
    state after [k] periods is the state after [k - 1] periods moved by the
    last block of the period. *)

From Stdlib Require Import ZArith List Bool Lia Arith.
From S2P Require Import Prelude ArithUint256 Chain MedianTime.
Import ListNotations.
Open Scope Z_scope.

(** * Data *)

Definition VERSIONBITS_TOP_BITS : Z := 0x20000000.
Definition VERSIONBITS_TOP_BITS_ASSETS : Z := 0x30000000.

Inductive ThresholdState :=
| THRESHOLD_DEFINED
| THRESHOLD_STARTED
| THRESHOLD_LOCKED_IN
| THRESHOLD_ACTIVE
| THRESHOLD_FAILED.

Definition state_eqb (s t : ThresholdState) : bool :=
  match s, t with
  | THRESHOLD_DEFINED, THRESHOLD_DEFINED | THRESHOLD_STARTED, THRESHOLD_STARTED
  | THRESHOLD_LOCKED_IN, THRESHOLD_LOCKED_IN | THRESHOLD_ACTIVE, THRESHOLD_ACTIVE
  | THRESHOLD_FAILED, THRESHOLD_FAILED => true
  | _, _ => false
  end.

Definition ThresholdConditionCache := list (option nat * ThresholdState).

Fixpoint cache_find (k : option nat) (c : ThresholdConditionCache) : option ThresholdState :=
  match c with
  | [] => None
  | (k', s) :: c' => if ptr_eqb k k' then Some s else cache_find k c'
  end.

Definition cache_set (k : option nat) (s : ThresholdState) (c : ThresholdConditionCache)
  : ThresholdConditionCache := (k, s) :: c.

Record BIP9Stats := mkStats {
  st_period : Z;
  st_threshold : Z;
  st_elapsed : Z;
  st_count : Z;
  st_possible : bool
}.

Class ThresholdConditionChecker := {
  Condition : CBlockIndex -> bool;
  BeginTime : Z;
  EndTime : Z;
  Period : Z;
  Threshold : Z
}.

(** * The state of a deployment *)

Section Checker.
Context `{ThresholdConditionChecker}.
Variable a : arena.

(** [pindex->GetAncestor(pindex->nHeight - ((pindex->nHeight + 1) % nPeriod))],
    the last block of the previous period. *)
Definition period_parent (p : nat) : result chain_error (option nat) :=
  let! b := deref a p in
  GetAncestor a p (nHeight b - Z.rem (s32 (nHeight b + 1)) Period).

(** The walk backwards in steps of a period to a block of known state. *)
Fixpoint back_walk (fuel : nat) (pindexPrev : option nat) (vToCompute : list nat) (cache : ThresholdConditionCache)
  : result chain_error (option nat * list nat * ThresholdConditionCache) :=
  match fuel with
  | O => Err OutOfFuel
  | S fuel' =>
      if is_some (cache_find pindexPrev cache) then Ok (pindexPrev, vToCompute, cache)
      else match pindexPrev with
      | None => Ok (None, vToCompute, cache_set None THRESHOLD_DEFINED cache)
      | Some q =>
          let! t := GetMedianTimePast a q in
          if t <? BeginTime then Ok (Some q, vToCompute, cache_set (Some q) THRESHOLD_DEFINED cache)
          else
            let! b := deref a q in
            let! prev := GetAncestor a q (s32 (nHeight b - Period)) in
            back_walk fuel' prev (q :: vToCompute) cache
      end
  end.

(** Counting the signalling blocks of the period. *)
Fixpoint count_loop (n : nat) (pindexCount : option nat) (count : Z) : result chain_error Z :=
  match n with
  | O => Ok count
  | S n' =>
      match pindexCount with
      | None => Err NullDeref
      | Some p =>
          let! b := deref a p in
          count_loop n' (pprev b) (if Condition b then s32 (count + 1) else count)
      end
  end.

(** The [switch] on the state of the previous period. *)
Definition next_state (state : ThresholdState) (p : nat) : result chain_error ThresholdState :=
  match state with
  | THRESHOLD_DEFINED =>
      let! t := GetMedianTimePast a p in
      Ok (if EndTime <=? t then THRESHOLD_FAILED
          else if BeginTime <=? t then THRESHOLD_STARTED else THRESHOLD_DEFINED)
  | THRESHOLD_STARTED =>
      let! t := GetMedianTimePast a p in
      if EndTime <=? t then Ok THRESHOLD_FAILED
      else
        let! count := count_loop (Z.to_nat Period) (Some p) 0 in
        Ok (if Threshold <=? count then THRESHOLD_LOCKED_IN else THRESHOLD_STARTED)
  | THRESHOLD_LOCKED_IN => Ok THRESHOLD_ACTIVE
  | THRESHOLD_FAILED => Ok THRESHOLD_FAILED
  | THRESHOLD_ACTIVE => Ok THRESHOLD_ACTIVE
  end.

(** The walk forward over [vToCompute], last pushed first. *)
Fixpoint forward_walk (vToCompute : list nat) (state : ThresholdState) (cache : ThresholdConditionCache)
  : result chain_error (ThresholdState * ThresholdConditionCache) :=
  match vToCompute with
  | [] => Ok (state, cache)
  | p :: v =>
      let! stateNext := next_state state p in
      forward_walk v stateNext (cache_set (Some p) stateNext cache)
  end.

Definition GetStateFor (pindexPrev : option nat) (cache : ThresholdConditionCache)
  : result chain_error (ThresholdState * ThresholdConditionCache) :=
  let! start := match pindexPrev with None => Ok None | Some p => period_parent p end in
  let! r := back_walk (S (S (length a))) start [] cache in
  let '(p, vToCompute, cache) := r in
  match cache_find p cache with
  | None => Err AssertFailed
  | Some state => forward_walk vToCompute state cache
  end.

(** [while (pindexEndOfPrevPeriod->nHeight != currentIndex->nHeight)] *)
Fixpoint stats_walk (fuel : nat) (stop : Z) (currentIndex : option nat) (count : Z) : result chain_error Z :=
  match fuel with
  | O => Err OutOfFuel
  | S fuel' =>
      match currentIndex with
      | None => Err NullDeref
      | Some p =>
          let! b := deref a p in
          if stop =? nHeight b then Ok count
          else stats_walk fuel' stop (pprev b) (if Condition b then s32 (count + 1) else count)
      end
  end.

Definition GetStateStatisticsFor (pindex : option nat) : result chain_error BIP9Stats :=
  match pindex with
  | None => Ok (mkStats Period Threshold 0 0 false)
  | Some p =>
      let! b := deref a p in
      let! e := period_parent p in
      match e with
      | None => Err NullDeref
      | Some q =>
          let! be := deref a q in
          let elapsed := s32 (nHeight b - nHeight be) in
          let! count := stats_walk (S (length a)) (nHeight be) (Some p) 0 in
          Ok (mkStats Period Threshold elapsed count (s32 (elapsed - count) <=? s32 (Period - Threshold)))
      end
  end.

(** The walk back over the periods that share the state, [p] being the
    parent of the period reached so far. *)
Fixpoint since_walk (fuel : nat) (initialState : ThresholdState) (p : nat) (cache : ThresholdConditionCache)
  : result chain_error (Z * ThresholdConditionCache) :=
  match fuel with
  | O => Err OutOfFuel
  | S fuel' =>
      let! b := deref a p in
      let! previousPeriodParent := GetAncestor a p (s32 (nHeight b - Period)) in
      match previousPeriodParent with
      | None => Ok (s32 (nHeight b + 1), cache)
      | Some q =>
          let! r := GetStateFor (Some q) cache in
          if state_eqb (fst r) initialState then since_walk fuel' initialState q (snd r)
          else Ok (s32 (nHeight b + 1), snd r)
      end
  end.

Definition GetStateSinceHeightFor (pindexPrev : option nat) (cache : ThresholdConditionCache)
  : result chain_error (Z * ThresholdConditionCache) :=
  let! r := GetStateFor pindexPrev cache in
  let initialState := fst r in
  if state_eqb initialState THRESHOLD_DEFINED then Ok (0, snd r)
  else match pindexPrev with
  | None => Err NullDeref
  | Some p =>
      let! e := period_parent p in
      match e with
      | None => Err NullDeref
      | Some q => since_walk (S (length a)) initialState q (snd r)
      end
  end.
End Checker.

(** * Deployments *)

Inductive DeploymentPos :=
| DEPLOYMENT_TESTDUMMY
| DEPLOYMENT_ASSETS
| DEPLOYMENT_MSG_REST_ASSETS
| DEPLOYMENT_TRANSFER_SCRIPT_SIZE
| DEPLOYMENT_ENFORCE_VALUE
| DEPLOYMENT_COINBASE_ASSETS.

Definition deployments : list DeploymentPos :=
  [DEPLOYMENT_TESTDUMMY; DEPLOYMENT_ASSETS; DEPLOYMENT_MSG_REST_ASSETS; DEPLOYMENT_TRANSFER_SCRIPT_SIZE;
   DEPLOYMENT_ENFORCE_VALUE; DEPLOYMENT_COINBASE_ASSETS].

Definition pos_eqb (p q : DeploymentPos) : bool :=
  match p, q with
  | DEPLOYMENT_TESTDUMMY, DEPLOYMENT_TESTDUMMY | DEPLOYMENT_ASSETS, DEPLOYMENT_ASSETS
  | DEPLOYMENT_MSG_REST_ASSETS, DEPLOYMENT_MSG_REST_ASSETS
  | DEPLOYMENT_TRANSFER_SCRIPT_SIZE, DEPLOYMENT_TRANSFER_SCRIPT_SIZE
  | DEPLOYMENT_ENFORCE_VALUE, DEPLOYMENT_ENFORCE_VALUE
  | DEPLOYMENT_COINBASE_ASSETS, DEPLOYMENT_COINBASE_ASSETS => true
  | _, _ => false
  end.

Record BIP9Deployment := mkDeployment {
  bit : Z;
  nStartTime : Z;
  nTimeout : Z;
  nOverrideMinerConfirmationWindow : Z;
  nOverrideRuleChangeActivationThreshold : Z
}.

(** The members of [Consensus::Params] the deployments use. *)
Record deployment_params := mkDeploymentParams {
  nRuleChangeActivationThreshold : Z;
  nMinerConfirmationWindow : Z;
  vDeployments : DeploymentPos -> BIP9Deployment
}.

Definition main_deployments : deployment_params :=
  mkDeploymentParams 96768 120960 (fun pos =>
    match pos with
    | DEPLOYMENT_TESTDUMMY => mkDeployment 28 1199145601 1230767999 2016 1814
    | DEPLOYMENT_ASSETS => mkDeployment 6 1735689600 1798761600 2016 1814
    | DEPLOYMENT_MSG_REST_ASSETS => mkDeployment 7 1735689600 1798761600 2016 1714
    | DEPLOYMENT_TRANSFER_SCRIPT_SIZE => mkDeployment 8 1735689600 1798761600 2016 1714
    | DEPLOYMENT_ENFORCE_VALUE => mkDeployment 9 1735689600 1798761600 2016 1411
    | DEPLOYMENT_COINBASE_ASSETS => mkDeployment 10 1735689600 1798761600 2016 1411
    end).

Definition Mask (params : deployment_params) (id : DeploymentPos) : Z :=
  w32 (Z.shiftl 1 (bit (vDeployments params id))).

Instance VersionBitsConditionChecker (params : deployment_params) (id : DeploymentPos) : ThresholdConditionChecker := {
  Condition b := negb (Z.land (w32 (h_nVersion (hdr b))) (Mask params id) =? 0);
  BeginTime := nStartTime (vDeployments params id);
  EndTime := nTimeout (vDeployments params id);
  Period :=
    if 0 <? nOverrideMinerConfirmationWindow (vDeployments params id)
    then s32 (nOverrideMinerConfirmationWindow (vDeployments params id))
    else s32 (nMinerConfirmationWindow params);
  Threshold :=
    if 0 <? nOverrideRuleChangeActivationThreshold (vDeployments params id)
    then s32 (nOverrideRuleChangeActivationThreshold (vDeployments params id))
    else s32 (nRuleChangeActivationThreshold params)
}.

Definition VersionBitsCache := DeploymentPos -> ThresholdConditionCache.

Definition Clear (cache : VersionBitsCache) : VersionBitsCache := fun _ => [].

Definition set_cache (cache : VersionBitsCache) (pos : DeploymentPos) (c : ThresholdConditionCache) : VersionBitsCache :=
  fun q => if pos_eqb pos q then c else cache q.

(** The globals of src/validation.cpp: the cache and the latches. *)
Record deployment_state := mkGlobals {
  versionbitscache : VersionBitsCache;
  fAssetsIsActive : bool;
  fRip5IsActive : bool;
  fTransferScriptIsActive : bool;
  fEnforcedValuesIsActive : bool;
  fCheckCoinbaseAssetsIsActive : bool
}.

Definition is_active (s : ThresholdState) : bool := state_eqb s THRESHOLD_ACTIVE.

Section Deployed.
Variable params : deployment_params.
Variable a : arena.

Definition VersionBitsState (pindexPrev : option nat) (pos : DeploymentPos) (cache : VersionBitsCache)
  : result chain_error (ThresholdState * VersionBitsCache) :=
  let! r := @GetStateFor (VersionBitsConditionChecker params pos) a pindexPrev (cache pos) in
  Ok (fst r, set_cache cache pos (snd r)).

Definition VersionBitsStatistics (pindexPrev : option nat) (pos : DeploymentPos) : result chain_error BIP9Stats :=
  @GetStateStatisticsFor (VersionBitsConditionChecker params pos) a pindexPrev.

Definition VersionBitsStateSinceHeight (pindexPrev : option nat) (pos : DeploymentPos) (cache : VersionBitsCache)
  : result chain_error (Z * VersionBitsCache) :=
  let! r := @GetStateSinceHeightFor (VersionBitsConditionChecker params pos) a pindexPrev (cache pos) in
  Ok (fst r, set_cache cache pos (snd r)).

Definition VersionBitsMask (pos : DeploymentPos) : Z := Mask params pos.

Variable chainActive : CChain.

Definition VersionBitsTipState (pos : DeploymentPos) (cache : VersionBitsCache)
  : result chain_error (ThresholdState * VersionBitsCache) :=
  VersionBitsState (Tip chainActive) pos cache.

(** [chainActive.Tip() && chainActive.Tip()->nHeight >= 265000] *)
Definition tip_is_late : result chain_error bool :=
  match Tip chainActive with
  | None => Ok false
  | Some t => let! b := deref a t in Ok (265000 <=? nHeight b)
  end.

(** What the functions below compute once their latch is not set. *)
Definition ask_deployment (pos : DeploymentPos) (accept : ThresholdState -> bool) (cache : VersionBitsCache)
  : result chain_error (bool * VersionBitsCache) :=
  let! r := VersionBitsTipState pos cache in
  let! late := tip_is_late in
  Ok (accept (fst r) || late, snd r).

Definition AreEnforcedValuesDeployed (g : deployment_state) : result chain_error (bool * deployment_state) :=
  if fEnforcedValuesIsActive g then Ok (true, g)
  else
    let! r := ask_deployment DEPLOYMENT_ENFORCE_VALUE
                (fun s => is_active s || state_eqb s THRESHOLD_LOCKED_IN) (versionbitscache g) in
    Ok (fst r, mkGlobals (snd r) (fAssetsIsActive g) (fRip5IsActive g) (fTransferScriptIsActive g) (fst r)
                 (fCheckCoinbaseAssetsIsActive g)).

Definition AreCoinbaseCheckAssetsDeployed (g : deployment_state) : result chain_error (bool * deployment_state) :=
  if fCheckCoinbaseAssetsIsActive g then Ok (true, g)
  else
    let! r := ask_deployment DEPLOYMENT_COINBASE_ASSETS is_active (versionbitscache g) in
    Ok (fst r, mkGlobals (snd r) (fAssetsIsActive g) (fRip5IsActive g) (fTransferScriptIsActive g)
                 (fEnforcedValuesIsActive g) (fst r)).

Definition AreAssetsDeployed (g : deployment_state) : result chain_error (bool * deployment_state) :=
  if fAssetsIsActive g then Ok (true, g)
  else
    let! r := ask_deployment DEPLOYMENT_ASSETS is_active (versionbitscache g) in
    Ok (fst r, mkGlobals (snd r) (fst r) (fRip5IsActive g) (fTransferScriptIsActive g)
                 (fEnforcedValuesIsActive g) (fCheckCoinbaseAssetsIsActive g)).

Definition IsRip5Active (g : deployment_state) : result chain_error (bool * deployment_state) :=
  if fRip5IsActive g then Ok (true, g)
  else
    let! r := ask_deployment DEPLOYMENT_MSG_REST_ASSETS is_active (versionbitscache g) in
    Ok (fst r, mkGlobals (snd r) (fAssetsIsActive g) (fst r) (fTransferScriptIsActive g)
                 (fEnforcedValuesIsActive g) (fCheckCoinbaseAssetsIsActive g)).

Definition AreMessagesDeployed := IsRip5Active.
Definition AreRestrictedAssetsDeployed := IsRip5Active.

Definition AreTransferScriptsSizeDeployed (g : deployment_state) : result chain_error (bool * deployment_state) :=
  if fTransferScriptIsActive g then Ok (true, g)
  else
    let! r := ask_deployment DEPLOYMENT_TRANSFER_SCRIPT_SIZE is_active (versionbitscache g) in
    Ok (fst r, mkGlobals (snd r) (fAssetsIsActive g) (fRip5IsActive g) (fst r)
                 (fEnforcedValuesIsActive g) (fCheckCoinbaseAssetsIsActive g)).

(** The loop over the deployments that sets the bits to signal. *)
Fixpoint version_loop (pindexPrev : option nat) (l : list DeploymentPos) (nVersion : Z) (cache : VersionBitsCache)
  : result chain_error (Z * VersionBitsCache) :=
  match l with
  | [] => Ok (nVersion, cache)
  | pos :: l' =>
      let! r := VersionBitsState pindexPrev pos cache in
      let nVersion' :=
        if state_eqb (fst r) THRESHOLD_LOCKED_IN || state_eqb (fst r) THRESHOLD_STARTED
        then s32 (Z.lor (w32 nVersion) (VersionBitsMask pos)) else nVersion in
      version_loop pindexPrev l' nVersion' (snd r)
  end.

Definition with_cache (g : deployment_state) (c : VersionBitsCache) : deployment_state :=
  mkGlobals c (fAssetsIsActive g) (fRip5IsActive g) (fTransferScriptIsActive g) (fEnforcedValuesIsActive g)
    (fCheckCoinbaseAssetsIsActive g).

Definition ComputeBlockVersion (pindexPrev : option nat) (g : deployment_state)
  : result chain_error (Z * deployment_state) :=
  let! r := AreAssetsDeployed g in
  let g' := snd r in
  let nVersion := if fst r then VERSIONBITS_TOP_BITS_ASSETS else VERSIONBITS_TOP_BITS in
  let! v := version_loop pindexPrev deployments nVersion (versionbitscache g') in
  Ok (fst v, with_cache g' (snd v)).
End Deployed.

(** * The reference: one transition per period *)

Definition run_length (a : arena) (p : nat) : Z := height_of a p + 1.

Section Reference.
Context `{ThresholdConditionChecker}.
Variable a : arena.

(** How many of the [n] blocks ending in [p] signal. *)
Fixpoint signals (n : nat) (p : nat) : Z :=
  match n, nth_error a p with
  | S n', Some b =>
      (if Condition b then 1 else 0) + match pprev b with Some q => signals n' q | None => 0 end
  | _, _ => 0
  end.

(** The transition made by the last block of a period. *)
Definition transition (s : ThresholdState) (p : nat) : ThresholdState :=
  match s with
  | THRESHOLD_DEFINED =>
      if EndTime <=? median a p then THRESHOLD_FAILED
      else if BeginTime <=? median a p then THRESHOLD_STARTED else THRESHOLD_DEFINED
  | THRESHOLD_STARTED =>
      if EndTime <=? median a p then THRESHOLD_FAILED
      else if Threshold <=? signals (Z.to_nat Period) p then THRESHOLD_LOCKED_IN else THRESHOLD_STARTED
  | THRESHOLD_LOCKED_IN => THRESHOLD_ACTIVE
  | s => s
  end.

(** The state after [k] periods of the chain that ends in [p]. *)
Fixpoint state_at (k : nat) (p : nat) : ThresholdState :=
  match k with
  | O => THRESHOLD_DEFINED
  | S k' =>
      match ancestor a p (Z.of_nat k * Period - 1) with
      | Some q => transition (state_at k' p) q
      | None => THRESHOLD_DEFINED
      end
  end.

(** The complete periods of the chain that ends in [p]. *)
Definition periods (p : nat) : nat := Z.to_nat (run_length a p / Period).

Definition reference_state (p : option nat) : ThresholdState :=
  match p with None => THRESHOLD_DEFINED | Some p => state_at (periods p) p end.
End Reference.

(** * The cached computation *)

(** What the code relies on: a well-formed index whose headers passed the
    time rule, heights and a period that fit [int], and a deployment that
    does not end before it starts. *)
Record timely `{ThresholdConditionChecker} (a : arena) : Prop := {
  timely_index : wf_index a;
  timely_times : times_advance a;
  timely_heights : forall p, run_length a p < 2 ^ 31;
  timely_period : 0 < Period < 2 ^ 31;
  timely_schedule : BeginTime <= EndTime
}.

(** A block that ends the [k]-th period. *)
Definition boundary `{ThresholdConditionChecker} (a : arena) (k : nat) (p : nat) : Prop :=
  (p < length a)%nat /\ run_length a p = Z.of_nat k * Period.

(** The keys and values of a cache: period ends, with their reference state. *)
Definition sound `{ThresholdConditionChecker} (a : arena) (c : ThresholdConditionCache) : Prop :=
  forall k s, cache_find k c = Some s ->
  s = reference_state a k /\ match k with None => True | Some q => exists j, boundary a j q end.

(** The block pointers [GetStateFor] is called with. *)
Definition known (a : arena) (p : option nat) : Prop :=
  match p with None => True | Some q => (q < length a)%nat end.

Section Walks.
Context {C : ThresholdConditionChecker}.
Variable a : arena.
Hypothesis T : timely a.

Let Hwf := timely_index a T.
Let HN := timely_period a T.

Lemma entry p : (p < length a)%nat -> exists b, nth_error a p = Some b /\ nHeight b = height_of a p.
Proof.
  intros P; unfold height_of; destruct (nth_error a p) as [b|] eqn:E; [eauto|apply nth_error_None in E; lia].
Qed.

Lemma run_length_bounds p : 0 < run_length a p < 2 ^ 31.
Proof. split; [|apply T]; unfold run_length; pose proof (height_nonneg a Hwf p); lia. Qed.

Lemma int_id x : - 2 ^ 31 <= x < 2 ^ 31 -> s32 x = x.
Proof. intros; apply (swrap_id 32); unfold in_s; lia. Qed.

Lemma signals_bounds n : forall p, 0 <= signals a n p <= Z.of_nat n.
Proof.
  induction n as [|n IH]; intros p; cbn [signals]; [lia|].
  destruct (nth_error a p) as [b|]; [|lia].
  destruct (pprev b) as [q|]; [specialize (IH q)|]; destruct (Condition b); lia.
Qed.

Lemma count_loop_ok n : forall p c, (p < length a)%nat -> Z.of_nat n <= run_length a p ->
  0 <= c -> c + Z.of_nat n < 2 ^ 31 -> count_loop a n (Some p) c = Ok (c + signals a n p).
Proof.
  induction n as [|n IH]; intros p c P L B O; [cbn; f_equal; lia|].
  cbn [count_loop signals]; unfold deref; destruct (nth_error a p) as [b|] eqn:E; [|apply nth_error_None in E; lia].
  cbn [bind]; destruct (Hwf p b E) as [H _]; unfold run_length, height_of in L; rewrite E in L.
  destruct (pprev b) as [q|].
  - destruct H as (Q & H & _); rewrite int_id by lia.
    destruct (Condition b); rewrite IH by (unfold run_length; lia); f_equal; lia.
  - assert (n = 0%nat) by lia; subst n; cbn; rewrite int_id by lia; destruct (Condition b); f_equal; lia.
Qed.

(** ** Periods *)

Lemma boundary_pos k p : boundary a k p -> (0 < k)%nat.
Proof. intros [_ E]; pose proof (run_length_bounds p); destruct k; lia. Qed.

Lemma boundary_periods k p : boundary a k p -> periods a p = k.
Proof. intros [_ E]; unfold periods; rewrite E, Z.div_mul by lia; lia. Qed.

Lemma state_at_ancestor k p q h : (p < length a)%nat -> 0 <= h <= height_of a p ->
  Z.of_nat k * Period - 1 <= h -> ancestor a p h = Some q -> state_at a k q = state_at a k p.
Proof.
  intros P B; induction k as [|k IH]; intros L E; [reflexivity|cbn [state_at]].
  rewrite (ancestor_trans a Hwf p q h (Z.of_nat (S k) * Period - 1) P ltac:(nia) ltac:(lia) E), IH by (auto; nia); reflexivity.
Qed.

(** The step back of a period, as [GetAncestor] makes it. *)
Definition prev_period (p : nat) : option nat :=
  if height_of a p - Period <? 0 then None else ancestor a p (height_of a p - Period).

Lemma prev_boundary k p : boundary a (S k) p ->
  match k with
  | O => prev_period p = None
  | S _ => exists q, prev_period p = Some q /\ boundary a k q /\ (q < p)%nat /\ state_at a k q = state_at a k p
  end.
Proof.
  intros [P E]; unfold prev_period; unfold run_length in E; destruct k as [|k].
  - now rewrite (proj2 (Z.ltb_lt _ _)) by lia.
  - assert (0 <= Z.of_nat k * Period) by (apply Z.mul_nonneg_nonneg; lia).
    rewrite !Nat2Z.inj_succ, !Z.mul_succ_l in E; rewrite (proj2 (Z.ltb_ge _ _)) by lia.
    destruct (ancestor_valid a Hwf p (height_of a p - Period) P) as (q & Eq & Q & L & HQ); [lia|].
    exists q; rewrite Eq; split_all; auto.
    + split; [exact Q|unfold run_length; rewrite Nat2Z.inj_succ, Z.mul_succ_l; lia].
    + destruct (Nat.eq_dec q p) as [->|]; lia.
    + apply (state_at_ancestor _ p q (height_of a p - Period)); auto; rewrite ?Nat2Z.inj_succ, ?Z.mul_succ_l; lia.
Qed.

Lemma reference_step k p : boundary a (S k) p ->
  reference_state a (Some p) = transition a (reference_state a (prev_period p)) p.
Proof.
  intros B; cbn [reference_state]; rewrite (boundary_periods _ _ B); cbn [state_at].
  destruct B as [P E]; replace (Z.of_nat (S k) * Period - 1) with (height_of a p) by (unfold run_length in E; lia).
  rewrite ancestor_self; f_equal; pose proof (prev_boundary k p (conj P E)) as V.
  destruct k; [now rewrite V|destruct V as (q & -> & B & _ & S)].
  cbn [reference_state]; now rewrite (boundary_periods _ _ B).
Qed.

Lemma next_state_ok k p s : boundary a k p -> next_state a s p = Ok (transition a s p).
Proof.
  intros B; pose proof (boundary_pos _ _ B); destruct B as [P E]; unfold next_state, transition.
  rewrite (median_eq a Hwf p P), count_loop_ok by (auto; nia); destruct s; cbn [bind]; auto.
  destruct (EndTime <=? median a p); reflexivity.
Qed.

(** The shortcut: before the start time nothing has happened. *)
Lemma before_start k p : median a p < BeginTime -> state_at a k p = THRESHOLD_DEFINED.
Proof.
  intros L; induction k as [|k IH]; [reflexivity|cbn [state_at]; rewrite IH].
  destruct (ancestor a p _) as [q|] eqn:E; [|reflexivity]; unfold ancestor in E.
  pose proof (median_monotone a Hwf (timely_times a T) _ _ _ E); pose proof (timely_schedule a T); unfold transition.
  rewrite (proj2 (Z.leb_gt _ _)), (proj2 (Z.leb_gt _ _)) by lia; reflexivity.
Qed.

(** ** The two walks *)

Lemma ptr_eqb_refl k : ptr_eqb k k = true.
Proof. now apply ptr_eqb_eq. Qed.

Lemma sound_set k c : sound a c -> match k with None => True | Some q => exists j, boundary a j q end ->
  sound a (cache_set k (reference_state a k) c).
Proof.
  intros S K k' s; cbn [cache_set cache_find]; destruct (ptr_eqb k' k) eqn:E; [|apply S].
  apply ptr_eqb_eq in E as ->; intros [= <-]; auto.
Qed.

(** [l] leads from [p] period by period to [t]. *)
Fixpoint leads (p : option nat) (l : list nat) (t : option nat) : Prop :=
  match l with
  | [] => p = t
  | q :: l' => prev_period q = p /\ (exists k, boundary a (S k) q) /\ leads (Some q) l' t
  end.

Lemma forward_walk_ok l : forall p t c, sound a c -> leads p l t ->
  exists c', forward_walk a l (reference_state a p) c = Ok (reference_state a t, c') /\ sound a c'.
Proof.
  induction l as [|q l IH]; intros p t c S L; cbn [leads forward_walk] in *; [subst; eauto|].
  destruct L as (<- & (k & B) & L); rewrite (next_state_ok _ _ _ B); cbn [bind].
  rewrite <- (reference_step k q B); apply IH; [apply sound_set; eauto|exact L].
Qed.

Definition rank (p : option nat) : nat := match p with None => 0 | Some q => S q end.

Lemma back_walk_ok fuel : forall p l t c, sound a c -> (rank p < fuel)%nat ->
  match p with None => True | Some q => exists k, boundary a (S k) q end -> leads p l t ->
  exists p' l' c', back_walk a fuel p l c = Ok (p', l', c') /\ sound a c' /\
    cache_find p' c' = Some (reference_state a p') /\ leads p' l' t.
Proof.
  induction fuel as [|fuel IH]; intros p l t c S F K L; [lia|cbn [back_walk]].
  destruct (cache_find p c) as [s|] eqn:E; cbn [is_some].
  { exists p, l, c; destruct (S p s E) as [<- _]; auto. }
  destruct p as [q|].
  2: { do 3 eexists; split; [reflexivity|]; split; [apply (sound_set None); auto|].
       split; [reflexivity|exact L]. }
  destruct K as (k & B); pose proof B as [Q R]; rewrite (median_eq a Hwf q Q); cbn [bind].
  destruct (Z.ltb_spec (median a q) BeginTime) as [M|M].
  - assert (D : reference_state a (Some q) = THRESHOLD_DEFINED) by apply (before_start _ _ M).
    rewrite <- D; do 3 eexists; split; [reflexivity|]; split; [apply sound_set; eauto|].
    split; [cbn [cache_set cache_find]; now rewrite ptr_eqb_refl|exact L].
  - unfold deref; destruct (entry q Q) as (b & -> & Hb); cbn [bind]; rewrite Hb.
    pose proof (run_length_bounds q) as U; unfold run_length in U; rewrite int_id by lia.
    rewrite (GetAncestor_ok a q _ Hwf Q), (proj2 (Z.ltb_ge _ _)) by lia; cbn [orb bind].
    fold (prev_period q); pose proof (prev_boundary k q B) as V; apply IH; auto.
    + destruct k; [now rewrite V; cbn; cbn in F; lia|destruct V as (r & -> & _ & Lt & _); cbn in *; lia].
    + destruct k; [now rewrite V|destruct V as (r & -> & Br & _); eauto].
    + cbn [leads]; eauto.
Qed.

Lemma period_parent_ok p : (p < length a)%nat ->
  exists e, period_parent a p = Ok e /\ reference_state a e = reference_state a (Some p) /\
    match e with
    | None => periods a p = O
    | Some q => boundary a (periods a p) q /\ (q <= p)%nat /\ ancestor a p (Z.of_nat (periods a p) * Period - 1) = Some q
    end.
Proof.
  intros P; unfold period_parent, deref; destruct (entry p P) as (b & -> & Hb); cbn [bind]; rewrite Hb.
  pose proof (run_length_bounds p) as U; rewrite int_id by (unfold run_length in U; lia); fold (run_length a p).
  rewrite Z.rem_mod_nonneg by lia; set (N := Period) in *; pose proof (Z.div_mod (run_length a p) N ltac:(lia)) as D.
  pose proof (Z.mod_pos_bound (run_length a p) N ltac:(lia)) as M.
  pose proof (Z.div_pos (run_length a p) N ltac:(lia) ltac:(lia)) as G; subst N.
  rewrite (GetAncestor_ok a p _ Hwf P), (proj2 (Z.ltb_ge (height_of a p) _)) by lia; cbn [orb].
  replace (height_of a p - run_length a p mod Period) with (Z.of_nat (periods a p) * Period - 1)
    by (unfold periods, run_length in *; rewrite Z2Nat.id by lia; lia).
  set (k := periods a p) in *; assert (K : Z.of_nat k = run_length a p / Period) by (unfold k, periods; lia).
  destruct (Z.ltb_spec (Z.of_nat k * Period - 1) 0) as [L0|L0]; eexists; (split; [reflexivity|]).
  - assert (k = O) as E0 by nia; split; [|exact E0]; cbn [reference_state]; fold k; now rewrite E0.
  - destruct (ancestor_valid a Hwf p (Z.of_nat k * Period - 1) P) as (q & Eq & Q & L & H); [unfold run_length in *; nia|].
    assert (B : boundary a k q) by (split; [exact Q|unfold run_length; lia]).
    rewrite Eq; split_all; auto; cbn [reference_state]; rewrite (boundary_periods _ _ B).
    apply (state_at_ancestor _ p q (Z.of_nat k * Period - 1)); auto; [unfold run_length in *; nia|lia].
Qed.

Lemma GetStateFor_ok p c : known a p -> sound a c ->
  exists c', GetStateFor a p c = Ok (reference_state a p, c') /\ sound a c'.
Proof.
  intros P S; unfold GetStateFor.
  assert (E : exists e, match p with None => Ok None | Some p => period_parent a p end = Ok e /\
    reference_state a e = reference_state a p /\ (rank e < length a + 2)%nat /\
    match e with None => True | Some q => exists k, boundary a (Datatypes.S k) q end).
  { destruct p as [p|]; [|exists None; cbn; split_all; auto; lia].
    destruct (period_parent_ok p P) as (e & -> & R & B); exists e; split_all; auto; destruct e as [q|]; cbn; auto; try lia.
    - destruct B as [[Q _] _]; lia.
    - destruct B as [B _]; pose proof (boundary_pos _ _ B); destruct (periods a p); [lia|eauto]. }
  destruct E as (e & -> & R & F & B); cbn [bind].
  destruct (back_walk_ok (Datatypes.S (Datatypes.S (length a))) e [] e c S ltac:(lia) B eq_refl) as (p' & l & c' & -> & S' & G & L).
  cbn [bind]; rewrite G, <- R; apply forward_walk_ok; auto.
Qed.
End Walks.

(** * What happens to a deployment *)

Section History.
Context {C : ThresholdConditionChecker}.
Variable a : arena.
Hypothesis T : timely a.

Let Hwf := timely_index a T.
Let HN := timely_period a T.

Lemma periods_bound p : Z.of_nat (periods a p) * Period <= run_length a p.
Proof.
  pose proof (run_length_bounds a T p); unfold periods; rewrite Z2Nat.id by (apply Z.div_pos; lia).
  rewrite Z.mul_comm; apply Z.mul_div_le; lia.
Qed.

(** Every complete period of the chain of [p] has its last block. *)
Lemma period_end k p : (p < length a)%nat -> (S k <= periods a p)%nat ->
  exists q, ancestor a p (Z.of_nat (S k) * Period - 1) = Some q /\ boundary a (S k) q /\
    state_at a (S k) p = transition a (state_at a k p) q.
Proof.
  intros P L; pose proof (periods_bound p) as B; cbn [state_at].
  destruct (ancestor_valid a Hwf p (Z.of_nat (S k) * Period - 1) P) as (q & E & Q & _ & H).
  { unfold run_length in B; nia. }
  exists q; rewrite E; split_all; auto; split; [exact Q|unfold run_length; lia].
Qed.

(** States at the period ends of [p], seen from an ancestor. *)
Lemma state_at_descendant k q p : (p < length a)%nat -> boundary a k q ->
  ancestor a p (height_of a q) = Some q -> height_of a q <= height_of a p ->
  forall j, (j <= k)%nat -> state_at a j q = state_at a j p.
Proof.
  intros P B A L j J; destruct B as [Q E]; unfold run_length in E; pose proof (height_nonneg a Hwf q).
  apply (state_at_ancestor a T _ p q (height_of a q)); auto; nia.
Qed.

Lemma periods_mono q p : height_of a q <= height_of a p -> (periods a q <= periods a p)%nat.
Proof.
  intros L; unfold periods, run_length; apply Z2Nat.inj_le; try (apply Z.div_pos; pose proof (height_nonneg a Hwf q); lia).
  apply Z.div_le_mono; lia.
Qed.

(** A state that every transition keeps is kept for good. *)
Lemma settled s p k : (p < length a)%nat -> (forall q, transition a s q = s) -> state_at a k p = s ->
  forall j, (k <= j <= periods a p)%nat -> state_at a j p = s.
Proof.
  intros P F S; induction j as [|j IH]; intros J; [now replace k with 0%nat in S by lia|].
  destruct (Nat.eq_dec k (Datatypes.S j)) as [<-|]; [exact S|].
  destruct (period_end j p P ltac:(lia)) as (q & _ & _ & ->); now rewrite IH by lia.
Qed.

Lemma active_settled p k : (p < length a)%nat -> state_at a k p = THRESHOLD_ACTIVE ->
  forall j, (k <= j <= periods a p)%nat -> state_at a j p = THRESHOLD_ACTIVE.
Proof. intros P; now apply settled. Qed.

Lemma failed_settled p k : (p < length a)%nat -> state_at a k p = THRESHOLD_FAILED ->
  forall j, (k <= j <= periods a p)%nat -> state_at a j p = THRESHOLD_FAILED.
Proof. intros P; now apply settled. Qed.

Lemma locked_in_activates p k : (p < length a)%nat -> state_at a k p = THRESHOLD_LOCKED_IN ->
  forall j, (k < j <= periods a p)%nat -> state_at a j p = THRESHOLD_ACTIVE.
Proof.
  intros P S j J; apply (active_settled p (Datatypes.S k)); [exact P| |lia].
  destruct (period_end k p P ltac:(lia)) as (q & _ & _ & ->); now rewrite S.
Qed.

(** Nothing returns to the initial state. *)
Lemma defined_before p k : (p < length a)%nat -> (k <= periods a p)%nat -> state_at a k p = THRESHOLD_DEFINED ->
  forall j, (j <= k)%nat -> state_at a j p = THRESHOLD_DEFINED.
Proof.
  intros P; induction k as [|k IH]; intros K S j J; [now replace j with 0%nat by lia|].
  destruct (Nat.eq_dec j (Datatypes.S k)) as [->|]; [exact S|]; apply IH; try lia.
  destruct (period_end k p P K) as (q & _ & _ & E); rewrite E in S; unfold transition in S.
  destruct (state_at a k p); try discriminate; [reflexivity|].
  destruct (EndTime <=? _); [discriminate|destruct (Threshold <=? _); discriminate].
Qed.

(** The states of a deployment whose period ended with [q], later on. *)
Definition outcome (s0 : ThresholdState) (q : nat) (later : bool) (s : ThresholdState) : Prop :=
  match s0 with
  | THRESHOLD_ACTIVE => s = THRESHOLD_ACTIVE
  | THRESHOLD_FAILED => s = THRESHOLD_FAILED
  | THRESHOLD_LOCKED_IN => s = THRESHOLD_ACTIVE
  | THRESHOLD_STARTED =>
      (EndTime <= median a q -> s = THRESHOLD_FAILED) /\
      (median a q < EndTime -> Threshold <= signals a (Z.to_nat Period) q ->
       s = if later then THRESHOLD_ACTIVE else THRESHOLD_LOCKED_IN)
  | THRESHOLD_DEFINED => EndTime <= median a q -> s = THRESHOLD_FAILED
  end /\
  (EndTime <= median a q -> s = THRESHOLD_ACTIVE \/ s = THRESHOLD_FAILED).

Lemma outcome_ok k q p : (p < length a)%nat -> boundary a (S k) q ->
  ancestor a p (height_of a q) = Some q -> height_of a q <= height_of a p ->
  outcome (state_at a k p) q (S k <? periods a p)%nat (state_at a (periods a p) p).
Proof.
  intros P B A L; pose proof (periods_mono q p L) as M; rewrite (boundary_periods a T _ _ B) in M.
  destruct (period_end k p P M) as (q' & E & _ & S); pose proof B as [Q R]; unfold run_length in R.
  replace (Z.of_nat (Datatypes.S k) * Period - 1) with (height_of a q) in E by lia.
  rewrite A in E; injection E as <-; unfold outcome; unfold transition in S.
  destruct (state_at a k p).
  - destruct (Z.leb_spec EndTime (median a q)); [|lia || (split; intros; lia)].
    rewrite (failed_settled p _ P S (periods a p)) by lia; auto.
  - destruct (Z.leb_spec EndTime (median a q)).
    + rewrite (failed_settled p _ P S (periods a p)) by lia; split; [split; [auto|lia]|auto].
    + split; [split; [lia|intros _ H']|lia]; rewrite (proj2 (Z.leb_le _ _) H') in S.
      destruct (Nat.ltb_spec (Datatypes.S k) (periods a p)); [eapply locked_in_activates; eauto; lia|].
      now replace (periods a p) with (Datatypes.S k) by lia.
  - rewrite (active_settled p _ P S (periods a p)) by lia; auto.
  - rewrite (active_settled p _ P S (periods a p)) by lia; auto.
  - rewrite (failed_settled p _ P S (periods a p)) by lia; auto.
Qed.

Lemma prev_ancestor p q : (p < length a)%nat -> prev_period a p = Some q ->
  ancestor a p (height_of a q) = Some q /\ height_of a q = height_of a p - Period.
Proof.
  intros P; unfold prev_period; destruct (Z.ltb_spec (height_of a p - Period) 0); [discriminate|]; intros E.
  destruct (ancestor_valid a Hwf p (height_of a p - Period) P) as (q' & E' & _ & _ & Hq); [lia|].
  rewrite E' in E; injection E as <-; now rewrite Hq.
Qed.

(** ** The height since when the state holds *)

Definition since (p : nat) (s : ThresholdState) (h : Z) : Prop :=
  exists j, h = Z.of_nat j * Period /\ (j <= periods a p)%nat /\
    (forall i, (j <= i <= periods a p)%nat -> state_at a i p = s) /\
    (j = 0%nat \/ state_at a (j - 1) p <> s).

Lemma state_eqb_eq s t : state_eqb s t = true <-> s = t.
Proof. destruct s, t; cbn; split; intros; congruence. Qed.

Lemma since_walk_ok p s (P : (p < length a)%nat) (NS : s <> THRESHOLD_DEFINED) fuel : forall j q c, (q < fuel)%nat -> sound a c ->
  boundary a j q -> (j <= periods a p)%nat -> ancestor a p (height_of a q) = Some q -> height_of a q <= height_of a p ->
  (forall i, (j <= i <= periods a p)%nat -> state_at a i p = s) ->
  exists h c', since_walk a fuel s q c = Ok (h, c') /\ sound a c' /\ since p s h.
Proof.
  induction fuel as [|fuel IH]; intros j q c F S B J A L St; [lia|cbn [since_walk]].
  pose proof B as [Q R]; unfold deref; destruct (entry a q Q) as (b & -> & Hb); cbn [bind]; rewrite Hb.
  pose proof (run_length_bounds a T q) as U; unfold run_length in U, R; rewrite !int_id by lia.
  rewrite (GetAncestor_ok a q _ Hwf Q), (proj2 (Z.ltb_ge (height_of a q) _)) by lia; cbn [orb bind].
  fold (prev_period a q); pose proof (boundary_pos a T _ _ B); destruct j as [|j]; [lia|].
  assert (Stop : state_at a j p <> s -> since p s (height_of a q + 1)).
  { intros D; exists (Datatypes.S j); rewrite R; split_all; auto; right; now rewrite Nat.sub_succ, Nat.sub_0_r. }
  pose proof (prev_boundary a T j q B) as V; destruct j as [|j].
  - rewrite V; do 2 eexists; split_all; eauto; apply Stop; cbn; congruence.
  - destruct V as (r & Er & Br & Lt & Sr); destruct (prev_ancestor q r Q Er) as [Ar Hr]; rewrite Er.
    destruct (GetStateFor_ok a T (Some r) c (proj1 Br) S) as (c' & -> & S'); cbn [bind fst snd reference_state].
    rewrite (boundary_periods a T _ _ Br), Sr, (state_at_descendant _ q p P B A L (Datatypes.S j) ltac:(lia)).
    destruct (state_eqb _ _) eqn:X.
    + apply state_eqb_eq in X; pose proof (height_nonneg a Hwf r).
      apply (IH (Datatypes.S j) r); auto; try lia.
      * rewrite <- Ar; symmetry; apply (ancestor_trans a Hwf p q (height_of a q)); auto; lia.
      * intros i I; destruct (Nat.eq_dec i (Datatypes.S j)) as [->|]; [exact X|apply St; lia].
    + do 2 eexists; split_all; eauto; apply Stop; intros Y; apply state_eqb_eq in Y; congruence.
Qed.

Lemma since_ok p c : (p < length a)%nat -> sound a c ->
  exists h c', GetStateSinceHeightFor a (Some p) c = Ok (h, c') /\ sound a c' /\
    since p (reference_state a (Some p)) h.
Proof.
  intros P S; unfold GetStateSinceHeightFor.
  destruct (GetStateFor_ok a T (Some p) c P S) as (c' & -> & S'); cbn [bind fst snd].
  destruct (state_eqb _ _) eqn:X.
  - apply state_eqb_eq in X; exists 0, c'; split_all; auto; rewrite X; cbn [reference_state] in X.
    exists 0%nat; split_all; auto; try lia; intros i I; apply (defined_before p (periods a p)); auto; lia.
  - destruct (period_parent_ok a T p P) as (e & -> & R & B); cbn [bind]; destruct e as [q|].
    2: { cbn [reference_state] in X; rewrite B in X; discriminate. }
    destruct B as (B & L & A); assert (H : Z.of_nat (periods a p) * Period - 1 = height_of a q)
      by (destruct B as [_ B]; unfold run_length in B; lia).
    rewrite H in A; pose proof (periods_bound p); destruct B as [Q B].
    apply (since_walk_ok p _ P) with (j := periods a p); auto; try lia.
    + intros Y; apply state_eqb_eq in Y; congruence.
    + split; auto.
    + unfold run_length in *; lia.
    + intros i I; now replace i with (periods a p) by lia.
Qed.

(** ** Statistics of the current period *)

Lemma stats_walk_ok n : forall fuel p c, (n < fuel)%nat -> (p < length a)%nat -> Z.of_nat n <= height_of a p ->
  0 <= c -> c + Z.of_nat n < 2 ^ 31 ->
  stats_walk a fuel (height_of a p - Z.of_nat n) (Some p) c = Ok (c + signals a n p).
Proof.
  induction n as [|n IH]; intros [|fuel] p c F P L B O; try lia; cbn [stats_walk signals]; unfold deref;
    destruct (entry a p P) as (b & E & Hb); rewrite E; cbn [bind]; rewrite Hb.
  - rewrite (proj2 (Z.eqb_eq _ _)) by lia; f_equal; lia.
  - rewrite (proj2 (Z.eqb_neq _ _)) by lia; destruct (Hwf p b E) as [H _]; destruct (pprev b) as [q|]; [|lia].
    destruct H as (Q & H & _); rewrite int_id by lia.
    replace (height_of a p - Z.of_nat (Datatypes.S n)) with (height_of a q - Z.of_nat n) by lia.
    destruct (Condition b); rewrite IH by lia; f_equal; lia.
Qed.
End History.

(** * The deployments of the node *)

Section Node.
Variable params : deployment_params.
Variable a : arena.

Definition checker (pos : DeploymentPos) : ThresholdConditionChecker := VersionBitsConditionChecker params pos.

Definition state_of (pos : DeploymentPos) (p : option nat) : ThresholdState := @reference_state (checker pos) a p.

Definition all_timely : Prop := forall pos, @timely (checker pos) a.
Definition all_sound (cache : VersionBitsCache) : Prop := forall pos, @sound (checker pos) a (cache pos).

Hypothesis T : all_timely.

Lemma pos_eqb_eq p q : pos_eqb p q = true -> p = q.
Proof. now destruct p, q. Qed.

Lemma VersionBitsState_ok p pos cache : known a p -> all_sound cache ->
  exists cache', VersionBitsState params a p pos cache = Ok (state_of pos p, cache') /\ all_sound cache'.
Proof.
  intros P S; unfold VersionBitsState; destruct (GetStateFor_ok a (T pos) p (cache pos) P (S pos)) as (c & E & S').
  unfold checker in E; rewrite E; eexists; split; [reflexivity|]; intros q; cbn [snd]; unfold set_cache.
  destruct (pos_eqb pos q) eqn:Q; [apply pos_eqb_eq in Q as <-; exact S'|apply S].
Qed.

Section AtTip.
Variable chainActive : CChain.
Hypothesis K : known a (Tip chainActive).

Definition late : bool :=
  match Tip chainActive with None => false | Some t => 265000 <=? height_of a t end.

Lemma tip_is_late_ok : tip_is_late a chainActive = Ok late.
Proof.
  unfold tip_is_late, late; destruct (Tip chainActive) as [t|]; [|reflexivity]; unfold deref.
  destruct (entry a t K) as (b & -> & <-); reflexivity.
Qed.

Lemma ask_deployment_ok pos accept cache : all_sound cache ->
  exists cache', ask_deployment params a chainActive pos accept cache =
    Ok (accept (state_of pos (Tip chainActive)) || late, cache') /\ all_sound cache'.
Proof.
  intros S; unfold ask_deployment, VersionBitsTipState.
  destruct (VersionBitsState_ok (Tip chainActive) pos cache K S) as (c & -> & S'); cbn [bind].
  rewrite tip_is_late_ok; exists c; split; [reflexivity|exact S'].

Qed.

(** A switch: the function of the node, its latch, its deployment and the
    states in which it counts as deployed. *)
Record switch := mkSwitch {
  sw_ask : deployment_state -> result chain_error (bool * deployment_state);
  sw_latch : deployment_state -> bool;
  sw_pos : DeploymentPos;
  sw_accept : ThresholdState -> bool
}.

Definition switches : list switch :=
  [mkSwitch (AreAssetsDeployed params a chainActive) fAssetsIsActive DEPLOYMENT_ASSETS is_active;
   mkSwitch (IsRip5Active params a chainActive) fRip5IsActive DEPLOYMENT_MSG_REST_ASSETS is_active;
   mkSwitch (AreTransferScriptsSizeDeployed params a chainActive) fTransferScriptIsActive
     DEPLOYMENT_TRANSFER_SCRIPT_SIZE is_active;
   mkSwitch (AreEnforcedValuesDeployed params a chainActive) fEnforcedValuesIsActive DEPLOYMENT_ENFORCE_VALUE
     (fun s => is_active s || state_eqb s THRESHOLD_LOCKED_IN);
   mkSwitch (AreCoinbaseCheckAssetsDeployed params a chainActive) fCheckCoinbaseAssetsIsActive
     DEPLOYMENT_COINBASE_ASSETS is_active].

Definition latches (g : deployment_state) : list bool := map (fun w => sw_latch w g) switches.

(** [w] answers by its latch and its deployment, sets only its own latch. *)
Definition switch_ok (g : deployment_state) (i : nat) (w : switch) : Prop :=
  let answer := sw_latch w g || sw_accept w (state_of (sw_pos w) (Tip chainActive)) || late in
  exists g', sw_ask w g = Ok (answer, g') /\ all_sound (versionbitscache g') /\
    latches g' = upd (latches g) i answer.

Lemma switches_ok g i w : all_sound (versionbitscache g) -> nth_error switches i = Some w -> switch_ok g i w.
Proof.
  intros S; destruct i as [|[|[|[|[|i]]]]]; [intros [= <-]..|destruct i; discriminate];
    unfold switch_ok; cbn [sw_ask sw_latch sw_pos sw_accept]; set (g0 := g) in *;
    destruct g as [cache l1 l2 l3 l4 l5]; cbn [versionbitscache] in S;
    unfold AreAssetsDeployed, IsRip5Active, AreTransferScriptsSizeDeployed, AreEnforcedValuesDeployed,
      AreCoinbaseCheckAssetsDeployed; subst g0;
    cbn [versionbitscache fAssetsIsActive fRip5IsActive fTransferScriptIsActive fEnforcedValuesIsActive
         fCheckCoinbaseAssetsIsActive].
  1: destruct l1. 3: destruct l2. 5: destruct l3. 7: destruct l4. 9: destruct l5.
  all: try (eexists; split; [reflexivity|]; split; [exact S|reflexivity]).
  all: match goal with |- context[ask_deployment params a chainActive ?p ?f _] =>
         destruct (ask_deployment_ok p f cache S) as (c & -> & S') end.
  all: eexists; split; [reflexivity|]; split; [exact S'|reflexivity].
Qed.
End AtTip.

(** ** The version of a new block *)

Definition signalling (s : ThresholdState) : bool :=
  state_eqb s THRESHOLD_LOCKED_IN || state_eqb s THRESHOLD_STARTED.

Hypothesis B : forall pos, 0 <= bit (vDeployments params pos) < 29.

Lemma mask_bits pos i : Z.testbit (Mask params pos) i = (bit (vDeployments params pos) =? i).
Proof.
  unfold Mask; specialize (B pos); rewrite Z.shiftl_1_l; unfold w32; rewrite wrap_id.
  - apply Z.pow2_bits_eqb; lia.
  - split; [apply Z.pow_nonneg; lia|apply Z.pow_lt_mono_r; lia].
Qed.

Lemma mask_range pos : in_u 30 (Mask params pos).
Proof.
  unfold Mask; specialize (B pos); rewrite Z.shiftl_1_l; unfold w32.
  assert (2 ^ bit (vDeployments params pos) < 2 ^ 30) by (apply Z.pow_lt_mono_r; lia).
  assert (0 <= 2 ^ bit (vDeployments params pos)) by (apply Z.pow_nonneg; lia).
  rewrite wrap_id; unfold in_u; lia.
Qed.

Lemma lor_range x y : in_u 30 x -> in_u 30 y -> in_u 30 (Z.lor x y).
Proof.
  intros X Y; apply in_u_testbit; [lia|apply Z.lor_nonneg; unfold in_u in *; lia|].
  intros n N; rewrite Z.lor_spec, (testbit_high 30 x), (testbit_high 30 y) by (auto; lia); reflexivity.
Qed.

(** The bits a new block on top of [p] has to set. *)
Definition signal_bit (p : option nat) (l : list DeploymentPos) (i : Z) : bool :=
  existsb (fun pos => (bit (vDeployments params pos) =? i) && signalling (state_of pos p)) l.

Lemma version_loop_ok p l : forall v cache, known a p -> all_sound cache -> in_u 30 v ->
  exists v' cache', version_loop params a p l v cache = Ok (v', cache') /\ all_sound cache' /\ in_u 30 v' /\
    forall i, Z.testbit v' i = Z.testbit v i || signal_bit p l i.
Proof.
  induction l as [|pos l IH]; intros v cache P S V; cbn [version_loop].
  - do 2 eexists; split_all; eauto; intros i; cbn; now rewrite orb_false_r.
  - destruct (VersionBitsState_ok p pos cache P S) as (c & -> & S'); cbn [bind fst snd].
    fold (signalling (state_of pos p)); set (v1 := if signalling _ then _ else _).
    assert (V1 : in_u 30 v1 /\ forall i, Z.testbit v1 i =
      Z.testbit v i || (bit (vDeployments params pos) =? i) && signalling (state_of pos p)).
    { unfold v1; destruct (signalling (state_of pos p)).
      - pose proof (lor_range _ _ V (mask_range pos)) as L; unfold VersionBitsMask.
        unfold w32; rewrite wrap_id by (unfold in_u in *; lia).
        rewrite (int_id (Z.lor _ _)) by (unfold in_u in L; lia); split; [exact L|].
        intros i; now rewrite Z.lor_spec, mask_bits, andb_true_r.
      - split; [exact V|intros i; now rewrite andb_false_r, orb_false_r]. }
    destruct (IH v1 c P S' (proj1 V1)) as (v' & c' & -> & S'' & V' & E); do 2 eexists; split_all; eauto.
    intros i; rewrite E, (proj2 V1); cbn [signal_bit existsb]; now rewrite orb_assoc.
Qed.
End Node.

(** * Theorems *)

(** C19: for every block of a well-formed index and every cache whose entries
    are right, [GetStateFor] terminates without touching a null pointer or
    failing its assertion, returns the state that the period-by-period
    definition of the deployment gives, and leaves a cache whose entries are
    right; neither the entries found nor the shortcut for blocks before the
    start time can change an answer. *)
Theorem GetStateFor_correct `{ThresholdConditionChecker} (a : arena) (p : option nat) (c : ThresholdConditionCache) :
  timely a -> known a p -> sound a c ->
  exists c', GetStateFor a p c = Ok (reference_state a p, c') /\ sound a c'.
Proof. intros T; now apply GetStateFor_ok. Qed.

(** C16: the fate of a deployment.  Take a block [q] that ends a period, the
    state [s0] before that period's transition, and any later block [p] of
    the chain.  When [s0] is started, the clock is before the timeout and
    enough blocks of the period signal, the deployment is locked in for one
    period and active ever after; a locked in deployment becomes active; an
    active or failed one stays so; a deployment not locked in when the clock
    reaches the timeout has failed for good; and one period after the clock
    reached the timeout every deployment is active or failed. *)
Theorem Deployment_decided `{ThresholdConditionChecker} (a : arena) (k q p : nat) (c c0 : ThresholdConditionCache)
  (s0 : ThresholdState) :
  timely a -> sound a c -> boundary a (S k) q -> (p < length a)%nat ->
  ancestor a p (height_of a q) = Some q -> height_of a q <= height_of a p ->
  GetStateFor a (prev_period a q) c = Ok (s0, c0) ->
  exists s c', GetStateFor a (Some p) c0 = Ok (s, c') /\
    outcome a s0 q (S k <? periods a p)%nat s /\
    (s0 = THRESHOLD_STARTED -> Threshold <= signals a (Z.to_nat Period) q -> (S k < periods a p)%nat ->
     s = THRESHOLD_ACTIVE \/ s = THRESHOLD_FAILED).
Proof.
  intros T S B P A L G; pose proof (prev_boundary a T k q B) as V.
  assert (K : known a (prev_period a q)).
  { destruct k; [now rewrite V|destruct V as (r & -> & [Q _] & _); exact Q]. }
  destruct (GetStateFor_ok a T _ c K S) as (c1 & G' & S1); rewrite G in G'; injection G' as -> ->.
  destruct (GetStateFor_ok a T (Some p) c1 P S1) as (c2 & G2 & S2); exists (reference_state a (Some p)), c2.
  assert (E : reference_state a (prev_period a q) = state_at a k p).
  { destruct k; [now rewrite V|destruct V as (r & -> & Br & _ & Sr)].
    cbn [reference_state]; rewrite (boundary_periods a T _ _ Br), Sr.
    apply (state_at_descendant a T _ _ _ P B A L); lia. }
  pose proof (outcome_ok a T k q p P B A L) as O; rewrite <- E in O; split; [exact G2|]; split; [exact O|].
  intros E0 H1 H2; rewrite E0 in O; destruct O as [[O1 O2] _]; rewrite (proj2 (Nat.ltb_lt _ _) H2) in O2.
  destruct (Z.le_gt_cases EndTime (median a q)); auto.
Qed.

(** [GetStateSinceHeightFor] returns the height of the first block of
    the first of the consecutive periods, up to the current one, that have
    the current state: a multiple of the period, the state being another one
    just before it. *)
Theorem GetStateSinceHeightFor_correct `{ThresholdConditionChecker} (a : arena) (p : nat) (c : ThresholdConditionCache) :
  timely a -> (p < length a)%nat -> sound a c ->
  exists h c', GetStateSinceHeightFor a (Some p) c = Ok (h, c') /\ sound a c' /\
    since a p (reference_state a (Some p)) h.
Proof. intros T; now apply since_ok. Qed.

(** C40: the statistics of the current period are the blocks since its start
    and how many of them signal, and [possible] says exactly whether the
    threshold can still be reached by the rest of the period.  In the first
    period of the chain the code follows a null pointer instead. *)
Theorem GetStateStatisticsFor_correct `{ThresholdConditionChecker} (a : arena) (p : nat) :
  timely a -> 0 <= Threshold < 2 ^ 31 -> (p < length a)%nat ->
  let elapsed := run_length a p mod Period in
  let count := signals a (Z.to_nat elapsed) p in
  if run_length a p <? Period then GetStateStatisticsFor a (Some p) = Err NullDeref
  else exists possible, GetStateStatisticsFor a (Some p) = Ok (mkStats Period Threshold elapsed count possible) /\
    (possible = true <-> Threshold <= count + (Period - elapsed)).
Proof.
  intros T Ht P elapsed count; pose proof (timely_period a T) as N; pose proof (run_length_bounds a T p) as U.
  unfold GetStateStatisticsFor, deref; destruct (entry a p P) as (b & -> & Hb); cbn [bind]; rewrite Hb.
  pose proof (Z.div_mod (run_length a p) Period) as D; pose proof (Z.mod_pos_bound (run_length a p) Period) as M.
  destruct (period_parent_ok a T p P) as (e & -> & _ & B); cbn [bind].
  assert (Q0 : Z.of_nat (periods a p) = run_length a p / Period)
    by (unfold periods; apply Z2Nat.id, Z.div_pos; lia).
  destruct (Z.ltb_spec (run_length a p) Period) as [L|L].
  - rewrite Z.div_small in Q0 by lia; destruct e as [q|]; [|reflexivity].
    destruct B as (B & _); pose proof (boundary_pos a T _ _ B); lia.
  - assert (1 <= run_length a p / Period) by (apply Z.div_le_lower_bound; lia).
    destruct e as [q|]; [|lia]; destruct B as ([Q B] & _); rewrite Q0 in B.
    destruct (entry a q Q) as (bq & -> & Hq); cbn [bind]; rewrite Hq; unfold run_length in B, U, D.
    assert (Eq : height_of a q = height_of a p - Z.of_nat (Z.to_nat elapsed))
      by (unfold elapsed, run_length in *; lia).
    assert (0 <= elapsed < Period) by (apply M; lia); pose proof (height_le_index a (timely_index a T) p) as I.
    rewrite Eq, (stats_walk_ok a T) by (auto; unfold run_length in *; lia); cbn [bind]; fold count.
    pose proof (signals_bounds a (Z.to_nat elapsed) p) as C; fold count in C.
    rewrite Z2Nat.id by lia; replace (height_of a p - (height_of a p - elapsed)) with elapsed by lia.
    rewrite !int_id by lia; rewrite Z.add_0_l; eexists; split; [reflexivity|]; rewrite Z.leb_le; lia.
Qed.

(** The switches of the node ([AreAssetsDeployed] and the four others).
    Each answers true exactly when its latch is set, its deployment has
    reached the state it waits for at the tip, or the tip is at height 265000
    or above; it latches that answer, so that once true it is true whatever
    chain becomes active; and it changes no other latch. *)
Theorem Switches_correct (params : deployment_params) (a : arena) (chainActive : CChain) (g : deployment_state) (i : nat)
  (w : switch) :
  all_timely params a -> known a (Tip chainActive) -> all_sound params a (versionbitscache g) ->
  nth_error (switches params a chainActive) i = Some w ->
  switch_ok params a chainActive g i w.
Proof. intros T K S; now apply switches_ok. Qed.

(** The version of a new block on top of [p] carries exactly the bits of
    the deployments that are started or locked in there, besides the top
    bits, which say whether assets are deployed at the tip; it is a
    non-negative 32-bit number. *)
Theorem ComputeBlockVersion_correct (params : deployment_params) (a : arena) (chainActive : CChain) (p : option nat)
  (g : deployment_state) :
  all_timely params a -> (forall pos, 0 <= bit (vDeployments params pos) < 29) ->
  known a (Tip chainActive) -> known a p -> all_sound params a (versionbitscache g) ->
  exists v g', ComputeBlockVersion params a chainActive p g = Ok (v, g') /\
    all_sound params a (versionbitscache g') /\ in_u 30 v /\
    let assets := fAssetsIsActive g || is_active (state_of params a DEPLOYMENT_ASSETS (Tip chainActive)) ||
                  late a chainActive in
    forall i, Z.testbit v i = (i =? 29) || (assets && (i =? 28)) || signal_bit params a p deployments i.
Proof.
  intros T B K P S; unfold ComputeBlockVersion.
  destruct (switches_ok params a T chainActive K g 0 _ S eq_refl) as (g1 & E & S1 & _); cbn [sw_ask sw_latch sw_accept sw_pos] in E.
  rewrite E; cbn [bind fst snd]; set (assets := _ || _ || _); set (top := if assets then _ else _).
  assert (V : in_u 30 top) by (unfold top; destruct assets; split; now vm_compute).
  destruct (version_loop_ok params a T B p deployments top _ P S1 V) as (v & c & -> & S' & V' & E').
  do 2 eexists; split; [reflexivity|]; split; [exact S'|]; split; [exact V'|]; intros i; rewrite E'; f_equal.
  replace top with (if assets then Z.lor (2 ^ 28) (2 ^ 29) else 2 ^ 29) by (unfold top; now destruct assets).
  destruct assets; rewrite ?Z.lor_spec, ?Z.pow2_bits_eqb by lia; rewrite !(Z.eqb_sym i); cbn [andb]; [apply orb_comm|].
  now rewrite orb_false_r.
Qed.

(** * A small chain *)

(** Seven blocks, periods of two blocks; the blocks of the second period
    signal bit 6. *)
Definition example_block (i : nat) (version : Z) : CBlockIndex :=
  mkIndex (Z.of_nat i) (match i with O => None | S j => Some j end) None (Z.of_nat i) (BaseUint.of_u64 1) 2 0 0
    (mkHeader version 0 0 (1000 + 60 * Z.of_nat i) 0 0 (Z.of_nat i) 0 0).

Definition example_index : arena :=
  [example_block 0 4; example_block 1 4; example_block 2 0x20000040; example_block 3 0x20000040;
   example_block 4 0x20000040; example_block 5 0x20000000; example_block 6 0x30000000].

Definition example_params : deployment_params :=
  mkDeploymentParams 2 2 (fun pos => match pos with
    | DEPLOYMENT_ASSETS => mkDeployment 6 500 5000 0 0
    | DEPLOYMENT_TESTDUMMY => mkDeployment 28 500 1100 0 0
    | _ => mkDeployment 7 2000 5000 0 0
    end).

Lemma example_wf : wf_index example_index.
Proof.
  intros [|[|[|[|[|[|[|p]]]]]]] b E; [injection E as <-; split; [cbn; auto with zarith|apply of_u64_wf]..|].
  destruct p; discriminate.
Qed.

Lemma example_times : times_advance example_index.
Proof.
  intros [|[|[|[|[|[|[|p]]]]]]] b q E Q; [injection E as <-; try discriminate; injection Q as <-; now vm_compute..|].
  destruct p; discriminate.
Qed.

Lemma example_timely : all_timely example_params example_index.
Proof.
  intros pos; split; [exact example_wf|exact example_times| |destruct pos; cbn; lia|destruct pos; cbn; lia].
  intros p; unfold run_length, height_of; do 7 (destruct p as [|p]; [now vm_compute|]).
  destruct p; now vm_compute.
Qed.

Lemma example_known : known example_index (Some 6%nat).
Proof. cbn; lia. Qed.

Lemma empty_sound `{ThresholdConditionChecker} a : sound a [].
Proof. intros k s; discriminate. Qed.

Lemma example_boundary : @boundary (checker example_params DEPLOYMENT_ASSETS) example_index 2 3.
Proof. split; [cbn; lia|reflexivity]. Qed.

Definition example_globals : deployment_state := mkGlobals (fun _ => []) false false false false false.

Lemma GetStateFor_correct_witness :
  exists c', @GetStateFor (checker example_params DEPLOYMENT_ASSETS) example_index (Some 6%nat) [] =
    Ok (THRESHOLD_ACTIVE, c').
Proof.
  destruct (@GetStateFor_correct (checker example_params DEPLOYMENT_ASSETS) example_index (Some 6%nat) []
    (example_timely _) example_known (empty_sound _)) as (c' & E & _).
  exists c'; rewrite E; reflexivity.
Defined.

Lemma Deployment_decided_witness : exists s c',
  @GetStateFor (checker example_params DEPLOYMENT_ASSETS) example_index (Some 6%nat)
    [(Some 1%nat, THRESHOLD_STARTED)] = Ok (s, c') /\ s = THRESHOLD_ACTIVE.
Proof.
  assert (S1 : @sound (checker example_params DEPLOYMENT_ASSETS) example_index [(Some 1%nat, THRESHOLD_STARTED)]).
  { intros k s; cbn [cache_find]; destruct (ptr_eqb k (Some 1%nat)) eqn:E; [|discriminate].
    apply ptr_eqb_eq in E as ->; intros [= <-]; split; [reflexivity|exists 1%nat; split; [cbn; lia|reflexivity]]. }
  destruct (@Deployment_decided (checker example_params DEPLOYMENT_ASSETS) example_index 1 3 6
    [(Some 1%nat, THRESHOLD_STARTED)] [(Some 1%nat, THRESHOLD_STARTED)] THRESHOLD_STARTED
    (example_timely _) S1 example_boundary ltac:(cbn; lia) eq_refl ltac:(cbn; lia) eq_refl) as (s & c' & E & [[_ O] _] & _).
  exists s, c'; split; [exact E|].
  assert (L : (2 <? @periods (checker example_params DEPLOYMENT_ASSETS) example_index 6)%nat = true) by reflexivity.
  rewrite L in O; apply O; vm_compute; [reflexivity|discriminate].
Defined.

Lemma GetStateSinceHeightFor_correct_witness : exists h c',
  @GetStateSinceHeightFor (checker example_params DEPLOYMENT_ASSETS) example_index (Some 6%nat) [] = Ok (h, c') /\ h = 6.
Proof.
  destruct (@GetStateSinceHeightFor_correct (checker example_params DEPLOYMENT_ASSETS) example_index 6 []
    (example_timely _) example_known (empty_sound _)) as (h & c' & E & _).
  exists h, c'; split; [exact E|]; vm_compute in E; congruence.
Defined.

Lemma GetStateStatisticsFor_correct_witness : exists possible,
  @GetStateStatisticsFor (checker example_params DEPLOYMENT_ASSETS) example_index (Some 4%nat) =
    Ok (mkStats 2 2 1 1 possible) /\ possible = true.
Proof.
  destruct (@GetStateStatisticsFor_correct (checker example_params DEPLOYMENT_ASSETS) example_index 4
    (example_timely _) ltac:(cbn; lia) ltac:(cbn; lia)) as (b & E & H).
  exists b; split; [exact E|].
  apply H; vm_compute; discriminate.
Defined.

Lemma Switches_correct_witness : exists g',
  AreAssetsDeployed example_params example_index [Some 6%nat] example_globals = Ok (true, g').
Proof.
  destruct (Switches_correct example_params example_index [Some 6%nat] example_globals 0 _
    example_timely example_known (fun pos => empty_sound _) eq_refl) as (g' & E & _).
  exists g'; exact E.
Defined.

Lemma ComputeBlockVersion_correct_witness : exists v g',
  ComputeBlockVersion example_params example_index [Some 6%nat] (Some 4%nat) example_globals = Ok (v, g') /\
  Z.testbit v 6 = true /\ Z.testbit v 28 = true.
Proof.
  destruct (ComputeBlockVersion_correct example_params example_index [Some 6%nat] (Some 4%nat) example_globals
    example_timely ltac:(intros []; cbn; lia) example_known ltac:(cbn; lia) (fun pos => empty_sound _)) as (v & g' & E & _ & _ & B).
  exists v, g'; split; [exact E|]; split; rewrite B; reflexivity.
Defined.

(** The deployments of the main network meet what the theorems ask of the
    parameters. *)
Lemma main_schedule pos :
  let K := checker main_deployments pos in
  0 < @Period K < 2 ^ 31 /\ 0 <= @Threshold K <= @Period K /\ @BeginTime K <= @EndTime K /\
  0 <= bit (vDeployments main_deployments pos) < 29.
Proof. destruct pos; cbn; lia. Qed.
