(* ===== verification/Pow.v ===== *)
(** Proof of work (src/pow.cpp): the Dark Gravity Wave retarget, the
    inherited periodic retarget, and the check of a hash against a compact
    target.  The retargets are proved to compute, without 256-bit wrap-around,
    an integer formula on the targets and times of the branch. *)

From Stdlib Require Import ZArith List Bool Lia Arith.
From S2P Require Import Prelude ArithUint256 Chain.
Import ListNotations.
Open Scope Z_scope.

(** * Consensus parameters of the retarget *)

Record Params := mkParams {
  powLimit : list Z;
  kawpowLimit : list Z;
  fPowAllowMinDifficultyBlocks : bool;
  fPowNoRetargeting : bool;
  nPowTargetSpacing : Z;
  nPowTargetTimespan : Z;
  nDGWFixHeight : Z
}.

Definition DifficultyAdjustmentInterval (params : Params) : Z :=
  Z.quot (nPowTargetTimespan params) (nPowTargetSpacing params).

(** * Embedding of the arithmetic's failures *)

Definition get_compact (a : list Z) : result chain_error Z :=
  match ArithU256.GetCompact a false with
  | Some c => Ok c
  | None => Err AssertFailed
  end.

Definition uint_div (a b : list Z) : result chain_error (list Z) :=
  match BaseUint.div a b with
  | Ok q => Ok q
  | Err e => Err (Thrown e)
  end.

(** * Retargeting *)

Definition nPastBlocks : Z := 180.

(** [while (pindex->pprev && pindex->nHeight % interval != 0 &&
    pindex->nBits == limit) pindex = pindex->pprev] *)
Fixpoint min_difficulty_walk (fuel : nat) (a : arena) (params : Params)
    (limitBits : Z) (pindex : nat) : result chain_error nat :=
  match fuel with
  | O => Err OutOfFuel
  | S fuel' =>
      let! b := deref a pindex in
      match pprev b with
      | None => Ok pindex
      | Some q =>
          if negb (Z.rem (nHeight b) (DifficultyAdjustmentInterval params) =? 0)
             && (nBits b =? limitBits)
          then min_difficulty_walk fuel' a params limitBits q
          else Ok pindex
      end
  end.

Definition min_difficulty_bits (a : arena) (params : Params) (limitBits : Z)
    (pindexLast : nat) : result chain_error Z :=
  let! b := deref a pindexLast in
  let! p := min_difficulty_walk (S (Z.to_nat (nHeight b))) a params limitBits pindexLast in
  let! bp := deref a p in
  Ok (nBits bp).

(** [CalculateNextWorkRequired] *)
Definition CalculateNextWorkRequired (last : CBlockIndex) (nFirstBlockTime : Z)
    (params : Params) : result chain_error Z :=
  if fPowNoRetargeting params then Ok (nBits last)
  else
    let nActualTimespan := GetBlockTime last - nFirstBlockTime in
    let span := nPowTargetTimespan params in
    let nActualTimespan :=
      if nActualTimespan <? Z.quot span 4 then Z.quot span 4 else nActualTimespan in
    let nActualTimespan :=
      if nActualTimespan >? span * 4 then span * 4 else nActualTimespan in
    let bnPowLimit := ArithU256.UintToArith256 (powLimit params) in
    let bnNew := ArithU256.target (ArithU256.SetCompact (nBits last)) in
    let bnNew := BaseUint.mul_u32 bnNew (w32 nActualTimespan) in
    let! bnNew := uint_div bnNew (BaseUint.of_u64 (w64 span)) in
    let bnNew := if BaseUint.gt bnNew bnPowLimit then bnPowLimit else bnNew in
    get_compact bnNew.

Definition GetNextWorkRequiredBTC (a : arena) (pindexLast : nat) (pblock : CBlockHeader)
    (params : Params) : result chain_error Z :=
  let! last := deref a pindexLast in
  let! nProofOfWorkLimit := get_compact (ArithU256.UintToArith256 (powLimit params)) in
  let interval := DifficultyAdjustmentInterval params in
  if negb (Z.rem (nHeight last + 1) interval =? 0) then
    if fPowAllowMinDifficultyBlocks params then
      if h_nTime pblock >? GetBlockTime last + nPowTargetSpacing params * 2
      then Ok nProofOfWorkLimit
      else min_difficulty_bits a params nProofOfWorkLimit pindexLast
    else Ok (nBits last)
  else
    let nHeightFirst := nHeight last - (interval - 1) in
    if nHeightFirst <? 0 then Err AssertFailed
    else
      let! pindexFirst := GetAncestor a pindexLast nHeightFirst in
      match pindexFirst with
      | None => Err AssertFailed
      | Some f =>
          let! first := deref a f in
          CalculateNextWorkRequired last (GetBlockTime first) params
      end.

Section Retarget.

(** Global of the program: set once from the chain parameters. *)
Variable nKAWPOWActivationTime : Z.
Variable nDGWActivationBlock : Z.

(** [for (int i = 1; i <= nPastBlocks; ++i)], with [n] iterations left:
    the last block visited, the running average and the KAWPOW count. *)
Fixpoint dgw_loop (n : nat) (i : Z) (a : arena) (pindex : nat)
    (bnPastTargetAvg : list Z) (nKAWPOWBlocksFound : Z)
  : result chain_error (nat * list Z * Z) :=
  match n with
  | O => Ok (pindex, bnPastTargetAvg, nKAWPOWBlocksFound)
  | S n' =>
      let! b := deref a pindex in
      let bnTarget := ArithU256.target (ArithU256.SetCompact (nBits b)) in
      let! avg :=
        if i =? 1 then Ok bnTarget
        else uint_div (BaseUint.add (BaseUint.mul_u32 bnPastTargetAvg (w32 i)) bnTarget)
                      (BaseUint.of_u64 (w64 (i + 1))) in
      let found :=
        if nTime b >=? nKAWPOWActivationTime
        then nKAWPOWBlocksFound + 1 else nKAWPOWBlocksFound in
      let! next :=
        if i =? nPastBlocks then Ok pindex
        else match pprev b with None => Err AssertFailed | Some q => Ok q end in
      dgw_loop n' (i + 1) a next avg found
  end.

(** The clamping of the measured time span. *)
Definition dgw_timespan (params : Params) (nextHeight nActualTimespan : Z) : Z :=
  let nTargetTimespan := nPastBlocks * nPowTargetSpacing params in
  let t := nActualTimespan in
  let t := if nextHeight >=? nDGWFixHeight params
           then let t := if t <? 1 then 1 else t in
                if t <? nPowTargetSpacing params then nPowTargetSpacing params else t
           else t in
  let t := if t <? Z.quot nTargetTimespan 3 then Z.quot nTargetTimespan 3 else t in
  if t >? nTargetTimespan * 3 then nTargetTimespan * 3 else t.

Definition DarkGravityWave (a : arena) (pindexLast : nat) (pblock : CBlockHeader)
    (params : Params) : result chain_error Z :=
  let! last := deref a pindexLast in
  let bnPowLimit := ArithU256.UintToArith256 (powLimit params) in
  let! nPowLimitBits := get_compact bnPowLimit in
  let nextHeight := nHeight last + 1 in
  if (nextHeight >=? nDGWFixHeight params) &&
     (nextHeight <? nDGWFixHeight params + nPastBlocks) then Ok nPowLimitBits
  else if nHeight last <? nPastBlocks then Ok nPowLimitBits
  else if fPowAllowMinDifficultyBlocks params && fPowNoRetargeting params then
    if h_nTime pblock >? GetBlockTime last + nPowTargetSpacing params * 2
    then Ok nPowLimitBits
    else min_difficulty_bits a params nPowLimitBits pindexLast
  else
    let! r := dgw_loop (Z.to_nat nPastBlocks) 1 a pindexLast BaseUint.zero 0 in
    let '(pindex, bnPastTargetAvg, nKAWPOWBlocksFound) := r in
    if (h_nTime pblock >=? nKAWPOWActivationTime) &&
       negb (nKAWPOWBlocksFound =? nPastBlocks)
    then get_compact (ArithU256.UintToArith256 (kawpowLimit params))
    else
      let! first := deref a pindex in
      let nActualTimespan :=
        dgw_timespan params nextHeight (GetBlockTime last - GetBlockTime first) in
      let nTargetTimespan := nPastBlocks * nPowTargetSpacing params in
      let bnNew := BaseUint.mul_u32 bnPastTargetAvg (w32 nActualTimespan) in
      let! bnNew := uint_div bnNew (BaseUint.of_u64 (w64 nTargetTimespan)) in
      let bnNew := if BaseUint.gt bnNew bnPowLimit then bnPowLimit else bnNew in
      get_compact bnNew.

(** [IsDGWActive] of validation.cpp; the height is converted to unsigned. *)
Definition IsDGWActive (nBlockNumber : Z) : bool := nBlockNumber >=? nDGWActivationBlock.

Definition GetNextWorkRequired (a : arena) (pindexLast : nat) (pblock : CBlockHeader)
    (params : Params) : result chain_error Z :=
  let! last := deref a pindexLast in
  if IsDGWActive (w32 (nHeight last + 1))
  then DarkGravityWave a pindexLast pblock params
  else GetNextWorkRequiredBTC a pindexLast pblock params.

End Retarget.

(** * Checking a hash *)

Definition CheckProofOfWork (hash : list Z) (nBits : Z) (params : Params) : bool :=
  let r := ArithU256.SetCompact nBits in
  let bnTarget := ArithU256.target r in
  if ArithU256.fNegative r || BaseUint.EqualTo bnTarget 0 || ArithU256.fOverflow r
     || BaseUint.gt bnTarget (ArithU256.UintToArith256 (powLimit params))
  then false
  else if BaseUint.gt (ArithU256.UintToArith256 hash) bnTarget then false
  else true.

(** * Targets as numbers *)

Section Spec.
Import BaseUint ArithU256.

Definition is_uint256 (l : list Z) : Prop := length l = 32%nat /\ Forall (in_u 8) l.

Definition limit (params : Params) : Z := le_val 8 (powLimit params).

(** [c] is what [GetCompact] writes for the number [v]. *)
Definition encodes (c v : Z) : Prop := GetCompact (le_split 32 WIDTH v) false = Some c.

(** A compact target that denotes a number up to [L]. *)
Definition bits_ok (L c : Z) : Prop :=
  in_u 32 c /\ fNegative (SetCompact c) = false /\ compact_value c <= L.

Definition index_bits_ok (L : Z) (a : arena) : Prop :=
  forall p b, nth_error a p = Some b -> bits_ok L (nBits b).

(** The block at [p] and its predecessors, [n] blocks in all, newest first. *)
Fixpoint branch (n : nat) (a : arena) (p : nat) : list CBlockIndex :=
  match n with
  | O => []
  | S n' =>
      match nth_error a p with
      | None => []
      | Some b => b :: match pprev b with Some q => branch n' a q | None => [] end
      end
  end.

(** The running average of the loop, over the integers. *)
Fixpoint running_average (i avg : Z) (ts : list Z) : Z :=
  match ts with
  | [] => avg
  | t :: ts' => running_average (i + 1) ((avg * i + t) / (i + 1)) ts'
  end.

Definition dgw_average (ts : list Z) : Z :=
  match ts with [] => 0 | t :: ts' => running_average 2 t ts' end.

Definition clamp (lo hi t : Z) : Z := Z.max lo (Z.min t hi).

Definition branch_targets (a : arena) (p : nat) : list Z :=
  map (fun b => compact_value (nBits b)) (branch (Z.to_nat nPastBlocks) a p).

Definition kawpow_count (act : Z) (bs : list CBlockIndex) : Z :=
  Z.of_nat (length (filter (fun b => nTime b >=? act) bs)).

Definition time_of (a : arena) (p : option nat) : Z :=
  match p with
  | Some q => match nth_error a q with Some b => nTime b | None => 0 end
  | None => 0
  end.

(** The target the Dark Gravity Wave asks for, as a number. *)
Definition dgw_value (act : Z) (a : arena) (p : nat) (pblock : CBlockHeader)
    (params : Params) : Z :=
  let h := height_of a p in
  let spacing := nPowTargetSpacing params in
  if (nDGWFixHeight params <=? h + 1) && (h + 1 <? nDGWFixHeight params + 180) then limit params
  else if h <? 180 then limit params
  else if (act <=? h_nTime pblock) &&
          (kawpow_count act (branch (Z.to_nat nPastBlocks) a p) <? 180) then le_val 8 (kawpowLimit params)
  else
    let t := time_of a (Some p) - time_of a (ancestor a p (h - 179)) in
    Z.min (limit params)
      (dgw_average (branch_targets a p) * clamp (60 * spacing) (540 * spacing) t
       / (180 * spacing)).

(** What the chain parameters have to satisfy: the intermediate products fit
    256 bits and the clamped time span fits the 32-bit factor. *)
Record wf_params (params : Params) : Prop := {
  wfp_limit : is_uint256 (powLimit params);
  wfp_kawpow : is_uint256 (kawpowLimit params);
  wfp_kawpow_le : le_val 8 (kawpowLimit params) <= limit params;
  wfp_spacing : 0 < nPowTargetSpacing params /\ 540 * nPowTargetSpacing params < 2 ^ 32;
  wfp_fits : fPowAllowMinDifficultyBlocks params && fPowNoRetargeting params = true \/
             limit params * (540 * nPowTargetSpacing params) < 2 ^ 256
}.

(** ** The arithmetic steps *)

Lemma uint_div_ok (a b : list Z) : wf a -> wf b -> val b <> 0 ->
  exists q, uint_div a b = Ok q /\ wf q /\ val q = val a / val b.
Proof.
  intros Ha Hb Hne; destruct (div_mod_ok a b Ha Hb Hne) as (q & r & E & Hq & _ & Hv & _).
  exists q; unfold uint_div, div; rewrite E; auto.
Qed.

Lemma get_compact_ok (a : list Z) (L : Z) : wf a -> val a <= L ->
  exists c, get_compact a = Ok c /\ encodes c (val a) /\ bits_ok L c.
Proof.
  intros Ha HL; destruct (GetCompact_rounds a false Ha) as (c & E & Hc & Ho & Hn & Hle & _).
  exists c; unfold get_compact, encodes; rewrite E; split; [reflexivity |].
  destruct Ha as [Hl Hf]; split.
  - rewrite <- Hl; unfold val; rewrite le_split_val by (auto; lia); exact E.
  - split; [exact Hc |]; split; [exact Hn |].
    rewrite SetCompact_overflow in Ho by exact Hc; apply Z.leb_gt in Ho.
    destruct (SetCompact_target c) as [_ Hv]; [apply Hc |].
    rewrite Hv, Z.mod_small in Hle by (pose proof (compact_value_nonneg c); lia); lia.
Qed.

Lemma limit_limbs (l : list Z) : is_uint256 l ->
  wf (UintToArith256 l) /\ val (UintToArith256 l) = le_val 8 l.
Proof. intros [H1 H2]; apply UintToArith256_val; assumption. Qed.

Lemma target_ok (L c : Z) : bits_ok L c -> L < 2 ^ 256 ->
  wf (target (SetCompact c)) /\ val (target (SetCompact c)) = compact_value c /\
  0 <= compact_value c <= L.
Proof.
  intros (Hc & _ & Hl) HL; pose proof (compact_value_nonneg c).
  destruct (SetCompact_target c) as [Hw Hv]; [apply Hc |].
  rewrite Z.mod_small in Hv by lia; auto.
Qed.

(** The final [min] with the limit. *)
Lemma clip_ok (x l : list Z) : wf x -> wf l ->
  wf (if gt x l then l else x) /\ val (if gt x l then l else x) = Z.min (val l) (val x).
Proof.
  intros Hx Hl; unfold gt; rewrite CompareTo_spec by assumption.
  destruct (Z.gtb_spec (Z.sgn (val x - val l)) 0); split; auto; lia.
Qed.

Lemma gt_spec (x l : list Z) : wf x -> wf l -> gt x l = (val l <? val x).
Proof.
  intros Hx Hl; unfold gt; rewrite CompareTo_spec, Z.gtb_ltb by assumption.
  destruct (Z.ltb_spec 0 (Z.sgn (val x - val l))), (Z.ltb_spec (val l) (val x)); lia.
Qed.

Lemma mul_u32_exact (x : list Z) (k : Z) : wf x -> in_u 32 k -> val x * k < 2 ^ 256 ->
  wf (mul_u32 x k) /\ val (mul_u32 x k) = val x * k.
Proof.
  intros Hx Hk Hlt; pose proof (val_bounds x Hx); split; [auto with hemp |].
  rewrite mul_u32_spec by assumption; apply Z.mod_small; unfold in_u in Hk; nia.
Qed.

(** The successive clamps of the code amount to one: the two that were added
    at the fix height are implied by the lower bound of a third. *)
Lemma dgw_timespan_clamp (params : Params) (h t : Z) : 0 < nPowTargetSpacing params ->
  dgw_timespan params h t =
  clamp (60 * nPowTargetSpacing params) (540 * nPowTargetSpacing params) t.
Proof.
  intros Hs; unfold dgw_timespan, clamp, nPastBlocks.
  replace (180 * nPowTargetSpacing params) with (60 * nPowTargetSpacing params * 3) by lia.
  rewrite Z.quot_mul by lia; set (s := nPowTargetSpacing params) in *.
  repeat case_if; bool_to_prop; lia.
Qed.

End Spec.

(** * The averaging loop *)

Section Loop.
Import BaseUint ArithU256.

Variable act : Z.
Variable a : arena.
Hypothesis Hwf : wf_index a.
Variable L : Z.
Hypothesis HL : L * 181 < 2 ^ 256.
Hypothesis Hbits : index_bits_ok L a.

Definition values (bs : list CBlockIndex) : list Z :=
  map (fun b => compact_value (nBits b)) bs.

Lemma kawpow_count_cons (b : CBlockIndex) (bs : list CBlockIndex) :
  kawpow_count act (b :: bs) = (if nTime b >=? act then 1 else 0) + kawpow_count act bs.
Proof. unfold kawpow_count; cbn [filter]; destruct (nTime b >=? act); cbn [length]; lia. Qed.

(** One averaging step stays below the limit and does not wrap. *)
Lemma average_step (avg : list Z) (b : CBlockIndex) (i : Z) :
  wf avg -> val avg <= L -> 1 <= i <= 180 -> bits_ok L (nBits b) ->
  exists q, uint_div (add (mul_u32 avg (w32 i)) (target (SetCompact (nBits b))))
                     (of_u64 (w64 (i + 1))) = Ok q /\ wf q /\
    val q = (val avg * i + compact_value (nBits b)) / (i + 1) /\ val q <= L.
Proof.
  intros Hw Ha Hi Hb; pose proof (val_bounds avg Hw) as Hv0.
  destruct (target_ok L (nBits b) Hb) as (Htw & Htv & Ht); [lia |].
  assert (Ei : w32 i = i) by (apply wrap_id; unfold in_u; lia).
  assert (Ei' : w64 (w64 (i + 1)) = i + 1) 
    by (unfold w64; rewrite (wrap_id 64 (i + 1)), wrap_id; unfold in_u; lia).
  assert (Hm : 0 <= val avg * i <= L * i) by (split; [apply Z.mul_nonneg_nonneg | apply Z.mul_le_mono_nonneg_r]; lia).
  assert (Hi' : L * i <= L * 180) by (apply Z.mul_le_mono_nonneg_l; lia).
  destruct (mul_u32_exact avg i) as [Hmw Hmv]; [exact Hw | unfold in_u; lia | lia |].
  assert (Hs : val (add (mul_u32 avg i) (target (SetCompact (nBits b))))
               = val avg * i + compact_value (nBits b)).
  { rewrite add_spec, Hmv, Htv by assumption; apply Z.mod_small; lia. }
  rewrite Ei; destruct (uint_div_ok (add (mul_u32 avg i) (target (SetCompact (nBits b))))
    (of_u64 (w64 (i + 1)))) as (q & E & Hq & Hqv); auto with hemp.
  { rewrite val_of_u64, Ei'; lia. }
  exists q; rewrite val_of_u64, Ei', Hs in Hqv; repeat split; auto; try apply Hq.
  rewrite Hqv; apply Z.div_le_upper_bound; lia.
Qed.

Lemma dgw_loop_from (n : nat) : forall i p avg found,
  2 <= i -> i + Z.of_nat n = 181 -> (0 < n)%nat ->
  (p < length a)%nat -> Z.of_nat n - 1 <= height_of a p ->
  wf avg -> val avg <= L ->
  exists q avg', dgw_loop act n i a p avg found
      = Ok (q, avg', found + kawpow_count act (branch n a p)) /\
    up (n - 1) a p = Some q /\ wf avg' /\ val avg' <= L /\
    val avg' = running_average i (val avg) (values (branch n a p)) /\
    length (branch n a p) = n.
Proof.
  induction n as [| n IH]; intros i p avg found Hi Hn Hn0 Hp Hh Hw Ha; [lia |].
  cbn [dgw_loop branch]; unfold deref.
  destruct (nth_error a p) as [b |] eqn:E; [| apply nth_error_None in E; lia]; cbn [bind].
  rewrite (proj2 (Z.eqb_neq i 1)) by lia.
  destruct (average_step avg b i Hw Ha ltac:(lia) (Hbits p b E)) as (q & Eq & Hq & Hqv & Hql).
  rewrite Eq; cbn [bind]; unfold nPastBlocks.
  destruct n as [| n].
  - rewrite (proj2 (Z.eqb_eq i 180)) by lia; cbn [bind dgw_loop branch].
    exists p, q; rewrite kawpow_count_cons.
    replace (match pprev b with Some _ => [] | None => [] end) with (@nil CBlockIndex)
      by (destruct (pprev b); reflexivity).
    split; [| cbn [up Nat.sub values map running_average length]; auto].
    unfold kawpow_count; cbn [filter length]; do 2 f_equal; destruct (nTime b >=? act); lia.
  - rewrite (proj2 (Z.eqb_neq i 180)) by lia.
    destruct (Hwf p b E) as [Hb _]; unfold height_of in Hh; rewrite E in Hh.
    destruct (pprev b) as [r |] eqn:Er; [| lia]; destruct Hb as (Hr & Hhb & _).
    cbn [bind].
    destruct (IH (i + 1) r q (if nTime b >=? act then found + 1 else found))
      as (x & avg' & Ex & Hx & Hw' & Hl' & Hv' & Hlen); auto; try lia.
    exists x, avg'; rewrite Ex, kawpow_count_cons; split_all; auto.
    + do 2 f_equal; destruct (nTime b >=? act); lia.
    + cbn [Nat.sub up]; rewrite E, Er; rewrite <- Hx; f_equal; lia.
    + cbn [values map running_average]; rewrite <- Hqv; exact Hv'.
    + cbn [length]; f_equal; exact Hlen.
Qed.

Lemma dgw_loop_spec (N p : nat) : Z.of_nat N = nPastBlocks ->
  (p < length a)%nat -> 179 <= height_of a p ->
  exists q avg, dgw_loop act N 1 a p zero 0 = Ok (q, avg, kawpow_count act (branch N a p)) /\
    ancestor a p (height_of a p - 179) = Some q /\ wf avg /\ val avg <= L /\
    val avg = dgw_average (values (branch N a p)) /\
    length (branch N a p) = N.
Proof.
  unfold nPastBlocks; intros HN Hp Hh; destruct N as [| n]; [lia |].
  cbn [dgw_loop branch]; unfold deref.
  destruct (nth_error a p) as [b |] eqn:E; [| apply nth_error_None in E; lia]; cbn [bind].
  change (1 =? 1) with true; cbn match; cbn [bind].
  destruct (target_ok L (nBits b) (Hbits p b E)) as (Hw & Hv & Hl); [lia |].
  destruct (Hwf p b E) as [Hb _]; pose proof Hh as Hh'; unfold height_of in Hh; rewrite E in Hh.
  destruct (pprev b) as [r |] eqn:Er; [| lia]; destruct Hb as (Hr & Hhb & _).
  change (1 =? nPastBlocks) with false; cbn match; cbn [bind].
  destruct (dgw_loop_from n 2 r (target (SetCompact (nBits b)))
     (if nTime b >=? act then 0 + 1 else 0)) as (q & avg & Eq & Hq & Hw' & Hl' & Hv' & Hlen);
    try lia; auto; change (1 + 1) with 2.
  rewrite Eq; exists q, avg; rewrite kawpow_count_cons; split_all; auto.
  - unfold ancestor; replace (Z.to_nat (height_of a p - (height_of a p - 179)))
      with (S (n - 1)) by lia.
    cbn [up]; rewrite E, Er; exact Hq.
  - rewrite Hv', Hv; reflexivity.
  - cbn [length]; f_equal; exact Hlen.
Qed.

End Loop.

(** * Correctness of the retarget *)

Section Correctness.
Import BaseUint ArithU256.

Variable act : Z.

Definition sum (l : list Z) : Z := fold_right Z.add 0 l.

(** The running average is the weighted average, up to the rounding of each
    step: it loses less than one unit of the step's weight. *)
Lemma running_average_bounds (ts : list Z) : forall i avg, 0 < i ->
  let m := Z.of_nat (length ts) in
  let r := running_average i avg ts in
  (i + m) * r <= i * avg + sum ts /\
  2 * (i * avg + sum ts) <= 2 * ((i + m) * r) + m * (2 * i + m - 1).
Proof.
  induction ts as [| t ts IH]; intros i avg Hi m r; subst m r.
  - cbn [length running_average sum fold_right]; split; nia.
  - cbn [running_average sum fold_right]; fold (sum ts).
    set (avg' := (avg * i + t) / (i + 1)).
    destruct (IH (i + 1) avg' ltac:(lia)) as [H1 H2].
    pose proof (Z.div_mod (avg * i + t) (i + 1) ltac:(lia)) as Hd; fold avg' in Hd.
    pose proof (Z.mod_pos_bound (avg * i + t) (i + 1) ltac:(lia)).
    cbn [length]; rewrite Nat2Z.inj_succ.
    set (m := Z.of_nat (length ts)) in *; assert (0 <= m) by (unfold m; lia).
    replace (i + Z.succ m) with (i + 1 + m) by lia; nia.
Qed.

Lemma min_difficulty_ok (a : arena) (params : Params) (lim L : Z) : wf_index a ->
  index_bits_ok L a -> forall fuel p, (p < length a)%nat ->
  (Z.to_nat (height_of a p) < fuel)%nat ->
  exists q, min_difficulty_walk fuel a params lim p = Ok q /\ (q < length a)%nat.
Proof.
  intros Hwf Hb; induction fuel as [| fuel IH]; intros p Hp Hf; [lia |].
  cbn [min_difficulty_walk]; unfold deref.
  destruct (nth_error a p) as [b |] eqn:E; [| apply nth_error_None in E; lia]; cbn [bind].
  destruct (Hwf p b E) as [H _]; unfold height_of in Hf; rewrite E in Hf.
  destruct (pprev b) as [q |]; [| eauto]; destruct H as (Hq & Hh & _).
  destruct (_ && _); [| eauto]; apply IH; [lia |].
  pose proof (height_nonneg a Hwf q); lia.
Qed.

Lemma min_difficulty_bits_ok (a : arena) (params : Params) (lim L : Z) (p : nat) :
  wf_index a -> index_bits_ok L a -> (p < length a)%nat ->
  exists c, min_difficulty_bits a params lim p = Ok c /\ bits_ok L c.
Proof.
  intros Hwf Hb Hp; unfold min_difficulty_bits, deref.
  destruct (nth_error a p) as [b |] eqn:E; [| apply nth_error_None in E; lia]; cbn [bind].
  destruct (min_difficulty_ok a params lim L Hwf Hb (S (Z.to_nat (nHeight b))) p Hp)
    as (q & -> & Hq); [unfold height_of; rewrite E; lia |]; cbn [bind].
  destruct (nth_error a q) as [bq |] eqn:Eq; [| apply nth_error_None in Eq; lia].
  exists (nBits bq); split; [reflexivity |]; eapply Hb; eauto.
Qed.

(** "Not all of them" is "fewer". *)
Lemma kawpow_count_full (bs : list CBlockIndex) (n : Z) : Z.of_nat (length bs) = n ->
  negb (kawpow_count act bs =? n) = (kawpow_count act bs <? n).
Proof.
  intros Hlen; pose proof (filter_length_le (fun b => nTime b >=? act) bs) as Hf.
  unfold kawpow_count; set (k := length (filter _ bs)) in *.
  destruct (Z.ltb_spec (Z.of_nat k) n), (Z.eqb_spec (Z.of_nat k) n); simpl; auto; lia.
Qed.

Section Wave.

Variable a : arena.
Variable params : Params.
Hypothesis Hwf : wf_index a.
Hypothesis Hp : wf_params params.
Hypothesis Hb : index_bits_ok (limit params) a.

Lemma limit_bounds : 0 <= limit params < 2 ^ 256.
Proof.
  destruct (wfp_limit _ Hp) as [Hl Hf]; unfold limit.
  pose proof (le_val_bounds 8 (powLimit params) ltac:(lia) Hf) as H; rewrite Hl in H; exact H.
Qed.

Lemma mult_bounds (k : Z) : 0 <= k <= 540 * nPowTargetSpacing params ->
  fPowAllowMinDifficultyBlocks params && fPowNoRetargeting params = false ->
  0 <= limit params * k < 2 ^ 256.
Proof.
  intros Hk Hn; destruct (wfp_fits _ Hp) as [H | H]; [congruence |].
  pose proof limit_bounds; pose proof (wfp_spacing _ Hp); split; [nia |].
  eapply Z.le_lt_trans; [| exact H]; apply Z.mul_le_mono_nonneg_l; lia.
Qed.

(** The part of the code after the average is known. *)
Lemma wave_final (avg : list Z) (t : Z) :
  let s := nPowTargetSpacing params in
  fPowAllowMinDifficultyBlocks params && fPowNoRetargeting params = false ->
  wf avg -> val avg <= limit params ->
  60 * s <= t <= 540 * s ->
  exists q c, uint_div (mul_u32 avg (w32 t)) (of_u64 (w64 (nPastBlocks * s))) = Ok q /\
    (let bn := UintToArith256 (powLimit params) in
     get_compact (if gt q bn then bn else q) = Ok c) /\
    encodes c (Z.min (limit params) (val avg * t / (180 * s))) /\ bits_ok (limit params) c.
Proof.
  intros s Hn Hw Hv Ht; pose proof (wfp_spacing _ Hp) as Hs; fold s in Hs.
  pose proof (val_bounds avg Hw).
  assert (Et : w32 t = t) by (apply wrap_id; unfold in_u; lia); rewrite Et.
  assert (Es : w64 (w64 (nPastBlocks * s)) = 180 * s).
  { unfold w64, nPastBlocks; rewrite (wrap_id 64 (180 * s)), wrap_id; unfold in_u; lia. }
  destruct (mul_u32_exact avg t Hw) as [Hmw Hmv]; [unfold in_u; lia | |].
  { eapply Z.le_lt_trans; [| apply (mult_bounds t); [lia | exact Hn]].
    apply Z.mul_le_mono_nonneg_r; lia. }
  destruct (uint_div_ok (mul_u32 avg t) (of_u64 (w64 (nPastBlocks * s))))
    as (q & Eq & Hq & Hqv); auto with hemp; [rewrite val_of_u64, Es; lia |].
  rewrite val_of_u64, Es, Hmv in Hqv.
  destruct (limit_limbs _ (wfp_limit _ Hp)) as [Hlw Hlv].
  destruct (clip_ok q (UintToArith256 (powLimit params)) Hq Hlw) as [Hcw Hcv].
  rewrite Hlv, Hqv in Hcv; fold (limit params) in Hcv.
  destruct (get_compact_ok _ (limit params) Hcw) as (c & Ec & Henc & Hbc);
    [rewrite Hcv; lia |].
  exists q, c; rewrite <- Hcv; auto.
Qed.

Lemma DarkGravityWave_result (pblock : CBlockHeader) (p : nat) : (p < length a)%nat ->
  exists c, DarkGravityWave act a p pblock params = Ok c /\ bits_ok (limit params) c /\
    (fPowAllowMinDifficultyBlocks params && fPowNoRetargeting params = false ->
     encodes c (dgw_value act a p pblock params)).
Proof.
  intros Hpl; unfold DarkGravityWave, dgw_value, deref.
  destruct (nth_error a p) as [b |] eqn:E; [| apply nth_error_None in E; lia]; cbn [bind].
  assert (Hh : height_of a p = nHeight b) by (unfold height_of; rewrite E; reflexivity).
  destruct (limit_limbs _ (wfp_limit _ Hp)) as [Hlw Hlv].
  destruct (get_compact_ok _ (limit params) Hlw) as (lc & El & Henc & Hbc);
    [rewrite Hlv; apply Z.le_refl |].
  rewrite Hlv in Henc; fold (limit params) in Henc.
  rewrite El; cbn [bind]; rewrite Hh, Z.geb_leb; unfold nPastBlocks at 1 2.
  destruct (_ && _); [eauto |]; destruct (nHeight b <? 180) eqn:E180; [eauto |].
  apply Z.ltb_ge in E180.
  destruct (fPowAllowMinDifficultyBlocks params && fPowNoRetargeting params) eqn:En.
  { destruct (_ >? _); [exists lc; split_all; auto; discriminate |].
    destruct (min_difficulty_bits_ok a params lc (limit params) p Hwf Hb Hpl) as (c & -> & Hc).
    exists c; split_all; auto; discriminate. }
  pose proof (wfp_spacing _ Hp) as Hs.
  destruct (dgw_loop_spec act a Hwf (limit params)
    ltac:(apply mult_bounds; [lia | assumption]) Hb (Z.to_nat nPastBlocks) p)
    as (q & avg & Eq & Hq & Hw & Hl & Hv & Hlen); [reflexivity | exact Hpl | lia |].
  rewrite Eq; cbn [bind]; set (N := Z.to_nat nPastBlocks) in *.
  rewrite Z.geb_leb; unfold nPastBlocks at 1.
  rewrite (kawpow_count_full (branch N a p) 180) by (rewrite Hlen; reflexivity).
  destruct ((act <=? h_nTime pblock) && _).
  { destruct (limit_limbs _ (wfp_kawpow _ Hp)) as [Hkw Hkv].
    destruct (get_compact_ok _ (limit params) Hkw) as (c & Ec & Hec & Hbc');
      [rewrite Hkv; apply (wfp_kawpow_le _ Hp) |].
    exists c; rewrite Hkv in Hec; split_all; auto. }
  destruct (ancestor_valid a Hwf p (height_of a p - 179) Hpl ltac:(lia)) as (q' & Hq' & Hql & _).
  rewrite Hq in Hq'; injection Hq' as <-; rewrite <- Hh, Hq.
  destruct (nth_error a q) as [bq |] eqn:Ebq; [| apply nth_error_None in Ebq; lia].
  cbn [bind time_of]; rewrite E, Ebq, dgw_timespan_clamp by apply Hs.
  destruct (wave_final avg (clamp (60 * nPowTargetSpacing params)
     (540 * nPowTargetSpacing params) (nTime b - nTime bq))) as (x & c & Ex & Ec & He & Hbx);
    [exact En | exact Hw | exact Hl | unfold clamp; lia |].
  unfold GetBlockTime; rewrite Ex; cbn [bind]; exists c.
  split; [exact Ec |]; split; [exact Hbx |]; intros _.
  unfold branch_targets; fold N; unfold values in Hv; rewrite <- Hv; exact He.
Qed.

End Wave.

(** C35: the Dark Gravity Wave, away from the rules of the test chain without
    retargeting, always returns a compact target and asks for exactly the
    number [dgw_value]: the limit in the recovery window and on short
    chains, the KAWPOW limit while fewer than 180 of the last 180 blocks are
    KAWPOW blocks, and otherwise the running average of the last 180 targets
    scaled by the time they took over the time they should take, the time
    clamped to a third and three times the expected one and the result to
    the limit.  No intermediate 256-bit product wraps. *)
Theorem DarkGravityWave_correct (a : arena) (params : Params) (pblock : CBlockHeader) (p : nat) :
  wf_index a -> wf_params params -> index_bits_ok (limit params) a -> (p < length a)%nat ->
  fPowAllowMinDifficultyBlocks params && fPowNoRetargeting params = false ->
  exists c, DarkGravityWave act a p pblock params = Ok c /\
            encodes c (dgw_value act a p pblock params).
Proof.
  intros Hwf Hp Hb Hpl Hn.
  destruct (DarkGravityWave_result a params Hwf Hp Hb pblock p Hpl) as (c & E & _ & H); eauto.
Qed.

(** The averaging loop of the Dark Gravity Wave visits exactly the last
    180 blocks and computes their average target with the newest block
    counted twice (181 weights in all), rounded down by less than 90 units. *)
Theorem dgw_loop_average (a : arena) (L : Z) (p : nat) :
  wf_index a -> L * 181 < 2 ^ 256 -> index_bits_ok L a ->
  (p < length a)%nat -> 179 <= height_of a p ->
  exists q avg t0 ts,
    dgw_loop act (Z.to_nat nPastBlocks) 1 a p zero 0
      = Ok (q, avg, kawpow_count act (branch (Z.to_nat nPastBlocks) a p)) /\
    ancestor a p (height_of a p - 179) = Some q /\
    branch_targets a p = t0 :: ts /\ length ts = 179%nat /\
    181 * val avg <= 2 * t0 + sum ts <= 181 * val avg + 16289.
Proof.
  intros Hwf HL Hb Hp Hh.
  destruct (dgw_loop_spec act a Hwf L HL Hb (Z.to_nat nPastBlocks) p eq_refl Hp Hh)
    as (q & avg & E & Hq & _ & _ & Hv & Hlen).
  unfold branch_targets; fold (values (branch (Z.to_nat nPastBlocks) a p)).
  set (l := values (branch (Z.to_nat nPastBlocks) a p)) in *.
  assert (Hl : length l = Z.to_nat nPastBlocks) by (unfold l, values; rewrite length_map; exact Hlen).
  destruct l as [| t0 ts]; [discriminate |].
  exists q, avg, t0, ts; split_all; auto; injection Hl as Hl; unfold dgw_average in Hv;
    pose proof (running_average_bounds ts 2 t0 ltac:(lia)) as [H1 H2];
    rewrite <- Hv, Hl in *; change (Z.of_nat 179) with 179 in *; lia.
Qed.

(** C34: with the Dark Gravity Wave active from the first block on, the work
    required of the next block is defined for every block of the index:
    no assertion fails and no division by zero is thrown; and if every block
    so far has a non-negative target up to the limit then so has the next. *)
Theorem GetNextWorkRequired_valid (dgwBlock : Z) (a : arena) (params : Params)
    (pblock : CBlockHeader) (p : nat) :
  wf_index a -> wf_params params -> index_bits_ok (limit params) a -> (p < length a)%nat ->
  dgwBlock <= 1 -> height_of a p + 1 < 2 ^ 32 ->
  exists c, GetNextWorkRequired act dgwBlock a p pblock params = Ok c /\
            bits_ok (limit params) c.
Proof.
  intros Hwf Hp Hb Hpl Hd Hh; unfold GetNextWorkRequired.
  destruct (DarkGravityWave_result a params Hwf Hp Hb pblock p Hpl) as (c & E & Hc & _).
  pose proof (height_nonneg a Hwf p) as H0; unfold height_of, deref in *.
  destruct (nth_error a p) as [b |] eqn:Ep; [| apply nth_error_None in Ep; lia]; cbn [bind].
  replace (IsDGWActive dgwBlock (w32 (nHeight b + 1))) with true; [eauto |].
  unfold IsDGWActive, w32; rewrite wrap_id by (unfold in_u; lia).
  symmetry; apply Z.geb_le; lia.
Qed.

(** [CheckProofOfWork] accepts exactly the hashes that, read as a number,
    are at most the number the compact target denotes, provided that number
    is positive, at most the limit, and not written with the sign bit. *)
Theorem CheckProofOfWork_correct (hash : list Z) (c : Z) (params : Params) :
  is_uint256 hash -> is_uint256 (powLimit params) -> in_u 32 c ->
  CheckProofOfWork hash c params = true <->
  (Z.testbit c 23 = false /\ 0 < compact_value c <= limit params /\
   le_val 8 hash <= compact_value c).
Proof.
  intros Hh Hl Hc; unfold CheckProofOfWork, limit.
  destruct (limit_limbs _ Hh) as [Hhw <-]; destruct (limit_limbs _ Hl) as [Hlw <-].
  destruct (SetCompact_target c) as [Hw Hv]; [apply Hc |].
  rewrite SetCompact_negative, SetCompact_overflow, EqualTo_spec, !gt_spec
    by (assumption || unfold in_u; lia).
  pose proof (val_bounds _ Hlw); pose proof (compact_value_nonneg c); rewrite Hv.
  destruct (Z.leb_spec (2 ^ 256) (compact_value c)) as [Ho |].
  { rewrite orb_true_r; split; [discriminate | lia]. }
  rewrite (Z.mod_small (compact_value c)) by lia; set (v := compact_value c) in *.
  destruct (Z.eqb_spec v 0), (Z.testbit c 23), (Z.ltb_spec (val (UintToArith256 (powLimit params))) v),
    (Z.ltb_spec v (val (UintToArith256 hash))); cbn [negb andb orb];
    split; try discriminate; try lia; intuition (auto; discriminate || lia).
Qed.

End Correctness.

(** * Witnesses: the main network's parameters on a straight chain *)

Section Witnesses.
Import BaseUint ArithU256.

Definition mainnet : Params := {|
  powLimit := repeat 0xff 29 ++ [0x0f; 0; 0];
  kawpowLimit := repeat 0xff 27 ++ repeat 0 5;
  fPowAllowMinDifficultyBlocks := false;
  fPowNoRetargeting := false;
  nPowTargetSpacing := 5;
  nPowTargetTimespan := 7 * 24 * 60 * 60;
  nDGWFixHeight := 181 |}.

Definition ex_block (i : nat) : CBlockIndex := {|
  phashBlock := Z.of_nat i;
  pprev := match i with O => None | S j => Some j end;
  pskip := None;
  nHeight := Z.of_nat i;
  nChainWork := zero;
  nStatus := 0; nSequenceId := 0; nTimeMax := 0;
  hdr := mkHeader 0 0 0 (1766126932 + 5 * Z.of_nat i) 0x1e0ffff0 0 0 0 0 |}.

Definition ex_line (n : nat) : arena := map ex_block (seq 0 n).

Lemma ex_line_nth (n p : nat) : (p < n)%nat -> nth_error (ex_line n) p = Some (ex_block p).
Proof. intros; unfold ex_line; rewrite nth_error_map, nth_error_seq, (proj2 (Nat.ltb_lt p n)) by auto; reflexivity. Qed.

Lemma ex_line_length (n : nat) : length (ex_line n) = n.
Proof. unfold ex_line; rewrite length_map, length_seq; reflexivity. Qed.

Lemma ex_line_inv (n p : nat) (b : CBlockIndex) : nth_error (ex_line n) p = Some b ->
  (p < n)%nat /\ b = ex_block p.
Proof.
  intros H; assert (p < n)%nat.
  { rewrite <- (ex_line_length n); apply nth_error_Some; congruence. }
  rewrite ex_line_nth in H by assumption; injection H as <-; auto.
Qed.

Lemma ex_line_height (n p : nat) : (p < n)%nat -> height_of (ex_line n) p = Z.of_nat p.
Proof. intros; unfold height_of; rewrite ex_line_nth by assumption; reflexivity. Qed.

Lemma ex_line_wf (n : nat) : wf_index (ex_line n).
Proof.
  intros p b [Hp ->]%ex_line_inv; split; [| apply zero_wf].
  destruct p as [| p]; cbn [ex_block pprev pskip]; [split; reflexivity |].
  rewrite ex_line_height by lia; change (nHeight (ex_block (S p))) with (Z.of_nat (S p)).
  split_all; auto; lia.
Qed.

Lemma ex_line_bits (n : nat) : index_bits_ok (limit mainnet) (ex_line n).
Proof.
  intros p b [_ ->]%ex_line_inv; change (nBits (ex_block p)) with 0x1e0ffff0.
  split; [unfold in_u; lia |]; split; [reflexivity |]; apply Z.leb_le; reflexivity.
Qed.

Lemma is_uint256_check (l : list Z) : Nat.eqb (length l) 32 = true ->
  forallb (fun x => (0 <=? x) && (x <? 256)) l = true -> is_uint256 l.
Proof.
  intros H1 H2; split; [apply Nat.eqb_eq, H1 |].
  apply Forall_forall; intros x Hx; rewrite forallb_forall in H2; specialize (H2 x Hx).
  unfold in_u; bool_to_prop; lia.
Qed.

Lemma mainnet_wf : wf_params mainnet.
Proof.
  split; [apply is_uint256_check; reflexivity .. | | |].
  - apply Z.leb_le; reflexivity.
  - cbn; lia.
  - right; apply Z.ltb_lt; reflexivity.
Qed.

Lemma ex_next_height : height_of (ex_line 400) 399 = 399.
Proof. apply ex_line_height; apply Nat.ltb_lt; reflexivity. Qed.

Lemma ex_next_in : (399 < length (ex_line 400))%nat.
Proof. rewrite ex_line_length; apply Nat.ltb_lt; reflexivity. Qed.

Lemma DarkGravityWave_correct_witness :
  exists c, DarkGravityWave 0 (ex_line 400) 399 (hdr (ex_block 400)) mainnet = Ok c /\
            encodes c (dgw_value 0 (ex_line 400) 399 (hdr (ex_block 400)) mainnet).
Proof.
  exact (DarkGravityWave_correct 0 (ex_line 400) mainnet (hdr (ex_block 400)) 399
    (ex_line_wf 400) mainnet_wf (ex_line_bits 400) ex_next_in eq_refl).
Defined.

Lemma dgw_loop_average_witness : exists q avg,
  dgw_loop 0 (Z.to_nat nPastBlocks) 1 (ex_line 400) 399 zero 0
  = Ok (q, avg, kawpow_count 0 (branch (Z.to_nat nPastBlocks) (ex_line 400) 399)).
Proof.
  destruct (dgw_loop_average 0 (ex_line 400) (limit mainnet) 399 (ex_line_wf 400)
    ltac:(apply Z.ltb_lt; reflexivity) (ex_line_bits 400) ex_next_in
    ltac:(rewrite ex_next_height; lia)) as (q & avg & t0 & ts & E & _).
  exists q, avg; exact E.
Defined.

Lemma GetNextWorkRequired_valid_witness :
  exists c, GetNextWorkRequired 0 1 (ex_line 400) 399 (hdr (ex_block 400)) mainnet = Ok c /\
            bits_ok (limit mainnet) c.
Proof.
  exact (GetNextWorkRequired_valid 0 1 (ex_line 400) mainnet (hdr (ex_block 400)) 399
    (ex_line_wf 400) mainnet_wf (ex_line_bits 400) ex_next_in ltac:(lia)
    ltac:(rewrite ex_next_height; lia)).
Defined.

Lemma CheckProofOfWork_correct_witness :
  CheckProofOfWork (repeat 0xff 28 ++ repeat 0 4) 0x1e0ffff0 mainnet = true <->
  (Z.testbit 0x1e0ffff0 23 = false /\ 0 < compact_value 0x1e0ffff0 <= limit mainnet /\
   le_val 8 (repeat 0xff 28 ++ repeat 0 4) <= compact_value 0x1e0ffff0).
Proof.
  apply (CheckProofOfWork_correct (repeat 0xff 28 ++ repeat 0 4) 0x1e0ffff0 mainnet).
  - apply is_uint256_check; reflexivity.
  - apply is_uint256_check; reflexivity.
  - unfold in_u; lia.
Defined.

End Witnesses.
