(* ===== verification/Headers.v ===== *)
(** Block headers: the checks on a header alone and against the chain it
    extends, and their acceptance into the block index (src/validation.cpp:
    [CheckBlockHeader], [ContextualCheckBlockHeader], [AcceptBlockHeader];
    src/checkpoints.cpp), with the subsidy of a block ([GetBlockSubsidy]).

    The index is the one of [Chain], the required target is the one of [Pow],
    the clock the one of [MedianTime], the version rule asks the deployments
    of [VersionBits].  What the code reads from the rest of the node (the
    time, the peers, the active chain, the options) is the record
    [environment], which may be another one at every call; the header hashes
    are a parameter. *)

From Stdlib Require Import ZArith String List Bool Lia Arith.
From S2P Require Import Prelude ArithUint256 Chain MedianTime VersionBits Pow.
Import ListNotations.
Open Scope Z_scope.

(** * The subsidy *)

Definition GetBlockSubsidy (nSubsidyHalvingInterval : Z) (nHeight : Z) : Z :=
  let halvings := Z.quot nHeight nSubsidyHalvingInterval in
  if halvings >=? 64 then 0 else Z.shiftr (10 * COIN) halvings.

(** * Data *)

Definition BLOCK_VALID_SCRIPTS : Z := 5.
Definition BLOCK_FAILED_VALID : Z := 32.
Definition BLOCK_FAILED_CHILD : Z := 64.
Definition MAX_FUTURE_BLOCK_TIME : Z := 2 * 60 * 60.
Definition MAX_FUTURE_BLOCK_TIME_DGW : Z := Z.quot MAX_FUTURE_BLOCK_TIME 10.

Inductive header_error :=
| HeaderDoS (nDoS : Z) (strRejectReason : string)
| HeaderInvalid (strRejectReason : string)
| BadVersion (nVersion : Z)
| Crashed (e : chain_error).

Definition run_or_crash {A : Type} (r : result chain_error A) : result header_error A :=
  match r with Ok x => Ok x | Err e => Err (Crashed e) end.

(** [GetHash] and [GetHashFull], the latter with the mix hash it computes. *)
Class HeaderHashes := {
  GetHash : CBlockHeader -> Z;
  GetHashFull : CBlockHeader -> Z * Z
}.

(** The members of the chain parameters that headers depend on. *)
Record CChainParams := mkChainParams {
  consensus : Params;
  deployment : deployment_params;
  hashGenesisBlock : Z;
  mapCheckpoints : list (Z * Z);
  nKAWPOWActivationTime : Z;
  nDGWActivationBlock : Z;
  nHeightHeaderCheckActivation : Z
}.

(** What the code reads from the rest of the node: the options, the number of
    connections when there is a connection manager, the clock, the clock
    adjusted to the peers, and the active chain. *)
Record environment := mkEnvironment {
  fCheckpointsEnabled : bool;
  nMaxReorgDepth : Z;
  nMinReorgPeers : Z;
  nMinReorgAge : Z;
  node_count : option Z;
  time_now : Z;
  adjusted_time : Z;
  chainActive : CChain
}.

(** The state that accepting a header changes. *)
Record header_state := mkHeaders {
  blocks : index_state;
  deployed : deployment_state;
  g_failed_blocks : list nat
}.

Section Headers.
Context {hashes : HeaderHashes}.
Variable chainparams : CChainParams.
Variable env : environment.

(** The last checkpoint, by height, whose block is in the index. *)
Definition GetLastCheckpoint (a : arena) : option nat :=
  fold_left (fun found cp => match find_hash a (snd cp) with Some p => Some p | None => found end)
    (mapCheckpoints chainparams) None.

Definition is_kawpow (block : CBlockHeader) : bool := nKAWPOWActivationTime chainparams <=? h_nTime block.

Definition hash_bytes (h : Z) : list Z := le_split 8 32 h.

Definition CheckBlockHeader (a : arena) (block : CBlockHeader) (fCheckPOW : bool) : result header_error unit :=
  let full :=
    let '(hash, mix_hash) := GetHashFull block in
    if fCheckPOW && negb (CheckProofOfWork (hash_bytes hash) (h_nBits block) (consensus chainparams))
    then Err (HeaderDoS 50 "high-hash")
    else if fCheckPOW && is_kawpow block && negb (mix_hash =? h_mix_hash block)
    then Err (HeaderDoS 50 "invalid-mix-hash")
    else Ok tt in
  if fCheckPOW && fCheckpointsEnabled env && is_kawpow block then
    match GetLastCheckpoint a with
    | None => full
    | Some c =>
        let! cp := run_or_crash (deref a c) in
        if h_nHeight block <=? w32 (nHeight cp) then
          if CheckProofOfWork (hash_bytes (GetHash block)) (h_nBits block) (consensus chainparams)
          then Ok tt else Err (HeaderDoS 50 "high-hash")
        else full
    end
  else full.

(** A fork from too deep in the active chain, for a node with enough peers
    whose chain is up to date. *)
Definition check_reorg (a : arena) (height : Z) : result header_error unit :=
  if Height (chainActive env) - (height - 1) >=? nMaxReorgDepth env then
    match node_count env with
    | None => Ok tt
    | Some count =>
        match Tip (chainActive env) with
        | None => Err (Crashed NullDeref)
        | Some t =>
            let! tip := run_or_crash (deref a t) in
            if (nMinReorgPeers env <=? count) && (time_now env - nTime tip <=? nMinReorgAge env)
            then Err (HeaderDoS 10 "bad-fork-prior-to-maxreorgdepth") else Ok tt
        end
    end
  else Ok tt.

Definition check_checkpoint (a : arena) (height : Z) : result header_error unit :=
  if fCheckpointsEnabled env then
    match GetLastCheckpoint a with
    | None => Ok tt
    | Some c =>
        let! cp := run_or_crash (deref a c) in
        if height <? nHeight cp then Err (HeaderDoS 100 "bad-fork-prior-to-checkpoint") else Ok tt
    end
  else Ok tt.

(** The rules that change no state. *)
Definition header_rules (a : arena) (block : CBlockHeader) (pindexPrev : nat) : result header_error unit :=
  let! prev := run_or_crash (deref a pindexPrev) in
  let height := s32 (nHeight prev + 1) in
  let! _ := check_reorg a height in
  let! bits := run_or_crash (GetNextWorkRequired (nKAWPOWActivationTime chainparams) (nDGWActivationBlock chainparams)
                               a pindexPrev block (consensus chainparams)) in
  if negb (h_nBits block =? bits) then Err (HeaderDoS 100 "bad-diffbits")
  else if (0 <=? nHeightHeaderCheckActivation chainparams) && (nHeightHeaderCheckActivation chainparams <=? height)
          && is_kawpow block && negb (h_nHeight block =? w32 height)
  then Err (HeaderDoS 100 "bad-blk-height")
  else
    let! _ := check_checkpoint a height in
    let! past := run_or_crash (GetMedianTimePast a pindexPrev) in
    if h_nTime block <=? past then Err (HeaderInvalid "time-too-old")
    else if h_nTime block >? adjusted_time env +
              (if IsDGWActive (nDGWActivationBlock chainparams) (w32 (nHeight prev + 1)) then MAX_FUTURE_BLOCK_TIME_DGW else MAX_FUTURE_BLOCK_TIME)
    then Err (HeaderInvalid "time-too-new")
    else Ok tt.

Definition ContextualCheckBlockHeader (a : arena) (g : deployment_state) (block : CBlockHeader) (pindexPrev : nat)
  : result header_error unit * deployment_state :=
  match header_rules a block pindexPrev with
  | Err e => (Err e, g)
  | Ok _ =>
      match AreAssetsDeployed (deployment chainparams) a (chainActive env) g with
      | Err e => (Err (Crashed e), g)
      | Ok (assets, g') =>
          (if assets && (h_nVersion block <? VERSIONBITS_TOP_BITS_ASSETS) then Err (BadVersion (h_nVersion block)) else Ok tt, g')
      end
  end.

Definition with_status (b : CBlockIndex) (status : Z) : CBlockIndex :=
  mkIndex (phashBlock b) (pprev b) (pskip b) (nHeight b) (nChainWork b) status (nSequenceId b) (nTimeMax b) (hdr b).

(** [while (invalid_walk != failedit)]: marking the blocks in between. *)
Fixpoint invalid_walk (fuel : nat) (st : index_state) (walk failedit : nat) : result header_error index_state :=
  match fuel with
  | O => Err (Crashed OutOfFuel)
  | S fuel' =>
      if Nat.eqb walk failedit then Ok st
      else
        let! b := run_or_crash (deref (mapBlockIndex st) walk) in
        let a := upd (mapBlockIndex st) walk (with_status b (Z.lor (nStatus b) BLOCK_FAILED_CHILD)) in
        match pprev b with
        | None => Err (Crashed NullDeref)
        | Some q => invalid_walk fuel' (mkState a (pindexBestHeader st) (walk :: setDirtyBlockIndex st)) q failedit
        end
  end.

(** The loop over [g_failed_blocks]: the index marked below the first failed
    block that is an ancestor, if there is one. *)
Fixpoint failed_loop (failed : list nat) (st : index_state) (pindexPrev : nat) : result header_error (option index_state) :=
  match failed with
  | [] => Ok None
  | failedit :: failed' =>
      let! f := run_or_crash (deref (mapBlockIndex st) failedit) in
      let! anc := run_or_crash (GetAncestor (mapBlockIndex st) pindexPrev (nHeight f)) in
      if ptr_eqb anc (Some failedit) then
        if Z.land (nStatus f) BLOCK_FAILED_VALID =? 0 then Err (Crashed AssertFailed)
        else let! st' := invalid_walk (S (length (mapBlockIndex st))) st pindexPrev failedit in Ok (Some st')
      else failed_loop failed' st pindexPrev
  end.

(** The checks on a header that is new; the state they leave. *)
Definition check_new_header (st : header_state) (block : CBlockHeader) : result header_error unit * header_state :=
  let a := mapBlockIndex (blocks st) in
  match CheckBlockHeader a block true with
  | Err e => (Err e, st)
  | Ok _ =>
      match find_hash a (h_hashPrevBlock block) with
      | None => (Err (HeaderDoS 10 "prev-blk-not-found"), st)
      | Some prev =>
          match deref a prev with
          | Err e => (Err (Crashed e), st)
          | Ok b =>
              if negb (Z.land (nStatus b) BLOCK_FAILED_MASK =? 0) then (Err (HeaderDoS 100 "bad-prevblk"), st)
              else
                let '(r, g) := ContextualCheckBlockHeader a (deployed st) block prev in
                let st := mkHeaders (blocks st) g (g_failed_blocks st) in
                match r with
                | Err e => (Err e, st)
                | Ok _ =>
                    if IsValid BLOCK_VALID_SCRIPTS b then (Ok tt, st)
                    else
                      match failed_loop (g_failed_blocks st) (blocks st) prev with
                      | Err e => (Err e, st)
                      | Ok None => (Ok tt, st)
                      | Ok (Some i) => (Err (HeaderDoS 100 "bad-prevblk"), mkHeaders i g (g_failed_blocks st))
                      end
                end
          end
      end
  end.

Definition add_header (st : header_state) (block : CBlockHeader) : result header_error nat * header_state :=
  match AddToBlockIndex GetHash (blocks st) block with
  | Err e => (Err (Crashed e), st)
  | Ok (i, p) => (Ok p, mkHeaders i (deployed st) (g_failed_blocks st))
  end.

Definition AcceptBlockHeader (st : header_state) (block : CBlockHeader) : result header_error nat * header_state :=
  let hash := GetHash block in
  if hash =? hashGenesisBlock chainparams then add_header st block
  else
    match find_hash (mapBlockIndex (blocks st)) hash with
    | Some p =>
        match deref (mapBlockIndex (blocks st)) p with
        | Err e => (Err (Crashed e), st)
        | Ok b => (if negb (Z.land (nStatus b) BLOCK_FAILED_MASK =? 0) then Err (HeaderInvalid "duplicate") else Ok p, st)
        end
    | None =>
        match check_new_header st block with
        | (Err e, st') => (Err e, st')
        | (Ok _, st') => add_header st' block
        end
    end.

(** [LoadGenesisBlock], at the start of the node.  The block files are left
    out, and the status and sequence number that the entry is given with
    them. *)
Definition LoadGenesisBlock (genesis : CBlockHeader) (st : header_state) : header_state :=
  match find_hash (mapBlockIndex (blocks st)) (GetHash genesis) with
  | Some _ => st
  | None => snd (add_header st genesis)
  end.
End Headers.

(** * The supply *)

(** What the blocks below height [n] have created. *)
Fixpoint total_subsidy (interval : Z) (n : nat) : Z :=
  match n with
  | O => 0
  | S n' => total_subsidy interval n' + GetBlockSubsidy interval (Z.of_nat n')
  end.

Lemma subsidy_shift interval h : 0 < interval -> 0 <= h ->
  GetBlockSubsidy interval h = 10 * COIN / 2 ^ (h / interval).
Proof.
  intros I H; unfold GetBlockSubsidy; rewrite Z.quot_div_nonneg by lia; pose proof (Z.div_pos h interval H I).
  rewrite Z.geb_leb; destruct (Z.leb_spec 64 (h / interval)); [|apply Z.shiftr_div_pow2; lia].
  symmetry; apply Z.div_small; split; [unfold COIN; lia|].
  apply Z.lt_le_trans with (2 ^ 64); [unfold COIN; lia|apply Z.pow_le_mono_r; lia].
Qed.

(** The blocks still to come of the current reward, and all the later ones,
    fit in what is left. *)
Lemma supply_left interval n : 0 < interval ->
  let h := Z.of_nat n in
  total_subsidy interval n + (2 * interval - h mod interval) * (10 * COIN / 2 ^ (h / interval)) <= 20 * COIN * interval.
Proof.
  intros I; induction n as [|n IH]; cbv zeta in *.
  - cbn [total_subsidy Z.of_nat]; rewrite Z.mod_0_l, Z.div_0_l by lia; change (2 ^ 0) with 1; rewrite Z.div_1_r; nia.
  - cbn [total_subsidy]; rewrite subsidy_shift by lia; rewrite Nat2Z.inj_succ; unfold Z.succ; set (h := Z.of_nat n) in *.
    pose proof (Z.div_mod h interval ltac:(lia)) as D; pose proof (Z.mod_pos_bound h interval I) as M.
    pose proof (Z.div_pos h interval ltac:(lia) I) as K; set (k := h / interval) in *; set (j := h mod interval) in *.
    set (x := 10 * COIN / 2 ^ k) in *; assert (X : 0 <= x) by (apply Z.div_pos; [unfold COIN|apply Z.pow_pos_nonneg]; lia).
    destruct (Z.eq_dec (j + 1) interval) as [E|E].
    + assert (Ek : (h + 1) / interval = k + 1) by (symmetry; apply (Z.div_unique _ _ _ 0); lia).
      assert (Ej : (h + 1) mod interval = 0) by (symmetry; apply (Z.mod_unique _ _ (k + 1)); lia).
      rewrite Ek, Ej, Z.sub_0_r, Z.pow_add_r, <- Z.div_div by lia; fold x; change (2 ^ 1) with 2.
      pose proof (Z.mul_div_le x 2 ltac:(lia)); nia.
    + assert (Ek : (h + 1) / interval = k) by (symmetry; apply (Z.div_unique _ _ _ (j + 1)); lia).
      assert (Ej : (h + 1) mod interval = j + 1) by (symmetry; apply (Z.mod_unique _ _ k); lia).
      rewrite Ek, Ej; fold x; nia.
Qed.

(** The money supply.  Whatever the height, the subsidies of all blocks
    below it add up to at most twice the first reward times the halving
    interval, 500 million coins on the main network; no subsidy is negative
    or above the one of an earlier block, and none is paid after 30 halvings. *)
Theorem GetBlockSubsidy_supply (interval : Z) (n : nat) : 0 < interval ->
  0 <= total_subsidy interval n <= 20 * COIN * interval /\
  (forall h h', 0 <= h <= h' -> 0 <= GetBlockSubsidy interval h' <= GetBlockSubsidy interval h) /\
  (forall h, 30 * interval <= h -> GetBlockSubsidy interval h = 0).
Proof.
  intros I; assert (P : forall h, 0 <= h -> 0 <= GetBlockSubsidy interval h).
  { intros h H; rewrite subsidy_shift by lia; apply Z.div_pos; [unfold COIN|apply Z.pow_pos_nonneg; [|apply Z.div_pos]]; lia. }
  split; [split|split].
  - induction n as [|n IH]; cbn [total_subsidy]; [lia|specialize (P (Z.of_nat n) ltac:(lia)); lia].
  - pose proof (supply_left interval n I) as L; cbv zeta in L; pose proof (Z.mod_pos_bound (Z.of_nat n) interval I).
    assert (0 <= 10 * COIN / 2 ^ (Z.of_nat n / interval))
      by (apply Z.div_pos; [unfold COIN; lia|apply Z.pow_pos_nonneg; [lia|apply Z.div_pos; lia]]).
    nia.
  - intros h h' [H L]; split; [apply P; lia|]; rewrite !subsidy_shift by lia.
    apply Z.div_le_compat_l; [unfold COIN; lia|]; split; [apply Z.pow_pos_nonneg; [lia|apply Z.div_pos; lia]|].
    apply Z.pow_le_mono_r; [lia|apply Z.div_le_mono; lia].
  - intros h L; rewrite subsidy_shift by lia; apply Z.div_small; split; [unfold COIN; lia|].
    apply Z.lt_le_trans with (2 ^ 30); [unfold COIN; lia|apply Z.pow_le_mono_r; [lia|apply Z.div_le_lower_bound; lia]].
Qed.

Lemma GetBlockSubsidy_supply_witness : 0 <= total_subsidy 3 10 <= 60 * COIN.
Proof. apply (GetBlockSubsidy_supply 3 10); lia. Defined.

(** * What does not depend on the status of the entries *)

(** An entry without its status and sequence number. *)
Definition skeleton (b : CBlockIndex) : CBlockIndex :=
  mkIndex (phashBlock b) (pprev b) (pskip b) (nHeight b) (nChainWork b) 0 0 (nTimeMax b) (hdr b).

Definition same_tree (a a' : arena) : Prop := map skeleton a = map skeleton a'.

Section SameTree.
Variables a a' : arena.
Hypothesis E : same_tree a a'.

Lemma same_entry p b : nth_error a p = Some b -> exists b', nth_error a' p = Some b' /\ skeleton b' = skeleton b.
Proof.
  intros H; assert (X : nth_error (map skeleton a') p = Some (skeleton b)) by (rewrite <- E, nth_error_map, H; reflexivity).
  rewrite nth_error_map in X; destruct (nth_error a' p) as [b'|]; [exists b'; split; [reflexivity|cbn [option_map] in X; congruence]|discriminate].
Qed.

Lemma same_length : length a = length a'.
Proof. rewrite <- (length_map skeleton a), E; apply length_map. Qed.

Lemma same_field {A} (f : CBlockIndex -> A) (F : forall b, f (skeleton b) = f b) p :
  option_map f (nth_error a p) = option_map f (nth_error a' p).
Proof.
  assert (X : nth_error (map f a) p = nth_error (map f a') p).
  { rewrite <- (map_ext _ _ F a), <- (map_ext _ _ F a'), <- !(map_map skeleton f), E; reflexivity. }
  now rewrite !nth_error_map in X.
Qed.

Lemma same_height p : height_of a p = height_of a' p.
Proof.
  pose proof (same_field nHeight (fun _ => eq_refl) p) as X; unfold height_of.
  destruct (nth_error a p), (nth_error a' p); cbn in X; congruence.
Qed.

Lemma same_up n : forall p, up n a p = up n a' p.
Proof.
  induction n as [|n IH]; intros p; cbn [up]; [reflexivity|].
  pose proof (same_field pprev (fun _ => eq_refl) p) as X; destruct (nth_error a p), (nth_error a' p); cbn in X; try congruence.
  injection X as ->; destruct (pprev _); auto.
Qed.

Lemma same_ancestor p h : ancestor a p h = ancestor a' p h.
Proof. unfold ancestor; rewrite same_height; apply same_up. Qed.

Lemma same_times n : forall p acc, past_times n a p acc = past_times n a' p acc.
Proof.
  induction n as [|n IH]; intros [p|] acc; cbn [past_times]; try reflexivity; unfold deref.
  pose proof (same_field (fun b => (pprev b, nTime b)) (fun _ => eq_refl) p) as X.
  destruct (nth_error a p), (nth_error a' p); cbn in X; try congruence; cbn [bind]; [|reflexivity].
  injection X as -> Ht; unfold GetBlockTime; rewrite Ht; apply IH.
Qed.

Lemma same_median p : median a p = median a' p.
Proof. unfold median, GetMedianTimePast; now rewrite same_times. Qed.
End SameTree.

Lemma same_tree_sym a a' : same_tree a a' -> same_tree a' a.
Proof. intros E; symmetry; exact E. Qed.

Lemma same_skeleton b b' : skeleton b' = skeleton b ->
  pprev b' = pprev b /\ pskip b' = pskip b /\ nHeight b' = nHeight b /\ nChainWork b' = nChainWork b /\
  nTimeMax b' = nTimeMax b /\ hdr b' = hdr b /\ phashBlock b' = phashBlock b.
Proof. intros [=]; auto 10. Qed.

Lemma wf_index_same a a' : same_tree a a' -> wf_index a -> wf_index a'.
Proof.
  intros E W p b H; destruct (same_entry a' a (same_tree_sym _ _ E) p b H) as (b0 & H0 & S).
  destruct (same_skeleton _ _ S) as (S1 & S2 & S3 & S4 & _); destruct (W p b0 H0) as [W1 W2].
  rewrite S1, S2, S3 in W1; rewrite S4 in W2; split; [|exact W2].
  destruct (pprev b) as [q|]; [|exact W1]; now rewrite <- (same_height a a' E), <- (same_ancestor a a' E).
Qed.

Lemma times_advance_same a a' : same_tree a a' -> times_advance a -> times_advance a'.
Proof.
  intros E T p b q H Q; destruct (same_entry a' a (same_tree_sym _ _ E) p b H) as (b0 & H0 & S).
  destruct (same_skeleton _ _ S) as (S1 & _ & _ & _ & _ & S6 & _).
  rewrite <- (same_median a a' E); unfold nTime; rewrite <- S6; apply (T p b0 q H0); congruence.
Qed.

Lemma wf_state_same st st' : same_tree (mapBlockIndex st) (mapBlockIndex st') -> pindexBestHeader st' = pindexBestHeader st ->
  wf_state st -> wf_state st'.
Proof.
  intros E B (W & T & N & H); pose proof (same_tree_sym _ _ E) as E'; unfold wf_state; split; [eapply wf_index_same; eauto|].
  split; [|split].
  - intros p b Hp; destruct (same_entry _ _ E' p b Hp) as (b0 & H0 & S).
    destruct (same_skeleton _ _ S) as (S1 & _ & _ & S4 & S5 & S6 & _); specialize (T p b0 H0).
    unfold totals_ok, nTime, nBits in *; rewrite S1, S4, S5, S6 in T; destruct (pprev b) as [q|]; [|exact T].
    destruct T as (pb & Hq & X); destruct (same_entry _ _ E q pb Hq) as (pb' & Hq' & S').
    destruct (same_skeleton _ _ S') as (_ & _ & _ & R4 & R5 & _); exists pb'; rewrite R4, R5; auto.
  - replace (map phashBlock (mapBlockIndex st')) with (map phashBlock (map skeleton (mapBlockIndex st')))
      by (rewrite map_map; reflexivity); rewrite <- E, map_map; exact N.
  - rewrite B; destruct (pindexBestHeader st) as [p|].
    + destruct H as (b & Hb & M); destruct (same_entry _ _ E p b Hb) as (b' & Hb' & S).
      destruct (same_skeleton _ _ S) as (_ & _ & _ & S4 & _); exists b'; split; [exact Hb'|]; intros q c Hq.
      destruct (same_entry _ _ E' q c Hq) as (c0 & Hc & Sc); destruct (same_skeleton _ _ Sc) as (_ & _ & _ & R4 & _).
      rewrite S4, <- R4; apply (M q c0 Hc).
    + unfold same_tree in E; rewrite H in E; cbn in E; now destruct (mapBlockIndex st').
Qed.

(** Changing a status changes nothing else. *)
Lemma upd_status a p b s : nth_error a p = Some b -> same_tree a (upd a p (with_status b s)).
Proof.
  unfold same_tree; revert p; induction a as [|x a IH]; intros [|p] H; try discriminate; cbn [upd map].
  - injection H as ->; reflexivity.
  - f_equal; apply IH, H.
Qed.

(** ** Appending a block *)

Lemma window_app (a : arena) (x : CBlockIndex) : wf_index a -> forall n p, (p < length a)%nat ->
  window n (a ++ [x]) p = window n a p.
Proof.
  intros W; induction n as [|n IH]; intros p P; cbn [window]; [reflexivity|].
  rewrite nth_error_app1 by exact P; destruct (nth_error a p) as [b|] eqn:Eb; [|reflexivity].
  f_equal; destruct (W p b Eb) as [H _]; destruct (pprev b) as [q|]; [|reflexivity].
  destruct H as (Q & _); apply IH; lia.
Qed.

Lemma median_app (a : arena) (x : CBlockIndex) p : wf_index a -> wf_index (a ++ [x]) -> (p < length a)%nat ->
  median (a ++ [x]) p = median a p.
Proof.
  intros W W' P; unfold median; rewrite (median_window a W p P), (median_window (a ++ [x]) W' p) by (rewrite length_app; cbn; lia).
  now rewrite window_app.
Qed.

Lemma times_advance_app (a : arena) (x : CBlockIndex) : wf_index a -> wf_index (a ++ [x]) -> times_advance a ->
  (forall q, pprev x = Some q -> median a q < nTime x) -> times_advance (a ++ [x]).
Proof.
  intros W W' T X p b q H Q.
  assert (L : (q < length a)%nat).
  { destruct (W' p b H) as [Hq _]; rewrite Q in Hq; assert (p < length (a ++ [x]))%nat by (apply nth_error_Some; congruence).
    rewrite length_app in *; cbn in *; lia. }
  rewrite median_app by auto; rewrite nth_error_snoc in H.
  destruct (p <? length a)%nat; [apply (T p b q H Q)|].
  destruct (p =? length a)%nat; [injection H as <-; auto|discriminate].
Qed.

(** * The headers a node accepts *)

Section Acceptance.
Context {hashes : HeaderHashes}.
Variable chainparams : CChainParams.

(** One of the two hashes of the header meets its target. *)
Definition work_shown (block : CBlockHeader) : Prop :=
  CheckProofOfWork (hash_bytes (GetHash block)) (h_nBits block) (consensus chainparams) = true \/
  CheckProofOfWork (hash_bytes (fst (GetHashFull block))) (h_nBits block) (consensus chainparams) = true.

Definition header_entry (b : CBlockIndex) : Prop :=
  phashBlock b = GetHash (hdr b) /\ in_u 32 (nTime b) /\
  match pprev b with
  | None => phashBlock b = hashGenesisBlock chainparams
  | Some _ => work_shown (hdr b)
  end.

Record headers_ok (st : header_state) : Prop := {
  ok_state : wf_state (blocks st);
  ok_times : times_advance (mapBlockIndex (blocks st));
  ok_entries : forall p b, nth_error (mapBlockIndex (blocks st)) p = Some b -> header_entry b;
  ok_genesis : exists p b, nth_error (mapBlockIndex (blocks st)) p = Some b /\ phashBlock b = hashGenesisBlock chainparams
}.

(** The widths of the fields of a header. *)
Definition header_typed (block : CBlockHeader) : Prop := in_u 32 (h_nBits block) /\ in_u 32 (h_nTime block).

(** The node's own genesis block. *)
Record genesis_ok (genesis : CBlockHeader) : Prop := {
  go_hash : GetHash genesis = hashGenesisBlock chainparams;
  go_not_null : hashGenesisBlock chainparams <> 0;
  go_prev : h_hashPrevBlock genesis = 0;
  go_height : h_nHeight genesis = 0;
  go_typed : header_typed genesis
}.

Lemma headers_same st st' : headers_ok st -> same_tree (mapBlockIndex (blocks st)) (mapBlockIndex (blocks st')) ->
  pindexBestHeader (blocks st') = pindexBestHeader (blocks st) -> headers_ok st'.
Proof.
  intros [W T N (pg & bg & Hg & Eg)] E B; split.
  - eapply wf_state_same; eauto.
  - eapply times_advance_same; eauto.
  - intros p b H; destruct (same_entry _ _ (same_tree_sym _ _ E) p b H) as (b0 & H0 & S).
    destruct (same_skeleton _ _ S) as (S1 & _ & _ & _ & _ & S6 & S7); specialize (N p b0 H0).
    unfold header_entry, nTime in *; now rewrite S1, S6, S7 in N.
  - destruct (same_entry _ _ E pg bg Hg) as (b0 & H0 & S); destruct (same_skeleton _ _ S) as (_ & _ & _ & _ & _ & S6 & S7).
    exists pg, b0; split; [exact H0|congruence].
Qed.

Lemma invalid_walk_same fuel : forall st w f st', invalid_walk fuel st w f = Ok st' ->
  same_tree (mapBlockIndex st) (mapBlockIndex st') /\ pindexBestHeader st' = pindexBestHeader st.
Proof.
  induction fuel as [|fuel IH]; intros st w f st'; cbn [invalid_walk]; [discriminate|].
  destruct (Nat.eqb w f); [intros [= <-]; split; reflexivity|]; unfold deref.
  destruct (nth_error (mapBlockIndex st) w) as [b|] eqn:E; cbn [run_or_crash bind]; [|discriminate].
  destruct (pprev b) as [q|]; [|discriminate]; intros H; destruct (IH _ _ _ _ H) as [S B]; cbn [mapBlockIndex pindexBestHeader] in *.
  split; [|exact B]; unfold same_tree in *; rewrite <- S; now apply upd_status.
Qed.

Lemma failed_loop_same failed st prev st' : failed_loop failed st prev = Ok (Some st') ->
  same_tree (mapBlockIndex st) (mapBlockIndex st') /\ pindexBestHeader st' = pindexBestHeader st.
Proof.
  induction failed as [|f failed IH]; cbn [failed_loop]; [discriminate|]; intros H.
  apply bind_ok in H as (b & _ & H); apply bind_ok in H as (anc & _ & H).
  destruct (ptr_eqb anc (Some f)); [|auto]; destruct (_ =? 0); [discriminate|].
  apply bind_ok in H as (i & H & [= <-]); eapply invalid_walk_same, H.
Qed.

Lemma CheckBlockHeader_work env a block : CheckBlockHeader chainparams env a block true = Ok tt -> work_shown block.
Proof.
  unfold CheckBlockHeader, work_shown; cbn [andb].
  assert (F : (let '(hash, mix_hash) := GetHashFull block in
    if negb (CheckProofOfWork (hash_bytes hash) (h_nBits block) (consensus chainparams)) then Err (HeaderDoS 50 "high-hash")
    else if is_kawpow chainparams block && negb (mix_hash =? h_mix_hash block) then Err (HeaderDoS 50 "invalid-mix-hash")
    else Ok tt) = Ok tt -> CheckProofOfWork (hash_bytes (fst (GetHashFull block))) (h_nBits block) (consensus chainparams) = true).
  { destruct (GetHashFull block) as [hash mix]; cbn [fst]; destruct (CheckProofOfWork (hash_bytes hash) _ _); [auto|discriminate]. }
  destruct (fCheckpointsEnabled env && is_kawpow chainparams block); [|auto].
  destruct (GetLastCheckpoint chainparams a) as [c|]; [|auto]; intros H; apply bind_ok in H as (cp & _ & H).
  destruct (_ <=? _); [|auto]; destruct (CheckProofOfWork (hash_bytes (GetHash block)) _ _); [auto|discriminate].
Qed.

Lemma header_rules_time env a block prev : wf_index a -> (prev < length a)%nat ->
  header_rules chainparams env a block prev = Ok tt -> median a prev < h_nTime block.
Proof.
  intros W P H; unfold header_rules in H; apply bind_ok in H as (b & _ & H); apply bind_ok in H as (u & _ & H).
  apply bind_ok in H as (bits & _ & H); destruct (negb _); [discriminate|]; destruct (_ && _ && _ && _); [discriminate|].
  apply bind_ok in H as (u' & _ & H); rewrite (median_eq a W prev P) in H; cbn [run_or_crash bind] in H.
  destruct (Z.leb_spec (h_nTime block) (median a prev)); [discriminate|lia].
Qed.

(** What the checks of a new header establish, and that they only touch the
    status of entries. *)
Lemma check_new_header_ok env st block r st' : headers_ok st ->
  check_new_header chainparams env st block = (r, st') ->
  headers_ok st' /\
  (r = Ok tt -> blocks st' = blocks st /\ work_shown block /\
   exists q, find_hash (mapBlockIndex (blocks st)) (h_hashPrevBlock block) = Some q /\
     median (mapBlockIndex (blocks st)) q < h_nTime block).
Proof.
  intros K; unfold check_new_header; set (a := mapBlockIndex (blocks st)) in *.
  assert (Keep : forall g f, headers_ok (mkHeaders (blocks st) g f)) by (intros g f; eapply headers_same; eauto; reflexivity).
  destruct (CheckBlockHeader chainparams env a block true) as [[]|e] eqn:C; [|intros [= <- <-]; split; [exact K|discriminate]].
  destruct (find_hash a (h_hashPrevBlock block)) as [prev|] eqn:F; [|intros [= <- <-]; split; [exact K|discriminate]].
  destruct (deref a prev) as [b|e]; [|intros [= <- <-]; split; [exact K|discriminate]].
  destruct (negb _); [intros [= <- <-]; split; [exact K|discriminate]|].
  unfold ContextualCheckBlockHeader; destruct (header_rules chainparams env a block prev) as [[]|e] eqn:R;
    [|intros [= <- <-]; split; [apply Keep|discriminate]].
  destruct (find_hash_some a _ prev F) as [P _]; pose proof (header_rules_time env a block prev (proj1 (ok_state _ K)) P R) as Tm.
  assert (Good : forall g, headers_ok (mkHeaders (blocks st) g (g_failed_blocks st)) /\
    (Ok tt = @Ok header_error _ tt -> blocks st = blocks st /\ work_shown block /\
      exists q, Some prev = Some q /\ median a q < h_nTime block)).
  { intros g; split; [apply Keep|]; intros _; split; [reflexivity|]; split; [eapply CheckBlockHeader_work, C|eauto]. }
  destruct (AreAssetsDeployed _ a _ _) as [[assets g]|e]; [|intros [= <- <-]; split; [apply Keep|discriminate]].
  destruct (assets && _); [intros [= <- <-]; split; [apply Keep|discriminate]|].
  destruct (IsValid BLOCK_VALID_SCRIPTS b); [intros [= <- <-]; apply Good|]; cbn [g_failed_blocks blocks].
  destruct (failed_loop (g_failed_blocks st) (blocks st) prev) as [[i|]|e] eqn:L; intros [= <- <-].
  - split; [|discriminate]; destruct (failed_loop_same _ _ _ _ L) as [S B]; eapply headers_same; eauto.
  - apply Good.
  - split; [apply Keep|discriminate].
Qed.

(** Adding a header that passed its checks. *)
Lemma add_header_ok st block r st' : headers_ok st -> header_typed block ->
  find_hash (mapBlockIndex (blocks st)) (GetHash block) = None -> work_shown block ->
  (exists q, find_hash (mapBlockIndex (blocks st)) (h_hashPrevBlock block) = Some q /\
     median (mapBlockIndex (blocks st)) q < h_nTime block) ->
  add_header st block = (r, st') ->
  headers_ok st' /\ exists p b, r = Ok p /\ nth_error (mapBlockIndex (blocks st')) p = Some b /\ phashBlock b = GetHash block.
Proof.
  intros K [Tb Tt] F Ws (q & Q & M); unfold add_header; pose proof K as [W T N (pg & bg & Hg & Eg)]; set (a := mapBlockIndex (blocks st)) in *.
  assert (A : addable GetHash a block) by (split; [exact Tb|split; [congruence|rewrite Q; discriminate]]).
  destruct (AddToBlockIndex_ok GetHash (blocks st) block W A) as (i & p & E & W' & b & Hb & Hh & C); rewrite E.
  intros [= <- <-]; split; [|exists p, b; auto]; cbn [blocks]; fold a in C.
  destruct C as [Same|(App & -> & Hd & Pp)].
  - split; cbn [blocks]; auto; rewrite Same; eauto.
  - split; cbn [blocks]; [exact W'| | |].
    + rewrite App; apply times_advance_app; auto; [apply W|rewrite <- App; apply W'|]; intros q' Q'; unfold nTime; rewrite Hd.
      rewrite Pp in Q'; congruence.
    + rewrite App; intros p' b'; rewrite nth_error_snoc; destruct (p' <? length a)%nat; [apply N|].
      destruct (p' =? length a)%nat; [intros [= <-]|discriminate]; unfold header_entry, nTime; rewrite Hh, Hd, Pp, Q; auto.
    + exists pg, bg; rewrite App, nth_error_app1; [auto|]; apply nth_error_Some; congruence.
Qed.

(** The first block of an empty index. *)
Lemma LoadGenesisBlock_ok genesis g : genesis_ok genesis ->
  headers_ok (LoadGenesisBlock genesis (mkHeaders (mkState [] None []) g [])).
Proof.
  intros [Eg Nz Ep Eh [Tb Tt]]; unfold LoadGenesisBlock, add_header; cbn [blocks mapBlockIndex].
  assert (A : addable GetHash [] genesis) by (split; [exact Tb|split; [congruence|auto]]).
  destruct (AddToBlockIndex_ok GetHash (mkState [] None []) genesis wf_state_empty A) as (i & p & E & W & b & Hb & Hh & C).
  change (find_hash [] (GetHash genesis)) with (@None nat); rewrite E; cbn [snd]; cbn [mapBlockIndex] in C.
  destruct C as [Same|(App & -> & Hd & Pp)]; [rewrite Same in Hb; destruct p; discriminate|]; cbn [app] in App.
  assert (One : forall p b', nth_error (mapBlockIndex i) p = Some b' -> b' = b).
  { rewrite App; intros [|[|]] b' H; cbn in H; congruence. }
  split; cbn [blocks]; [exact W| | |exists 0%nat, b; rewrite App; split; [reflexivity|congruence]].
  - intros p' b' q H Q; rewrite (One _ _ H), Pp in Q; discriminate.
  - intros p' b' H; rewrite (One _ _ H); unfold header_entry, nTime; rewrite Hh, Hd, Pp; auto.
Qed.

(** Another header with the hash of the genesis block changes nothing. *)
Lemma add_genesis_again st block r st' : headers_ok st -> GetHash block = hashGenesisBlock chainparams ->
  add_header st block = (r, st') ->
  headers_ok st' /\ exists p b, r = Ok p /\ nth_error (mapBlockIndex (blocks st')) p = Some b /\ phashBlock b = GetHash block.
Proof.
  intros K G; pose proof K as [W _ _ (pg & bg & Hg & Eg)]; unfold add_header, AddToBlockIndex.
  destruct (find_hash _ (GetHash block)) as [p|] eqn:F.
  - intros [= <- <-]; destruct (find_hash_some _ _ p F) as [_ (b & Hb & Hh)]; split; [|exists p, b; auto].
    eapply headers_same; [exact K|reflexivity|reflexivity].
  - pose proof (find_from_spec (mapBlockIndex (blocks st)) (GetHash block) 0) as S; unfold find_hash in F; rewrite F in S.
    exfalso; apply (S bg); [eapply nth_error_In, Hg|congruence].
Qed.

Lemma AcceptBlockHeader_ok env st block r st' : headers_ok st -> header_typed block ->
  AcceptBlockHeader chainparams env st block = (r, st') ->
  headers_ok st' /\
  (forall p, r = Ok p -> exists b, nth_error (mapBlockIndex (blocks st')) p = Some b /\ phashBlock b = GetHash block).
Proof.
  intros K Ty; unfold AcceptBlockHeader; destruct (Z.eqb_spec (GetHash block) (hashGenesisBlock chainparams)) as [G|G].
  - intros E; destruct (add_genesis_again st block r st' K G E) as (K' & p & b & -> & X); split; [exact K'|].
    intros p' [= <-]; eauto.
  - destruct (find_hash _ (GetHash block)) as [p|] eqn:F.
    + destruct (find_hash_some _ _ p F) as [_ (b & Hb & Hh)]; unfold deref; rewrite Hb; intros [= <- <-].
      split; [exact K|]; intros p' E; destruct (negb _); [discriminate|injection E as <-; eauto].
    + destruct (check_new_header chainparams env st block) as [r1 st1] eqn:C.
      destruct (check_new_header_ok env st block r1 st1 K C) as [K1 H]; destruct r1 as [[]|e].
      * destruct (H eq_refl) as (Eb & Ws & Q); rewrite <- Eb in F, Q; intros E.
        destruct (add_header_ok st1 block r st' K1 Ty F Ws Q E) as (K' & p & b & -> & X).
        split; [exact K'|]; intros p' [= <-]; eauto.
      * intros [= <- <-]; split; [exact K1|discriminate].
Qed.
End Acceptance.

(** The states a node goes through: it starts with its own genesis block and
    is given headers one after the other, whatever the answer; between two of
    them the rest of the validation may change the status and the sequence
    number of entries, the deployments' state and the set of failed blocks. *)
Inductive reachable `{HeaderHashes} (chainparams : CChainParams) (genesis : CBlockHeader) : header_state -> Prop :=
| only_genesis g : reachable chainparams genesis (LoadGenesisBlock genesis (mkHeaders (mkState [] None []) g []))
| header_given env st block r st' : reachable chainparams genesis st -> header_typed block ->
    AcceptBlockHeader chainparams env st block = (r, st') -> reachable chainparams genesis st'
| elsewhere st st' : reachable chainparams genesis st -> same_tree (mapBlockIndex (blocks st)) (mapBlockIndex (blocks st')) ->
    pindexBestHeader (blocks st') = pindexBestHeader (blocks st) -> reachable chainparams genesis st'.

Lemma reachable_ok `{HeaderHashes} chainparams genesis st :
  genesis_ok chainparams genesis -> reachable chainparams genesis st -> headers_ok chainparams st.
Proof.
  intros G R; induction R as [g|env st block r st' R IH Ty E|st st' R IH S B].
  - now apply LoadGenesisBlock_ok.
  - exact (proj1 (AcceptBlockHeader_ok chainparams env st block r st' IH Ty E)).
  - eapply headers_same; eauto.
Qed.

(** The deployments of such an index are what [VersionBits] expects. *)
Lemma reachable_timely `{HeaderHashes} chainparams genesis st (C : ThresholdConditionChecker) :
  genesis_ok chainparams genesis -> reachable chainparams genesis st ->
  Z.of_nat (length (mapBlockIndex (blocks st))) < 2 ^ 31 -> 0 < Period < 2 ^ 31 -> BeginTime <= EndTime ->
  timely (mapBlockIndex (blocks st)).
Proof.
  intros G R L P S; destruct (reachable_ok chainparams genesis st G R) as [W T _ _]; split; auto; [apply W|].
  intros p; unfold run_length; pose proof (height_le_index _ (proj1 W) p).
  destruct (Nat.lt_ge_cases p (length (mapBlockIndex (blocks st)))) as [|Lp]; [lia|].
  unfold height_of; apply nth_error_None in Lp; rewrite Lp; lia.
Qed.

(** C4: a node that starts with its genesis block has, whatever headers it is
    given, in whatever order and with whatever answers, an index that is a
    tree of blocks rooted in the genesis block, with right heights, skip
    pointers and accumulated work and a best header of maximal work; every
    other block shows work for its target and has a time after the median
    time past of its parent, so that the median time past never decreases
    along a chain. *)
Theorem Headers_invariant `{HeaderHashes} (chainparams : CChainParams) (genesis : CBlockHeader) (st : header_state) :
  genesis_ok chainparams genesis -> reachable chainparams genesis st ->
  let a := mapBlockIndex (blocks st) in
  headers_ok chainparams st /\
  (forall p, (p < length a)%nat -> exists g b, ancestor a p 0 = Some g /\ nth_error a g = Some b /\
     phashBlock b = hashGenesisBlock chainparams) /\
  (forall n p q, up n a p = Some q -> median a q <= median a p).
Proof.
  intros G R a; pose proof (reachable_ok chainparams genesis st G R) as K; pose proof K as [W T N _]; pose proof (proj1 W) as Wf.
  split; [exact K|]; split; [|intros n p q; apply median_monotone; auto].
  intros p P; destruct (ancestor_valid a Wf p 0 P) as (g & E & L & _ & Hg); [pose proof (height_nonneg a Wf p); lia|].
  destruct (nth_error a g) as [b|] eqn:Eb; [|apply nth_error_None in Eb; lia]; exists g, b; split_all; auto.
  destruct (N g b Eb) as (_ & _ & X); destruct (Wf g b Eb) as [Y _]; unfold height_of in Hg; rewrite Eb in Hg.
  destruct (pprev b) as [q|]; [|exact X]; destruct Y as (_ & Y & _).
  pose proof (height_nonneg _ Wf q); lia.
Qed.

(** Two headers on top of each other. *)
#[local] Instance example_hashes : HeaderHashes := {
  GetHash b := h_nNonce b;
  GetHashFull b := (h_nNonce b, h_mix_hash b)
}.

Definition example_chainparams : CChainParams := mkChainParams mainnet main_deployments 1 [] 1766126932 1000000 (-1).
Definition example_env : environment := mkEnvironment true 60 4 43200 None 2000 2000 [].
Definition no_deployments : deployment_state := mkGlobals (fun _ => []) false false false false false.
Definition genesis_header : CBlockHeader := mkHeader 1 0 7 1000 0x1e0fffff 1 0 0 0.
Definition second_header : CBlockHeader := mkHeader 1 1 8 1060 0x1e0fffff 2 1 0 0.

Definition given (st : header_state) (block : CBlockHeader) : header_state :=
  snd (AcceptBlockHeader example_chainparams example_env st block).
Definition two_headers : header_state :=
  given (LoadGenesisBlock genesis_header (mkHeaders (mkState [] None []) no_deployments [])) second_header.

Lemma two_headers_reachable : reachable example_chainparams genesis_header two_headers.
Proof.
  unfold two_headers, given; eapply header_given; [apply only_genesis| |apply surjective_pairing].
  split; split; vm_compute; congruence.
Qed.

Lemma Headers_invariant_witness :
  length (mapBlockIndex (blocks two_headers)) = 2%nat /\ headers_ok example_chainparams two_headers.
Proof.
  split; [vm_compute; reflexivity|].
  apply (Headers_invariant example_chainparams genesis_header two_headers); [|exact two_headers_reachable].
  split; try reflexivity; [discriminate|split; split; vm_compute; congruence].
Defined.
