(* ===== verification/BoolEE.v ===== *)
(** The evaluator of restricted-asset verifier strings (src/LibBoolEE.cpp):
    a formula over qualifier names with [!], [&], [|] and parentheses is
    split at its top-level operators and evaluated under a valuation.  It is
    proved to terminate on every input and to agree, with the usual
    precedences, with the evaluation of the formula that was printed. *)

From Stdlib Require Import ZArith Ascii String List Bool Lia Arith.
From S2P Require Import Prelude.
Import ListNotations.
Open Scope Z_scope.

Definition str := list ascii.

(** [ErrorReport]: what is reported when an evaluation throws. *)
Inductive ErrorType :=
| NotSetError | InvalidQualifierName | EmptyString | LengthToLarge
| InvalidSubExpressionFormula | InvalidSyntax | AssetDoesntExist
| FailedToVerifyAgainstAddress | EmptySubExpression | UnknownOperator
| ParenthesisParity | VariableNotFound.

Record ErrorReport := mkReport {
  type : ErrorType;
  vecUserData : list str;
  strDevData : string
}.

Inductive eval_error := Throw (r : ErrorReport) | NoFuel.

Definition Vals := list (str * bool).

(** * Characters *)

Definition code (c : ascii) : Z := Z.of_nat (nat_of_ascii c).

Definition isalnum (c : ascii) : bool :=
  ((48 <=? code c) && (code c <=? 57)) ||
  ((65 <=? code c) && (code c <=? 90)) ||
  ((97 <=? code c) && (code c <=? 122)).

Definition isspace (c : ascii) : bool :=
  (code c =? 32) || ((9 <=? code c) && (code c <=? 13)).

Definition belongsToName (c : ascii) : bool :=
  isalnum c || Ascii.eqb c "_" || Ascii.eqb c "#" || Ascii.eqb c ".".

Definition removeWhitespaces (source : str) : str :=
  filter (fun c => negb (isspace c)) source.

Definition removeCharacter (source : str) (ch : ascii) : str :=
  filter (fun c => negb (Ascii.eqb ch c)) source.

Fixpoint str_eqb (s t : str) : bool :=
  match s, t with
  | [], [] => true
  | c :: s', d :: t' => Ascii.eqb c d && str_eqb s' t'
  | _, _ => false
  end.

Definition substr (s : str) (pos n : nat) : str := firstn n (skipn pos s).

(** * Splitting at the top-level operator *)

Definition name_start (c : ascii) : bool := belongsToName c || Ascii.eqb c "!".

(** The loop of [singleParse] over the characters [rest] from index [i]:
    [start_pos] ([None] for -1), the parenthesis count and the pieces. *)
Fixpoint parse_loop (op : ascii) (formula rest : str) (i : nat)
    (start_pos : option nat) (parity_count : Z) (subs : list str)
  : result eval_error (option nat * Z * list str) :=
  match rest with
  | [] => Ok (start_pos, parity_count, subs)
  | c :: rest' =>
      let next := parse_loop op formula rest' (S i) in
      if Ascii.eqb c ")" then next start_pos (parity_count - 1) subs
      else if Ascii.eqb c "(" then
        next (match start_pos with None => Some i | _ => start_pos end)
             (parity_count + 1) subs
      else if parity_count =? 0 then
        match start_pos with
        | None => next (if name_start c then Some i else None) parity_count subs
        | Some s =>
            if negb (name_start c) then
              if Ascii.eqb op c
              then next (Some (S i)) parity_count (subs ++ [substr formula s (i - s)])
              else if negb (Ascii.eqb c "&") && negb (Ascii.eqb c "|")
              then Err (Throw (mkReport EmptySubExpression [[c]; formula]
                                 "invalid-verifier-unknown-operator-in-expression"))
              else next start_pos parity_count subs
            else next start_pos parity_count subs
        end
      else next start_pos parity_count subs
  end.

Definition singleParse (formula : str) (op : ascii) : result eval_error (list str) :=
  let! r := parse_loop op formula formula 0 None 0 [] in
  let '(start_pos, parity_count, subs) := r in
  let subexpressions :=
    match start_pos with
    | Some s => subs ++ [substr formula s (length formula - s)]
    | None => subs
    end in
  if negb (parity_count =? 0)
  then Err (Throw (mkReport ParenthesisParity [formula] "invalid-verifier-parenthesis-parity"))
  else Ok subexpressions.

(** * Evaluation *)

Fixpoint lookup (v : Vals) (name : str) : option bool :=
  match v with
  | [] => None
  | (n, b) :: v' => if str_eqb n name then Some b else lookup v' name
  end.

(** The loops [result |= resolve(...)] and [result &= resolve(...)]: every
    piece is evaluated, in order. *)
Fixpoint fold_resolve (resolve : str -> result eval_error bool) (f : bool -> bool -> bool)
    (result0 : bool) (l : list str) : result eval_error bool :=
  match l with
  | [] => Ok result0
  | s :: l' => let! b := resolve s in fold_resolve resolve f (f result0 b) l'
  end.

(** No binary operator at the top level. *)
Definition resolve_single (resolve : str -> result eval_error bool) (v : Vals)
    (c0 : ascii) (source1 : str) : result eval_error bool :=
  let source := c0 :: source1 in
  if Ascii.eqb c0 "!" then let! b := resolve source1 in Ok (negb b)
  else if Ascii.eqb c0 "(" then resolve (substr source 1 (length source - 2))
  else if str_eqb source ["1"%char] then Ok true
  else if str_eqb source ["0"%char] then Ok false
  else match lookup v source with
       | None => Err (Throw (mkReport VariableNotFound [source]
                               "bad-txns-null-verifier-variable-not-found"))
       | Some b => Ok b
       end.

Definition resolveRec (resolve : str -> result eval_error bool) (v : Vals) (source : str)
  : result eval_error bool :=
  match source with
  | [] => Err (Throw (mkReport EmptySubExpression [source]
                        "bad-txns-null-verifier-empty-sub-expression"))
  | c0 :: source1 =>
      let! ors := singleParse source "|" in
      let! r :=
        if Nat.eqb (length ors) 1
        then let! ands := singleParse source "&" in Ok ("&"%char, ands)
        else Ok ("|"%char, ors) in
      let '(current_op, subexpressions) := r in
      match subexpressions with
      | [] => Err (Throw (mkReport InvalidQualifierName [source]
                            "bad-txns-null-verifier-no-sub-expressions"))
      | [_] => resolve_single resolve v c0 source1
      | _ =>
          if Ascii.eqb current_op "|"
          then fold_resolve resolve orb false subexpressions
          else fold_resolve resolve andb true subexpressions
      end
  end.

Fixpoint resolve_fuel (fuel : nat) (v : Vals) (source : str) : result eval_error bool :=
  match fuel with
  | O => Err NoFuel
  | S fuel' => resolveRec (resolve_fuel fuel' v) v (removeWhitespaces source)
  end.

(** Every recursive call is on a strictly shorter string, so the length of
    the input bounds the depth of the recursion. *)
Definition resolve (source : str) (v : Vals) : result eval_error bool :=
  resolve_fuel (S (length source)) v source.

(** * Formulas and how they are written *)

Inductive formula :=
| FConst (b : bool)
| FVar (name : str)
| FNot (f : formula)
| FAnd (f g : formula)
| FOr (f g : formula).

Definition parens (b : bool) (w : str) : str :=
  if b then "("%char :: w ++ [")"%char] else w.

(** Printing with the fewest parentheses: level 0 is the argument of [|],
    level 1 of [&], level 2 of [!]. *)
Fixpoint print (level : nat) (f : formula) : str :=
  match f with
  | FConst b => [if b then "1"%char else "0"%char]
  | FVar n => n
  | FNot g => "!"%char :: print 2 g
  | FAnd g h => parens (Nat.ltb 1 level) (print 1 g ++ "&"%char :: print 1 h)
  | FOr g h => parens (Nat.ltb 0 level) (print 0 g ++ "|"%char :: print 0 h)
  end.

Fixpoint eval (v : Vals) (f : formula) : bool :=
  match f with
  | FConst b => b
  | FVar n => match lookup v n with Some b => b | None => false end
  | FNot g => negb (eval v g)
  | FAnd g h => eval v g && eval v h
  | FOr g h => eval v g || eval v h
  end.

(** Names are non-empty, made of name characters, not a constant, and have
    a value. *)
Definition good_name (v : Vals) (n : str) : bool :=
  negb (Nat.eqb (length n) 0) && forallb belongsToName n &&
  negb (str_eqb n ["1"%char]) && negb (str_eqb n ["0"%char]) &&
  match lookup v n with Some _ => true | None => false end.

Fixpoint good (v : Vals) (f : formula) : bool :=
  match f with
  | FConst _ => true
  | FVar n => good_name v n
  | FNot g => good v g
  | FAnd g h | FOr g h => good v g && good v h
  end.

(** The arguments of the outermost run of [|] and of [&]. *)
Fixpoint disjuncts (f : formula) : list formula :=
  match f with FOr g h => disjuncts g ++ disjuncts h | _ => [f] end.
Fixpoint conjuncts (f : formula) : list formula :=
  match f with FAnd g h => conjuncts g ++ conjuncts h | _ => [f] end.

Fixpoint join (op : ascii) (l : list str) : str :=
  match l with
  | [] => []
  | [w] => w
  | w :: l' => w ++ op :: join op l'
  end.

(** * Termination *)

Lemma removeWhitespaces_length (s : str) : (length (removeWhitespaces s) <= length s)%nat.
Proof. apply filter_length_le. Qed.

(** Pieces are shorter than the string they are cut from: an operator
    separates any two of them. *)
Definition piece_inv (n i : nat) (start : option nat) (subs : list str) : Prop :=
  Forall (fun w => (length w < n)%nat) subs /\
  (subs <> [] -> match start with Some s => (0 < s)%nat | None => False end).

Lemma parse_loop_pieces (op : ascii) (formula rest : str) : forall i start parity subs r,
  (i + length rest = length formula)%nat ->
  piece_inv (length formula) i start subs ->
  parse_loop op formula rest i start parity subs = Ok r ->
  piece_inv (length formula) (length formula) (fst (fst r)) (snd r).
Proof.
  induction rest as [| c rest IH]; intros i start parity subs r Hi Hinv H;
    cbn [parse_loop] in H; [injection H as <-; exact Hinv |].
  cbn [length] in Hi; destruct Hinv as [H1 H2].
  repeat match type of H with
  | (if ?b then _ else _) = _ => destruct b
  | match ?s with Some _ => _ | None => _ end = _ => destruct s as [s |]
  end; try discriminate; eapply IH in H; eauto; try lia; split; auto.
  - intros Hs; specialize (H2 Hs); destruct start; [assumption | contradiction].
  - apply Forall_app; split; [exact H1 |]; constructor; [| constructor].
    unfold substr; rewrite length_firstn; lia.
  - intros _; lia.
  - intros Hs; destruct (H2 Hs).
Qed.

Lemma singleParse_pieces (formula : str) (op : ascii) (l : list str) :
  singleParse formula op = Ok l -> (2 <= length l)%nat ->
  Forall (fun w => (length w < length formula)%nat) l.
Proof.
  intros H Hl; unfold singleParse in H; apply bind_ok in H.
  destruct H as ([[start parity] subs] & E & H).
  apply parse_loop_pieces in E; [| reflexivity | split; [constructor | congruence]].
  destruct E as [H1 H2]; cbn [fst snd] in *.
  destruct (negb (parity =? 0)); [discriminate |]; injection H as <-.
  destruct start as [s |]; [| exact H1].
  apply Forall_app; split; [exact H1 |]; constructor; [| constructor].
  unfold substr; rewrite length_firstn.
  destruct subs as [| w subs]; [simpl in Hl; lia |].
  specialize (H2 ltac:(discriminate)).
  assert (0 < length formula)%nat by (inv H1; lia); lia.
Qed.

Lemma fold_resolve_ext (r1 : str -> result eval_error bool) (f : bool -> bool -> bool)
    (l : list str) : forall b,
  Forall (fun w => r1 w <> Err NoFuel) l -> fold_resolve r1 f b l <> Err NoFuel.
Proof.
  induction l as [| w l IH]; intros b H; cbn [fold_resolve]; [discriminate |].
  inv H; destruct (r1 w); cbn [bind]; auto.
Qed.

Lemma singleParse_total (s : str) (op : ascii) : singleParse s op <> Err NoFuel.
Proof.
  assert (Hloop : forall rest formula i start parity subs,
    parse_loop op formula rest i start parity subs <> Err NoFuel).
  { induction rest as [| c rest IH]; intros; cbn [parse_loop]; [discriminate |].
    repeat case_if; auto; destruct start; repeat case_if; auto; discriminate. }
  unfold singleParse; specialize (Hloop s s 0%nat None 0 []).
  destruct parse_loop as [[[st pa] su] | e]; cbn [bind]; [| congruence].
  destruct (negb _); discriminate.
Qed.

Lemma resolve_fuel_total (v : Vals) (fuel : nat) : forall s, (length s < fuel)%nat ->
  resolve_fuel fuel v s <> Err NoFuel.
Proof.
  induction fuel as [| fuel IH]; intros s Hs; [lia |].
  cbn [resolve_fuel]; pose proof (removeWhitespaces_length s) as Hr.
  set (t := removeWhitespaces s) in *; destruct t as [| c t]; [discriminate |].
  cbn [resolveRec]; pose proof (singleParse_total (c :: t)) as HT.
  destruct (singleParse (c :: t) "|") as [ors | e] eqn:Eo; cbn [bind];
    [| specialize (HT "|"%char); congruence].
  assert (Hmany : forall l op f b, singleParse (c :: t) op = Ok l -> (2 <= length l)%nat ->
            fold_resolve (resolve_fuel fuel v) f b l <> Err NoFuel).
  { intros l op f b El Hl; apply fold_resolve_ext.
    eapply Forall_impl; [| eapply singleParse_pieces; eauto].
    intros w Hw; apply IH; cbn beta in *; lia. }
  assert (Hone : resolve_single (resolve_fuel fuel v) v c t <> Err NoFuel).
  { unfold resolve_single; cbn [length] in *; repeat case_if; try discriminate.
    - specialize (IH t ltac:(lia)); destruct (resolve_fuel fuel v t); cbn [bind]; congruence.
    - apply IH; unfold substr; rewrite length_firstn; lia.
    - destruct (lookup v (c :: t)); discriminate. }
  destruct (Nat.eqb_spec (length ors) 1) as [_ | Hne].
  - destruct (singleParse (c :: t) "&") as [ands | e] eqn:Ea; cbn [bind];
      [| specialize (HT "&"%char); congruence].
    destruct ands as [| x [| y l]]; [discriminate | exact Hone |].
    apply (Hmany _ "&"%char); [assumption | simpl; lia].
  - cbn [bind]; destruct ors as [| x [| y l]]; [discriminate | simpl in Hne; lia |].
    apply (Hmany _ "|"%char); [assumption | simpl; lia].
Qed.

(** * Printed formulas are split where they were joined *)

(** Scanning [w] inside a piece, at parenthesis depth [d], changes nothing. *)
Definition inert (op : ascii) (d : Z) (w : str) : Prop :=
  forall formula rest i s subs,
    parse_loop op formula (w ++ rest) i (Some s) d subs =
    parse_loop op formula rest (i + length w) (Some s) d subs.

Lemma inert_nil op d : inert op d [].
Proof. intros formula rest i s subs; rewrite Nat.add_0_r; reflexivity. Qed.

Lemma inert_app op d w1 w2 : inert op d w1 -> inert op d w2 -> inert op d (w1 ++ w2).
Proof.
  intros H1 H2 formula rest i s subs; rewrite <- app_assoc, H1, H2.
  rewrite length_app, Nat.add_assoc; reflexivity.
Qed.

Lemma inert_parens op d w : 0 <= d -> inert op (d + 1) w -> inert op d ("("%char :: w ++ [")"%char]).
Proof.
  intros Hd Hw formula rest i s subs.
  cbn [app parse_loop]; change (Ascii.eqb "(" ")") with false; change (Ascii.eqb "(" "(") with true.
  cbn match; rewrite <- app_assoc, Hw; cbn [app parse_loop].
  change (Ascii.eqb ")" ")") with true; cbn match; rewrite Z.add_simpl_r; f_equal.
  cbn [length]; rewrite length_app; simpl; lia.
Qed.

(** A character that starts a name is not an operator nor a parenthesis. *)
Lemma name_start_spec (c : ascii) : name_start c = true ->
  Ascii.eqb c ")" = false /\ Ascii.eqb c "(" = false /\ isspace c = false.
Proof.
  destruct c as [b0 b1 b2 b3 b4 b5 b6 b7].
  destruct b0, b1, b2, b3, b4, b5, b6, b7; vm_compute; intros H; try discriminate; auto.
Qed.

Lemma inert_name op d w : forallb name_start w = true -> inert op d w.
Proof.
  induction w as [| c w IH]; intros H; [apply inert_nil |].
  cbn [forallb] in H; apply andb_prop in H; destruct H as [Hc Hw].
  intros formula rest i s subs; cbn [app parse_loop length].
  destruct (name_start_spec c Hc) as (-> & -> & _); rewrite Hc; cbn [negb].
  rewrite Nat.add_succ_r, <- Nat.add_succ_l, <- (IH Hw formula rest (S i) s subs).
  destruct (d =? 0); reflexivity.
Qed.

(** Operators do not matter inside parentheses, nor [&] when splitting at [|]. *)
Lemma inert_op op d c : (c = "&"%char \/ c = "|"%char) ->
  (0 < d \/ (c = "&"%char /\ op = "|"%char)) -> inert op d [c].
Proof.
  intros Hc Hd formula rest i s subs; cbn [app parse_loop length]; rewrite Nat.add_1_r.
  destruct Hc as [-> | ->].
  - change (Ascii.eqb "&" ")") with false; change (Ascii.eqb "&" "(") with false; cbn match.
    destruct (Z.eqb_spec d 0) as [-> |]; [| reflexivity].
    destruct Hd as [| [_ ->]]; [lia | reflexivity].
  - change (Ascii.eqb "|" ")") with false; change (Ascii.eqb "|" "(") with false; cbn match.
    destruct (Z.eqb_spec d 0) as [-> |]; [| reflexivity].
    destruct Hd as [| [? _]]; [lia | discriminate].
Qed.

Section Printed.

Variable v : Vals.

Lemma good_name_chars (n : str) : good_name v n = true ->
  n <> [] /\ forallb name_start n = true /\ str_eqb n ["1"%char] = false /\
  str_eqb n ["0"%char] = false /\ lookup v n <> None.
Proof.
  unfold good_name; intros H; bool_to_prop; split_all; auto.
  - intros ->; discriminate.
  - rewrite forallb_forall in *; intros c Hc; unfold name_start; rewrite H3; auto.
  - destruct (lookup v n); discriminate.
Qed.

(** A formula printed as an argument of [|] has no [|] outside parentheses,
    one printed as an argument of [&] or [!] has no operator there, and
    inside parentheses nothing matters. *)
Lemma print_inert (f : formula) : good v f = true -> forall op d level, 0 <= d ->
  (0 < d \/ (1 <= level)%nat /\ op = "|"%char \/ (2 <= level)%nat) ->
  inert op d (print level f).
Proof.
  induction f as [b | n | f IH | f IHf g IHg | f IHf g IHg]; intros Hg op d level Hd H;
    cbn [print good] in *.
  - apply inert_name; destruct b; reflexivity.
  - apply inert_name, good_name_chars, Hg.
  - apply (inert_app op d ["!"%char]); [apply inert_name; reflexivity | apply IH; auto; intuition lia].
  - apply andb_prop in Hg; destruct Hg as [Hf Hg]; unfold parens.
    destruct (Nat.ltb_spec 1 level); [apply inert_parens; [lia |] |];
      (apply inert_app; [apply IHf; auto; intuition lia |]; apply (inert_app op _ ["&"%char]);
       [apply inert_op; auto; intuition lia | apply IHg; auto; intuition lia]).
  - apply andb_prop in Hg; destruct Hg as [Hf Hg]; unfold parens.
    destruct (Nat.ltb_spec 0 level); [apply inert_parens; [lia |] |];
      (apply inert_app; [apply IHf; auto; intuition lia |]; apply (inert_app op _ ["|"%char]);
       [apply inert_op; auto; intuition lia | apply IHg; auto; intuition lia]).
Qed.

(** A printed formula starts a piece. *)
Lemma print_first (f : formula) : good v f = true -> forall level,
  exists c w, print level f = c :: w /\ (name_start c = true \/ c = "("%char).
Proof.
  induction f as [b | n | f IH | f IHf g IHg | f IHf g IHg]; intros Hg level; cbn [print good] in *.
  - destruct b; eauto.
  - destruct (good_name_chars n Hg) as (Hne & Hn & _).
    destruct n as [| c n]; [congruence |]; cbn [forallb] in Hn; bool_to_prop; eauto.
  - eauto.
  - apply andb_prop in Hg; destruct Hg as [Hf _]; unfold parens.
    destruct (Nat.ltb 1 level); [eauto |]; destruct (IHf Hf 1%nat) as (c & w & -> & Hc); simpl; eauto.
  - apply andb_prop in Hg; destruct Hg as [Hf _]; unfold parens.
    destruct (Nat.ltb 0 level); [eauto |]; destruct (IHf Hf 0%nat) as (c & w & -> & Hc); simpl; eauto.
Qed.

Lemma substr_middle (pre w post : str) : substr (pre ++ w ++ post) (length pre) (length w) = w.
Proof.
  unfold substr; rewrite skipn_app, skipn_all, Nat.sub_diag; cbn [app skipn].
  rewrite firstn_app, Nat.sub_diag, firstn_all; apply app_nil_r.
Qed.

Definition is_op (op : ascii) : Prop := op = "&"%char \/ op = "|"%char.

Lemma parse_join (op : ascii) : is_op op -> forall ws pre subs, ws <> [] ->
  Forall (inert op 0) ws ->
  let formula := pre ++ join op ws in
  exists s subs', parse_loop op formula (join op ws) (length pre) (Some (length pre)) 0 subs
      = Ok (Some s, 0, subs') /\
    subs' ++ [substr formula s (length formula - s)] = subs ++ ws.
Proof.
  intros Hop; induction ws as [| w ws IH]; intros pre subs Hne Hin formula; [congruence |].
  inversion Hin as [| ? ? Hw Hws]; subst; destruct ws as [| w2 ws].
  - cbn [join] in *; exists (length pre), subs; split.
    + pose proof (Hw formula [] (length pre) (length pre) subs) as E; rewrite app_nil_r in E; exact E.
    + do 2 f_equal; unfold formula; rewrite length_app, Nat.add_comm, Nat.add_sub.
      pose proof (substr_middle pre w []) as E; rewrite app_nil_r in E; exact E.
  - change (join op (w :: w2 :: ws)) with (w ++ op :: join op (w2 :: ws)) in *.
    destruct (IH (pre ++ w ++ [op]) (subs ++ [w]) ltac:(discriminate) Hws)
      as (s & subs' & E & Hs).
    assert (Ef : (pre ++ w ++ [op]) ++ join op (w2 :: ws) = formula).
    { unfold formula; rewrite <- !app_assoc; reflexivity. }
    rewrite Ef in E, Hs; exists s, subs'; split.
    + rewrite Hw; cbn [parse_loop]; set (J := join op (w2 :: ws)) in *.
      assert (Esub : substr formula (length pre) (length pre + length w - length pre) = w).
      { rewrite Nat.add_comm, Nat.add_sub; unfold formula; apply (substr_middle pre w). }
      rewrite Esub; replace (S (length pre + length w)) with (length (pre ++ w ++ [op]))
        by (rewrite !length_app; simpl; lia).
      destruct Hop as [-> | ->]; exact E.
    + rewrite Hs, <- app_assoc; reflexivity.
Qed.

Lemma singleParse_join (op c : ascii) (t : str) (ws : list str) : is_op op -> ws <> [] ->
  Forall (inert op 0) ws -> join op ws = c :: t -> (name_start c = true \/ c = "("%char) ->
  singleParse (c :: t) op = Ok ws.
Proof.
  intros Hop Hne Hin Ej Hc; unfold singleParse.
  destruct (parse_join op Hop ws [] [] Hne Hin) as (s & subs & E & Hs).
  cbn [app length] in E, Hs; rewrite Ej in E, Hs.
  assert (E0 : parse_loop op (c :: t) (c :: t) 0 None 0 [] =
               parse_loop op (c :: t) (c :: t) 0 (Some 0%nat) 0 []).
  { destruct Hc as [Hc | ->]; [| reflexivity]; cbn [parse_loop].
    destruct (name_start_spec c Hc) as (-> & -> & _); rewrite Hc; reflexivity. }
  rewrite E0, E; cbn [bind negb Z.eqb]; rewrite Hs; reflexivity.
Qed.

Lemma join_app (op : ascii) (l m : list str) : l <> [] -> m <> [] ->
  join op (l ++ m) = join op l ++ op :: join op m.
Proof.
  intros Hl Hm; induction l as [| w l IH]; [congruence |].
  destruct l as [| w2 l].
  - destruct m as [| x m]; [congruence |]; reflexivity.
  - change (join op ((w :: w2 :: l) ++ m)) with (w ++ op :: join op ((w2 :: l) ++ m)).
    rewrite IH by discriminate; change (join op (w :: w2 :: l)) with (w ++ op :: join op (w2 :: l)).
    rewrite <- app_assoc; reflexivity.
Qed.

Lemma disjuncts_spec (f : formula) :
  disjuncts f <> [] /\ print 0 f = join "|" (map (print 1) (disjuncts f)) /\
  eval v f = existsb (eval v) (disjuncts f) /\ good v f = forallb (good v) (disjuncts f).
Proof.
  induction f as [| | | | f IHf g IHg]; cbn [disjuncts map join existsb forallb];
    rewrite ?orb_false_r, ?andb_true_r; try (split_all; auto; discriminate).
  destruct IHf as (H1 & H2 & H3 & H4), IHg as (H1' & H2' & H3' & H4').
  rewrite existsb_app, forallb_app, map_app, join_app by
    (intros E; apply map_eq_nil in E; congruence).
  cbn [print eval good]; unfold parens; cbn [Nat.ltb Nat.leb].
  rewrite <- H2, <- H2', <- H3, <- H3', <- H4, <- H4'; split_all; auto.
  intros E; apply app_eq_nil in E; intuition.
Qed.

Lemma conjuncts_spec (f : formula) :
  conjuncts f <> [] /\ print 1 f = join "&" (map (print 2) (conjuncts f)) /\
  eval v f = forallb (eval v) (conjuncts f) /\ good v f = forallb (good v) (conjuncts f).
Proof.
  induction f as [| | | f IHf g IHg |]; cbn [conjuncts map join forallb];
    rewrite ?andb_true_r; try (split_all; auto; discriminate).
  destruct IHf as (H1 & H2 & H3 & H4), IHg as (H1' & H2' & H3' & H4').
  rewrite !forallb_app, map_app, join_app by
    (intros E; apply map_eq_nil in E; congruence).
  cbn [print eval good]; unfold parens; cbn [Nat.ltb Nat.leb].
  rewrite <- H2, <- H2', <- H3, <- H3', <- H4, <- H4'; split_all; auto.
  intros E; apply app_eq_nil in E; intuition.
Qed.

Lemma print_no_space (f : formula) : good v f = true -> forall level,
  removeWhitespaces (print level f) = print level f.
Proof.
  assert (Happ : forall s t, removeWhitespaces (s ++ t) = removeWhitespaces s ++ removeWhitespaces t)
    by (intros; apply filter_app).
  assert (Hp : forall b w, removeWhitespaces w = w -> removeWhitespaces (parens b w) = parens b w).
  { intros [|] w Hw; [| exact Hw]; unfold parens.
    change ("("%char :: w ++ [")"%char]) with (["("%char] ++ w ++ [")"%char]).
    rewrite !Happ, Hw; reflexivity. }
  induction f as [b | n | f IH | f IHf g IHg | f IHf g IHg]; intros Hg level; cbn [print good] in *.
  - destruct b; reflexivity.
  - apply good_name_chars in Hg; destruct Hg as (_ & Hn & _).
    induction n as [| c n IHn]; [reflexivity |]; cbn [forallb] in Hn; bool_to_prop.
    cbn [removeWhitespaces filter]; destruct (name_start_spec c) as (_ & _ & ->); auto.
    cbn [negb]; f_equal; auto.
  - change ("!"%char :: print 2 f) with (["!"%char] ++ print 2 f); rewrite Happ, IH by auto; reflexivity.
  - apply andb_prop in Hg; destruct Hg; apply Hp.
    change ("&"%char :: print 1 g) with (["&"%char] ++ print 1 g).
    rewrite !Happ, IHf, IHg by auto; reflexivity.
  - apply andb_prop in Hg; destruct Hg; apply Hp.
    change ("|"%char :: print 0 g) with (["|"%char] ++ print 0 g).
    rewrite !Happ, IHf, IHg by auto; reflexivity.
Qed.

(** What a printed formula looks like at the top: a run of [|], a run of
    [&], or neither. *)
Lemma print_shape (f : formula) (level : nat) :
  (print level f = print 0 f /\ (2 <= length (disjuncts f))%nat) \/
  (print level f = print 1 f /\ (2 <= length (conjuncts f))%nat) \/
  print level f = print 2 f.
Proof.
  assert (H2 : forall l m : list formula, l <> [] -> m <> [] -> (2 <= length (l ++ m))%nat).
  { intros [| x l] [| y m] Hl Hm; try congruence; rewrite length_app; simpl; lia. }
  destruct f; destruct level as [| [| level]]; auto; [right; left | right; left | left];
    (split; [reflexivity |]; apply H2; apply conjuncts_spec || apply disjuncts_spec).
Qed.

Lemma fold_resolve_or (r : str -> result eval_error bool) (pr : formula -> str) (l : list formula) :
  Forall (fun g => r (pr g) = Ok (eval v g)) l -> forall b,
  fold_resolve r orb b (map pr l) = Ok (b || existsb (eval v) l).
Proof.
  induction 1 as [| g l Hg Hl IH]; intros b; cbn [map fold_resolve existsb].
  - rewrite orb_false_r; reflexivity.
  - rewrite Hg; cbn [bind]; rewrite IH, orb_assoc; reflexivity.
Qed.

Lemma fold_resolve_and (r : str -> result eval_error bool) (pr : formula -> str) (l : list formula) :
  Forall (fun g => r (pr g) = Ok (eval v g)) l -> forall b,
  fold_resolve r andb b (map pr l) = Ok (b && forallb (eval v) l).
Proof.
  induction 1 as [| g l Hg Hl IH]; intros b; cbn [map fold_resolve forallb].
  - rewrite andb_true_r; reflexivity.
  - rewrite Hg; cbn [bind]; rewrite IH, andb_assoc; reflexivity.
Qed.

Section Step.

Variable fuel : nat.
Hypothesis IH : forall f level, good v f = true ->
  (length (print level f) < fuel)%nat -> resolve_fuel fuel v (print level f) = Ok (eval v f).

Lemma str_eqb_refl (s : str) : str_eqb s s = true.
Proof. induction s; simpl; rewrite ?Ascii.eqb_refl; auto. Qed.

Lemma parens_inner (w : str) : substr (parens true w) 1 (length (parens true w) - 2) = w.
Proof.
  unfold parens; replace (length ("("%char :: w ++ [")"%char]) - 2)%nat with (length w)
    by (cbn [length]; rewrite length_app; simpl; lia).
  apply (substr_middle ["("%char] w [")"%char]).
Qed.

(** One piece only: constants, names, negations and parentheses. *)
Lemma resolve_single_ok (f : formula) (c : ascii) (t : str) : good v f = true ->
  print 2 f = c :: t -> (length t < fuel)%nat ->
  resolve_single (resolve_fuel fuel v) v c t = Ok (eval v f).
Proof.
  intros Hg Hp Hl; unfold resolve_single.
  assert (Hpar : forall w level, print 2 f = parens true w -> print level f = w ->
            resolve_single (resolve_fuel fuel v) v c t = Ok (eval v f)).
  { intros w level Hw Hw'; unfold resolve_single; rewrite <- Hp, Hw, parens_inner.
    rewrite Hw in Hp; injection Hp as <- Ht; rewrite <- Hw'; apply IH; [exact Hg |].
    apply (f_equal (@length ascii)) in Ht; rewrite length_app in Ht; simpl in Ht.
    rewrite Hw'; lia. }
  destruct f as [b | n | f | f g | f g]; cbn [good] in Hg.
  - injection Hp as <- <-; destruct b; reflexivity.
  - cbn [print] in Hp; destruct (good_name_chars n Hg) as (_ & Hn & H1 & H0 & Hv).
    rewrite Hp in *; cbn [forallb] in Hn; apply andb_prop in Hn; destruct Hn as [Hc _].
    destruct (name_start_spec c Hc) as (_ & -> & _); rewrite H1, H0.
    cbn [eval]; destruct (lookup v (c :: t)) as [b |] eqn:El; [| congruence].
    replace (Ascii.eqb c "!") with false; [reflexivity |]; symmetry; apply Ascii.eqb_neq; intros ->.
    unfold good_name in Hg; discriminate.
  - injection Hp as <- <-; cbn [Ascii.eqb Bool.eqb]; rewrite IH by (auto; lia); reflexivity.
  - apply (Hpar (print 1 (FAnd f g)) 1%nat); reflexivity.
  - apply (Hpar (print 0 (FOr f g)) 0%nat); reflexivity.
Qed.

(** Cutting a printed formula at [|] when it has none at the top. *)
Lemma no_or (f : formula) (level : nat) (c : ascii) (t : str) : good v f = true ->
  (1 <= level)%nat -> print level f = c :: t -> singleParse (c :: t) "|" = Ok [c :: t].
Proof.
  intros Hg Hl Hp; destruct (print_first f Hg level) as (c' & t' & Hp' & Hc).
  rewrite Hp in Hp'; injection Hp' as <- <-.
  apply singleParse_join; [right; reflexivity | discriminate | | reflexivity | exact Hc].
  rewrite <- Hp; constructor; [| constructor]; apply print_inert; auto; lia.
Qed.

Lemma pieces_good (level : nat) (op : ascii) (l : list formula) :
  forallb (good v) l = true ->
  ((1 <= level)%nat /\ op = "|"%char \/ (2 <= level)%nat) ->
  Forall (inert op 0) (map (print level) l).
Proof.
  intros Hl H; apply Forall_map, Forall_forall; intros g Hg.
  rewrite forallb_forall in Hl; apply print_inert; auto; lia.
Qed.

(** The pieces are evaluated by recursive calls on shorter strings. *)
Lemma pieces_resolve (level : nat) (op : ascii) (s : str) (l : list formula) :
  forallb (good v) l = true -> singleParse s op = Ok (map (print level) l) ->
  (2 <= length l)%nat -> (length s < S fuel)%nat ->
  Forall (fun g => resolve_fuel fuel v (print level g) = Ok (eval v g)) l.
Proof.
  intros Hl Hs H2 Hf; apply Forall_forall; intros g Hg; rewrite forallb_forall in Hl.
  apply IH; [auto |]; apply singleParse_pieces in Hs; [| rewrite length_map; exact H2].
  rewrite Forall_map, Forall_forall in Hs; specialize (Hs g Hg); cbn beta in Hs; lia.
Qed.

Lemma resolveRec_ok (f : formula) (level : nat) : good v f = true ->
  (length (print level f) < S fuel)%nat ->
  resolveRec (resolve_fuel fuel v) v (print level f) = Ok (eval v f).
Proof.
  intros Hg Hl; destruct (print_first f Hg level) as (c & t & Hp & Hc).
  destruct (print_shape f level) as [[E H2] | [[E H2] | E]]; rewrite E, Hp in *.
  - destruct (disjuncts_spec f) as (Hd0 & Hdp & Hde & Hdg); rewrite Hg in Hdg; symmetry in Hdg.
    assert (Hs : singleParse (c :: t) "|" = Ok (map (print 1) (disjuncts f))).
    { apply singleParse_join; [right; reflexivity | | apply pieces_good; auto | congruence | exact Hc].
      intros Hn; apply map_eq_nil in Hn; contradiction. }
    pose proof (pieces_resolve 1 "|" (c :: t) _ Hdg Hs H2 Hl) as HF.
    cbn [resolveRec]; rewrite Hs; cbn [bind]; rewrite length_map.
    rewrite (proj2 (Nat.eqb_neq _ _)) by lia; cbn [bind].
    pose proof (fold_resolve_or _ _ _ HF false) as Hfold; rewrite <- Hde in Hfold.
    destruct (disjuncts f) as [| x [| y l]]; [simpl in H2; lia .. |]; exact Hfold.
  - destruct (conjuncts_spec f) as (Hd0 & Hdp & Hde & Hdg); rewrite Hg in Hdg; symmetry in Hdg.
    assert (Hs : singleParse (c :: t) "&" = Ok (map (print 2) (conjuncts f))).
    { apply singleParse_join; [left; reflexivity | | apply pieces_good; auto | congruence | exact Hc].
      intros Hn; apply map_eq_nil in Hn; contradiction. }
    pose proof (pieces_resolve 2 "&" (c :: t) _ Hdg Hs H2 Hl) as HF.
    cbn [resolveRec]; rewrite (no_or f 1) by auto; cbn [bind length Nat.eqb]; rewrite Hs; cbn [bind].
    pose proof (fold_resolve_and _ _ _ HF true) as Hfold; rewrite <- Hde in Hfold.
    destruct (conjuncts f) as [| x [| y l]]; [simpl in H2; lia .. |]; exact Hfold.
  - assert (Hs : singleParse (c :: t) "&" = Ok [c :: t]).
    { apply singleParse_join; [left; reflexivity | discriminate | | reflexivity | exact Hc].
      rewrite <- Hp; constructor; [| constructor]; apply print_inert; auto; lia. }
    cbn [resolveRec]; rewrite (no_or f 2) by auto; cbn [bind length Nat.eqb]; rewrite Hs; cbn [bind].
    apply resolve_single_ok; auto; simpl in Hl; lia.
Qed.

End Step.

Lemma resolve_print (fuel : nat) : forall f level, good v f = true ->
  (length (print level f) < fuel)%nat -> resolve_fuel fuel v (print level f) = Ok (eval v f).
Proof.
  induction fuel as [| fuel IH]; intros f level Hg Hl; [lia |].
  cbn [resolve_fuel]; rewrite print_no_space by assumption; apply resolveRec_ok; auto.
Qed.

End Printed.

(** * Correctness *)

(** Evaluating a verifier string that spells a formula, with any
    whitespace in it, gives the truth value of the formula: [!] binds more
    than [&], [&] more than [|], parentheses group, [1] and [0] are the
    constants, provided every name of the formula has a value. *)
Theorem resolve_correct (s : str) (f : formula) (v : Vals) :
  good v f = true -> removeWhitespaces s = print 0 f -> resolve s v = Ok (eval v f).
Proof.
  intros Hg Hs; unfold resolve; cbn [resolve_fuel]; rewrite Hs.
  apply resolveRec_ok; [| exact Hg |].
  - intros g level Hg' Hl; apply resolve_print; auto.
  - rewrite <- Hs; pose proof (removeWhitespaces_length s); lia.
Qed.

Definition ex_vals : Vals := [(list_ascii_of_string "#KYC", true); (list_ascii_of_string "#AML.X", false)].

Lemma resolve_correct_witness :
  resolve (list_ascii_of_string "!( #KYC & #AML.X ) | 0") ex_vals = Ok true.
Proof.
  apply (resolve_correct (list_ascii_of_string "!( #KYC & #AML.X ) | 0")
    (FOr (FNot (FAnd (FVar (list_ascii_of_string "#KYC")) (FVar (list_ascii_of_string "#AML.X"))))
         (FConst false)) ex_vals); reflexivity.
Defined.

(** Evaluation terminates on every string and valuation, malformed
    strings included: it returns a truth value or throws one of the reported
    errors, and the recursion is never deeper than the string is long. *)
Theorem resolve_terminates (s : str) (v : Vals) :
  (exists b, resolve s v = Ok b) \/ (exists r, resolve s v = Err (Throw r)).
Proof.
  pose proof (resolve_fuel_total v (S (length s)) s (Nat.lt_succ_diag_r _)) as H.
  unfold resolve; destruct (resolve_fuel _ v s) as [b | [r |]]; eauto; congruence.
Qed.

(** The converse does not hold: characters before the first name are skipped
    by the scan, so strings that spell no formula are evaluated too. *)
Lemma resolve_skips_leading :
  resolve (list_ascii_of_string "|#KYC|0") ex_vals = Ok true /\
  resolve (list_ascii_of_string "@#KYC&1") ex_vals = Ok true.
Proof. split; reflexivity. Qed.
