(* ===== verification/Serialize.v ===== *)
(** Serialization (src/serialize.h): fixed-width integers, CompactSize and
    VarInt numbers, strings and byte vectors, as functions on byte lists.
    A reader takes the bytes of the stream and returns a value and the bytes
    left, or the failure that is thrown. *)

From Stdlib Require Import ZArith List Bool Lia Arith.
From S2P Require Import Prelude.
Import ListNotations.
Open Scope Z_scope.

Definition bytes := list Z.

Inductive ser_error :=
| EndOfData | NonCanonical | SizeTooLarge | StringLimit | BufferOverflow
| UnknownOptionalData | TooManyRecords.

Definition reader (A : Type) := bytes -> result ser_error (A * bytes).

Definition is_bytes (l : bytes) : Prop := Forall (in_u 8) l.

Definition MAX_SIZE : Z := 0x02000000.

(** * Raw data *)

(** [s.read(ptr, n)] *)
Definition read_bytes (n : nat) : reader bytes := fun s =>
  if Nat.leb n (length s) then Ok (firstn n s, skipn n s) else Err EndOfData.

Definition ser_writedata8 (x : Z) : bytes := le_split 8 1 x.
Definition ser_writedata16 (x : Z) : bytes := le_split 8 2 x.
Definition ser_writedata32 (x : Z) : bytes := le_split 8 4 x.
Definition ser_writedata64 (x : Z) : bytes := le_split 8 8 x.
Definition ser_writedata32be (x : Z) : bytes := rev (le_split 8 4 x).

Definition read_le (n : nat) : reader Z := fun s =>
  let! r := read_bytes n s in Ok (le_val 8 (fst r), snd r).

Definition ser_readdata8 : reader Z := read_le 1.
Definition ser_readdata16 : reader Z := read_le 2.
Definition ser_readdata32 : reader Z := read_le 4.
Definition ser_readdata64 : reader Z := read_le 8.
Definition ser_readdata32be : reader Z := fun s =>
  let! r := read_bytes 4 s in Ok (le_val 8 (rev (fst r)), snd r).

(** Signed integers are the two's complement reading of the same bytes. *)
Definition read_i8 : reader Z := fun s =>
  let! r := ser_readdata8 s in Ok (swrap 8 (fst r), snd r).
Definition read_i32 : reader Z := fun s =>
  let! r := ser_readdata32 s in Ok (swrap 32 (fst r), snd r).
Definition read_i64 : reader Z := fun s =>
  let! r := ser_readdata64 s in Ok (swrap 64 (fst r), snd r).

(** * Compact size *)

Definition GetSizeOfCompactSize (nSize : Z) : Z :=
  if nSize <? 253 then 1
  else if nSize <=? 0xffff then 3
  else if nSize <=? 0xffffffff then 5
  else 9.

Definition WriteCompactSize (nSize : Z) : bytes :=
  if nSize <? 253 then ser_writedata8 nSize
  else if nSize <=? 0xffff then ser_writedata8 253 ++ ser_writedata16 nSize
  else if nSize <=? 0xffffffff then ser_writedata8 254 ++ ser_writedata32 nSize
  else ser_writedata8 255 ++ ser_writedata64 nSize.

Definition ReadCompactSize : reader Z := fun s =>
  let! r := ser_readdata8 s in
  let '(chSize, s) := r in
  let! r :=
    if chSize <? 253 then Ok (chSize, s)
    else if chSize =? 253 then
      let! r := ser_readdata16 s in
      if fst r <? 253 then Err NonCanonical else Ok r
    else if chSize =? 254 then
      let! r := ser_readdata32 s in
      if fst r <? 0x10000 then Err NonCanonical else Ok r
    else
      let! r := ser_readdata64 s in
      if fst r <? 0x100000000 then Err NonCanonical else Ok r in
  if fst r >? MAX_SIZE then Err SizeTooLarge else Ok r.

(** * Variable-length integers of a [w]-bit unsigned type *)

Fixpoint GetSizeOfVarInt_loop (fuel : nat) (n nRet : Z) : Z :=
  match fuel with
  | O => nRet
  | S fuel' =>
      let nRet := nRet + 1 in
      if n <=? 0x7f then nRet else GetSizeOfVarInt_loop fuel' (Z.shiftr n 7 - 1) nRet
  end.

(** The buffer [tmp] has room for [(w + 6) / 7] digits. *)
Definition varint_room (w : Z) : nat := Z.to_nat ((w + 6) / 7).

Definition GetSizeOfVarInt (w n : Z) : Z := GetSizeOfVarInt_loop (varint_room w) n 0.

(** The filling loop: [tmp] holds the digits so far, the last one first,
    which is the order in which they are then written. *)
Fixpoint write_varint_loop (room : nat) (n : Z) (tmp : bytes) : result ser_error bytes :=
  match room with
  | O => Err BufferOverflow
  | S room' =>
      let d := Z.lor (Z.land n 0x7f) (if Nat.eqb (length tmp) 0 then 0 else 0x80) in
      if n <=? 0x7f then Ok (d :: tmp)
      else write_varint_loop room' (Z.shiftr n 7 - 1) (d :: tmp)
  end.

Definition WriteVarInt (w n : Z) : result ser_error bytes :=
  write_varint_loop (varint_room w) n [].

Definition varint_max (w : Z) : Z := 2 ^ w - 1.

Fixpoint read_varint_loop (w n : Z) (s : bytes) : result ser_error (Z * bytes) :=
  match s with
  | [] => Err EndOfData
  | chData :: s' =>
      if n >? Z.shiftr (varint_max w) 7 then Err SizeTooLarge
      else
        let n := Z.lor (Z.shiftl n 7) (Z.land chData 0x7f) in
        if negb (Z.land chData 0x80 =? 0) then
          if n =? varint_max w then Err SizeTooLarge
          else read_varint_loop w (n + 1) s'
        else Ok (n, s')
  end.

Definition ReadVarInt (w : Z) : reader Z := read_varint_loop w 0.

(** * Strings and byte vectors *)

Definition write_string (str : bytes) : bytes :=
  WriteCompactSize (Z.of_nat (length str)) ++ str.

Definition read_string : reader bytes := fun s =>
  let! r := ReadCompactSize s in
  read_bytes (Z.to_nat (fst r)) (snd r).

(** [LIMITED_STRING(obj, n)] *)
Definition read_limited_string (limit : Z) : reader bytes := fun s =>
  let! r := ReadCompactSize s in
  if fst r >? limit then Err StringLimit
  else read_bytes (Z.to_nat (fst r)) (snd r).

(** [std::vector<unsigned char>] and prevectors are read in blocks of at
    most five million bytes. *)
Definition read_block : Z := 5000000.

Fixpoint read_blocks (fuel : nat) (v : bytes) (i nSize : Z) (s : bytes)
  : result ser_error (bytes * bytes) :=
  match fuel with
  | O => Err EndOfData
  | S fuel' =>
      if i <? nSize then
        let blk := Z.min (nSize - i) read_block in
        let! r := read_bytes (Z.to_nat blk) s in
        read_blocks fuel' (v ++ fst r) (i + blk) nSize (snd r)
      else Ok (v, s)
  end.

Definition read_vector : reader bytes := fun s =>
  let! r := ReadCompactSize s in
  read_blocks (S (Z.to_nat (fst r))) [] 0 (fst r) (snd r).

(** Vectors of other types: the elements one after the other. *)
Fixpoint read_elements {A : Type} (read : reader A) (n : nat) : reader (list A) := fun s =>
  match n with
  | O => Ok ([], s)
  | S n' =>
      let! r := read s in
      let! rs := read_elements read n' (snd r) in
      Ok (fst r :: fst rs, snd rs)
  end.

Definition write_list {A : Type} (write : A -> bytes) (v : list A) : bytes :=
  WriteCompactSize (Z.of_nat (length v)) ++ flat_map write v.

Definition read_list {A : Type} (read : reader A) : reader (list A) := fun s =>
  let! r := ReadCompactSize s in
  read_elements read (Z.to_nat (fst r)) (snd r).

(** * A value format: what a writer and a reader promise each other *)

(** [reads read write valid]: the reader recovers what the writer wrote,
    whatever follows it in the stream. *)
Definition reads {A : Type} (read : reader A) (write : A -> bytes) (valid : A -> Prop) : Prop :=
  forall a rest, valid a -> read (write a ++ rest) = Ok (a, rest).

(** * Raw data: lemmas *)

Lemma read_bytes_app (l rest : bytes) (n : nat) : length l = n ->
  read_bytes n (l ++ rest) = Ok (l, rest).
Proof.
  intros <-; unfold read_bytes; rewrite length_app, (proj2 (Nat.leb_le _ _)) by lia.
  rewrite firstn_app, skipn_app, Nat.sub_diag, firstn_all, skipn_all; cbn [firstn skipn app].
  rewrite app_nil_r; reflexivity.
Qed.

Lemma read_bytes_inv (n : nat) (s l rest : bytes) : read_bytes n s = Ok (l, rest) ->
  s = l ++ rest /\ length l = n.
Proof.
  unfold read_bytes; destruct (Nat.leb_spec n (length s)); [| discriminate].
  intros [= <- <-]; rewrite firstn_skipn, length_firstn; split; [reflexivity | lia].
Qed.

Lemma read_le_reads (n : nat) (x : Z) (rest : bytes) : in_u (8 * Z.of_nat n) x ->
  read_le n (le_split 8 n x ++ rest) = Ok (x, rest).
Proof.
  intros Hx; unfold read_le; rewrite read_bytes_app by apply length_le_split.
  cbn [bind fst snd]; rewrite le_val_split by lia; rewrite Z.mod_small by exact Hx; reflexivity.
Qed.

Lemma read_le_inv (n : nat) (s rest : bytes) (x : Z) : is_bytes s ->
  read_le n s = Ok (x, rest) ->
  s = le_split 8 n x ++ rest /\ in_u (8 * Z.of_nat n) x /\ is_bytes rest.
Proof.
  intros Hs H; unfold read_le in H; apply bind_ok in H; destruct H as ([l r] & E & H).
  injection H as <- <-; apply read_bytes_inv in E; destruct E as [-> <-].
  apply Forall_app in Hs; destruct Hs as [Hl Hr]; cbn [fst snd].
  rewrite le_split_val by (auto; lia); split_all; auto; apply le_val_bounds; auto; lia.
Qed.

(** A signed number survives the cast to unsigned and back. *)
Lemma swrap_wrap (w x : Z) : 0 < w -> in_s w x -> swrap w (x mod 2 ^ w) = x.
Proof.
  intros Hw Hx; unfold swrap; rewrite Zplus_mod_idemp_l; apply (swrap_id w x Hw Hx).
Qed.

Lemma read_signed (n : nat) (x : Z) (rest : bytes) : (0 < n)%nat -> in_s (8 * Z.of_nat n) x ->
  (let! r := read_le n (le_split 8 n x ++ rest) in Ok (swrap (8 * Z.of_nat n) (fst r), snd r))
  = Ok (x, rest).
Proof.
  intros Hn Hx; unfold read_le; rewrite read_bytes_app by apply length_le_split.
  cbn [bind fst snd]; rewrite le_val_split, swrap_wrap by (auto; lia); reflexivity.
Qed.

(** * Compact sizes: lemmas *)

Lemma le_split1 (x : Z) : in_u 8 x -> le_split 8 1 x = [x].
Proof. intros Hx; cbn [le_split]; rewrite Z.mod_small by exact Hx; reflexivity. Qed.

Lemma WriteCompactSize_length (n : Z) : 0 <= n ->
  Z.of_nat (length (WriteCompactSize n)) = GetSizeOfCompactSize n.
Proof.
  intros Hn; unfold WriteCompactSize, GetSizeOfCompactSize, ser_writedata8, ser_writedata16,
    ser_writedata32, ser_writedata64.
  repeat case_if; rewrite ?length_app, !length_le_split; reflexivity.
Qed.

Lemma ReadCompactSize_reads : reads ReadCompactSize WriteCompactSize (fun n => 0 <= n <= MAX_SIZE).
Proof.
  intros n rest Hn; unfold MAX_SIZE in Hn; unfold ReadCompactSize, WriteCompactSize, ser_writedata8.
  assert (Hbig : forall k m s, in_u 8 k -> read_le 1 (le_split 8 1 k ++ s) = Ok (k, s) /\
            (in_u (8 * Z.of_nat m) n -> read_le m (le_split 8 m n ++ s) = Ok (n, s))).
  { intros; split; intros; apply read_le_reads; auto. }
  assert (Hmax : (n >? MAX_SIZE) = false) by (rewrite Z.gtb_ltb; apply Z.ltb_ge; unfold MAX_SIZE; lia).
  unfold ser_readdata8, ser_readdata16, ser_readdata32, ser_writedata16, ser_writedata32 in *.
  destruct (Z.ltb_spec n 253).
  - rewrite (proj1 (Hbig n 1%nat rest ltac:(unfold in_u; lia))); cbn [bind].
    rewrite (proj2 (Z.ltb_lt n 253)) by lia; cbn [bind fst]; rewrite Hmax; reflexivity.
  - destruct (Z.leb_spec n 0xffff).
    + rewrite <- app_assoc, (proj1 (Hbig 253 1%nat _ ltac:(unfold in_u; lia))); cbn [bind Z.ltb Z.eqb Z.compare Pos.compare Pos.compare_cont Pos.eqb].
      rewrite (proj2 (Hbig 0 2%nat rest ltac:(unfold in_u; lia)) ltac:(unfold in_u; lia)); cbn [bind fst].
      rewrite (proj2 (Z.ltb_ge n 253)) by lia; cbn [bind fst]; rewrite Hmax; reflexivity.
    + rewrite (proj2 (Z.leb_le n 0xffffffff)) by lia.
      rewrite <- app_assoc, (proj1 (Hbig 254 1%nat _ ltac:(unfold in_u; lia))); cbn [bind Z.ltb Z.eqb Z.compare Pos.compare Pos.compare_cont Pos.eqb].
      rewrite (proj2 (Hbig 0 4%nat rest ltac:(unfold in_u; lia)) ltac:(unfold in_u; lia)); cbn [bind fst].
      rewrite (proj2 (Z.ltb_ge n 0x10000)) by lia; cbn [bind fst]; rewrite Hmax; reflexivity.
Qed.

Lemma ReadCompactSize_inv (s rest : bytes) (n : Z) : is_bytes s ->
  ReadCompactSize s = Ok (n, rest) ->
  s = WriteCompactSize n ++ rest /\ 0 <= n <= MAX_SIZE /\ is_bytes rest.
Proof.
  intros Hs H; unfold ReadCompactSize in H; apply bind_ok in H; destruct H as ([ch s1] & E1 & H).
  apply (read_le_inv 1) in E1; [| exact Hs]; destruct E1 as (-> & Hch & Hs1).
  apply bind_ok in H; destruct H as ([m s2] & E & H); cbn [fst] in H.
  destruct (m >? MAX_SIZE) eqn:Em; [discriminate |]; injection H as -> ->; bool_to_prop.
  change (8 * Z.of_nat 1) with 8 in Hch; unfold in_u in Hch.
  assert (Hk : forall k lo, (let! r := read_le k s1 in if fst r <? lo then Err NonCanonical else Ok r)
     = Ok (n, rest) -> s1 = le_split 8 k n ++ rest /\ in_u (8 * Z.of_nat k) n /\ is_bytes rest /\ lo <= n).
  { intros k lo Hr; apply bind_ok in Hr; destruct Hr as ([x y] & Ex & Hr); cbn [fst] in Hr.
    destruct (Z.ltb_spec x lo); [discriminate |]; injection Hr as -> ->.
    apply read_le_inv in Ex; [| exact Hs1]; tauto. }
  unfold WriteCompactSize, ser_writedata8, ser_writedata16, ser_writedata32, ser_writedata64.
  unfold MAX_SIZE in *; destruct (Z.ltb_spec ch 253).
  - injection E as -> ->; rewrite (proj2 (Z.ltb_lt n 253)) by lia; split_all; auto; lia.
  - destruct (Z.eqb_spec ch 253) as [-> |]; [| destruct (Z.eqb_spec ch 254) as [-> |]].
    + destruct (Hk 2%nat 253 E) as (-> & Hn & Hr & Hlo); unfold in_u in Hn.
      rewrite (proj2 (Z.ltb_ge n 253)), (proj2 (Z.leb_le n 0xffff)), <- app_assoc by lia.
      split_all; auto; lia.
    + destruct (Hk 4%nat 0x10000 E) as (-> & Hn & Hr & Hlo); unfold in_u in Hn.
      rewrite (proj2 (Z.ltb_ge n 253)), (proj2 (Z.leb_gt n 0xffff)), (proj2 (Z.leb_le n 0xffffffff)),
        <- app_assoc by lia.
      split_all; auto; lia.
    + destruct (Hk 8%nat 0x100000000 E) as (_ & _ & _ & Hlo); lia.
Qed.

(** * Variable-length integers: lemmas *)

Lemma low7 (n : Z) : Z.land n 0x7f = n mod 128.
Proof. exact (Z.land_ones n 7 ltac:(lia)). Qed.

Lemma push7 (n c : Z) : Z.lor (Z.shiftl n 7) (Z.land c 0x7f) = 128 * n + c mod 128.
Proof.
  rewrite Z.lor_comm, low7, <- add_lor_shift; [change (2 ^ 7) with 128; lia | | lia].
  apply (Z.mod_pos_bound c 128); lia.
Qed.

Lemma flag_digit (n : Z) (b : bool) :
  Z.lor (Z.land n 0x7f) (if b then 0 else 0x80) = n mod 128 + (if b then 0 else 128).
Proof.
  rewrite low7; destruct b; [rewrite Z.lor_0_r; lia |].
  change 0x80 with (Z.shiftl 1 7); rewrite <- add_lor_shift; [reflexivity | | lia].
  apply (Z.mod_pos_bound n 128); lia.
Qed.

Lemma flag_test (c : Z) : in_u 8 c -> negb (Z.land c 0x80 =? 0) = (128 <=? c).
Proof.
  intros Hc; change 0x80 with (2 ^ 7); rewrite land_pow2_eqb, negb_involutive by lia.
  apply (testbit_top c 7); [lia | exact Hc].
Qed.

Section VarInt.

Variable w : Z.
Hypothesis Hw : 7 <= w.

Lemma varint_shift (n : Z) : 0 <= n < 2 ^ w -> Z.shiftr n 7 <= Z.shiftr (varint_max w) 7.
Proof.
  intros Hn; rewrite !Z.shiftr_div_pow2 by lia; apply Z.div_le_mono; unfold varint_max; lia.
Qed.

(** One step of the reader on a digit of the writer. *)
Lemma read_digit (acc n : Z) (last : bool) (s : bytes) : 0 <= n < 2 ^ w ->
  acc = Z.shiftr n 7 -> (last = false -> n < 2 ^ w - 1) ->
  read_varint_loop w acc ((n mod 128 + (if last then 0 else 128)) :: s) =
  if last then Ok (n, s) else read_varint_loop w (n + 1) s.
Proof.
  intros Hn -> Hl; cbn [read_varint_loop]; rewrite Z.gtb_ltb.
  rewrite (proj2 (Z.ltb_ge _ _)) by (apply varint_shift, Hn).
  pose proof (Z.mod_pos_bound n 128 ltac:(lia)) as Hm.
  rewrite push7, flag_test by (unfold in_u; destruct last; lia).
  assert (E : 128 * Z.shiftr n 7 + (n mod 128 + (if last then 0 else 128)) mod 128 = n).
  { replace ((n mod 128 + (if last then 0 else 128)) mod 128) with (n mod 128).
    - rewrite Z.shiftr_div_pow2 by lia; change (2 ^ 7) with 128.
      pose proof (Z.div_mod n 128 ltac:(lia)); lia.
    - destruct last; [rewrite Z.add_0_r, Z.mod_mod; lia |].
      replace (n mod 128 + 128) with (n mod 128 + 1 * 128) by lia.
      rewrite Z_mod_plus_full, Z.mod_mod; lia. }
  rewrite E; destruct last.
  - rewrite Z.add_0_r, (proj2 (Z.leb_gt _ _)) by lia; reflexivity.
  - rewrite (proj2 (Z.leb_le _ _)) by lia.
    rewrite (proj2 (Z.eqb_neq _ _)) by (unfold varint_max; specialize (Hl eq_refl); lia).
    reflexivity.
Qed.

Lemma write_read_loop (rest : bytes) (room : nat) : forall n tmp,
  0 <= n < 2 ^ w -> (0 < room)%nat -> n < 2 ^ (7 * Z.of_nat room) ->
  (tmp <> [] -> n < 2 ^ w - 1) ->
  exists out, write_varint_loop room n tmp = Ok out /\
    read_varint_loop w 0 (out ++ rest) =
    match tmp with [] => Ok (n, rest) | _ => read_varint_loop w (n + 1) (tmp ++ rest) end.
Proof.
  induction room as [| room IH]; intros n tmp Hn H0 Hroom Ht; [lia |].
  cbn [write_varint_loop]; rewrite flag_digit.
  assert (Hlast : Nat.eqb (length tmp) 0 = match tmp with [] => true | _ => false end)
    by (destruct tmp; reflexivity).
  rewrite Hlast; set (last := match tmp with [] => true | _ => false end) in *.
  assert (Hl : last = false -> n < 2 ^ w - 1) 
    by (unfold last; destruct tmp; [discriminate | intros _; apply Ht; discriminate]).
  assert (Hcont : match tmp with [] => Ok (n, rest) | _ => read_varint_loop w (n + 1) (tmp ++ rest) end
            = if last then Ok (n, tmp ++ rest) else read_varint_loop w (n + 1) (tmp ++ rest))
    by (destruct tmp; reflexivity).
  destruct (Z.leb_spec n 0x7f).
  - eexists; split; [reflexivity |]; rewrite Hcont; cbn [app].
    apply read_digit; auto; rewrite Z.shiftr_div_pow2, Z.div_small by lia; reflexivity.
  - assert (Hq : 1 <= Z.shiftr n 7 < 2 ^ (w - 7)).
    { rewrite Z.shiftr_div_pow2 by lia; split; [apply Z.div_le_lower_bound; lia |].
      apply Z.div_lt_upper_bound; [lia |]; rewrite <- Z.pow_add_r by lia.
      replace (7 + (w - 7)) with w by lia; lia. }
    assert (2 ^ (w - 7) <= 2 ^ w) by (apply Z.pow_le_mono_r; lia).
    destruct (IH (Z.shiftr n 7 - 1) (n mod 128 + (if last then 0 else 128) :: tmp))
      as (out & E & R); [lia | destruct room; [cbn in Hroom |]; lia | | lia |].
    { assert (Z.shiftr n 7 < 2 ^ (7 * Z.of_nat room)); [| lia].
      rewrite Z.shiftr_div_pow2 by lia; apply Z.div_lt_upper_bound; [lia |].
      rewrite <- Z.pow_add_r by lia; replace (7 + 7 * Z.of_nat room) with (7 * Z.of_nat (S room)) by lia; lia. }
    exists out; split; [exact E |]; rewrite R, Hcont, Z.sub_add; cbn [app].
    apply read_digit; auto.
Qed.

Lemma varint_room_enough : w <= 7 * Z.of_nat (varint_room w).
Proof.
  unfold varint_room; pose proof (Z.div_mod (w + 6) 7 ltac:(lia)).
  pose proof (Z.mod_pos_bound (w + 6) 7 ltac:(lia)); lia.
Qed.

Lemma WriteVarInt_reads (n : Z) : 0 <= n < 2 ^ w ->
  exists out, WriteVarInt w n = Ok out /\ forall rest, ReadVarInt w (out ++ rest) = Ok (n, rest).
Proof.
  intros Hn; unfold WriteVarInt, ReadVarInt.
  assert (Hr : n < 2 ^ (7 * Z.of_nat (varint_room w))).
  { eapply Z.lt_le_trans; [apply Hn |]; apply Z.pow_le_mono_r; [lia | apply varint_room_enough]. }
  assert (H0 : (0 < varint_room w)%nat) by (pose proof varint_room_enough; lia).
  destruct (write_read_loop [] (varint_room w) n [] Hn H0 Hr ltac:(congruence)) as (out & E & _).
  exists out; split; [exact E |]; intros rest.
  destruct (write_read_loop rest (varint_room w) n [] Hn H0 Hr ltac:(congruence)) as (out' & E' & R).
  rewrite E in E'; injection E' as <-; exact R.
Qed.

(** ** The reader accepts nothing else *)

Lemma read_varint_inv (s : bytes) : is_bytes s -> forall acc n rest, 0 <= acc ->
  read_varint_loop w acc s = Ok (n, rest) ->
  exists c, s = c ++ rest /\ c <> [] /\ 0 <= n < 2 ^ w /\
    forall room, write_varint_loop (room + length c) n [] =
      if acc =? 0 then Ok c else write_varint_loop room (acc - 1) c.
Proof.
  induction s as [| ch s IH]; intros Hs acc n rest Hacc H; [discriminate |].
  inversion Hs as [| ? ? Hch Hs']; subst; cbn [read_varint_loop] in H; rewrite Z.gtb_ltb in H.
  destruct (Z.ltb_spec (Z.shiftr (varint_max w) 7) acc) as [| Hmax]; [discriminate |].
  rewrite push7, flag_test in H by exact Hch; unfold in_u in Hch.
  pose proof (Z.mod_pos_bound ch 128 ltac:(lia)) as Hm.
  assert (Hb : 128 * acc + ch mod 128 < 2 ^ w).
  { rewrite Z.shiftr_div_pow2 in Hmax by lia; unfold varint_max in Hmax.
    assert (Ew : 2 ^ w = 2 ^ (w - 7) * 2 ^ 7) by (rewrite <- Z.pow_add_r by lia; f_equal; lia).
    replace (2 ^ w - 1) with (127 + (2 ^ (w - 7) - 1) * 2 ^ 7) in Hmax by lia.
    rewrite Z.div_add, Z.div_small in Hmax by lia; lia. }
  assert (Hstep : forall room tmp (last : bool), Nat.eqb (length tmp) 0 = last ->
    ch = ch mod 128 + (if last then 0 else 128) ->
    write_varint_loop (S room) (128 * acc + ch mod 128) tmp =
    if acc =? 0 then Ok (ch :: tmp) else write_varint_loop room (acc - 1) (ch :: tmp)).
  { intros room tmp last Hlast Hd; cbn [write_varint_loop]; rewrite flag_digit, Hlast.
    rewrite (Z.mul_comm 128), Z.add_comm, Z_mod_plus_full, Z.mod_mod, <- Hd by lia.
    rewrite Z.shiftr_div_pow2, Z.div_add, Z.div_small by lia.
    destruct (Z.eqb_spec acc 0), (Z.leb_spec (ch mod 128 + acc * 128) 127); auto; lia. }
  destruct (Z.leb_spec 128 ch) as [Hf | Hf].
  - destruct (Z.eqb_spec (128 * acc + ch mod 128) (varint_max w)); [discriminate |].
    apply IH in H; [| assumption | lia]; destruct H as (c & -> & Hc & Hn & Hw').
    exists (ch :: c); split_all; auto; try discriminate; try lia; intros room.
    cbn [length]; rewrite Nat.add_succ_r, <- Nat.add_succ_l, Hw'.
    rewrite (proj2 (Z.eqb_neq _ _)), Z.add_simpl_r by lia.
    apply (Hstep room c false); [destruct c; [congruence | reflexivity] |].
    replace ch with (ch - 128 + 1 * 128) at 2 by lia; rewrite Z_mod_plus_full, Z.mod_small; lia.
  - assert (n = 128 * acc + ch mod 128 /\ rest = s) as [-> ->] by (split; congruence).
    exists [ch].
    split; [reflexivity |]; split; [discriminate |]; split; [lia |].
    intros room; replace (room + length [ch])%nat with (S room) by (simpl; lia).
    apply (Hstep room [] true); [reflexivity |].
    rewrite Z.mod_small; lia.
Qed.

Lemma write_varint_more (k room : nat) : forall n tmp out,
  write_varint_loop room n tmp = Ok out -> write_varint_loop (room + k) n tmp = Ok out.
Proof.
  induction room as [| room IH]; intros n tmp out H; [discriminate |].
  cbn [write_varint_loop Nat.add] in *; destruct (n <=? 127); auto.
Qed.

Lemma ReadVarInt_inv (s rest : bytes) (n : Z) : is_bytes s -> ReadVarInt w s = Ok (n, rest) ->
  0 <= n < 2 ^ w /\ exists out, WriteVarInt w n = Ok out /\ s = out ++ rest.
Proof.
  intros Hs H; apply read_varint_inv in H; [| exact Hs | lia].
  destruct H as (c & -> & _ & Hn & Hw'); split; [exact Hn |].
  destruct (WriteVarInt_reads n Hn) as (out & E & _); exists out; split; [exact E |].
  specialize (Hw' (varint_room w)); cbn [Z.eqb] in Hw'.
  apply (write_varint_more (length c)) in E; congruence.
Qed.

Lemma GetSizeOfVarInt_spec (n : Z) (out : bytes) : 
  WriteVarInt w n = Ok out -> GetSizeOfVarInt w n = Z.of_nat (length out).
Proof.
  unfold WriteVarInt, GetSizeOfVarInt; generalize (varint_room w) as room; intros room.
  change 0 with (Z.of_nat (@length Z [])) at 1; generalize (@nil Z) as tmp; revert n out.
  induction room as [| room IH]; intros n out tmp H; [discriminate |].
  cbn [write_varint_loop GetSizeOfVarInt_loop] in *; destruct (n <=? 127).
  - injection H as <-; cbn [length]; lia.
  - apply IH in H; rewrite <- H; cbn [length]; f_equal; lia.
Qed.

End VarInt.

(** * Strings and vectors: lemmas *)

Lemma read_string_reads : reads read_string write_string (fun l => Z.of_nat (length l) <= MAX_SIZE).
Proof.
  intros l rest Hl; unfold read_string, write_string; rewrite <- app_assoc.
  rewrite ReadCompactSize_reads by lia; cbn [bind fst snd].
  apply read_bytes_app; lia.
Qed.

Lemma read_string_inv (s l rest : bytes) : is_bytes s -> read_string s = Ok (l, rest) ->
  s = write_string l ++ rest /\ Z.of_nat (length l) <= MAX_SIZE /\ is_bytes l /\ is_bytes rest.
Proof.
  intros Hs H; unfold read_string in H; apply bind_ok in H; destruct H as ([n r] & E & H).
  apply ReadCompactSize_inv in E; [| exact Hs]; destruct E as (-> & Hn & Hr); cbn [fst snd] in H.
  apply read_bytes_inv in H; destruct H as [-> Hl].
  apply Forall_app in Hr; destruct Hr as [Hlb Hrb].
  unfold write_string; rewrite <- app_assoc, Hl, Z2Nat.id by lia; split_all; auto; lia.
Qed.

Lemma read_bytes_split (n m : nat) (s : bytes) :
  read_bytes (n + m) s =
  let! r := read_bytes n s in
  let! r' := read_bytes m (snd r) in Ok (fst r ++ fst r', snd r').
Proof.
  unfold read_bytes; destruct (Nat.leb_spec n (length s)); cbn [bind fst snd].
  - rewrite length_skipn.
    destruct (Nat.leb_spec (n + m) (length s)), (Nat.leb_spec m (length s - n)); try lia; auto.
    cbn [bind fst snd]; do 2 f_equal; [| rewrite skipn_skipn; f_equal; lia].
    rewrite <- (firstn_skipn n s) at 1; rewrite firstn_app, length_firstn.
    replace (n + m - Nat.min n (length s))%nat with m by lia.
    rewrite firstn_all2; [reflexivity |]; rewrite length_firstn; lia.
  - destruct (Nat.leb_spec (n + m) (length s)); [lia | reflexivity].
Qed.

(** Reading in blocks is reading at once. *)
Lemma read_blocks_spec (nSize : Z) (fuel : nat) : forall v i s, 0 <= i <= nSize ->
  (Z.to_nat (nSize - i) < fuel)%nat ->
  read_blocks fuel v i nSize s =
  let! r := read_bytes (Z.to_nat (nSize - i)) s in Ok (v ++ fst r, snd r).
Proof.
  induction fuel as [| fuel IH]; intros v i s Hi Hf; [lia |].
  cbn [read_blocks]; destruct (Z.ltb_spec i nSize).
  - unfold read_block in *; set (blk := Z.min (nSize - i) 5000000).
    replace (Z.to_nat (nSize - i)) with (Z.to_nat blk + Z.to_nat (nSize - (i + blk)))%nat
      by (unfold blk; lia).
    rewrite read_bytes_split; destruct (read_bytes (Z.to_nat blk) s) as [[l r] |]; [| reflexivity].
    cbn [bind fst snd]; rewrite IH by (unfold blk; lia).
    destruct (read_bytes _ r) as [[l' r'] |]; [| reflexivity].
    cbn [bind fst snd]; rewrite app_assoc; reflexivity.
  - replace (Z.to_nat (nSize - i)) with 0%nat by lia; cbn [bind read_bytes Nat.leb fst snd].
    rewrite app_nil_r; reflexivity.
Qed.

Lemma read_vector_string (s : bytes) : read_vector s = read_string s \/ ~ is_bytes s.
Proof.
  unfold read_vector, read_string; destruct (ReadCompactSize s) as [[n r] |] eqn:E; [| auto].
  destruct (Forall_dec (in_u 8)) with (l := s) as [Hs | Hs]; auto.
  { intros x; unfold in_u; destruct (Z_le_dec 0 x), (Z_lt_dec x (2 ^ 8)); auto; right; lia. }
  left; apply ReadCompactSize_inv in E; [| exact Hs]; destruct E as (_ & Hn & _); cbn [bind fst snd].
  rewrite read_blocks_spec by lia; rewrite Z.sub_0_r.
  destruct (read_bytes _ r) as [[l r'] |]; reflexivity.
Qed.

Lemma read_elements_reads {A : Type} (read : reader A) (write : A -> bytes) (valid : A -> Prop) :
  reads read write valid -> forall l rest, Forall valid l ->
  read_elements read (length l) (flat_map write l ++ rest) = Ok (l, rest).
Proof.
  intros Hr; induction l as [| x l IH]; intros rest Hl; [reflexivity |].
  inv Hl; cbn [length flat_map read_elements]; rewrite <- app_assoc, Hr by assumption.
  cbn [bind fst snd]; rewrite IH by assumption; reflexivity.
Qed.

Lemma read_list_reads {A : Type} (read : reader A) (write : A -> bytes) (valid : A -> Prop) :
  reads read write valid ->
  reads (read_list read) (write_list write)
    (fun l => Z.of_nat (length l) <= MAX_SIZE /\ Forall valid l).
Proof.
  intros Hr l rest [Hl Hv]; unfold read_list, write_list; rewrite <- app_assoc.
  rewrite ReadCompactSize_reads by lia; cbn [bind fst snd]; rewrite Nat2Z.id.
  apply (read_elements_reads read write valid); assumption.
Qed.

(** * Formats *)

(** What the rest of the code relies on for each serialized type: a valid
    value is read back as written, whatever follows, and a reader that
    accepts has consumed exactly the encoding of a valid value. *)
Class Format {A : Type} (read : reader A) (write : A -> bytes) (valid : A -> Prop) : Prop := {
  format_reads : reads read write valid;
  format_inverts : forall s a rest, is_bytes s -> read s = Ok (a, rest) ->
    s = write a ++ rest /\ valid a /\ is_bytes rest
}.

Lemma format_prefix {A : Type} {read : reader A} {write valid} `{Format A read write valid}
    (a b : A) (x y : bytes) : valid a -> valid b -> write a ++ x = write b ++ y -> a = b /\ x = y.
Proof.
  intros Ha Hb E; pose proof (format_reads a x Ha) as Ra; pose proof (format_reads b y Hb) as Rb.
  rewrite E, Rb in Ra; injection Ra as -> ->; auto.
Qed.

(** A sequence of encodings, none of them empty, determines the values. *)
Lemma format_flat_map_inj {A : Type} {read : reader A} {write valid} `{Format A read write valid} :
  (forall a, write a <> []) -> forall l m, Forall valid l -> Forall valid m ->
  flat_map write l = flat_map write m -> l = m.
Proof.
  intros Hne; induction l as [| a l IH]; intros [| b m] Hl Hm E; auto; cbn [flat_map] in E.
  - exfalso; apply (Hne b); destruct (write b); [reflexivity | discriminate].
  - exfalso; apply (Hne a); destruct (write a); [reflexivity | discriminate].
  - apply Forall_cons_iff in Hl, Hm; destruct Hl as [Ha Hl], Hm as [Hb Hm].
    destruct (format_prefix a b _ _ Ha Hb E) as [-> E']; f_equal; auto.
Qed.

#[export] Instance format_le (n : nat) :
  Format (read_le n) (le_split 8 n) (in_u (8 * Z.of_nat n)).
Proof.
  split; [intros x rest; apply read_le_reads |].
  intros s x rest Hs H; apply read_le_inv; assumption.
Qed.

Lemma swrap_le (n : nat) (x : Z) : (0 < n)%nat -> in_u (8 * Z.of_nat n) x ->
  le_split 8 n (swrap (8 * Z.of_nat n) x) = le_split 8 n x.
Proof.
  intros Hn Hx; apply (le_val_inj 8); try lia; try apply le_split_digits; try lia.
  - rewrite !length_le_split; reflexivity.
  - rewrite !le_val_split by lia; unfold swrap.
    replace (_ - _) with (x + (- ((x + 2 ^ (8 * Z.of_nat n - 1)) / 2 ^ (8 * Z.of_nat n))) * 2 ^ (8 * Z.of_nat n));
      [apply Z_mod_plus_full |].
    rewrite (Z.mod_eq (x + _)) by (apply Z.pow_nonzero; lia); ring.
Qed.

Lemma format_signed (n : nat) : (0 < n)%nat ->
  Format (fun s => let! r := read_le n s in Ok (swrap (8 * Z.of_nat n) (fst r), snd r))
    (le_split 8 n) (in_s (8 * Z.of_nat n)).
Proof.
  intros Hn; split; [intros x rest; apply read_signed, Hn |].
  intros s x rest Hs H; apply bind_ok in H; destruct H as ([y r] & E & H).
  cbn [fst snd] in H; assert (x = swrap (8 * Z.of_nat n) y) as -> by congruence.
  assert (rest = r) as -> by congruence.
  apply read_le_inv in E; [| exact Hs]; destruct E as (-> & Hy & Hr).
  rewrite swrap_le by assumption; split_all; auto; apply swrap_bounds; lia.
Qed.

#[export] Instance format_u8 : Format ser_readdata8 ser_writedata8 (in_u 8) := format_le 1.
#[export] Instance format_u16 : Format ser_readdata16 ser_writedata16 (in_u 16) := format_le 2.
#[export] Instance format_u32 : Format ser_readdata32 ser_writedata32 (in_u 32) := format_le 4.
#[export] Instance format_u64 : Format ser_readdata64 ser_writedata64 (in_u 64) := format_le 8.
#[export] Instance format_i8 : Format read_i8 ser_writedata8 (in_s 8).
Proof. apply (format_signed 1); lia. Qed.
#[export] Instance format_i32 : Format read_i32 ser_writedata32 (in_s 32).
Proof. apply (format_signed 4); lia. Qed.
#[export] Instance format_i64 : Format read_i64 ser_writedata64 (in_s 64).
Proof. apply (format_signed 8); lia. Qed.

(** A fixed number of raw bytes, as [uint256] and [uint160] are written. *)
Definition is_blob (n : nat) (l : bytes) : Prop := length l = n /\ is_bytes l.

#[export] Instance format_blob (n : nat) : Format (read_bytes n) (fun l => l) (is_blob n).
Proof.
  split; [intros l rest [Hl _]; apply read_bytes_app, Hl |].
  intros s l rest Hs H; apply read_bytes_inv in H; destruct H as [-> Hl].
  apply Forall_app in Hs; unfold is_blob; tauto.
Qed.

Definition short_bytes (l : bytes) : Prop := Z.of_nat (length l) <= MAX_SIZE /\ is_bytes l.

#[export] Instance format_string : Format read_string write_string short_bytes.
Proof.
  split; [intros l rest [Hl _]; apply read_string_reads, Hl |].
  intros s l rest Hs H; apply read_string_inv in H; unfold short_bytes; tauto.
Qed.

#[export] Instance format_vector : Format read_vector write_string short_bytes.
Proof.
  split.
  - intros l rest [Hl _]; unfold read_vector, write_string; rewrite <- app_assoc.
    rewrite ReadCompactSize_reads by lia; cbn [bind fst snd].
    rewrite read_blocks_spec by lia; rewrite Z.sub_0_r, Nat2Z.id, read_bytes_app by reflexivity.
    reflexivity.
  - intros s l rest Hs H; destruct (read_vector_string s) as [E | E]; [| tauto].
    apply format_inverts; [exact Hs | congruence].
Qed.

Lemma read_elements_inv {A : Type} (read : reader A) write valid `{Format A read write valid} :
  forall n s l rest, is_bytes s -> read_elements read n s = Ok (l, rest) ->
  s = flat_map write l ++ rest /\ length l = n /\ Forall valid l /\ is_bytes rest.
Proof.
  induction n as [| n IH]; intros s l rest Hs E; cbn [read_elements] in E.
  { injection E as <- <-; split_all; auto. }
  apply bind_ok in E; destruct E as ([x r] & E1 & E); apply format_inverts in E1; [| exact Hs].
  destruct E1 as (-> & Hx & Hr); cbn [fst snd] in E.
  apply bind_ok in E; destruct E as ([l' r'] & E2 & [= <- <-]); apply IH in E2; [| exact Hr].
  destruct E2 as (-> & <- & Hl & Hr'); cbn [fst snd flat_map length]; rewrite app_assoc.
  split_all; auto.
Qed.

#[export] Instance format_list {A : Type} (read : reader A) write valid
  `{Format A read write valid} :
  Format (read_list read) (write_list write)
    (fun l => Z.of_nat (length l) <= MAX_SIZE /\ Forall valid l).
Proof.
  split; [apply read_list_reads, format_reads |].
  intros s l rest Hs E; unfold read_list in E; apply bind_ok in E; destruct E as ([n r] & E1 & E).
  apply ReadCompactSize_inv in E1; [| exact Hs]; destruct E1 as (-> & Hn & Hr); cbn [fst snd] in E.
  apply read_elements_inv with (write := write) (valid := valid) in E; [| assumption ..].
  destruct E as (-> & Hl & Hv & Hr'); unfold write_list; rewrite Hl, Z2Nat.id, app_assoc by lia.
  split_all; auto; lia.
Qed.

(** Read back, or invert, the fields of a record one after the other. *)
Ltac read_fields :=
  repeat (rewrite <- ?app_assoc; rewrite format_reads by (first [assumption | tauto]); cbn [bind fst snd]).
Ltac invert_fields H :=
  repeat match type of H with
  | bind _ _ = Ok _ =>
      apply bind_ok in H;
      let a := fresh "a" in let r := fresh "r" in let E := fresh "E" in
      destruct H as ([a r] & E & H); cbn [fst snd] in H;
      apply format_inverts in E; [| assumption];
      let Hv := fresh "Hv" in let Hr := fresh "Hr" in destruct E as (-> & Hv & Hr)
  | Ok _ = Ok _ => injection H as H; subst
  end.

(** * Correctness *)

(** CompactSize numbers: a size up to [MAX_SIZE] is read back as written
    whatever follows, in as many bytes as [GetSizeOfCompactSize] says; and
    the reader accepts a number in no other form, so the encoding is unique. *)
Theorem CompactSize_codec (n : Z) (s rest : bytes) :
  (0 <= n <= MAX_SIZE ->
   ReadCompactSize (WriteCompactSize n ++ rest) = Ok (n, rest) /\
   Z.of_nat (length (WriteCompactSize n)) = GetSizeOfCompactSize n) /\
  (is_bytes s -> ReadCompactSize s = Ok (n, rest) ->
   s = WriteCompactSize n ++ rest /\ 0 <= n <= MAX_SIZE).
Proof.
  split; [intros Hn | intros Hs H].
  - split; [apply ReadCompactSize_reads; exact Hn | apply WriteCompactSize_length; lia].
  - apply ReadCompactSize_inv in H; tauto.
Qed.

Lemma CompactSize_codec_witness :
  ReadCompactSize (WriteCompactSize 70000 ++ [7]) = Ok (70000, [7]) /\ 0 <= 5 <= MAX_SIZE.
Proof.
  split.
  - apply (CompactSize_codec 70000 [] [7]); unfold MAX_SIZE; lia.
  - apply (CompactSize_codec 5 [5; 1] [1]); [| reflexivity].
    repeat constructor; unfold in_u; lia.
Defined.

(** VarInt numbers of a [w]-bit type (32 and 64 bits in the code): every
    number is written without overflowing the digit buffer, in
    [GetSizeOfVarInt] bytes, and is read back whatever follows; and the
    reader accepts a number in no other form ("every integer has exactly one
    encoding"). *)
Theorem VarInt_codec (w n : Z) (s rest : bytes) : 7 <= w ->
  (0 <= n < 2 ^ w ->
   exists out, WriteVarInt w n = Ok out /\ ReadVarInt w (out ++ rest) = Ok (n, rest) /\
               GetSizeOfVarInt w n = Z.of_nat (length out)) /\
  (is_bytes s -> ReadVarInt w s = Ok (n, rest) ->
   0 <= n < 2 ^ w /\ exists out, WriteVarInt w n = Ok out /\ s = out ++ rest).
Proof.
  intros Hw; split; [intros Hn | apply ReadVarInt_inv, Hw].
  destruct (WriteVarInt_reads w Hw n Hn) as (out & E & R); exists out.
  split_all; auto; apply GetSizeOfVarInt_spec, E.
Qed.

Lemma VarInt_codec_witness :
  (exists out, WriteVarInt 64 65535 = Ok out /\ ReadVarInt 64 (out ++ [9]) = Ok (65535, [9])) /\
  0 <= 65535 < 2 ^ 32.
Proof.
  split.
  - destruct (proj1 (VarInt_codec 64 65535 [] [9] ltac:(lia)) ltac:(lia)) as (out & E & R & _); eauto.
  - apply (VarInt_codec 32 65535 [0x82; 0xfe; 0x7f] []); [lia | | reflexivity].
    repeat constructor; unfold in_u; lia.
Defined.

(** Strings and byte vectors (scripts among them) up to [MAX_SIZE] bytes
    are read back as written, the block-wise vector reader agrees with the
    one-shot string reader on every stream, and vectors of any element type
    that is read back are read back. *)
Theorem vectors_codec {A : Type} (read : reader A) (write : A -> bytes) (valid : A -> Prop)
    (l : list A) (str s rest : bytes) :
  (Z.of_nat (length str) <= MAX_SIZE ->
   read_string (write_string str ++ rest) = Ok (str, rest)) /\
  (is_bytes s -> read_vector s = read_string s) /\
  (reads read write valid -> Z.of_nat (length l) <= MAX_SIZE -> Forall valid l ->
   read_list read (write_list write l ++ rest) = Ok (l, rest)).
Proof.
  split_all.
  - apply read_string_reads.
  - intros Hs; destruct (read_vector_string s); tauto.
  - intros Hr Hl Hv; apply (read_list_reads read write valid Hr); auto.
Qed.

Lemma vectors_codec_witness :
  read_list ser_readdata16 (write_list ser_writedata16 [1; 515] ++ []) = Ok ([1; 515], []) /\
  read_string (write_string [1; 2; 3] ++ [4]) = Ok ([1; 2; 3], [4]) /\
  read_vector [1; 7; 9] = read_string [1; 7; 9].
Proof.
  destruct (vectors_codec ser_readdata16 ser_writedata16 (in_u 16) [1; 515] [1; 2; 3] [1; 7; 9] [4])
    as (H1 & H2 & _).
  destruct (vectors_codec ser_readdata16 ser_writedata16 (in_u 16) [1; 515] [] [] [])
    as (_ & _ & H3).
  split_all.
  - apply H3; [intros x rest Hx; apply read_le_reads, Hx | unfold MAX_SIZE; cbn; lia |].
    repeat constructor; unfold in_u; lia.
  - apply H1; unfold MAX_SIZE; cbn; lia.
  - apply H2; repeat constructor; unfold in_u; lia.
Defined.
