(* ===== verification/Script.v ===== *)
(** Scripts (src/script/script.h, src/script/script.cpp): opcodes, script
    numbers, building and reading scripts, counting signature operations and
    recognising the standard and asset output forms.  A script is its list
    of bytes; an iterator into a script is the list of bytes from it on. *)

From Stdlib Require Import ZArith String List Bool Lia Arith.
From S2P Require Import Prelude Serialize.
Import ListNotations.
Open Scope Z_scope.

Definition CScript := bytes.

Definition MAX_SCRIPT_ELEMENT_SIZE : Z := 520.
Definition MAX_OPS_PER_SCRIPT : Z := 201.
Definition MAX_PUBKEYS_PER_MULTISIG : Z := 20.
Definition MAX_SCRIPT_SIZE : Z := 10000.
Definition MAX_STACK_SIZE : Z := 1000.
Definition LOCKTIME_THRESHOLD : Z := 500000000.

(** * Opcodes *)

(** [OP_UNNAMED b] stands for the byte values without an enumerator: the
    direct pushes and the values no opcode uses. *)
Inductive opcodetype :=
| OP_0 | OP_PUSHDATA1 | OP_PUSHDATA2 | OP_PUSHDATA4 | OP_1NEGATE
| OP_RESERVED | OP_1 | OP_2 | OP_3 | OP_4 | OP_5 | OP_6 | OP_7 | OP_8 | OP_9
| OP_10 | OP_11 | OP_12 | OP_13 | OP_14 | OP_15 | OP_16 | OP_NOP | OP_VER
| OP_IF | OP_NOTIF | OP_VERIF | OP_VERNOTIF | OP_ELSE | OP_ENDIF | OP_VERIFY
| OP_RETURN | OP_TOALTSTACK | OP_FROMALTSTACK | OP_2DROP | OP_2DUP | OP_3DUP
| OP_2OVER | OP_2ROT | OP_2SWAP | OP_IFDUP | OP_DEPTH | OP_DROP | OP_DUP
| OP_NIP | OP_OVER | OP_PICK | OP_ROLL | OP_ROT | OP_SWAP | OP_TUCK | OP_CAT
| OP_SUBSTR | OP_LEFT | OP_RIGHT | OP_SIZE | OP_INVERT | OP_AND | OP_OR
| OP_XOR | OP_EQUAL | OP_EQUALVERIFY | OP_RESERVED1 | OP_RESERVED2 | OP_1ADD
| OP_1SUB | OP_2MUL | OP_2DIV | OP_NEGATE | OP_ABS | OP_NOT | OP_0NOTEQUAL
| OP_ADD | OP_SUB | OP_MUL | OP_DIV | OP_MOD | OP_LSHIFT | OP_RSHIFT
| OP_BOOLAND | OP_BOOLOR | OP_NUMEQUAL | OP_NUMEQUALVERIFY | OP_NUMNOTEQUAL
| OP_LESSTHAN | OP_GREATERTHAN | OP_LESSTHANOREQUAL | OP_GREATERTHANOREQUAL
| OP_MIN | OP_MAX | OP_WITHIN | OP_RIPEMD160 | OP_SHA1 | OP_SHA256
| OP_HASH160 | OP_HASH256 | OP_CODESEPARATOR | OP_CHECKSIG
| OP_CHECKSIGVERIFY | OP_CHECKMULTISIG | OP_CHECKMULTISIGVERIFY | OP_NOP1
| OP_CHECKLOCKTIMEVERIFY | OP_CHECKSEQUENCEVERIFY | OP_NOP4 | OP_NOP5
| OP_NOP6 | OP_NOP7 | OP_NOP8 | OP_NOP9 | OP_NOP10 | OP_HEMP_ASSET
| OP_SMALLINTEGER | OP_PUBKEYS | OP_PUBKEYHASH | OP_PUBKEY | OP_INVALIDOPCODE
| OP_UNNAMED (b : Z).

Definition OP_FALSE : opcodetype := OP_0.
Definition OP_TRUE : opcodetype := OP_1.
Definition OP_NOP2 : opcodetype := OP_CHECKLOCKTIMEVERIFY.
Definition OP_NOP3 : opcodetype := OP_CHECKSEQUENCEVERIFY.

Definition opcode_value (op : opcodetype) : Z :=
  match op with
  | OP_0 => 0x00 | OP_PUSHDATA1 => 0x4c | OP_PUSHDATA2 => 0x4d
  | OP_PUSHDATA4 => 0x4e | OP_1NEGATE => 0x4f | OP_RESERVED => 0x50
  | OP_1 => 0x51 | OP_2 => 0x52 | OP_3 => 0x53 | OP_4 => 0x54 | OP_5 => 0x55
  | OP_6 => 0x56 | OP_7 => 0x57 | OP_8 => 0x58 | OP_9 => 0x59 | OP_10 => 0x5a
  | OP_11 => 0x5b | OP_12 => 0x5c | OP_13 => 0x5d | OP_14 => 0x5e
  | OP_15 => 0x5f | OP_16 => 0x60 | OP_NOP => 0x61 | OP_VER => 0x62
  | OP_IF => 0x63 | OP_NOTIF => 0x64 | OP_VERIF => 0x65 | OP_VERNOTIF => 0x66
  | OP_ELSE => 0x67 | OP_ENDIF => 0x68 | OP_VERIFY => 0x69
  | OP_RETURN => 0x6a | OP_TOALTSTACK => 0x6b | OP_FROMALTSTACK => 0x6c
  | OP_2DROP => 0x6d | OP_2DUP => 0x6e | OP_3DUP => 0x6f | OP_2OVER => 0x70
  | OP_2ROT => 0x71 | OP_2SWAP => 0x72 | OP_IFDUP => 0x73 | OP_DEPTH => 0x74
  | OP_DROP => 0x75 | OP_DUP => 0x76 | OP_NIP => 0x77 | OP_OVER => 0x78
  | OP_PICK => 0x79 | OP_ROLL => 0x7a | OP_ROT => 0x7b | OP_SWAP => 0x7c
  | OP_TUCK => 0x7d | OP_CAT => 0x7e | OP_SUBSTR => 0x7f | OP_LEFT => 0x80
  | OP_RIGHT => 0x81 | OP_SIZE => 0x82 | OP_INVERT => 0x83 | OP_AND => 0x84
  | OP_OR => 0x85 | OP_XOR => 0x86 | OP_EQUAL => 0x87
  | OP_EQUALVERIFY => 0x88 | OP_RESERVED1 => 0x89 | OP_RESERVED2 => 0x8a
  | OP_1ADD => 0x8b | OP_1SUB => 0x8c | OP_2MUL => 0x8d | OP_2DIV => 0x8e
  | OP_NEGATE => 0x8f | OP_ABS => 0x90 | OP_NOT => 0x91
  | OP_0NOTEQUAL => 0x92 | OP_ADD => 0x93 | OP_SUB => 0x94 | OP_MUL => 0x95
  | OP_DIV => 0x96 | OP_MOD => 0x97 | OP_LSHIFT => 0x98 | OP_RSHIFT => 0x99
  | OP_BOOLAND => 0x9a | OP_BOOLOR => 0x9b | OP_NUMEQUAL => 0x9c
  | OP_NUMEQUALVERIFY => 0x9d | OP_NUMNOTEQUAL => 0x9e | OP_LESSTHAN => 0x9f
  | OP_GREATERTHAN => 0xa0 | OP_LESSTHANOREQUAL => 0xa1
  | OP_GREATERTHANOREQUAL => 0xa2 | OP_MIN => 0xa3 | OP_MAX => 0xa4
  | OP_WITHIN => 0xa5 | OP_RIPEMD160 => 0xa6 | OP_SHA1 => 0xa7
  | OP_SHA256 => 0xa8 | OP_HASH160 => 0xa9 | OP_HASH256 => 0xaa
  | OP_CODESEPARATOR => 0xab | OP_CHECKSIG => 0xac
  | OP_CHECKSIGVERIFY => 0xad | OP_CHECKMULTISIG => 0xae
  | OP_CHECKMULTISIGVERIFY => 0xaf | OP_NOP1 => 0xb0
  | OP_CHECKLOCKTIMEVERIFY => 0xb1 | OP_CHECKSEQUENCEVERIFY => 0xb2
  | OP_NOP4 => 0xb3 | OP_NOP5 => 0xb4 | OP_NOP6 => 0xb5 | OP_NOP7 => 0xb6
  | OP_NOP8 => 0xb7 | OP_NOP9 => 0xb8 | OP_NOP10 => 0xb9
  | OP_HEMP_ASSET => 0xc0 | OP_SMALLINTEGER => 0xfa | OP_PUBKEYS => 0xfb
  | OP_PUBKEYHASH => 0xfd | OP_PUBKEY => 0xfe | OP_INVALIDOPCODE => 0xff
  | OP_UNNAMED b => b
  end.

(** The cast of a byte to [opcodetype]. *)
Definition opcode_of (b : Z) : opcodetype :=
  match b with
  | 0x00 => OP_0 | 0x4c => OP_PUSHDATA1 | 0x4d => OP_PUSHDATA2
  | 0x4e => OP_PUSHDATA4 | 0x4f => OP_1NEGATE | 0x50 => OP_RESERVED
  | 0x51 => OP_1 | 0x52 => OP_2 | 0x53 => OP_3 | 0x54 => OP_4 | 0x55 => OP_5
  | 0x56 => OP_6 | 0x57 => OP_7 | 0x58 => OP_8 | 0x59 => OP_9 | 0x5a => OP_10
  | 0x5b => OP_11 | 0x5c => OP_12 | 0x5d => OP_13 | 0x5e => OP_14
  | 0x5f => OP_15 | 0x60 => OP_16 | 0x61 => OP_NOP | 0x62 => OP_VER
  | 0x63 => OP_IF | 0x64 => OP_NOTIF | 0x65 => OP_VERIF | 0x66 => OP_VERNOTIF
  | 0x67 => OP_ELSE | 0x68 => OP_ENDIF | 0x69 => OP_VERIFY
  | 0x6a => OP_RETURN | 0x6b => OP_TOALTSTACK | 0x6c => OP_FROMALTSTACK
  | 0x6d => OP_2DROP | 0x6e => OP_2DUP | 0x6f => OP_3DUP | 0x70 => OP_2OVER
  | 0x71 => OP_2ROT | 0x72 => OP_2SWAP | 0x73 => OP_IFDUP | 0x74 => OP_DEPTH
  | 0x75 => OP_DROP | 0x76 => OP_DUP | 0x77 => OP_NIP | 0x78 => OP_OVER
  | 0x79 => OP_PICK | 0x7a => OP_ROLL | 0x7b => OP_ROT | 0x7c => OP_SWAP
  | 0x7d => OP_TUCK | 0x7e => OP_CAT | 0x7f => OP_SUBSTR | 0x80 => OP_LEFT
  | 0x81 => OP_RIGHT | 0x82 => OP_SIZE | 0x83 => OP_INVERT | 0x84 => OP_AND
  | 0x85 => OP_OR | 0x86 => OP_XOR | 0x87 => OP_EQUAL
  | 0x88 => OP_EQUALVERIFY | 0x89 => OP_RESERVED1 | 0x8a => OP_RESERVED2
  | 0x8b => OP_1ADD | 0x8c => OP_1SUB | 0x8d => OP_2MUL | 0x8e => OP_2DIV
  | 0x8f => OP_NEGATE | 0x90 => OP_ABS | 0x91 => OP_NOT
  | 0x92 => OP_0NOTEQUAL | 0x93 => OP_ADD | 0x94 => OP_SUB | 0x95 => OP_MUL
  | 0x96 => OP_DIV | 0x97 => OP_MOD | 0x98 => OP_LSHIFT | 0x99 => OP_RSHIFT
  | 0x9a => OP_BOOLAND | 0x9b => OP_BOOLOR | 0x9c => OP_NUMEQUAL
  | 0x9d => OP_NUMEQUALVERIFY | 0x9e => OP_NUMNOTEQUAL | 0x9f => OP_LESSTHAN
  | 0xa0 => OP_GREATERTHAN | 0xa1 => OP_LESSTHANOREQUAL
  | 0xa2 => OP_GREATERTHANOREQUAL | 0xa3 => OP_MIN | 0xa4 => OP_MAX
  | 0xa5 => OP_WITHIN | 0xa6 => OP_RIPEMD160 | 0xa7 => OP_SHA1
  | 0xa8 => OP_SHA256 | 0xa9 => OP_HASH160 | 0xaa => OP_HASH256
  | 0xab => OP_CODESEPARATOR | 0xac => OP_CHECKSIG
  | 0xad => OP_CHECKSIGVERIFY | 0xae => OP_CHECKMULTISIG
  | 0xaf => OP_CHECKMULTISIGVERIFY | 0xb0 => OP_NOP1
  | 0xb1 => OP_CHECKLOCKTIMEVERIFY | 0xb2 => OP_CHECKSEQUENCEVERIFY
  | 0xb3 => OP_NOP4 | 0xb4 => OP_NOP5 | 0xb5 => OP_NOP6 | 0xb6 => OP_NOP7
  | 0xb7 => OP_NOP8 | 0xb8 => OP_NOP9 | 0xb9 => OP_NOP10
  | 0xc0 => OP_HEMP_ASSET | 0xfa => OP_SMALLINTEGER | 0xfb => OP_PUBKEYS
  | 0xfd => OP_PUBKEYHASH | 0xfe => OP_PUBKEY | 0xff => OP_INVALIDOPCODE
  | _ => OP_UNNAMED b
  end.

Definition MAX_OPCODE : Z := opcode_value OP_NOP10.

Lemma opcode_of_value (b : Z) : opcode_value (opcode_of b) = b.
Proof.
  unfold opcode_of; destruct b as [| p | p]; try reflexivity.
  do 8 (try (destruct p as [p | p |]; try reflexivity)).
Qed.

(** [GetOpName] *)
Definition GetOpName (op : opcodetype) : string :=
  match op with
  | OP_0 => "0" | OP_PUSHDATA1 => "OP_PUSHDATA1" | OP_PUSHDATA2 => "OP_PUSHDATA2"
  | OP_PUSHDATA4 => "OP_PUSHDATA4" | OP_1NEGATE => "-1" | OP_RESERVED => "OP_RESERVED"
  | OP_1 => "1" | OP_2 => "2" | OP_3 => "3" | OP_4 => "4" | OP_5 => "5" | OP_6 => "6"
  | OP_7 => "7" | OP_8 => "8" | OP_9 => "9" | OP_10 => "10" | OP_11 => "11"
  | OP_12 => "12" | OP_13 => "13" | OP_14 => "14" | OP_15 => "15" | OP_16 => "16"
  | OP_NOP => "OP_NOP" | OP_VER => "OP_VER" | OP_IF => "OP_IF"
  | OP_NOTIF => "OP_NOTIF" | OP_VERIF => "OP_VERIF" | OP_VERNOTIF => "OP_VERNOTIF"
  | OP_ELSE => "OP_ELSE" | OP_ENDIF => "OP_ENDIF" | OP_VERIFY => "OP_VERIFY"
  | OP_RETURN => "OP_RETURN" | OP_TOALTSTACK => "OP_TOALTSTACK"
  | OP_FROMALTSTACK => "OP_FROMALTSTACK" | OP_2DROP => "OP_2DROP"
  | OP_2DUP => "OP_2DUP" | OP_3DUP => "OP_3DUP" | OP_2OVER => "OP_2OVER"
  | OP_2ROT => "OP_2ROT" | OP_2SWAP => "OP_2SWAP" | OP_IFDUP => "OP_IFDUP"
  | OP_DEPTH => "OP_DEPTH" | OP_DROP => "OP_DROP" | OP_DUP => "OP_DUP"
  | OP_NIP => "OP_NIP" | OP_OVER => "OP_OVER" | OP_PICK => "OP_PICK"
  | OP_ROLL => "OP_ROLL" | OP_ROT => "OP_ROT" | OP_SWAP => "OP_SWAP"
  | OP_TUCK => "OP_TUCK" | OP_CAT => "OP_CAT" | OP_SUBSTR => "OP_SUBSTR"
  | OP_LEFT => "OP_LEFT" | OP_RIGHT => "OP_RIGHT" | OP_SIZE => "OP_SIZE"
  | OP_INVERT => "OP_INVERT" | OP_AND => "OP_AND" | OP_OR => "OP_OR"
  | OP_XOR => "OP_XOR" | OP_EQUAL => "OP_EQUAL" | OP_EQUALVERIFY => "OP_EQUALVERIFY"
  | OP_RESERVED1 => "OP_RESERVED1" | OP_RESERVED2 => "OP_RESERVED2"
  | OP_1ADD => "OP_1ADD" | OP_1SUB => "OP_1SUB" | OP_2MUL => "OP_2MUL"
  | OP_2DIV => "OP_2DIV" | OP_NEGATE => "OP_NEGATE" | OP_ABS => "OP_ABS"
  | OP_NOT => "OP_NOT" | OP_0NOTEQUAL => "OP_0NOTEQUAL" | OP_ADD => "OP_ADD"
  | OP_SUB => "OP_SUB" | OP_MUL => "OP_MUL" | OP_DIV => "OP_DIV" | OP_MOD => "OP_MOD"
  | OP_LSHIFT => "OP_LSHIFT" | OP_RSHIFT => "OP_RSHIFT" | OP_BOOLAND => "OP_BOOLAND"
  | OP_BOOLOR => "OP_BOOLOR" | OP_NUMEQUAL => "OP_NUMEQUAL"
  | OP_NUMEQUALVERIFY => "OP_NUMEQUALVERIFY" | OP_NUMNOTEQUAL => "OP_NUMNOTEQUAL"
  | OP_LESSTHAN => "OP_LESSTHAN" | OP_GREATERTHAN => "OP_GREATERTHAN"
  | OP_LESSTHANOREQUAL => "OP_LESSTHANOREQUAL"
  | OP_GREATERTHANOREQUAL => "OP_GREATERTHANOREQUAL" | OP_MIN => "OP_MIN"
  | OP_MAX => "OP_MAX" | OP_WITHIN => "OP_WITHIN" | OP_RIPEMD160 => "OP_RIPEMD160"
  | OP_SHA1 => "OP_SHA1" | OP_SHA256 => "OP_SHA256" | OP_HASH160 => "OP_HASH160"
  | OP_HASH256 => "OP_HASH256" | OP_CODESEPARATOR => "OP_CODESEPARATOR"
  | OP_CHECKSIG => "OP_CHECKSIG" | OP_CHECKSIGVERIFY => "OP_CHECKSIGVERIFY"
  | OP_CHECKMULTISIG => "OP_CHECKMULTISIG"
  | OP_CHECKMULTISIGVERIFY => "OP_CHECKMULTISIGVERIFY" | OP_NOP1 => "OP_NOP1"
  | OP_CHECKLOCKTIMEVERIFY => "OP_CHECKLOCKTIMEVERIFY"
  | OP_CHECKSEQUENCEVERIFY => "OP_CHECKSEQUENCEVERIFY" | OP_NOP4 => "OP_NOP4"
  | OP_NOP5 => "OP_NOP5" | OP_NOP6 => "OP_NOP6" | OP_NOP7 => "OP_NOP7"
  | OP_NOP8 => "OP_NOP8" | OP_NOP9 => "OP_NOP9" | OP_NOP10 => "OP_NOP10"
  | OP_HEMP_ASSET => "OP_HEMP_ASSET" | OP_INVALIDOPCODE => "OP_INVALIDOPCODE"
  | _ => "OP_UNKNOWN"
  end%string.

Coercion opcode_value : opcodetype >-> Z.

(** * Script numbers *)

Inductive scriptnum_error := NumOverflow | NonMinimal.

Definition nDefaultMaxNumSize : Z := 4.

Definition back (v : bytes) : Z := last v 0.

(** [result |= (int64_t)vch[i] << 8*i] *)
Fixpoint set_vch_loop (shift result : Z) (vch : bytes) : Z :=
  match vch with
  | [] => result
  | b :: vch' =>
      set_vch_loop (shift + 8) (s64 (Z.lor result (s64 (Z.shiftl b shift)))) vch'
  end.

Definition set_vch (vch : bytes) : Z :=
  match vch with
  | [] => 0
  | _ =>
      let result := set_vch_loop 0 0 vch in
      if negb (Z.land (back vch) 0x80 =? 0)
      then - s64 (Z.land (w64 result)
                   (Z.lnot (Z.shiftl 0x80 (8 * (Z.of_nat (length vch) - 1)))))
      else result
  end.

Definition IsMinimallyEncoded (vch : bytes) : bool :=
  negb ((0 <? Z.of_nat (length vch)) &&
        (Z.land (back vch) 0x7f =? 0) &&
        ((Z.of_nat (length vch) <=? 1) ||
         (Z.land (get vch (length vch - 2)) 0x80 =? 0))).

(** The constructor from a stack element. *)
Definition CScriptNum (vch : bytes) (fRequireMinimal : bool) (nMaxNumSize : Z)
  : result scriptnum_error Z :=
  if Z.of_nat (length vch) >? nMaxNumSize then Err NumOverflow
  else if fRequireMinimal && negb (IsMinimallyEncoded vch) then Err NonMinimal
  else Ok (set_vch vch).

Definition getint (m_value : Z) : Z :=
  if m_value >? 2 ^ 31 - 1 then 2 ^ 31 - 1
  else if m_value <? - 2 ^ 31 then - 2 ^ 31
  else m_value.

(** [while (absvalue) { push(absvalue & 0xff); absvalue >>= 8; }]: a 64-bit
    number has at most eight bytes. *)
Fixpoint abs_bytes (fuel : nat) (absvalue : Z) : bytes :=
  match fuel with
  | O => []
  | S fuel' =>
      if absvalue =? 0 then []
      else Z.land absvalue 0xff :: abs_bytes fuel' (Z.shiftr absvalue 8)
  end.

Definition serialize (value : Z) : bytes :=
  if value =? 0 then []
  else
    let neg := value <? 0 in
    let absvalue := if neg then - value else value in
    let result := abs_bytes 8 absvalue in
    if negb (Z.land (back result) 0x80 =? 0) then result ++ [if neg then 0x80 else 0]
    else if neg then removelast result ++ [Z.lor (back result) 0x80]
    else result.

(** * Building scripts *)

Definition push_opcode (s : CScript) (op : opcodetype) : CScript := s ++ [opcode_value op].

Definition push_data (s : CScript) (b : bytes) : CScript :=
  let n := Z.of_nat (length b) in
  s ++ (if n <? OP_PUSHDATA1 then [n]
        else if n <=? 0xff then opcode_value OP_PUSHDATA1 :: [n]
        else if n <=? 0xffff then opcode_value OP_PUSHDATA2 :: le_split 8 2 n
        else opcode_value OP_PUSHDATA4 :: le_split 8 4 n) ++ b.

Definition push_int64 (s : CScript) (n : Z) : CScript :=
  if (n =? -1) || ((n >=? 1) && (n <=? 16)) then s ++ [n + (OP_1 - 1)]
  else if n =? 0 then push_opcode s OP_0
  else push_data s (serialize n).

(** * Reading scripts *)

Definition ReadLE16 (p : bytes) : Z := le_val 8 (firstn 2 p).
Definition ReadLE32 (p : bytes) : Z := le_val 8 (firstn 4 p).

(** [GetOp2] at an iterator: the opcode, its data and the iterator after it,
    or [None] where the code returns false. *)
Definition GetOp2 (pc : bytes) : option (Z * bytes * bytes) :=
  match pc with
  | [] => None
  | opcode :: pc =>
      let operand :=
        if opcode <=? OP_PUSHDATA4 then
          let size :=
            if opcode <? OP_PUSHDATA1 then Some (opcode, pc)
            else if opcode =? OP_PUSHDATA1 then
              match pc with [] => None | n :: pc' => Some (n, pc') end
            else if opcode =? OP_PUSHDATA2 then
              if Nat.ltb (length pc) 2 then None else Some (ReadLE16 pc, skipn 2 pc)
            else
              if Nat.ltb (length pc) 4 then None else Some (ReadLE32 pc, skipn 4 pc) in
          match size with
          | None => None
          | Some (nSize, pc') =>
              if Z.of_nat (length pc') <? nSize then None
              else Some (firstn (Z.to_nat nSize) pc', skipn (Z.to_nat nSize) pc')
          end
        else Some ([], pc) in
      match operand with
      | None => None
      | Some (vch, pc') =>
          if opcode =? OP_HEMP_ASSET then Some (opcode, pc', [])
          else Some (opcode, vch, pc')
      end
  end.

Definition DecodeOP_N (opcode : Z) : option Z :=
  if opcode =? OP_0 then Some 0
  else if (opcode >=? OP_1) && (opcode <=? OP_16) then Some (opcode - (OP_1 - 1))
  else None.

Definition EncodeOP_N (n : Z) : option Z :=
  if (n >=? 0) && (n <=? 16) then Some (if n =? 0 then opcode_value OP_0 else OP_1 + n - 1)
  else None.

(** * Searching scripts *)

Fixpoint starts_with (b pc : bytes) : bool :=
  match b, pc with
  | [], _ => true
  | x :: b', y :: pc' => (x =? y) && starts_with b' pc'
  | _ :: _, [] => false
  end.

(** [while (end() - pc >= b.size() && equal(b, pc))] *)
Fixpoint skip_matches (fuel : nat) (b pc : bytes) (nFound : Z) : bytes * Z :=
  match fuel with
  | O => (pc, nFound)
  | S fuel' =>
      if starts_with b pc then skip_matches fuel' b (skipn (length b) pc) (nFound + 1)
      else (pc, nFound)
  end.

(** The [do ... while (GetOp(pc, opcode))] loop; [result] is what is kept. *)
Fixpoint find_and_delete_loop (fuel : nat) (b pc2 pc result : bytes) (nFound : Z)
  : option (bytes * Z) :=
  match fuel with
  | O => None
  | S fuel' =>
      let result := result ++ firstn (length pc2 - length pc) pc2 in
      let '(pc, nFound) := skip_matches (S (length pc)) b pc nFound in
      match GetOp2 pc with
      | Some (_, _, pc') => find_and_delete_loop fuel' b pc pc' result nFound
      | None => Some (result ++ pc, nFound)
      end
  end.

(** The script after the call and the number of deletions. *)
Definition FindAndDelete (script b : CScript) : option (CScript * Z) :=
  match b with
  | [] => Some (script, 0)
  | _ =>
      match find_and_delete_loop (S (length script)) b script script [] 0 with
      | Some (result, nFound) => Some (if nFound >? 0 then result else script, nFound)
      | None => None
      end
  end.

Fixpoint Find_loop (fuel : nat) (op : opcodetype) (pc : bytes) (nFound : Z) : Z :=
  match fuel with
  | O => nFound
  | S fuel' =>
      match GetOp2 pc with
      | Some (opcode, _, pc') =>
          Find_loop fuel' op pc' (if opcode =? op then nFound + 1 else nFound)
      | None => nFound
      end
  end.
Definition Find (script : CScript) (op : opcodetype) : Z := Find_loop (length script) op script 0.

(** * Signature operations *)

Fixpoint sigop_loop (fuel : nat) (fAccurate : bool) (pc : bytes) (lastOpcode n : Z) : Z :=
  match fuel with
  | O => n
  | S fuel' =>
      match GetOp2 pc with
      | None => n
      | Some (opcode, _, pc') =>
          let n :=
            if (opcode =? OP_CHECKSIG) || (opcode =? OP_CHECKSIGVERIFY) then n + 1
            else if (opcode =? OP_CHECKMULTISIG) || (opcode =? OP_CHECKMULTISIGVERIFY) then
              if fAccurate && (lastOpcode >=? OP_1) && (lastOpcode <=? OP_16)
              then n + (lastOpcode - (OP_1 - 1))
              else n + MAX_PUBKEYS_PER_MULTISIG
            else n in
          sigop_loop fuel' fAccurate pc' opcode n
      end
  end.

(** [GetSigOpCount(bool fAccurate)] *)
Definition GetSigOpCount (script : CScript) (fAccurate : bool) : Z :=
  sigop_loop (length script) fAccurate script OP_INVALIDOPCODE 0.

Definition IsPayToPublicKeyHash (s : CScript) : bool :=
  (Z.of_nat (length s) =? 25) && (get s 0 =? OP_DUP) && (get s 1 =? OP_HASH160) &&
  (get s 2 =? 0x14) && (get s 23 =? OP_EQUALVERIFY) && (get s 24 =? OP_CHECKSIG).

Definition IsPayToScriptHash (s : CScript) : bool :=
  (Z.of_nat (length s) =? 23) && (get s 0 =? OP_HASH160) && (get s 1 =? 0x14) &&
  (get s 22 =? OP_EQUAL).

Definition IsPayToWitnessScriptHash (s : CScript) : bool :=
  (Z.of_nat (length s) =? 34) && (get s 0 =? OP_0) && (get s 1 =? 0x20).

(** The version and the program. *)
Definition IsWitnessProgram (s : CScript) : option (Z * bytes) :=
  let n := Z.of_nat (length s) in
  if (n <? 4) || (n >? 42) then None
  else if negb (get s 0 =? OP_0) && ((get s 0 <? OP_1) || (get s 0 >? OP_16)) then None
  else if get s 1 + 2 =? n then
    match DecodeOP_N (get s 0) with
    | Some version => Some (version, skipn 2 s)
    | None => None
    end
  else None.

Definition IsPayToPublicKey (s : CScript) : bool :=
  if Z.of_nat (length s) =? 35 then
    ((get s 1 =? 0x02) || (get s 1 =? 0x03)) && (get s 34 =? OP_CHECKSIG)
  else if Z.of_nat (length s) =? 67 then
    (get s 1 =? 0x04) && (get s 66 =? OP_CHECKSIG)
  else false.

(** [while (pc < end())]: the last data pushed, if everything is a push. *)
Fixpoint push_only_loop (fuel : nat) (pc vData : bytes) : option bytes :=
  match fuel with
  | O => None
  | S fuel' =>
      match pc with
      | [] => Some vData
      | _ =>
          match GetOp2 pc with
          | None => None
          | Some (opcode, vch, pc') =>
              if opcode >? OP_16 then None else push_only_loop fuel' pc' vch
          end
      end
  end.

Definition IsPushOnly (s : CScript) : bool :=
  match push_only_loop (S (length s)) s [] with Some _ => true | None => false end.

(** [GetSigOpCount(const CScript& scriptSig)] *)
Definition GetSigOpCountP2SH (script scriptSig : CScript) : Z :=
  if negb (IsPayToScriptHash script) then GetSigOpCount script true
  else
    match push_only_loop (S (length scriptSig)) scriptSig [] with
    | None => 0
    | Some vData => GetSigOpCount vData true
    end.

Fixpoint valid_ops_loop (fuel : nat) (pc : bytes) : bool :=
  match fuel with
  | O => false
  | S fuel' =>
      match pc with
      | [] => true
      | _ =>
          match GetOp2 pc with
          | None => false
          | Some (opcode, item, pc') =>
              if (opcode >? MAX_OPCODE) || (Z.of_nat (length item) >? MAX_SCRIPT_ELEMENT_SIZE)
              then false else valid_ops_loop fuel' pc'
          end
      end
  end.
Definition HasValidOps (s : CScript) : bool := valid_ops_loop (S (length s)) s.

(** * Asset scripts *)

Definition HEMP_R : Z := 114.
Definition HEMP_V : Z := 118.
Definition HEMP_N : Z := 110.
Definition HEMP_Q : Z := 113.
Definition HEMP_T : Z := 116.
Definition HEMP_O : Z := 111.

Inductive txnouttype :=
| TX_NONSTANDARD | TX_PUBKEY | TX_PUBKEYHASH | TX_SCRIPTHASH | TX_MULTISIG | TX_NULL_DATA
| TX_WITNESS_V0_SCRIPTHASH | TX_WITNESS_V0_KEYHASH
| TX_NEW_ASSET | TX_REISSUE_ASSET | TX_TRANSFER_ASSET | TX_RESTRICTED_ASSET_DATA.

(** The kind of asset output, whether it is an owner token, and where the
    asset data starts. *)
Definition IsAssetScript (s : CScript) : option (txnouttype * bool * nat) :=
  if Z.of_nat (length s) >? 31 then
    if get s 25 =? OP_HEMP_ASSET then
      let index :=
        if get s 27 =? HEMP_R then
          if (get s 28 =? HEMP_V) && (get s 29 =? HEMP_N) then Some 30%nat else None
        else
          if (get s 28 =? HEMP_R) && (get s 29 =? HEMP_V) && (get s 30 =? HEMP_N)
          then Some 31%nat else None in
      match index with
      | None => None
      | Some i =>
          if get s i =? HEMP_T then Some (TX_TRANSFER_ASSET, false, S i)
          else if (get s i =? HEMP_Q) && (Z.of_nat (length s) >? 39)
          then Some (TX_NEW_ASSET, false, S i)
          else if get s i =? HEMP_O then Some (TX_NEW_ASSET, true, S i)
          else if get s i =? HEMP_R then Some (TX_REISSUE_ASSET, false, S i)
          else None
      end
    else None
  else None.

Definition IsNewAsset (s : CScript) : bool :=
  match IsAssetScript s with Some (TX_NEW_ASSET, false, _) => true | _ => false end.
Definition IsOwnerAsset (s : CScript) : bool :=
  match IsAssetScript s with Some (TX_NEW_ASSET, true, _) => true | _ => false end.
Definition IsReissueAsset (s : CScript) : bool :=
  match IsAssetScript s with Some (TX_REISSUE_ASSET, _, _) => true | _ => false end.
Definition IsTransferAsset (s : CScript) : bool :=
  match IsAssetScript s with Some (TX_TRANSFER_ASSET, _, _) => true | _ => false end.

Definition IsNullAssetTxDataScript (s : CScript) : bool :=
  (Z.of_nat (length s) >? 23) && (get s 0 =? OP_HEMP_ASSET) && (get s 1 =? 0x14).

Definition IsNullGlobalRestrictionAssetTxDataScript (s : CScript) : bool :=
  (Z.of_nat (length s) >? 6) && (get s 0 =? OP_HEMP_ASSET) &&
  (get s 1 =? OP_RESERVED) && (get s 2 =? OP_RESERVED).

Definition IsNullAssetVerifierTxDataScript (s : CScript) : bool :=
  (Z.of_nat (length s) >? 3) && (get s 0 =? OP_HEMP_ASSET) &&
  (get s 1 =? OP_RESERVED) && negb (get s 2 =? OP_RESERVED).

Definition IsNullAsset (s : CScript) : bool :=
  IsNullAssetTxDataScript s || IsNullGlobalRestrictionAssetTxDataScript s ||
  IsNullAssetVerifierTxDataScript s.

(** * Script numbers: lemmas *)

Lemma low_byte (n : Z) : Z.land n 0xff = n mod 256.
Proof. exact (Z.land_ones n 8 ltac:(lia)). Qed.

Lemma sign_bit (b : Z) : in_u 8 b -> negb (Z.land b 0x80 =? 0) = (128 <=? b).
Proof.
  intros Hb; change 0x80 with (2 ^ 7); rewrite land_pow2_eqb, negb_involutive by lia.
  apply (testbit_top b 7); [lia | exact Hb].
Qed.

Lemma low_bits (b : Z) : Z.land b 0x7f = b mod 128.
Proof. exact (Z.land_ones b 7 ltac:(lia)). Qed.

Lemma back_snoc (v : bytes) (b : Z) : back (v ++ [b]) = b.
Proof. apply last_last. Qed.

Lemma snoc_bytes (v : bytes) (b : Z) : is_bytes (v ++ [b]) <-> is_bytes v /\ in_u 8 b.
Proof.
  unfold is_bytes; rewrite Forall_app; split; intros [H1 H2]; split; auto; inv H2; auto.
Qed.

Lemma le_val_snoc (v : bytes) (b : Z) :
  le_val 8 (v ++ [b]) = le_val 8 v + 2 ^ (8 * Z.of_nat (length v)) * b.
Proof. rewrite le_val_app by lia; cbn [le_val]; lia. Qed.

(** Up to eight bytes are accumulated into the number they spell; the top
    byte of eight is the sign of the machine integer. *)
Lemma set_vch_loop_spec (vch : bytes) : forall shift r, is_bytes vch -> 0 <= shift ->
  in_u shift r -> shift + 8 * Z.of_nat (length vch) <= 56 ->
  set_vch_loop shift r vch = r + 2 ^ shift * le_val 8 vch.
Proof.
  induction vch as [| b vch IH]; intros shift r Hb Hs Hr Hl; cbn [set_vch_loop le_val]; [lia |].
  inversion Hb as [| ? ? Hb0 Hb']; subst; cbn [length] in Hl; unfold in_u in *.
  assert (Hp : 0 < 2 ^ shift) by (apply pow2_pos; lia).
  assert (Hp8 : 2 ^ (shift + 8) = 2 ^ shift * 256) by (rewrite Z.pow_add_r by lia; reflexivity).
  assert (Hmax : 2 ^ (shift + 8) <= 2 ^ 56) by (apply Z.pow_le_mono_r; lia).
  assert (E1 : s64 (Z.shiftl b shift) = Z.shiftl b shift).
  { apply swrap_id; [lia |]; rewrite Z.shiftl_mul_pow2 by lia; unfold in_s.
    change (2 ^ (64 - 1)) with (2 ^ 63); nia. }
  rewrite E1, <- add_lor_shift by (auto; lia).
  assert (E2 : s64 (r + 2 ^ shift * b) = r + 2 ^ shift * b).
  { apply swrap_id; [lia |]; unfold in_s; change (2 ^ (64 - 1)) with (2 ^ 63); nia. }
  rewrite E2, IH by (auto; try lia; rewrite Hp8; nia); rewrite Hp8; ring.
Qed.

Lemma clear_bit (x k : Z) : 0 <= k -> Z.testbit x k = true ->
  Z.land x (Z.lnot (2 ^ k)) = x - 2 ^ k.
Proof.
  intros Hk Hb; rewrite <- Z.ldiff_land; symmetry; apply Z.sub_nocarry_ldiff.
  apply Z.bits_inj'; intros n Hn; rewrite Z.ldiff_spec, Z.testbit_0_l, Z.pow2_bits_eqb by lia.
  destruct (Z.eqb_spec k n) as [-> |]; [rewrite Hb |]; reflexivity.
Qed.

Lemma set_vch_spec (u : bytes) (b : Z) : is_bytes u -> in_u 8 b -> (length u <= 6)%nat ->
  set_vch (u ++ [b]) =
  if 128 <=? b then - (le_val 8 u + 2 ^ (8 * Z.of_nat (length u)) * (b - 128))
  else le_val 8 u + 2 ^ (8 * Z.of_nat (length u)) * b.
Proof.
  intros Hu Hb Hl; unfold set_vch.
  destruct (u ++ [b]) as [| x v] eqn:E; [destruct u; discriminate |]; rewrite <- E; clear E x v.
  set (s := 8 * Z.of_nat (length u)); assert (Hs : 0 <= s) by lia.
  assert (HB : is_bytes (u ++ [b])) by (apply snoc_bytes; auto).
  assert (H0 : in_u 0 0) by (unfold in_u; rewrite Z.pow_0_r; lia).
  assert (Hlen : 0 + 8 * Z.of_nat (length (u ++ [b])) <= 56) by (rewrite length_app; cbn [length]; lia).
  rewrite (set_vch_loop_spec _ 0 0 HB (Z.le_refl 0) H0 Hlen), le_val_snoc, back_snoc, sign_bit
    by exact Hb.
  fold s; rewrite Z.pow_0_r, Z.mul_1_l, Z.add_0_l.
  pose proof (le_val_bounds 8 u ltac:(lia) Hu) as HL; fold s in HL; unfold in_u in Hb.
  assert (Hp : 0 < 2 ^ s) by (apply pow2_pos; lia).
  assert (Hm : 2 ^ s <= 2 ^ 48) by (apply Z.pow_le_mono_r; lia).
  destruct (Z.leb_spec 128 b); [| reflexivity].
  assert (HX : 0 <= le_val 8 u + 2 ^ s * b < 2 ^ 56) by nia.
  unfold w64; rewrite wrap_id by (unfold in_u; lia).
  rewrite length_app; cbn [length]; replace (8 * (Z.of_nat (length u + 1) - 1)) with s by lia.
  replace (Z.shiftl 128 s) with (2 ^ (s + 7))
    by (rewrite Z.shiftl_mul_pow2, Z.pow_add_r by lia; lia).
  rewrite clear_bit; [| lia |].
  - rewrite Z.pow_add_r by lia; unfold s64; rewrite swrap_id; [ring | lia |].
    unfold in_s; change (2 ^ (64 - 1)) with (2 ^ 63); nia.
  - rewrite add_lor_shift, Z.lor_spec, Z.shiftl_spec, Z.add_simpl_l by (unfold in_u; lia).
    rewrite (testbit_high s) by (unfold in_u; lia); cbn [orb].
    rewrite (testbit_top b 7) by (unfold in_u; lia); apply Z.leb_le; lia.
Qed.

Lemma abs_bytes_spec (fuel : nat) : forall a, 0 <= a < 2 ^ (8 * Z.of_nat fuel) ->
  is_bytes (abs_bytes fuel a) /\ le_val 8 (abs_bytes fuel a) = a /\
  (a <> 0 -> 1 <= back (abs_bytes fuel a)) /\
  (forall k, a < 2 ^ (8 * Z.of_nat k) -> (length (abs_bytes fuel a) <= k)%nat).
Proof.
  induction fuel as [| fuel IH]; intros a Ha.
  { replace a with 0 by (cbn in Ha; lia); split_all; auto; [constructor | lia | simpl; lia]. }
  cbn [abs_bytes]; destruct (Z.eqb_spec a 0) as [-> | Hne].
  { split_all; auto; [constructor | lia | simpl; lia]. }
  rewrite low_byte, Z.shiftr_div_pow2 by lia; change (2 ^ 8) with 256.
  pose proof (Z.div_mod a 256 ltac:(lia)); pose proof (Z.mod_pos_bound a 256 ltac:(lia)).
  assert (Hq : 0 <= a / 256 < 2 ^ (8 * Z.of_nat fuel)).
  { split; [apply Z.div_pos; lia |]; apply Z.div_lt_upper_bound; [lia |].
    change 256 with (2 ^ 8); rewrite <- Z.pow_add_r by lia.
    replace (8 + 8 * Z.of_nat fuel) with (8 * Z.of_nat (S fuel)) by lia; lia. }
  destruct (IH (a / 256) Hq) as (H1 & H2 & H3 & H4); split_all.
  - constructor; [unfold in_u; lia | exact H1].
  - cbn [le_val]; rewrite H2; change (2 ^ 8) with 256; lia.
  - intros _; destruct (abs_bytes fuel (a / 256)) as [| x v] eqn:E.
    + cbn [le_val] in H2; unfold back; simpl; lia.
    + change (back (a mod 256 :: x :: v)) with (back (x :: v)); apply H3; intros Hz.
      rewrite Hz in E; destruct fuel; discriminate.
  - intros k Hk; destruct k as [| k]; [cbn in Hk; lia |].
    cbn [length]; apply le_n_S, H4; apply Z.div_lt_upper_bound; [lia |].
    change 256 with (2 ^ 8); rewrite <- Z.pow_add_r by lia.
    replace (8 + 8 * Z.of_nat k) with (8 * Z.of_nat (S k)) by lia; lia.
Qed.

(** Byte strings without a zero at the end are determined by their number. *)
Lemma abs_bytes_unique (v : bytes) : is_bytes v -> (v = [] \/ back v <> 0) ->
  forall fuel, (length v <= fuel)%nat -> abs_bytes fuel (le_val 8 v) = v.
Proof.
  induction 1 as [| x v Hx Hv IH]; intros Hb fuel Hf; [destruct fuel; reflexivity |].
  destruct fuel as [| fuel]; [simpl in Hf; lia |]; cbn [le_val abs_bytes]; unfold in_u in Hx.
  pose proof (le_val_bounds 8 v ltac:(lia) Hv) as HV; change (2 ^ 8) with 256 in *.
  assert (Hv' : v = [] \/ back v <> 0).
  { destruct v as [| y v]; [auto |]; right; destruct Hb as [Hb | Hb]; [discriminate |]; exact Hb. }
  assert (Hnz : x + 256 * le_val 8 v <> 0).
  { destruct v as [| y v]; [cbn [le_val]; destruct Hb as [Hb | Hb]; [discriminate | unfold back in Hb; simpl in Hb; lia] |].
    destruct Hv' as [Hv' | Hv']; [discriminate |]; intros Hz.
    assert (Hz' : le_val 8 (y :: v) = 0) by lia.
    rewrite Hz' in IH; specialize (IH ltac:(auto) (length (y :: v)) (le_n _)); simpl in IH; discriminate. }
  rewrite (proj2 (Z.eqb_neq _ _)) by exact Hnz; rewrite low_byte, Z.shiftr_div_pow2 by lia.
  change (2 ^ 8) with 256; rewrite (Z.mul_comm 256), Z_mod_plus_full, Z.mod_small by lia.
  rewrite Z.div_add, Z.div_small, Z.add_0_l by lia; f_equal; apply IH; [exact Hv' | simpl in Hf; lia].
Qed.

Lemma get_snoc2 (u : bytes) (x b : Z) : get ((u ++ [x]) ++ [b]) (length ((u ++ [x]) ++ [b]) - 2) = x.
Proof.
  rewrite !length_app; cbn [length].
  replace (length u + 1 + 1 - 2)%nat with (length u) by lia.
  unfold get; rewrite <- app_assoc, app_nth2, Nat.sub_diag by lia; reflexivity.
Qed.

Lemma minimal_snoc (u : bytes) (b : Z) : is_bytes u -> in_u 8 b ->
  IsMinimallyEncoded (u ++ [b]) =
  negb ((b mod 128 =? 0) && match u with [] => true | _ => back u <? 128 end).
Proof.
  intros Hu Hb; unfold IsMinimallyEncoded; rewrite back_snoc, low_bits.
  rewrite (proj2 (Z.ltb_lt 0 _)) by (rewrite length_app; cbn [length]; lia); cbn [andb]; do 2 f_equal.
  destruct u as [| x u] using rev_ind; [reflexivity |]; clear IHu.
  rewrite (proj2 (Z.leb_gt _ _)) by (rewrite !length_app; cbn [length]; lia); cbn [orb].
  rewrite get_snoc2, back_snoc; apply snoc_bytes in Hu; destruct Hu as [_ Hx].
  rewrite <- (negb_involutive (Z.land x 128 =? 0)), sign_bit by exact Hx.
  destruct (u ++ [x]) eqn:E; [destruct u; discriminate |].
  rewrite Z.ltb_antisym; reflexivity.
Qed.

Lemma nonempty_snoc (v : bytes) : v <> [] -> exists u b, v = u ++ [b].
Proof. intros H; destruct (exists_last H) as (u & b & ->); eauto. Qed.

(** What [serialize] writes: the bytes of the magnitude, with the sign in the
    top bit of the last byte or in a byte of its own. *)
Lemma serialize_shape (n : Z) : n <> 0 -> Z.abs n < 2 ^ 63 ->
  exists u t, is_bytes u /\ in_u 8 t /\ 1 <= t /\
    Z.abs n = le_val 8 u + 2 ^ (8 * Z.of_nat (length u)) * t /\
    serialize n = if 128 <=? t then (u ++ [t]) ++ [if n <? 0 then 0x80 else 0]
                  else u ++ [if n <? 0 then t + 128 else t].
Proof.
  intros Hn Ha; unfold serialize; rewrite (proj2 (Z.eqb_neq n 0)) by exact Hn.
  replace (if n <? 0 then - n else n) with (Z.abs n) by (destruct (Z.ltb_spec n 0); lia).
  destruct (abs_bytes_spec 8 (Z.abs n)) as (Hb & Hv & Hl & _); [cbn; lia |].
  specialize (Hl ltac:(lia)).
  destruct (nonempty_snoc (abs_bytes 8 (Z.abs n))) as (u & t & E).
  { intros E; rewrite E in Hv; cbn [le_val] in Hv; lia. }
  rewrite E in *; rewrite back_snoc in *; apply snoc_bytes in Hb; destruct Hb as [Hu Ht].
  exists u, t; rewrite sign_bit by exact Ht; rewrite <- Hv, le_val_snoc; split_all; auto.
  destruct (Z.leb_spec 128 t); [reflexivity |].
  destruct (n <? 0); [| reflexivity]; rewrite removelast_last; do 2 f_equal.
  change 128 with (Z.shiftl 1 7) at 1; rewrite <- add_lor_shift; [reflexivity | unfold in_u in *; lia | lia].
Qed.

Lemma serialize_decodes (n k : Z) : 1 <= k <= 7 -> Z.abs n < 2 ^ (8 * k - 1) ->
  is_bytes (serialize n) /\ CScriptNum (serialize n) true k = Ok n.
Proof.
  intros Hk Ha; destruct (Z.eq_dec n 0) as [-> | Hn].
  { split; [constructor |]; unfold CScriptNum; cbn [serialize Z.eqb length Z.of_nat].
    rewrite Z.gtb_ltb, (proj2 (Z.ltb_ge k 0)) by lia; reflexivity. }
  assert (H63 : 2 ^ (8 * k - 1) <= 2 ^ 55) by (apply Z.pow_le_mono_r; lia).
  destruct (serialize_shape n Hn ltac:(lia)) as (u & t & Hu & Ht & Ht1 & Hv & ->).
  pose proof (le_val_bounds 8 u ltac:(lia) Hu) as HL; unfold in_u in Ht.
  set (s := 8 * Z.of_nat (length u)) in *.
  assert (Hp : 0 < 2 ^ s) by (apply pow2_pos; lia).
  assert (Hlen : forall j, 2 ^ j <= t -> 0 <= j -> s + j < 8 * k - 1).
  { intros j Hj Hj0; apply (Z.pow_lt_mono_r_iff 2); [lia | lia |].
    rewrite Z.pow_add_r by lia; nia. }
  destruct (Z.leb_spec 128 t) as [H7 | H7].
  - specialize (Hlen 7 H7 ltac:(lia)); set (x := if n <? 0 then 128 else 0).
    assert (Hx : in_u 8 x) by (unfold x, in_u; destruct (n <? 0); lia).
    assert (Hut : is_bytes (u ++ [t])) by (apply snoc_bytes; unfold in_u; auto).
    split; [apply snoc_bytes; auto |]; unfold CScriptNum.
    rewrite Z.gtb_ltb, (proj2 (Z.ltb_ge _ _)) by (rewrite !length_app; cbn [length]; lia).
    rewrite minimal_snoc, back_snoc by assumption.
    replace (match u ++ [t] with [] => true | _ => t <? 128 end) with false
      by (destruct (u ++ [t]) eqn:E; [destruct u; discriminate |]; symmetry; apply Z.ltb_ge; lia).
    rewrite andb_false_r; cbn [negb andb]; f_equal.
    rewrite set_vch_spec by (auto; rewrite length_app; cbn [length]; lia).
    rewrite le_val_snoc; fold s; rewrite <- Hv; unfold x.
    destruct (Z.ltb_spec n 0); cbn [Z.leb Z.compare Pos.compare Pos.compare_cont]; lia.
  - specialize (Hlen 0 ltac:(lia) ltac:(lia)); set (x := if n <? 0 then t + 128 else t).
    assert (Hx : in_u 8 x) by (unfold x, in_u; destruct (n <? 0); lia).
    split; [apply snoc_bytes; auto |]; unfold CScriptNum.
    rewrite Z.gtb_ltb, (proj2 (Z.ltb_ge _ _)) by (rewrite !length_app; cbn [length]; lia).
    rewrite minimal_snoc by assumption.
    assert (Em : x mod 128 = t).
    { unfold x; destruct (n <? 0); [| apply Z.mod_small; lia].
      replace (t + 128) with (t + 1 * 128) by lia; rewrite Z_mod_plus_full; apply Z.mod_small; lia. }
    rewrite Em, (proj2 (Z.eqb_neq t 0)) by lia; cbn [negb andb]; f_equal.
    rewrite set_vch_spec by (auto; lia); fold s; unfold x.
    destruct (Z.ltb_spec n 0); [rewrite (proj2 (Z.leb_le _ _)) | rewrite (proj2 (Z.leb_gt _ _))]; lia.
Qed.

Lemma serialize_of (u : bytes) (t : Z) (neg : bool) : is_bytes u -> in_u 8 t -> 1 <= t ->
  (length u <= 6)%nat ->
  let a := le_val 8 u + 2 ^ (8 * Z.of_nat (length u)) * t in
  serialize (if neg then - a else a) =
  if 128 <=? t then (u ++ [t]) ++ [if neg then 0x80 else 0]
  else u ++ [if neg then t + 128 else t].
Proof.
  intros Hu Ht H1 Hl a; pose proof (le_val_bounds 8 u ltac:(lia) Hu) as HL.
  assert (Ea : a = le_val 8 (u ++ [t])) by (unfold a; rewrite le_val_snoc; reflexivity).
  assert (Hp : 0 < 2 ^ (8 * Z.of_nat (length u))) by (apply pow2_pos; lia).
  assert (Hpos : 0 < a) by (unfold a; nia).
  unfold serialize; rewrite (proj2 (Z.eqb_neq _ 0)) by (destruct neg; lia).
  replace ((if neg then - a else a) <? 0) with neg
    by (destruct neg; symmetry; [apply Z.ltb_lt | apply Z.ltb_ge]; lia).
  replace (if neg then - (if neg then - a else a) else (if neg then - a else a)) with a
    by (destruct neg; lia).
  rewrite Ea, abs_bytes_unique; [| apply snoc_bytes; auto | right; rewrite back_snoc; lia |
    rewrite length_app; cbn [length]; lia].
  rewrite back_snoc, sign_bit by exact Ht; destruct (Z.leb_spec 128 t); [reflexivity |].
  destruct neg; [| reflexivity]; rewrite removelast_last; do 2 f_equal.
  change 128 with (Z.shiftl 1 7) at 1; rewrite <- add_lor_shift; [reflexivity | unfold in_u in *; lia | lia].
Qed.

Lemma serialize_canonical (v : bytes) : is_bytes v -> (length v <= 7)%nat ->
  IsMinimallyEncoded v = true -> serialize (set_vch v) = v.
Proof.
  intros Hv Hl Hm; destruct v as [| x v]; [reflexivity |].
  destruct (nonempty_snoc (x :: v)) as (u & b & E); [discriminate |]; rewrite E in *; clear E x v.
  apply snoc_bytes in Hv; destruct Hv as [Hu Hb]; rewrite length_app in Hl; cbn [length] in Hl.
  rewrite minimal_snoc in Hm by assumption; rewrite set_vch_spec by (auto; lia).
  pose proof Hb as Hb'; unfold in_u in Hb'; apply negb_true_iff, andb_false_iff in Hm.
  set (P := 2 ^ (8 * Z.of_nat (length u))).
  destruct (Z.eqb_spec (b mod 128) 0) as [H0 | H0].
  - destruct Hm as [Hm | Hm]; [discriminate |].
    destruct u as [| t u] using rev_ind; [discriminate |]; clear IHu.
    apply snoc_bytes in Hu; destruct Hu as [Hu Ht]; rewrite back_snoc in Hm.
    assert (Ht128 : 128 <= t) by (destruct (u ++ [t]) eqn:E; [destruct u; discriminate |]; bool_to_prop; lia).
    rewrite length_app in Hl; cbn [length] in Hl.
    assert (Hcase : b = 0 \/ b = 128).
    { pose proof (Z.div_mod b 128 ltac:(lia)).
      assert (b / 128 = 0 \/ b / 128 = 1); [| lia].
      assert (0 <= b / 128 < 2); [| lia]; split; [apply Z.div_pos | apply Z.div_lt_upper_bound]; lia. }
    pose proof (serialize_of u t (128 <=? b) Hu Ht ltac:(lia) ltac:(lia)) as Hs; cbn zeta in Hs.
    rewrite le_val_snoc; rewrite (proj2 (Z.leb_le 128 t)) in Hs by lia.
    destruct Hcase as [-> | ->]; cbn [Z.leb Z.compare Pos.compare Pos.compare_cont] in *;
      rewrite ?Z.mul_0_r, ?Z.add_0_r; exact Hs.
  - assert (Hd : b = b mod 128 + (if 128 <=? b then 128 else 0)).
    { destruct (Z.leb_spec 128 b); [| rewrite Z.mod_small; lia].
      replace b with (b - 128 + 1 * 128) at 2 by lia; rewrite Z_mod_plus_full, Z.mod_small; lia. }
    pose proof (Z.mod_pos_bound b 128 ltac:(lia)) as Hmb.
    pose proof (serialize_of u (b mod 128) (128 <=? b) Hu ltac:(unfold in_u; lia) ltac:(lia) ltac:(lia)) as Hs.
    cbn zeta in Hs; fold P in Hs; rewrite (proj2 (Z.leb_gt 128 (b mod 128))) in Hs by lia.
    destruct (Z.leb_spec 128 b).
    + replace (b - 128) with (b mod 128) by lia; rewrite Hs; do 2 f_equal; lia.
    + replace b with (b mod 128) at 1 by lia; rewrite Hs; do 2 f_equal; lia.
Qed.

(** * Reading what was built *)

(** [GetOp2] moves forward, and what it leaves is a suffix. *)
Lemma GetOp2_suffix (pc vch pc' : bytes) (opcode : Z) : GetOp2 pc = Some (opcode, vch, pc') ->
  exists pre, pc = opcode :: pre ++ pc'.
Proof.
  destruct pc as [| op pc]; [discriminate |]; cbn [GetOp2]; intros H.
  assert (Hend : forall v p, (exists pre, pc = pre ++ p) ->
    (if op =? OP_HEMP_ASSET then Some (op, p, []) else Some (op, v, p)) = Some (opcode, vch, pc') ->
    exists pre, op :: pc = opcode :: pre ++ pc').
  { intros v p (pre & ->); destruct (op =? OP_HEMP_ASSET); intros [= <- <- <-].
    - exists (pre ++ p); rewrite app_nil_r; reflexivity.
    - exists pre; reflexivity. }
  destruct (op <=? OP_PUSHDATA4); [| apply (Hend [] pc); [exists []; reflexivity | exact H]].
  assert (Hsz : forall n p, (exists pre, pc = pre ++ p) ->
    match (if Z.of_nat (length p) <? n then None
           else Some (firstn (Z.to_nat n) p, skipn (Z.to_nat n) p)) with
    | Some (v, p') => if op =? OP_HEMP_ASSET then Some (op, p', []) else Some (op, v, p')
    | None => None end = Some (opcode, vch, pc') ->
    exists pre, op :: pc = opcode :: pre ++ pc').
  { intros n p (pre & Ep) H'; destruct (Z.of_nat (length p) <? n); [discriminate |].
    apply (Hend _ _) in H'; [exact H' |].
    exists (pre ++ firstn (Z.to_nat n) p); rewrite <- app_assoc, firstn_skipn; exact Ep. }
  destruct (op <? OP_PUSHDATA1); [apply (Hsz op pc); [exists []; reflexivity | exact H] |].
  destruct (op =? OP_PUSHDATA1).
  { destruct pc as [| n pc0]; [discriminate |]; apply (Hsz n pc0); [exists [n]; reflexivity | exact H]. }
  destruct (op =? OP_PUSHDATA2).
  - destruct (Nat.ltb (length pc) 2); [discriminate |].
    apply (Hsz (ReadLE16 pc) (skipn 2 pc)); [| exact H].
    exists (firstn 2 pc); symmetry; apply firstn_skipn.
  - destruct (Nat.ltb (length pc) 4); [discriminate |].
    apply (Hsz (ReadLE32 pc) (skipn 4 pc)); [| exact H].
    exists (firstn 4 pc); symmetry; apply firstn_skipn.
Qed.

Lemma GetOp2_shorter (pc vch pc' : bytes) (opcode : Z) : GetOp2 pc = Some (opcode, vch, pc') ->
  (length pc' < length pc)%nat.
Proof.
  intros H; apply GetOp2_suffix in H; destruct H as (pre & ->); cbn [length]; rewrite length_app; lia.
Qed.

(** The opcode a data push uses. *)
Definition push_op (b : bytes) : Z :=
  let n := Z.of_nat (length b) in
  if n <? OP_PUSHDATA1 then n
  else if n <=? 0xff then OP_PUSHDATA1
  else if n <=? 0xffff then OP_PUSHDATA2
  else OP_PUSHDATA4.

Lemma data_split (b rest : bytes) :
  (if Z.of_nat (length (b ++ rest)) <? Z.of_nat (length b) then None
   else Some (firstn (Z.to_nat (Z.of_nat (length b))) (b ++ rest),
              skipn (Z.to_nat (Z.of_nat (length b))) (b ++ rest))) = Some (b, rest).
Proof.
  rewrite (proj2 (Z.ltb_ge _ _)) by (rewrite length_app; lia); rewrite Nat2Z.id.
  rewrite firstn_app, skipn_app, Nat.sub_diag, firstn_all, skipn_all; cbn [firstn skipn app].
  rewrite app_nil_r; reflexivity.
Qed.

Lemma le_split_head (k : nat) (n : Z) (rest : bytes) : in_u (8 * Z.of_nat k) n ->
  le_val 8 (firstn k (le_split 8 k n ++ rest)) = n /\ skipn k (le_split 8 k n ++ rest) = rest /\
  Nat.ltb (length (le_split 8 k n ++ rest)) k = false.
Proof.
  intros Hn; pose proof (length_le_split 8 k n) as Hk.
  rewrite firstn_app, skipn_app, Hk, Nat.sub_diag, firstn_all2, skipn_all2 by lia.
  cbn [firstn skipn app]; rewrite app_nil_r, le_val_split, Z.mod_small by (lia || exact Hn).
  split_all; auto; apply Nat.ltb_ge; rewrite length_app; lia.
Qed.

Lemma GetOp2_push (b rest : bytes) : Z.of_nat (length b) < 2 ^ 32 ->
  GetOp2 (push_data [] b ++ rest) = Some (push_op b, b, rest).
Proof.
  intros Hn; unfold push_data, push_op; cbn [app]; set (n := Z.of_nat (length b)) in *.
  change (opcode_value OP_PUSHDATA1) with 0x4c in *.
  destruct (Z.ltb_spec n 0x4c) as [H1 | H1].
  { cbn [app GetOp2]; rewrite (proj2 (Z.leb_le n OP_PUSHDATA4)), (proj2 (Z.ltb_lt n OP_PUSHDATA1)) by (cbn; lia).
    unfold n; rewrite data_split; fold n; rewrite (proj2 (Z.eqb_neq n OP_HEMP_ASSET)) by (cbn; lia).
    reflexivity. }
  destruct (Z.leb_spec n 0xff).
  { cbn [app GetOp2 Z.leb Z.ltb Z.eqb Z.compare Pos.compare Pos.compare_cont Pos.eqb opcode_value].
    unfold n; rewrite data_split; reflexivity. }
  destruct (Z.leb_spec n 0xffff).
  - destruct (le_split_head 2 n (b ++ rest)) as (E1 & E2 & E3); [unfold in_u; cbn; lia |].
    rewrite <- app_assoc; cbn [app GetOp2].
    change (OP_PUSHDATA2 <=? OP_PUSHDATA4) with true; change (OP_PUSHDATA2 <? OP_PUSHDATA1) with false.
    change (OP_PUSHDATA2 =? 76) with false; change (OP_PUSHDATA2 =? OP_PUSHDATA1) with false.
    change (OP_PUSHDATA2 =? OP_PUSHDATA2) with true; cbn match.
    unfold ReadLE16; rewrite E1, E2, E3; unfold n; rewrite data_split; reflexivity.
  - destruct (le_split_head 4 n (b ++ rest)) as (E1 & E2 & E3); [unfold in_u; cbn; lia |].
    rewrite <- app_assoc; cbn [app GetOp2].
    change (OP_PUSHDATA4 <=? OP_PUSHDATA4) with true; change (OP_PUSHDATA4 <? OP_PUSHDATA1) with false.
    change (OP_PUSHDATA4 =? OP_PUSHDATA1) with false; change (OP_PUSHDATA4 =? OP_PUSHDATA2) with false.
    cbn match; unfold ReadLE32; rewrite E1, E2, E3; unfold n; rewrite data_split; reflexivity.
Qed.

(** Scripts as the code builds them: opcodes and data pushes. *)
Inductive script_item := Op (op : opcodetype) | Push (b : bytes).

Definition push_item (s : CScript) (i : script_item) : CScript :=
  match i with Op op => push_opcode s op | Push b => push_data s b end.

Definition build (l : list script_item) : CScript := fold_left push_item l [].

(** Opcodes that are not pushes and carry no data. *)
Definition good_item (i : script_item) : Prop :=
  match i with
  | Op op => OP_PUSHDATA4 < opcode_value op <= 0xff /\ op <> OP_HEMP_ASSET /\ op <> OP_UNNAMED OP_HEMP_ASSET
  | Push b => Z.of_nat (length b) < 2 ^ 32
  end.

Definition item_op (i : script_item) : Z * bytes :=
  match i with Op op => (opcode_value op, []) | Push b => (push_op b, b) end.

(** All operations of a script, [None] if it does not parse. *)
Fixpoint parse_fuel (fuel : nat) (pc : bytes) : option (list (Z * bytes)) :=
  match pc with
  | [] => Some []
  | _ =>
      match fuel with
      | O => None
      | S fuel' =>
          match GetOp2 pc with
          | None => None
          | Some (opcode, vch, pc') =>
              match parse_fuel fuel' pc' with
              | Some l => Some ((opcode, vch) :: l)
              | None => None
              end
          end
      end
  end.
Definition parse (s : CScript) : option (list (Z * bytes)) := parse_fuel (length s) s.

Lemma push_item_app (s : CScript) (i : script_item) : push_item s i = s ++ push_item [] i.
Proof. destruct i; reflexivity. Qed.

Lemma build_cons (i : script_item) (l : list script_item) : build (i :: l) = push_item [] i ++ build l.
Proof.
  unfold build; cbn [fold_left]; generalize (push_item [] i) as s.
  induction l as [| j l IH]; intros s; cbn [fold_left]; [rewrite app_nil_r; reflexivity |].
  rewrite IH, (IH (push_item [] j)), push_item_app, app_assoc; reflexivity.
Qed.

Lemma GetOp2_item (i : script_item) (rest : bytes) : good_item i ->
  GetOp2 (push_item [] i ++ rest) = Some (fst (item_op i), snd (item_op i), rest).
Proof.
  destruct i as [op | b]; cbn [good_item push_item item_op fst snd]; [intros (H1 & H2 & H3) |].
  - unfold push_opcode; cbn [app GetOp2]; rewrite (proj2 (Z.leb_gt _ _)) by lia; cbn match.
    rewrite (proj2 (Z.eqb_neq _ _)); [reflexivity |]; intros E; apply H2.
    destruct op; cbn in E; try discriminate; [reflexivity |].
    exfalso; apply H3; rewrite E; reflexivity.
  - apply GetOp2_push.
Qed.

Lemma item_nonempty (i : script_item) : exists x l, push_item [] i = x :: l.
Proof.
  destruct i as [op | b]; cbn [push_item]; unfold push_opcode, push_data; cbn [app]; eauto.
  repeat case_if; cbn [app]; eauto.
Qed.

Lemma parse_fuel_build (l : list script_item) : Forall good_item l -> forall fuel,
  (length (build l) <= fuel)%nat -> parse_fuel fuel (build l) = Some (map item_op l).
Proof.
  induction 1 as [| i l Hi Hl IH]; intros fuel Hf; [destruct fuel; reflexivity |].
  rewrite build_cons in *; destruct (item_nonempty i) as (x & t & E).
  pose proof (GetOp2_item i (build l) Hi) as HG; rewrite E in *; cbn [app length] in *.
  destruct fuel as [| fuel]; [lia |]; cbn [parse_fuel]; rewrite HG.
  rewrite IH by (rewrite length_app in Hf; lia); cbn [map]; destruct (item_op i); reflexivity.
Qed.

(** * Deleting from scripts *)

(** [deleted b n s r]: [r] is [s] with [n] copies of [b] taken out. *)
Inductive deleted (b : bytes) : Z -> bytes -> bytes -> Prop :=
| deleted_nil : deleted b 0 [] []
| deleted_keep x n s r : deleted b n s r -> deleted b n (x :: s) (x :: r)
| deleted_drop n s r : deleted b n s r -> deleted b (n + 1) (b ++ s) r.

Lemma deleted_refl (b s : bytes) : deleted b 0 s s.
Proof. induction s; constructor; auto. Qed.

Lemma deleted_app (b s1 r1 s2 r2 : bytes) (n m : Z) :
  deleted b n s1 r1 -> deleted b m s2 r2 -> deleted b (n + m) (s1 ++ s2) (r1 ++ r2).
Proof.
  intros H1 H2; induction H1 as [| x n s r H IH | n s r H IH]; cbn [app]; auto.
  - constructor; exact IH.
  - rewrite <- app_assoc; replace (n + 1 + m) with (n + m + 1) by lia; constructor; exact IH.
Qed.

Lemma deleted_length (b s r : bytes) (n : Z) : deleted b n s r ->
  0 <= n /\ Z.of_nat (length s) = Z.of_nat (length r) + n * Z.of_nat (length b).
Proof.
  induction 1 as [| x n s r H IH | n s r H IH]; cbn [length]; [lia | lia |].
  rewrite length_app; nia.
Qed.

Lemma starts_with_app (b pc : bytes) : starts_with b pc = true -> exists p, pc = b ++ p.
Proof.
  revert pc; induction b as [| x b IH]; intros pc H; [exists pc; reflexivity |].
  destruct pc as [| y pc]; cbn [starts_with] in H; [discriminate |]; bool_to_prop; subst.
  destruct (IH pc H0) as (p & ->); exists p; reflexivity.
Qed.

Lemma skip_matches_spec (b : bytes) : b <> [] -> forall fuel pc nFound,
  (length pc < fuel)%nat ->
  exists k pre p, skip_matches fuel b pc nFound = (p, nFound + k) /\
    pc = pre ++ p /\ deleted b k pre [].
Proof.
  intros Hb; induction fuel as [| fuel IH]; intros pc nFound Hf; [lia |].
  cbn [skip_matches]; destruct (starts_with b pc) eqn:E.
  - apply starts_with_app in E; destruct E as (p & ->).
    assert (0 < length b)%nat by (destruct b; [congruence | simpl; lia]).
    rewrite length_app in Hf; rewrite skipn_app, skipn_all, Nat.sub_diag; cbn [app skipn].
    destruct (IH p (nFound + 1)) as (k & pre & q & E & -> & Hd); [lia |].
    exists (k + 1), (b ++ pre), q; split_all;
      [rewrite E; f_equal; lia | apply app_assoc | constructor; exact Hd].
  - exists 0, [], pc; split_all; [f_equal; lia | reflexivity | constructor].
Qed.

Lemma find_and_delete_spec (b : bytes) : b <> [] -> forall fuel pc2 pc res nFound s,
  (length pc < fuel)%nat ->
  deleted b nFound s (res ++ firstn (length pc2 - length pc) pc2) ->
  exists r n, find_and_delete_loop fuel b pc2 pc res nFound = Some (r, n) /\
              deleted b n (s ++ pc) r.
Proof.
  intros Hb; induction fuel as [| fuel IH]; intros pc2 pc res nFound s Hf Hd; [lia |].
  cbn [find_and_delete_loop]; set (res' := res ++ firstn (length pc2 - length pc) pc2) in *.
  destruct (skip_matches_spec b Hb (S (length pc)) pc nFound) as (k & sk & p & -> & -> & Hk); [lia |].
  pose proof (deleted_app b s res' sk [] nFound k Hd Hk) as Hd'; rewrite app_nil_r in Hd'.
  destruct (GetOp2 p) as [[[op v] pc'] |] eqn:EG.
  - apply GetOp2_suffix in EG; destruct EG as (pre & ->).
    assert (Epre : firstn (length (op :: pre ++ pc') - length pc') (op :: pre ++ pc') = op :: pre).
    { cbn [length]; rewrite length_app, Nat.sub_succ_l, Nat.add_sub by lia; cbn [firstn]; f_equal.
      rewrite firstn_app, Nat.sub_diag, firstn_all; apply app_nil_r. }
    destruct (IH (op :: pre ++ pc') pc' res' (nFound + k) ((s ++ sk) ++ op :: pre))
      as (r & n & E & Hr).
    + rewrite length_app in Hf; cbn [length] in Hf; rewrite length_app in Hf; lia.
    + rewrite Epre; pose proof (deleted_app b _ _ (op :: pre) (op :: pre) _ 0 Hd' (deleted_refl b _)) as H.
      rewrite Z.add_0_r in H; exact H.
    + exists r, n; split; [exact E |]; rewrite <- !app_assoc in Hr; exact Hr.
  - exists (res' ++ p), (nFound + k); split; [reflexivity |].
    pose proof (deleted_app b _ _ p p _ 0 Hd' (deleted_refl b p)) as H.
    rewrite Z.add_0_r, <- app_assoc in H; exact H.
Qed.

(** * Counting signature operations *)

Lemma sigop_loop_mono (fuel : nat) : forall pc last last' n n', n <= n' ->
  sigop_loop fuel true pc last n <= sigop_loop fuel false pc last' n'.
Proof.
  induction fuel as [| fuel IH]; intros pc last last' n n' Hn; cbn [sigop_loop]; [exact Hn |].
  destruct (GetOp2 pc) as [[[op v] pc'] |]; [| exact Hn]; apply IH.
  cbn [andb]; unfold MAX_PUBKEYS_PER_MULTISIG; cbn [opcode_value].
  repeat case_if; bool_to_prop; lia.
Qed.

Lemma sigop_loop_bounds (fuel : nat) (acc : bool) : forall pc last n,
  n <= sigop_loop fuel acc pc last n <= n + 20 * Z.of_nat (length pc).
Proof.
  induction fuel as [| fuel IH]; intros pc last n; cbn [sigop_loop]; [lia |].
  destruct (GetOp2 pc) as [[[op v] pc'] |] eqn:E; [| lia].
  apply GetOp2_shorter in E.
  match goal with |- context [sigop_loop fuel acc pc' op ?m] => set (n' := m) end.
  assert (n <= n' <= n + 20).
  { unfold n', MAX_PUBKEYS_PER_MULTISIG; cbn [opcode_value]; repeat case_if; bool_to_prop; lia. }
  specialize (IH pc' op n'); lia.
Qed.

(** * Correctness *)

(** Script numbers: a number of up to [k] bytes with its sign (operands
    have [k = 4], lock times [k = 5]) is accepted back, also when minimal
    encoding is required; and a minimally encoded element of up to seven
    bytes is what [serialize] writes for its number, so a number has exactly
    one minimal encoding. *)
Theorem ScriptNum_codec (n k : Z) (v : bytes) :
  (1 <= k <= 7 -> Z.abs n < 2 ^ (8 * k - 1) ->
   is_bytes (serialize n) /\ CScriptNum (serialize n) true k = Ok n) /\
  (is_bytes v -> k <= 7 -> CScriptNum v true k = Ok n -> serialize n = v).
Proof.
  split; [apply serialize_decodes |].
  intros Hv Hk; unfold CScriptNum; rewrite Z.gtb_ltb.
  destruct (Z.ltb_spec k (Z.of_nat (length v))); [discriminate |]; cbn [andb].
  destruct (IsMinimallyEncoded v) eqn:E; cbn [negb]; [| discriminate].
  intros [= <-]; apply serialize_canonical; auto; lia.
Qed.

Lemma ScriptNum_codec_witness :
  CScriptNum (serialize (-255)) true 4 = Ok (-255) /\ serialize 128 = [0x80; 0x00].
Proof.
  split.
  - apply (ScriptNum_codec (-255) 4 []); cbn; lia.
  - apply (ScriptNum_codec 128 4 [0x80; 0x00]); [| lia | reflexivity].
    repeat constructor; unfold in_u; lia.
Defined.

(** Reading a script back: a script assembled from opcodes and data
    pushes of any size parses into exactly those operations, each push with
    its data, whichever of the four push forms was chosen for it. *)
Theorem parse_build (l : list script_item) :
  Forall good_item l -> parse (build l) = Some (map item_op l).
Proof. intros Hl; apply parse_fuel_build; [exact Hl | apply le_n]. Qed.

Lemma parse_build_witness :
  parse (build [Op OP_DUP; Op OP_HASH160; Push (repeat 7 20); Op OP_EQUALVERIFY; Op OP_CHECKSIG]) =
  Some [(0x76, []); (0xa9, []); (20, repeat 7 20); (0x88, []); (0xac, [])].
Proof.
  apply (parse_build [Op OP_DUP; Op OP_HASH160; Push (repeat 7 20); Op OP_EQUALVERIFY; Op OP_CHECKSIG]).
  repeat constructor; cbn; try lia; discriminate.
Defined.

(** [FindAndDelete] terminates on every script and takes out exactly the
    reported number of copies of the pattern, keeping every other byte in
    order; if it reports none the script is unchanged. *)
Theorem FindAndDelete_correct (script b : CScript) :
  exists r n, FindAndDelete script b = Some (r, n) /\ deleted b n script r /\
    (n = 0 -> r = script) /\
    Z.of_nat (length r) = Z.of_nat (length script) - n * Z.of_nat (length b).
Proof.
  unfold FindAndDelete; destruct b as [| x b].
  { exists script, 0; split_all; auto using deleted_refl; lia. }
  destruct (find_and_delete_spec (x :: b) ltac:(discriminate) (S (length script)) script script [] 0 [])
    as (r & n & -> & Hd); [lia | rewrite Nat.sub_diag; constructor |].
  cbn [app] in Hd; pose proof (deleted_length _ _ _ _ Hd) as [Hn Hl].
  rewrite Z.gtb_ltb; destruct (Z.ltb_spec 0 n).
  - exists r, n; split_all; auto; lia.
  - replace n with 0 in * by lia; exists script, 0; split_all; auto using deleted_refl; lia.
Qed.

(** The number of signature operations of a script: the accurate count is
    at most the legacy count, which charges twenty for every multisignature
    operation, and neither exceeds twenty per byte of the script; spending a
    script-hash output with a scriptSig that is not push-only counts as none,
    and any other output counts its own operations accurately. *)
Theorem GetSigOpCount_bounds (s scriptSig : CScript) :
  0 <= GetSigOpCount s true <= GetSigOpCount s false /\
  GetSigOpCount s false <= 20 * Z.of_nat (length s) /\
  (0 <= GetSigOpCountP2SH s scriptSig) /\
  (IsPayToScriptHash s = true -> IsPushOnly scriptSig = false -> GetSigOpCountP2SH s scriptSig = 0) /\
  (IsPayToScriptHash s = false -> GetSigOpCountP2SH s scriptSig = GetSigOpCount s true).
Proof.
  assert (Hb : forall l acc, 0 <= GetSigOpCount l acc <= 20 * Z.of_nat (length l)).
  { intros l acc; pose proof (sigop_loop_bounds (length l) acc l OP_INVALIDOPCODE 0) as H.
    unfold GetSigOpCount; lia. }
  pose proof (Hb s true); pose proof (Hb s false).
  pose proof (sigop_loop_mono (length s) s OP_INVALIDOPCODE OP_INVALIDOPCODE 0 0 (Z.le_refl 0)) as Hm.
  fold (GetSigOpCount s true) in Hm; fold (GetSigOpCount s false) in Hm.
  unfold GetSigOpCountP2SH, IsPushOnly.
  destruct (IsPayToScriptHash s); cbn [negb]; split_all; try lia; try discriminate; try reflexivity.
  - destruct (push_only_loop _ scriptSig []) as [v |]; [apply Hb | lia].
  - destruct (push_only_loop _ scriptSig []); [discriminate | reflexivity].
Qed.
