(* ===== verification/Standard.v ===== *)
(** Standard output scripts (src/script/standard.cpp, the serialized form of
    public keys of src/pubkey.h): classification of an output script by
    [Solver], the destinations it pays to, and the scripts generated for
    destinations.  The hash functions are arguments. *)

From Stdlib Require Import ZArith String List Bool Lia Arith.
From S2P Require Import Prelude Serialize Script.
Import ListNotations.
Open Scope Z_scope.

(** [CTxDestination]: hashes are 20-byte strings. *)
Inductive CTxDestination := CNoDestination | CKeyID (h : bytes) | CScriptID (h : bytes).

Definition IsValidDestination (d : CTxDestination) : bool :=
  match d with CNoDestination => false | _ => true end.

Definition GetTxnOutputType (t : txnouttype) : string :=
  match t with
  | TX_NONSTANDARD => "nonstandard"
  | TX_PUBKEY => "pubkey"
  | TX_PUBKEYHASH => "pubkeyhash"
  | TX_SCRIPTHASH => "scripthash"
  | TX_MULTISIG => "multisig"
  | TX_NULL_DATA => "nulldata"
  | TX_RESTRICTED_ASSET_DATA => "nullassetdata"
  | TX_WITNESS_V0_KEYHASH => "witness_v0_keyhash"
  | TX_WITNESS_V0_SCRIPTHASH => "witness_v0_scripthash"
  | TX_NEW_ASSET => "new_asset"
  | TX_TRANSFER_ASSET => "transfer_asset"
  | TX_REISSUE_ASSET => "reissue_asset"
  end%string.

(** * Public keys *)

(** The length announced by the header byte. *)
Definition GetLen (chHeader : Z) : Z :=
  if (chHeader =? 2) || (chHeader =? 3) then 33
  else if (chHeader =? 4) || (chHeader =? 6) || (chHeader =? 7) then 65
  else 0.

(** [CPubKey(vch)]: the key's bytes if the length fits the header, and an
    invalid key, of size 0, otherwise. *)
Definition CPubKey (vch : bytes) : bytes :=
  match vch with
  | [] => []
  | h :: _ =>
      if negb (GetLen h =? 0) && (GetLen h =? Z.of_nat (length vch)) then vch else []
  end.

Definition pubkey_IsValid (k : bytes) : bool := negb (Z.of_nat (length k) =? 0).

(** * Templates *)

Definition script_of (ops : list opcodetype) : CScript := fold_left push_opcode ops [].

Definition mTemplates : list (txnouttype * CScript) :=
  [(TX_PUBKEY, script_of [OP_PUBKEY; OP_CHECKSIG]);
   (TX_PUBKEYHASH, script_of [OP_DUP; OP_HASH160; OP_PUBKEYHASH; OP_EQUALVERIFY; OP_CHECKSIG]);
   (TX_MULTISIG, script_of [OP_SMALLINTEGER; OP_PUBKEYS; OP_SMALLINTEGER; OP_CHECKMULTISIG])].

Fixpoint bytes_eqb (a b : bytes) : bool :=
  match a, b with
  | [], [] => true
  | x :: a', y :: b' => (x =? y) && bytes_eqb a' b'
  | _, _ => false
  end.

Definition key_sized (v : bytes) : bool :=
  (33 <=? Z.of_nat (length v)) && (Z.of_nat (length v) <=? 65).

(** [while (vch1.size() >= 33 && vch1.size() <= 65)]: the next opcode and
    data, the iterator and the solutions when the run of keys ends. *)
Fixpoint pubkeys_loop (fuel : nat) (opcode1 : Z) (vch1 pc1 : bytes) (sols : list bytes)
  : Z * bytes * bytes * list bytes :=
  match fuel with
  | O => (opcode1, vch1, pc1, sols)
  | S fuel' =>
      if key_sized vch1 then
        match GetOp2 pc1 with
        | Some (op, v, pc) => pubkeys_loop fuel' op v pc (sols ++ [vch1])
        | None => (opcode_value OP_INVALIDOPCODE, [], pc1, sols ++ [vch1])
        end
      else (opcode1, vch1, pc1, sols)
  end.

Definition multisig_ok (sols : list bytes) : bool :=
  let m := get (hd [] sols) 0 in
  let n := get (last sols []) 0 in
  negb ((m <? 1) || (n <? 1) || (m >? n) || negb (Z.of_nat (length sols) - 2 =? n)).

(** One round of the comparison loop for a template, [None] for a mismatch
    ([break]); [cont] is the next round. *)
Definition template_step {R : Type} (cont : bytes -> bytes -> list bytes -> option R)
    (pc1 pc2 : bytes) (sols : list bytes) : option R :=
  match GetOp2 pc1, GetOp2 pc2 with
  | Some (opcode1, vch1, pc1), Some (opcode2, vch2, pc2) =>
      let run :=
        if opcode2 =? OP_PUBKEYS then
          let '(opcode1, vch1, pc1, sols) :=
            pubkeys_loop (S (length pc1)) opcode1 vch1 pc1 sols in
          match GetOp2 pc2 with
          | Some (opcode2, vch2, pc2) => Some (opcode1, vch1, pc1, opcode2, vch2, pc2, sols)
          | None => None
          end
        else Some (opcode1, vch1, pc1, opcode2, vch2, pc2, sols) in
      match run with
      | None => None
      | Some (opcode1, vch1, pc1, opcode2, vch2, pc2, sols) =>
          if opcode2 =? OP_PUBKEY then
            if key_sized vch1 then cont pc1 pc2 (sols ++ [vch1]) else None
          else if opcode2 =? OP_PUBKEYHASH then
            if Z.of_nat (length vch1) =? 20 then cont pc1 pc2 (sols ++ [vch1]) else None
          else if opcode2 =? OP_SMALLINTEGER then
            match DecodeOP_N opcode1 with
            | Some n => cont pc1 pc2 (sols ++ [[n]])
            | None => None
            end
          else if negb (opcode1 =? opcode2) || negb (bytes_eqb vch1 vch2) then None
          else cont pc1 pc2 sols
      end
  | _, _ => None
  end.

(** The comparison loop: on a match, what [Solver] returns. *)
Fixpoint match_template (fuel : nat) (type : txnouttype) (pc1 pc2 : bytes) (sols : list bytes)
  : option (option (txnouttype * list bytes)) :=
  match fuel with
  | O => None
  | S fuel' =>
      match pc1, pc2 with
      | [], [] =>
          match type with
          | TX_MULTISIG => Some (if multisig_ok sols then Some (type, sols) else None)
          | _ => Some (Some (type, sols))
          end
      | _, _ => template_step (match_template fuel' type) pc1 pc2 sols
      end
  end.

Fixpoint scan_templates (script1 : CScript) (l : list (txnouttype * CScript))
  : option (txnouttype * list bytes) :=
  match l with
  | [] => None
  | (type, script2) :: l' =>
      match match_template (S (length script2)) type script1 script2 [] with
      | Some r => r
      | None => scan_templates script1 l'
      end
  end.

(** The type and the solutions, [None] where the code returns false. *)
Definition Solver (s : CScript) : option (txnouttype * list bytes) :=
  if IsPayToScriptHash s then Some (TX_SCRIPTHASH, [firstn 20 (skipn 2 s)])
  else
    match IsAssetScript s with
    | Some (nType, _, _) => Some (nType, [firstn 20 (skipn 3 s)])
    | None =>
        match IsWitnessProgram s with
        | Some (version, program) =>
            if (version =? 0) && (Z.of_nat (length program) =? 20)
            then Some (TX_WITNESS_V0_KEYHASH, [program])
            else if (version =? 0) && (Z.of_nat (length program) =? 32)
            then Some (TX_WITNESS_V0_SCRIPTHASH, [program])
            else None
        | None =>
            if (1 <=? Z.of_nat (length s)) && (get s 0 =? OP_RETURN) && IsPushOnly (skipn 1 s)
            then Some (TX_NULL_DATA, [])
            else if (1 <=? Z.of_nat (length s)) && (get s 0 =? OP_HEMP_ASSET) &&
                    IsPushOnly (skipn 1 s)
            then Some (TX_RESTRICTED_ASSET_DATA,
                       if (23 <=? Z.of_nat (length s)) && negb (get s 1 =? OP_RESERVED)
                       then [firstn 20 (skipn 2 s)] else [])
            else scan_templates s mTemplates
        end
    end.

(** * Destinations *)

Definition CScriptVisitor (d : CTxDestination) : CScript :=
  match d with
  | CNoDestination => []
  | CKeyID h =>
      push_opcode (push_opcode (push_data (push_opcode (push_opcode [] OP_DUP) OP_HASH160) h)
                               OP_EQUALVERIFY) OP_CHECKSIG
  | CScriptID h => push_opcode (push_data (push_opcode [] OP_HASH160) h) OP_EQUAL
  end.
Definition GetScriptForDestination (d : CTxDestination) : CScript := CScriptVisitor d.

Definition CNullAssetScriptVisitor (d : CTxDestination) : CScript :=
  match d with
  | CNoDestination => []
  | CKeyID h | CScriptID h => push_data (push_opcode [] OP_HEMP_ASSET) h
  end.
Definition GetScriptForNullAssetDataDestination (d : CTxDestination) : CScript :=
  CNullAssetScriptVisitor d.

Definition GetScriptForRawPubKey (pubKey : bytes) : CScript :=
  push_opcode (push_data [] pubKey) OP_CHECKSIG.

(** [None] where [EncodeOP_N] fails its assertion. *)
Definition GetScriptForMultisig (nRequired : Z) (keys : list bytes) : option CScript :=
  match EncodeOP_N nRequired, EncodeOP_N (Z.of_nat (length keys)) with
  | Some m, Some n =>
      let script := fold_left push_data keys (push_opcode [] (opcode_of m)) in
      Some (push_opcode (push_opcode script (opcode_of n)) OP_CHECKMULTISIG)
  | _, _ => None
  end.

Section Hashes.

(** [Hash160] and [CSHA256] on byte strings. *)
Variable Hash160 : bytes -> bytes.
Variable SHA256 : bytes -> bytes.

Definition ExtractDestination (s : CScript) : option CTxDestination :=
  match Solver s with
  | None => None
  | Some (whichType, vSolutions) =>
      let first := hd [] vSolutions in
      match whichType with
      | TX_PUBKEY =>
          let pubKey := CPubKey first in
          if negb (pubkey_IsValid pubKey) then None else Some (CKeyID (Hash160 pubKey))
      | TX_PUBKEYHASH => Some (CKeyID first)
      | TX_SCRIPTHASH => Some (CScriptID first)
      | TX_NEW_ASSET | TX_REISSUE_ASSET | TX_TRANSFER_ASSET => Some (CKeyID first)
      | TX_RESTRICTED_ASSET_DATA =>
          if negb (Z.of_nat (length vSolutions) =? 0) then Some (CKeyID first) else None
      | _ => None
      end
  end.

(** The type, the destinations and the number of signatures required. *)
Definition ExtractDestinations (s : CScript) : option (txnouttype * list CTxDestination * Z) :=
  match Solver s with
  | None => None
  | Some (TX_NULL_DATA, _) => None
  | Some (TX_MULTISIG, sols) =>
      let nRequired := get (hd [] sols) 0 in
      let keys := map CPubKey (removelast (tl sols)) in
      let addresses := map (fun k => CKeyID (Hash160 k)) (filter pubkey_IsValid keys) in
      match addresses with
      | [] => None
      | _ => Some (TX_MULTISIG, addresses, nRequired)
      end
  | Some (type, _) =>
      match ExtractDestination s with
      | None => None
      | Some address => Some (type, [address], 1)
      end
  end.

Definition GetScriptForWitness (redeemscript : CScript) : CScript :=
  match Solver redeemscript with
  | Some (TX_PUBKEY, sols) => push_data (push_opcode [] OP_0) (Hash160 (hd [] sols))
  | Some (TX_PUBKEYHASH, sols) => push_data (push_opcode [] OP_0) (hd [] sols)
  | _ => push_data (push_opcode [] OP_0) (SHA256 redeemscript)
  end.

End Hashes.

(** * Scripts for destinations *)

Lemma bytes_eqb_eq (a b : bytes) : bytes_eqb a b = true <-> a = b.
Proof.
  revert b; induction a as [| x a IH]; intros [| y b]; cbn [bytes_eqb];
    try (split; [discriminate || reflexivity | discriminate || reflexivity]).
  rewrite andb_true_iff, Z.eqb_eq, IH; split; [intros [-> ->]; reflexivity | intros [= -> ->]; auto].
Qed.

Lemma hash20 (P : bytes -> Prop) :
  (forall b0 b1 b2 b3 b4 b5 b6 b7 b8 b9 b10 b11 b12 b13 b14 b15 b16 b17 b18 b19,
   P [b0; b1; b2; b3; b4; b5; b6; b7; b8; b9; b10; b11; b12; b13; b14; b15; b16; b17; b18; b19]) ->
  forall h, length h = 20%nat -> P h.
Proof.
  intros H h Hh; do 20 (destruct h as [| ? h]; [discriminate |]).
  destruct h; [apply H | discriminate].
Qed.

Lemma Solver_key (h : bytes) : length h = 20%nat ->
  Solver (GetScriptForDestination (CKeyID h)) = Some (TX_PUBKEYHASH, [h]).
Proof. revert h; apply hash20; intros; reflexivity. Qed.

Lemma Solver_script (h : bytes) : length h = 20%nat ->
  Solver (GetScriptForDestination (CScriptID h)) = Some (TX_SCRIPTHASH, [h]).
Proof. revert h; apply hash20; intros; reflexivity. Qed.

(** Data after the first operation does not matter to a push-only check that
    has not reached it. *)
Lemma push_only_push (b rest vData : bytes) (fuel : nat) : Z.of_nat (length b) < 2 ^ 32 ->
  push_only_loop (S fuel) (push_data [] b ++ rest) vData = push_only_loop fuel rest b.
Proof.
  intros Hb; destruct (item_nonempty (Push b)) as (x & l & E); cbn [push_item] in E.
  pose proof (GetOp2_push b rest Hb) as HG; rewrite E in *; cbn [app] in *.
  cbn [push_only_loop]; rewrite HG.
  assert (Hop : (push_op b >? OP_16) = false).
  { rewrite Z.gtb_ltb; apply Z.ltb_ge; unfold push_op; cbn [opcode_value].
    repeat case_if; bool_to_prop; lia. }
  rewrite Hop; reflexivity.
Qed.

Lemma Solver_null_asset (h data : bytes) : length h = 20%nat -> Z.of_nat (length data) < 2 ^ 32 ->
  get (push_data [] data) 3 <> OP_HEMP_ASSET ->
  Solver (push_data (push_data (push_opcode [] OP_HEMP_ASSET) h) data)
  = Some (TX_RESTRICTED_ASSET_DATA, [h]).
Proof.
  intros Hh Hd H25.
  assert (Hs : push_data (push_data (push_opcode [] OP_HEMP_ASSET) h) data =
               [opcode_value OP_HEMP_ASSET; 20] ++ h ++ push_data [] data).
  { unfold push_data at 1 2, push_opcode; rewrite Hh; cbn [app Z.ltb Z.of_nat]; reflexivity. }
  rewrite Hs; set (p := push_data [] data) in *.
  assert (Hlen : (1 <= length p)%nat).
  { destruct (item_nonempty (Push data)) as (x & l & E); cbn [push_item] in E; fold p in E.
    rewrite E; simpl; lia. }
  assert (Hpo : IsPushOnly (skipn 1 ([opcode_value OP_HEMP_ASSET; 20] ++ h ++ p)) = true).
  { cbn [app skipn]; unfold IsPushOnly.
    assert (E : 20 :: h ++ p = push_data [] h ++ p)
      by (unfold push_data; rewrite Hh; reflexivity).
    rewrite E; set (n := length (push_data [] h ++ p)).
    assert (Hn : (3 <= n)%nat) by (unfold n; rewrite <- E; simpl; rewrite length_app; lia).
    destruct n as [| [| n]]; try lia.
    rewrite push_only_push by (rewrite Hh; lia).
    rewrite <- (app_nil_r p); unfold p; rewrite push_only_push by assumption.
    destruct n; reflexivity. }
  assert (Has : IsAssetScript ([opcode_value OP_HEMP_ASSET; 20] ++ h ++ p) = None).
  { unfold IsAssetScript; destruct (_ >? 31); [| reflexivity].
    replace (get ([opcode_value OP_HEMP_ASSET; 20] ++ h ++ p) 25) with (get p 3).
    - rewrite (proj2 (Z.eqb_neq _ _)) by exact H25; reflexivity.
    - unfold get; rewrite (app_nth2 _ _ _ (n := 25)) by (simpl; lia).
      rewrite app_nth2 by (simpl length; lia); f_equal; rewrite Hh; reflexivity. }
  unfold Solver; rewrite Has, Hpo.
  assert (Hl : 23 <= Z.of_nat (length ([opcode_value OP_HEMP_ASSET; 20] ++ h ++ p)))
    by (rewrite !length_app, Hh; cbn [length]; lia).
  replace (IsPayToScriptHash _) with false.
  2: { unfold IsPayToScriptHash; cbn [app get nth]; change (OP_HEMP_ASSET =? OP_HASH160) with false.
       rewrite andb_false_r; reflexivity. }
  replace (IsWitnessProgram _) with (@None (Z * bytes)).
  2: { unfold IsWitnessProgram; destruct (_ || _); [reflexivity |]; reflexivity. }
  rewrite (proj2 (Z.leb_le 1 _)), (proj2 (Z.leb_le 23 _)) by lia.
  cbn [app get nth andb]; change (OP_HEMP_ASSET =? OP_RETURN) with false.
  change (OP_HEMP_ASSET =? OP_HEMP_ASSET) with true; cbn [andb negb skipn].
  change (20 =? OP_RESERVED) with false; cbn [negb]; do 3 f_equal.
  rewrite firstn_app, <- Hh, Nat.sub_diag, firstn_all; apply app_nil_r.
Qed.

(** * Multisignature scripts *)

Section Multisig.

Variable keys : list bytes.
Variables m n : Z.
Hypothesis Hkeys : Forall (fun k => key_sized k = true) keys.
Hypothesis Hn : n = Z.of_nat (length keys).
Hypothesis Hm : 1 <= m <= n.
Hypothesis Hn16 : n <= 16.

Definition small (k : Z) : Z := OP_1 + k - 1.
Definition pushes (l : list bytes) : bytes := flat_map (push_data []) l.
Definition multisig_script : CScript :=
  small m :: pushes keys ++ [small n; opcode_value OP_CHECKMULTISIG].

Lemma fold_push_data (l : list bytes) : forall s, fold_left push_data l s = s ++ pushes l.
Proof.
  induction l as [| k l IH]; intros s; cbn [fold_left pushes flat_map]; [rewrite app_nil_r; reflexivity |].
  rewrite IH; replace (push_data s k) with (s ++ push_data [] k) by reflexivity.
  rewrite <- app_assoc; reflexivity.
Qed.

Lemma multisig_script_eq : GetScriptForMultisig m keys = Some multisig_script.
Proof.
  unfold GetScriptForMultisig, EncodeOP_N; rewrite <- Hn.
  rewrite !Z.geb_leb, (proj2 (Z.leb_le 0 m)), (proj2 (Z.leb_le m 16)), (proj2 (Z.leb_le 0 n)),
    (proj2 (Z.leb_le n 16)), (proj2 (Z.eqb_neq m 0)), (proj2 (Z.eqb_neq n 0)) by lia.
  cbn [andb]; rewrite fold_push_data; unfold push_opcode; rewrite !opcode_of_value.
  unfold multisig_script, small; cbn [app]; rewrite <- app_assoc; reflexivity.
Qed.

Lemma GetOp2_small (k : Z) (rest : bytes) : 1 <= k <= 16 ->
  GetOp2 (small k :: rest) = Some (small k, [], rest) /\ DecodeOP_N (small k) = Some k.
Proof.
  intros Hk; unfold small, DecodeOP_N; cbn [GetOp2 opcode_value]; rewrite Z.geb_leb.
  rewrite (proj2 (Z.leb_gt (81 + k - 1) 78)), (proj2 (Z.eqb_neq (81 + k - 1) 192)),
    (proj2 (Z.eqb_neq (81 + k - 1) 0)), (proj2 (Z.leb_le 81 (81 + k - 1))),
    (proj2 (Z.leb_le (81 + k - 1) 96)) by lia.
  split; [reflexivity |]; cbn [andb]; f_equal; lia.
Qed.

Lemma key_sized_bounds (k : bytes) : key_sized k = true -> 33 <= Z.of_nat (length k) <= 65.
Proof. unfold key_sized; intros H; bool_to_prop; lia. Qed.

Lemma push_length (k : bytes) : key_sized k = true -> push_data [] k = Z.of_nat (length k) :: k.
Proof.
  intros Hk; apply key_sized_bounds in Hk; unfold push_data; cbn [app].
  rewrite (proj2 (Z.ltb_lt _ _)) by (cbn; lia); reflexivity.
Qed.

Lemma pubkeys_loop_spec (l : list bytes) : Forall (fun k => key_sized k = true) l ->
  forall fuel op k sols, key_sized k = true -> (length l + 2 <= fuel)%nat ->
  pubkeys_loop fuel op k (pushes l ++ [small n; opcode_value OP_CHECKMULTISIG]) sols =
  (small n, [], [opcode_value OP_CHECKMULTISIG], sols ++ k :: l).
Proof.
  induction 1 as [| k' l Hk' Hl IH]; intros fuel op k sols Hk Hf; cbn [length] in Hf;
    (destruct fuel as [| fuel]; [lia |]); cbn [pubkeys_loop]; rewrite Hk.
  - cbn [pushes flat_map app]; rewrite (proj1 (GetOp2_small n _ ltac:(lia))).
    destruct fuel; [lia |]; reflexivity.
  - cbn [pushes flat_map]; rewrite <- app_assoc, GetOp2_push
      by (apply key_sized_bounds in Hk'; lia).
    fold (pushes l); rewrite IH by (auto; lia); rewrite <- app_assoc; reflexivity.
Qed.

Lemma pushes_length (l : list bytes) : Forall (fun k => key_sized k = true) l ->
  (34 * length l <= length (pushes l))%nat.
Proof.
  induction 1 as [| k l Hk Hl IH]; cbn [pushes flat_map length]; [lia |].
  rewrite length_app, push_length by exact Hk; apply key_sized_bounds in Hk.
  fold (pushes l); cbn [length]; lia.
Qed.

Lemma multisig_keys : exists k l, keys = k :: l.
Proof. destruct keys as [| k l]; [cbn in Hn; lia | eauto]. Qed.

(** A template that is not used up takes another round. *)
Lemma match_template_step (fuel : nat) (type : txnouttype) (pc1 pc2 : bytes) (c : Z)
    (sols : list bytes) :
  match_template (S fuel) type pc1 (c :: pc2) sols =
  template_step (match_template fuel type) pc1 (c :: pc2) sols.
Proof. destruct pc1; reflexivity. Qed.

Lemma multisig_ok_true : multisig_ok ([m] :: keys ++ [[n]]) = true.
Proof.
  unfold multisig_ok; cbn [hd]; rewrite app_comm_cons, last_last; cbn [get nth].
  assert (E : Z.of_nat (length (([m] :: keys : list bytes) ++ [[n]])) - 2 = n)
    by (rewrite length_app; cbn [length]; unfold bytes in *; lia).
  unfold bytes in *; rewrite E.
  rewrite (proj2 (Z.ltb_ge m 1)), (proj2 (Z.ltb_ge n 1)), Z.gtb_ltb, (proj2 (Z.ltb_ge n m)),
    Z.eqb_refl by lia; reflexivity.
Qed.

Lemma multisig_match : match_template 5 TX_MULTISIG multisig_script
    (script_of [OP_SMALLINTEGER; OP_PUBKEYS; OP_SMALLINTEGER; OP_CHECKMULTISIG]) []
  = Some (Some (TX_MULTISIG, [m] :: keys ++ [[n]])).
Proof.
  destruct multisig_keys as (k & l & Ek); pose proof Hkeys as Hk'; rewrite Ek in Hk'.
  inversion Hk' as [| ? ? Hk Hl]; subst x l0; pose proof (pushes_length l Hl) as HL.
  pose proof (key_sized_bounds k Hk) as Hkb.
  unfold multisig_script; rewrite Ek; cbn [pushes flat_map]; fold (pushes l); rewrite <- app_assoc.
  set (tail := [small n; opcode_value OP_CHECKMULTISIG]).
  change (script_of _) with [0xfa; 0xfb; 0xfa; 0xae].
  rewrite match_template_step; unfold template_step at 1.
  destruct (GetOp2_small m (push_data [] k ++ pushes l ++ tail) ltac:(lia)) as [-> HDm].
  cbn [GetOp2 Z.leb Z.eqb Z.compare Pos.compare Pos.compare_cont Pos.eqb opcode_value].
  rewrite HDm, match_template_step; unfold template_step at 1; rewrite GetOp2_push by lia.
  cbn [GetOp2 Z.leb Z.eqb Z.compare Pos.compare Pos.compare_cont Pos.eqb opcode_value].
  unfold tail; rewrite pubkeys_loop_spec by (auto; rewrite length_app; cbn [length]; lia).
  cbn [GetOp2 Z.leb Z.eqb Z.compare Pos.compare Pos.compare_cont Pos.eqb opcode_value].
  rewrite (proj2 (GetOp2_small n [] ltac:(lia))), match_template_step; unfold template_step at 1.
  cbn [GetOp2 Z.leb Z.eqb Z.compare Pos.compare Pos.compare_cont Pos.eqb opcode_value
       bytes_eqb orb negb match_template].
  pose proof multisig_ok_true as Hok; rewrite Ek in Hok.
  replace (multisig_ok _) with true by (symmetry; exact Hok); reflexivity.
Qed.

Lemma multisig_first : exists k l, keys = k :: l /\
  multisig_script = small m :: Z.of_nat (length k) :: k ++ pushes l ++ [small n; opcode_value OP_CHECKMULTISIG].
Proof.
  destruct multisig_keys as (k & l & Ek); exists k, l; split; [exact Ek |].
  unfold multisig_script; rewrite Ek; cbn [pushes flat_map]; fold (pushes l).
  rewrite <- app_assoc, push_length by (rewrite Ek in Hkeys; inversion Hkeys; assumption).
  reflexivity.
Qed.

Lemma Solver_multisig : IsAssetScript multisig_script = None ->
  Solver multisig_script = Some (TX_MULTISIG, [m] :: keys ++ [[n]]).
Proof.
  intros Has; unfold Solver; rewrite Has.
  destruct multisig_first as (k & l & Ek & Es).
  assert (Hk : 33 <= Z.of_nat (length k) <= 65).
  { apply key_sized_bounds; rewrite Ek in Hkeys; inversion Hkeys; assumption. }
  assert (H0 : get multisig_script 0 = small m) by reflexivity.
  assert (H1 : get multisig_script 1 = Z.of_nat (length k)) by (rewrite Es; reflexivity).
  assert (Hlen : Z.of_nat (length k) + 4 <= Z.of_nat (length multisig_script)).
  { rewrite Es; cbn [length]; rewrite !length_app; cbn [length]; lia. }
  assert (Hsm : 81 <= small m <= 96) by (unfold small; cbn [opcode_value]; lia).
  replace (IsPayToScriptHash multisig_script) with false.
  2: { unfold IsPayToScriptHash; rewrite H0, (proj2 (Z.eqb_neq (small m) OP_HASH160)) by (cbn [opcode_value]; lia).
       rewrite andb_false_r; reflexivity. }
  replace (IsWitnessProgram multisig_script) with (@None (Z * bytes)).
  2: { unfold IsWitnessProgram; rewrite H1, (proj2 (Z.eqb_neq (Z.of_nat (length k) + 2) _)) by lia.
       destruct (_ || _); [reflexivity |]; destruct (negb _ && _); reflexivity. }
  rewrite H0, (proj2 (Z.eqb_neq (small m) OP_RETURN)), (proj2 (Z.eqb_neq (small m) OP_HEMP_ASSET))
    by (cbn [opcode_value]; lia).
  rewrite !andb_false_r; cbn [andb]; unfold mTemplates; cbn [scan_templates].
  change (length (script_of [OP_SMALLINTEGER; OP_PUBKEYS; OP_SMALLINTEGER; OP_CHECKMULTISIG])) with 4%nat.
  rewrite multisig_match.
  change (script_of [OP_PUBKEY; OP_CHECKSIG]) with [0xfe; 0xac].
  change (script_of [OP_DUP; OP_HASH160; OP_PUBKEYHASH; OP_EQUALVERIFY; OP_CHECKSIG])
    with [0x76; 0xa9; 0xfd; 0x88; 0xac].
  rewrite !match_template_step; unfold template_step, multisig_script.
  rewrite (proj1 (GetOp2_small m _ ltac:(lia))).
  cbn [GetOp2 Z.leb Z.eqb Z.compare Pos.compare Pos.compare_cont Pos.eqb opcode_value key_sized
       length Z.of_nat andb].
  rewrite (proj2 (Z.eqb_neq (small m) 118)) by lia; reflexivity.
Qed.

End Multisig.

(** * Correctness *)

(** The scripts generated for destinations: a key hash or a script hash is
    recovered from the script that pays to it, and the output that tags an
    address with asset data names its 20-byte hash.  That output does not
    record the kind of the address: a tagged script hash is read back as a
    key hash. *)
Theorem ExtractDestination_inverse (Hash160 : bytes -> bytes) (h data : bytes) :
  length h = 20%nat -> Z.of_nat (length data) < 2 ^ 32 ->
  get (push_data [] data) 3 <> OP_HEMP_ASSET ->
  ExtractDestination Hash160 (GetScriptForDestination (CKeyID h)) = Some (CKeyID h) /\
  ExtractDestination Hash160 (GetScriptForDestination (CScriptID h)) = Some (CScriptID h) /\
  ExtractDestination Hash160 (push_data (GetScriptForNullAssetDataDestination (CKeyID h)) data)
    = Some (CKeyID h) /\
  ExtractDestination Hash160 (push_data (GetScriptForNullAssetDataDestination (CScriptID h)) data)
    = Some (CKeyID h).
Proof.
  intros Hh Hd H25; unfold ExtractDestination; rewrite Solver_key, Solver_script by exact Hh.
  cbn [GetScriptForNullAssetDataDestination CNullAssetScriptVisitor].
  rewrite Solver_null_asset by assumption; auto.
Qed.

Lemma ExtractDestination_inverse_witness :
  ExtractDestination (fun _ => []) (GetScriptForDestination (CKeyID (repeat 9 20)))
  = Some (CKeyID (repeat 9 20)).
Proof.
  apply (ExtractDestination_inverse (fun _ => []) (repeat 9 20) [4; 35; 65; 66; 67; 1]);
    [reflexivity | cbn; lia | cbn; discriminate].
Defined.

(** The script generated for an [m]-of-[n] multisignature with up to
    sixteen keys of public-key size is classified as such by [Solver], with
    the numbers and the keys as its solutions, unless the bytes of the first
    key happen to spell an asset output. *)
Theorem Solver_multisig_correct (m : Z) (keys : list bytes) :
  Forall (fun k => key_sized k = true) keys ->
  1 <= m <= Z.of_nat (length keys) -> Z.of_nat (length keys) <= 16 ->
  exists s, GetScriptForMultisig m keys = Some s /\
    (IsAssetScript s = None ->
     Solver s = Some (TX_MULTISIG, [m] :: keys ++ [[Z.of_nat (length keys)]])).
Proof.
  intros Hk Hm Hn; exists (multisig_script keys m (Z.of_nat (length keys))).
  split; [apply multisig_script_eq; auto | apply Solver_multisig; auto].
Qed.

Lemma Solver_multisig_correct_witness :
  exists s, GetScriptForMultisig 1 [repeat 2 33; repeat 3 33] = Some s /\
    (IsAssetScript s = None -> Solver s = Some (TX_MULTISIG, [[1]; repeat 2 33; repeat 3 33; [2]])).
Proof.
  apply (Solver_multisig_correct 1 [repeat 2 33; repeat 3 33]); [repeat constructor | cbn; lia ..].
Defined.
