(* ===== verification/Transaction.v ===== *)
(** Transactions (src/primitives/transaction.h, src/primitives/transaction.cpp,
    src/amount.h): outpoints, inputs, outputs, the two serialization formats,
    and the sum of the outputs.  A [uint256] is its 32 bytes in memory order. *)

From Stdlib Require Import ZArith List Bool Lia Arith.
From S2P Require Import Prelude Serialize Script.
Import ListNotations.
Open Scope Z_scope.

(** * Amounts *)

Definition MAX_MONEY : Z := 21000000000 * COIN.
Definition MoneyRange (nValue : Z) : bool := (nValue >=? 0) && (nValue <=? MAX_MONEY).

(** * Data *)

Definition uint256_IsNull (h : bytes) : bool := forallb (fun b => b =? 0) h.
Definition uint256_null : bytes := repeat 0 32.

Record COutPoint := mkOutPoint { op_hash : bytes; op_n : Z }.

Definition outpoint_null : COutPoint := mkOutPoint uint256_null (2 ^ 32 - 1).
Definition outpoint_IsNull (p : COutPoint) : bool :=
  uint256_IsNull (op_hash p) && (op_n p =? 2 ^ 32 - 1).

(** [scriptWitness] is the witness stack. *)
Record CTxIn := mkTxIn {
  prevout : COutPoint;
  scriptSig : CScript;
  nSequence : Z;
  scriptWitness : list bytes
}.

Definition SEQUENCE_FINAL : Z := 0xffffffff.
Definition SEQUENCE_LOCKTIME_DISABLE_FLAG : Z := Z.shiftl 1 31.
Definition SEQUENCE_LOCKTIME_TYPE_FLAG : Z := Z.shiftl 1 22.
Definition SEQUENCE_LOCKTIME_MASK : Z := 0x0000ffff.
Definition SEQUENCE_LOCKTIME_GRANULARITY : Z := 9.

Record CTxOut := mkTxOut { nValue : Z; scriptPubKey : CScript }.

Definition txout_null : CTxOut := mkTxOut (-1) [].
Definition txout_IsNull (o : CTxOut) : bool := nValue o =? -1.

Record CTransaction := mkTx {
  vin : list CTxIn;
  vout : list CTxOut;
  nVersion : Z;
  nLockTime : Z
}.

Definition tx_IsNull (tx : CTransaction) : bool :=
  match vin tx, vout tx with [], [] => true | _, _ => false end.

Definition IsCoinBase (tx : CTransaction) : bool :=
  match vin tx with
  | [i] => outpoint_IsNull (prevout i)
  | _ => false
  end.

Definition witness_IsNull (stack : list bytes) : bool :=
  match stack with [] => true | _ => false end.

Definition HasWitness (tx : CTransaction) : bool :=
  existsb (fun i => negb (witness_IsNull (scriptWitness i))) (vin tx).

(** * Serialization *)

Definition write_outpoint (p : COutPoint) : bytes := op_hash p ++ ser_writedata32 (op_n p).
Definition read_outpoint : reader COutPoint := fun s =>
  let! r := read_bytes 32 s in
  let! r' := ser_readdata32 (snd r) in
  Ok (mkOutPoint (fst r) (fst r'), snd r').

Definition write_txin (i : CTxIn) : bytes :=
  write_outpoint (prevout i) ++ write_string (scriptSig i) ++ ser_writedata32 (nSequence i).
Definition read_txin : reader CTxIn := fun s =>
  let! p := read_outpoint s in
  let! sig := read_vector (snd p) in
  let! sq := ser_readdata32 (snd sig) in
  Ok (mkTxIn (fst p) (fst sig) (fst sq) [], snd sq).

Definition write_txout (o : CTxOut) : bytes :=
  ser_writedata64 (nValue o) ++ write_string (scriptPubKey o).
Definition read_txout : reader CTxOut := fun s =>
  let! v := read_i64 s in
  let! k := read_vector (snd v) in
  Ok (mkTxOut (fst v) (fst k), snd k).

Definition write_stack (stack : list bytes) : bytes := write_list write_string stack.
Definition read_stack : reader (list bytes) := read_list read_vector.

Definition set_witness (i : CTxIn) (stack : list bytes) : CTxIn :=
  mkTxIn (prevout i) (scriptSig i) (nSequence i) stack.

(** [for (i < tx.vin.size()) s >> tx.vin[i].scriptWitness.stack] *)
Fixpoint read_witnesses (ins : list CTxIn) : reader (list CTxIn) := fun s =>
  match ins with
  | [] => Ok ([], s)
  | i :: ins' =>
      let! w := read_stack s in
      let! r := read_witnesses ins' (snd w) in
      Ok (set_witness i (fst w) :: fst r, snd r)
  end.

Definition UnserializeTransaction (fAllowWitness : bool) : reader CTransaction := fun s =>
  let! ver := read_i32 s in
  let! ins := read_list read_txin (snd ver) in
  let! r :=
    if Nat.eqb (length (fst ins)) 0 && fAllowWitness then
      let! fl := ser_readdata8 (snd ins) in
      if negb (fst fl =? 0) then
        let! ins' := read_list read_txin (snd fl) in
        let! outs := read_list read_txout (snd ins') in
        Ok (fst fl, fst ins', fst outs, snd outs)
      else Ok (fst fl, [], [], snd fl)
    else
      let! outs := read_list read_txout (snd ins) in
      Ok (0, fst ins, fst outs, snd outs)
  in
  let '(flags, vin, vout, s) := r in
  let! r :=
    if negb (Z.land flags 1 =? 0) && fAllowWitness then
      let! w := read_witnesses vin s in Ok (Z.lxor flags 1, fst w, snd w)
    else Ok (flags, vin, s)
  in
  let '(flags, vin, s) := r in
  if negb (flags =? 0) then Err UnknownOptionalData
  else
    let! lt := ser_readdata32 s in
    Ok (mkTx vin vout (fst ver) (fst lt), snd lt).

Definition SerializeTransaction (fAllowWitness : bool) (tx : CTransaction) : bytes :=
  let flags := if fAllowWitness && HasWitness tx then 1 else 0 in
  ser_writedata32 (nVersion tx) ++
  (if negb (flags =? 0) then write_list write_txin [] ++ ser_writedata8 flags else []) ++
  write_list write_txin (vin tx) ++
  write_list write_txout (vout tx) ++
  (if negb (Z.land flags 1 =? 0) then flat_map (fun i => write_stack (scriptWitness i)) (vin tx) else []) ++
  ser_writedata32 (nLockTime tx).

Definition GetTotalSize (tx : CTransaction) : Z := Z.of_nat (length (SerializeTransaction true tx)).

Section Hash.
Variable Hash : bytes -> bytes.

Definition GetHash (tx : CTransaction) : bytes := Hash (SerializeTransaction false tx).
Definition GetWitnessHash (tx : CTransaction) : bytes :=
  if negb (HasWitness tx) then GetHash tx else Hash (SerializeTransaction true tx).
End Hash.

(** * The sum of the outputs *)

(** [None] when the exception "value out of range" is thrown. *)
Fixpoint value_out_loop (fAreEnforcedValues : bool) (outs : list CTxOut) (nValueOut : Z) : option Z :=
  match outs with
  | [] => Some nValueOut
  | o :: outs' =>
      if negb fAreEnforcedValues && is_some (IsAssetScript (scriptPubKey o))
      then value_out_loop fAreEnforcedValues outs' nValueOut
      else
        let nValueOut := s64 (nValueOut + nValue o) in
        if negb (MoneyRange (nValue o)) || negb (MoneyRange nValueOut) then None
        else value_out_loop fAreEnforcedValues outs' nValueOut
  end.

Definition GetValueOut (fAreEnforcedValues : bool) (tx : CTransaction) : option Z :=
  value_out_loop fAreEnforcedValues (vout tx) 0.

(** * Formats *)

Definition valid_outpoint (p : COutPoint) : Prop := is_blob 32 (op_hash p) /\ in_u 32 (op_n p).

(** An input without its witness, as it is written in the list of inputs. *)
Definition valid_txin (i : CTxIn) : Prop :=
  valid_outpoint (prevout i) /\ short_bytes (scriptSig i) /\ in_u 32 (nSequence i).
Definition bare_txin (i : CTxIn) : Prop := valid_txin i /\ scriptWitness i = [].
Definition valid_txout (o : CTxOut) : Prop := in_s 64 (nValue o) /\ short_bytes (scriptPubKey o).
Definition valid_stack (stack : list bytes) : Prop :=
  Z.of_nat (length stack) <= MAX_SIZE /\ Forall short_bytes stack.

Record valid_tx (tx : CTransaction) : Prop := {
  valid_ins : Forall (fun i => valid_txin i /\ valid_stack (scriptWitness i)) (vin tx);
  valid_outs : Forall valid_txout (vout tx);
  valid_nins : Z.of_nat (length (vin tx)) <= MAX_SIZE;
  valid_nouts : Z.of_nat (length (vout tx)) <= MAX_SIZE;
  valid_nVersion : in_s 32 (nVersion tx);
  valid_nLockTime : in_u 32 (nLockTime tx)
}.

#[export] Instance format_outpoint : Format read_outpoint write_outpoint valid_outpoint.
Proof.
  split.
  - intros [h n] rest [Hh Hn]; unfold read_outpoint, write_outpoint; cbn [op_hash op_n] in *.
    rewrite <- app_assoc, (format_reads (write := fun l => l)) by exact Hh; cbn [bind fst snd].
    read_fields; reflexivity.
  - intros s p rest Hs H; unfold read_outpoint in H; invert_fields H.
    unfold write_outpoint; cbn [op_hash op_n]; rewrite <- app_assoc; split_all; auto; split; auto.
Qed.

#[export] Instance format_txin : Format read_txin write_txin bare_txin.
Proof.
  split.
  - intros [p g n w] rest [(Hp & Hg & Hn) Hw]; cbn [prevout scriptSig nSequence scriptWitness] in *.
    subst w; unfold read_txin, write_txin; cbn [prevout scriptSig nSequence]; read_fields; reflexivity.
  - intros s i rest Hs H; unfold read_txin in H; invert_fields H.
    unfold write_txin, bare_txin, valid_txin; cbn [prevout scriptSig nSequence scriptWitness].
    rewrite <- !app_assoc; split_all; auto.
Qed.

#[export] Instance format_txout : Format read_txout write_txout valid_txout.
Proof.
  split.
  - intros [v k] rest [Hv Hk]; cbn [nValue scriptPubKey] in *.
    unfold read_txout, write_txout; cbn [nValue scriptPubKey]; read_fields; reflexivity.
  - intros s o rest Hs H; unfold read_txout in H; invert_fields H.
    unfold write_txout, valid_txout; cbn [nValue scriptPubKey]; rewrite <- app_assoc; split_all; auto.
Qed.

#[export] Instance format_stack : Format read_stack write_stack valid_stack.
Proof. exact (format_list read_vector write_string short_bytes). Qed.

Definition strip (i : CTxIn) : CTxIn := set_witness i [].
Definition strip_tx (tx : CTransaction) : CTransaction :=
  mkTx (map strip (vin tx)) (vout tx) (nVersion tx) (nLockTime tx).

Lemma write_ins_strip (ins : list CTxIn) :
  write_list write_txin (map strip ins) = write_list write_txin ins.
Proof.
  unfold write_list; rewrite length_map; f_equal.
  induction ins as [| i ins IH]; [reflexivity |]; cbn [map flat_map]; rewrite IH; reflexivity.
Qed.

(** The inputs are read without their witnesses. *)
Lemma read_ins (ins : list CTxIn) (rest : bytes) :
  Z.of_nat (length ins) <= MAX_SIZE -> Forall (fun i => valid_txin i /\ valid_stack (scriptWitness i)) ins ->
  read_list read_txin (write_list write_txin ins ++ rest) = Ok (map strip ins, rest).
Proof.
  intros Hl Hv; rewrite <- write_ins_strip; apply format_reads; rewrite length_map; split; [exact Hl |].
  apply Forall_map; eapply Forall_impl; [| exact Hv]; intros i [Hi _]; split; [exact Hi | reflexivity].
Qed.

Lemma set_witness_strip (i : CTxIn) : set_witness (strip i) (scriptWitness i) = i.
Proof. destruct i; reflexivity. Qed.

Lemma read_witnesses_reads (ins : list CTxIn) (rest : bytes) :
  Forall (fun i => valid_txin i /\ valid_stack (scriptWitness i)) ins ->
  read_witnesses (map strip ins) (flat_map (fun i => write_stack (scriptWitness i)) ins ++ rest)
  = Ok (ins, rest).
Proof.
  induction ins as [| i ins IH]; intros Hv; [reflexivity |]; inv Hv; destruct H1 as [_ Hw].
  cbn [map flat_map read_witnesses]; rewrite <- app_assoc, format_reads by exact Hw.
  cbn [bind fst snd]; rewrite IH by assumption; cbn [bind fst snd]; rewrite set_witness_strip.
  reflexivity.
Qed.

Lemma read_witnesses_inv (ins ins' : list CTxIn) : forall s rest, is_bytes s -> Forall bare_txin ins ->
  read_witnesses ins s = Ok (ins', rest) ->
  s = flat_map (fun i => write_stack (scriptWitness i)) ins' ++ rest /\ map strip ins' = ins /\
  Forall (fun i => valid_txin i /\ valid_stack (scriptWitness i)) ins' /\ is_bytes rest.
Proof.
  revert ins'; induction ins as [| i ins IH]; intros ins' s rest Hs Hb H; cbn [read_witnesses] in H.
  { injection H as <- <-; split_all; auto. }
  inv Hb; apply bind_ok in H; destruct H as ([w r] & E & H); apply format_inverts in E; [| exact Hs].
  destruct E as (-> & Hw & Hr); cbn [fst snd] in H.
  apply bind_ok in H; destruct H as ([l r'] & E & [= <- <-]); apply IH in E; [| assumption ..].
  destruct E as (-> & <- & Hl & Hr'); cbn [flat_map map scriptWitness set_witness fst].
  rewrite app_assoc; split_all; auto.
  - destruct i as [p g q w0], H2 as [_ Hi]; cbn in Hi; subst w0; reflexivity.
  - constructor; [| exact Hl]; split; [apply H2 | exact Hw].
Qed.

Lemma no_witness_strip (ins : list CTxIn) :
  existsb (fun i => negb (witness_IsNull (scriptWitness i))) ins = false -> map strip ins = ins.
Proof.
  induction ins as [| [p g q w] ins IH]; cbn [existsb map]; [reflexivity |].
  destruct w; [intros H; f_equal; apply IH, H | discriminate].
Qed.

Lemma strip_no_witness (ins : list CTxIn) : Forall bare_txin ins ->
  existsb (fun i => negb (witness_IsNull (scriptWitness i))) ins = false.
Proof.
  induction 1 as [| i ins [_ Hw] _ IH]; [reflexivity |]; cbn [existsb]; rewrite Hw, IH; reflexivity.
Qed.

Lemma bare_valid (ins : list CTxIn) : Forall bare_txin ins ->
  Forall (fun i => valid_txin i /\ valid_stack (scriptWitness i)) ins.
Proof.
  apply Forall_impl; intros i [Hi Hw]; split; [exact Hi |]; rewrite Hw.
  split; [unfold MAX_SIZE; cbn; lia | constructor].
Qed.

(** The format with witnesses, with the marker and the flag in front. *)
Definition extended_form (tx : CTransaction) : bytes :=
  ser_writedata32 (nVersion tx) ++ [0; 1] ++
  write_list write_txin (vin tx) ++ write_list write_txout (vout tx) ++
  flat_map (fun i => write_stack (scriptWitness i)) (vin tx) ++ ser_writedata32 (nLockTime tx).
Definition basic_form (tx : CTransaction) : bytes :=
  ser_writedata32 (nVersion tx) ++
  write_list write_txin (vin tx) ++ write_list write_txout (vout tx) ++ ser_writedata32 (nLockTime tx).

Lemma SerializeTransaction_form (w : bool) (tx : CTransaction) :
  SerializeTransaction w tx = if w && HasWitness tx then extended_form tx else basic_form tx.
Proof. unfold SerializeTransaction; destruct (w && HasWitness tx); reflexivity. Qed.

Lemma read_empty_list {A : Type} (read : reader A) (s : bytes) :
  read_list read (0 :: s) = Ok ([], s).
Proof. reflexivity. Qed.

Lemma read_extended (tx : CTransaction) (rest : bytes) : valid_tx tx ->
  UnserializeTransaction true (extended_form tx ++ rest) = Ok (tx, rest).
Proof.
  destruct tx as [ins outs ver lt]; intros [Hi Ho Hni Hno Hv Hl].
  cbn [vin vout nVersion nLockTime] in *; unfold UnserializeTransaction, extended_form.
  cbn [vin vout nVersion nLockTime]; rewrite <- !app_assoc, format_reads by exact Hv; cbn [bind fst snd].
  cbn [app]; rewrite read_empty_list; cbn [bind fst snd length Nat.eqb andb].
  change (ser_readdata8 (1 :: ?s)) with (@Ok ser_error _ (1, s)); cbn [bind fst snd Z.eqb negb].
  rewrite read_ins by assumption; cbn [bind fst snd]; rewrite format_reads by auto.
  cbn [bind fst snd Z.land Pos.land Z.eqb negb andb].
  rewrite read_witnesses_reads by assumption; cbn [bind fst snd Z.lxor Pos.lxor Z.of_N Z.eqb negb andb].
  rewrite format_reads by exact Hl; reflexivity.
Qed.

Lemma read_basic (w : bool) (tx : CTransaction) (rest : bytes) : valid_tx tx ->
  (vin tx <> [] \/ vout tx = [] \/ w = false) ->
  UnserializeTransaction w (basic_form tx ++ rest) = Ok (strip_tx tx, rest).
Proof.
  destruct tx as [ins outs ver lt]; intros [Hi Ho Hni Hno Hv Hl] Hcase.
  cbn [vin vout nVersion nLockTime] in *; unfold UnserializeTransaction, basic_form.
  cbn [vin vout nVersion nLockTime]; rewrite <- !app_assoc, format_reads by exact Hv; cbn [bind fst snd].
  rewrite read_ins by assumption; cbn [bind fst snd]; rewrite length_map.
  destruct (Nat.eqb (length ins) 0 && w) eqn:E.
  - apply andb_true_iff in E; destruct E as [E ->]; apply Nat.eqb_eq, length_zero_iff_nil in E.
    subst ins; destruct Hcase as [H | [-> | H]]; [congruence | | discriminate].
    change (ser_readdata8 (write_list write_txout [] ++ ?s)) with (@Ok ser_error _ (0, s)).
    cbn [bind fst snd Z.eqb negb Z.land andb]; rewrite format_reads by exact Hl; reflexivity.
  - rewrite format_reads by auto; cbn [bind fst snd Z.land Z.eqb negb andb].
    rewrite format_reads by exact Hl; reflexivity.
Qed.

Lemma only_witness_flag (f : Z) : negb (Z.land f 1 =? 0) && true = true ->
  negb (Z.lxor f 1 =? 0) = false -> f = 1.
Proof. intros _ H; apply negb_false_iff, Z.eqb_eq, Z.lxor_eq in H; exact H. Qed.

(** What the reader accepts, by format. *)
Lemma Unserialize_inv (w : bool) (s rest : bytes) (tx : CTransaction) : is_bytes s ->
  UnserializeTransaction w s = Ok (tx, rest) ->
  valid_tx tx /\
  ((HasWitness tx = false /\ s = basic_form tx ++ rest) \/ (w = true /\ s = extended_form tx ++ rest)).
Proof.
  intros Hs H; unfold UnserializeTransaction in H.
  apply bind_ok in H; destruct H as ([ver r] & E & H); apply format_inverts in E; [| exact Hs].
  destruct E as (-> & Hver & Hr); cbn [fst snd] in H.
  apply bind_ok in H; destruct H as ([l r1] & E & H); apply format_inverts in E; [| exact Hr].
  destruct E as (-> & [Hl Hb] & Hr1); cbn [fst snd] in H.
  destruct (Nat.eqb (length l) 0 && w) eqn:Ew.
  - apply andb_true_iff in Ew; destruct Ew as [El ->]; apply Nat.eqb_eq, length_zero_iff_nil in El; subst l.
    apply bind_ok in H; destruct H as ([[[flags ins] outs] r2] & E & H).
    apply bind_ok in E; destruct E as ([f r3] & E & E'); apply format_inverts in E; [| exact Hr1].
    destruct E as (-> & Hf & Hr3); cbn [fst snd] in E'; destruct (f =? 0) eqn:Ef; cbn [negb] in E'.
    + apply Z.eqb_eq in Ef; subst f; injection E' as <- <- <- <-.
      cbn [Z.land Z.eqb negb andb bind] in H; invert_fields H; split; [split; cbn; auto; lia |].
      left; split; [reflexivity |]; unfold basic_form; cbn [nVersion vin vout nLockTime].
      rewrite <- !app_assoc; reflexivity.
    + invert_fields E'; destruct Hv as [Hni Hbi], Hv0 as [Hno Hbo].
      destruct (negb (Z.land flags 1 =? 0) && true) eqn:E1; [| cbn [bind] in H; rewrite Ef in H; discriminate].
      apply bind_ok in H; destruct H as ([[fl ins'] r4] & E & H).
      apply bind_ok in E; destruct E as ([w r5] & E & E'); cbn [fst snd] in E'.
      assert (fl = Z.lxor flags 1) as -> by congruence; assert (ins' = w) as -> by congruence.
      assert (r4 = r5) as -> by congruence.
      apply read_witnesses_inv in E; [| assumption ..]; destruct E as (-> & <- & Hw & Hr5).
      destruct (negb (Z.lxor flags 1 =? 0)) eqn:Ex; [discriminate |].
      apply (only_witness_flag _ E1) in Ex; subst flags; invert_fields H.
      rewrite length_map in Hni; split; [split; auto |]; right; split; [reflexivity |].
      unfold extended_form; cbn [nVersion vin vout nLockTime]; rewrite write_ins_strip, <- !app_assoc.
      reflexivity.
  - apply bind_ok in H; destruct H as ([[[flags ins] outs] r2] & E & H).
    invert_fields E; cbn [Z.land Z.eqb negb andb bind] in H; invert_fields H; destruct Hv as [Hno Hbo].
    split; [split; auto; apply bare_valid, Hb |]; left; split; [apply strip_no_witness, Hb |].
    unfold basic_form; cbn [nVersion vin vout nLockTime]; rewrite <- !app_assoc; reflexivity.
Qed.

(** * The sum of the outputs: lemmas *)

(** The outputs that count: all, or before the enforced values those that are
    not asset scripts. *)
Definition counted (enforced : bool) (outs : list CTxOut) : list Z :=
  map nValue (filter (fun o => enforced || negb (is_some (IsAssetScript (scriptPubKey o)))) outs).

Definition sum (l : list Z) : Z := fold_right Z.add 0 l.

Lemma MoneyRange_spec (v : Z) : MoneyRange v = true <-> 0 <= v <= MAX_MONEY.
Proof. unfold MoneyRange; rewrite andb_true_iff, Z.geb_le, Z.leb_le; reflexivity. Qed.

Lemma sum_nonneg (l : list Z) : Forall (fun v => 0 <= v <= MAX_MONEY) l -> 0 <= sum l.
Proof. induction 1 as [| v l Hv _ IH]; unfold sum in *; cbn [fold_right]; lia. Qed.

Lemma value_out_loop_spec (enforced : bool) (outs : list CTxOut) :
  forall acc v, 0 <= acc <= MAX_MONEY -> Forall valid_txout outs ->
  value_out_loop enforced outs acc = Some v <->
  Forall (fun x => 0 <= x <= MAX_MONEY) (counted enforced outs) /\
  acc + sum (counted enforced outs) = v /\ v <= MAX_MONEY.
Proof.
  induction outs as [| o outs IH]; intros acc v Ha Hv.
  { unfold counted, sum; cbn [filter map fold_right value_out_loop].
    split; [intros [= <-]; split_all; auto; lia | intros (_ & <- & _); f_equal; lia]. }
  inversion Hv as [| ? ? [Ho _] Hv']; subst; unfold counted; cbn [value_out_loop filter].
  replace (enforced || _) with
    (negb (negb enforced && is_some (IsAssetScript (scriptPubKey o)))) by (destruct enforced; reflexivity).
  destruct (negb enforced && _); cbn [negb]; [apply IH; assumption |].
  cbn [map sum fold_right]; fold (counted enforced outs); fold (sum (counted enforced outs)).
  rewrite Forall_cons_iff, Z.add_assoc, <- MoneyRange_spec.
  destruct (MoneyRange (nValue o)) eqn:E1; cbn [negb orb]; [| split; [discriminate | intros [[H _] _]; discriminate]].
  apply MoneyRange_spec in E1; unfold s64.
  rewrite swrap_id by (try lia; unfold in_s; change (2 ^ (64 - 1)) with 9223372036854775808;
    unfold MAX_MONEY, COIN in *; lia).
  destruct (MoneyRange (acc + nValue o)) eqn:E2; cbn [negb].
  { apply MoneyRange_spec in E2; rewrite IH by assumption; tauto. }
  split; [discriminate |]; intros ([_ Hf] & <- & Hle); pose proof (sum_nonneg _ Hf).
  assert (MoneyRange (acc + nValue o) = true) by (apply MoneyRange_spec; lia); congruence.
Qed.

(** A valid transaction is read back as written. *)
Lemma Unserialize_reads (w : bool) (tx : CTransaction) (rest : bytes) : valid_tx tx ->
  vin tx <> [] \/ vout tx = [] \/ w = false ->
  UnserializeTransaction w (SerializeTransaction w tx ++ rest) = Ok (if w then tx else strip_tx tx, rest).
Proof.
  rewrite SerializeTransaction_form; intros Hv Hc; destruct (w && HasWitness tx) eqn:E.
  { apply andb_true_iff in E; destruct E as [-> _]; apply read_extended, Hv. }
  rewrite read_basic by assumption; destruct w; [| reflexivity].
  unfold strip_tx; rewrite no_witness_strip by exact E; destruct tx; reflexivity.
Qed.

(** The bytes without witnesses determine the rest. *)
Lemma same_bytes_strip (tx tx' : CTransaction) : valid_tx tx -> valid_tx tx' ->
  SerializeTransaction false tx = SerializeTransaction false tx' -> strip_tx tx = strip_tx tx'.
Proof.
  rewrite !SerializeTransaction_form; intros H H' E; cbn [andb] in E.
  pose proof (read_basic false tx [] H ltac:(auto)) as R.
  rewrite E, (read_basic false tx' [] H' ltac:(auto)) in R; congruence.
Qed.

(** * Correctness *)

(** C17: transactions on the wire and on disk: a valid transaction is read
    back as written, with its witnesses when they are written and without
    them otherwise, unless it has outputs but no inputs in the format that
    allows witnesses; conversely whatever the reader accepts is the encoding
    of the transaction returned, or its encoding in the extended format with
    a witness section that holds no witness; and the bytes a transaction id
    is computed from determine the transaction up to its witnesses. *)
Theorem Transaction_codec (w : bool) (tx tx' : CTransaction) (s rest : bytes) :
  (valid_tx tx -> vin tx <> [] \/ vout tx = [] \/ w = false ->
   UnserializeTransaction w (SerializeTransaction w tx ++ rest) =
   Ok (if w then tx else strip_tx tx, rest)) /\
  (is_bytes s -> UnserializeTransaction w s = Ok (tx, rest) ->
   valid_tx tx /\
   (s = SerializeTransaction w tx ++ rest \/
    (w = true /\ HasWitness tx = false /\ s = extended_form tx ++ rest))) /\
  (valid_tx tx -> valid_tx tx' ->
   SerializeTransaction false tx = SerializeTransaction false tx' -> strip_tx tx = strip_tx tx').
Proof.
  split_all; [apply Unserialize_reads | | apply same_bytes_strip].
  rewrite !SerializeTransaction_form; intros Hs H; destruct (Unserialize_inv w s rest tx Hs H) as [Hv [[E ->] | [-> ->]]]; split; auto.
  - rewrite E, andb_false_r; auto.
  - destruct (HasWitness tx); cbn [andb]; auto.
Qed.

Definition tx_example : CTransaction :=
  mkTx [mkTxIn (mkOutPoint (repeat 7 32) 1) [0x51] SEQUENCE_FINAL [[1; 2]; []]]
       [mkTxOut 50 [0x51]] 2 100.

Lemma tx_example_valid : valid_tx tx_example.
Proof.
  split; cbn; try (unfold MAX_SIZE; lia); try (unfold in_s, in_u; lia).
  - repeat constructor; cbn; unfold in_u, in_s, MAX_SIZE, SEQUENCE_FINAL; lia.
  - repeat constructor; cbn; unfold in_u, in_s, MAX_SIZE; lia.
Defined.

Lemma Transaction_codec_witness :
  UnserializeTransaction true (SerializeTransaction true tx_example ++ [5]) = Ok (tx_example, [5]) /\
  valid_tx (mkTx [] [] 2 7) /\ strip_tx tx_example = strip_tx (strip_tx tx_example).
Proof.
  split_all.
  - apply (Transaction_codec true tx_example tx_example [] [5]); [apply tx_example_valid | left; discriminate].
  - apply (Transaction_codec true (mkTx [] [] 2 7) tx_example [2; 0; 0; 0; 0; 0; 7; 0; 0; 0] []); [| reflexivity].
    repeat constructor; unfold in_u; lia.
  - apply (Transaction_codec true tx_example (strip_tx tx_example) [] []); [apply tx_example_valid | | reflexivity].
    split; cbn; try (unfold MAX_SIZE; lia); try (unfold in_s, in_u; lia);
      repeat constructor; cbn; unfold in_u, in_s, MAX_SIZE, SEQUENCE_FINAL; lia.
Defined.

(** The total of a transaction's outputs is computed if and only if every
    output that counts is a valid amount and so is the total, and then it is
    the exact sum: the additions never wrap around. *)
Theorem GetValueOut_correct (enforced : bool) (tx : CTransaction) (v : Z) : valid_tx tx ->
  GetValueOut enforced tx = Some v <->
  Forall (fun x => 0 <= x <= MAX_MONEY) (counted enforced (vout tx)) /\
  sum (counted enforced (vout tx)) = v /\ v <= MAX_MONEY.
Proof.
  intros Hv; unfold GetValueOut; rewrite value_out_loop_spec.
  - rewrite Z.add_0_l; reflexivity.
  - unfold MAX_MONEY, COIN; lia.
  - apply Hv.
Qed.

Lemma GetValueOut_correct_witness :
  GetValueOut true tx_example = Some 50 /\ sum (counted true (vout tx_example)) = 50.
Proof.
  pose proof (GetValueOut_correct true tx_example 50 tx_example_valid) as H.
  split; [apply H; cbn | apply H; reflexivity].
  split_all; try reflexivity; try (unfold MAX_MONEY, COIN; lia).
  repeat constructor; unfold MAX_MONEY, COIN; lia.
Defined.
