(* ===== verification/Merkle.v ===== *)
(** Merkle roots and branches (src/consensus/merkle.cpp).

    [MerkleComputation] hashes the leaves in one pass, with an array of the
    roots of the complete subtrees seen so far and a final sweep over the
    rightmost path; it is modelled with its loops as they are written, the
    pointers that may be null being flags.  The reference is the tree itself:
    [node k i] is the [i]-th hash of level [k], whose right child, when it is
    missing, is the left one again.  The theorems show that the root is the
    top of the tree, that the [mutated] flag detects exactly the complete
    twin subtrees, that without them the root commits to the leaves, and that
    a branch leads from its leaf to the root.

    The double SHA256 is a parameter. *)

From Stdlib Require Import ZArith List Bool Lia Arith.
From S2P Require Import Prelude Serialize Script Standard Transaction.
Import ListNotations.
Open Scope Z_scope.

(** The array [inner] has 32 places. *)
Inductive merkle_error := LevelOutOfRange | NoTransactions.

Definition null_hash : bytes := repeat 0 32.

(** [!(count & (((uint32_t)1) << level))] *)
Definition bit_clear (count : Z) (level : nat) : bool :=
  Z.land count (w32 (Z.shiftl 1 (Z.of_nat level))) =? 0.

(** The local variables of a climb from level to level. *)
Record climb := mkClimb {
  level : nat;
  h : bytes;
  matchh : bool;
  branch : list bytes;
  mutated : bool
}.

Section Computation.
Variable Hash : bytes -> bytes.

Definition Hash2 (x y : bytes) : bytes := Hash (x ++ y).

(** Whether there is a [pbranch] to fill. *)
Variable pbranch : bool.

(** The part on [pbranch] of a step that combines [inner[level]] with [h]. *)
Definition push_branch (inner_level : bytes) (matchlevel : Z) (c : climb) : bool * list bytes :=
  if pbranch then
    if matchh c then (true, branch c ++ [inner_level])
    else if matchlevel =? Z.of_nat (level c) then (true, branch c ++ [h c])
    else (false, branch c)
  else (matchh c, branch c).

(** The loop over the low zero bits of [count]; [leaf] tells the one that
    adds a leaf, which looks for twins, from the one of the final sweep. *)
Fixpoint climb_loop (fuel : nat) (leaf : bool) (count : Z) (inner : list bytes) (matchlevel : Z) (c : climb)
  : result merkle_error climb :=
  match fuel with
  | O => Err LevelOutOfRange
  | S fuel' =>
      if bit_clear count (level c) then
        let i := nth (level c) inner [] in
        let '(m, b) := push_branch i matchlevel c in
        climb_loop fuel' leaf count inner matchlevel
          (mkClimb (S (level c)) (Hash2 i (h c)) m b (mutated c || (leaf && bytes_eqb i (h c))))
      else Ok c
  end.

(** [while (count < leaves.size())] *)
Fixpoint leaf_loop (branchpos : Z) (leaves : list bytes) (count : Z) (inner : list bytes) (matchlevel : Z)
  (branch : list bytes) (mutated : bool) : result merkle_error (Z * list bytes * Z * list bytes * bool) :=
  match leaves with
  | [] => Ok (count, inner, matchlevel, branch, mutated)
  | leaf :: leaves' =>
      let c := mkClimb 0 leaf (count =? branchpos) branch mutated in
      let count := w32 (count + 1) in
      let! c := climb_loop 32 true count inner matchlevel c in
      leaf_loop branchpos leaves' count (upd inner (level c) (h c))
        (if matchh c then Z.of_nat (level c) else matchlevel) (Merkle.branch c) (Merkle.mutated c)
  end.

(** The first level with something left. *)
Fixpoint lowest_level (fuel : nat) (count : Z) (level : nat) : result merkle_error nat :=
  match fuel with
  | O => Err LevelOutOfRange
  | S fuel' => if bit_clear count level then lowest_level fuel' count (S level) else Ok level
  end.

(** [while (count != (((uint32_t)1) << level))] *)
Fixpoint sweep (fuel : nat) (count : Z) (inner : list bytes) (matchlevel : Z) (c : climb) : result merkle_error climb :=
  match fuel with
  | O => Err LevelOutOfRange
  | S fuel' =>
      if count =? w32 (Z.shiftl 1 (Z.of_nat (level c))) then Ok c
      else
        let b := if pbranch && matchh c then branch c ++ [h c] else branch c in
        let count := w32 (count + w32 (Z.shiftl 1 (Z.of_nat (level c)))) in
        let! c := climb_loop (32 - S (level c)) false count inner matchlevel
                    (mkClimb (S (level c)) (Hash2 (h c) (h c)) (matchh c) b (mutated c)) in
        sweep fuel' count inner matchlevel c
  end.

(** [*proot], [*pmutated] and [*pbranch]. *)
Definition MerkleComputation (leaves : list bytes) (branchpos : Z) : result merkle_error (bytes * bool * list bytes) :=
  match leaves with
  | [] => Ok (null_hash, false, [])
  | _ =>
      let! r := leaf_loop branchpos leaves 0 (repeat [] 32) (-1) [] false in
      let '(count, inner, matchlevel, branch, mutated) := r in
      let! level := lowest_level 32 count 0 in
      let! c := sweep 32 count inner matchlevel
                  (mkClimb level (nth level inner []) (matchlevel =? Z.of_nat level) branch mutated) in
      Ok (h c, mutated, Merkle.branch c)
  end.
End Computation.

Section Roots.
Variable Hash : bytes -> bytes.

(** The root, and the flag for the caller that wants it. *)
Definition ComputeMerkleRoot (leaves : list bytes) : result merkle_error (bytes * bool) :=
  let! r := MerkleComputation Hash false leaves (w32 (-1)) in Ok (fst r).

Definition ComputeMerkleBranch (leaves : list bytes) (position : Z) : result merkle_error (list bytes) :=
  let! r := MerkleComputation Hash true leaves position in Ok (snd r).

Fixpoint ComputeMerkleRootFromBranch (leaf : bytes) (vMerkleBranch : list bytes) (nIndex : Z) : bytes :=
  match vMerkleBranch with
  | [] => leaf
  | it :: rest =>
      ComputeMerkleRootFromBranch (if negb (Z.land nIndex 1 =? 0) then Hash (it ++ leaf) else Hash (leaf ++ it))
        rest (Z.shiftr nIndex 1)
  end.

Definition BlockMerkleRoot (vtx : list CTransaction) : result merkle_error (bytes * bool) :=
  ComputeMerkleRoot (map (GetHash Hash) vtx).

Definition BlockWitnessMerkleRoot (vtx : list CTransaction) : result merkle_error (bytes * bool) :=
  match vtx with
  | [] => Err NoTransactions
  | _ :: vtx' => ComputeMerkleRoot (null_hash :: map (GetWitnessHash Hash) vtx')
  end.

Definition BlockMerkleBranch (vtx : list CTransaction) (position : Z) : result merkle_error (list bytes) :=
  ComputeMerkleBranch (map (GetHash Hash) vtx) position.
End Roots.

(** * The tree *)

(** The number of leaves below a node of level [k]. *)
Definition span (k : nat) : Z := 2 ^ Z.of_nat k.

Section Tree.
Variable Hash : bytes -> bytes.
Variable leaves : list bytes.

Definition size : Z := Z.of_nat (length leaves).

Fixpoint node (k : nat) (i : Z) : bytes :=
  match k with
  | O => nth (Z.to_nat i) leaves []
  | S k' =>
      let left := node k' (2 * i) in
      Hash2 Hash left (if (2 * i + 1) * span k' <? size then node k' (2 * i + 1) else left)
  end.

(** The number of levels above the leaves. *)
Definition height : nat := Z.to_nat (Z.log2_up size).

Definition root : bytes := node height 0.

(** Two complete sibling subtrees of the first [c] leaves have the same hash. *)
Definition twins (c : Z) : Prop :=
  exists k i, 0 <= i /\ (2 * i + 2) * span k <= c /\ node k (2 * i) = node k (2 * i + 1).

(** The sibling, at level [k], of the node above the leaf [pos]. *)
Definition sibling (pos : Z) (k : nat) : bytes :=
  let i := pos / span k in
  if Z.odd i then node k (i - 1)
  else if (i + 1) * span k <? size then node k (i + 1) else node k i.

Definition siblings (pos : Z) (k : nat) : list bytes := map (sibling pos) (seq 0 k).
End Tree.

(** * Arithmetic of the levels *)

Lemma span_pos k : 0 < span k.
Proof. unfold span; apply Z.pow_pos_nonneg; lia. Qed.

Lemma span_succ k : span (S k) = 2 * span k.
Proof. unfold span; rewrite Nat2Z.inj_succ, Z.pow_succ_r by lia; reflexivity. Qed.

Lemma span_0 : span 0 = 1.
Proof. reflexivity. Qed.

Lemma span_mono j k : (j <= k)%nat -> span j <= span k.
Proof. intros; unfold span; apply Z.pow_le_mono_r; lia. Qed.

Lemma span_lt j k : (j < k)%nat -> 2 * span j <= span k.
Proof. intros; rewrite <- span_succ; apply span_mono; lia. Qed.

Lemma span_split j k : (j <= k)%nat -> span k = span (k - j) * span j.
Proof. intros; unfold span; rewrite <- Z.pow_add_r by lia; f_equal; lia. Qed.

Lemma span_bound k : span k < 2 ^ 32 -> (k < 32)%nat.
Proof. unfold span; intros L; apply Z.pow_lt_mono_r_iff in L; lia. Qed.

(** The division of [m * span k - 1], the position of the last leaf of a
    row of [m] subtrees. *)
Lemma div_last m k : (m * span k - 1) / span k = m - 1.
Proof. pose proof (span_pos k); symmetry; apply (Z.div_unique _ _ _ (span k - 1)); lia. Qed.

Lemma div_exact m k : m * span k / span k = m.
Proof. pose proof (span_pos k); apply Z.div_mul; lia. Qed.

Lemma div_row x m k : (m - 1) * span k <= x < m * span k -> x / span k = m - 1.
Proof. pose proof (span_pos k); intros; symmetry; apply (Z.div_unique _ _ _ (x - (m - 1) * span k)); lia. Qed.

Lemma div_succ x k : x / span (S k) = x / span k / 2.
Proof. pose proof (span_pos k); rewrite span_succ, Z.mul_comm, Z.div_div; lia. Qed.

(** Adding one leaf does not carry beyond the lowest set bit. *)
Lemma div_carry m j k : Z.odd m = true -> (j < k)%nat -> (m * span j - 1) / span k = m * span j / span k.
Proof.
  intros O L; rewrite (span_split (S j) k) by lia; rewrite span_succ.
  pose proof (span_pos j); pose proof (span_pos (k - S j)); set (d := span (k - S j)) in *.
  replace (d * (2 * span j)) with (span j * (2 * d)) by ring.
  rewrite <- !Z.div_div, div_exact, div_last by lia.
  rewrite Z.odd_spec in O; destruct O as (q & ->).
  replace (2 * q + 1 - 1) with (q * 2) by lia; rewrite Z.div_mul by lia.
  replace (2 * q + 1) with (1 + q * 2) by lia; now rewrite Z.div_add by lia.
Qed.

Lemma bit_clear_row m k : (k < 32)%nat -> bit_clear (m * span k) k = Z.even m.
Proof.
  intros L; unfold bit_clear, w32, wrap; rewrite Z.shiftl_1_l, Z.mod_small.
  2: { split; [apply Z.pow_nonneg; lia|apply Z.pow_lt_mono_r; lia]. }
  rewrite land_pow2_eqb by lia; unfold span; rewrite <- (Z.shiftl_mul_pow2 m) by lia.
  rewrite Z.shiftl_spec, Z.sub_diag, Z.bit0_odd, Z.negb_odd by lia; reflexivity.
Qed.

Lemma one_shl k : (k < 32)%nat -> w32 (Z.shiftl 1 (Z.of_nat k)) = span k.
Proof.
  intros L; unfold w32; rewrite Z.shiftl_1_l; apply wrap_id.
  split; [apply Z.pow_nonneg; lia|apply Z.pow_lt_mono_r; lia].
Qed.

Lemma even_half m : Z.even m = true -> exists q, m = 2 * q.
Proof. intros E; apply Z.even_spec in E as (q & ->); eauto. Qed.

Lemma odd_pred m : Z.odd (m - 1) = Z.even m.
Proof. rewrite Z.odd_sub; change (Z.odd 1) with true; rewrite <- Z.negb_even; now destruct (Z.even m). Qed.

(** * One pass over the leaves *)

Section Pass.
Variable Hash : bytes -> bytes.
Variable leaves : list bytes.
Variable pbranch : bool.
Variable pos : Z.

Local Abbreviation n := (size leaves).
Local Abbreviation node := (node Hash leaves).
Local Abbreviation siblings := (siblings Hash leaves pos).
Local Abbreviation sibling := (sibling Hash leaves pos).

Hypothesis Hpos : pbranch = true -> 0 <= pos < n.

Lemma node_pair k i : (2 * i + 1) * span k < n -> node (S k) i = Hash2 Hash (node k (2 * i)) (node k (2 * i + 1)).
Proof. intros L; cbn [Merkle.node]; now rewrite (proj2 (Z.ltb_lt _ _)). Qed.

Lemma node_last k i : n <= (2 * i + 1) * span k -> node (S k) i = Hash2 Hash (node k (2 * i)) (node k (2 * i)).
Proof. intros L; cbn [Merkle.node]; now rewrite (proj2 (Z.ltb_ge _ _)). Qed.

Lemma siblings_succ k : siblings (S k) = siblings k ++ [sibling k].
Proof. unfold Merkle.siblings; now rewrite seq_S, map_app. Qed.

(** [inner] after [c] leaves. *)
Definition inner_ok (c : Z) (inner : list bytes) : Prop :=
  length inner = 32%nat /\
  forall k, (k < 32)%nat -> Z.odd (c / span k) = true -> nth k inner [] = node k (c / span k - 1).

(** Where the hash that covers the position is, [c] leaves being covered by
    [inner] and [m * span k] by it and a pending hash of level [k]. *)
Definition stored (c : Z) (k : nat) (matchlevel : Z) (branch : list bytes) : Prop :=
  exists l, (k <= l)%nat /\ matchlevel = Z.of_nat l /\ Z.odd (c / span l) = true /\ pos / span l = c / span l - 1 /\
    branch = siblings l.

Definition match_ok (c m : Z) (k : nat) (matchlevel : Z) (matchh : bool) (branch : list bytes) : Prop :=
  pbranch = true ->
  (matchh = true /\ pos / span k = m - 1 /\ branch = siblings k) \/
  (matchh = false /\ m * span k <= pos /\ matchlevel = -1 /\ branch = []) \/
  (matchh = false /\ stored c k matchlevel branch).

(** The branch after combining [inner[k]] with the pending hash: the two are
    the last of an even number of nodes of their level. *)
Lemma push_ok c q k matchlevel cl i : level cl = k -> h cl = node k (2 * q - 1) -> i = node k (2 * q - 2) ->
  (2 * q - 1) * span k < n -> c / span k = 2 * q - 1 ->
  match_ok c (2 * q) k matchlevel (matchh cl) (branch cl) ->
  let '(m, b) := push_branch pbranch i matchlevel cl in match_ok c q (S k) matchlevel m b.
Proof.
  intros Ek Eh Ei L D M; unfold push_branch; destruct pbranch eqn:PB; [|intros P; congruence].
  specialize (M PB); unfold match_ok; destruct M as [(-> & P & B)|[(-> & P & Em & B)|(-> & l & Ll & Em & O & P & B)]].
  - intros _; left; split; [reflexivity|]; split.
    + rewrite div_succ, P; symmetry; apply (Z.div_unique _ _ _ 1); lia.
    + rewrite siblings_succ, B; do 2 f_equal; rewrite Ei; unfold Merkle.sibling; rewrite P, odd_pred.
      replace (Z.even (2 * q)) with true by (rewrite Z.even_mul; reflexivity); f_equal; lia.
  - rewrite Em, Ek, (proj2 (Z.eqb_neq _ _)) by lia; intros _; right; left; split_all; auto.
    rewrite span_succ; lia.
  - rewrite Em, Ek; destruct (Z.eqb_spec (Z.of_nat l) (Z.of_nat k)) as [E|E]; intros _.
    + assert (l = k) by lia; subst l; rewrite D in P; left; split; [reflexivity|]; split.
      * rewrite div_succ, P; symmetry; apply (Z.div_unique _ _ _ 0); lia.
      * rewrite siblings_succ, B; do 2 f_equal; rewrite Eh; unfold Merkle.sibling; rewrite P.
        replace (2 * q - 1 - 1) with (2 * (q - 1)) by lia; rewrite Z.odd_mul; cbn [Z.odd andb].
        rewrite (proj2 (Z.ltb_lt _ _)) by lia; f_equal; lia.
    + right; right; split; [reflexivity|]; exists l; split_all; auto; lia.
Qed.

(** What [mutated] has seen when the twins that end in leaf [cz] below level
    [k] have been compared. *)
Definition seen (c cz : Z) (k : nat) (mutated : bool) : Prop :=
  mutated = true <-> twins Hash leaves c \/
    exists j i, (j < k)%nat /\ 0 <= i /\ (2 * i + 2) * span j = cz /\ node j (2 * i) = node j (2 * i + 1).

(** A climb at level [k] with [inner] covering [c] leaves, the pending hash
    being the last of [m] nodes, which end at leaf [cz]. *)
Record climbing (c cz : Z) (leaf : bool) (matchlevel : Z) (m : Z) (cl : climb) : Prop := {
  climb_count : cz = m * span (level cl);
  climb_row : (m - 1) * span (level cl) <= c < cz;
  climb_exists : (m - 1) * span (level cl) < n;
  climb_hash : h cl = node (level cl) (m - 1);
  climb_match : match_ok c m (level cl) matchlevel (matchh cl) (branch cl);
  climb_seen : leaf = true -> seen c cz (level cl) (mutated cl)
}.

Lemma climb_step c cz leaf inner matchlevel q cl : 0 <= c -> inner_ok c inner -> (level cl < 32)%nat ->
  climbing c cz leaf matchlevel (2 * q) cl ->
  let i := nth (level cl) inner [] in
  let '(m, b) := push_branch pbranch i matchlevel cl in
  climbing c cz leaf matchlevel q
    (mkClimb (S (level cl)) (Hash2 Hash i (h cl)) m b (mutated cl || (leaf && bytes_eqb i (h cl)))).
Proof.
  intros C [_ I] L [Ec Er Ee Eh Em Es]; pose proof (span_pos (level cl)) as Sp.
  assert (D : c / span (level cl) = 2 * q - 1) by (apply div_row; lia).
  assert (Ei : nth (level cl) inner [] = node (level cl) (2 * q - 2)).
  { rewrite I by (auto; rewrite D, odd_pred, Z.even_mul; reflexivity); rewrite D; f_equal; lia. }
  cbv zeta; rewrite Ei; pose proof (push_ok c q (level cl) matchlevel cl _ eq_refl Eh eq_refl Ee D Em) as M.
  destruct (push_branch pbranch (node (level cl) (2 * q - 2)) matchlevel cl) as [m b].
  split; cbn [level h matchh branch mutated]; rewrite ?span_succ; auto; try lia.
  - rewrite node_pair by (replace (2 * (q - 1) + 1) with (2 * q - 1) by lia; exact Ee).
    rewrite Eh; do 2 f_equal; lia.
  - intros Lf; specialize (Es Lf); subst leaf; unfold seen in Es |- *; rewrite orb_true_iff, andb_true_l, Es, bytes_eqb_eq, Eh; split.
    + intros [[T|(j & i & J & R)]|E]; [auto|right; exists j, i; split; [lia|exact R]|].
      right; exists (level cl), (q - 1); split_all; auto; try nia.
      replace (2 * (q - 1)) with (2 * q - 2) by lia; replace (2 * q - 2 + 1) with (2 * q - 1) by lia; exact E.
    + intros [T|(j & i & J & R0 & R & E)]; [auto|].
      destruct (Nat.eq_dec j (level cl)) as [->|]; [|left; right; exists j, i; split_all; auto; lia].
      assert (i = q - 1) by nia; subst i; right.
      replace (2 * q - 2) with (2 * (q - 1)) by lia; replace (2 * q - 1) with (2 * (q - 1) + 1) by lia; exact E.
Qed.

Lemma climb_loop_ok c cz leaf inner matchlevel : 0 <= c -> cz < 2 ^ 32 -> inner_ok c inner -> forall fuel m cl,
  (fuel + level cl = 32)%nat -> climbing c cz leaf matchlevel m cl ->
  exists cl' m', climb_loop Hash pbranch fuel leaf cz inner matchlevel cl = Ok cl' /\ (level cl' < 32)%nat /\
    (level cl <= level cl')%nat /\ Z.odd m' = true /\ climbing c cz leaf matchlevel m' cl' /\
    (leaf = false -> mutated cl' = mutated cl).
Proof.
  intros C Z32 I; induction fuel as [|fuel IH]; intros m cl F K; pose proof K as [Ec Er Ee Eh Em Es];
    pose proof (span_pos (level cl)) as Sp; assert (0 < m) by (apply (Z.mul_pos_cancel_r m (span (level cl))); lia).
  - replace (level cl) with 32%nat in * by lia; change (span 32) with (2 ^ 32) in *; nia.
  - assert (Bc : bit_clear cz (level cl) = Z.even m) by (rewrite Ec; apply bit_clear_row; lia).
    cbn [climb_loop]; rewrite Bc; destruct (Z.even m) eqn:Ev.
    2: { exists cl, m; rewrite <- Z.negb_even, Ev; split_all; auto; lia. }
    destruct (even_half m Ev) as (q & ->).
    pose proof (climb_step c cz leaf inner matchlevel q cl C I ltac:(lia) K) as St.
    cbv zeta in St |- *; destruct (push_branch _ _ _ _) as [mm b].
    match type of St with climbing _ _ _ _ _ ?x =>
      destruct (IH q x) as (cl' & m' & E & L1 & L2 & O & K' & Mu); [cbn [level]; lia|exact St|] end.
    exists cl', m'; rewrite E; cbn [level mutated] in *; split_all; auto; [lia|].
    intros Lf; rewrite (Mu Lf), Lf; now rewrite orb_false_r.
Qed.

(** ** Adding a leaf *)

(** After [c] leaves the hash above the position is in [inner], or its leaf
    is still to come. *)
Definition matched (c matchlevel : Z) (branch : list bytes) : Prop :=
  pbranch = true -> (c <= pos /\ matchlevel = -1 /\ branch = []) \/ stored c 0 matchlevel branch.

Lemma matched_start c branchpos matchlevel br : (pbranch = true -> branchpos = pos) -> 0 <= c -> matched c matchlevel br ->
  match_ok c (c + 1) 0 matchlevel (c =? branchpos) br.
Proof.
  intros Eb C M P; specialize (M P); rewrite (Eb P); specialize (Hpos P); rewrite span_0, Z.div_1_r.
  destruct (Z.eqb_spec c pos) as [E|N].
  - left; destruct M as [(_ & _ & ->)|(l & _ & _ & _ & X & _)]; [split_all; [reflexivity|lia|reflexivity]|rewrite E in X; lia].
  - destruct M as [(L & -> & ->)|S]; [right; left; split_all; auto; lia|right; right; auto].
Qed.

Lemma odd_row m j k : Z.odd m = true -> (k < j)%nat -> Z.odd (m * span j / span k) = false.
Proof.
  intros O L; rewrite (span_split k j), Z.mul_assoc, div_exact by lia.
  replace (j - k)%nat with (S (j - k - 1)) by lia; rewrite span_succ, Z.odd_mul, Z.odd_mul; cbn [Z.odd andb].
  apply andb_false_r.
Qed.

Lemma matched_end c m k matchlevel mh br : Z.odd m = true -> c = m * span k - 1 -> 0 <= c ->
  match_ok c m k matchlevel mh br -> matched (m * span k) (if mh then Z.of_nat k else matchlevel) br.
Proof.
  intros O E C M P; destruct (M P) as [(-> & X & B)|[(-> & X)|(-> & l & Ll & Em & Ol & X & B)]].
  - right; exists k; rewrite div_exact; split_all; auto; lia.
  - left; exact X.
  - right; destruct (Nat.eq_dec l k) as [->|].
    + rewrite E, div_last, odd_pred, <- Z.negb_odd, O in Ol; discriminate.
    + rewrite E, div_carry in Ol, X by (auto; lia); exists l; split_all; auto; lia.
Qed.

Lemma inner_end c m k inner x : Z.odd m = true -> c = m * span k - 1 -> (k < 32)%nat ->
  inner_ok c inner -> x = node k (m - 1) -> inner_ok (m * span k) (upd inner k x).
Proof.
  intros O E K [Li I] X; split; [now rewrite length_upd|]; intros j J Oj; rewrite nth_upd by lia.
  destruct (Nat.eqb_spec k j) as [<-|N]; [now rewrite div_exact|].
  destruct (Nat.lt_ge_cases j k); [rewrite odd_row in Oj by (auto; lia); discriminate|].
  rewrite <- div_carry in Oj |- * by (auto; lia); rewrite <- E in Oj |- *; now apply I.
Qed.

Lemma seen_end c m k b : Z.odd m = true -> c = m * span k - 1 -> seen c (m * span k) k b ->
  b = true <-> twins Hash leaves (m * span k).
Proof.
  intros O E S; unfold seen in S; rewrite S; split.
  - intros [(j & i & R)|(j & i & J & R0 & R & X)]; exists j, i; split_all; try tauto; lia.
  - intros (j & i & R0 & R & X); destruct (Z.eq_dec ((2 * i + 2) * span j) (m * span k)) as [Q|Q].
    + right; exists j, i; split_all; auto; destruct (Nat.lt_ge_cases j k) as [|G]; [auto|].
      rewrite (span_split k j), Z.mul_assoc in Q by lia; pose proof (span_pos k).
      apply Z.mul_reg_r in Q; [|lia]; rewrite <- Q, Z.odd_mul in O.
      replace (2 * i + 2) with (2 * (i + 1)) in O by lia; rewrite Z.odd_mul in O; discriminate.
    + left; exists j, i; split_all; auto; lia.
Qed.

Hypothesis Hn : n <= 2 ^ 31.

Lemma leaf_loop_ok branchpos (Eb : pbranch = true -> branchpos = pos) : forall rest done inner matchlevel br mu,
  leaves = done ++ rest -> let c := Z.of_nat (length done) in
  inner_ok c inner -> matched c matchlevel br -> (mu = true <-> twins Hash leaves c) ->
  exists inner' matchlevel' br' mu',
    leaf_loop Hash pbranch branchpos rest c inner matchlevel br mu = Ok (n, inner', matchlevel', br', mu') /\
    inner_ok n inner' /\ matched n matchlevel' br' /\ (mu' = true <-> twins Hash leaves n).
Proof.
  induction rest as [|x rest IH]; intros done inner matchlevel br mu El c I M T; cbn [leaf_loop].
  - assert (En : c = n) by (unfold c, size; rewrite El, app_nil_r; reflexivity); rewrite En in *.
    do 4 eexists; eauto.
  - assert (C : c + 1 <= n) by (unfold c, size; rewrite El, length_app; cbn [length]; lia).
    replace (w32 (c + 1)) with (c + 1) by (symmetry; apply wrap_id; unfold in_u, c in *; lia).
    destruct (climb_loop_ok c (c + 1) true inner matchlevel ltac:(lia) ltac:(lia) I 32 (c + 1)
      (mkClimb 0 x (c =? branchpos) br mu) ltac:(reflexivity)) as (cl & m & E & L & _ & O & K & _).
    { split; cbn [level h matchh branch mutated]; rewrite ?span_0; try lia.
      - cbn [Merkle.node]; rewrite El, app_nth2 by (unfold c; lia); now replace (_ - _)%nat with 0%nat by (unfold c; lia).
      - apply matched_start; auto; lia.
      - intros _; unfold seen; rewrite T; split; [auto|intros [|(j & i & J & _)]; [auto|lia]]. }
    rewrite E; cbn [bind]; destruct K as [Ec Er Ee Eh Em Es].
    assert (Cm : c = m * span (level cl) - 1) by lia.
    specialize (IH (done ++ [x])); rewrite length_app, Nat2Z.inj_add in IH; fold c in IH; cbn [length] in IH.
    change (Z.of_nat 1) with 1 in IH; apply IH.
    + now rewrite <- app_assoc.
    + rewrite Ec; eapply inner_end; eauto.
    + rewrite Ec; eapply matched_end; eauto; lia.
    + rewrite Ec in Es |- *; eapply seen_end; eauto.
Qed.

(** ** The final sweep *)

Lemma lowest_level_ok fuel : forall k m, (fuel + k = 32)%nat -> n = m * span k -> 0 < n ->
  exists k' m', lowest_level fuel n k = Ok k' /\ (k' < 32)%nat /\ n = m' * span k' /\ Z.odd m' = true.
Proof.
  induction fuel as [|fuel IH]; intros k m F E P; pose proof (span_pos k).
  - replace k with 32%nat in * by lia; change (span 32) with (2 ^ 32) in *; nia.
  - assert (Bc : bit_clear n k = Z.even m) by (rewrite E; apply bit_clear_row; lia).
    cbn [lowest_level]; rewrite Bc; destruct (Z.even m) eqn:Ev.
    + destruct (even_half m Ev) as (q & ->); apply (IH (S k) q); [lia|rewrite span_succ; lia|exact P].
    + exists k, m; rewrite <- Z.negb_even, Ev; split_all; auto; lia.
Qed.

(** The pending hash is the last, the [w]-th, of its level, which is odd; the
    levels below are done. *)
Record sweeping (cz w matchlevel : Z) (cl : climb) : Prop := {
  sweep_count : cz = w * span (level cl);
  sweep_odd : Z.odd w = true;
  sweep_row : n <= cz < n + span (level cl);
  sweep_top : cz < 2 * n;
  sweep_level : (level cl < 32)%nat;
  sweep_hash : h cl = node (level cl) (w - 1);
  sweep_match : pbranch = true ->
    (matchh cl = true /\ pos / span (level cl) = w - 1 /\ branch cl = siblings (level cl)) \/
    (matchh cl = false /\ stored n (S (level cl)) matchlevel (branch cl))
}.

Lemma sweep_start matchlevel br mu k m inner : n = m * span k -> Z.odd m = true -> (k < 32)%nat -> 0 < n ->
  inner_ok n inner -> matched n matchlevel br ->
  sweeping n m matchlevel (mkClimb k (nth k inner []) (matchlevel =? Z.of_nat k) br mu).
Proof.
  intros E O K P [_ I] M; pose proof (span_pos k).
  assert (D : n / span k = m) by (rewrite E; apply div_exact).
  split; cbn [level h matchh branch]; auto; try lia; [rewrite I, D; auto; now rewrite D|].
  intros Pb; specialize (Hpos Pb); destruct (M Pb) as [(X & _)|(l & _ & -> & Ol & X & B)]; [lia|].
  destruct (Nat.lt_ge_cases l k) as [L|L]; [rewrite E, odd_row in Ol by auto; discriminate|].
  destruct (Z.eqb_spec (Z.of_nat l) (Z.of_nat k)) as [Q|Q]; [left|right; split; [reflexivity|exists l; split_all; auto; lia]].
  assert (l = k) by lia; subst l; rewrite D in X; auto.
Qed.

(** Combining the last hash of an odd level with itself starts a climb. *)
Lemma sweep_climb cz w matchlevel cl : sweeping cz w matchlevel cl -> w <> 1 -> 0 < n ->
  exists q, w = 2 * q - 1 /\ cz + span (level cl) < 2 * n /\
  climbing n (cz + span (level cl)) false matchlevel q
    (mkClimb (S (level cl)) (Hash2 Hash (h cl) (h cl)) (matchh cl)
       (if pbranch && matchh cl then branch cl ++ [h cl] else branch cl) (mutated cl)).
Proof.
  intros [Ec Eo Er Et El Eh Em] W P; pose proof (span_pos (level cl)) as Sp.
  pose proof Eo as Eo'; rewrite Z.odd_spec in Eo'; destruct Eo' as (r & Er'); exists (r + 1).
  assert (0 < w) by (apply (Z.mul_pos_cancel_r w (span (level cl))); lia).
  assert (2 * span (level cl) <= (w - 1) * span (level cl)) by (apply Z.mul_le_mono_nonneg_r; lia).
  split; [lia|]; split; [lia|]; split; cbn [level h matchh branch]; rewrite ?span_succ.
  - lia.
  - replace (r + 1 - 1) with r by lia; lia.
  - replace (r + 1 - 1) with r by lia; lia.
  - rewrite node_last by (replace (2 * (r + 1 - 1) + 1) with w by lia; lia).
    rewrite Eh; do 2 f_equal; lia.
  - intros Pb; destruct (Em Pb) as [(Mh & X & B)|(Mh & S)]; rewrite Pb, Mh; cbn [andb]; [left|right; right; auto].
    split; [reflexivity|]; split; [rewrite div_succ, X; symmetry; apply (Z.div_unique _ _ _ 0); lia|].
    rewrite siblings_succ, B; do 2 f_equal; unfold Merkle.sibling; rewrite X, odd_pred, <- Z.negb_odd, Eo; cbn [negb].
    rewrite (proj2 (Z.ltb_ge _ _)) by (replace (w - 1 + 1) with w by lia; lia); exact Eh.
  - discriminate.
Qed.

Lemma climb_sweep cz matchlevel m cl : climbing n cz false matchlevel m cl -> Z.odd m = true -> (level cl < 32)%nat ->
  cz < 2 * n -> sweeping cz m matchlevel cl.
Proof.
  intros [Ec Er Ee Eh Em _] O L T; split; auto; [lia|].
  intros Pb; specialize (Hpos Pb); destruct (Em Pb) as [X|[(_ & X & _)|(Mh & l & Ll & El & Ol & X)]]; [auto|lia|].
  right; split; [exact Mh|]; exists l; split_all; try tauto; destruct (Nat.eq_dec l (level cl)) as [->|]; [|lia].
  rewrite (div_row n m) in Ol by lia; rewrite odd_pred, <- Z.negb_odd, O in Ol; discriminate.
Qed.

Lemma sweep_ok matchlevel inner (I : inner_ok n inner) (P : 0 < n) fuel : forall cz w cl, (32 <= fuel + level cl)%nat ->
  sweeping cz w matchlevel cl ->
  exists cl', sweep Hash pbranch fuel cz inner matchlevel cl = Ok cl' /\ n <= span (level cl') < 2 * n /\
    h cl' = node (level cl') 0 /\ (pbranch = true -> branch cl' = siblings (level cl')).
Proof.
  induction fuel as [|fuel IH]; intros cz w cl F Sw; pose proof Sw as [Ec Eo Er Et El Eh Em]; [lia|].
  cbn [sweep]; rewrite one_shl by auto; pose proof (span_pos (level cl)) as Sp.
  destruct (Z.eqb_spec cz (span (level cl))) as [E|N].
  - assert (w = 1) by (apply (Z.mul_reg_r _ _ (span (level cl))); lia); subst w.
    exists cl; split_all; auto; try lia; intros Pb; destruct (Em Pb) as [(_ & _ & B)|(_ & l & Ll & _ & Ol & _)]; [exact B|].
    rewrite Z.div_small in Ol; [discriminate|].
    pose proof (span_lt (level cl) l); lia.
  - assert (W : w <> 1) by (intros ->; lia).
    destruct (sweep_climb cz w matchlevel cl Sw W P) as (q & _ & T & K).
    replace (w32 (cz + span (level cl))) with (cz + span (level cl)) by (symmetry; apply wrap_id; unfold in_u; lia).
    match type of K with climbing _ _ _ _ _ ?x => destruct (climb_loop_ok n (cz + span (level cl)) false inner matchlevel
      ltac:(lia) ltac:(lia) I (32 - S (level cl)) q x) as (cl' & m' & E & L1 & L2 & O & K' & _);
      [cbn [level]; lia|exact K|] end.
    rewrite E; cbn [bind level] in *; apply (IH _ m'); [lia|apply climb_sweep; auto].
Qed.

(** The height of the tree. *)
Lemma height_unique k : 0 < n -> n <= span k < 2 * n -> k = height leaves.
Proof.
  intros P [L U]; unfold height; destruct k as [|k].
  - rewrite span_0 in *; now replace n with 1 by lia.
  - rewrite span_succ in U; rewrite (Z.log2_up_unique n (Z.of_nat (S k))); [lia|lia|].
    replace (Z.pred (Z.of_nat (S k))) with (Z.of_nat k) by lia; fold (span k) (span (S k)); lia.
Qed.

Lemma MerkleComputation_ok branchpos : (pbranch = true -> branchpos = pos) -> leaves <> [] ->
  exists mu br, MerkleComputation Hash pbranch leaves branchpos = Ok (root Hash leaves, mu, br) /\
    (mu = true <-> twins Hash leaves n) /\ (pbranch = true -> br = siblings (height leaves)).
Proof.
  intros Eb N; assert (P : 0 < n) by (unfold size; destruct leaves; [congruence|cbn [length]; lia]).
  assert (E : MerkleComputation Hash pbranch leaves branchpos =
    let! r := leaf_loop Hash pbranch branchpos leaves 0 (repeat [] 32) (-1) [] false in
    let '(count, inner, matchlevel, branch, mutated) := r in
    let! level := lowest_level 32 count 0 in
    let! c := sweep Hash pbranch 32 count inner matchlevel
                (mkClimb level (nth level inner []) (matchlevel =? Z.of_nat level) branch mutated) in
    Ok (h c, mutated, Merkle.branch c)) by (unfold MerkleComputation; destruct leaves; [congruence|reflexivity]).
  rewrite E; clear E; pose proof (leaf_loop_ok branchpos Eb leaves [] (repeat [] 32) (-1) [] false eq_refl) as LL.
  change (Z.of_nat (length (@nil bytes))) with 0 in LL; destruct LL as (inner & ml & br & mu & -> & I & M & T).
  - split; [reflexivity|]; intros k _; rewrite Z.div_0_l by (pose proof (span_pos k); lia); discriminate.
  - intros Pb; left; split_all; auto; apply Hpos in Pb; lia.
  - split; [discriminate|intros (k & i & R0 & R & _)]; pose proof (span_pos k); nia.
  - cbn [bind]; destruct (lowest_level_ok 32 0 n eq_refl ltac:(rewrite span_0; lia) P) as (k & m & -> & K & Em & O); cbn [bind].
    pose proof (sweep_start ml br mu k m inner Em O K P I M) as S0.
    destruct (sweep_ok ml inner I P 32 n m _ ltac:(cbn [level]; lia) S0) as (cl & -> & H & Eh & Ebr).
    exists mu, (branch cl); cbn [bind]; rewrite (height_unique _ P H) in *; split_all; auto; now rewrite Eh.
Qed.
End Pass.

(** * Branches *)

Lemma branch_root Hash leaves pos : 0 <= pos < size leaves -> forall d k,
  ComputeMerkleRootFromBranch Hash (node Hash leaves k (pos / span k)) (map (sibling Hash leaves pos) (seq k d))
    (pos / span k) = node Hash leaves (k + d) (pos / span (k + d)).
Proof.
  intros P; induction d as [|d IH]; intros k; cbn [seq map ComputeMerkleRootFromBranch]; [now rewrite Nat.add_0_r|].
  pose proof (span_pos k) as Sp; rewrite Z.shiftr_div_pow2 by lia; change (2 ^ 1) with 2; rewrite <- div_succ.
  replace (k + S d)%nat with (S k + d)%nat by lia; rewrite <- IH; f_equal.
  change (Z.land (pos / span k) 1) with (Z.land (pos / span k) (2 ^ 0)); rewrite land_pow2_eqb, negb_involutive by lia.
  rewrite Z.bit0_odd; unfold sibling; rewrite div_succ; set (i := pos / span k).
  assert (L : i * span k <= pos) by (unfold i; rewrite Z.mul_comm; apply Z.mul_div_le; lia).
  pose proof (Z.div_mod i 2 ltac:(lia)) as D; rewrite Zmod_odd in D; destruct (Z.odd i).
  - rewrite node_pair by (replace (2 * (i / 2) + 1) with i by lia; lia); unfold Hash2.
    replace (2 * (i / 2)) with (i - 1) by lia; now replace (i - 1 + 1) with i by lia.
  - cbn [node]; unfold Hash2; rewrite Z.add_0_r in D; rewrite <- D; destruct ((i + 1) * span k <? size leaves); reflexivity.
Qed.

(** * Commitment *)

(** The pairs hashed to build a tree. *)
Definition hashed (Hash : bytes -> bytes) (leaves : list bytes) (x y : bytes) : Prop :=
  exists k i, (k < height leaves)%nat /\ 0 <= i /\ i * span (S k) < size leaves /\ x = node Hash leaves k (2 * i) /\
    y = if (2 * i + 1) * span k <? size leaves then node Hash leaves k (2 * i + 1) else x.

(** No collision among the strings hashed to build two trees. *)
Definition no_collision (Hash : bytes -> bytes) (l1 l2 : list bytes) : Prop :=
  forall x y x' y', hashed Hash l1 x y \/ hashed Hash l2 x y -> hashed Hash l1 x' y' \/ hashed Hash l2 x' y' ->
  Hash2 Hash x y = Hash2 Hash x' y' -> x = x' /\ y = y'.

Section Binding.
Variable Hash : bytes -> bytes.

Lemma no_collision_sym l1 l2 : no_collision Hash l1 l2 -> no_collision Hash l2 l1.
Proof. intros N x y x' y' H1 H2; apply N; tauto. Qed.

(** The children of equal nodes. *)
Lemma same_children l1 l2 k i j : no_collision Hash l1 l2 -> (k < height l1)%nat -> (k < height l2)%nat ->
  0 <= i -> i * span (S k) < size l1 -> 0 <= j -> j * span (S k) < size l2 ->
  node Hash l1 (S k) i = node Hash l2 (S k) j ->
  node Hash l1 k (2 * i) = node Hash l2 k (2 * j) /\
  (if (2 * i + 1) * span k <? size l1 then node Hash l1 k (2 * i + 1) else node Hash l1 k (2 * i)) =
  (if (2 * j + 1) * span k <? size l2 then node Hash l2 k (2 * j + 1) else node Hash l2 k (2 * j)).
Proof.
  intros N K1 K2 I Li J Lj E; apply N; [left; exists k, i|right; exists k, j|exact E]; split_all; auto.
Qed.

Lemma no_collision_self l1 l2 : no_collision Hash l1 l2 -> no_collision Hash l1 l1.
Proof. intros N x y x' y' H1 H2; apply N; tauto. Qed.

(** A complete subtree and an incomplete one agree only in the presence of
    complete twins. *)
Lemma incomplete_twin l k : no_collision Hash l l -> (k <= height l)%nat -> forall a b, 0 <= a -> 0 <= b ->
  (a + 1) * span k <= size l -> b * span k < size l < (b + 1) * span k ->
  node Hash l k a = node Hash l k b -> twins Hash l (size l).
Proof.
  intros N; induction k as [|k IH]; intros K a b A B La Lb E; [rewrite span_0 in *; lia|].
  pose proof (span_pos k); pose proof (span_succ k) as Sk.
  destruct (same_children l l k a b N K K A ltac:(nia) B ltac:(nia) E) as [E1 E2].
  rewrite (proj2 (Z.ltb_lt _ _)) in E2 by nia.
  destruct (Z.ltb_spec ((2 * b + 1) * span k) (size l)).
  - apply (IH ltac:(lia) (2 * a + 1) (2 * b + 1)); auto; nia.
  - exists k, a; split_all; [auto|nia|congruence].
Qed.

(** A right child of one tree is there in the other one. *)
Lemma no_extra l1 l2 k j : no_collision Hash l1 l2 -> (k < height l1)%nat -> (k < height l2)%nat -> ~ twins Hash l1 (size l1) -> 0 <= j ->
  (2 * j + 1) * span k < size l1 -> j * span (S k) < size l2 ->
  node Hash l1 (S k) j = node Hash l2 (S k) j -> (2 * j + 1) * span k < size l2.
Proof.
  intros N K1 K2 T J L1 L2 E; pose proof (span_pos k); pose proof (span_succ k) as Sk.
  destruct (Z.lt_ge_cases ((2 * j + 1) * span k) (size l2)) as [|G]; [auto|exfalso; apply T].
  destruct (same_children l1 l2 k j j N K1 K2 J ltac:(nia) J L2 E) as [E1 E2].
  rewrite (proj2 (Z.ltb_lt _ _)), (proj2 (Z.ltb_ge _ _)) in E2 by lia.
  destruct (Z.le_gt_cases ((2 * j + 2) * span k) (size l1)).
  - exists k, j; split_all; auto; congruence.
  - apply (incomplete_twin l1 k (no_collision_self _ _ N) ltac:(lia) (2 * j) (2 * j + 1)); try nia; congruence.
Qed.

Definition same_level (l1 l2 : list bytes) (k : nat) : Prop :=
  forall i, 0 <= i -> (i * span k < size l1 <-> i * span k < size l2) /\
    (i * span k < size l1 -> node Hash l1 k i = node Hash l2 k i).

Lemma same_level_below l1 l2 k : no_collision Hash l1 l2 -> (k < height l1)%nat -> (k < height l2)%nat -> ~ twins Hash l1 (size l1) -> ~ twins Hash l2 (size l2) ->
  same_level l1 l2 (S k) -> same_level l1 l2 k.
Proof.
  intros N K1 K2 T1 T2 S i I; pose proof (span_pos k); pose proof (span_succ k) as Sk.
  pose proof (Z.div_mod i 2 ltac:(lia)) as D; pose proof (Z.mod_pos_bound i 2 ltac:(lia)) as M.
  set (j := i / 2) in *; assert (J : 0 <= j) by (unfold j; apply Z.div_pos; lia); destruct (S j J) as [S1 S2].
  assert (Up : forall l : list bytes, i * span k < size l -> j * span (Datatypes.S k) < size l) by (intros l; nia).
  assert (Ch := fun L1 => same_children l1 l2 k j j N K1 K2 J L1 J (proj1 S1 L1) (S2 L1)).
  destruct (Z.eq_dec (i mod 2) 0) as [E|E].
  - replace i with (2 * j) in * by lia; replace (2 * j * span k) with (j * span (Datatypes.S k)) by nia.
    split; [exact S1|intros L; apply (Ch L)].
  - replace i with (2 * j + 1) in * by lia.
    assert (X : (2 * j + 1) * span k < size l1 <-> (2 * j + 1) * span k < size l2).
    { split; intros L; pose proof (Up _ L) as L'.
      - apply (no_extra l1 l2); auto; now apply S1.
      - apply (no_extra l2 l1); auto; [now apply no_collision_sym|now apply S1|symmetry; apply S2; now apply S1]. }
    split; [exact X|intros L; destruct (Ch (Up _ L)) as [_ Eq]].
    rewrite (proj2 (Z.ltb_lt _ _)), (proj2 (Z.ltb_lt _ _)) in Eq by tauto; exact Eq.
Qed.

Lemma same_leaves l1 l2 : same_level l1 l2 0 -> l1 = l2.
Proof.
  intros S; assert (E : length l1 = length l2).
  { unfold same_level, size in S; rewrite span_0 in S; destruct (Nat.lt_trichotomy (length l1) (length l2)) as [L|[|L]]; auto.
    - destruct (S (Z.of_nat (length l1)) ltac:(lia)) as [X _]; lia.
    - destruct (S (Z.of_nat (length l2)) ltac:(lia)) as [X _]; lia. }
  apply (@nth_ext bytes _ _ [] []); [exact E|]; intros i I.
  destruct (S (Z.of_nat i) ltac:(lia)) as [_ X]; rewrite span_0 in X; unfold size in X.
  specialize (X ltac:(lia)); cbn [node] in X; now rewrite Nat2Z.id in X.
Qed.

Lemma same_root l1 l2 k : no_collision Hash l1 l2 -> (k <= height l1)%nat -> (k <= height l2)%nat -> ~ twins Hash l1 (size l1) -> ~ twins Hash l2 (size l2) ->
  same_level l1 l2 k -> l1 = l2.
Proof.
  intros N; induction k as [|k IH]; intros K1 K2 T1 T2 S; [now apply same_leaves|].
  apply IH; auto; try lia; apply same_level_below; auto.
Qed.
End Binding.

Lemma span_height leaves : leaves <> [] -> size leaves <= span (height leaves).
Proof.
  intros N; unfold span, height; rewrite Z2Nat.id by apply Z.log2_up_nonneg.
  apply Z.log2_log2_up_spec; unfold size; destruct leaves; [congruence|cbn [length]; lia].
Qed.

Lemma roots_bind (Hash : bytes -> bytes) (l1 l2 : list bytes) (r : bytes) :
  l1 <> [] -> l2 <> [] -> size l1 <= 2 ^ 31 -> size l2 <= 2 ^ 31 -> height l1 = height l2 ->
  no_collision Hash l1 l2 ->
  ComputeMerkleRoot Hash l1 = Ok (r, false) -> ComputeMerkleRoot Hash l2 = Ok (r, false) -> l1 = l2.
Proof.
  intros N1 N2 L1 L2 H C R1 R2; unfold ComputeMerkleRoot in *.
  destruct (MerkleComputation_ok Hash l1 false 0 ltac:(discriminate) L1 (w32 (-1)) ltac:(discriminate) N1) as (m1 & b1 & E1 & T1 & _).
  destruct (MerkleComputation_ok Hash l2 false 0 ltac:(discriminate) L2 (w32 (-1)) ltac:(discriminate) N2) as (m2 & b2 & E2 & T2 & _).
  rewrite E1 in R1; rewrite E2 in R2; cbn [bind fst] in R1, R2; injection R1 as <- ->; injection R2 as E ->.
  apply (same_root Hash l1 l2 (height l1) C ltac:(lia) ltac:(lia));
    [intros T; apply T1 in T; discriminate|intros T; apply T2 in T; discriminate|].
  intros i I; pose proof (span_height l1 N1) as S1; pose proof (span_height l2 N2) as S2; rewrite <- H in S2.
  unfold root in E; rewrite <- H in E.
  assert (0 < size l1 /\ 0 < size l2) by (unfold size; destruct l1, l2; try congruence; cbn [length]; lia).
  destruct (Z.eq_dec i 0) as [->|]; [split; [lia|intros _; now symmetry]|].
  pose proof (span_pos (height l1)); split; nia.
Qed.

(** * Theorems *)

(** C12: for up to 2^31 leaves the one-pass computation stays inside its
    array of 32 hashes and returns the root of the Merkle tree, level by
    level with the last hash of an odd level paired with itself; its flag is
    set exactly when two complete sibling subtrees have the same hash. *)
Theorem ComputeMerkleRoot_correct (Hash : bytes -> bytes) (leaves : list bytes) :
  leaves <> [] -> size leaves <= 2 ^ 31 ->
  exists mutated, ComputeMerkleRoot Hash leaves = Ok (root Hash leaves, mutated) /\
    (mutated = true <-> twins Hash leaves (size leaves)).
Proof.
  intros N L; destruct (MerkleComputation_ok Hash leaves false 0 ltac:(discriminate) L (w32 (-1)) ltac:(discriminate) N)
    as (mu & br & E & T & _).
  exists mu; unfold ComputeMerkleRoot; rewrite E; auto.
Qed.

(** The branch computed for a leaf has one hash per level, and folding
    the leaf with it gives the root of the tree. *)
Theorem ComputeMerkleBranch_correct (Hash : bytes -> bytes) (leaves : list bytes) (position : Z) :
  0 <= position < size leaves -> size leaves <= 2 ^ 31 ->
  exists branch mutated, ComputeMerkleBranch Hash leaves position = Ok branch /\
    length branch = height leaves /\
    ComputeMerkleRoot Hash leaves =
      Ok (ComputeMerkleRootFromBranch Hash (nth (Z.to_nat position) leaves []) branch position, mutated).
Proof.
  intros P L; assert (N : leaves <> []) by (intros ->; cbn in P; lia).
  destruct (MerkleComputation_ok Hash leaves true position (fun _ => P) L position (fun _ => eq_refl) N) as (mu & br & E & _ & B).
  destruct (MerkleComputation_ok Hash leaves false 0 ltac:(discriminate) L (w32 (-1)) ltac:(discriminate) N) as (mu' & br' & E' & _).
  exists br, mu'; unfold ComputeMerkleBranch, ComputeMerkleRoot; rewrite E, E', (B eq_refl); cbn [bind fst snd].
  split; [reflexivity|]; split; [unfold siblings; now rewrite length_map, length_seq|]; do 2 f_equal.
  pose proof (branch_root Hash leaves position P (height leaves) 0) as R; rewrite span_0, Z.div_1_r in R; cbn [node Nat.add] in R.
  unfold siblings; rewrite R; unfold root; f_equal; symmetry; apply Z.div_small; pose proof (span_height leaves N); lia.
Qed.

(** C28: the defence against duplicated transactions.  When the flag is not
    set for two lists of leaves with trees of the same height, and no two of
    the strings hashed for the two trees collide, the same root means the
    same leaves. *)
Theorem MerkleRoot_binding (Hash : bytes -> bytes) (l1 l2 : list bytes) (r : bytes) :
  l1 <> [] -> l2 <> [] -> size l1 <= 2 ^ 31 -> size l2 <= 2 ^ 31 -> height l1 = height l2 ->
  no_collision Hash l1 l2 ->
  ComputeMerkleRoot Hash l1 = Ok (r, false) -> ComputeMerkleRoot Hash l2 = Ok (r, false) -> l1 = l2.
Proof. apply roots_bind. Qed.

(** A toy hash that keeps its input, and five leaves. *)
Definition keep_all (x : bytes) : bytes := 255 :: x ++ [254].
Definition example_leaves : list bytes := [[1]; [2]; [3]; [4]; [5]].

Lemma ComputeMerkleRoot_correct_witness :
  exists mutated, ComputeMerkleRoot keep_all example_leaves = Ok (root keep_all example_leaves, mutated).
Proof.
  destruct (ComputeMerkleRoot_correct keep_all example_leaves ltac:(discriminate) ltac:(vm_compute; discriminate)) as (m & E & _).
  exists m; exact E.
Defined.

Lemma ComputeMerkleBranch_correct_witness :
  exists branch, ComputeMerkleBranch keep_all example_leaves 4 = Ok branch /\ length branch = 3%nat.
Proof.
  destruct (ComputeMerkleBranch_correct keep_all example_leaves 4 ltac:(cbn; lia) ltac:(vm_compute; discriminate))
    as (b & m & E & L & _).
  exists b; split; [exact E|rewrite L; reflexivity].
Defined.

Lemma two_leaves_collision_free : no_collision keep_all [[1]; [2]] [[1]; [2]].
Proof.
  assert (U : forall x y, hashed keep_all [[1]; [2]] x y -> x = [1] /\ y = [2]).
  { intros x y (k & i & K & I & L & -> & ->); change (height [[1]; [2]]) with 1%nat in K; assert (k = 0%nat) by lia; subst k.
    change (size [[1]; [2]]) with 2 in *; change (span 1) with 2 in L; assert (i = 0) by lia; subst i; split; reflexivity. }
  intros x y x' y' [A|A] [B|B] _; apply U in A as [-> ->], B as [-> ->]; auto.
Qed.

Lemma MerkleRoot_binding_witness :
  ComputeMerkleRoot keep_all [[1]; [2]] = Ok ([255; 1; 2; 254], false) /\ [[1]; [2]] = [[1]; [2]] :> list bytes.
Proof.
  split; [reflexivity|].
  apply (MerkleRoot_binding keep_all [[1]; [2]] [[1]; [2]] [255; 1; 2; 254]); try discriminate; try reflexivity.
  exact two_leaves_collision_free.
Defined.
