(* ===== verification/Compressor.v ===== *)
(** Compressed outputs (src/compressor.h, src/compressor.cpp), the serialized
    form of coins (class [Coin] of src/coins.h) and of the undo data of
    transactions (src/undo.h).  The two operations on elliptic curve points
    are arguments. *)

From Stdlib Require Import ZArith List Bool Lia Arith.
From S2P Require Import Prelude Serialize Script Standard Transaction.
Import ListNotations.
Open Scope Z_scope.

(** * Amounts *)

(** [while (((n % 10) == 0) && e < 9)]; at most nine rounds. *)
Fixpoint strip_zeros (rounds : nat) (n e : Z) : Z * Z :=
  match rounds with
  | O => (n, e)
  | S rounds' =>
      if (n mod 10 =? 0) && (e <? 9) then strip_zeros rounds' (n / 10) (e + 1) else (n, e)
  end.

Definition CompressAmount (n : Z) : Z :=
  if n =? 0 then 0
  else
    let '(n, e) := strip_zeros 9 n 0 in
    if e <? 9 then
      let d := n mod 10 in
      w64 (1 + (n / 10 * 9 + d - 1) * 10 + e)
    else w64 (1 + (n - 1) * 10 + 9).

(** [while (e) { n *= 10; e--; }] *)
Fixpoint times10 (e : nat) (n : Z) : Z :=
  match e with
  | O => n
  | S e' => times10 e' (w64 (n * 10))
  end.

Definition DecompressAmount (x : Z) : Z :=
  if x =? 0 then 0
  else
    let x := x - 1 in
    let e := x mod 10 in
    let x := x / 10 in
    let n :=
      if e <? 9 then
        let d := x mod 9 + 1 in
        let x := x / 9 in
        w64 (x * 10 + d)
      else w64 (x + 1)
    in
    times10 (Z.to_nat e) n.

(** * Scripts *)

Definition nSpecialScripts : Z := 6.

Definition IsToKeyID (script : CScript) : option bytes :=
  if Nat.eqb (length script) 25 && (get script 0 =? OP_DUP) && (get script 1 =? OP_HASH160)
     && (get script 2 =? 20) && (get script 23 =? OP_EQUALVERIFY) && (get script 24 =? OP_CHECKSIG)
  then Some (firstn 20 (skipn 3 script))
  else None.

Definition IsToScriptID (script : CScript) : option bytes :=
  if Nat.eqb (length script) 23 && (get script 0 =? OP_HASH160) && (get script 1 =? 20)
     && (get script 22 =? OP_EQUAL)
  then Some (firstn 20 (skipn 2 script))
  else None.

Section Curve.
(** [CPubKey::IsFullyValid] and [CPubKey::Decompress] (None: it fails). *)
Variable IsFullyValid : bytes -> bool.
Variable DecompressKey : bytes -> option bytes.

Definition IsToPubKey (script : CScript) : option bytes :=
  if Nat.eqb (length script) 35 && (get script 0 =? 33) && (get script 34 =? OP_CHECKSIG)
     && ((get script 1 =? 0x02) || (get script 1 =? 0x03))
  then Some (CPubKey (firstn 33 (skipn 1 script)))
  else if Nat.eqb (length script) 67 && (get script 0 =? 65) && (get script 66 =? OP_CHECKSIG)
     && (get script 1 =? 0x04)
  then
    let pubkey := CPubKey (firstn 65 (skipn 1 script)) in
    if IsFullyValid pubkey then Some pubkey else None
  else None.

Definition Compress (script : CScript) : option bytes :=
  match IsToKeyID script with
  | Some keyID => Some (0x00 :: keyID)
  | None =>
      match IsToScriptID script with
      | Some scriptID => Some (0x01 :: scriptID)
      | None =>
          match IsToPubKey script with
          | Some pubkey =>
              let x := firstn 32 (skipn 1 pubkey) in
              if (get pubkey 0 =? 0x02) || (get pubkey 0 =? 0x03) then Some (get pubkey 0 :: x)
              else if get pubkey 0 =? 0x04 then Some (Z.lor 0x04 (Z.land (get pubkey 64) 0x01) :: x)
              else None
          | None => None
          end
      end
  end.

Definition GetSpecialSize (nSize : Z) : Z :=
  if (nSize =? 0) || (nSize =? 1) then 20
  else if (nSize =? 2) || (nSize =? 3) || (nSize =? 4) || (nSize =? 5) then 32
  else 0.

(** The script after [Decompress]: unchanged where it returns false. *)
Definition Decompress (script : CScript) (nSize : Z) (inp : bytes) : CScript :=
  if nSize =? 0 then
    [opcode_value OP_DUP; opcode_value OP_HASH160; 20] ++ firstn 20 inp
    ++ [opcode_value OP_EQUALVERIFY; opcode_value OP_CHECKSIG]
  else if nSize =? 1 then
    [opcode_value OP_HASH160; 20] ++ firstn 20 inp ++ [opcode_value OP_EQUAL]
  else if (nSize =? 2) || (nSize =? 3) then
    [33; nSize] ++ firstn 32 inp ++ [opcode_value OP_CHECKSIG]
  else if (nSize =? 4) || (nSize =? 5) then
    match DecompressKey (CPubKey ((nSize - 2) :: firstn 32 inp)) with
    | Some pubkey => [65] ++ firstn 65 pubkey ++ [opcode_value OP_CHECKSIG]
    | None => script
    end
  else script.

Definition write_script (script : CScript) : result ser_error bytes :=
  match Compress script with
  | Some compr => Ok compr
  | None =>
      let nSize := w32 (Z.of_nat (length script) + nSpecialScripts) in
      let! v := WriteVarInt 32 nSize in Ok (v ++ script)
  end.

(** [script] is the value of the object that is read into. *)
Definition read_script (script : CScript) : reader CScript := fun s =>
  let! r := ReadVarInt 32 s in
  let '(nSize, s) := r in
  if nSize <? nSpecialScripts then
    let! v := read_bytes (Z.to_nat (GetSpecialSize nSize)) s in
    Ok (Decompress script nSize (fst v), snd v)
  else
    let nSize := nSize - nSpecialScripts in
    if nSize >? MAX_SCRIPT_SIZE then
      let! v := read_bytes (Z.to_nat nSize) s in
      Ok (push_opcode script OP_RETURN, snd v)
    else read_bytes (Z.to_nat nSize) s.

(** * Outputs and coins *)

Definition write_compressed_txout (o : CTxOut) : result ser_error bytes :=
  let! v := WriteVarInt 64 (CompressAmount (w64 (nValue o))) in
  let! k := write_script (scriptPubKey o) in
  Ok (v ++ k).

Definition read_compressed_txout (o : CTxOut) : reader CTxOut := fun s =>
  let! v := ReadVarInt 64 s in
  let! k := read_script (scriptPubKey o) (snd v) in
  Ok (mkTxOut (s64 (DecompressAmount (fst v))) (fst k), snd k).

(** [fCoinBase] is a one-bit field and [nHeight] one of 31 bits. *)
Record Coin := mkCoin { coin_out : CTxOut; fCoinBase : bool; nHeight : Z }.

Definition coinEmpty : Coin := mkCoin txout_null false 0.
Definition coin_Clear (c : Coin) : Coin := coinEmpty.
Definition IsSpent (c : Coin) : bool := txout_IsNull (coin_out c).
Definition coin_IsAsset (c : Coin) : bool := is_some (IsAssetScript (scriptPubKey (coin_out c))).

(** [Coin(out, nHeightIn, fCoinBaseIn)] *)
Definition new_coin (out : CTxOut) (nHeightIn : Z) (fCoinBaseIn : bool) : Coin :=
  mkCoin out fCoinBaseIn (wrap 31 nHeightIn).

Definition coin_code (c : Coin) : Z := nHeight c * 2 + Z.b2z (fCoinBase c).

(** [None] where the assertion fails that the coin is not spent. *)
Definition write_coin (c : Coin) : option (result ser_error bytes) :=
  if IsSpent c then None
  else Some (
    let! v := WriteVarInt 32 (w32 (coin_code c)) in
    let! o := write_compressed_txout (coin_out c) in
    Ok (v ++ o)).

(** Reading into a new coin. *)
Definition read_coin : reader Coin := fun s =>
  let! v := ReadVarInt 32 s in
  let code := fst v in
  let! o := read_compressed_txout (coin_out coinEmpty) (snd v) in
  Ok (mkCoin (fst o) (Z.odd code) (Z.shiftr code 1), snd o).

(** * Undo data *)

Definition write_undo (c : Coin) : result ser_error bytes :=
  let! v := WriteVarInt 32 (coin_code c) in
  let! o := write_compressed_txout (coin_out c) in
  Ok (v ++ (if nHeight c >? 0 then ser_writedata8 0 else []) ++ o).

(** The dummy is a signed 32-bit number. *)
Definition read_undo : reader Coin := fun s =>
  let! v := ReadVarInt 32 s in
  let nCode := fst v in
  let! d := if nCode / 2 >? 0 then ReadVarInt 31 (snd v) else Ok (0, snd v) in
  let! o := read_compressed_txout (coin_out coinEmpty) (snd d) in
  Ok (mkCoin (fst o) (Z.odd nCode) (nCode / 2), snd o).

Fixpoint write_all (cs : list Coin) : result ser_error bytes :=
  match cs with
  | [] => Ok []
  | c :: cs' =>
      let! a := write_undo c in
      let! b := write_all cs' in
      Ok (a ++ b)
  end.

Definition MIN_TRANSACTION_INPUT_WEIGHT : Z :=
  4 * Z.of_nat (length (write_txin (mkTxIn outpoint_null [] SEQUENCE_FINAL []))).
Definition MAX_BLOCK_WEIGHT : Z := 4000000.
Definition MAX_BLOCK_WEIGHT_RIP2 : Z := 8000000.
Definition max_undo_records (fAssetsIsActive : bool) : Z :=
  (if fAssetsIsActive then MAX_BLOCK_WEIGHT_RIP2 else MAX_BLOCK_WEIGHT) / MIN_TRANSACTION_INPUT_WEIGHT.

Definition write_txundo (vprevout : list Coin) : result ser_error bytes :=
  let! b := write_all vprevout in
  Ok (WriteCompactSize (Z.of_nat (length vprevout)) ++ b).

Definition read_txundo (fAssetsIsActive : bool) : reader (list Coin) := fun s =>
  let! n := ReadCompactSize s in
  if fst n >? max_undo_records fAssetsIsActive then Err TooManyRecords
  else read_elements read_undo (Z.to_nat (fst n)) (snd n).
End Curve.

(** * Amounts: lemmas *)

Lemma strip_zeros_spec (rounds : nat) : forall n e n' e',
  0 < n -> 0 <= e <= 9 -> Z.of_nat rounds = 9 - e -> strip_zeros rounds n e = (n', e') ->
  0 < n' /\ e <= e' <= 9 /\ n = n' * 10 ^ (e' - e) /\ (e' < 9 -> n' mod 10 <> 0).
Proof.
  induction rounds as [| rounds IH]; intros n e n' e' Hn He Hr H; cbn [strip_zeros] in H.
  { injection H as <- <-; rewrite Z.sub_diag; split_all; lia. }
  destruct ((n mod 10 =? 0) && (e <? 9)) eqn:E.
  - apply andb_true_iff in E; destruct E as [E1 E2]; apply Z.eqb_eq in E1; apply Z.ltb_lt in E2.
    pose proof (Z.div_mod n 10 ltac:(lia)).
    apply IH in H; try lia; destruct H as (H1 & H2 & H3 & H4).
    split_all; auto; try lia.
    replace (e' - e) with (Z.succ (e' - (e + 1))) by lia; rewrite Z.pow_succ_r by lia; lia.
  - injection H as <- <-; rewrite Z.sub_diag; split_all; lia.
Qed.

Lemma times10_spec (e : nat) : forall n, 0 <= n -> n * 10 ^ Z.of_nat e < 2 ^ 64 ->
  times10 e n = n * 10 ^ Z.of_nat e.
Proof.
  induction e as [| e IH]; intros n Hn Hb; [cbn [times10]; lia |].
  rewrite Nat2Z.inj_succ, Z.pow_succ_r in * by lia; cbn [times10].
  pose proof (Z.pow_pos_nonneg 10 (Z.of_nat e) ltac:(lia) ltac:(lia)).
  unfold w64; rewrite wrap_id by (unfold in_u; nia); rewrite IH by nia; ring.
Qed.

(** The largest amount for which no step can wrap around. *)
Definition max_compressible : Z := (2 ^ 64 - 1) / 9.

Lemma small_exponent (n' e : Z) : 0 < n' -> 0 <= e <= 9 -> n' * 10 ^ e <= max_compressible ->
  9 * n' + e <= 2 ^ 64 - 1.
Proof.
  intros Hn He Hb; pose proof (Z.mul_div_le (2 ^ 64 - 1) 9 ltac:(lia)); fold max_compressible in *.
  pose proof (Z.pow_gt_lin_r 10 e ltac:(lia) ltac:(lia)); nia.
Qed.

Lemma Decompress_Compress (n : Z) : 0 <= n <= max_compressible ->
  in_u 64 (CompressAmount n) /\ DecompressAmount (CompressAmount n) = n.
Proof.
  intros Hn; unfold CompressAmount; destruct (Z.eqb_spec n 0) as [-> | Hz].
  { split; [unfold in_u; lia | reflexivity]. }
  destruct (strip_zeros 9 n 0) as [n' e] eqn:E; apply strip_zeros_spec in E; try lia.
  destruct E as (H1 & H2 & H3 & H4); rewrite Z.sub_0_r in H3.
  pose proof (small_exponent n' e H1 ltac:(lia) ltac:(lia)) as Hs.
  assert (Hm : max_compressible < 2 ^ 64) by reflexivity.
  pose proof (Z.div_mod n' 10 ltac:(lia)) as D; pose proof (Z.mod_pos_bound n' 10 ltac:(lia)) as M.
  set (q := n' / 10) in *; set (d := n' mod 10) in *.
  destruct (Z.ltb_spec e 9) as [Hlt | Hge].
  - specialize (H4 Hlt); unfold w64; rewrite wrap_id by (unfold in_u; lia).
    split; [unfold in_u; lia |]; unfold DecompressAmount.
    destruct (Z.eqb_spec (1 + (q * 9 + d - 1) * 10 + e) 0); [lia |].
    replace (1 + (q * 9 + d - 1) * 10 + e - 1) with (e + (q * 9 + d - 1) * 10) by lia.
    rewrite Z_mod_plus_full, Z.div_add, (Z.mod_small e 10), (Z.div_small e 10) by lia.
    rewrite (proj2 (Z.ltb_lt e 9)) by lia.
    replace (0 + (q * 9 + d - 1)) with (d - 1 + q * 9) by lia.
    rewrite Z_mod_plus_full, Z.div_add, (Z.mod_small (d - 1) 9), (Z.div_small (d - 1) 9) by lia.
    unfold w64; rewrite wrap_id by (unfold in_u; lia).
    replace ((0 + q) * 10 + (d - 1 + 1)) with n' by lia.
    rewrite times10_spec; rewrite ?Z2Nat.id; lia.
  - assert (e = 9) as -> by lia; unfold w64; rewrite wrap_id by (unfold in_u; lia).
    split; [unfold in_u; lia |]; unfold DecompressAmount.
    destruct (Z.eqb_spec (1 + (n' - 1) * 10 + 9) 0); [lia |].
    replace (1 + (n' - 1) * 10 + 9 - 1) with (9 + (n' - 1) * 10) by lia.
    rewrite Z_mod_plus_full, Z.div_add by lia; change (9 mod 10) with 9; change (9 / 10) with 0.
    change (9 <? 9) with false; cbv iota; unfold w64; rewrite wrap_id by (unfold in_u; lia).
    replace (0 + (n' - 1) + 1) with n' by lia.
    rewrite times10_spec; rewrite ?Z2Nat.id; lia.
Qed.

Lemma strip_zeros_exact (k : nat) : forall rounds n e, 0 < n -> 0 <= e ->
  Z.of_nat rounds = 9 - e -> e + Z.of_nat k <= 9 -> (e + Z.of_nat k < 9 -> n mod 10 <> 0) ->
  strip_zeros rounds (n * 10 ^ Z.of_nat k) e = (n, e + Z.of_nat k).
Proof.
  induction k as [| k IH]; intros rounds n e Hn He Hr Hk Hm.
  - change (10 ^ Z.of_nat 0) with 1; change (Z.of_nat 0) with 0 in *.
    rewrite Z.mul_1_r, Z.add_0_r; destruct rounds as [| r]; cbn [strip_zeros]; [reflexivity |].
    rewrite (proj2 (Z.eqb_neq (n mod 10) 0)) by lia; reflexivity.
  - rewrite Nat2Z.inj_succ, Z.pow_succ_r in * by lia.
    destruct rounds as [| r]; [lia |]; cbn [strip_zeros].
    replace (n * (10 * 10 ^ Z.of_nat k)) with (n * 10 ^ Z.of_nat k * 10) by ring.
    rewrite Z_mod_mult, Z.div_mul, (proj2 (Z.ltb_lt e 9)) by lia; cbn [Z.eqb andb].
    rewrite IH by lia; f_equal; lia.
Qed.

Lemma CompressAmount_exact (n e : Z) : 0 < n -> 0 <= e <= 9 -> (e < 9 -> n mod 10 <> 0) ->
  CompressAmount (n * 10 ^ e) =
  if e <? 9 then w64 (1 + (n / 10 * 9 + n mod 10 - 1) * 10 + e) else w64 (1 + (n - 1) * 10 + 9).
Proof.
  intros Hn He Hm; unfold CompressAmount.
  pose proof (Z.pow_pos_nonneg 10 e ltac:(lia) ltac:(lia)).
  destruct (Z.eqb_spec (n * 10 ^ e) 0); [nia |].
  rewrite <- (Z2Nat.id e) by lia; rewrite strip_zeros_exact; rewrite ?Z2Nat.id; try lia.
  reflexivity.
Qed.

Lemma Compress_Decompress (x : Z) : 0 <= x <= 10 ^ 11 -> CompressAmount (DecompressAmount x) = x.
Proof.
  intros Hx; unfold DecompressAmount; destruct (Z.eqb_spec x 0) as [-> | Hz]; [reflexivity |].
  pose proof (Z.div_mod (x - 1) 10 ltac:(lia)) as D1; pose proof (Z.mod_pos_bound (x - 1) 10 ltac:(lia)) as M1.
  set (q := (x - 1) / 10) in *; set (e := (x - 1) mod 10) in *.
  pose proof (Z.div_mod q 9 ltac:(lia)) as D2; pose proof (Z.mod_pos_bound q 9 ltac:(lia)) as M2.
  set (p := q / 9) in *; set (d := q mod 9) in *.
  assert (Hp : 10 ^ e <= 10 ^ 9) by (apply Z.pow_le_mono_r; lia).
  assert (Hp' : 0 < 10 ^ e) by (apply Z.pow_pos_nonneg; lia).
  destruct (Z.ltb_spec e 9) as [Hlt | Hge].
  - assert (Hp8 : 10 ^ e <= 10 ^ 8) by (apply Z.pow_le_mono_r; lia).
    unfold w64 at 1; rewrite wrap_id by (unfold in_u; lia).
    rewrite times10_spec; rewrite ?Z2Nat.id; try lia; [| nia].
    assert (Hd : (p * 10 + (d + 1)) mod 10 = d + 1).
    { rewrite Z.add_comm, Z_mod_plus_full; apply Z.mod_small; lia. }
    assert (Hq : (p * 10 + (d + 1)) / 10 = p).
    { rewrite Z.add_comm, Z.div_add, Z.div_small by lia; reflexivity. }
    rewrite CompressAmount_exact by lia; rewrite (proj2 (Z.ltb_lt e 9)) by lia.
    rewrite Hd, Hq; unfold w64; rewrite wrap_id by (unfold in_u; lia); lia.
  - assert (e = 9) as E by lia; clearbody e; subst e.
    unfold w64 at 1; rewrite wrap_id by (unfold in_u; lia).
    rewrite times10_spec; rewrite ?Z2Nat.id; try lia.
    rewrite CompressAmount_exact by lia; change (9 <? 9) with false; cbv iota.
    unfold w64; rewrite wrap_id by (unfold in_u; lia); lia.
Qed.

(** * Scripts: lemmas *)

Lemma cut_at (n : nat) (l : bytes) : l = firstn n l ++ skipn n l.
Proof. symmetry; apply firstn_skipn. Qed.

Lemma get_skipn (l : bytes) (n i : nat) : get (skipn n l) i = get l (n + i).
Proof. apply nth_skipn. Qed.

Lemma list_1 (l : bytes) : length l = 1%nat -> l = [get l 0].
Proof. destruct l as [| a [| b l]]; cbn; intros H; congruence. Qed.

Lemma list_2 (l : bytes) : length l = 2%nat -> l = [get l 0; get l 1].
Proof. destruct l as [| a [| b [| c l]]]; cbn; intros H; congruence. Qed.

Lemma list_3 (l : bytes) : length l = 3%nat -> l = [get l 0; get l 1; get l 2].
Proof. destruct l as [| a [| b [| c [| d l]]]]; cbn; intros H; congruence. Qed.

Lemma get_firstn (l : bytes) (n i : nat) : (i < n)%nat -> get (firstn n l) i = get l i.
Proof. intros H; unfold get; rewrite nth_firstn; destruct (Nat.ltb_spec i n); [reflexivity | lia]. Qed.

(** A script with [a] bytes in front of and [b] bytes after [n] bytes of data. *)
Lemma sandwich (script : bytes) (a n b : nat) : length script = (a + n + b)%nat ->
  script = firstn a script ++ firstn n (skipn a script) ++ skipn (a + n) script /\
  length (firstn a script) = a /\ length (firstn n (skipn a script)) = n /\
  length (skipn (a + n) script) = b.
Proof.
  intros H; repeat rewrite ?length_firstn, ?length_skipn; split_all; try lia.
  rewrite (cut_at a script) at 1; f_equal; rewrite (cut_at n (skipn a script)) at 1; f_equal.
  rewrite skipn_skipn; f_equal; lia.
Qed.

Ltac eqbs H :=
  repeat match type of H with _ && _ = true => apply andb_true_iff in H; let H' := fresh "H" in destruct H as [H H'] end;
  repeat match goal with
  | K : (_ =? _)%Z = true |- _ => apply Z.eqb_eq in K
  | K : Nat.eqb _ _ = true |- _ => apply Nat.eqb_eq in K
  end.

Lemma IsToKeyID_spec (script h : bytes) : IsToKeyID script = Some h ->
  length h = 20%nat /\
  script = [opcode_value OP_DUP; opcode_value OP_HASH160; 20] ++ h
           ++ [opcode_value OP_EQUALVERIFY; opcode_value OP_CHECKSIG].
Proof.
  unfold IsToKeyID; destruct (Nat.eqb (length script) 25 && _ && _ && _ && _ && _) eqn:E; [| discriminate].
  intros Hh; assert (h = firstn 20 (skipn 3 script)) as -> by congruence.
  eqbs E; destruct (sandwich script 3 20 2 E) as (Hs & L1 & L2 & L3); split; [exact L2 |].
  rewrite Hs at 1; rewrite (list_3 _ L1), (list_2 _ L3), !get_firstn, !get_skipn by lia.
  cbn [Nat.add] in *; congruence.
Qed.

Lemma IsToScriptID_spec (script h : bytes) : IsToScriptID script = Some h ->
  length h = 20%nat /\
  script = [opcode_value OP_HASH160; 20] ++ h ++ [opcode_value OP_EQUAL].
Proof.
  unfold IsToScriptID; destruct (Nat.eqb (length script) 23 && _ && _ && _) eqn:E; [| discriminate].
  intros Hh; assert (h = firstn 20 (skipn 2 script)) as -> by congruence.
  eqbs E; destruct (sandwich script 2 20 1 E) as (Hs & L1 & L2 & L3); split; [exact L2 |].
  rewrite Hs at 1; rewrite (list_2 _ L1), (list_1 _ L3), !get_firstn, !get_skipn by lia.
  cbn [Nat.add] in *; congruence.
Qed.

Section Curve_lemmas.
Variable IsFullyValid : bytes -> bool.
Variable DecompressKey : bytes -> option bytes.

(** A point of the curve is determined by its first coordinate and the parity
    of the second: a valid uncompressed key is recovered from its compressed
    form. *)
Hypothesis decompress_inverse : forall k, is_blob 65 k -> get k 0 = 4 -> IsFullyValid k = true ->
  DecompressKey ((2 + Z.land (get k 64) 1) :: firstn 32 (skipn 1 k)) = Some k.

Lemma CPubKey_ok (k : bytes) (n : nat) : length k = n -> (0 < n)%nat ->
  GetLen (get k 0) = Z.of_nat n -> CPubKey k = k.
Proof.
  destruct k as [| h k]; cbn [length get nth]; intros <- Hn Hl; [lia |].
  unfold CPubKey; cbn [get nth] in Hl; rewrite Hl, Z.eqb_refl.
  destruct (Z.eqb_spec (Z.of_nat (S (length k))) 0); [lia | reflexivity].
Qed.

Lemma IsToPubKey_spec (script k : bytes) : IsToPubKey IsFullyValid script = Some k ->
  (length k = 33%nat /\ (get k 0 = 2 \/ get k 0 = 3) /\
   script = [33] ++ k ++ [opcode_value OP_CHECKSIG]) \/
  (length k = 65%nat /\ get k 0 = 4 /\ IsFullyValid k = true /\
   script = [65] ++ k ++ [opcode_value OP_CHECKSIG]).
Proof.
  unfold IsToPubKey; destruct (Nat.eqb (length script) 35 && _ && _ && _) eqn:E; intros Hk; [left | right].
  - eqbs E; apply orb_true_iff in H; destruct (sandwich script 1 33 1 E) as (Hs & L1 & L2 & L3).
    assert (Hg : get (firstn 33 (skipn 1 script)) 0 = 2 \/ get (firstn 33 (skipn 1 script)) 0 = 3).
    { rewrite get_firstn, get_skipn by lia; destruct H as [H | H]; apply Z.eqb_eq in H; auto. }
    rewrite (CPubKey_ok _ 33) in Hk by (try lia; destruct Hg as [-> | ->]; reflexivity).
    assert (k = firstn 33 (skipn 1 script)) as -> by congruence; split_all; auto.
    rewrite Hs at 1; rewrite (list_1 _ L1), (list_1 _ L3), get_firstn, get_skipn by lia.
    cbn [Nat.add] in *; congruence.
  - destruct (Nat.eqb (length script) 67 && _ && _ && _) eqn:E'; [clear E | discriminate].
    eqbs E'; destruct (sandwich script 1 65 1 E') as (Hs & L1 & L2 & L3).
    assert (Hg : get (firstn 65 (skipn 1 script)) 0 = 4).
    { rewrite get_firstn, get_skipn by lia; exact H. }
    rewrite (CPubKey_ok _ 65) in Hk by (try lia; rewrite Hg; reflexivity).
    destruct (IsFullyValid (firstn 65 (skipn 1 script))) eqn:Hv; [| discriminate].
    assert (k = firstn 65 (skipn 1 script)) as -> by congruence; split_all; auto.
    rewrite Hs at 1; rewrite (list_1 _ L1), (list_1 _ L3), get_firstn, get_skipn by lia.
    cbn [Nat.add] in *; congruence.
Qed.

Lemma cons_firstn (k : bytes) (n : nat) : length k = S n -> get k 0 :: firstn n (skipn 1 k) = k.
Proof.
  destruct k as [| h k]; cbn [length]; intros H; [lia |].
  cbn [get nth skipn]; rewrite firstn_all2 by lia; reflexivity.
Qed.

Lemma parity_flag (b : Z) : Z.lor 4 (Z.land b 1) = 4 + Z.land b 1 /\ 0 <= Z.land b 1 <= 1.
Proof.
  assert (Hb : Z.land b 1 = b mod 2) by exact (Z.land_ones b 1 ltac:(lia)).
  pose proof (Z.mod_pos_bound b 2 ltac:(lia)); rewrite Hb.
  assert (C : b mod 2 = 0 \/ b mod 2 = 1) by lia; destruct C as [-> | ->]; split; try reflexivity; lia.
Qed.

Lemma Decompress_key (t : Z) (x k script0 : bytes) : t = 4 \/ t = 5 -> length x = 32%nat ->
  DecompressKey ((t - 2) :: x) = Some k -> length k = 65%nat ->
  Decompress DecompressKey script0 t x = [65] ++ k ++ [opcode_value OP_CHECKSIG].
Proof.
  intros Ht Lx Hd Lk; unfold Decompress; rewrite (firstn_all2 (n:=32) x) by lia.
  rewrite (CPubKey_ok (t - 2 :: x) 33); [| exact (f_equal S Lx) | lia | destruct Ht as [-> | ->]; reflexivity].
  rewrite Hd, (firstn_all2 (n:=65) k) by lia; destruct Ht as [-> | ->]; reflexivity.
Qed.

(** A compressed script is a type byte below [nSpecialScripts] and the data
    from which [Decompress] restores the script. *)
Lemma Compress_spec (script out : bytes) : is_bytes script ->
  Compress IsFullyValid script = Some out ->
  exists t data, out = t :: data /\ 0 <= t <= 5 /\ length data = Z.to_nat (GetSpecialSize t) /\
    forall script0, Decompress DecompressKey script0 t data = script.
Proof.
  intros Hb; unfold Compress.
  destruct (IsToKeyID script) as [h |] eqn:E1.
  { intros [= <-]; apply IsToKeyID_spec in E1; destruct E1 as [L ->]; exists 0, h.
    split_all; auto; try lia; intros s0; unfold Decompress; cbn [Z.eqb].
    rewrite firstn_all2 by lia; reflexivity. }
  destruct (IsToScriptID script) as [h |] eqn:E2.
  { intros [= <-]; apply IsToScriptID_spec in E2; destruct E2 as [L ->]; exists 1, h.
    split_all; auto; try lia; intros s0; unfold Decompress; cbn [Z.eqb Pos.eqb].
    rewrite firstn_all2 by lia; reflexivity. }
  destruct (IsToPubKey IsFullyValid script) as [k |] eqn:E3; [| discriminate].
  apply IsToPubKey_spec in E3.
  assert (Lx : (33 <= length k)%nat -> length (firstn 32 (skipn 1 k)) = 32%nat)
    by (intros; rewrite length_firstn, length_skipn; lia).
  destruct E3 as [(L & Hg & ->) | (L & Hg & Hv & ->)]; intros H.
  - rewrite <- (cons_firstn k 32 L); exists (get k 0), (firstn 32 (skipn 1 k)).
    destruct Hg as [Hg | Hg]; rewrite Hg in *; cbn [Z.eqb Pos.eqb orb] in H; split_all; try lia;
      try (apply Lx; lia); try congruence;
      intros s0; unfold Decompress; cbn [Z.eqb Pos.eqb orb]; rewrite firstn_firstn; reflexivity.
  - rewrite Hg in H; cbn [Z.eqb Pos.eqb orb] in H; destruct (parity_flag (get k 64)) as [Hp Hr].
    rewrite Hp in H; exists (4 + Z.land (get k 64) 1), (firstn 32 (skipn 1 k)).
    pose proof (decompress_inverse k) as Hd; rewrite Hg in Hd.
    assert (Hk : is_blob 65 k).
    { split; [exact L |]; inversion Hb; subst; apply Forall_app in H3; tauto. }
    specialize (Hd Hk eq_refl Hv).
    split_all; try (apply Lx; lia); try lia; [congruence | |].
    + rewrite Lx by lia; assert (C : Z.land (get k 64) 1 = 0 \/ Z.land (get k 64) 1 = 1) by lia.
      destruct C as [-> | ->]; reflexivity.
    + intros s0; apply Decompress_key; [lia | apply Lx; lia | | exact L].
      replace (4 + Z.land (get k 64) 1 - 2) with (2 + Z.land (get k 64) 1) by lia; exact Hd.
Qed.

Lemma ReadVarInt_small (w t : Z) (s : bytes) : 7 <= w -> 0 <= t <= 5 ->
  ReadVarInt w (t :: s) = Ok (t, s).
Proof.
  intros Hw Ht; unfold ReadVarInt; cbn [read_varint_loop].
  rewrite Z.gtb_ltb, (proj2 (Z.ltb_ge _ 0)) by
    (apply Z.shiftr_nonneg; unfold varint_max; pose proof (Z.pow_le_mono_r 2 7 w); lia).
  assert (C : t = 0 \/ t = 1 \/ t = 2 \/ t = 3 \/ t = 4 \/ t = 5) by lia.
  destruct C as [-> | [-> | [-> | [-> | [-> | ->]]]]]; reflexivity.
Qed.

(** A script that has no special form is longer or shorter than each of them. *)
Lemma Compress_long (script : bytes) : Z.of_nat (length script) > MAX_SCRIPT_SIZE ->
  Compress IsFullyValid script = None.
Proof.
  intros Hl; unfold MAX_SCRIPT_SIZE in Hl; unfold Compress, IsToKeyID, IsToScriptID, IsToPubKey.
  rewrite !(proj2 (Nat.eqb_neq (length script) _)) by lia; reflexivity.
Qed.

Lemma write_script_plain (script : bytes) : Compress IsFullyValid script = None ->
  Z.of_nat (length script) + nSpecialScripts < 2 ^ 32 ->
  exists v, write_script IsFullyValid script = Ok (v ++ script) /\
    forall rest, ReadVarInt 32 (v ++ rest) = Ok (Z.of_nat (length script) + nSpecialScripts, rest).
Proof.
  intros Hc Hl; unfold write_script; rewrite Hc; unfold nSpecialScripts in *.
  unfold w32; rewrite wrap_id by (unfold in_u; lia).
  destruct (WriteVarInt_reads 32 ltac:(lia) (Z.of_nat (length script) + 6) ltac:(lia)) as (v & -> & Hr).
  exists v; split; [reflexivity | exact Hr].
Qed.

Lemma script_reads (script : bytes) : is_bytes script -> Z.of_nat (length script) <= MAX_SCRIPT_SIZE ->
  exists out, write_script IsFullyValid script = Ok out /\
    forall script0 rest, read_script DecompressKey script0 (out ++ rest) = Ok (script, rest).
Proof.
  intros Hb Hl; unfold MAX_SCRIPT_SIZE in Hl.
  destruct (Compress IsFullyValid script) as [out |] eqn:E.
  - exists out; unfold write_script; rewrite E; split; [reflexivity |]; intros s0 rest.
    apply Compress_spec in E; [| exact Hb]; destruct E as (t & data & -> & Ht & Hd & Hs).
    unfold read_script; cbn [app]; rewrite ReadVarInt_small by lia; cbn [bind].
    rewrite (proj2 (Z.ltb_lt t nSpecialScripts)) by (unfold nSpecialScripts; lia).
    rewrite read_bytes_app by exact Hd; cbn [bind fst snd]; rewrite Hs; reflexivity.
  - destruct (write_script_plain script E) as (v & W & R); [unfold nSpecialScripts; lia |].
    exists (v ++ script); split; [exact W |]; intros s0 rest.
    unfold read_script; rewrite <- app_assoc, R; cbn [bind]; unfold nSpecialScripts.
    rewrite (proj2 (Z.ltb_ge _ 6)), Z.add_simpl_r by lia.
    rewrite Z.gtb_ltb, (proj2 (Z.ltb_ge _ _)) by (unfold MAX_SCRIPT_SIZE; lia).
    rewrite Nat2Z.id; apply read_bytes_app; reflexivity.
Qed.

Lemma long_script_reads (script : bytes) :
  MAX_SCRIPT_SIZE < Z.of_nat (length script) < 2 ^ 32 - nSpecialScripts ->
  exists out, write_script IsFullyValid script = Ok out /\
    forall script0 rest,
      read_script DecompressKey script0 (out ++ rest) = Ok (push_opcode script0 OP_RETURN, rest).
Proof.
  intros Hl; destruct (write_script_plain script) as (v & W & R); [apply Compress_long; lia | lia |].
  exists (v ++ script); split; [exact W |]; intros s0 rest.
  unfold read_script; rewrite <- app_assoc, R; cbn [bind].
  unfold nSpecialScripts, MAX_SCRIPT_SIZE in *; rewrite (proj2 (Z.ltb_ge _ 6)), Z.add_simpl_r by lia.
  rewrite Z.gtb_ltb, (proj2 (Z.ltb_lt _ _)) by lia.
  rewrite Nat2Z.id, read_bytes_app by reflexivity; reflexivity.
Qed.

(** * Outputs, coins and undo data: lemmas *)

(** The outputs that survive compression. *)
Definition storable (o : CTxOut) : Prop :=
  0 <= nValue o <= max_compressible /\ is_bytes (scriptPubKey o) /\
  Z.of_nat (length (scriptPubKey o)) <= MAX_SCRIPT_SIZE.

Definition storable_coin (c : Coin) : Prop := storable (coin_out c) /\ 0 <= nHeight c < 2 ^ 30.

Lemma txout_reads (o : CTxOut) : storable o ->
  exists out, write_compressed_txout IsFullyValid o = Ok out /\
    forall o0 rest, read_compressed_txout DecompressKey o0 (out ++ rest) = Ok (o, rest).
Proof.
  intros (Hn & Hb & Hl); unfold write_compressed_txout.
  assert (Hm : max_compressible < 2 ^ 63) by reflexivity.
  unfold w64; rewrite wrap_id by (unfold in_u; lia).
  destruct (Decompress_Compress (nValue o) Hn) as [Hu Hd].
  destruct (WriteVarInt_reads 64 ltac:(lia) (CompressAmount (nValue o)) Hu) as (v & -> & Rv).
  destruct (script_reads (scriptPubKey o) Hb Hl) as (k & Wk & Rk); cbn [bind]; rewrite Wk; cbn [bind].
  exists (v ++ k); split; [reflexivity |]; intros o0 rest; unfold read_compressed_txout.
  rewrite <- app_assoc, Rv; cbn [bind fst snd]; rewrite Rk; cbn [bind fst snd].
  unfold s64; rewrite Hd, swrap_id by (try lia; unfold in_s; change (2 ^ (64 - 1)) with (2 ^ 63); lia).
  destruct o; reflexivity.
Qed.

Lemma coin_code_parts (c : Coin) :
  Z.odd (coin_code c) = fCoinBase c /\ coin_code c / 2 = nHeight c /\
  Z.shiftr (coin_code c) 1 = nHeight c.
Proof.
  unfold coin_code; rewrite Z.shiftr_div_pow2 by lia; change (2 ^ 1) with 2.
  assert (Hd : (nHeight c * 2 + Z.b2z (fCoinBase c)) / 2 = nHeight c).
  { rewrite Z.add_comm, Z.div_add by lia; destruct (fCoinBase c); reflexivity. }
  split_all; auto; rewrite Z.odd_add, Z.odd_mul, andb_false_r, xorb_false_l; destruct (fCoinBase c); reflexivity.
Qed.

Lemma coin_code_range (c : Coin) : 0 <= nHeight c < 2 ^ 30 -> 0 <= coin_code c < 2 ^ 32.
Proof. intros H; unfold coin_code; destruct (fCoinBase c); cbn [Z.b2z]; lia. Qed.

Lemma coin_reads (c : Coin) : storable_coin c ->
  exists out, write_coin IsFullyValid c = Some (Ok out) /\
    forall rest, read_coin DecompressKey (out ++ rest) = Ok (c, rest).
Proof.
  intros [Ho Hh]; unfold write_coin, IsSpent, txout_IsNull.
  destruct (Z.eqb_spec (nValue (coin_out c)) (-1)); [destruct Ho; lia |].
  pose proof (coin_code_range c Hh) as Hc; unfold w32; rewrite wrap_id by exact Hc.
  destruct (WriteVarInt_reads 32 ltac:(lia) (coin_code c) Hc) as (v & -> & Rv).
  destruct (txout_reads (coin_out c) Ho) as (o & -> & Ro); cbn [bind].
  exists (v ++ o); split; [reflexivity |]; intros rest; unfold read_coin.
  rewrite <- app_assoc, Rv; cbn [bind fst snd]; rewrite Ro; cbn [bind fst snd].
  destruct (coin_code_parts c) as (-> & _ & ->); destruct c; reflexivity.
Qed.

Lemma undo_reads (c : Coin) : storable_coin c ->
  exists out, write_undo IsFullyValid c = Ok out /\
    forall rest, read_undo DecompressKey (out ++ rest) = Ok (c, rest).
Proof.
  intros [Ho Hh]; unfold write_undo; pose proof (coin_code_range c Hh) as Hc.
  destruct (WriteVarInt_reads 32 ltac:(lia) (coin_code c) Hc) as (v & -> & Rv).
  destruct (txout_reads (coin_out c) Ho) as (o & -> & Ro); cbn [bind].
  eexists; split; [reflexivity |]; intros rest; unfold read_undo.
  rewrite <- !app_assoc, Rv; cbn [bind fst snd]; destruct (coin_code_parts c) as (-> & -> & _).
  destruct (nHeight c >? 0).
  1: change (ReadVarInt 31 (ser_writedata8 0 ++ ?s)) with (@Ok ser_error _ (0, s)).
  all: cbn [bind fst snd app]; rewrite Ro; cbn [bind fst snd]; destruct c; reflexivity.
Qed.

Lemma write_all_reads (cs : list Coin) : Forall storable_coin cs ->
  exists out, write_all IsFullyValid cs = Ok out /\
    forall rest, read_elements (read_undo DecompressKey) (length cs) (out ++ rest) = Ok (cs, rest).
Proof.
  induction 1 as [| c cs Hc _ (b & Wb & Rb)]; [exists []; split; reflexivity |].
  destruct (undo_reads c Hc) as (a & Wa & Ra); exists (a ++ b); cbn [write_all length read_elements].
  rewrite Wa, Wb; cbn [bind]; split; [reflexivity |]; intros rest.
  rewrite <- app_assoc, Ra; cbn [bind fst snd]; rewrite Rb; reflexivity.
Qed.

Lemma txundo_reads (active : bool) (cs : list Coin) : Forall storable_coin cs ->
  Z.of_nat (length cs) <= max_undo_records active ->
  exists out, write_txundo IsFullyValid cs = Ok out /\
    forall rest, read_txundo DecompressKey active (out ++ rest) = Ok (cs, rest).
Proof.
  intros Hc Hl; destruct (write_all_reads cs Hc) as (b & W & R); unfold write_txundo; rewrite W.
  eexists; split; [reflexivity |]; intros rest; unfold read_txundo; rewrite <- app_assoc.
  assert (Hm : max_undo_records active <= MAX_SIZE) by (destruct active; discriminate).
  rewrite ReadCompactSize_reads by lia; cbn [bind fst snd].
  rewrite Z.gtb_ltb, (proj2 (Z.ltb_ge _ _)), Nat2Z.id by lia; apply R.
Qed.
End Curve_lemmas.

(** * Correctness *)

(** Amount compression: amounts up to (2^64-1)/9 are restored exactly from
    their compressed form, and codes up to 10^11 are restored from the
    amounts they stand for; the largest of the valid amounts are beyond the
    bound, and one of them is restored as another amount. *)
Theorem Amount_compression (n x : Z) :
  (0 <= n <= max_compressible ->
   in_u 64 (CompressAmount n) /\ DecompressAmount (CompressAmount n) = n) /\
  (0 <= x <= 10 ^ 11 -> CompressAmount (DecompressAmount x) = x) /\
  MoneyRange (MAX_MONEY - 1) = true /\
  DecompressAmount (CompressAmount (MAX_MONEY - 1)) <> MAX_MONEY - 1.
Proof.
  split_all; [apply Decompress_Compress | apply Compress_Decompress | reflexivity | vm_compute; discriminate].
Qed.

Lemma Amount_compression_witness :
  DecompressAmount (CompressAmount 123400) = 123400 /\ CompressAmount (DecompressAmount 77) = 77 /\
  500000000 * COIN < max_compressible.
Proof.
  split_all; [| | reflexivity].
  - apply (Amount_compression 123400 0); split; [lia | discriminate].
  - apply (Amount_compression 0 77); split; [lia | discriminate].
Defined.

(** Coins in the database and in the undo files: an unspent coin whose
    output is within the limits is read back as written, and so is the undo
    data of a transaction with a number of inputs that fits in a block; a
    script over the size limit is read back as one that cannot be spent.
    The keys of pay-to-public-key outputs are recovered from their compressed
    form. *)
Theorem Coin_codec (IsFullyValid : bytes -> bool) (DecompressKey : bytes -> option bytes)
    (c : Coin) (cs : list Coin) (active : bool) (script rest : bytes) :
  (forall k, is_blob 65 k -> get k 0 = 4 -> IsFullyValid k = true ->
   DecompressKey ((2 + Z.land (get k 64) 1) :: firstn 32 (skipn 1 k)) = Some k) ->
  (storable_coin c ->
   exists out, write_coin IsFullyValid c = Some (Ok out) /\
     read_coin DecompressKey (out ++ rest) = Ok (c, rest)) /\
  (Forall storable_coin cs -> Z.of_nat (length cs) <= max_undo_records active ->
   exists out, write_txundo IsFullyValid cs = Ok out /\
     read_txundo DecompressKey active (out ++ rest) = Ok (cs, rest)) /\
  (MAX_SCRIPT_SIZE < Z.of_nat (length script) < 2 ^ 32 - nSpecialScripts ->
   exists out, write_script IsFullyValid script = Ok out /\
     read_script DecompressKey [] (out ++ rest) = Ok ([opcode_value OP_RETURN], rest)).
Proof.
  intros Hk; split_all.
  - intros Hc; destruct (coin_reads IsFullyValid DecompressKey Hk c Hc) as (out & W & R); eauto.
  - intros Hc Hl; destruct (txundo_reads IsFullyValid DecompressKey Hk active cs Hc Hl) as (out & W & R); eauto.
  - intros Hl; destruct (long_script_reads IsFullyValid DecompressKey script Hl) as (out & W & R).
    exists out; rewrite R; auto.
Qed.

(** The generator of the curve, the only valid key of the example. *)
Definition example_x : bytes :=
  [0x79; 0xBE; 0x66; 0x7E; 0xF9; 0xDC; 0xBB; 0xAC; 0x55; 0xA0; 0x62; 0x95; 0xCE; 0x87; 0x0B; 0x07;
   0x02; 0x9B; 0xFC; 0xDB; 0x2D; 0xCE; 0x28; 0xD9; 0x59; 0xF2; 0x81; 0x5B; 0x16; 0xF8; 0x17; 0x98].
Definition example_y : bytes :=
  [0x48; 0x3A; 0xDA; 0x77; 0x26; 0xA3; 0xC4; 0x65; 0x5D; 0xA4; 0xFB; 0xFC; 0x0E; 0x11; 0x08; 0xA8;
   0xFD; 0x17; 0xB4; 0x48; 0xA6; 0x85; 0x54; 0x19; 0x9C; 0x47; 0xD0; 0x8F; 0xFB; 0x10; 0xD4; 0xB8].
Definition example_key : bytes := 4 :: example_x ++ example_y.
Definition example_valid (k : bytes) : bool := bytes_eqb k example_key.
Definition example_decompress (c : bytes) : option bytes :=
  if bytes_eqb c (2 :: example_x) then Some example_key else None.

Definition example_coin : Coin :=
  mkCoin (mkTxOut (50 * COIN) ([65] ++ example_key ++ [opcode_value OP_CHECKSIG])) true 1234.

Lemma Coin_codec_witness :
  (exists out, write_coin example_valid example_coin = Some (Ok out) /\
     length out = 36%nat /\
     read_coin example_decompress (out ++ [1; 2]) = Ok (example_coin, [1; 2])) /\
  (exists out, write_txundo example_valid [example_coin] = Ok out /\
     read_txundo example_decompress true (out ++ [1; 2]) = Ok ([example_coin], [1; 2])) /\
  (exists out, write_script example_valid (repeat 0 (Z.to_nat 10001)) = Ok out /\
     read_script example_decompress [] (out ++ [1; 2]) = Ok ([opcode_value OP_RETURN], [1; 2])).
Proof.
  assert (Hk : forall k, is_blob 65 k -> get k 0 = 4 -> example_valid k = true ->
    example_decompress ((2 + Z.land (get k 64) 1) :: firstn 32 (skipn 1 k)) = Some k).
  { intros k _ _ Hv; apply bytes_eqb_eq in Hv; subst k; reflexivity. }
  assert (Hc : storable_coin example_coin).
  { split; [| cbn; lia]; split; [cbn; split; [lia | discriminate] |]; split; [| discriminate].
    repeat constructor; unfold in_u; cbn; lia. }
  split_all.
  - destruct (proj1 (Coin_codec _ _ example_coin [] true [] [1; 2] Hk) Hc) as (out & W & R).
    exists out; split_all; auto; vm_compute in W; injection W as <-; reflexivity.
  - apply (Coin_codec _ _ example_coin [example_coin] true [] [1; 2] Hk); [auto | discriminate].
  - apply (Coin_codec _ _ example_coin [] true (repeat 0 (Z.to_nat 10001)) [1; 2] Hk).
    rewrite repeat_length, Z2Nat.id by discriminate; split; reflexivity.
Defined.
