(* ===== verification/AssetTypes.v ===== *)
(** Asset data in scripts (src/assets/assettypes.h, the construction and
    parsing of asset outputs in src/assets/assets.cpp, and the amount of an
    asset output in src/script/script.cpp).  Strings are byte strings; the
    text form of an address and the hash function of keys are arguments. *)

From Stdlib Require Import ZArith List Bool Lia Arith.
From S2P Require Import Prelude Serialize Script Standard Transaction.
Import ListNotations.
Open Scope Z_scope.

Definition IPFS_SHA2_256 : Z := 0x12.
Definition TXID_NOTIFIER : Z := 0x54.
Definition IPFS_SHA2_256_LEN : Z := 0x20.

Definition OWNER_TAG : bytes := [33].
Definition OWNER_ASSET_AMOUNT : Z := 1 * COIN.
Definition MAX_ASSET_LENGTH : Z := 32.

(** * Attached hashes *)

(** [ReadWriteAssetHash], reading: whether there is a hash, and the hash. *)
Definition read_asset_hash : reader (bool * bytes) := fun s =>
  if Z.of_nat (length s) >=? 33 then
    let! c := ser_readdata8 s in
    let! h := read_string (snd c) in
    Ok ((true, (if fst c =? IPFS_SHA2_256 then [IPFS_SHA2_256; IPFS_SHA2_256_LEN] else [])
               ++ firstn 32 (fst h)), snd h)
  else Ok ((false, []), s).

(** [ReadWriteAssetHash], writing. *)
Definition write_asset_hash (strIPFSHash : bytes) : bool * bytes :=
  if Nat.eqb (length strIPFSHash) 34 then
    (true, ser_writedata8 IPFS_SHA2_256 ++ write_string (skipn 2 strIPFSHash))
  else if Nat.eqb (length strIPFSHash) 32 then
    (true, ser_writedata8 TXID_NOTIFIER ++ write_string strIPFSHash)
  else (false, []).

(** * The data of asset outputs *)

Record CNewAsset := mkNewAsset {
  na_strName : bytes;
  na_nAmount : Z;
  na_units : Z;
  na_nReissuable : Z;
  na_nHasIPFS : Z;
  na_strIPFSHash : bytes
}.

Definition write_new_asset (a : CNewAsset) : bytes :=
  write_string (na_strName a) ++ ser_writedata64 (na_nAmount a) ++ ser_writedata8 (na_units a) ++
  ser_writedata8 (na_nReissuable a) ++ ser_writedata8 (na_nHasIPFS a) ++
  (if na_nHasIPFS a =? 1 then snd (write_asset_hash (na_strIPFSHash a)) else []).

(** Reading into a new object. *)
Definition read_new_asset : reader CNewAsset := fun s =>
  let! name := read_string s in
  let! amount := read_i64 (snd name) in
  let! units := read_i8 (snd amount) in
  let! reiss := read_i8 (snd units) in
  let! has := read_i8 (snd reiss) in
  let! h := if fst has =? 1 then read_asset_hash (snd has) else Ok ((false, []), snd has) in
  Ok (mkNewAsset (fst name) (fst amount) (fst units) (fst reiss) (fst has) (snd (fst h)), snd h).

Record CAssetTransfer := mkTransfer {
  at_strName : bytes;
  at_nAmount : Z;
  at_message : bytes;
  at_nExpireTime : Z
}.

Definition write_transfer (t : CAssetTransfer) : bytes :=
  let '(validIPFS, h) := write_asset_hash (at_message t) in
  write_string (at_strName t) ++ ser_writedata64 (at_nAmount t) ++ h ++
  (if validIPFS && negb (at_nExpireTime t =? 0) then ser_writedata64 (at_nExpireTime t) else []).

Definition read_transfer : reader CAssetTransfer := fun s =>
  let! name := read_string s in
  let! amount := read_i64 (snd name) in
  let! h := read_asset_hash (snd amount) in
  let! e :=
    if fst (fst h) && (Z.of_nat (length (snd h)) >=? 8) then read_i64 (snd h) else Ok (0, snd h) in
  Ok (mkTransfer (fst name) (fst amount) (snd (fst h)) (fst e), snd e).

Record CReissueAsset := mkReissue {
  ra_strName : bytes;
  ra_nAmount : Z;
  ra_nUnits : Z;
  ra_nReissuable : Z;
  ra_strIPFSHash : bytes
}.

Definition write_reissue (r : CReissueAsset) : bytes :=
  write_string (ra_strName r) ++ ser_writedata64 (ra_nAmount r) ++ ser_writedata8 (ra_nUnits r) ++
  ser_writedata8 (ra_nReissuable r) ++ snd (write_asset_hash (ra_strIPFSHash r)).

Definition read_reissue : reader CReissueAsset := fun s =>
  let! name := read_string s in
  let! amount := read_i64 (snd name) in
  let! units := read_i8 (snd amount) in
  let! reiss := read_i8 (snd units) in
  let! h := read_asset_hash (snd reiss) in
  Ok (mkReissue (fst name) (fst amount) (fst units) (fst reiss) (snd (fst h)), snd h).

Record CNullAssetTxData := mkNullData { nd_asset_name : bytes; nd_flag : Z }.

Definition write_null_data (d : CNullAssetTxData) : bytes :=
  write_string (nd_asset_name d) ++ ser_writedata8 (nd_flag d).
Definition read_null_data : reader CNullAssetTxData := fun s =>
  let! name := read_string s in
  let! flag := read_i8 (snd name) in
  Ok (mkNullData (fst name) (fst flag), snd flag).

(** A [CNullAssetTxVerifierString] is its one field. *)
Definition write_verifier (verifier_string : bytes) : bytes := write_string verifier_string.
Definition read_verifier : reader bytes := read_string.

(** * Building asset outputs *)

(** The part shared by the [ConstructTransaction] functions: the marker of
    the kind of output, the data, and [OP_DROP]. *)
Definition asset_push (script : CScript) (kind : Z) (data : bytes) : CScript :=
  push_opcode
    (push_data (push_opcode script OP_HEMP_ASSET) ([HEMP_R; HEMP_V; HEMP_N; kind] ++ data)) OP_DROP.

Definition ConstructNewAsset (a : CNewAsset) (script : CScript) : CScript :=
  asset_push script HEMP_Q (write_new_asset a).
Definition ConstructOwner (a : CNewAsset) (script : CScript) : CScript :=
  asset_push script HEMP_O (write_string (na_strName a ++ OWNER_TAG)).
Definition ConstructTransfer (t : CAssetTransfer) (script : CScript) : CScript :=
  asset_push script HEMP_T (write_transfer t).
Definition ConstructReissue (r : CReissueAsset) (script : CScript) : CScript :=
  asset_push script HEMP_R (write_reissue r).

Definition ConstructNullData (d : CNullAssetTxData) (script : CScript) : CScript :=
  push_data script (write_null_data d).
Definition ConstructGlobalRestriction (d : CNullAssetTxData) (script : CScript) : CScript :=
  push_data (push_opcode (push_opcode (push_opcode script OP_HEMP_ASSET) OP_RESERVED) OP_RESERVED)
    (write_null_data d).
Definition ConstructVerifier (verifier_string : bytes) (script : CScript) : CScript :=
  push_data (push_opcode (push_opcode script OP_HEMP_ASSET) OP_RESERVED)
    (write_verifier verifier_string).

(** * Parsing asset outputs *)

(** Where the asset data starts, for each kind of output. *)
Definition IsScriptNewAsset (s : CScript) : option nat :=
  match IsAssetScript s with Some (TX_NEW_ASSET, false, i) => Some i | _ => None end.
Definition IsScriptOwnerAsset (s : CScript) : option nat :=
  match IsAssetScript s with Some (TX_NEW_ASSET, true, i) => Some i | _ => None end.
Definition IsScriptReissueAsset (s : CScript) : option nat :=
  match IsAssetScript s with Some (TX_REISSUE_ASSET, _, i) => Some i | _ => None end.
Definition IsScriptTransferAsset (s : CScript) : option nat :=
  match IsAssetScript s with Some (TX_TRANSFER_ASSET, _, i) => Some i | _ => None end.

(** The stream over the bytes from [start] on, and a read that may throw. *)
Definition parse_at {A : Type} (read : reader A) (s : CScript) (start : nat) : option A :=
  match read (skipn start s) with Ok (a, _) => Some a | Err _ => None end.

(** [None] where the function returns false. *)
Definition AmountFromNewAssetScript (s : CScript) : option Z :=
  match IsScriptNewAsset s with
  | None => None
  | Some i => option_map na_nAmount (parse_at read_new_asset s i)
  end.
Definition AmountFromTransferScript (s : CScript) : option Z :=
  match IsScriptTransferAsset s with
  | None => None
  | Some i => option_map at_nAmount (parse_at read_transfer s i)
  end.
Definition AmountFromReissueScript (s : CScript) : option Z :=
  match IsScriptReissueAsset s with
  | None => None
  | Some i => option_map ra_nAmount (parse_at read_reissue s i)
  end.

Definition GetAssetAmountFromScript (s : CScript) : option Z :=
  match IsAssetScript s with
  | Some (TX_NEW_ASSET, false, _) => AmountFromNewAssetScript s
  | Some (TX_TRANSFER_ASSET, _, _) => AmountFromTransferScript s
  | Some (TX_NEW_ASSET, true, _) => Some OWNER_ASSET_AMOUNT
  | Some (TX_REISSUE_ASSET, _, _) => AmountFromReissueScript s
  | _ => None
  end.

Definition IsUnspendable (s : CScript) : bool :=
  ((Z.of_nat (length s) >? 0) && (get s 0 =? OP_RETURN)) ||
  ((Z.of_nat (length s) >? 0) && (get s 0 =? OP_HEMP_ASSET)) ||
  (Z.of_nat (length s) >? MAX_SCRIPT_SIZE) ||
  match GetAssetAmountFromScript s with Some nAmount => nAmount =? 0 | None => false end.

Definition OFFSET_TWENTY_THREE : nat := 23.
Definition OFFSET_FOUR : nat := 4.
Definition OFFSET_THREE : nat := 3.

Definition GlobalAssetNullDataFromScript (s : CScript) : option CNullAssetTxData :=
  if negb (IsNullGlobalRestrictionAssetTxDataScript s) then None
  else parse_at read_null_data s OFFSET_FOUR.

Definition AssetNullVerifierDataFromScript (s : CScript) : option bytes :=
  if negb (IsNullAssetVerifierTxDataScript s) then None
  else parse_at read_verifier s OFFSET_THREE.

Section Addresses.
Variable Hash160 : bytes -> bytes.
Variable EncodeDestination : CTxDestination -> bytes.

(** The destination stays [CNoDestination] when none is extracted. *)
Definition script_address (s : CScript) : bytes :=
  EncodeDestination
    match ExtractDestination Hash160 s with Some d => d | None => CNoDestination end.

Definition with_address {A : Type} (s : CScript) (r : option A) : option (A * bytes) :=
  option_map (fun a => (a, script_address s)) r.

Definition TransferAssetFromScript (AreTransferScriptsSizeDeployed : bool) (s : CScript)
  : option (CAssetTransfer * bytes) :=
  match IsScriptTransferAsset s with
  | None => None
  | Some nStartingIndex =>
      with_address s
        (parse_at read_transfer s (if AreTransferScriptsSizeDeployed then nStartingIndex else 31%nat))
  end.

Definition AssetFromScript (s : CScript) : option (CNewAsset * bytes) :=
  match IsScriptNewAsset s with
  | None => None
  | Some nStartingIndex => with_address s (parse_at read_new_asset s nStartingIndex)
  end.

Definition OwnerAssetFromScript (s : CScript) : option (bytes * bytes) :=
  match IsScriptOwnerAsset s with
  | None => None
  | Some nStartingIndex => with_address s (parse_at read_string s nStartingIndex)
  end.

Definition ReissueAssetFromScript (s : CScript) : option (CReissueAsset * bytes) :=
  match IsScriptReissueAsset s with
  | None => None
  | Some nStartingIndex => with_address s (parse_at read_reissue s nStartingIndex)
  end.

Definition AssetNullDataFromScript (s : CScript) : option (CNullAssetTxData * bytes) :=
  if negb (IsNullAssetTxDataScript s) then None
  else with_address s (parse_at read_null_data s OFFSET_TWENTY_THREE).

(** The key hash, the asset's name and the amount. *)
Definition ParseAssetScript (deployed : bool) (s : CScript) : option (bytes * bytes * Z) :=
  let found :=
    match IsAssetScript s with
    | Some (TX_NEW_ASSET, true, _) =>
        option_map (fun r => (fst r, OWNER_ASSET_AMOUNT)) (OwnerAssetFromScript s)
    | Some (TX_NEW_ASSET, false, _) =>
        option_map (fun r => (na_strName (fst r), na_nAmount (fst r))) (AssetFromScript s)
    | Some (TX_REISSUE_ASSET, _, _) =>
        option_map (fun r => (ra_strName (fst r), ra_nAmount (fst r))) (ReissueAssetFromScript s)
    | Some (TX_TRANSFER_ASSET, _, _) =>
        option_map (fun r => (at_strName (fst r), at_nAmount (fst r))) (TransferAssetFromScript deployed s)
    | _ => None
    end in
  option_map (fun '(assetName, assetAmount) => (firstn 20 (skipn 3 s), assetName, assetAmount)) found.
End Addresses.

(** * Attached hashes: lemmas *)

(** No hash, an IPFS hash with its two-byte prefix, or a transaction id. *)
Definition valid_hash (h : bytes) : Prop :=
  h = [] \/ (length h = 34%nat /\ firstn 2 h = [IPFS_SHA2_256; IPFS_SHA2_256_LEN]) \/ length h = 32%nat.

Lemma read_some_hash (c : Z) (h rest : bytes) : in_u 8 c -> length h = 32%nat ->
  read_asset_hash ((ser_writedata8 c ++ write_string h) ++ rest) =
  Ok ((true, (if c =? IPFS_SHA2_256 then [IPFS_SHA2_256; IPFS_SHA2_256_LEN] else []) ++ h), rest).
Proof.
  intros Hc Hh; unfold read_asset_hash, ser_writedata8.
  assert (Hl : (Z.of_nat (length ((le_split 8 1 c ++ write_string h) ++ rest)) >=? 33) = true).
  { rewrite !length_app, length_le_split; unfold write_string; rewrite length_app, Hh.
    apply Z.geb_le; lia. }
  rewrite Hl, <- app_assoc; change (le_split 8 1 c) with (ser_writedata8 c).
  rewrite format_reads by exact Hc; cbn [bind fst snd].
  rewrite read_string_reads by (rewrite Hh; discriminate).
  cbn [bind fst snd]; rewrite (firstn_all2 h) by lia; reflexivity.
Qed.

Lemma asset_hash_reads (h rest : bytes) : valid_hash h -> (length rest < 33)%nat ->
  read_asset_hash (snd (write_asset_hash h) ++ rest) = Ok ((fst (write_asset_hash h), h), rest).
Proof.
  intros Hv Hr; unfold write_asset_hash; destruct Hv as [-> | [[Hl Hp] | Hl]].
  - cbn [length Nat.eqb fst snd app]; unfold read_asset_hash.
    assert (E : (Z.of_nat (length rest) >=? 33) = false) by (rewrite Z.geb_leb; apply Z.leb_gt; lia).
    rewrite E; reflexivity.
  - rewrite Hl; cbn [Nat.eqb fst snd].
    rewrite read_some_hash; [| unfold in_u, IPFS_SHA2_256; lia | rewrite length_skipn; lia].
    rewrite Z.eqb_refl, <- Hp, firstn_skipn; reflexivity.
  - rewrite Hl; cbn [Nat.eqb fst snd].
    rewrite read_some_hash; [reflexivity | unfold in_u, TXID_NOTIFIER; lia | exact Hl].
Qed.

Lemma write_asset_hash_length (h : bytes) : valid_hash h ->
  (length (snd (write_asset_hash h)) <= 34)%nat.
Proof.
  intros Hv; unfold write_asset_hash, write_string, ser_writedata8; destruct Hv as [-> | [[Hl _] | Hl]].
  - cbn; lia.
  - rewrite Hl; cbn [Nat.eqb snd]; rewrite !length_app, length_skipn, Hl; cbn; lia.
  - rewrite Hl; cbn [Nat.eqb snd]; rewrite !length_app, Hl; cbn; lia.
Qed.

(** * Asset data: lemmas *)

Definition valid_name (name : bytes) : Prop := Z.of_nat (length name) <= MAX_ASSET_LENGTH /\ is_bytes name.

Lemma valid_name_short (name : bytes) : valid_name name -> short_bytes name.
Proof. intros [H Hb]; split; [unfold MAX_ASSET_LENGTH, MAX_SIZE in *; lia | exact Hb]. Qed.

Lemma write_name_length (name : bytes) : valid_name name ->
  (1 <= length (write_string name) <= 33)%nat.
Proof.
  intros [H _]; unfold MAX_ASSET_LENGTH in H; unfold write_string, WriteCompactSize.
  rewrite (proj2 (Z.ltb_lt _ 253)) by lia; unfold ser_writedata8.
  rewrite length_app, length_le_split; lia.
Qed.

Record valid_new (a : CNewAsset) : Prop := {
  vn_name : valid_name (na_strName a);
  vn_amount : in_s 64 (na_nAmount a);
  vn_units : in_s 8 (na_units a);
  vn_reissuable : in_s 8 (na_nReissuable a);
  vn_has : in_s 8 (na_nHasIPFS a);
  vn_hash : valid_hash (na_strIPFSHash a);
  vn_nohash : na_nHasIPFS a <> 1 -> na_strIPFSHash a = []
}.

Lemma new_asset_reads (a : CNewAsset) (rest : bytes) : valid_new a -> (length rest < 33)%nat ->
  read_new_asset (write_new_asset a ++ rest) = Ok (a, rest).
Proof.
  destruct a as [name amount units reiss has h]; intros [Hn Ha Hu Hre Hh Hv Hno] Hr; cbn in *.
  apply valid_name_short in Hn; unfold read_new_asset, write_new_asset.
  cbn [na_strName na_nAmount na_units na_nReissuable na_nHasIPFS na_strIPFSHash]; read_fields.
  destruct (Z.eqb_spec has 1) as [-> | Hne].
  - rewrite asset_hash_reads by assumption; reflexivity.
  - rewrite Hno by exact Hne; reflexivity.
Qed.

Record valid_transfer (t : CAssetTransfer) : Prop := {
  vt_name : valid_name (at_strName t);
  vt_amount : in_s 64 (at_nAmount t);
  vt_expire : in_s 64 (at_nExpireTime t);
  vt_message : valid_hash (at_message t);
  vt_noexpire : at_message t = [] -> at_nExpireTime t = 0
}.

Lemma transfer_reads (t : CAssetTransfer) (rest : bytes) : valid_transfer t -> (length rest < 8)%nat ->
  read_transfer (write_transfer t ++ rest) = Ok (t, rest).
Proof.
  destruct t as [name amount msg ex]; intros [Hn Ha He Hm Hno] Hr; cbn in *.
  apply valid_name_short in Hn; unfold read_transfer, write_transfer.
  cbn [at_strName at_nAmount at_message at_nExpireTime].
  destruct (write_asset_hash msg) as [b w] eqn:E.
  pose proof (f_equal fst E) as Eb; pose proof (f_equal snd E) as Ew; cbn [fst snd] in Eb, Ew.
  read_fields.
  assert (Hsmall : (Z.of_nat (length rest) >=? 8) = false) by (rewrite Z.geb_leb; apply Z.leb_gt; lia).
  rewrite <- Ew, asset_hash_reads; rewrite ?Eb; cbn [bind fst snd];
    [ | exact Hm | destruct (b && negb (ex =? 0)); rewrite length_app; [| cbn [length]; lia];
        unfold ser_writedata64; rewrite length_le_split; lia ].
  destruct (Z.eqb_spec ex 0) as [-> | Hne]; cbn [negb]; rewrite ?andb_false_r, ?andb_true_r.
  - cbn [app]; rewrite Hsmall, andb_false_r; reflexivity.
  - destruct b.
    + assert (Hbig : (Z.of_nat (length (ser_writedata64 ex ++ rest)) >=? 8) = true).
      { unfold ser_writedata64; rewrite length_app, length_le_split; apply Z.geb_le; lia. }
      rewrite Hbig; cbn [andb]; rewrite format_reads by exact He; reflexivity.
    + exfalso; apply Hne, Hno; unfold write_asset_hash in E; destruct Hm as [Hm | [[Hl _] | Hl]]; auto;
        rewrite Hl in E; discriminate.
Qed.

Record valid_reissue (r : CReissueAsset) : Prop := {
  vr_name : valid_name (ra_strName r);
  vr_amount : in_s 64 (ra_nAmount r);
  vr_units : in_s 8 (ra_nUnits r);
  vr_reissuable : in_s 8 (ra_nReissuable r);
  vr_hash : valid_hash (ra_strIPFSHash r)
}.

Lemma reissue_reads (r : CReissueAsset) (rest : bytes) : valid_reissue r -> (length rest < 33)%nat ->
  read_reissue (write_reissue r ++ rest) = Ok (r, rest).
Proof.
  destruct r as [name amount units reiss h]; intros [Hn Ha Hu Hre Hv] Hr; cbn in *.
  apply valid_name_short in Hn; unfold read_reissue, write_reissue.
  cbn [ra_strName ra_nAmount ra_nUnits ra_nReissuable ra_strIPFSHash]; read_fields.
  rewrite asset_hash_reads by assumption; reflexivity.
Qed.

Lemma null_data_reads (d : CNullAssetTxData) (rest : bytes) :
  short_bytes (nd_asset_name d) -> in_s 8 (nd_flag d) ->
  read_null_data (write_null_data d ++ rest) = Ok (d, rest).
Proof.
  destruct d as [name flag]; cbn [nd_asset_name nd_flag]; intros Hn Hf.
  unfold read_null_data, write_null_data; cbn [nd_asset_name nd_flag]; read_fields; reflexivity.
Qed.

(** * Asset outputs: lemmas *)

Lemma get_tail (base t : bytes) (n i : nat) : length base = n -> get (base ++ t) (n + i) = get t i.
Proof. intros <-; unfold get; apply app_nth2_plus. Qed.

Lemma skipn_tail (base t : bytes) (n i : nat) : length base = n -> skipn (n + i) (base ++ t) = skipn i t.
Proof.
  intros <-; rewrite skipn_app, skipn_all2 by lia.
  replace (length base + i - length base)%nat with i by lia; reflexivity.
Qed.

(** The operation byte or bytes of a push of up to 255 bytes. *)
Definition push_header (n : Z) : bytes := if n <? 76 then [n] else [76; n].

Lemma push_data_form (s b : bytes) : Z.of_nat (length b) <= 255 ->
  push_data s b = s ++ push_header (Z.of_nat (length b)) ++ b.
Proof.
  intros Hb; unfold push_data, push_header; f_equal; f_equal.
  change (opcode_value OP_PUSHDATA1) with 76.
  destruct (Z.ltb_spec (Z.of_nat (length b)) 76); [reflexivity |].
  destruct (Z.leb_spec (Z.of_nat (length b)) 255); [reflexivity | lia].
Qed.

Lemma asset_push_form (base data : bytes) (kind : Z) : Z.of_nat (length data) <= 251 ->
  asset_push base kind data =
  base ++ opcode_value OP_HEMP_ASSET :: push_header (4 + Z.of_nat (length data)) ++
  [HEMP_R; HEMP_V; HEMP_N; kind] ++ data ++ [opcode_value OP_DROP].
Proof.
  intros Hd; unfold asset_push, push_opcode; rewrite push_data_form by (cbn [app length]; lia).
  replace (Z.of_nat (length ([HEMP_R; HEMP_V; HEMP_N; kind] ++ data))) with (4 + Z.of_nat (length data))
    by (cbn [app length]; lia).
  rewrite <- !app_assoc; reflexivity.
Qed.

(** The kind of output of each marker. *)
Definition kind_type (kind : Z) : txnouttype * bool :=
  if kind =? HEMP_T then (TX_TRANSFER_ASSET, false)
  else if kind =? HEMP_Q then (TX_NEW_ASSET, false)
  else if kind =? HEMP_O then (TX_NEW_ASSET, true)
  else (TX_REISSUE_ASSET, false).

Definition is_kind (kind : Z) : Prop :=
  kind = HEMP_T \/ kind = HEMP_Q \/ kind = HEMP_O \/ kind = HEMP_R.

Definition asset_start (data : bytes) : nat :=
  if 4 + Z.of_nat (length data) <? 76 then 31 else 32.

Lemma asset_tail_parses (base data hdr : bytes) (kind n : Z) (start : nat) :
  length base = 25%nat -> is_kind kind ->
  (kind = HEMP_Q -> 8 <= Z.of_nat (length data)) ->
  (hdr = [n] /\ start = 31%nat) \/ (hdr = [76; n] /\ n <> HEMP_R /\ start = 32%nat) ->
  let s := base ++ opcode_value OP_HEMP_ASSET :: hdr ++
           [HEMP_R; HEMP_V; HEMP_N; kind] ++ data ++ [opcode_value OP_DROP] in
  IsAssetScript s = Some (fst (kind_type kind), snd (kind_type kind), start) /\
  skipn start s = data ++ [opcode_value OP_DROP].
Proof.
  intros Hb Hk Hd Hh; cbv zeta; set (t := opcode_value OP_HEMP_ASSET :: _).
  assert (Hlen : Z.of_nat (length (base ++ t)) >= 32 + Z.of_nat (length data)).
  { rewrite length_app, Hb; subst t; cbn [length]; rewrite !length_app; cbn [length].
    destruct Hh as [[-> _] | [-> _]]; cbn [length]; lia. }
  assert (HQ : kind = HEMP_Q -> (Z.of_nat (length (base ++ t)) >? 39) = true).
  { intros E; rewrite Z.gtb_ltb; apply Z.ltb_lt; specialize (Hd E); lia. }
  unfold IsAssetScript; rewrite (Z.gtb_ltb _ 31), (proj2 (Z.ltb_lt 31 _)) by lia.
  change (get (base ++ t) 25) with (get (base ++ t) (25 + 0)).
  change (get (base ++ t) 27) with (get (base ++ t) (25 + 2)).
  change (get (base ++ t) 28) with (get (base ++ t) (25 + 3)).
  change (get (base ++ t) 29) with (get (base ++ t) (25 + 4)).
  change (get (base ++ t) 30) with (get (base ++ t) (25 + 5)).
  rewrite !(get_tail base t 25) by exact Hb.
  generalize dependent (Z.of_nat (length (base ++ t)) >? 39); intros big HQ.
  destruct Hh as [[Hh Hs] | (Hh & Hn & Hs)]; subst start hdr.
  - change 31%nat with (25 + 6)%nat; rewrite (skipn_tail base t 25) by exact Hb.
    subst t; cbn [app get nth skipn]; rewrite !Z.eqb_refl; cbn [andb]; split; [| reflexivity].
    change 30%nat with (25 + 5)%nat; rewrite (get_tail base _ 25 5) by exact Hb; cbn [get nth].
    destruct Hk as [-> | [-> | [-> | ->]]]; try reflexivity; rewrite HQ by reflexivity; reflexivity.
  - change 32%nat with (25 + 7)%nat; rewrite (skipn_tail base t 25) by exact Hb.
    subst t; cbn [app get nth skipn]; rewrite !Z.eqb_refl, (proj2 (Z.eqb_neq n HEMP_R)) by exact Hn.
    cbn [andb]; split; [| reflexivity].
    change 31%nat with (25 + 6)%nat; rewrite (get_tail base _ 25 6) by exact Hb; cbn [get nth].
    destruct Hk as [-> | [-> | [-> | ->]]]; try reflexivity; rewrite HQ by reflexivity; reflexivity.
Qed.

(** The payload after a 25-byte script is recognised, and the data is found,
    for payloads of up to 255 bytes except of the length 114, which is the
    code of the letter [r]. *)
Lemma asset_push_parses (base data : bytes) (kind : Z) : length base = 25%nat -> is_kind kind ->
  (kind = HEMP_Q -> 8 <= Z.of_nat (length data)) ->
  Z.of_nat (length data) <= 251 -> Z.of_nat (length data) <> 110 ->
  IsAssetScript (asset_push base kind data) =
    Some (fst (kind_type kind), snd (kind_type kind), asset_start data) /\
  skipn (asset_start data) (asset_push base kind data) = data ++ [opcode_value OP_DROP].
Proof.
  intros Hb Hk HQ Hd Hn; rewrite asset_push_form by lia.
  apply asset_tail_parses with (n := 4 + Z.of_nat (length data)); auto; try lia.
  unfold push_header, asset_start; destruct (4 + Z.of_nat (length data) <? 76); auto.
  right; split_all; auto; unfold HEMP_R; lia.
Qed.

Lemma asset_address (Hash160 : bytes -> bytes) (s : CScript) (type : txnouttype) (owner : bool) (i : nat) :
  IsAssetScript s = Some (type, owner, i) ->
  type = TX_TRANSFER_ASSET \/ type = TX_NEW_ASSET \/ type = TX_REISSUE_ASSET ->
  ExtractDestination Hash160 s = Some (CKeyID (firstn 20 (skipn 3 s))).
Proof.
  intros H Ht; unfold ExtractDestination, Solver.
  assert (E : IsPayToScriptHash s = false).
  { unfold IsPayToScriptHash; unfold IsAssetScript in H.
    destruct (Z.of_nat (length s) >? 31) eqn:E; [| discriminate]; rewrite Z.gtb_ltb in E; apply Z.ltb_lt in E.
    rewrite (proj2 (Z.eqb_neq _ 23)) by lia; reflexivity. }
  rewrite E, H; destruct Ht as [-> | [-> | ->]]; reflexivity.
Qed.

Lemma key_script_length (h : bytes) : length h = 20%nat ->
  length (GetScriptForDestination (CKeyID h)) = 25%nat.
Proof. revert h; apply hash20; reflexivity. Qed.

Lemma key_script_hash (h t : bytes) : length h = 20%nat ->
  firstn 20 (skipn 3 (GetScriptForDestination (CKeyID h) ++ t)) = h.
Proof. revert h; apply hash20; reflexivity. Qed.


Lemma new_asset_length (a : CNewAsset) : valid_new a ->
  8 <= Z.of_nat (length (write_new_asset a)) <= 80.
Proof.
  intros [Hn _ _ _ _ Hh _]; pose proof (write_name_length _ Hn); pose proof (write_asset_hash_length _ Hh).
  unfold write_new_asset, ser_writedata64, ser_writedata8; rewrite !length_app, !length_le_split.
  destruct (na_nHasIPFS a =? 1); cbn [length]; lia.
Qed.

Lemma transfer_length (t : CAssetTransfer) : valid_transfer t ->
  Z.of_nat (length (write_transfer t)) <= 83.
Proof.
  intros [Hn _ _ Hh _]; pose proof (write_name_length _ Hn); pose proof (write_asset_hash_length _ Hh).
  unfold write_transfer, ser_writedata64; destruct (write_asset_hash (at_message t)) as [b w].
  cbn [snd] in *; destruct (b && negb (at_nExpireTime t =? 0));
    rewrite !length_app, ?length_le_split; cbn [length]; lia.
Qed.

Lemma reissue_length (r : CReissueAsset) : valid_reissue r ->
  Z.of_nat (length (write_reissue r)) <= 80.
Proof.
  intros [Hn _ _ _ Hh]; pose proof (write_name_length _ Hn); pose proof (write_asset_hash_length _ Hh).
  unfold write_reissue, ser_writedata64, ser_writedata8; rewrite !length_app, !length_le_split; lia.
Qed.

Lemma owner_length (name : bytes) : valid_name name ->
  Z.of_nat (length (write_string (name ++ OWNER_TAG))) <= 34.
Proof.
  intros [H _]; unfold MAX_ASSET_LENGTH in H; unfold write_string, WriteCompactSize, ser_writedata8.
  assert (L : length (name ++ OWNER_TAG) = S (length name)) by (rewrite length_app, Nat.add_1_r; reflexivity).
  rewrite (proj2 (Z.ltb_lt _ 253)) by lia; rewrite length_app, length_le_split; lia.
Qed.

(** An asset output is unspendable exactly if it carries no units. *)
Lemma asset_unspendable (h data : bytes) (kind : Z) : length h = 20%nat -> Z.of_nat (length data) <= 251 ->
  let s := asset_push (GetScriptForDestination (CKeyID h)) kind data in
  IsUnspendable s = match GetAssetAmountFromScript s with Some n => n =? 0 | None => false end.
Proof.
  intros Hh Hd s; unfold IsUnspendable; subst s; rewrite asset_push_form by lia.
  set (tail := opcode_value OP_HEMP_ASSET :: _).
  assert (Hg : get (GetScriptForDestination (CKeyID h) ++ tail) 0 = opcode_value OP_DUP)
    by (revert h Hh; apply hash20; reflexivity).
  assert (Hl : (Z.of_nat (length (GetScriptForDestination (CKeyID h) ++ tail)) >? MAX_SCRIPT_SIZE) = false).
  { rewrite Z.gtb_ltb; apply Z.ltb_ge; rewrite length_app, key_script_length by exact Hh.
    subst tail; cbn [length]; rewrite !length_app; cbn [length]; unfold push_header.
    destruct (4 + Z.of_nat (length data) <? 76); cbn [length]; unfold MAX_SCRIPT_SIZE; lia. }
  rewrite Hg, Hl, !andb_false_r; reflexivity.
Qed.

Section Parse.
Variable Hash160 : bytes -> bytes.
Variable EncodeDestination : CTxDestination -> bytes.
Variable h : bytes.
Hypothesis Hh : length h = 20%nat.

Let script := GetScriptForDestination (CKeyID h).
Let address := EncodeDestination (CKeyID h).

(** An asset output to a key hash: its kind, its data and its address, given
    that the data is read back from what follows it. *)
Lemma asset_output {A : Type} (read : reader A) (a : A) (data : bytes) (kind : Z) : is_kind kind ->
  (kind = HEMP_Q -> 8 <= Z.of_nat (length data)) ->
  Z.of_nat (length data) <= 251 -> Z.of_nat (length data) <> 110 ->
  read (data ++ [opcode_value OP_DROP]) = Ok (a, [opcode_value OP_DROP]) ->
  let s := asset_push script kind data in
  IsAssetScript s = Some (fst (kind_type kind), snd (kind_type kind), asset_start data) /\
  parse_at read s (asset_start data) = Some a /\
  script_address Hash160 EncodeDestination s = address /\
  firstn 20 (skipn 3 s) = h.
Proof.
  intros Hk HQ Hd Hn Hr s; destruct (asset_push_parses script data kind (key_script_length h Hh) Hk HQ Hd Hn)
    as [H1 H2].
  assert (Hf : firstn 20 (skipn 3 s) = h)
    by (subst s; rewrite asset_push_form by lia; apply key_script_hash, Hh).
  split_all; auto.
  - unfold parse_at, s; rewrite H2, Hr; reflexivity.
  - unfold script_address; rewrite (asset_address Hash160 s _ _ _ H1), Hf; [reflexivity |].
    destruct Hk as [-> | [-> | [-> | ->]]]; cbn; auto.
Qed.

Lemma new_asset_parses (a : CNewAsset) : valid_new a ->
  AssetFromScript Hash160 EncodeDestination (ConstructNewAsset a script) = Some (a, address) /\
  IsUnspendable (ConstructNewAsset a script) = (na_nAmount a =? 0).
Proof.
  intros Ha; pose proof (new_asset_length a Ha) as L; unfold ConstructNewAsset.
  destruct (asset_output read_new_asset a (write_new_asset a) HEMP_Q) as (H1 & H2 & H3 & _);
    unfold is_kind; auto; try lia; [apply new_asset_reads; [exact Ha | cbn; lia] |].
  unfold AssetFromScript, IsScriptNewAsset; split.
  - rewrite H1; cbn [kind_type fst snd Z.eqb Pos.eqb HEMP_T HEMP_Q]; rewrite H2; cbn [with_address option_map].
    rewrite H3; reflexivity.
  - unfold script; rewrite asset_unspendable by (auto; lia); fold script.
    unfold GetAssetAmountFromScript, AmountFromNewAssetScript, IsScriptNewAsset; rewrite H1.
    cbn [kind_type fst snd Z.eqb Pos.eqb HEMP_T HEMP_Q]; rewrite H2; reflexivity.
Qed.

Lemma owner_parses (a : CNewAsset) : valid_name (na_strName a) ->
  OwnerAssetFromScript Hash160 EncodeDestination (ConstructOwner a script) =
  Some (na_strName a ++ OWNER_TAG, address).
Proof.
  intros Ha; pose proof (owner_length _ Ha) as L; unfold ConstructOwner, OwnerAssetFromScript, IsScriptOwnerAsset.
  destruct (asset_output read_string (na_strName a ++ OWNER_TAG) (write_string (na_strName a ++ OWNER_TAG)) HEMP_O)
    as (H1 & H2 & H3 & _); unfold is_kind; auto; try lia; try discriminate.
  - apply read_string_reads; unfold write_string in L; rewrite length_app in L; unfold MAX_SIZE; lia.
  - rewrite H1; cbn [kind_type fst snd Z.eqb Pos.eqb HEMP_T HEMP_Q HEMP_O]; rewrite H2.
    cbn [with_address option_map]; rewrite H3; reflexivity.
Qed.

Lemma transfer_parses (t : CAssetTransfer) (deployed : bool) : valid_transfer t ->
  (deployed = true \/ Z.of_nat (length (write_transfer t)) <= 71 ->
   TransferAssetFromScript Hash160 EncodeDestination deployed (ConstructTransfer t script) = Some (t, address) /\
   ParseAssetScript Hash160 EncodeDestination deployed (ConstructTransfer t script) =
     Some (h, at_strName t, at_nAmount t)) /\
  IsUnspendable (ConstructTransfer t script) = (at_nAmount t =? 0).
Proof.
  intros Ht; pose proof (transfer_length t Ht) as L; unfold ConstructTransfer.
  destruct (asset_output read_transfer t (write_transfer t) HEMP_T) as (H1 & H2 & H3 & H4);
    unfold is_kind; auto; try lia; try discriminate; [apply transfer_reads; [exact Ht | cbn; lia] |].
  split.
  - intros Hc.
    assert (Hs : (if deployed then asset_start (write_transfer t) else 31%nat) = asset_start (write_transfer t)).
    { destruct deployed; [reflexivity |]; destruct Hc as [Hc | Hc]; [discriminate |].
      unfold asset_start; rewrite (proj2 (Z.ltb_lt _ 76)) by lia; reflexivity. }
    assert (T : TransferAssetFromScript Hash160 EncodeDestination deployed
                  (asset_push script HEMP_T (write_transfer t)) = Some (t, address)).
    { unfold TransferAssetFromScript, IsScriptTransferAsset; rewrite H1.
      cbn [kind_type fst snd Z.eqb Pos.eqb HEMP_T]; rewrite Hs, H2; cbn [with_address option_map].
      rewrite H3; reflexivity. }
    split; [exact T |]; unfold ParseAssetScript; rewrite H1; cbn [kind_type fst snd Z.eqb Pos.eqb HEMP_T].
    rewrite T; cbn [option_map fst]; rewrite H4; reflexivity.
  - unfold script; rewrite asset_unspendable by (auto; lia); fold script.
    unfold GetAssetAmountFromScript, AmountFromTransferScript, IsScriptTransferAsset; rewrite H1.
    cbn [kind_type fst snd Z.eqb Pos.eqb HEMP_T]; rewrite H2; reflexivity.
Qed.

Lemma reissue_parses (r : CReissueAsset) : valid_reissue r ->
  ReissueAssetFromScript Hash160 EncodeDestination (ConstructReissue r script) = Some (r, address) /\
  IsUnspendable (ConstructReissue r script) = (ra_nAmount r =? 0).
Proof.
  intros Hr; pose proof (reissue_length r Hr) as L; unfold ConstructReissue.
  destruct (asset_output read_reissue r (write_reissue r) HEMP_R) as (H1 & H2 & H3 & _);
    unfold is_kind; auto; try lia; try discriminate; [apply reissue_reads; [exact Hr | cbn; lia] |].
  unfold ReissueAssetFromScript, IsScriptReissueAsset; split.
  - rewrite H1; cbn [kind_type fst snd Z.eqb Pos.eqb HEMP_T HEMP_Q HEMP_O HEMP_R]; rewrite H2.
    cbn [with_address option_map]; rewrite H3; reflexivity.
  - unfold script; rewrite asset_unspendable by (auto; lia); fold script.
    unfold GetAssetAmountFromScript, AmountFromReissueScript, IsScriptReissueAsset; rewrite H1.
    cbn [kind_type fst snd Z.eqb Pos.eqb HEMP_T HEMP_Q HEMP_O HEMP_R]; rewrite H2; reflexivity.
Qed.
End Parse.

(** * Correctness *)

(** C37: asset outputs: the data of an asset that is issued, owned,
    transferred or reissued in an output to a key hash is parsed back exactly
    from the script that carries it, together with the address; before the
    longer transfer scripts are deployed this needs the payload of a transfer
    to fit a one-byte push.  The output is unspendable exactly if it carries
    no units. *)
Theorem AssetScript_codec (Hash160 : bytes -> bytes) (Enc : CTxDestination -> bytes)
    (h : bytes) (a : CNewAsset) (t : CAssetTransfer) (r : CReissueAsset) (deployed : bool) :
  length h = 20%nat -> valid_new a -> valid_transfer t -> valid_reissue r ->
  let script := GetScriptForDestination (CKeyID h) in
  AssetFromScript Hash160 Enc (ConstructNewAsset a script) = Some (a, Enc (CKeyID h)) /\
  OwnerAssetFromScript Hash160 Enc (ConstructOwner a script) =
    Some (na_strName a ++ OWNER_TAG, Enc (CKeyID h)) /\
  (deployed = true \/ Z.of_nat (length (write_transfer t)) <= 71 ->
   TransferAssetFromScript Hash160 Enc deployed (ConstructTransfer t script) = Some (t, Enc (CKeyID h)) /\
   ParseAssetScript Hash160 Enc deployed (ConstructTransfer t script) =
     Some (h, at_strName t, at_nAmount t)) /\
  ReissueAssetFromScript Hash160 Enc (ConstructReissue r script) = Some (r, Enc (CKeyID h)) /\
  IsUnspendable (ConstructNewAsset a script) = (na_nAmount a =? 0) /\
  IsUnspendable (ConstructTransfer t script) = (at_nAmount t =? 0) /\
  IsUnspendable (ConstructReissue r script) = (ra_nAmount r =? 0).
Proof.
  intros Hh Ha Ht Hr script.
  destruct (new_asset_parses Hash160 Enc h Hh a Ha), (transfer_parses Hash160 Enc h Hh t deployed Ht),
    (reissue_parses Hash160 Enc h Hh r Hr).
  pose proof (owner_parses Hash160 Enc h Hh a (vn_name a Ha)); tauto.
Qed.

(** The longest name, and a message with an expiry: a two-byte push. *)
Definition example_hash : bytes := [IPFS_SHA2_256; IPFS_SHA2_256_LEN] ++ repeat 7 32.
Definition example_new : CNewAsset := mkNewAsset [72; 69; 77; 80] (100 * COIN) 2 1 1 example_hash.
Definition example_transfer : CAssetTransfer := mkTransfer (repeat 65 30) (5 * COIN) example_hash 1700000000.
Definition example_reissue : CReissueAsset := mkReissue [72; 69; 77; 80] 0 (-1) 0 [].

Lemma AssetScript_codec_witness :
  let script := GetScriptForDestination (CKeyID (repeat 9 20)) in
  let enc d := match d with CKeyID h => 82 :: h | _ => [] end in
  TransferAssetFromScript (fun k => k) enc true (ConstructTransfer example_transfer script) =
    Some (example_transfer, 82 :: repeat 9 20) /\
  IsUnspendable (ConstructReissue example_reissue script) = true.
Proof.
  intros script enc.
  assert (Hh : valid_hash example_hash) by (right; left; split; reflexivity).
  assert (Ha : valid_new example_new).
  { split; cbn; try exact Hh; try (unfold in_s, COIN; lia); try congruence.
    split; [discriminate | repeat constructor; unfold in_u; lia]. }
  assert (Ht : valid_transfer example_transfer).
  { split; cbn; try exact Hh; try (unfold in_s, COIN; lia); try congruence.
    split; [discriminate | repeat constructor; unfold in_u; lia]. }
  assert (Hr : valid_reissue example_reissue).
  { split; cbn; try (left; reflexivity); try (unfold in_s, COIN; lia).
    split; [discriminate | repeat constructor; unfold in_u; lia]. }
  destruct (AssetScript_codec (fun k => k) enc (repeat 9 20) example_new example_transfer example_reissue true
    eq_refl Ha Ht Hr) as (_ & _ & T & _ & _ & _ & U).
  split; [apply T; auto | apply U].
Defined.

Lemma push_string (s v : bytes) : Z.of_nat (length v) <= 74 ->
  push_data s (write_string v) = s ++ (Z.of_nat (length v) + 1) :: write_string v /\
  (length (write_string v) = S (length v)).
Proof.
  intros Hl; assert (L : length (write_string v) = S (length v)).
  { unfold write_string, WriteCompactSize; rewrite (proj2 (Z.ltb_lt _ 253)) by lia.
    unfold ser_writedata8; rewrite length_app, length_le_split; reflexivity. }
  rewrite push_data_form by lia; unfold push_header; rewrite (proj2 (Z.ltb_lt _ 76)) by lia.
  replace (Z.of_nat (length (write_string v))) with (Z.of_nat (length v) + 1) by lia; auto.
Qed.

(** The data pushed for a name and a flag. *)
Lemma push_null_data (s : bytes) (d : CNullAssetTxData) : valid_name (nd_asset_name d) ->
  push_data s (write_null_data d) =
  s ++ (Z.of_nat (length (nd_asset_name d)) + 2) :: write_null_data d.
Proof.
  intros [Hl _]; unfold MAX_ASSET_LENGTH in Hl.
  assert (L : length (write_null_data d) = S (S (length (nd_asset_name d)))).
  { unfold write_null_data, write_string, WriteCompactSize; rewrite (proj2 (Z.ltb_lt _ 253)) by lia.
    unfold ser_writedata8; rewrite !length_app, !length_le_split; lia. }
  rewrite push_data_form by lia; unfold push_header; rewrite (proj2 (Z.ltb_lt _ 76)) by lia.
  replace (Z.of_nat (length (write_null_data d))) with (Z.of_nat (length (nd_asset_name d)) + 2) by lia; auto.
Qed.

Lemma null_data_shape (h data : bytes) (n : Z) : length h = 20%nat ->
  let s := GetScriptForNullAssetDataDestination (CKeyID h) ++ n :: data in
  IsNullAssetTxDataScript s = (0 <? Z.of_nat (length data)) /\ skipn OFFSET_TWENTY_THREE s = data.
Proof.
  revert h; apply hash20; intros; split; [| reflexivity].
  unfold IsNullAssetTxDataScript; cbn [GetScriptForNullAssetDataDestination CNullAssetScriptVisitor].
  replace (_ && (get _ 0 =? _) && (get _ 1 =? _)) with
    (Z.of_nat (23 + length data) >? 23) by (rewrite andb_true_r; symmetry; apply andb_true_r).
  rewrite Z.gtb_ltb; destruct (Z.ltb_spec 23 (Z.of_nat (23 + length data))),
    (Z.ltb_spec 0 (Z.of_nat (length data))); reflexivity || lia.
Qed.

Lemma null_data_parses (Hash160 : bytes -> bytes) (Enc : CTxDestination -> bytes) (h : bytes)
    (d : CNullAssetTxData) : length h = 20%nat -> valid_name (nd_asset_name d) -> in_s 8 (nd_flag d) ->
  get (nd_asset_name d) 1 <> OP_HEMP_ASSET -> (2 <= length (nd_asset_name d))%nat ->
  AssetNullDataFromScript Hash160 Enc
    (ConstructNullData d (GetScriptForNullAssetDataDestination (CKeyID h))) = Some (d, Enc (CKeyID h)).
Proof.
  intros Hh Hn Hf Hc H2; unfold AssetNullDataFromScript, ConstructNullData.
  pose proof (push_null_data [] d Hn) as P0; cbn [app] in P0.
  assert (HE : ExtractDestination Hash160 (push_data (GetScriptForNullAssetDataDestination (CKeyID h)) (write_null_data d))
               = Some (CKeyID h)).
  { unfold ExtractDestination; cbn [GetScriptForNullAssetDataDestination CNullAssetScriptVisitor].
    rewrite Solver_null_asset; [reflexivity | exact Hh | |].
    - destruct Hn as [Hl _]; unfold MAX_ASSET_LENGTH in Hl; unfold write_null_data, write_string.
      unfold WriteCompactSize; rewrite (proj2 (Z.ltb_lt _ 253)) by lia; unfold ser_writedata8.
      rewrite !length_app, !length_le_split; lia.
    - rewrite P0; unfold write_null_data, write_string, WriteCompactSize.
      destruct Hn as [Hl _]; unfold MAX_ASSET_LENGTH in Hl; rewrite (proj2 (Z.ltb_lt _ 253)) by lia.
      destruct (nd_asset_name d) as [| x [| y l]]; cbn [length] in *; [lia | lia |]; exact Hc. }
  unfold with_address, script_address; rewrite HE, push_null_data by exact Hn.
  destruct (null_data_shape h (write_null_data d) (Z.of_nat (length (nd_asset_name d)) + 2) Hh) as [-> E].
  rewrite (proj2 (Z.ltb_lt 0 _)) by (unfold write_null_data, ser_writedata8; rewrite length_app, length_le_split; lia).
  cbn [negb]; unfold parse_at; rewrite E, <- (app_nil_r (write_null_data d)).
  rewrite null_data_reads by (auto using valid_name_short); reflexivity.
Qed.

Lemma global_data_parses (d : CNullAssetTxData) : valid_name (nd_asset_name d) -> in_s 8 (nd_flag d) ->
  (1 <= length (nd_asset_name d))%nat ->
  GlobalAssetNullDataFromScript (ConstructGlobalRestriction d []) = Some d.
Proof.
  intros Hn Hf H1; unfold GlobalAssetNullDataFromScript, ConstructGlobalRestriction.
  rewrite push_null_data by exact Hn; unfold push_opcode; cbn [app].
  assert (E : (Z.of_nat (length (write_null_data d)) + 4 >? 6) = true).
  { rewrite Z.gtb_ltb; apply Z.ltb_lt; unfold write_null_data, write_string, ser_writedata8.
    rewrite !length_app, length_le_split; destruct Hn as [Hl _]; unfold MAX_ASSET_LENGTH in Hl.
    unfold WriteCompactSize, ser_writedata8; rewrite (proj2 (Z.ltb_lt _ 253)), length_le_split by lia; lia. }
  unfold IsNullGlobalRestrictionAssetTxDataScript; cbn [length get nth].
  replace (Z.of_nat (S (S (S (S (length (write_null_data d))))))) with
    (Z.of_nat (length (write_null_data d)) + 4) by lia.
  rewrite E, !Z.eqb_refl; cbn [andb negb]; unfold parse_at, OFFSET_FOUR; cbn [skipn].
  rewrite <- (app_nil_r (write_null_data d)), null_data_reads by (auto using valid_name_short); reflexivity.
Qed.

Lemma verifier_script (v : bytes) (hdr : bytes) :
  push_data (push_opcode (push_opcode [] OP_HEMP_ASSET) OP_RESERVED) (write_verifier v) =
  [opcode_value OP_HEMP_ASSET; opcode_value OP_RESERVED] ++ hdr ++ write_string v ->
  hdr <> [] -> get hdr 0 <> OP_RESERVED ->
  AssetNullVerifierDataFromScript (ConstructVerifier v []) =
  match read_string (skipn 1 hdr ++ write_string v) with Ok (r, _) => Some r | Err _ => None end.
Proof.
  intros E Hne Hh; unfold AssetNullVerifierDataFromScript, ConstructVerifier; rewrite E.
  destruct hdr as [| x hdr]; [congruence |]; cbn [app get nth skipn] in *.
  unfold IsNullAssetVerifierTxDataScript; cbn [length get nth]; rewrite !Z.eqb_refl.
  rewrite (proj2 (Z.eqb_neq x _)) by exact Hh.
  assert (El : (Z.of_nat (S (S (S (length (hdr ++ write_string v))))) >? 3) = true).
  { rewrite Z.gtb_ltb; apply Z.ltb_lt; rewrite length_app; unfold write_string, WriteCompactSize, ser_writedata8.
    repeat case_if; rewrite !length_app, length_le_split; lia. }
  rewrite El; reflexivity.
Qed.

Lemma verifier_parses (v : bytes) : Z.of_nat (length v) <= 74 ->
  AssetNullVerifierDataFromScript (ConstructVerifier v []) = Some v.
Proof.
  intros Hl; destruct (push_string (push_opcode (push_opcode [] OP_HEMP_ASSET) OP_RESERVED) v Hl) as [E _].
  rewrite (verifier_script v [Z.of_nat (length v) + 1] E); [| discriminate |].
  - cbn [skipn app]; rewrite <- (app_nil_r (write_string v)), read_string_reads; [reflexivity |].
    unfold MAX_SIZE; lia.
  - cbn [get nth opcode_value]; lia.
Qed.

Lemma long_verifier_parses (v : bytes) : 75 <= Z.of_nat (length v) <= 80 ->
  AssetNullVerifierDataFromScript (ConstructVerifier v []) = Some (Z.of_nat (length v) :: v).
Proof.
  intros Hl.
  assert (W : write_string v = Z.of_nat (length v) :: v).
  { unfold write_string, WriteCompactSize; rewrite (proj2 (Z.ltb_lt _ 253)) by lia; unfold ser_writedata8.
    rewrite le_split1 by (unfold in_u; lia); reflexivity. }
  rewrite (verifier_script v [76; Z.of_nat (length v) + 1]); [| | discriminate | cbn; lia].
  - cbn [skipn app].
    assert (W' : Z.of_nat (length v) + 1 :: write_string v = write_string (write_string v)).
    { unfold write_string at 2, WriteCompactSize; rewrite W; cbn [length].
      rewrite (proj2 (Z.ltb_lt _ 253)) by lia; unfold ser_writedata8.
      rewrite le_split1 by (unfold in_u; lia); cbn [app]; f_equal; lia. }
    rewrite W', <- (app_nil_r (write_string (write_string v))), read_string_reads; rewrite W; [reflexivity |].
    cbn [length]; unfold MAX_SIZE; lia.
  - unfold write_verifier; rewrite push_data_form by (rewrite W; cbn [length]; lia).
    unfold push_header; rewrite (proj2 (Z.ltb_ge _ 76)) by (rewrite W; cbn [length]; lia).
    rewrite W; cbn [length app push_opcode]; f_equal; f_equal; f_equal; f_equal; lia.
Qed.

(** Asset data outputs: the asset and flag put on an address, or on all
    addresses of a restricted asset, are parsed back exactly, and so are
    verifier strings of up to 74 bytes.  Longer verifier strings, up to the
    80 bytes that are accepted, are parsed with one more letter in front,
    because the parser skips one byte of the two-byte push operation. *)
Theorem NullAsset_codec (Hash160 : bytes -> bytes) (Enc : CTxDestination -> bytes) (h v : bytes)
    (d : CNullAssetTxData) :
  length h = 20%nat -> valid_name (nd_asset_name d) -> in_s 8 (nd_flag d) ->
  (2 <= length (nd_asset_name d))%nat -> get (nd_asset_name d) 1 <> OP_HEMP_ASSET ->
  AssetNullDataFromScript Hash160 Enc
    (ConstructNullData d (GetScriptForNullAssetDataDestination (CKeyID h))) = Some (d, Enc (CKeyID h)) /\
  GlobalAssetNullDataFromScript (ConstructGlobalRestriction d []) = Some d /\
  (Z.of_nat (length v) <= 74 ->
   AssetNullVerifierDataFromScript (ConstructVerifier v []) = Some v) /\
  (75 <= Z.of_nat (length v) <= 80 ->
   AssetNullVerifierDataFromScript (ConstructVerifier v []) = Some (Z.of_nat (length v) :: v)).
Proof.
  intros Hh Hn Hf H2 Hc; split_all.
  - apply null_data_parses; assumption.
  - apply global_data_parses; auto; lia.
  - apply verifier_parses.
  - apply long_verifier_parses.
Qed.

(** A verifier of 75 letters [A] is read back as a [K] and 75 letters [A]. *)
Lemma NullAsset_codec_witness :
  AssetNullDataFromScript (fun k => k) (fun _ => [82])
    (ConstructNullData (mkNullData [35; 75; 89; 67] 1) (GetScriptForNullAssetDataDestination (CKeyID (repeat 9 20))))
    = Some (mkNullData [35; 75; 89; 67] 1, [82]) /\
  AssetNullVerifierDataFromScript (ConstructVerifier [75; 89; 67] []) = Some [75; 89; 67] /\
  AssetNullVerifierDataFromScript (ConstructVerifier (repeat 65 75) []) = Some (75 :: repeat 65 75).
Proof.
  assert (Hn : valid_name [35; 75; 89; 67]).
  { split; [discriminate | repeat constructor; unfold in_u; lia]. }
  assert (Hf : in_s 8 1) by (unfold in_s; lia).
  pose proof (fun v => NullAsset_codec (fun k => k) (fun _ => [82]) (repeat 9 20) v (mkNullData [35; 75; 89; 67] 1)
    eq_refl Hn Hf ltac:(cbn; lia) ltac:(discriminate)) as H.
  split_all.
  - apply (H []).
  - apply (H [75; 89; 67]); discriminate.
  - apply (H (repeat 65 75)); rewrite repeat_length; split; discriminate.
Defined.
