(* ===== verification/AssetNames.v ===== *)
(** Asset names (src/assets/assets.cpp, lines 44 to 437; the types of
    src/assets/assettypes.h): which strings name an asset, of which type, and
    how the names of related assets are derived.

    A string is its list of character codes.  [std::regex_match] is modelled
    by a matcher for regular expressions (character classes, concatenation,
    alternation, repetition), which decides the language of the expression;
    the anchors at the two ends say nothing more when a whole string is
    matched.  [boost::split] is [split]. *)

From Stdlib Require Import ZArith String Ascii List Bool Lia Arith.
From S2P Require Import Prelude Serialize Script Standard AssetTypes.
Import ListNotations.
Open Scope Z_scope.

Definition code (c : ascii) : Z := Z.of_nat (nat_of_ascii c).
Definition str (s : string) : bytes := map code (list_ascii_of_string s).

(** * Regular expressions *)

Inductive regex :=
| Empty
| Eps
| Class (f : Z -> bool)
| Seq (r1 r2 : regex)
| Alt (r1 r2 : regex)
| Star (r : regex).

Fixpoint nullable (r : regex) : bool :=
  match r with
  | Empty => false
  | Eps => true
  | Class _ => false
  | Seq r1 r2 => nullable r1 && nullable r2
  | Alt r1 r2 => nullable r1 || nullable r2
  | Star _ => true
  end.

(** What is left to match after one character. *)
Fixpoint derive (c : Z) (r : regex) : regex :=
  match r with
  | Empty | Eps => Empty
  | Class f => if f c then Eps else Empty
  | Seq r1 r2 =>
      if nullable r1 then Alt (Seq (derive c r1) r2) (derive c r2) else Seq (derive c r1) r2
  | Alt r1 r2 => Alt (derive c r1) (derive c r2)
  | Star r1 => Seq (derive c r1) (Star r1)
  end.

Fixpoint regex_match (s : bytes) (r : regex) : bool :=
  match s with
  | [] => nullable r
  | c :: s' => regex_match s' (derive c r)
  end.

Definition Plus (r : regex) : regex := Seq r (Star r).
Fixpoint Repeat (n : nat) (r : regex) : regex :=
  match n with O => Eps | S n' => Seq r (Repeat n' r) end.
(** [r{n,}] *)
Definition AtLeast (n : nat) (r : regex) : regex := Seq (Repeat n r) (Star r).
Fixpoint Literal (s : bytes) : regex :=
  match s with [] => Eps | c :: s' => Seq (Class (Z.eqb c)) (Literal s') end.

(** Sets of characters. *)
Definition one_of (s : string) (c : Z) : bool := existsb (Z.eqb c) (str s).
Definition between (a b : ascii) (c : Z) : bool := (code a <=? c) && (c <=? code b).
Definition none_of (s : string) (c : Z) : bool := negb (one_of s c).
(** [.] of the ECMAScript grammar: anything but the line terminators. *)
Definition dot (c : Z) : bool := negb (c =? 10) && negb (c =? 13).

(** * The expressions of the code *)

(** [[A-Z0-9._]] *)
Definition name_char (c : Z) : bool := between "A" "Z" c || between "0" "9" c || one_of "._" c.
Definition alnum_char (c : Z) : bool := between "A" "Z" c || between "a" "z" c || between "0" "9" c.
Definition punctuation (c : Z) : bool := one_of "._" c.

Definition MAX_NAME_LENGTH : Z := 31.
Definition MAX_CHANNEL_NAME_LENGTH : Z := 12.
Definition MIN_ASSET_LENGTH : Z := 3.

Definition ROOT_NAME_CHARACTERS : regex := AtLeast 3 (Class name_char).
Definition SUB_NAME_CHARACTERS : regex := Plus (Class name_char).
Definition UNIQUE_TAG_CHARACTERS : regex :=
  Plus (Class (fun c => alnum_char c || one_of "-@$%&*()[]{}_.?:" c)).
Definition MSG_CHANNEL_TAG_CHARACTERS : regex := Plus (Class (fun c => alnum_char c || one_of "_" c)).
Definition VOTE_TAG_CHARACTERS : regex := Plus (Class name_char).

Definition QUALIFIER_NAME_CHARACTERS : regex := Seq (Literal (str "#")) (AtLeast 3 (Class name_char)).
Definition SUB_QUALIFIER_NAME_CHARACTERS : regex := Seq (Literal (str "#")) (Plus (Class name_char)).
Definition RESTRICTED_NAME_CHARACTERS : regex := Seq (Literal (str "$")) (AtLeast 3 (Class name_char)).

Definition DOUBLE_PUNCTUATION : regex :=
  Seq (Star (Class dot)) (Seq (AtLeast 2 (Class punctuation)) (Star (Class dot))).
Definition LEADING_PUNCTUATION : regex := Seq (Class punctuation) (Star (Class dot)).
Definition TRAILING_PUNCTUATION : regex := Seq (Star (Class dot)) (Class punctuation).
Definition QUALIFIER_LEADING_PUNCTUATION : regex :=
  Seq (Class (one_of "#$")) (Seq (Class punctuation) (Star (Class dot))).

Definition SUB_NAME_DELIMITER : Z := code "/".
Definition UNIQUE_TAG_DELIMITER : Z := code "#".
Definition MSG_CHANNEL_TAG_DELIMITER : Z := code "~".
Definition VOTE_TAG_DELIMITER : Z := code "^".

Definition UNIQUE_INDICATOR : regex :=
  Seq (Plus (Class (none_of "^~#!"))) (Seq (Literal (str "#")) (Plus (Class (none_of "~#!/")))).
Definition MSG_CHANNEL_INDICATOR : regex :=
  Seq (Plus (Class (none_of "^~#!"))) (Seq (Literal (str "~")) (Plus (Class (none_of "~#!/")))).
Definition OWNER_INDICATOR : regex := Seq (Plus (Class (none_of "^~#!"))) (Literal (str "!")).
Definition VOTE_INDICATOR : regex :=
  Seq (Plus (Class (none_of "^~#!"))) (Seq (Literal (str "^")) (Plus (Class (none_of "~#!/")))).

Definition QUALIFIER_INDICATOR : regex := Seq (Literal (str "#")) (AtLeast 3 (Class name_char)).
Definition SUB_QUALIFIER_INDICATOR : regex :=
  Seq (Literal (str "#")) (Seq (Plus (Class name_char)) (Seq (Literal (str "/#")) (Plus (Class name_char)))).
Definition RESTRICTED_INDICATOR : regex := Seq (Literal (str "$")) (AtLeast 3 (Class name_char)).

Definition HEMP_NAMES : regex :=
  fold_right (fun s r => Alt (Literal (str s)) r) Empty
    ["HEMP"; "HEMP0X"; "H0X"; "HEMPCOIN"; "#HEMP"; "#HEMP0X"; "#H0X"; "#HEMPCOIN"]%string.

(** * Parts of names *)

Definition IsRootNameValid (name : bytes) : bool :=
  regex_match name ROOT_NAME_CHARACTERS && negb (regex_match name DOUBLE_PUNCTUATION) &&
  negb (regex_match name LEADING_PUNCTUATION) && negb (regex_match name TRAILING_PUNCTUATION) &&
  negb (regex_match name HEMP_NAMES).

Definition IsQualifierNameValid (name : bytes) : bool :=
  regex_match name QUALIFIER_NAME_CHARACTERS && negb (regex_match name DOUBLE_PUNCTUATION) &&
  negb (regex_match name QUALIFIER_LEADING_PUNCTUATION) && negb (regex_match name TRAILING_PUNCTUATION) &&
  negb (regex_match name HEMP_NAMES).

Definition IsRestrictedNameValid (name : bytes) : bool :=
  regex_match name RESTRICTED_NAME_CHARACTERS && negb (regex_match name DOUBLE_PUNCTUATION) &&
  negb (regex_match name LEADING_PUNCTUATION) && negb (regex_match name TRAILING_PUNCTUATION) &&
  negb (regex_match name HEMP_NAMES).

Definition IsSubQualifierNameValid (name : bytes) : bool :=
  regex_match name SUB_QUALIFIER_NAME_CHARACTERS && negb (regex_match name DOUBLE_PUNCTUATION) &&
  negb (regex_match name LEADING_PUNCTUATION) && negb (regex_match name TRAILING_PUNCTUATION).

Definition IsSubNameValid (name : bytes) : bool :=
  regex_match name SUB_NAME_CHARACTERS && negb (regex_match name DOUBLE_PUNCTUATION) &&
  negb (regex_match name LEADING_PUNCTUATION) && negb (regex_match name TRAILING_PUNCTUATION).

Definition IsUniqueTagValid (tag : bytes) : bool := regex_match tag UNIQUE_TAG_CHARACTERS.
Definition IsVoteTagValid (tag : bytes) : bool := regex_match tag VOTE_TAG_CHARACTERS.

Definition IsMsgChannelTagValid (tag : bytes) : bool :=
  regex_match tag MSG_CHANNEL_TAG_CHARACTERS && negb (regex_match tag DOUBLE_PUNCTUATION) &&
  negb (regex_match tag LEADING_PUNCTUATION) && negb (regex_match tag TRAILING_PUNCTUATION).

(** [boost::split] at one character: always at least one part. *)
Fixpoint split (d : Z) (s : bytes) : list bytes :=
  match s with
  | [] => [[]]
  | c :: s' =>
      if c =? d then [] :: split d s'
      else match split d s' with
           | p :: ps => (c :: p) :: ps
           | [] => [[c]]
           end
  end.

Definition front (parts : list bytes) : bytes := hd [] parts.
Definition part_back (parts : list bytes) : bytes := last parts [].

Definition IsNameValidBeforeTag (name : bytes) : bool :=
  let parts := split SUB_NAME_DELIMITER name in
  IsRootNameValid (front parts) && forallb IsSubNameValid (tl parts).

Definition IsQualifierNameValidBeforeTag (name : bytes) : bool :=
  let parts := split SUB_NAME_DELIMITER name in
  if negb (IsQualifierNameValid (front parts)) then false
  else if (2 <? length parts)%nat then false
  else forallb IsSubQualifierNameValid (tl parts).

Definition IsAssetNameASubasset (name : bytes) : bool :=
  let parts := split SUB_NAME_DELIMITER name in
  IsRootNameValid (front parts) && (1 <? length parts)%nat.

Definition IsAssetNameASubQualifier (name : bytes) : bool :=
  let parts := split SUB_NAME_DELIMITER name in
  IsQualifierNameValid (front parts) && (1 <? length parts)%nat.

(** * Whole names *)

Inductive AssetType :=
| ROOT | SUB | UNIQUE | MSGCHANNEL | QUALIFIER | SUB_QUALIFIER | RESTRICTED | VOTE | REISSUE | OWNER
| NULL_ADD_QUALIFIER | INVALID.

(** The messages of [IsTypeCheckNameValid]; [NameOverlong] is the first check
    of [IsAssetNameValid], which sets no message. *)
Inductive name_error :=
| NameOverlong | NameTooLong | NameTooShort | ChannelTooLong | UniqueInvalid | ChannelInvalid
| OwnerInvalid | VoteInvalid | QualifierInvalid | RestrictedInvalid | NameInvalid.

Definition check_name (valid : bool) (e : name_error) : result name_error unit :=
  if negb valid then Err e else Ok tt.

Definition name_size (name : bytes) : Z := Z.of_nat (length name).

Definition IsTypeCheckNameValid (type : AssetType) (name : bytes) : result name_error unit :=
  match type with
  | UNIQUE =>
      if name_size name >? MAX_NAME_LENGTH then Err NameTooLong
      else
        let parts := split UNIQUE_TAG_DELIMITER name in
        check_name (IsNameValidBeforeTag (front parts) && IsUniqueTagValid (part_back parts)) UniqueInvalid
  | MSGCHANNEL =>
      if name_size name >? MAX_NAME_LENGTH then Err NameTooLong
      else
        let parts := split MSG_CHANNEL_TAG_DELIMITER name in
        let valid := IsNameValidBeforeTag (front parts) && IsMsgChannelTagValid (part_back parts) in
        if name_size (part_back parts) >? MAX_CHANNEL_NAME_LENGTH then Err ChannelTooLong
        else check_name valid ChannelInvalid
  | OWNER =>
      if name_size name >? MAX_NAME_LENGTH then Err NameTooLong
      else check_name (IsNameValidBeforeTag (firstn (length name - 1) name)) OwnerInvalid
  | VOTE =>
      if name_size name >? MAX_NAME_LENGTH then Err NameTooLong
      else
        let parts := split VOTE_TAG_DELIMITER name in
        check_name (IsNameValidBeforeTag (front parts) && IsVoteTagValid (part_back parts)) VoteInvalid
  | QUALIFIER | SUB_QUALIFIER =>
      if name_size name >? MAX_NAME_LENGTH then Err NameTooLong
      else check_name (IsQualifierNameValidBeforeTag name) QualifierInvalid
  | RESTRICTED =>
      if name_size name >? MAX_NAME_LENGTH then Err NameTooLong
      else check_name (IsRestrictedNameValid name) RestrictedInvalid
  | _ =>
      if name_size name >? MAX_NAME_LENGTH - 1 then Err NameTooLong
      else if negb (IsAssetNameASubasset name) && (name_size name <? MIN_ASSET_LENGTH) then Err NameTooShort
      else
        let valid := IsNameValidBeforeTag name in
        if negb valid && IsAssetNameASubasset name && (name_size name <? 3) then Err NameTooShort
        else check_name valid NameInvalid
  end.

(** [IsAssetNameValid]: the type where the code returns true. *)
Definition IsAssetNameValid (name : bytes) : result name_error AssetType :=
  if name_size name >? 40 then Err NameOverlong
  else if regex_match name UNIQUE_INDICATOR then
    let! _ := IsTypeCheckNameValid UNIQUE name in Ok UNIQUE
  else if regex_match name MSG_CHANNEL_INDICATOR then
    let! _ := IsTypeCheckNameValid MSGCHANNEL name in Ok MSGCHANNEL
  else if regex_match name OWNER_INDICATOR then
    let! _ := IsTypeCheckNameValid OWNER name in Ok OWNER
  else if regex_match name VOTE_INDICATOR then
    let! _ := IsTypeCheckNameValid VOTE name in Ok VOTE
  else if regex_match name QUALIFIER_INDICATOR then
    let! _ := IsTypeCheckNameValid QUALIFIER name in
    Ok (if IsAssetNameASubQualifier name then SUB_QUALIFIER else QUALIFIER)
  else if regex_match name SUB_QUALIFIER_INDICATOR then
    let! _ := IsTypeCheckNameValid SUB_QUALIFIER name in
    Ok (if IsAssetNameASubQualifier name then SUB_QUALIFIER else INVALID)
  else if regex_match name RESTRICTED_INDICATOR then
    let! _ := IsTypeCheckNameValid RESTRICTED name in Ok RESTRICTED
  else
    let type := if IsAssetNameASubasset name then SUB else ROOT in
    let! _ := IsTypeCheckNameValid type name in Ok type.

Definition name_valid (name : bytes) : bool :=
  match IsAssetNameValid name with Ok _ => true | Err _ => false end.

Definition IsAssetNameARoot (name : bytes) : bool :=
  match IsAssetNameValid name with Ok ROOT => true | _ => false end.
Definition IsAssetNameAnOwner (name : bytes) : bool := name_valid name && regex_match name OWNER_INDICATOR.
Definition IsAssetNameAnRestricted (name : bytes) : bool :=
  name_valid name && regex_match name RESTRICTED_INDICATOR.
Definition IsAssetNameAQualifier (name : bytes) (fOnlyQualifiers : bool) : bool :=
  if fOnlyQualifiers then name_valid name && regex_match name QUALIFIER_INDICATOR
  else name_valid name && (regex_match name QUALIFIER_INDICATOR || regex_match name SUB_QUALIFIER_INDICATOR).
Definition IsAssetNameAnMsgChannel (name : bytes) : bool :=
  name_valid name && regex_match name MSG_CHANNEL_INDICATOR.

Definition RestrictedNameToOwnerName (name : bytes) : bytes :=
  if negb (IsAssetNameAnRestricted name) then [] else skipn 1 name ++ OWNER_TAG.

(** [name.find_last_of(d)] *)
Fixpoint find_last_of (d : Z) (s : bytes) : option nat :=
  match s with
  | [] => None
  | c :: s' =>
      match find_last_of d s' with
      | Some i => Some (S i)
      | None => if c =? d then Some O else None
      end
  end.

Definition GetParentName (name : bytes) : bytes :=
  match IsAssetNameValid name with
  | Err _ => []
  | Ok type =>
      let upto d := match find_last_of d name with Some index => firstn index name | None => name end in
      match type with
      | SUB | SUB_QUALIFIER => upto SUB_NAME_DELIMITER
      | UNIQUE => upto UNIQUE_TAG_DELIMITER
      | MSGCHANNEL => upto MSG_CHANNEL_TAG_DELIMITER
      | VOTE => upto VOTE_TAG_DELIMITER
      | _ => name
      end
  end.

Definition GetUniqueAssetName (parent tag : bytes) : bytes :=
  let unique := parent ++ str "#" ++ tag in
  match IsAssetNameValid unique with Ok UNIQUE => unique | _ => [] end.

(** * The matcher decides the language *)

Inductive matches : bytes -> regex -> Prop :=
| m_eps : matches [] Eps
| m_class c f : f c = true -> matches [c] (Class f)
| m_seq s1 s2 r1 r2 : matches s1 r1 -> matches s2 r2 -> matches (s1 ++ s2) (Seq r1 r2)
| m_alt_l s r1 r2 : matches s r1 -> matches s (Alt r1 r2)
| m_alt_r s r1 r2 : matches s r2 -> matches s (Alt r1 r2)
| m_star_nil r : matches [] (Star r)
| m_star_app s1 s2 r : matches s1 r -> matches s2 (Star r) -> matches (s1 ++ s2) (Star r).

#[export] Hint Constructors matches : hemp.

Lemma nullable_correct (r : regex) : nullable r = true <-> matches [] r.
Proof.
  split.
  - induction r; cbn [nullable]; intros H; try discriminate; auto with hemp.
    + apply andb_prop in H; destruct H; change (@nil Z) with (@nil Z ++ []); auto with hemp.
    + apply orb_prop in H; destruct H; auto with hemp.
  - intros M; remember [] as s eqn:Es; induction M; cbn [nullable]; try discriminate; auto.
    + apply app_eq_nil in Es; destruct Es as [-> ->]; rewrite IHM1, IHM2; reflexivity.
    + rewrite IHM by exact Es; reflexivity.
    + rewrite IHM by exact Es; apply orb_true_r.
Qed.

Lemma star_cons (c : Z) (s : bytes) (r : regex) : matches (c :: s) (Star r) ->
  exists s1 s2, s = s1 ++ s2 /\ matches (c :: s1) r /\ matches s2 (Star r).
Proof.
  intros M; remember (c :: s) as t eqn:Et; remember (Star r) as q eqn:Eq; revert c s Et.
  induction M as [| | | | | | s1 s2 r' M1 _ M2 IH2]; intros c0 s0 Et; try discriminate; injection Eq as ->.
  destruct s1 as [| x s1]; [apply IH2; auto |]; injection Et as -> <-; eauto.
Qed.

Lemma derive_correct (c : Z) (r : regex) : forall s, matches s (derive c r) <-> matches (c :: s) r.
Proof.
  induction r as [| | f | r1 IH1 r2 IH2 | r1 IH1 r2 IH2 | r IH]; intros s; cbn [derive].
  - split; intros M; inversion M.
  - split; intros M; inversion M.
  - destruct (f c) eqn:E; split; intros M; inversion M; subst; auto with hemp; congruence.
  - assert (Hseq : matches s (Seq (derive c r1) r2) <->
      exists s1 s2, s = s1 ++ s2 /\ matches (c :: s1) r1 /\ matches s2 r2).
    { split.
      - intros M; inversion M as [| | s1 s2 ? ? M1 M2 | | | |]; subst; exists s1, s2; split_all; auto; apply IH1, M1.
      - intros (s1 & s2 & -> & M1 & M2); constructor; [apply IH1, M1 | exact M2]. }
    assert (Hcons : matches (c :: s) (Seq r1 r2) <->
      (exists s1 s2, s = s1 ++ s2 /\ matches (c :: s1) r1 /\ matches s2 r2) \/ (matches [] r1 /\ matches (c :: s) r2)).
    { split.
      - intros M; inversion M as [| | s1 s2 ? ? M1 M2 E | | | |]; subst; destruct s1 as [| x s1];
          [right; cbn [app] in *; subst; auto | left; injection E as -> <-; eauto].
      - intros [(s1 & s2 & -> & M1 & M2) | [M1 M2]].
        + change (c :: s1 ++ s2) with ((c :: s1) ++ s2); auto with hemp.
        + change (c :: s) with ([] ++ c :: s); auto with hemp. }
    destruct (nullable r1) eqn:En; rewrite Hcons, <- Hseq.
    + apply nullable_correct in En; split; intros M.
      * inversion M; subst; [left; assumption | right; split; [exact En | apply IH2; assumption]].
      * destruct M as [M | [_ M]]; [apply m_alt_l, M | apply m_alt_r, IH2, M].
    + split; [auto |]; intros [M | [M _]]; [exact M | apply nullable_correct in M; congruence].
  - split; intros M; inversion M; subst.
    + apply m_alt_l, IH1; assumption.
    + apply m_alt_r, IH2; assumption.
    + apply m_alt_l, IH1; assumption.
    + apply m_alt_r, IH2; assumption.
  - split; intros M.
    + inversion M as [| | s1 s2 ? ? M1 M2 | | | |]; subst; change (c :: s1 ++ s2) with ((c :: s1) ++ s2).
      constructor; [apply IH, M1 | exact M2].
    + apply star_cons in M; destruct M as (s1 & s2 & -> & M1 & M2); constructor; [apply IH, M1 | exact M2].
Qed.

Lemma regex_match_correct (s : bytes) : forall r, regex_match s r = true <-> matches s r.
Proof.
  induction s as [| c s IH]; intros r; cbn [regex_match]; [apply nullable_correct |].
  rewrite IH; apply derive_correct.
Qed.

(** * Shapes of the languages used *)

Lemma matches_seq (s : bytes) (r1 r2 : regex) :
  matches s (Seq r1 r2) <-> exists s1 s2, s = s1 ++ s2 /\ matches s1 r1 /\ matches s2 r2.
Proof.
  split; [intros M; inversion M; subst; eauto | intros (s1 & s2 & -> & M1 & M2); auto with hemp].
Qed.

Lemma matches_star_class (f : Z -> bool) (s : bytes) : matches s (Star (Class f)) <-> forallb f s = true.
Proof.
  split.
  - induction s as [| c s IH]; intros M; [reflexivity |]; apply star_cons in M.
    destruct M as (s1 & s2 & -> & M1 & M2); inversion M1 as [| x g Hx | | | | |]; subst; cbn [app forallb] in *.
    rewrite Hx; apply IH, M2.
  - induction s as [| c s IH]; intros H; [constructor |]; cbn [forallb] in H; apply andb_prop in H.
    change (c :: s) with ([c] ++ s); apply m_star_app; [apply m_class | apply IH]; apply H.
Qed.

Lemma matches_plus_class (f : Z -> bool) (s : bytes) :
  matches s (Plus (Class f)) <-> s <> [] /\ forallb f s = true.
Proof.
  unfold Plus; rewrite matches_seq; split.
  - intros (s1 & s2 & -> & M1 & M2); inversion M1 as [| x g Hx | | | | |]; subst; apply matches_star_class in M2.
    split; [discriminate |]; cbn [app forallb]; rewrite Hx; exact M2.
  - intros [Hn H]; destruct s as [| c s]; [contradiction |]; cbn [forallb] in H; apply andb_prop in H.
    exists [c], s; split; [reflexivity |]; split; [apply m_class, H | apply matches_star_class, H].
Qed.

Lemma matches_repeat_class (f : Z -> bool) (n : nat) : forall s,
  matches s (Repeat n (Class f)) <-> length s = n /\ forallb f s = true.
Proof.
  induction n as [| n IH]; intros s; cbn [Repeat].
  - split; [intros M; inversion M; auto |]; intros [Hl _]; destruct s; [constructor | discriminate].
  - rewrite matches_seq; split.
    + intros (s1 & s2 & -> & M1 & M2); inversion M1 as [| x g Hx | | | | |]; subst; apply IH in M2; destruct M2 as [<- M2].
      cbn [app length forallb]; rewrite Hx; auto.
    + intros [Hl H]; destruct s as [| c s]; [discriminate |]; cbn [forallb] in H; apply andb_prop in H.
      exists [c], s; split; [reflexivity |]; split; [apply m_class, H |].
      apply IH; injection Hl as Hl; split; [exact Hl | apply H].
Qed.

Lemma matches_atleast_class (f : Z -> bool) (n : nat) (s : bytes) :
  matches s (AtLeast n (Class f)) <-> (n <= length s)%nat /\ forallb f s = true.
Proof.
  unfold AtLeast; rewrite matches_seq; split.
  - intros (s1 & s2 & -> & M1 & M2); apply matches_repeat_class in M1; apply matches_star_class in M2.
    rewrite forallb_app, length_app; destruct M1 as [<- ->]; rewrite M2; split; [lia | reflexivity].
  - intros [Hl H]; exists (firstn n s), (skipn n s); rewrite <- (firstn_skipn n s), forallb_app in H at 1.
    apply andb_prop in H; split; [symmetry; apply firstn_skipn |]; split.
    + apply matches_repeat_class; rewrite length_firstn; split; [lia | apply H].
    + apply matches_star_class, H.
Qed.

Lemma matches_literal (l : bytes) : forall s, matches s (Literal l) <-> s = l.
Proof.
  induction l as [| c l IH]; intros s; cbn [Literal].
  - split; [intros M; inversion M; reflexivity | intros ->; constructor].
  - rewrite matches_seq; split.
    + intros (s1 & s2 & -> & M1 & M2); inversion M1 as [| x g Hx | | | | |]; subst; apply IH in M2; subst.
      apply Z.eqb_eq in Hx; subst; reflexivity.
    + intros ->; exists [c], l; split; [reflexivity |]; split; [apply m_class, Z.eqb_refl | apply IH; reflexivity].
Qed.

(** * Splitting *)

Definition free (d : Z) (s : bytes) : bool := forallb (fun c => negb (c =? d)) s.

Lemma split_nonempty (d : Z) (s : bytes) : split d s <> [].
Proof. destruct s as [| c s]; cbn [split]; [discriminate |]; destruct (c =? d), (split d s); discriminate. Qed.

Lemma split_free (d : Z) (s : bytes) : free d s = true -> split d s = [s].
Proof.
  induction s as [| c s IH]; [reflexivity |]; unfold free; cbn [forallb split]; intros H.
  apply andb_prop in H; destruct H as [Hc H]; apply negb_true_iff in Hc; rewrite Hc, IH by exact H; reflexivity.
Qed.

Lemma split_app (d : Z) (t : bytes) : free d t = true -> forall p, split d (p ++ d :: t) = split d p ++ [t].
Proof.
  intros Ht; induction p as [| c p IH]; cbn [app split].
  - rewrite Z.eqb_refl, split_free by exact Ht; reflexivity.
  - rewrite IH; destruct (c =? d); [reflexivity |].
    pose proof (split_nonempty d p); destruct (split d p) as [| q qs]; [contradiction | reflexivity].
Qed.

(** The last delimiter splits a name in two. *)
Lemma last_delimiter (d : Z) (s : bytes) :
  (free d s = true /\ find_last_of d s = None) \/
  (exists p t, s = p ++ d :: t /\ free d t = true /\ find_last_of d s = Some (length p)).
Proof.
  induction s as [| c s IH]; [left; split; reflexivity |].
  destruct IH as [[Hf Hn] | (p & t & -> & Ht & Hs)]; cbn [find_last_of].
  - rewrite Hn; destruct (Z.eqb_spec c d) as [-> | Hc].
    + right; exists [], s; auto.
    + left; unfold free; cbn [forallb]; rewrite (proj2 (Z.eqb_neq c d)) by exact Hc; auto.
  - right; exists (c :: p), t; rewrite Hs; auto.
Qed.

Lemma find_last_app (d : Z) (p t : bytes) : free d t = true -> find_last_of d (p ++ d :: t) = Some (length p).
Proof.
  intros Ht; destruct (last_delimiter d (p ++ d :: t)) as [[Hf _] | (p' & t' & E & Ht' & Hs)].
  - unfold free in Hf; rewrite forallb_app in Hf; cbn [forallb] in Hf; rewrite Z.eqb_refl in Hf.
    rewrite andb_false_r in Hf; discriminate.
  - rewrite Hs; f_equal; pose proof (split_app d t Ht p) as E1; pose proof (split_app d t' Ht' p') as E2.
    rewrite <- E, E1 in E2; apply app_inj_tail in E2; destruct E2 as [_ ->].
    apply app_inv_tail in E; subst; reflexivity.
Qed.

Lemma split_chars (f : Z -> bool) (d : Z) (s : bytes) : forallb (forallb f) (split d s) = true ->
  forallb (fun c => f c || (c =? d)) s = true.
Proof.
  induction s as [| c s IH]; [reflexivity |]; cbn [split forallb]; destruct (c =? d) eqn:E.
  - rewrite orb_true_r; cbn [forallb andb]; exact IH.
  - pose proof (split_nonempty d s); destruct (split d s) as [| q qs]; [contradiction |].
    cbn [forallb]; intros Hb; apply andb_prop in Hb; destruct Hb as [Hb H2]; apply andb_prop in Hb; destruct Hb as [Hc Hq].
    rewrite Hc; cbn [orb andb]; apply IH; cbn [forallb]; rewrite Hq, H2; reflexivity.
Qed.

(** * Plain names: roots and their sub-assets *)

Definition plain_char (c : Z) : bool := name_char c || (c =? SUB_NAME_DELIMITER).

Lemma root_chars (s : bytes) : IsRootNameValid s = true -> (3 <= length s)%nat /\ forallb name_char s = true.
Proof.
  unfold IsRootNameValid; intros H; bool_to_prop.
  match goal with H : regex_match s _ = true |- _ => apply regex_match_correct, matches_atleast_class in H; exact H end.
Qed.

Lemma sub_chars (s : bytes) : IsSubNameValid s = true -> forallb name_char s = true.
Proof.
  unfold IsSubNameValid; intros H; bool_to_prop.
  match goal with H : regex_match s _ = true |- _ => apply regex_match_correct, matches_plus_class in H; apply H end.
Qed.

Lemma plain_name (n : bytes) : IsNameValidBeforeTag n = true ->
  forallb plain_char n = true /\ (3 <= length n)%nat.
Proof.
  unfold IsNameValidBeforeTag; cbv zeta; intros H; apply andb_prop in H; destruct H as [H1 H2].
  pose proof (split_nonempty SUB_NAME_DELIMITER n) as Hne.
  destruct (split SUB_NAME_DELIMITER n) as [| q qs] eqn:E; [contradiction |]; cbn [front hd tl] in *.
  apply root_chars in H1; destruct H1 as [Hl Hq]; split.
  - apply split_chars; rewrite E; cbn [forallb]; rewrite Hq; cbn [andb].
    apply forallb_forall; intros x Hx; apply sub_chars; exact (proj1 (forallb_forall _ _) H2 x Hx).
  - enough (length q <= length n)%nat by lia; clear - E; revert q qs E.
    induction n as [| c n IH]; intros q qs; cbn [split]; [intros [= <- _]; cbn; lia |].
    destruct (c =? _); [intros [= <- _]; cbn; lia |].
    destruct (split SUB_NAME_DELIMITER n) as [| r rs]; intros [= <- _]; cbn [length]; [lia |].
    specialize (IH _ _ eq_refl); lia.
Qed.

(** A class of characters that no plain character is in. *)
Lemma plain_excludes (c : Z) (n : bytes) : plain_char c = false -> forallb plain_char n = true -> ~ In c n.
Proof. intros Hc Hn Hi; pose proof (proj1 (forallb_forall _ _) Hn c Hi); congruence. Qed.

Lemma plain_none_of (n : bytes) : forallb plain_char n = true -> forallb (none_of "^~#!") n = true.
Proof.
  intros H; apply forallb_forall; intros c Hc; pose proof (proj1 (forallb_forall _ _) H c Hc) as Hp.
  unfold none_of, one_of; cbn [str list_ascii_of_string map existsb].
  repeat match goal with |- context [c =? code ?a] => destruct (Z.eqb_spec c (code a)) as [E |]; [subst; discriminate Hp |] end.
  reflexivity.
Qed.

Lemma tagged_contains (d : ascii) (s : bytes) (r1 r2 : regex) :
  matches s (Seq r1 (Seq (Literal [code d]) r2)) -> In (code d) s.
Proof.
  rewrite matches_seq; intros (s1 & s2 & -> & _ & M); apply matches_seq in M.
  destruct M as (s3 & s4 & -> & M & _); apply matches_literal in M; subst; apply in_app_iff; right; left; reflexivity.
Qed.

Lemma no_match (s : bytes) (r : regex) : ~ matches s r -> regex_match s r = false.
Proof. intros H; destruct (regex_match s r) eqn:E; [apply regex_match_correct in E; contradiction | reflexivity]. Qed.

(** A plain name matches none of the indicators. *)
Lemma plain_indicators (n : bytes) : forallb plain_char n = true ->
  Forall (fun r => regex_match n r = false)
    [UNIQUE_INDICATOR; MSG_CHANNEL_INDICATOR; OWNER_INDICATOR; VOTE_INDICATOR;
     QUALIFIER_INDICATOR; SUB_QUALIFIER_INDICATOR; RESTRICTED_INDICATOR].
Proof.
  intros Hp.
  assert (Hex : forall a, plain_char (code a) = false -> ~ In (code a) n)
    by (intros a Ha; apply plain_excludes; assumption).
  repeat constructor; apply no_match; intros M.
  - apply (Hex "#"%char); [reflexivity | exact (tagged_contains "#" _ _ _ M)].
  - apply (Hex "~"%char); [reflexivity | exact (tagged_contains "~" _ _ _ M)].
  - apply matches_seq in M; destruct M as (s1 & s2 & -> & _ & M); apply matches_literal in M; subst.
    apply (Hex "!"%char); [reflexivity | apply in_app_iff; right; left; reflexivity].
  - apply (Hex "^"%char); [reflexivity | exact (tagged_contains "^" _ _ _ M)].
  - apply matches_seq in M; destruct M as (s1 & s2 & -> & M & _); apply matches_literal in M; subst.
    apply (Hex "#"%char); [reflexivity | left; reflexivity].
  - apply matches_seq in M; destruct M as (s1 & s2 & -> & M & _); apply matches_literal in M; subst.
    apply (Hex "#"%char); [reflexivity | left; reflexivity].
  - apply matches_seq in M; destruct M as (s1 & s2 & -> & M & _); apply matches_literal in M; subst.
    apply (Hex "$"%char); [reflexivity | left; reflexivity].
Qed.

(** The names with a [$] are the valid names of their type. *)
Lemma restricted_type (n : bytes) : IsAssetNameAnRestricted n = true -> IsAssetNameValid n = Ok RESTRICTED.
Proof.
  unfold IsAssetNameAnRestricted, name_valid; intros H; apply andb_prop in H; destruct H as [V M].
  assert (Hn : forall z, In z n -> z = code "$" \/ name_char z = true).
  { apply regex_match_correct, matches_seq in M; destruct M as (s1 & s2 & -> & M1 & M2); apply matches_literal in M1; subst s1.
    apply matches_atleast_class in M2; destruct M2 as [_ F]; intros z [E|I]; [now left|].
    right; rewrite forallb_forall in F; exact (F _ I). }
  assert (Hx : forall a, (a = "#" \/ a = "~" \/ a = "!" \/ a = "^")%char -> ~ In (code a) n).
  { intros a Ha I; destruct (Hn _ I) as [N|N]; intuition (subst; discriminate). }
  assert (T : forall (d : ascii) r1 r2, (d = "#" \/ d = "~" \/ d = "!" \/ d = "^")%char ->
    regex_match n (Seq r1 (Seq (Literal [code d]) r2)) = false).
  { intros d r1 r2 Hd; apply no_match; intros K; exact (Hx d Hd (tagged_contains d _ _ _ K)). }
  assert (Q : forall r, regex_match n (Seq (Literal (str "#")) r) = false).
  { intros r; apply no_match; intros K; apply matches_seq in K; destruct K as (s1 & s2 & E & K & _).
    apply matches_literal in K; subst s1; apply (Hx "#"%char); [auto|rewrite E; now left]. }
  assert (W : regex_match n OWNER_INDICATOR = false).
  { apply no_match; intros K; apply matches_seq in K; destruct K as (s1 & s2 & E & _ & K).
    apply matches_literal in K; subst s2; apply (Hx "!"%char); [auto|]; rewrite E; apply in_app_iff; right; now left. }
  unfold IsAssetNameValid in *; destruct (_ >? 40); [discriminate|].
  unfold UNIQUE_INDICATOR, MSG_CHANNEL_INDICATOR, VOTE_INDICATOR, QUALIFIER_INDICATOR, SUB_QUALIFIER_INDICATOR in *.
  change (str "#") with [code "#"] in *; change (str "~") with [code "~"] in *; change (str "^") with [code "^"] in *.
  rewrite !T, !Q, W, M in * by auto; destruct (IsTypeCheckNameValid RESTRICTED n) as [[]|]; [reflexivity|discriminate].
Qed.

Definition is_plain_type (t : AssetType) : Prop := t = ROOT \/ t = SUB.

Lemma check_name_ok (b : bool) (e : name_error) : check_name b e = Ok tt <-> b = true.
Proof. unfold check_name; destruct b; cbn [negb]; split; congruence. Qed.

(** The checks for roots and sub-assets. *)
Lemma plain_type_check (t : AssetType) (n : bytes) : is_plain_type t ->
  IsTypeCheckNameValid t n = Ok tt <-> IsNameValidBeforeTag n = true /\ name_size n <= 30.
Proof.
  intros Ht; assert (E : IsTypeCheckNameValid t n = IsTypeCheckNameValid ROOT n)
    by (destruct Ht as [-> | ->]; reflexivity).
  rewrite E; cbn [IsTypeCheckNameValid]; unfold MAX_NAME_LENGTH, MIN_ASSET_LENGTH; rewrite Z.gtb_ltb.
  destruct (Z.ltb_spec (31 - 1) (name_size n)) as [Hl | Hl].
  { split; [discriminate | intros [_ H]; lia]. }
  split.
  - destruct (_ && _); [discriminate |]; destruct (_ && _ && _); [discriminate |].
    rewrite check_name_ok; intros ->; split; [reflexivity | lia].
  - intros [Hv _]; pose proof (plain_name n Hv) as [_ H3]; rewrite Hv; cbn [negb andb].
    assert ((name_size n <? 3) = false) as -> by (apply Z.ltb_ge; unfold name_size; lia).
    rewrite andb_false_r; reflexivity.
Qed.

Lemma plain_valid (n : bytes) : IsNameValidBeforeTag n = true -> name_size n <= 30 ->
  IsAssetNameValid n = Ok (if IsAssetNameASubasset n then SUB else ROOT).
Proof.
  intros Hv Hl; unfold IsAssetNameValid; rewrite Z.gtb_ltb, (proj2 (Z.ltb_ge _ _)) by lia.
  pose proof (plain_indicators n (proj1 (plain_name n Hv))) as Hi.
  repeat (apply Forall_cons_iff in Hi; destruct Hi as [E Hi]; rewrite E; clear E); cbv zeta.
  set (t := if IsAssetNameASubasset n then SUB else ROOT).
  rewrite (proj2 (plain_type_check t n ltac:(unfold t, is_plain_type; destruct (IsAssetNameASubasset n); auto)));
    [reflexivity | auto].
Qed.

Lemma plain_valid_inv (n : bytes) (t : AssetType) : is_plain_type t -> IsAssetNameValid n = Ok t ->
  IsNameValidBeforeTag n = true /\ name_size n <= 30 /\ t = if IsAssetNameASubasset n then SUB else ROOT.
Proof.
  intros Ht; unfold IsAssetNameValid; destruct (_ >? 40); [discriminate |].
  repeat match goal with
  | |- (if regex_match n ?r then _ else _) = _ -> _ =>
      destruct (regex_match n r);
      [intros R; apply bind_ok in R; destruct R as ([] & _ & R);
       destruct Ht as [-> | ->]; try discriminate R; destruct (IsAssetNameASubQualifier n); discriminate R |]
  end.
  cbv zeta; intros R; apply bind_ok in R; destruct R as ([] & R1 & R2); injection R2 as <-.
  apply plain_type_check in R1; [tauto | exact Ht].
Qed.

(** * Owner tokens *)

Lemma owner_first_branches (n : bytes) (d : ascii) :
  (d = "#" \/ d = "~")%char ->
  regex_match (n ++ OWNER_TAG)
    (Seq (Plus (Class (none_of "^~#!"))) (Seq (Literal [code d]) (Plus (Class (none_of "~#!/"))))) = false.
Proof.
  intros Hd; apply no_match; intros M; apply matches_seq in M; destruct M as (s1 & s2 & E & _ & M).
  apply matches_seq in M; destruct M as (s3 & s4 & -> & _ & M); apply matches_plus_class in M.
  destruct M as [Hne Hf]; destruct (exists_last Hne) as (u & x & ->).
  rewrite !app_assoc in E; apply app_inj_tail in E; destruct E as [_ <-].
  rewrite forallb_app in Hf; apply andb_prop in Hf; destruct Hf as [_ Hf]; discriminate Hf.
Qed.

Lemma owner_valid (n : bytes) :
  IsAssetNameValid (n ++ OWNER_TAG) = Ok OWNER <-> IsNameValidBeforeTag n = true /\ name_size n <= 30.
Proof.
  assert (Hs : name_size (n ++ OWNER_TAG) = name_size n + 1) by (unfold name_size; rewrite length_app; cbn; lia).
  assert (Ec : IsTypeCheckNameValid OWNER (n ++ OWNER_TAG) =
    if name_size n + 1 >? MAX_NAME_LENGTH then Err NameTooLong else check_name (IsNameValidBeforeTag n) OwnerInvalid).
  { cbn [IsTypeCheckNameValid]; rewrite Hs, length_app, Nat.add_sub, firstn_app, Nat.sub_diag, firstn_all.
    cbn [firstn]; rewrite app_nil_r; reflexivity. }
  unfold IsAssetNameValid; rewrite Hs.
  assert (regex_match (n ++ OWNER_TAG) UNIQUE_INDICATOR = false) as ->
    by exact (owner_first_branches n "#" (or_introl eq_refl)).
  assert (regex_match (n ++ OWNER_TAG) MSG_CHANNEL_INDICATOR = false) as ->
    by exact (owner_first_branches n "~" (or_intror eq_refl)).
  split.
  - destruct (_ >? 40); [discriminate |].
    destruct (regex_match _ OWNER_INDICATOR).
    + intros R; apply bind_ok in R; destruct R as ([] & R & _); rewrite Ec in R.
      destruct (_ >? _) eqn:El; [discriminate |]; apply check_name_ok in R; bool_to_prop.
      unfold MAX_NAME_LENGTH in El; split; [exact R | lia].
    + repeat match goal with
      | |- (if regex_match ?s ?r then _ else _) = _ -> _ =>
          destruct (regex_match s r);
          [intros R; apply bind_ok in R; destruct R as ([] & _ & R); try discriminate R;
           destruct (IsAssetNameASubQualifier _); discriminate R |]
      end.
      cbv zeta; intros R; apply bind_ok in R; destruct R as ([] & _ & R); destruct (IsAssetNameASubasset _); discriminate R.
  - intros [Hv Hl]; rewrite Z.gtb_ltb, (proj2 (Z.ltb_ge _ _)) by lia.
    pose proof (plain_name n Hv) as [Hp H3].
    assert (regex_match (n ++ OWNER_TAG) OWNER_INDICATOR = true) as ->.
    { apply regex_match_correct, matches_seq; exists n, OWNER_TAG; split; [reflexivity |]; split.
      - apply matches_plus_class; split; [intros ->; cbn in H3; lia | apply plain_none_of, Hp].
      - apply matches_literal; reflexivity. }
    rewrite Ec, Z.gtb_ltb, (proj2 (Z.ltb_ge _ _)) by (unfold MAX_NAME_LENGTH; lia); rewrite Hv; reflexivity.
Qed.

(** * Parents *)

Lemma split_single (d : Z) (s q : bytes) : split d s = [q] -> s = q /\ free d s = true.
Proof.
  revert q; induction s as [| c s IH]; intros q; cbn [split]; [intros [= <-]; auto |].
  destruct (c =? d) eqn:E; [pose proof (split_nonempty d s); destruct (split d s); [contradiction | discriminate] |].
  pose proof (split_nonempty d s); destruct (split d s) as [| r rs]; [contradiction |]; intros [= <- ->].
  destruct (IH r eq_refl) as [-> Hf]; split; [reflexivity |]; unfold free; cbn [forallb]; rewrite E; exact Hf.
Qed.

Lemma none_of_free (l : string) (d : ascii) (s : bytes) : one_of l (code d) = true ->
  forallb (none_of l) s = true -> free (code d) s = true.
Proof.
  intros Hd H; apply forallb_forall; intros c Hc; pose proof (proj1 (forallb_forall _ _) H c Hc) as Hn.
  destruct (Z.eqb_spec c (code d)) as [-> |]; [unfold none_of in Hn; rewrite Hd in Hn; discriminate | reflexivity].
Qed.

Lemma tagged_shape (d : ascii) (n : bytes) : (d = "#" \/ d = "~")%char ->
  regex_match n (Seq (Plus (Class (none_of "^~#!"))) (Seq (Literal [code d]) (Plus (Class (none_of "~#!/"))))) = true ->
  exists p t, n = p ++ code d :: t /\ free (code d) p = true /\ free (code d) t = true /\ t <> [].
Proof.
  intros Hd M; apply regex_match_correct, matches_seq in M; destruct M as (p & s2 & -> & M1 & M).
  apply matches_seq in M; destruct M as (s3 & t & -> & M2 & M3); apply matches_literal in M2; subst.
  apply matches_plus_class in M1, M3; exists p, t; split; [reflexivity |].
  split_all; [| | apply M3];
    eapply none_of_free; try apply M1; try apply M3; destruct Hd as [-> | ->]; reflexivity.
Qed.

Lemma tagged_split (d : Z) (p t : bytes) : free d p = true -> free d t = true ->
  split d (p ++ d :: t) = [p; t] /\ find_last_of d (p ++ d :: t) = Some (length p).
Proof.
  intros Hp Ht; rewrite split_app, split_free by assumption; split; [reflexivity | apply find_last_app, Ht].
Qed.

Ltac refute_branch R n :=
  repeat match type of R with
  | (if regex_match n ?r then _ else _) = _ =>
      destruct (regex_match n r) eqn:?;
      [try (apply bind_ok in R; destruct R as ([] & ? & R); first [discriminate R
            | destruct (IsAssetNameASubQualifier n); discriminate R]) |]
  end.

Lemma unique_inv (n : bytes) : IsAssetNameValid n = Ok UNIQUE ->
  exists p t, n = p ++ str "#" ++ t /\ free UNIQUE_TAG_DELIMITER t = true /\
    IsNameValidBeforeTag p = true /\ name_size p <= 29.
Proof.
  unfold IsAssetNameValid; intros R; destruct (_ >? 40); [discriminate |].
  destruct (regex_match n UNIQUE_INDICATOR) eqn:E.
  - apply bind_ok in R; destruct R as ([] & R & _).
    destruct (tagged_shape "#" n (or_introl eq_refl) E) as (p & t & -> & Hp & Ht & Hne).
    exists p, t; cbn [IsTypeCheckNameValid] in R; destruct (_ >? _) eqn:El; [discriminate |].
    destruct (tagged_split (code "#") p t Hp Ht) as [Es _]; unfold UNIQUE_TAG_DELIMITER in *.
    rewrite Es in R; apply check_name_ok, andb_prop in R; destruct R as [Hv _]; cbn [front hd] in Hv.
    bool_to_prop; unfold MAX_NAME_LENGTH, name_size in *; rewrite length_app in El; cbn [length] in El.
    destruct t; [contradiction |]; cbn [length] in El; split_all; auto; lia.
  - exfalso; refute_branch R n; cbv zeta in R.
    apply bind_ok in R; destruct R as ([] & _ & R); destruct (IsAssetNameASubasset n); discriminate R.
Qed.

Lemma channel_inv (n : bytes) : IsAssetNameValid n = Ok MSGCHANNEL ->
  exists p t, n = p ++ str "~" ++ t /\ free MSG_CHANNEL_TAG_DELIMITER t = true /\
    IsNameValidBeforeTag p = true /\ name_size p <= 29.
Proof.
  unfold IsAssetNameValid; intros R; destruct (_ >? 40); [discriminate |].
  destruct (regex_match n UNIQUE_INDICATOR); [apply bind_ok in R; destruct R as ([] & _ & R); discriminate R |].
  destruct (regex_match n MSG_CHANNEL_INDICATOR) eqn:E.
  - apply bind_ok in R; destruct R as ([] & R & _).
    destruct (tagged_shape "~" n (or_intror eq_refl) E) as (p & t & -> & Hp & Ht & Hne).
    exists p, t; cbn [IsTypeCheckNameValid] in R; destruct (_ >? MAX_NAME_LENGTH) eqn:El; [discriminate |].
    destruct (tagged_split (code "~") p t Hp Ht) as [Es _]; unfold MSG_CHANNEL_TAG_DELIMITER in *.
    rewrite Es in R; destruct (_ >? _) in R; [discriminate |].
    apply check_name_ok, andb_prop in R; destruct R as [Hv _]; cbn [front hd] in Hv.
    bool_to_prop; unfold MAX_NAME_LENGTH, name_size in *; rewrite length_app in El; cbn [length] in El.
    destruct t; [contradiction |]; cbn [length] in El; split_all; auto; lia.
  - exfalso; refute_branch R n; cbv zeta in R.
    apply bind_ok in R; destruct R as ([] & _ & R); destruct (IsAssetNameASubasset n); discriminate R.
Qed.

Lemma sub_inv (n : bytes) : IsAssetNameValid n = Ok SUB ->
  exists p t, n = p ++ str "/" ++ t /\ free SUB_NAME_DELIMITER t = true /\
    IsNameValidBeforeTag p = true /\ name_size p <= 29.
Proof.
  intros R; apply plain_valid_inv in R; [| right; reflexivity]; destruct R as (Hv & Hl & Hs).
  destruct (IsAssetNameASubasset n) eqn:Ha; [| discriminate].
  unfold IsAssetNameASubasset in Ha; cbv zeta in Ha; apply andb_prop in Ha; destruct Ha as [_ Hlen].
  destruct (last_delimiter SUB_NAME_DELIMITER n) as [[Hf _] | (p & t & -> & Ht & _)].
  { rewrite split_free in Hlen by exact Hf; discriminate. }
  exists p, t; split; [reflexivity |]; split; [exact Ht |].
  unfold IsNameValidBeforeTag in *; rewrite split_app in Hv by exact Ht; cbv zeta in *.
  pose proof (split_nonempty SUB_NAME_DELIMITER p); destruct (split SUB_NAME_DELIMITER p) as [| q qs]; [contradiction |].
  cbn [app front hd tl] in *; rewrite forallb_app in Hv; apply andb_prop in Hv; destruct Hv as [-> Hv].
  apply andb_prop in Hv; destruct Hv as [-> _]; split; [reflexivity |].
  unfold name_size in *; rewrite length_app in Hl; cbn [length] in Hl; lia.
Qed.

Lemma sub_qualifier_inv (n : bytes) : IsAssetNameValid n = Ok SUB_QUALIFIER ->
  IsQualifierNameValidBeforeTag n = true /\ IsAssetNameASubQualifier n = true /\ name_size n <= 31.
Proof.
  assert (Hc : forall t, t = QUALIFIER \/ t = SUB_QUALIFIER -> IsTypeCheckNameValid t n = Ok tt ->
    IsQualifierNameValidBeforeTag n = true /\ name_size n <= 31).
  { intros t Ht; assert (E : IsTypeCheckNameValid t n = IsTypeCheckNameValid QUALIFIER n)
      by (destruct Ht as [-> | ->]; reflexivity).
    rewrite E; cbn [IsTypeCheckNameValid]; destruct (_ >? _) eqn:El; [discriminate |].
    rewrite check_name_ok; bool_to_prop; unfold MAX_NAME_LENGTH in El; split; [assumption | lia]. }
  unfold IsAssetNameValid; intros R; destruct (_ >? 40); [discriminate |].
  destruct (regex_match n UNIQUE_INDICATOR); [apply bind_ok in R; destruct R as ([] & _ & R); discriminate R |].
  destruct (regex_match n MSG_CHANNEL_INDICATOR); [apply bind_ok in R; destruct R as ([] & _ & R); discriminate R |].
  destruct (regex_match n OWNER_INDICATOR); [apply bind_ok in R; destruct R as ([] & _ & R); discriminate R |].
  destruct (regex_match n VOTE_INDICATOR); [apply bind_ok in R; destruct R as ([] & _ & R); discriminate R |].
  destruct (regex_match n QUALIFIER_INDICATOR);
    [| destruct (regex_match n SUB_QUALIFIER_INDICATOR)].
  - apply bind_ok in R; destruct R as ([] & R1 & R).
    destruct (IsAssetNameASubQualifier n); [| discriminate]; apply Hc in R1; tauto.
  - apply bind_ok in R; destruct R as ([] & R1 & R).
    destruct (IsAssetNameASubQualifier n); [| discriminate]; apply Hc in R1; tauto.
  - exfalso; refute_branch R n; cbv zeta in R.
    apply bind_ok in R; destruct R as ([] & _ & R); destruct (IsAssetNameASubasset n); discriminate R.
Qed.

(** A name that starts with [#] matches none of the tagged forms. *)
Lemma hash_first (s : bytes) (r : regex) :
  regex_match (code "#" :: s) (Seq (Plus (Class (none_of "^~#!"))) r) = false.
Proof.
  apply no_match; intros M; apply matches_seq in M; destruct M as (s1 & s2 & E & M & _).
  apply matches_plus_class in M; destruct M as [Hne Hf]; destruct s1 as [| c s1]; [contradiction |].
  injection E as <- _; discriminate Hf.
Qed.

Lemma qualifier_valid (p : bytes) : IsQualifierNameValid p = true -> free SUB_NAME_DELIMITER p = true ->
  name_size p <= 31 -> IsAssetNameValid p = Ok QUALIFIER.
Proof.
  intros Hq Hf Hl; pose proof Hq as Hm; unfold IsQualifierNameValid in Hm; bool_to_prop.
  assert (Hr : regex_match p QUALIFIER_INDICATOR = true) by assumption.
  assert (exists s, p = code "#" :: s) as (s & ->).
  { apply regex_match_correct, matches_seq in Hr; destruct Hr as (s1 & s2 & -> & M & _).
    apply matches_literal in M; subst; eexists; reflexivity. }
  unfold IsAssetNameValid; rewrite Z.gtb_ltb, (proj2 (Z.ltb_ge _ _)) by lia.
  unfold UNIQUE_INDICATOR, MSG_CHANNEL_INDICATOR, OWNER_INDICATOR, VOTE_INDICATOR; rewrite !hash_first, Hr.
  cbn [IsTypeCheckNameValid]; rewrite Z.gtb_ltb, (proj2 (Z.ltb_ge _ _)) by (unfold MAX_NAME_LENGTH; lia).
  unfold IsQualifierNameValidBeforeTag, IsAssetNameASubQualifier; rewrite split_free by exact Hf.
  cbn [front hd tl length]; rewrite Hq; reflexivity.
Qed.

Lemma sub_qualifier_parent (n : bytes) : IsAssetNameValid n = Ok SUB_QUALIFIER ->
  exists p t, n = p ++ str "/" ++ t /\ free SUB_NAME_DELIMITER t = true /\ IsAssetNameValid p = Ok QUALIFIER.
Proof.
  intros R; apply sub_qualifier_inv in R; destruct R as (Hv & Hs & Hl).
  unfold IsAssetNameASubQualifier in Hs; cbv zeta in Hs; apply andb_prop in Hs; destruct Hs as [_ Hlen].
  destruct (last_delimiter SUB_NAME_DELIMITER n) as [[Hf _] | (p & t & -> & Ht & _)].
  { rewrite split_free in Hlen by exact Hf; discriminate. }
  exists p, t; split; [reflexivity |]; split; [exact Ht |].
  unfold IsQualifierNameValidBeforeTag in Hv; rewrite split_app in Hv by exact Ht; cbv zeta in Hv.
  pose proof (split_nonempty SUB_NAME_DELIMITER p).
  destruct (split SUB_NAME_DELIMITER p) as [| q [| q' qs]] eqn:E; [contradiction | |].
  - cbn [app front hd tl] in Hv; destruct (IsQualifierNameValid q) eqn:Eq; [| discriminate].
    apply split_single in E; destruct E as [-> Hf]; apply qualifier_valid; auto.
    unfold name_size in *; rewrite length_app in Hl; lia.
  - cbn [app front hd tl length] in Hv; destruct (negb _); [discriminate |]; rewrite length_app in Hv.
    cbn [length] in Hv; rewrite (proj2 (Nat.ltb_lt _ _)) in Hv by lia; discriminate.
Qed.

Lemma upto_delimiter (d : Z) (p t : bytes) : free d t = true ->
  match find_last_of d (p ++ d :: t) with Some index => firstn index (p ++ d :: t) | None => p ++ d :: t end = p.
Proof.
  intros Ht; rewrite find_last_app by exact Ht; rewrite firstn_app, Nat.sub_diag, firstn_all; apply app_nil_r.
Qed.

Lemma plain_parent (p : bytes) : IsNameValidBeforeTag p = true -> name_size p <= 29 ->
  IsAssetNameValid p = Ok ROOT \/ IsAssetNameValid p = Ok SUB.
Proof. intros Hv Hl; rewrite plain_valid by (auto; lia); destruct (IsAssetNameASubasset p); auto. Qed.

(** * Theorems *)

(** Owner tokens correspond to roots and sub-assets: appending the owner
    tag to a name gives a valid owner name exactly when the name is a valid
    root or sub-asset, so the length limits leave room for the tag.  A
    restricted name, however, may start with punctuation, and then the owner
    name it is issued from is no valid name; and a vote name may contain any
    characters between two carets. *)
Theorem OwnerName_correct (n : bytes) :
  (IsAssetNameValid (n ++ OWNER_TAG) = Ok OWNER <->
   IsAssetNameValid n = Ok ROOT \/ IsAssetNameValid n = Ok SUB) /\
  (IsAssetNameAnRestricted (str "$.ABC") = true /\
   name_valid (RestrictedNameToOwnerName (str "$.ABC")) = false) /\
  IsAssetNameValid (str "ABC^any thing^Y") = Ok VOTE.
Proof.
  split; [| split; [split |]; vm_compute; reflexivity]; rewrite owner_valid; split.
  - intros [Hv Hl]; rewrite plain_valid by assumption; destruct (IsAssetNameASubasset n); auto.
  - intros [R | R]; apply plain_valid_inv in R; unfold is_plain_type; tauto.
Qed.

(** Parents: the name of a sub-asset, unique asset, message channel or
    sub-qualifier is its parent, the delimiter of its type and a tag, and the
    parent is a valid name of the type that can have such children; every
    other name but a vote is its own parent.  A unique name that can be
    formed has the name it was formed from as its parent. *)
Theorem ParentName_correct (n : bytes) (t : AssetType) :
  IsAssetNameValid n = Ok t ->
  let parent := GetParentName n in
  let plain := IsAssetNameValid parent = Ok ROOT \/ IsAssetNameValid parent = Ok SUB in
  match t with
  | SUB => plain /\ exists tag, n = parent ++ str "/" ++ tag
  | UNIQUE => plain /\ exists tag, n = parent ++ str "#" ++ tag
  | MSGCHANNEL => plain /\ exists tag, n = parent ++ str "~" ++ tag
  | SUB_QUALIFIER => IsAssetNameValid parent = Ok QUALIFIER /\ exists tag, n = parent ++ str "/" ++ tag
  | VOTE => True
  | _ => parent = n
  end /\
  (forall p tag, free UNIQUE_TAG_DELIMITER tag = true -> GetUniqueAssetName p tag <> [] ->
   GetParentName (GetUniqueAssetName p tag) = p).
Proof.
  intros R parent plain; split.
  - unfold plain, parent, GetParentName; rewrite R; cbv zeta; destruct t; auto.
    + destruct (sub_inv n R) as (p & tag & -> & Ht & Hv & Hl).
      change (p ++ str "/" ++ tag) with (p ++ SUB_NAME_DELIMITER :: tag); rewrite upto_delimiter by exact Ht.
      split; [apply plain_parent; assumption | exists tag; reflexivity].
    + destruct (unique_inv n R) as (p & tag & -> & Ht & Hv & Hl).
      change (p ++ str "#" ++ tag) with (p ++ UNIQUE_TAG_DELIMITER :: tag); rewrite upto_delimiter by exact Ht.
      split; [apply plain_parent; assumption | exists tag; reflexivity].
    + destruct (channel_inv n R) as (p & tag & -> & Ht & Hv & Hl).
      change (p ++ str "~" ++ tag) with (p ++ MSG_CHANNEL_TAG_DELIMITER :: tag); rewrite upto_delimiter by exact Ht.
      split; [apply plain_parent; assumption | exists tag; reflexivity].
    + destruct (sub_qualifier_parent n R) as (p & tag & -> & Ht & Hv).
      change (p ++ str "/" ++ tag) with (p ++ SUB_NAME_DELIMITER :: tag); rewrite upto_delimiter by exact Ht.
      split; [exact Hv | exists tag; reflexivity].
  - intros p tag Ht; unfold GetUniqueAssetName; cbv zeta.
    destruct (IsAssetNameValid (p ++ str "#" ++ tag)) as [[] |] eqn:E; try contradiction; intros _.
    unfold GetParentName; rewrite E; cbv zeta; exact (upto_delimiter UNIQUE_TAG_DELIMITER p tag Ht).
Qed.

Lemma ParentName_correct_witness :
  GetParentName (str "ABC/DEF#tag1") = str "ABC/DEF" /\ IsAssetNameValid (str "ABC/DEF") = Ok SUB.
Proof.
  destruct (ParentName_correct (str "ABC/DEF#tag1") UNIQUE) as [[_ _] Hp]; [vm_compute; reflexivity |].
  split; [| vm_compute; reflexivity].
  replace (str "ABC/DEF#tag1") with (GetUniqueAssetName (str "ABC/DEF") (str "tag1")) by (vm_compute; reflexivity).
  apply Hp; vm_compute; [reflexivity | discriminate].
Defined.
