(* ===== verification/Base58.v ===== *)
(** Base 58 and the addresses of the node (src/base58.cpp, src/base58.h):
    [EncodeBase58], [DecodeBase58], their variants with a checksum and the
    conversion between destinations and addresses.

    The vector the code fills from its end is the list of its digits from the
    last one; a failed assertion and the exception of a vector that is too
    long are errors of their own.  The hash of the checksum is a parameter. *)

From Stdlib Require Import ZArith String Ascii List Bool Lia Arith.
From S2P Require Import Prelude Serialize Script Standard AssetNames.
Import ListNotations.
Open Scope Z_scope.

Inductive base58_error := NotBase58 | CarryAssertion | LengthError.

Definition pszBase58 : bytes := str "123456789ABCDEFGHJKLMNPQRSTUVWXYZabcdefghijkmnopqrstuvwxyz".

(** [isspace] in the C locale. *)
Definition isspace (c : Z) : bool := ((9 <=? c) && (c <=? 13)) || (c =? 32).

Fixpoint index_of (c : Z) (l : bytes) : option Z :=
  match l with
  | [] => None
  | x :: l' => if c =? x then Some 0 else option_map Z.succ (index_of c l')
  end.
(** [strchr(pszBase58, c) - pszBase58] *)
Definition digit_of (c : Z) : option Z := index_of c pszBase58.

Fixpoint skip_while (f : Z -> bool) (l : bytes) : bytes :=
  match l with [] => [] | x :: l' => if f x then skip_while f l' else l end.
Fixpoint count_while (f : Z -> bool) (l : bytes) : nat :=
  match l with [] => O | x :: l' => if f x then S (count_while f l') else O end.

(** * Conversion between bases *)

(** Multiplies the number by [factor] and adds [carry]; [digits] are its digits
    in base [radix] from the [i]th on, the last digits first. *)
Fixpoint mul_add (radix factor carry : Z) (i length : nat) (digits : list Z) : list Z * Z * nat :=
  match digits with
  | [] => ([], carry, i)
  | d :: digits' =>
      if negb (carry =? 0) || (i <? length)%nat then
        let carry := carry + factor * d in
        let '(rest, c, i') := mul_add radix factor (carry / radix) (S i) length digits' in
        (carry mod radix :: rest, c, i')
      else (digits, carry, i)
  end.

Definition push_digit (radix factor x : Z) (state : list Z * nat) : result base58_error (list Z * nat) :=
  let '(digits, length) := state in
  let '(digits, carry, length) := mul_add radix factor x 0 length digits in
  if carry =? 0 then Ok (digits, length) else Err CarryAssertion.

(** A vector of [size] zeroes. *)
Definition new_digits (size : Z) : result base58_error (list Z * nat) :=
  if size <? 0 then Err LengthError else Ok (repeat 0 (Z.to_nat size), O).

(** The digits in use from the first that is not zero. *)
Definition significant (state : list Z * nat) : list Z :=
  skip_while (Z.eqb 0) (rev (firstn (snd state) (fst state))).

Fixpoint decode_loop (psz : bytes) (state : list Z * nat) : result base58_error (bytes * (list Z * nat)) :=
  match psz with
  | [] => Ok ([], state)
  | c :: psz' =>
      if isspace c then Ok (psz, state)
      else match digit_of c with
           | None => Err NotBase58
           | Some carry => let! state := push_digit 256 58 carry state in decode_loop psz' state
           end
  end.

(** The string up to its first null character. *)
Fixpoint c_str (s : bytes) : bytes :=
  match s with [] => [] | c :: s' => if c =? 0 then [] else c :: c_str s' end.

Definition DecodeBase58 (s : bytes) : result base58_error bytes :=
  let psz := skip_while isspace (c_str s) in
  let zeroes := count_while (Z.eqb (code "1")) psz in
  let psz := skip_while (Z.eqb (code "1")) psz in
  let! state := new_digits (s32 (w64 (Z.of_nat (length psz) * 733) / 1000 + 1)) in
  let! r := decode_loop psz state in
  let '(rest, state) := r in
  match skip_while isspace rest with
  | [] => Ok (repeat 0 zeroes ++ significant state)
  | _ => Err NotBase58
  end.

Fixpoint encode_loop (vch : bytes) (state : list Z * nat) : result base58_error (list Z * nat) :=
  match vch with
  | [] => Ok state
  | carry :: vch' => let! state := push_digit 58 256 carry state in encode_loop vch' state
  end.

Definition EncodeBase58 (vch : bytes) : result base58_error bytes :=
  let zeroes := count_while (Z.eqb 0) vch in
  let vch := skip_while (Z.eqb 0) vch in
  let! state := new_digits (s32 (Z.of_nat (length vch) * 138 / 100 + 1)) in
  let! state := encode_loop vch state in
  Ok (repeat (code "1") zeroes ++ map (fun d => get pszBase58 (Z.to_nat d)) (significant state)).

(** * Checksums and addresses *)

(** [CChainParams::Base58Prefix] for the two kinds of addresses. *)
Record prefixes := mkPrefixes { PUBKEY_ADDRESS : bytes; SCRIPT_ADDRESS : bytes }.
Definition main_prefixes : prefixes := mkPrefixes [60] [122].
Definition test_prefixes : prefixes := mkPrefixes [111] [196].

Record CBase58Data := mkData { vchVersion : bytes; vchData : bytes }.

Section Check.
Variable Hash : bytes -> bytes.
Variable params : prefixes.

Definition EncodeBase58Check (vchIn : bytes) : result base58_error bytes :=
  EncodeBase58 (vchIn ++ firstn 4 (Hash vchIn)).

Definition DecodeBase58Check (psz : bytes) : result base58_error bytes :=
  let! vchRet := DecodeBase58 psz in
  if (length vchRet <? 4)%nat then Err NotBase58
  else
    let payload := firstn (length vchRet - 4) vchRet in
    if negb (bytes_eqb (firstn 4 (Hash payload)) (skipn (length vchRet - 4) vchRet)) then Err NotBase58
    else Ok payload.

Definition empty_data : CBase58Data := mkData [] [].

Definition SetString (psz : bytes) (nVersionBytes : nat) : result base58_error (bool * CBase58Data) :=
  match DecodeBase58Check psz with
  | Err NotBase58 => Ok (false, empty_data)
  | Err e => Err e
  | Ok vchTemp =>
      if (length vchTemp <? nVersionBytes)%nat then Ok (false, empty_data)
      else Ok (true, mkData (firstn nVersionBytes vchTemp) (skipn nVersionBytes vchTemp))
  end.

Definition ToString (d : CBase58Data) : result base58_error bytes := EncodeBase58Check (vchVersion d ++ vchData d).

(** [CHemp0xAddress::Set]; [&id] is the 20 bytes of the hash. *)
Definition Set_ (dest : CTxDestination) : CBase58Data :=
  match dest with
  | CKeyID id => mkData (PUBKEY_ADDRESS params) (firstn 20 id)
  | CScriptID id => mkData (SCRIPT_ADDRESS params) (firstn 20 id)
  | CNoDestination => empty_data
  end.

Definition IsValid (addr : CBase58Data) : bool :=
  (length (vchData addr) =? 20)%nat &&
  (bytes_eqb (vchVersion addr) (PUBKEY_ADDRESS params) || bytes_eqb (vchVersion addr) (SCRIPT_ADDRESS params)).

Definition Get (addr : CBase58Data) : CTxDestination :=
  if negb (IsValid addr) then CNoDestination
  else if bytes_eqb (vchVersion addr) (PUBKEY_ADDRESS params) then CKeyID (vchData addr)
  else if bytes_eqb (vchVersion addr) (SCRIPT_ADDRESS params) then CScriptID (vchData addr)
  else CNoDestination.

Definition EncodeDestination (dest : CTxDestination) : result base58_error bytes :=
  let addr := Set_ dest in if negb (IsValid addr) then Ok [] else ToString addr.

Definition DecodeDestination (s : bytes) : result base58_error CTxDestination :=
  let! r := SetString s 1 in Ok (Get (snd r)).

Definition IsValidDestinationString (s : bytes) : result base58_error bool :=
  let! r := SetString s 1 in Ok (IsValid (snd r)).
End Check.

(** * Numbers in a base *)

Section Radix.
Variable radix : Z.
Hypothesis radix_big : 1 < radix.

Definition digit (d : Z) : Prop := 0 <= d < radix.

(** The number of a list of digits, the last digit first. *)
Fixpoint value (l : list Z) : Z :=
  match l with [] => 0 | d :: l' => d + radix * value l' end.

Lemma value_bounds l : Forall digit l -> 0 <= value l < radix ^ Z.of_nat (length l).
Proof.
  induction 1 as [|d l D _ IH]; cbn [value length]; [rewrite Z.pow_0_r; lia|].
  rewrite Nat2Z.inj_succ, Z.pow_succ_r by lia; unfold digit in D; nia.
Qed.

Lemma value_app l m : value (l ++ m) = value l + radix ^ Z.of_nat (length l) * value m.
Proof.
  induction l as [|d l IH]; cbn [app value length]; [rewrite Z.pow_0_r; lia|].
  rewrite IH, Nat2Z.inj_succ, Z.pow_succ_r by lia; ring.
Qed.

Lemma value_zeroes n : value (repeat 0 n) = 0.
Proof. induction n as [|n IH]; cbn [repeat value]; [reflexivity|rewrite IH; lia]. Qed.

(** No zero in front. *)
Fixpoint canonical (l : list Z) : Prop :=
  match l with [] => True | [d] => d <> 0 | _ :: l' => canonical l' end.

Lemma canonical_cons d l : canonical (d :: l) -> canonical l.
Proof. destruct l; [reflexivity|auto]. Qed.

Lemma canonical_pos l : Forall digit l -> canonical l -> l <> [] -> 0 < value l.
Proof.
  induction 1 as [|d l D F IH]; intros C N; [congruence|]; cbn [value]; unfold digit in D.
  destruct l as [|e l]; [cbn in *; lia|]; specialize (IH (canonical_cons _ _ C) ltac:(discriminate)); nia.
Qed.

Lemma value_inj l : Forall digit l -> canonical l -> forall m, Forall digit m -> canonical m -> value l = value m -> l = m.
Proof.
  induction 1 as [|d l D F IH]; intros C m Fm Cm E.
  - destruct m as [|e m]; [reflexivity|]; pose proof (canonical_pos _ Fm Cm ltac:(discriminate)); cbn [value] in *; lia.
  - destruct m as [|e m].
    + pose proof (canonical_pos (d :: l) ltac:(now constructor) C ltac:(discriminate)); cbn [value] in *; lia.
    + inversion Fm as [|? ? De Fm']; subst; cbn [value] in E; unfold digit in *.
      assert (d = e) as ->.
      { apply (f_equal (fun z => z mod radix)) in E.
        rewrite !(Z.mul_comm radix), !Z_mod_plus_full, !Z.mod_small in E by assumption; exact E. }
      f_equal; apply IH; auto; try (eapply canonical_cons; eassumption); nia.
Qed.

(** The digits in use, and zeroes after them. *)
Definition digits_ok (state : list Z * nat) : Prop :=
  Forall digit (fst state) /\ (snd state <= length (fst state))%nat /\
  skipn (snd state) (fst state) = repeat 0 (length (fst state) - snd state).

Lemma mul_add_spec factor : 0 <= factor -> forall l carry i len, Forall digit l -> 0 <= carry ->
  skipn (len - i) l = repeat 0 (length l - (len - i)) ->
  let '(l', c, i') := mul_add radix factor carry i len l in
  value l' + radix ^ Z.of_nat (length l) * c = carry + factor * value l /\ Forall digit l' /\ 0 <= c /\
  length l' = length l /\ (i <= i' <= i + length l)%nat /\ skipn (i' - i) l' = repeat 0 (length l - (i' - i)).
Proof.
  intros HF; induction l as [|d l IH]; intros carry i len F C K; cbn [mul_add].
  - cbn [value length]; rewrite Z.pow_0_r, skipn_nil; split_all; auto; lia.
  - inversion F as [|? ? D F']; subst; unfold digit in D; destruct (negb _ || _) eqn:G.
    + assert (P : 0 <= (carry + factor * d) / radix) by (apply Z.div_pos; nia).
      specialize (IH ((carry + factor * d) / radix) (S i) len F' P).
      destruct (mul_add radix factor _ (S i) len l) as [[l' c] i'].
      destruct IH as (V & Fl & Cc & Ln & Bi & Sk).
      { destruct (len - i)%nat as [|k] eqn:E.
        - replace (len - S i)%nat with O by lia; cbn [skipn] in *; rewrite Nat.sub_0_r in *.
          cbn [length repeat] in K; now injection K.
        - replace (len - S i)%nat with k by lia; cbn [skipn length] in K; exact K. }
      cbn [value length]; rewrite Nat2Z.inj_succ, Z.pow_succ_r by lia; split_all; auto; try lia.
      * pose proof (Z.div_mod (carry + factor * d) radix ltac:(lia)); nia.
      * constructor; [apply Z.mod_pos_bound; lia|exact Fl].
      * replace (i' - i)%nat with (S (i' - S i)) by lia; cbn [skipn]; exact Sk.
    + apply orb_false_iff in G; destruct G as [G1 G2]; apply negb_false_iff, Z.eqb_eq in G1; subst carry.
      apply Nat.ltb_ge in G2; replace (len - i)%nat with O in K by lia; rewrite Nat.sub_0_r in K; cbn [skipn] in K.
      rewrite K, value_zeroes, Nat.sub_diag, Nat.sub_0_r; cbn [skipn]; rewrite repeat_length; split_all; auto; try lia.
      rewrite <- K; exact F.
Qed.

Lemma push_digit_ok factor x state : 0 <= factor -> 0 <= x -> digits_ok state ->
  x + factor * value (fst state) < radix ^ Z.of_nat (length (fst state)) ->
  exists state', push_digit radix factor x state = Ok state' /\ digits_ok state' /\
    value (fst state') = x + factor * value (fst state) /\ length (fst state') = length (fst state).
Proof.
  destruct state as [l len]; intros HF HX (F & L & K) B; unfold push_digit; cbn [fst snd] in *.
  pose proof (mul_add_spec factor HF l x 0%nat len F HX) as S; rewrite Nat.sub_0_r in S; specialize (S K).
  destruct (mul_add radix factor x 0 len l) as [[l' c] i']; destruct S as (V & F' & C & Ln & Bi & Sk).
  rewrite Nat.sub_0_r in Sk; pose proof (value_bounds l' F') as VB.
  assert (c = 0) as -> by (assert (0 < radix ^ Z.of_nat (length l)) by (apply Z.pow_pos_nonneg; lia); nia).
  exists (l', i'); split; [reflexivity|]; unfold digits_ok; cbn [fst snd]; rewrite Ln; split_all; auto; lia.
Qed.

Lemma new_digits_ok size : 0 <= size -> exists state, new_digits size = Ok state /\ digits_ok state /\
  value (fst state) = 0 /\ Z.of_nat (length (fst state)) = size.
Proof.
  intros P; unfold new_digits; destruct (Z.ltb_spec size 0); [lia|]; eexists; split; [reflexivity|].
  unfold digits_ok; cbn [fst snd skipn]; rewrite repeat_length, Nat.sub_0_r; split_all; auto using value_zeroes; try lia.
  apply Forall_forall; intros x I; apply repeat_spec in I; subst; unfold digit; lia.
Qed.

(** ** The significant digits *)

Lemma skip_zeroes l : exists n, l = repeat 0 n ++ skip_while (Z.eqb 0) l.
Proof.
  induction l as [|x l [n IH]]; [now exists O|]; cbn [skip_while]; destruct (Z.eqb_spec 0 x) as [<-|].
  - exists (S n); cbn; now rewrite <- IH.
  - now exists O.
Qed.

Lemma skip_canonical l : canonical (rev (skip_while (Z.eqb 0) l)).
Proof.
  induction l as [|x l IH]; cbn [skip_while]; [exact I|]; destruct (Z.eqb_spec 0 x); [exact IH|].
  cbn [rev]; clear IH; induction (rev l) as [|y r IH]; cbn [app canonical]; [congruence|].
  destruct (r ++ [x]) eqn:E; [now destruct r|exact IH].
Qed.

Lemma significant_ok state : digits_ok state ->
  Forall digit (significant state) /\ canonical (rev (significant state)) /\
  value (rev (significant state)) = value (fst state).
Proof.
  destruct state as [l len]; intros (F & L & K); unfold significant; cbn [fst snd] in *.
  split_all; [|apply skip_canonical|].
  - destruct (skip_zeroes (rev (firstn len l))) as [n E].
    assert (F' : Forall digit (rev (firstn len l))) by (apply Forall_rev; now apply Forall_firstn').
    rewrite E in F'; apply Forall_app in F'; apply F'.
  - destruct (skip_zeroes (rev (firstn len l))) as [n E]; set (w := skip_while _ _) in *; clearbody w.
    apply (f_equal (@rev Z)) in E.
    rewrite rev_involutive, rev_app_distr in E; rewrite <- (firstn_skipn len l), E, K.
    assert (R : rev (repeat 0 n) = repeat 0 n).
    { clear; induction n as [|n IH]; [reflexivity|]; cbn [repeat rev]; rewrite IH, <- repeat_cons; reflexivity. }
    rewrite R, !value_app, !value_zeroes; lia.
Qed.
End Radix.

(** * The room for the digits is enough *)

(** [n] digits in base [m] fit in [n * r / s + 1] digits in base [b]. *)
Lemma room m b p q r s n : 1 < m -> 1 < b -> 0 < p -> 0 < q -> 0 < s -> 0 <= r -> m ^ q <= b ^ p -> p * s <= r * q ->
  0 <= n -> m ^ n < b ^ (n * r / s + 1).
Proof.
  intros Hm Hb Hp Hq Hs Hr E PQ Hn; set (k := n * r / s + 1).
  assert (Hk : n * r < k * s) by (unfold k; pose proof (Z.div_mod (n * r) s ltac:(lia)); pose proof (Z.mod_pos_bound (n * r) s Hs); nia).
  assert (0 <= k) by nia; apply Z.lt_nge; intros L.
  assert (A : (b ^ k) ^ (s * q) <= (m ^ n) ^ (s * q)) by (apply Z.pow_le_mono_l; split; [apply Z.pow_nonneg; lia|exact L]).
  assert (B : (m ^ q) ^ (n * s) <= (b ^ p) ^ (n * s)) by (apply Z.pow_le_mono_l; split; [apply Z.pow_nonneg; lia|exact E]).
  rewrite <- !Z.pow_mul_r in A, B by nia.
  replace (n * (s * q)) with (q * (n * s)) in A by ring.
  assert (C : b ^ (p * (n * s)) < b ^ (k * (s * q))) by (apply Z.pow_lt_mono_r; nia); lia.
Qed.

Lemma decode_room n : 0 <= n -> 58 ^ n < 256 ^ (n * 733 / 1000 + 1).
Proof. intros; apply (room 58 256 52 71 733 1000); try lia; vm_compute; discriminate. Qed.
Lemma encode_room n : 0 <= n -> 256 ^ n < 58 ^ (n * 138 / 100 + 1).
Proof. intros; apply (room 256 58 11 8 138 100); try lia; vm_compute; discriminate. Qed.

(** * The loops *)

Fixpoint push_all (radix factor : Z) (xs : list Z) (state : list Z * nat) : result base58_error (list Z * nat) :=
  match xs with
  | [] => Ok state
  | x :: xs' => let! state := push_digit radix factor x state in push_all radix factor xs' state
  end.

Lemma push_all_ok radix factor xs : 1 < radix -> 1 < factor -> Forall (digit factor) xs -> forall state,
  digits_ok radix state ->
  factor ^ Z.of_nat (length xs) * value radix (fst state) + value factor (rev xs) < radix ^ Z.of_nat (length (fst state)) ->
  exists state', push_all radix factor xs state = Ok state' /\ digits_ok radix state' /\
    value radix (fst state') = factor ^ Z.of_nat (length xs) * value radix (fst state) + value factor (rev xs) /\
    length (fst state') = length (fst state).
Proof.
  intros HR HF; induction 1 as [|x xs D F IH]; intros state O B; cbn [push_all].
  - exists state; split; [reflexivity|split; [exact O|]]; cbn [length rev value]; rewrite Z.pow_0_r; split; [lia|reflexivity].
  - cbn [length rev] in *; rewrite value_app, length_rev, Nat2Z.inj_succ, Z.pow_succ_r in * by lia; cbn [value] in *.
    assert (FP : 0 < factor ^ Z.of_nat (length xs)) by (apply Z.pow_pos_nonneg; lia).
    pose proof (value_bounds factor HF (rev xs) ltac:(now apply Forall_rev)) as VB.
    pose proof (value_bounds radix HR (fst state) (proj1 O)) as VS; unfold digit in D.
    destruct (push_digit_ok radix HR factor x state ltac:(lia) ltac:(lia) O) as (st & E & O' & V & L); [nia|].
    rewrite E; cbn [bind]; destruct (IH st O') as (st' & E' & O'' & V' & L'); [rewrite V, L; lia|].
    exists st'; split; [exact E'|]; split; [exact O''|]; rewrite V', V, L'; split; [ring|exact L].
Qed.

Lemma encode_loop_all vch state : encode_loop vch state = push_all 58 256 vch state.
Proof. revert state; induction vch as [|x vch IH]; intros state; cbn; [reflexivity|]; destruct (push_digit 58 256 x state); cbn; auto. Qed.

(** A character and its digit. *)
Definition reads (c d : Z) : Prop := isspace c = false /\ digit_of c = Some d.
Definition ends (rest : bytes) : Prop := match rest with [] => True | c :: _ => isspace c = true end.

Lemma decode_loop_all cs ds rest : Forall2 reads cs ds -> ends rest -> forall state,
  decode_loop (cs ++ rest) state = let! state := push_all 256 58 ds state in Ok (rest, state).
Proof.
  intros F E; induction F as [|c d cs ds [S D] _ IH]; intros state; cbn [app push_all].
  - destruct rest as [|c rest]; cbn in *; [reflexivity|now rewrite E].
  - cbn [decode_loop]; rewrite S, D; destruct (push_digit 256 58 d state); cbn [bind]; auto.
Qed.

Lemma decode_loop_inv psz : forall state rest st, decode_loop psz state = Ok (rest, st) ->
  exists cs ds, psz = cs ++ rest /\ Forall2 reads cs ds /\ ends rest /\ push_all 256 58 ds state = Ok st.
Proof.
  induction psz as [|c psz IH]; intros state rest st R; cbn [decode_loop] in R.
  - injection R as <- <-; exists [], []; split_all; auto; exact I.
  - destruct (isspace c) eqn:S; [injection R as <- <-; exists [], []; split_all; auto|].
    destruct (digit_of c) as [d|] eqn:D; [|discriminate]; destruct (push_digit 256 58 d state) as [st1|] eqn:P; [|discriminate].
    cbn [bind] in R; destruct (IH _ _ _ R) as (cs & ds & -> & F & E & K).
    exists (c :: cs), (d :: ds); split_all; auto; [constructor; [split|]; assumption|]; cbn [push_all]; now rewrite P.
Qed.

(** ** The alphabet *)

Lemma index_of_spec c l d : index_of c l = Some d -> 0 <= d < Z.of_nat (length l) /\ get l (Z.to_nat d) = c.
Proof.
  revert d; induction l as [|x l IH]; intros d; cbn [index_of length]; [discriminate|].
  destruct (Z.eqb_spec c x) as [->|]; [intros [= <-]; split; [lia|reflexivity]|].
  destruct (index_of c l) as [e|]; [|discriminate]; intros [= <-]; destruct (IH e eq_refl) as [B G]; split; [lia|].
  rewrite Z2Nat.inj_succ by lia; exact G.
Qed.

Lemma digit_of_spec c d : digit_of c = Some d -> digit 58 d /\ get pszBase58 (Z.to_nat d) = c.
Proof. exact (index_of_spec c pszBase58 d). Qed.

Lemma alphabet_check :
  forallb (fun d => let c := get pszBase58 d in
    negb (isspace c) && negb (c =? 0) && match digit_of c with Some e => e =? Z.of_nat d | None => false end) (seq 0 58) = true.
Proof. vm_compute; reflexivity. Qed.

Lemma alphabet_spec d : digit 58 d ->
  let c := get pszBase58 (Z.to_nat d) in isspace c = false /\ c <> 0 /\ digit_of c = Some d.
Proof.
  intros [L U]; pose proof alphabet_check as A; rewrite forallb_forall in A.
  specialize (A (Z.to_nat d) ltac:(apply in_seq; lia)); cbn zeta in *.
  destruct (digit_of (get pszBase58 (Z.to_nat d))) as [e|]; [|rewrite !andb_false_r in A; discriminate].
  bool_to_prop; rewrite Z2Nat.id in * by lia; subst; auto.
Qed.

Lemma one_digit c : digit_of c = Some 0 <-> c = code "1".
Proof.
  split; [|intros ->; reflexivity]; intros D; apply digit_of_spec in D; destruct D as [_ <-]; reflexivity.
Qed.

Lemma alphabet_reads ds : Forall (digit 58) ds -> Forall2 reads (map (fun d => get pszBase58 (Z.to_nat d)) ds) ds.
Proof.
  induction 1 as [|d ds D _ IH]; cbn [map]; constructor; auto; destruct (alphabet_spec d D) as (S & _ & E); now split.
Qed.

Lemma reads_map cs ds : Forall2 reads cs ds -> cs = map (fun d => get pszBase58 (Z.to_nat d)) ds /\ Forall (digit 58) ds.
Proof.
  induction 1 as [|c d cs ds [_ E] _ [-> F]]; [split; constructor|]; apply digit_of_spec in E; destruct E as [D <-].
  split; [reflexivity|now constructor].
Qed.

(** * Encoding and decoding *)

Lemma leading k l : l = repeat k (count_while (Z.eqb k) l) ++ skip_while (Z.eqb k) l.
Proof.
  induction l as [|x l IH]; [reflexivity|]; cbn [count_while skip_while]; destruct (Z.eqb_spec k x) as [<-|]; [|reflexivity].
  cbn; now rewrite <- IH.
Qed.

(** A list that does not begin with [k]. *)
Definition starts_not (k : Z) (l : list Z) : Prop := match l with [] => True | x :: _ => x <> k end.

Lemma skip_starts k l : starts_not k (skip_while (Z.eqb k) l).
Proof.
  induction l as [|x l IH]; cbn [skip_while]; [exact I|]; destruct (Z.eqb_spec k x); [exact IH|]; cbn; congruence.
Qed.

Lemma leading_app k n l : starts_not k l ->
  count_while (Z.eqb k) (repeat k n ++ l) = n /\ skip_while (Z.eqb k) (repeat k n ++ l) = l.
Proof.
  intros S; induction n as [|n [IH1 IH2]]; cbn [repeat app count_while skip_while].
  - destruct l as [|x l]; [auto|]; cbn in *; destruct (Z.eqb_spec k x); [congruence|auto].
  - rewrite Z.eqb_refl, IH1, IH2; auto.
Qed.

Lemma canonical_rev l : canonical (rev l) <-> starts_not 0 l.
Proof.
  split; intros H.
  - destruct l as [|x l]; [exact I|]; cbn [rev] in H; cbn; revert H; induction (rev l) as [|y r IH]; [auto|].
    cbn [app]; intros C; apply IH; eapply canonical_cons; exact C.
  - replace l with (skip_while (Z.eqb 0) l); [apply skip_canonical|]; destruct l as [|x l]; [reflexivity|].
    cbn [skip_while]; cbn in H; destruct (Z.eqb_spec 0 x); [congruence|reflexivity].
Qed.

Lemma small_size n : 0 <= n < 2 ^ 30 -> 0 <= s32 (n * 138 / 100 + 1) /\ s32 (n * 138 / 100 + 1) = n * 138 / 100 + 1.
Proof.
  intros B; assert (0 <= n * 138 / 100 <= n * 2) by (split; [apply Z.div_pos; lia|apply Z.div_le_upper_bound; lia]).
  unfold s32; rewrite swrap_id; [lia|lia|]; unfold in_s; change (2 ^ (32 - 1)) with 2147483648; lia.
Qed.

Lemma small_size_decode n : 0 <= n < 2 ^ 31 - 1 ->
  0 <= s32 (w64 (n * 733) / 1000 + 1) /\ s32 (w64 (n * 733) / 1000 + 1) = n * 733 / 1000 + 1.
Proof.
  intros B; assert (0 <= n * 733 / 1000 <= n) by (split; [apply Z.div_pos; lia|apply Z.div_le_upper_bound; lia]).
  unfold w64; rewrite wrap_id by (unfold in_u; change (2 ^ 64) with 18446744073709551616; lia).
  unfold s32; rewrite swrap_id; [lia|lia|]; unfold in_s; change (2 ^ (32 - 1)) with 2147483648; lia.
Qed.

Lemma skip_length f l : (length (skip_while f l) <= length l)%nat.
Proof. induction l as [|x l IH]; cbn [skip_while length]; [lia|]; destruct (f x); cbn [length]; lia. Qed.

Lemma skip_Forall (P : Z -> Prop) f l : Forall P l -> Forall P (skip_while f l).
Proof. induction 1; cbn [skip_while]; [constructor|]; destruct (f x); auto. Qed.

Lemma significant_length state : (length (significant state) <= length (fst state))%nat.
Proof.
  unfold significant; etransitivity; [apply skip_length|]; rewrite length_rev, length_firstn; lia.
Qed.

Abbreviation alphabet := (map (fun d => get pszBase58 (Z.to_nat d))).

Lemma Encode_spec vch : Forall (digit 256) vch -> Z.of_nat (length vch) < 2 ^ 30 ->
  exists ds, EncodeBase58 vch = Ok (repeat (code "1") (count_while (Z.eqb 0) vch) ++ alphabet ds) /\
    Forall (digit 58) ds /\ canonical (rev ds) /\ value 58 (rev ds) = value 256 (rev (skip_while (Z.eqb 0) vch)) /\
    Z.of_nat (length ds) <= Z.of_nat (length (skip_while (Z.eqb 0) vch)) * 138 / 100 + 1.
Proof.
  intros F L; unfold EncodeBase58; set (body := skip_while (Z.eqb 0) vch).
  assert (LB : Z.of_nat (length body) < 2 ^ 30) by (pose proof (skip_length (Z.eqb 0) vch); unfold body; lia).
  assert (FB : Forall (digit 256) body) by now apply skip_Forall.
  destruct (small_size (Z.of_nat (length body)) ltac:(lia)) as [P E].
  destruct (new_digits_ok 58 ltac:(lia) _ P) as (st & -> & O & V & Ln); cbn [bind]; rewrite encode_loop_all.
  destruct (push_all_ok 58 256 body ltac:(lia) ltac:(lia) FB st O) as (st' & -> & O' & V' & L').
  { rewrite V, Ln, E, Z.mul_0_r, Z.add_0_l; pose proof (value_bounds 256 ltac:(lia) (rev body) ltac:(now apply Forall_rev)) as B.
    rewrite length_rev in B; pose proof (encode_room (Z.of_nat (length body)) ltac:(lia)); lia. }
  destruct (significant_ok 58 st' O') as (FS & C & VS); exists (significant st'); split; [reflexivity|].
  split; [exact FS|]; split; [exact C|]; split; [rewrite VS, V', V; lia|].
  fold body; rewrite <- E, <- Ln, <- L'; pose proof (significant_length st'); lia.
Qed.

(** The check that the whole string was read. *)
Definition no_space (s : bytes) : Prop := Forall (fun c => isspace c = false /\ c <> 0) s.

Lemma no_space_c_str s : no_space s -> c_str s = s.
Proof.
  induction 1 as [|c s [S N] _ IH]; [reflexivity|]; cbn; destruct (Z.eqb_spec c 0); [contradiction|now rewrite IH].
Qed.

Lemma no_space_skip s : no_space s -> skip_while isspace s = s.
Proof. destruct 1 as [|c s [S N] _]; [reflexivity|]; cbn; now rewrite S. Qed.

Lemma Decode_spec z ds : Forall (digit 58) ds -> starts_not 0 ds -> Z.of_nat (z + length ds) < 2 ^ 31 - 1 ->
  no_space (repeat (code "1") z ++ alphabet ds) /\
  exists bs, DecodeBase58 (repeat (code "1") z ++ alphabet ds) = Ok (repeat 0 z ++ bs) /\
    Forall (digit 256) bs /\ starts_not 0 bs /\ value 256 (rev bs) = value 58 (rev ds) /\
    Z.of_nat (length bs) <= Z.of_nat (length ds) + 1.
Proof.
  intros F S L; set (s := repeat (code "1") z ++ alphabet ds).
  assert (NS : no_space s).
  { apply Forall_app; split; [apply Forall_forall; intros c I; apply repeat_spec in I; subst; split; [reflexivity|discriminate]|].
    apply Forall_map; eapply Forall_impl; [|exact F]; intros d D; destruct (alphabet_spec d D) as (? & ? & _); auto. }
  split; [exact NS|]; unfold DecodeBase58; rewrite no_space_c_str, no_space_skip by exact NS; unfold s.
  assert (N1 : starts_not (code "1") (alphabet ds)).
  { destruct ds as [|d ds]; [exact I|]; cbn [map starts_not] in *; intros K; apply one_digit in K.
    inversion F; subst; destruct (alphabet_spec d ltac:(assumption)) as (_ & _ & E); congruence. }
  destruct (leading_app (code "1") z _ N1) as [-> ->]; rewrite length_map.
  destruct (small_size_decode (Z.of_nat (length ds)) ltac:(lia)) as [P E].
  destruct (new_digits_ok 256 ltac:(lia) _ P) as (st & -> & O & V & Ln); cbn [bind].
  pose proof (decode_loop_all _ _ [] (alphabet_reads ds F) I st) as D; rewrite app_nil_r in D; rewrite D.
  destruct (push_all_ok 256 58 ds ltac:(lia) ltac:(lia) F st O) as (st' & -> & O' & V' & L').
  { rewrite V, Ln, E, Z.mul_0_r, Z.add_0_l; pose proof (value_bounds 58 ltac:(lia) (rev ds) ltac:(now apply Forall_rev)) as B.
    rewrite length_rev in B; pose proof (decode_room (Z.of_nat (length ds)) ltac:(lia)); lia. }
  cbn [bind skip_while]; destruct (significant_ok 256 st' O') as (FS & C & VS); exists (significant st').
  split; [reflexivity|]; split; [exact FS|]; split; [now apply canonical_rev|]; split; [rewrite VS, V', V; lia|].
  pose proof (significant_length st') as K; rewrite L' in K.
  assert (Z.of_nat (length ds) * 733 / 1000 <= Z.of_nat (length ds)) by (apply Z.div_le_upper_bound; lia); lia.
Qed.

(** Decoding never loses a digit. *)
Lemma decode_loop_total psz : forall state, digits_ok 256 state ->
  (value 256 (fst state) + 1) * 58 ^ Z.of_nat (length psz) <= 256 ^ Z.of_nat (length (fst state)) ->
  match decode_loop psz state with Ok _ | Err NotBase58 => True | Err _ => False end.
Proof.
  induction psz as [|c psz IH]; intros state O B; cbn [decode_loop]; [exact I|].
  destruct (isspace c); [exact I|]; destruct (digit_of c) as [d|] eqn:D; [|exact I].
  apply digit_of_spec in D; destruct D as [[D1 D2] _].
  cbn [length] in B; rewrite Nat2Z.inj_succ, Z.pow_succ_r in B by lia.
  assert (0 < 58 ^ Z.of_nat (length psz)) by (apply Z.pow_pos_nonneg; lia).
  pose proof (value_bounds 256 ltac:(lia) _ (proj1 O)) as VB.
  destruct (push_digit_ok 256 ltac:(lia) 58 d state ltac:(lia) ltac:(lia) O) as (st & -> & O' & V & L); [nia|].
  cbn [bind]; apply IH; [exact O'|]; rewrite V, L; nia.
Qed.

Lemma c_str_length s : (length (c_str s) <= length s)%nat.
Proof. induction s as [|c s IH]; cbn; [lia|]; destruct (c =? 0); cbn; lia. Qed.

Lemma Decode_total s : Z.of_nat (length s) < 2 ^ 31 - 1 ->
  match DecodeBase58 s with Ok _ | Err NotBase58 => True | Err _ => False end.
Proof.
  intros L; unfold DecodeBase58; set (psz := skip_while (Z.eqb (code "1")) (skip_while isspace (c_str s))).
  assert (LP : Z.of_nat (length psz) < 2 ^ 31 - 1).
  { pose proof (c_str_length s); pose proof (skip_length isspace (c_str s)).
    pose proof (skip_length (Z.eqb (code "1")) (skip_while isspace (c_str s))); unfold psz; lia. }
  destruct (small_size_decode (Z.of_nat (length psz)) ltac:(lia)) as [P E].
  destruct (new_digits_ok 256 ltac:(lia) _ P) as (st & -> & O & V & Ln); cbn [bind].
  pose proof (decode_loop_total psz st O) as T; rewrite V, Ln, E in T.
  pose proof (decode_room (Z.of_nat (length psz)) ltac:(lia)); specialize (T ltac:(lia)).
  destruct (decode_loop psz st) as [[rest st']|e]; cbn [bind]; [|exact T]; destruct (skip_while isspace rest); exact I.
Qed.

Lemma encode_decode b : Forall (digit 256) b -> Z.of_nat (length b) < 2 ^ 29 ->
  exists s, EncodeBase58 b = Ok s /\ no_space s /\ DecodeBase58 s = Ok b.
Proof.
  intros F L; destruct (Encode_spec b F ltac:(lia)) as (ds & E & FD & C & V & LD); rewrite E; eexists; split; [reflexivity|].
  pose proof (leading 0 b) as Lb; set (z := count_while (Z.eqb 0) b) in *; set (body := skip_while (Z.eqb 0) b) in *.
  assert (LN : length b = (z + length body)%nat) by (rewrite Lb at 1; now rewrite length_app, repeat_length).
  assert (Z.of_nat (length body) * 138 / 100 <= Z.of_nat (length body) * 2) by (apply Z.div_le_upper_bound; lia).
  destruct (Decode_spec z ds FD (proj1 (canonical_rev ds) C) ltac:(lia)) as (NS & bs & D & FB & SB & VB & _).
  split; [exact NS|]; rewrite D; f_equal; transitivity (repeat 0 z ++ body); [f_equal|now symmetry].
  rewrite <- (rev_involutive bs), <- (rev_involutive body).
  f_equal; apply (value_inj 256 ltac:(lia)); try (apply Forall_rev); try assumption; try (now apply skip_Forall).
  - now apply canonical_rev.
  - apply skip_canonical.
  - congruence.
Qed.

Lemma decode_encode s b : no_space s -> Z.of_nat (length s) < 2 ^ 29 -> DecodeBase58 s = Ok b ->
  Forall (digit 256) b /\ EncodeBase58 b = Ok s.
Proof.
  intros NS L R; pose proof R as R0; unfold DecodeBase58 in R; rewrite no_space_c_str, no_space_skip in R by exact NS.
  pose proof (leading (code "1") s) as Ls; pose proof (skip_starts (code "1") s) as SS.
  set (z := count_while (Z.eqb (code "1")) s) in *; set (psz := skip_while (Z.eqb (code "1")) s) in *; clearbody z psz.
  apply bind_ok in R; destruct R as (st & _ & R); apply bind_ok in R; destruct R as ([rest st'] & D & R).
  apply decode_loop_inv in D; destruct D as (cs & ds & -> & F2 & E & _).
  assert (rest = []) as ->.
  { destruct rest as [|c rest]; [reflexivity|]; exfalso; unfold no_space in NS; rewrite Ls in NS.
    apply Forall_app in NS; destruct NS as [_ NS]; apply Forall_app in NS; destruct NS as [_ NS]; inversion NS as [|? ? [S _]]; subst.
    cbn in E; congruence. }
  clear R; destruct (reads_map _ _ F2) as [-> FD]; rewrite app_nil_r in *.
  assert (SD : starts_not 0 ds).
  { destruct ds as [|d ds]; [exact I|]; cbn in *; intros ->; now apply SS. }
  assert (LN : length s = (z + length ds)%nat) by (rewrite Ls; now rewrite length_app, repeat_length, length_map).
  destruct (Decode_spec z ds FD SD ltac:(lia)) as (_ & bs & D & FB & SB & VB & LB).
  rewrite Ls, D in R0; injection R0 as <-.
  assert (F : Forall (digit 256) (repeat 0 z ++ bs)).
  { apply Forall_app; split; [|exact FB]; apply Forall_forall; intros x I; apply repeat_spec in I; subst; unfold digit; lia. }
  split; [exact F|]; destruct (Encode_spec _ F) as (ds' & E' & FD' & C' & V' & _).
  { rewrite length_app, repeat_length; lia. }
  destruct (leading_app 0 z bs SB) as [K1 K2]; rewrite K1, K2 in *; rewrite E', Ls; do 3 f_equal.
  rewrite <- (rev_involutive ds), <- (rev_involutive ds'); f_equal.
  apply (value_inj 58 ltac:(lia)); try (apply Forall_rev); try assumption; [now apply canonical_rev|congruence].
Qed.

(** Base 58 is a bijection between byte strings and the strings of the
    alphabet: encoding never fails, what it gives decodes to the bytes, and a
    string without white space that decodes to some bytes is their encoding.
    Decoding any string ends in bytes or in the error for strings that are not
    base 58: the digits always fit, and the assertions never fail. *)
Theorem Base58_codec (b s : bytes) :
  (Forall (digit 256) b -> Z.of_nat (length b) < 2 ^ 29 ->
   exists e, EncodeBase58 b = Ok e /\ no_space e /\ DecodeBase58 e = Ok b) /\
  (no_space s -> Z.of_nat (length s) < 2 ^ 29 -> DecodeBase58 s = Ok b ->
   Forall (digit 256) b /\ EncodeBase58 b = Ok s) /\
  (Z.of_nat (length s) < 2 ^ 29 -> DecodeBase58 s = Err NotBase58 \/ exists r, DecodeBase58 s = Ok r).
Proof.
  split; [exact (encode_decode b)|]; split; [exact (decode_encode s b)|]; intros L.
  pose proof (Decode_total s ltac:(lia)) as T; destruct (DecodeBase58 s) as [r|[]]; eauto; contradiction.
Qed.

Lemma Base58_codec_witness : DecodeBase58 (str "1Ldp") = Ok [0; 1; 2; 3] /\ EncodeBase58 [0; 1; 2; 3] = Ok (str "1Ldp").
Proof.
  assert (D : DecodeBase58 (str "1Ldp") = Ok [0; 1; 2; 3]) by (vm_compute; reflexivity).
  split; [exact D|].
  refine (proj2 (proj1 (proj2 (Base58_codec [0; 1; 2; 3] (str "1Ldp"))) _ eq_refl D)).
  repeat constructor; discriminate.
Defined.

(** * Addresses *)

Section Addresses.
Variable Hash : bytes -> bytes.
Variable params : prefixes.
Hypothesis Hash_bytes : forall b, Forall (digit 256) (Hash b) /\ length (Hash b) = 32%nat.
(** The prefixes are two different bytes. *)
Hypothesis params_ok : exists k s, PUBKEY_ADDRESS params = [k] /\ SCRIPT_ADDRESS params = [s] /\ k <> s /\
  digit 256 k /\ digit 256 s.

Abbreviation EncodeDestination := (EncodeDestination Hash params).
Abbreviation DecodeDestination := (DecodeDestination Hash params).

(** A destination with a hash of 20 bytes. *)
Definition valid_destination (d : CTxDestination) : Prop :=
  match d with CNoDestination => False | CKeyID h | CScriptID h => Forall (digit 256) h /\ length h = 20%nat end.

Lemma check_there b : Forall (digit 256) b -> Z.of_nat (length b) < 2 ^ 28 ->
  exists s, EncodeBase58Check Hash b = Ok s /\ no_space s /\ DecodeBase58Check Hash s = Ok b.
Proof.
  intros F L; unfold EncodeBase58Check, DecodeBase58Check; destruct (Hash_bytes b) as [HF HL].
  assert (L4 : length (firstn 4 (Hash b)) = 4%nat) by (rewrite length_firstn, HL; reflexivity).
  destruct (encode_decode (b ++ firstn 4 (Hash b))) as (s & E & NS & D).
  - apply Forall_app; split; [exact F|now apply Forall_firstn'].
  - rewrite length_app, L4; lia.
  - exists s; split; [exact E|]; split; [exact NS|]; rewrite D; cbn [bind]; rewrite length_app, L4.
    destruct (Nat.ltb_spec (length b + 4) 4); [lia|]; rewrite Nat.add_sub.
    rewrite firstn_app, Nat.sub_diag, firstn_all, firstn_O, app_nil_r, skipn_app, Nat.sub_diag, skipn_all; cbn [app skipn].
    now rewrite (proj2 (bytes_eqb_eq _ _) eq_refl).
Qed.

Lemma check_back s b : no_space s -> Z.of_nat (length s) < 2 ^ 29 -> DecodeBase58Check Hash s = Ok b ->
  EncodeBase58Check Hash b = Ok s.
Proof.
  intros NS L R; unfold DecodeBase58Check in R; apply bind_ok in R; destruct R as (v & D & R).
  destruct (Nat.ltb_spec (length v) 4); [discriminate|]; destruct (bytes_eqb _ _) eqn:E in R; [|discriminate].
  injection R as <-; apply bytes_eqb_eq in E; unfold EncodeBase58Check; rewrite E, firstn_skipn.
  exact (proj2 (decode_encode s v NS L D)).
Qed.

Lemma Set_spec d : valid_destination d -> exists v data, Set_ params d = mkData [v] data /\
  digit 256 v /\ Forall (digit 256) data /\ length data = 20%nat /\ IsValid params (mkData [v] data) = true /\
  Get params (mkData [v] data) = d.
Proof.
  destruct params_ok as (k & sc & EK & ES & NE & DK & DS); intros V.
  destruct d as [|h|h]; cbn in V; [contradiction|destruct V as [F L]|destruct V as [F L]]; cbn [Set_]; rewrite ?EK, ?ES;
    rewrite firstn_all2 by lia; eexists _, h; (split; [reflexivity|]); split_all; auto;
    unfold Get, IsValid; cbn [vchVersion vchData]; rewrite L, EK, ES, ?(proj2 (bytes_eqb_eq _ _) eq_refl); cbn [Nat.eqb andb orb negb];
    rewrite ?orb_true_r; auto.
  destruct (bytes_eqb [sc] [k]) eqn:E; [apply bytes_eqb_eq in E; congruence|reflexivity].
Qed.

Lemma Get_spec v data d : Get params (mkData [v] data) = d -> d <> CNoDestination ->
  Set_ params d = mkData [v] data /\ IsValid params (mkData [v] data) = true.
Proof.
  unfold Get; destruct (IsValid params (mkData [v] data)) eqn:V; cbn [negb]; [|congruence]; intros <- N.
  assert (L : length data = 20%nat) by (unfold IsValid in V; apply andb_prop in V; now apply Nat.eqb_eq).
  cbn [vchVersion vchData] in *; destruct (bytes_eqb [v] (PUBKEY_ADDRESS params)) eqn:E1.
  - apply bytes_eqb_eq in E1; cbn [Set_]; rewrite <- E1, firstn_all2 by lia; auto.
  - destruct (bytes_eqb [v] (SCRIPT_ADDRESS params)) eqn:E2; [|congruence].
    apply bytes_eqb_eq in E2; cbn [Set_]; rewrite <- E2, firstn_all2 by lia; auto.
Qed.

(** An address stands for one destination: the address of a key or script
    hash decodes to it, two destinations never share an address, and a string
    without white space that decodes to a destination is its address.  No other
    destination has an address: the encoding is empty. *)
Theorem Address_codec (d : CTxDestination) (s : bytes) :
  (valid_destination d -> exists a, EncodeDestination d = Ok a /\ a <> [] /\ no_space a /\ DecodeDestination a = Ok d) /\
  (no_space s -> Z.of_nat (length s) < 2 ^ 29 -> DecodeDestination s = Ok d -> d <> CNoDestination ->
   EncodeDestination d = Ok s) /\
  EncodeDestination CNoDestination = Ok [].
Proof.
  split; [|split].
  - intros V; destruct (Set_spec d V) as (v & data & E & DV & FD & LD & IV & G).
    destruct (check_there ([v] ++ data)) as (a & EA & NS & DA); [constructor; assumption|rewrite length_app; cbn [length]; lia|].
    assert (R : DecodeDestination a = Ok d).
    { unfold Base58.DecodeDestination, SetString; rewrite DA; cbn [app length bind fst snd firstn skipn Nat.ltb Nat.leb]; now rewrite G. }
    exists a; split_all; auto.
    + unfold Base58.EncodeDestination; rewrite E, IV; exact EA.
    + intros ->; clear - R V; unfold Base58.DecodeDestination in R; vm_compute in R; injection R as <-; exact V.
  - intros NS L R N; unfold Base58.DecodeDestination, SetString in R; apply bind_ok in R; destruct R as ([ok data] & R & G).
    injection G as G; cbn [snd] in G; destruct (DecodeBase58Check Hash s) as [v|[]] eqn:D; try discriminate R;
      try (injection R as <- <-; rewrite <- G in N; destruct N; unfold Get, IsValid; reflexivity).
    destruct (Nat.ltb_spec (length v) 1); injection R as <- <-; [rewrite <- G in N; destruct N; reflexivity|].
    destruct v as [|x v]; [cbn in *; lia|]; cbn [firstn skipn] in G; apply Get_spec in G; [|exact N]; destruct G as [G IV].
    unfold Base58.EncodeDestination; rewrite G, IV; exact (check_back s _ NS L D).
  - reflexivity.
Qed.
End Addresses.

Lemma Address_codec_witness :
  let Hash := fun _ : bytes => repeat 7 32 in let d := CKeyID (repeat 1 20) in
  exists a, EncodeDestination Hash main_prefixes d = Ok a /\ DecodeDestination Hash main_prefixes a = Ok d.
Proof.
  intros Hash d; assert (B : forall k n, digit 256 k -> Forall (digit 256) (repeat k n)).
  { intros k n D; apply Forall_forall; intros x I; apply repeat_spec in I; now subst. }
  destruct (Address_codec Hash main_prefixes) with (d := d) (s := @nil Z) as ((a & E & _ & _ & D) & _).
  - intros b; split; [apply B; unfold digit; lia|reflexivity].
  - exists 60, 122; unfold digit; split_all; auto; lia.
  - split; [apply B; unfold digit; lia|reflexivity].
  - exists a; split; [exact E|exact D].
Defined.
