(* ===== verification/Coins.v ===== *)
(** The set of unspent outputs (src/coins.h, src/coins.cpp and the coin
    database of src/txdb.cpp): views, the write-back cache with its DIRTY and
    FRESH flags, stacks of caches, and the database with its partial batches.

    A view is a type with the operations of class [CCoinsView]; the cache is a
    view over any view, so that stacks of caches are instances of the same
    definitions.  Methods that are [const] in the source but fill the cache
    return the new state. *)

From stdpp Require Import base gmap list fin_maps.
From Stdlib Require Import ZArith Lia.
From S2P Require Import Prelude Serialize Script Standard Transaction Compressor AssetTypes.
Open Scope Z_scope.

(** * Keys *)

#[global] Instance bytes_eq_dec : EqDecision bytes := list_eq_dec.
#[global] Instance outpoint_eq_dec : EqDecision COutPoint.
Proof. solve_decision. Defined.
#[global] Instance outpoint_countable : Countable COutPoint.
Proof.
  apply (inj_countable' (fun p => (op_hash p : list Z, op_n p)) (fun x => mkOutPoint (fst x) (snd x))).
  intros []; reflexivity.
Defined.

(** * Entries and views *)

(** The two bits of [flags] as fields. *)
Record CCoinsCacheEntry := mkEntry { entry_coin : Coin; DIRTY : bool; FRESH : bool }.

Abbreviation CCoinsMap := (gmap COutPoint CCoinsCacheEntry).

(** The state, the result of [BatchWrite] is [None] where it throws or an
    assertion fails. *)
Class CCoinsView (V : Type) := {
  view_GetCoin : V -> COutPoint -> option Coin * V;
  view_GetBestBlock : V -> bytes * V;
  view_BatchWrite : V -> list (COutPoint * CCoinsCacheEntry) -> bytes -> option (bool * V)
}.

(** [CCoinsView::HaveCoin] *)
Definition view_HaveCoin `{CCoinsView V} (v : V) (p : COutPoint) : bool * V :=
  let '(r, v) := view_GetCoin v p in (is_some r, v).

(** * The cache *)

Record CCoinsViewCache (V : Type) := mkCache {
  base : V;
  hashBlock : bytes;
  cacheCoins : CCoinsMap;
  cachedCoinsUsage : Z
}.
Arguments mkCache {V} _ _ _ _.
Arguments base {V} _.
Arguments hashBlock {V} _.
Arguments cacheCoins {V} _.
Arguments cachedCoinsUsage {V} _.

Inductive add_error := AddSpentCoin | AddOverUnspent.

Section Cache.
Context `{CCoinsView V}.

(** [memusage::DynamicUsage] of a script: its heap memory. *)
Variable DynamicUsage : CScript -> Z.

Definition coin_usage (c : Coin) : Z := DynamicUsage (scriptPubKey (coin_out c)).

Definition new_cache (baseIn : V) : CCoinsViewCache V := mkCache baseIn uint256_null ∅ 0.

Definition with_entry (c : CCoinsViewCache V) (p : COutPoint) (e : CCoinsCacheEntry) (delta : Z)
  : CCoinsViewCache V :=
  mkCache (base c) (hashBlock c) (<[p := e]> (cacheCoins c)) (w64 (cachedCoinsUsage c + delta)).
Definition without_entry (c : CCoinsViewCache V) (p : COutPoint) (delta : Z) : CCoinsViewCache V :=
  mkCache (base c) (hashBlock c) (delete p (cacheCoins c)) (w64 (cachedCoinsUsage c + delta)).
Definition with_base (c : CCoinsViewCache V) (b : V) : CCoinsViewCache V :=
  mkCache b (hashBlock c) (cacheCoins c) (cachedCoinsUsage c).

Definition FetchCoin (c : CCoinsViewCache V) (p : COutPoint)
  : option CCoinsCacheEntry * CCoinsViewCache V :=
  match cacheCoins c !! p with
  | Some e => (Some e, c)
  | None =>
      let '(r, b) := view_GetCoin (base c) p in
      let c := with_base c b in
      match r with
      | None => (None, c)
      | Some tmp =>
          let e := mkEntry tmp false (IsSpent tmp) in
          (Some e, with_entry c p e (coin_usage tmp))
      end
  end.

Definition GetCoin (c : CCoinsViewCache V) (p : COutPoint) : option Coin * CCoinsViewCache V :=
  let '(it, c) := FetchCoin c p in
  (match it with
   | Some e => if IsSpent (entry_coin e) then None else Some (entry_coin e)
   | None => None
   end, c).

Definition AccessCoin (c : CCoinsViewCache V) (p : COutPoint) : Coin * CCoinsViewCache V :=
  let '(it, c) := FetchCoin c p in
  (match it with Some e => entry_coin e | None => coinEmpty end, c).

Definition HaveCoin (c : CCoinsViewCache V) (p : COutPoint) : bool * CCoinsViewCache V :=
  let '(it, c) := FetchCoin c p in
  (match it with Some e => negb (IsSpent (entry_coin e)) | None => false end, c).

Definition HaveCoinInCache (c : CCoinsViewCache V) (p : COutPoint) : bool :=
  match cacheCoins c !! p with Some e => negb (IsSpent (entry_coin e)) | None => false end.

Definition AddCoin (c : CCoinsViewCache V) (p : COutPoint) (coin : Coin) (possible_overwrite : bool)
  : result add_error (CCoinsViewCache V) :=
  if IsSpent coin then Err AddSpentCoin
  else if IsUnspendable (scriptPubKey (coin_out coin)) then Ok c
  else
    let '(it, freed) :=
      match cacheCoins c !! p with
      | Some e => (e, coin_usage (entry_coin e))
      | None => (mkEntry coinEmpty false false, 0)
      end in
    if negb possible_overwrite && negb (IsSpent (entry_coin it)) then Err AddOverUnspent
    else
      let fresh := negb possible_overwrite && negb (DIRTY it) in
      Ok (with_entry c p (mkEntry coin true (FRESH it || fresh)) (coin_usage coin - freed)).

Section Spend.
(** The cache of assets that is told of spent outputs, and the activation of
    assets. *)
Context {A : Type} (TrySpendCoin : A -> COutPoint -> CTxOut -> bool * A).
Variable AreAssetsDeployed : bool.

(** The result, the coin moved out, and the states. *)
Definition SpendCoin (c : CCoinsViewCache V) (p : COutPoint) (assetsCache : option A)
  : bool * option Coin * CCoinsViewCache V * option A :=
  match FetchCoin c p with
  | (None, c) => (false, None, c, assetsCache)
  | (Some it, c) =>
      let tempCoin := entry_coin it in
      let c :=
        if FRESH it then without_entry c p (- coin_usage tempCoin)
        else with_entry c p (mkEntry (coin_Clear tempCoin) true false) (- coin_usage tempCoin) in
      match assetsCache with
      | Some assets =>
          if AreAssetsDeployed then
            let '(ok, assets) := TrySpendCoin assets p (coin_out tempCoin) in
            (ok, Some tempCoin, c, Some assets)
          else (true, Some tempCoin, c, assetsCache)
      | None => (true, Some tempCoin, c, assetsCache)
      end
  end.
End Spend.

Definition GetBestBlock (c : CCoinsViewCache V) : bytes * CCoinsViewCache V :=
  if uint256_IsNull (hashBlock c) then
    let '(h, b) := view_GetBestBlock (base c) in
    (h, mkCache b h (cacheCoins c) (cachedCoinsUsage c))
  else (hashBlock c, c).

Definition SetBestBlock (c : CCoinsViewCache V) (hashBlockIn : bytes) : CCoinsViewCache V :=
  mkCache (base c) hashBlockIn (cacheCoins c) (cachedCoinsUsage c).

(** One round of the loop of [BatchWrite]: entry [it] of the child at [p];
    [None] for the exception on a misapplied FRESH flag. *)
Definition batch_step (c : CCoinsViewCache V) (p : COutPoint) (it : CCoinsCacheEntry)
  : option (CCoinsViewCache V) :=
  if DIRTY it then
    match cacheCoins c !! p with
    | None =>
        if negb (FRESH it && IsSpent (entry_coin it)) then
          Some (with_entry c p (mkEntry (entry_coin it) true (FRESH it)) (coin_usage (entry_coin it)))
        else Some c
    | Some itUs =>
        if FRESH it && negb (IsSpent (entry_coin itUs)) then None
        else if FRESH itUs && IsSpent (entry_coin it) then
          Some (without_entry c p (- coin_usage (entry_coin itUs)))
        else
          Some (with_entry c p (mkEntry (entry_coin it) true (FRESH itUs))
                  (coin_usage (entry_coin it) - coin_usage (entry_coin itUs)))
    end
  else Some c.

Fixpoint batch_loop (c : CCoinsViewCache V) (mapCoins : list (COutPoint * CCoinsCacheEntry))
  : option (CCoinsViewCache V) :=
  match mapCoins with
  | [] => Some c
  | (p, it) :: mapCoins' =>
      match batch_step c p it with
      | Some c' => batch_loop c' mapCoins'
      | None => None
      end
  end.

(** [mapCoins] lists the entries of the map in the order of the iteration. *)
Definition BatchWrite (c : CCoinsViewCache V) (mapCoins : list (COutPoint * CCoinsCacheEntry))
    (hashBlockIn : bytes) : option (bool * CCoinsViewCache V) :=
  match batch_loop c mapCoins with
  | Some c' => Some (true, SetBestBlock c' hashBlockIn)
  | None => None
  end.

Definition Flush (c : CCoinsViewCache V) : option (bool * CCoinsViewCache V) :=
  match view_BatchWrite (base c) (map_to_list (cacheCoins c)) (hashBlock c) with
  | Some (fOk, b) => Some (fOk, mkCache b (hashBlock c) ∅ 0)
  | None => None
  end.

Definition Uncache (c : CCoinsViewCache V) (p : COutPoint) : CCoinsViewCache V :=
  match cacheCoins c !! p with
  | Some it =>
      if negb (DIRTY it) && negb (FRESH it) then without_entry c p (- coin_usage (entry_coin it)) else c
  | None => c
  end.

Definition GetCacheSize (c : CCoinsViewCache V) : Z := w32 (Z.of_nat (size (cacheCoins c))).

Fixpoint value_in_loop (c : CCoinsViewCache V) (ins : list CTxIn) (nResult : Z) : Z * CCoinsViewCache V :=
  match ins with
  | [] => (nResult, c)
  | i :: ins' =>
      let '(coin, c) := AccessCoin c (prevout i) in
      value_in_loop c ins' (s64 (nResult + nValue (coin_out coin)))
  end.

Definition GetValueIn (c : CCoinsViewCache V) (tx : CTransaction) : Z * CCoinsViewCache V :=
  if IsCoinBase tx then (0, c) else value_in_loop c (vin tx) 0.

Fixpoint have_inputs_loop (c : CCoinsViewCache V) (ins : list CTxIn) : bool * CCoinsViewCache V :=
  match ins with
  | [] => (true, c)
  | i :: ins' =>
      let '(have, c) := HaveCoin c (prevout i) in
      if negb have then (false, c) else have_inputs_loop c ins'
  end.

Definition HaveInputs (c : CCoinsViewCache V) (tx : CTransaction) : bool * CCoinsViewCache V :=
  if negb (IsCoinBase tx) then have_inputs_loop c (vin tx) else (true, c).

(** [AddCoins] without an asset cache; [txid] is the hash of [tx] and [i]
    the index of the first of [outs]. *)
Fixpoint add_coins_loop (c : CCoinsViewCache V) (txid : bytes) (fCoinbase check : bool) (height : Z)
    (outs : list CTxOut) (i : Z) : result add_error (CCoinsViewCache V) :=
  match outs with
  | [] => Ok c
  | o :: outs' =>
      let '(overwrite, c) := if check then HaveCoin c (mkOutPoint txid i) else (fCoinbase, c) in
      let! c := AddCoin c (mkOutPoint txid i) (new_coin o height fCoinbase) overwrite in
      add_coins_loop c txid fCoinbase check height outs' (i + 1)
  end.

Definition AddCoins (c : CCoinsViewCache V) (tx : CTransaction) (txid : bytes) (height : Z) (check : bool)
  : result add_error (CCoinsViewCache V) :=
  add_coins_loop c txid (IsCoinBase tx) check height (vout tx) 0.

(** At most [tries] outputs, [GetMaxBlockWeight() / MIN_TRANSACTION_OUTPUT_WEIGHT]
    in the source. *)
Fixpoint access_loop (tries : nat) (c : CCoinsViewCache V) (txid : bytes) (n : Z)
  : Coin * CCoinsViewCache V :=
  match tries with
  | O => (coinEmpty, c)
  | S tries' =>
      let '(alternate, c) := AccessCoin c (mkOutPoint txid n) in
      if negb (IsSpent alternate) then (alternate, c) else access_loop tries' c txid (n + 1)
  end.
Definition MIN_TRANSACTION_OUTPUT_WEIGHT : Z := 4 * Z.of_nat (length (write_txout txout_null)).
Definition AccessByTxid (c : CCoinsViewCache V) (txid : bytes) : Coin * CCoinsViewCache V :=
  access_loop (Z.to_nat (MAX_BLOCK_WEIGHT_RIP2 / MIN_TRANSACTION_OUTPUT_WEIGHT)) c txid 0.
End Cache.

(** A cache is a view. *)
#[global] Instance cache_view `{CCoinsView V} (DynamicUsage : CScript -> Z) : CCoinsView (CCoinsViewCache V) := {
  view_GetCoin := GetCoin DynamicUsage;
  view_GetBestBlock := GetBestBlock;
  view_BatchWrite := BatchWrite DynamicUsage
}.

(** * The coin database *)

(** The records of the key-value store: coins, the best block, and the pair
    of blocks of a transition in progress. *)
Record CCoinsViewDB := mkDB {
  db_coins : gmap COutPoint Coin;
  db_best : option bytes;
  db_heads : option (list bytes)
}.

Inductive dbop :=
| EraseBest | WriteBest (h : bytes) | EraseHeads | WriteHeads (hs : list bytes)
| EraseCoin (p : COutPoint) | WriteCoin (p : COutPoint) (c : Coin).

Definition apply_op (db : CCoinsViewDB) (op : dbop) : CCoinsViewDB :=
  match op with
  | EraseBest => mkDB (db_coins db) None (db_heads db)
  | WriteBest h => mkDB (db_coins db) (Some h) (db_heads db)
  | EraseHeads => mkDB (db_coins db) (db_best db) None
  | WriteHeads hs => mkDB (db_coins db) (db_best db) (Some hs)
  | EraseCoin p => mkDB (delete p (db_coins db)) (db_best db) (db_heads db)
  | WriteCoin p c => mkDB (<[p := c]> (db_coins db)) (db_best db) (db_heads db)
  end.

(** [db.WriteBatch]: the operations of a batch take effect together. *)
Definition WriteBatch (db : CCoinsViewDB) (batch : list dbop) : CCoinsViewDB := fold_left apply_op batch db.

Definition db_GetCoin (db : CCoinsViewDB) (p : COutPoint) : option Coin := db_coins db !! p.
Definition db_HaveCoin (db : CCoinsViewDB) (p : COutPoint) : bool := is_some (db_coins db !! p).
Definition db_GetBestBlock (db : CCoinsViewDB) : bytes := default uint256_null (db_best db).
Definition db_GetHeadBlocks (db : CCoinsViewDB) : list bytes := default [] (db_heads db).

(** The tip recorded as the old one of the transition; [None] if the
    assertion on the interrupted transition fails. *)
Definition db_old_tip (db : CCoinsViewDB) (hash : bytes) : option bytes :=
  if uint256_IsNull (db_GetBestBlock db) then
    match db_GetHeadBlocks db with
    | [h0; h1] => if bytes_eqb h0 hash then Some h1 else None
    | _ => Some (db_GetBestBlock db)
    end
  else Some (db_GetBestBlock db).

Section Batches.
Variable SizeEstimate : list dbop -> Z.
Variable batch_size : Z.

Definition coin_op (it : COutPoint * CCoinsCacheEntry) : list dbop :=
  if DIRTY (snd it) then
    if IsSpent (entry_coin (snd it)) then [EraseCoin (fst it)] else [WriteCoin (fst it) (entry_coin (snd it))]
  else [].

(** The batches written in the loop and the batch that is left. *)
Fixpoint batches_loop (batch : list dbop) (mapCoins : list (COutPoint * CCoinsCacheEntry))
  : list (list dbop) * list dbop :=
  match mapCoins with
  | [] => ([], batch)
  | it :: mapCoins' =>
      let batch := batch ++ coin_op it in
      if SizeEstimate batch >? batch_size then
        let '(bs, last) := batches_loop [] mapCoins' in (batch :: bs, last)
      else batches_loop batch mapCoins'
  end.

Definition db_batches (old_tip : bytes) (mapCoins : list (COutPoint * CCoinsCacheEntry)) (hash : bytes)
  : list (list dbop) :=
  let '(bs, last) := batches_loop [EraseBest; WriteHeads [hash; old_tip]] mapCoins in
  bs ++ [last ++ [EraseHeads; WriteBest hash]].

Definition db_BatchWrite (db : CCoinsViewDB) (mapCoins : list (COutPoint * CCoinsCacheEntry)) (hash : bytes)
  : option (bool * CCoinsViewDB) :=
  if uint256_IsNull hash then None
  else
    match db_old_tip db hash with
    | None => None
    | Some old_tip => Some (true, fold_left WriteBatch (db_batches old_tip mapCoins hash) db)
    end.

#[global] Instance db_view : CCoinsView CCoinsViewDB := {
  view_GetCoin db p := (db_GetCoin db p, db);
  view_GetBestBlock db := (db_GetBestBlock db, db);
  view_BatchWrite := db_BatchWrite
}.
End Batches.

(** * What a view promises *)

(** The unspent output that an entry stands for. *)
Definition unspent (e : CCoinsCacheEntry) : option Coin :=
  if IsSpent (entry_coin e) then None else Some (entry_coin e).

(** The effect of the modified entries of a cache on a set of outputs. *)
Definition apply_entry (u : gmap COutPoint Coin) (it : COutPoint * CCoinsCacheEntry) : gmap COutPoint Coin :=
  if DIRTY (snd it) then partial_alter (fun _ => unspent (snd it)) (fst it) u else u.
Definition apply_entries (l : list (COutPoint * CCoinsCacheEntry)) (u : gmap COutPoint Coin) :=
  fold_left apply_entry l u.

(** The contract between a cache and the view below it, in terms of the set
    of unspent outputs the view stands for. *)
Class CoinsViewLaws (V : Type) `{CCoinsView V} := {
  utxo : V -> gmap COutPoint Coin;
  view_ok : V -> Prop;
  batch_ok : V -> bytes -> Prop;
  utxo_unspent v p c : view_ok v -> utxo v !! p = Some c -> IsSpent c = false;
  GetCoin_law v p : view_ok v ->
    exists v', view_GetCoin v p = (utxo v !! p, v') /\ utxo v' = utxo v /\ view_ok v' /\
      (forall h, batch_ok v h -> batch_ok v' h);
  GetBestBlock_law v : view_ok v ->
    utxo (snd (view_GetBestBlock v)) = utxo v /\ view_ok (snd (view_GetBestBlock v));
  BatchWrite_law v l h : view_ok v -> batch_ok v h -> NoDup (l.*1) ->
    (forall p e, (p, e) ∈ l -> DIRTY e = true -> FRESH e = true -> utxo v !! p = None) ->
    exists v', view_BatchWrite v l h = Some (true, v') /\ utxo v' = apply_entries l (utxo v) /\
      view_ok v' /\ batch_ok v' h /\ (uint256_IsNull h = false -> fst (view_GetBestBlock v') = h)
}.

Lemma apply_entries_lookup (l : list (COutPoint * CCoinsCacheEntry)) (u : gmap COutPoint Coin) (p : COutPoint) :
  NoDup (l.*1) ->
  apply_entries l u !! p =
  match (list_to_map l : CCoinsMap) !! p with
  | Some e => if DIRTY e then unspent e else u !! p
  | None => u !! p
  end.
Proof.
  revert u; induction l as [| [q e] l IH]; intros u Hnd; [reflexivity |].
  apply NoDup_cons in Hnd; destruct Hnd as [Hq Hnd]; rewrite list_to_map_cons.
  change (apply_entries ((q, e) :: l) u) with (apply_entries l (apply_entry u (q, e))).
  rewrite IH by exact Hnd.
  destruct (decide (q = p)) as [-> | Hne].
  - rewrite lookup_insert_eq, (not_elem_of_list_to_map_1 l p Hq); unfold apply_entry; cbn [fst snd].
    destruct (DIRTY e); [apply lookup_partial_alter_eq | reflexivity].
  - rewrite lookup_insert_ne by exact Hne; unfold apply_entry; cbn [fst snd].
    assert (E : (if DIRTY e then partial_alter (fun _ => unspent e) q u else u) !! p = u !! p)
      by (destruct (DIRTY e); [apply lookup_partial_alter_ne, Hne | reflexivity]).
    rewrite E; reflexivity.
Qed.

(** * The cache keeps the contract *)

Section Laws.
Context `{CoinsViewLaws V}.
Variable DynamicUsage : CScript -> Z.
(** An empty script has no memory on the heap. *)
Hypothesis usage_nil : DynamicUsage [] = 0.

Local Abbreviation usage e := (coin_usage DynamicUsage (entry_coin e)).

Definition total_usage (m : CCoinsMap) : Z := map_fold (fun _ e acc => usage e + acc) 0 m.

Lemma total_usage_insert (m : CCoinsMap) (p : COutPoint) (e : CCoinsCacheEntry) : m !! p = None ->
  total_usage (<[p := e]> m) = usage e + total_usage m.
Proof.
  intros Hp; unfold total_usage; rewrite map_fold_insert_L; [reflexivity | | exact Hp].
  intros; lia.
Qed.

Lemma total_usage_delete (m : CCoinsMap) (p : COutPoint) (e : CCoinsCacheEntry) : m !! p = Some e ->
  total_usage (delete p m) = total_usage m - usage e.
Proof.
  intros Hp; rewrite <- (insert_delete_id m p e Hp) at 2.
  rewrite total_usage_insert by apply lookup_delete_eq; lia.
Qed.

Definition old_usage (o : option CCoinsCacheEntry) : Z := match o with Some e => usage e | None => 0 end.

Lemma total_usage_set (m : CCoinsMap) (p : COutPoint) (e : CCoinsCacheEntry) :
  total_usage (<[p := e]> m) = total_usage m + (usage e - old_usage (m !! p)).
Proof.
  destruct (m !! p) as [e0 |] eqn:E; cbn [old_usage].
  - rewrite <- insert_delete_eq, total_usage_insert by apply lookup_delete_eq.
    rewrite (total_usage_delete m p e0 E); lia.
  - rewrite total_usage_insert by exact E; lia.
Qed.

(** FRESH: the view below has no unspent output here; not DIRTY: the entry
    and the view below agree. *)
Definition entry_ok (e : CCoinsCacheEntry) (below : option Coin) : Prop :=
  (FRESH e = true -> below = None) /\ (DIRTY e = false -> unspent e = below).

Record cache_ok (c : CCoinsViewCache V) : Prop := {
  base_ok : view_ok (base c);
  entries_ok p e : cacheCoins c !! p = Some e -> entry_ok e (utxo (base c) !! p);
  usage_ok : cachedCoinsUsage c = w64 (total_usage (cacheCoins c))
}.

(** The unspent outputs a cache stands for. *)
Definition cache_utxo (c : CCoinsViewCache V) : gmap COutPoint Coin :=
  merge (fun oe ob => match oe with Some e => unspent e | None => ob end) (cacheCoins c) (utxo (base c)).

Lemma cache_utxo_lookup (c : CCoinsViewCache V) (p : COutPoint) :
  cache_utxo c !! p = match cacheCoins c !! p with Some e => unspent e | None => utxo (base c) !! p end.
Proof.
  unfold cache_utxo; rewrite lookup_merge; destruct (cacheCoins c !! p), (utxo (base c) !! p); reflexivity.
Qed.

Lemma w64_add (a b : Z) : w64 (w64 a + b) = w64 (a + b).
Proof. unfold w64, wrap; apply Zplus_mod_idemp_l. Qed.

Lemma with_entry_ok (c : CCoinsViewCache V) (p : COutPoint) (e : CCoinsCacheEntry) (delta : Z) :
  cache_ok c -> entry_ok e (utxo (base c) !! p) -> delta = usage e - old_usage (cacheCoins c !! p) ->
  cache_ok (with_entry c p e delta) /\
  cache_utxo (with_entry c p e delta) = partial_alter (fun _ => unspent e) p (cache_utxo c).
Proof.
  intros [Hb He Hu] Hn ->; split.
  - split; cbn; [exact Hb | | rewrite Hu, w64_add, total_usage_set; reflexivity].
    intros q e' Hq; destruct (decide (p = q)) as [-> | Hne].
    + rewrite lookup_insert_eq in Hq; injection Hq as <-; exact Hn.
    + rewrite lookup_insert_ne in Hq by exact Hne; apply He, Hq.
  - apply map_eq; intros q; rewrite cache_utxo_lookup; cbn.
    destruct (decide (p = q)) as [-> | Hne].
    + rewrite lookup_insert_eq, lookup_partial_alter_eq; reflexivity.
    + rewrite lookup_insert_ne, lookup_partial_alter_ne, cache_utxo_lookup by exact Hne; reflexivity.
Qed.

Lemma without_entry_ok (c : CCoinsViewCache V) (p : COutPoint) (e : CCoinsCacheEntry) :
  cache_ok c -> cacheCoins c !! p = Some e ->
  cache_ok (without_entry c p (- usage e)) /\
  cache_utxo (without_entry c p (- usage e)) = partial_alter (fun _ => utxo (base c) !! p) p (cache_utxo c).
Proof.
  intros [Hb He Hu] Hp; split.
  - split; cbn; [exact Hb | | rewrite Hu, w64_add, (total_usage_delete _ p e Hp); f_equal; lia].
    intros q e' Hq; apply lookup_delete_Some in Hq; apply He, Hq.
  - apply map_eq; intros q; rewrite cache_utxo_lookup; cbn.
    destruct (decide (p = q)) as [-> | Hne].
    + rewrite lookup_delete_eq, lookup_partial_alter_eq; reflexivity.
    + rewrite lookup_delete_ne, lookup_partial_alter_ne, cache_utxo_lookup by exact Hne; reflexivity.
Qed.

Lemma with_base_ok (c : CCoinsViewCache V) (b : V) :
  cache_ok c -> utxo b = utxo (base c) -> view_ok b ->
  cache_ok (with_base c b) /\ cache_utxo (with_base c b) = cache_utxo c.
Proof.
  intros [Hb He Hu] Hub Hvb; split; [split; cbn; rewrite ?Hub; auto |].
  unfold cache_utxo, with_base; cbn; rewrite Hub; reflexivity.
Qed.

Lemma unchanged (u : gmap COutPoint Coin) (p : COutPoint) (o : option Coin) : u !! p = o ->
  partial_alter (fun _ => o) p u = u.
Proof.
  intros E; apply map_eq; intros q; destruct (decide (p = q)) as [-> | Hne].
  - rewrite lookup_partial_alter_eq; auto.
  - rewrite lookup_partial_alter_ne by exact Hne; reflexivity.
Qed.

Lemma FetchCoin_spec (c : CCoinsViewCache V) (p : COutPoint) : cache_ok c ->
  exists it c', FetchCoin DynamicUsage c p = (it, c') /\ cache_ok c' /\ cache_utxo c' = cache_utxo c /\
    cacheCoins c' !! p = it /\ (it ≫= unspent) = cache_utxo c !! p /\ hashBlock c' = hashBlock c /\
    (forall h, batch_ok (base c) h -> batch_ok (base c') h) /\ utxo (base c') = utxo (base c).
Proof.
  intros Hc; unfold FetchCoin; rewrite cache_utxo_lookup; destruct (cacheCoins c !! p) as [e |] eqn:E.
  { exists (Some e), c; split_all; auto. }
  destruct (GetCoin_law (base c) p (base_ok c Hc)) as (b & -> & Hub & Hvb & Hbb).
  destruct (with_base_ok c b Hc Hub Hvb) as [Hc1 Hu1].
  destruct (utxo (base c) !! p) as [tmp |] eqn:Ep; [| exists None, (with_base c b); split_all; auto].
  assert (Hs : IsSpent tmp = false) by apply (utxo_unspent _ _ _ (base_ok c Hc) Ep).
  set (e := mkEntry tmp false (IsSpent tmp)).
  assert (Hue : unspent e = Some tmp) by (unfold unspent; cbn; rewrite Hs; reflexivity).
  assert (Eb : utxo (base (with_base c b)) !! p = Some tmp) by (cbn; rewrite Hub; exact Ep).
  destruct (with_entry_ok (with_base c b) p e (coin_usage DynamicUsage tmp) Hc1) as [Hc2 Hu2].
  - rewrite Eb; split; cbn; [rewrite Hs; discriminate | intros _; exact Hue].
  - cbn; rewrite E; cbn; lia.
  - exists (Some e), (with_entry (with_base c b) p e (coin_usage DynamicUsage tmp)).
    split_all; auto; [| apply lookup_insert_eq].
    rewrite Hu2, Hue, unchanged; [exact Hu1 |].
    rewrite Hu1, cache_utxo_lookup, E; exact Ep.
Qed.

Lemma GetCoin_spec (c : CCoinsViewCache V) (p : COutPoint) : cache_ok c ->
  exists c', GetCoin DynamicUsage c p = (cache_utxo c !! p, c') /\ cache_ok c' /\
    cache_utxo c' = cache_utxo c /\ (forall h, batch_ok (base c) h -> batch_ok (base c') h).
Proof.
  intros Hc; destruct (FetchCoin_spec c p Hc) as (it & c' & E & Hc' & Hu & _ & Hr & _ & Hb & _).
  exists c'; unfold GetCoin; rewrite E, <- Hr; split_all; auto; destruct it; reflexivity.
Qed.

Lemma HaveCoin_spec (c : CCoinsViewCache V) (p : COutPoint) : cache_ok c ->
  exists c', HaveCoin DynamicUsage c p = (is_some (cache_utxo c !! p), c') /\ cache_ok c' /\
    cache_utxo c' = cache_utxo c.
Proof.
  intros Hc; destruct (FetchCoin_spec c p Hc) as (it & c' & E & Hc' & Hu & _ & Hr & _).
  exists c'; unfold HaveCoin; rewrite E, <- Hr; split_all; auto.
  destruct it as [e |]; [| reflexivity]; cbn; unfold unspent; destruct (IsSpent (entry_coin e)); reflexivity.
Qed.

Lemma AccessCoin_spec (c : CCoinsViewCache V) (p : COutPoint) : cache_ok c ->
  exists coin c', AccessCoin DynamicUsage c p = (coin, c') /\ cache_ok c' /\ cache_utxo c' = cache_utxo c /\
    cache_utxo c !! p = (if IsSpent coin then None else Some coin).
Proof.
  intros Hc; destruct (FetchCoin_spec c p Hc) as (it & c' & E & Hc' & Hu & _ & Hr & _).
  exists (match it with Some e => entry_coin e | None => coinEmpty end), c'; unfold AccessCoin.
  rewrite E; split_all; auto; rewrite <- Hr; destruct it; reflexivity.
Qed.

Lemma AddCoin_spec (c : CCoinsViewCache V) (p : COutPoint) (coin : Coin) (overwrite : bool) : cache_ok c ->
  IsSpent coin = false -> IsUnspendable (scriptPubKey (coin_out coin)) = false ->
  (overwrite = false -> cache_utxo c !! p = None) ->
  exists c', AddCoin DynamicUsage c p coin overwrite = Ok c' /\ cache_ok c' /\
    cache_utxo c' = <[p := coin]> (cache_utxo c).
Proof.
  intros Hc Hs Hun Hnew; unfold AddCoin; rewrite Hs, Hun, cache_utxo_lookup in *.
  assert (Hue : forall fr, unspent (mkEntry coin true fr) = Some coin)
    by (intros; unfold unspent; cbn; rewrite Hs; reflexivity).
  pose proof (entries_ok c Hc p) as He; destruct (cacheCoins c !! p) as [e |] eqn:E.
  - destruct (He e eq_refl) as [Hf Hd].
    assert (Hov : negb overwrite && negb (IsSpent (entry_coin e)) = false).
    { destruct overwrite; [reflexivity |]; specialize (Hnew eq_refl); unfold unspent in Hnew.
      destruct (IsSpent (entry_coin e)); [reflexivity | discriminate]. }
    rewrite Hov; eexists; split; [reflexivity |].
    destruct (with_entry_ok c p (mkEntry coin true (FRESH e || (negb overwrite && negb (DIRTY e))))
      (coin_usage DynamicUsage coin - usage e) Hc) as [H1 H2]; [| rewrite E; reflexivity |].
    + split; [| discriminate]; cbn; intros Hfr; apply orb_true_iff in Hfr; destruct Hfr as [Hfr | Hfr]; auto.
      apply andb_true_iff in Hfr; destruct Hfr as [Ho Hd']; apply negb_true_iff in Ho, Hd'.
      rewrite <- (Hd Hd'); auto.
    + split; [exact H1 | rewrite H2, Hue; reflexivity].
  - cbn [IsSpent entry_coin coinEmpty coin_out txout_IsNull txout_null nValue]; rewrite andb_false_r.
    cbn [FRESH DIRTY orb negb].
    eexists; split; [reflexivity |].
    destruct (with_entry_ok c p (mkEntry coin true (negb overwrite && true))
      (coin_usage DynamicUsage coin - 0) Hc) as [H1 H2]; [| rewrite E; reflexivity |].
    + split; [| discriminate]; cbn; rewrite andb_true_r; intros Ho; apply negb_true_iff in Ho; auto.
    + split; [exact H1 | rewrite H2, Hue; reflexivity].
Qed.

(** What an output leaves in the cache once it is spent. *)
Lemma spend_entry (c : CCoinsViewCache V) (p : COutPoint) (e : CCoinsCacheEntry) : cache_ok c ->
  cacheCoins c !! p = Some e ->
  let c' := if FRESH e then without_entry c p (- usage e)
            else with_entry c p (mkEntry (coin_Clear (entry_coin e)) true false) (- usage e) in
  cache_ok c' /\ cache_utxo c' = delete p (cache_utxo c).
Proof.
  intros Hc E; destruct (entries_ok c Hc p e E) as [Hf _]; destruct (FRESH e).
  - destruct (without_entry_ok c p e Hc E) as [H1 H2]; split; [exact H1 |].
    rewrite H2, (Hf eq_refl); reflexivity.
  - destruct (with_entry_ok c p (mkEntry (coin_Clear (entry_coin e)) true false) (- usage e) Hc) as [H1 H2].
    + split; discriminate.
    + rewrite E; cbn; unfold coin_usage; cbn; rewrite usage_nil; lia.
    + split; [exact H1 | rewrite H2; reflexivity].
Qed.

Lemma SpendCoin_spec {A : Type} (TrySpendCoin : A -> COutPoint -> CTxOut -> bool * A) (deployed : bool)
    (c : CCoinsViewCache V) (p : COutPoint) (assets : option A) : cache_ok c ->
  exists ok moved c' assets', SpendCoin DynamicUsage TrySpendCoin deployed c p assets = (ok, moved, c', assets') /\
    cache_ok c' /\ cache_utxo c' = delete p (cache_utxo c) /\
    (forall coin, cache_utxo c !! p = Some coin ->
       moved = Some coin /\
       match assets with
       | Some a => if deployed then (ok, assets') = (fst (TrySpendCoin a p (coin_out coin)),
                                                     Some (snd (TrySpendCoin a p (coin_out coin))))
                   else ok = true /\ assets' = assets
       | None => ok = true /\ assets' = None
       end) /\
    (assets = None -> ok = false -> cache_utxo c !! p = None).
Proof.
  intros Hc; destruct (FetchCoin_spec c p Hc) as (it & c1 & E & Hc1 & Hu & Hit & Hr & _).
  unfold SpendCoin; rewrite E; destruct it as [e |]; cbn in Hr.
  - destruct (spend_entry c1 p e Hc1 Hit) as [H1 H2]; rewrite Hu in H2.
    set (c2 := if FRESH e then _ else _) in *.
    assert (Hm : forall coin, cache_utxo c !! p = Some coin -> entry_coin e = coin).
    { intros coin Hcoin; rewrite Hcoin in Hr; unfold unspent in Hr.
      destruct (IsSpent (entry_coin e)); congruence. }
    destruct assets as [a |]; [destruct deployed |]; [destruct (TrySpendCoin a p (coin_out (entry_coin e))) eqn:ET | |];
      eexists _, _, _, _; (split; [reflexivity |]); split_all; auto; try discriminate;
      intros coin Hcoin; apply Hm in Hcoin; subst coin; rewrite ?ET; auto.
  - exists false, None, c1, assets; split_all; auto.
    + rewrite Hu, delete_id; auto.
    + rewrite <- Hr; discriminate.
Qed.

Lemma Uncache_spec (c : CCoinsViewCache V) (p : COutPoint) : cache_ok c ->
  cache_ok (Uncache DynamicUsage c p) /\ cache_utxo (Uncache DynamicUsage c p) = cache_utxo c.
Proof.
  intros Hc; unfold Uncache; destruct (cacheCoins c !! p) as [e |] eqn:E; [| auto].
  destruct (negb (DIRTY e) && negb (FRESH e)) eqn:Ef; [| auto].
  apply andb_true_iff in Ef; destruct Ef as [Ed _]; apply negb_true_iff in Ed.
  destruct (without_entry_ok c p e Hc E) as [H1 H2]; split; [exact H1 |]; rewrite H2, unchanged; auto.
  rewrite cache_utxo_lookup, E; apply (entries_ok c Hc p e E), Ed.
Qed.

Lemma batch_step_spec (c : CCoinsViewCache V) (p : COutPoint) (it : CCoinsCacheEntry) : cache_ok c ->
  (DIRTY it = true -> FRESH it = true -> cache_utxo c !! p = None) ->
  exists c', batch_step DynamicUsage c p it = Some c' /\ cache_ok c' /\
    cache_utxo c' = apply_entry (cache_utxo c) (p, it) /\ base c' = base c.
Proof.
  intros Hc Hf; unfold batch_step, apply_entry; cbn [fst snd]; destruct (DIRTY it) eqn:Ed; [| eauto].
  specialize (Hf eq_refl); rewrite cache_utxo_lookup in Hf; pose proof (entries_ok c Hc p) as He.
  destruct (cacheCoins c !! p) as [us |] eqn:E.
  - destruct (He us eq_refl) as [Hfu _].
    assert (Hno : FRESH it && negb (IsSpent (entry_coin us)) = false).
    { destruct (FRESH it); [| reflexivity]; specialize (Hf eq_refl); unfold unspent in Hf.
      destruct (IsSpent (entry_coin us)); [reflexivity | discriminate]. }
    rewrite Hno; destruct (FRESH us && IsSpent (entry_coin it)) eqn:Ef.
    + apply andb_true_iff in Ef; destruct Ef as [Ef Es].
      destruct (without_entry_ok c p us Hc E) as [H1 H2]; eexists; split_all; eauto.
      rewrite H2, (Hfu Ef); unfold unspent; rewrite Es; reflexivity.
    + destruct (with_entry_ok c p (mkEntry (entry_coin it) true (FRESH us))
        (usage it - usage us) Hc) as [H1 H2]; [split; [exact Hfu | discriminate] | rewrite E; reflexivity |].
      eexists; split_all; eauto.
  - destruct (FRESH it && IsSpent (entry_coin it)) eqn:Ef; cbn [negb].
    + apply andb_true_iff in Ef; destruct Ef as [Ef Es]; exists c; split_all; auto.
      rewrite unchanged; [reflexivity |]; rewrite cache_utxo_lookup, E, (Hf Ef); unfold unspent; rewrite Es; reflexivity.
    + destruct (with_entry_ok c p (mkEntry (entry_coin it) true (FRESH it)) (usage it) Hc) as [H1 H2];
        [split; [exact Hf | discriminate] | rewrite E; cbn; lia |].
      eexists; split_all; eauto.
Qed.

Lemma batch_loop_spec (l : list (COutPoint * CCoinsCacheEntry)) : forall c, cache_ok c -> NoDup (l.*1) ->
  (forall p e, (p, e) ∈ l -> DIRTY e = true -> FRESH e = true -> cache_utxo c !! p = None) ->
  exists c', batch_loop DynamicUsage c l = Some c' /\ cache_ok c' /\
    cache_utxo c' = apply_entries l (cache_utxo c) /\ base c' = base c.
Proof.
  induction l as [| [p it] l IH]; intros c Hc Hnd Hf; [exists c; auto |].
  apply NoDup_cons in Hnd; destruct Hnd as [Hp Hnd]; cbn [batch_loop].
  destruct (batch_step_spec c p it Hc) as (c1 & -> & Hc1 & Hu1 & Hb1); [apply Hf; left |].
  destruct (IH c1 Hc1 Hnd) as (c2 & -> & Hc2 & Hu2 & Hb2).
  - intros q e Hq Hd Hfr; rewrite Hu1; unfold apply_entry; cbn [fst snd].
    assert (Hne : p <> q) by (intros ->; apply Hp, (list_elem_of_fmap_2 fst l (q, e)), Hq).
    destruct (DIRTY it); [rewrite lookup_partial_alter_ne by exact Hne |]; apply (Hf q e); auto; right; exact Hq.
  - exists c2; split_all; auto; [| congruence]; rewrite Hu2, Hu1; reflexivity.
Qed.

Lemma cache_entry_fresh (c : CCoinsViewCache V) (p : COutPoint) (e : CCoinsCacheEntry) : cache_ok c ->
  (p, e) ∈ map_to_list (cacheCoins c) -> DIRTY e = true -> FRESH e = true -> utxo (base c) !! p = None.
Proof. intros Hc Hp _ Hf; apply elem_of_map_to_list in Hp; apply (entries_ok c Hc p e Hp), Hf. Qed.

(** Writing the modified entries to the view below makes it stand for what
    the cache stood for. *)
Lemma flush_utxo (c : CCoinsViewCache V) : cache_ok c ->
  apply_entries (map_to_list (cacheCoins c)) (utxo (base c)) = cache_utxo c.
Proof.
  intros Hc; apply map_eq; intros p; rewrite apply_entries_lookup by apply NoDup_fst_map_to_list.
  rewrite list_to_map_to_list, cache_utxo_lookup; destruct (cacheCoins c !! p) as [e |] eqn:E; [| reflexivity].
  destruct (DIRTY e) eqn:Ed; [reflexivity |]; symmetry; apply (entries_ok c Hc p e E), Ed.
Qed.

Lemma Flush_spec (c : CCoinsViewCache V) : cache_ok c -> batch_ok (base c) (hashBlock c) ->
  exists c', Flush c = Some (true, c') /\ cache_ok c' /\ cacheCoins c' = ∅ /\
    utxo (base c') = cache_utxo c /\ cache_utxo c' = cache_utxo c /\
    batch_ok (base c') (hashBlock c') /\
    (uint256_IsNull (hashBlock c) = false -> fst (view_GetBestBlock (base c')) = hashBlock c).
Proof.
  intros Hc Hb; unfold Flush.
  destruct (BatchWrite_law (base c) (map_to_list (cacheCoins c)) (hashBlock c) (base_ok c Hc) Hb
    (NoDup_fst_map_to_list _) (fun p e => cache_entry_fresh c p e Hc)) as (b & -> & Hu & Hv & Hbb & Hbest).
  rewrite (flush_utxo c Hc) in Hu; eexists; split; [reflexivity |].
  split_all; auto.
  - split; cbn [cacheCoins base cachedCoinsUsage]; [exact Hv | intros p e He; rewrite lookup_empty in He; discriminate |].
    unfold total_usage; rewrite map_fold_empty; reflexivity.
  - apply map_eq; intros p; rewrite cache_utxo_lookup; cbn [cacheCoins base]; rewrite lookup_empty, Hu; reflexivity.
Qed.

Lemma cache_unspent (c : CCoinsViewCache V) (p : COutPoint) (coin : Coin) : cache_ok c ->
  cache_utxo c !! p = Some coin -> IsSpent coin = false.
Proof.
  intros Hc Hp; rewrite cache_utxo_lookup in Hp; destruct (cacheCoins c !! p) as [e |] eqn:E.
  - unfold unspent in Hp; destruct (IsSpent (entry_coin e)) eqn:Es; [discriminate |].
    injection Hp as <-; exact Es.
  - apply (utxo_unspent _ _ _ (base_ok c Hc) Hp).
Qed.

Lemma cache_GetCoin (c : CCoinsViewCache V) (p : COutPoint) : cache_ok c ->
  exists c', GetCoin DynamicUsage c p = (cache_utxo c !! p, c') /\ cache_utxo c' = cache_utxo c /\
    cache_ok c' /\ (forall _ : bytes, True -> True).
Proof. intros Hc; destruct (GetCoin_spec c p Hc) as (c' & E & Hc' & Hu & _); exists c'; auto. Qed.

Lemma cache_GetBestBlock (c : CCoinsViewCache V) : cache_ok c ->
  cache_utxo (snd (GetBestBlock c)) = cache_utxo c /\ cache_ok (snd (GetBestBlock c)).
Proof.
  intros Hc; unfold GetBestBlock; destruct (uint256_IsNull (hashBlock c)); [| auto].
  destruct (GetBestBlock_law (base c) (base_ok c Hc)) as [Hu Hv]; destruct (view_GetBestBlock (base c)) as [h b].
  cbn [snd] in *; split.
  - apply map_eq; intros p; rewrite !cache_utxo_lookup; cbn [cacheCoins base]; rewrite Hu; reflexivity.
  - destruct Hc; split; cbn [cacheCoins base cachedCoinsUsage]; auto; rewrite Hu; auto.
Qed.

Lemma cache_BatchWrite (c : CCoinsViewCache V) (l : list (COutPoint * CCoinsCacheEntry)) (h : bytes) :
  cache_ok c -> True -> NoDup (l.*1) ->
  (forall p e, (p, e) ∈ l -> DIRTY e = true -> FRESH e = true -> cache_utxo c !! p = None) ->
  exists c', BatchWrite DynamicUsage c l h = Some (true, c') /\
    cache_utxo c' = apply_entries l (cache_utxo c) /\ cache_ok c' /\ True /\
    (uint256_IsNull h = false -> fst (GetBestBlock c') = h).
Proof.
  intros Hc _ Hnd Hf; destruct (batch_loop_spec l c Hc Hnd Hf) as (c' & E & Hc' & Hu & Hb).
  exists (SetBestBlock c' h); split_all; auto.
  - unfold BatchWrite; rewrite E; reflexivity.
  - destruct Hc'; split; auto.
  - intros Hh; unfold GetBestBlock, SetBestBlock; cbn [hashBlock]; rewrite Hh; reflexivity.
Qed.

#[global] Instance cache_laws : CoinsViewLaws (CCoinsViewCache V) (H := cache_view DynamicUsage) := {
  utxo := cache_utxo;
  view_ok := cache_ok;
  batch_ok _ _ := True;
  utxo_unspent := cache_unspent;
  GetCoin_law := cache_GetCoin;
  GetBestBlock_law := cache_GetBestBlock;
  BatchWrite_law := cache_BatchWrite
}.
End Laws.

(** * The database keeps the contract *)

Section DB_laws.
Variable SizeEstimate : list dbop -> Z.
Variable batch_size : Z.

Lemma batches_concat (l : list (COutPoint * CCoinsCacheEntry)) : forall batch bs last,
  batches_loop SizeEstimate batch_size batch l = (bs, last) ->
  concat bs ++ last = batch ++ flat_map coin_op l.
Proof.
  induction l as [| it l IH]; intros batch bs last E; cbn [batches_loop flat_map] in *.
  { injection E as <- <-; cbn; rewrite app_nil_r; reflexivity. }
  destruct (SizeEstimate (batch ++ coin_op it) >? batch_size).
  - destruct (batches_loop SizeEstimate batch_size [] l) as [bs' last'] eqn:E'; injection E as <- <-.
    cbn; rewrite <- !app_assoc, (IH _ _ _ E'); reflexivity.
  - rewrite (IH _ _ _ E), <- app_assoc; reflexivity.
Qed.

(** Whatever the batches, the operations are written in this order. *)
Lemma db_batches_concat (old : bytes) (l : list (COutPoint * CCoinsCacheEntry)) (h : bytes) :
  concat (db_batches SizeEstimate batch_size old l h) =
  [EraseBest; WriteHeads [h; old]] ++ flat_map coin_op l ++ [EraseHeads; WriteBest h].
Proof.
  unfold db_batches; destruct (batches_loop _ _ _ l) as [bs last] eqn:E; apply batches_concat in E.
  rewrite concat_app; cbn [concat]; rewrite app_nil_r, app_assoc, E, <- app_assoc; reflexivity.
Qed.

Lemma WriteBatch_concat (bs : list (list dbop)) (db : CCoinsViewDB) :
  fold_left WriteBatch bs db = fold_left apply_op (concat bs) db.
Proof.
  revert db; induction bs as [| b bs IH]; intros db; [reflexivity |]; cbn [fold_left concat].
  rewrite IH, fold_left_app; reflexivity.
Qed.

Lemma coin_ops (l : list (COutPoint * CCoinsCacheEntry)) : forall db,
  fold_left apply_op (flat_map coin_op l) db =
  mkDB (apply_entries l (db_coins db)) (db_best db) (db_heads db).
Proof.
  induction l as [| it l IH]; intros db; [destruct db; reflexivity |]; cbn [flat_map].
  rewrite fold_left_app, IH; change (apply_entries (it :: l)) with (fun u => apply_entries l (apply_entry u it)).
  unfold coin_op, apply_entry, unspent; destruct (DIRTY (snd it)); [| reflexivity].
  destruct (IsSpent (entry_coin (snd it))); reflexivity.
Qed.

Lemma db_written (db : CCoinsViewDB) (old : bytes) (l : list (COutPoint * CCoinsCacheEntry)) (h : bytes) :
  fold_left WriteBatch (db_batches SizeEstimate batch_size old l h) db =
  mkDB (apply_entries l (db_coins db)) (Some h) None.
Proof.
  rewrite WriteBatch_concat, db_batches_concat, !fold_left_app; cbn [fold_left]; rewrite coin_ops.
  reflexivity.
Qed.

Definition db_ok (db : CCoinsViewDB) : Prop :=
  forall p c, db_coins db !! p = Some c -> IsSpent c = false.
Definition db_ready (db : CCoinsViewDB) (h : bytes) : Prop :=
  uint256_IsNull h = false /\ is_some (db_old_tip db h) = true.

Lemma db_GetCoin_law (db : CCoinsViewDB) (p : COutPoint) : db_ok db ->
  exists db', (db_GetCoin db p, db) = (db_coins db !! p, db') /\ db_coins db' = db_coins db /\ db_ok db' /\
    (forall h, db_ready db h -> db_ready db' h).
Proof. intros Hdb; exists db; auto. Qed.

Lemma db_BatchWrite_law (db : CCoinsViewDB) (l : list (COutPoint * CCoinsCacheEntry)) (h : bytes) :
  db_ok db -> db_ready db h -> NoDup (l.*1) ->
  (forall p e, (p, e) ∈ l -> DIRTY e = true -> FRESH e = true -> db_coins db !! p = None) ->
  exists db', db_BatchWrite SizeEstimate batch_size db l h = Some (true, db') /\
    db_coins db' = apply_entries l (db_coins db) /\ db_ok db' /\ db_ready db' h /\
    (uint256_IsNull h = false -> db_GetBestBlock db' = h).
Proof.
  intros Hdb [Hh Ht] Hnd _; unfold db_BatchWrite; rewrite Hh.
  destruct (db_old_tip db h) as [old |]; [| discriminate]; eexists; split; [reflexivity |].
  rewrite db_written; split_all; auto.
  - intros p c Hp; cbn [db_coins] in Hp; rewrite apply_entries_lookup in Hp by exact Hnd.
    destruct (_ !! p) as [e |]; [| apply (Hdb p c Hp)]; destruct (DIRTY e); [| apply (Hdb p c Hp)].
    unfold unspent in Hp; destruct (IsSpent (entry_coin e)) eqn:Es; [discriminate |]; congruence.
  - split; [exact Hh |]; unfold db_old_tip; change (db_GetBestBlock _) with h; rewrite Hh; reflexivity.
Qed.

#[global] Instance db_laws : CoinsViewLaws CCoinsViewDB (H := db_view SizeEstimate batch_size) := {
  utxo := db_coins;
  view_ok := db_ok;
  batch_ok := db_ready;
  utxo_unspent db p c Hdb := Hdb p c;
  GetCoin_law := db_GetCoin_law;
  GetBestBlock_law _ Hdb := conj eq_refl Hdb;
  BatchWrite_law := db_BatchWrite_law
}.
End DB_laws.

(** * Interrupted writes *)

Section Crash.
Variable SizeEstimate : list dbop -> Z.
Variable batch_size : Z.

(** After some of the batches of the loop, the entries of an initial segment
    of the map are written. *)
Lemma batches_prefix (l : list (COutPoint * CCoinsCacheEntry)) : forall batch bs last k,
  batches_loop SizeEstimate batch_size batch l = (bs, last) -> (1 <= k <= length bs)%nat ->
  exists l1 l2, l = l1 ++ l2 /\ concat (take k bs) = batch ++ flat_map coin_op l1.
Proof.
  induction l as [| it l IH]; intros batch bs last k E Hk; cbn [batches_loop] in E.
  { injection E as <- <-; cbn in Hk; lia. }
  destruct (SizeEstimate (batch ++ coin_op it) >? batch_size).
  - destruct (batches_loop SizeEstimate batch_size [] l) as [bs' last'] eqn:E'; injection E as <- <-.
    destruct k as [| [| k]]; [lia | |].
    + exists [it], l; split; [reflexivity |]; cbn; rewrite !app_nil_r; reflexivity.
    + destruct (IH [] bs' last' (S k) E') as (l1 & l2 & -> & Hc); [cbn in Hk; lia |].
      exists (it :: l1), l2; split; [reflexivity |].
      change (take (S (S k)) ((batch ++ coin_op it) :: bs')) with ((batch ++ coin_op it) :: take (S k) bs').
      cbn [concat flat_map]; rewrite Hc, <- app_assoc; reflexivity.
  - destruct (IH _ bs last k E Hk) as (l1 & l2 & -> & Hc); exists (it :: l1), l2.
    split; [reflexivity |]; rewrite Hc, <- app_assoc; reflexivity.
Qed.

Lemma list_to_map_prefix (l1 l2 : list (COutPoint * CCoinsCacheEntry)) (p : COutPoint) (e : CCoinsCacheEntry) :
  NoDup ((l1 ++ l2).*1) -> (list_to_map l1 : CCoinsMap) !! p = Some e ->
  (list_to_map (l1 ++ l2) : CCoinsMap) !! p = Some e.
Proof.
  intros Hnd He; apply elem_of_list_to_map_1; [exact Hnd |].
  apply elem_of_list_to_map_2 in He; apply elem_of_app; auto.
Qed.

(** A database on the way from [db] to the state in which the entries are
    written. *)
Definition between (db db' : CCoinsViewDB) (l : list (COutPoint * CCoinsCacheEntry)) : Prop :=
  forall p, db_coins db' !! p = db_coins db !! p \/ db_coins db' !! p = apply_entries l (db_coins db) !! p.

Lemma prefix_between (db : CCoinsViewDB) (l1 l2 : list (COutPoint * CCoinsCacheEntry)) (b : option bytes) hs :
  NoDup ((l1 ++ l2).*1) -> between db (mkDB (apply_entries l1 (db_coins db)) b hs) (l1 ++ l2).
Proof.
  intros Hnd p; cbn; assert (Hnd1 : NoDup (l1.*1)) by (rewrite fmap_app in Hnd; apply NoDup_app in Hnd; tauto).
  rewrite !apply_entries_lookup by assumption.
  destruct ((list_to_map l1 : CCoinsMap) !! p) as [e |] eqn:E; [right | left; reflexivity].
  rewrite (list_to_map_prefix l1 l2 p e Hnd E); reflexivity.
Qed.

(** Writing the entries once more from any state in between ends in the same
    set of coins. *)
Lemma redo (db db' : CCoinsViewDB) (l : list (COutPoint * CCoinsCacheEntry)) : NoDup (l.*1) ->
  between db db' l -> apply_entries l (db_coins db') = apply_entries l (db_coins db).
Proof.
  intros Hnd Hb; apply map_eq; intros p; specialize (Hb p); rewrite !apply_entries_lookup in * by exact Hnd.
  destruct ((list_to_map l : CCoinsMap) !! p) as [e |]; [destruct (DIRTY e) |]; tauto.
Qed.

Lemma crash_states (db : CCoinsViewDB) (old h : bytes) (l : list (COutPoint * CCoinsCacheEntry)) (k : nat) :
  NoDup (l.*1) ->
  let s := fold_left WriteBatch (take k (db_batches SizeEstimate batch_size old l h)) db in
  s = db \/
  (db_best s = None /\ db_heads s = Some [h; old] /\ between db s l) \/
  s = mkDB (apply_entries l (db_coins db)) (Some h) None.
Proof.
  intros Hnd s; subst s; pose proof (db_written SizeEstimate batch_size db old l h) as Hw.
  unfold db_batches in *; destruct (batches_loop _ _ _ l) as [bs last] eqn:E.
  destruct k as [| k]; [left; reflexivity |].
  destruct (Nat.le_gt_cases (S k) (length bs)) as [Hk | Hk].
  - right; left; rewrite take_app_le by exact Hk.
    destruct (batches_prefix l _ bs last (S k) E ltac:(lia)) as (l1 & l2 & -> & Hc).
    rewrite WriteBatch_concat, Hc, fold_left_app; cbn [fold_left]; rewrite coin_ops.
    split_all; auto; exact (prefix_between db l1 l2 _ _ Hnd).
  - right; right; rewrite take_ge; [exact Hw |]; rewrite length_app; cbn [length]; lia.
Qed.
End Crash.

(** * Refinement of a set of unspent outputs *)

(** The requests made of a cache, and their answers. *)
Inductive request :=
| RGet (p : COutPoint) | RHave (p : COutPoint)
| RAdd (p : COutPoint) (coin : Coin) (possible_overwrite : bool)
| RSpend (p : COutPoint) | RUncache (p : COutPoint) | RFlush
| RHaveInputs (tx : CTransaction)
| RAddTx (tx : CTransaction) (txid : bytes) (height : Z) (check : bool).

Inductive answer := ACoin (o : option Coin) | ABool (b : bool) | ADone | AFail.

Definition live (o : option Coin) : option Coin :=
  match o with Some c => if IsSpent c then None else Some c | None => None end.

Section Refinement.
Context `{CoinsViewLaws V}.
Variable DynamicUsage : CScript -> Z.

Definition serve (c : CCoinsViewCache V) (r : request) : answer * CCoinsViewCache V :=
  match r with
  | RGet p => let '(o, c) := GetCoin DynamicUsage c p in (ACoin o, c)
  | RHave p => let '(b, c) := HaveCoin DynamicUsage c p in (ABool b, c)
  | RAdd p coin ow =>
      match AddCoin DynamicUsage c p coin ow with Ok c => (ADone, c) | Err _ => (AFail, c) end
  | RSpend p =>
      let '(_, moved, c, _) := SpendCoin DynamicUsage (fun (a : unit) _ _ => (true, a)) true c p None in
      (ACoin (live moved), c)
  | RUncache p => (ADone, Uncache DynamicUsage c p)
  | RFlush => match Flush c with Some (true, c) => (ADone, c) | _ => (AFail, c) end
  | RHaveInputs tx => let '(b, c) := HaveInputs DynamicUsage c tx in (ABool b, c)
  | RAddTx tx txid height check =>
      match AddCoins DynamicUsage c tx txid height check with Ok c => (ADone, c) | Err _ => (AFail, c) end
  end.

Fixpoint serve_all (c : CCoinsViewCache V) (rs : list request) : list answer * CCoinsViewCache V :=
  match rs with
  | [] => ([], c)
  | r :: rs' =>
      let '(a, c) := serve c r in
      let '(ans, c) := serve_all c rs' in (a :: ans, c)
  end.

(** The outputs of a transaction that can be spent, added to a map. *)
Fixpoint spec_add (u : gmap COutPoint Coin) (txid : bytes) (coinbase : bool) (height : Z)
    (outs : list CTxOut) (i : Z) : gmap COutPoint Coin :=
  match outs with
  | [] => u
  | o :: outs' =>
      spec_add (if IsUnspendable (scriptPubKey o) then u
                else <[mkOutPoint txid i := new_coin o height coinbase]> u)
        txid coinbase height outs' (i + 1)
  end.

(** The specification: the same requests of a finite map. *)
Definition spec (u : gmap COutPoint Coin) (r : request) : answer * gmap COutPoint Coin :=
  match r with
  | RGet p => (ACoin (u !! p), u)
  | RHave p => (ABool (is_some (u !! p)), u)
  | RAdd p coin _ =>
      (ADone, if IsUnspendable (scriptPubKey (coin_out coin)) then u else <[p := coin]> u)
  | RSpend p => (ACoin (u !! p), delete p u)
  | RUncache _ | RFlush => (ADone, u)
  | RHaveInputs tx =>
      (ABool (IsCoinBase tx || forallb (fun i => is_some (u !! prevout i)) (vin tx)), u)
  | RAddTx tx txid height _ => (ADone, spec_add u txid (IsCoinBase tx) height (vout tx) 0)
  end.

Fixpoint spec_all (u : gmap COutPoint Coin) (rs : list request) : list answer * gmap COutPoint Coin :=
  match rs with
  | [] => ([], u)
  | r :: rs' =>
      let '(a, u) := spec u r in
      let '(ans, u) := spec_all u rs' in (a :: ans, u)
  end.

(** What callers guarantee: the coins they add are unspent, and new unless
    they allow for an overwrite or ask for a check. *)
Definition legal (u : gmap COutPoint Coin) (r : request) : Prop :=
  match r with
  | RAdd p coin ow => IsSpent coin = false /\ (ow = false -> u !! p = None)
  | RAddTx tx txid _ check =>
      Forall (fun o => txout_IsNull o = false) (vout tx) /\
      (check = false -> IsCoinBase tx = false -> forall n, u !! mkOutPoint txid n = None)
  | _ => True
  end.
Fixpoint legal_all (u : gmap COutPoint Coin) (rs : list request) : Prop :=
  match rs with
  | [] => True
  | r :: rs' => legal u r /\ legal_all (snd (spec u r)) rs'
  end.

Hypothesis usage_nil : DynamicUsage [] = 0.

Definition sound (c : CCoinsViewCache V) : Prop :=
  cache_ok DynamicUsage c /\ batch_ok (base c) (hashBlock c).

Lemma fetch_sound (c c' : CCoinsViewCache V) (p : COutPoint) it : sound c ->
  FetchCoin DynamicUsage c p = (it, c') -> sound c'.
Proof.
  intros [Hc Hb] E; destruct (FetchCoin_spec DynamicUsage c p Hc) as (it' & c2 & E' & H1 & _ & _ & _ & H2 & H3 & _).
  assert (c2 = c') as -> by congruence; split; [exact H1 |]; rewrite H2; auto.
Qed.

Lemma have_sound (c : CCoinsViewCache V) (p : COutPoint) : sound c ->
  exists c', HaveCoin DynamicUsage c p = (is_some (cache_utxo c !! p), c') /\ sound c' /\
    cache_utxo c' = cache_utxo c.
Proof.
  intros Hs; destruct (HaveCoin_spec DynamicUsage c p (proj1 Hs)) as (c' & E & _ & Hu); exists c'.
  split_all; auto; unfold HaveCoin in E; destruct (FetchCoin DynamicUsage c p) eqn:EF.
  apply (fetch_sound _ _ _ _ Hs) in EF; congruence.
Qed.

Lemma add_sound (c : CCoinsViewCache V) (p : COutPoint) (coin : Coin) (ow : bool) : sound c ->
  IsSpent coin = false -> (ow = false -> cache_utxo c !! p = None) ->
  exists c', AddCoin DynamicUsage c p coin ow = Ok c' /\ sound c' /\
    cache_utxo c' = if IsUnspendable (scriptPubKey (coin_out coin)) then cache_utxo c
                    else <[p := coin]> (cache_utxo c).
Proof.
  intros [Hc Hb] Hns Hnew; destruct (IsUnspendable (scriptPubKey (coin_out coin))) eqn:Eu.
  { exists c; unfold AddCoin; rewrite Hns, Eu; split_all; auto; split; auto. }
  destruct (AddCoin_spec DynamicUsage c p coin ow Hc Hns Eu Hnew) as (c' & E & Hc' & Hu); exists c'.
  split_all; auto; split; [exact Hc' |]; unfold AddCoin in E; rewrite Hns, Eu in E.
  destruct (cacheCoins c !! p); destruct (_ && _) in E; try discriminate; injection E as <-; exact Hb.
Qed.

Lemma have_inputs_sound (ins : list CTxIn) : forall c, sound c ->
  exists c', have_inputs_loop DynamicUsage c ins =
      (forallb (fun i => is_some (cache_utxo c !! prevout i)) ins, c') /\ sound c' /\
    cache_utxo c' = cache_utxo c.
Proof.
  induction ins as [| i ins IH]; intros c Hs; cbn [have_inputs_loop forallb]; [eauto |].
  destruct (have_sound c (prevout i) Hs) as (c1 & -> & Hs1 & Hu1).
  destruct (is_some (cache_utxo c !! prevout i)); cbn [negb andb]; [| eauto].
  destruct (IH c1 Hs1) as (c2 & -> & Hs2 & Hu2); exists c2; rewrite Hu1 in *; auto.
Qed.

Lemma add_coins_sound (txid : bytes) (cb check : bool) (height : Z) (outs : list CTxOut) : forall c i,
  sound c -> Forall (fun o => txout_IsNull o = false) outs ->
  (check = false -> cb = false -> forall n, i <= n -> cache_utxo c !! mkOutPoint txid n = None) ->
  exists c', add_coins_loop DynamicUsage c txid cb check height outs i = Ok c' /\ sound c' /\
    cache_utxo c' = spec_add (cache_utxo c) txid cb height outs i.
Proof.
  induction outs as [| o outs IH]; intros c i Hs Hv Hnew; cbn [add_coins_loop spec_add]; [eauto |].
  apply Forall_cons in Hv; destruct Hv as [Ho Hv].
  assert (Hov : exists ow c1, (if check then HaveCoin DynamicUsage c (mkOutPoint txid i) else (cb, c)) = (ow, c1) /\
            sound c1 /\ cache_utxo c1 = cache_utxo c /\
            (ow = false -> cache_utxo c !! mkOutPoint txid i = None)).
  { destruct check.
    - destruct (have_sound c (mkOutPoint txid i) Hs) as (c1 & -> & Hs1 & Hu1); eexists _, c1; split_all; auto.
      destruct (cache_utxo c !! mkOutPoint txid i); [discriminate | reflexivity].
    - exists cb, c; split_all; auto; intros Hcb; apply Hnew; auto; lia. }
  destruct Hov as (ow & c1 & -> & Hs1 & Hu1 & Hf).
  destruct (add_sound c1 (mkOutPoint txid i) (new_coin o height cb) ow Hs1 Ho) as (c2 & -> & Hs2 & Hu2);
    [rewrite Hu1; exact Hf |].
  cbn [new_coin coin_out] in Hu2; rewrite Hu1 in Hu2; cbn [bind].
  destruct (IH c2 (i + 1) Hs2 Hv) as (c3 & -> & Hs3 & Hu3); [| exists c3; rewrite <- Hu2; auto].
  intros Hck Hcb n Hn; rewrite Hu2; destruct (IsUnspendable (scriptPubKey o)).
  - apply Hnew; auto; lia.
  - rewrite lookup_insert_ne by (intros [=]; lia); apply Hnew; auto; lia.
Qed.

Lemma serve_spec (c : CCoinsViewCache V) (r : request) : sound c -> legal (cache_utxo c) r ->
  let '(a, c') := serve c r in
  sound c' /\ (a, cache_utxo c') = spec (cache_utxo c) r.
Proof.
  intros Hs Hl; pose proof Hs as [Hc Hb]; destruct r as [p | p | p coin ow | p | p | | tx | tx txid height check];
    cbn [serve spec].
  - destruct (GetCoin_spec DynamicUsage c p Hc) as (c' & E & Hc' & Hu & _); rewrite E, Hu; split; [| reflexivity].
    unfold GetCoin in E; destruct (FetchCoin DynamicUsage c p) eqn:EF; apply (fetch_sound _ _ _ _ Hs) in EF; congruence.
  - destruct (have_sound c p Hs) as (c' & -> & Hs' & ->); auto.
  - destruct Hl as [Hns Hnew]; destruct (add_sound c p coin ow Hs Hns Hnew) as (c' & -> & Hs' & ->); auto.
  - destruct (SpendCoin_spec DynamicUsage usage_nil (fun (a : unit) _ _ => (true, a)) true c p None Hc)
      as (ok & moved & c' & as' & E & Hc' & Hu & Hm & Hn); rewrite E, Hu.
    pose proof E as E2; unfold SpendCoin in E2; destruct (FetchCoin DynamicUsage c p) as [it c1] eqn:EF.
    destruct (FetchCoin_spec DynamicUsage c p Hc) as (it' & c2 & E' & _ & _ & _ & Hr & _).
    assert (it' = it) as -> by congruence; pose proof (fetch_sound _ _ _ _ Hs EF) as [_ Hb1].
    destruct it as [e |]; injection E2 as <- <- <- <-; cbn in Hr.
    + rewrite <- Hr; split; [split; [exact Hc' |] | reflexivity].
      destruct (FRESH e); exact Hb1.
    + rewrite <- Hr; split; [split; [exact Hc' | exact Hb1] | reflexivity].
  - destruct (Uncache_spec DynamicUsage c p Hc) as [H1 H2]; rewrite H2; split; [split; [exact H1 |] | reflexivity].
    unfold Uncache; destruct (cacheCoins c !! p) as [e |]; [destruct (_ && _) |]; exact Hb.
  - destruct (Flush_spec DynamicUsage c Hc Hb) as (c' & -> & Hc' & _ & _ & Hu & Hbb & _).
    rewrite Hu; split; [split; assumption | reflexivity].
  - unfold HaveInputs; destruct (IsCoinBase tx); cbn [negb orb]; [auto |].
    destruct (have_inputs_sound (vin tx) c Hs) as (c' & -> & Hs' & ->); auto.
  - destruct Hl as [Hv Hnew]; unfold AddCoins.
    destruct (add_coins_sound txid (IsCoinBase tx) check height (vout tx) c 0 Hs Hv) as (c' & -> & Hs' & ->); auto.
Qed.

Lemma serve_all_spec (rs : list request) : forall c, sound c -> legal_all (cache_utxo c) rs ->
  let '(ans, c') := serve_all c rs in
  sound c' /\ (ans, cache_utxo c') = spec_all (cache_utxo c) rs.
Proof.
  induction rs as [| r rs IH]; intros c Hs Hl; cbn [serve_all spec_all]; [auto |].
  destruct Hl as [H1 H2]; pose proof (serve_spec c r Hs H1) as S1; destruct (serve c r) as [a c1].
  destruct S1 as [Hs1 E1]; rewrite <- E1 in *; cbn [snd] in H2.
  specialize (IH c1 Hs1 H2); destruct (serve_all c1 rs) as [ans c2]; destruct IH as [Hs2 E2].
  rewrite <- E2; auto.
Qed.
End Refinement.

Lemma new_cache_ok `{CoinsViewLaws V} (DynamicUsage : CScript -> Z) (b : V) : view_ok b ->
  cache_ok DynamicUsage (new_cache b) /\ cache_utxo (new_cache b) = utxo b.
Proof.
  intros Hb; split.
  - split; [exact Hb | intros p e; unfold new_cache; cbn [cacheCoins]; rewrite lookup_empty; discriminate |].
    unfold total_usage, new_cache; cbn [cacheCoins cachedCoinsUsage]; rewrite map_fold_empty; reflexivity.
  - apply map_eq; intros p; rewrite cache_utxo_lookup; unfold new_cache; cbn [cacheCoins base].
    rewrite lookup_empty; reflexivity.
Qed.

(** * Correctness *)

(** C7: a coin cache over any view that keeps the contract behaves, for every
    sequence of requests that callers may make (lookups, additions of coins
    and of whole transactions, spends, evictions, write-backs), like one
    finite map of unspent outputs: the answers are the same and so is the set
    it stands for, and the invariant of the DIRTY and FRESH flags and of the
    memory count is kept, so that no write-back throws. *)
Theorem Cache_refines {V : Type} `{CoinsViewLaws V} (DynamicUsage : CScript -> Z)
    (c : CCoinsViewCache V) (rs : list request) :
  DynamicUsage [] = 0 -> sound DynamicUsage c -> legal_all (cache_utxo c) rs ->
  let '(ans, c') := serve_all DynamicUsage c rs in
  sound DynamicUsage c' /\ (ans, cache_utxo c') = spec_all (cache_utxo c) rs.
Proof. intros Hn; apply serve_all_spec, Hn. Qed.

Definition ex_coin (v : Z) : Coin := mkCoin (mkTxOut v [0x51]) false 7.
Definition ex_out (n : Z) : COutPoint := mkOutPoint [1] n.
Definition ex_db : CCoinsViewDB := mkDB {[ex_out 0 := ex_coin 50]} (Some [9]) None.
Definition ex_usage (s : CScript) : Z := if decide ((length s <= 28)%nat) then 0 else Z.of_nat (length s).
Definition ex_requests : list request :=
  [RHave (ex_out 0); RSpend (ex_out 0); RAdd (ex_out 1) (ex_coin 60) false; RFlush; RGet (ex_out 1);
   RSpend (ex_out 0)].
#[local] Instance ex_view : CCoinsView CCoinsViewDB := db_view (fun b => Z.of_nat (length b)) 1.
#[local] Instance ex_laws : CoinsViewLaws CCoinsViewDB := db_laws (fun b => Z.of_nat (length b)) 1.
#[local] Instance ex_stack : CCoinsView (CCoinsViewCache CCoinsViewDB) := cache_view ex_usage.
#[local] Instance ex_stack_laws : CoinsViewLaws (CCoinsViewCache CCoinsViewDB) := cache_laws ex_usage.

(** A cache on a cache on a database. *)
Lemma Cache_refines_witness :
  fst (serve_all ex_usage (new_cache (new_cache ex_db)) ex_requests) =
  [ABool true; ACoin (Some (ex_coin 50)); ADone; ADone; ACoin (Some (ex_coin 60)); ACoin None].
Proof.
  assert (Hdb : view_ok ex_db).
  { intros p c Hp; change (db_coins ex_db) with ({[ex_out 0 := ex_coin 50]} : gmap COutPoint Coin) in Hp.
    apply lookup_singleton_Some in Hp; destruct Hp as [_ <-]; reflexivity. }
  destruct (new_cache_ok ex_usage ex_db Hdb) as [H1 U1].
  assert (H1' : view_ok (new_cache ex_db)) by exact H1.
  destruct (new_cache_ok ex_usage (new_cache ex_db) H1') as [H2 U2].
  assert (U : cache_utxo (new_cache (new_cache ex_db)) = db_coins ex_db) by (rewrite U2; exact U1).
  pose proof (Cache_refines ex_usage (new_cache (new_cache ex_db)) ex_requests eq_refl (conj H2 I)) as R.
  rewrite U in R; specialize (R ltac:(vm_compute; tauto)).
  destruct (serve_all ex_usage (new_cache (new_cache ex_db)) ex_requests) as [ans c'].
  destruct R as [_ R]; apply (f_equal fst) in R; cbn [fst] in R |- *; rewrite R; vm_compute; reflexivity.
Defined.

(** C18: a write to the coin database can be interrupted after any of its
    batches: the database is then unchanged, or complete, or marked as in
    transition between the two blocks with every coin either as before or as
    after; and repeating the write from there completes it. *)
Theorem Database_crash_safe (SizeEstimate : list dbop -> Z) (batch_size : Z) (db : CCoinsViewDB)
    (old h : bytes) (l : list (COutPoint * CCoinsCacheEntry)) (k : nat) :
  db_best db = Some old -> uint256_IsNull old = false -> uint256_IsNull h = false -> NoDup (l.*1) ->
  let final := mkDB (apply_entries l (db_coins db)) (Some h) None in
  let s := fold_left WriteBatch (take k (db_batches SizeEstimate batch_size old l h)) db in
  (s = db \/ (db_best s = None /\ db_heads s = Some [h; old] /\ between db s l) \/ s = final) /\
  db_BatchWrite SizeEstimate batch_size s l h = Some (true, final).
Proof.
  intros Hbest Hold Hh Hnd final s.
  pose proof (crash_states SizeEstimate batch_size db old h l k Hnd) as Hs; fold s final in Hs.
  split; [exact Hs |]; unfold db_BatchWrite, db_old_tip, db_GetBestBlock, db_GetHeadBlocks; rewrite Hh.
  assert (Hre : between db s l -> mkDB (apply_entries l (db_coins s)) (Some h) None = final)
    by (intros Hb; unfold final; rewrite (redo db s l Hnd Hb); reflexivity).
  destruct Hs as [Es | [(Eb & Ehs & Hb) | Es]].
  - rewrite Es in *; rewrite Hbest; change (default uint256_null (Some old)) with old; rewrite Hold, db_written; reflexivity.
  - rewrite Eb, Ehs; change (uint256_IsNull (default uint256_null None)) with true.
    change (default [] (Some [h; old])) with [h; old]; cbv iota; rewrite (proj2 (bytes_eqb_eq h h) eq_refl), db_written.
    f_equal; f_equal; apply Hre, Hb.
  - rewrite Es in *; change (default uint256_null (db_best final)) with h; rewrite Hh, db_written; f_equal; f_equal.
    apply Hre; intros p; right; reflexivity.
Qed.

Lemma Database_crash_safe_witness :
  let l := [(ex_out 0, mkEntry coinEmpty true false); (ex_out 1, mkEntry (ex_coin 60) true true)] in
  db_BatchWrite (fun b => Z.of_nat (length b)) 1
    (fold_left WriteBatch (take 1 (db_batches (fun b => Z.of_nat (length b)) 1 [9] l [8])) ex_db) l [8] =
  Some (true, mkDB (apply_entries l (db_coins ex_db)) (Some [8]) None) /\
  db_coins (fold_left WriteBatch (take 1 (db_batches (fun b => Z.of_nat (length b)) 1 [9] l [8])) ex_db) = ∅.
Proof.
  intros l; split; [| vm_compute; reflexivity].
  apply (Database_crash_safe (fun b => Z.of_nat (length b)) 1 ex_db [9] [8] l 1); try reflexivity.
  apply NoDup_cons; split; [| apply NoDup_singleton]; intros Hin; apply list_elem_of_singleton in Hin; discriminate.
Defined.
