(* ===== verification/LruCache.v ===== *)
(** The bounded cache of recently used entries, class [CLRUCache] of
    src/assets/assettypes.h: a linked list of entries, most recent first, and
    an index from keys to list iterators.

    A list node has an identity, the model of a [std::list] iterator: it stays
    valid while other nodes are inserted, erased or moved.  The theorem of the
    file shows that list and index together behave as one list of entries with
    distinct keys. *)

From stdpp Require Import base gmap list fin_maps.
From Stdlib Require Import ZArith Lia.
Open Scope nat_scope.

Section LRU.
Context {K V : Type} `{Countable K}.

(** [next_node] is the identity the next allocated node gets. *)
Record CLRUCache := mkLRU {
  cacheItemsList : list (nat * (K * V));
  cacheItemsMap : gmap K nat;
  maxSize : nat;
  next_node : nat
}.

Definition lru_new (max_size : nat) : CLRUCache := mkLRU [] ∅ max_size 0.

(** [std::list::erase] and [std::list::splice] to the front, by iterator. *)
Definition list_erase (it : nat) (l : list (nat * (K * V))) : list (nat * (K * V)) :=
  filter (fun n => n.1 <> it) l.
Definition node_at (it : nat) (l : list (nat * (K * V))) : option (nat * (K * V)) :=
  head (filter (fun n => n.1 = it) l).

Definition Exists (c : CLRUCache) (key : K) : bool := bool_decide (is_Some (cacheItemsMap c !! key)).
Definition Size (c : CLRUCache) : nat := size (cacheItemsMap c).
Definition Clear (c : CLRUCache) : CLRUCache := mkLRU [] ∅ (maxSize c) (next_node c).
Definition SetNull (c : CLRUCache) : CLRUCache := mkLRU [] ∅ 0 (next_node c).
Definition SetSize (n : nat) (c : CLRUCache) : CLRUCache :=
  mkLRU (cacheItemsList c) (cacheItemsMap c) n (next_node c).

Definition Erase (key : K) (c : CLRUCache) : CLRUCache :=
  match cacheItemsMap c !! key with
  | Some it => mkLRU (list_erase it (cacheItemsList c)) (delete key (cacheItemsMap c)) (maxSize c) (next_node c)
  | None => c
  end.

(** The size test of [Put] and the eviction of the last entry. *)
Definition evict (c : CLRUCache) : CLRUCache :=
  if maxSize c <? size (cacheItemsMap c) then
    match last (cacheItemsList c) with
    | Some last => mkLRU (take (length (cacheItemsList c) - 1) (cacheItemsList c))
                         (delete last.2.1 (cacheItemsMap c)) (maxSize c) (next_node c)
    | None => c
    end
  else c.

Definition Put (key : K) (value : V) (c : CLRUCache) : CLRUCache :=
  let it := cacheItemsMap c !! key in
  let items := (next_node c, (key, value)) :: cacheItemsList c in
  let '(items, index) := match it with
                         | Some it => (list_erase it items, delete key (cacheItemsMap c))
                         | None => (items, cacheItemsMap c)
                         end in
  evict (mkLRU items (<[key := next_node c]> index) (maxSize c) (S (next_node c))).

(** [None] is the [std::range_error] of a missing key. *)
Definition Get (key : K) (c : CLRUCache) : option (V * CLRUCache) :=
  match cacheItemsMap c !! key with
  | None => None
  | Some it =>
      match node_at it (cacheItemsList c) with
      | Some node => Some (node.2.2, mkLRU (node :: list_erase it (cacheItemsList c)) (cacheItemsMap c)
                                           (maxSize c) (next_node c))
      | None => None
      end
  end.

(** * The entries as one list *)

Definition items (c : CLRUCache) : list (K * V) := (cacheItemsList c).*2.
Definition keys (l : list (K * V)) : list K := l.*1.

(** The reference operations on the list of entries. *)
Definition drop_key (key : K) (l : list (K * V)) : list (K * V) := filter (fun e => e.1 <> key) l.
Definition find_key (key : K) (l : list (K * V)) : option V := snd <$> head (filter (fun e => e.1 = key) l).
Definition trim (max : nat) (l : list (K * V)) : list (K * V) :=
  if max <? length l then take (length l - 1) l else l.

(** Identities are distinct and allocated, and the index maps a key to the
    one node that holds it. *)
Record lru_ok (c : CLRUCache) : Prop := {
  lru_nodes : NoDup (cacheItemsList c).*1;
  lru_fresh : Forall (fun n => n.1 < next_node c) (cacheItemsList c);
  lru_keys : NoDup (keys (items c));
  lru_index : forall k it, cacheItemsMap c !! k = Some it <-> exists v, (it, (k, v)) ∈ cacheItemsList c
}.

End LRU.
Arguments CLRUCache : clear implicits.
Arguments CLRUCache K V {_ _}.
Arguments keys : simpl never.
Arguments drop_key : simpl never.

(** * The index and the list agree *)

Section LRU_proofs.
Context {K V : Type} `{Countable K}.
Implicit Types (l : list (nat * (K * V))) (c : CLRUCache K V).

(** Where an identity names exactly the nodes of one key, erasing by iterator
    is erasing by key, and dereferencing is looking the key up. *)
Definition names_key l (it : nat) (key : K) : Prop := forall n, n ∈ l -> (n.1 = it <-> n.2.1 = key).

Lemma erase_items l it key : names_key l it key -> (list_erase it l).*2 = drop_key key (l.*2).
Proof.
  unfold list_erase, drop_key; induction l as [|n l IH]; intros N; [reflexivity|].
  assert (names_key l it key) as N' by (intros m M; apply N, list_elem_of_further, M).
  pose proof (N n (list_elem_of_here _ _)) as E; rewrite fmap_cons, !filter_cons.
  repeat case_decide; try tauto; rewrite ?fmap_cons, IH; auto.
Qed.

Lemma node_at_key l it key : names_key l it key -> snd <$> node_at it l = head (filter (fun e => e.1 = key) l.*2).
Proof.
  unfold node_at; induction l as [|n l IH]; intros N; [reflexivity|].
  assert (names_key l it key) as N' by (intros m M; apply N, list_elem_of_further, M).
  pose proof (N n (list_elem_of_here _ _)) as E; rewrite fmap_cons, !filter_cons.
  repeat case_decide; try tauto; auto.
Qed.

Lemma keys_nodes l n m : NoDup (keys l.*2) -> n ∈ l -> m ∈ l -> n.2.1 = m.2.1 -> n = m.
Proof.
  unfold keys; induction l as [|x l IH]; [intros _ N; inversion N|].
  rewrite !fmap_cons, NoDup_cons, !elem_of_cons; intros [X D] [->|N] [->|M] E; auto; destruct X.
  - rewrite E; do 2 apply list_elem_of_fmap_2; exact M.
  - rewrite <- E; do 2 apply list_elem_of_fmap_2; exact N.
Qed.

Lemma ids_nodes l n m : NoDup l.*1 -> n ∈ l -> m ∈ l -> n.1 = m.1 -> n = m.
Proof.
  induction l as [|x l IH]; [intros _ N; inversion N|].
  rewrite fmap_cons, NoDup_cons, !elem_of_cons; intros [X D] [->|N] [->|M] E; auto; destruct X.
  - rewrite E; apply list_elem_of_fmap_2; exact M.
  - rewrite <- E; apply list_elem_of_fmap_2; exact N.
Qed.

Lemma index_names c key it : lru_ok c -> cacheItemsMap c !! key = Some it -> names_key (cacheItemsList c) it key.
Proof.
  intros [NI _ NK IX] (v & M)%IX n N; split; intros E.
  - now rewrite (ids_nodes _ n (it, (key, v)) NI N M E).
  - now rewrite (keys_nodes _ n (it, (key, v)) NK N M E).
Qed.

Lemma index_keys c key : lru_ok c -> is_Some (cacheItemsMap c !! key) <-> key ∈ keys (items c).
Proof.
  intros [_ _ _ IX]; unfold keys, items; split.
  - intros [it (v & M)%IX]; apply list_elem_of_fmap; exists (key, v); split; [reflexivity|].
    apply list_elem_of_fmap; now exists (it, (key, v)).
  - intros ([k v] & -> & ([it e] & E & M)%list_elem_of_fmap)%list_elem_of_fmap.
    simpl in E; subst e; exists it; apply IX; now exists v.
Qed.

Lemma Size_items c : lru_ok c -> Size c = length (items c).
Proof.
  intros O; unfold Size; rewrite <- size_dom.
  assert (dom (cacheItemsMap c) = list_to_set (keys (items c))) as ->.
  { apply set_eq; intros k; rewrite elem_of_dom, elem_of_list_to_set; now apply index_keys. }
  rewrite size_list_to_set by apply O; unfold keys; now rewrite length_fmap.
Qed.

Lemma drop_absent key (l : list (K * V)) : key ∉ keys l -> drop_key key l = l.
Proof.
  unfold drop_key, keys; induction l as [|e l IH]; [reflexivity|]; rewrite fmap_cons, not_elem_of_cons; intros [E N].
  rewrite filter_cons, decide_True by congruence; now rewrite IH.
Qed.

Lemma keys_drop key (l : list (K * V)) : keys (drop_key key l) = filter (.≠ key) (keys l).
Proof.
  unfold keys, drop_key; induction l as [|e l IH]; [reflexivity|]; rewrite fmap_cons, !filter_cons.
  repeat case_decide; try contradiction; rewrite ?fmap_cons, IH; reflexivity.
Qed.

Lemma erase_ids it l : (list_erase it l).*1 = filter (.≠ it) l.*1.
Proof.
  unfold list_erase; induction l as [|e l IH]; [reflexivity|]; rewrite fmap_cons, !filter_cons.
  repeat case_decide; try contradiction; rewrite ?fmap_cons, IH; reflexivity.
Qed.

Lemma elem_of_erase it l n : n ∈ list_erase it l <-> n.1 <> it /\ n ∈ l.
Proof. unfold list_erase; now rewrite list_elem_of_filter. Qed.
End LRU_proofs.

(** * Operations *)

Section LRU_operations.
Context {K V : Type} `{Countable K}.
Implicit Types c : CLRUCache K V.

Lemma lru_new_ok n : lru_ok (lru_new (K := K) (V := V) n).
Proof.
  split; cbn; try constructor.
  - rewrite lookup_empty; discriminate.
  - intros [v M]; inversion M.
Qed.

Lemma Erase_ok key c : lru_ok c -> lru_ok (Erase key c) /\ items (Erase key c) = drop_key key (items c).
Proof.
  intros O; unfold Erase; destruct (_ !! key) as [it|] eqn:E.
  - pose proof (index_names c key it O E) as N; destruct O as [NI F NK IX]; unfold items in *; cbn.
    rewrite (erase_items _ _ _ N); split; [|reflexivity]; split; unfold items; cbn.
    + rewrite erase_ids; now apply NoDup_filter.
    + rewrite Forall_forall in F |- *; intros n [_ M]%elem_of_erase; exact (F n M).
    + rewrite (erase_items _ _ _ N), keys_drop; now apply NoDup_filter.
    + intros k i; rewrite lookup_delete_Some, IX; split.
      * intros [NE [v M]]; exists v; apply elem_of_erase; split; [|exact M].
        intros E'; apply NE; symmetry; exact (proj1 (N _ M) E').
      * intros [v [NE M]%elem_of_erase]; split; [|now exists v].
        intros E'; apply NE; exact (proj2 (N _ M) (eq_sym E')).
  - split; [exact O|]; symmetry; apply drop_absent; rewrite <- (index_keys c key O), E; intros [? [=]].
Qed.

(** [Put] is an erasure, an insertion at the front and the eviction. *)
Definition push_front (key : K) (value : V) c : CLRUCache K V :=
  mkLRU ((next_node c, (key, value)) :: cacheItemsList c) (<[key := next_node c]> (cacheItemsMap c)) (maxSize c)
        (S (next_node c)).

Lemma Put_split key value c : lru_ok c -> Put key value c = evict (push_front key value (Erase key c)).
Proof.
  intros O; unfold Put, push_front, Erase; destruct (_ !! key) as [it|] eqn:E; [|reflexivity].
  cbn [cacheItemsList cacheItemsMap maxSize next_node]; f_equal; f_equal; unfold list_erase.
  rewrite filter_cons_True; [reflexivity|].
  apply O in E as [v M]; pose proof (lru_fresh _ O) as F; rewrite Forall_forall in F; specialize (F _ M); cbn in *; lia.
Qed.

Lemma push_front_ok key value c : lru_ok c -> key ∉ keys (items c) ->
  lru_ok (push_front key value c) /\ items (push_front key value c) = (key, value) :: items c.
Proof.
  intros [NI F NK IX] A; split; [|reflexivity]; split; unfold items in *; cbn.
  - apply NoDup_cons; split; [|exact NI]; intros (n & E & M)%list_elem_of_fmap.
    rewrite Forall_forall in F; specialize (F _ M); cbn in *; lia.
  - constructor; [cbn; lia|]; eapply Forall_impl; [exact F|]; cbn; lia.
  - now apply NoDup_cons.
  - intros k i; rewrite lookup_insert_Some, IX; split.
    + intros [[-> ->]|[NE [v M]]]; [exists value; left|exists v; now right].
    + intros [v [[= -> -> ->]|M]%elem_of_cons]; [now left|right]; split; [|now exists v].
      intros ->; apply A; apply list_elem_of_fmap; exists (k, v); split; [reflexivity|].
      apply list_elem_of_fmap; now exists (i, (k, v)).
Qed.

Lemma take_snoc {A : Type} (l : list A) x : take (length (l ++ [x]) - 1) (l ++ [x]) = l.
Proof. rewrite length_app; cbn; replace (length l + 1 - 1) with (length l) by lia; apply take_app_length. Qed.

Lemma evict_ok c : lru_ok c -> lru_ok (evict c) /\ items (evict c) = trim (maxSize c) (items c).
Proof.
  intros O; unfold evict; pose proof (Size_items c O) as S; unfold Size in S; rewrite S.
  unfold trim; destruct (maxSize c <? length (items c)) eqn:B; [|auto].
  destruct (last (cacheItemsList c)) as [n|] eqn:L.
  - apply last_Some in L as [l L]; destruct O as [NI F NK IX]; unfold items in *; cbn.
    rewrite L in *; rewrite fmap_app, !take_snoc in *; cbn in *.
    split; [|now rewrite take_snoc]; rewrite fmap_app in NI; apply NoDup_app in NI as (NI & ND & _).
    apply Forall_app in F as [F _]; unfold keys in NK; rewrite !fmap_app in NK; apply NoDup_app in NK as (NK & KD & _).
    split; cbn; unfold items; cbn; auto.
    intros k i; rewrite lookup_delete_Some, IX; split.
    + intros [NE [v [M|M]%elem_of_app]]; [now exists v|].
      apply list_elem_of_singleton in M; subst n; now destruct NE.
    + intros [v M]; split; [|exists v; apply elem_of_app; now left].
      intros E; apply (KD k); [|subst k; left].
      apply list_elem_of_fmap; exists (k, v); split; [reflexivity|].
      apply list_elem_of_fmap; now exists (i, (k, v)).
  - apply last_None in L; unfold items in B; rewrite L in B; discriminate B.
Qed.

Lemma drop_key_absent key (l : list (K * V)) : key ∉ keys (drop_key key l).
Proof. rewrite keys_drop, list_elem_of_filter; tauto. Qed.

Lemma Put_ok key value c : lru_ok c ->
  lru_ok (Put key value c) /\ items (Put key value c) = trim (maxSize c) ((key, value) :: drop_key key (items c)).
Proof.
  intros O; rewrite (Put_split _ _ _ O); destruct (Erase_ok key c O) as [OE IE].
  destruct (push_front_ok key value (Erase key c) OE) as [OP IP]; [rewrite IE; apply drop_key_absent|].
  destruct (evict_ok _ OP) as [OV IV]; rewrite IP, IE in IV; split; [exact OV|]; rewrite IV; cbn; f_equal.
  unfold Erase; now destruct (_ !! _).
Qed.
End LRU_operations.

(** * Runs *)

Section LRU_runs.
Context {K V : Type} `{Countable K}.
Implicit Types c : CLRUCache K V.

Lemma Get_ok key c : lru_ok c ->
  match Get key c with
  | Some (v, c') => find_key key (items c) = Some v /\ lru_ok c' /\ maxSize c' = maxSize c /\
                    items c' = (key, v) :: drop_key key (items c)
  | None => key ∉ keys (items c)
  end.
Proof.
  intros O; unfold Get; pose proof (index_keys c key O) as X; destruct (_ !! key) as [it|] eqn:E.
  - pose proof (index_names c key it O E) as N; pose proof (node_at_key _ _ _ N) as A.
    destruct (Erase_ok key c O) as [OE IE]; unfold Erase in OE, IE; rewrite E in OE, IE.
    pose proof (proj1 (lru_index _ O key it) E) as [v M].
    destruct (node_at it (cacheItemsList c)) as [n|] eqn:NA.
    + assert (n ∈ cacheItemsList c /\ n.1 = it) as [IN EN].
      { unfold node_at in NA; apply head_Some_elem_of in NA; apply list_elem_of_filter in NA; tauto. }
      assert (n = (it, (key, v))) as -> by exact (ids_nodes _ _ _ (lru_nodes _ O) IN M EN).
      unfold find_key, items; rewrite <- A; cbn [fst snd fmap option_fmap option_map].
      split_and!; auto; [|cbn; f_equal; exact IE].
      destruct OE as [NI F NK IX], O as [NI0 F0 NK0 IX0]; cbn in *; split; cbn.
      * apply NoDup_cons; split; [|exact NI]; rewrite erase_ids, list_elem_of_filter; tauto.
      * constructor; [|exact F]; rewrite Forall_forall in F0; exact (F0 _ M).
      * unfold items, keys in *; cbn; apply NoDup_cons; split; [|exact NK].
        cbn in IE; rewrite IE; apply drop_key_absent.
      * intros k i; rewrite IX0; split; [intros [w Q]|].
        -- destruct (decide (i = it)) as [->|NE]; [|exists w; right; now apply elem_of_erase].
           injection (ids_nodes _ _ _ NI0 Q M eq_refl) as -> ->; exists v; left.
        -- intros [w [[= -> -> ->]|[_ Q]%elem_of_erase]%elem_of_cons]; eauto.
    + exfalso; unfold node_at in NA; apply head_None in NA.
      assert ((it, (key, v)) ∈ filter (fun n => n.1 = it) (cacheItemsList c)) as Q by now apply list_elem_of_filter.
      rewrite NA in Q; inversion Q.
  - rewrite <- X; intros [? [=]].
Qed.

(** The calls a client makes; a failing [Get] changes nothing. *)
Inductive lru_call :=
| CallPut (key : K) (value : V) | CallErase (key : K) | CallGet (key : K) | CallClear | CallSetSize (n : nat).

Definition lru_exec (call : lru_call) c : CLRUCache K V :=
  match call with
  | CallPut key value => Put key value c
  | CallErase key => Erase key c
  | CallGet key => match Get key c with Some (_, c') => c' | None => c end
  | CallClear => Clear c
  | CallSetSize n => SetSize n c
  end.

(** The reference: one list of entries and the size limit. *)
Definition lru_spec (call : lru_call) (s : list (K * V) * nat) : list (K * V) * nat :=
  match call with
  | CallPut key value => (trim s.2 ((key, value) :: drop_key key s.1), s.2)
  | CallErase key => (drop_key key s.1, s.2)
  | CallGet key => (match find_key key s.1 with Some v => (key, v) :: drop_key key s.1 | None => s.1 end, s.2)
  | CallClear => ([], s.2)
  | CallSetSize n => (s.1, n)
  end.

Lemma find_key_absent key (l : list (K * V)) : key ∉ keys l -> find_key key l = None.
Proof.
  unfold find_key, keys; induction l as [|e l IH]; [reflexivity|]; rewrite fmap_cons, not_elem_of_cons; intros [E N].
  rewrite filter_cons, decide_False by congruence; auto.
Qed.

Lemma maxSize_Put key value c : maxSize (Put key value c) = maxSize c.
Proof. unfold Put; destruct (_ !! _); unfold evict; case_match; try reflexivity; case_match; reflexivity. Qed.

Lemma lru_exec_ok call c : lru_ok c ->
  lru_ok (lru_exec call c) /\ (items (lru_exec call c), maxSize (lru_exec call c)) = lru_spec call (items c, maxSize c).
Proof.
  intros O; destruct call as [key value|key|key| |n]; cbn [lru_exec lru_spec fst snd].
  - destruct (Put_ok key value c O) as [OP ->]; rewrite maxSize_Put; auto.
  - destruct (Erase_ok key c O) as [OE ->]; split; [exact OE|]; unfold Erase; now destruct (_ !! _).
  - pose proof (Get_ok key c O) as G; destruct (Get key c) as [[v c']|].
    + destruct G as (-> & OG & -> & ->); auto.
    + now rewrite (find_key_absent _ _ G).
  - split; [|reflexivity]; split; cbn; try constructor; [rewrite lookup_empty; discriminate|intros [v M]; inversion M].
  - split; [|reflexivity]; now destruct O.
Qed.

Lemma lru_run_ok calls c : lru_ok c -> let c' := foldl (fun c call => lru_exec call c) c calls in
  lru_ok c' /\ (items c', maxSize c') = foldl (fun s call => lru_spec call s) (items c, maxSize c) calls.
Proof.
  revert c; induction calls as [|call calls IH]; intros c O; cbn [foldl]; [auto|].
  destruct (lru_exec_ok call c O) as [O' <-]; exact (IH _ O').
Qed.

Lemma trim_length (max : nat) (l : list (K * V)) : length l <= S max -> length (trim max l) <= max.
Proof. unfold trim; destruct (Nat.ltb_spec max (length l)); rewrite ?length_take; lia. Qed.

(** The cache of recently used entries, built from a linked list and an
    index of iterators, answers every sequence of insertions, erasures,
    lookups, clearings and size changes like one list of entries, most recent
    first: a key exists exactly when the list has it, a lookup returns its
    value and moves it to the front, an insertion replaces an older entry of
    the key and drops the least recent entry when the limit is exceeded; the
    size reported is the length of the list, and an insertion into a cache
    within its limit leaves it within its limit. *)
Theorem CLRUCache_correct (calls : list lru_call) (max_size : nat) (key : K) (value : V) :
  let c := foldl (fun c call => lru_exec call c) (lru_new max_size) calls in
  let s := foldl (fun s call => lru_spec call s) ([], max_size) calls in
  items c = s.1 /\ maxSize c = s.2 /\ NoDup (keys s.1) /\
  Exists c key = bool_decide (key ∈ keys s.1) /\
  fst <$> Get key c = find_key key s.1 /\
  Size c = length s.1 /\
  (Size c <= maxSize c -> Size (Put key value c) <= maxSize c).
Proof.
  intros c s; destruct (lru_run_ok calls (lru_new max_size) (lru_new_ok max_size)) as [O E]; fold c in O, E.
  change (foldl (fun s call => lru_spec call s) _ calls) with s in E; destruct s as [l m]; injection E as EI EM.
  cbn [fst snd]; rewrite <- EI; split_and!; auto.
  - apply O.
  - unfold Exists; apply bool_decide_ext, index_keys, O.
  - pose proof (Get_ok key c O) as G; destruct (Get key c) as [[v c']|]; [symmetry; apply G|].
    symmetry; exact (find_key_absent _ _ G).
  - exact (Size_items c O).
  - intros B; destruct (Put_ok key value c O) as [OP IP]; rewrite (Size_items _ OP), IP; rewrite (Size_items _ O) in B.
    apply trim_length; cbn [length]; apply le_n_S; etransitivity; [|exact B]; apply length_filter.
Qed.
End LRU_runs.
