(* ===== verification/AssetCache.v ===== *)
(** The cache of asset state (class [CAssetsCache] of src/assets/assets.h and
    src/assets/assets.cpp): the changes of a block or of a reorganisation, kept
    in memory over the node's global cache [passets], the caches of recently
    used entries and the asset databases.

    Every kind of change is kept as a pair of sets, what was added and what was
    undone.  A [std::set] whose order looks at part of an element is a finite
    map from that part, its key; [set_insert] keeps an element that is already
    there, as [std::set::insert] does.  Amounts are unbounded integers: the
    callers bound every amount by [MAX_MONEY] before it gets here. *)

From Stdlib Require Import String.
From stdpp Require Import base gmap list fin_maps.
From Stdlib Require Import ZArith Lia.
From S2P Require Import Prelude Serialize Script Standard Transaction Compressor AssetTypes AssetNames Coins LruCache.
Open Scope Z_scope.

(** * Elements of the dirty caches *)

Inductive QualifierType := REMOVE_QUALIFIER | ADD_QUALIFIER.
Inductive RestrictedType := UNFREEZE_ADDRESS | FREEZE_ADDRESS | GLOBAL_UNFREEZE | GLOBAL_FREEZE.

#[global] Instance qualifier_type_dec : EqDecision QualifierType.
Proof. solve_decision. Defined.
#[global] Instance restricted_type_dec : EqDecision RestrictedType.
Proof. solve_decision. Defined.

Record CDatabasedAssetData := mkDatabased { dd_asset : CNewAsset; dd_nHeight : Z; dd_blockHash : bytes }.

Record CAssetCacheNewAsset := mkCacheNew {
  cn_asset : CNewAsset; cn_address : bytes; cn_blockHeight : Z; cn_blockHash : bytes }.
Record CAssetCacheReissueAsset := mkCacheReissue {
  cr_reissue : CReissueAsset; cr_address : bytes; cr_out : COutPoint; cr_blockHeight : Z; cr_blockHash : bytes }.
Record CAssetCacheNewTransfer := mkCacheTransfer {
  ct_transfer : CAssetTransfer; ct_address : bytes; ct_out : COutPoint }.
Record CAssetCacheNewOwner := mkCacheOwner { co_assetName : bytes; co_address : bytes }.

(** [CAssetCacheUndoAssetAmount] and [CAssetCacheSpendAsset] have the same
    fields. *)
Record CAssetCacheAmount := mkCacheAmount { ca_assetName : bytes; ca_address : bytes; ca_nAmount : Z }.

(** The name and address are the key of the element. *)
Record CAssetCacheRestrictedVerifiers := mkCacheVerifier { cv_verifier : bytes; cv_fUndoingRessiue : bool }.

(** * Pairs of sets *)

Section Pending.
Context {K V : Type} `{Countable K}.

Record pending := mkPending { ToAdd : gmap K V; ToRemove : gmap K V }.
Definition no_pending : pending := mkPending ∅ ∅.

(** [std::set::insert]: an equivalent element that is there stays. *)
Definition set_insert (k : K) (v : V) (s : gmap K V) : gmap K V :=
  match s !! k with Some _ => s | None => <[k := v]> s end.

(** Erase from the opposite set and insert. *)
Definition add_pending (k : K) (v : V) (p : pending) : pending :=
  mkPending (set_insert k v (ToAdd p)) (delete k (ToRemove p)).
Definition remove_pending (k : K) (v : V) (p : pending) : pending :=
  mkPending (delete k (ToAdd p)) (set_insert k v (ToRemove p)).

(** The variants that erase an element of their own set first. *)
Definition add_overwriting (k : K) (v : V) (p : pending) : pending :=
  mkPending (set_insert k v (delete k (ToAdd p))) (delete k (ToRemove p)).
Definition remove_overwriting (k : K) (v : V) (p : pending) : pending :=
  mkPending (delete k (ToAdd p)) (set_insert k v (delete k (ToRemove p))).

(** The two loops of [Flush] over one pair of sets: first the additions, then
    the removals. *)
Definition flush_pending (c p : pending) : pending :=
  map_fold remove_pending (map_fold add_pending p (ToAdd c)) (ToRemove c).
Definition flush_overwriting (c p : pending) : pending :=
  map_fold remove_overwriting (map_fold add_overwriting p (ToAdd c)) (ToRemove c).
End Pending.
Arguments pending : clear implicits.
Arguments pending K V {_ _}.

(** * The cache and the node's global state *)

Abbreviation name_address := (bytes * bytes)%type.

Record CAssetsCache := mkAssets {
  mapAssetsAddressAmount : gmap name_address Z;
  mapReissuedAssetData : gmap bytes CNewAsset;
  vUndoAssetAmount : list CAssetCacheAmount;
  vSpentAssets : list CAssetCacheAmount;
  setNewAssets : pending bytes CAssetCacheNewAsset;
  setNewReissue : pending COutPoint CAssetCacheReissueAsset;
  setNewOwnerAssets : pending bytes CAssetCacheNewOwner;
  setNewTransferAssets : pending COutPoint CAssetCacheNewTransfer;
  setNewQualifierAddress : pending name_address QualifierType;
  setNewRestrictedAddress : pending name_address RestrictedType;
  setNewRestrictedGlobal : pending bytes RestrictedType;
  setNewRestrictedVerifier : pending bytes CAssetCacheRestrictedVerifiers;
  mapRootQualifierAddressesAdd : gmap name_address (gset bytes);
  mapRootQualifierAddressesRemove : gmap name_address (gset bytes)
}.

Definition empty_assets : CAssetsCache :=
  mkAssets ∅ ∅ [] [] no_pending no_pending no_pending no_pending no_pending no_pending no_pending no_pending ∅ ∅.

(** [ClearDirtyCache] empties every container. *)
Definition ClearDirtyCache (c : CAssetsCache) : CAssetsCache := empty_assets.

(** Updates of one field. *)
Definition on_amounts f (c : CAssetsCache) : CAssetsCache :=
  mkAssets (f (mapAssetsAddressAmount c)) (mapReissuedAssetData c) (vUndoAssetAmount c) (vSpentAssets c)
    (setNewAssets c) (setNewReissue c) (setNewOwnerAssets c) (setNewTransferAssets c) (setNewQualifierAddress c)
    (setNewRestrictedAddress c) (setNewRestrictedGlobal c) (setNewRestrictedVerifier c)
    (mapRootQualifierAddressesAdd c) (mapRootQualifierAddressesRemove c).
Definition on_reissued f (c : CAssetsCache) : CAssetsCache :=
  mkAssets (mapAssetsAddressAmount c) (f (mapReissuedAssetData c)) (vUndoAssetAmount c) (vSpentAssets c)
    (setNewAssets c) (setNewReissue c) (setNewOwnerAssets c) (setNewTransferAssets c) (setNewQualifierAddress c)
    (setNewRestrictedAddress c) (setNewRestrictedGlobal c) (setNewRestrictedVerifier c)
    (mapRootQualifierAddressesAdd c) (mapRootQualifierAddressesRemove c).
Definition on_undo f (c : CAssetsCache) : CAssetsCache :=
  mkAssets (mapAssetsAddressAmount c) (mapReissuedAssetData c) (f (vUndoAssetAmount c)) (vSpentAssets c)
    (setNewAssets c) (setNewReissue c) (setNewOwnerAssets c) (setNewTransferAssets c) (setNewQualifierAddress c)
    (setNewRestrictedAddress c) (setNewRestrictedGlobal c) (setNewRestrictedVerifier c)
    (mapRootQualifierAddressesAdd c) (mapRootQualifierAddressesRemove c).
Definition on_spent f (c : CAssetsCache) : CAssetsCache :=
  mkAssets (mapAssetsAddressAmount c) (mapReissuedAssetData c) (vUndoAssetAmount c) (f (vSpentAssets c))
    (setNewAssets c) (setNewReissue c) (setNewOwnerAssets c) (setNewTransferAssets c) (setNewQualifierAddress c)
    (setNewRestrictedAddress c) (setNewRestrictedGlobal c) (setNewRestrictedVerifier c)
    (mapRootQualifierAddressesAdd c) (mapRootQualifierAddressesRemove c).
Definition on_new f (c : CAssetsCache) : CAssetsCache :=
  mkAssets (mapAssetsAddressAmount c) (mapReissuedAssetData c) (vUndoAssetAmount c) (vSpentAssets c)
    (f (setNewAssets c)) (setNewReissue c) (setNewOwnerAssets c) (setNewTransferAssets c)
    (setNewQualifierAddress c) (setNewRestrictedAddress c) (setNewRestrictedGlobal c)
    (setNewRestrictedVerifier c) (mapRootQualifierAddressesAdd c) (mapRootQualifierAddressesRemove c).
Definition on_reissue f (c : CAssetsCache) : CAssetsCache :=
  mkAssets (mapAssetsAddressAmount c) (mapReissuedAssetData c) (vUndoAssetAmount c) (vSpentAssets c)
    (setNewAssets c) (f (setNewReissue c)) (setNewOwnerAssets c) (setNewTransferAssets c)
    (setNewQualifierAddress c) (setNewRestrictedAddress c) (setNewRestrictedGlobal c)
    (setNewRestrictedVerifier c) (mapRootQualifierAddressesAdd c) (mapRootQualifierAddressesRemove c).
Definition on_owner f (c : CAssetsCache) : CAssetsCache :=
  mkAssets (mapAssetsAddressAmount c) (mapReissuedAssetData c) (vUndoAssetAmount c) (vSpentAssets c)
    (setNewAssets c) (setNewReissue c) (f (setNewOwnerAssets c)) (setNewTransferAssets c)
    (setNewQualifierAddress c) (setNewRestrictedAddress c) (setNewRestrictedGlobal c)
    (setNewRestrictedVerifier c) (mapRootQualifierAddressesAdd c) (mapRootQualifierAddressesRemove c).
Definition on_transfer f (c : CAssetsCache) : CAssetsCache :=
  mkAssets (mapAssetsAddressAmount c) (mapReissuedAssetData c) (vUndoAssetAmount c) (vSpentAssets c)
    (setNewAssets c) (setNewReissue c) (setNewOwnerAssets c) (f (setNewTransferAssets c))
    (setNewQualifierAddress c) (setNewRestrictedAddress c) (setNewRestrictedGlobal c)
    (setNewRestrictedVerifier c) (mapRootQualifierAddressesAdd c) (mapRootQualifierAddressesRemove c).
Definition on_qualifier f (c : CAssetsCache) : CAssetsCache :=
  mkAssets (mapAssetsAddressAmount c) (mapReissuedAssetData c) (vUndoAssetAmount c) (vSpentAssets c)
    (setNewAssets c) (setNewReissue c) (setNewOwnerAssets c) (setNewTransferAssets c)
    (f (setNewQualifierAddress c)) (setNewRestrictedAddress c) (setNewRestrictedGlobal c)
    (setNewRestrictedVerifier c) (mapRootQualifierAddressesAdd c) (mapRootQualifierAddressesRemove c).
Definition on_restricted f (c : CAssetsCache) : CAssetsCache :=
  mkAssets (mapAssetsAddressAmount c) (mapReissuedAssetData c) (vUndoAssetAmount c) (vSpentAssets c)
    (setNewAssets c) (setNewReissue c) (setNewOwnerAssets c) (setNewTransferAssets c) (setNewQualifierAddress c)
    (f (setNewRestrictedAddress c)) (setNewRestrictedGlobal c) (setNewRestrictedVerifier c)
    (mapRootQualifierAddressesAdd c) (mapRootQualifierAddressesRemove c).
Definition on_global f (c : CAssetsCache) : CAssetsCache :=
  mkAssets (mapAssetsAddressAmount c) (mapReissuedAssetData c) (vUndoAssetAmount c) (vSpentAssets c)
    (setNewAssets c) (setNewReissue c) (setNewOwnerAssets c) (setNewTransferAssets c) (setNewQualifierAddress c)
    (setNewRestrictedAddress c) (f (setNewRestrictedGlobal c)) (setNewRestrictedVerifier c)
    (mapRootQualifierAddressesAdd c) (mapRootQualifierAddressesRemove c).
Definition on_verifier f (c : CAssetsCache) : CAssetsCache :=
  mkAssets (mapAssetsAddressAmount c) (mapReissuedAssetData c) (vUndoAssetAmount c) (vSpentAssets c)
    (setNewAssets c) (setNewReissue c) (setNewOwnerAssets c) (setNewTransferAssets c) (setNewQualifierAddress c)
    (setNewRestrictedAddress c) (setNewRestrictedGlobal c) (f (setNewRestrictedVerifier c))
    (mapRootQualifierAddressesAdd c) (mapRootQualifierAddressesRemove c).
Definition on_root_add f (c : CAssetsCache) : CAssetsCache :=
  mkAssets (mapAssetsAddressAmount c) (mapReissuedAssetData c) (vUndoAssetAmount c) (vSpentAssets c)
    (setNewAssets c) (setNewReissue c) (setNewOwnerAssets c) (setNewTransferAssets c) (setNewQualifierAddress c)
    (setNewRestrictedAddress c) (setNewRestrictedGlobal c) (setNewRestrictedVerifier c)
    (f (mapRootQualifierAddressesAdd c)) (mapRootQualifierAddressesRemove c).
Definition on_root_remove f (c : CAssetsCache) : CAssetsCache :=
  mkAssets (mapAssetsAddressAmount c) (mapReissuedAssetData c) (vUndoAssetAmount c) (vSpentAssets c)
    (setNewAssets c) (setNewReissue c) (setNewOwnerAssets c) (setNewTransferAssets c) (setNewQualifierAddress c)
    (setNewRestrictedAddress c) (setNewRestrictedGlobal c) (setNewRestrictedVerifier c)
    (mapRootQualifierAddressesAdd c) (f (mapRootQualifierAddressesRemove c)).

(** ** Databases *)

(** The keys of the asset database and of the restricted asset database: a
    flag and a name or a pair of strings.  The two databases hold different
    flags, so one map holds both. *)
Inductive db_key :=
| ASSET (name : bytes)
| ASSET_ADDRESS_QUANTITY (name address : bytes)
| ADDRESS_ASSET_QUANTITY (address name : bytes)
| VERIFIER (name : bytes)
| ADDRESS_QUALIFIER (address tag : bytes)
| QUALIFIER_ADDRESS (tag address : bytes)
| RESTRICTED_ADDRESS (address name : bytes)
| GLOBAL_RESTRICTION (name : bytes).

#[global] Instance db_key_dec : EqDecision db_key.
Proof. solve_decision. Defined.
#[global] Instance db_key_countable : Countable db_key.
Proof.
  refine (inj_countable'
    (fun k => match k with
              | ASSET n => (0%nat, (n, []))
              | ASSET_ADDRESS_QUANTITY n a => (1%nat, (n, a))
              | ADDRESS_ASSET_QUANTITY a n => (2%nat, (a, n))
              | VERIFIER n => (3%nat, (n, []))
              | ADDRESS_QUALIFIER a t => (4%nat, (a, t))
              | QUALIFIER_ADDRESS t a => (5%nat, (t, a))
              | RESTRICTED_ADDRESS a n => (6%nat, (a, n))
              | GLOBAL_RESTRICTION n => (7%nat, (n, []))
              end : nat * (list Z * list Z))
    (fun '(t, (x, y)) => match t with
              | 0 => ASSET x | 1 => ASSET_ADDRESS_QUANTITY x y | 2 => ADDRESS_ASSET_QUANTITY x y
              | 3 => VERIFIER x | 4 => ADDRESS_QUALIFIER x y | 5 => QUALIFIER_ADDRESS x y
              | 6 => RESTRICTED_ADDRESS x y | _ => GLOBAL_RESTRICTION x
              end%nat) _).
  intros []; reflexivity.
Defined.

Inductive db_value := VData (d : CDatabasedAssetData) | VAmount (n : Z) | VString (s : bytes) | VFlag.
Abbreviation assets_db := (gmap db_key db_value).

Definition ReadAssetData (db : assets_db) (name : bytes) : option CDatabasedAssetData :=
  match db !! ASSET name with Some (VData d) => Some d | _ => None end.
Definition ReadAssetAddressQuantity (db : assets_db) (name address : bytes) : option Z :=
  match db !! ASSET_ADDRESS_QUANTITY name address with Some (VAmount n) => Some n | _ => None end.
Definition ReadVerifier (db : assets_db) (name : bytes) : option bytes :=
  match db !! VERIFIER name with Some (VString v) => Some v | _ => None end.
Definition ReadFlag (db : assets_db) (k : db_key) : bool :=
  match db !! k with Some VFlag => true | _ => false end.

(** The cursor visits the tags of the address from the sought one on; the tags
    that match are that tag and longer ones, which follow it. *)
Definition tag_under (qualifier tag : bytes) : bool :=
  bool_decide (tag = qualifier) ||
  bool_decide (firstn (S (length qualifier)) tag = qualifier ++ [SUB_NAME_DELIMITER]).
Definition CheckForAddressRootQualifier (db : assets_db) (address qualifier : bytes) : bool :=
  existsb (fun e => match e with
                    | (ADDRESS_QUALIFIER a tag, _) => bool_decide (a = address) && tag_under qualifier tag
                    | _ => false
                    end) (map_to_list db).

(** ** The node's global objects *)

Record assets_state := mkState {
  passets : CAssetsCache;
  passetsCache : CLRUCache bytes CDatabasedAssetData;
  passetsVerifierCache : CLRUCache bytes bytes;
  passetsQualifierCache : CLRUCache bytes Z;
  passetsRestrictionCache : CLRUCache bytes Z;
  passetsGlobalRestrictionCache : CLRUCache bytes Z;
  passetsdb : assets_db
}.

Definition with_passets f (g : assets_state) : assets_state :=
  mkState (f (passets g)) (passetsCache g) (passetsVerifierCache g) (passetsQualifierCache g)
    (passetsRestrictionCache g) (passetsGlobalRestrictionCache g) (passetsdb g).
Definition with_cache f (g : assets_state) : assets_state :=
  mkState (passets g) (f (passetsCache g)) (passetsVerifierCache g) (passetsQualifierCache g)
    (passetsRestrictionCache g) (passetsGlobalRestrictionCache g) (passetsdb g).
Definition with_verifiers f (g : assets_state) : assets_state :=
  mkState (passets g) (passetsCache g) (f (passetsVerifierCache g)) (passetsQualifierCache g)
    (passetsRestrictionCache g) (passetsGlobalRestrictionCache g) (passetsdb g).
Definition with_qualifiers f (g : assets_state) : assets_state :=
  mkState (passets g) (passetsCache g) (passetsVerifierCache g) (f (passetsQualifierCache g))
    (passetsRestrictionCache g) (passetsGlobalRestrictionCache g) (passetsdb g).
Definition with_restrictions f (g : assets_state) : assets_state :=
  mkState (passets g) (passetsCache g) (passetsVerifierCache g) (passetsQualifierCache g)
    (f (passetsRestrictionCache g)) (passetsGlobalRestrictionCache g) (passetsdb g).
Definition with_globals f (g : assets_state) : assets_state :=
  mkState (passets g) (passetsCache g) (passetsVerifierCache g) (passetsQualifierCache g)
    (passetsRestrictionCache g) (f (passetsGlobalRestrictionCache g)) (passetsdb g).
Definition with_db f (g : assets_state) : assets_state :=
  mkState (passets g) (passetsCache g) (passetsVerifierCache g) (passetsQualifierCache g)
    (passetsRestrictionCache g) (passetsGlobalRestrictionCache g) (f (passetsdb g)).

(** * Lookups *)

Section Lookups.
Variable fAssetIndex : bool.
Variable fReindex : bool.
(** [Hash(name, address).GetHex()]: the hash of the concatenation. *)
Variable Hash : bytes -> bytes.

Definition cache_key (k : name_address) : bytes := Hash (fst k ++ snd k).

(** Which of the node's sets answers for a key: the undone changes of the
    temporary cache and of [passets], then the added ones. *)
Definition find_pending {K V A : Type} `{Countable K} (undone added : V -> A) (fSkipTempCache : bool)
  (c p : pending K V) (k : K) : option A :=
  match (if fSkipTempCache then None else ToRemove c !! k) with
  | Some v => Some (undone v)
  | None =>
      match ToRemove p !! k with
      | Some v => Some (undone v)
      | None =>
          match (if fSkipTempCache then None else ToAdd c !! k) with
          | Some v => Some (added v)
          | None => added <$> ToAdd p !! k
          end
      end
  end.

Definition CheckIfAssetExists (fForceDuplicateCheck : bool) (name : bytes) (c : CAssetsCache) (g : assets_state)
  : bool * assets_state :=
  if fReindex then (true, g)
  else if bool_decide (is_Some (ToRemove (setNewAssets c) !! name)) then (false, g)
  else if bool_decide (is_Some (ToRemove (setNewAssets (passets g)) !! name)) then (false, g)
  else if bool_decide (is_Some (ToAdd (setNewAssets c) !! name)) && fForceDuplicateCheck then (true, g)
  else if bool_decide (is_Some (ToAdd (setNewAssets (passets g)) !! name)) && fForceDuplicateCheck then (true, g)
  else if LruCache.Exists (passetsCache g) name then (fForceDuplicateCheck, g)
  else match ReadAssetData (passetsdb g) name with
       | Some d => (fForceDuplicateCheck, with_cache (LruCache.Put (na_strName (dd_asset d)) d) g)
       | None => (false, g)
       end.

(** The height and block hash of the caller are set only where the source sets
    them: not where the data comes from a map of reissued assets. *)
Definition GetAssetMetaDataIfExists (name : bytes) (nHeight : Z) (blockHash : bytes) (c : CAssetsCache)
  (g : assets_state) : option (CNewAsset * Z * bytes) * assets_state :=
  match mapReissuedAssetData c !! name with
  | Some a => (Some (a, nHeight, blockHash), g)
  | None =>
  match mapReissuedAssetData (passets g) !! name with
  | Some a => (Some (a, nHeight, blockHash), g)
  | None =>
  if bool_decide (is_Some (ToRemove (setNewAssets c) !! name)) then (None, g)
  else if bool_decide (is_Some (ToRemove (setNewAssets (passets g)) !! name)) then (None, g)
  else match ToAdd (setNewAssets c) !! name with
  | Some e => (Some (cn_asset e, cn_blockHeight e, cn_blockHash e), g)
  | None =>
  match ToAdd (setNewAssets (passets g)) !! name with
  | Some e => (Some (cn_asset e, cn_blockHeight e, cn_blockHash e), g)
  | None =>
  match LruCache.Get name (passetsCache g) with
  | Some (d, cache) => (Some (dd_asset d, dd_nHeight d, dd_blockHash d), with_cache (fun _ => cache) g)
  | None =>
  match ReadAssetData (passetsdb g) name with
  | Some d => (Some (dd_asset d, dd_nHeight d, dd_blockHash d), with_cache (LruCache.Put (na_strName (dd_asset d)) d) g)
  | None => (None, g)
  end end end end end end.

Definition GetBestAssetAddressAmount (assetName address : bytes) (g : assets_state) (c : CAssetsCache)
  : bool * CAssetsCache :=
  let pair := (assetName, address) in
  if fAssetIndex then
    if bool_decide (is_Some (mapAssetsAddressAmount c !! pair)) then (true, c)
    else match mapAssetsAddressAmount (passets g) !! pair with
         | Some n => (true, on_amounts (insert pair n) c)
         | None => match ReadAssetAddressQuantity (passetsdb g) assetName address with
                   | Some nDBAmount => (true, on_amounts (set_insert pair nDBAmount) c)
                   | None => (false, c)
                   end
         end
  else (false, c).

Definition GetAssetVerifierStringIfExists (name : bytes) (fSkipTempCache : bool) (c : CAssetsCache)
  (g : assets_state) : option bytes * assets_state :=
  match find_pending (fun v => if cv_fUndoingRessiue v then Some (cv_verifier v) else None)
          (fun v => Some (cv_verifier v)) fSkipTempCache (setNewRestrictedVerifier c)
          (setNewRestrictedVerifier (passets g)) name with
  | Some found => (found, g)
  | None =>
      match LruCache.Get name (passetsVerifierCache g) with
      | Some (v, cache) => (Some v, with_verifiers (fun _ => cache) g)
      | None =>
          match ReadVerifier (passetsdb g) name with
          | Some v => (Some v, with_verifiers (LruCache.Put name v) g)
          | None => (None, g)
          end
      end
  end.

Definition CheckForAddressRestriction (restricted_name address : bytes) (fSkipTempCache : bool) (c : CAssetsCache)
  (g : assets_state) : bool * assets_state :=
  let k := (restricted_name, address) in
  match find_pending (fun t => bool_decide (t = UNFREEZE_ADDRESS)) (fun t => bool_decide (t = FREEZE_ADDRESS))
          fSkipTempCache (setNewRestrictedAddress c) (setNewRestrictedAddress (passets g)) k with
  | Some found => (found, g)
  | None =>
      if LruCache.Exists (passetsRestrictionCache g) (cache_key k) then (true, g)
      else if ReadFlag (passetsdb g) (RESTRICTED_ADDRESS address restricted_name)
           then (true, with_restrictions (LruCache.Put (cache_key k) 1) g)
           else (false, g)
  end.

Definition CheckForGlobalRestriction (restricted_name : bytes) (fSkipTempCache : bool) (c : CAssetsCache)
  (g : assets_state) : bool * assets_state :=
  match find_pending (fun t => bool_decide (t = GLOBAL_UNFREEZE)) (fun t => bool_decide (t = GLOBAL_FREEZE))
          fSkipTempCache (setNewRestrictedGlobal c) (setNewRestrictedGlobal (passets g)) restricted_name with
  | Some found => (found, g)
  | None =>
      if LruCache.Exists (passetsGlobalRestrictionCache g) restricted_name then (true, g)
      else if ReadFlag (passetsdb g) (GLOBAL_RESTRICTION restricted_name)
           then (true, with_globals (LruCache.Put restricted_name 1) g)
           else (false, g)
  end.

(** Some sub-qualifier of the root was added for the address. *)
Definition root_added (m : gmap name_address (gset bytes)) (k : name_address) : bool :=
  match m !! k with Some s => negb (size s =? 0)%nat | None => false end.

Definition CheckForAddressQualifier (qualifier_name address : bytes) (fSkipTempCache : bool) (c : CAssetsCache)
  (g : assets_state) : bool * assets_state :=
  let k := (qualifier_name, address) in
  let p := passets g in
  match (if fSkipTempCache then None else ToRemove (setNewQualifierAddress c) !! k) with
  | Some t => (bool_decide (t = REMOVE_QUALIFIER), g)
  | None =>
  match ToRemove (setNewQualifierAddress p) !! k with
  | Some t => (bool_decide (t = REMOVE_QUALIFIER), g)
  | None =>
  match (if fSkipTempCache then None else ToAdd (setNewQualifierAddress c) !! k) with
  | Some t => (bool_decide (t = ADD_QUALIFIER), g)
  | None =>
  match ToAdd (setNewQualifierAddress p) !! k with
  | Some t => (bool_decide (t = ADD_QUALIFIER) || root_added (mapRootQualifierAddressesAdd p) k, g)
  | None =>
      if negb fSkipTempCache && root_added (mapRootQualifierAddressesAdd c) k then (true, g)
      else if root_added (mapRootQualifierAddressesAdd p) k then (true, g)
      else if LruCache.Exists (passetsQualifierCache g) (cache_key k) then (true, g)
      else if ReadFlag (passetsdb g) (ADDRESS_QUALIFIER address qualifier_name)
           then (true, with_qualifiers (LruCache.Put (cache_key k) 1) g)
      else (CheckForAddressRootQualifier (passetsdb g) address qualifier_name, g)
  end end end end.
End Lookups.

(** * Changes made by blocks *)

(** Undo data of one reissued asset, [CBlockAssetUndo]. *)
Record CBlockAssetUndo := mkAssetUndo {
  bu_fChangedIPFS : bool; bu_fChangedUnits : bool; bu_strIPFS : bytes; bu_nUnits : Z;
  bu_fChangedVerifierString : bool; bu_verifierString : bytes }.

Section Operations.
Variable fAssetIndex : bool.
Variable fReindex : bool.
Implicit Types (c : CAssetsCache) (g : assets_state).

Abbreviation GetBest := (GetBestAssetAddressAmount fAssetIndex).
Abbreviation CheckExists := (CheckIfAssetExists fReindex).

(** ** Balances *)

(** [mapAssetsAddressAmount.at(pair)], where the pair is in the map. *)
Definition amount_at (k : name_address) c : Z := default 0 (mapAssetsAddressAmount c !! k).

(** The balance is looked up, an unknown one starts at 0. *)
Definition fetch_balance (assetName address : bytes) g c : CAssetsCache :=
  let '(found, c) := GetBest assetName address g c in
  if found then c else on_amounts (set_insert (assetName, address) 0) c.

Definition AddToAssetBalance (strName address : bytes) (nAmount : Z) g c : CAssetsCache :=
  if fAssetIndex then
    let c := fetch_balance strName address g c in
    let k := (strName, address) in
    if IsAssetNameAnOwner strName then on_amounts (insert k OWNER_ASSET_AMOUNT) c
    else on_amounts (insert k (amount_at k c + nAmount)) c
  else c.

Definition AddTransferAsset (transferAsset : CAssetTransfer) (address : bytes) (out : COutPoint) g c : CAssetsCache :=
  let c := AddToAssetBalance (at_strName transferAsset) address (at_nAmount transferAsset) g c in
  on_transfer (add_pending out (mkCacheTransfer transferAsset address out)) c.

Definition AddBackSpentAsset (assetName address : bytes) (nAmount : Z) g c : CAssetsCache :=
  let k := (assetName, address) in
  let c := if fAssetIndex then
             let c := fetch_balance assetName address g c in
             on_amounts (insert k (amount_at k c + nAmount)) c
           else c in
  on_undo (fun v => v ++ [mkCacheAmount assetName address nAmount]) c.

(** The boolean of the source comes first, [false] where it reports an error. *)
Definition UndoTransfer (transfer : CAssetTransfer) (address : bytes) g c : bool * CAssetsCache :=
  if fAssetIndex then
    let k := (at_strName transfer, address) in
    let '(found, c) := GetBest (at_strName transfer) address g c in
    if negb found then (false, c)
    else if negb (bool_decide (is_Some (mapAssetsAddressAmount c !! k))) then (false, c)
    else if amount_at k c <? at_nAmount transfer then (false, c)
    else (true, on_amounts (insert k (amount_at k c - at_nAmount transfer)) c)
  else (true, c).

Definition RemoveTransfer (transfer : CAssetTransfer) (address : bytes) (out : COutPoint) g c : bool * CAssetsCache :=
  let '(ok, c) := UndoTransfer transfer address g c in
  if ok then (true, on_transfer (remove_pending out (mkCacheTransfer transfer address out)) c) else (false, c).

(** ** Spending and restoring asset outputs *)

Section Outputs.
Variable Hash160 : bytes -> bytes.
Variable EncodeDestination : CTxDestination -> bytes.
Variable AreTransferScriptsSizeDeployed : bool.

(** Name, address and amount of an asset output; [None] where the script says
    it is one but its data does not parse. *)
Definition asset_of_script (s : CScript) : option (bytes * bytes * Z) :=
  match IsAssetScript s with
  | Some (TX_NEW_ASSET, false, _) =>
      (fun r => (na_strName (fst r), snd r, na_nAmount (fst r))) <$> AssetFromScript Hash160 EncodeDestination s
  | Some (TX_TRANSFER_ASSET, _, _) =>
      (fun r => (at_strName (fst r), snd r, at_nAmount (fst r))) <$>
      TransferAssetFromScript Hash160 EncodeDestination AreTransferScriptsSizeDeployed s
  | Some (TX_NEW_ASSET, true, _) =>
      (fun r => (fst r, snd r, OWNER_ASSET_AMOUNT)) <$> OwnerAssetFromScript Hash160 EncodeDestination s
  | Some (TX_REISSUE_ASSET, _, _) =>
      (fun r => (ra_strName (fst r), snd r, ra_nAmount (fst r))) <$> ReissueAssetFromScript Hash160 EncodeDestination s
  | _ => None
  end.

Definition is_empty_string (s : bytes) : bool := match s with [] => true | _ => false end.

Definition spend_balance (assetName address : bytes) (nAmount : Z) g c : CAssetsCache :=
  if fAssetIndex && (nAmount >? 0) then
    let k := (assetName, address) in
    let '(found, c) := GetBest assetName address g c in
    if found then
      let c := if bool_decide (is_Some (mapAssetsAddressAmount c !! k))
               then on_amounts (insert k (amount_at k c - nAmount)) c else c in
      let c := if amount_at k c <? 0 then on_amounts (insert k 0) c else c in
      on_spent (fun v => v ++ [mkCacheAmount assetName address nAmount]) c
    else c
  else c.

Definition TrySpendCoin (scriptPubKey : CScript) g c : bool * CAssetsCache :=
  if negb (is_some (IsAssetScript scriptPubKey)) then (true, c)
  else match asset_of_script scriptPubKey with
       | Some (assetName, address, nAmount) =>
           if negb (is_empty_string address) && negb (is_empty_string assetName)
           then (true, spend_balance assetName address nAmount g c) else (false, c)
       | None => (false, c)
       end.

Definition UndoAssetCoin (scriptPubKey : CScript) g c : bool * CAssetsCache :=
  match asset_of_script scriptPubKey with
  | Some (assetName, strAddress, nAmount) =>
      if is_empty_string assetName || is_empty_string strAddress || (nAmount =? 0) then (false, c)
      else (true, AddBackSpentAsset assetName strAddress nAmount g c)
  | None => (false, c)
  end.
End Outputs.

(** ** Assets *)

Definition AddNewAsset (asset : CNewAsset) (address : bytes) (nHeight : Z) (blockHash : bytes) g c
  : bool * CAssetsCache * assets_state :=
  let '(exists_, g) := CheckExists true (na_strName asset) c g in
  if exists_ then (false, c, g)
  else
    let c := on_new (add_pending (na_strName asset) (mkCacheNew asset address nHeight blockHash)) c in
    (true, if fAssetIndex then on_amounts (insert (na_strName asset, address) (na_nAmount asset)) c else c, g).

Definition RemoveNewAsset (asset : CNewAsset) (address : bytes) g c : bool * CAssetsCache * assets_state :=
  let '(exists_, g) := CheckExists true (na_strName asset) c g in
  if negb exists_ then (false, c, g)
  else
    let c := on_new (remove_pending (na_strName asset) (mkCacheNew asset address 0 (repeat 0 32))) c in
    (true, if fAssetIndex then on_amounts (insert (na_strName asset, address) 0) c else c, g).

Definition AddOwnerAsset (assetsName address : bytes) c : CAssetsCache :=
  let c := on_owner (add_pending assetsName (mkCacheOwner assetsName address)) c in
  if fAssetIndex then on_amounts (insert (assetsName, address) OWNER_ASSET_AMOUNT) c else c.

Definition RemoveOwnerAsset (assetsName address : bytes) c : CAssetsCache :=
  let c := on_owner (remove_pending assetsName (mkCacheOwner assetsName address)) c in
  if fAssetIndex then on_amounts (insert (assetsName, address) 0) c else c.

(** ** Verifier strings *)

Definition AddRestrictedVerifier (assetName verifier : bytes) c : CAssetsCache :=
  on_verifier (add_pending assetName (mkCacheVerifier verifier false)) c.

Definition RemoveRestrictedVerifier (assetName verifier : bytes) (fUndoingReissue : bool) c : CAssetsCache :=
  on_verifier (remove_pending assetName (mkCacheVerifier verifier fUndoingReissue)) c.

(** ** Reissues *)

(** What a reissue does to the data of its asset. *)
Definition apply_reissue (reissue : CReissueAsset) (a : CNewAsset) : CNewAsset :=
  let has := negb (is_empty_string (ra_strIPFSHash reissue)) in
  mkNewAsset (na_strName a) (na_nAmount a + ra_nAmount reissue)
    (if ra_nUnits reissue =? -1 then na_units a else ra_nUnits reissue)
    (ra_nReissuable reissue)
    (if has then 1 else na_nHasIPFS a)
    (if has then ra_strIPFSHash reissue else na_strIPFSHash a).

(** [assetHeight] is declared without a value: [indeterminate] is what it
    holds; [assetBlockHash] starts as the null hash. *)
Definition AddReissueAsset (indeterminate : Z) (reissue : CReissueAsset) (address : bytes) (out : COutPoint) g c
  : bool * CAssetsCache * assets_state :=
  let name := ra_strName reissue in
  match GetAssetMetaDataIfExists name indeterminate (repeat 0 32) c g with
  | (None, g) => (false, c, g)
  | (Some (asset, assetHeight, assetBlockHash), g) =>
      let c := match mapReissuedAssetData c !! name with
               | None => on_reissued (insert name (apply_reissue reissue asset)) c
               | Some a => on_reissued (insert name (apply_reissue reissue a)) c
               end in
      let c := on_reissue (add_pending out (mkCacheReissue reissue address out assetHeight assetBlockHash)) c in
      (true, if fAssetIndex then
               let k := (name, address) in
               let c := fetch_balance name address g c in
               on_amounts (insert k (amount_at k c + ra_nAmount reissue)) c
             else c, g)
  end.

(** What undoing a reissue does to the data; the first entry of the undo data
    for the asset counts. *)
Definition undo_reissue (reissue : CReissueAsset) (vUndoIPFS : list (bytes * CBlockAssetUndo)) (a : CNewAsset)
  : CNewAsset * option bytes :=
  let amount := na_nAmount a - ra_nAmount reissue in
  match List.find (fun i => bool_decide (fst i = ra_strName reissue)) vUndoIPFS with
  | None => (mkNewAsset (na_strName a) amount (na_units a) 1 (na_nHasIPFS a) (na_strIPFSHash a), None)
  | Some (_, u) =>
      let hash := if bu_fChangedIPFS u then bu_strIPFS u else na_strIPFSHash a in
      (mkNewAsset (na_strName a) amount (if bu_fChangedUnits u then swrap 8 (bu_nUnits u) else na_units a) 1
         (if is_empty_string hash then 0 else na_nHasIPFS a) hash,
       if bu_fChangedVerifierString u then Some (bu_verifierString u) else None)
  end.

Definition RemoveReissueAsset (indeterminate : Z) (reissue : CReissueAsset) (address : bytes) (out : COutPoint)
  (vUndoIPFS : list (bytes * CBlockAssetUndo)) g c : bool * CAssetsCache * assets_state :=
  let name := ra_strName reissue in
  match GetAssetMetaDataIfExists name indeterminate (repeat 0 32) c g with
  | (None, g) => (false, c, g)
  | (Some (asset, height, blockHash), g) =>
      let '(assetData, verifier) := undo_reissue reissue vUndoIPFS asset in
      let c := on_reissued (insert (na_strName assetData) assetData) c in
      let c := on_reissue (remove_pending out (mkCacheReissue reissue address out height blockHash)) c in
      let c := match verifier with
               | Some v => RemoveRestrictedVerifier (na_strName assetData) v true c
               | None => c
               end in
      if fAssetIndex then
        let k := (name, address) in
        let '(found, c) := GetBest name address g c in
        if negb found && negb (ra_nAmount reissue =? 0) then (false, c, g)
        else
          let c := on_amounts (insert k (amount_at k c - ra_nAmount reissue)) c in
          (negb (amount_at k c <? 0), c, g)
      else (true, c, g)
  end.

(** ** Qualifiers and restrictions *)

(** [map\[k\].insert(name)] and [map\[k\].erase(name)] create the entry. *)
Definition root_insert (k : name_address) (name : bytes) (m : gmap name_address (gset bytes)) :=
  <[k := default ∅ (m !! k) ∪ {[name]}]> m.
Definition root_erase (k : name_address) (name : bytes) (m : gmap name_address (gset bytes)) :=
  <[k := default ∅ (m !! k) ∖ {[name]}]> m.

Definition mark_root (assetName address : bytes) (adding : bool) c : CAssetsCache :=
  let k := (GetParentName assetName, address) in
  if IsAssetNameASubQualifier assetName then
    if adding then on_root_remove (root_erase k assetName) (on_root_add (root_insert k assetName) c)
    else on_root_add (root_erase k assetName) (on_root_remove (root_insert k assetName) c)
  else c.

Definition AddQualifierAddress (assetName address : bytes) (type : QualifierType) c : CAssetsCache :=
  on_qualifier (add_overwriting (assetName, address) type)
    (mark_root assetName address (bool_decide (type = ADD_QUALIFIER)) c).

Definition RemoveQualifierAddress (assetName address : bytes) (type : QualifierType) c : CAssetsCache :=
  on_qualifier (remove_overwriting (assetName, address) type)
    (mark_root assetName address (negb (bool_decide (type = ADD_QUALIFIER))) c).

Definition AddRestrictedAddress (assetName address : bytes) (type : RestrictedType) c : CAssetsCache :=
  on_restricted (add_overwriting (assetName, address) type) c.
Definition RemoveRestrictedAddress (assetName address : bytes) (type : RestrictedType) c : CAssetsCache :=
  on_restricted (remove_overwriting (assetName, address) type) c.
Definition AddGlobalRestricted (assetName : bytes) (type : RestrictedType) c : CAssetsCache :=
  on_global (add_overwriting assetName type) c.
Definition RemoveGlobalRestricted (assetName : bytes) (type : RestrictedType) c : CAssetsCache :=
  on_global (remove_overwriting assetName type) c.
End Operations.

(** * Flushing to the global cache *)

Definition flush_roots (c p : gmap name_address (gset bytes)) : gmap name_address (gset bytes) :=
  map_fold (fun k names m => set_fold (fun name m => root_insert k name m) m names) p c.

Definition flush_into (c p : CAssetsCache) : CAssetsCache :=
  mkAssets
    (mapAssetsAddressAmount c ∪ mapAssetsAddressAmount p)
    (mapReissuedAssetData c ∪ mapReissuedAssetData p)
    (vUndoAssetAmount p ++ vUndoAssetAmount c)
    (vSpentAssets p ++ vSpentAssets c)
    (flush_pending (setNewAssets c) (setNewAssets p))
    (flush_pending (setNewReissue c) (setNewReissue p))
    (flush_pending (setNewOwnerAssets c) (setNewOwnerAssets p))
    (flush_pending (setNewTransferAssets c) (setNewTransferAssets p))
    (flush_overwriting (setNewQualifierAddress c) (setNewQualifierAddress p))
    (flush_overwriting (setNewRestrictedAddress c) (setNewRestrictedAddress p))
    (flush_overwriting (setNewRestrictedGlobal c) (setNewRestrictedGlobal p))
    (flush_overwriting (setNewRestrictedVerifier c) (setNewRestrictedVerifier p))
    (flush_roots (mapRootQualifierAddressesAdd c) (mapRootQualifierAddressesAdd p))
    (flush_roots (mapRootQualifierAddressesRemove c) (mapRootQualifierAddressesRemove p)).

Definition Flush (c : CAssetsCache) (g : assets_state) : assets_state := with_passets (flush_into c) g.

(** * Layers of changes *)

(** What a pair of sets says of a key over what lies below it: the undone
    changes hide the added ones. *)
Definition layer {K V A : Type} `{Countable K} (undone added : V -> A) (p : pending K V) (k : K) (base : A) : A :=
  match ToRemove p !! k with
  | Some v => undone v
  | None => match ToAdd p !! k with Some v => added v | None => base end
  end.

Section Layers.
Context {K V : Type} `{Countable K}.
Implicit Types (p c : pending K V) (m : gmap K V).

Lemma set_insert_lookup k v m i :
  set_insert k v m !! i = match m !! i with Some x => Some x | None => if decide (i = k) then Some v else None end.
Proof.
  unfold set_insert; destruct (m !! k) eqn:E; destruct (decide (i = k)) as [->|NE]; rewrite ?E.
  - reflexivity.
  - now destruct (m !! i).
  - now rewrite lookup_insert_eq.
  - rewrite lookup_insert_ne by congruence; now destruct (m !! i).
Qed.

(** One loop over a set, where [here] is the set inserted into and [there] the
    one erased from. *)
Lemma fold_lookup (over : bool) (f : K -> V -> pending K V -> pending K V) (here there : pending K V -> gmap K V) :
  (forall k v r, here (f k v r) = set_insert k v (if over then delete k (here r) else here r)) ->
  (forall k v r, there (f k v r) = delete k (there r)) ->
  forall m p i,
  here (map_fold f p m) !! i = match m !! i with
                               | Some v => if over then Some v else Some (default v (here p !! i))
                               | None => here p !! i
                               end /\
  there (map_fold f p m) !! i = match m !! i with Some _ => None | None => there p !! i end.
Proof.
  intros HH HT m p i; apply (map_fold_weak_ind (fun p' m =>
    here p' !! i = match m !! i with
                   | Some v => if over then Some v else Some (default v (here p !! i))
                   | None => here p !! i
                   end /\
    there p' !! i = match m !! i with Some _ => None | None => there p !! i end)).
  - now rewrite lookup_empty.
  - intros k v m' r N [A R]; rewrite HH, HT, set_insert_lookup; destruct (decide (i = k)) as [->|NE].
    + rewrite N in A, R; rewrite lookup_insert_eq, lookup_delete_eq; destruct over.
      * now rewrite lookup_delete_eq.
      * rewrite A; now destruct (here p !! k).
    + rewrite lookup_insert_ne, lookup_delete_ne by congruence.
      destruct over; rewrite ?lookup_delete_ne by congruence; rewrite A, R; destruct (m' !! i), (here p !! i); auto.
Qed.

Lemma fold_add_lookup (over : bool) m p i :
  let p' := map_fold (if over then add_overwriting else add_pending) p m in
  ToAdd p' !! i = match m !! i with
                  | Some v => if over then Some v else Some (default v (ToAdd p !! i))
                  | None => ToAdd p !! i
                  end /\
  ToRemove p' !! i = match m !! i with Some _ => None | None => ToRemove p !! i end.
Proof. apply (fold_lookup over _ ToAdd ToRemove); now destruct over. Qed.

Lemma fold_remove_lookup (over : bool) m p i :
  let p' := map_fold (if over then remove_overwriting else remove_pending) p m in
  ToRemove p' !! i = match m !! i with
                     | Some v => if over then Some v else Some (default v (ToRemove p !! i))
                     | None => ToRemove p !! i
                     end /\
  ToAdd p' !! i = match m !! i with Some _ => None | None => ToAdd p !! i end.
Proof. apply (fold_lookup over _ ToRemove ToAdd); now destruct over. Qed.

(** The layer of a flushed pair is the layer of the cache over the layer of
    the global one: always where elements are overwritten, and where elements
    are kept for effects that do not depend on the element. *)
Lemma flush_overwriting_layer {A : Type} (undone added : V -> A) c p k base :
  layer undone added (flush_overwriting c p) k base = layer undone added c k (layer undone added p k base).
Proof.
  unfold layer, flush_overwriting.
  destruct (fold_remove_lookup true (ToRemove c) (map_fold add_overwriting p (ToAdd c)) k) as [-> ->].
  destruct (fold_add_lookup true (ToAdd c) p k) as [-> ->].
  destruct (ToRemove c !! k); [reflexivity|]; now destruct (ToAdd c !! k).
Qed.

Lemma flush_pending_layer {A : Type} (undone added : A) c p k base :
  layer (fun _ => undone) (fun _ => added) (flush_pending c p) k base =
  layer (fun _ => undone) (fun _ => added) c k (layer (fun _ => undone) (fun _ => added) p k base).
Proof.
  unfold layer, flush_pending.
  destruct (fold_remove_lookup false (ToRemove c) (map_fold add_pending p (ToAdd c)) k) as [-> ->].
  destruct (fold_add_lookup false (ToAdd c) p k) as [-> ->].
  destruct (ToRemove c !! k); [reflexivity|]; now destruct (ToAdd c !! k).
Qed.

(** A change added in the temporary cache while the node's cache has an undone
    change of the same key: the lookups see the undone one. *)
Definition shadowed c p (k : K) : bool :=
  negb (is_some (ToRemove c !! k)) && is_some (ToAdd c !! k) && is_some (ToRemove p !! k).

Lemma find_pending_answer {A : Type} (undone added : V -> A) (skip : bool) c p k base :
  default base (find_pending undone added skip c p k) =
    if skip || shadowed c p k then layer undone added p k base
    else layer undone added c k (layer undone added p k base).
Proof.
  unfold find_pending, layer, shadowed.
  destruct skip, (ToRemove c !! k), (ToRemove p !! k), (ToAdd c !! k), (ToAdd p !! k); reflexivity.
Qed.
End Layers.

(** * Caches of recently used entries as copies of the database *)

Section Sound.
Context {K V : Type} `{Countable K}.
Implicit Types (c : CLRUCache K V) (P : K -> V -> Prop).

(** Every entry satisfies [P]. *)
Definition lru_sound P c : Prop := lru_ok c /\ forall k v, (k, v) ∈ items c -> P k v.

Lemma trim_subset (max : nat) (l : list (K * V)) e : e ∈ trim max l -> e ∈ l.
Proof. unfold trim; case_match; [|auto]; intros E; rewrite <- (take_drop (length l - 1) l); apply elem_of_app; now left. Qed.

Lemma put_sound P key value c : P key value -> lru_sound (fun k v => k = key \/ P k v) c ->
  lru_sound P (LruCache.Put key value c).
Proof.
  intros PV [O S]; destruct (Put_ok key value c O) as [OP IP]; split; [exact OP|]; rewrite IP.
  intros k v M; apply trim_subset in M; apply elem_of_cons in M as [[= -> ->]|M]; [exact PV|].
  unfold drop_key in M; apply list_elem_of_filter in M as [NE M]; destruct (S k v M); [now destruct NE|auto].
Qed.

Lemma erase_sound P key c : lru_sound (fun k v => k = key \/ P k v) c -> lru_sound P (LruCache.Erase key c).
Proof.
  intros [O S]; destruct (Erase_ok key c O) as [OE IE]; split; [exact OE|]; rewrite IE.
  intros k v M; unfold drop_key in M; apply list_elem_of_filter in M as [NE M]; destruct (S k v M); [now destruct NE|auto].
Qed.

Lemma sound_weaken P Q c : (forall k v, P k v -> Q k v) -> lru_sound P c -> lru_sound Q c.
Proof. intros I [O S]; split; auto. Qed.

Lemma find_key_elem key (l : list (K * V)) v : find_key key l = Some v -> (key, v) ∈ l.
Proof.
  unfold find_key; destruct (head _) as [[k w]|] eqn:E; [|discriminate]; intros [= <-].
  apply head_Some_elem_of, list_elem_of_filter in E as [E M]; cbn in E; now subst k.
Qed.

Lemma get_sound P key c : lru_sound P c ->
  match LruCache.Get key c with
  | Some (v, c') => P key v /\ lru_sound P c'
  | None => LruCache.Exists c key = false
  end.
Proof.
  intros [O S]; pose proof (Get_ok key c O) as G; destruct (LruCache.Get key c) as [[v c']|].
  - destruct G as (F & O' & _ & I); apply find_key_elem, S in F; split; [exact F|]; split; [exact O'|]; rewrite I.
    intros k w [[= -> ->]|M]%elem_of_cons; [exact F|]; unfold drop_key in M; apply list_elem_of_filter in M as [_ M]; auto.
  - unfold LruCache.Exists; apply bool_decide_eq_false; now rewrite (index_keys c key O).
Qed.

Lemma exists_sound P key c : lru_sound P c -> LruCache.Exists c key = true -> exists v, P key v.
Proof.
  intros [O S]; unfold LruCache.Exists; rewrite bool_decide_eq_true, (index_keys c key O); unfold keys.
  intros ([k v] & -> & M)%list_elem_of_fmap; exists v; auto.
Qed.
End Sound.

(** * Views *)

(** What the node knows of a key, from the changes of [passets] and the
    databases. *)
Section Views.
Implicit Types (p c : CAssetsCache) (db : assets_db).

Definition undone_freeze (t : RestrictedType) : bool := bool_decide (t = UNFREEZE_ADDRESS).
Definition added_freeze (t : RestrictedType) : bool := bool_decide (t = FREEZE_ADDRESS).
Definition undone_global (t : RestrictedType) : bool := bool_decide (t = GLOBAL_UNFREEZE).
Definition added_global (t : RestrictedType) : bool := bool_decide (t = GLOBAL_FREEZE).
Definition undone_verifier (v : CAssetCacheRestrictedVerifiers) : option bytes :=
  if cv_fUndoingRessiue v then Some (cv_verifier v) else None.
Definition added_verifier (v : CAssetCacheRestrictedVerifiers) : option bytes := Some (cv_verifier v).

Definition frozen p db (k : name_address) : bool :=
  layer undone_freeze added_freeze (setNewRestrictedAddress p) k (ReadFlag db (RESTRICTED_ADDRESS (snd k) (fst k))).
Definition global_frozen p db (name : bytes) : bool :=
  layer undone_global added_global (setNewRestrictedGlobal p) name (ReadFlag db (GLOBAL_RESTRICTION name)).
Definition verifier_of p db (name : bytes) : option bytes :=
  layer undone_verifier added_verifier (setNewRestrictedVerifier p) name (ReadVerifier db name).
Definition asset_exists p db (name : bytes) : bool :=
  layer (fun _ => false) (fun _ => true) (setNewAssets p) name (is_some (ReadAssetData db name)).

(** After a flush the changes of the temporary cache lie over the others. *)
Lemma frozen_flush c p db k :
  frozen (flush_into c p) db k = layer undone_freeze added_freeze (setNewRestrictedAddress c) k (frozen p db k).
Proof. apply flush_overwriting_layer. Qed.
Lemma global_frozen_flush c p db n :
  global_frozen (flush_into c p) db n =
  layer undone_global added_global (setNewRestrictedGlobal c) n (global_frozen p db n).
Proof. apply flush_overwriting_layer. Qed.
Lemma verifier_of_flush c p db n :
  verifier_of (flush_into c p) db n =
  layer undone_verifier added_verifier (setNewRestrictedVerifier c) n (verifier_of p db n).
Proof. apply flush_overwriting_layer. Qed.
Lemma asset_exists_flush c p db n :
  asset_exists (flush_into c p) db n =
  layer (fun _ => false) (fun _ => true) (setNewAssets c) n (asset_exists p db n).
Proof. apply flush_pending_layer. Qed.
End Views.

(** * The invariant of the node's state *)

Section Invariant.
Variable Hash : bytes -> bytes.
(** The pairs whose names and addresses are told apart by the hash of their
    concatenation. *)
Variable usable : name_address -> Prop.

(** Every cached entry is in the database, and the data of an asset is stored
    under its name. *)
Record state_ok (g : assets_state) : Prop := {
  ok_names : forall n d, ReadAssetData (passetsdb g) n = Some d -> na_strName (dd_asset d) = n;
  ok_cache : lru_sound (fun n d => ReadAssetData (passetsdb g) n = Some d) (passetsCache g);
  ok_verifiers : lru_sound (fun n v => ReadVerifier (passetsdb g) n = Some v) (passetsVerifierCache g);
  ok_qualifiers : lru_sound (fun h _ => forall k, usable k -> cache_key Hash k = h ->
    ReadFlag (passetsdb g) (ADDRESS_QUALIFIER (snd k) (fst k)) = true) (passetsQualifierCache g);
  ok_restrictions : lru_sound (fun h _ => forall k, usable k -> cache_key Hash k = h ->
    ReadFlag (passetsdb g) (RESTRICTED_ADDRESS (snd k) (fst k)) = true) (passetsRestrictionCache g);
  ok_globals : lru_sound (fun n _ => ReadFlag (passetsdb g) (GLOBAL_RESTRICTION n) = true)
    (passetsGlobalRestrictionCache g)
}.

Hypothesis cache_key_inj : forall k k', usable k -> usable k' -> cache_key Hash k = cache_key Hash k' -> k = k'.

(** A lookup changes nothing but the order and content of the caches. *)
Definition same_assets (g g' : assets_state) : Prop :=
  passets g' = passets g /\ passetsdb g' = passetsdb g /\ state_ok g'.

Lemma same_refl g : state_ok g -> same_assets g g.
Proof. intros O; split_and!; auto. Qed.

Lemma any_sound {K V : Type} `{Countable K} (P : K -> V -> Prop) key c :
  lru_sound P c -> lru_sound (fun k v => k = key \/ P k v) c.
Proof. apply sound_weaken; auto. Qed.

Lemma exists_lookup name c g : state_ok g ->
  let '(r, g') := CheckIfAssetExists false true name c g in
  same_assets g g' /\
  r = (if shadowed (setNewAssets c) (setNewAssets (passets g)) name then asset_exists (passets g) (passetsdb g) name
       else asset_exists (flush_into c (passets g)) (passetsdb g) name).
Proof.
  intros O; unfold CheckIfAssetExists; rewrite asset_exists_flush; unfold asset_exists, layer, shadowed.
  destruct (ToRemove (setNewAssets c) !! name); [now split; [apply same_refl|]|].
  destruct (ToRemove (setNewAssets (passets g)) !! name);
    [split; [now apply same_refl|]; cbn; now destruct (ToAdd (setNewAssets c) !! name)|].
  destruct (ToAdd (setNewAssets c) !! name); [now split; [apply same_refl|]|].
  destruct (ToAdd (setNewAssets (passets g)) !! name); [now split; [apply same_refl|]|]; cbn.
  destruct (LruCache.Exists (passetsCache g) name) eqn:E.
  - split; [now apply same_refl|]; apply (exists_sound _ _ _ (ok_cache _ O)) in E as [d ->]; reflexivity.
  - destruct (ReadAssetData (passetsdb g) name) as [d|] eqn:R; [|now split; [apply same_refl|]].
    split; [|reflexivity]; split; [reflexivity|]; split; [reflexivity|].
    pose proof (ok_names _ O _ _ R) as N; rewrite N; destruct O; split; auto; cbn.
    apply put_sound; [exact R|]; now apply any_sound.
Qed.

Lemma verifier_lookup name skip c g : state_ok g ->
  let '(r, g') := GetAssetVerifierStringIfExists name skip c g in
  same_assets g g' /\
  r = (if skip || shadowed (setNewRestrictedVerifier c) (setNewRestrictedVerifier (passets g)) name
       then verifier_of (passets g) (passetsdb g) name
       else verifier_of (flush_into c (passets g)) (passetsdb g) name).
Proof.
  intros O; unfold GetAssetVerifierStringIfExists.
  change (fun v => if cv_fUndoingRessiue v then Some (cv_verifier v) else None) with undone_verifier.
  change (fun v => Some (cv_verifier v)) with added_verifier.
  rewrite verifier_of_flush; unfold verifier_of; rewrite <- find_pending_answer.
  destruct (find_pending _ _ _ _ _ _) as [r|]; [now split; [apply same_refl|]|]; cbn [default from_option].
  pose proof (get_sound _ name _ (ok_verifiers _ O)) as G.
  destruct (LruCache.Get name (passetsVerifierCache g)) as [[v cache]|].
  - destruct G as [-> S]; split; [|reflexivity]; split_and!; try reflexivity; destruct O; split; auto.
  - destruct (ReadVerifier (passetsdb g) name) as [v|] eqn:R; [|now split; [apply same_refl|]].
    split; [|reflexivity]; split; [reflexivity|]; split; [reflexivity|]; destruct O; split; auto; cbn.
    apply put_sound; [exact R|]; now apply any_sound.
Qed.

Lemma restriction_lookup name address skip c g : state_ok g -> usable (name, address) ->
  let '(r, g') := CheckForAddressRestriction Hash name address skip c g in
  same_assets g g' /\
  r = (if skip || shadowed (setNewRestrictedAddress c) (setNewRestrictedAddress (passets g)) (name, address)
       then frozen (passets g) (passetsdb g) (name, address)
       else frozen (flush_into c (passets g)) (passetsdb g) (name, address)).
Proof.
  intros O U; unfold CheckForAddressRestriction.
  change (fun t => bool_decide (t = UNFREEZE_ADDRESS)) with undone_freeze.
  change (fun t => bool_decide (t = FREEZE_ADDRESS)) with added_freeze.
  rewrite frozen_flush; unfold frozen; rewrite <- find_pending_answer.
  destruct (find_pending _ _ _ _ _ _) as [r|]; [now split; [apply same_refl|]|]; cbn [default from_option fst snd].
  destruct (LruCache.Exists _ _) eqn:E.
  - split; [now apply same_refl|]; apply (exists_sound _ _ _ (ok_restrictions _ O)) in E as [v R]; symmetry.
    exact (R _ U eq_refl).
  - destruct (ReadFlag _ _) eqn:R; [|now split; [apply same_refl|]].
    split; [|reflexivity]; split_and!; try reflexivity; destruct O; split; auto; cbn.
    apply put_sound; [|now apply any_sound].
    intros k Uk KE; now rewrite (cache_key_inj k (name, address) Uk U KE).
Qed.

Lemma global_lookup name skip c g : state_ok g ->
  let '(r, g') := CheckForGlobalRestriction name skip c g in
  same_assets g g' /\
  r = (if skip || shadowed (setNewRestrictedGlobal c) (setNewRestrictedGlobal (passets g)) name
       then global_frozen (passets g) (passetsdb g) name
       else global_frozen (flush_into c (passets g)) (passetsdb g) name).
Proof.
  intros O; unfold CheckForGlobalRestriction.
  change (fun t => bool_decide (t = GLOBAL_UNFREEZE)) with undone_global.
  change (fun t => bool_decide (t = GLOBAL_FREEZE)) with added_global.
  rewrite global_frozen_flush; unfold global_frozen; rewrite <- find_pending_answer.
  destruct (find_pending _ _ _ _ _ _) as [r|]; [now split; [apply same_refl|]|]; cbn [default from_option].
  destruct (LruCache.Exists _ _) eqn:E.
  - split; [now apply same_refl|]; apply (exists_sound _ _ _ (ok_globals _ O)) in E as [v R]; now rewrite R.
  - destruct (ReadFlag _ _) eqn:R; [|now split; [apply same_refl|]].
    split; [|reflexivity]; split_and!; try reflexivity; destruct O; split; auto; cbn.
    apply put_sound; [exact R|now apply any_sound].
Qed.

(** Over a state whose caches of recently used entries agree with the
    databases, the lookups for an asset, a verifier string, a frozen address
    and a global freeze answer from the changes in memory and the databases: a
    lookup that skips the temporary cache answers what the node's cache and
    the databases say, and one that does not answers what they will say once
    the temporary cache is flushed, except for a key that was added in the
    temporary cache while its removal is still pending in the node's cache,
    where it answers as if the addition had not happened.  No lookup changes
    the pending changes or the databases, and the caches keep agreeing with
    them. *)
Theorem Lookups_correct (c : CAssetsCache) (g : assets_state) (name address : bytes) (skip : bool) :
  state_ok g -> usable (name, address) ->
  let p := passets g in let p' := passets (Flush c g) in let db := passetsdb g in
  (let '(r, g') := CheckIfAssetExists false true name c g in
   same_assets g g' /\
   r = if shadowed (setNewAssets c) (setNewAssets p) name then asset_exists p db name else asset_exists p' db name) /\
  (let '(r, g') := GetAssetVerifierStringIfExists name skip c g in
   same_assets g g' /\
   r = if skip || shadowed (setNewRestrictedVerifier c) (setNewRestrictedVerifier p) name
       then verifier_of p db name else verifier_of p' db name) /\
  (let '(r, g') := CheckForAddressRestriction Hash name address skip c g in
   same_assets g g' /\
   r = if skip || shadowed (setNewRestrictedAddress c) (setNewRestrictedAddress p) (name, address)
       then frozen p db (name, address) else frozen p' db (name, address)) /\
  (let '(r, g') := CheckForGlobalRestriction name skip c g in
   same_assets g g' /\
   r = if skip || shadowed (setNewRestrictedGlobal c) (setNewRestrictedGlobal p) name
       then global_frozen p db name else global_frozen p' db name) /\
  (state_ok (Flush c g) /\ passetsdb (Flush c g) = db).
Proof.
  intros O U; cbn zeta; split_and!.
  - exact (exists_lookup name c g O).
  - exact (verifier_lookup name skip c g O).
  - exact (restriction_lookup name address skip c g O U).
  - exact (global_lookup name skip c g O).
  - destruct O; split; auto.
  - reflexivity.
Qed.
End Invariant.

(** * Commands on restrictions and their undoing *)

(** The commands blocks carry for restricted assets. *)
Inductive restriction_command :=
| AddressCommand (name address : bytes) (freeze : bool)
| GlobalCommand (name : bytes) (freeze : bool).

Definition address_type (freeze : bool) : RestrictedType := if freeze then FREEZE_ADDRESS else UNFREEZE_ADDRESS.
Definition global_type (freeze : bool) : RestrictedType := if freeze then GLOBAL_FREEZE else GLOBAL_UNFREEZE.

Definition connect_command (cmd : restriction_command) (c : CAssetsCache) : CAssetsCache :=
  match cmd with
  | AddressCommand name address f => AddRestrictedAddress name address (address_type f) c
  | GlobalCommand name f => AddGlobalRestricted name (global_type f) c
  end.
Definition disconnect_command (cmd : restriction_command) (c : CAssetsCache) : CAssetsCache :=
  match cmd with
  | AddressCommand name address f => RemoveRestrictedAddress name address (address_type f) c
  | GlobalCommand name f => RemoveGlobalRestricted name (global_type f) c
  end.

Section Commands.
Implicit Types (p c : CAssetsCache) (db : assets_db) (cmd : restriction_command).

(** The value a command sets for a key. *)
Definition sets_address cmd (k : name_address) : option bool :=
  match cmd with
  | AddressCommand n a f => if decide (k = (n, a)) then Some f else None
  | GlobalCommand _ _ => None
  end.
Definition sets_global cmd (k : bytes) : option bool :=
  match cmd with
  | GlobalCommand n f => if decide (k = n) then Some f else None
  | AddressCommand _ _ _ => None
  end.

Lemma overwriting_layer {K V A : Type} `{Countable K} (undone added : V -> A) (q : pending K V) k v i base :
  layer undone added (add_overwriting k v q) i base = (if decide (i = k) then added v else layer undone added q i base) /\
  layer undone added (remove_overwriting k v q) i base =
    (if decide (i = k) then undone v else layer undone added q i base).
Proof.
  unfold layer, add_overwriting, remove_overwriting; cbn; rewrite !set_insert_lookup.
  destruct (decide (i = k)) as [->|NE].
  - now rewrite !lookup_delete_eq.
  - rewrite !lookup_delete_ne by congruence.
    now destruct (ToRemove q !! i), (ToAdd q !! i).
Qed.

Lemma connect_frozen cmd c k base :
  layer undone_freeze added_freeze (setNewRestrictedAddress (connect_command cmd c)) k base =
  default (layer undone_freeze added_freeze (setNewRestrictedAddress c) k base) (sets_address cmd k).
Proof.
  destruct cmd as [n a f|n f]; cbn; [|reflexivity].
  rewrite (proj1 (overwriting_layer _ _ _ _ _ _ _)); case_decide; [now destruct f|reflexivity].
Qed.
Lemma connect_global cmd c k base :
  layer undone_global added_global (setNewRestrictedGlobal (connect_command cmd c)) k base =
  default (layer undone_global added_global (setNewRestrictedGlobal c) k base) (sets_global cmd k).
Proof.
  destruct cmd as [n a f|n f]; cbn; [reflexivity|].
  rewrite (proj1 (overwriting_layer _ _ _ _ _ _ _)); case_decide; [now destruct f|reflexivity].
Qed.
Lemma disconnect_frozen cmd c k base :
  layer undone_freeze added_freeze (setNewRestrictedAddress (disconnect_command cmd c)) k base =
  default (layer undone_freeze added_freeze (setNewRestrictedAddress c) k base) (negb <$> sets_address cmd k).
Proof.
  destruct cmd as [n a f|n f]; cbn; [|reflexivity].
  rewrite (proj2 (overwriting_layer _ _ _ _ _ _ _)); case_decide; [now destruct f|reflexivity].
Qed.
Lemma disconnect_global cmd c k base :
  layer undone_global added_global (setNewRestrictedGlobal (disconnect_command cmd c)) k base =
  default (layer undone_global added_global (setNewRestrictedGlobal c) k base) (negb <$> sets_global cmd k).
Proof.
  destruct cmd as [n a f|n f]; cbn; [reflexivity|].
  rewrite (proj2 (overwriting_layer _ _ _ _ _ _ _)); case_decide; [now destruct f|reflexivity].
Qed.

(** The changes of a block, in the order of its commands, and their undoing in
    the reverse order.  The code undoes transactions from the last to the
    first and the commands of one transaction from the first to the last;
    [CheckTransaction] allows one command for a key in a transaction, so that
    the order inside one does not matter. *)
Definition connect_commands (cmds : list restriction_command) : CAssetsCache :=
  foldl (fun c cmd => connect_command cmd c) empty_assets cmds.
Definition disconnect_commands (cmds : list restriction_command) : CAssetsCache :=
  foldr disconnect_command empty_assets cmds.

(** What a block's commands leave at a key, and the first one that sets it. *)
Definition last_set {K : Type} (sets : restriction_command -> K -> option bool) cmds (k : K) : option bool :=
  foldl (fun r cmd => match sets cmd k with Some f => Some f | None => r end) None cmds.
Fixpoint first_set {K : Type} (sets : restriction_command -> K -> option bool) cmds (k : K) : option bool :=
  match cmds with
  | [] => None
  | cmd :: cmds => match sets cmd k with Some f => Some f | None => first_set sets cmds k end
  end.

Lemma connect_commands_layers cmds k n bf bg :
  layer undone_freeze added_freeze (setNewRestrictedAddress (connect_commands cmds)) k bf =
    default bf (last_set sets_address cmds k) /\
  layer undone_global added_global (setNewRestrictedGlobal (connect_commands cmds)) n bg =
    default bg (last_set sets_global cmds n).
Proof.
  unfold connect_commands, last_set; induction cmds as [|cmd cmds [IA IG]] using rev_ind; [split; reflexivity|].
  rewrite !foldl_snoc, connect_frozen, connect_global, IA, IG.
  split; [now destruct (sets_address cmd k)|now destruct (sets_global cmd n)].
Qed.

Lemma disconnect_commands_layers cmds k n bf bg :
  layer undone_freeze added_freeze (setNewRestrictedAddress (disconnect_commands cmds)) k bf =
    default bf (negb <$> first_set sets_address cmds k) /\
  layer undone_global added_global (setNewRestrictedGlobal (disconnect_commands cmds)) n bg =
    default bg (negb <$> first_set sets_global cmds n).
Proof.
  unfold disconnect_commands; induction cmds as [|cmd cmds [IA IG]]; [split; reflexivity|].
  cbn [foldr first_set]; rewrite disconnect_frozen, disconnect_global, IA, IG.
  split; [now destruct (sets_address cmd k)|now destruct (sets_global cmd n)].
Qed.

Lemma first_last {K : Type} (sets : restriction_command -> K -> option bool) cmds k :
  first_set sets cmds k = None -> last_set sets cmds k = None.
Proof.
  unfold last_set; induction cmds as [|cmd cmds IH]; [reflexivity|]; cbn; destruct (sets cmd k); [discriminate|exact IH].
Qed.

(** Every command changes the state it meets, which the checks before a block
    is connected require of the first one at each key. *)
Definition commands_change p db cmds : Prop :=
  (forall k f, first_set sets_address cmds k = Some f -> frozen p db k = negb f) /\
  (forall n f, first_set sets_global cmds n = Some f -> global_frozen p db n = negb f).

(** C39: Connecting a block leaves at every address and asset what the last
    command of the block for it says, and leaves the others as they were;
    disconnecting the same block, its commands undone in reverse order, gives
    back the state before it for every address and asset, where the commands
    changed the state as the checks of a block require. *)
Theorem Restrictions_undo (cmds : list restriction_command) (g : assets_state) :
  commands_change (passets g) (passetsdb g) cmds ->
  let g1 := Flush (connect_commands cmds) g in
  let g2 := Flush (disconnect_commands cmds) g1 in
  (forall k, frozen (passets g1) (passetsdb g1) k =
             default (frozen (passets g) (passetsdb g) k) (last_set sets_address cmds k)) /\
  (forall n, global_frozen (passets g1) (passetsdb g1) n =
             default (global_frozen (passets g) (passetsdb g) n) (last_set sets_global cmds n)) /\
  (forall k, frozen (passets g2) (passetsdb g2) k = frozen (passets g) (passetsdb g) k) /\
  (forall n, global_frozen (passets g2) (passetsdb g2) n = global_frozen (passets g) (passetsdb g) n).
Proof.
  intros [CA CG]; cbn zeta; cbn [Flush with_passets passets passetsdb]; split_and!.
  - intros k; rewrite frozen_flush; exact (proj1 (connect_commands_layers cmds k [] _ false)).
  - intros n; rewrite global_frozen_flush; exact (proj2 (connect_commands_layers cmds ([], []) n false _)).
  - intros k; rewrite !frozen_flush, (proj1 (disconnect_commands_layers cmds k [] _ false)).
    destruct (first_set sets_address cmds k) as [f|] eqn:F; cbn; [now rewrite (CA k f F)|].
    now rewrite (proj1 (connect_commands_layers cmds k [] _ false)), (first_last _ _ _ F).
  - intros n; rewrite !global_frozen_flush, (proj2 (disconnect_commands_layers cmds ([], []) n false _)).
    destruct (first_set sets_global cmds n) as [f|] eqn:F; cbn; [now rewrite (CG n f F)|].
    now rewrite (proj2 (connect_commands_layers cmds ([], []) n false _)), (first_last _ _ _ F).
Qed.
End Commands.

(** * Balances and their undoing *)

Section Balances.
Variable Hash160 : bytes -> bytes.
Variable EncodeDestination : CTxDestination -> bytes.
Variable AreTransferScriptsSizeDeployed : bool.
Implicit Types (c : CAssetsCache) (g : assets_state) (k : name_address).

(** The balance a cache over a state knows. *)
Definition known_balance c g k : option Z :=
  match mapAssetsAddressAmount c !! k with
  | Some n => Some n
  | None => match mapAssetsAddressAmount (passets g) !! k with
            | Some n => Some n
            | None => ReadAssetAddressQuantity (passetsdb g) (fst k) (snd k)
            end
  end.
Definition balance c g k : Z := default 0 (known_balance c g k).

Lemma known_balance_flush c g k : known_balance empty_assets (Flush c g) k = known_balance c g k.
Proof.
  unfold known_balance; cbn; rewrite lookup_empty, lookup_union.
  now destruct (mapAssetsAddressAmount c !! k), (mapAssetsAddressAmount (passets g) !! k).
Qed.

(** The known balance is in the map of the cache after it was looked up. *)
Lemma GetBest_known n a g c : let '(found, c') := GetBestAssetAddressAmount true n a g c in
  (forall k, known_balance c' g k = known_balance c g k) /\
  found = is_some (known_balance c g (n, a)) /\
  mapAssetsAddressAmount c' !! (n, a) = known_balance c g (n, a).
Proof.
  unfold GetBestAssetAddressAmount, known_balance; cbn [fst snd].
  case_bool_decide as E; [destruct E as [x E]; now rewrite E|].
  destruct (mapAssetsAddressAmount c !! (n, a)) eqn:M; [now destruct E|].
  destruct (mapAssetsAddressAmount (passets g) !! (n, a)) as [x|] eqn:P.
  - cbn; rewrite lookup_insert_eq; split_and!; auto; intros k; destruct (decide (k = (n, a))) as [->|NE].
    + now rewrite lookup_insert_eq, M, P.
    + now rewrite lookup_insert_ne by congruence.
  - destruct (ReadAssetAddressQuantity (passetsdb g) n a) as [x|] eqn:R; [|now rewrite M].
    cbn; rewrite set_insert_lookup, M, decide_True by reflexivity; split_and!; auto; intros k.
    rewrite set_insert_lookup; destruct (decide (k = (n, a))) as [->|NE]; [rewrite M, P; cbn; now rewrite R|].
    now destruct (mapAssetsAddressAmount c !! k).
Qed.

Lemma fetch_known n a g c :
  (forall k, k <> (n, a) -> known_balance (fetch_balance true n a g c) g k = known_balance c g k) /\
  amount_at (n, a) (fetch_balance true n a g c) = balance c g (n, a).
Proof.
  unfold fetch_balance, amount_at, balance; pose proof (GetBest_known n a g c) as G.
  destruct (GetBestAssetAddressAmount true n a g c) as [found c']; destruct G as (K & F & M).
  destruct (known_balance c g (n, a)) as [x|] eqn:E; subst found; cbn [is_some].
  - split; [auto|]; now rewrite M.
  - split; [|cbn; now rewrite set_insert_lookup, M, decide_True].
    intros k NE; rewrite <- K; unfold known_balance; cbn; rewrite set_insert_lookup, decide_False by exact NE.
    now destruct (mapAssetsAddressAmount c' !! k).
Qed.

(** Setting one balance of the map. *)
Lemma known_insert k x c g i :
  known_balance (on_amounts (insert k x) c) g i = if decide (i = k) then Some x else known_balance c g i.
Proof.
  unfold known_balance; cbn; case_decide as E; [subst i; now rewrite lookup_insert_eq|].
  now rewrite lookup_insert_ne by congruence.
Qed.

Lemma amount_insert k x c : amount_at k (on_amounts (insert k x) c) = x.
Proof. unfold amount_at; cbn; now rewrite lookup_insert_eq. Qed.

(** ** The movements of a block *)

Inductive movement :=
| Received (transfer : CAssetTransfer) (address : bytes) (out : COutPoint)
| Spent (scriptPubKey : CScript).

Definition connect_movement (m : movement) g c : bool * CAssetsCache :=
  match m with
  | Received t a out => (true, AddTransferAsset true t a out g c)
  | Spent s => TrySpendCoin true Hash160 EncodeDestination AreTransferScriptsSizeDeployed s g c
  end.
Definition disconnect_movement (m : movement) g c : bool * CAssetsCache :=
  match m with
  | Received t a out => RemoveTransfer true t a out g c
  | Spent s => UndoAssetCoin true Hash160 EncodeDestination AreTransferScriptsSizeDeployed s g c
  end.

(** The key and the change of a movement. *)
Definition moved (m : movement) : option (name_address * Z) :=
  match m with
  | Received t a _ => Some ((at_strName t, a), at_nAmount t)
  | Spent s => match asset_of_script Hash160 EncodeDestination AreTransferScriptsSizeDeployed s with
               | Some (n, a, x) => Some ((n, a), - x)
               | None => None
               end
  end.

(** An output spends what its address has; the owner token, of which there is
    one, is received where it is not. *)
Definition movement_valid (m : movement) c g : Prop :=
  match m with
  | Received t a _ => 0 <= balance c g (at_strName t, a) /\
      (IsAssetNameAnOwner (at_strName t) = true ->
       balance c g (at_strName t, a) = 0 /\ at_nAmount t = OWNER_ASSET_AMOUNT)
  | Spent s => exists n a x, asset_of_script Hash160 EncodeDestination AreTransferScriptsSizeDeployed s = Some (n, a, x) /\
      n <> [] /\ a <> [] /\ 0 < x <= balance c g (n, a)
  end.

(** The effect on balances of a movement and of its undoing. *)
Definition shifted (f f' : name_address -> option Z) (k : name_address) (x : Z) : Prop :=
  f' k = Some (default 0 (f k) + x) /\ forall i, i <> k -> f' i = f i.

Lemma received_shift t a out c g : movement_valid (Received t a out) c g ->
  shifted (known_balance c g) (known_balance (AddTransferAsset true t a out g c) g) (at_strName t, a) (at_nAmount t).
Proof.
  intros [NN OW]; unfold AddTransferAsset, AddToAssetBalance; destruct (fetch_known (at_strName t) a g c) as [FK FA].
  assert (forall c', known_balance (on_transfer (add_pending out (mkCacheTransfer t a out)) c') g = known_balance c' g)
    as -> by reflexivity.
  unfold shifted; destruct (IsAssetNameAnOwner (at_strName t)).
  - destruct (OW eq_refl) as [B A]; unfold balance in B; split.
    + rewrite known_insert, decide_True, B, A by reflexivity; reflexivity.
    + intros i NE; rewrite known_insert, decide_False by exact NE; auto.
  - split; [rewrite known_insert, decide_True, FA by reflexivity; reflexivity|].
    intros i NE; rewrite known_insert, decide_False by exact NE; auto.
Qed.

Lemma nonempty_string (s : bytes) : s <> [] -> is_empty_string s = false.
Proof. now destruct s. Qed.

Lemma spent_shift s n a x c g :
  asset_of_script Hash160 EncodeDestination AreTransferScriptsSizeDeployed s = Some (n, a, x) ->
  n <> [] -> a <> [] -> 0 < x <= balance c g (n, a) ->
  let '(ok, c') := TrySpendCoin true Hash160 EncodeDestination AreTransferScriptsSizeDeployed s g c in
  ok = true /\ shifted (known_balance c g) (known_balance c' g) (n, a) (- x).
Proof.
  intros A N1 N2 [X B]; unfold TrySpendCoin; rewrite A, (nonempty_string a N2), (nonempty_string n N1).
  assert (is_some (IsAssetScript s) = true) as ->.
  { unfold asset_of_script in A; destruct (IsAssetScript s); [reflexivity|discriminate]. }
  cbn [negb andb]; split; [reflexivity|]; unfold spend_balance; rewrite (proj2 (Z.gtb_lt x 0)) by exact X; cbn [andb].
  pose proof (GetBest_known n a g c) as G; destruct (GetBestAssetAddressAmount true n a g c) as [found c'].
  destruct G as (K & F & M); unfold balance in B.
  destruct (known_balance c g (n, a)) as [b|] eqn:E; cbn in B; [|lia]; subst found; cbn [is_some].
  rewrite bool_decide_eq_true_2 by (rewrite M; eauto).
  rewrite amount_insert; unfold amount_at; rewrite M; cbn [default from_option id].
  destruct (Z.ltb_spec (b - x) 0) as [L|L]; [lia|].
  assert (forall v c', known_balance (on_spent (fun l => l ++ v) c') g = known_balance c' g) as -> by reflexivity.
  split; [rewrite known_insert, decide_True, E by reflexivity; cbn; f_equal; lia|].
  intros i NE; rewrite known_insert, decide_False by exact NE; auto.
Qed.

Lemma undo_received t a out c g : is_some (known_balance c g (at_strName t, a)) = true ->
  at_nAmount t <= balance c g (at_strName t, a) ->
  let '(ok, c') := RemoveTransfer true t a out g c in
  ok = true /\ shifted (known_balance c g) (known_balance c' g) (at_strName t, a) (- at_nAmount t).
Proof.
  intros KN B; unfold RemoveTransfer, UndoTransfer; pose proof (GetBest_known (at_strName t) a g c) as G.
  destruct (GetBestAssetAddressAmount true (at_strName t) a g c) as [found c']; destruct G as (K & F & M).
  rewrite KN in F; subst found; cbn [negb]; unfold balance in B.
  destruct (known_balance c g (at_strName t, a)) as [b|] eqn:E; [|discriminate]; cbn in B.
  rewrite bool_decide_eq_true_2 by (rewrite M; eauto); cbn [negb]; unfold amount_at; rewrite M; cbn [default from_option id].
  destruct (Z.ltb_spec b (at_nAmount t)) as [L|L]; [lia|]; split; [reflexivity|].
  assert (forall c', known_balance (on_transfer (remove_pending out (mkCacheTransfer t a out)) c') g = known_balance c' g)
    as -> by reflexivity.
  split; [rewrite known_insert, decide_True, E by reflexivity; cbn; f_equal; lia|].
  intros i NE; rewrite known_insert, decide_False by exact NE; auto.
Qed.

Lemma undo_spent s n a x c g :
  asset_of_script Hash160 EncodeDestination AreTransferScriptsSizeDeployed s = Some (n, a, x) ->
  n <> [] -> a <> [] -> 0 < x ->
  let '(ok, c') := UndoAssetCoin true Hash160 EncodeDestination AreTransferScriptsSizeDeployed s g c in
  ok = true /\ shifted (known_balance c g) (known_balance c' g) (n, a) x.
Proof.
  intros A N1 N2 X; unfold UndoAssetCoin; rewrite A, (nonempty_string a N2), (nonempty_string n N1).
  destruct (Z.eqb_spec x 0); [lia|]; cbn [orb]; split; [reflexivity|]; unfold AddBackSpentAsset.
  assert (forall v c', known_balance (on_undo (fun l => l ++ v) c') g = known_balance c' g) as -> by reflexivity.
  destruct (fetch_known n a g c) as [FK FA]; split.
  - rewrite known_insert, decide_True, FA by reflexivity; reflexivity.
  - intros i NE; rewrite known_insert, decide_False by exact NE; auto.
Qed.

(** ** Blocks *)

Fixpoint connect_movements (ms : list movement) g c : bool * CAssetsCache :=
  match ms with
  | [] => (true, c)
  | m :: ms => let '(ok, c) := connect_movement m g c in if ok then connect_movements ms g c else (false, c)
  end.

(** The last movement is undone first. *)
Fixpoint disconnect_movements (ms : list movement) g c : bool * CAssetsCache :=
  match ms with
  | [] => (true, c)
  | m :: ms => let '(ok, c) := disconnect_movements ms g c in if ok then disconnect_movement m g c else (false, c)
  end.

Fixpoint movements_valid (ms : list movement) c g : Prop :=
  match ms with
  | [] => True
  | m :: ms => movement_valid m c g /\ movements_valid ms (snd (connect_movement m g c)) g
  end.

Definition net_change (ms : list movement) (k : name_address) : Z :=
  foldr (fun m s => s + match moved m with Some (i, x) => if decide (i = k) then x else 0 | None => 0 end) 0 ms.

Lemma connect_movement_ok m c g : movement_valid m c g ->
  exists c' k x, connect_movement m g c = (true, c') /\ moved m = Some (k, x) /\
  shifted (known_balance c g) (known_balance c' g) k x.
Proof.
  destruct m as [t a out|s]; intros V; cbn.
  - do 3 eexists; split; [reflexivity|]; split; [reflexivity|]; exact (received_shift t a out c g V).
  - destruct V as (n & a & x & A & N1 & N2 & B); pose proof (spent_shift s n a x c g A N1 N2 B) as S.
    destruct (TrySpendCoin _ _ _ _ _ _ _) as [ok c']; destruct S as [-> S]; rewrite A; eauto 6.
Qed.

(** Same balances, and nothing known is forgotten. *)
Definition agrees (f w : name_address -> option Z) : Prop :=
  forall k, default 0 (w k) = default 0 (f k) /\ (is_some (f k) = true -> is_some (w k) = true).

Lemma agrees_unshift f f' w w' k x : shifted f f' k x -> agrees f' w -> shifted w w' k (- x) -> agrees f w'.
Proof.
  intros [F1 F2] A [W1 W2] i; destruct (decide (i = k)) as [->|NE].
  - rewrite W1; destruct (A k) as [-> _]; rewrite F1; cbn; split; [lia|reflexivity].
  - rewrite (W2 i NE), <- (F2 i NE); apply A.
Qed.

Lemma disconnect_movement_ok m c g c' k x : movement_valid m c g -> connect_movement m g c = (true, c') ->
  moved m = Some (k, x) -> shifted (known_balance c g) (known_balance c' g) k x ->
  forall gw cw, agrees (known_balance c' g) (known_balance cw gw) ->
  exists cw', disconnect_movement m gw cw = (true, cw') /\ shifted (known_balance cw gw) (known_balance cw' gw) k (- x).
Proof.
  destruct m as [t a out|s]; intros V C MV S gw cw A; cbn in MV |- *.
  - injection MV as <- <-; destruct (A (at_strName t, a)) as [AB AK].
    pose proof (undo_received t a out cw gw) as U; unfold balance in U; rewrite AB, AK in U by now rewrite (proj1 S).
    rewrite (proj1 S) in U; destruct V as [NN _]; unfold balance in NN.
    destruct (RemoveTransfer _ _ _ _ _ _) as [ok cw']; destruct U as [-> U]; [reflexivity|cbn; lia|eauto].
  - destruct V as (n & a & y & AS & N1 & N2 & B); rewrite AS in MV; injection MV as <- <-.
    pose proof (undo_spent s n a y cw gw AS N1 N2 (proj1 B)) as U.
    destruct (UndoAssetCoin _ _ _ _ _ _ _) as [ok cw']; destruct U as [-> U]; exists cw'; split; [reflexivity|].
    now rewrite Z.opp_involutive.
Qed.

Lemma movements_ok ms g : forall c, movements_valid ms c g ->
  exists c', connect_movements ms g c = (true, c') /\
  (forall k, balance c' g k = balance c g k + net_change ms k) /\
  (forall gw cw, agrees (known_balance c' g) (known_balance cw gw) ->
   exists cw', disconnect_movements ms gw cw = (true, cw') /\ agrees (known_balance c g) (known_balance cw' gw)).
Proof.
  induction ms as [|m ms IH]; intros c; cbn [movements_valid connect_movements disconnect_movements net_change foldr].
  - intros _; exists c; split; [reflexivity|]; split; [intros; lia|]; intros gw cw A; eauto.
  - intros [V VS]; destruct (connect_movement_ok m c g V) as (c1 & k & x & C & MV & S); rewrite C in VS |- *; cbn in VS.
    destruct (IH c1 VS) as (c' & E & SUM & UNDO); exists c'; split; [exact E|]; split.
    + intros i; rewrite SUM, MV; unfold balance; destruct S as [S1 S2]; fold (net_change ms i); case_decide as D.
      * subst i; rewrite S1; cbn; lia.
      * rewrite S2 by congruence; lia.
    + intros gw cw A; destruct (UNDO gw cw A) as (cw1 & -> & A1).
      destruct (disconnect_movement_ok m c g c1 k x V C MV S gw cw1 A1) as (cw' & -> & W).
      exists cw'; split; [reflexivity|]; exact (agrees_unshift _ _ _ _ _ _ S A1 W).
Qed.

(** With the asset index on, connecting a block whose spent outputs are
    covered by the balances of their addresses succeeds and changes every
    balance of an asset at an address by the sum of what the block moves there;
    disconnecting it, the last movement first, succeeds and gives back every
    balance. *)
Theorem Balances_undo (ms : list movement) g : movements_valid ms empty_assets g ->
  let '(ok1, c1) := connect_movements ms g empty_assets in
  let g1 := Flush c1 g in
  let '(ok2, c2) := disconnect_movements ms g1 empty_assets in
  let g2 := Flush c2 g1 in
  ok1 = true /\ ok2 = true /\
  (forall k, balance empty_assets g1 k = balance empty_assets g k + net_change ms k) /\
  (forall k, balance empty_assets g2 k = balance empty_assets g k).
Proof.
  intros V; destruct (movements_ok ms g empty_assets V) as (c1 & -> & SUM & UNDO).
  cbv beta iota zeta; assert (agrees (known_balance c1 g) (known_balance empty_assets (Flush c1 g))) as A
    by (intros k; now rewrite known_balance_flush).
  destruct (UNDO _ _ A) as (c2 & -> & A2); cbv beta iota zeta; split_and!; try reflexivity.
  - intros k; rewrite <- SUM; unfold balance; now rewrite known_balance_flush.
  - intros k; unfold balance; rewrite known_balance_flush; apply A2.
Qed.
End Balances.

(** * Examples *)

(** A state with a frozen address in the database and an asset whose issue was
    undone and not yet written. *)
Definition example_name : bytes := str "$HEMP"%string.
Definition example_address : bytes := str "HAddress"%string.
Definition example_asset : CNewAsset := mkNewAsset example_name (100 * COIN) 0 1 0 [].
Definition example_passets : CAssetsCache :=
  on_new (remove_pending example_name (mkCacheNew example_asset example_address 0 (repeat 0 32))) empty_assets.
Definition example_state : assets_state :=
  mkState example_passets (lru_new 10) (lru_new 10) (lru_new 10) (lru_new 10) (lru_new 10)
    {[RESTRICTED_ADDRESS example_address example_name := VFlag]}.

Definition example_usable (k : name_address) : Prop := length (snd k) = 8%nat.

Lemma example_keys (k k' : name_address) : example_usable k -> example_usable k' ->
  cache_key (fun b => b) k = cache_key (fun b => b) k' -> k = k'.
Proof.
  destruct k as [n a], k' as [n' a']; unfold example_usable, cache_key; cbn; intros L L' E.
  apply app_inj_2 in E as [-> ->]; [reflexivity|congruence].
Qed.

Lemma lru_new_sound {K V : Type} `{Countable K} (P : K -> V -> Prop) n : lru_sound P (lru_new n).
Proof. split; [apply lru_new_ok|]; intros k v M; inversion M. Qed.

Lemma example_state_ok : state_ok (fun b => b) example_usable example_state.
Proof.
  split; try apply lru_new_sound.
  intros n d; unfold ReadAssetData, example_state; cbn [passetsdb]; now rewrite lookup_singleton_ne.
Qed.

(** A temporary cache that issues the asset again: the lookup in it does not
    see the asset, so that it is issued twice. *)
Definition example_cache : CAssetsCache :=
  snd (fst (AddNewAsset false false example_asset example_address 7 (repeat 1 32) example_state empty_assets)).

Lemma Lookups_correct_witness :
  (let '(r, g') := CheckIfAssetExists false true example_name example_cache example_state in
   same_assets (fun b => b) example_usable example_state g' /\ r = false) /\
  asset_exists (passets (Flush example_cache example_state)) (passetsdb example_state) example_name = true /\
  (let '(r, g') := CheckForAddressRestriction (fun b => b) example_name example_address false example_cache example_state in
   same_assets (fun b => b) example_usable example_state g' /\ r = true).
Proof.
  split; [|split; [reflexivity|]].
  - exact (proj1 (Lookups_correct (fun b => b) example_usable example_keys example_cache example_state example_name
                    example_address false example_state_ok eq_refl)).
  - exact (proj1 (proj2 (proj2 (Lookups_correct (fun b => b) example_usable example_keys example_cache example_state
                    example_name example_address false example_state_ok eq_refl)))).
Defined.

(** An asset whose removal is pending is accepted a second time. *)
Lemma issued_twice :
  let '(ok1, c, g) := AddNewAsset false false example_asset example_address 7 (repeat 1 32) example_state empty_assets in
  let '(ok2, _, _) := AddNewAsset false false example_asset example_address 7 (repeat 1 32) g c in
  ok1 = true /\ ok2 = true.
Proof. split; reflexivity. Qed.

Definition example_commands : list restriction_command :=
  [AddressCommand example_name example_address false; GlobalCommand example_name true;
   AddressCommand example_name example_address true; GlobalCommand example_name false].

Lemma Restrictions_undo_witness :
  let g1 := Flush (connect_commands example_commands) example_state in
  let g2 := Flush (disconnect_commands example_commands) g1 in
  commands_change (passets example_state) (passetsdb example_state) example_commands /\
  (forall n, global_frozen (passets g1) (passetsdb g1) n =
    default (global_frozen (passets example_state) (passetsdb example_state) n)
      (last_set sets_global example_commands n)) /\
  (forall k, frozen (passets g2) (passetsdb g2) k = frozen (passets example_state) (passetsdb example_state) k).
Proof.
  assert (commands_change (passets example_state) (passetsdb example_state) example_commands) as V.
  { split; intros k f; cbn; repeat case_decide; intros [= <-]; subst; reflexivity. }
  cbn zeta; split; [exact V|].
  destruct (Restrictions_undo example_commands example_state V) as (_ & G & F & _); split; assumption.
Defined.

Definition example_moved : CAssetTransfer := mkTransfer (str "HEMP"%string) OWNER_ASSET_AMOUNT [] 0.
Definition example_encode (d : CTxDestination) : bytes := example_address.
Definition example_output : CScript :=
  ConstructTransfer example_moved (GetScriptForDestination (CKeyID (repeat 7 20))).
Definition example_movements : list movement :=
  [Received example_moved example_address (mkOutPoint (repeat 1 32) 0); Spent example_output].

Lemma Balances_undo_witness :
  let '(ok1, c1) := connect_movements (fun _ => repeat 0 20) example_encode true example_movements example_state empty_assets in
  let g1 := Flush c1 example_state in
  let '(ok2, c2) := disconnect_movements (fun _ => repeat 0 20) example_encode true example_movements g1 empty_assets in
  let g2 := Flush c2 g1 in
  ok1 = true /\ ok2 = true /\
  (forall k, balance empty_assets g1 k = balance empty_assets example_state k +
     net_change (fun _ => repeat 0 20) example_encode true example_movements k) /\
  (forall k, balance empty_assets g2 k = balance empty_assets example_state k).
Proof.
  apply Balances_undo; split; [split; [now vm_compute|]; intros _; split; vm_compute; reflexivity|].
  split; [|exact I]; exists (str "HEMP"%string), example_address, OWNER_ASSET_AMOUNT.
  split; [vm_compute; reflexivity|].
  split; [discriminate|].
  split; [discriminate|].
  split; [reflexivity|].
  vm_compute; discriminate.
Defined.

(** The second verifier string set for an asset through one temporary cache is
    dropped: the first stays. *)
Lemma first_verifier_stays (name v1 v2 : bytes) (g : assets_state) :
  verifier_of (passets (Flush (AddRestrictedVerifier name v2 (AddRestrictedVerifier name v1 empty_assets)) g))
    (passetsdb g) name = Some v1.
Proof.
  cbn [Flush with_passets passets]; rewrite verifier_of_flush; unfold layer; cbn.
  now rewrite !lookup_delete_eq, !set_insert_lookup, lookup_empty, decide_True.
Qed.

(** A sub-qualifier given by one block and taken by the next leaves the address
    with the root qualifier as long as both are in memory. *)
Definition example_tag : bytes := str "#TAG"%string.
Definition example_subtag : bytes := str "#TAG/#SUB"%string.
(** No asset exists yet. *)
Definition no_assets : assets_state :=
  mkState empty_assets (lru_new 10) (lru_new 10) (lru_new 10) (lru_new 10) (lru_new 10) ∅.

Definition tagged_state : assets_state :=
  Flush (AddQualifierAddress example_subtag example_address REMOVE_QUALIFIER empty_assets)
    (Flush (AddQualifierAddress example_subtag example_address ADD_QUALIFIER empty_assets) no_assets).

Lemma stale_root_qualifier :
  fst (CheckForAddressQualifier (fun b => b) example_subtag example_address true empty_assets tagged_state) = false /\
  fst (CheckForAddressQualifier (fun b => b) example_tag example_address true empty_assets tagged_state) = true.
Proof. split; vm_compute; reflexivity. Qed.
