(* ===== verification/AssetDump.v ===== *)
(** Writing the asset state to the databases, [DumpCacheToDatabase] of
    src/assets/assets.cpp.

    The function is a sequence of updates of the caches of recently used
    entries and of single database writes.  A write that fails throws
    (src/dbwrapper.cpp), the exception is caught and the function returns
    [false] with the changes still in memory: a failed run performs a prefix of
    the sequence.  The sequence depends on the changes in memory only, so it is
    computed first and then performed. *)

From Stdlib Require Import String.
From stdpp Require Import base gmap list fin_maps.
From Stdlib Require Import ZArith Lia.
From S2P Require Import Prelude Serialize Script Standard Transaction Compressor AssetTypes AssetNames Coins LruCache AssetCache.
Open Scope Z_scope.

(** * Actions *)

Inductive action :=
| DbWrite (k : db_key) (v : db_value)
| DbErase (k : db_key)
| CachePut (name : bytes) (d : CDatabasedAssetData)
| CacheErase (name : bytes)
| VerifierErase (name : bytes)
| QualifierPut (h : bytes)
| QualifierErase (h : bytes)
| RestrictionPut (h : bytes)
| RestrictionErase (h : bytes)
| GlobalPut (name : bytes)
| GlobalErase (name : bytes).

Definition perform (g : assets_state) (a : action) : assets_state :=
  match a with
  | DbWrite k v => with_db (insert k v) g
  | DbErase k => with_db (delete k) g
  | CachePut n d => with_cache (LruCache.Put n d) g
  | CacheErase n => with_cache (LruCache.Erase n) g
  | VerifierErase n => with_verifiers (LruCache.Erase n) g
  | QualifierPut h => with_qualifiers (LruCache.Put h 1) g
  | QualifierErase h => with_qualifiers (LruCache.Erase h) g
  | RestrictionPut h => with_restrictions (LruCache.Put h 1) g
  | RestrictionErase h => with_restrictions (LruCache.Erase h) g
  | GlobalPut n => with_globals (LruCache.Put n 1) g
  | GlobalErase n => with_globals (LruCache.Erase n) g
  end.

Definition perform_all (acts : list action) (g : assets_state) : assets_state := foldl perform g acts.

(** The iteration over a set or map, in some order of its elements. *)
Class SetOrder := {
  in_order : forall {K V : Type} `{Countable K}, gmap K V -> list (K * V);
  in_order_perm : forall {K V : Type} `{Countable K} (m : gmap K V), in_order m ≡ₚ map_to_list m
}.

(** * The loops of the function *)

Section Dump.
Context `{SetOrder}.
Variable fAssetIndex : bool.
Variable Hash : bytes -> bytes.
Implicit Types c : CAssetsCache.

Definition for_each {K V : Type} `{Countable K} (m : gmap K V) (f : K -> V -> list action) : list action :=
  flat_map (fun e => f (fst e) (snd e)) (in_order m).

Definition if_index (l : list action) : list action := if fAssetIndex then l else [].

(** Both directions of the index of balances. *)
Definition write_quantity (name address : bytes) (n : Z) : list action :=
  [DbWrite (ASSET_ADDRESS_QUANTITY name address) (VAmount n); DbWrite (ADDRESS_ASSET_QUANTITY address name) (VAmount n)].
Definition erase_quantity (name address : bytes) : list action :=
  [DbErase (ASSET_ADDRESS_QUANTITY name address); DbErase (ADDRESS_ASSET_QUANTITY address name)].

(** The balance in memory, written, or erased when it is 0. *)
Definition save_quantity (name address : bytes) c : list action :=
  match mapAssetsAddressAmount c !! (name, address) with
  | Some n => if n =? 0 then erase_quantity name address else write_quantity name address n
  | None => []
  end.
Definition write_known_quantity (name address : bytes) c : list action :=
  match mapAssetsAddressAmount c !! (name, address) with
  | Some n => write_quantity name address n
  | None => []
  end.
Definition write_positive_quantity (name address : bytes) c : list action :=
  match mapAssetsAddressAmount c !! (name, address) with
  | Some n => if n >? 0 then write_quantity name address n else []
  | None => []
  end.

Definition dump_removed_assets c : list action :=
  for_each (ToRemove (setNewAssets c)) (fun name e =>
    [CacheErase name; DbErase (ASSET name); DbErase (VERIFIER name)] ++
    if_index (erase_quantity name (cn_address e))).

Definition dump_new_assets c : list action :=
  for_each (ToAdd (setNewAssets c)) (fun name e =>
    let d := mkDatabased (cn_asset e) (cn_blockHeight e) (cn_blockHash e) in
    [CachePut name d; DbWrite (ASSET name) (VData d)] ++
    if_index (write_quantity name (cn_address e) (na_nAmount (cn_asset e)))).

Definition dump_owners_and_transfers c : list action :=
  if_index (
    for_each (ToRemove (setNewOwnerAssets c)) (fun name e => erase_quantity name (co_address e)) ++
    for_each (ToAdd (setNewOwnerAssets c)) (fun name e => write_positive_quantity name (co_address e) c) ++
    for_each (ToRemove (setNewTransferAssets c)) (fun _ e => save_quantity (at_strName (ct_transfer e)) (ct_address e) c) ++
    for_each (ToAdd (setNewTransferAssets c)) (fun _ e =>
      write_known_quantity (at_strName (ct_transfer e)) (ct_address e) c)).

Definition dump_reissues c : list action :=
  for_each (ToAdd (setNewReissue c)) (fun _ e =>
    let name := ra_strName (cr_reissue e) in
    match mapReissuedAssetData c !! name with
    | Some a => [DbWrite (ASSET (na_strName a)) (VData (mkDatabased a (cr_blockHeight e) (cr_blockHash e))); CacheErase name] ++
                if_index (write_positive_quantity name (cr_address e) c)
    | None => []
    end).

Definition dump_undone_reissues c : list action :=
  for_each (ToRemove (setNewReissue c)) (fun _ e =>
    let name := ra_strName (cr_reissue e) in
    if bool_decide (is_Some (ToRemove (setNewAssets c) !! name)) then []
    else match mapReissuedAssetData c !! name with
         | Some a => [DbWrite (ASSET (na_strName a)) (VData (mkDatabased a (cr_blockHeight e) (cr_blockHash e)))] ++
                     if_index (save_quantity name (cr_address e) c) ++ [CacheErase name]
         | None => []
         end).

Definition dump_verifiers c : list action :=
  for_each (ToAdd (setNewRestrictedVerifier c)) (fun name e =>
    [DbWrite (VERIFIER name) (VString (cv_verifier e)); VerifierErase name]) ++
  for_each (ToRemove (setNewRestrictedVerifier c)) (fun name e =>
    [if cv_fUndoingRessiue e then DbWrite (VERIFIER name) (VString (cv_verifier e)) else DbErase (VERIFIER name);
     VerifierErase name]).

Definition give_qualifier (k : name_address) : list action :=
  [QualifierPut (cache_key Hash k); DbWrite (ADDRESS_QUALIFIER (snd k) (fst k)) VFlag] ++
  if_index [DbWrite (QUALIFIER_ADDRESS (fst k) (snd k)) VFlag].
Definition take_qualifier (k : name_address) : list action :=
  [QualifierErase (cache_key Hash k); DbErase (ADDRESS_QUALIFIER (snd k) (fst k))] ++
  if_index [DbErase (QUALIFIER_ADDRESS (fst k) (snd k))].

Definition dump_qualifiers c : list action :=
  for_each (ToAdd (setNewQualifierAddress c)) (fun k t =>
    match t with REMOVE_QUALIFIER => take_qualifier k | ADD_QUALIFIER => give_qualifier k end) ++
  for_each (ToRemove (setNewQualifierAddress c)) (fun k t =>
    match t with REMOVE_QUALIFIER => give_qualifier k | ADD_QUALIFIER => take_qualifier k end).

Definition freeze_address (k : name_address) : list action :=
  [RestrictionPut (cache_key Hash k); DbWrite (RESTRICTED_ADDRESS (snd k) (fst k)) VFlag].
Definition unfreeze_address (k : name_address) : list action :=
  [RestrictionErase (cache_key Hash k); DbErase (RESTRICTED_ADDRESS (snd k) (fst k))].

Definition dump_restricted c : list action :=
  for_each (ToAdd (setNewRestrictedAddress c)) (fun k t =>
    match t with UNFREEZE_ADDRESS => unfreeze_address k | FREEZE_ADDRESS => freeze_address k | _ => [] end) ++
  for_each (ToRemove (setNewRestrictedAddress c)) (fun k t =>
    match t with UNFREEZE_ADDRESS => freeze_address k | FREEZE_ADDRESS => unfreeze_address k | _ => [] end).

Definition freeze_global (n : bytes) : list action := [GlobalPut n; DbWrite (GLOBAL_RESTRICTION n) VFlag].
Definition unfreeze_global (n : bytes) : list action := [GlobalErase n; DbErase (GLOBAL_RESTRICTION n)].

Definition dump_globals c : list action :=
  for_each (ToAdd (setNewRestrictedGlobal c)) (fun n t =>
    match t with GLOBAL_UNFREEZE => unfreeze_global n | GLOBAL_FREEZE => freeze_global n | _ => [] end) ++
  for_each (ToRemove (setNewRestrictedGlobal c)) (fun n t =>
    match t with GLOBAL_UNFREEZE => freeze_global n | GLOBAL_FREEZE => unfreeze_global n | _ => [] end).

Definition dump_amounts c : list action :=
  if_index (
    flat_map (fun e => write_known_quantity (ca_assetName e) (ca_address e) c) (vUndoAssetAmount c) ++
    flat_map (fun e => save_quantity (ca_assetName e) (ca_address e) c) (vSpentAssets c)).

Definition dump_actions c : list action :=
  dump_removed_assets c ++ dump_new_assets c ++ dump_owners_and_transfers c ++ dump_reissues c ++
  dump_undone_reissues c ++ dump_verifiers c ++ dump_qualifiers c ++ dump_restricted c ++ dump_globals c ++
  dump_amounts c.

(** [fails] is the number of actions performed before a write throws, [None]
    where none does. *)
Definition DumpCacheToDatabase (fails : option nat) (g : assets_state) : bool * assets_state :=
  match fails with
  | Some n => (false, perform_all (take n (dump_actions (passets g))) g)
  | None => (true, with_passets ClearDirtyCache (perform_all (dump_actions (passets g)) g))
  end.
End Dump.

(** * What a sequence of actions writes *)

(** The last write of a key: [Some None] is an erasure. *)
Fixpoint written (k : db_key) (l : list action) : option (option db_value) :=
  match l with
  | [] => None
  | a :: l =>
      match written k l with
      | Some r => Some r
      | None => match a with
                | DbWrite k' v => if decide (k' = k) then Some (Some v) else None
                | DbErase k' => if decide (k' = k) then Some None else None
                | _ => None
                end
      end
  end.

Lemma perform_all_app l1 l2 g : perform_all (l1 ++ l2) g = perform_all l2 (perform_all l1 g).
Proof. apply foldl_app. Qed.

Lemma db_after (k : db_key) l : forall g,
  passetsdb (perform_all l g) !! k = match written k l with Some r => r | None => passetsdb g !! k end.
Proof.
  induction l as [|a l IH]; intros g; [reflexivity|]; cbn [perform_all foldl written]; fold (perform_all l (perform g a)).
  rewrite IH; destruct (written k l); [reflexivity|].
  destruct a; cbn; try reflexivity; case_decide as E; subst; rewrite ?lookup_insert_eq, ?lookup_delete_eq; auto;
    [apply lookup_insert_ne|apply lookup_delete_ne]; exact E.
Qed.

Lemma passets_after l : forall g, passets (perform_all l g) = passets g.
Proof.
  induction l as [|a l IH]; intros g; [reflexivity|].
  change (perform_all (a :: l) g) with (perform_all l (perform g a)); rewrite IH; now destruct a.
Qed.

Lemma written_app k l1 l2 :
  written k (l1 ++ l2) = match written k l2 with Some r => Some r | None => written k l1 end.
Proof.
  induction l1 as [|a l1 IH]; cbn; [now destruct (written k l2)|]; rewrite IH; now destruct (written k l2).
Qed.

Lemma written_flat_map_none {A : Type} k (f : A -> list action) l :
  (forall x, x ∈ l -> written k (f x) = None) -> written k (flat_map f l) = None.
Proof.
  induction l as [|x l IH]; intros N; [reflexivity|]; cbn; rewrite written_app, IH, N; auto; [left|].
  intros y Y; apply N; now right.
Qed.

Section Loops.
Context `{SetOrder} {K V : Type} `{Countable K}.

Lemma in_order_elem (m : gmap K V) e : e ∈ in_order m <-> m !! e.1 = Some e.2.
Proof. rewrite in_order_perm; destruct e; apply elem_of_map_to_list. Qed.

Lemma written_for_each_none k (m : gmap K V) (f : K -> V -> list action) :
  (forall i v, m !! i = Some v -> written k (f i v) = None) -> written k (for_each m f) = None.
Proof. intros N; apply written_flat_map_none; intros e E; apply N, in_order_elem, E. Qed.

Lemma written_loop k i (f : K -> V -> list action) (l : list (K * V)) :
  NoDup l.*1 -> (forall j v, (j, v) ∈ l -> j <> i -> written k (f j v) = None) ->
  written k (flat_map (fun e => f e.1 e.2) l) =
  match list_find (fun e => e.1 = i) l with Some (_, (_, v)) => written k (f i v) | None => None end.
Proof.
  induction l as [|[j v] l IH]; intros ND N; [reflexivity|]; cbn [flat_map fst snd list_find].
  apply NoDup_cons in ND as [NI ND]; rewrite written_app; case_decide as E; cbn in E.
  - subst j; rewrite written_flat_map_none; [reflexivity|].
    intros [j w] M; apply N; [now right|]; cbn; intros ->; apply NI; apply list_elem_of_fmap; now exists (i, w).
  - rewrite IH; [|exact ND|intros; apply N; [now right|assumption]].
    rewrite (N j v); [|left|exact E].
    destruct (list_find _ l) as [[? [? w]]|]; cbn; [destruct (written k (f i w))|]; reflexivity.
Qed.

(** One loop over a map in which only the element of one key writes [k]. *)
Lemma written_for_each k i (m : gmap K V) (f : K -> V -> list action) :
  (forall j v, m !! j = Some v -> j <> i -> written k (f j v) = None) ->
  written k (for_each m f) = match m !! i with Some v => written k (f i v) | None => None end.
Proof.
  intros N; unfold for_each; rewrite (written_loop k i).
  - destruct (list_find _ _) as [[x [j v]]|] eqn:F.
    + apply list_find_Some in F as (L & E & _); cbn in E; subst j.
      apply list_elem_of_lookup_2, in_order_elem in L; cbn in L; now rewrite L.
    + apply list_find_None in F; destruct (m !! i) as [v|] eqn:E; [|reflexivity].
      rewrite Forall_forall in F; exfalso; apply (F (i, v)); [|reflexivity]; now apply in_order_elem.
  - rewrite in_order_perm; apply NoDup_fst_map_to_list.
  - intros j v E; apply in_order_elem in E; now apply N.
Qed.
End Loops.

Lemma written_take k n l r : written k (take n l) = Some r -> exists r', written k l = Some r'.
Proof.
  intros W; rewrite <- (take_drop n l), written_app, W; destruct (written k (drop n l)); eauto.
Qed.

(** A write to the asset databases that fails part way reports an error
    and keeps every change in memory, and a later successful write leaves the
    databases as if the failure had not happened. *)
Theorem Dump_retry `{SetOrder} (fAssetIndex : bool) (Hash : bytes -> bytes) (n : nat) (g : assets_state) :
  let '(ok1, g1) := DumpCacheToDatabase fAssetIndex Hash (Some n) g in
  let '(ok2, g2) := DumpCacheToDatabase fAssetIndex Hash None g1 in
  let '(ok, g') := DumpCacheToDatabase fAssetIndex Hash None g in
  ok1 = false /\ passets g1 = passets g /\ ok2 = true /\ ok = true /\
  passetsdb g2 = passetsdb g' /\ passets g2 = empty_assets.
Proof.
  cbn [DumpCacheToDatabase]; split_and!; try reflexivity; [apply passets_after|].
  rewrite passets_after; cbn; apply map_eq; intros k; rewrite !db_after.
  destruct (written k (dump_actions _ _ _)) as [r|] eqn:W; [reflexivity|].
  destruct (written k (take n _)) as [r|] eqn:T; [|reflexivity].
  destruct (written_take _ _ _ _ T) as [r' E]; congruence.
Qed.

(** * The databases after a successful write *)

(** The flag of a key, by which the parts of the sequence keep apart. *)
Definition table (k : db_key) : nat :=
  match k with
  | ASSET _ => 0 | ASSET_ADDRESS_QUANTITY _ _ => 1 | ADDRESS_ASSET_QUANTITY _ _ => 1
  | VERIFIER _ => 2 | ADDRESS_QUALIFIER _ _ => 3 | QUALIFIER_ADDRESS _ _ => 3
  | RESTRICTED_ADDRESS _ _ => 4 | GLOBAL_RESTRICTION _ => 5
  end.
Definition only (ts : list nat) (a : action) : bool :=
  match a with DbWrite k _ | DbErase k => existsb (Nat.eqb (table k)) ts | _ => true end.

Lemma only_written ts k l : forallb (only ts) l = true -> existsb (Nat.eqb (table k)) ts = false -> written k l = None.
Proof.
  intros F T; induction l as [|a l IH]; [reflexivity|]; cbn in F; apply andb_true_iff in F as [A F]; cbn.
  rewrite (IH F); destruct a; try reflexivity; case_decide as E; try reflexivity; subst; cbn in A; congruence.
Qed.

Lemma only_flat_map {A : Type} ts (f : A -> list action) l : (forall x, forallb (only ts) (f x) = true) ->
  forallb (only ts) (flat_map f l) = true.
Proof. intros F; induction l as [|x l IH]; [reflexivity|]; cbn; rewrite forallb_app, F; exact IH. Qed.

Lemma only_app ts l1 l2 : forallb (only ts) l1 = true -> forallb (only ts) l2 = true -> forallb (only ts) (l1 ++ l2) = true.
Proof. intros F1 F2; now rewrite forallb_app, F1, F2. Qed.

Ltac tables :=
  repeat match goal with
  | |- forallb _ (_ ++ _) = true => apply only_app
  | |- forallb _ (for_each _ _) = true => apply only_flat_map; intros
  | |- forallb _ (flat_map _ _) = true => apply only_flat_map; intros
  | |- forallb _ (if_index ?b _) = true => unfold if_index
  | |- forallb _ (if ?b then _ else _) = true => destruct b
  | |- forallb _ (match ?x with _ => _ end) = true => destruct x
  | |- forallb _ (let '(_, _) := ?x in _) = true => destruct x
  end; try reflexivity.

Section Effects.
Context `{SetOrder}.
Variable fAssetIndex : bool.
Variable Hash : bytes -> bytes.
Implicit Types (c : CAssetsCache) (g : assets_state).

Abbreviation actions := (dump_actions fAssetIndex Hash).

Lemma only_save n a c : forallb (only [1%nat]) (save_quantity n a c) = true /\
  forallb (only [1%nat]) (write_known_quantity n a c) = true /\
  forallb (only [1%nat]) (write_positive_quantity n a c) = true.
Proof. unfold save_quantity, write_known_quantity, write_positive_quantity; split_and!; tables. Qed.

Lemma only_more ts t l : forallb (only [t]) l = true -> existsb (Nat.eqb t) ts = true -> forallb (only ts) l = true.
Proof.
  rewrite !forallb_forall; intros F T a A; specialize (F a A).
  destruct a; cbn in *; try reflexivity; rewrite orb_false_r in F; apply Nat.eqb_eq in F; now rewrite F.
Qed.

(** The tables of the parts. *)
Lemma parts_tables c :
  forallb (only [0%nat; 1%nat; 2%nat]) (dump_removed_assets fAssetIndex c) = true /\
  forallb (only [0%nat; 1%nat]) (dump_new_assets fAssetIndex c) = true /\
  forallb (only [1%nat]) (dump_owners_and_transfers fAssetIndex c) = true /\
  forallb (only [0%nat; 1%nat]) (dump_reissues fAssetIndex c) = true /\
  forallb (only [0%nat; 1%nat]) (dump_undone_reissues fAssetIndex c) = true /\
  forallb (only [2%nat]) (dump_verifiers c) = true /\
  forallb (only [3%nat]) (dump_qualifiers fAssetIndex Hash c) = true /\
  forallb (only [4%nat]) (dump_restricted Hash c) = true /\
  forallb (only [5%nat]) (dump_globals c) = true /\
  forallb (only [1%nat]) (dump_amounts fAssetIndex c) = true.
Proof.
  unfold dump_removed_assets, dump_new_assets, dump_owners_and_transfers, dump_reissues, dump_undone_reissues,
    dump_verifiers, dump_qualifiers, dump_restricted, dump_globals, dump_amounts, give_qualifier, take_qualifier.
  split_and!; tables; try apply only_save; try (case_match; reflexivity);
    apply (only_more _ 1%nat); try reflexivity; apply only_save.
Qed.

(** The write of a key is that of the parts of its table. *)
Lemma written_by_table k c : written k (actions c) =
  match table k with
  | 0 => written k (dump_removed_assets fAssetIndex c ++ dump_new_assets fAssetIndex c ++
                    dump_reissues fAssetIndex c ++ dump_undone_reissues fAssetIndex c)
  | 2 => written k (dump_removed_assets fAssetIndex c ++ dump_verifiers c)
  | 3 => written k (dump_qualifiers fAssetIndex Hash c)
  | 4 => written k (dump_restricted Hash c)
  | 5 => written k (dump_globals c)
  | _ => written k (actions c)
  end%nat.
Proof.
  destruct (parts_tables c) as (T1 & T2 & T3 & T4 & T5 & T6 & T7 & T8 & T9 & T10).
  pose proof (fun F => only_written _ k _ T1 F) as W1; pose proof (fun F => only_written _ k _ T2 F) as W2.
  pose proof (fun F => only_written _ k _ T3 F) as W3; pose proof (fun F => only_written _ k _ T4 F) as W4.
  pose proof (fun F => only_written _ k _ T5 F) as W5; pose proof (fun F => only_written _ k _ T6 F) as W6.
  pose proof (fun F => only_written _ k _ T7 F) as W7; pose proof (fun F => only_written _ k _ T8 F) as W8.
  pose proof (fun F => only_written _ k _ T9 F) as W9; pose proof (fun F => only_written _ k _ T10 F) as W10.
  unfold dump_actions; destruct k; cbn [table] in *; try reflexivity; rewrite !written_app;
    repeat match goal with W : existsb _ _ = false -> _ = None |- _ => first [rewrite (W eq_refl)|clear W] end;
    cbn; repeat case_match; congruence.
Qed.
End Effects.

(** * Views after a successful write *)

(** What the callers keep of the changes in memory: types of commands match
    their set, data is filed under its name, the assets that pending reissues
    concern exist, reissued data comes with a pending or undone reissue, and a removed asset's verifier string is removed with it. *)
Record pending_ok (usable : name_address -> Prop) (c : CAssetsCache) (db : assets_db) : Prop := {
  po_disjoint : forall n, is_Some (ToRemove (setNewAssets c) !! n) -> ToAdd (setNewAssets c) !! n = None;
  po_new : forall n e, ToAdd (setNewAssets c) !! n = Some e -> na_strName (cn_asset e) = n;
  po_reissued : forall n a, mapReissuedAssetData c !! n = Some a -> na_strName a = n;
  po_reissue : forall out e, ToAdd (setNewReissue c) !! out = Some e ->
    is_Some (mapReissuedAssetData c !! ra_strName (cr_reissue e)) ->
    asset_exists c db (ra_strName (cr_reissue e)) = true;
  po_undone : forall out e, ToRemove (setNewReissue c) !! out = Some e ->
    is_Some (mapReissuedAssetData c !! ra_strName (cr_reissue e)) ->
    ToRemove (setNewAssets c) !! ra_strName (cr_reissue e) = None ->
    asset_exists c db (ra_strName (cr_reissue e)) = true;
  po_pending : forall n, is_Some (mapReissuedAssetData c !! n) -> exists out e, ra_strName (cr_reissue e) = n /\
    (ToAdd (setNewReissue c) !! out = Some e \/ ToRemove (setNewReissue c) !! out = Some e);
  po_verifier : forall n, is_Some (ToRemove (setNewAssets c) !! n) ->
    ReadVerifier db n = None \/ is_Some (ToAdd (setNewRestrictedVerifier c) !! n) \/
    is_Some (ToRemove (setNewRestrictedVerifier c) !! n);
  po_restricted : forall k t, ToAdd (setNewRestrictedAddress c) !! k = Some t \/
    ToRemove (setNewRestrictedAddress c) !! k = Some t -> usable k /\ (t = FREEZE_ADDRESS \/ t = UNFREEZE_ADDRESS);
  po_global : forall n t, ToAdd (setNewRestrictedGlobal c) !! n = Some t \/
    ToRemove (setNewRestrictedGlobal c) !! n = Some t -> t = GLOBAL_FREEZE \/ t = GLOBAL_UNFREEZE;
  po_qualifier : forall k t, ToAdd (setNewQualifierAddress c) !! k = Some t \/
    ToRemove (setNewQualifierAddress c) !! k = Some t -> usable k
}.

Section After.
Context `{SetOrder}.
Variable fAssetIndex : bool.
Variable Hash : bytes -> bytes.
Variable usable : name_address -> Prop.
Implicit Types (c : CAssetsCache) (g : assets_state).

Abbreviation actions := (dump_actions fAssetIndex Hash).

(** The loops of the two kinds of freezes. *)
Lemma frozen_after g k : pending_ok usable (passets g) (passetsdb g) ->
  ReadFlag (passetsdb (perform_all (actions (passets g)) g)) (RESTRICTED_ADDRESS (snd k) (fst k)) =
  frozen (passets g) (passetsdb g) k.
Proof.
  intros P; destruct k as [n a]; cbn [fst snd]; unfold ReadFlag; rewrite db_after, written_by_table; cbn [table].
  unfold dump_restricted; rewrite written_app, !(written_for_each _ (n, a));
    try (intros [n' a'] t _ NE; destruct t; cbn; try rewrite decide_False by congruence; reflexivity).
  unfold frozen, layer; cbn [fst snd]; pose proof (po_restricted _ _ _ P (n, a)) as T.
  destruct (ToRemove _ !! _) as [t|] eqn:R; [destruct (T t (or_intror eq_refl)) as [_ [-> | ->]]; cbn; now rewrite decide_True|].
  destruct (ToAdd _ !! _) as [t|] eqn:A; [destruct (T t (or_introl eq_refl)) as [_ [-> | ->]]; cbn; now rewrite decide_True|].
  reflexivity.
Qed.

Lemma global_after g n : pending_ok usable (passets g) (passetsdb g) ->
  ReadFlag (passetsdb (perform_all (actions (passets g)) g)) (GLOBAL_RESTRICTION n) =
  global_frozen (passets g) (passetsdb g) n.
Proof.
  intros P; unfold ReadFlag; rewrite db_after, written_by_table; cbn [table].
  unfold dump_globals; rewrite written_app, !(written_for_each _ n);
    try (intros n' t _ NE; destruct t; cbn; try rewrite decide_False by congruence; reflexivity).
  unfold global_frozen, layer; pose proof (po_global _ _ _ P n) as T.
  destruct (ToRemove _ !! _) as [t|] eqn:R; [destruct (T t (or_intror eq_refl)) as [-> | ->]; cbn; now rewrite decide_True|].
  destruct (ToAdd _ !! _) as [t|] eqn:A; [destruct (T t (or_introl eq_refl)) as [-> | ->]; cbn; now rewrite decide_True|].
  reflexivity.
Qed.

(** An erased balance does not matter to the tables of names. *)
Lemma written_index k b l : forallb (only [1%nat]) l = true -> Nat.eqb (table k) 1 = false -> written k (if_index b l) = None.
Proof. intros F T; destruct b; [|reflexivity]; apply (only_written [1%nat]); [exact F|]; cbn; now rewrite T. Qed.

Lemma written_removed_asset k n c : (k = ASSET n \/ k = VERIFIER n) ->
  written k (dump_removed_assets fAssetIndex c) =
  match ToRemove (setNewAssets c) !! n with Some _ => Some None | None => None end.
Proof.
  intros K; unfold dump_removed_assets; rewrite (written_for_each _ n).
  - destruct (ToRemove _ !! n) as [e|]; [|reflexivity]; rewrite written_app, written_index by (destruct K; now subst).
    destruct K; subst; cbn; repeat case_decide; congruence.
  - intros n' e _ NE; rewrite written_app, written_index by (destruct K; now subst).
    destruct K; subst; cbn; repeat case_decide; congruence.
Qed.

Lemma verifier_after g n : pending_ok usable (passets g) (passetsdb g) ->
  ReadVerifier (passetsdb (perform_all (actions (passets g)) g)) n = verifier_of (passets g) (passetsdb g) n.
Proof.
  intros P; unfold ReadVerifier; rewrite db_after, written_by_table; cbn [table].
  rewrite written_app, (written_removed_asset _ n) by auto.
  unfold dump_verifiers; rewrite written_app, !(written_for_each _ n);
    try (intros n' e _ NE; cbn; try destruct (cv_fUndoingRessiue e); rewrite ?decide_False by congruence; reflexivity).
  unfold verifier_of, layer; pose proof (po_verifier _ _ _ P n) as V.
  destruct (ToRemove (setNewRestrictedVerifier (passets g)) !! n) as [e|].
  { cbn; unfold undone_verifier; destruct (cv_fUndoingRessiue e); now rewrite decide_True. }
  destruct (ToAdd (setNewRestrictedVerifier (passets g)) !! n) as [e|]; [cbn; now rewrite decide_True|].
  destruct (ToRemove (setNewAssets (passets g)) !! n) as [e|]; [|reflexivity].
  destruct V as [V|[[? [=]]|[? [=]]]]; [eauto|]; now rewrite V.
Qed.

Lemma written_new_asset n c : written (ASSET n) (dump_new_assets fAssetIndex c) =
  match ToAdd (setNewAssets c) !! n with
  | Some e => Some (Some (VData (mkDatabased (cn_asset e) (cn_blockHeight e) (cn_blockHash e))))
  | None => None
  end.
Proof.
  unfold dump_new_assets; rewrite (written_for_each _ n).
  - destruct (ToAdd _ !! n) as [e|]; [|reflexivity]; rewrite written_app, written_index by reflexivity.
    cbn; now rewrite decide_True.
  - intros n' e _ NE; rewrite written_app, written_index by reflexivity; cbn; now rewrite decide_False by congruence.
Qed.

(** ** Data of assets *)

(** As the node answers: reissued, removed, new, or stored. *)
Definition asset_data p db (n : bytes) : option CNewAsset :=
  match mapReissuedAssetData p !! n with
  | Some a => Some a
  | None =>
      match ToRemove (setNewAssets p) !! n, ToAdd (setNewAssets p) !! n with
      | Some _, _ => None
      | None, Some e => Some (cn_asset e)
      | None, None => dd_asset <$> ReadAssetData db n
      end
  end.

Lemma written_data_flat {A : Type} n (f : A -> list action) (l : list A) (Q : CDatabasedAssetData -> Prop) :
  (forall x, x ∈ l -> written (ASSET n) (f x) = None \/ exists d, Q d /\ written (ASSET n) (f x) = Some (Some (VData d))) ->
  written (ASSET n) (flat_map f l) = None \/
  exists d, Q d /\ written (ASSET n) (flat_map f l) = Some (Some (VData d)).
Proof.
  induction l as [|x l IH]; intros N; [now left|]; cbn; rewrite written_app.
  destruct IH as [->|(d & q & ->)]; [intros y Y; apply N; now right|apply N; left|right; eauto].
Qed.

Lemma written_flat_some {A : Type} k (f : A -> list action) (l : list A) x : x ∈ l -> written k (f x) <> None ->
  written k (flat_map f l) <> None.
Proof.
  induction 1 as [x l|x y l _ IH]; intros W; cbn; rewrite written_app; destruct (written k (flat_map f l)); try discriminate; auto.
  now apply IH in W.
Qed.

(** What a reissue writes: the data in memory, of an asset that exists. *)
Definition reissue_part c (e : CAssetCacheReissueAsset) : list action :=
  match mapReissuedAssetData c !! ra_strName (cr_reissue e) with
  | Some a => [DbWrite (ASSET (na_strName a)) (VData (mkDatabased a (cr_blockHeight e) (cr_blockHash e)))]
  | None => []
  end.
Definition reissue_data c db n (d : CDatabasedAssetData) : Prop :=
  asset_exists c db n = true /\ mapReissuedAssetData c !! n = Some (dd_asset d).

Lemma written_reissue_part n c db (e : CAssetCacheReissueAsset) :
  (forall m a, mapReissuedAssetData c !! m = Some a -> na_strName a = m) ->
  (is_Some (mapReissuedAssetData c !! ra_strName (cr_reissue e)) -> asset_exists c db (ra_strName (cr_reissue e)) = true) ->
  written (ASSET n) (reissue_part c e) = None \/
  exists d, reissue_data c db n d /\ written (ASSET n) (reissue_part c e) = Some (Some (VData d)).
Proof.
  intros N E; unfold reissue_part; destruct (mapReissuedAssetData c !! _) as [a|] eqn:M; [|now left].
  cbn; case_decide as D; [right|now left]; injection D as D; rewrite (N _ _ M) in D; subst n; eexists; split; [split|reflexivity]; eauto.
Qed.

Lemma written_reissue_some c (e : CAssetCacheReissueAsset) :
  (forall m a, mapReissuedAssetData c !! m = Some a -> na_strName a = m) ->
  is_Some (mapReissuedAssetData c !! ra_strName (cr_reissue e)) ->
  written (ASSET (ra_strName (cr_reissue e))) (reissue_part c e) <> None.
Proof. intros N [a M]; unfold reissue_part; rewrite M; cbn; rewrite (N _ _ M), decide_True by reflexivity; discriminate. Qed.

(** The two loops, without the balances. *)
Lemma new_reissue_part n c e : written (ASSET n)
    (let name := ra_strName (cr_reissue e) in
     match mapReissuedAssetData c !! name with
     | Some a => [DbWrite (ASSET (na_strName a)) (VData (mkDatabased a (cr_blockHeight e) (cr_blockHash e))); CacheErase name] ++
                 if_index fAssetIndex (write_positive_quantity name (cr_address e) c)
     | None => []
     end) = written (ASSET n) (reissue_part c e).
Proof.
  cbv zeta; unfold reissue_part; destruct (mapReissuedAssetData c !! _); [|reflexivity].
  rewrite written_app, written_index by (apply only_save || reflexivity); reflexivity.
Qed.
Lemma undone_reissue_part n c e : ToRemove (setNewAssets c) !! ra_strName (cr_reissue e) = None -> written (ASSET n)
    (let name := ra_strName (cr_reissue e) in
     if bool_decide (is_Some (ToRemove (setNewAssets c) !! name)) then []
     else match mapReissuedAssetData c !! name with
          | Some a => [DbWrite (ASSET (na_strName a)) (VData (mkDatabased a (cr_blockHeight e) (cr_blockHash e)))] ++
                      if_index fAssetIndex (save_quantity name (cr_address e) c) ++ [CacheErase name]
          | None => []
          end) = written (ASSET n) (reissue_part c e).
Proof.
  cbv zeta; intros R; rewrite bool_decide_eq_false_2 by (rewrite R; now intros [? [=]]).
  unfold reissue_part; destruct (mapReissuedAssetData c !! _); [|reflexivity].
  rewrite !written_app, written_index by (apply only_save || reflexivity); reflexivity.
Qed.

Lemma written_reissues n c db : pending_ok usable c db ->
  let l := dump_reissues fAssetIndex c ++ dump_undone_reissues fAssetIndex c in
  written (ASSET n) l = None \/ exists d, reissue_data c db n d /\ written (ASSET n) l = Some (Some (VData d)).
Proof.
  intros P l; unfold l, dump_reissues, dump_undone_reissues, for_each; rewrite written_app.
  match goal with |- context [written _ (flat_map ?f (in_order (ToRemove _)))] =>
    destruct (written_data_flat n f (in_order (ToRemove (setNewReissue c))) (reissue_data c db n))
      as [->|(d & q & ->)] end; [|apply written_data_flat|right; eauto].
  - intros [out e] M; apply in_order_elem in M; cbn in M; cbn [fst snd].
    destruct (decide (is_Some (ToRemove (setNewAssets c) !! ra_strName (cr_reissue e)))) as [S|R].
    { cbv zeta; rewrite bool_decide_eq_true_2 by exact S; now left. }
    apply eq_None_not_Some in R.
    rewrite undone_reissue_part by exact R; apply (written_reissue_part n c db e (po_reissued _ _ _ P)).
    intros S; exact (po_undone _ _ _ P out e M S R).
  - intros [out e] M; apply in_order_elem in M; cbn in M; cbn [fst snd]; rewrite new_reissue_part.
    apply (written_reissue_part n c db e (po_reissued _ _ _ P)), (po_reissue _ _ _ P out e M).
Qed.

Lemma written_reissues_some n c db : pending_ok usable c db -> is_Some (mapReissuedAssetData c !! n) ->
  ToRemove (setNewAssets c) !! n = None ->
  written (ASSET n) (dump_reissues fAssetIndex c ++ dump_undone_reissues fAssetIndex c) <> None.
Proof.
  intros P S R; destruct (po_pending _ _ _ P n S) as (out & e & <- & [M|M]); rewrite written_app.
  - destruct (written _ (dump_undone_reissues _ _)); [discriminate|].
    apply (written_flat_some _ _ _ (out, e)); [now apply in_order_elem|]; cbn [fst snd]; rewrite new_reissue_part.
    exact (written_reissue_some c e (po_reissued _ _ _ P) S).
  - assert (W : written (ASSET (ra_strName (cr_reissue e))) (dump_undone_reissues fAssetIndex c) <> None).
    { apply (written_flat_some _ _ _ (out, e)); [now apply in_order_elem|]; cbn [fst snd]; rewrite undone_reissue_part by exact R.
      exact (written_reissue_some c e (po_reissued _ _ _ P) S). }
    destruct (written _ (dump_undone_reissues _ _)); [discriminate|now destruct W].
Qed.

Lemma exists_after g n : pending_ok usable (passets g) (passetsdb g) ->
  is_some (ReadAssetData (passetsdb (perform_all (actions (passets g)) g)) n) =
  asset_exists (passets g) (passetsdb g) n.
Proof.
  intros P; unfold ReadAssetData; rewrite db_after, written_by_table; cbn [table].
  rewrite app_assoc, written_app.
  destruct (written_reissues n _ _ P) as [->|(d & [E _] & ->)]; [|now rewrite E].
  rewrite written_app, written_new_asset, (written_removed_asset _ n) by auto; unfold asset_exists, layer.
  pose proof (po_disjoint _ _ _ P n) as D.
  destruct (ToRemove (setNewAssets (passets g)) !! n); [rewrite D by eauto; reflexivity|].
  now destruct (ToAdd (setNewAssets (passets g)) !! n).
Qed.

(** The data stays, and that of a removed asset goes. *)
Lemma data_kept g n : pending_ok usable (passets g) (passetsdb g) ->
  dd_asset <$> ReadAssetData (passetsdb (perform_all (actions (passets g)) g)) n =
  match ToRemove (setNewAssets (passets g)) !! n with
  | Some _ => None
  | None => asset_data (passets g) (passetsdb g) n
  end.
Proof.
  intros P; unfold ReadAssetData, asset_data; rewrite db_after, written_by_table; cbn [table].
  rewrite app_assoc, written_app; pose proof (po_disjoint _ _ _ P n) as D.
  pose proof (written_reissues_some n _ _ P) as C; destruct (written_reissues n _ _ P) as [W|(d & [E M] & W)]; rewrite W in *.
  - rewrite written_app, written_new_asset, (written_removed_asset _ n) by auto.
    destruct (ToRemove (setNewAssets (passets g)) !! n); [rewrite D by eauto; reflexivity|].
    destruct (mapReissuedAssetData (passets g) !! n); [exfalso; apply C; eauto|].
    now destruct (ToAdd (setNewAssets (passets g)) !! n).
  - rewrite M; unfold asset_exists, layer in E; destruct (ToRemove (setNewAssets (passets g)) !! n); [discriminate|reflexivity].
Qed.
End After.

(** * The caches of recently used entries after a successful write *)

Section Coherence.
Context `{SetOrder}.
Variable fAssetIndex : bool.
Variable Hash : bytes -> bytes.
Variable usable : name_address -> Prop.
Hypothesis cache_key_inj : forall k k', usable k -> usable k' -> cache_key Hash k = cache_key Hash k' -> k = k'.
Implicit Types (c : CAssetsCache) (g : assets_state) (I : assets_state -> Prop).

Definition keeps I (l : list action) : Prop := forall g, I g -> I (perform_all l g).

Lemma keeps_nil I : keeps I [].
Proof. intros g; auto. Qed.
Lemma keeps_app I l1 l2 : keeps I l1 -> keeps I l2 -> keeps I (l1 ++ l2).
Proof. intros K1 K2 g O; rewrite perform_all_app; auto. Qed.
Lemma keeps_flat_map {A : Type} I (f : A -> list action) l : (forall x, x ∈ l -> keeps I (f x)) -> keeps I (flat_map f l).
Proof.
  induction l as [|x l IH]; intros K; [apply keeps_nil|]; cbn; apply keeps_app; [apply K; left|apply IH].
  intros y Y; apply K; now right.
Qed.
Lemma keeps_for_each {K V : Type} `{Countable K} I (m : gmap K V) (f : K -> V -> list action) :
  (forall k v, m !! k = Some v -> keeps I (f k v)) -> keeps I (for_each m f).
Proof. intros K'; apply keeps_flat_map; intros e E; apply K', in_order_elem, E. Qed.

(** The actions that do not concern a table and the cache over it. *)
Definition foreign (t : nat) (a : action) : bool :=
  match a with
  | DbWrite k _ | DbErase k => negb (Nat.eqb (table k) t)
  | CachePut _ _ | CacheErase _ => negb (Nat.eqb t 0)
  | VerifierErase _ => negb (Nat.eqb t 2)
  | QualifierPut _ | QualifierErase _ => negb (Nat.eqb t 3)
  | RestrictionPut _ | RestrictionErase _ => negb (Nat.eqb t 4)
  | GlobalPut _ | GlobalErase _ => negb (Nat.eqb t 5)
  end.

(** The part of the state a table stands for is the same. *)
Definition same_part (t : nat) g g' : Prop :=
  (forall k, table k = t -> passetsdb g' !! k = passetsdb g !! k) /\
  (t = 0%nat -> passetsCache g' = passetsCache g) /\
  (t = 2%nat -> passetsVerifierCache g' = passetsVerifierCache g) /\
  (t = 3%nat -> passetsQualifierCache g' = passetsQualifierCache g) /\
  (t = 4%nat -> passetsRestrictionCache g' = passetsRestrictionCache g) /\
  (t = 5%nat -> passetsGlobalRestrictionCache g' = passetsGlobalRestrictionCache g).

Lemma foreign_same t a g : foreign t a = true -> same_part t g (perform g a).
Proof.
  intros F; unfold same_part; destruct a; cbn in F |- *; split_and!; auto; try (intros ->; discriminate F).
  - intros k' T; apply lookup_insert_ne; intros ->; rewrite T, Nat.eqb_refl in F; discriminate F.
  - intros k' T; apply lookup_delete_ne; intros ->; rewrite T, Nat.eqb_refl in F; discriminate F.
Qed.

Lemma same_part_trans t g1 g2 g3 : same_part t g1 g2 -> same_part t g2 g3 -> same_part t g1 g3.
Proof.
  intros (D & A & B & C & E & F) (D' & A' & B' & C' & E' & F'); unfold same_part; split_and!; intros.
  all: first [rewrite D', D|rewrite A', A|rewrite B', B|rewrite C', C|rewrite E', E|rewrite F', F]; auto.
Qed.

Lemma foreign_all t l : forall g, forallb (foreign t) l = true -> same_part t g (perform_all l g).
Proof.
  induction l as [|a l IH]; intros g F; [split_and!; auto|]; cbn in F; apply andb_true_iff in F as [A F].
  change (perform_all (a :: l) g) with (perform_all l (perform g a)).
  exact (same_part_trans _ _ _ _ (foreign_same t a g A) (IH _ F)).
Qed.

Lemma foreign_keeps t I l : (forall g g', same_part t g g' -> I g -> I g') -> forallb (foreign t) l = true -> keeps I l.
Proof. intros P F g O; exact (P _ _ (foreign_all t l g F) O). Qed.

Lemma foreign_flat_map {A : Type} t (f : A -> list action) l : (forall x, forallb (foreign t) (f x) = true) ->
  forallb (foreign t) (flat_map f l) = true.
Proof. intros F; induction l as [|x l IH]; [reflexivity|]; cbn; rewrite forallb_app, F; exact IH. Qed.
Lemma foreign_app t l1 l2 : forallb (foreign t) l1 = true -> forallb (foreign t) l2 = true -> forallb (foreign t) (l1 ++ l2) = true.
Proof. intros F1 F2; now rewrite forallb_app, F1, F2. Qed.

Lemma quantity_foreign t n a c : t <> 1%nat ->
  forallb (foreign t) (save_quantity n a c) = true /\ forallb (foreign t) (write_known_quantity n a c) = true /\
  forallb (foreign t) (write_positive_quantity n a c) = true /\ forallb (foreign t) (erase_quantity n a) = true /\
  forall x, forallb (foreign t) (write_quantity n a x) = true.
Proof.
  intros T; destruct t as [|[|t]]; [|congruence|];
    unfold save_quantity, write_known_quantity, write_positive_quantity;
    (split_and!; [..|intros x]; repeat case_match; reflexivity).
Qed.

Ltac foreign_part :=
  repeat match goal with
  | |- forallb _ (_ ++ _) = true => apply foreign_app
  | |- forallb _ (for_each _ _) = true => apply foreign_flat_map; intros
  | |- forallb _ (flat_map _ _) = true => apply foreign_flat_map; intros
  | |- forallb _ (if_index ?b _) = true => unfold if_index
  | |- forallb _ (if ?b then _ else _) = true => destruct b
  | |- forallb _ (match ?x with _ => _ end) = true => destruct x
  end; try reflexivity; try (apply quantity_foreign; discriminate); try (case_match; reflexivity).

(** The parts of the sequence that concern only other tables. *)
Lemma parts_foreign c :
  (forall t, t ∈ [3; 4; 5]%nat -> forallb (foreign t) (dump_removed_assets fAssetIndex c) = true) /\
  (forall t, t ∈ [2; 3; 4; 5]%nat -> forallb (foreign t) (dump_new_assets fAssetIndex c) = true /\
    forallb (foreign t) (dump_reissues fAssetIndex c) = true /\
    forallb (foreign t) (dump_undone_reissues fAssetIndex c) = true) /\
  (forall t, t ∈ [0; 2; 3; 4; 5]%nat -> forallb (foreign t) (dump_owners_and_transfers fAssetIndex c) = true /\
    forallb (foreign t) (dump_amounts fAssetIndex c) = true) /\
  (forall t, t ∈ [0; 3; 4; 5]%nat -> forallb (foreign t) (dump_verifiers c) = true) /\
  (forall t, t ∈ [0; 2; 4; 5]%nat -> forallb (foreign t) (dump_qualifiers fAssetIndex Hash c) = true) /\
  (forall t, t ∈ [0; 2; 3; 5]%nat -> forallb (foreign t) (dump_restricted Hash c) = true) /\
  (forall t, t ∈ [0; 2; 3; 4]%nat -> forallb (foreign t) (dump_globals c) = true).
Proof.
  unfold dump_removed_assets, dump_new_assets, dump_owners_and_transfers, dump_reissues, dump_undone_reissues,
    dump_verifiers, dump_qualifiers, dump_restricted, dump_globals, dump_amounts, give_qualifier, take_qualifier.
  split_and!; intros t T; repeat (apply elem_of_cons in T as [->|T]; [split_and?; foreign_part|]);
    apply elem_of_nil in T; destruct T.
Qed.

Ltac keeps_parts := repeat match goal with |- keeps _ (_ ++ _) => apply keeps_app end.

(** ** Asset data *)

Definition data_ok g : Prop :=
  lru_sound (fun n d => ReadAssetData (passetsdb g) n = Some d) (passetsCache g) /\
  (forall n d, ReadAssetData (passetsdb g) n = Some d -> na_strName (dd_asset d) = n).

Lemma data_ok_same g g' : same_part 0 g g' -> data_ok g -> data_ok g'.
Proof.
  intros (D & C & _) [S N]; unfold data_ok, ReadAssetData in *; rewrite (C eq_refl); split.
  - eapply sound_weaken; [|exact S]; intros n d; cbn; now rewrite D.
  - intros n d; rewrite D by reflexivity; apply N.
Qed.

Lemma read_insert db n n' d :
  ReadAssetData (<[ASSET n := VData d]> db) n' = if decide (n' = n) then Some d else ReadAssetData db n'.
Proof.
  unfold ReadAssetData; case_decide as E; [subst; now rewrite lookup_insert_eq|].
  now rewrite lookup_insert_ne by congruence.
Qed.
Lemma read_delete db n n' :
  ReadAssetData (delete (ASSET n) db) n' = if decide (n' = n) then None else ReadAssetData db n'.
Proof.
  unfold ReadAssetData; case_decide as E; [subst; now rewrite lookup_delete_eq|].
  now rewrite lookup_delete_ne by congruence.
Qed.

Lemma erase_data n : keeps data_ok [CacheErase n; DbErase (ASSET n)].
Proof.
  intros g [S N]; split; cbn.
  - apply erase_sound; eapply sound_weaken; [|exact S]; intros k d R; cbn; rewrite read_delete; case_decide; auto.
  - intros k d; rewrite read_delete; case_decide; [discriminate|apply N].
Qed.
Lemma put_data n d : na_strName (dd_asset d) = n -> keeps data_ok [CachePut n d; DbWrite (ASSET n) (VData d)].
Proof.
  intros E g [S N]; split; cbn.
  - apply put_sound; [now rewrite read_insert, decide_True|].
    eapply sound_weaken; [|exact S]; intros k x R; cbn; rewrite read_insert; case_decide; auto.
  - intros k x; rewrite read_insert; case_decide; [now intros [= <-]; subst|apply N].
Qed.
Lemma write_data n d : na_strName (dd_asset d) = n -> keeps data_ok [DbWrite (ASSET n) (VData d); CacheErase n].
Proof.
  intros E g [S N]; split; cbn.
  - apply erase_sound; eapply sound_weaken; [|exact S]; intros k x R; cbn; rewrite read_insert; case_decide; auto.
  - intros k x; rewrite read_insert; case_decide; [now intros [= <-]; subst|apply N].
Qed.

(** Actions foreign to the data may come between the write and the erasure. *)
Lemma write_data_split n d mid : na_strName (dd_asset d) = n -> forallb (foreign 0) mid = true ->
  keeps data_ok ([DbWrite (ASSET n) (VData d)] ++ mid ++ [CacheErase n]).
Proof.
  intros E F g O; rewrite !perform_all_app.
  pose proof (foreign_all 0 mid (perform_all [DbWrite (ASSET n) (VData d)] g) F) as (D & C & _).
  refine (data_ok_same _ _ _ (write_data n d E g O)); split_and!; cbn; try discriminate.
  - exact D.
  - intros _; f_equal; exact (C eq_refl).
Qed.

Lemma data_after c db : pending_ok usable c db -> keeps data_ok (dump_actions fAssetIndex Hash c).
Proof.
  intros P; destruct (parts_foreign c) as (_ & _ & F3 & F4 & F5 & F6 & F7).
  pose proof (fun l => foreign_keeps 0 data_ok l data_ok_same) as FK.
  unfold dump_actions; keeps_parts; try (apply FK; first [apply F3|apply F4|apply F5|apply F6|apply F7]; left).
  - apply keeps_for_each; intros n e _.
    change ([CacheErase n; DbErase (ASSET n); DbErase (VERIFIER n)] ++ ?x)
      with ([CacheErase n; DbErase (ASSET n)] ++ [DbErase (VERIFIER n)] ++ x).
    apply keeps_app; [apply erase_data|]; apply FK; unfold if_index; destruct fAssetIndex; reflexivity.
  - apply keeps_for_each; intros n e M; apply keeps_app; [apply put_data; exact (po_new _ _ _ P _ _ M)|].
    apply FK; unfold if_index; destruct fAssetIndex; reflexivity.
  - apply keeps_for_each; intros out e _; cbv zeta; destruct (mapReissuedAssetData c !! _) as [a|] eqn:M; [|apply keeps_nil].
    pose proof (po_reissued _ _ _ P _ _ M) as N; rewrite N; apply keeps_app; [apply write_data; exact N|].
    apply FK; unfold if_index; destruct fAssetIndex; [|reflexivity]; now apply quantity_foreign.
  - apply keeps_for_each; intros out e _; cbv zeta; case_bool_decide; [apply keeps_nil|].
    destruct (mapReissuedAssetData c !! _) as [a|] eqn:M; [|apply keeps_nil].
    pose proof (po_reissued _ _ _ P _ _ M) as N; rewrite N; apply write_data_split; [exact N|].
    unfold if_index; destruct fAssetIndex; [|reflexivity]; now apply quantity_foreign.
Qed.

(** ** Flags *)

Definition restrictions_ok g : Prop :=
  lru_sound (fun h _ => forall k, usable k -> cache_key Hash k = h ->
    ReadFlag (passetsdb g) (RESTRICTED_ADDRESS (snd k) (fst k)) = true) (passetsRestrictionCache g).
Definition qualifiers_ok g : Prop :=
  lru_sound (fun h _ => forall k, usable k -> cache_key Hash k = h ->
    ReadFlag (passetsdb g) (ADDRESS_QUALIFIER (snd k) (fst k)) = true) (passetsQualifierCache g).
Definition globals_ok g : Prop :=
  lru_sound (fun n _ => ReadFlag (passetsdb g) (GLOBAL_RESTRICTION n) = true) (passetsGlobalRestrictionCache g).

Lemma flags_same g g' :
  (same_part 4 g g' -> restrictions_ok g -> restrictions_ok g') /\
  (same_part 3 g g' -> qualifiers_ok g -> qualifiers_ok g') /\
  (same_part 5 g g' -> globals_ok g -> globals_ok g').
Proof.
  unfold restrictions_ok, qualifiers_ok, globals_ok, ReadFlag; split_and!; intros (D & _ & _ & C3 & C4 & C5) S.
  - rewrite (C4 eq_refl); eapply sound_weaken; [|exact S]; intros h v F k U E; rewrite D by reflexivity; auto.
  - rewrite (C3 eq_refl); eapply sound_weaken; [|exact S]; intros h v F k U E; rewrite D by reflexivity; auto.
  - rewrite (C5 eq_refl); eapply sound_weaken; [|exact S]; intros n v F; now rewrite D.
Qed.

Lemma flag_insert db k k' : ReadFlag (<[k := VFlag]> db) k' = if decide (k' = k) then true else ReadFlag db k'.
Proof.
  unfold ReadFlag; case_decide as E; [subst; now rewrite lookup_insert_eq|]; now rewrite lookup_insert_ne by congruence.
Qed.
Lemma flag_delete db k k' : ReadFlag (delete k db) k' = if decide (k' = k) then false else ReadFlag db k'.
Proof.
  unfold ReadFlag; case_decide as E; [subst; now rewrite lookup_delete_eq|]; now rewrite lookup_delete_ne by congruence.
Qed.

(** Setting a flag after caching it, and clearing it after dropping it. *)
Lemma put_flag (key : name_address -> db_key) (h : CLRUCache bytes Z) db k : usable k ->
  lru_sound (fun x _ => forall i, usable i -> cache_key Hash i = x -> ReadFlag db (key i) = true) h ->
  lru_sound (fun x _ => forall i, usable i -> cache_key Hash i = x -> ReadFlag (<[key k := VFlag]> db) (key i) = true)
    (LruCache.Put (cache_key Hash k) 1 h).
Proof.
  intros U S; apply put_sound.
  - intros i Ui E; rewrite (cache_key_inj i k Ui U E), flag_insert; now rewrite decide_True.
  - eapply sound_weaken; [|exact S]; intros x v F; right; intros i Ui E; rewrite flag_insert; case_decide; auto.
Qed.
Lemma drop_flag (key : name_address -> db_key) (h : CLRUCache bytes Z) db k :
  (forall i j, key i = key j -> i = j) ->
  lru_sound (fun x _ => forall i, usable i -> cache_key Hash i = x -> ReadFlag db (key i) = true) h ->
  lru_sound (fun x _ => forall i, usable i -> cache_key Hash i = x -> ReadFlag (delete (key k) db) (key i) = true)
    (LruCache.Erase (cache_key Hash k) h).
Proof.
  intros J S; apply erase_sound; eapply sound_weaken; [|exact S]; intros x v F; cbn.
  destruct (decide (x = cache_key Hash k)) as [->|NE]; [now left|right]; intros i Ui E; rewrite flag_delete.
  case_decide as D; [apply J in D; subst; now destruct NE|auto].
Qed.

Lemma restricted_inj i j : RESTRICTED_ADDRESS (snd i) (fst i) = RESTRICTED_ADDRESS (snd j) (fst j) -> i = j.
Proof. destruct i, j; cbn; congruence. Qed.
Lemma qualifier_inj i j : ADDRESS_QUALIFIER (snd i) (fst i) = ADDRESS_QUALIFIER (snd j) (fst j) -> i = j.
Proof. destruct i, j; cbn; congruence. Qed.

Lemma freeze_keeps k : usable k -> keeps restrictions_ok (freeze_address Hash k) /\ keeps restrictions_ok (unfreeze_address Hash k).
Proof.
  intros U; split; intros g S; cbn.
  - exact (put_flag (fun i => RESTRICTED_ADDRESS (snd i) (fst i)) _ _ k U S).
  - exact (drop_flag (fun i => RESTRICTED_ADDRESS (snd i) (fst i)) _ _ k restricted_inj S).
Qed.

Lemma qualifier_keeps k : usable k ->
  keeps qualifiers_ok (give_qualifier fAssetIndex Hash k) /\ keeps qualifiers_ok (take_qualifier fAssetIndex Hash k).
Proof.
  assert (forall g g', (forall n a, passetsdb g' !! ADDRESS_QUALIFIER n a = passetsdb g !! ADDRESS_QUALIFIER n a) ->
    passetsQualifierCache g' = passetsQualifierCache g -> qualifiers_ok g -> qualifiers_ok g') as IDX.
  { intros g g' D C S; unfold qualifiers_ok, ReadFlag in *; rewrite C; eapply sound_weaken; [|exact S].
    intros h v F i Ui E; rewrite D; auto. }
  intros U; split; intros g S; unfold give_qualifier, take_qualifier; rewrite perform_all_app.
  - assert (qualifiers_ok (perform_all [QualifierPut (cache_key Hash k); DbWrite (ADDRESS_QUALIFIER (snd k) (fst k)) VFlag] g)) as Q
      by exact (put_flag (fun i => ADDRESS_QUALIFIER (snd i) (fst i)) _ _ k U S).
    unfold if_index; destruct fAssetIndex; [|exact Q].
    refine (IDX _ _ _ _ Q); [|reflexivity]; intros n a; cbn; now rewrite lookup_insert_ne.
  - assert (qualifiers_ok (perform_all [QualifierErase (cache_key Hash k); DbErase (ADDRESS_QUALIFIER (snd k) (fst k))] g)) as Q
      by exact (drop_flag (fun i => ADDRESS_QUALIFIER (snd i) (fst i)) _ _ k qualifier_inj S).
    unfold if_index; destruct fAssetIndex; [|exact Q].
    refine (IDX _ _ _ _ Q); [|reflexivity]; intros n a; cbn; now rewrite lookup_delete_ne.
Qed.

Lemma global_keeps n : keeps globals_ok (freeze_global n) /\ keeps globals_ok (unfreeze_global n).
Proof.
  split; intros g S; unfold globals_ok; cbn.
  - apply put_sound; [now rewrite flag_insert, decide_True|].
    eapply sound_weaken; [|exact S]; intros x v F; right; rewrite flag_insert; case_decide; auto.
  - apply erase_sound; eapply sound_weaken; [|exact S]; intros x v F; cbn in F |- *; rewrite flag_delete.
    destruct (decide (x = n)) as [->|NE]; [now left|right]; now rewrite decide_False by congruence.
Qed.

Lemma flags_after c db : pending_ok usable c db ->
  keeps restrictions_ok (dump_actions fAssetIndex Hash c) /\ keeps qualifiers_ok (dump_actions fAssetIndex Hash c) /\
  keeps globals_ok (dump_actions fAssetIndex Hash c).
Proof.
  intros P; destruct (parts_foreign c) as (F1 & F2 & F3 & F4 & F5 & F6 & F7).
  pose proof (fun l => foreign_keeps 4 restrictions_ok l (fun g g' => proj1 (flags_same g g'))) as FR.
  pose proof (fun l => foreign_keeps 3 qualifiers_ok l (fun g g' => proj1 (proj2 (flags_same g g')))) as FQ.
  pose proof (fun l => foreign_keeps 5 globals_ok l (fun g g' => proj2 (proj2 (flags_same g g')))) as FG.
  unfold dump_actions; split_and!; keeps_parts;
    try (first [apply FR|apply FQ|apply FG]; first [apply F1|apply F2|apply F3|apply F4|apply F5|apply F6|apply F7];
      solve [repeat first [apply list_elem_of_here|apply list_elem_of_further]]).
  all: unfold dump_restricted, dump_qualifiers, dump_globals; try apply keeps_app;
    apply keeps_for_each; intros k t M; destruct t; try apply keeps_nil.
  all: first [apply freeze_keeps|apply qualifier_keeps|apply global_keeps];
    first [solve [eapply (po_restricted _ _ _ P); eauto]|solve [eapply (po_qualifier _ _ _ P); eauto]].
Qed.

(** ** Verifier strings *)

(** The cached strings agree with the database except for some names. *)
Definition verifiers_except (E : bytes -> Prop) g : Prop :=
  lru_sound (fun n v => E n \/ ReadVerifier (passetsdb g) n = Some v) (passetsVerifierCache g).

Lemma verifiers_weaken (E E' : bytes -> Prop) g : (forall n, E n -> E' n) -> verifiers_except E g -> verifiers_except E' g.
Proof. intros W; apply sound_weaken; intros n v []; auto. Qed.

Lemma read_verifier_same g g' n : same_part 2 g g' -> ReadVerifier (passetsdb g') n = ReadVerifier (passetsdb g) n.
Proof. intros (D & _); unfold ReadVerifier; now rewrite D. Qed.

Lemma verifiers_same E g g' : same_part 2 g g' -> verifiers_except E g -> verifiers_except E g'.
Proof.
  intros S V; pose proof (fun n => read_verifier_same g g' n S) as R; destruct S as (_ & _ & C & _).
  unfold verifiers_except in *; rewrite (C eq_refl); eapply sound_weaken; [|exact V]; intros n v; cbn; now rewrite R.
Qed.

Section Removed.
Variable c : CAssetsCache.
Definition is_removed (n : bytes) : Prop := is_Some (ToRemove (setNewAssets c) !! n).
Definition has_verifier (n : bytes) : Prop :=
  is_Some (ToAdd (setNewRestrictedVerifier c) !! n) \/ is_Some (ToRemove (setNewRestrictedVerifier c) !! n).

Definition removing g : Prop :=
  verifiers_except (fun n => has_verifier n) g /\
  forall n, is_removed n -> ~ has_verifier n -> ReadVerifier (passetsdb g) n = None.

Lemma removing_same g g' : same_part 2 g g' -> removing g -> removing g'.
Proof.
  intros S [V N]; split; [exact (verifiers_same _ _ _ S V)|]; intros n R P; rewrite (read_verifier_same _ _ _ S); auto.
Qed.

Lemma read_verifier_delete db n n' :
  ReadVerifier (delete (VERIFIER n) db) n' = if decide (n' = n) then None else ReadVerifier db n'.
Proof.
  unfold ReadVerifier; case_decide as E; [subst; now rewrite lookup_delete_eq|].
  now rewrite lookup_delete_ne by congruence.
Qed.
Lemma read_verifier_insert db n n' v :
  ReadVerifier (<[VERIFIER n := VString v]> db) n' = if decide (n' = n) then Some v else ReadVerifier db n'.
Proof.
  unfold ReadVerifier; case_decide as E; [subst; now rewrite lookup_insert_eq|].
  now rewrite lookup_insert_ne by congruence.
Qed.

Lemma has_verifier_dec n : {has_verifier n} + {~ has_verifier n}.
Proof.
  unfold has_verifier; destruct (ToAdd (setNewRestrictedVerifier c) !! n), (ToRemove (setNewRestrictedVerifier c) !! n).
  all: try (left; eauto; fail); right; intros [[? [=]]|[? [=]]].
Qed.

Lemma removed_keeps : keeps removing (dump_removed_assets fAssetIndex c).
Proof.
  apply keeps_for_each; intros n e M.
  change ([CacheErase n; DbErase (ASSET n); DbErase (VERIFIER n)] ++ ?x)
    with ([CacheErase n; DbErase (ASSET n)] ++ [DbErase (VERIFIER n)] ++ x).
  pose proof (fun l => foreign_keeps 2 removing l removing_same) as FK.
  apply keeps_app; [apply FK; reflexivity|]; apply keeps_app;
    [|apply FK; unfold if_index; destruct fAssetIndex; reflexivity].
  intros g [V N]; split.
  - eapply sound_weaken; [|exact V]; intros k v [P|R]; [now left|]; cbn; rewrite read_verifier_delete.
    case_decide as D; [subst k|now right]; destruct (has_verifier_dec n) as [P|P]; [now left|].
    rewrite N in R; [discriminate|unfold is_removed; rewrite M; eauto|exact P].
  - intros k R P; cbn; rewrite read_verifier_delete; case_decide; auto.
Qed.

Lemma verifier_block (E : bytes -> Prop) n w g : (w = DbErase (VERIFIER n) \/ exists v, w = DbWrite (VERIFIER n) (VString v)) ->
  verifiers_except E g -> verifiers_except (fun k => E k /\ k <> n) (perform_all [w; VerifierErase n] g).
Proof.
  intros W V; unfold verifiers_except in *.
  assert (passetsVerifierCache (perform_all [w; VerifierErase n] g) = LruCache.Erase n (passetsVerifierCache g)) as ->
    by (destruct W as [->|[v ->]]; reflexivity).
  apply erase_sound; eapply sound_weaken; [|exact V]; intros k x O; cbn.
  destruct (decide (k = n)) as [->|NE]; [now left|right]; destruct O as [O|O]; [now left|right].
  destruct W as [->|[v ->]]; cbn; rewrite ?read_verifier_delete, ?read_verifier_insert; now rewrite decide_False.
Qed.

Lemma verifier_loop {V : Type} (f : bytes -> V -> list action) (l : list (bytes * V)) :
  (forall n e, exists w, f n e = [w; VerifierErase n] /\
    (w = DbErase (VERIFIER n) \/ exists v, w = DbWrite (VERIFIER n) (VString v))) ->
  forall (E : bytes -> Prop) g, verifiers_except E g ->
  verifiers_except (fun k => E k /\ k ∉ l.*1) (perform_all (flat_map (fun e => f e.1 e.2) l) g).
Proof.
  intros F; induction l as [|[n e] l IH]; intros E g O; cbn [flat_map].
  - eapply verifiers_weaken; [|exact O]; intros k Ek; split; [exact Ek|]; apply not_elem_of_nil.
  - rewrite perform_all_app; destruct (F n e) as (w & Ew & W); cbn [fst snd]; rewrite Ew.
    pose proof (IH _ _ (verifier_block E n w g W O)) as R; eapply verifiers_weaken; [|exact R].
    intros k [[Ek NE] N]; split; [exact Ek|]; rewrite fmap_cons, not_elem_of_cons; auto.
Qed.

Lemma verifier_for_each {V : Type} (f : bytes -> V -> list action) (m : gmap bytes V) (E : bytes -> Prop) g :
  (forall n e, exists w, f n e = [w; VerifierErase n] /\
    (w = DbErase (VERIFIER n) \/ exists v, w = DbWrite (VERIFIER n) (VString v))) ->
  verifiers_except E g -> verifiers_except (fun k => E k /\ m !! k = None) (perform_all (for_each m f) g).
Proof.
  intros F O; eapply verifiers_weaken; [|exact (verifier_loop f (in_order m) F E g O)].
  intros k [Ek N]; split; [exact Ek|]; destruct (m !! k) as [x|] eqn:M; [|reflexivity]; exfalso; apply N.
  apply list_elem_of_fmap; exists (k, x); split; [reflexivity|now apply in_order_elem].
Qed.

Lemma verifiers_after db : pending_ok usable c db -> forall g, passetsdb g = db ->
  verifiers_except (fun _ => False) g -> verifiers_except (fun _ => False) (perform_all (dump_actions fAssetIndex Hash c) g).
Proof.
  intros P g DB V; destruct (parts_foreign c) as (_ & F2 & F3 & _ & F5 & F6 & F7).
  pose proof (fun E l => foreign_keeps 2 (verifiers_except E) l (verifiers_same E)) as FK.
  unfold dump_actions; rewrite !perform_all_app.
  repeat (apply FK; [first [apply F3|apply F5|apply F6|apply F7]; solve [repeat first [apply list_elem_of_here|apply list_elem_of_further]]|]).
  assert (verifiers_except has_verifier (perform_all (dump_undone_reissues fAssetIndex c)
    (perform_all (dump_reissues fAssetIndex c) (perform_all (dump_owners_and_transfers fAssetIndex c)
      (perform_all (dump_new_assets fAssetIndex c) (perform_all (dump_removed_assets fAssetIndex c) g)))))) as V1.
  { repeat (apply FK; [first [apply F2|apply F3]; solve [repeat first [apply list_elem_of_here|apply list_elem_of_further]]|]).
    apply removed_keeps; split; [eapply verifiers_weaken; [|exact V]; contradiction|].
    intros n R N; rewrite DB; destruct (po_verifier _ _ _ P n R) as [E|E]; [exact E|now destruct N]. }
  unfold dump_verifiers; rewrite perform_all_app.
  eapply verifiers_weaken; [|apply verifier_for_each; [|apply verifier_for_each; [|exact V1]]].
  - intros n [[[[x X]|[x X]] NA] NR]; congruence.
  - intros n e; destruct (cv_fUndoingRessiue e); eauto 6.
  - intros n e; eauto 6.
Qed.
End Removed.

(** C38: A successful write of the asset state to the databases empties the
    changes in memory.  Every asset exists or not as before, and its amount,
    units and other data are as the node answered before, from the data of its
    last reissue, its issue or the database; only an asset whose issue was
    undone has no data any more, also where that of an undone reissue was still
    there.  Every verifier string, frozen address and global freeze is as
    before, and the caches of recently used entries agree with the databases
    again. *)
Theorem Dump_correct g : state_ok Hash usable g -> pending_ok usable (passets g) (passetsdb g) ->
  let '(ok, g') := DumpCacheToDatabase fAssetIndex Hash None g in
  ok = true /\ passets g' = empty_assets /\ state_ok Hash usable g' /\
  (forall n, asset_exists (passets g') (passetsdb g') n = asset_exists (passets g) (passetsdb g) n) /\
  (forall n, asset_data (passets g') (passetsdb g') n =
     match ToRemove (setNewAssets (passets g)) !! n with Some _ => None | None => asset_data (passets g) (passetsdb g) n end) /\
  (forall n, verifier_of (passets g') (passetsdb g') n = verifier_of (passets g) (passetsdb g) n) /\
  (forall k, frozen (passets g') (passetsdb g') k = frozen (passets g) (passetsdb g) k) /\
  (forall n, global_frozen (passets g') (passetsdb g') n = global_frozen (passets g) (passetsdb g) n).
Proof.
  intros O P; cbn [DumpCacheToDatabase]; split_and!; try reflexivity.
  - destruct O as [N C V Q R G]; pose proof (data_after _ _ P g (conj C N)) as [C' N'].
    destruct (flags_after _ _ P) as (FR & FQ & FG).
    assert (verifiers_except (fun _ => False) g) as V0 by (eapply sound_weaken; [|exact V]; intros n v E; now right).
    pose proof (verifiers_after _ _ P g eq_refl V0) as V'.
    split; [exact N'|exact C'| |exact (FQ g Q)|exact (FR g R)|exact (FG g G)].
    eapply sound_weaken; [|exact V']; intros n v [[]|E]; exact E.
  - intros n; exact (exists_after fAssetIndex Hash usable g n P).
  - intros n; exact (data_kept fAssetIndex Hash usable g n P).
  - intros n; exact (verifier_after fAssetIndex Hash usable g n P).
  - intros k; exact (frozen_after fAssetIndex Hash usable g k P).
  - intros n; exact (global_after fAssetIndex Hash usable g n P).
Qed.
End Coherence.

(** * Examples *)

#[global] Instance map_order : SetOrder.
Proof. refine {| in_order := fun K V E C m => map_to_list m |}; reflexivity. Defined.

(** The example state with a freeze undone, a global freeze, a verifier string
    and an asset that was issued and reissued, none of them written yet. *)
Definition example_reissued : CNewAsset :=
  mkNewAsset example_name (na_nAmount example_asset + 50) (na_units example_asset) 1 0 [].
Definition example_reissue : CAssetCacheReissueAsset :=
  mkCacheReissue (mkReissue example_name 50 (-1) 1 []) example_address (mkOutPoint (repeat 1 32) 2) 8 (repeat 1 32).
Definition example_changes : CAssetsCache :=
  mkAssets ∅ {[example_name := example_reissued]} [] []
    (mkPending {[example_name := mkCacheNew example_asset example_address 7 (repeat 1 32)]} ∅)
    (mkPending {[mkOutPoint (repeat 1 32) 2 := example_reissue]} ∅) no_pending no_pending no_pending
    (mkPending ∅ {[(example_name, example_address) := FREEZE_ADDRESS]})
    (mkPending {[example_name := GLOBAL_FREEZE]} ∅)
    (mkPending {[example_name := mkCacheVerifier (str "TAG"%string) false]} ∅) ∅ ∅.
Definition example_dirty : assets_state := with_passets (fun _ => example_changes) example_state.

Lemma example_pending_ok : pending_ok example_usable (passets example_dirty) (passetsdb example_dirty).
Proof.
  split; cbn [example_dirty with_passets passets example_changes setNewAssets mapReissuedAssetData setNewReissue
    setNewRestrictedAddress setNewRestrictedGlobal setNewQualifierAddress no_pending ToAdd ToRemove];
    intros *; rewrite ?lookup_empty.
  - intros [? [=]].
  - now intros [<- <-]%lookup_singleton_Some.
  - now intros [<- <-]%lookup_singleton_Some.
  - intros [_ <-]%lookup_singleton_Some _; vm_compute; reflexivity.
  - discriminate.
  - intros [a [<- _]%lookup_singleton_Some]; exists (mkOutPoint (repeat 1 32) 2), example_reissue; split; [reflexivity|left].
    apply lookup_singleton_eq.
  - intros [? [=]].
  - intros [[=]|[<- <-]%lookup_singleton_Some]; split; [reflexivity|now left].
  - intros [[<- <-]%lookup_singleton_Some|[=]]; now left.
  - intros [[=]|[=]].
Qed.

Lemma Dump_correct_witness :
  let '(ok, g') := DumpCacheToDatabase true (fun b => b) None example_dirty in
  ok = true /\ na_nAmount <$> asset_data empty_assets (passetsdb g') example_name = Some (na_nAmount example_asset + 50) /\
  frozen empty_assets (passetsdb g') (example_name, example_address) = false /\
  global_frozen empty_assets (passetsdb g') example_name = true.
Proof.
  assert (state_ok (fun b => b) example_usable example_dirty) as O by (destruct example_state_ok; split; assumption).
  destruct (Dump_correct true (fun b => b) example_usable example_keys example_dirty O example_pending_ok)
    as (OK & E & _ & _ & D & _ & F & G).
  split; [exact OK|]; rewrite E in D, F, G; split; [|split].
  - rewrite D; reflexivity.
  - rewrite F; unfold frozen, layer; cbn [example_dirty with_passets passets example_changes setNewRestrictedAddress ToRemove].
    now rewrite lookup_singleton_eq.
  - rewrite G; unfold global_frozen, layer; cbn [example_dirty with_passets passets example_changes setNewRestrictedGlobal ToRemove ToAdd].
    now rewrite lookup_empty, lookup_singleton_eq.
Defined.

(** ** An asset issued again after its reissue and its issue were undone *)

Definition base_name : bytes := str "HEMP"%string.
Definition first_issue : CNewAsset := mkNewAsset base_name 150 0 1 0 [].
Definition second_issue : CNewAsset := mkNewAsset base_name 7 0 1 0 [].
Definition its_reissue : CReissueAsset := mkReissue base_name 50 (-1) 1 [].
Definition reissue_out : COutPoint := mkOutPoint (repeat 1 32) 2.
Definition other_address : bytes := str "HBddress"%string.

(** The databases hold the asset with 100 units issued and 50 reissued. *)
Definition issued_state : assets_state :=
  mkState empty_assets (lru_new 10) (lru_new 10) (lru_new 10) (lru_new 10) (lru_new 10)
    {[ASSET base_name := VData (mkDatabased first_issue 5 (repeat 2 32));
      ASSET_ADDRESS_QUANTITY base_name example_address := VAmount 150;
      ADDRESS_ASSET_QUANTITY example_address base_name := VAmount 150]}.

(** Disconnect the reissue, disconnect the issue, connect a block that issues
    the name anew, 7 units to another address, and write the databases. *)
Definition reorganised (indeterminate : Z) : assets_state :=
  let '(_, c1, g) := RemoveReissueAsset true indeterminate its_reissue example_address reissue_out [] issued_state empty_assets in
  let g := Flush c1 g in
  let '(_, c2, g) := RemoveNewAsset true false (mkNewAsset base_name 100 0 1 0 []) example_address g empty_assets in
  let g := Flush c2 g in
  let '(_, c3, g) := AddNewAsset true false second_issue other_address 6 (repeat 3 32) g empty_assets in
  let g := Flush c3 g in
  snd (DumpCacheToDatabase true (fun b => b) None g).

(** The data of the undone issue replaces that of the new one. *)
Lemma undone_issue_returns (indeterminate : Z) :
  (fun d => na_nAmount (dd_asset d)) <$> ReadAssetData (passetsdb (reorganised indeterminate)) base_name = Some 100.
Proof. vm_compute; reflexivity. Qed.

(** Without the reissue: the first address keeps its balance in the index
    although the asset was issued anew to another one. *)
Definition issued_elsewhere : assets_state :=
  let '(_, c1, g) := RemoveNewAsset true false first_issue example_address issued_state empty_assets in
  let '(_, c2, g) := AddNewAsset true false second_issue other_address 6 (repeat 3 32) (Flush c1 g) empty_assets in
  snd (DumpCacheToDatabase true (fun b => b) None (Flush c2 g)).

Lemma stale_balance :
  balance empty_assets issued_elsewhere (base_name, example_address) = 150 /\
  balance empty_assets issued_elsewhere (base_name, other_address) = 7.
Proof. split; vm_compute; reflexivity. Qed.

(** ** A second reissue before the first is written *)

(** Two blocks reissue the asset, the second is disconnected: the height
    written for the asset is what an uninitialised variable held. *)
Definition reissued_twice (indeterminate : Z) : assets_state :=
  let '(_, c1, g) := AddReissueAsset true indeterminate its_reissue example_address reissue_out issued_state empty_assets in
  let g := Flush c1 g in
  let out := mkOutPoint (repeat 4 32) 2 in
  let '(_, c2, g) := AddReissueAsset true indeterminate its_reissue example_address out g empty_assets in
  let g := Flush c2 g in
  let '(_, c3, g) := RemoveReissueAsset true indeterminate its_reissue example_address out [] g empty_assets in
  snd (DumpCacheToDatabase true (fun b => b) None (Flush c3 g)).

Lemma indeterminate_height (indeterminate : Z) :
  (fun d => (na_nAmount (dd_asset d), dd_nHeight d)) <$>
    ReadAssetData (passetsdb (reissued_twice indeterminate)) base_name = Some (200, indeterminate).
Proof. vm_compute; reflexivity. Qed.
