(* ===== verification/Interpreter.v ===== *)
(** The script interpreter (src/script/interpreter.cpp, interpreter.h and
    script_error.h): the checks of signature and key encodings and
    [EvalScript], the stack machine that runs one script.

    A stack is a list whose head is the top element ([stacktop(-1)]), and
    [vfExec] likewise; an iterator is the list of bytes from it on, as in
    [Script].  [set_error] followed by [return false] is [Err]; an exception
    thrown while a script number is read is caught by [EvalScript], which
    reports [SCRIPT_ERR_UNKNOWN_ERROR].  The hash functions are the fields of
    the class [HashFunctions], the low-S check of the curve library
    ([CPubKey::CheckLowS]) is a parameter, and the virtual methods of
    [BaseSignatureChecker] are the class of that name. *)

From Stdlib Require Import ZArith List Bool Lia Arith.
From S2P Require Import Prelude Serialize Script Standard Transaction.
Import ListNotations.
Open Scope Z_scope.

Definition valtype := bytes.

(** * Errors, flags and interfaces *)

Inductive ScriptError :=
| SCRIPT_ERR_UNKNOWN_ERROR | SCRIPT_ERR_EVAL_FALSE | SCRIPT_ERR_OP_RETURN
| SCRIPT_ERR_SCRIPT_SIZE | SCRIPT_ERR_PUSH_SIZE | SCRIPT_ERR_OP_COUNT
| SCRIPT_ERR_STACK_SIZE | SCRIPT_ERR_SIG_COUNT | SCRIPT_ERR_PUBKEY_COUNT
| SCRIPT_ERR_VERIFY | SCRIPT_ERR_EQUALVERIFY | SCRIPT_ERR_CHECKMULTISIGVERIFY
| SCRIPT_ERR_CHECKSIGVERIFY | SCRIPT_ERR_NUMEQUALVERIFY
| SCRIPT_ERR_BAD_OPCODE | SCRIPT_ERR_DISABLED_OPCODE
| SCRIPT_ERR_INVALID_STACK_OPERATION | SCRIPT_ERR_INVALID_ALTSTACK_OPERATION
| SCRIPT_ERR_UNBALANCED_CONDITIONAL
| SCRIPT_ERR_NEGATIVE_LOCKTIME | SCRIPT_ERR_UNSATISFIED_LOCKTIME
| SCRIPT_ERR_SIG_HASHTYPE | SCRIPT_ERR_SIG_DER | SCRIPT_ERR_MINIMALDATA
| SCRIPT_ERR_SIG_PUSHONLY | SCRIPT_ERR_SIG_HIGH_S | SCRIPT_ERR_SIG_NULLDUMMY
| SCRIPT_ERR_PUBKEYTYPE | SCRIPT_ERR_CLEANSTACK | SCRIPT_ERR_MINIMALIF
| SCRIPT_ERR_SIG_NULLFAIL
| SCRIPT_ERR_DISCOURAGE_UPGRADABLE_NOPS
| SCRIPT_ERR_DISCOURAGE_UPGRADABLE_WITNESS_PROGRAM
| SCRIPT_ERR_WITNESS_PROGRAM_WRONG_LENGTH
| SCRIPT_ERR_WITNESS_PROGRAM_WITNESS_EMPTY
| SCRIPT_ERR_WITNESS_PROGRAM_MISMATCH | SCRIPT_ERR_WITNESS_MALLEATED
| SCRIPT_ERR_WITNESS_MALLEATED_P2SH | SCRIPT_ERR_WITNESS_UNEXPECTED
| SCRIPT_ERR_WITNESS_PUBKEYTYPE.

Definition SIGHASH_ALL : Z := 1.
Definition SIGHASH_NONE : Z := 2.
Definition SIGHASH_SINGLE : Z := 3.
Definition SIGHASH_ANYONECANPAY : Z := 0x80.

Definition SCRIPT_VERIFY_NONE : Z := 0.
Definition SCRIPT_VERIFY_P2SH : Z := 2 ^ 0.
Definition SCRIPT_VERIFY_STRICTENC : Z := 2 ^ 1.
Definition SCRIPT_VERIFY_DERSIG : Z := 2 ^ 2.
Definition SCRIPT_VERIFY_LOW_S : Z := 2 ^ 3.
Definition SCRIPT_VERIFY_NULLDUMMY : Z := 2 ^ 4.
Definition SCRIPT_VERIFY_SIGPUSHONLY : Z := 2 ^ 5.
Definition SCRIPT_VERIFY_MINIMALDATA : Z := 2 ^ 6.
Definition SCRIPT_VERIFY_DISCOURAGE_UPGRADABLE_NOPS : Z := 2 ^ 7.
Definition SCRIPT_VERIFY_CLEANSTACK : Z := 2 ^ 8.
Definition SCRIPT_VERIFY_CHECKLOCKTIMEVERIFY : Z := 2 ^ 9.
Definition SCRIPT_VERIFY_CHECKSEQUENCEVERIFY : Z := 2 ^ 10.
Definition SCRIPT_VERIFY_WITNESS : Z := 2 ^ 11.
Definition SCRIPT_VERIFY_DISCOURAGE_UPGRADABLE_WITNESS_PROGRAM : Z := 2 ^ 12.
Definition SCRIPT_VERIFY_MINIMALIF : Z := 2 ^ 13.
Definition SCRIPT_VERIFY_NULLFAIL : Z := 2 ^ 14.
Definition SCRIPT_VERIFY_WITNESS_PUBKEYTYPE : Z := 2 ^ 15.

(** [(flags & m) != 0] *)
Definition flag (flags m : Z) : bool := negb (Z.land flags m =? 0).

Inductive SigVersion := SIGVERSION_BASE | SIGVERSION_WITNESS_V0.

Definition is_witness_v0 (v : SigVersion) : bool :=
  match v with SIGVERSION_WITNESS_V0 => true | SIGVERSION_BASE => false end.

(** The virtual methods of a signature checker. *)
Class BaseSignatureChecker (Checker : Type) := {
  CheckSig : Checker -> valtype -> valtype -> CScript -> SigVersion -> bool;
  CheckLockTime : Checker -> Z -> bool;
  CheckSequence : Checker -> Z -> bool
}.

(** The base class itself, whose methods all return false. *)
Inductive base_checker := BaseChecker.

#[export] Instance base_checker_methods : BaseSignatureChecker base_checker := {
  CheckSig _ _ _ _ _ := false;
  CheckLockTime _ _ := false;
  CheckSequence _ _ := false
}.

(** The hash functions the interpreter calls, and the sizes of their results. *)
Class HashFunctions := {
  CRIPEMD160 : bytes -> bytes;
  CSHA1 : bytes -> bytes;
  CSHA256 : bytes -> bytes
}.

Definition CHash160 `{HashFunctions} (v : bytes) : bytes := CRIPEMD160 (CSHA256 v).
Definition CHash256 `{HashFunctions} (v : bytes) : bytes := CSHA256 (CSHA256 v).

Class HashSizes `{HashFunctions} := {
  ripemd160_blob : forall v, is_blob 20 (CRIPEMD160 v);
  sha1_blob : forall v, is_blob 20 (CSHA1 v);
  sha256_blob : forall v, is_blob 32 (CSHA256 v)
}.

(** * Encodings *)

Fixpoint CastToBool (vch : valtype) : bool :=
  match vch with
  | [] => false
  | b :: vch' =>
      if b =? 0 then CastToBool vch'
      else negb (match vch' with [] => b =? 0x80 | _ => false end)
  end.

Definition size (v : bytes) : Z := Z.of_nat (length v).
Definition at_ (v : bytes) (i : Z) : Z := get v (Z.to_nat i).

Definition IsCompressedOrUncompressedPubKey (vchPubKey : valtype) : bool :=
  if size vchPubKey <? 33 then false
  else if at_ vchPubKey 0 =? 0x04 then size vchPubKey =? 65
  else if (at_ vchPubKey 0 =? 0x02) || (at_ vchPubKey 0 =? 0x03) then size vchPubKey =? 33
  else false.

Definition IsCompressedPubKey (vchPubKey : valtype) : bool :=
  if negb (size vchPubKey =? 33) then false
  else if negb (at_ vchPubKey 0 =? 0x02) && negb (at_ vchPubKey 0 =? 0x03) then false
  else true.

Definition IsValidSignatureEncoding (sig : valtype) : bool :=
  if size sig <? 9 then false
  else if size sig >? 73 then false
  else if negb (at_ sig 0 =? 0x30) then false
  else if negb (at_ sig 1 =? size sig - 3) then false
  else
    let lenR := at_ sig 3 in
    if 5 + lenR >=? size sig then false
    else
      let lenS := at_ sig (5 + lenR) in
      if negb (lenR + lenS + 7 =? size sig) then false
      else if negb (at_ sig 2 =? 0x02) then false
      else if lenR =? 0 then false
      else if negb (Z.land (at_ sig 4) 0x80 =? 0) then false
      else if (lenR >? 1) && (at_ sig 4 =? 0x00) && (Z.land (at_ sig 5) 0x80 =? 0) then false
      else if negb (at_ sig (lenR + 4) =? 0x02) then false
      else if lenS =? 0 then false
      else if negb (Z.land (at_ sig (lenR + 6)) 0x80 =? 0) then false
      else if (lenS >? 1) && (at_ sig (lenR + 6) =? 0x00) &&
              (Z.land (at_ sig (lenR + 7)) 0x80 =? 0) then false
      else true.

Definition IsDefinedHashtypeSignature (vchSig : valtype) : bool :=
  if size vchSig =? 0 then false
  else
    let nHashType := w8 (Z.land (at_ vchSig (size vchSig - 1)) (Z.lnot SIGHASH_ANYONECANPAY)) in
    if (nHashType <? SIGHASH_ALL) || (nHashType >? SIGHASH_SINGLE) then false else true.

Definition CheckPubKeyEncoding (vchPubKey : valtype) (flags : Z) (sigversion : SigVersion)
  : result ScriptError unit :=
  if flag flags SCRIPT_VERIFY_STRICTENC && negb (IsCompressedOrUncompressedPubKey vchPubKey)
  then Err SCRIPT_ERR_PUBKEYTYPE
  else if flag flags SCRIPT_VERIFY_WITNESS_PUBKEYTYPE && is_witness_v0 sigversion &&
          negb (IsCompressedPubKey vchPubKey)
  then Err SCRIPT_ERR_WITNESS_PUBKEYTYPE
  else Ok tt.

Definition CheckMinimalPush (data : valtype) (opcode : Z) : bool :=
  if size data =? 0 then opcode =? OP_0
  else if (size data =? 1) && (at_ data 0 >=? 1) && (at_ data 0 <=? 16)
  then opcode =? OP_1 + (at_ data 0 - 1)
  else if (size data =? 1) && (at_ data 0 =? 0x81) then opcode =? OP_1NEGATE
  else if size data <=? 75 then opcode =? size data
  else if size data <=? 255 then opcode =? OP_PUSHDATA1
  else if size data <=? 65535 then opcode =? OP_PUSHDATA2
  else true.

Section SignatureEncoding.
Variable CheckLowS : bytes -> bool.

Definition IsLowDERSignature (vchSig : valtype) : result ScriptError unit :=
  if negb (IsValidSignatureEncoding vchSig) then Err SCRIPT_ERR_SIG_DER
  else if negb (CheckLowS (firstn (length vchSig - 1) vchSig)) then Err SCRIPT_ERR_SIG_HIGH_S
  else Ok tt.

Definition CheckSignatureEncoding (vchSig : valtype) (flags : Z) : result ScriptError unit :=
  if size vchSig =? 0 then Ok tt
  else if flag flags (Z.lor (Z.lor SCRIPT_VERIFY_DERSIG SCRIPT_VERIFY_LOW_S)
                            SCRIPT_VERIFY_STRICTENC) &&
          negb (IsValidSignatureEncoding vchSig)
  then Err SCRIPT_ERR_SIG_DER
  else
    let! _ := if flag flags SCRIPT_VERIFY_LOW_S then IsLowDERSignature vchSig else Ok tt in
    if flag flags SCRIPT_VERIFY_STRICTENC && negb (IsDefinedHashtypeSignature vchSig)
    then Err SCRIPT_ERR_SIG_HASHTYPE
    else Ok tt.

End SignatureEncoding.

(** * The stack machine *)

Definition vchFalse : valtype := [].
Definition vchTrue : valtype := [1].
Definition vch_bool (b : bool) : valtype := if b then vchTrue else vchFalse.
Definition num_bool (b : bool) : Z := if b then 1 else 0.

(** The local variables of [EvalScript] that change: [pbegincodehash] is the
    rest of the script from the most recent code separator on. *)
Record eval_state := mkEval {
  stack : list valtype;
  altstack : list valtype;
  vfExec : list bool;
  nOpCount : Z;
  pbegincodehash : bytes
}.

Definition set_stack (st : eval_state) (s : list valtype) : eval_state :=
  mkEval s (altstack st) (vfExec st) (nOpCount st) (pbegincodehash st).
Definition set_vfExec (st : eval_state) (v : list bool) : eval_state :=
  mkEval (stack st) (altstack st) v (nOpCount st) (pbegincodehash st).
Definition set_nOpCount (st : eval_state) (n : Z) : eval_state :=
  mkEval (stack st) (altstack st) (vfExec st) n (pbegincodehash st).
Definition push_stack (st : eval_state) (v : valtype) : eval_state := set_stack st (v :: stack st).

(** Opcodes that always fail, also in a branch that is not executed. *)
Definition is_disabled (op : opcodetype) : bool :=
  match op with
  | OP_CAT | OP_SUBSTR | OP_LEFT | OP_RIGHT | OP_INVERT | OP_AND | OP_OR | OP_XOR
  | OP_2MUL | OP_2DIV | OP_MUL | OP_DIV | OP_MOD | OP_LSHIFT | OP_RSHIFT => true
  | _ => false
  end.

(** A script number read from a stack element; the exception of the
    constructor is caught by [EvalScript]. *)
Definition read_num (fRequireMinimal : bool) (nMaxNumSize : Z) (v : valtype) : result ScriptError Z :=
  match CScriptNum v fRequireMinimal nMaxNumSize with
  | Ok n => Ok n
  | Err _ => Err SCRIPT_ERR_UNKNOWN_ERROR
  end.

(** The opcodes that only rearrange the main stack. *)
Definition rearrange (op : opcodetype) (s : list valtype) : result ScriptError (list valtype) :=
  let bad := Err SCRIPT_ERR_INVALID_STACK_OPERATION in
  match op with
  | OP_2DROP => match s with _ :: _ :: s => Ok s | _ => bad end
  | OP_2DUP => match s with x2 :: x1 :: s => Ok (x2 :: x1 :: x2 :: x1 :: s) | _ => bad end
  | OP_3DUP => match s with x3 :: x2 :: x1 :: s => Ok (x3 :: x2 :: x1 :: x3 :: x2 :: x1 :: s) | _ => bad end
  | OP_2OVER => match s with x4 :: x3 :: x2 :: x1 :: s => Ok (x2 :: x1 :: x4 :: x3 :: x2 :: x1 :: s) | _ => bad end
  | OP_2ROT =>
      match s with
      | x6 :: x5 :: x4 :: x3 :: x2 :: x1 :: s => Ok (x2 :: x1 :: x6 :: x5 :: x4 :: x3 :: s)
      | _ => bad
      end
  | OP_2SWAP => match s with x4 :: x3 :: x2 :: x1 :: s => Ok (x2 :: x1 :: x4 :: x3 :: s) | _ => bad end
  | OP_IFDUP => match s with x :: s => Ok (if CastToBool x then x :: x :: s else x :: s) | _ => bad end
  | OP_DEPTH => Ok (serialize (Z.of_nat (length s)) :: s)
  | OP_DROP => match s with _ :: s => Ok s | _ => bad end
  | OP_DUP => match s with x :: s => Ok (x :: x :: s) | _ => bad end
  | OP_NIP => match s with x2 :: _ :: s => Ok (x2 :: s) | _ => bad end
  | OP_OVER => match s with x2 :: x1 :: s => Ok (x1 :: x2 :: x1 :: s) | _ => bad end
  | OP_ROT => match s with x3 :: x2 :: x1 :: s => Ok (x1 :: x3 :: x2 :: s) | _ => bad end
  | OP_SWAP => match s with x2 :: x1 :: s => Ok (x1 :: x2 :: s) | _ => bad end
  | OP_TUCK => match s with x2 :: x1 :: s => Ok (x2 :: x1 :: x2 :: s) | _ => bad end
  | OP_SIZE => match s with x :: s => Ok (serialize (size x) :: x :: s) | _ => bad end
  | _ => bad
  end.

(** Those, and the two that move an element between the stacks. *)
Definition exec_stack_op (op : opcodetype) (s alt : list valtype)
  : result ScriptError (list valtype * list valtype) :=
  match op with
  | OP_TOALTSTACK =>
      match s with x :: s => Ok (s, x :: alt) | _ => Err SCRIPT_ERR_INVALID_STACK_OPERATION end
  | OP_FROMALTSTACK =>
      match alt with x :: alt => Ok (x :: s, alt) | _ => Err SCRIPT_ERR_INVALID_ALTSTACK_OPERATION end
  | _ => let! s' := rearrange op s in Ok (s', alt)
  end.

(** [OP_PICK] and [OP_ROLL] *)
Definition exec_pick (fRequireMinimal : bool) (op : opcodetype) (s : list valtype)
  : result ScriptError (list valtype) :=
  match s with
  | x :: ((_ :: _) as s) =>
      let! v := read_num fRequireMinimal nDefaultMaxNumSize x in
      let n := getint v in
      if (n <? 0) || (n >=? Z.of_nat (length s)) then Err SCRIPT_ERR_INVALID_STACK_OPERATION
      else
        let vch := nth (Z.to_nat n) s [] in
        Ok (vch :: match op with
                   | OP_ROLL => firstn (Z.to_nat n) s ++ skipn (S (Z.to_nat n)) s
                   | _ => s
                   end)
  | _ => Err SCRIPT_ERR_INVALID_STACK_OPERATION
  end.

(** The numeric opcodes of one operand: [-bn] and [bn += bnOne] of a number
    of at most four bytes stay far from the 64-bit bounds that the
    assertions of [CScriptNum] guard. *)
Definition unary_num (op : opcodetype) (bn : Z) : Z :=
  match op with
  | OP_1ADD => bn + 1
  | OP_1SUB => bn - 1
  | OP_NEGATE => - bn
  | OP_ABS => if bn <? 0 then - bn else bn
  | OP_NOT => num_bool (bn =? 0)
  | _ => num_bool (negb (bn =? 0))
  end.

Definition exec_unary (fRequireMinimal : bool) (op : opcodetype) (s : list valtype)
  : result ScriptError (list valtype) :=
  match s with
  | x :: s =>
      let! bn := read_num fRequireMinimal nDefaultMaxNumSize x in
      Ok (serialize (unary_num op bn) :: s)
  | _ => Err SCRIPT_ERR_INVALID_STACK_OPERATION
  end.

Definition binary_num (op : opcodetype) (bn1 bn2 : Z) : Z :=
  match op with
  | OP_ADD => bn1 + bn2
  | OP_SUB => bn1 - bn2
  | OP_BOOLAND => num_bool (negb (bn1 =? 0) && negb (bn2 =? 0))
  | OP_BOOLOR => num_bool (negb (bn1 =? 0) || negb (bn2 =? 0))
  | OP_NUMEQUAL | OP_NUMEQUALVERIFY => num_bool (bn1 =? bn2)
  | OP_NUMNOTEQUAL => num_bool (negb (bn1 =? bn2))
  | OP_LESSTHAN => num_bool (bn1 <? bn2)
  | OP_GREATERTHAN => num_bool (bn1 >? bn2)
  | OP_LESSTHANOREQUAL => num_bool (bn1 <=? bn2)
  | OP_GREATERTHANOREQUAL => num_bool (bn1 >=? bn2)
  | OP_MIN => if bn1 <? bn2 then bn1 else bn2
  | _ => if bn1 >? bn2 then bn1 else bn2
  end.

Definition exec_binary (fRequireMinimal : bool) (op : opcodetype) (s : list valtype)
  : result ScriptError (list valtype) :=
  match s with
  | x2 :: x1 :: s =>
      let! bn1 := read_num fRequireMinimal nDefaultMaxNumSize x1 in
      let! bn2 := read_num fRequireMinimal nDefaultMaxNumSize x2 in
      let r := serialize (binary_num op bn1 bn2) in
      match op with
      | OP_NUMEQUALVERIFY => if CastToBool r then Ok s else Err SCRIPT_ERR_NUMEQUALVERIFY
      | _ => Ok (r :: s)
      end
  | _ => Err SCRIPT_ERR_INVALID_STACK_OPERATION
  end.

Definition exec_within (fRequireMinimal : bool) (s : list valtype) : result ScriptError (list valtype) :=
  match s with
  | x3 :: x2 :: x1 :: s =>
      let! bn1 := read_num fRequireMinimal nDefaultMaxNumSize x1 in
      let! bn2 := read_num fRequireMinimal nDefaultMaxNumSize x2 in
      let! bn3 := read_num fRequireMinimal nDefaultMaxNumSize x3 in
      Ok (vch_bool ((bn2 <=? bn1) && (bn1 <? bn3)) :: s)
  | _ => Err SCRIPT_ERR_INVALID_STACK_OPERATION
  end.

(** [OP_EQUAL] and [OP_EQUALVERIFY] *)
Definition exec_equal (op : opcodetype) (s : list valtype) : result ScriptError (list valtype) :=
  match s with
  | x2 :: x1 :: s =>
      let fEqual := bytes_eqb x1 x2 in
      match op with
      | OP_EQUALVERIFY => if fEqual then Ok s else Err SCRIPT_ERR_EQUALVERIFY
      | _ => Ok (vch_bool fEqual :: s)
      end
  | _ => Err SCRIPT_ERR_INVALID_STACK_OPERATION
  end.

Section EvalScript.
Context {Checker : Type} `{BaseSignatureChecker Checker} `{HashFunctions}.
Variable CheckLowS : bytes -> bool.
Variable flags : Z.
Variable checker : Checker.
Variable sigversion : SigVersion.

Definition fRequireMinimal : bool := flag flags SCRIPT_VERIFY_MINIMALDATA.

(** An upgradable NOP, and a lock-time opcode whose rule is not enabled. *)
Definition exec_nop (st : eval_state) : result ScriptError eval_state :=
  if flag flags SCRIPT_VERIFY_DISCOURAGE_UPGRADABLE_NOPS
  then Err SCRIPT_ERR_DISCOURAGE_UPGRADABLE_NOPS else Ok st.

Definition exec_checklocktimeverify (st : eval_state) : result ScriptError eval_state :=
  if negb (flag flags SCRIPT_VERIFY_CHECKLOCKTIMEVERIFY) then exec_nop st
  else
    match stack st with
    | x :: _ =>
        let! nLockTime := read_num fRequireMinimal 5 x in
        if nLockTime <? 0 then Err SCRIPT_ERR_NEGATIVE_LOCKTIME
        else if negb (CheckLockTime checker nLockTime) then Err SCRIPT_ERR_UNSATISFIED_LOCKTIME
        else Ok st
    | _ => Err SCRIPT_ERR_INVALID_STACK_OPERATION
    end.

Definition exec_checksequenceverify (st : eval_state) : result ScriptError eval_state :=
  if negb (flag flags SCRIPT_VERIFY_CHECKSEQUENCEVERIFY) then exec_nop st
  else
    match stack st with
    | x :: _ =>
        let! nSequence := read_num fRequireMinimal 5 x in
        if nSequence <? 0 then Err SCRIPT_ERR_NEGATIVE_LOCKTIME
        else if flag nSequence SEQUENCE_LOCKTIME_DISABLE_FLAG then Ok st
        else if negb (CheckSequence checker nSequence) then Err SCRIPT_ERR_UNSATISFIED_LOCKTIME
        else Ok st
    | _ => Err SCRIPT_ERR_INVALID_STACK_OPERATION
    end.

(** [OP_IF] and [OP_NOTIF] *)
Definition exec_if (op : opcodetype) (fExec : bool) (st : eval_state) : result ScriptError eval_state :=
  if fExec then
    match stack st with
    | vch :: s =>
        if is_witness_v0 sigversion && flag flags SCRIPT_VERIFY_MINIMALIF &&
           ((size vch >? 1) || ((size vch =? 1) && negb (at_ vch 0 =? 1)))
        then Err SCRIPT_ERR_MINIMALIF
        else
          let fValue := match op with OP_NOTIF => negb (CastToBool vch) | _ => CastToBool vch end in
          Ok (set_vfExec (set_stack st s) (fValue :: vfExec st))
    | _ => Err SCRIPT_ERR_UNBALANCED_CONDITIONAL
    end
  else Ok (set_vfExec st (false :: vfExec st)).

Definition exec_else (st : eval_state) : result ScriptError eval_state :=
  match vfExec st with
  | b :: v => Ok (set_vfExec st (negb b :: v))
  | [] => Err SCRIPT_ERR_UNBALANCED_CONDITIONAL
  end.

Definition exec_endif (st : eval_state) : result ScriptError eval_state :=
  match vfExec st with
  | _ :: v => Ok (set_vfExec st v)
  | [] => Err SCRIPT_ERR_UNBALANCED_CONDITIONAL
  end.

Definition exec_verify (s : list valtype) : result ScriptError (list valtype) :=
  match s with
  | x :: s => if CastToBool x then Ok s else Err SCRIPT_ERR_VERIFY
  | _ => Err SCRIPT_ERR_INVALID_STACK_OPERATION
  end.

Definition exec_hash (op : opcodetype) (s : list valtype) : result ScriptError (list valtype) :=
  match s with
  | vch :: s =>
      Ok (match op with
          | OP_RIPEMD160 => CRIPEMD160 vch
          | OP_SHA1 => CSHA1 vch
          | OP_SHA256 => CSHA256 vch
          | OP_HASH160 => CHash160 vch
          | _ => CHash256 vch
          end :: s)
  | _ => Err SCRIPT_ERR_INVALID_STACK_OPERATION
  end.

(** [scriptCode.FindAndDelete(CScript(vchSig))] in scripts before segregated
    witness. *)
Definition drop_signature (scriptCode : CScript) (vchSig : valtype) : CScript :=
  match sigversion with
  | SIGVERSION_BASE =>
      match FindAndDelete scriptCode (push_data [] vchSig) with
      | Some (r, _) => r
      | None => scriptCode
      end
  | SIGVERSION_WITNESS_V0 => scriptCode
  end.

Definition check_encodings (vchSig vchPubKey : valtype) : result ScriptError unit :=
  let! _ := CheckSignatureEncoding CheckLowS vchSig flags in
  CheckPubKeyEncoding vchPubKey flags sigversion.

(** [OP_CHECKSIG] and [OP_CHECKSIGVERIFY] *)
Definition exec_checksig (op : opcodetype) (pbegincodehash : bytes) (s : list valtype)
  : result ScriptError (list valtype) :=
  match s with
  | vchPubKey :: vchSig :: s =>
      let scriptCode := drop_signature pbegincodehash vchSig in
      let! _ := check_encodings vchSig vchPubKey in
      let fSuccess := CheckSig checker vchSig vchPubKey scriptCode sigversion in
      if negb fSuccess && flag flags SCRIPT_VERIFY_NULLFAIL && negb (size vchSig =? 0)
      then Err SCRIPT_ERR_SIG_NULLFAIL
      else
        match op with
        | OP_CHECKSIGVERIFY => if fSuccess then Ok s else Err SCRIPT_ERR_CHECKSIGVERIFY
        | _ => Ok (vch_bool fSuccess :: s)
        end
  | _ => Err SCRIPT_ERR_INVALID_STACK_OPERATION
  end.

(** [while (fSuccess && nSigsCount > 0)]: the signatures and keys still to be
    looked at, in the order the loop meets them. *)
Fixpoint multisig_loop (scriptCode : CScript) (sigs keys : list valtype) {struct keys}
  : result ScriptError bool :=
  match sigs, keys with
  | [], _ => Ok true
  | _ :: _, [] => Ok false
  | vchSig :: sigs', vchPubKey :: keys' =>
      let! _ := check_encodings vchSig vchPubKey in
      let fOk := CheckSig checker vchSig vchPubKey scriptCode sigversion in
      let sigs := if fOk then sigs' else sigs in
      if (length keys' <? length sigs)%nat then Ok false
      else multisig_loop scriptCode sigs keys'
  end.

(** [while (i-- > 1)]: pop the arguments; once [ikey2] items are gone, what
    is popped is a signature. *)
Fixpoint multisig_cleanup (fSuccess : bool) (n : nat) (ikey2 : Z) (s : list valtype)
  : result ScriptError (list valtype) :=
  match n, s with
  | O, _ => Ok s
  | S _, [] => Err SCRIPT_ERR_UNKNOWN_ERROR
  | S n', x :: s' =>
      if negb fSuccess && flag flags SCRIPT_VERIFY_NULLFAIL && (ikey2 =? 0) && negb (size x =? 0)
      then Err SCRIPT_ERR_SIG_NULLFAIL
      else multisig_cleanup fSuccess n' (if ikey2 >? 0 then ikey2 - 1 else ikey2) s'
  end.

(** [OP_CHECKMULTISIG] and [OP_CHECKMULTISIGVERIFY]: the new operation count
    and stack.  [stacktop(-i)] is element [i - 1] of the list. *)
Definition exec_checkmultisig (op : opcodetype) (pbegincodehash : bytes) (nOpCount : Z)
    (s : list valtype) : result ScriptError (Z * list valtype) :=
  if Z.of_nat (length s) <? 1 then Err SCRIPT_ERR_INVALID_STACK_OPERATION
  else
    let! k := read_num fRequireMinimal nDefaultMaxNumSize (nth 0 s []) in
    let nKeysCount := getint k in
    if (nKeysCount <? 0) || (nKeysCount >? MAX_PUBKEYS_PER_MULTISIG) then Err SCRIPT_ERR_PUBKEY_COUNT
    else
      let nOpCount := nOpCount + nKeysCount in
      if nOpCount >? MAX_OPS_PER_SCRIPT then Err SCRIPT_ERR_OP_COUNT
      else
        let nk := Z.to_nat nKeysCount in
        if Z.of_nat (length s) <? nKeysCount + 2 then Err SCRIPT_ERR_INVALID_STACK_OPERATION
        else
          let! m := read_num fRequireMinimal nDefaultMaxNumSize (nth (nk + 1) s []) in
          let nSigsCount := getint m in
          if (nSigsCount <? 0) || (nSigsCount >? nKeysCount) then Err SCRIPT_ERR_SIG_COUNT
          else
            let ns := Z.to_nat nSigsCount in
            if Z.of_nat (length s) <? nKeysCount + 3 + nSigsCount
            then Err SCRIPT_ERR_INVALID_STACK_OPERATION
            else
              let keys := firstn nk (skipn 1 s) in
              let sigs := firstn ns (skipn (nk + 2) s) in
              let scriptCode := fold_left drop_signature sigs pbegincodehash in
              let! fSuccess := multisig_loop scriptCode sigs keys in
              let! s := multisig_cleanup fSuccess (nk + ns + 2) (nKeysCount + 2) s in
              match s with
              | dummy :: s =>
                  if flag flags SCRIPT_VERIFY_NULLDUMMY && negb (size dummy =? 0)
                  then Err SCRIPT_ERR_SIG_NULLDUMMY
                  else
                    match op with
                    | OP_CHECKMULTISIGVERIFY =>
                        if fSuccess then Ok (nOpCount, s) else Err SCRIPT_ERR_CHECKMULTISIGVERIFY
                    | _ => Ok (nOpCount, vch_bool fSuccess :: s)
                    end
              | [] => Err SCRIPT_ERR_INVALID_STACK_OPERATION
              end.

Definition on_stack (st : eval_state) (r : result ScriptError (list valtype))
  : result ScriptError eval_state :=
  let! s := r in Ok (set_stack st s).

(** The switch on the opcode; [pc] is the iterator after the instruction. *)
Definition exec_op (op : opcodetype) (fExec : bool) (pc : bytes) (st : eval_state)
  : result ScriptError eval_state :=
  match op with
  | OP_1NEGATE | OP_1 | OP_2 | OP_3 | OP_4 | OP_5 | OP_6 | OP_7 | OP_8 | OP_9 | OP_10
  | OP_11 | OP_12 | OP_13 | OP_14 | OP_15 | OP_16 =>
      Ok (push_stack st (serialize (opcode_value op - (opcode_value OP_1 - 1))))
  | OP_NOP => Ok st
  | OP_CHECKLOCKTIMEVERIFY => exec_checklocktimeverify st
  | OP_CHECKSEQUENCEVERIFY => exec_checksequenceverify st
  | OP_NOP1 | OP_NOP4 | OP_NOP5 | OP_NOP6 | OP_NOP7 | OP_NOP8 | OP_NOP9 | OP_NOP10 => exec_nop st
  | OP_IF | OP_NOTIF => exec_if op fExec st
  | OP_ELSE => exec_else st
  | OP_ENDIF => exec_endif st
  | OP_VERIFY => on_stack st (exec_verify (stack st))
  | OP_RETURN => Err SCRIPT_ERR_OP_RETURN
  | OP_TOALTSTACK | OP_FROMALTSTACK | OP_2DROP | OP_2DUP | OP_3DUP | OP_2OVER | OP_2ROT
  | OP_2SWAP | OP_IFDUP | OP_DEPTH | OP_DROP | OP_DUP | OP_NIP | OP_OVER | OP_ROT | OP_SWAP
  | OP_TUCK | OP_SIZE =>
      let! r := exec_stack_op op (stack st) (altstack st) in
      Ok (mkEval (fst r) (snd r) (vfExec st) (nOpCount st) (pbegincodehash st))
  | OP_PICK | OP_ROLL => on_stack st (exec_pick fRequireMinimal op (stack st))
  | OP_EQUAL | OP_EQUALVERIFY => on_stack st (exec_equal op (stack st))
  | OP_1ADD | OP_1SUB | OP_NEGATE | OP_ABS | OP_NOT | OP_0NOTEQUAL =>
      on_stack st (exec_unary fRequireMinimal op (stack st))
  | OP_ADD | OP_SUB | OP_BOOLAND | OP_BOOLOR | OP_NUMEQUAL | OP_NUMEQUALVERIFY
  | OP_NUMNOTEQUAL | OP_LESSTHAN | OP_GREATERTHAN | OP_LESSTHANOREQUAL
  | OP_GREATERTHANOREQUAL | OP_MIN | OP_MAX =>
      on_stack st (exec_binary fRequireMinimal op (stack st))
  | OP_WITHIN => on_stack st (exec_within fRequireMinimal (stack st))
  | OP_RIPEMD160 | OP_SHA1 | OP_SHA256 | OP_HASH160 | OP_HASH256 =>
      on_stack st (exec_hash op (stack st))
  | OP_CODESEPARATOR =>
      Ok (mkEval (stack st) (altstack st) (vfExec st) (nOpCount st) pc)
  | OP_CHECKSIG | OP_CHECKSIGVERIFY =>
      on_stack st (exec_checksig op (pbegincodehash st) (stack st))
  | OP_CHECKMULTISIG | OP_CHECKMULTISIGVERIFY =>
      let! r := exec_checkmultisig op (pbegincodehash st) (nOpCount st) (stack st) in
      Ok (set_stack (set_nOpCount st (fst r)) (snd r))
  | OP_HEMP_ASSET => Ok st
  | _ => Err SCRIPT_ERR_BAD_OPCODE
  end.

(** What an instruction does once it has been read and counted. *)
Definition exec_instr (opcode : Z) (vchPushValue pc : bytes) (st : eval_state)
  : result ScriptError eval_state :=
  let fExec := forallb (fun b => b) (vfExec st) in
  if fExec && (opcode <=? OP_PUSHDATA4) then
    if fRequireMinimal && negb (CheckMinimalPush vchPushValue opcode)
    then Err SCRIPT_ERR_MINIMALDATA
    else Ok (push_stack st vchPushValue)
  else if fExec || ((OP_IF <=? opcode) && (opcode <=? OP_ENDIF))
  then exec_op (opcode_of opcode) fExec pc st
  else Ok st.

(** One round of the loop: the iterator and the state after it. *)
Definition eval_step (pc : bytes) (st : eval_state) : result ScriptError (bytes * eval_state) :=
  match GetOp2 pc with
  | None => Err SCRIPT_ERR_BAD_OPCODE
  | Some (opcode, vchPushValue, pc') =>
      if size vchPushValue >? MAX_SCRIPT_ELEMENT_SIZE then Err SCRIPT_ERR_PUSH_SIZE
      else
        let st := if opcode >? OP_16 then set_nOpCount st (nOpCount st + 1) else st in
        if (opcode >? OP_16) && (nOpCount st >? MAX_OPS_PER_SCRIPT) then Err SCRIPT_ERR_OP_COUNT
        else if is_disabled (opcode_of opcode) then Err SCRIPT_ERR_DISABLED_OPCODE
        else
          let! st := exec_instr opcode vchPushValue pc' st in
          if Z.of_nat (length (stack st) + length (altstack st)) >? MAX_STACK_SIZE
          then Err SCRIPT_ERR_STACK_SIZE
          else Ok (pc', st)
  end.

(** [while (pc < pend)]: [None] when the fuel does not suffice. *)
Fixpoint eval_loop (fuel : nat) (pc : bytes) (st : eval_state) : option (result ScriptError eval_state) :=
  match pc, fuel with
  | [], _ => Some (Ok st)
  | _, O => None
  | _, S fuel' =>
      match eval_step pc st with
      | Err e => Some (Err e)
      | Ok (pc', st') => eval_loop fuel' pc' st'
      end
  end.

(** [EvalScript]: the stack it leaves, or the error.  Every instruction takes
    at least one byte, so the length of the script is enough fuel. *)
Definition EvalScript (s : list valtype) (script : CScript)
  : option (result ScriptError (list valtype)) :=
  if size script >? MAX_SCRIPT_SIZE then Some (Err SCRIPT_ERR_SCRIPT_SIZE)
  else
    match eval_loop (length script) script (mkEval s [] [] 0 script) with
    | None => None
    | Some (Err e) => Some (Err e)
    | Some (Ok st) =>
        match vfExec st with
        | [] => Some (Ok (stack st))
        | _ => Some (Err SCRIPT_ERR_UNBALANCED_CONDITIONAL)
        end
    end.

End EvalScript.

(** * Every run ends *)

Section Machine.
Context {Checker : Type} `{BaseSignatureChecker Checker} `{HashFunctions}.
Variable CheckLowS : bytes -> bool.
Variable flags : Z.
Variable checker : Checker.
Variable sigversion : SigVersion.

#[local] Abbreviation step := (eval_step CheckLowS flags checker sigversion).
#[local] Abbreviation run := (eval_loop CheckLowS flags checker sigversion).

(** The operation counter after an instruction is read. *)
Definition count_op (opcode : Z) (st : eval_state) : eval_state :=
  if opcode >? OP_16 then set_nOpCount st (nOpCount st + 1) else st.

Lemma eval_step_ok (pc pc' : bytes) (st st' : eval_state) :
  step pc st = Ok (pc', st') <->
  exists opcode v, GetOp2 pc = Some (opcode, v, pc') /\ size v <= MAX_SCRIPT_ELEMENT_SIZE /\
    (OP_16 < opcode -> nOpCount st + 1 <= MAX_OPS_PER_SCRIPT) /\
    is_disabled (opcode_of opcode) = false /\
    exec_instr CheckLowS flags checker sigversion opcode v pc' (count_op opcode st) = Ok st' /\
    Z.of_nat (length (stack st') + length (altstack st')) <= MAX_STACK_SIZE.
Proof.
  unfold eval_step; destruct (GetOp2 pc) as [[[op v] p] |];
    [| split; [discriminate | intros (? & ? & [=] & _)]].
  cbv zeta; fold (count_op op st).
  assert (E : (op >? OP_16) && (nOpCount (count_op op st) >? MAX_OPS_PER_SCRIPT) = false <->
              (OP_16 < op -> nOpCount st + 1 <= MAX_OPS_PER_SCRIPT)).
  { unfold count_op; rewrite !Z.gtb_ltb; destruct (Z.ltb_spec OP_16 op); cbn [andb nOpCount set_nOpCount].
    - rewrite Z.ltb_ge; tauto.
    - split; [lia | reflexivity]. }
  split.
  - destruct (size v >? _) eqn:E1; [discriminate |].
    destruct (_ && _); [discriminate |]; destruct (is_disabled _) eqn:E2; [discriminate |].
    intros R; apply bind_ok in R; destruct R as (s1 & R1 & R).
    destruct (_ >? _) eqn:E3 in R; [discriminate |]; inversion R; subst; bool_to_prop.
    exists op, v; split_all; auto; apply E; reflexivity.
  - intros (op' & v' & [= <- <- <-] & Hv & Hn & -> & R & Hs); apply E in Hn; rewrite Hn.
    rewrite Z.gtb_ltb, (proj2 (Z.ltb_ge _ _)) by exact Hv; rewrite R; cbn [bind].
    rewrite Z.gtb_ltb, (proj2 (Z.ltb_ge _ _)) by exact Hs; reflexivity.
Qed.

Lemma eval_step_shorter (pc pc' : bytes) (st st' : eval_state) :
  step pc st = Ok (pc', st') -> exists pre, pre <> [] /\ pc = pre ++ pc'.
Proof.
  intros R; apply eval_step_ok in R; destruct R as (op & v & E & _).
  apply GetOp2_suffix in E; destruct E as (pre & ->).
  exists (op :: pre); split; [discriminate | reflexivity].
Qed.

Lemma eval_loop_total (fuel : nat) : forall pc st, (length pc <= fuel)%nat ->
  exists r, run fuel pc st = Some r.
Proof.
  induction fuel as [| fuel IH]; intros [| b pc] st Hl; cbn [eval_loop length] in *; eauto; try lia.
  destruct (step (b :: pc) st) as [[pc' st'] | e] eqn:E; [| eauto].
  apply eval_step_shorter in E; destruct E as (pre & Hp & E).
  apply IH; destruct pre as [| x pre]; [contradiction |].
  injection E as _ ->; rewrite length_app in Hl; lia.
Qed.

End Machine.

(** * Limits *)

(** Stack elements are byte strings of at most 520 bytes. *)
Definition item_ok (v : valtype) : Prop := is_bytes v /\ size v <= MAX_SCRIPT_ELEMENT_SIZE.

(** The resource limits of a running script. *)
Record eval_ok (st : eval_state) : Prop := {
  ok_stack : Forall item_ok (stack st);
  ok_altstack : Forall item_ok (altstack st);
  ok_sizes : Z.of_nat (length (stack st) + length (altstack st)) <= MAX_STACK_SIZE;
  ok_ops : 0 <= nOpCount st <= MAX_OPS_PER_SCRIPT
}.

Lemma read_num_range (m : bool) (k : Z) (v : valtype) (n : Z) : is_bytes v -> 1 <= k <= 7 ->
  read_num m k v = Ok n -> Z.abs n < 2 ^ (8 * k - 1).
Proof.
  unfold read_num, CScriptNum; intros Hv Hk.
  destruct (_ >? k) eqn:Hl; [discriminate |]; destruct (m && _); [discriminate |]; intros [= <-].
  bool_to_prop; pose proof (pow2_pos (8 * k - 1) ltac:(lia)).
  destruct v as [| x v]; [exact H |].
  destruct (nonempty_snoc (x :: v)) as (u & b & E); [discriminate |]; rewrite E in *.
  apply snoc_bytes in Hv; destruct Hv as [Hu Hb]; rewrite length_app in Hl; cbn [length] in Hl.
  rewrite set_vch_spec by (auto; lia).
  pose proof (le_val_bounds 8 u ltac:(lia) Hu) as HL.
  set (s := 8 * Z.of_nat (length u)) in *.
  assert (Hp : 0 < 2 ^ s) by (apply pow2_pos; lia).
  assert (Hle : 2 ^ (s + 7) <= 2 ^ (8 * k - 1)) by (apply Z.pow_le_mono_r; lia).
  rewrite Z.pow_add_r in Hle by lia; unfold in_u in Hb.
  destruct (Z.leb_spec 128 b); nia.
Qed.

Lemma serialize_item (n : Z) : Z.abs n < 2 ^ 39 -> item_ok (serialize n).
Proof.
  intros Hn; destruct (serialize_decodes n 5) as [Hb Hd]; [lia | exact Hn |].
  split; [exact Hb |]; unfold CScriptNum in Hd.
  destruct (_ >? 5) eqn:E; [discriminate |]; bool_to_prop; unfold size, MAX_SCRIPT_ELEMENT_SIZE; lia.
Qed.

Lemma vch_bool_item (b : bool) : item_ok (vch_bool b).
Proof. destruct b; split; repeat constructor; unfold size, MAX_SCRIPT_ELEMENT_SIZE; cbn; lia. Qed.

Lemma blob_item (n : nat) (v : valtype) : is_blob n v -> (n <= 32)%nat -> item_ok v.
Proof. intros [Hl Hb] Hn; split; [exact Hb |]; unfold size, MAX_SCRIPT_ELEMENT_SIZE; lia. Qed.

#[export] Hint Resolve vch_bool_item : hemp.

(** Take apart the stacks a definition matches on. *)
Ltac open_stacks R :=
  repeat match type of R with
  | context [match ?s with [] => _ | _ :: _ => _ end] => destruct s; try discriminate R
  end.

Ltac open_items :=
  repeat match goal with H : Forall _ (_ :: _) |- _ => apply Forall_cons_iff in H; destruct H end.

Lemma exec_stack_op_ok (op : opcodetype) (s alt s' alt' : list valtype) :
  Forall item_ok s -> Forall item_ok alt -> Z.of_nat (length s) <= MAX_STACK_SIZE ->
  exec_stack_op op s alt = Ok (s', alt') -> Forall item_ok s' /\ Forall item_ok alt'.
Proof.
  intros Hs Ha Hl R.
  assert (Hdepth : item_ok (serialize (Z.of_nat (length s))))
    by (apply serialize_item; unfold MAX_STACK_SIZE in Hl; lia).
  destruct op; cbn [exec_stack_op rearrange] in R; open_stacks R; cbn [bind] in R; try discriminate R;
    injection R as <- <-; open_items; split; auto 10.
  - case_if; auto 10.
  - constructor; [apply serialize_item | auto 10].
    match goal with H : item_ok v |- _ => destruct H end; unfold size, MAX_SCRIPT_ELEMENT_SIZE in *; lia.
Qed.

Lemma nth_item (s : list valtype) (i : nat) : Forall item_ok s -> item_ok (nth i s []).
Proof.
  intros Hs; destruct (nth_in_or_default i s []) as [Hi | ->];
    [eapply Forall_forall; eauto | split; [constructor | cbn; unfold MAX_SCRIPT_ELEMENT_SIZE; lia]].
Qed.

Lemma exec_pick_ok (m : bool) (op : opcodetype) (s s' : list valtype) : Forall item_ok s ->
  exec_pick m op s = Ok s' -> Forall item_ok s'.
Proof.
  intros Hs R; destruct s as [| x [| y s]]; try discriminate R; unfold exec_pick in R.
  apply bind_ok in R; destruct R as (v & _ & R); destruct (_ || _); [discriminate |].
  apply Forall_cons_iff in Hs; destruct Hs as [_ Hs].
  set (t := y :: s) in *; clearbody t.
  match type of R with Ok ?e = _ => assert (s' = e) as -> by congruence end.
  constructor; [apply nth_item; exact Hs |].
  destruct op; auto; apply Forall_app; split; auto with hemp.
Qed.

Lemma unary_range (op : opcodetype) (n : Z) : Z.abs n < 2 ^ 31 -> Z.abs (unary_num op n) < 2 ^ 39.
Proof. intros Hn; destruct op; cbn [unary_num]; unfold num_bool; repeat case_if; lia. Qed.

Lemma binary_range (op : opcodetype) (n m : Z) : Z.abs n < 2 ^ 31 -> Z.abs m < 2 ^ 31 ->
  Z.abs (binary_num op n m) < 2 ^ 39.
Proof. intros Hn Hm; destruct op; cbn [binary_num]; unfold num_bool; repeat case_if; lia. Qed.

Lemma exec_unary_ok (m : bool) (op : opcodetype) (s s' : list valtype) : Forall item_ok s ->
  exec_unary m op s = Ok s' -> Forall item_ok s'.
Proof.
  intros Hs R; destruct s as [| x s]; [discriminate |]; cbn [exec_unary] in R; open_items.
  apply bind_ok in R; destruct R as (n & Rn & R); injection R as <-.
  constructor; auto; apply serialize_item, unary_range.
  eapply (read_num_range _ 4); [| lia | exact Rn]; match goal with H : item_ok x |- _ => apply H end.
Qed.

Lemma exec_binary_ok (m : bool) (op : opcodetype) (s s' : list valtype) : Forall item_ok s ->
  exec_binary m op s = Ok s' -> Forall item_ok s'.
Proof.
  intros Hs R; destruct s as [| y [| x s]]; try discriminate R; unfold exec_binary in R; open_items.
  apply bind_ok in R; destruct R as (n1 & R1 & R); apply bind_ok in R; destruct R as (n2 & R2 & R).
  apply read_num_range in R1; [| apply H0 | unfold nDefaultMaxNumSize; lia].
  apply read_num_range in R2; [| apply H | unfold nDefaultMaxNumSize; lia].
  pose proof (serialize_item _ (binary_range op n1 n2 R1 R2)).
  destruct op; try (injection R as <-; constructor; assumption).
  destruct (CastToBool _); [injection R as <-; assumption | discriminate].
Qed.

Lemma exec_within_ok (m : bool) (s s' : list valtype) : Forall item_ok s ->
  exec_within m s = Ok s' -> Forall item_ok s'.
Proof.
  intros Hs R; destruct s as [| z [| y [| x s]]]; try discriminate R; unfold exec_within in R; open_items.
  repeat (apply bind_ok in R; destruct R as (? & _ & R)); injection R as <-; auto with hemp.
Qed.

Lemma exec_equal_ok (op : opcodetype) (s s' : list valtype) : Forall item_ok s ->
  exec_equal op s = Ok s' -> Forall item_ok s'.
Proof.
  intros Hs R; destruct s as [| y [| x s]]; try discriminate R; unfold exec_equal in R; open_items.
  destruct op; try (injection R as <-; auto with hemp).
  destruct (bytes_eqb x y); [injection R as <-; assumption | discriminate].
Qed.

Section Limits.
Context {Checker : Type} `{BaseSignatureChecker Checker} `{HashSizes}.
Variable CheckLowS : bytes -> bool.
Variable flags : Z.
Variable checker : Checker.
Variable sigversion : SigVersion.

Lemma exec_hash_ok (op : opcodetype) (s s' : list valtype) : Forall item_ok s ->
  exec_hash op s = Ok s' -> Forall item_ok s'.
Proof.
  intros Hs R; destruct s as [| x s]; try discriminate R; unfold exec_hash in R; open_items.
  injection R as <-; constructor; auto.
  destruct op; unfold CHash256; eauto using blob_item, sha256_blob, ripemd160_blob, sha1_blob;
    solve [apply (blob_item 32); [apply sha256_blob | lia] | apply (blob_item 20); [apply ripemd160_blob | lia]
          | apply (blob_item 20); [apply sha1_blob | lia]].
Qed.

Lemma exec_checksig_ok (op : opcodetype) (code : bytes) (s s' : list valtype) : Forall item_ok s ->
  exec_checksig CheckLowS flags checker sigversion op code s = Ok s' -> Forall item_ok s'.
Proof.
  intros Hs R; destruct s as [| k [| g s]]; try discriminate R; unfold exec_checksig in R; open_items.
  apply bind_ok in R; destruct R as (? & _ & R); destruct (_ && _ && _); [discriminate |].
  destruct op; try (injection R as <-; auto with hemp).
  destruct (CheckSig _ _ _ _ _); [injection R as <-; assumption | discriminate].
Qed.

Lemma multisig_cleanup_spec (ok : bool) (n : nat) : forall ikey2 s s',
  multisig_cleanup flags ok n ikey2 s = Ok s' -> s' = skipn n s.
Proof.
  induction n as [| n IH]; intros ikey2 s s' R; cbn [multisig_cleanup] in R; [cbn [skipn]; congruence |].
  destruct s as [| x s]; [discriminate |]; destruct (_ && _ && _ && _); [discriminate |].
  cbn [skipn]; eauto.
Qed.

Lemma exec_checkmultisig_ok (op : opcodetype) (code : bytes) (n n' : Z) (s s' : list valtype) :
  Forall item_ok s -> 0 <= n ->
  exec_checkmultisig CheckLowS flags checker sigversion op code n s = Ok (n', s') ->
  Forall item_ok s' /\ n <= n' <= MAX_OPS_PER_SCRIPT.
Proof.
  intros Hs Hn R; unfold exec_checkmultisig in R.
  destruct (_ <? 1); [discriminate |]; apply bind_ok in R; destruct R as (k & _ & R).
  destruct (_ || _) eqn:Ek in R; [discriminate |]; destruct (_ >? _) eqn:Eo in R; [discriminate |].
  destruct (_ <? _) in R; [discriminate |]; apply bind_ok in R; destruct R as (m & _ & R).
  destruct (_ || _) in R; [discriminate |]; destruct (_ <? _) in R; [discriminate |].
  apply bind_ok in R; destruct R as (ok & _ & R); apply bind_ok in R; destruct R as (s1 & R1 & R).
  apply multisig_cleanup_spec in R1; destruct s1 as [| d s1]; [discriminate |].
  assert (Hs1 : Forall item_ok (d :: s1)) by (rewrite R1; auto with hemp); open_items.
  destruct (_ && _) in R; [discriminate |]; bool_to_prop.
  assert (E : n' = n + getint k /\ Forall item_ok s')
    by (destruct op; try (inversion R; subst; auto with hemp; fail); destruct ok; inversion R; subst; auto).
  destruct E as [-> Hs']; split; [exact Hs' | lia].
Qed.

Lemma exec_nop_same (st st' : eval_state) : exec_nop flags st = Ok st' -> st' = st.
Proof. unfold exec_nop; case_if; congruence. Qed.

Lemma exec_checklocktimeverify_same (st st' : eval_state) :
  exec_checklocktimeverify flags checker st = Ok st' -> st' = st.
Proof.
  unfold exec_checklocktimeverify; case_if; [apply exec_nop_same |].
  destruct (stack st); [discriminate |]; intros R; apply bind_ok in R; destruct R as (n & _ & R).
  revert R; repeat case_if; congruence.
Qed.

Lemma exec_checksequenceverify_same (st st' : eval_state) :
  exec_checksequenceverify flags checker st = Ok st' -> st' = st.
Proof.
  unfold exec_checksequenceverify; case_if; [apply exec_nop_same |].
  destruct (stack st); [discriminate |]; intros R; apply bind_ok in R; destruct R as (n & _ & R).
  revert R; repeat case_if; congruence.
Qed.

Lemma exec_verify_ok (s s' : list valtype) : Forall item_ok s -> exec_verify s = Ok s' -> Forall item_ok s'.
Proof.
  intros Hs R; destruct s as [| x s]; [discriminate |]; cbn [exec_verify] in R; open_items.
  destruct (CastToBool x); congruence.
Qed.

(** What the control opcodes leave alone. *)
Definition same_data (st st' : eval_state) : Prop :=
  altstack st' = altstack st /\ nOpCount st' = nOpCount st /\ pbegincodehash st' = pbegincodehash st /\
  (stack st' = stack st \/ stack st' = tl (stack st)).

Lemma exec_if_same (op : opcodetype) (fExec : bool) (st st' : eval_state) :
  exec_if flags sigversion op fExec st = Ok st' -> same_data st st'.
Proof.
  unfold exec_if, same_data; destruct fExec; [| intros [= <-]; cbn; auto].
  destruct (stack st); [discriminate |]; case_if; [discriminate |]; intros [= <-]; cbn; auto.
Qed.

Lemma exec_else_same (st st' : eval_state) : exec_else st = Ok st' -> same_data st st'.
Proof. unfold exec_else, same_data; destruct (vfExec st); [discriminate |]; intros [= <-]; cbn; auto. Qed.

Lemma exec_endif_same (st st' : eval_state) : exec_endif st = Ok st' -> same_data st st'.
Proof. unfold exec_endif, same_data; destruct (vfExec st); [discriminate |]; intros [= <-]; cbn; auto. Qed.

(** What an instruction guarantees of the stacks and the counter. *)
Definition limits_kept (st st' : eval_state) : Prop :=
  Forall item_ok (stack st') /\ Forall item_ok (altstack st') /\
  nOpCount st <= nOpCount st' <= MAX_OPS_PER_SCRIPT.

Lemma exec_op_ok (op : opcodetype) (fExec : bool) (pc : bytes) (st st' : eval_state) :
  eval_ok st -> exec_op CheckLowS flags checker sigversion op fExec pc st = Ok st' ->
  limits_kept st st'.
Proof.
  intros [Hs Ha Hl Hn] R.
  assert (Hon : forall r, on_stack st r = Ok st' -> (forall s', r = Ok s' -> Forall item_ok s') ->
    limits_kept st st').
  { intros r Hr Hi; apply bind_ok in Hr; destruct Hr as (s' & -> & Hr); injection Hr as <-.
    unfold limits_kept; cbn; split_all; auto; lia. }
  assert (Hsame : same_data st st' -> limits_kept st st').
  { unfold limits_kept; intros (-> & -> & _ & [-> | ->]); split_all; auto; try lia.
    destruct (stack st); [assumption |]; cbn; open_items; assumption. }
  assert (Hst : st' = st -> limits_kept st st') by (unfold limits_kept; intros ->; split_all; auto; lia).
  assert (Hpush : forall n, @Ok ScriptError _ (push_stack st (serialize n)) = Ok st' -> Z.abs n < 2 ^ 39 ->
    limits_kept st st').
  { intros n E Ha'; assert (st' = push_stack st (serialize n)) as -> by congruence.
    unfold limits_kept; cbn [push_stack set_stack stack altstack nOpCount]; split_all; auto using serialize_item; lia. }
  destruct op; try discriminate R; cbn [exec_op] in R;
    lazymatch type of R with
    | on_stack _ ?r = _ =>
        apply (Hon _ R); intros s';
        lazymatch r with
        | exec_verify _ => apply exec_verify_ok; exact Hs
        | exec_pick _ _ _ => apply exec_pick_ok; exact Hs
        | exec_equal _ _ => apply exec_equal_ok; exact Hs
        | exec_unary _ _ _ => apply exec_unary_ok; exact Hs
        | exec_binary _ _ _ => apply exec_binary_ok; exact Hs
        | exec_within _ _ => apply exec_within_ok; exact Hs
        | exec_hash _ _ => apply exec_hash_ok; exact Hs
        | _ => apply exec_checksig_ok; exact Hs
        end
    | Ok (push_stack _ _) = _ => apply (Hpush _ R); cbn; lia
    | Ok st = _ => apply Hst; congruence
    | Ok _ = _ => injection R as <-; unfold limits_kept; cbn; split_all; auto; lia
    | bind (exec_checkmultisig _ _ _ _ _ _ _ _) _ = _ =>
        apply bind_ok in R; destruct R as ([r1 r2] & R1 & R); injection R as <-; unfold limits_kept;
        apply exec_checkmultisig_ok in R1; auto; try lia; cbn; tauto
    | bind _ _ = _ =>
        apply bind_ok in R; destruct R as ([r1 r2] & R1 & R); injection R as <-; unfold limits_kept;
        apply exec_stack_op_ok in R1; auto; try lia; cbn; split_all; try tauto; lia
    | _ => eauto using exec_nop_same, exec_checklocktimeverify_same, exec_checksequenceverify_same,
             exec_if_same, exec_else_same, exec_endif_same
    end.
Qed.

Lemma GetOp2_bytes (pc v pc' : bytes) (op : Z) : is_bytes pc -> GetOp2 pc = Some (op, v, pc') ->
  is_bytes v /\ is_bytes pc'.
Proof.
  destruct pc as [| c pc]; [discriminate |]; cbn [GetOp2]; intros Hb.
  apply Forall_cons_iff in Hb; destruct Hb as [_ Hb].
  assert (Hend : forall u p, is_bytes u -> is_bytes p ->
    (if c =? OP_HEMP_ASSET then Some (c, p, []) else Some (c, u, p)) = Some (op, v, pc') ->
    is_bytes v /\ is_bytes pc').
  { intros u p Hu Hp; destruct (c =? _); intros [= <- <- <-]; split; auto; constructor. }
  destruct (c <=? OP_PUSHDATA4); [| apply Hend; auto; constructor].
  assert (Hsz : forall n p, is_bytes p ->
    match (if Z.of_nat (length p) <? n then None
           else Some (firstn (Z.to_nat n) p, skipn (Z.to_nat n) p)) with
    | Some (u, p') => if c =? OP_HEMP_ASSET then Some (c, p', []) else Some (c, u, p')
    | None => None end = Some (op, v, pc') -> is_bytes v /\ is_bytes pc').
  { intros n p Hp; destruct (_ <? n); [discriminate |]; apply Hend; unfold is_bytes; auto with hemp. }
  destruct (c <? OP_PUSHDATA1); [apply Hsz; exact Hb |].
  destruct (c =? OP_PUSHDATA1).
  { destruct pc as [| n pc0]; [discriminate |]; apply Hsz; apply Forall_cons_iff in Hb; apply Hb. }
  destruct (c =? OP_PUSHDATA2); destruct (Nat.ltb _ _); try discriminate; apply Hsz; unfold is_bytes; auto with hemp.
Qed.

Lemma eval_step_invariant (pc pc' : bytes) (st st' : eval_state) : is_bytes pc -> eval_ok st ->
  eval_step CheckLowS flags checker sigversion pc st = Ok (pc', st') ->
  is_bytes pc' /\ eval_ok st' /\ nOpCount st <= nOpCount st'.
Proof.
  intros Hb Hok R; apply eval_step_ok in R; destruct R as (op & v & E & Hv & Hn & _ & R & Hs).
  destruct (GetOp2_bytes _ _ _ _ Hb E) as [Hbv Hb']; split; [exact Hb' |].
  assert (Hok1 : eval_ok (count_op op st) /\ nOpCount st <= nOpCount (count_op op st)).
  { destruct Hok as [K1 K2 K3 K4]; unfold count_op; rewrite Z.gtb_ltb.
    destruct (Z.ltb_spec OP_16 op) as [Ho |]; [specialize (Hn Ho) |]; split; [constructor | | constructor |];
      cbn; auto; lia. }
  destruct Hok1 as [Hok1 Hm]; generalize dependent (count_op op st); intros s1 R Hok1 Hm.
  enough (limits_kept s1 st') as (HA & HB & HC).
  { destruct Hok; split; [constructor; auto; lia | lia]. }
  assert (Hsame : st' = s1 -> limits_kept s1 st')
    by (intros ->; destruct Hok1; unfold limits_kept; split_all; auto; lia).
  unfold exec_instr in R; destruct (_ && (op <=? _)).
  - destruct (_ && _); [discriminate |]; injection R as <-; destruct Hok1; unfold limits_kept; cbn; split_all; auto; try lia.
    constructor; auto; split; auto.
  - destruct (_ || _); [eapply exec_op_ok; eauto | apply Hsame; congruence].
Qed.

End Limits.

(** * More flags only forbid more *)

Lemma flag_mono (a b m : Z) : Z.land a b = a -> flag a m = true -> flag b m = true.
Proof.
  unfold flag; intros E Ha; apply negb_true_iff, Z.eqb_neq in Ha; apply negb_true_iff, Z.eqb_neq.
  intros Hb; apply Ha; rewrite <- E, <- Z.land_assoc, Hb; apply Z.land_0_r.
Qed.

Lemma read_num_mono (m m' : bool) (k : Z) (v : valtype) (n : Z) : (m = true -> m' = true) ->
  read_num m' k v = Ok n -> read_num m k v = Ok n.
Proof.
  unfold read_num, CScriptNum; intros Hm; destruct (_ >? k); [discriminate |].
  destruct m'; cbn [andb].
  - destruct m; [auto |]; destruct (negb _); [discriminate | auto].
  - destruct m; [discriminate Hm; reflexivity | auto].
Qed.

(** Decide [flag a m] and [flag b m] together, where [a] has no flag that
    [b] lacks. *)
Ltac case_flag Hab :=
  match goal with
  | R : context [flag ?b ?m] |- context [flag ?a ?m] =>
      let E := fresh in let E' := fresh in
      destruct (flag a m) eqn:E;
      [rewrite (flag_mono a b m Hab E) in R | destruct (flag b m) eqn:E'];
      cbn [andb negb] in R |- *; try discriminate R
  end.

Section SoftFork.
Context {Checker : Type} `{BaseSignatureChecker Checker} `{HashFunctions}.
Variable CheckLowS : bytes -> bool.
Variables a b : Z.
Variable checker : Checker.
Variable sigversion : SigVersion.
Hypothesis Hab : Z.land a b = a.

(** The lock-time opcodes are discouraged only where they are not enforced,
    so a rule that discourages upgradable opcodes must come with them. *)
Definition locks_enforced : Prop :=
  flag a SCRIPT_VERIFY_DISCOURAGE_UPGRADABLE_NOPS = true ->
  flag a SCRIPT_VERIFY_CHECKLOCKTIMEVERIFY = true /\ flag a SCRIPT_VERIFY_CHECKSEQUENCEVERIFY = true.

Hypothesis Hlocks : locks_enforced.

Lemma minimal_mono : fRequireMinimal a = true -> fRequireMinimal b = true.
Proof. apply flag_mono; exact Hab. Qed.

Lemma CheckSignatureEncoding_mono (sig : valtype) :
  CheckSignatureEncoding CheckLowS sig b = Ok tt -> CheckSignatureEncoding CheckLowS sig a = Ok tt.
Proof.
  unfold CheckSignatureEncoding; intros R; destruct (size sig =? 0); [reflexivity |].
  case_flag Hab; destruct (IsValidSignatureEncoding sig) eqn:Ev; cbn [andb negb] in *; try discriminate R;
    case_flag Hab; unfold IsLowDERSignature in *; rewrite ?Ev in *; cbn [negb] in *;
    repeat match type of R with context [CheckLowS ?x] => destruct (CheckLowS x) end;
    cbn [negb bind] in *; try discriminate R; case_flag Hab; auto;
    try (destruct (IsDefinedHashtypeSignature sig); cbn [negb] in *; congruence).
Qed.

Lemma CheckPubKeyEncoding_mono (key : valtype) :
  CheckPubKeyEncoding key b sigversion = Ok tt -> CheckPubKeyEncoding key a sigversion = Ok tt.
Proof.
  unfold CheckPubKeyEncoding; intros R; case_flag Hab;
    destruct (IsCompressedOrUncompressedPubKey key); cbn [negb] in *; try discriminate R;
    case_flag Hab; auto; destruct (_ && _); congruence.
Qed.

Lemma check_encodings_mono (sig key : valtype) :
  check_encodings CheckLowS b sigversion sig key = Ok tt ->
  check_encodings CheckLowS a sigversion sig key = Ok tt.
Proof.
  unfold check_encodings; intros R; apply bind_ok in R; destruct R as ([] & R1 & R2).
  rewrite (CheckSignatureEncoding_mono _ R1); exact (CheckPubKeyEncoding_mono _ R2).
Qed.

Lemma exec_nop_mono (st st' : eval_state) : exec_nop b st = Ok st' -> exec_nop a st = Ok st'.
Proof. unfold exec_nop; intros R; case_flag Hab; auto. Qed.

Lemma exec_checklocktimeverify_mono (st st' : eval_state) :
  exec_checklocktimeverify b checker st = Ok st' -> exec_checklocktimeverify a checker st = Ok st'.
Proof.
  intros R; pose proof (exec_checklocktimeverify_same _ _ _ _ R) as ->; revert R.
  unfold exec_checklocktimeverify; intros R; case_flag Hab.
  - destruct (stack st) as [| x s]; [discriminate |]; apply bind_ok in R; destruct R as (n & Rn & R).
    rewrite (read_num_mono _ _ _ _ _ minimal_mono Rn); exact R.
  - unfold exec_nop; destruct (flag a SCRIPT_VERIFY_DISCOURAGE_UPGRADABLE_NOPS) eqn:E; [| reflexivity].
    destruct (Hlocks E); congruence.
  - exact (exec_nop_mono _ _ R).
Qed.

Lemma exec_checksequenceverify_mono (st st' : eval_state) :
  exec_checksequenceverify b checker st = Ok st' -> exec_checksequenceverify a checker st = Ok st'.
Proof.
  intros R; pose proof (exec_checksequenceverify_same _ _ _ _ R) as ->; revert R.
  unfold exec_checksequenceverify; intros R; case_flag Hab.
  - destruct (stack st) as [| x s]; [discriminate |]; apply bind_ok in R; destruct R as (n & Rn & R).
    rewrite (read_num_mono _ _ _ _ _ minimal_mono Rn); exact R.
  - unfold exec_nop; destruct (flag a SCRIPT_VERIFY_DISCOURAGE_UPGRADABLE_NOPS) eqn:E; [| reflexivity].
    destruct (Hlocks E); congruence.
  - exact (exec_nop_mono _ _ R).
Qed.

Lemma exec_if_mono (op : opcodetype) (fExec : bool) (st st' : eval_state) :
  exec_if b sigversion op fExec st = Ok st' -> exec_if a sigversion op fExec st = Ok st'.
Proof.
  unfold exec_if; destruct fExec; [| auto]; destruct (stack st); [auto |].
  intros R; destruct (is_witness_v0 sigversion); cbn [andb] in *; [| exact R].
  case_flag Hab; auto; destruct (_ || _); [discriminate | exact R].
Qed.

Lemma exec_pick_mono (op : opcodetype) (s s' : list valtype) :
  exec_pick (fRequireMinimal b) op s = Ok s' -> exec_pick (fRequireMinimal a) op s = Ok s'.
Proof.
  destruct s as [| x [| y s]]; try discriminate; unfold exec_pick.
  intros R; apply bind_ok in R; destruct R as (n & Rn & R).
  rewrite (read_num_mono _ _ _ _ _ minimal_mono Rn); exact R.
Qed.

Lemma exec_unary_mono (op : opcodetype) (s s' : list valtype) :
  exec_unary (fRequireMinimal b) op s = Ok s' -> exec_unary (fRequireMinimal a) op s = Ok s'.
Proof.
  destruct s as [| x s]; try discriminate; unfold exec_unary.
  intros R; apply bind_ok in R; destruct R as (n & Rn & R).
  rewrite (read_num_mono _ _ _ _ _ minimal_mono Rn); exact R.
Qed.

Lemma exec_binary_mono (op : opcodetype) (s s' : list valtype) :
  exec_binary (fRequireMinimal b) op s = Ok s' -> exec_binary (fRequireMinimal a) op s = Ok s'.
Proof.
  destruct s as [| y [| x s]]; try discriminate; unfold exec_binary; intros R.
  apply bind_ok in R; destruct R as (n & Rn & R); apply bind_ok in R; destruct R as (m & Rm & R).
  rewrite (read_num_mono _ _ _ _ _ minimal_mono Rn); cbn [bind].
  rewrite (read_num_mono _ _ _ _ _ minimal_mono Rm); exact R.
Qed.

Lemma exec_within_mono (s s' : list valtype) :
  exec_within (fRequireMinimal b) s = Ok s' -> exec_within (fRequireMinimal a) s = Ok s'.
Proof.
  destruct s as [| z [| y [| x s]]]; try discriminate; unfold exec_within; intros R.
  apply bind_ok in R; destruct R as (n & Rn & R); apply bind_ok in R; destruct R as (m & Rm & R).
  apply bind_ok in R; destruct R as (k & Rk & R).
  rewrite (read_num_mono _ _ _ _ _ minimal_mono Rn); cbn [bind].
  rewrite (read_num_mono _ _ _ _ _ minimal_mono Rm); cbn [bind].
  rewrite (read_num_mono _ _ _ _ _ minimal_mono Rk); exact R.
Qed.

Lemma exec_checksig_mono (op : opcodetype) (code : bytes) (s s' : list valtype) :
  exec_checksig CheckLowS b checker sigversion op code s = Ok s' ->
  exec_checksig CheckLowS a checker sigversion op code s = Ok s'.
Proof.
  destruct s as [| k [| g s]]; try discriminate; unfold exec_checksig; intros R.
  apply bind_ok in R; destruct R as ([] & Re & R); rewrite (check_encodings_mono _ _ Re); cbn [bind].
  destruct (CheckSig _ _ _ _ _); cbn [negb andb] in *; [exact R |].
  case_flag Hab; auto; destruct (_ =? _); cbn [negb] in *; [exact R | discriminate].
Qed.

Lemma multisig_loop_mono (code : CScript) (keys : list valtype) : forall sigs r,
  multisig_loop CheckLowS b checker sigversion code sigs keys = Ok r ->
  multisig_loop CheckLowS a checker sigversion code sigs keys = Ok r.
Proof.
  induction keys as [| k keys IH]; intros [| g sigs] r; cbn [multisig_loop]; auto.
  intros R; apply bind_ok in R; destruct R as ([] & Re & R).
  rewrite (check_encodings_mono _ _ Re); cbn [bind].
  destruct (_ <? _)%nat; [exact R | apply IH; exact R].
Qed.

Lemma multisig_cleanup_mono (ok : bool) (n : nat) : forall ikey2 s s',
  multisig_cleanup b ok n ikey2 s = Ok s' -> multisig_cleanup a ok n ikey2 s = Ok s'.
Proof.
  induction n as [| n IH]; intros ikey2 s s'; cbn [multisig_cleanup]; [auto |].
  destruct s as [| x s]; [auto |]; intros R; destruct ok; cbn [negb andb] in *; [apply IH; exact R |].
  case_flag Hab; auto; (destruct (_ && _); [discriminate | apply IH; exact R]).
Qed.

Lemma exec_checkmultisig_mono (op : opcodetype) (code : bytes) (n : Z) (s : list valtype) (r : Z * list valtype) :
  exec_checkmultisig CheckLowS b checker sigversion op code n s = Ok r ->
  exec_checkmultisig CheckLowS a checker sigversion op code n s = Ok r.
Proof.
  unfold exec_checkmultisig; destruct (_ <? 1); [auto |]; intros R.
  apply bind_ok in R; destruct R as (k & Rk & R); rewrite (read_num_mono _ _ _ _ _ minimal_mono Rk); cbn [bind].
  destruct (_ || _); [exact R |]; destruct (_ >? _); [exact R |]; destruct (_ <? _); [exact R |].
  apply bind_ok in R; destruct R as (m & Rm & R); rewrite (read_num_mono _ _ _ _ _ minimal_mono Rm); cbn [bind].
  destruct (_ || _); [exact R |]; destruct (_ <? _); [exact R |].
  apply bind_ok in R; destruct R as (ok & Ro & R); rewrite (multisig_loop_mono _ _ _ _ Ro); cbn [bind].
  apply bind_ok in R; destruct R as (s1 & Rs & R); rewrite (multisig_cleanup_mono _ _ _ _ _ Rs); cbn [bind].
  destruct s1 as [| d s1]; [exact R |]; case_flag Hab; auto.
  destruct (_ =? _); cbn [negb] in *; [exact R | discriminate].
Qed.

Lemma exec_op_mono (op : opcodetype) (fExec : bool) (pc : bytes) (st st' : eval_state) :
  exec_op CheckLowS b checker sigversion op fExec pc st = Ok st' ->
  exec_op CheckLowS a checker sigversion op fExec pc st = Ok st'.
Proof.
  assert (Hon : forall r r', on_stack st r = Ok st' -> (forall s, r = Ok s -> r' = Ok s) ->
    on_stack st r' = Ok st').
  { intros r r' R Hr; apply bind_ok in R; destruct R as (s & Rs & R).
    unfold on_stack; rewrite (Hr _ Rs); exact R. }
  destruct op; cbn [exec_op]; auto; intros R;
    try (apply (Hon _ _ R); intros s; auto using exec_pick_mono, exec_unary_mono, exec_binary_mono,
         exec_within_mono, exec_checksig_mono; fail);
    try (auto using exec_nop_mono, exec_checklocktimeverify_mono, exec_checksequenceverify_mono,
         exec_if_mono; fail);
    apply bind_ok in R; destruct R as (r & R1 & R); rewrite (exec_checkmultisig_mono _ _ _ _ _ R1); exact R.
Qed.

Lemma exec_instr_mono (op : Z) (v pc : bytes) (st st' : eval_state) :
  exec_instr CheckLowS b checker sigversion op v pc st = Ok st' ->
  exec_instr CheckLowS a checker sigversion op v pc st = Ok st'.
Proof.
  unfold exec_instr; destruct (_ && _); [| destruct (_ || _); [apply exec_op_mono | auto]].
  pose proof minimal_mono; destruct (fRequireMinimal a), (fRequireMinimal b); cbn [andb]; auto;
    [discriminate H1; reflexivity |].
  destruct (negb _); [discriminate | auto].
Qed.

Lemma eval_loop_mono (fuel : nat) : forall pc st st',
  eval_loop CheckLowS b checker sigversion fuel pc st = Some (Ok st') ->
  eval_loop CheckLowS a checker sigversion fuel pc st = Some (Ok st').
Proof.
  induction fuel as [| fuel IH]; intros [| c pc] st st'; cbn [eval_loop]; auto.
  destruct (eval_step CheckLowS b checker sigversion (c :: pc) st) as [[pc1 st1] | e] eqn:E; [| discriminate].
  apply eval_step_ok in E; destruct E as (op & v & E1 & E2 & E3 & E4 & E5 & E6).
  apply exec_instr_mono in E5.
  rewrite (proj2 (eval_step_ok CheckLowS a checker sigversion (c :: pc) pc1 st st1)); [apply IH |].
  exists op, v; auto 10.
Qed.

Lemma EvalScript_mono (s s' : list valtype) (script : CScript) :
  EvalScript CheckLowS b checker sigversion s script = Some (Ok s') ->
  EvalScript CheckLowS a checker sigversion s script = Some (Ok s').
Proof.
  unfold EvalScript; destruct (_ >? _); [auto |].
  destruct (eval_loop CheckLowS b _ _ _ _ _) as [[st | e] |] eqn:E; try discriminate.
  apply eval_loop_mono in E; rewrite E; auto.
Qed.

End SoftFork.

(** * Signature encodings *)

(** A positive integer in as few big-endian bytes as its sign allows. *)
Definition der_integer (r : bytes) : bool :=
  match r with
  | [] => false
  | x :: r' =>
      (x <? 128) && (negb (x =? 0) || match r' with [] => true | y :: _ => 128 <=? y end)
  end.

(** The grammar of a signature: a sequence of two integers and the hash type. *)
Definition der_signature (r s : bytes) (hashtype : Z) : bytes :=
  [0x30; 4 + size r + size s; 0x02; size r] ++ r ++ [0x02; size s] ++ s ++ [hashtype].

Definition be_val (r : bytes) : Z := le_val 8 (rev r).

Lemma at_mid (pre post : bytes) (x i : Z) : size pre = i -> at_ (pre ++ x :: post) i = x.
Proof.
  unfold at_, get, size; intros <-; rewrite Nat2Z.id, app_nth2 by lia; rewrite Nat.sub_diag; reflexivity.
Qed.

(** Any string of the right length, cut where the two lengths say. *)
Definition cut (x0 x1 x2 x3 : Z) (r : bytes) (y z : Z) (s : bytes) (h : Z) : bytes :=
  [x0; x1; x2; x3] ++ r ++ [y; z] ++ s ++ [h].

Lemma cut_size (x0 x1 x2 x3 : Z) (r : bytes) (y z : Z) (s : bytes) (h : Z) :
  size (cut x0 x1 x2 x3 r y z s h) = size r + size s + 7.
Proof. unfold cut, size; rewrite !length_app; cbn [length]; lia. Qed.

Lemma cut_exists (sig : bytes) (n m : nat) : length sig = (n + m + 7)%nat ->
  exists x0 x1 x2 x3 r y z s h, sig = cut x0 x1 x2 x3 r y z s h /\ length r = n /\ length s = m.
Proof.
  intros Hl; destruct sig as [| x0 [| x1 [| x2 [| x3 t]]]]; cbn [length] in Hl; try lia.
  pose proof (firstn_skipn n t) as Et; set (r := firstn n t) in *; set (t1 := skipn n t) in *.
  assert (Hr : length r = n) by (unfold r; rewrite length_firstn; lia).
  assert (Ht1 : length t1 = (m + 3)%nat) by (unfold t1; rewrite length_skipn; lia).
  destruct t1 as [| y [| z t2]]; cbn [length] in Ht1; try lia.
  destruct (exists_last (l := t2)) as (s & h & E); [intros ->; cbn in Ht1; lia |].
  assert (Hs : length s = m) by (rewrite E, length_app in Ht1; cbn [length] in Ht1; lia).
  exists x0, x1, x2, x3, r, y, z, s, h; split; [| auto]; unfold cut; rewrite <- Et, E; reflexivity.
Qed.

Lemma der_integer_checks (r tl : bytes) (pre : bytes) (i : Z) : is_bytes (r ++ tl) -> size pre = i -> r <> [] ->
  der_integer r =
  negb (negb (Z.land (at_ (pre ++ r ++ tl) i) 0x80 =? 0)) &&
  negb ((size r >? 1) && (at_ (pre ++ r ++ tl) i =? 0) &&
        (Z.land (at_ (pre ++ r ++ tl) (i + 1)) 0x80 =? 0)).
Proof.
  intros Hb Hi Hr; destruct r as [| x r]; [contradiction |]; cbn [app] in *.
  apply Forall_cons_iff in Hb; destruct Hb as [Hx Hb].
  rewrite at_mid by exact Hi; rewrite sign_bit by exact Hx; cbn [der_integer].
  rewrite Z.leb_antisym, negb_involutive; f_equal.
  destruct r as [| y r]; [cbn; rewrite orb_true_r; reflexivity |].
  apply Forall_cons_iff in Hb; destruct Hb as [Hy Hb].
  replace (pre ++ x :: (y :: r) ++ tl) with ((pre ++ [x]) ++ y :: r ++ tl) by (rewrite <- app_assoc; reflexivity).
  rewrite (at_mid (pre ++ [x])) by (unfold size in *; rewrite length_app; cbn [length]; lia).
  pose proof (sign_bit y Hy) as Ey.
  replace (size (x :: y :: r) >? 1) with true by (unfold size; cbn [length]; symmetry; apply Z.gtb_lt; lia).
  destruct (x =? 0); cbn [negb orb andb]; [| reflexivity]; rewrite Ey; reflexivity.
Qed.

Lemma is_bytes_app (u v : bytes) : is_bytes (u ++ v) <-> is_bytes u /\ is_bytes v.
Proof. apply Forall_app. Qed.

(** On a string cut at the lengths it states, the checks are those of the
    grammar. *)
Lemma IsValidSignatureEncoding_cut (x0 x1 x2 : Z) (r : bytes) (y : Z) (s : bytes) (h : Z) :
  let sig := cut x0 x1 x2 (size r) r y (size s) s h in
  is_bytes sig ->
  IsValidSignatureEncoding sig =
  ((9 <=? size sig) && (size sig <=? 73) && (x0 =? 0x30) && (x1 =? size sig - 3) && (x2 =? 0x02) &&
   der_integer r && (y =? 0x02) && der_integer s).
Proof.
  intros sig Hb; unfold IsValidSignatureEncoding.
  pose proof (cut_size x0 x1 x2 (size r) r y (size s) s h) as Hlen; fold sig in Hlen.
  assert (Hr0 : 0 <= size r) by (unfold size; lia); assert (Hs0 : 0 <= size s) by (unfold size; lia).
  assert (A3 : at_ sig 3 = size r) by reflexivity.
  assert (Ay : at_ sig (size r + 4) = y).
  { replace sig with (([x0; x1; x2; size r] ++ r) ++ y :: [size s] ++ s ++ [h])
      by (unfold sig, cut; rewrite <- !app_assoc; reflexivity).
    apply at_mid; unfold size; rewrite length_app; cbn [length]; lia. }
  assert (Ez : sig = ([x0; x1; x2; size r] ++ r ++ [y]) ++ size s :: s ++ [h])
    by (unfold sig, cut; rewrite <- !app_assoc; reflexivity).
  assert (Az : at_ sig (5 + size r) = size s)
    by (rewrite Ez; apply at_mid; unfold size; rewrite !length_app; cbn [length]; lia).
  cbv zeta; rewrite A3, Az, Ay.
  change (at_ sig 0) with x0; change (at_ sig 1) with x1; change (at_ sig 2) with x2.
  rewrite !Z.gtb_ltb, Z.geb_leb.
  assert (HbR : is_bytes (r ++ [y; size s] ++ s ++ [h])) by (apply is_bytes_app in Hb; apply Hb).
  assert (HbS : is_bytes (s ++ [h])) by (rewrite Ez in Hb; apply is_bytes_app in Hb; destruct Hb as [_ Hb];
    apply Forall_cons_iff in Hb; apply Hb).
  assert (DR : size r <> 0 -> der_integer r = negb (negb (Z.land (at_ sig 4) 0x80 =? 0)) &&
    negb ((1 <? size r) && (at_ sig 4 =? 0) && (Z.land (at_ sig 5) 0x80 =? 0))).
  { intros Hr; rewrite <- Z.gtb_ltb.
    apply (der_integer_checks r ([y; size s] ++ s ++ [h]) [x0; x1; x2; size r] 4 HbR eq_refl).
    intros ->; apply Hr; reflexivity. }
  assert (DS : size s <> 0 -> der_integer s = negb (negb (Z.land (at_ sig (size r + 6)) 0x80 =? 0)) &&
    negb ((1 <? size s) && (at_ sig (size r + 6) =? 0) && (Z.land (at_ sig (size r + 7)) 0x80 =? 0))).
  { intros Hs; rewrite <- Z.gtb_ltb.
    replace (size r + 7) with (size r + 6 + 1) by lia.
    replace sig with (([x0; x1; x2; size r] ++ r ++ [y; size s]) ++ s ++ [h])
      by (unfold sig, cut; rewrite <- !app_assoc; reflexivity).
    apply der_integer_checks; [exact HbS | unfold size; rewrite !length_app; cbn [length]; lia |].
    intros ->; apply Hs; reflexivity. }
  assert (ER : size r = 0 -> der_integer r = false) by (destruct r; [reflexivity | unfold size; cbn; lia]).
  assert (ES : size s = 0 -> der_integer s = false) by (destruct s; [reflexivity | unfold size; cbn; lia]).
  rewrite (Z.leb_antisym 73 (size sig)), (Z.leb_antisym (size sig) 9).
  replace (size sig <=? 5 + size r) with false by (symmetry; apply Z.leb_gt; lia).
  replace (size r + size s + 7 =? size sig) with true by (symmetry; apply Z.eqb_eq; lia).
  destruct (size sig <? 9), (73 <? size sig), (x0 =? 48), (x1 =? size sig - 3), (x2 =? 2); cbn [negb andb]; try reflexivity.
  destruct (Z.eqb_spec (size r) 0) as [Er | Er]; [rewrite (ER Er); reflexivity |]; rewrite (DR Er).
  destruct (Z.eqb_spec (size s) 0) as [Es | Es];
    [rewrite (ES Es) | rewrite (DS Es)]; clear;
    repeat match goal with |- context [Z.land ?u 128 =? 0] => destruct (Z.land u 128 =? 0) end;
    repeat match goal with |- context [(1 <? ?u) && ?v] => destruct ((1 <? u) && v) end;
    cbn [negb andb]; try reflexivity; destruct (y =? 2); reflexivity.
Qed.

(** A string that passes the check is cut that way. *)
Lemma IsValidSignatureEncoding_lengths (sig : bytes) : is_bytes sig ->
  IsValidSignatureEncoding sig = true ->
  exists x0 x1 x2 r y s h, sig = cut x0 x1 x2 (size r) r y (size s) s h.
Proof.
  intros Hb; unfold IsValidSignatureEncoding.
  destruct (size sig <? 9); [discriminate |]; destruct (size sig >? 73); [discriminate |].
  destruct (negb _); [discriminate |]; destruct (negb _); [discriminate |]; cbv zeta.
  destruct (_ >=? _); [discriminate |]; destruct (negb _) eqn:El; [discriminate |]; intros _.
  apply negb_false_iff, Z.eqb_eq in El.
  assert (Hat : forall i, 0 <= at_ sig i)
    by (intros i; destruct (get_Forall (in_u 8) sig (Z.to_nat i) Hb ltac:(unfold in_u; lia)); assumption).
  pose proof (Hat 3) as H3; pose proof (Hat (5 + at_ sig 3)) as H5.
  destruct (cut_exists sig (Z.to_nat (at_ sig 3)) (Z.to_nat (at_ sig (5 + at_ sig 3))))
    as (x0 & x1 & x2 & x3 & r & y & z & s & h & E & Hr & Hs); [unfold size in El; lia |].
  assert (E3 : at_ sig 3 = x3) by (rewrite E; reflexivity).
  assert (Er : x3 = size r) by (unfold size; lia).
  assert (Ez : at_ sig (5 + at_ sig 3) = z).
  { rewrite E3, E; replace (cut x0 x1 x2 x3 r y z s h) with (([x0; x1; x2; x3] ++ r ++ [y]) ++ z :: s ++ [h])
      by (unfold cut; rewrite <- !app_assoc; reflexivity).
    apply at_mid; rewrite Er; unfold size; rewrite !length_app; cbn [length]; lia. }
  exists x0, x1, x2, r, y, s, h; rewrite E, Er; f_equal; unfold size; lia.
Qed.

Lemma be_val_cons (x : Z) (r : bytes) : be_val (x :: r) = x * 2 ^ (8 * size r) + be_val r.
Proof.
  unfold be_val, size; cbn [rev]; rewrite le_val_snoc, length_rev; ring.
Qed.

Lemma be_val_bounds (r : bytes) : is_bytes r -> 0 <= be_val r < 2 ^ (8 * size r).
Proof.
  intros Hb; unfold be_val, size; rewrite <- length_rev; apply le_val_bounds; [lia | apply Forall_rev, Hb].
Qed.

(** The length of a minimal integer is determined by its value. *)
Lemma der_integer_bounds (r : bytes) : is_bytes r -> der_integer r = true ->
  1 <= size r /\ be_val r < 2 ^ (8 * size r - 1) /\ (2 <= size r -> 2 ^ (8 * (size r - 1) - 1) <= be_val r).
Proof.
  destruct r as [| x r]; [discriminate |]; cbn [der_integer]; intros Hb Hd.
  apply Forall_cons_iff in Hb; destruct Hb as [Hx Hb]; apply andb_prop in Hd; destruct Hd as [H1 H2].
  pose proof (be_val_bounds r Hb) as Hr; rewrite be_val_cons.
  replace (size (x :: r)) with (size r + 1) by (unfold size; cbn [length]; lia).
  assert (Hn : 0 <= size r) by (unfold size; lia); bool_to_prop; unfold in_u in Hx.
  assert (Hp : 0 < 2 ^ (8 * size r)) by (apply pow2_pos; lia).
  split; [lia |]; split.
  - replace (8 * (size r + 1) - 1) with (8 * size r + 7) by lia; rewrite Z.pow_add_r by lia; nia.
  - intros Hn1; destruct r as [| y r]; [cbn in Hn1; lia |].
    replace (8 * (size (y :: r) + 1 - 1) - 1) with (8 * size r + 7) by (unfold size; cbn [length]; lia).
    assert (E8 : 2 ^ (8 * size (y :: r)) = 2 ^ (8 * size r) * 256).
    { replace (8 * size (y :: r)) with (8 * size r + 8) by (unfold size; cbn [length]; lia).
      rewrite Z.pow_add_r by (unfold size; lia); reflexivity. }
    rewrite Z.pow_add_r by (unfold size; lia); change (2 ^ 7) with 128.
    apply Forall_cons_iff in Hb; destruct Hb as [Hy Hb]; pose proof (be_val_bounds r Hb).
    rewrite be_val_cons in *; unfold in_u in Hy.
    apply orb_prop in H2; destruct H2 as [H2 | H2]; bool_to_prop; nia.
Qed.

Lemma der_integer_unique (r r' : bytes) : is_bytes r -> is_bytes r' ->
  der_integer r = true -> der_integer r' = true -> be_val r = be_val r' -> r = r'.
Proof.
  intros Hb Hb' Hd Hd' E.
  assert (Hlt : forall u v, is_bytes u -> is_bytes v -> der_integer u = true -> der_integer v = true ->
            be_val u = be_val v -> ~ size u < size v).
  { intros u v Hu Hv Du Dv Euv Hlt.
    destruct (der_integer_bounds u Hu Du) as (H1 & H2 & _).
    destruct (der_integer_bounds v Hv Dv) as (_ & _ & H3); specialize (H3 ltac:(lia)).
    assert (2 ^ (8 * size u - 1) <= 2 ^ (8 * (size v - 1) - 1)) by (apply Z.pow_le_mono_r; lia).
    lia. }
  pose proof (Hlt r r' Hb Hb' Hd Hd' E); pose proof (Hlt r' r Hb' Hb Hd' Hd (eq_sym E)).
  rewrite <- (rev_involutive r), <- (rev_involutive r'); f_equal.
  apply (le_val_inj 8); [lia | apply Forall_rev, Hb | apply Forall_rev, Hb' | | exact E].
  rewrite !length_rev; unfold size in *; lia.
Qed.

(** * Multisignatures *)

(** Each signature is good for a key of its own, in the same order. *)
Inductive matched {A B : Type} (good : A -> B -> bool) : list A -> list B -> Prop :=
| matched_nil keys : matched good [] keys
| matched_take sig key sigs keys : good sig key = true -> matched good sigs keys ->
    matched good (sig :: sigs) (key :: keys)
| matched_skip key sigs keys : matched good sigs keys -> matched good sigs (key :: keys).

Section Matching.
Context {A B : Type} (good : A -> B -> bool).

Lemma matched_length (sigs : list A) (keys : list B) : matched good sigs keys ->
  (length sigs <= length keys)%nat.
Proof. induction 1; cbn [length]; lia. Qed.

Lemma matched_tail (sig : A) (sigs : list A) (keys : list B) :
  matched good (sig :: sigs) keys -> matched good sigs keys.
Proof.
  revert sig sigs; induction keys as [| k keys IH]; intros sig sigs M; inversion M; subst.
  - apply matched_skip; assumption.
  - apply matched_skip; eauto.
Qed.

(** Taking the first key that fits loses nothing. *)
Lemma matched_greedy (sig : A) (key : B) (sigs : list A) (keys : list B) : good sig key = true ->
  matched good (sig :: sigs) (key :: keys) -> matched good sigs keys.
Proof. intros _ M; inversion M; subst; eauto using matched_tail. Qed.

Lemma matched_miss (sig : A) (key : B) (sigs : list A) (keys : list B) : good sig key = false ->
  matched good (sig :: sigs) (key :: keys) -> matched good (sig :: sigs) keys.
Proof. intros Hg M; inversion M; subst; [congruence | assumption]. Qed.

End Matching.

Section Multisig.
Context {Checker : Type} `{BaseSignatureChecker Checker} `{HashFunctions}.
Variable CheckLowS : bytes -> bool.
Variable flags : Z.
Variable checker : Checker.
Variable sigversion : SigVersion.

(** The signatures and keys all pass the encoding rules of the flags. *)
Definition encodings_pass (sigs keys : list valtype) : Prop :=
  Forall (fun sig => Forall (fun key =>
    check_encodings CheckLowS flags sigversion sig key = Ok tt) keys) sigs.

Lemma encodings_pass_tails (sig key : valtype) (sigs keys : list valtype) :
  encodings_pass (sig :: sigs) (key :: keys) ->
  check_encodings CheckLowS flags sigversion sig key = Ok tt /\
  encodings_pass (sig :: sigs) keys /\ encodings_pass sigs keys.
Proof.
  intros E; apply Forall_cons_iff in E; destruct E as [E1 E2].
  apply Forall_cons_iff in E1; destruct E1 as [E0 E1]; split; [exact E0 |].
  enough (encodings_pass sigs keys) as E by (split; [constructor |]; assumption).
  eapply Forall_impl; [| exact E2]; intros x Hx; apply Forall_cons_iff in Hx; apply Hx.
Qed.

Lemma multisig_loop_correct (code : CScript) (keys : list valtype) : forall sigs,
  encodings_pass sigs keys ->
  exists ok, multisig_loop CheckLowS flags checker sigversion code sigs keys = Ok ok /\
    (ok = true <-> matched (fun sig key => CheckSig checker sig key code sigversion) sigs keys).
Proof.
  induction keys as [| key keys IH]; intros [| sig sigs] E; cbn [multisig_loop].
  - exists true; split; [reflexivity | split; [constructor | reflexivity]].
  - exists false; split; [reflexivity | split; [discriminate | intros M; inversion M]].
  - exists true; split; [reflexivity | split; [constructor | reflexivity]].
  - apply encodings_pass_tails in E; destruct E as (E0 & E1 & E2); rewrite E0; cbn [bind].
    set (good := fun sig key => CheckSig checker sig key code sigversion) in *.
    change (CheckSig checker sig key code sigversion) with (good sig key).
    destruct (good sig key) eqn:G.
    + destruct (Nat.ltb_spec (length keys) (length sigs)) as [Hl | Hl].
      * exists false; split; [reflexivity | split; [discriminate |]]; intros M.
        apply matched_greedy in M; [| exact G]; apply matched_length in M; lia.
      * destruct (IH sigs E2) as (ok & -> & Hok); exists ok; split; [reflexivity |].
        rewrite Hok; split; [apply matched_take; exact G | apply matched_greedy; exact G].
    + destruct (Nat.ltb_spec (length keys) (length (sig :: sigs))) as [Hl | Hl].
      * exists false; split; [reflexivity | split; [discriminate |]]; intros M.
        apply matched_miss in M; [| exact G]; apply matched_length in M; lia.
      * destruct (IH (sig :: sigs) E1) as (ok & -> & Hok); exists ok; split; [reflexivity |].
        rewrite Hok; split; [apply matched_skip | apply matched_miss; exact G].
Qed.

Definition nonempty (v : valtype) : bool := negb (size v =? 0).

Lemma multisig_cleanup_sigs (ok : bool) (sigs : list valtype) : forall rest,
  multisig_cleanup flags ok (length sigs) 0 (sigs ++ rest) =
  if negb ok && flag flags SCRIPT_VERIFY_NULLFAIL && existsb nonempty sigs
  then Err SCRIPT_ERR_SIG_NULLFAIL else Ok rest.
Proof.
  induction sigs as [| x sigs IH]; intros rest; cbn [multisig_cleanup length app existsb].
  { rewrite andb_false_r; reflexivity. }
  cbn [Z.eqb Z.gtb Z.compare]; rewrite andb_true_r; fold (nonempty x); rewrite IH.
  destruct (negb ok && flag flags _); cbn [andb]; [| reflexivity].
  destruct (nonempty x); reflexivity.
Qed.

Lemma multisig_cleanup_keys (ok : bool) (n : nat) (pre : list valtype) : forall l,
  multisig_cleanup flags ok (length pre + n) (Z.of_nat (length pre)) (pre ++ l) =
  multisig_cleanup flags ok n 0 l.
Proof.
  induction pre as [| x pre IH]; intros l; [reflexivity |].
  cbn [length app Nat.add multisig_cleanup].
  rewrite (proj2 (Z.eqb_neq (Z.of_nat (S (length pre))) 0)), andb_false_r by lia; cbn [andb].
  rewrite (proj2 (Z.gtb_lt _ _)) by lia.
  replace (Z.of_nat (S (length pre)) - 1) with (Z.of_nat (length pre)) by lia; apply IH.
Qed.

Lemma read_num_serialize (m : bool) (n : Z) : Z.abs n < 2 ^ 31 ->
  read_num m nDefaultMaxNumSize (serialize n) = Ok n.
Proof.
  intros Hn; apply (read_num_mono m true); [reflexivity |]; unfold read_num, nDefaultMaxNumSize.
  destruct (serialize_decodes n 4) as [_ ->]; [lia | exact Hn | reflexivity].
Qed.

Lemma getint_small (n : Z) : Z.abs n < 2 ^ 31 -> getint n = n.
Proof.
  intros Hn; unfold getint; rewrite Z.gtb_ltb, !(proj2 (Z.ltb_ge _ _)) by lia; reflexivity.
Qed.

(** The arguments of the opcode as they lie on the stack, top first. *)
Definition multisig_args (keys sigs : list valtype) (rest : list valtype) : list valtype :=
  serialize (Z.of_nat (length keys)) :: keys ++ serialize (Z.of_nat (length sigs)) :: sigs ++ rest.

Lemma exec_checkmultisig_args (op : opcodetype) (code : bytes) (nOps : Z) (keys sigs rest : list valtype)
    (dummy : valtype) :
  Z.of_nat (length keys) <= MAX_PUBKEYS_PER_MULTISIG -> (length sigs <= length keys)%nat ->
  nOps + Z.of_nat (length keys) <= MAX_OPS_PER_SCRIPT ->
  (flag flags SCRIPT_VERIFY_NULLDUMMY = true -> dummy = []) ->
  exec_checkmultisig CheckLowS flags checker sigversion op code nOps (multisig_args keys sigs (dummy :: rest)) =
  let! ok := multisig_loop CheckLowS flags checker sigversion
               (fold_left (drop_signature sigversion) sigs code) sigs keys in
  if negb ok && flag flags SCRIPT_VERIFY_NULLFAIL && existsb nonempty sigs
  then Err SCRIPT_ERR_SIG_NULLFAIL
  else match op with
       | OP_CHECKMULTISIGVERIFY =>
           if ok then Ok (nOps + Z.of_nat (length keys), rest) else Err SCRIPT_ERR_CHECKMULTISIGVERIFY
       | _ => Ok (nOps + Z.of_nat (length keys), vch_bool ok :: rest)
       end.
Proof.
  unfold MAX_PUBKEYS_PER_MULTISIG; intros Hk Hs Hn Hd; unfold exec_checkmultisig.
  set (s := multisig_args keys sigs (dummy :: rest)).
  assert (Hlen : length s = (length keys + length sigs + 3 + length rest)%nat)
    by (unfold s, multisig_args; cbn [length]; rewrite length_app; cbn [length]; rewrite length_app; cbn [length]; lia).
  assert (E0 : nth 0 s [] = serialize (Z.of_nat (length keys))) by reflexivity.
  assert (E1 : nth (length keys + 1) s [] = serialize (Z.of_nat (length sigs))).
  { unfold s, multisig_args; rewrite Nat.add_1_r; cbn [nth]; rewrite app_nth2 by lia.
    rewrite Nat.sub_diag; reflexivity. }
  assert (Ek : firstn (length keys) (skipn 1 s) = keys)
    by (unfold s, multisig_args; cbn [skipn]; rewrite firstn_app, Nat.sub_diag, firstn_all, app_nil_r; reflexivity).
  assert (Es : firstn (length sigs) (skipn (length keys + 2) s) = sigs).
  { unfold s, multisig_args; rewrite Nat.add_succ_r; cbn [skipn].
    rewrite skipn_app, skipn_all2 by lia; replace (length keys + 1 - length keys)%nat with 1%nat by lia.
    cbn [app skipn]; rewrite firstn_app, Nat.sub_diag, firstn_all, app_nil_r; reflexivity. }
  assert (Ec : forall ok, multisig_cleanup flags ok (length keys + length sigs + 2) (Z.of_nat (length keys) + 2) s =
    if negb ok && flag flags SCRIPT_VERIFY_NULLFAIL && existsb nonempty sigs
    then Err SCRIPT_ERR_SIG_NULLFAIL else Ok (dummy :: rest)).
  { intros ok; set (pre := serialize (Z.of_nat (length keys)) :: keys ++ [serialize (Z.of_nat (length sigs))]).
    assert (Hp : length pre = (length keys + 2)%nat) by (unfold pre; cbn [length]; rewrite length_app; cbn [length]; lia).
    replace s with (pre ++ sigs ++ dummy :: rest)
      by (unfold s, pre, multisig_args; cbn [app]; rewrite <- app_assoc; reflexivity).
    replace (length keys + length sigs + 2)%nat with (length pre + length sigs)%nat by lia.
    replace (Z.of_nat (length keys) + 2) with (Z.of_nat (length pre)) by lia.
    rewrite multisig_cleanup_keys; apply multisig_cleanup_sigs. }
  rewrite E0, read_num_serialize by lia; cbn [bind]; rewrite getint_small by lia.
  rewrite !Nat2Z.id, E1, read_num_serialize by lia; cbn [bind]; rewrite getint_small by lia.
  rewrite !Nat2Z.id, Ek, Es, Hlen, !Z.gtb_ltb; unfold MAX_PUBKEYS_PER_MULTISIG.
  rewrite !(proj2 (Z.ltb_ge _ _)) by lia; cbn [orb].
  destruct (multisig_loop _ _ _ _ _ _ _) as [ok | e]; cbn [bind]; [| reflexivity].
  rewrite Ec; destruct (_ && _ && _); cbn [bind]; [reflexivity |].
  assert (Hdn : flag flags SCRIPT_VERIFY_NULLDUMMY && negb (size dummy =? 0) = false)
    by (destruct (flag flags SCRIPT_VERIFY_NULLDUMMY); [rewrite (Hd eq_refl) |]; reflexivity).
  rewrite Hdn; reflexivity.
Qed.

End Multisig.

(** * Theorems *)

(** The configurations a run of the loop goes through. *)
Inductive reaches {Checker : Type} `{BaseSignatureChecker Checker} `{HashFunctions}
    (CheckLowS : bytes -> bool) (flags : Z) (checker : Checker) (sigversion : SigVersion)
    (pc0 : bytes) (st0 : eval_state) : bytes -> eval_state -> Prop :=
| reaches_start : reaches CheckLowS flags checker sigversion pc0 st0 pc0 st0
| reaches_step pc st pc' st' :
    reaches CheckLowS flags checker sigversion pc0 st0 pc st ->
    eval_step CheckLowS flags checker sigversion pc st = Ok (pc', st') ->
    reaches CheckLowS flags checker sigversion pc0 st0 pc' st'.

Section Reachable.
Context {Checker : Type} `{BaseSignatureChecker Checker} `{HashSizes}.
Variable CheckLowS : bytes -> bool.
Variable flags : Z.
Variable checker : Checker.
Variable sigversion : SigVersion.

Lemma reaches_invariant (pc0 pc : bytes) (st0 st : eval_state) : is_bytes pc0 -> eval_ok st0 ->
  reaches CheckLowS flags checker sigversion pc0 st0 pc st ->
  is_bytes pc /\ eval_ok st /\ exists pre, pc0 = pre ++ pc.
Proof.
  intros Hb Hok R; induction R as [| pc st pc' st' R (Hb' & Hok' & pre & E) S].
  { split_all; auto; exists []; reflexivity. }
  destruct (eval_step_invariant _ _ _ _ _ _ _ _ Hb' Hok' S) as (Hb2 & Hok2 & _); split_all; auto.
  apply eval_step_shorter in S; destruct S as (p & _ & ->).
  exists (pre ++ p); rewrite <- app_assoc; exact E.
Qed.

Lemma eval_loop_reaches (fuel : nat) (pc0 : bytes) (st0 : eval_state) : forall pc st st',
  reaches CheckLowS flags checker sigversion pc0 st0 pc st ->
  eval_loop CheckLowS flags checker sigversion fuel pc st = Some (Ok st') ->
  reaches CheckLowS flags checker sigversion pc0 st0 [] st'.
Proof.
  induction fuel as [| fuel IH]; intros [| c pc] st st' R E; cbn [eval_loop] in E; try discriminate;
    try (injection E as <-; exact R).
  destruct (eval_step _ _ _ _ _ _) as [[pc1 st1] | e] eqn:S; [| discriminate].
  eapply IH; [| exact E]; eapply reaches_step; eauto.
Qed.

Lemma EvalScript_total (s : list valtype) (script : CScript) :
  exists r, EvalScript CheckLowS flags checker sigversion s script = Some r.
Proof.
  unfold EvalScript; destruct (_ >? _); [eauto |].
  destruct (eval_loop_total CheckLowS flags checker sigversion (length script) script
              (mkEval s [] [] 0 script) (le_n _)) as (r & ->).
  destruct r as [st | e]; [destruct (vfExec st) |]; eauto.
Qed.

Lemma start_ok (s : list valtype) (script : CScript) : Forall item_ok s ->
  Z.of_nat (length s) <= MAX_STACK_SIZE -> eval_ok (mkEval s [] [] 0 script).
Proof.
  intros Hs Hl; constructor; cbn [stack altstack nOpCount length]; auto; [lia | unfold MAX_OPS_PER_SCRIPT; lia].
Qed.

Lemma EvalScript_items (s s' : list valtype) (script : CScript) : Forall item_ok s ->
  Z.of_nat (length s) <= MAX_STACK_SIZE -> is_bytes script ->
  EvalScript CheckLowS flags checker sigversion s script = Some (Ok s') ->
  Forall item_ok s' /\ Z.of_nat (length s') <= MAX_STACK_SIZE.
Proof.
  intros Hs Hl Hb; unfold EvalScript; destruct (_ >? _); [discriminate |].
  destruct (eval_loop _ _ _ _ _ _ _) as [[st |] |] eqn:E; try discriminate.
  destruct (vfExec st); [| discriminate]; intros [= <-].
  apply (eval_loop_reaches _ script (mkEval s [] [] 0 script)) in E; [| constructor].
  apply reaches_invariant in E; [| exact Hb | apply start_ok; assumption].
  destruct E as (_ & [K1 _ K3 _] & _); split; [exact K1 | lia].
Qed.

End Reachable.

(** A checker that answers from a table, and hash functions that keep only
    the size of their result: what the witnesses below run with. *)
#[local] Instance table_checker : BaseSignatureChecker (valtype -> valtype -> bool) := {
  CheckSig c sig key _ _ := c sig key;
  CheckLockTime _ _ := true;
  CheckSequence _ _ := true
}.

#[local] Instance pad_hashes : HashFunctions := {
  CRIPEMD160 v := firstn 20 (map w8 v ++ repeat 0 20);
  CSHA1 v := firstn 20 (map w8 v ++ repeat 0 20);
  CSHA256 v := firstn 32 (map w8 v ++ repeat 0 32)
}.

Lemma pad_blob (n : nat) (v : bytes) : is_blob n (firstn n (map w8 v ++ repeat 0 n)).
Proof.
  split; [rewrite length_firstn, length_app, repeat_length; lia |].
  apply Forall_firstn', is_bytes_app; split; [| apply Forall_forall; intros x Hx; apply repeat_spec in Hx; subst; unfold in_u; lia].
  apply Forall_map, Forall_forall; intros x _; apply (wrap_bounds 8); lia.
Qed.

#[local] Instance pad_sizes : HashSizes.
Proof. split; intros v; apply pad_blob. Qed.

(** C25: the interpreter always stops, and never outgrows its limits: every
    configuration a run goes through has at most 1000 elements on its two
    stacks together, elements of at most 520 bytes, at most 201 counted
    operations, and an instruction pointer inside the script; a script that
    succeeds leaves such a stack.  Scripts over 10000 bytes are refused. *)
Theorem EvalScript_limits {Checker : Type} `{BaseSignatureChecker Checker} `{HashSizes}
    (CheckLowS : bytes -> bool) (flags : Z) (checker : Checker) (sigversion : SigVersion)
    (s : list valtype) (script : CScript) :
  (exists r, EvalScript CheckLowS flags checker sigversion s script = Some r) /\
  (size script > MAX_SCRIPT_SIZE ->
   EvalScript CheckLowS flags checker sigversion s script = Some (Err SCRIPT_ERR_SCRIPT_SIZE)) /\
  (Forall item_ok s -> Z.of_nat (length s) <= MAX_STACK_SIZE -> is_bytes script ->
   (forall pc st, reaches CheckLowS flags checker sigversion script (mkEval s [] [] 0 script) pc st ->
      eval_ok st /\ exists pre, script = pre ++ pc) /\
   (forall s', EvalScript CheckLowS flags checker sigversion s script = Some (Ok s') ->
      Forall item_ok s' /\ Z.of_nat (length s') <= MAX_STACK_SIZE)).
Proof.
  split; [apply EvalScript_total |]; split.
  - intros Hs; unfold EvalScript; rewrite (proj2 (Z.gtb_lt _ _)) by lia; reflexivity.
  - intros Hs Hl Hb; split.
    + intros pc st R; apply reaches_invariant in R; [tauto | exact Hb | apply start_ok; assumption].
    + intros s'; apply EvalScript_items; assumption.
Qed.

Lemma EvalScript_limits_witness :
  exists s', EvalScript (fun _ => true) 0 BaseChecker SIGVERSION_BASE [[1]; [2]]
    [opcode_value OP_DUP; opcode_value OP_SHA256; 1; 7] = Some (Ok s') /\ Forall item_ok s'.
Proof.
  destruct (EvalScript_limits (fun _ => true) 0 BaseChecker SIGVERSION_BASE [[1]; [2]]
    [opcode_value OP_DUP; opcode_value OP_SHA256; 1; 7]) as (_ & _ & Hok).
  destruct Hok as [_ Hok];
    [repeat constructor; unfold in_u, size, MAX_SCRIPT_ELEMENT_SIZE; cbn; lia
    | unfold MAX_STACK_SIZE; cbn; lia | repeat constructor; unfold in_u; cbn; lia |].
  eexists; split; [reflexivity | apply Hok; reflexivity].
Defined.

(** The encoding rule for signatures accepts exactly the strict DER
    grammar: a sequence of two integers, each positive and in the fewest
    bytes, followed by the hash type byte, in at most 73 bytes; so the pair of
    numbers and the hash type of a signature have a single accepted encoding. *)
Theorem SignatureEncoding_correct (sig : valtype) : is_bytes sig ->
  (IsValidSignatureEncoding sig = true <->
   exists r s h, der_integer r = true /\ der_integer s = true /\ size sig <= 73 /\
     sig = der_signature r s h) /\
  (forall r s h r' s', sig = der_signature r s h -> is_bytes r' -> is_bytes s' ->
   der_integer r = true -> der_integer s = true -> der_integer r' = true -> der_integer s' = true ->
   be_val r = be_val r' -> be_val s = be_val s' -> der_signature r' s' h = sig).
Proof.
  intros Hb; split; [split |].
  - intros Hv; destruct (IsValidSignatureEncoding_lengths sig Hb Hv) as (x0 & x1 & x2 & r & y & s & h & ->).
    rewrite IsValidSignatureEncoding_cut, cut_size in Hv by exact Hb; rewrite cut_size; bool_to_prop; subst.
    exists r, s, h; split_all; auto; unfold der_signature.
    replace (size r + size s + 7 - 3) with (4 + size r + size s) by lia; reflexivity.
  - intros (r & s & h & Hr & Hs & Hl & ->).
    assert (E : der_signature r s h = cut 0x30 (4 + size r + size s) 0x02 (size r) r 0x02 (size s) s h) by reflexivity.
    rewrite E in Hb, Hl |- *; rewrite IsValidSignatureEncoding_cut by exact Hb.
    rewrite Hr, Hs, (proj2 (Z.leb_le _ _) Hl).
    assert (1 <= size r) by (destruct r; [discriminate | unfold size; cbn; lia]).
    assert (1 <= size s) by (destruct s; [discriminate | unfold size; cbn; lia]).
    rewrite cut_size, (proj2 (Z.leb_le _ _)), (proj2 (Z.eqb_eq (4 + _ + _) _)) by lia; reflexivity.
  - intros r s h r' s' -> Hr' Hs' D1 D2 D3 D4 E1 E2; unfold der_signature in Hb.
    apply is_bytes_app in Hb; destruct Hb as [_ Hb]; apply is_bytes_app in Hb; destruct Hb as [Hr Hb].
    apply is_bytes_app in Hb; destruct Hb as [_ Hb]; apply is_bytes_app in Hb; destruct Hb as [Hs _].
    rewrite (der_integer_unique r r'), (der_integer_unique s s'); auto.
Qed.

Lemma SignatureEncoding_correct_witness :
  IsValidSignatureEncoding (der_signature [0; 200] [7] 1) = true /\
  IsValidSignatureEncoding (der_signature [0; 100] [7] 1) = false.
Proof.
  split; [| reflexivity].
  apply (SignatureEncoding_correct (der_signature [0; 200] [7] 1)).
  - repeat constructor; unfold in_u, size; cbn; lia.
  - exists [0; 200], [7], 1; split_all; try reflexivity; unfold size; cbn; lia.
Defined.

(** C27: [OP_CHECKMULTISIG] with well-encoded arguments pushes true exactly
    when every signature is good for a key of its own with the keys taken in
    order, consumes its arguments and the extra element, and counts one
    operation per key; when it fails, non-empty signatures are an error under
    the null-fail rule and a pushed false otherwise. *)
Theorem CHECKMULTISIG_correct {Checker : Type} `{BaseSignatureChecker Checker} `{HashFunctions}
    (CheckLowS : bytes -> bool) (flags : Z) (checker : Checker) (sigversion : SigVersion)
    (code : bytes) (nOps : Z) (keys sigs rest : list valtype) (dummy : valtype) :
  Z.of_nat (length keys) <= MAX_PUBKEYS_PER_MULTISIG -> (length sigs <= length keys)%nat ->
  nOps + Z.of_nat (length keys) <= MAX_OPS_PER_SCRIPT ->
  (flag flags SCRIPT_VERIFY_NULLDUMMY = true -> dummy = []) ->
  encodings_pass CheckLowS flags sigversion sigs keys ->
  let scriptCode := fold_left (drop_signature sigversion) sigs code in
  let good sig key := CheckSig checker sig key scriptCode sigversion in
  let nOps' := nOps + Z.of_nat (length keys) in
  let run op := exec_checkmultisig CheckLowS flags checker sigversion op code nOps
                  (multisig_args keys sigs (dummy :: rest)) in
  let nullfail := flag flags SCRIPT_VERIFY_NULLFAIL && existsb nonempty sigs in
  (matched good sigs keys ->
   run OP_CHECKMULTISIG = Ok (nOps', vchTrue :: rest) /\ run OP_CHECKMULTISIGVERIFY = Ok (nOps', rest)) /\
  (~ matched good sigs keys ->
   run OP_CHECKMULTISIG =
     (if nullfail then Err SCRIPT_ERR_SIG_NULLFAIL else Ok (nOps', vchFalse :: rest)) /\
   run OP_CHECKMULTISIGVERIFY =
     Err (if nullfail then SCRIPT_ERR_SIG_NULLFAIL else SCRIPT_ERR_CHECKMULTISIGVERIFY)).
Proof.
  intros Hk Hs Hn Hd He scriptCode good nOps' run nullfail; unfold run.
  rewrite !exec_checkmultisig_args by assumption; fold scriptCode nOps'.
  destruct (multisig_loop_correct CheckLowS flags checker sigversion scriptCode keys sigs He) as (ok & -> & Hok).
  fold good in Hok; cbn [bind]; split; intros M.
  - rewrite (proj2 Hok M); split; reflexivity.
  - assert (ok = false) as -> by (destruct ok; [exfalso; apply M, Hok; reflexivity | reflexivity]).
    cbn [negb andb]; fold nullfail; destruct nullfail; split; reflexivity.
Qed.

Lemma CHECKMULTISIG_correct_witness :
  let ok : valtype -> valtype -> bool := fun sig key => match sig, key with [s], [k] => s =? k | _, _ => false end in
  exec_checkmultisig (fun _ => true) 0 ok SIGVERSION_BASE OP_CHECKMULTISIG [174] 1
    (multisig_args [[3]; [2]; [1]] [[3]; [1]] [[]]) = Ok (4, [vchTrue]).
Proof.
  intros ok.
  refine (proj1 (proj1 (CHECKMULTISIG_correct (fun _ => true) 0 ok SIGVERSION_BASE
    [174] 1 [[3]; [2]; [1]] [[3]; [1]] [] [] _ _ _ _ _) _)).
  - unfold MAX_PUBKEYS_PER_MULTISIG; cbn; lia.
  - cbn; lia.
  - unfold MAX_OPS_PER_SCRIPT; cbn; lia.
  - reflexivity.
  - repeat constructor.
  - apply matched_take; [reflexivity | apply matched_skip, matched_take; [reflexivity | constructor]].
Defined.
