(* ===== verification/Hasher.v ===== *)
(** The buffered hash functions of src/crypto (classes [CSHA1], [CRIPEMD160],
    [CSHA256] and [CSHA512]): what is written is cut into blocks, full blocks
    are compressed at once, the rest waits in a buffer, and the end is padded.

    The four classes are one algorithm over a compression function; the
    section below is that algorithm, with the block size, the compression of a
    block and the form of the length as its parameters.  The theorem of the
    section says that however a message is cut into writes, the result is that
    of the padded message compressed block by block.

    A pointer into an array is the list of bytes from it on. *)

From Stdlib Require Import ZArith List Bool Lia.
From S2P Require Import Prelude Serialize.
Import ListNotations.
Open Scope Z_scope.

(** * Words in memory (src/crypto/common.h) *)

Definition ReadLE32_at (p : bytes) (off : nat) : Z := le_val 8 (firstn 4 (skipn off p)).
Definition ReadBE32 (p : bytes) (off : nat) : Z := le_val 8 (rev (firstn 4 (skipn off p))).
Definition ReadBE64 (p : bytes) (off : nat) : Z := le_val 8 (rev (firstn 8 (skipn off p))).
Definition WriteLE32 (x : Z) : bytes := le_split 8 4 x.
Definition WriteLE64 (x : Z) : bytes := le_split 8 8 x.
Definition WriteBE32 (x : Z) : bytes := rev (le_split 8 4 x).
Definition WriteBE64 (x : Z) : bytes := rev (le_split 8 8 x).

(** [memcpy(buf + off, src, len)] *)
Definition copy_at (off : Z) (src buf : bytes) : bytes :=
  firstn (Z.to_nat off) buf ++ src ++ skipn (Z.to_nat off + length src) buf.

Section Hasher.
Context {State : Type}.
(** The block size, and where the length starts in the last block. *)
Variable block tail : Z.
Variable Initialize : State.
Variable Transform : State -> bytes -> State.
(** The bytes of the length, from the counter shifted by three. *)
Variable sizedesc : Z -> bytes.
Variable output : State -> bytes.

Record hasher := mkHasher { s : State; buf : bytes; count : Z }.

Definition new_hasher (uninitialised : bytes) : hasher := mkHasher Initialize uninitialised 0.
Definition Reset (h : hasher) : hasher := mkHasher Initialize (buf h) 0.

(** The loop over the full blocks of the data. *)
Fixpoint transforms (blocks : nat) (st : State) (chunk : bytes) : State :=
  match blocks with
  | O => st
  | S n => transforms n (Transform st (firstn (Z.to_nat block) chunk)) (skipn (Z.to_nat block) chunk)
  end.

(** Fill the buffer, and process it. *)
Definition fill_buffer (data : bytes) (h : hasher) : hasher * bytes * Z :=
  let bufsize := count h mod block in
  if negb (bufsize =? 0) && (block <=? bufsize + Z.of_nat (length data)) then
    let n := block - bufsize in
    let b := copy_at bufsize (firstn (Z.to_nat n) data) (buf h) in
    (mkHasher (Transform (s h) b) b (w64 (count h + n)), skipn (Z.to_nat n) data, 0)
  else (h, data, bufsize).

(** Process full chunks directly from the source. *)
Definition full_blocks (data : bytes) (h : hasher) : hasher * bytes :=
  let blocks := Z.of_nat (length data) / block in
  (mkHasher (transforms (Z.to_nat blocks) (s h) data) (buf h) (w64 (count h + block * blocks)),
   skipn (Z.to_nat (block * blocks)) data).

(** Fill the buffer with what remains. *)
Definition keep_rest (bufsize : Z) (data : bytes) (h : hasher) : hasher :=
  match data with
  | [] => h
  | _ :: _ => mkHasher (s h) (copy_at bufsize data (buf h)) (w64 (count h + Z.of_nat (length data)))
  end.

Definition Write (data : bytes) (h : hasher) : hasher :=
  let '(h1, data1, bufsize) := fill_buffer data h in
  let '(h2, data2) := full_blocks data1 h1 in
  keep_rest bufsize data2 h2.

Definition pad (n : Z) : bytes := firstn (Z.to_nat n) (128 :: repeat 0 (Z.to_nat block - 1)).

(** The hasher that [Finalize] leaves, and the hash it writes. *)
Definition finished (h : hasher) : hasher :=
  let desc := sizedesc (w64 (Z.shiftl (count h) 3)) in
  Write desc (Write (pad (1 + w64 (tail + block - 1 - count h mod block) mod block)) h).

Definition Finalize (h : hasher) : bytes := output (s (finished h)).

(** * Reference *)

Fixpoint chunks (n : nat) (data : bytes) : list bytes :=
  match n with
  | O => []
  | S n => firstn (Z.to_nat block) data :: chunks n (skipn (Z.to_nat block) data)
  end.

(** The message, a one bit, as few zero bits as make room for the length at
    the end of a block, and the length. *)
Definition padded (msg : bytes) : bytes :=
  let len := Z.of_nat (length msg) in
  msg ++ 128 :: repeat 0 (Z.to_nat ((tail - 1 - len) mod block)) ++ sizedesc (8 * len).

Definition reference (msg : bytes) : bytes :=
  let m := padded msg in
  output (fold_left Transform (chunks (Z.to_nat (Z.of_nat (length m) / block)) m) Initialize).

(** * Writes and the message *)

Hypothesis block_word : block = 64 \/ block = 128.
Hypothesis tail_range : 0 < tail < block.
Hypothesis sizedesc_length : forall x, Z.of_nat (length (sizedesc x)) = block - tail.

Abbreviation size l := (Z.of_nat (length l)).

(** The hasher has been given [msg]. *)
Record holds (h : hasher) (msg : bytes) : Prop := {
  holds_count : count h = w64 (size msg);
  holds_state : s h = transforms (Z.to_nat (size msg / block)) Initialize msg;
  holds_buf : firstn (Z.to_nat (size msg mod block)) (buf h) = skipn (Z.to_nat (block * (size msg / block))) msg;
  holds_size : size (buf h) = block }.

Lemma count_mod x : w64 x mod block = x mod block.
Proof.
  unfold w64, wrap. destruct block_word as [-> | ->].
  - apply Z.mod_mod_divide. now exists (2 ^ 58).
  - apply Z.mod_mod_divide. now exists (2 ^ 57).
Qed.

Lemma count_add x y : w64 (w64 x + y) = w64 (x + y).
Proof. unfold w64, wrap. now rewrite Zplus_mod_idemp_l. Qed.

Lemma transforms_prefix n st data more : (n * Z.to_nat block <= length data)%nat ->
  transforms n st (data ++ more) = transforms n st data.
Proof.
  revert st data; induction n as [|n IH]; intros st data L; simpl; [reflexivity|].
  rewrite firstn_app, skipn_app.
  replace (Z.to_nat block - length data)%nat with 0%nat by lia. simpl. rewrite app_nil_r.
  apply IH. rewrite length_skipn. lia.
Qed.

Lemma transforms_add n m st data :
  transforms (n + m) st data = transforms m (transforms n st data) (skipn (n * Z.to_nat block) data).
Proof.
  revert st data; induction n as [|n IH]; intros st data; simpl; [reflexivity|].
  rewrite IH, skipn_skipn. do 2 f_equal. lia.
Qed.

Lemma fold_chunks n st data : fold_left Transform (chunks n data) st = transforms n st data.
Proof. revert st data; induction n as [|n IH]; intros; simpl; auto. Qed.

Lemma block_pos : 0 < block.
Proof. destruct block_word; lia. Qed.

(** A position split into full blocks and the rest. *)
Lemma blocks_of n : 0 <= n ->
  n = block * (n / block) + n mod block /\ 0 <= n mod block < block /\ 0 <= n / block.
Proof.
  intros N. pose proof block_pos. pose proof (Z.mod_pos_bound n block ltac:(lia)).
  split; [apply Z.div_mod; lia|]. split; [lia|]. apply Z.div_pos; lia.
Qed.

Lemma blocks_add n m : (block * n + m) / block = n + m / block /\ (block * n + m) mod block = m mod block.
Proof.
  pose proof block_pos. rewrite Z.mul_comm.
  split; [rewrite Z.div_add_l by lia; lia|]. rewrite Z.add_comm, Z.mod_add by lia. reflexivity.
Qed.

Lemma blocks_exact n : block * n / block = n /\ (block * n) mod block = 0.
Proof. pose proof block_pos. rewrite Z.mul_comm. split; [apply Z.div_mul|apply Z.mod_mul]; lia. Qed.

Lemma copy_length off src b : 0 <= off -> off + size src <= size b -> size (copy_at off src b) = size b.
Proof. intros O L. unfold copy_at. rewrite !length_app, length_firstn, length_skipn. lia. Qed.

Lemma keep_rest_holds h msg data bufsize : holds h msg -> bufsize = size msg mod block ->
  bufsize + size data < block -> holds (keep_rest bufsize data h) (msg ++ data).
Proof.
  intros [C St B L] -> Fit. destruct data as [|d data]; [now rewrite app_nil_r|]. cbn [keep_rest].
  set (data' := d :: data) in *. clearbody data'.
  destruct (blocks_of (size msg) ltac:(lia)) as (E & R & Q).
  assert (E' : size (msg ++ data') = block * (size msg / block) + (size msg mod block + size data'))
    by (rewrite length_app; lia).
  destruct (blocks_add (size msg / block) (size msg mod block + size data')) as [D M].
  rewrite (Z.div_small (_ mod _ + _)), Z.add_0_r in D by lia. rewrite (Z.mod_small (_ mod _ + _)) in M by lia.
  split; rewrite ?E', ?D, ?M; cbn [s buf count].
  - rewrite C, count_add. apply f_equal. lia.
  - rewrite St. symmetry. apply transforms_prefix. nia.
  - rewrite skipn_app, <- B. unfold copy_at. rewrite app_assoc, firstn_app.
    replace (Z.to_nat (block * (size msg / block)) - length msg)%nat with 0%nat by lia.
    rewrite firstn_all2; [|rewrite length_app, length_firstn; lia].
    rewrite length_app, length_firstn.
    replace (_ - _)%nat with 0%nat by lia. cbn. now rewrite app_nil_r.
  - rewrite copy_length; lia.
Qed.

Lemma full_blocks_holds h msg data h2 data2 : holds h msg ->
  size msg mod block = 0 \/ size msg mod block + size data < block ->
  full_blocks data h = (h2, data2) ->
  exists msg2, holds h2 msg2 /\ msg2 ++ data2 = msg ++ data /\ size msg2 mod block = size msg mod block /\
    size msg2 mod block + size data2 < block.
Proof.
  intros H Fit. unfold full_blocks. destruct (blocks_of (size data) ltac:(lia)) as (Ed & Rd & Qd).
  destruct (blocks_of (size msg) ltac:(lia)) as (E & R & Q).
  set (n := size data / block) in *. intros [= <- <-].
  destruct (Z.eq_dec n 0) as [N0|N0].
  - exists msg. rewrite N0, Z.mul_0_r, Z.add_0_r. cbn [Z.to_nat transforms skipn]. destruct H as [C St B L].
    split; [split; cbn [s buf count]; auto|]. { rewrite C. apply Z.mod_mod. lia. }
    split; [reflexivity|]. split; [reflexivity|]. destruct Fit; lia.
  - assert (M0 : size msg mod block = 0) by (destruct Fit; nia). destruct H as [C St B L].
    exists (msg ++ firstn (Z.to_nat (block * n)) data).
    assert (Ln : size (firstn (Z.to_nat (block * n)) data) = block * n) by (rewrite length_firstn; lia).
    assert (E2 : size (msg ++ firstn (Z.to_nat (block * n)) data) = block * (size msg / block + n))
      by (rewrite length_app, Nat2Z.inj_add, Ln; lia).
    destruct (blocks_exact (size msg / block + n)) as [D2 M2].
    rewrite <- app_assoc, firstn_skipn, E2, M2, length_skipn.
    split; [split; rewrite ?E2, ?D2, ?M2; cbn [s buf count]|repeat split; lia].
    + rewrite C, count_add. apply f_equal. lia.
    + rewrite St, Z2Nat.inj_add, transforms_add by lia.
      rewrite transforms_prefix by nia.
      rewrite skipn_app, (skipn_all2 msg) by nia. cbn [app].
      replace (_ - length msg)%nat with 0%nat by nia. cbn [skipn].
      rewrite <- (firstn_skipn (Z.to_nat (block * n)) data) at 1. apply transforms_prefix. nia.
    + cbn [Z.to_nat firstn]. symmetry. apply skipn_all2. lia.
    + exact L.
Qed.

Lemma fill_buffer_holds h msg data h1 data1 bufsize : holds h msg -> fill_buffer data h = (h1, data1, bufsize) ->
  exists msg1, holds h1 msg1 /\ msg1 ++ data1 = msg ++ data /\ bufsize = size msg1 mod block /\
    (size msg1 mod block = 0 \/ size msg1 mod block + size data1 < block).
Proof.
  intros H. unfold fill_buffer. destruct H as [C St B L]. rewrite C, count_mod.
  destruct (blocks_of (size msg) ltac:(lia)) as (E & R & Q). set (r := size msg mod block) in *.
  destruct (Z.eqb_spec r 0) as [R0|R0]; cbn [negb andb].
  { intros [= <- <- <-]. exists msg. split; [now split|]. split; [reflexivity|]. split; [reflexivity|now left]. }
  destruct (Z.leb_spec block (r + size data)) as [Le|Lt].
  2:{ intros [= <- <- <-]. exists msg. split; [now split|]. split; [reflexivity|]. split; [reflexivity|now right]. }
  intros [= <- <- <-]. set (d := firstn (Z.to_nat (block - r)) data).
  assert (Ld : size d = block - r) by (unfold d; rewrite length_firstn; lia).
  assert (E2 : size (msg ++ d) = block * (size msg / block + 1)) by (rewrite length_app, Nat2Z.inj_add, Ld; lia).
  destruct (blocks_exact (size msg / block + 1)) as [D2 M2].
  assert (Bf : copy_at r d (buf h) = skipn (Z.to_nat (block * (size msg / block))) msg ++ d).
  { unfold copy_at. rewrite B, (skipn_all2 (buf h)) by lia. now rewrite app_nil_r. }
  exists (msg ++ d). rewrite E2, M2, <- app_assoc.
  split; [|split; [unfold d; now rewrite firstn_skipn|now auto]]. split; rewrite ?E2, ?D2, ?M2; cbn [s buf count].
  - rewrite count_add. apply f_equal. lia.
  - rewrite St, Z2Nat.inj_add, transforms_add by lia. change (Z.to_nat 1) with 1%nat. cbn [transforms].
    rewrite transforms_prefix by nia. f_equal.
    rewrite skipn_app. replace (_ - length msg)%nat with 0%nat by nia. cbn [skipn].
    replace (Z.to_nat (size msg / block) * Z.to_nat block)%nat with (Z.to_nat (block * (size msg / block))) by nia.
    rewrite <- Bf, firstn_all2; [reflexivity|]. pose proof (copy_length r d (buf h)). lia.
  - cbn [Z.to_nat firstn]. symmetry. apply skipn_all2. lia.
  - rewrite copy_length; lia.
Qed.

Lemma Write_holds h msg data : holds h msg -> holds (Write data h) (msg ++ data).
Proof.
  intros H. unfold Write. destruct (fill_buffer data h) as [[h1 data1] bufsize] eqn:F.
  destruct (fill_buffer_holds _ _ _ _ _ _ H F) as (msg1 & H1 & <- & Eb & Fit).
  destruct (full_blocks data1 h1) as [h2 data2] eqn:G.
  destruct (full_blocks_holds _ _ _ _ _ H1 Fit G) as (msg2 & H2 & <- & M2 & Fit2).
  apply keep_rest_holds; [exact H2|congruence|]. rewrite Eb, <- M2. exact Fit2.
Qed.

Lemma writes_holds datas h msg : holds h msg -> holds (fold_left (fun h d => Write d h) datas h) (msg ++ concat datas).
Proof.
  revert h msg; induction datas as [|d datas IH]; intros h msg H; simpl; [now rewrite app_nil_r|].
  rewrite app_assoc. apply IH. now apply Write_holds.
Qed.

Lemma new_holds junk : size junk = block -> holds (new_hasher junk) [].
Proof.
  intros L. pose proof block_pos. split; cbn [s buf count new_hasher length Z.of_nat]; auto;
    rewrite ?Z.div_0_l, ?Z.mod_0_l, ?Z.mul_0_r by lia; reflexivity.
Qed.

Lemma reset_holds h : size (buf h) = block -> holds (Reset h) [].
Proof. intros L. exact (new_holds (buf h) L). Qed.

Lemma firstn_zeros n m : (n <= m)%nat -> firstn n (repeat 0 m) = repeat 0 n.
Proof. revert m; induction n as [|n IH]; intros [|m] L; simpl; auto; [lia|]. now rewrite IH by lia. Qed.

(** The padding of the code is the least one. *)
Lemma pad_correct n : 0 <= n ->
  pad (1 + w64 (tail + block - 1 - w64 n mod block) mod block) = 128 :: repeat 0 (Z.to_nat ((tail - 1 - n) mod block)).
Proof.
  intros N. rewrite !count_mod. destruct (blocks_of n N) as (E & R & Q). pose proof block_pos as P.
  assert (M : (tail + block - 1 - n mod block) mod block = (tail - 1 - n) mod block).
  { rewrite E at 2. replace (tail + block - 1 - n mod block) with (tail - 1 - (block * (n / block) + n mod block) + (n / block + 1) * block) by lia.
    now rewrite Z.mod_add by lia. }
  rewrite M. set (k := (tail - 1 - n) mod block). assert (0 <= k < block) by (apply Z.mod_pos_bound; lia).
  unfold pad. rewrite Z2Nat.inj_add by lia. change (Z.to_nat 1) with 1%nat. cbn [Nat.add firstn].
  rewrite firstn_zeros by lia. reflexivity.
Qed.

Lemma finished_size h msg : holds h msg -> size (buf (finished h)) = block.
Proof. intros H. exact (holds_size _ _ (Write_holds _ _ _ (Write_holds _ _ _ H))). Qed.

Lemma Finalize_reference h msg : holds h msg -> size msg < 2 ^ 61 -> Finalize h = reference msg.
Proof.
  intros H Lt. unfold Finalize, finished, reference.
  set (d := sizedesc _). set (p := pad _).
  assert (P : (msg ++ p) ++ d = padded msg).
  { unfold p, d, padded. rewrite (holds_count _ _ H), pad_correct by lia.
    assert (W : w64 (Z.shiftl (w64 (size msg)) 3) = 8 * size msg).
    { rewrite Z.shiftl_mul_pow2 by lia. unfold w64.
      rewrite (wrap_id 64 (size msg)), wrap_id; unfold in_u; lia. }
    now rewrite W, <- app_assoc. }
  pose proof (Write_holds _ _ d (Write_holds _ _ p H)) as K. rewrite P in K.
  now rewrite (holds_state _ _ K), fold_chunks.
Qed.

Lemma stream_reference junk datas : size junk = block -> size (concat datas) < 2 ^ 61 ->
  Finalize (fold_left (fun h d => Write d h) datas (new_hasher junk)) = reference (concat datas).
Proof. intros L Lt. apply Finalize_reference; [|exact Lt]. now apply (writes_holds datas _ []), new_holds. Qed.

Lemma stream_finished junk datas : size junk = block ->
  size (buf (finished (fold_left (fun h d => Write d h) datas (new_hasher junk)))) = block.
Proof. intros L. apply finished_size with ([] ++ concat datas). now apply writes_holds, new_holds. Qed.
End Hasher.

(** The reference with another compression function that agrees. *)
Lemma reference_ext {State : Type} block tail (I : State) T T' desc out msg : (forall s c, T s c = T' s c) ->
  reference block tail I T desc out msg = reference block tail I T' desc out msg.
Proof.
  intros E. unfold reference. f_equal. generalize (chunks block (Z.to_nat (Z.of_nat (length (padded block tail desc msg)) / block)) (padded block tail desc msg)) I.
  induction l as [|c l IH]; intros st; simpl; [reflexivity|]. now rewrite E, IH.
Qed.
