(* ===== verification/Sha2.v ===== *)
(** SHA-256 and SHA-512: the compression functions of src/crypto/sha256.cpp
    and src/crypto/sha512.cpp, proved equal to those of FIPS 180-4.

    The code unrolls the rounds, renames the registers instead of moving their
    contents, and keeps the last sixteen words of the message schedule in
    place.  The reference has the eight working variables move in every round,
    the whole schedule, and the functions as the standard writes them; its
    constants are checked to be the digits of the square and cube roots of the
    first primes. *)

From Stdlib Require Import ZArith List Bool Lia.
From S2P Require Import Prelude Serialize Hasher.
Import ListNotations.
Open Scope Z_scope.

(** The eight words [s[0]] to [s[7]]. *)
Definition words8 : Type := Z * Z * Z * Z * Z * Z * Z * Z.

(** * What the two functions share *)

Section Words.
(** The word size. *)
Variable w : Z.

Definition add (x y : Z) : Z := wrap w (x + y).
(** [(x >> n | x << m)] with [m = w - n]. *)
Definition rot (n m x : Z) : Z := Z.lor (Z.shiftr x n) (wrap w (Z.shiftl x m)).

Definition Ch (x y z : Z) : Z := Z.lxor z (Z.land x (Z.lxor y z)).
Definition Maj (x y z : Z) : Z := Z.lor (Z.land x y) (Z.land z (Z.lor x y)).

Variables Sigma0 Sigma1 sigma0 sigma1 : Z -> Z.

(** The word passed to the round, which the callers assign to a variable on
    the way, and the new values of [d] and [h]. *)
Definition Round (a b c d e f g h k w : Z) : Z * Z * Z :=
  let t1 := add (add (add (add h (Sigma1 e)) (Ch e f g)) k) w in
  let t2 := add (Sigma0 a) (Maj a b c) in
  (w, add d t1, add t1 t2).

(** * The reference *)

Definition ref_Ch (x y z : Z) : Z := Z.lxor (Z.land x y) (Z.ldiff z x).
Definition ref_Maj (x y z : Z) : Z := Z.lxor (Z.lxor (Z.land x y) (Z.land x z)) (Z.land y z).

Definition ref_step (r : words8) (k wt : Z) : words8 :=
  let '(a, b, c, d, e, f, g, h) := r in
  let T1 := wrap w (h + Sigma1 e + ref_Ch e f g + k + wt) in
  let T2 := wrap w (Sigma0 a + ref_Maj a b c) in
  (wrap w (T1 + T2), a, b, c, wrap w (d + T1), e, f, g).

(** The next word of the schedule; the latest words come first. *)
Definition ref_next (ws : list Z) : Z :=
  wrap w (sigma1 (nth 1 ws 0) + nth 6 ws 0 + sigma0 (nth 14 ws 0) + nth 15 ws 0).

Fixpoint ref_extend (n : nat) (ws : list Z) : list Z :=
  match n with
  | O => []
  | S n => let x := ref_next ws in x :: ref_extend n (x :: ws)
  end.

Definition ref_schedule (n : nat) (M : list Z) : list Z := M ++ ref_extend (n - 16) (rev M).

Definition ref_rounds (K W : list Z) (r : words8) : words8 :=
  fold_left (fun r kw => ref_step r (fst kw) (snd kw)) (combine K W) r.

Definition ref_finish (H r : words8) : words8 :=
  let '(h0, h1, h2, h3, h4, h5, h6, h7) := H in
  let '(a, b, c, d, e, f, g, h) := r in
  (wrap w (h0 + a), wrap w (h1 + b), wrap w (h2 + c), wrap w (h3 + d),
   wrap w (h4 + e), wrap w (h5 + f), wrap w (h6 + g), wrap w (h7 + h)).

Definition ref_compress (K : list Z) (H : words8) (M : list Z) : words8 :=
  ref_finish H (ref_rounds K (ref_schedule (length K) M) H).

(** * Lemmas *)

Lemma wrap_add_l x y : wrap w (wrap w x + y) = wrap w (x + y).
Proof. apply Zplus_mod_idemp_l. Qed.
Lemma wrap_add_r x y : wrap w (x + wrap w y) = wrap w (x + y).
Proof. apply Zplus_mod_idemp_r. Qed.

Ltac bitwise := apply Z.bits_inj'; intros n _;
  repeat first [rewrite Z.lxor_spec|rewrite Z.land_spec|rewrite Z.lor_spec|rewrite Z.ldiff_spec];
  repeat match goal with |- context [Z.testbit ?x n] => destruct (Z.testbit x n) end; reflexivity.

Lemma Ch_ref x y z : Ch x y z = ref_Ch x y z.
Proof. unfold Ch, ref_Ch. bitwise. Qed.
Lemma Maj_ref x y z : Maj x y z = ref_Maj x y z.
Proof. unfold Maj, ref_Maj. bitwise. Qed.

Lemma add_chain x1 x2 x3 x4 x5 : add (add (add (add x1 x2) x3) x4) x5 = wrap w (x1 + x2 + x3 + x4 + x5).
Proof. unfold add. now rewrite (wrap_add_l (x1 + x2)), (wrap_add_l (x1 + x2 + x3)), wrap_add_l. Qed.

(** A round of the code moves no register. *)
Lemma step_Round a b c d e f g h k x :
  ref_step (a, b, c, d, e, f, g, h) k x =
  let '(_, d', h') := Round a b c d e f g h k x in (h', a, b, c, d', e, f, g).
Proof. unfold ref_step, Round. rewrite Ch_ref, Maj_ref, (add_chain h (Sigma1 e) (ref_Ch e f g) k x). reflexivity. Qed.

Lemma next_add x y z v : wrap w (x + y + z + v) = add v (add (add x y) z).
Proof. unfold add. rewrite (wrap_add_l (x + y)), wrap_add_r. f_equal. lia. Qed.
Lemma next_add' x y z v : wrap w (x + y + z + v) = add (add (add v x) y) z.
Proof. unfold add. rewrite (wrap_add_l (v + x)), wrap_add_l. f_equal. lia. Qed.

(** The rounds with the schedule computed on the way: the words of the block,
    then the others. *)
Fixpoint go (K : list Z) (ws : list Z) (r : words8) : words8 :=
  match K with
  | [] => r
  | k :: K' => go K' (ref_next ws :: ws) (ref_step r k (ref_next ws))
  end.

Fixpoint start (K1 : list Z) (K0 M ws : list Z) (r : words8) : words8 :=
  match K0, M with
  | k :: K0', m :: M' => start K1 K0' M' (m :: ws) (ref_step r k m)
  | _, _ => go K1 ws r
  end.

Lemma go_extend K ws r : ref_rounds K (ref_extend (length K) ws) r = go K ws r.
Proof.
  revert ws r; induction K as [|k K IH]; intros ws r; [reflexivity|].
  cbn [length ref_extend go]. unfold ref_rounds in *. cbn [combine fold_left fst snd]. apply IH.
Qed.

Lemma start_extend K0 K1 M ws r : length K0 = length M ->
  ref_rounds (K0 ++ K1) (M ++ ref_extend (length K1) (rev M ++ ws)) r = start K1 K0 M ws r.
Proof.
  revert M ws r; induction K0 as [|k K0 IH]; intros [|m M] ws r L; try discriminate; [apply go_extend|].
  injection L as L. cbn [start]. rewrite <- IH by exact L. unfold ref_rounds. cbn [rev app combine fold_left fst snd].
  now rewrite <- app_assoc.
Qed.

Lemma compress_split K0 K1 H M : length K0 = 16%nat -> length M = 16%nat ->
  ref_compress (K0 ++ K1) H M = ref_finish H (start K1 K0 M [] H).
Proof.
  intros L0 LM. unfold ref_compress, ref_schedule. rewrite length_app, L0.
  replace (16 + length K1 - 16)%nat with (length K1) by lia.
  rewrite <- start_extend by congruence. now rewrite app_nil_r.
Qed.

Lemma start_done K1 ws r : start K1 [] [] ws r = go K1 ws r.
Proof. reflexivity. Qed.

(** One unrolled round against one round of the reference. *)
Lemma code_first (F : Z -> Z -> Z -> words8) H a b c d e f g h k x K1 K0 M ws :
  (forall y d' h', F y d' h' = ref_finish H (start K1 K0 M (y :: ws) (h', a, b, c, d', e, f, g))) ->
  (let '(y, d', h') := Round a b c d e f g h k x in F y d' h') =
  ref_finish H (start K1 (k :: K0) (x :: M) ws (a, b, c, d, e, f, g, h)).
Proof.
  intros E. cbn [start]. rewrite step_Round. destruct (Round a b c d e f g h k x) as [[y d'] h'] eqn:R.
  unfold Round in R. injection R as <- _ _. apply E.
Qed.

Lemma code_next (F : Z -> Z -> Z -> words8) H a b c d e f g h k x K ws : x = ref_next ws ->
  (forall y d' h', F y d' h' = ref_finish H (go K (y :: ws) (h', a, b, c, d', e, f, g))) ->
  (let '(y, d', h') := Round a b c d e f g h k x in F y d' h') =
  ref_finish H (go (k :: K) ws (a, b, c, d, e, f, g, h)).
Proof.
  intros X E. cbn [go]. rewrite <- X, step_Round. destruct (Round a b c d e f g h k x) as [[y d'] h'] eqn:R.
  unfold Round in R. injection R as <- _ _. apply E.
Qed.
End Words.

(** * Roots of primes *)

(** The first [w] bits of the fractional part of the cube root of [p], whose
    integral part is [i], and of the square root. *)
Definition cube_root_bits (w : Z) (i : Z) (p k : Z) : bool :=
  let r := i * 2 ^ w + k in ((r * r * r <=? p * 2 ^ (3 * w)) && (p * 2 ^ (3 * w) <? (r + 1) * (r + 1) * (r + 1))).
Definition square_root_bits (w : Z) (i : Z) (p k : Z) : bool :=
  let r := i * 2 ^ w + k in ((r * r <=? p * 2 ^ (2 * w)) && (p * 2 ^ (2 * w) <? (r + 1) * (r + 1))).

Definition cbrt (p : Z) : Z := if p <? 8 then 1 else if p <? 27 then 2 else if p <? 64 then 3 else if p <? 125 then 4
  else if p <? 216 then 5 else if p <? 343 then 6 else 7.

(** The primes below a bound of at most 529, by division by primes up to 19. *)
Definition is_prime (n : Z) : bool := forallb (fun d => (n =? d) || negb (n mod d =? 0)) [2; 3; 5; 7; 11; 13; 17; 19].
Definition primes (bound : nat) : list Z := filter is_prime (map Z.of_nat (seq 2 (bound - 2))).

(** * SHA256 *)

Module SHA256.
Abbreviation add := (add 32).
Definition Sigma0 (x : Z) : Z := Z.lxor (Z.lxor (rot 32 2 30 x) (rot 32 13 19 x)) (rot 32 22 10 x).
Definition Sigma1 (x : Z) : Z := Z.lxor (Z.lxor (rot 32 6 26 x) (rot 32 11 21 x)) (rot 32 25 7 x).
Definition sigma0 (x : Z) : Z := Z.lxor (Z.lxor (rot 32 7 25 x) (rot 32 18 14 x)) (Z.shiftr x 3).
Definition sigma1 (x : Z) : Z := Z.lxor (Z.lxor (rot 32 17 15 x) (rot 32 19 13 x)) (Z.shiftr x 10).
Abbreviation Round := (Round 32 Sigma0 Sigma1).

Definition Initialize : words8 :=
  (0x6a09e667, 0xbb67ae85, 0x3c6ef372, 0xa54ff53a,
   0x510e527f, 0x9b05688c, 0x1f83d9ab, 0x5be0cd19).

Definition Transform (s : words8) (chunk : bytes) : words8 :=
  let '(a, b, c, d, e, f, g, h) := s in
  let '(w0, d, h) := Round a b c d e f g h 0x428a2f98 (ReadBE32 chunk 0) in
  let '(w1, c, g) := Round h a b c d e f g 0x71374491 (ReadBE32 chunk 4) in
  let '(w2, b, f) := Round g h a b c d e f 0xb5c0fbcf (ReadBE32 chunk 8) in
  let '(w3, a, e) := Round f g h a b c d e 0xe9b5dba5 (ReadBE32 chunk 12) in
  let '(w4, h, d) := Round e f g h a b c d 0x3956c25b (ReadBE32 chunk 16) in
  let '(w5, g, c) := Round d e f g h a b c 0x59f111f1 (ReadBE32 chunk 20) in
  let '(w6, f, b) := Round c d e f g h a b 0x923f82a4 (ReadBE32 chunk 24) in
  let '(w7, e, a) := Round b c d e f g h a 0xab1c5ed5 (ReadBE32 chunk 28) in
  let '(w8, d, h) := Round a b c d e f g h 0xd807aa98 (ReadBE32 chunk 32) in
  let '(w9, c, g) := Round h a b c d e f g 0x12835b01 (ReadBE32 chunk 36) in
  let '(w10, b, f) := Round g h a b c d e f 0x243185be (ReadBE32 chunk 40) in
  let '(w11, a, e) := Round f g h a b c d e 0x550c7dc3 (ReadBE32 chunk 44) in
  let '(w12, h, d) := Round e f g h a b c d 0x72be5d74 (ReadBE32 chunk 48) in
  let '(w13, g, c) := Round d e f g h a b c 0x80deb1fe (ReadBE32 chunk 52) in
  let '(w14, f, b) := Round c d e f g h a b 0x9bdc06a7 (ReadBE32 chunk 56) in
  let '(w15, e, a) := Round b c d e f g h a 0xc19bf174 (ReadBE32 chunk 60) in
  let '(w0, d, h) := Round a b c d e f g h 0xe49b69c1 (add w0 (add (add (sigma1 w14) w9) (sigma0 w1))) in
  let '(w1, c, g) := Round h a b c d e f g 0xefbe4786 (add w1 (add (add (sigma1 w15) w10) (sigma0 w2))) in
  let '(w2, b, f) := Round g h a b c d e f 0x0fc19dc6 (add w2 (add (add (sigma1 w0) w11) (sigma0 w3))) in
  let '(w3, a, e) := Round f g h a b c d e 0x240ca1cc (add w3 (add (add (sigma1 w1) w12) (sigma0 w4))) in
  let '(w4, h, d) := Round e f g h a b c d 0x2de92c6f (add w4 (add (add (sigma1 w2) w13) (sigma0 w5))) in
  let '(w5, g, c) := Round d e f g h a b c 0x4a7484aa (add w5 (add (add (sigma1 w3) w14) (sigma0 w6))) in
  let '(w6, f, b) := Round c d e f g h a b 0x5cb0a9dc (add w6 (add (add (sigma1 w4) w15) (sigma0 w7))) in
  let '(w7, e, a) := Round b c d e f g h a 0x76f988da (add w7 (add (add (sigma1 w5) w0) (sigma0 w8))) in
  let '(w8, d, h) := Round a b c d e f g h 0x983e5152 (add w8 (add (add (sigma1 w6) w1) (sigma0 w9))) in
  let '(w9, c, g) := Round h a b c d e f g 0xa831c66d (add w9 (add (add (sigma1 w7) w2) (sigma0 w10))) in
  let '(w10, b, f) := Round g h a b c d e f 0xb00327c8 (add w10 (add (add (sigma1 w8) w3) (sigma0 w11))) in
  let '(w11, a, e) := Round f g h a b c d e 0xbf597fc7 (add w11 (add (add (sigma1 w9) w4) (sigma0 w12))) in
  let '(w12, h, d) := Round e f g h a b c d 0xc6e00bf3 (add w12 (add (add (sigma1 w10) w5) (sigma0 w13))) in
  let '(w13, g, c) := Round d e f g h a b c 0xd5a79147 (add w13 (add (add (sigma1 w11) w6) (sigma0 w14))) in
  let '(w14, f, b) := Round c d e f g h a b 0x06ca6351 (add w14 (add (add (sigma1 w12) w7) (sigma0 w15))) in
  let '(w15, e, a) := Round b c d e f g h a 0x14292967 (add w15 (add (add (sigma1 w13) w8) (sigma0 w0))) in
  let '(w0, d, h) := Round a b c d e f g h 0x27b70a85 (add w0 (add (add (sigma1 w14) w9) (sigma0 w1))) in
  let '(w1, c, g) := Round h a b c d e f g 0x2e1b2138 (add w1 (add (add (sigma1 w15) w10) (sigma0 w2))) in
  let '(w2, b, f) := Round g h a b c d e f 0x4d2c6dfc (add w2 (add (add (sigma1 w0) w11) (sigma0 w3))) in
  let '(w3, a, e) := Round f g h a b c d e 0x53380d13 (add w3 (add (add (sigma1 w1) w12) (sigma0 w4))) in
  let '(w4, h, d) := Round e f g h a b c d 0x650a7354 (add w4 (add (add (sigma1 w2) w13) (sigma0 w5))) in
  let '(w5, g, c) := Round d e f g h a b c 0x766a0abb (add w5 (add (add (sigma1 w3) w14) (sigma0 w6))) in
  let '(w6, f, b) := Round c d e f g h a b 0x81c2c92e (add w6 (add (add (sigma1 w4) w15) (sigma0 w7))) in
  let '(w7, e, a) := Round b c d e f g h a 0x92722c85 (add w7 (add (add (sigma1 w5) w0) (sigma0 w8))) in
  let '(w8, d, h) := Round a b c d e f g h 0xa2bfe8a1 (add w8 (add (add (sigma1 w6) w1) (sigma0 w9))) in
  let '(w9, c, g) := Round h a b c d e f g 0xa81a664b (add w9 (add (add (sigma1 w7) w2) (sigma0 w10))) in
  let '(w10, b, f) := Round g h a b c d e f 0xc24b8b70 (add w10 (add (add (sigma1 w8) w3) (sigma0 w11))) in
  let '(w11, a, e) := Round f g h a b c d e 0xc76c51a3 (add w11 (add (add (sigma1 w9) w4) (sigma0 w12))) in
  let '(w12, h, d) := Round e f g h a b c d 0xd192e819 (add w12 (add (add (sigma1 w10) w5) (sigma0 w13))) in
  let '(w13, g, c) := Round d e f g h a b c 0xd6990624 (add w13 (add (add (sigma1 w11) w6) (sigma0 w14))) in
  let '(w14, f, b) := Round c d e f g h a b 0xf40e3585 (add w14 (add (add (sigma1 w12) w7) (sigma0 w15))) in
  let '(w15, e, a) := Round b c d e f g h a 0x106aa070 (add w15 (add (add (sigma1 w13) w8) (sigma0 w0))) in
  let '(w0, d, h) := Round a b c d e f g h 0x19a4c116 (add w0 (add (add (sigma1 w14) w9) (sigma0 w1))) in
  let '(w1, c, g) := Round h a b c d e f g 0x1e376c08 (add w1 (add (add (sigma1 w15) w10) (sigma0 w2))) in
  let '(w2, b, f) := Round g h a b c d e f 0x2748774c (add w2 (add (add (sigma1 w0) w11) (sigma0 w3))) in
  let '(w3, a, e) := Round f g h a b c d e 0x34b0bcb5 (add w3 (add (add (sigma1 w1) w12) (sigma0 w4))) in
  let '(w4, h, d) := Round e f g h a b c d 0x391c0cb3 (add w4 (add (add (sigma1 w2) w13) (sigma0 w5))) in
  let '(w5, g, c) := Round d e f g h a b c 0x4ed8aa4a (add w5 (add (add (sigma1 w3) w14) (sigma0 w6))) in
  let '(w6, f, b) := Round c d e f g h a b 0x5b9cca4f (add w6 (add (add (sigma1 w4) w15) (sigma0 w7))) in
  let '(w7, e, a) := Round b c d e f g h a 0x682e6ff3 (add w7 (add (add (sigma1 w5) w0) (sigma0 w8))) in
  let '(w8, d, h) := Round a b c d e f g h 0x748f82ee (add w8 (add (add (sigma1 w6) w1) (sigma0 w9))) in
  let '(w9, c, g) := Round h a b c d e f g 0x78a5636f (add w9 (add (add (sigma1 w7) w2) (sigma0 w10))) in
  let '(w10, b, f) := Round g h a b c d e f 0x84c87814 (add w10 (add (add (sigma1 w8) w3) (sigma0 w11))) in
  let '(w11, a, e) := Round f g h a b c d e 0x8cc70208 (add w11 (add (add (sigma1 w9) w4) (sigma0 w12))) in
  let '(w12, h, d) := Round e f g h a b c d 0x90befffa (add w12 (add (add (sigma1 w10) w5) (sigma0 w13))) in
  let '(w13, g, c) := Round d e f g h a b c 0xa4506ceb (add w13 (add (add (sigma1 w11) w6) (sigma0 w14))) in
  let '(_, f, b) := Round c d e f g h a b 0xbef9a3f7 (add (add (add w14 (sigma1 w12)) w7) (sigma0 w15)) in
  let '(_, e, a) := Round b c d e f g h a 0xc67178f2 (add (add (add w15 (sigma1 w13)) w8) (sigma0 w0)) in
  let '(s0, s1, s2, s3, s4, s5, s6, s7) := s in
  (add s0 a, add s1 b, add s2 c, add s3 d, add s4 e, add s5 f, add s6 g, add s7 h).

(** [WriteBE32] of the eight words. *)
Definition output (s : words8) : bytes :=
  let '(s0, s1, s2, s3, s4, s5, s6, s7) := s in
  WriteBE32 s0 ++ WriteBE32 s1 ++ WriteBE32 s2 ++ WriteBE32 s3 ++
  WriteBE32 s4 ++ WriteBE32 s5 ++ WriteBE32 s6 ++ WriteBE32 s7.

(** The functions and constants of the standard. *)
Definition ROTR (n x : Z) : Z := rot 32 n (32 - n) x.
Definition ref_Sigma0 (x : Z) : Z := Z.lxor (Z.lxor (ROTR 2 x) (ROTR 13 x)) (ROTR 22 x).
Definition ref_Sigma1 (x : Z) : Z := Z.lxor (Z.lxor (ROTR 6 x) (ROTR 11 x)) (ROTR 25 x).
Definition ref_sigma0 (x : Z) : Z := Z.lxor (Z.lxor (ROTR 7 x) (ROTR 18 x)) (Z.shiftr x 3).
Definition ref_sigma1 (x : Z) : Z := Z.lxor (Z.lxor (ROTR 17 x) (ROTR 19 x)) (Z.shiftr x 10).
Definition K : list Z :=
    [1116352408; 1899447441; 3049323471; 3921009573; 961987163; 1508970993; 2453635748; 2870763221;
     3624381080; 310598401; 607225278; 1426881987; 1925078388; 2162078206; 2614888103; 3248222580;
     3835390401; 4022224774; 264347078; 604807628; 770255983; 1249150122; 1555081692; 1996064986;
     2554220882; 2821834349; 2952996808; 3210313671; 3336571891; 3584528711; 113926993; 338241895;
     666307205; 773529912; 1294757372; 1396182291; 1695183700; 1986661051; 2177026350; 2456956037;
     2730485921; 2820302411; 3259730800; 3345764771; 3516065817; 3600352804; 4094571909; 275423344;
     430227734; 506948616; 659060556; 883997877; 958139571; 1322822218; 1537002063; 1747873779;
     1955562222; 2024104815; 2227730452; 2361852424; 2428436474; 2756734187; 3204031479; 3329325298].

Definition ref_words (chunk : bytes) : list Z := map (fun i => ReadBE32 chunk (4 * i)) (seq 0 16).
Definition ref_Transform (s : words8) (chunk : bytes) : words8 :=
  ref_compress 32 ref_Sigma0 ref_Sigma1 ref_sigma0 ref_sigma1 K s (ref_words chunk).

Lemma sha256_K_roots : forallb (fun pk => cube_root_bits 32 (cbrt (fst pk)) (fst pk) (snd pk)) (combine (primes 312) K) = true /\
  length K = length (primes 312).
Proof. split; vm_compute; reflexivity. Qed.

Lemma sha256_Initialize_roots :
  let '(h0, h1, h2, h3, h4, h5, h6, h7) := Initialize in
  forallb (fun ipk => let '(i, p, k) := ipk in square_root_bits 32 i p k)
    [(1, 2, h0); (1, 3, h1); (2, 5, h2); (2, 7, h3); (3, 11, h4); (3, 13, h5); (4, 17, h6); (4, 19, h7)] = true.
Proof. vm_compute. reflexivity. Qed.

Lemma sha256_Transform_ref s chunk : Transform s chunk = ref_Transform s chunk.
Proof.
  unfold ref_Transform. change K with (firstn 16 K ++ skipn 16 K). rewrite compress_split by reflexivity.
  change ref_Sigma0 with Sigma0. change ref_Sigma1 with Sigma1.
  change ref_sigma0 with sigma0. change ref_sigma1 with sigma1.
  destruct s as [[[[[[[a b] c] d] e] f] g] h].
  cbn [ref_words map seq firstn skipn K Nat.mul Nat.add].
  cbv delta [Transform]. cbv beta iota.
  do 16 (apply code_first; intros ? ? ?). rewrite start_done.
  do 46 (apply code_next; [symmetry; apply next_add|intros ? ? ?]).
  do 2 (apply code_next; [symmetry; apply next_add'|intros ? ? ?]).
  reflexivity.
Qed.
End SHA256.

(** * SHA512 *)

Module SHA512.
Abbreviation add := (add 64).
Definition Sigma0 (x : Z) : Z := Z.lxor (Z.lxor (rot 64 28 36 x) (rot 64 34 30 x)) (rot 64 39 25 x).
Definition Sigma1 (x : Z) : Z := Z.lxor (Z.lxor (rot 64 14 50 x) (rot 64 18 46 x)) (rot 64 41 23 x).
Definition sigma0 (x : Z) : Z := Z.lxor (Z.lxor (rot 64 1 63 x) (rot 64 8 56 x)) (Z.shiftr x 7).
Definition sigma1 (x : Z) : Z := Z.lxor (Z.lxor (rot 64 19 45 x) (rot 64 61 3 x)) (Z.shiftr x 6).
Abbreviation Round := (Round 64 Sigma0 Sigma1).

Definition Initialize : words8 :=
  (0x6a09e667f3bcc908, 0xbb67ae8584caa73b, 0x3c6ef372fe94f82b, 0xa54ff53a5f1d36f1,
   0x510e527fade682d1, 0x9b05688c2b3e6c1f, 0x1f83d9abfb41bd6b, 0x5be0cd19137e2179).

Definition Transform (s : words8) (chunk : bytes) : words8 :=
  let '(a, b, c, d, e, f, g, h) := s in
  let '(w0, d, h) := Round a b c d e f g h 0x428a2f98d728ae22 (ReadBE64 chunk 0) in
  let '(w1, c, g) := Round h a b c d e f g 0x7137449123ef65cd (ReadBE64 chunk 8) in
  let '(w2, b, f) := Round g h a b c d e f 0xb5c0fbcfec4d3b2f (ReadBE64 chunk 16) in
  let '(w3, a, e) := Round f g h a b c d e 0xe9b5dba58189dbbc (ReadBE64 chunk 24) in
  let '(w4, h, d) := Round e f g h a b c d 0x3956c25bf348b538 (ReadBE64 chunk 32) in
  let '(w5, g, c) := Round d e f g h a b c 0x59f111f1b605d019 (ReadBE64 chunk 40) in
  let '(w6, f, b) := Round c d e f g h a b 0x923f82a4af194f9b (ReadBE64 chunk 48) in
  let '(w7, e, a) := Round b c d e f g h a 0xab1c5ed5da6d8118 (ReadBE64 chunk 56) in
  let '(w8, d, h) := Round a b c d e f g h 0xd807aa98a3030242 (ReadBE64 chunk 64) in
  let '(w9, c, g) := Round h a b c d e f g 0x12835b0145706fbe (ReadBE64 chunk 72) in
  let '(w10, b, f) := Round g h a b c d e f 0x243185be4ee4b28c (ReadBE64 chunk 80) in
  let '(w11, a, e) := Round f g h a b c d e 0x550c7dc3d5ffb4e2 (ReadBE64 chunk 88) in
  let '(w12, h, d) := Round e f g h a b c d 0x72be5d74f27b896f (ReadBE64 chunk 96) in
  let '(w13, g, c) := Round d e f g h a b c 0x80deb1fe3b1696b1 (ReadBE64 chunk 104) in
  let '(w14, f, b) := Round c d e f g h a b 0x9bdc06a725c71235 (ReadBE64 chunk 112) in
  let '(w15, e, a) := Round b c d e f g h a 0xc19bf174cf692694 (ReadBE64 chunk 120) in
  let '(w0, d, h) := Round a b c d e f g h 0xe49b69c19ef14ad2 (add w0 (add (add (sigma1 w14) w9) (sigma0 w1))) in
  let '(w1, c, g) := Round h a b c d e f g 0xefbe4786384f25e3 (add w1 (add (add (sigma1 w15) w10) (sigma0 w2))) in
  let '(w2, b, f) := Round g h a b c d e f 0x0fc19dc68b8cd5b5 (add w2 (add (add (sigma1 w0) w11) (sigma0 w3))) in
  let '(w3, a, e) := Round f g h a b c d e 0x240ca1cc77ac9c65 (add w3 (add (add (sigma1 w1) w12) (sigma0 w4))) in
  let '(w4, h, d) := Round e f g h a b c d 0x2de92c6f592b0275 (add w4 (add (add (sigma1 w2) w13) (sigma0 w5))) in
  let '(w5, g, c) := Round d e f g h a b c 0x4a7484aa6ea6e483 (add w5 (add (add (sigma1 w3) w14) (sigma0 w6))) in
  let '(w6, f, b) := Round c d e f g h a b 0x5cb0a9dcbd41fbd4 (add w6 (add (add (sigma1 w4) w15) (sigma0 w7))) in
  let '(w7, e, a) := Round b c d e f g h a 0x76f988da831153b5 (add w7 (add (add (sigma1 w5) w0) (sigma0 w8))) in
  let '(w8, d, h) := Round a b c d e f g h 0x983e5152ee66dfab (add w8 (add (add (sigma1 w6) w1) (sigma0 w9))) in
  let '(w9, c, g) := Round h a b c d e f g 0xa831c66d2db43210 (add w9 (add (add (sigma1 w7) w2) (sigma0 w10))) in
  let '(w10, b, f) := Round g h a b c d e f 0xb00327c898fb213f (add w10 (add (add (sigma1 w8) w3) (sigma0 w11))) in
  let '(w11, a, e) := Round f g h a b c d e 0xbf597fc7beef0ee4 (add w11 (add (add (sigma1 w9) w4) (sigma0 w12))) in
  let '(w12, h, d) := Round e f g h a b c d 0xc6e00bf33da88fc2 (add w12 (add (add (sigma1 w10) w5) (sigma0 w13))) in
  let '(w13, g, c) := Round d e f g h a b c 0xd5a79147930aa725 (add w13 (add (add (sigma1 w11) w6) (sigma0 w14))) in
  let '(w14, f, b) := Round c d e f g h a b 0x06ca6351e003826f (add w14 (add (add (sigma1 w12) w7) (sigma0 w15))) in
  let '(w15, e, a) := Round b c d e f g h a 0x142929670a0e6e70 (add w15 (add (add (sigma1 w13) w8) (sigma0 w0))) in
  let '(w0, d, h) := Round a b c d e f g h 0x27b70a8546d22ffc (add w0 (add (add (sigma1 w14) w9) (sigma0 w1))) in
  let '(w1, c, g) := Round h a b c d e f g 0x2e1b21385c26c926 (add w1 (add (add (sigma1 w15) w10) (sigma0 w2))) in
  let '(w2, b, f) := Round g h a b c d e f 0x4d2c6dfc5ac42aed (add w2 (add (add (sigma1 w0) w11) (sigma0 w3))) in
  let '(w3, a, e) := Round f g h a b c d e 0x53380d139d95b3df (add w3 (add (add (sigma1 w1) w12) (sigma0 w4))) in
  let '(w4, h, d) := Round e f g h a b c d 0x650a73548baf63de (add w4 (add (add (sigma1 w2) w13) (sigma0 w5))) in
  let '(w5, g, c) := Round d e f g h a b c 0x766a0abb3c77b2a8 (add w5 (add (add (sigma1 w3) w14) (sigma0 w6))) in
  let '(w6, f, b) := Round c d e f g h a b 0x81c2c92e47edaee6 (add w6 (add (add (sigma1 w4) w15) (sigma0 w7))) in
  let '(w7, e, a) := Round b c d e f g h a 0x92722c851482353b (add w7 (add (add (sigma1 w5) w0) (sigma0 w8))) in
  let '(w8, d, h) := Round a b c d e f g h 0xa2bfe8a14cf10364 (add w8 (add (add (sigma1 w6) w1) (sigma0 w9))) in
  let '(w9, c, g) := Round h a b c d e f g 0xa81a664bbc423001 (add w9 (add (add (sigma1 w7) w2) (sigma0 w10))) in
  let '(w10, b, f) := Round g h a b c d e f 0xc24b8b70d0f89791 (add w10 (add (add (sigma1 w8) w3) (sigma0 w11))) in
  let '(w11, a, e) := Round f g h a b c d e 0xc76c51a30654be30 (add w11 (add (add (sigma1 w9) w4) (sigma0 w12))) in
  let '(w12, h, d) := Round e f g h a b c d 0xd192e819d6ef5218 (add w12 (add (add (sigma1 w10) w5) (sigma0 w13))) in
  let '(w13, g, c) := Round d e f g h a b c 0xd69906245565a910 (add w13 (add (add (sigma1 w11) w6) (sigma0 w14))) in
  let '(w14, f, b) := Round c d e f g h a b 0xf40e35855771202a (add w14 (add (add (sigma1 w12) w7) (sigma0 w15))) in
  let '(w15, e, a) := Round b c d e f g h a 0x106aa07032bbd1b8 (add w15 (add (add (sigma1 w13) w8) (sigma0 w0))) in
  let '(w0, d, h) := Round a b c d e f g h 0x19a4c116b8d2d0c8 (add w0 (add (add (sigma1 w14) w9) (sigma0 w1))) in
  let '(w1, c, g) := Round h a b c d e f g 0x1e376c085141ab53 (add w1 (add (add (sigma1 w15) w10) (sigma0 w2))) in
  let '(w2, b, f) := Round g h a b c d e f 0x2748774cdf8eeb99 (add w2 (add (add (sigma1 w0) w11) (sigma0 w3))) in
  let '(w3, a, e) := Round f g h a b c d e 0x34b0bcb5e19b48a8 (add w3 (add (add (sigma1 w1) w12) (sigma0 w4))) in
  let '(w4, h, d) := Round e f g h a b c d 0x391c0cb3c5c95a63 (add w4 (add (add (sigma1 w2) w13) (sigma0 w5))) in
  let '(w5, g, c) := Round d e f g h a b c 0x4ed8aa4ae3418acb (add w5 (add (add (sigma1 w3) w14) (sigma0 w6))) in
  let '(w6, f, b) := Round c d e f g h a b 0x5b9cca4f7763e373 (add w6 (add (add (sigma1 w4) w15) (sigma0 w7))) in
  let '(w7, e, a) := Round b c d e f g h a 0x682e6ff3d6b2b8a3 (add w7 (add (add (sigma1 w5) w0) (sigma0 w8))) in
  let '(w8, d, h) := Round a b c d e f g h 0x748f82ee5defb2fc (add w8 (add (add (sigma1 w6) w1) (sigma0 w9))) in
  let '(w9, c, g) := Round h a b c d e f g 0x78a5636f43172f60 (add w9 (add (add (sigma1 w7) w2) (sigma0 w10))) in
  let '(w10, b, f) := Round g h a b c d e f 0x84c87814a1f0ab72 (add w10 (add (add (sigma1 w8) w3) (sigma0 w11))) in
  let '(w11, a, e) := Round f g h a b c d e 0x8cc702081a6439ec (add w11 (add (add (sigma1 w9) w4) (sigma0 w12))) in
  let '(w12, h, d) := Round e f g h a b c d 0x90befffa23631e28 (add w12 (add (add (sigma1 w10) w5) (sigma0 w13))) in
  let '(w13, g, c) := Round d e f g h a b c 0xa4506cebde82bde9 (add w13 (add (add (sigma1 w11) w6) (sigma0 w14))) in
  let '(w14, f, b) := Round c d e f g h a b 0xbef9a3f7b2c67915 (add w14 (add (add (sigma1 w12) w7) (sigma0 w15))) in
  let '(w15, e, a) := Round b c d e f g h a 0xc67178f2e372532b (add w15 (add (add (sigma1 w13) w8) (sigma0 w0))) in
  let '(w0, d, h) := Round a b c d e f g h 0xca273eceea26619c (add w0 (add (add (sigma1 w14) w9) (sigma0 w1))) in
  let '(w1, c, g) := Round h a b c d e f g 0xd186b8c721c0c207 (add w1 (add (add (sigma1 w15) w10) (sigma0 w2))) in
  let '(w2, b, f) := Round g h a b c d e f 0xeada7dd6cde0eb1e (add w2 (add (add (sigma1 w0) w11) (sigma0 w3))) in
  let '(w3, a, e) := Round f g h a b c d e 0xf57d4f7fee6ed178 (add w3 (add (add (sigma1 w1) w12) (sigma0 w4))) in
  let '(w4, h, d) := Round e f g h a b c d 0x06f067aa72176fba (add w4 (add (add (sigma1 w2) w13) (sigma0 w5))) in
  let '(w5, g, c) := Round d e f g h a b c 0x0a637dc5a2c898a6 (add w5 (add (add (sigma1 w3) w14) (sigma0 w6))) in
  let '(w6, f, b) := Round c d e f g h a b 0x113f9804bef90dae (add w6 (add (add (sigma1 w4) w15) (sigma0 w7))) in
  let '(w7, e, a) := Round b c d e f g h a 0x1b710b35131c471b (add w7 (add (add (sigma1 w5) w0) (sigma0 w8))) in
  let '(w8, d, h) := Round a b c d e f g h 0x28db77f523047d84 (add w8 (add (add (sigma1 w6) w1) (sigma0 w9))) in
  let '(w9, c, g) := Round h a b c d e f g 0x32caab7b40c72493 (add w9 (add (add (sigma1 w7) w2) (sigma0 w10))) in
  let '(w10, b, f) := Round g h a b c d e f 0x3c9ebe0a15c9bebc (add w10 (add (add (sigma1 w8) w3) (sigma0 w11))) in
  let '(w11, a, e) := Round f g h a b c d e 0x431d67c49c100d4c (add w11 (add (add (sigma1 w9) w4) (sigma0 w12))) in
  let '(w12, h, d) := Round e f g h a b c d 0x4cc5d4becb3e42b6 (add w12 (add (add (sigma1 w10) w5) (sigma0 w13))) in
  let '(w13, g, c) := Round d e f g h a b c 0x597f299cfc657e2a (add w13 (add (add (sigma1 w11) w6) (sigma0 w14))) in
  let '(_, f, b) := Round c d e f g h a b 0x5fcb6fab3ad6faec (add (add (add w14 (sigma1 w12)) w7) (sigma0 w15)) in
  let '(_, e, a) := Round b c d e f g h a 0x6c44198c4a475817 (add (add (add w15 (sigma1 w13)) w8) (sigma0 w0)) in
  let '(s0, s1, s2, s3, s4, s5, s6, s7) := s in
  (add s0 a, add s1 b, add s2 c, add s3 d, add s4 e, add s5 f, add s6 g, add s7 h).

(** [WriteBE64] of the eight words. *)
Definition output (s : words8) : bytes :=
  let '(s0, s1, s2, s3, s4, s5, s6, s7) := s in
  WriteBE64 s0 ++ WriteBE64 s1 ++ WriteBE64 s2 ++ WriteBE64 s3 ++
  WriteBE64 s4 ++ WriteBE64 s5 ++ WriteBE64 s6 ++ WriteBE64 s7.

(** The functions and constants of the standard. *)
Definition ROTR (n x : Z) : Z := rot 64 n (64 - n) x.
Definition ref_Sigma0 (x : Z) : Z := Z.lxor (Z.lxor (ROTR 28 x) (ROTR 34 x)) (ROTR 39 x).
Definition ref_Sigma1 (x : Z) : Z := Z.lxor (Z.lxor (ROTR 14 x) (ROTR 18 x)) (ROTR 41 x).
Definition ref_sigma0 (x : Z) : Z := Z.lxor (Z.lxor (ROTR 1 x) (ROTR 8 x)) (Z.shiftr x 7).
Definition ref_sigma1 (x : Z) : Z := Z.lxor (Z.lxor (ROTR 19 x) (ROTR 61 x)) (Z.shiftr x 6).
Definition K : list Z :=
    [4794697086780616226; 8158064640168781261; 13096744586834688815; 16840607885511220156; 4131703408338449720;
     6480981068601479193; 10538285296894168987; 12329834152419229976; 15566598209576043074; 1334009975649890238;
     2608012711638119052; 6128411473006802146; 8268148722764581231; 9286055187155687089; 11230858885718282805;
     13951009754708518548; 16472876342353939154; 17275323862435702243; 1135362057144423861; 2597628984639134821;
     3308224258029322869; 5365058923640841347; 6679025012923562964; 8573033837759648693; 10970295158949994411;
     12119686244451234320; 12683024718118986047; 13788192230050041572; 14330467153632333762; 15395433587784984357;
     489312712824947311; 1452737877330783856; 2861767655752347644; 3322285676063803686; 5560940570517711597;
     5996557281743188959; 7280758554555802590; 8532644243296465576; 9350256976987008742; 10552545826968843579;
     11727347734174303076; 12113106623233404929; 14000437183269869457; 14369950271660146224; 15101387698204529176;
     15463397548674623760; 17586052441742319658; 1182934255886127544; 1847814050463011016; 2177327727835720531;
     2830643537854262169; 3796741975233480872; 4115178125766777443; 5681478168544905931; 6601373596472566643;
     7507060721942968483; 8399075790359081724; 8693463985226723168; 9568029438360202098; 10144078919501101548;
     10430055236837252648; 11840083180663258601; 13761210420658862357; 14299343276471374635; 14566680578165727644;
     15097957966210449927; 16922976911328602910; 17689382322260857208; 500013540394364858; 748580250866718886;
     1242879168328830382; 1977374033974150939; 2944078676154940804; 3659926193048069267; 4368137639120453308;
     4836135668995329356; 5532061633213252278; 6448918945643986474; 6902733635092675308; 7801388544844847127].

Definition ref_words (chunk : bytes) : list Z := map (fun i => ReadBE64 chunk (8 * i)) (seq 0 16).
Definition ref_Transform (s : words8) (chunk : bytes) : words8 :=
  ref_compress 64 ref_Sigma0 ref_Sigma1 ref_sigma0 ref_sigma1 K s (ref_words chunk).

Lemma sha512_K_roots : forallb (fun pk => cube_root_bits 64 (cbrt (fst pk)) (fst pk) (snd pk)) (combine (primes 410) K) = true /\
  length K = length (primes 410).
Proof. split; vm_compute; reflexivity. Qed.

Lemma sha512_Initialize_roots :
  let '(h0, h1, h2, h3, h4, h5, h6, h7) := Initialize in
  forallb (fun ipk => let '(i, p, k) := ipk in square_root_bits 64 i p k)
    [(1, 2, h0); (1, 3, h1); (2, 5, h2); (2, 7, h3); (3, 11, h4); (3, 13, h5); (4, 17, h6); (4, 19, h7)] = true.
Proof. vm_compute. reflexivity. Qed.

Lemma sha512_Transform_ref s chunk : Transform s chunk = ref_Transform s chunk.
Proof.
  unfold ref_Transform. change K with (firstn 16 K ++ skipn 16 K). rewrite compress_split by reflexivity.
  change ref_Sigma0 with Sigma0. change ref_Sigma1 with Sigma1.
  change ref_sigma0 with sigma0. change ref_sigma1 with sigma1.
  destruct s as [[[[[[[a b] c] d] e] f] g] h].
  cbn [ref_words map seq firstn skipn K Nat.mul Nat.add].
  cbv delta [Transform]. cbv beta iota.
  do 16 (apply code_first; intros ? ? ?). rewrite start_done.
  do 62 (apply code_next; [symmetry; apply next_add|intros ? ? ?]).
  do 2 (apply code_next; [symmetry; apply next_add'|intros ? ? ?]).
  reflexivity.
Qed.
End SHA512.
