(* ===== verification/Sha1.v ===== *)
(** SHA-1: the compression function of src/crypto/sha1.cpp, proved equal to
    that of FIPS 180-4.  As in [Sha2], the code renames registers in unrolled
    rounds and keeps sixteen words of the schedule in place. *)

From Stdlib Require Import ZArith List Bool Lia.
From S2P Require Import Prelude Serialize Hasher Sha2.
Import ListNotations.
Open Scope Z_scope.

Module SHA1.
(** The five words [s[0]] to [s[4]]. *)
Definition words5 : Type := Z * Z * Z * Z * Z.

Abbreviation add := (Sha2.add 32).
(** [(x << n) | (x >> (32 - n))] *)
Definition rol (n x : Z) : Z := Z.lor (w32 (Z.shiftl x n)) (Z.shiftr x (32 - n)).

(** The word passed to the round, and the new values of [b] and [e]. *)
Definition Round (a b c d e f k w : Z) : Z * Z * Z :=
  (w, rol 30 b, add e (add (add (add (rol 5 a) f) k) w)).

Definition f1 (b c d : Z) : Z := Z.lxor d (Z.land b (Z.lxor c d)).
Definition f2 (b c d : Z) : Z := Z.lxor (Z.lxor b c) d.
Definition f3 (b c d : Z) : Z := Z.lor (Z.land b c) (Z.land d (Z.lor b c)).

Definition left (x : Z) : Z := rol 1 x.

Definition Initialize : words5 := (0x67452301, 0xEFCDAB89, 0x98BADCFE, 0x10325476, 0xC3D2E1F0).

Definition k1 : Z := 0x5A827999.
Definition k2 : Z := 0x6ED9EBA1.
Definition k3 : Z := 0x8F1BBCDC.
Definition k4 : Z := 0xCA62C1D6.

Definition Transform (s : words5) (chunk : bytes) : words5 :=
  let '(a, b, c, d, e) := s in
  let '(w0, b, e) := Round a b c d e (f1 b c d) k1 (ReadBE32 chunk 0) in
  let '(w1, a, d) := Round e a b c d (f1 a b c) k1 (ReadBE32 chunk 4) in
  let '(w2, e, c) := Round d e a b c (f1 e a b) k1 (ReadBE32 chunk 8) in
  let '(w3, d, b) := Round c d e a b (f1 d e a) k1 (ReadBE32 chunk 12) in
  let '(w4, c, a) := Round b c d e a (f1 c d e) k1 (ReadBE32 chunk 16) in
  let '(w5, b, e) := Round a b c d e (f1 b c d) k1 (ReadBE32 chunk 20) in
  let '(w6, a, d) := Round e a b c d (f1 a b c) k1 (ReadBE32 chunk 24) in
  let '(w7, e, c) := Round d e a b c (f1 e a b) k1 (ReadBE32 chunk 28) in
  let '(w8, d, b) := Round c d e a b (f1 d e a) k1 (ReadBE32 chunk 32) in
  let '(w9, c, a) := Round b c d e a (f1 c d e) k1 (ReadBE32 chunk 36) in
  let '(w10, b, e) := Round a b c d e (f1 b c d) k1 (ReadBE32 chunk 40) in
  let '(w11, a, d) := Round e a b c d (f1 a b c) k1 (ReadBE32 chunk 44) in
  let '(w12, e, c) := Round d e a b c (f1 e a b) k1 (ReadBE32 chunk 48) in
  let '(w13, d, b) := Round c d e a b (f1 d e a) k1 (ReadBE32 chunk 52) in
  let '(w14, c, a) := Round b c d e a (f1 c d e) k1 (ReadBE32 chunk 56) in
  let '(w15, b, e) := Round a b c d e (f1 b c d) k1 (ReadBE32 chunk 60) in
  let '(w0, a, d) := Round e a b c d (f1 a b c) k1 (left (Z.lxor (Z.lxor (Z.lxor w0 w13) w8) w2)) in
  let '(w1, e, c) := Round d e a b c (f1 e a b) k1 (left (Z.lxor (Z.lxor (Z.lxor w1 w14) w9) w3)) in
  let '(w2, d, b) := Round c d e a b (f1 d e a) k1 (left (Z.lxor (Z.lxor (Z.lxor w2 w15) w10) w4)) in
  let '(w3, c, a) := Round b c d e a (f1 c d e) k1 (left (Z.lxor (Z.lxor (Z.lxor w3 w0) w11) w5)) in
  let '(w4, b, e) := Round a b c d e (f2 b c d) k2 (left (Z.lxor (Z.lxor (Z.lxor w4 w1) w12) w6)) in
  let '(w5, a, d) := Round e a b c d (f2 a b c) k2 (left (Z.lxor (Z.lxor (Z.lxor w5 w2) w13) w7)) in
  let '(w6, e, c) := Round d e a b c (f2 e a b) k2 (left (Z.lxor (Z.lxor (Z.lxor w6 w3) w14) w8)) in
  let '(w7, d, b) := Round c d e a b (f2 d e a) k2 (left (Z.lxor (Z.lxor (Z.lxor w7 w4) w15) w9)) in
  let '(w8, c, a) := Round b c d e a (f2 c d e) k2 (left (Z.lxor (Z.lxor (Z.lxor w8 w5) w0) w10)) in
  let '(w9, b, e) := Round a b c d e (f2 b c d) k2 (left (Z.lxor (Z.lxor (Z.lxor w9 w6) w1) w11)) in
  let '(w10, a, d) := Round e a b c d (f2 a b c) k2 (left (Z.lxor (Z.lxor (Z.lxor w10 w7) w2) w12)) in
  let '(w11, e, c) := Round d e a b c (f2 e a b) k2 (left (Z.lxor (Z.lxor (Z.lxor w11 w8) w3) w13)) in
  let '(w12, d, b) := Round c d e a b (f2 d e a) k2 (left (Z.lxor (Z.lxor (Z.lxor w12 w9) w4) w14)) in
  let '(w13, c, a) := Round b c d e a (f2 c d e) k2 (left (Z.lxor (Z.lxor (Z.lxor w13 w10) w5) w15)) in
  let '(w14, b, e) := Round a b c d e (f2 b c d) k2 (left (Z.lxor (Z.lxor (Z.lxor w14 w11) w6) w0)) in
  let '(w15, a, d) := Round e a b c d (f2 a b c) k2 (left (Z.lxor (Z.lxor (Z.lxor w15 w12) w7) w1)) in
  let '(w0, e, c) := Round d e a b c (f2 e a b) k2 (left (Z.lxor (Z.lxor (Z.lxor w0 w13) w8) w2)) in
  let '(w1, d, b) := Round c d e a b (f2 d e a) k2 (left (Z.lxor (Z.lxor (Z.lxor w1 w14) w9) w3)) in
  let '(w2, c, a) := Round b c d e a (f2 c d e) k2 (left (Z.lxor (Z.lxor (Z.lxor w2 w15) w10) w4)) in
  let '(w3, b, e) := Round a b c d e (f2 b c d) k2 (left (Z.lxor (Z.lxor (Z.lxor w3 w0) w11) w5)) in
  let '(w4, a, d) := Round e a b c d (f2 a b c) k2 (left (Z.lxor (Z.lxor (Z.lxor w4 w1) w12) w6)) in
  let '(w5, e, c) := Round d e a b c (f2 e a b) k2 (left (Z.lxor (Z.lxor (Z.lxor w5 w2) w13) w7)) in
  let '(w6, d, b) := Round c d e a b (f2 d e a) k2 (left (Z.lxor (Z.lxor (Z.lxor w6 w3) w14) w8)) in
  let '(w7, c, a) := Round b c d e a (f2 c d e) k2 (left (Z.lxor (Z.lxor (Z.lxor w7 w4) w15) w9)) in
  let '(w8, b, e) := Round a b c d e (f3 b c d) k3 (left (Z.lxor (Z.lxor (Z.lxor w8 w5) w0) w10)) in
  let '(w9, a, d) := Round e a b c d (f3 a b c) k3 (left (Z.lxor (Z.lxor (Z.lxor w9 w6) w1) w11)) in
  let '(w10, e, c) := Round d e a b c (f3 e a b) k3 (left (Z.lxor (Z.lxor (Z.lxor w10 w7) w2) w12)) in
  let '(w11, d, b) := Round c d e a b (f3 d e a) k3 (left (Z.lxor (Z.lxor (Z.lxor w11 w8) w3) w13)) in
  let '(w12, c, a) := Round b c d e a (f3 c d e) k3 (left (Z.lxor (Z.lxor (Z.lxor w12 w9) w4) w14)) in
  let '(w13, b, e) := Round a b c d e (f3 b c d) k3 (left (Z.lxor (Z.lxor (Z.lxor w13 w10) w5) w15)) in
  let '(w14, a, d) := Round e a b c d (f3 a b c) k3 (left (Z.lxor (Z.lxor (Z.lxor w14 w11) w6) w0)) in
  let '(w15, e, c) := Round d e a b c (f3 e a b) k3 (left (Z.lxor (Z.lxor (Z.lxor w15 w12) w7) w1)) in
  let '(w0, d, b) := Round c d e a b (f3 d e a) k3 (left (Z.lxor (Z.lxor (Z.lxor w0 w13) w8) w2)) in
  let '(w1, c, a) := Round b c d e a (f3 c d e) k3 (left (Z.lxor (Z.lxor (Z.lxor w1 w14) w9) w3)) in
  let '(w2, b, e) := Round a b c d e (f3 b c d) k3 (left (Z.lxor (Z.lxor (Z.lxor w2 w15) w10) w4)) in
  let '(w3, a, d) := Round e a b c d (f3 a b c) k3 (left (Z.lxor (Z.lxor (Z.lxor w3 w0) w11) w5)) in
  let '(w4, e, c) := Round d e a b c (f3 e a b) k3 (left (Z.lxor (Z.lxor (Z.lxor w4 w1) w12) w6)) in
  let '(w5, d, b) := Round c d e a b (f3 d e a) k3 (left (Z.lxor (Z.lxor (Z.lxor w5 w2) w13) w7)) in
  let '(w6, c, a) := Round b c d e a (f3 c d e) k3 (left (Z.lxor (Z.lxor (Z.lxor w6 w3) w14) w8)) in
  let '(w7, b, e) := Round a b c d e (f3 b c d) k3 (left (Z.lxor (Z.lxor (Z.lxor w7 w4) w15) w9)) in
  let '(w8, a, d) := Round e a b c d (f3 a b c) k3 (left (Z.lxor (Z.lxor (Z.lxor w8 w5) w0) w10)) in
  let '(w9, e, c) := Round d e a b c (f3 e a b) k3 (left (Z.lxor (Z.lxor (Z.lxor w9 w6) w1) w11)) in
  let '(w10, d, b) := Round c d e a b (f3 d e a) k3 (left (Z.lxor (Z.lxor (Z.lxor w10 w7) w2) w12)) in
  let '(w11, c, a) := Round b c d e a (f3 c d e) k3 (left (Z.lxor (Z.lxor (Z.lxor w11 w8) w3) w13)) in
  let '(w12, b, e) := Round a b c d e (f2 b c d) k4 (left (Z.lxor (Z.lxor (Z.lxor w12 w9) w4) w14)) in
  let '(w13, a, d) := Round e a b c d (f2 a b c) k4 (left (Z.lxor (Z.lxor (Z.lxor w13 w10) w5) w15)) in
  let '(w14, e, c) := Round d e a b c (f2 e a b) k4 (left (Z.lxor (Z.lxor (Z.lxor w14 w11) w6) w0)) in
  let '(w15, d, b) := Round c d e a b (f2 d e a) k4 (left (Z.lxor (Z.lxor (Z.lxor w15 w12) w7) w1)) in
  let '(w0, c, a) := Round b c d e a (f2 c d e) k4 (left (Z.lxor (Z.lxor (Z.lxor w0 w13) w8) w2)) in
  let '(w1, b, e) := Round a b c d e (f2 b c d) k4 (left (Z.lxor (Z.lxor (Z.lxor w1 w14) w9) w3)) in
  let '(w2, a, d) := Round e a b c d (f2 a b c) k4 (left (Z.lxor (Z.lxor (Z.lxor w2 w15) w10) w4)) in
  let '(w3, e, c) := Round d e a b c (f2 e a b) k4 (left (Z.lxor (Z.lxor (Z.lxor w3 w0) w11) w5)) in
  let '(w4, d, b) := Round c d e a b (f2 d e a) k4 (left (Z.lxor (Z.lxor (Z.lxor w4 w1) w12) w6)) in
  let '(w5, c, a) := Round b c d e a (f2 c d e) k4 (left (Z.lxor (Z.lxor (Z.lxor w5 w2) w13) w7)) in
  let '(w6, b, e) := Round a b c d e (f2 b c d) k4 (left (Z.lxor (Z.lxor (Z.lxor w6 w3) w14) w8)) in
  let '(w7, a, d) := Round e a b c d (f2 a b c) k4 (left (Z.lxor (Z.lxor (Z.lxor w7 w4) w15) w9)) in
  let '(w8, e, c) := Round d e a b c (f2 e a b) k4 (left (Z.lxor (Z.lxor (Z.lxor w8 w5) w0) w10)) in
  let '(w9, d, b) := Round c d e a b (f2 d e a) k4 (left (Z.lxor (Z.lxor (Z.lxor w9 w6) w1) w11)) in
  let '(w10, c, a) := Round b c d e a (f2 c d e) k4 (left (Z.lxor (Z.lxor (Z.lxor w10 w7) w2) w12)) in
  let '(w11, b, e) := Round a b c d e (f2 b c d) k4 (left (Z.lxor (Z.lxor (Z.lxor w11 w8) w3) w13)) in
  let '(w12, a, d) := Round e a b c d (f2 a b c) k4 (left (Z.lxor (Z.lxor (Z.lxor w12 w9) w4) w14)) in
  let '(_, e, c) := Round d e a b c (f2 e a b) k4 (left (Z.lxor (Z.lxor (Z.lxor w13 w10) w5) w15)) in
  let '(_, d, b) := Round c d e a b (f2 d e a) k4 (left (Z.lxor (Z.lxor (Z.lxor w14 w11) w6) w0)) in
  let '(_, c, a) := Round b c d e a (f2 c d e) k4 (left (Z.lxor (Z.lxor (Z.lxor w15 w12) w7) w1)) in
  let '(s0, s1, s2, s3, s4) := s in
  (add s0 a, add s1 b, add s2 c, add s3 d, add s4 e).

(** [WriteBE32] of the five words. *)
Definition output (s : words5) : bytes :=
  let '(s0, s1, s2, s3, s4) := s in WriteBE32 s0 ++ WriteBE32 s1 ++ WriteBE32 s2 ++ WriteBE32 s3 ++ WriteBE32 s4.

(** * The reference *)

(** The function and the constant of a round. *)
Definition ref_f (t : nat) : Z -> Z -> Z -> Z :=
  if (t <? 20)%nat then ref_Ch else if (t <? 40)%nat then f2 else if (t <? 60)%nat then ref_Maj else f2.
(** A quarter of the square root of 2, 3, 5 and 10, as 32-bit fractions. *)
Definition ref_K (t : nat) : Z :=
  Z.sqrt ((if (t <? 20)%nat then 2 else if (t <? 40)%nat then 3 else if (t <? 60)%nat then 5 else 10) * 2 ^ 60).

Definition ref_step (f : Z -> Z -> Z -> Z) (k : Z) (r : words5) (wt : Z) : words5 :=
  let '(a, b, c, d, e) := r in
  (w32 (rol 5 a + f b c d + e + k + wt), a, rol 30 b, c, d).

(** The next word of the schedule; the latest words come first. *)
Definition ref_next (ws : list Z) : Z :=
  rol 1 (Z.lxor (Z.lxor (Z.lxor (nth 2 ws 0) (nth 7 ws 0)) (nth 13 ws 0)) (nth 15 ws 0)).

Fixpoint ref_extend (n : nat) (ws : list Z) : list Z :=
  match n with
  | O => []
  | S n => let x := ref_next ws in x :: ref_extend n (x :: ws)
  end.

Definition ref_rounds (rounds : list ((Z -> Z -> Z -> Z) * Z)) (W : list Z) (r : words5) : words5 :=
  fold_left (fun r fkw => ref_step (fst (fst fkw)) (snd (fst fkw)) r (snd fkw)) (combine rounds W) r.

Definition ref_finish (H r : words5) : words5 :=
  let '(h0, h1, h2, h3, h4) := H in
  let '(a, b, c, d, e) := r in (w32 (h0 + a), w32 (h1 + b), w32 (h2 + c), w32 (h3 + d), w32 (h4 + e)).

Definition ref_words (chunk : bytes) : list Z := map (fun i => ReadBE32 chunk (4 * i)) (seq 0 16).

Definition ref_Transform (s : words5) (chunk : bytes) : words5 :=
  let M := ref_words chunk in
  ref_finish s (ref_rounds (map (fun t => (ref_f t, ref_K t)) (seq 0 80)) (M ++ ref_extend 64 (rev M)) s).

(** * The code computes the reference *)

Definition f_ok (f g : Z -> Z -> Z -> Z) : Prop := forall x y z, f x y z = g x y z.

Lemma sha1_step_Round f g k a b c d e x : f_ok f g ->
  ref_step g k (a, b, c, d, e) x = let '(_, b', e') := Round a b c d e (f b c d) k x in (e', a, b', c, d).
Proof.
  intros E. unfold ref_step, Round, Sha2.add. rewrite <- (E b c d). do 4 f_equal. unfold w32.
  rewrite (wrap_add_l 32 (rol 5 a + f b c d)), (wrap_add_l 32 (_ + _ + k)), wrap_add_r. f_equal. lia.
Qed.

Fixpoint go (rounds : list ((Z -> Z -> Z -> Z) * Z)) (ws : list Z) (r : words5) : words5 :=
  match rounds with
  | [] => r
  | (f, k) :: rs => go rs (ref_next ws :: ws) (ref_step f k r (ref_next ws))
  end.

Fixpoint start (r1 r0 : list ((Z -> Z -> Z -> Z) * Z)) (M ws : list Z) (r : words5) : words5 :=
  match r0, M with
  | (f, k) :: r0', m :: M' => start r1 r0' M' (m :: ws) (ref_step f k r m)
  | _, _ => go r1 ws r
  end.

Lemma sha1_go_extend rounds ws r : ref_rounds rounds (ref_extend (length rounds) ws) r = go rounds ws r.
Proof.
  revert ws r; induction rounds as [|[f k] rs IH]; intros ws r; [reflexivity|].
  cbn [length ref_extend go]. unfold ref_rounds in *. cbn [combine fold_left fst snd]. apply IH.
Qed.

Lemma sha1_start_extend r0 r1 M ws r : length r0 = length M ->
  ref_rounds (r0 ++ r1) (M ++ ref_extend (length r1) (rev M ++ ws)) r = start r1 r0 M ws r.
Proof.
  revert M ws r; induction r0 as [|[f k] r0 IH]; intros [|m M] ws r L; try discriminate; [apply sha1_go_extend|].
  injection L as L. cbn [start]. rewrite <- IH by exact L. unfold ref_rounds. cbn [rev app combine fold_left fst snd].
  now rewrite <- app_assoc.
Qed.

Lemma sha1_rounds_split r0 r1 M n r : length r0 = length M -> length r1 = n ->
  ref_rounds (r0 ++ r1) (M ++ ref_extend n (rev M)) r = start r1 r0 M [] r.
Proof. intros L <-. rewrite <- sha1_start_extend by exact L. now rewrite app_nil_r. Qed.

Lemma sha1_code_first (F : Z -> Z -> Z -> words5) H f g a b c d e k x r1 r0 M ws : f_ok f g ->
  (forall y b' e', F y b' e' = ref_finish H (start r1 r0 M (y :: ws) (e', a, b', c, d))) ->
  (let '(y, b', e') := Round a b c d e (f b c d) k x in F y b' e') =
  ref_finish H (start r1 ((g, k) :: r0) (x :: M) ws (a, b, c, d, e)).
Proof.
  intros Ef E. cbn [start]. rewrite (sha1_step_Round f) by exact Ef. unfold Round. apply E.
Qed.

Lemma sha1_code_next (F : Z -> Z -> Z -> words5) H f g a b c d e k x rs ws : f_ok f g -> x = ref_next ws ->
  (forall y b' e', F y b' e' = ref_finish H (go rs (y :: ws) (e', a, b', c, d))) ->
  (let '(y, b', e') := Round a b c d e (f b c d) k x in F y b' e') =
  ref_finish H (go ((g, k) :: rs) ws (a, b, c, d, e)).
Proof.
  intros Ef X E. cbn [go]. rewrite <- X, (sha1_step_Round f) by exact Ef. unfold Round. apply E.
Qed.

Lemma next_xor x y z v : left (Z.lxor (Z.lxor (Z.lxor v x) y) z) = rol 1 (Z.lxor (Z.lxor (Z.lxor x y) z) v).
Proof. unfold left. f_equal. now rewrite (Z.lxor_comm v x), !Z.lxor_assoc, (Z.lxor_comm v), !Z.lxor_assoc. Qed.

Lemma f1_ok : f_ok f1 ref_Ch.
Proof. exact Ch_ref. Qed.
Lemma f2_ok : f_ok f2 f2.
Proof. now intros x y z. Qed.
Lemma f3_ok : f_ok f3 ref_Maj.
Proof. exact Maj_ref. Qed.

Lemma ref_table : map (fun t => (ref_f t, ref_K t)) (seq 0 80) =
  repeat (ref_Ch, k1) 20 ++ repeat (f2, k2) 20 ++ repeat (ref_Maj, k3) 20 ++ repeat (f2, k4) 20.
Proof. reflexivity. Qed.

Ltac same_f := first [exact f1_ok|exact f2_ok|exact f3_ok].

Lemma sha1_Transform_ref s chunk : Transform s chunk = ref_Transform s chunk.
Proof.
  unfold ref_Transform. cbv zeta. rewrite ref_table.
  match goal with |- context [ref_rounds ?t _ _] => change t with (firstn 16 t ++ skipn 16 t) end.
  rewrite sha1_rounds_split by reflexivity.
  destruct s as [[[[a b] c] d] e].
  cbn [ref_words map seq firstn skipn repeat app Nat.mul Nat.add].
  cbv delta [Transform]. cbv beta iota.
  do 16 (apply sha1_code_first; [same_f|intros ? ? ?]). cbn [start].
  do 64 (apply sha1_code_next; [same_f|apply next_xor|intros ? ? ?]).
  reflexivity.
Qed.
End SHA1.
