(* ===== verification/Ripemd160.v ===== *)
(** RIPEMD-160: the compression function of src/crypto/ripemd160.cpp, proved
    equal to that of its specification.  The code interleaves the two lines of
    eighty rounds, unrolled; the reference has the word and shift of every
    round from the permutations and the table of the specification. *)

From Stdlib Require Import ZArith List Bool Lia.
From S2P Require Import Prelude Serialize Hasher Sha2 Sha1.
Import ListNotations.
Open Scope Z_scope.

Module RIPEMD160.
(** The five words [s[0]] to [s[4]]. *)
Definition words5 : Type := SHA1.words5.
Abbreviation add := (Sha2.add 32).

(** [~x] *)
Definition not32 (x : Z) : Z := Z.lxor x 0xFFFFFFFF.

Definition f1 (x y z : Z) : Z := Z.lxor (Z.lxor x y) z.
Definition f2 (x y z : Z) : Z := Z.lor (Z.land x y) (Z.land (not32 x) z).
Definition f3 (x y z : Z) : Z := Z.lxor (Z.lor x (not32 y)) z.
Definition f4 (x y z : Z) : Z := Z.lor (Z.land x z) (Z.land y (not32 z)).
Definition f5 (x y z : Z) : Z := Z.lxor x (Z.lor y (not32 z)).

Definition Initialize : words5 := (0x67452301, 0xEFCDAB89, 0x98BADCFE, 0x10325476, 0xC3D2E1F0).

Definition rol (x i : Z) : Z := Z.lor (w32 (Z.shiftl x i)) (Z.shiftr x (32 - i)).

(** The new values of [a] and [c]. *)
Definition Round (a b c d e f x k r : Z) : Z * Z := (add (rol (add (add (add a f) x) k) r) e, rol c 10).

Definition R11 (a b c d e x r : Z) : Z * Z := Round a b c d e (f1 b c d) x 0 r.
Definition R21 (a b c d e x r : Z) : Z * Z := Round a b c d e (f2 b c d) x 0x5A827999 r.
Definition R31 (a b c d e x r : Z) : Z * Z := Round a b c d e (f3 b c d) x 0x6ED9EBA1 r.
Definition R41 (a b c d e x r : Z) : Z * Z := Round a b c d e (f4 b c d) x 0x8F1BBCDC r.
Definition R51 (a b c d e x r : Z) : Z * Z := Round a b c d e (f5 b c d) x 0xA953FD4E r.

Definition R12 (a b c d e x r : Z) : Z * Z := Round a b c d e (f5 b c d) x 0x50A28BE6 r.
Definition R22 (a b c d e x r : Z) : Z * Z := Round a b c d e (f4 b c d) x 0x5C4DD124 r.
Definition R32 (a b c d e x r : Z) : Z * Z := Round a b c d e (f3 b c d) x 0x6D703EF3 r.
Definition R42 (a b c d e x r : Z) : Z * Z := Round a b c d e (f2 b c d) x 0x7A6D76E9 r.
Definition R52 (a b c d e x r : Z) : Z * Z := Round a b c d e (f1 b c d) x 0 r.

(** The rounds, with the words of the chunk already read. *)
Definition rounds (s : words5) (w0 w1 w2 w3 w4 w5 w6 w7 w8 w9 w10 w11 w12 w13 w14 w15 : Z) : words5 :=
  let '(a1, b1, c1, d1, e1) := s in
  let '(a2, b2, c2, d2, e2) := s in
  let '(a1, c1) := R11 a1 b1 c1 d1 e1 w0 11 in let '(a2, c2) := R12 a2 b2 c2 d2 e2 w5 8 in
  let '(e1, b1) := R11 e1 a1 b1 c1 d1 w1 14 in let '(e2, b2) := R12 e2 a2 b2 c2 d2 w14 9 in
  let '(d1, a1) := R11 d1 e1 a1 b1 c1 w2 15 in let '(d2, a2) := R12 d2 e2 a2 b2 c2 w7 9 in
  let '(c1, e1) := R11 c1 d1 e1 a1 b1 w3 12 in let '(c2, e2) := R12 c2 d2 e2 a2 b2 w0 11 in
  let '(b1, d1) := R11 b1 c1 d1 e1 a1 w4 5 in let '(b2, d2) := R12 b2 c2 d2 e2 a2 w9 13 in
  let '(a1, c1) := R11 a1 b1 c1 d1 e1 w5 8 in let '(a2, c2) := R12 a2 b2 c2 d2 e2 w2 15 in
  let '(e1, b1) := R11 e1 a1 b1 c1 d1 w6 7 in let '(e2, b2) := R12 e2 a2 b2 c2 d2 w11 15 in
  let '(d1, a1) := R11 d1 e1 a1 b1 c1 w7 9 in let '(d2, a2) := R12 d2 e2 a2 b2 c2 w4 5 in
  let '(c1, e1) := R11 c1 d1 e1 a1 b1 w8 11 in let '(c2, e2) := R12 c2 d2 e2 a2 b2 w13 7 in
  let '(b1, d1) := R11 b1 c1 d1 e1 a1 w9 13 in let '(b2, d2) := R12 b2 c2 d2 e2 a2 w6 7 in
  let '(a1, c1) := R11 a1 b1 c1 d1 e1 w10 14 in let '(a2, c2) := R12 a2 b2 c2 d2 e2 w15 8 in
  let '(e1, b1) := R11 e1 a1 b1 c1 d1 w11 15 in let '(e2, b2) := R12 e2 a2 b2 c2 d2 w8 11 in
  let '(d1, a1) := R11 d1 e1 a1 b1 c1 w12 6 in let '(d2, a2) := R12 d2 e2 a2 b2 c2 w1 14 in
  let '(c1, e1) := R11 c1 d1 e1 a1 b1 w13 7 in let '(c2, e2) := R12 c2 d2 e2 a2 b2 w10 14 in
  let '(b1, d1) := R11 b1 c1 d1 e1 a1 w14 9 in let '(b2, d2) := R12 b2 c2 d2 e2 a2 w3 12 in
  let '(a1, c1) := R11 a1 b1 c1 d1 e1 w15 8 in let '(a2, c2) := R12 a2 b2 c2 d2 e2 w12 6 in
  let '(e1, b1) := R21 e1 a1 b1 c1 d1 w7 7 in let '(e2, b2) := R22 e2 a2 b2 c2 d2 w6 9 in
  let '(d1, a1) := R21 d1 e1 a1 b1 c1 w4 6 in let '(d2, a2) := R22 d2 e2 a2 b2 c2 w11 13 in
  let '(c1, e1) := R21 c1 d1 e1 a1 b1 w13 8 in let '(c2, e2) := R22 c2 d2 e2 a2 b2 w3 15 in
  let '(b1, d1) := R21 b1 c1 d1 e1 a1 w1 13 in let '(b2, d2) := R22 b2 c2 d2 e2 a2 w7 7 in
  let '(a1, c1) := R21 a1 b1 c1 d1 e1 w10 11 in let '(a2, c2) := R22 a2 b2 c2 d2 e2 w0 12 in
  let '(e1, b1) := R21 e1 a1 b1 c1 d1 w6 9 in let '(e2, b2) := R22 e2 a2 b2 c2 d2 w13 8 in
  let '(d1, a1) := R21 d1 e1 a1 b1 c1 w15 7 in let '(d2, a2) := R22 d2 e2 a2 b2 c2 w5 9 in
  let '(c1, e1) := R21 c1 d1 e1 a1 b1 w3 15 in let '(c2, e2) := R22 c2 d2 e2 a2 b2 w10 11 in
  let '(b1, d1) := R21 b1 c1 d1 e1 a1 w12 7 in let '(b2, d2) := R22 b2 c2 d2 e2 a2 w14 7 in
  let '(a1, c1) := R21 a1 b1 c1 d1 e1 w0 12 in let '(a2, c2) := R22 a2 b2 c2 d2 e2 w15 7 in
  let '(e1, b1) := R21 e1 a1 b1 c1 d1 w9 15 in let '(e2, b2) := R22 e2 a2 b2 c2 d2 w8 12 in
  let '(d1, a1) := R21 d1 e1 a1 b1 c1 w5 9 in let '(d2, a2) := R22 d2 e2 a2 b2 c2 w12 7 in
  let '(c1, e1) := R21 c1 d1 e1 a1 b1 w2 11 in let '(c2, e2) := R22 c2 d2 e2 a2 b2 w4 6 in
  let '(b1, d1) := R21 b1 c1 d1 e1 a1 w14 7 in let '(b2, d2) := R22 b2 c2 d2 e2 a2 w9 15 in
  let '(a1, c1) := R21 a1 b1 c1 d1 e1 w11 13 in let '(a2, c2) := R22 a2 b2 c2 d2 e2 w1 13 in
  let '(e1, b1) := R21 e1 a1 b1 c1 d1 w8 12 in let '(e2, b2) := R22 e2 a2 b2 c2 d2 w2 11 in
  let '(d1, a1) := R31 d1 e1 a1 b1 c1 w3 11 in let '(d2, a2) := R32 d2 e2 a2 b2 c2 w15 9 in
  let '(c1, e1) := R31 c1 d1 e1 a1 b1 w10 13 in let '(c2, e2) := R32 c2 d2 e2 a2 b2 w5 7 in
  let '(b1, d1) := R31 b1 c1 d1 e1 a1 w14 6 in let '(b2, d2) := R32 b2 c2 d2 e2 a2 w1 15 in
  let '(a1, c1) := R31 a1 b1 c1 d1 e1 w4 7 in let '(a2, c2) := R32 a2 b2 c2 d2 e2 w3 11 in
  let '(e1, b1) := R31 e1 a1 b1 c1 d1 w9 14 in let '(e2, b2) := R32 e2 a2 b2 c2 d2 w7 8 in
  let '(d1, a1) := R31 d1 e1 a1 b1 c1 w15 9 in let '(d2, a2) := R32 d2 e2 a2 b2 c2 w14 6 in
  let '(c1, e1) := R31 c1 d1 e1 a1 b1 w8 13 in let '(c2, e2) := R32 c2 d2 e2 a2 b2 w6 6 in
  let '(b1, d1) := R31 b1 c1 d1 e1 a1 w1 15 in let '(b2, d2) := R32 b2 c2 d2 e2 a2 w9 14 in
  let '(a1, c1) := R31 a1 b1 c1 d1 e1 w2 14 in let '(a2, c2) := R32 a2 b2 c2 d2 e2 w11 12 in
  let '(e1, b1) := R31 e1 a1 b1 c1 d1 w7 8 in let '(e2, b2) := R32 e2 a2 b2 c2 d2 w8 13 in
  let '(d1, a1) := R31 d1 e1 a1 b1 c1 w0 13 in let '(d2, a2) := R32 d2 e2 a2 b2 c2 w12 5 in
  let '(c1, e1) := R31 c1 d1 e1 a1 b1 w6 6 in let '(c2, e2) := R32 c2 d2 e2 a2 b2 w2 14 in
  let '(b1, d1) := R31 b1 c1 d1 e1 a1 w13 5 in let '(b2, d2) := R32 b2 c2 d2 e2 a2 w10 13 in
  let '(a1, c1) := R31 a1 b1 c1 d1 e1 w11 12 in let '(a2, c2) := R32 a2 b2 c2 d2 e2 w0 13 in
  let '(e1, b1) := R31 e1 a1 b1 c1 d1 w5 7 in let '(e2, b2) := R32 e2 a2 b2 c2 d2 w4 7 in
  let '(d1, a1) := R31 d1 e1 a1 b1 c1 w12 5 in let '(d2, a2) := R32 d2 e2 a2 b2 c2 w13 5 in
  let '(c1, e1) := R41 c1 d1 e1 a1 b1 w1 11 in let '(c2, e2) := R42 c2 d2 e2 a2 b2 w8 15 in
  let '(b1, d1) := R41 b1 c1 d1 e1 a1 w9 12 in let '(b2, d2) := R42 b2 c2 d2 e2 a2 w6 5 in
  let '(a1, c1) := R41 a1 b1 c1 d1 e1 w11 14 in let '(a2, c2) := R42 a2 b2 c2 d2 e2 w4 8 in
  let '(e1, b1) := R41 e1 a1 b1 c1 d1 w10 15 in let '(e2, b2) := R42 e2 a2 b2 c2 d2 w1 11 in
  let '(d1, a1) := R41 d1 e1 a1 b1 c1 w0 14 in let '(d2, a2) := R42 d2 e2 a2 b2 c2 w3 14 in
  let '(c1, e1) := R41 c1 d1 e1 a1 b1 w8 15 in let '(c2, e2) := R42 c2 d2 e2 a2 b2 w11 14 in
  let '(b1, d1) := R41 b1 c1 d1 e1 a1 w12 9 in let '(b2, d2) := R42 b2 c2 d2 e2 a2 w15 6 in
  let '(a1, c1) := R41 a1 b1 c1 d1 e1 w4 8 in let '(a2, c2) := R42 a2 b2 c2 d2 e2 w0 14 in
  let '(e1, b1) := R41 e1 a1 b1 c1 d1 w13 9 in let '(e2, b2) := R42 e2 a2 b2 c2 d2 w5 6 in
  let '(d1, a1) := R41 d1 e1 a1 b1 c1 w3 14 in let '(d2, a2) := R42 d2 e2 a2 b2 c2 w12 9 in
  let '(c1, e1) := R41 c1 d1 e1 a1 b1 w7 5 in let '(c2, e2) := R42 c2 d2 e2 a2 b2 w2 12 in
  let '(b1, d1) := R41 b1 c1 d1 e1 a1 w15 6 in let '(b2, d2) := R42 b2 c2 d2 e2 a2 w13 9 in
  let '(a1, c1) := R41 a1 b1 c1 d1 e1 w14 8 in let '(a2, c2) := R42 a2 b2 c2 d2 e2 w9 12 in
  let '(e1, b1) := R41 e1 a1 b1 c1 d1 w5 6 in let '(e2, b2) := R42 e2 a2 b2 c2 d2 w7 5 in
  let '(d1, a1) := R41 d1 e1 a1 b1 c1 w6 5 in let '(d2, a2) := R42 d2 e2 a2 b2 c2 w10 15 in
  let '(c1, e1) := R41 c1 d1 e1 a1 b1 w2 12 in let '(c2, e2) := R42 c2 d2 e2 a2 b2 w14 8 in
  let '(b1, d1) := R51 b1 c1 d1 e1 a1 w4 9 in let '(b2, d2) := R52 b2 c2 d2 e2 a2 w12 8 in
  let '(a1, c1) := R51 a1 b1 c1 d1 e1 w0 15 in let '(a2, c2) := R52 a2 b2 c2 d2 e2 w15 5 in
  let '(e1, b1) := R51 e1 a1 b1 c1 d1 w5 5 in let '(e2, b2) := R52 e2 a2 b2 c2 d2 w10 12 in
  let '(d1, a1) := R51 d1 e1 a1 b1 c1 w9 11 in let '(d2, a2) := R52 d2 e2 a2 b2 c2 w4 9 in
  let '(c1, e1) := R51 c1 d1 e1 a1 b1 w7 6 in let '(c2, e2) := R52 c2 d2 e2 a2 b2 w1 12 in
  let '(b1, d1) := R51 b1 c1 d1 e1 a1 w12 8 in let '(b2, d2) := R52 b2 c2 d2 e2 a2 w5 5 in
  let '(a1, c1) := R51 a1 b1 c1 d1 e1 w2 13 in let '(a2, c2) := R52 a2 b2 c2 d2 e2 w8 14 in
  let '(e1, b1) := R51 e1 a1 b1 c1 d1 w10 12 in let '(e2, b2) := R52 e2 a2 b2 c2 d2 w7 6 in
  let '(d1, a1) := R51 d1 e1 a1 b1 c1 w14 5 in let '(d2, a2) := R52 d2 e2 a2 b2 c2 w6 8 in
  let '(c1, e1) := R51 c1 d1 e1 a1 b1 w1 12 in let '(c2, e2) := R52 c2 d2 e2 a2 b2 w2 13 in
  let '(b1, d1) := R51 b1 c1 d1 e1 a1 w3 13 in let '(b2, d2) := R52 b2 c2 d2 e2 a2 w13 6 in
  let '(a1, c1) := R51 a1 b1 c1 d1 e1 w8 14 in let '(a2, c2) := R52 a2 b2 c2 d2 e2 w14 5 in
  let '(e1, b1) := R51 e1 a1 b1 c1 d1 w11 11 in let '(e2, b2) := R52 e2 a2 b2 c2 d2 w0 15 in
  let '(d1, a1) := R51 d1 e1 a1 b1 c1 w6 8 in let '(d2, a2) := R52 d2 e2 a2 b2 c2 w3 13 in
  let '(c1, e1) := R51 c1 d1 e1 a1 b1 w15 5 in let '(c2, e2) := R52 c2 d2 e2 a2 b2 w9 11 in
  let '(b1, d1) := R51 b1 c1 d1 e1 a1 w13 6 in let '(b2, d2) := R52 b2 c2 d2 e2 a2 w11 11 in
  let '(s0, s1, s2, s3, s4) := s in
  (add (add s1 c1) d2, add (add s2 d1) e2, add (add s3 e1) a2, add (add s4 a1) b2, add (add s0 b1) c2).

Definition Transform (s : words5) (chunk : bytes) : words5 :=
  rounds s (ReadLE32_at chunk 0) (ReadLE32_at chunk 4) (ReadLE32_at chunk 8) (ReadLE32_at chunk 12)
    (ReadLE32_at chunk 16) (ReadLE32_at chunk 20) (ReadLE32_at chunk 24) (ReadLE32_at chunk 28)
    (ReadLE32_at chunk 32) (ReadLE32_at chunk 36) (ReadLE32_at chunk 40) (ReadLE32_at chunk 44)
    (ReadLE32_at chunk 48) (ReadLE32_at chunk 52) (ReadLE32_at chunk 56) (ReadLE32_at chunk 60).

(** [WriteLE32] of the five words. *)
Definition output (s : words5) : bytes :=
  let '(s0, s1, s2, s3, s4) := s in WriteLE32 s0 ++ WriteLE32 s1 ++ WriteLE32 s2 ++ WriteLE32 s3 ++ WriteLE32 s4.

(** * The reference *)

(** The permutations of the words and the shifts, by round and word. *)
Definition rho : list nat := [7; 4; 13; 1; 10; 6; 15; 3; 12; 0; 9; 5; 2; 14; 11; 8]%nat.
Definition pi (i : nat) : nat := ((9 * i + 5) mod 16)%nat.
Definition shifts : list (list Z) :=
  [[11; 14; 15; 12; 5; 8; 7; 9; 11; 13; 14; 15; 6; 7; 9; 8];
   [12; 13; 11; 15; 6; 9; 9; 7; 12; 15; 11; 13; 7; 8; 7; 7];
   [13; 15; 14; 11; 7; 7; 6; 8; 13; 14; 13; 12; 5; 5; 6; 9];
   [14; 11; 12; 14; 8; 6; 5; 5; 15; 12; 15; 14; 9; 9; 8; 6];
   [15; 12; 13; 13; 9; 5; 8; 6; 14; 11; 12; 11; 8; 6; 5; 5]].

Definition functions : list (Z -> Z -> Z -> Z) := [f1; f2; f3; f4; f5].
(** Quarters of square roots and of cube roots of 2, 3, 5 and 7, as fractions
    of 32 bits. *)
Definition left_K : list Z := 0 :: map (fun p => Z.sqrt (p * 2 ^ 60)) [2; 3; 5; 7].
Definition right_K : list Z := [0x50A28BE6; 0x5C4DD124; 0x6D703EF3; 0x7A6D76E9; 0].

(** The function, constant, word number and shift of the rounds [16 t] to
    [16 t + 15] of a line, of which [word] gives the first sixteen words. *)
Definition sixteen (t : nat) (f : Z -> Z -> Z -> Z) (k : Z) (word : nat -> nat) : list ((Z -> Z -> Z -> Z) * Z * nat * Z) :=
  map (fun j => let i := Nat.iter t (fun i => nth i rho 0%nat) (word j) in (f, k, i, nth i (nth t shifts []) 0)) (seq 0 16).

Definition left_line : list ((Z -> Z -> Z -> Z) * Z * nat * Z) :=
  flat_map (fun t => sixteen t (nth t functions f1) (nth t left_K 0) (fun j => j)) (seq 0 5).
Definition right_line : list ((Z -> Z -> Z -> Z) * Z * nat * Z) :=
  flat_map (fun t => sixteen t (nth (4 - t) functions f1) (nth t right_K 0) pi) (seq 0 5).

Definition ref_step (X : list Z) (r : words5) (j : (Z -> Z -> Z -> Z) * Z * nat * Z) : words5 :=
  let '(a, b, c, d, e) := r in
  let '(f, k, i, n) := j in
  (e, w32 (rol (w32 (a + f b c d + nth i X 0 + k)) n + e), b, rol c 10, d).

Definition ref_line (X : list Z) (line : list ((Z -> Z -> Z -> Z) * Z * nat * Z)) (r : words5) : words5 :=
  fold_left (ref_step X) line r.

Definition ref_finish (H l r : words5) : words5 :=
  let '(h0, h1, h2, h3, h4) := H in
  let '(a, b, c, d, e) := l in
  let '(a', b', c', d', e') := r in
  (w32 (h1 + c + d'), w32 (h2 + d + e'), w32 (h3 + e + a'), w32 (h4 + a + b'), w32 (h0 + b + c')).

Definition ref_Transform (s : words5) (chunk : bytes) : words5 :=
  let X := map (fun i => ReadLE32_at chunk (4 * i)) (seq 0 16) in
  ref_finish s (ref_line X left_line s) (ref_line X right_line s).

(** * The code computes the reference *)

Lemma right_K_roots : forallb (fun pk => cube_root_bits 30 1 (fst pk) (snd pk - 2 ^ 30)) (combine [2; 3; 5; 7] right_K) = true.
Proof. reflexivity. Qed.

(** A round of the code, which moves no register. *)
Lemma ripemd160_step_Round X f k i n a b c d e :
  ref_step X (a, b, c, d, e) (f, k, i, n) =
  let '(a', c') := Round a b c d e (f b c d) (nth i X 0) k n in (e, a', b, c', d).
Proof.
  unfold ref_step, Round, Sha2.add. unfold w32.
  rewrite (wrap_add_l 32 (a + f b c d)), (wrap_add_l 32 (_ + _ + nth i X 0)). reflexivity.
Qed.

Lemma ripemd160_code_left X (F : Z -> Z -> words5) H f k i n a b c d e x line r : x = nth i X 0 ->
  (forall a' c', F a' c' = ref_finish H (ref_line X line (e, a', b, c', d)) r) ->
  (let '(a', c') := Round a b c d e (f b c d) x k n in F a' c') =
  ref_finish H (ref_line X ((f, k, i, n) :: line) (a, b, c, d, e)) r.
Proof. intros -> E. unfold ref_line. cbn [fold_left]. rewrite ripemd160_step_Round. destruct (Round _ _ _ _ _ _ _ _ _). apply E. Qed.

Lemma ripemd160_code_right X (F : Z -> Z -> words5) H f k i n a b c d e x line l : x = nth i X 0 ->
  (forall a' c', F a' c' = ref_finish H l (ref_line X line (e, a', b, c', d))) ->
  (let '(a', c') := Round a b c d e (f b c d) x k n in F a' c') =
  ref_finish H l (ref_line X ((f, k, i, n) :: line) (a, b, c, d, e)).
Proof. intros -> E. unfold ref_line. cbn [fold_left]. rewrite ripemd160_step_Round. destruct (Round _ _ _ _ _ _ _ _ _). apply E. Qed.

Lemma ripemd160_Transform_ref s chunk : Transform s chunk = ref_Transform s chunk.
Proof.
  unfold Transform, ref_Transform. cbv zeta. cbn [map seq Nat.mul Nat.add].
  generalize (ReadLE32_at chunk 0), (ReadLE32_at chunk 4), (ReadLE32_at chunk 8), (ReadLE32_at chunk 12),
    (ReadLE32_at chunk 16), (ReadLE32_at chunk 20), (ReadLE32_at chunk 24), (ReadLE32_at chunk 28),
    (ReadLE32_at chunk 32), (ReadLE32_at chunk 36), (ReadLE32_at chunk 40), (ReadLE32_at chunk 44),
    (ReadLE32_at chunk 48), (ReadLE32_at chunk 52), (ReadLE32_at chunk 56), (ReadLE32_at chunk 60).
  intros w0 w1 w2 w3 w4 w5 w6 w7 w8 w9 w10 w11 w12 w13 w14 w15. clear chunk.
  let l := eval cbv -[f1 f2 f3 f4 f5] in left_line in change left_line with l.
  let l := eval cbv -[f1 f2 f3 f4 f5] in right_line in change right_line with l.
  destruct s as [[[[a b] c] d] e].
  cbv delta [rounds R11 R21 R31 R41 R51 R12 R22 R32 R42 R52]. cbv beta iota.
  do 80 (apply ripemd160_code_left; [reflexivity|intros ? ?]; apply ripemd160_code_right; [reflexivity|intros ? ?]).
  cbn [ref_line fold_left ref_finish]. unfold Sha2.add, w32. now rewrite !wrap_add_l.
Qed.
End RIPEMD160.
