(* ===== verification/Hashes.v ===== *)
(** The hash functions of the node, from their compression functions ([Sha2],
    [Sha1], [Ripemd160]) and the buffered hasher ([Hasher]): the classes of
    src/crypto/*.cpp, the hashes composed of them in src/hash.h, and the keyed
    hashes of src/crypto/hmac_sha256.cpp and hmac_sha512.cpp.

    They are an instance of the class [HashFunctions] that the script
    interpreter is modelled over. *)

From Stdlib Require Import ZArith List Bool Lia.
From S2P Require Import Prelude Serialize Script Standard Hasher Sha2 Sha1 Ripemd160 Interpreter.
Import ListNotations.
Open Scope Z_scope.

(** * The four classes *)

Definition zeros (n : nat) : bytes := repeat 0 n.

Module Sha256.
Abbreviation state := (hasher (State := words8)).
Definition create (junk : bytes) : state := new_hasher SHA256.Initialize junk.
Definition Write : bytes -> state -> state := Hasher.Write 64 SHA256.Transform.
Definition finished : state -> state := Hasher.finished 64 56 SHA256.Transform WriteBE64.
Definition Finalize : state -> bytes := Hasher.Finalize 64 56 SHA256.Transform WriteBE64 SHA256.output.
Definition Reset : state -> state := Hasher.Reset SHA256.Initialize.
Definition reference : bytes -> bytes := Hasher.reference 64 56 SHA256.Initialize SHA256.ref_Transform WriteBE64 SHA256.output.

(** [SelfTest], on a function that processes a number of chunks. *)
Definition SelfTest (tr : nat -> words8 -> bytes -> words8) : bool :=
  let eqb := fun x y : words8 => bytes_eqb (SHA256.output x) (SHA256.output y) in
  let in1 := 128 :: zeros 63 in
  let in2 := repeat 32 64 ++ 128 :: zeros 61 ++ [2; 0] in
  let out1 := (0xe3b0c442, 0x98fc1c14, 0x9afbf4c8, 0x996fb924, 0x27ae41e4, 0x649b934c, 0xa495991b, 0x7852b855) in
  let out2 := (0xce4153b0, 0x147c2a86, 0x3ed4298e, 0xe0676bc8, 0x79fc77a1, 0x2abe1f49, 0xb2b055df, 0x1069523e) in
  if negb (eqb (tr 0%nat SHA256.Initialize []) SHA256.Initialize) then false
  else if negb (eqb (tr 1%nat SHA256.Initialize in1) out1) then false
  else negb (negb (eqb (tr 2%nat SHA256.Initialize in2) out2)).
End Sha256.

Module Sha512.
Abbreviation state := (hasher (State := words8)).
(** [sizedesc], sixteen bytes of which the last eight are written. *)
Definition sizedesc (x : Z) : bytes := zeros 8 ++ WriteBE64 x.
Definition create (junk : bytes) : state := new_hasher SHA512.Initialize junk.
Definition Write : bytes -> state -> state := Hasher.Write 128 SHA512.Transform.
Definition Finalize : state -> bytes := Hasher.Finalize 128 112 SHA512.Transform sizedesc SHA512.output.
Definition reference : bytes -> bytes := Hasher.reference 128 112 SHA512.Initialize SHA512.ref_Transform sizedesc SHA512.output.
End Sha512.

Module Sha_1.
Abbreviation state := (hasher (State := SHA1.words5)).
Definition create (junk : bytes) : state := new_hasher SHA1.Initialize junk.
Definition Write : bytes -> state -> state := Hasher.Write 64 SHA1.Transform.
Definition Finalize : state -> bytes := Hasher.Finalize 64 56 SHA1.Transform WriteBE64 SHA1.output.
Definition reference : bytes -> bytes := Hasher.reference 64 56 SHA1.Initialize SHA1.ref_Transform WriteBE64 SHA1.output.
End Sha_1.

Module Ripemd_160.
Abbreviation state := (hasher (State := RIPEMD160.words5)).
Definition create (junk : bytes) : state := new_hasher RIPEMD160.Initialize junk.
Definition Write : bytes -> state -> state := Hasher.Write 64 RIPEMD160.Transform.
Definition Finalize : state -> bytes := Hasher.Finalize 64 56 RIPEMD160.Transform WriteLE64 RIPEMD160.output.
Definition reference : bytes -> bytes :=
  Hasher.reference 64 56 RIPEMD160.Initialize RIPEMD160.ref_Transform WriteLE64 RIPEMD160.output.
End Ripemd_160.

(** * Composed hashes (src/hash.h) *)

Definition CHash256_Finalize (sha : Sha256.state) : bytes :=
  let buf := Sha256.Finalize sha in
  Sha256.Finalize (Sha256.Write buf (Sha256.Reset (Sha256.finished sha))).

Definition CHash160_Finalize (junk : bytes) (sha : Sha256.state) : bytes :=
  let buf := Sha256.Finalize sha in
  Ripemd_160.Finalize (Ripemd_160.Write buf (Ripemd_160.create junk)).

(** [Hash], of one to six ranges, and [Hash160]. *)
Definition Hash (junk : bytes) (ranges : list bytes) : bytes :=
  CHash256_Finalize (fold_left (fun h d => Sha256.Write d h) ranges (Sha256.create junk)).
Definition Hash160 (junk junk' : bytes) (range : bytes) : bytes :=
  CHash160_Finalize junk' (Sha256.Write range (Sha256.create junk)).

(** * Keyed hashes *)

Record CHMAC (State : Type) := mkHMAC { outer : hasher (State := State); inner : hasher (State := State) }.
Arguments mkHMAC {State}. Arguments outer {State}. Arguments inner {State}.

(** The key, or its hash, filled up with zeros. *)
Definition rkey (block : nat) (hash : bytes -> bytes) (key : bytes) : bytes :=
  if (length key <=? block)%nat then key ++ zeros (block - length key)
  else let h := hash key in h ++ zeros (block - length h).

Definition xor_with (x : Z) (l : bytes) : bytes := map (fun b => Z.lxor b x) l.

Definition CHMAC_SHA256 (junk : bytes) (key : bytes) : CHMAC words8 :=
  let rkey := rkey 64 (fun k => Sha256.Finalize (Sha256.Write k (Sha256.create junk))) key in
  let rkey := xor_with 0x5c rkey in
  let outer := Sha256.Write rkey (Sha256.create junk) in
  let rkey := xor_with (Z.lxor 0x5c 0x36) rkey in
  mkHMAC outer (Sha256.Write rkey (Sha256.create junk)).

Definition CHMAC_SHA256_Write (data : bytes) (m : CHMAC words8) : CHMAC words8 :=
  mkHMAC (outer m) (Sha256.Write data (inner m)).
Definition CHMAC_SHA256_Finalize (m : CHMAC words8) : bytes :=
  let temp := Sha256.Finalize (inner m) in Sha256.Finalize (Sha256.Write temp (outer m)).

Definition CHMAC_SHA512 (junk : bytes) (key : bytes) : CHMAC words8 :=
  let rkey := rkey 128 (fun k => Sha512.Finalize (Sha512.Write k (Sha512.create junk))) key in
  let rkey := xor_with 0x5c rkey in
  let outer := Sha512.Write rkey (Sha512.create junk) in
  let rkey := xor_with (Z.lxor 0x5c 0x36) rkey in
  mkHMAC outer (Sha512.Write rkey (Sha512.create junk)).

Definition CHMAC_SHA512_Write (data : bytes) (m : CHMAC words8) : CHMAC words8 :=
  mkHMAC (outer m) (Sha512.Write data (inner m)).
Definition CHMAC_SHA512_Finalize (m : CHMAC words8) : bytes :=
  let temp := Sha512.Finalize (inner m) in Sha512.Finalize (Sha512.Write temp (outer m)).

(** * References *)

(** RFC 2104, with the constants [opad] and [ipad]. *)
Definition ref_HMAC (B : nat) (H : bytes -> bytes) (K text : bytes) : bytes :=
  let K0 := if (length K <=? B)%nat then K else H K in
  let K0 := K0 ++ zeros (B - length K0) in
  H (xor_with 0x5c K0 ++ H (xor_with 0x36 K0 ++ text)).

(** * Streams *)

Abbreviation size l := (Z.of_nat (length l)).

Lemma be64_length x : size (WriteBE64 x) = 64 - 56.
Proof. unfold WriteBE64. now rewrite length_rev, length_le_split. Qed.
Lemma le64_length x : size (WriteLE64 x) = 64 - 56.
Proof. unfold WriteLE64. now rewrite length_le_split. Qed.
Lemma sizedesc_length x : size (Sha512.sizedesc x) = 128 - 112.
Proof. unfold Sha512.sizedesc. rewrite length_app. pose proof (be64_length x). unfold zeros. rewrite repeat_length. lia. Qed.

Lemma sha256_stream junk datas : length junk = 64%nat -> size (concat datas) < 2 ^ 61 ->
  Sha256.Finalize (fold_left (fun h d => Sha256.Write d h) datas (Sha256.create junk)) = Sha256.reference (concat datas).
Proof.
  intros J L. unfold Sha256.reference. rewrite <- (reference_ext _ _ _ SHA256.Transform) by apply SHA256.sha256_Transform_ref.
  apply stream_reference; [now left|lia|exact be64_length|lia|exact L].
Qed.

Lemma sha512_stream junk datas : length junk = 128%nat -> size (concat datas) < 2 ^ 61 ->
  Sha512.Finalize (fold_left (fun h d => Sha512.Write d h) datas (Sha512.create junk)) = Sha512.reference (concat datas).
Proof.
  intros J L. unfold Sha512.reference. rewrite <- (reference_ext _ _ _ SHA512.Transform) by apply SHA512.sha512_Transform_ref.
  apply stream_reference; [now right|lia|exact sizedesc_length|lia|exact L].
Qed.

Lemma sha1_stream junk datas : length junk = 64%nat -> size (concat datas) < 2 ^ 61 ->
  Sha_1.Finalize (fold_left (fun h d => Sha_1.Write d h) datas (Sha_1.create junk)) = Sha_1.reference (concat datas).
Proof.
  intros J L. unfold Sha_1.reference. rewrite <- (reference_ext _ _ _ SHA1.Transform) by apply SHA1.sha1_Transform_ref.
  apply stream_reference; [now left|lia|exact be64_length|lia|exact L].
Qed.

Lemma ripemd160_stream junk datas : length junk = 64%nat -> size (concat datas) < 2 ^ 61 ->
  Ripemd_160.Finalize (fold_left (fun h d => Ripemd_160.Write d h) datas (Ripemd_160.create junk)) =
  Ripemd_160.reference (concat datas).
Proof.
  intros J L. unfold Ripemd_160.reference.
  rewrite <- (reference_ext _ _ _ RIPEMD160.Transform) by apply RIPEMD160.ripemd160_Transform_ref.
  apply stream_reference; [now left|lia|exact le64_length|lia|exact L].
Qed.

(** One write. *)
Lemma sha256_once junk msg : length junk = 64%nat -> size msg < 2 ^ 61 ->
  Sha256.Finalize (Sha256.Write msg (Sha256.create junk)) = Sha256.reference msg.
Proof. intros J L. pose proof (sha256_stream junk [msg] J) as E. simpl in E. rewrite app_nil_r in E. now apply E. Qed.
Lemma sha512_once junk msg : length junk = 128%nat -> size msg < 2 ^ 61 ->
  Sha512.Finalize (Sha512.Write msg (Sha512.create junk)) = Sha512.reference msg.
Proof. intros J L. pose proof (sha512_stream junk [msg] J) as E. simpl in E. rewrite app_nil_r in E. now apply E. Qed.

(** * The size of a hash *)

Lemma blob_app n m a b : is_blob n a -> is_blob m b -> is_blob (n + m) (a ++ b).
Proof. intros [L1 B1] [L2 B2]. split; [rewrite length_app; congruence|now apply Forall_app]. Qed.
Lemma be32_blob x : is_blob 4 (WriteBE32 x).
Proof. split; [now unfold WriteBE32; rewrite length_rev, length_le_split|]. apply Forall_rev, le_split_digits. lia. Qed.
Lemma le32_blob x : is_blob 4 (WriteLE32 x).
Proof. split; [apply length_le_split|]. apply le_split_digits. lia. Qed.
Lemma be64_blob x : is_blob 8 (WriteBE64 x).
Proof. split; [now unfold WriteBE64; rewrite length_rev, length_le_split|]. apply Forall_rev, le_split_digits. lia. Qed.

Lemma sha256_output_blob s : is_blob 32 (SHA256.output s).
Proof. destruct s as [[[[[[[s0 s1] s2] s3] s4] s5] s6] s7]. do 7 apply (blob_app 4 _ _ _ (be32_blob _)). apply be32_blob. Qed.
Lemma sha512_output_blob s : is_blob 64 (SHA512.output s).
Proof. destruct s as [[[[[[[s0 s1] s2] s3] s4] s5] s6] s7]. do 7 apply (blob_app 8 _ _ _ (be64_blob _)). apply be64_blob. Qed.
Lemma sha1_output_blob s : is_blob 20 (SHA1.output s).
Proof. destruct s as [[[[s0 s1] s2] s3] s4]. do 4 apply (blob_app 4 _ _ _ (be32_blob _)). apply be32_blob. Qed.
Lemma ripemd160_output_blob s : is_blob 20 (RIPEMD160.output s).
Proof. destruct s as [[[[s0 s1] s2] s3] s4]. do 4 apply (blob_app 4 _ _ _ (le32_blob _)). apply le32_blob. Qed.

(** The functions the script interpreter calls. *)
#[export] Instance node_hashes : HashFunctions := {
  CRIPEMD160 := fun v => Ripemd_160.Finalize (Ripemd_160.Write v (Ripemd_160.create (zeros 64)));
  CSHA1 := fun v => Sha_1.Finalize (Sha_1.Write v (Sha_1.create (zeros 64)));
  CSHA256 := fun v => Sha256.Finalize (Sha256.Write v (Sha256.create (zeros 64))) }.

#[export] Instance node_hash_sizes : HashSizes.
Proof.
  split; intros v; [apply ripemd160_output_blob|apply sha1_output_blob|apply sha256_output_blob].
Qed.

Lemma reference256_size msg : size (Sha256.reference msg) = 32.
Proof. change 32 with (Z.of_nat 32). f_equal. exact (proj1 (sha256_output_blob _)). Qed.
Lemma reference512_size msg : size (Sha512.reference msg) = 64.
Proof. change 64 with (Z.of_nat 64). f_equal. exact (proj1 (sha512_output_blob _)). Qed.

(** * Composed and keyed hashes *)

Lemma Hash_reference junk ranges : length junk = 64%nat -> size (concat ranges) < 2 ^ 61 ->
  Hash junk ranges = Sha256.reference (Sha256.reference (concat ranges)).
Proof.
  intros J L. unfold Hash, CHash256_Finalize. rewrite sha256_stream by auto.
  set (h := fold_left _ _ _). change (Sha256.Reset (Sha256.finished h)) with (Sha256.create (buf (Sha256.finished h))).
  apply sha256_once; [|rewrite reference256_size; lia].
  apply Nat2Z.inj. apply (stream_finished 64 56); [now left|lia|exact be64_length|lia].
Qed.

Lemma Hash160_reference junk junk' range : length junk = 64%nat -> length junk' = 64%nat -> size range < 2 ^ 61 ->
  Hash160 junk junk' range = Ripemd_160.reference (Sha256.reference range).
Proof.
  intros J J' L. unfold Hash160, CHash160_Finalize. rewrite sha256_once by auto.
  pose proof (ripemd160_stream junk' [Sha256.reference range] J') as E. simpl in E. rewrite app_nil_r in E.
  apply E. rewrite reference256_size. lia.
Qed.

Lemma xor_twice x y l : xor_with (Z.lxor x y) (xor_with x l) = xor_with y l.
Proof.
  unfold xor_with. rewrite map_map. apply map_ext. intros b.
  now rewrite <- (Z.lxor_assoc (Z.lxor b x) x y), (Z.lxor_assoc b x x), Z.lxor_nilpotent, Z.lxor_0_r.
Qed.

Lemma xor_length x l : length (xor_with x l) = length l.
Proof. apply length_map. Qed.

Lemma rkey_length block hash key : (forall k, length (hash k) <= block)%nat -> length (rkey block hash key) = block.
Proof.
  intros H. unfold rkey, zeros. destruct (Nat.leb_spec (length key) block).
  - rewrite length_app, repeat_length. lia.
  - specialize (H key). rewrite length_app, repeat_length. lia.
Qed.

Lemma hmac256_writes datas m : fold_left (fun m d => CHMAC_SHA256_Write d m) datas m =
  mkHMAC (outer m) (fold_left (fun h d => Sha256.Write d h) datas (inner m)).
Proof. revert m; induction datas as [|d ds IH]; intros m; simpl; [now destruct m|]. now rewrite IH. Qed.
Lemma hmac512_writes datas m : fold_left (fun m d => CHMAC_SHA512_Write d m) datas m =
  mkHMAC (outer m) (fold_left (fun h d => Sha512.Write d h) datas (inner m)).
Proof. revert m; induction datas as [|d ds IH]; intros m; simpl; [now destruct m|]. now rewrite IH. Qed.

Lemma hmac256_reference junk key datas : length junk = 64%nat -> size key < 2 ^ 61 -> size (concat datas) < 2 ^ 60 ->
  CHMAC_SHA256_Finalize (fold_left (fun m d => CHMAC_SHA256_Write d m) datas (CHMAC_SHA256 junk key)) =
  ref_HMAC 64 Sha256.reference key (concat datas).
Proof.
  intros J K L. rewrite hmac256_writes. unfold CHMAC_SHA256_Finalize, CHMAC_SHA256, ref_HMAC. cbv zeta. cbn [inner outer].
  set (hash := fun k => Sha256.Finalize (Sha256.Write k (Sha256.create junk))).
  assert (R : length (rkey 64 hash key) = 64%nat).
  { apply rkey_length. intros k. unfold hash. destruct (sha256_output_blob (s (Sha256.finished (Sha256.Write k (Sha256.create junk))))) as [E _].
    unfold Sha256.Finalize, Hasher.Finalize. unfold Sha256.finished in E. lia. }
  match goal with |- context [xor_with 54 ?k ++ concat datas] => replace k with (rkey 64 hash key) by
    (unfold rkey; destruct (length key <=? 64)%nat; [reflexivity|]; unfold hash; now rewrite sha256_once) end.
  rewrite xor_twice. set (rk := rkey 64 hash key) in *.
  pose proof (sha256_stream junk (xor_with 0x36 rk :: datas) J) as E1. cbn [concat fold_left] in E1.
  rewrite E1 by (rewrite length_app, xor_length; lia).
  set (h := Sha256.reference (xor_with 0x36 rk ++ concat datas)).
  pose proof (sha256_stream junk [xor_with 0x5c rk; h] J) as E2. cbn [concat fold_left] in E2. rewrite app_nil_r in E2.
  apply E2. rewrite length_app, xor_length, R. pose proof (reference256_size (xor_with 0x36 rk ++ concat datas)). fold h in H. lia.
Qed.

Lemma hmac512_reference junk key datas : length junk = 128%nat -> size key < 2 ^ 61 -> size (concat datas) < 2 ^ 60 ->
  CHMAC_SHA512_Finalize (fold_left (fun m d => CHMAC_SHA512_Write d m) datas (CHMAC_SHA512 junk key)) =
  ref_HMAC 128 Sha512.reference key (concat datas).
Proof.
  intros J K L. rewrite hmac512_writes. unfold CHMAC_SHA512_Finalize, CHMAC_SHA512, ref_HMAC. cbv zeta. cbn [inner outer].
  set (hash := fun k => Sha512.Finalize (Sha512.Write k (Sha512.create junk))).
  assert (R : length (rkey 128 hash key) = 128%nat).
  { apply rkey_length. intros k. unfold hash, Sha512.Finalize, Hasher.Finalize.
    match goal with |- (length (SHA512.output ?x) <= _)%nat => destruct (sha512_output_blob x) as [E _] end. lia. }
  match goal with |- context [xor_with 54 ?k ++ concat datas] => replace k with (rkey 128 hash key) by
    (unfold rkey; destruct (length key <=? 128)%nat; [reflexivity|]; unfold hash; now rewrite sha512_once) end.
  rewrite xor_twice. set (rk := rkey 128 hash key) in *.
  pose proof (sha512_stream junk (xor_with 0x36 rk :: datas) J) as E1. cbn [concat fold_left] in E1.
  rewrite E1 by (rewrite length_app, xor_length; lia).
  set (h := Sha512.reference (xor_with 0x36 rk ++ concat datas)).
  pose proof (sha512_stream junk [xor_with 0x5c rk; h] J) as E2. cbn [concat fold_left] in E2. rewrite app_nil_r in E2.
  apply E2. rewrite length_app, xor_length, R. pose proof (reference512_size (xor_with 0x36 rk ++ concat datas)). fold h in H. lia.
Qed.

(** * Correctness *)

(** C13: however a message is cut into writes, and whatever the buffers held
    before, the classes [CSHA256], [CSHA512], [CSHA1] and [CRIPEMD160] compute
    the hash that the standards define: padding, message schedule and rounds
    over the functions, permutations and root digits they give; [CHash256] is
    the hash of the hash, [CHash160] the RIPEMD-160 of the SHA-256, and the
    keyed classes are the HMAC of RFC 2104. *)
Theorem Hashes_correct (datas : list bytes) (key junk junk128 : bytes) :
  size (concat datas) < 2 ^ 60 -> size key < 2 ^ 61 -> length junk = 64%nat -> length junk128 = 128%nat ->
  let msg := concat datas in
  Sha256.Finalize (fold_left (fun h d => Sha256.Write d h) datas (Sha256.create junk)) = Sha256.reference msg /\
  Sha512.Finalize (fold_left (fun h d => Sha512.Write d h) datas (Sha512.create junk128)) = Sha512.reference msg /\
  Sha_1.Finalize (fold_left (fun h d => Sha_1.Write d h) datas (Sha_1.create junk)) = Sha_1.reference msg /\
  Ripemd_160.Finalize (fold_left (fun h d => Ripemd_160.Write d h) datas (Ripemd_160.create junk)) = Ripemd_160.reference msg /\
  Hash junk datas = Sha256.reference (Sha256.reference msg) /\
  Hash160 junk junk msg = Ripemd_160.reference (Sha256.reference msg) /\
  CHMAC_SHA256_Finalize (fold_left (fun m d => CHMAC_SHA256_Write d m) datas (CHMAC_SHA256 junk key)) =
    ref_HMAC 64 Sha256.reference key msg /\
  CHMAC_SHA512_Finalize (fold_left (fun m d => CHMAC_SHA512_Write d m) datas (CHMAC_SHA512 junk128 key)) =
    ref_HMAC 128 Sha512.reference key msg.
Proof.
  intros L K J J128 msg.
  split; [apply sha256_stream; auto; lia|]. split; [apply sha512_stream; auto; lia|].
  split; [apply sha1_stream; auto; lia|]. split; [apply ripemd160_stream; auto; lia|].
  split; [apply Hash_reference; auto; lia|]. split; [apply Hash160_reference; auto; unfold msg; lia|].
  split; [now apply hmac256_reference|now apply hmac512_reference].
Qed.

(** The test the node runs when it starts, and the messages of the standards. *)
Lemma SelfTest_passes : Sha256.SelfTest (transforms 64 SHA256.Transform) = true.
Proof. vm_compute. reflexivity. Qed.

Definition abc : bytes := [97; 98; 99].

Lemma Hashes_correct_witness :
  Sha256.Finalize (Sha256.Write [98; 99] (Sha256.Write [97] (Sha256.create (zeros 64)))) =
    [0xba; 0x78; 0x16; 0xbf; 0x8f; 0x01; 0xcf; 0xea; 0x41; 0x41; 0x40; 0xde; 0x5d; 0xae; 0x22; 0x23;
     0xb0; 0x03; 0x61; 0xa3; 0x96; 0x17; 0x7a; 0x9c; 0xb4; 0x10; 0xff; 0x61; 0xf2; 0x00; 0x15; 0xad].
Proof.
  refine (eq_trans (proj1 (Hashes_correct [[97]; [98; 99]] [] (zeros 64) (zeros 128) _ _ _ _)) _);
    [reflexivity..|vm_compute; reflexivity].
Defined.

Lemma ripemd160_abc : Ripemd_160.reference abc =
  [0x8e; 0xb2; 0x08; 0xf7; 0xe0; 0x5d; 0x98; 0x7a; 0x9b; 0x04; 0x4a; 0x8e; 0x98; 0xc6; 0xb0; 0x87; 0xf1; 0x5a; 0x0b; 0xfc].
Proof. vm_compute. reflexivity. Qed.

Lemma sha1_abc : Sha_1.reference abc =
  [0xa9; 0x99; 0x3e; 0x36; 0x47; 0x06; 0x81; 0x6a; 0xba; 0x3e; 0x25; 0x71; 0x78; 0x50; 0xc2; 0x6c; 0x9c; 0xd0; 0xd8; 0x9d].
Proof. vm_compute. reflexivity. Qed.
