(* ===== verification/CuckooCache.v ===== *)
(** The caches of valid signatures and of valid script executions: the hash
    table [CuckooCache::cache] of src/cuckoocache.h with its packed collection
    flags, and the signature cache of src/script/sigcache.cpp over it.

    An array index is a [nat]; the eight locations of an element come from its
    eight hashes.  The table is written under a lock and only read and marked
    otherwise, so a sequence of calls is what the threads do to it.  The
    element type has a default value, which [resize] fills the table with.
    The single-precision logarithm of [setup] is a parameter. *)

From stdpp Require Import base list sets sorting.
From Stdlib Require Import ZArith Lia Permutation.
From S2P Require Import Prelude Serialize Standard Hasher Sha2 Hashes.
Open Scope Z_scope.
Set Default Goal Selector "!".

(** * Packed flags *)

(** [bit_packed_atomic_flags]: the bytes [mem]. *)
Definition flags_setup (size : nat) : list Z := replicate (Z.to_nat (w32 (Z.of_nat size + 7) / 8)) 255.

Definition bit_set (s : nat) (mem : list Z) : list Z :=
  alter (fun b => Z.lor b (Z.shiftl 1 (Z.of_nat (s mod 8)))) (s / 8)%nat mem.
Definition bit_unset (s : nat) (mem : list Z) : list Z :=
  alter (fun b => Z.ldiff b (Z.shiftl 1 (Z.of_nat (s mod 8)))) (s / 8)%nat mem.
Definition bit_is_set (s : nat) (mem : list Z) : bool :=
  match mem !! (s / 8)%nat with Some b => Z.testbit b (Z.of_nat (s mod 8)) | None => false end.

#[local] Arguments Nat.modulo : simpl never.
#[local] Arguments Nat.div : simpl never.

Lemma bit_set_spec s t mem : (s / 8 < length mem)%nat ->
  bit_is_set t (bit_set s mem) = bool_decide (s = t) || bit_is_set t mem.
Proof.
  intros L. unfold bit_is_set, bit_set. destruct (decide (s / 8 = t / 8)%nat) as [E|N].
  - rewrite E, list_lookup_alter_eq. destruct (lookup_lt_is_Some_2 mem (t / 8)) as [b ->]; [congruence|]. simpl.
    rewrite Z.lor_spec, Z.shiftl_spec, orb_comm by lia. f_equal.
    pose proof (Nat.div_mod_eq s 8). pose proof (Nat.div_mod_eq t 8).
    destruct (decide (s = t)) as [->|D].
    + rewrite bool_decide_true, Z.sub_diag by reflexivity. reflexivity.
    + rewrite bool_decide_false by exact D. change 1 with (2 ^ 0). apply Z.pow2_bits_false. intros K. apply D. lia.
  - rewrite list_lookup_alter_ne by exact N. rewrite bool_decide_false by congruence. reflexivity.
Qed.

Lemma bit_unset_spec s t mem : bit_is_set t (bit_unset s mem) = negb (bool_decide (s = t)) && bit_is_set t mem.
Proof.
  unfold bit_is_set, bit_unset. destruct (decide (s / 8 = t / 8)%nat) as [E|N].
  - rewrite E, list_lookup_alter_eq. destruct (mem !! (t / 8)%nat) as [b|]; simpl; [|now rewrite andb_false_r].
    rewrite Z.ldiff_spec, Z.shiftl_spec, andb_comm by lia. f_equal. f_equal.
    pose proof (Nat.div_mod_eq s 8). pose proof (Nat.div_mod_eq t 8).
    destruct (decide (s = t)) as [->|D].
    + rewrite bool_decide_true, Z.sub_diag by reflexivity. reflexivity.
    + rewrite bool_decide_false by exact D. change 1 with (2 ^ 0). apply Z.pow2_bits_false. intros K. apply D. lia.
  - rewrite list_lookup_alter_ne by exact N. rewrite bool_decide_false by congruence. reflexivity.
Qed.

Lemma flags_setup_eq size : Z.of_nat size < 2 ^ 32 - 7 -> flags_setup size = replicate ((size + 7) / 8) 255.
Proof.
  intros B. unfold flags_setup, w32. rewrite wrap_id by (unfold in_u; lia). f_equal.
  apply Nat2Z.inj. rewrite Z2Nat.id, Nat2Z.inj_div by (apply Z.div_pos; lia). f_equal. lia.
Qed.

(** The sum wraps for the seven largest sizes: there are no flags at all. *)
Lemma flags_setup_wraps size : 2 ^ 32 - 7 <= Z.of_nat size < 2 ^ 32 -> flags_setup size = [].
Proof.
  intros B. unfold flags_setup, w32, wrap. replace (Z.of_nat size + 7) with ((Z.of_nat size + 7 - 2 ^ 32) + 1 * 2 ^ 32) by lia.
  rewrite Z_mod_plus_full, Z.mod_small, Z.div_small by lia. reflexivity.
Qed.

Lemma flags_setup_spec size s : Z.of_nat size < 2 ^ 32 - 7 -> (s < size)%nat -> bit_is_set s (flags_setup size) = true.
Proof.
  intros B L. rewrite flags_setup_eq by exact B. unfold bit_is_set. rewrite lookup_replicate_2.
  - assert (s mod 8 < 8)%nat by (apply Nat.mod_upper_bound; lia).
    destruct (s mod 8)%nat as [|[|[|[|[|[|[|[|]]]]]]]]; try reflexivity; lia.
  - pose proof (Nat.div_mod_eq s 8). pose proof (Nat.div_mod_eq (size + 7) 8).
    pose proof (Nat.mod_upper_bound (size + 7) 8). pose proof (Nat.mod_upper_bound s 8). lia.
Qed.

Section Cache.
Context {Element : Type} `{EqDecision Element}.
Variable default : Element.
(** [hash_function.operator()<k>], 32-bit. *)
Variable hash_function : nat -> Element -> Z.
(** [(uint8_t) std::log2((float) n)] *)
Variable log2f : Z -> nat.

Record cache := mkCache {
  table : list Element;
  size : Z;
  collection_flags : list Z;
  epoch_flags : list bool;
  epoch_heuristic_counter : Z;
  epoch_size : Z;
  depth_limit : nat }.

Definition compute_hashes (c : cache) (e : Element) : list nat :=
  map (fun k => Z.to_nat (w32 (Z.shiftr (w64 (hash_function k e * size c)) 32))) (seq 0 8).

Definition with_flags (f : list Z) (c : cache) : cache :=
  mkCache (table c) (size c) f (epoch_flags c) (epoch_heuristic_counter c) (epoch_size c) (depth_limit c).
Definition with_epochs (l : list bool) (c : cache) : cache :=
  mkCache (table c) (size c) (collection_flags c) l (epoch_heuristic_counter c) (epoch_size c) (depth_limit c).
Definition with_counter (n : Z) (c : cache) : cache :=
  mkCache (table c) (size c) (collection_flags c) (epoch_flags c) n (epoch_size c) (depth_limit c).
Definition with_table (t : list Element) (c : cache) : cache :=
  mkCache t (size c) (collection_flags c) (epoch_flags c) (epoch_heuristic_counter c) (epoch_size c) (depth_limit c).

Definition allow_erase (n : nat) (c : cache) : cache := with_flags (bit_set n (collection_flags c)) c.
Definition please_keep (n : nat) (c : cache) : cache := with_flags (bit_unset n (collection_flags c)) c.

(** * Epochs *)

Definition epoch_of (c : cache) (i : nat) : bool := match epoch_flags c !! i with Some b => b | None => false end.

Definition epoch_unused_count (c : cache) : Z :=
  Z.of_nat (length (filter (fun i => epoch_of c i && negb (bit_is_set i (collection_flags c)) = true) (seq 0 (Z.to_nat (size c))))).

(** One entry when the epochs are aged. *)
Definition age_entry (c : cache) (i : nat) : cache :=
  if epoch_of c i then with_epochs (<[i := false]> (epoch_flags c)) c else allow_erase i c.

Definition epoch_check (c : cache) : cache :=
  if negb (epoch_heuristic_counter c =? 0) then with_counter (epoch_heuristic_counter c - 1) c
  else
    let n := epoch_unused_count c in
    if n >=? epoch_size c then
      with_counter (epoch_size c) (fold_left age_entry (seq 0 (Z.to_nat (size c))) c)
    else with_counter (Z.max 1 (Z.max (epoch_size c / 16) (epoch_size c - n))) c.

(** [resize] grows the vectors of a new cache. *)
Definition setup (new_size : Z) : cache :=
  let size := Z.max 2 new_size in
  let epoch_size := Z.max 1 (w32 (45 * size) / 100) in
  mkCache (replicate (Z.to_nat size) default) size (flags_setup (Z.to_nat size)) (replicate (Z.to_nat size) false)
    epoch_size epoch_size (log2f (Z.max 2 new_size)).

(** * Insertion and lookup *)

(** The first location where the element is. *)
Definition find_element (e : Element) (locs : list nat) (c : cache) : option nat :=
  find (fun loc => bool_decide (table c !! loc = Some e)) locs.

(** The first location that may be overwritten. *)
Definition find_free (locs : list nat) (c : cache) : option nat :=
  find (fun loc => bit_is_set loc (collection_flags c)) locs.

(** [std::find(locs.begin(), locs.end(), last_loc) - locs.begin()] *)
Fixpoint position (loc : option nat) (locs : list nat) : nat :=
  match locs with
  | [] => 0
  | l :: locs' => if decide (loc = Some l) then 0 else S (position loc locs')
  end.

(** Keep the entry at a location, as one of the given epoch. *)
Definition keep (loc : nat) (epoch : bool) (c : cache) : cache :=
  let c := please_keep loc c in with_epochs (<[loc := epoch]> (epoch_flags c)) c.

(** The rounds left, the location last swapped with ([invalid()] is [None]),
    the epoch of the element in hand, its locations, and the element. *)
Fixpoint insert_loop (rounds : nat) (last_loc : option nat) (last_epoch : bool) (locs : list nat) (e : Element)
    (c : cache) : cache :=
  match rounds with
  | O => c
  | S rounds =>
      match find_free locs c with
      | Some loc => keep loc last_epoch (with_table (<[loc := e]> (table c)) c)
      | None =>
          let loc := nth ((1 + position last_loc locs) mod 8) locs 0%nat in
          match table c !! loc with
          | None => c
          | Some evicted =>
              let c := with_table (<[loc := e]> (table c)) c in
              let epoch := epoch_of c loc in
              let c := with_epochs (<[loc := last_epoch]> (epoch_flags c)) c in
              insert_loop rounds (Some loc) epoch (compute_hashes c evicted) evicted c
          end
      end
  end.

Definition insert (e : Element) (c : cache) : cache :=
  let c := epoch_check c in
  let locs := compute_hashes c e in
  match find_element e locs c with
  | Some loc => keep loc true c
  | None => insert_loop (depth_limit c) None true locs e c
  end.

(** The answer, and the cache with the entry marked if [erase]. *)
Definition contains (e : Element) (erase : bool) (c : cache) : bool * cache :=
  match find_element e (compute_hashes c e) c with
  | Some loc => (true, if erase then allow_erase loc c else c)
  | None => (false, c)
  end.

(** * The invariant *)

Hypothesis hash_range : forall k e, in_u 32 (hash_function k e).
(** [setup] relies on it: "depth_limit must be at least one". *)
Hypothesis log2f_range : forall n, 2 <= n -> (1 <= log2f n)%nat.

Implicit Types (c : cache) (e y : Element).

Record wf c : Prop := {
  wf_size : 2 <= size c < 2 ^ 32;
  wf_table : Z.of_nat (length (table c)) = size c;
  wf_epochs : Z.of_nat (length (epoch_flags c)) = size c;
  wf_flags : length (collection_flags c) = ((length (table c) + 7) / 8)%nat;
  wf_depth : (1 <= depth_limit c)%nat }.

(** Every entry is the default one, or was inserted and is where a lookup
    finds it. *)
Definition placed (ins : list Element) c : Prop :=
  forall i y, table c !! i = Some y -> y = default \/ y ∈ ins /\ i ∈ compute_hashes c y.

Lemma hashes_range c e loc : wf c -> loc ∈ compute_hashes c e -> (loc < length (table c))%nat.
Proof.
  intros [S T _ _ _] L. apply list_elem_of_fmap in L as (k & -> & _).
  pose proof (hash_range k e) as R. unfold in_u in R.
  assert (P : 0 <= hash_function k e * size c < 2 ^ 64) by nia.
  unfold w64. rewrite wrap_id by exact P. rewrite Z.shiftr_div_pow2 by lia.
  assert (D : 0 <= hash_function k e * size c / 2 ^ 32 < size c).
  { split; [apply Z.div_pos; lia|]. apply Z.div_lt_upper_bound; nia. }
  unfold w32. rewrite wrap_id by (unfold in_u; lia). lia.
Qed.

Lemma hashes_length c e : length (compute_hashes c e) = 8%nat.
Proof. reflexivity. Qed.

Lemma hashes_size c c' e : size c = size c' -> compute_hashes c e = compute_hashes c' e.
Proof. intros E. unfold compute_hashes. now rewrite E. Qed.

(** What only touches the flags. *)
Definition same_entries c c' : Prop := table c' = table c /\ size c' = size c /\ depth_limit c' = depth_limit c.

Lemma same_placed ins c c' : same_entries c c' -> placed ins c -> placed ins c'.
Proof. intros (T & S & _) P i y E. rewrite T in E. rewrite (hashes_size c' c) by congruence. now apply P. Qed.

Lemma same_trans c1 c2 c3 : same_entries c1 c2 -> same_entries c2 c3 -> same_entries c1 c3.
Proof. intros (A & B & C) (A' & B' & C'). split_and!; congruence. Qed.

Lemma allow_erase_wf n c : wf c -> wf (allow_erase n c).
Proof. intros [S T E F D]. split; simpl; auto. unfold bit_set. now rewrite length_alter. Qed.
Lemma keep_wf n b c : wf c -> wf (keep n b c).
Proof. intros [S T E F D]. split; simpl; auto; [now rewrite length_insert|unfold bit_unset; now rewrite length_alter]. Qed.
Lemma table_wf c i e : wf c -> wf (with_table (<[i := e]> (table c)) c).
Proof. intros [S T E F D]. split; simpl; rewrite ?length_insert; auto. Qed.

Lemma age_entry_ok c i : wf c -> wf (age_entry c i) /\ same_entries c (age_entry c i).
Proof.
  intros W. unfold age_entry. destruct (epoch_of c i).
  - destruct W as [S T E F D]. split; [split; simpl; auto; now rewrite length_insert|now split_and!].
  - split; [now apply allow_erase_wf|now split_and!].
Qed.

Lemma epoch_check_ok c : wf c -> wf (epoch_check c) /\ same_entries c (epoch_check c).
Proof.
  assert (K : forall n c, wf c -> wf (with_counter n c)) by (intros n c0 [S T E F D]; now split).
  intros W. unfold epoch_check. destruct (negb _); [split; [auto|now split_and!]|].
  destruct (_ >=? _); [|split; [auto|now split_and!]].
  assert (A : forall l c, wf c -> wf (fold_left age_entry l c) /\ same_entries c (fold_left age_entry l c)).
  { induction l as [|i l IH]; intros c0 W0; simpl; [split; [auto|now split_and!]|].
    destruct (age_entry_ok c0 i W0) as [W1 S1]. destruct (IH _ W1) as [W2 S2]. split; [auto|now apply same_trans with (age_entry c0 i)]. }
  destruct (A (seq 0 (Z.to_nat (size c))) c W) as [W' (T & S & D)]. split; [auto|now split_and!].
Qed.

(** * Lookup *)

Lemma find_element_Some e locs c loc : find_element e locs c = Some loc -> loc ∈ locs /\ table c !! loc = Some e.
Proof.
  intros F. apply find_some in F as [I E]. split; [now apply list_elem_of_In|now apply bool_decide_eq_true in E].
Qed.

Lemma find_element_None e locs c loc : find_element e locs c = None -> loc ∈ locs -> table c !! loc <> Some e.
Proof.
  intros F I. apply list_elem_of_In in I. pose proof (find_none _ _ F _ I) as N. now apply bool_decide_eq_false in N.
Qed.

Lemma find_free_Some locs c loc : find_free locs c = Some loc -> loc ∈ locs /\ bit_is_set loc (collection_flags c) = true.
Proof. intros F. apply find_some in F as [I E]. split; [now apply list_elem_of_In|exact E]. Qed.

Lemma contains_table ins c e erase : placed ins c -> e <> default ->
  fst (contains e erase c) = true <-> e ∈ table c.
Proof.
  intros P N. unfold contains. destruct (find_element e (compute_hashes c e) c) as [loc|] eqn:F; simpl.
  - split; [intros _|reflexivity]. apply find_element_Some in F as [_ F]. now apply list_elem_of_lookup_2 in F.
  - split; [discriminate|]. intros T. apply list_elem_of_lookup in T as [i T].
    destruct (P i e T) as [D|[_ I]]; [congruence|]. now apply (find_element_None _ _ _ _ F) in I.
Qed.

Lemma contains_ok e erase c : wf c -> wf (snd (contains e erase c)) /\ same_entries c (snd (contains e erase c)).
Proof.
  intros W. unfold contains. destruct (find_element _ _ _) as [loc|]; simpl; [|split; [exact W|now split_and!]].
  destruct erase; split; auto using allow_erase_wf; now split_and!.
Qed.

(** * Insertion *)

Lemma replace_permutation {A : Type} (l : list A) i (x y : A) : l !! i = Some x -> Permutation (y :: l) (x :: <[i := y]> l).
Proof.
  revert i; induction l as [|a l IH]; intros [|i] E; simplify_eq/=; [constructor|].
  apply (perm_trans (perm_swap a y l)). apply (perm_trans (perm_skip a (IH _ E))). constructor.
Qed.

(** The element in hand is put where a lookup finds it. *)
Lemma placed_insert ins c e i : placed ins c -> e = default \/ e ∈ ins -> i ∈ compute_hashes c e ->
  placed ins (with_table (<[i := e]> (table c)) c).
Proof.
  intros P K I j y E. apply list_lookup_insert_Some in E as [(-> & -> & _)|(_ & E)]; [|now apply P].
  destruct K as [K|K]; [now left|right; now split].
Qed.

Lemma nth_locs c e last : nth ((1 + position last (compute_hashes c e)) mod 8) (compute_hashes c e) 0%nat ∈ compute_hashes c e.
Proof. apply list_elem_of_In, nth_In. rewrite hashes_length. apply Nat.mod_upper_bound. lia. Qed.

(** What an insertion does: one element is displaced, possibly the one that
    is inserted, and all others stay where lookups find them. *)
Record displaces (ins : list Element) e c x c' : Prop := {
  disp_wf : wf c';
  disp_size : size c' = size c;
  disp_placed : placed ins c';
  disp_table : Permutation (e :: table c) (x :: table c') }.

Lemma insert_loop_displaces ins rounds last epoch e c : wf c -> placed ins c -> e = default \/ e ∈ ins ->
  exists x, displaces ins e c x (insert_loop rounds last epoch (compute_hashes c e) e c).
Proof.
  revert last epoch e c; induction rounds as [|rounds IH]; intros last epoch e c W P K; cbn [insert_loop].
  { exists e. now split. }
  destruct (find_free (compute_hashes c e) c) as [loc|] eqn:F.
  - apply find_free_Some in F as [I _].
    destruct (lookup_lt_is_Some_2 _ _ (hashes_range _ _ _ W I)) as [x X]. exists x.
    pose proof (placed_insert ins c e loc P K I) as P'. split; auto; [now apply keep_wf, table_wf|].
    cbn. now apply replace_permutation.
  - set (loc := nth _ _ _). pose proof (nth_locs c e last : loc ∈ _) as I.
    destruct (lookup_lt_is_Some_2 _ _ (hashes_range _ _ _ W I)) as [y Y]. rewrite Y.
    set (c1 := with_epochs _ _).
    assert (W1 : wf c1).
    { destruct (table_wf c loc e W) as [S T E B D]. split; auto. cbn. now rewrite length_insert. }
    assert (P1 : placed ins c1) by exact (placed_insert ins c e loc P K I).
    destruct (IH (Some loc) (epoch_of (with_table (<[loc:=e]> (table c)) c) loc) y c1 W1 P1) as [x D].
    { destruct (P _ _ Y) as [->|[M _]]; auto. }
    exists x. destruct D as [D1 D2 D3 D4]. split; auto. refine (perm_trans _ D4). now apply replace_permutation.
Qed.

Lemma insert_displaces ins e c : wf c -> placed ins c -> e ∈ ins ->
  (same_entries c (insert e c) /\ wf (insert e c) /\ e ∈ table c) \/ exists x, displaces ins e c x (insert e c).
Proof.
  intros W P I. unfold insert. destruct (epoch_check_ok c W) as [W1 S1].
  pose proof (same_placed ins _ _ S1 P) as P1. destruct S1 as (T & S & D).
  destruct (find_element e (compute_hashes (epoch_check c) e) (epoch_check c)) as [loc|] eqn:F.
  - left. apply find_element_Some in F as [_ F]. rewrite T in F.
    split; [now split_and!|]. split; [now apply keep_wf|now apply list_elem_of_lookup_2 in F].
  - right. destruct (insert_loop_displaces ins (depth_limit (epoch_check c)) None true e (epoch_check c) W1 P1 (or_intror I)) as [x X].
    exists x. destruct X as [X1 X2 X3 X4]. split; auto; [congruence|]. now rewrite <- T.
Qed.

(** * Sequences of calls *)

(** A cache after some calls, and the elements inserted by them.  For the
    seven largest sizes the flags have no memory ([flags_setup_wraps]). *)
Inductive built : list Element -> cache -> Prop :=
| built_setup n : 0 <= n < 2 ^ 32 - 7 -> built [] (setup n)
| built_insert ins c e : built ins c -> built (e :: ins) (insert e c)
| built_contains ins c e erase : built ins c -> built ins (snd (contains e erase c)).

Lemma setup_ok n : 0 <= n < 2 ^ 32 - 7 -> wf (setup n) /\ placed [] (setup n).
Proof.
  intros N. split.
  - split; simpl; rewrite ?length_replicate; try lia; [rewrite flags_setup_eq by lia; now rewrite length_replicate|apply log2f_range; lia].
  - intros i y E. apply lookup_replicate in E as [-> _]. now left.
Qed.

Lemma placed_more ins e c : placed ins c -> placed (e :: ins) c.
Proof. intros P i y E. destruct (P i y E) as [D|[I L]]; [now left|right]. split; [now apply elem_of_cons; right|exact L]. Qed.

Lemma built_ok ins c : built ins c -> wf c /\ placed ins c.
Proof.
  induction 1 as [n N|ins c e _ [W P]|ins c e erase _ [W P]]; [now apply setup_ok| |].
  - apply (placed_more ins e) in P.
    destruct (insert_displaces (e :: ins) e c W P) as [(S & W' & _)|[x D]]; [now apply elem_of_cons; left| |].
    + split; [exact W'|now apply same_placed with c].
    + split; [apply (disp_wf _ _ _ _ _ D)|apply (disp_placed _ _ _ _ _ D)].
  - destruct (contains_ok e erase c W) as [W' S]. split; [exact W'|now apply same_placed with c].
Qed.

Lemma contains_same c c' e erase erase' : same_entries c c' -> fst (contains e erase c') = fst (contains e erase' c).
Proof.
  intros (T & S & _). unfold contains, find_element. rewrite T, (hashes_size c' c e S). now destruct (find _ _).
Qed.

Lemma contains_inserted ins c e erase : built ins c -> e <> default -> fst (contains e erase c) = true -> e ∈ ins.
Proof.
  intros B N C. destruct (built_ok _ _ B) as [W P].
  apply (contains_table ins c e erase P N) in C. apply list_elem_of_lookup in C as [i C].
  destruct (P _ _ C) as [D|[I _]]; [congruence|exact I].
Qed.

(** A location of the element that may be overwritten is used. *)
Lemma insert_free e c loc : wf c -> find_free (compute_hashes c e) (epoch_check c) = Some loc ->
  e ∈ table (insert e c) /\
  forall i y, table c !! i = Some y -> bit_is_set i (collection_flags (epoch_check c)) = false -> table (insert e c) !! i = Some y.
Proof.
  intros W F. destruct (epoch_check_ok c W) as [W1 (T & S & _)].
  unfold insert. rewrite (hashes_size _ c e S).
  destruct (find_element e (compute_hashes c e) (epoch_check c)) as [l|] eqn:E.
  - apply find_element_Some in E as [_ E]. split; [now apply list_elem_of_lookup_2 in E|]. intros i y Y _. simpl. congruence.
  - destruct (depth_limit (epoch_check c)) as [|d] eqn:Dep; [pose proof (wf_depth _ W1); lia|].
    cbn [insert_loop]. rewrite F. apply find_free_Some in F as [I B]. pose proof (hashes_range _ _ _ W I) as R. simpl. rewrite T.
    split; [apply list_elem_of_lookup_2 with loc; now apply list_lookup_insert_eq|].
    intros i y Y U. rewrite list_lookup_insert_ne; [exact Y|congruence].
Qed.

(** C15: after any sequence of calls, a lookup answers yes only for elements
    that were inserted (and for the value that empty slots hold); lookups that
    mark entries for collection change no answer; an insertion makes lookups
    miss at most one element, possibly the one inserted; and if one of its
    eight locations may be overwritten, the inserted element is found and
    every entry that may not be overwritten stays.  The cache has less than
    2^32 - 7 slots. *)
Theorem CuckooCache_correct ins c : built ins c ->
  (forall e erase, e <> default -> fst (contains e erase c) = true -> e ∈ ins) /\
  (forall e erase y erase', fst (contains y erase' (snd (contains e erase c))) = fst (contains y erase' c)) /\
  (forall e, exists x, forall y erase, y <> default -> y <> x ->
     y = e \/ fst (contains y erase c) = true -> fst (contains y erase (insert e c)) = true) /\
  (forall e erase loc, e <> default -> find_free (compute_hashes c e) (epoch_check c) = Some loc ->
     fst (contains e erase (insert e c)) = true /\
     forall i y, table c !! i = Some y -> bit_is_set i (collection_flags (epoch_check c)) = false ->
       table (insert e c) !! i = Some y).
Proof.
  intros Bu. destruct (built_ok _ _ Bu) as [W P].
  assert (P' : forall e, placed (e :: ins) (insert e c)) by (intros e; now destruct (built_ok _ _ (built_insert _ _ e Bu))).
  split_and!.
  - intros e erase. now apply contains_inserted.
  - intros e erase y erase'. apply contains_same, contains_ok, W.
  - intros e. destruct (insert_displaces (e :: ins) e c W (placed_more _ _ _ P)) as [(S & _ & T)|[x D]]; [now apply elem_of_cons; left| |].
    + exists e. intros y erase _ Y [->|C]; [congruence|]. now rewrite (contains_same c _ y erase erase S).
    + exists x. intros y erase N Y K. apply (contains_table (e :: ins) _ y erase (P' e) N).
      assert (M : y ∈ e :: table c).
      { destruct K as [->|K]; [now apply elem_of_cons; left|apply elem_of_cons; right; now apply (contains_table ins c y erase)]. }
      apply list_elem_of_In in M. apply (Permutation_in _ (disp_table _ _ _ _ _ D)) in M.
      destruct M as [->|M]; [congruence|now apply list_elem_of_In].
  - intros e erase loc N F. destruct (insert_free e c loc W F) as [E K]. split; [|exact K].
    now apply (contains_table (e :: ins) _ e erase (P' e) N).
Qed.
End Cache.

(** [setup_bytes], for elements of [sizeof] bytes. *)
Definition setup_bytes {Element} (default : Element) (log2f : Z -> nat) (sizeof bytes : Z) : cache :=
  setup default log2f (w32 (bytes / sizeof)).

(** * The signature cache *)

(** [uint256()] *)
Definition no_entry : bytes := zeros 32.

(** The word is read as on a little-endian machine. *)
Definition SignatureCacheHasher (hash_select : nat) (key : bytes) : Z :=
  w32 (le_val 8 (firstn 4 (skipn (4 * hash_select) key))).

(** [ComputeEntry]; [junk] is what the hasher's buffer holds at first. *)
Definition ComputeEntry (nonce junk hash vchSig pubkey : bytes) : bytes :=
  Sha256.Finalize (Sha256.Write vchSig (Sha256.Write pubkey (Sha256.Write hash (Sha256.Write nonce (Sha256.create junk))))).

Definition Get (entry : bytes) (erase : bool) (c : cache) : bool * cache := contains SignatureCacheHasher entry erase c.
Definition Set_ (entry : bytes) (c : cache) : cache := insert SignatureCacheHasher entry c.

Definition InitSignatureCache (log2f : Z -> nat) (maxsigcachesize : Z) : cache :=
  let nMaxCacheSize := Z.min (Z.max 0 (Z.quot maxsigcachesize 2)) 16384 * Z.shiftl 1 20 in
  setup_bytes no_entry log2f 32 nMaxCacheSize.

Section Signatures.
(** [CPubKey::Verify] on a key, a hash and a signature. *)
Variable Verify : bytes -> bytes -> bytes -> bool.
Variable log2f : Z -> nat.
Variable nonce : bytes.

Definition VerifySignature (junk : bytes) (store : bool) (vchSig pubkey sighash : bytes) (c : cache) : bool * cache :=
  let entry := ComputeEntry nonce junk sighash vchSig pubkey in
  let '(found, c) := Get entry (negb store) c in
  if found then (true, c)
  else if negb (Verify pubkey sighash vchSig) then (false, c)
  else (true, if store then Set_ entry c else c).

(** A call: the hash, a valid key and the signature. *)
Record call := mkCall { c_sighash : bytes; c_pubkey : bytes; c_sig : bytes }.
Definition verified (q : call) : bool := Verify (c_pubkey q) (c_sighash q) (c_sig q).
Definition message (q : call) : bytes := nonce ++ c_sighash q ++ c_pubkey q ++ c_sig q.

Record call_ok (q : call) : Prop := {
  ok_sighash : length (c_sighash q) = 32%nat;
  ok_pubkey : CPubKey (c_pubkey q) = c_pubkey q;
  ok_valid : pubkey_IsValid (c_pubkey q) = true;
  ok_sig : Z.of_nat (length (c_sig q)) < 2 ^ 32 }.

(** The cache after some calls. *)
Inductive runs : list call -> cache -> Prop :=
| runs_init maxsigcachesize : runs [] (InitSignatureCache log2f maxsigcachesize)
| runs_call hist c junk store q : runs hist c -> length junk = 64%nat -> call_ok q ->
    runs (q :: hist) (snd (VerifySignature junk store (c_sig q) (c_pubkey q) (c_sighash q) c)).

Hypothesis log2f_range : forall n, 2 <= n -> (1 <= log2f n)%nat.
Hypothesis nonce_size : length nonce = 32%nat.

Lemma hasher_range k e : in_u 32 (SignatureCacheHasher k e).
Proof. unfold in_u, SignatureCacheHasher, w32. apply Z.mod_pos_bound. lia. Qed.

(** At most 2^29 entries. *)
Lemma init_size m : 0 <= w32 (Z.min (Z.max 0 (Z.quot m 2)) 16384 * Z.shiftl 1 20 / 32) < 2 ^ 32 - 7.
Proof.
  change (Z.shiftl 1 20) with (32768 * 32). rewrite Z.mul_assoc, Z.div_mul by lia. unfold w32. rewrite wrap_id; unfold in_u; lia.
Qed.

Lemma pubkey_size p : CPubKey p = p -> pubkey_IsValid p = true ->
  exists h t, p = h :: t /\ Z.of_nat (length p) = GetLen h /\ GetLen h <= 65.
Proof.
  destruct p as [|h t]; [discriminate|]. unfold CPubKey. intros C _. exists h, t. split; [reflexivity|].
  destruct (negb (GetLen h =? 0) && (GetLen h =? Z.of_nat (length (h :: t)))) eqn:E; [|discriminate].
  apply andb_prop in E as [_ E]. split; [lia|]. unfold GetLen. repeat destruct (_ || _); lia.
Qed.

(** The concatenation determines its parts: the key's first byte gives its length. *)
Lemma message_inj q q' : call_ok q -> call_ok q' -> message q = message q' -> q = q'.
Proof.
  intros [S P V _] [S' P' V' _] E. destruct q as [s p g], q' as [s' p' g']; simpl in *. unfold message in E; simpl in E.
  apply app_inv_head in E. apply app_inj_1 in E as [-> E]; [|congruence].
  destruct (pubkey_size _ P V) as (h & t & -> & L & _), (pubkey_size _ P' V') as (h' & t' & -> & L' & _).
  assert (h = h') by (simpl in E; congruence). subst h'. apply app_inj_1 in E as [-> ->]; [reflexivity|lia].
Qed.

Lemma ComputeEntry_message junk q : length junk = 64%nat -> call_ok q ->
  ComputeEntry nonce junk (c_sighash q) (c_sig q) (c_pubkey q) = Sha256.reference (message q).
Proof.
  intros J [S P V L]. destruct (pubkey_size _ P V) as (h & t & _ & K & B).
  pose proof (sha256_stream junk [nonce; c_sighash q; c_pubkey q; c_sig q] J) as H. simpl in H. rewrite app_nil_r in H.
  apply H. rewrite !length_app. lia.
Qed.

Abbreviation built := (built no_entry SignatureCacheHasher log2f).

Lemma VerifySignature_built junk store q ins c :
  let entry := ComputeEntry nonce junk (c_sighash q) (c_sig q) (c_pubkey q) in
  built ins c -> exists ins',
  built ins' (snd (VerifySignature junk store (c_sig q) (c_pubkey q) (c_sighash q) c)) /\
  forall e, e ∈ ins' -> e ∈ ins \/ e = entry /\ verified q = true.
Proof.
  intros entry B. unfold VerifySignature. fold entry. destruct (Get entry (negb store) c) as [f d] eqn:G.
  assert (B' : built ins d).
  { pose proof (built_contains _ _ _ ins c entry (negb store) B) as K. unfold Get in G. now rewrite G in K. }
  destruct f; [exists ins; split; [exact B'|now left]|]. fold (verified q). destruct (verified q); simpl; [|exists ins; split; [exact B'|now left]].
  destruct store; [|exists ins; split; [exact B'|now left]].
  exists (entry :: ins). split; [now constructor|]. intros e I. apply elem_of_cons in I as [-> | I]; [right|left]; [now split|exact I].
Qed.

(** The table holds entries of verified calls. *)
Lemma runs_built hist c : runs hist c ->
  exists ins, built ins c /\
  forall e, e ∈ ins -> exists q, q ∈ hist /\ call_ok q /\ verified q = true /\ e = Sha256.reference (message q).
Proof.
  induction 1 as [m|hist c junk store q _ (ins & B & I) J Q].
  - exists []. split; [|intros e K; now apply elem_of_nil in K]. apply built_setup, init_size.
  - destruct (VerifySignature_built junk store q ins c B) as (ins' & B' & I'). exists ins'. split; [exact B'|].
    intros e E. destruct (I' e E) as [K|[-> V]].
    + destruct (I e K) as (q' & M & R). exists q'. split; [apply elem_of_cons; now right|exact R].
    + exists q. split; [apply elem_of_cons; now left|]. split; [exact Q|]. split; [exact V|now apply ComputeEntry_message].
Qed.

(** C14: whatever signatures the cache has seen, marked for removal or
    dropped, a check through it returns what the signature check itself
    returns, provided the entry is not the all-zero hash and does not collide
    with that of an earlier call on other data. *)
Theorem SignatureCache_sound hist c junk store q : runs hist c -> length junk = 64%nat -> call_ok q ->
  Sha256.reference (message q) <> no_entry ->
  (forall q', q' ∈ hist -> Sha256.reference (message q') = Sha256.reference (message q) -> message q' = message q) ->
  fst (VerifySignature junk store (c_sig q) (c_pubkey q) (c_sighash q) c) = Verify (c_pubkey q) (c_sighash q) (c_sig q).
Proof.
  intros R J Q N Col. destruct (runs_built _ _ R) as (ins & B & I).
  unfold VerifySignature. rewrite ComputeEntry_message by assumption.
  destruct (Get (Sha256.reference (message q)) (negb store) c) as [f d] eqn:G.
  destruct f; [|now destruct (Verify _ _ _)].
  assert (M : Sha256.reference (message q) ∈ ins).
  { apply (contains_inserted no_entry SignatureCacheHasher log2f hasher_range log2f_range ins c _ (negb store) B N).
    unfold Get in G. now rewrite G. }
  destruct (I _ M) as (q' & H & Q' & V & E). pose proof (Col q' H (eq_sym E)) as K.
  apply (message_inj q' q Q' Q) in K. subst q'. symmetry. exact V.
Qed.
End Signatures.

(** * Witnesses *)

(** A cache of the minimum size, with numbers as elements. *)
Lemma CuckooCache_correct_witness :
  let hash := fun k e => Z.of_nat k * 2 ^ 31 mod 2 ^ 32 + (e mod 2 ^ 31) in
  let c := insert hash 7 (insert hash 5 (setup 0 (fun n => Z.to_nat (Z.log2 n)) 0)) in
  built 0 hash (fun n => Z.to_nat (Z.log2 n)) [7; 5] c /\
  (table c, map (fun e => fst (contains hash e true c)) [5; 7; 8]) = ([5; 7], [true; true; false]) /\
  exists x, forall y erase, y <> 0 -> y <> x -> y = 9 \/ fst (contains hash y erase c) = true ->
    fst (contains hash y erase (insert hash 9 c)) = true.
Proof.
  intros hash c. assert (B : built 0 hash (fun n => Z.to_nat (Z.log2 n)) [7; 5] c) by (repeat constructor; lia).
  split; [exact B|]. split; [vm_compute; reflexivity|].
  apply (CuckooCache_correct 0 hash (fun n => Z.to_nat (Z.log2 n))) with (ins := [7; 5]).
  - intros k e. unfold in_u, hash. pose proof (Z.mod_pos_bound e (2 ^ 31)).
    assert (Z.of_nat k * 2 ^ 31 mod 2 ^ 32 <= 2 ^ 31).
    { change (2 ^ 32) with (2 * 2 ^ 31). rewrite Z.mul_mod_distr_r by lia. pose proof (Z.mod_pos_bound (Z.of_nat k) 2). lia. }
    pose proof (Z.mod_pos_bound (Z.of_nat k * 2 ^ 31) (2 ^ 32)). lia.
  - intros n N. pose proof (Z.log2_le_mono 2 n N). change (Z.log2 2) with 1 in *. lia.
  - exact B.
Defined.

(** A verified signature is answered from the cache; a changed one is not. *)
Lemma SignatureCache_sound_witness :
  let Verify := fun _ _ sig : bytes => bool_decide (sig = [1]) in
  let log2f := fun n => Z.to_nat (Z.log2 n) in
  let key := 2 :: zeros 32 in
  let good := mkCall (zeros 32) key [1] in
  let bad := mkCall (zeros 32) key [9] in
  let run := fun q c => VerifySignature Verify (zeros 32) (zeros 64) true (c_sig q) (c_pubkey q) (c_sighash q) c in
  let c := snd (run good (InitSignatureCache log2f 0)) in
  fst (Get (ComputeEntry (zeros 32) (zeros 64) (zeros 32) [1] key) false c) = true /\ fst (run bad c) = false.
Proof.
  intros Verify log2f key good bad run c. split; [vm_compute; reflexivity|].
  assert (Ok : forall g, Z.of_nat (length g) < 2 ^ 32 -> call_ok (mkCall (zeros 32) key g)) by (intros g G; now split).
  assert (R : runs Verify log2f (zeros 32) [good] c).
  { unfold c, run. apply runs_call; [apply runs_init|reflexivity|now apply Ok]. }
  unfold run. refine (eq_trans (SignatureCache_sound Verify log2f (zeros 32) _ _ [good] c (zeros 64) true bad R _ _ _ _) _).
  - intros n N. pose proof (Z.log2_le_mono 2 n N). change (Z.log2 2) with 1 in *. unfold log2f. lia.
  - reflexivity.
  - reflexivity.
  - now apply Ok.
  - intros E. apply (f_equal (fun l => nth 0 l 0)) in E. vm_compute in E. discriminate.
  - intros q' M E. apply list_elem_of_singleton in M. subst q'.
    apply (f_equal (fun l => nth 0 l 0)) in E. vm_compute in E. discriminate.
  - reflexivity.
Defined.
