(* ===== verification/SigHash.v ===== *)
(** Signature hashes and the transaction checker (src/script/interpreter.cpp:
    [CTransactionSignatureSerializer], [SignatureHash],
    [PrecomputedTransactionData], [TransactionSignatureChecker]), with the
    reference algorithm kept in src/test/sighash_tests.cpp.

    A hash writer is the list of bytes written to it.  The signature check of
    the curve library ([CPubKey::Verify]) is a parameter. *)

From Stdlib Require Import ZArith List Bool Lia Arith.
From S2P Require Import Prelude Serialize Script Standard Transaction Interpreter Hasher Sha2 Hashes.
Import ListNotations.
Open Scope Z_scope.

(** * The script being signed *)

(** Where [GetOp2] leaves the iterator when it returns false: behind the
    opcode and behind the size bytes it has read. *)
Definition GetOp2_stop (pc : bytes) : bytes :=
  match pc with
  | [] => []
  | opcode :: pc =>
      if opcode <=? OP_PUSHDATA4 then
        if opcode <? OP_PUSHDATA1 then pc
        else if opcode =? OP_PUSHDATA1 then skipn 1 pc
        else if opcode =? OP_PUSHDATA2 then if Nat.ltb (length pc) 2 then pc else skipn 2 pc
        else if Nat.ltb (length pc) 4 then pc else skipn 4 pc
      else pc
  end.

(** [while (scriptCode.GetOp(it, opcode))], counting separators. *)
Fixpoint count_separators (fuel : nat) (it : bytes) (n : Z) : Z :=
  match fuel with
  | O => n
  | S fuel' =>
      match GetOp2 it with
      | None => n
      | Some (opcode, _, it') =>
          count_separators fuel' it' (if opcode =? OP_CODESEPARATOR then n + 1 else n)
      end
  end.

(** The second loop: what is written between separators, then the rest. *)
Fixpoint write_pieces (fuel : nat) (itBegin it : bytes) : bytes :=
  match fuel with
  | O => []
  | S fuel' =>
      match GetOp2 it with
      | None => firstn (length itBegin - length (GetOp2_stop it)) itBegin
      | Some (opcode, _, it') =>
          if opcode =? OP_CODESEPARATOR
          then firstn (length itBegin - length it' - 1) itBegin ++ write_pieces fuel' it' it'
          else write_pieces fuel' itBegin it'
      end
  end.

Definition SerializeScriptCode (scriptCode : CScript) : bytes :=
  WriteCompactSize (Z.of_nat (length scriptCode) - count_separators (length scriptCode) scriptCode 0) ++
  write_pieces (S (length scriptCode)) scriptCode scriptCode.

(** * The transaction being signed *)

Definition txin_null : CTxIn := mkTxIn outpoint_null [] SEQUENCE_FINAL [].

Section Serializer.
Variable txTo : CTransaction.
Variable scriptCode : CScript.
Variable nIn : nat.
Variable nHashType : Z.

Definition fAnyoneCanPay : bool := negb (Z.land nHashType SIGHASH_ANYONECANPAY =? 0).
Definition fHashSingle : bool := Z.land nHashType 0x1f =? SIGHASH_SINGLE.
Definition fHashNone : bool := Z.land nHashType 0x1f =? SIGHASH_NONE.

Definition SerializeInput (nInput : nat) : bytes :=
  let nInput := if fAnyoneCanPay then nIn else nInput in
  let txin := nth nInput (vin txTo) txin_null in
  write_outpoint (prevout txin) ++
  (if negb (Nat.eqb nInput nIn) then write_string [] else SerializeScriptCode scriptCode) ++
  ser_writedata32 (if negb (Nat.eqb nInput nIn) && (fHashSingle || fHashNone) then 0 else nSequence txin).

Definition SerializeOutput (nOutput : nat) : bytes :=
  if fHashSingle && negb (Nat.eqb nOutput nIn) then write_txout txout_null
  else write_txout (nth nOutput (vout txTo) txout_null).

Definition SerializeTxTmp : bytes :=
  let nInputs := if fAnyoneCanPay then 1%nat else length (vin txTo) in
  let nOutputs := if fHashNone then 0%nat else if fHashSingle then (nIn + 1)%nat else length (vout txTo) in
  ser_writedata32 (nVersion txTo) ++
  WriteCompactSize (Z.of_nat nInputs) ++ flat_map SerializeInput (seq 0 nInputs) ++
  WriteCompactSize (Z.of_nat nOutputs) ++ flat_map SerializeOutput (seq 0 nOutputs) ++
  ser_writedata32 (nLockTime txTo).

End Serializer.

Section SignatureHash.
Variable Hash : bytes -> bytes.

Definition GetPrevoutHash (txTo : CTransaction) : bytes :=
  Hash (flat_map (fun i => write_outpoint (prevout i)) (vin txTo)).
Definition GetSequenceHash (txTo : CTransaction) : bytes :=
  Hash (flat_map (fun i => ser_writedata32 (nSequence i)) (vin txTo)).
Definition GetOutputsHash (txTo : CTransaction) : bytes := Hash (flat_map write_txout (vout txTo)).

Record PrecomputedTransactionData := mkPrecomputed {
  cached_hashPrevouts : bytes;
  cached_hashSequence : bytes;
  cached_hashOutputs : bytes;
  ready : bool
}.

(** The constructor. *)
Definition precompute (txTo : CTransaction) : PrecomputedTransactionData :=
  if HasWitness txTo
  then mkPrecomputed (GetPrevoutHash txTo) (GetSequenceHash txTo) (GetOutputsHash txTo) true
  else mkPrecomputed uint256_null uint256_null uint256_null false.

Definition uint256_one : bytes := 1 :: repeat 0 31.

(** The bytes hashed for a version 0 witness program. *)
Definition witness_preimage (scriptCode : CScript) (txTo : CTransaction) (nIn : nat) (nHashType amount : Z)
    (cache : option PrecomputedTransactionData) : bytes :=
  let cached (f : PrecomputedTransactionData -> bytes) (h : bytes) :=
    match cache with Some c => if ready c then f c else h | None => h end in
  let anyone := negb (Z.land nHashType SIGHASH_ANYONECANPAY =? 0) in
  let single := Z.land nHashType 0x1f =? SIGHASH_SINGLE in
  let none := Z.land nHashType 0x1f =? SIGHASH_NONE in
  let hashPrevouts :=
    if negb anyone then cached cached_hashPrevouts (GetPrevoutHash txTo) else uint256_null in
  let hashSequence :=
    if negb anyone && negb single && negb none
    then cached cached_hashSequence (GetSequenceHash txTo) else uint256_null in
  let hashOutputs :=
    if negb single && negb none then cached cached_hashOutputs (GetOutputsHash txTo)
    else if single && Nat.ltb nIn (length (vout txTo))
    then Hash (write_txout (nth nIn (vout txTo) txout_null))
    else uint256_null in
  let txin := nth nIn (vin txTo) txin_null in
  ser_writedata32 (nVersion txTo) ++ hashPrevouts ++ hashSequence ++
  write_outpoint (prevout txin) ++ write_string scriptCode ++ ser_writedata64 amount ++
  ser_writedata32 (nSequence txin) ++ hashOutputs ++ ser_writedata32 (nLockTime txTo) ++
  ser_writedata32 nHashType.

(** [None] where the assertion on the input index fails. *)
Definition SignatureHash (scriptCode : CScript) (txTo : CTransaction) (nIn : nat) (nHashType amount : Z)
    (sigversion : SigVersion) (cache : option PrecomputedTransactionData) : option bytes :=
  if negb (Nat.ltb nIn (length (vin txTo))) then None
  else
    match sigversion with
    | SIGVERSION_WITNESS_V0 =>
        Some (Hash (witness_preimage scriptCode txTo nIn nHashType amount cache))
    | SIGVERSION_BASE =>
        if (Z.land nHashType 0x1f =? SIGHASH_SINGLE) && negb (Nat.ltb nIn (length (vout txTo)))
        then Some uint256_one
        else Some (Hash (SerializeTxTmp txTo scriptCode nIn nHashType ++ ser_writedata32 nHashType))
    end.

(** * The reference algorithm *)

Definition blank_sigs (scriptCode : CScript) (nIn : nat) (ins : list CTxIn) : list CTxIn :=
  upd (map (fun i => mkTxIn (prevout i) [] (nSequence i) (scriptWitness i)) ins) nIn
      (let i := nth nIn ins txin_null in mkTxIn (prevout i) scriptCode (nSequence i) (scriptWitness i)).

(** [if (i != nIn) txTmp.vin[i].nSequence = 0] *)
Fixpoint free_sequences (nIn i : nat) (ins : list CTxIn) : list CTxIn :=
  match ins with
  | [] => []
  | x :: ins' =>
      (if Nat.eqb i nIn then x else mkTxIn (prevout x) (scriptSig x) 0 (scriptWitness x)) ::
      free_sequences nIn (S i) ins'
  end.

(** [txTmp] of [SignatureHashOld]. *)
Definition old_tx (scriptCode : CScript) (txTo : CTransaction) (nIn : nat) (nHashType : Z) : CTransaction :=
  let scriptCode :=
    match FindAndDelete scriptCode [opcode_value OP_CODESEPARATOR] with
    | Some (r, _) => r
    | None => scriptCode
    end in
  let ins := blank_sigs scriptCode nIn (vin txTo) in
  let '(ins, outs) :=
    if Z.land nHashType 0x1f =? SIGHASH_NONE then (free_sequences nIn 0 ins, [])
    else if Z.land nHashType 0x1f =? SIGHASH_SINGLE
    then (free_sequences nIn 0 ins,
          repeat txout_null nIn ++ [nth nIn (vout txTo) txout_null])
    else (ins, vout txTo) in
  let ins := if negb (Z.land nHashType SIGHASH_ANYONECANPAY =? 0) then [nth nIn ins txin_null] else ins in
  mkTx ins outs (nVersion txTo) (nLockTime txTo).

Definition SignatureHashOld (scriptCode : CScript) (txTo : CTransaction) (nIn : nat) (nHashType : Z) : bytes :=
  if negb (Nat.ltb nIn (length (vin txTo))) then uint256_one
  else if (Z.land nHashType 0x1f =? SIGHASH_SINGLE) && negb (Nat.ltb nIn (length (vout txTo)))
  then uint256_one
  else Hash (SerializeTransaction false (old_tx scriptCode txTo nIn nHashType) ++ ser_writedata32 nHashType).

(** * The checker of a transaction input *)

(** [CPubKey::Verify] on a key, a signature hash and a signature. *)
Variable Verify : bytes -> bytes -> bytes -> bool.

Record TransactionSignatureChecker := mkTxChecker {
  txTo : CTransaction;
  nIn : nat;
  amount : Z;
  txdata : option PrecomputedTransactionData
}.

Definition tx_CheckSig (c : TransactionSignatureChecker) (vchSigIn vchPubKey : valtype)
    (scriptCode : CScript) (sigversion : SigVersion) : bool :=
  let pubkey := CPubKey vchPubKey in
  if negb (pubkey_IsValid pubkey) then false
  else
    match vchSigIn with
    | [] => false
    | _ =>
        let nHashType := back vchSigIn in
        let vchSig := removelast vchSigIn in
        match SignatureHash scriptCode (txTo c) (nIn c) nHashType (amount c) sigversion (txdata c) with
        | Some sighash => Verify pubkey sighash vchSig
        | None => false
        end
    end.

Definition tx_CheckLockTime (c : TransactionSignatureChecker) (nLockTime : Z) : bool :=
  let txLockTime := Transaction.nLockTime (txTo c) in
  if negb (((txLockTime <? LOCKTIME_THRESHOLD) && (nLockTime <? LOCKTIME_THRESHOLD)) ||
           ((txLockTime >=? LOCKTIME_THRESHOLD) && (nLockTime >=? LOCKTIME_THRESHOLD))) then false
  else if nLockTime >? txLockTime then false
  else if SEQUENCE_FINAL =? nSequence (nth (nIn c) (vin (txTo c)) txin_null) then false
  else true.

Definition tx_CheckSequence (c : TransactionSignatureChecker) (nSequence : Z) : bool :=
  let txToSequence := Transaction.nSequence (nth (nIn c) (vin (txTo c)) txin_null) in
  if w32 (nVersion (txTo c)) <? 2 then false
  else if negb (Z.land txToSequence SEQUENCE_LOCKTIME_DISABLE_FLAG =? 0) then false
  else
    let nLockTimeMask := Z.lor SEQUENCE_LOCKTIME_TYPE_FLAG SEQUENCE_LOCKTIME_MASK in
    let txToSequenceMasked := Z.land txToSequence nLockTimeMask in
    let nSequenceMasked := Z.land nSequence nLockTimeMask in
    if negb (((txToSequenceMasked <? SEQUENCE_LOCKTIME_TYPE_FLAG) &&
              (nSequenceMasked <? SEQUENCE_LOCKTIME_TYPE_FLAG)) ||
             ((txToSequenceMasked >=? SEQUENCE_LOCKTIME_TYPE_FLAG) &&
              (nSequenceMasked >=? SEQUENCE_LOCKTIME_TYPE_FLAG))) then false
    else if nSequenceMasked >? txToSequenceMasked then false
    else true.

#[export] Instance tx_checker : BaseSignatureChecker TransactionSignatureChecker := {
  CheckSig := tx_CheckSig;
  CheckLockTime := tx_CheckLockTime;
  CheckSequence := tx_CheckSequence
}.

End SignatureHash.

(** * Removing code separators *)

(** [stripped pc r n]: the script at [pc] reads to its end, and is [r] with
    [n] code separators left out. *)
Inductive stripped : bytes -> bytes -> Z -> Prop :=
| stripped_end : stripped [] [] 0
| stripped_sep p r n : stripped p r n -> stripped (opcode_value OP_CODESEPARATOR :: p) r (n + 1)
| stripped_op pre pc op v r n : GetOp2 (pre ++ pc) = Some (op, v, pc) -> op <> opcode_value OP_CODESEPARATOR ->
    stripped pc r n -> stripped (pre ++ pc) (pre ++ r) n.

Lemma stripped_length (pc r : bytes) (n : Z) : stripped pc r n ->
  0 <= n /\ Z.of_nat (length r) = Z.of_nat (length pc) - n.
Proof. induction 1; cbn [length]; rewrite ?length_app; lia. Qed.

Lemma GetOp2_separator (p : bytes) :
  GetOp2 (opcode_value OP_CODESEPARATOR :: p) = Some (opcode_value OP_CODESEPARATOR, [], p).
Proof. reflexivity. Qed.

Lemma GetOp2_cons (pre pc v : bytes) (op : Z) : GetOp2 (pre ++ pc) = Some (op, v, pc) ->
  exists pre', pre = op :: pre'.
Proof.
  intros E; pose proof (GetOp2_suffix _ _ _ _ E) as (q & Eq).
  destruct pre as [| x pre].
  - exfalso; cbn [app] in Eq; apply (f_equal (@length Z)) in Eq; cbn [length] in Eq; rewrite length_app in Eq; lia.
  - injection Eq as -> _; eauto.
Qed.

Lemma stripped_of_parse (fuel : nat) : forall pc l, parse_fuel fuel pc = Some l ->
  exists r n, stripped pc r n.
Proof.
  induction fuel as [| fuel IH]; intros [| c pc] l; cbn [parse_fuel]; intros E; try discriminate;
    try (exists [], 0; constructor).
  destruct (GetOp2 (c :: pc)) as [[[op v] pc'] |] eqn:G; [| discriminate].
  destruct (parse_fuel fuel pc') as [l' |] eqn:E'; [| discriminate].
  destruct (IH _ _ E') as (r & n & S); pose proof (GetOp2_suffix _ _ _ _ G) as (q & Eq).
  destruct (Z.eq_dec op (opcode_value OP_CODESEPARATOR)) as [-> | Hne].
  - exists r, (n + 1); injection Eq as -> Eq.
    assert (pc = pc') as -> by (rewrite GetOp2_separator in G; congruence); constructor; exact S.
  - exists ((op :: q) ++ r), n; rewrite Eq; change (op :: q ++ pc') with ((op :: q) ++ pc').
    econstructor; eauto; cbn [app]; rewrite <- Eq; exact G.
Qed.

Lemma count_separators_stripped (pc r : bytes) (n : Z) : stripped pc r n -> forall fuel m,
  (length pc <= fuel)%nat -> count_separators fuel pc m = m + n.
Proof.
  induction 1 as [| p r n S IH | pre pc op v r n G Hne S IH]; intros fuel m Hl.
  - destruct fuel; cbn; lia.
  - destruct fuel as [| fuel]; cbn [length] in Hl; [lia |].
    cbn [count_separators]; rewrite GetOp2_separator, Z.eqb_refl, IH by lia; lia.
  - destruct (GetOp2_cons _ _ _ _ G) as (q & ->); cbn [app length] in Hl; rewrite length_app in Hl.
    destruct fuel as [| fuel]; [lia |]; cbn [count_separators]; rewrite G.
    rewrite (proj2 (Z.eqb_neq _ _)) by exact Hne; apply IH; lia.
Qed.

Lemma firstn_prefix (u v : bytes) (n : nat) : n = length u -> firstn n (u ++ v) = u.
Proof. intros ->; rewrite firstn_app, Nat.sub_diag, firstn_all, app_nil_r; reflexivity. Qed.

Lemma write_pieces_stripped (pc r : bytes) (n : Z) : stripped pc r n -> forall fuel u,
  (length pc < fuel)%nat -> write_pieces fuel (u ++ pc) pc = u ++ r.
Proof.
  induction 1 as [| p r n S IH | pre pc op v r n G Hne S IH]; intros fuel u Hl;
    (destruct fuel as [| fuel]; [lia |]); cbn [write_pieces].
  - cbn [GetOp2 GetOp2_stop length]; rewrite !app_nil_r; apply firstn_all2; lia.
  - cbn [length] in Hl; rewrite GetOp2_separator, Z.eqb_refl.
    rewrite firstn_prefix by (rewrite length_app; cbn [length]; lia).
    f_equal; apply (IH fuel []); lia.
  - rewrite G, (proj2 (Z.eqb_neq _ _)) by exact Hne.
    destruct (GetOp2_cons _ _ _ _ G) as (q & ->); cbn [app length] in Hl; rewrite length_app in Hl.
    rewrite !app_assoc; apply IH; lia.
Qed.

(** The body of the loop of [FindAndDelete] at an iterator. *)
Lemma find_and_delete_stripped (pc r : bytes) (n : Z) : stripped pc r n -> forall fuel u res m,
  (length pc <= fuel)%nat ->
  find_and_delete_loop (S fuel) [opcode_value OP_CODESEPARATOR] (u ++ pc) pc res m = Some (res ++ u ++ r, m + n).
Proof.
  induction 1 as [| p r n S IH | pre pc op v r n G Hne S IH]; intros fuel u res m Hl.
  - cbn; rewrite app_nil_r, Nat.sub_0_r, firstn_all, app_nil_r, Z.add_0_r; reflexivity.
  - specialize (IH fuel u res (m + 1)); cbn [length] in Hl; specialize (IH ltac:(lia)).
    replace (m + (n + 1)) with (m + 1 + n) by lia; rewrite <- IH.
    cbn [find_and_delete_loop]; rewrite !firstn_prefix by (rewrite !length_app; cbn [length]; lia).
    reflexivity.
  - destruct (GetOp2_cons _ _ _ _ G) as (q & ->).
    cbn [find_and_delete_loop]; rewrite firstn_prefix by (rewrite (length_app u); lia).
    cbn [app skip_matches starts_with]; rewrite (proj2 (Z.eqb_neq _ _)) by (intros E; apply Hne; symmetry; exact E).
    cbn [andb]; cbn [app] in G; rewrite G.
    cbn [app length] in Hl; rewrite length_app in Hl; destruct fuel as [| fuel]; [lia |].
    change (op :: q ++ pc) with ((op :: q) ++ pc); rewrite IH by lia.
    rewrite <- !app_assoc; reflexivity.
Qed.

(** Without separators nothing changes. *)
Lemma strip_none (pc r : bytes) : stripped pc r 0 -> r = pc.
Proof.
  intros S; remember 0 as n eqn:En; induction S as [| p r n S IH | pre pc op v r n G Hne S IH]; auto.
  - apply stripped_length in S; lia.
  - rewrite (IH En); reflexivity.
Qed.

(** What is signed for a script that reads to its end: the script without
    its code separators. *)
Lemma SerializeScriptCode_stripped (scriptCode r : CScript) (n : Z) : stripped scriptCode r n ->
  SerializeScriptCode scriptCode = write_string r.
Proof.
  intros S; pose proof (stripped_length _ _ _ S) as [_ Hl]; unfold SerializeScriptCode, write_string.
  rewrite (count_separators_stripped _ _ _ S), Z.add_0_l, <- Hl by lia.
  f_equal; apply (write_pieces_stripped _ _ _ S _ []); lia.
Qed.

Lemma SerializeScriptCode_deleted (scriptCode : CScript) : parse scriptCode <> None ->
  exists r n, FindAndDelete scriptCode [opcode_value OP_CODESEPARATOR] = Some (r, n) /\
    SerializeScriptCode scriptCode = write_string r.
Proof.
  intros Hp; unfold parse in Hp; destruct (parse_fuel _ _) as [l |] eqn:E; [| contradiction].
  destruct (stripped_of_parse _ _ _ E) as (r & n & S); pose proof (stripped_length _ _ _ S) as [Hn Hl].
  pose proof (SerializeScriptCode_stripped _ _ _ S) as Es.
  pose proof (find_and_delete_stripped _ _ _ S _ [] [] 0 (le_n _)) as F; cbn [app] in F.
  unfold FindAndDelete; rewrite F.
  rewrite Z.add_0_l, Z.gtb_ltb; destruct (Z.ltb_spec 0 n) as [H0 | H0]; [exists r, n; auto |].
  exists scriptCode, n; split; [reflexivity |]; replace n with 0 in * by lia.
  rewrite Es; unfold write_string; f_equal; [f_equal; lia |].
  apply strip_none, S.
Qed.

(** * The optimised serializer is the reference one *)

Lemma flat_map_nth {A : Type} (f : A -> bytes) (l : list A) (d : A) :
  flat_map f l = flat_map (fun i => f (nth i l d)) (seq 0 (length l)).
Proof.
  assert (H : forall pre, flat_map f l = flat_map (fun i => f (nth i (pre ++ l) d)) (seq (length pre) (length l))).
  { induction l as [| x l IH]; intros pre; [reflexivity |].
    cbn [flat_map length seq]; rewrite app_nth2, Nat.sub_diag by lia; cbn [nth]; f_equal.
    rewrite (IH (pre ++ [x])), length_app, <- app_assoc, Nat.add_1_r; reflexivity. }
  apply (H []).
Qed.

Lemma flat_map_seq_ext (f g : nat -> bytes) (n : nat) : (forall i, (i < n)%nat -> f i = g i) ->
  flat_map f (seq 0 n) = flat_map g (seq 0 n).
Proof.
  intros H; rewrite !flat_map_concat_map; f_equal; apply map_ext_in; intros i Hi.
  apply H; apply in_seq in Hi; lia.
Qed.

Lemma nth_blank_sigs (code : CScript) (k : nat) (ins : list CTxIn) (i : nat) : (i < length ins)%nat ->
  nth i (blank_sigs code k ins) txin_null =
  let x := nth i ins txin_null in
  mkTxIn (prevout x) (if Nat.eqb i k then code else []) (nSequence x) (scriptWitness x).
Proof.
  intros Hi; unfold blank_sigs; cbv zeta.
  assert (Hu : forall (l : list CTxIn) j v, (i < length l)%nat ->
    nth i (upd l j v) txin_null = if Nat.eqb i j then v else nth i l txin_null).
  { clear; revert i; induction i as [| i IH]; intros [| y l] [| j] v Hl; cbn in *; try lia; auto.
    apply IH; lia. }
  rewrite Hu by (rewrite length_map; exact Hi).
  destruct (Nat.eqb_spec i k) as [-> | _]; [reflexivity |].
  rewrite (nth_indep _ _ (mkTxIn (prevout txin_null) [] (nSequence txin_null) (scriptWitness txin_null)))
    by (rewrite length_map; exact Hi).
  apply (map_nth (fun i => mkTxIn (prevout i) [] (nSequence i) (scriptWitness i))).
Qed.

Lemma nth_free_sequences (k : nat) (ins : list CTxIn) (i : nat) : (i < length ins)%nat ->
  nth i (free_sequences k 0 ins) txin_null =
  let x := nth i ins txin_null in
  mkTxIn (prevout x) (scriptSig x) (if Nat.eqb i k then nSequence x else 0) (scriptWitness x).
Proof.
  assert (H : forall j, (i < length ins)%nat -> nth i (free_sequences k j ins) txin_null =
    let x := nth i ins txin_null in
    mkTxIn (prevout x) (scriptSig x) (if Nat.eqb (j + i) k then nSequence x else 0) (scriptWitness x)).
  { revert i; induction ins as [| y ins IH]; intros [| i] j Hl; cbn [length free_sequences nth] in *; try lia.
    - rewrite Nat.add_0_r; destruct (j =? k)%nat; [destruct y |]; reflexivity.
    - rewrite IH by lia; rewrite <- Nat.add_succ_comm; reflexivity. }
  apply (H O).
Qed.

Lemma length_blank_sigs (code : CScript) (k : nat) (ins : list CTxIn) : length (blank_sigs code k ins) = length ins.
Proof. unfold blank_sigs; rewrite length_upd, length_map; reflexivity. Qed.

Lemma length_free_sequences (k : nat) (ins : list CTxIn) : forall i, length (free_sequences k i ins) = length ins.
Proof. induction ins; intros i; cbn [free_sequences length]; auto. Qed.

Section Equivalence.
Variable txTo : CTransaction.
Variable scriptCode deleted_code : CScript.
Variable nIn : nat.
Variable nHashType : Z.
Hypothesis Hin : (nIn < length (vin txTo))%nat.
Hypothesis Hcode : SerializeScriptCode scriptCode = write_string deleted_code.

(** The inputs the reference algorithm serializes, before it keeps only one. *)
Definition old_ins : list CTxIn :=
  let ins := blank_sigs deleted_code nIn (vin txTo) in
  if fHashNone nHashType || fHashSingle nHashType then free_sequences nIn 0 ins else ins.

Lemma length_old_ins : length old_ins = length (vin txTo).
Proof.
  unfold old_ins; destruct (_ || _); rewrite ?length_free_sequences, length_blank_sigs; reflexivity.
Qed.

Lemma nth_old_ins (i : nat) : (i < length (vin txTo))%nat ->
  write_txin (nth i old_ins txin_null) =
  let txin := nth i (vin txTo) txin_null in
  write_outpoint (prevout txin) ++
  (if negb (Nat.eqb i nIn) then write_string [] else SerializeScriptCode scriptCode) ++
  ser_writedata32 (if negb (Nat.eqb i nIn) && (fHashSingle nHashType || fHashNone nHashType) then 0
                   else nSequence txin).
Proof.
  intros Hi; unfold old_ins, write_txin; rewrite (orb_comm (fHashSingle _)).
  destruct (fHashNone nHashType || fHashSingle nHashType);
    rewrite ?nth_free_sequences by (rewrite ?length_blank_sigs; exact Hi);
    rewrite nth_blank_sigs by exact Hi; cbv zeta; cbn [prevout scriptSig nSequence];
    destruct (Nat.eqb i nIn); cbn [negb andb]; rewrite ?Hcode; reflexivity.
Qed.

Lemma serialize_ins : fAnyoneCanPay nHashType = false ->
  flat_map (SerializeInput txTo scriptCode nIn nHashType) (seq 0 (length (vin txTo))) =
  flat_map write_txin old_ins.
Proof.
  intros E; rewrite (flat_map_nth _ old_ins txin_null), length_old_ins.
  apply flat_map_seq_ext; intros i Hi; rewrite nth_old_ins by exact Hi.
  unfold SerializeInput; rewrite E; reflexivity.
Qed.

Lemma serialize_one_in : fAnyoneCanPay nHashType = true ->
  SerializeInput txTo scriptCode nIn nHashType 0 = write_txin (nth nIn old_ins txin_null).
Proof. intros E; rewrite nth_old_ins by exact Hin; unfold SerializeInput; rewrite E; reflexivity. Qed.

(** The outputs it serializes. *)
Definition old_outs : list CTxOut :=
  if fHashNone nHashType then []
  else if fHashSingle nHashType then repeat txout_null nIn ++ [nth nIn (vout txTo) txout_null]
  else vout txTo.

Lemma serialize_outs :
  let nOutputs := if fHashNone nHashType then 0%nat
                  else if fHashSingle nHashType then (nIn + 1)%nat else length (vout txTo) in
  length old_outs = nOutputs /\
  flat_map (SerializeOutput txTo nIn nHashType) (seq 0 nOutputs) = flat_map write_txout old_outs.
Proof.
  unfold old_outs; destruct (fHashNone nHashType); [split; reflexivity |].
  destruct (fHashSingle nHashType) eqn:E; cbv zeta.
  - assert (Hl : length (repeat txout_null nIn ++ [nth nIn (vout txTo) txout_null]) = (nIn + 1)%nat)
      by (rewrite length_app, repeat_length; reflexivity).
    split; [exact Hl |]; rewrite (flat_map_nth _ _ txout_null), Hl; apply flat_map_seq_ext; intros i Hi.
    unfold SerializeOutput; rewrite E; destruct (Nat.eqb_spec i nIn) as [-> | Hne]; cbn [negb andb].
    + rewrite app_nth2, repeat_length, Nat.sub_diag by (rewrite repeat_length; lia); reflexivity.
    + rewrite app_nth1, nth_repeat by (rewrite repeat_length; lia); reflexivity.
  - split; [reflexivity |]; rewrite (flat_map_nth write_txout _ txout_null).
    apply flat_map_seq_ext; intros i _; unfold SerializeOutput; rewrite E; reflexivity.
Qed.

Lemma SerializeTxTmp_old :
  SerializeTxTmp txTo scriptCode nIn nHashType =
  SerializeTransaction false
    (mkTx (if fAnyoneCanPay nHashType then [nth nIn old_ins txin_null] else old_ins) old_outs
          (nVersion txTo) (nLockTime txTo)).
Proof.
  unfold SerializeTxTmp, SerializeTransaction; cbn [andb negb Z.eqb Z.land nVersion vin vout nLockTime app].
  destruct serialize_outs as [Lo Eo]; cbv zeta in Lo, Eo; rewrite Eo, <- Lo; unfold write_list.
  rewrite <- !app_assoc; f_equal.
  destruct (fAnyoneCanPay nHashType) eqn:E.
  - cbn [seq flat_map length]; rewrite (serialize_one_in E); reflexivity.
  - rewrite (serialize_ins E), length_old_ins; reflexivity.
Qed.

End Equivalence.

Lemma old_tx_eq (scriptCode deleted_code : CScript) (n : Z) (txTo : CTransaction) (nIn : nat) (nHashType : Z) :
  FindAndDelete scriptCode [opcode_value OP_CODESEPARATOR] = Some (deleted_code, n) ->
  old_tx scriptCode txTo nIn nHashType =
  mkTx (if fAnyoneCanPay nHashType then [nth nIn (old_ins txTo deleted_code nIn nHashType) txin_null]
        else old_ins txTo deleted_code nIn nHashType)
       (old_outs txTo nIn nHashType) (nVersion txTo) (nLockTime txTo).
Proof.
  intros F; unfold old_tx, old_ins, old_outs; rewrite F; fold (fHashNone nHashType) (fHashSingle nHashType) (fAnyoneCanPay nHashType).
  destruct (fHashNone nHashType), (fHashSingle nHashType); reflexivity.
Qed.

(** * What a signature commits to *)

Section Commitment.
Variable Hash : bytes -> bytes.
Hypothesis Hash_size : forall x, is_blob 32 (Hash x).

(** The strings that are hashed for a signature over all inputs and outputs. *)
Definition hashed_strings (scriptCode : CScript) (tx : CTransaction) (nIn : nat) (nHashType amount : Z) (v : SigVersion) :
    list bytes :=
  match v with
  | SIGVERSION_BASE => [SerializeTxTmp tx scriptCode nIn nHashType ++ ser_writedata32 nHashType]
  | SIGVERSION_WITNESS_V0 =>
      [witness_preimage Hash scriptCode tx nIn nHashType amount None; flat_map (fun i => write_outpoint (prevout i)) (vin tx);
       flat_map (fun i => ser_writedata32 (nSequence i)) (vin tx); flat_map write_txout (vout tx)]
  end.

(** A hash type that signs every input and output. *)
Definition signs_all (nHashType : Z) : Prop :=
  in_s 32 nHashType /\ fAnyoneCanPay nHashType = false /\
  fHashSingle nHashType = false /\ fHashNone nHashType = false.

(** What can be signed: a valid transaction, an input of it and a script. *)
Record signable (scriptCode : CScript) (tx : CTransaction) (nIn : nat) (amount : Z) : Prop := {
  signable_tx : valid_tx tx;
  signable_in : (nIn < length (vin tx))%nat;
  signable_code : short_bytes scriptCode;
  signable_amount : in_s 64 amount
}.

(** Everything of a transaction but its signatures. *)
Definition same_effect (tx tx' : CTransaction) : Prop :=
  nVersion tx = nVersion tx' /\ nLockTime tx = nLockTime tx' /\ vout tx = vout tx' /\
  map prevout (vin tx) = map prevout (vin tx') /\ map nSequence (vin tx) = map nSequence (vin tx').

Lemma flat_map_map {A B : Type} (f : B -> bytes) (g : A -> B) (l : list A) :
  flat_map (fun x => f (g x)) l = flat_map f (map g l).
Proof. induction l; cbn; congruence. Qed.

Lemma valid_prevouts (tx : CTransaction) : valid_tx tx ->
  Forall valid_outpoint (map prevout (vin tx)) /\ Forall (in_u 32) (map nSequence (vin tx)).
Proof.
  intros [Hi _ _ _ _ _]; split; apply Forall_map; eapply Forall_impl; try exact Hi; intros i [Hv _]; apply Hv.
Qed.

Lemma outpoint_nonempty (p : COutPoint) : write_outpoint p <> [].
Proof. unfold write_outpoint; intros E; apply app_eq_nil in E; destruct E; discriminate. Qed.

Lemma txout_nonempty (o : CTxOut) : write_txout o <> [].
Proof. discriminate. Qed.

Lemma u32_nonempty (x : Z) : ser_writedata32 x <> [].
Proof. discriminate. Qed.

Lemma txin_valid (tx : CTransaction) (i : nat) : valid_tx tx -> (i < length (vin tx))%nat ->
  valid_txin (nth i (vin tx) txin_null).
Proof.
  intros [Hi _ _ _ _ _] Hl; apply (Forall_forall (fun i => valid_txin i /\ valid_stack (scriptWitness i)) (vin tx));
    [exact Hi | apply nth_In; exact Hl].
Qed.

Lemma witness_commits (c c' : CScript) (tx tx' : CTransaction) (n n' : nat) (ht ht' a a' : Z) :
  signable c tx n a -> signable c' tx' n' a' -> signs_all ht -> in_s 32 ht' ->
  injective_on Hash (hashed_strings c tx n ht a SIGVERSION_WITNESS_V0 ++ hashed_strings c' tx' n' ht' a' SIGVERSION_WITNESS_V0) ->
  witness_preimage Hash c tx n ht a None = witness_preimage Hash c' tx' n' ht' a' None ->
  ht = ht' /\ same_effect tx tx' /\ a = a' /\ c = c' /\
    prevout (nth n (vin tx) txin_null) = prevout (nth n' (vin tx') txin_null).
Proof.
  intros [Ht Hn Hc Ha] [Ht' Hn' Hc' Ha'] (Hi & F1 & F2 & F3) Hi' Inj E.
  pose proof (txin_valid tx n Ht Hn) as [Hp Hq]; pose proof (txin_valid tx' n' Ht' Hn') as [Hp' Hq'].
  assert (ht = ht') as <-.
  { unfold witness_preimage in E; rewrite !app_assoc in E; apply app_eq_tail in E; [| reflexivity].
    destruct E as [_ E]; apply (f_equal (fun l => l ++ [])) in E.
    apply (format_prefix ht ht' [] []) in E; tauto. }
  unfold witness_preimage in E; fold (fAnyoneCanPay ht) (fHashSingle ht) (fHashNone ht) in E.
  rewrite F1, F2, F3 in E; cbn [negb andb] in E.
  apply format_prefix in E; [| apply Ht | apply Ht']; destruct E as [E1 E].
  apply (format_prefix (read := read_bytes 32) (write := fun l => l)) in E; [| apply Hash_size | apply Hash_size].
  destruct E as [E2 E].
  apply (format_prefix (read := read_bytes 32) (write := fun l => l)) in E; [| apply Hash_size | apply Hash_size].
  destruct E as [E3 E].
  apply format_prefix in E; [| exact Hp | exact Hp']; destruct E as [E4 E].
  apply (format_prefix (read := read_vector)) in E; [| exact Hc | exact Hc']; destruct E as [E5 E].
  apply (format_prefix (read := read_i64)) in E; [| exact Ha | exact Ha']; destruct E as [E6 E].
  apply (format_prefix (read := ser_readdata32)) in E; [| apply Hq | apply Hq']; destruct E as [E7 E].
  apply (format_prefix (read := read_bytes 32) (write := fun l => l)) in E; [| apply Hash_size | apply Hash_size].
  destruct E as [E8 E]; apply (format_prefix (read := ser_readdata32)) in E; [| apply Ht | apply Ht'].
  destruct E as [E9 _].
  apply Inj in E2, E3, E8; try (cbn; tauto).
  rewrite !(flat_map_map write_outpoint prevout) in E2.
  rewrite !(flat_map_map ser_writedata32 nSequence) in E3.
  destruct (valid_prevouts tx Ht), (valid_prevouts tx' Ht').
  apply (format_flat_map_inj outpoint_nonempty) in E2; auto.
  apply (format_flat_map_inj (read := ser_readdata32) u32_nonempty) in E3; auto.
  apply (format_flat_map_inj txout_nonempty) in E8; [| apply Ht | apply Ht'].
  unfold same_effect; auto 10.
Qed.

Lemma stripped_bytes (pc r : bytes) (n : Z) : stripped pc r n -> is_bytes pc -> is_bytes r.
Proof.
  induction 1 as [| p r n S IH | pre pc op v r n G Hne S IH]; intros Hb; auto.
  - apply Forall_cons_iff in Hb; apply IH, Hb.
  - apply is_bytes_app in Hb; apply is_bytes_app; split; [| apply IH]; apply Hb.
Qed.

Lemma signed_code (c : CScript) : parse c <> None -> short_bytes c ->
  exists r, SerializeScriptCode c = write_string r /\ short_bytes r.
Proof.
  intros Hp [Hl Hb]; unfold parse in Hp; destruct (parse_fuel _ _) as [l |] eqn:E; [| contradiction].
  destruct (stripped_of_parse _ _ _ E) as (r & n & S); pose proof (stripped_length _ _ _ S) as [Hn Hr].
  exists r; split; [eapply SerializeScriptCode_stripped, S | split; [lia | eapply stripped_bytes; eauto]].
Qed.

Lemma map_blank_sigs {B : Type} (f : CTxIn -> B) (code : CScript) (n : nat) (ins : list CTxIn) :
  (forall p s s' q w, f (mkTxIn p s q w) = f (mkTxIn p s' q w)) ->
  map f (blank_sigs code n ins) = map f ins.
Proof.
  intros Hf; apply (nth_ext _ _ (f txin_null) (f txin_null)); rewrite !length_map, length_blank_sigs; [reflexivity |].
  intros i Hi; rewrite !map_nth, nth_blank_sigs by exact Hi; cbv zeta.
  destruct (nth i ins txin_null) as [p s q w]; apply Hf.
Qed.

Lemma blank_sigs_valid (code : CScript) (n : nat) (ins : list CTxIn) : short_bytes code ->
  Forall (fun i => valid_txin i /\ valid_stack (scriptWitness i)) ins ->
  Forall (fun i => valid_txin i /\ valid_stack (scriptWitness i)) (blank_sigs code n ins).
Proof.
  intros Hc Hi; apply Forall_nth; intros i d Hl; rewrite length_blank_sigs in Hl.
  rewrite (nth_indep _ d txin_null) by (rewrite length_blank_sigs; exact Hl).
  rewrite nth_blank_sigs by exact Hl; cbv zeta.
  pose proof (proj1 (Forall_forall _ _) Hi _ (nth_In _ txin_null Hl)) as [(V1 & V2 & V3) Vw].
  cbn [scriptWitness]; split; [| exact Vw]; split; [exact V1 |]; split; [| exact V3].
  cbn [scriptSig]; destruct (i =? n)%nat; [exact Hc | split; [unfold MAX_SIZE; cbn; lia | constructor]].
Qed.

Lemma base_commits (c c' : CScript) (tx tx' : CTransaction) (n n' : nat) (ht ht' a a' : Z) :
  signable c tx n a -> signable c' tx' n' a' -> signs_all ht -> in_s 32 ht' ->
  parse c <> None -> parse c' <> None ->
  SerializeTxTmp tx c n ht ++ ser_writedata32 ht = SerializeTxTmp tx' c' n' ht' ++ ser_writedata32 ht' ->
  ht = ht' /\ same_effect tx tx'.
Proof.
  intros [Ht Hn Hc _] [Ht' Hn' Hc' _] (Hi & F1 & F2 & F3) Hi' Hp Hp' E.
  apply app_eq_tail in E; [| reflexivity]; destruct E as [E Eh].
  assert (ht = ht') as <-.
  { apply (f_equal (fun l => l ++ [])) in Eh; apply (format_prefix ht ht' [] []) in Eh; tauto. }
  split; [reflexivity |].
  destruct (signed_code c Hp Hc) as (r & Er & Hr), (signed_code c' Hp' Hc') as (r' & Er' & Hr').
  rewrite (SerializeTxTmp_old tx c r n ht Hn Er), (SerializeTxTmp_old tx' c' r' n' ht Hn' Er') in E.
  unfold old_ins, old_outs in E; rewrite F1, F2, F3, !SerializeTransaction_form in E; cbn [andb orb] in E.
  apply (f_equal (fun l => UnserializeTransaction false (l ++ []))) in E.
  rewrite !read_basic in E; try (right; right; reflexivity).
  - injection E as Ei Eo Ev El; unfold same_effect; split_all; auto.
    + apply (f_equal (map prevout)) in Ei; rewrite !map_map in Ei.
      change (fun x => prevout (strip x)) with prevout in Ei; rewrite !map_blank_sigs in Ei by reflexivity; exact Ei.
    + apply (f_equal (map nSequence)) in Ei; rewrite !map_map in Ei.
      change (fun x => nSequence (strip x)) with nSequence in Ei; rewrite !map_blank_sigs in Ei by reflexivity; exact Ei.
  - destruct Ht'; constructor; cbn [vin vout nVersion nLockTime]; rewrite ?length_blank_sigs; auto using blank_sigs_valid.
  - destruct Ht; constructor; cbn [vin vout nVersion nLockTime]; rewrite ?length_blank_sigs; auto using blank_sigs_valid.
Qed.

End Commitment.

(** * Theorems *)

(** C24: the optimised signature hash is the reference algorithm: for every
    hash type and every script that reads to its end, serializing the
    modified fields in place hashes the same bytes as copying the
    transaction, deleting the code separators and editing the copy; and the
    precomputed hashes never change the result. *)
Theorem SignatureHash_reference (Hash : bytes -> bytes) (scriptCode : CScript) (tx : CTransaction)
    (nIn : nat) (nHashType amount : Z) :
  (nIn < length (vin tx))%nat -> parse scriptCode <> None ->
  (forall cache, SignatureHash Hash scriptCode tx nIn nHashType amount SIGVERSION_BASE cache =
     Some (SignatureHashOld Hash scriptCode tx nIn nHashType)) /\
  SignatureHash Hash scriptCode tx nIn nHashType amount SIGVERSION_WITNESS_V0 (Some (precompute Hash tx)) =
  SignatureHash Hash scriptCode tx nIn nHashType amount SIGVERSION_WITNESS_V0 None.
Proof.
  intros Hn Hp; unfold SignatureHash, SignatureHashOld; rewrite (proj2 (Nat.ltb_lt _ _) Hn); cbn [negb]; split.
  - intros cache; destruct (_ && _); [reflexivity |].
    destruct (SerializeScriptCode_deleted scriptCode Hp) as (r & n & F & Es).
    rewrite (SerializeTxTmp_old tx scriptCode r nIn nHashType Hn Es), (old_tx_eq _ _ _ _ _ _ F); reflexivity.
  - unfold witness_preimage, precompute; destruct (HasWitness tx); reflexivity.
Qed.

Lemma SignatureHash_reference_witness :
  SignatureHash (fun x => x) [171; 172] tx_example 0 3 5 SIGVERSION_BASE None =
  Some (SignatureHashOld (fun x => x) [171; 172] tx_example 0 3).
Proof. apply (SignatureHash_reference (fun x => x) [171; 172] tx_example 0 3 5); cbn; [lia | discriminate]. Defined.

(** C23: a signature hash that covers all inputs and outputs commits to the
    whole effect of the transaction: two transactions with the same hash have
    the same version, lock time, outputs, spent outpoints and sequence
    numbers, if none of the strings hashed for the two signatures collide;
    for witness programs it also commits to the amount spent, the script and
    the input. *)
Theorem SignatureHash_commits (Hash : bytes -> bytes) (c c' : CScript) (tx tx' : CTransaction)
    (n n' : nat) (ht ht' a a' : Z) (v : SigVersion) (h : bytes) :
  (forall x, is_blob 32 (Hash x)) ->
  signable c tx n a -> signable c' tx' n' a' -> signs_all ht -> signs_all ht' ->
  parse c <> None -> parse c' <> None ->
  injective_on Hash (hashed_strings Hash c tx n ht a v ++ hashed_strings Hash c' tx' n' ht' a' v) ->
  SignatureHash Hash c tx n ht a v None = Some h -> SignatureHash Hash c' tx' n' ht' a' v None = Some h ->
  ht = ht' /\ same_effect tx tx' /\
  (v = SIGVERSION_WITNESS_V0 -> a = a' /\ c = c' /\
    prevout (nth n (vin tx) txin_null) = prevout (nth n' (vin tx') txin_null)).
Proof.
  intros Hh S S' A A' Hp Hp' Inj; unfold SignatureHash.
  rewrite (proj2 (Nat.ltb_lt _ _) (signable_in _ _ _ _ S)), (proj2 (Nat.ltb_lt _ _) (signable_in _ _ _ _ S')).
  pose proof A as (_ & _ & A2 & _); pose proof A' as (Ai' & _ & A2' & _); cbn [negb].
  fold (fHashSingle ht) (fHashSingle ht'); rewrite A2, A2'; cbn [andb].
  assert (Hsome : forall x y : bytes, Some x = Some h -> Some y = Some h -> x = y) by congruence.
  destruct v; intros E E'; pose proof (Hsome _ _ E E') as H;
    apply Inj in H; try (cbn; tauto).
  - destruct (base_commits c c' tx tx' n n' ht ht' a a') as [E1 E2]; auto.
    split_all; auto; discriminate.
  - destruct (witness_commits Hash Hh c c' tx tx' n n' ht ht' a a') as (E1 & E2 & E3); auto.
Qed.

(** With the node's double SHA-256, for two transactions that differ in the
    script of an input. *)
Lemma SignatureHash_commits_witness :
  let Hash := fun x => Hashes.Hash (zeros 64) [x] in
  let tx' := mkTx (map (fun i => mkTxIn (prevout i) [1] (nSequence i) (scriptWitness i)) (vin tx_example))
               (vout tx_example) (nVersion tx_example) (nLockTime tx_example) in
  signable [172] tx_example 0 7 /\ same_effect tx_example tx'.
Proof.
  intros Hash tx'.
  assert (C : short_bytes [172]) by (split; [unfold MAX_SIZE; cbn; lia | repeat constructor; unfold in_u; lia]).
  assert (S : signable [172] tx_example 0 7) by (constructor; [exact tx_example_valid | cbn; lia | exact C | unfold in_s; lia]).
  assert (S' : signable [172] tx' 0 7).
  { constructor; [| cbn; lia | exact C | unfold in_s; lia].
    split; cbn; try (unfold MAX_SIZE; lia); try (unfold in_s, in_u; lia);
      repeat constructor; cbn; unfold in_u, in_s, MAX_SIZE, SEQUENCE_FINAL; lia. }
  assert (A : signs_all 1) by (repeat split; unfold in_s; lia).
  split; [exact S |].
  refine (proj1 (proj2 (SignatureHash_commits Hash [172] [172] tx_example tx' 0 0 1 1 7 7 SIGVERSION_WITNESS_V0
    (Hash (witness_preimage Hash [172] tx_example 0 1 7 None)) _ S S' A A _ _ _ _ _))).
  - intros x. apply sha256_output_blob.
  - discriminate.
  - discriminate.
  - apply injective_onb_ok; vm_compute; reflexivity.
  - reflexivity.
  - vm_compute; reflexivity.
Defined.
