(* ===== verification/VerifyScript.v ===== *)
(** Spending an output (src/script/interpreter.cpp: [VerifyScript],
    [VerifyWitnessProgram], [CountWitnessSigOps]): the scripts of an input and
    of the output it spends are run in turn, with the pay-to-script-hash and
    witness program rules on top.

    A witness is its list of stack elements, the last one on top, as in the
    code; stacks of the interpreter have their top first. *)

From Stdlib Require Import ZArith List Bool Lia Arith.
From S2P Require Import Prelude Serialize Script Standard Transaction Interpreter.
Import ListNotations.
Open Scope Z_scope.

(** How a call ends: true, false with an error, or a failed assertion. *)
Inductive verdict := Success | Failure (e : ScriptError) | AssertFailed.

Section VerifyScript.
Context {Checker : Type} `{BaseSignatureChecker Checker} `{HashFunctions}.
Variable CheckLowS : bytes -> bool.
Variable flags : Z.
Variable checker : Checker.

(** [EvalScript] as a total function: its fuel always suffices
    ([EvalScript_total]). *)
Definition eval (sigversion : SigVersion) (s : list valtype) (script : CScript)
  : result ScriptError (list valtype) :=
  match EvalScript CheckLowS flags checker sigversion s script with
  | Some r => r
  | None => Err SCRIPT_ERR_UNKNOWN_ERROR
  end.

(** [stack.back()] as a boolean; an empty stack fails as well. *)
Definition top_true (s : list valtype) : bool :=
  match s with [] => false | x :: _ => CastToBool x end.

Definition p2wpkh_code (program : bytes) : CScript :=
  push_opcode (push_opcode (push_data (push_opcode (push_opcode [] OP_DUP) OP_HASH160) program)
    OP_EQUALVERIFY) OP_CHECKSIG.

Definition VerifyWitnessProgram (witness : list bytes) (witversion : Z) (program : bytes)
  : result ScriptError unit :=
  if witversion =? 0 then
    let! r :=
      if size program =? 32 then
        match rev witness with
        | [] => Err SCRIPT_ERR_WITNESS_PROGRAM_WITNESS_EMPTY
        | scriptPubKey :: s =>
            if negb (bytes_eqb (CSHA256 scriptPubKey) program)
            then Err SCRIPT_ERR_WITNESS_PROGRAM_MISMATCH
            else Ok (scriptPubKey, s)
        end
      else if size program =? 20 then
        if negb (Nat.eqb (length witness) 2) then Err SCRIPT_ERR_WITNESS_PROGRAM_MISMATCH
        else Ok (p2wpkh_code program, rev witness)
      else Err SCRIPT_ERR_WITNESS_PROGRAM_WRONG_LENGTH in
    let '(scriptPubKey, s) := r in
    if existsb (fun x => size x >? MAX_SCRIPT_ELEMENT_SIZE) s then Err SCRIPT_ERR_PUSH_SIZE
    else
      let! s := eval SIGVERSION_WITNESS_V0 s scriptPubKey in
      if negb (Nat.eqb (length s) 1) then Err SCRIPT_ERR_EVAL_FALSE
      else if negb (top_true s) then Err SCRIPT_ERR_EVAL_FALSE
      else Ok tt
  else if flag flags SCRIPT_VERIFY_DISCOURAGE_UPGRADABLE_WITNESS_PROGRAM
  then Err SCRIPT_ERR_DISCOURAGE_UPGRADABLE_WITNESS_PROGRAM
  else Ok tt.

(** [stack.resize(1)] keeps the bottom element. *)
Definition resize_1 (s : list valtype) : list valtype := [last s []].

(** The bare witness program rule: whether there was one, and the stack. *)
Definition verify_bare_witness (scriptSig scriptPubKey : CScript) (witness : list bytes) (s : list valtype)
  : result ScriptError (bool * list valtype) :=
  if flag flags SCRIPT_VERIFY_WITNESS then
    match IsWitnessProgram scriptPubKey with
    | Some (witnessversion, witnessprogram) =>
        if negb (size scriptSig =? 0) then Err SCRIPT_ERR_WITNESS_MALLEATED
        else
          let! _ := VerifyWitnessProgram witness witnessversion witnessprogram in
          Ok (true, resize_1 s)
    | None => Ok (false, s)
    end
  else Ok (false, s).

(** The redeem script of a pay-to-script-hash output, run on what lies under
    it on the stack the scriptSig left. *)
Definition verify_p2sh (scriptSig : CScript) (witness : list bytes) (pubKey2 : CScript) (s : list valtype)
  (hadWitness : bool) : result ScriptError (bool * list valtype) :=
  let! s := eval SIGVERSION_BASE s pubKey2 in
  if negb (top_true s) then Err SCRIPT_ERR_EVAL_FALSE
  else if flag flags SCRIPT_VERIFY_WITNESS then
    match IsWitnessProgram pubKey2 with
    | Some (witnessversion, witnessprogram) =>
        if negb (bytes_eqb scriptSig (push_data [] pubKey2)) then Err SCRIPT_ERR_WITNESS_MALLEATED_P2SH
        else
          let! _ := VerifyWitnessProgram witness witnessversion witnessprogram in
          Ok (true, resize_1 s)
    | None => Ok (hadWitness, s)
    end
  else Ok (hadWitness, s).

(** The checks after the scripts have run. *)
Definition verify_end (witness : list bytes) (hadWitness : bool) (s : list valtype) : verdict :=
  let p2sh := flag flags SCRIPT_VERIFY_P2SH in
  let segwit := flag flags SCRIPT_VERIFY_WITNESS in
  if flag flags SCRIPT_VERIFY_CLEANSTACK && negb (p2sh && segwit) then AssertFailed
  else if flag flags SCRIPT_VERIFY_CLEANSTACK && negb (Nat.eqb (length s) 1)
  then Failure SCRIPT_ERR_CLEANSTACK
  else if segwit && negb p2sh then AssertFailed
  else if segwit && negb hadWitness && negb (witness_IsNull witness)
  then Failure SCRIPT_ERR_WITNESS_UNEXPECTED
  else Success.

Definition VerifyScript (scriptSig scriptPubKey : CScript) (witness : list bytes) : verdict :=
  if flag flags SCRIPT_VERIFY_SIGPUSHONLY && negb (IsPushOnly scriptSig)
  then Failure SCRIPT_ERR_SIG_PUSHONLY
  else
    match eval SIGVERSION_BASE [] scriptSig with
    | Err e => Failure e
    | Ok stackCopy =>
        match eval SIGVERSION_BASE stackCopy scriptPubKey with
        | Err e => Failure e
        | Ok s =>
            if negb (top_true s) then Failure SCRIPT_ERR_EVAL_FALSE
            else
              match verify_bare_witness scriptSig scriptPubKey witness s with
              | Err e => Failure e
              | Ok (hadWitness, s) =>
                  if flag flags SCRIPT_VERIFY_P2SH && IsPayToScriptHash scriptPubKey then
                    if negb (IsPushOnly scriptSig) then Failure SCRIPT_ERR_SIG_PUSHONLY
                    else
                      match stackCopy with
                      | [] => AssertFailed
                      | pubKeySerialized :: s =>
                          match verify_p2sh scriptSig witness pubKeySerialized s hadWitness with
                          | Err e => Failure e
                          | Ok (hadWitness, s) => verify_end witness hadWitness s
                          end
                      end
                  else verify_end witness hadWitness s
              end
        end
    end.

End VerifyScript.

(** * Counting the signature operations of a witness *)

Definition WitnessSigOps (witversion : Z) (witprogram : bytes) (witness : list bytes) : Z :=
  if witversion =? 0 then
    if size witprogram =? 20 then 1
    else if (size witprogram =? 32) && (0 <? Z.of_nat (length witness))
    then GetSigOpCount (last witness []) true
    else 0
  else 0.

(** [while (pc < end()) GetOp(pc, opcode, data)]: the data of the last
    operation; the script has been found to be push-only. *)
Fixpoint last_push (fuel : nat) (pc data : bytes) : bytes :=
  match fuel, pc with
  | O, _ => data
  | _, [] => data
  | S fuel', _ =>
      match GetOp2 pc with
      | Some (_, vch, pc') => last_push fuel' pc' vch
      | None => []
      end
  end.

(** [None] where the assertion on the flags fails. *)
Definition CountWitnessSigOps (scriptSig scriptPubKey : CScript) (witness : list bytes) (flags : Z) : option Z :=
  if negb (flag flags SCRIPT_VERIFY_WITNESS) then Some 0
  else if negb (flag flags SCRIPT_VERIFY_P2SH) then None
  else
    match IsWitnessProgram scriptPubKey with
    | Some (witnessversion, witnessprogram) => Some (WitnessSigOps witnessversion witnessprogram witness)
    | None =>
        if IsPayToScriptHash scriptPubKey && IsPushOnly scriptSig then
          match IsWitnessProgram (last_push (length scriptSig) scriptSig []) with
          | Some (witnessversion, witnessprogram) => Some (WitnessSigOps witnessversion witnessprogram witness)
          | None => Some 0
          end
        else Some 0
    end.

(** * Rule changes are soft forks *)

Section SoftFork.
Context {Checker : Type} `{BaseSignatureChecker Checker} `{HashFunctions}.
Variable CheckLowS : bytes -> bool.
Variables a b : Z.
Variable checker : Checker.
Hypothesis Hab : Z.land a b = a.
Hypothesis Hlocks : locks_enforced a.

(** The combinations of flags the assertions of [VerifyScript] allow. *)
Definition flags_consistent (flags : Z) : Prop :=
  (flag flags SCRIPT_VERIFY_CLEANSTACK = true -> flag flags SCRIPT_VERIFY_WITNESS = true) /\
  (flag flags SCRIPT_VERIFY_WITNESS = true -> flag flags SCRIPT_VERIFY_P2SH = true).

Hypothesis Hcons : flags_consistent a.

Lemma eval_mono (v : SigVersion) (s s' : list valtype) (script : CScript) :
  eval CheckLowS b checker v s script = Ok s' -> eval CheckLowS a checker v s script = Ok s'.
Proof.
  unfold eval; destruct (EvalScript CheckLowS b checker v s script) as [[r | e] |] eqn:E; try discriminate.
  intros [= <-]; rewrite (EvalScript_mono CheckLowS a b checker v Hab Hlocks _ _ _ E); reflexivity.
Qed.

Lemma VerifyWitnessProgram_mono (witness : list bytes) (version : Z) (program : bytes) :
  VerifyWitnessProgram CheckLowS b checker witness version program = Ok tt ->
  VerifyWitnessProgram CheckLowS a checker witness version program = Ok tt.
Proof.
  unfold VerifyWitnessProgram; destruct (version =? 0).
  - intros R; apply bind_ok in R; destruct R as ([code s] & -> & R); cbn [bind].
    destruct (existsb _ s); [discriminate |]; apply bind_ok in R; destruct R as (s1 & R1 & R).
    rewrite (eval_mono _ _ _ _ R1); exact R.
  - intros R; case_flag Hab; auto.
Qed.

Lemma verify_bare_witness_mono (sig key : CScript) (witness : list bytes) (s : list valtype) (r : bool * list valtype) :
  verify_bare_witness CheckLowS b checker sig key witness s = Ok r ->
  exists r', verify_bare_witness CheckLowS a checker sig key witness s = Ok r' /\
    (flag a SCRIPT_VERIFY_WITNESS = true -> r' = r).
Proof.
  unfold verify_bare_witness; intros R; case_flag Hab; [| eexists; split; [reflexivity | discriminate] ..].
  destruct (IsWitnessProgram key) as [[v p] |]; [| eauto].
  destruct (negb _); [discriminate |]; apply bind_ok in R; destruct R as ([] & R1 & R).
  rewrite (VerifyWitnessProgram_mono _ _ _ R1); eauto.
Qed.

Lemma verify_p2sh_mono (sig : CScript) (witness : list bytes) (redeem : CScript) (s : list valtype) (had had' : bool)
    (r : bool * list valtype) :
  (flag a SCRIPT_VERIFY_WITNESS = true -> had' = had) ->
  verify_p2sh CheckLowS b checker sig witness redeem s had = Ok r ->
  exists r', verify_p2sh CheckLowS a checker sig witness redeem s had' = Ok r' /\
    (flag a SCRIPT_VERIFY_WITNESS = true -> r' = r).
Proof.
  unfold verify_p2sh; intros Hw R; apply bind_ok in R; destruct R as (s1 & R1 & R).
  rewrite (eval_mono _ _ _ _ R1); cbn [bind]; destruct (negb (top_true s1)); [discriminate |].
  destruct (flag a SCRIPT_VERIFY_WITNESS) eqn:E; [| eexists; split; [reflexivity | discriminate]].
  rewrite (flag_mono a b _ Hab E) in R; rewrite (Hw eq_refl).
  destruct (IsWitnessProgram redeem) as [[v p] |]; [| eauto].
  destruct (negb _); [discriminate |]; apply bind_ok in R; destruct R as ([] & R2 & R).
  rewrite (VerifyWitnessProgram_mono _ _ _ R2); eauto.
Qed.

Lemma verify_end_mono (witness : list bytes) (had had' : bool) (s s' : list valtype) :
  (flag a SCRIPT_VERIFY_WITNESS = true -> had' = had /\ s' = s) ->
  verify_end b witness had s = Success -> verify_end a witness had' s' = Success.
Proof.
  destruct Hcons as [Hc Hw]; intros Hs R; unfold verify_end in *.
  destruct (flag a SCRIPT_VERIFY_WITNESS) eqn:Ew.
  - destruct (Hs eq_refl) as [-> ->]; rewrite (Hw eq_refl); rewrite (flag_mono a b _ Hab Ew) in R.
    rewrite (flag_mono a b _ Hab (Hw eq_refl)) in R; cbn [andb negb] in *.
    rewrite andb_false_r in *; case_flag Hab; auto.
    destruct (negb (length s =? 1)%nat); [discriminate | exact R].
  - destruct (flag a SCRIPT_VERIFY_CLEANSTACK) eqn:Ec; [discriminate (Hc eq_refl) |]; reflexivity.
Qed.

Lemma VerifyScript_mono (scriptSig scriptPubKey : CScript) (witness : list bytes) :
  VerifyScript CheckLowS b checker scriptSig scriptPubKey witness = Success ->
  VerifyScript CheckLowS a checker scriptSig scriptPubKey witness = Success.
Proof.
  unfold VerifyScript; intros R.
  assert (Hpush : flag a SCRIPT_VERIFY_SIGPUSHONLY && negb (IsPushOnly scriptSig) = false).
  { case_flag Hab; auto; destruct (IsPushOnly scriptSig); [reflexivity | discriminate]. }
  rewrite Hpush; destruct (flag b SCRIPT_VERIFY_SIGPUSHONLY && _); [discriminate |].
  destruct (eval CheckLowS b checker SIGVERSION_BASE [] scriptSig) as [s0 |] eqn:E0; [| discriminate].
  rewrite (eval_mono _ _ _ _ E0).
  destruct (eval CheckLowS b checker SIGVERSION_BASE s0 scriptPubKey) as [s1 |] eqn:E1; [| discriminate].
  rewrite (eval_mono _ _ _ _ E1); destruct (negb (top_true s1)); [discriminate |].
  destruct (verify_bare_witness CheckLowS b checker scriptSig scriptPubKey witness s1) as [[h2 s2] |] eqn:E2; [| discriminate].
  destruct (verify_bare_witness_mono _ _ _ _ _ E2) as ([h2' s2'] & -> & Hr).
  destruct (flag a SCRIPT_VERIFY_P2SH) eqn:Ep.
  - rewrite (flag_mono a b _ Hab Ep) in R; cbn [andb] in *.
    destruct (IsPayToScriptHash scriptPubKey).
    + destruct (negb _); [discriminate |]; destruct s0 as [| redeem s0]; [discriminate |].
      destruct (verify_p2sh CheckLowS b checker scriptSig witness redeem s0 h2) as [[h3 s3] |] eqn:E3; [| discriminate].
      assert (Hw2 : flag a SCRIPT_VERIFY_WITNESS = true -> h2' = h2)
        by (intros E; specialize (Hr E); congruence).
      destruct (verify_p2sh_mono _ _ _ _ _ h2' _ Hw2 E3) as ([h3' s3'] & -> & Hr').
      apply (verify_end_mono witness h3 h3' s3 s3'); [intros E; specialize (Hr' E); split; congruence | exact R].
    + apply (verify_end_mono witness h2 h2' s2 s2'); [intros E; specialize (Hr E); split; congruence | exact R].
  - cbn [andb]; destruct Hcons as [Hc Hw]; unfold verify_end.
    destruct (flag a SCRIPT_VERIFY_WITNESS); [specialize (Hw eq_refl); congruence |].
    destruct (flag a SCRIPT_VERIFY_CLEANSTACK); [discriminate (Hc eq_refl) |]; reflexivity.
Qed.

End SoftFork.

(** * Running scripts symbolically *)

Section Runs.
Context {Checker : Type} `{BaseSignatureChecker Checker} `{HashFunctions}.
Variable CheckLowS : bytes -> bool.
Variable flags : Z.
Variable checker : Checker.
Variable v : SigVersion.

(** The loop ends with [r], whatever fuel that takes. *)
Definition runs (pc : bytes) (st : eval_state) (r : result ScriptError eval_state) : Prop :=
  exists fuel, eval_loop CheckLowS flags checker v fuel pc st = Some r.

Lemma eval_loop_more (fuel : nat) : forall fuel' pc st r, (fuel <= fuel')%nat ->
  eval_loop CheckLowS flags checker v fuel pc st = Some r ->
  eval_loop CheckLowS flags checker v fuel' pc st = Some r.
Proof.
  induction fuel as [| fuel IH]; intros [| fuel'] [| c pc] st r Hl; cbn [eval_loop]; auto; try lia; try discriminate.
  destruct (eval_step _ _ _ _ _ _) as [[pc' st'] |]; auto; apply IH; lia.
Qed.

Lemma runs_eval (s : list valtype) (script : CScript) (r : result ScriptError eval_state) :
  size script <= MAX_SCRIPT_SIZE -> runs script (mkEval s [] [] 0 script) r ->
  eval CheckLowS flags checker v s script =
  let! st := r in match vfExec st with [] => Ok (stack st) | _ => Err SCRIPT_ERR_UNBALANCED_CONDITIONAL end.
Proof.
  intros Hs (fuel & R); unfold eval, EvalScript; rewrite Z.gtb_ltb, (proj2 (Z.ltb_ge _ _)) by exact Hs.
  destruct (eval_loop_total CheckLowS flags checker v (length script) script (mkEval s [] [] 0 script) (le_n _)) as (r' & R').
  rewrite R'; apply (eval_loop_more _ (fuel + length script)) in R; [| lia].
  apply (eval_loop_more _ (fuel + length script)) in R'; [| lia].
  assert (r = r') as <- by congruence; destruct r as [st | e]; cbn [bind]; [destruct (vfExec st) |]; reflexivity.
Qed.

Lemma runs_end (st : eval_state) : runs [] st (Ok st).
Proof. exists O; reflexivity. Qed.

Lemma runs_step (pc pc' : bytes) (st st' : eval_state) (r : result ScriptError eval_state) :
  eval_step CheckLowS flags checker v pc st = Ok (pc', st') -> runs pc' st' r -> runs pc st r.
Proof.
  intros E (fuel & R); exists (S fuel); destruct pc as [| c pc]; [discriminate E |].
  cbn [eval_loop]; rewrite E; exact R.
Qed.

Lemma runs_error (c : Z) (pc : bytes) (st : eval_state) (e : ScriptError) :
  eval_step CheckLowS flags checker v (c :: pc) st = Err e -> runs (c :: pc) st (Err e).
Proof. intros E; exists 1%nat; cbn [eval_loop]; rewrite E; reflexivity. Qed.

(** A state of a straight-line script with room for one more element. *)
Definition plain (st : eval_state) : Prop :=
  vfExec st = [] /\ altstack st = [] /\ Z.of_nat (length (stack st)) < MAX_STACK_SIZE.

Lemma push_data_short (x : bytes) : size x <= 75 -> push_data [] x = size x :: x.
Proof.
  intros Hx; unfold push_data; fold (size x); rewrite (proj2 (Z.ltb_lt _ _)); [reflexivity |].
  change (opcode_value OP_PUSHDATA1) with 76; lia.
Qed.

(** A direct push. *)
Lemma step_push (x rest : bytes) (st : eval_state) : 2 <= size x <= 75 -> plain st ->
  eval_step CheckLowS flags checker v (push_data [] x ++ rest) st = Ok (rest, push_stack st x).
Proof.
  intros Hx (Hv & Ha & Hl); apply eval_step_ok; exists (size x), x.
  assert (Hg : GetOp2 (push_data [] x ++ rest) = Some (push_op x, x, rest))
    by (apply GetOp2_push; unfold size in Hx; lia).
  assert (Ho : push_op x = size x).
  { unfold push_op; fold (size x); rewrite (proj2 (Z.ltb_lt _ _)); [reflexivity |].
    change (opcode_value OP_PUSHDATA1) with 76; lia. }
  rewrite Ho in Hg.
  assert (Hop : size x <= 75) by lia.
  split; [exact Hg |]; split; [unfold MAX_SCRIPT_ELEMENT_SIZE; lia |].
  split; [change (opcode_value OP_16) with 96; lia |].
  split; [assert (Hi : forall n, (n <= 75)%nat -> is_disabled (opcode_of (Z.of_nat n)) = false)
            by (intros n Hn; do 76 (destruct n as [| n]; [reflexivity |]); lia);
          unfold size in *; apply Hi; lia |].
  assert (Hc : count_op (size x) st = st)
    by (unfold count_op; rewrite Z.gtb_ltb, (proj2 (Z.ltb_ge _ _)); [reflexivity | change (opcode_value OP_16) with 96; lia]).
  rewrite Hc; unfold exec_instr; rewrite Hv; cbn [forallb andb].
  rewrite (proj2 (Z.leb_le _ _)) by (change (opcode_value OP_PUSHDATA4) with 78; lia).
  assert (Hm : CheckMinimalPush x (size x) = true).
  { unfold CheckMinimalPush; rewrite (proj2 (Z.eqb_neq (size x) 0)), (proj2 (Z.eqb_neq (size x) 1)) by lia.
    cbn [andb]; rewrite (proj2 (Z.leb_le _ _)) by lia; apply Z.eqb_refl. }
  rewrite Hm, andb_false_r; split; [reflexivity |]; unfold MAX_STACK_SIZE in *; cbn [push_stack set_stack stack altstack length].
  rewrite Ha; cbn [length]; lia.
Qed.

(** An opcode above the small numbers that is executed. *)
Lemma step_op (op : opcodetype) (rest : bytes) (st : eval_state) :
  opcode_of op = op -> OP_16 < op -> op <> OP_HEMP_ASSET :> Z -> is_disabled op = false ->
  vfExec st = [] -> nOpCount st < MAX_OPS_PER_SCRIPT ->
  eval_step CheckLowS flags checker v (opcode_value op :: rest) st =
  let! st' := exec_op CheckLowS flags checker v op true rest (set_nOpCount st (nOpCount st + 1)) in
  if Z.of_nat (length (stack st') + length (altstack st')) >? MAX_STACK_SIZE
  then Err SCRIPT_ERR_STACK_SIZE else Ok (rest, st').
Proof.
  intros Hop H16 Ha Hd Hv Hn; unfold eval_step.
  assert (Hg : GetOp2 (opcode_value op :: rest) = Some (opcode_value op, [], rest)).
  { cbn [GetOp2]; rewrite (proj2 (Z.leb_gt _ _)), (proj2 (Z.eqb_neq _ _)); auto.
    change (opcode_value OP_PUSHDATA4) with 78; change (opcode_value OP_16) with 96 in H16; lia. }
  rewrite Hg; change (size [] >? MAX_SCRIPT_ELEMENT_SIZE) with false; cbv iota zeta.
  rewrite !(Z.gtb_ltb op), (proj2 (Z.ltb_lt _ _) H16); cbn [andb set_nOpCount nOpCount].
  rewrite Z.gtb_ltb, (proj2 (Z.ltb_ge _ _)) by lia.
  rewrite Hop, Hd; f_equal; unfold exec_instr; cbn [set_nOpCount vfExec]; rewrite Hv; cbn [forallb andb orb].
  rewrite (proj2 (Z.leb_gt _ _)) by (change (opcode_value OP_PUSHDATA4) with 78; change (opcode_value OP_16) with 96 in H16; lia).
  cbn [andb orb]; rewrite Hop; reflexivity.
Qed.

End Runs.

(** * Paying to a key hash *)

Lemma p2wpkh_code_bytes (h : bytes) :
  p2wpkh_code h = opcode_value OP_DUP :: opcode_value OP_HASH160 :: push_data [] h ++
    [opcode_value OP_EQUALVERIFY; opcode_value OP_CHECKSIG].
Proof. unfold p2wpkh_code, push_opcode, push_data; cbn [app]; rewrite <- !app_assoc; reflexivity. Qed.

Lemma p2pkh_code (h : bytes) : GetScriptForDestination (CKeyID h) = p2wpkh_code h.
Proof. reflexivity. Qed.

Section KeyHash.
Context {Checker : Type} `{BaseSignatureChecker Checker} `{HashFunctions}.
Variable CheckLowS : bytes -> bool.
Variable flags : Z.
Variable checker : Checker.

(** Open the step of an executed opcode. *)
Ltac open_op v :=
  rewrite (step_op CheckLowS flags checker v);
  [| reflexivity | reflexivity | discriminate | reflexivity | reflexivity | unfold MAX_OPS_PER_SCRIPT; cbn; lia].
Ltac run_op v := eapply runs_step; [open_op v; cbn -[opcode_value push_data]; reflexivity |].

(** The key-hash script on a key and a signature. *)
Lemma eval_key_hash (v : SigVersion) (key sig h : bytes) : size h = 20 ->
  eval CheckLowS flags checker v [key; sig] (p2wpkh_code h) =
  if bytes_eqb (CHash160 key) h
  then exec_checksig CheckLowS flags checker v OP_CHECKSIG (p2wpkh_code h) [key; sig]
  else Err SCRIPT_ERR_EQUALVERIFY.
Proof.
  intros Hh.
  assert (Hs : size (p2wpkh_code h) <= MAX_SCRIPT_SIZE).
  { rewrite p2wpkh_code_bytes, push_data_short by lia; unfold size, MAX_SCRIPT_SIZE in *; cbn [length app].
    rewrite length_app; cbn [length]; lia. }
  set (code := p2wpkh_code h) in *; set (st0 := mkEval [key; sig] [] [] 0 code).
  assert (R : exists r, runs CheckLowS flags checker v code st0 r /\
    (let! st := r in match vfExec st with [] => Ok (stack st) | _ => Err SCRIPT_ERR_UNBALANCED_CONDITIONAL end) =
    if bytes_eqb (CHash160 key) h then exec_checksig CheckLowS flags checker v OP_CHECKSIG code [key; sig]
    else Err SCRIPT_ERR_EQUALVERIFY).
  { assert (Hpre : forall r,
      runs CheckLowS flags checker v [opcode_value OP_EQUALVERIFY; opcode_value OP_CHECKSIG]
        (mkEval [h; CHash160 key; key; sig] [] [] 2 code) r -> runs CheckLowS flags checker v code st0 r).
    { intros r R; unfold code at 1; rewrite p2wpkh_code_bytes; unfold st0; run_op v; run_op v.
      eapply runs_step; [apply step_push; [lia | repeat split; unfold MAX_STACK_SIZE; cbn; lia] |]; exact R. }
    destruct (bytes_eqb (CHash160 key) h) eqn:Eq.
    - assert (Hpre2 : forall r, runs CheckLowS flags checker v [opcode_value OP_CHECKSIG]
        (mkEval [key; sig] [] [] 3 code) r -> runs CheckLowS flags checker v code st0 r).
      { intros r R; apply Hpre; eapply runs_step; [| exact R].
        open_op v.
        cbn [exec_op on_stack exec_equal stack set_nOpCount bind]; rewrite Eq; reflexivity. }
      destruct (exec_checksig CheckLowS flags checker v OP_CHECKSIG code [key; sig]) as [s' | e] eqn:Ec.
      + assert (Hl : (length s' <= 1)%nat).
        { unfold exec_checksig in Ec; apply bind_ok in Ec; destruct Ec as ([] & _ & Ec).
          destruct (_ && _ && _); [discriminate |]; injection Ec as <-; cbn; lia. }
        exists (Ok (mkEval s' [] [] 4 code)); split; [| reflexivity]; apply Hpre2.
        eapply runs_step; [| apply runs_end].
        open_op v.
        cbn [exec_op set_nOpCount stack pbegincodehash]; unfold on_stack; rewrite Ec; cbn [bind set_stack set_nOpCount stack altstack length].
        rewrite Z.gtb_ltb, (proj2 (Z.ltb_ge _ _)) by (unfold MAX_STACK_SIZE; lia); reflexivity.
      + exists (Err e); split; [| reflexivity]; apply Hpre2, runs_error.
        open_op v.
        cbn [exec_op set_nOpCount stack pbegincodehash]; unfold on_stack; rewrite Ec; reflexivity.
    - exists (Err SCRIPT_ERR_EQUALVERIFY); split; [| reflexivity]; apply Hpre, runs_error.
      open_op v.
      cbn [exec_op on_stack exec_equal stack set_nOpCount bind]; rewrite Eq; reflexivity. }
  destruct R as (r & R & E); rewrite (runs_eval _ _ _ _ _ _ _ Hs R); exact E.
Qed.

(** What the key-hash script decides about a key and a signature. *)
Definition key_hash_verdict (v : SigVersion) (h key sig : bytes) : verdict :=
  if bytes_eqb (CHash160 key) h then
    match check_encodings CheckLowS flags v sig key with
    | Err e => Failure e
    | Ok _ =>
        if CheckSig checker sig key (drop_signature v (p2wpkh_code h) sig) v then Success
        else if flag flags SCRIPT_VERIFY_NULLFAIL && nonempty sig then Failure SCRIPT_ERR_SIG_NULLFAIL
        else Failure SCRIPT_ERR_EVAL_FALSE
    end
  else Failure SCRIPT_ERR_EQUALVERIFY.

Lemma eval_pushes (v : SigVersion) (x y : bytes) : 2 <= size x <= 75 -> 2 <= size y <= 75 ->
  eval CheckLowS flags checker v [] (push_data [] x ++ push_data [] y) = Ok [y; x].
Proof.
  intros Hx Hy; set (script := push_data [] x ++ push_data [] y).
  assert (Hs : size script <= MAX_SCRIPT_SIZE).
  { unfold script; rewrite !push_data_short by lia; unfold size, MAX_SCRIPT_SIZE in *; rewrite length_app; cbn [length]; lia. }
  rewrite (runs_eval CheckLowS flags checker v _ _ (Ok (mkEval [y; x] [] [] 0 script)) Hs); [reflexivity |].
  unfold script at 1; eapply runs_step; [apply step_push; [exact Hx | repeat split] |].
  rewrite <- (app_nil_r (push_data [] y)).
  eapply runs_step; [apply step_push; [exact Hy | repeat split] | apply runs_end].
Qed.

Lemma pushes_push_only (x y : bytes) : 2 <= size x <= 75 -> 2 <= size y <= 75 ->
  IsPushOnly (push_data [] x ++ push_data [] y) = true.
Proof.
  intros Hx Hy; unfold IsPushOnly.
  assert (Hl : length (push_data [] x ++ push_data [] y) = S (length x + S (length y)))
    by (rewrite !push_data_short, length_app by lia; reflexivity).
  rewrite Hl, push_only_push by (unfold size in Hx; lia).
  destruct (length x) eqn:Ex; [unfold size in Hx; lia |]; cbn [Nat.add].
  rewrite <- (app_nil_r (push_data [] y)), push_only_push by (unfold size in Hy; lia).
  destruct (n + S (length y))%nat eqn:En; [lia |]; reflexivity.
Qed.

Lemma exec_checksig_key_hash (v : SigVersion) (code key sig : bytes) :
  exec_checksig CheckLowS flags checker v OP_CHECKSIG code [key; sig] =
  let! _ := check_encodings CheckLowS flags v sig key in
  let ok := CheckSig checker sig key (drop_signature v code sig) v in
  if negb ok && flag flags SCRIPT_VERIFY_NULLFAIL && nonempty sig then Err SCRIPT_ERR_SIG_NULLFAIL
  else Ok [vch_bool ok].
Proof. reflexivity. Qed.

(** A result of the key-hash script, as the verdict of the whole check. *)
Lemma key_hash_outcome (v : SigVersion) (h key sig : bytes) (k : list valtype -> verdict) : size h = 20 ->
  k [vchTrue] = Success -> k [vchFalse] = Failure SCRIPT_ERR_EVAL_FALSE ->
  match eval CheckLowS flags checker v [key; sig] (p2wpkh_code h) with
  | Err e => Failure e
  | Ok s => k s
  end = key_hash_verdict v h key sig.
Proof.
  intros Hh K1 K2; rewrite eval_key_hash by exact Hh; unfold key_hash_verdict.
  destruct (bytes_eqb _ _); [| reflexivity]; rewrite exec_checksig_key_hash.
  destruct (check_encodings CheckLowS flags v sig key) as [[] | e]; cbn [bind]; [| reflexivity]; cbv zeta.
  destruct (CheckSig checker sig key _ v); cbn [negb andb vch_bool]; [exact K1 |].
  destruct (flag flags SCRIPT_VERIFY_NULLFAIL && nonempty sig); [reflexivity | exact K2].
Qed.

Lemma verify_end_clean (witness : list bytes) (had : bool) (x : valtype) : flags_consistent flags ->
  (had = true \/ witness = []) -> verify_end flags witness had [x] = Success.
Proof.
  intros [Hc Hw] Hwit; unfold verify_end; cbn [length Nat.eqb negb]; rewrite andb_false_r.
  destruct (flag flags SCRIPT_VERIFY_CLEANSTACK).
  - rewrite (Hc eq_refl), (Hw (Hc eq_refl)); cbn [andb negb].
    destruct Hwit as [-> | ->]; [reflexivity | cbn; rewrite andb_false_r; reflexivity].
  - cbn [andb]; destruct (flag flags SCRIPT_VERIFY_WITNESS); [rewrite (Hw eq_refl) | reflexivity]; cbn [andb negb].
    destruct Hwit as [-> | ->]; [reflexivity | cbn; rewrite andb_false_r; reflexivity].
Qed.

Lemma verify_p2pkh (h key sig : bytes) : flags_consistent flags -> size h = 20 ->
  2 <= size sig <= 75 -> 2 <= size key <= 75 ->
  VerifyScript CheckLowS flags checker (push_data [] sig ++ push_data [] key)
    (GetScriptForDestination (CKeyID h)) [] = key_hash_verdict SIGVERSION_BASE h key sig.
Proof.
  intros Hf Hh Hs Hk; unfold VerifyScript; rewrite pushes_push_only, eval_pushes by assumption.
  cbn [negb]; rewrite andb_false_r, p2pkh_code.
  apply key_hash_outcome; [exact Hh | | reflexivity].
  cbn [top_true vchTrue CastToBool Z.eqb negb].
  assert (Hl : size (p2wpkh_code h) = 25).
  { rewrite p2wpkh_code_bytes, push_data_short by lia; unfold size in *; cbn [length app]; rewrite length_app; cbn [length]; lia. }
  assert (Hw : IsWitnessProgram (p2wpkh_code h) = None).
  { unfold IsWitnessProgram; fold (size (p2wpkh_code h)); rewrite Hl; rewrite p2wpkh_code_bytes; reflexivity. }
  assert (Hp : IsPayToScriptHash (p2wpkh_code h) = false)
    by (unfold IsPayToScriptHash; fold (size (p2wpkh_code h)); rewrite Hl; reflexivity).
  unfold verify_bare_witness; rewrite Hw, Hp, andb_false_r.
  destruct (flag flags SCRIPT_VERIFY_WITNESS); apply verify_end_clean; auto.
Qed.

(** The program of a version 0 witness output for a key hash. *)
Definition p2wpkh_script (h : bytes) : CScript := push_data (push_opcode [] OP_0) h.

Lemma eval_p2wpkh_script (h : bytes) : size h = 20 ->
  eval CheckLowS flags checker SIGVERSION_BASE [] (p2wpkh_script h) = Ok [h; []].
Proof.
  intros Hh; assert (E : p2wpkh_script h = 0 :: push_data [] h) by reflexivity; rewrite E.
  set (script := 0 :: push_data [] h).
  assert (Hs : size script <= MAX_SCRIPT_SIZE).
  { unfold script; rewrite push_data_short by lia; unfold size, MAX_SCRIPT_SIZE in *; cbn [length]; lia. }
  rewrite (runs_eval CheckLowS flags checker SIGVERSION_BASE _ _ (Ok (mkEval [h; []] [] [] 0 script)) Hs); [reflexivity |].
  eapply runs_step with (st' := mkEval [[]] [] [] 0 script) (pc' := push_data [] h).
  { assert (Hg : GetOp2 script = Some (0, [], push_data [] h)).
    { unfold script; generalize (push_data [] h); intros l; cbn.
      rewrite (proj2 (Z.ltb_ge _ _)) by lia; reflexivity. }
    unfold eval_step; rewrite Hg; cbn; destruct (fRequireMinimal flags); reflexivity. }
  rewrite <- (app_nil_r (push_data [] h)).
  eapply runs_step; [apply step_push; [lia | repeat split] | apply runs_end].
Qed.

Lemma verify_p2wpkh (h key sig : bytes) : flags_consistent flags -> flag flags SCRIPT_VERIFY_WITNESS = true ->
  size h = 20 -> CastToBool h = true ->
  size sig <= MAX_SCRIPT_ELEMENT_SIZE -> size key <= MAX_SCRIPT_ELEMENT_SIZE ->
  VerifyScript CheckLowS flags checker [] (p2wpkh_script h) [sig; key] =
  key_hash_verdict SIGVERSION_WITNESS_V0 h key sig.
Proof.
  intros Hf Hw Hh Hb Hs Hk; unfold VerifyScript; cbn [IsPushOnly]; change (IsPushOnly []) with true.
  cbn [negb]; rewrite andb_false_r; change (eval CheckLowS flags checker SIGVERSION_BASE [] []) with (@Ok ScriptError (list valtype) []).
  cbv iota; rewrite eval_p2wpkh_script by exact Hh; cbn [top_true]; rewrite Hb; cbn [negb].
  assert (E : p2wpkh_script h = 0 :: size h :: h)
    by (change (p2wpkh_script h) with (0 :: push_data [] h); rewrite push_data_short by lia; reflexivity).
  assert (Hp : IsWitnessProgram (p2wpkh_script h) = Some (0, h)).
  { unfold IsWitnessProgram; rewrite E; cbn [length]; unfold size in *.
    replace (Z.of_nat (S (S (length h)))) with 22 by lia; rewrite Hh; reflexivity. }
  assert (Hp2 : IsPayToScriptHash (p2wpkh_script h) = false) by (rewrite E; unfold IsPayToScriptHash; cbn; rewrite andb_false_r; reflexivity).
  unfold verify_bare_witness; rewrite Hw, Hp; change (size []) with 0; cbn [Z.eqb negb].
  unfold VerifyWitnessProgram; cbn [Z.eqb]; rewrite Hh; cbn [Z.eqb Pos.eqb length Nat.eqb negb bind rev app existsb].
  rewrite !Z.gtb_ltb, !(proj2 (Z.ltb_ge _ _)) by assumption; cbn [orb]; rewrite Hp2, andb_false_r.
  rewrite <- (key_hash_outcome SIGVERSION_WITNESS_V0 h key sig
    (fun s => if negb (Nat.eqb (length s) 1) then Failure SCRIPT_ERR_EVAL_FALSE
              else if negb (top_true s) then Failure SCRIPT_ERR_EVAL_FALSE
              else verify_end flags [sig; key] true (resize_1 [h; []]))); try reflexivity; [| exact Hh |].
  - destruct (eval CheckLowS flags checker SIGVERSION_WITNESS_V0 [key; sig] (p2wpkh_code h)) as [s |]; cbn [bind]; [| reflexivity].
    destruct (negb (length s =? 1)%nat); [reflexivity |]; destruct (negb (top_true s)); reflexivity.
  - apply verify_end_clean; auto.
Qed.

End KeyHash.

(** * Paying to a script hash *)

Lemma p2sh_bytes (h : bytes) : GetScriptForDestination (CScriptID h) =
  opcode_value OP_HASH160 :: push_data [] h ++ [opcode_value OP_EQUAL].
Proof. unfold GetScriptForDestination, CScriptVisitor, push_opcode, push_data; cbn [app]; rewrite <- ?app_assoc; reflexivity. Qed.

Lemma p2sh_form (h : bytes) : size h = 20 ->
  IsPayToScriptHash (GetScriptForDestination (CScriptID h)) = true /\
  IsWitnessProgram (GetScriptForDestination (CScriptID h)) = None.
Proof.
  unfold size; intros Hh; assert (Hn : length h = 20%nat) by lia; rewrite p2sh_bytes, push_data_short by (unfold size; lia).
  do 21 (destruct h as [| ? h]; try discriminate Hn); split; reflexivity.
Qed.

Section ScriptHash.
Context {Checker : Type} `{BaseSignatureChecker Checker} `{HashFunctions}.
Variable CheckLowS : bytes -> bool.
Variable flags : Z.
Variable checker : Checker.

(** The script-hash script on the serialized redeem script. *)
Lemma eval_script_hash (redeem h : bytes) (args : list valtype) : size h = 20 ->
  Z.of_nat (length args) < MAX_STACK_SIZE - 2 ->
  eval CheckLowS flags checker SIGVERSION_BASE (redeem :: args) (GetScriptForDestination (CScriptID h)) =
  Ok (vch_bool (bytes_eqb (CHash160 redeem) h) :: args).
Proof.
  unfold MAX_STACK_SIZE; intros Hh Ha; set (code := GetScriptForDestination (CScriptID h)).
  assert (Hs : size code <= MAX_SCRIPT_SIZE).
  { unfold code; rewrite p2sh_bytes, push_data_short by lia; unfold size, MAX_SCRIPT_SIZE in *; cbn [length app].
    rewrite length_app; cbn [length]; lia. }
  rewrite (runs_eval CheckLowS flags checker SIGVERSION_BASE _ _
    (Ok (mkEval (vch_bool (bytes_eqb (CHash160 redeem) h) :: args) [] [] 2 code)) Hs); [reflexivity |].
  unfold code at 1; rewrite p2sh_bytes.
  assert (Hsz : forall l : list valtype, (length l <= S (S (length args)))%nat ->
    (Z.of_nat (length l + length (@nil valtype)) >? MAX_STACK_SIZE) = false)
    by (intros l Hl; rewrite Z.gtb_ltb; apply Z.ltb_ge; unfold MAX_STACK_SIZE; cbn [length]; lia).
  eapply runs_step.
  { rewrite (step_op CheckLowS flags checker SIGVERSION_BASE);
      [| reflexivity | reflexivity | discriminate | reflexivity | reflexivity | unfold MAX_OPS_PER_SCRIPT; cbn; lia].
    cbn -[opcode_value push_data Z.of_nat MAX_STACK_SIZE length Nat.add]; rewrite Hsz by (cbn [length]; lia); reflexivity. }
  eapply runs_step; [apply step_push; [lia | repeat split; unfold MAX_STACK_SIZE; cbn [push_stack set_stack stack length]; lia] |].
  eapply runs_step; [| apply runs_end].
  rewrite (step_op CheckLowS flags checker SIGVERSION_BASE);
    [| reflexivity | reflexivity | discriminate | reflexivity | reflexivity | unfold MAX_OPS_PER_SCRIPT; cbn; lia].
  cbn -[opcode_value push_data Z.of_nat MAX_STACK_SIZE length Nat.add bytes_eqb vch_bool].
  rewrite Hsz by (cbn [length]; lia); reflexivity.
Qed.

Lemma verify_script_hash (scriptSig redeem h : bytes) (args : list valtype) (witness : list bytes) :
  flag flags SCRIPT_VERIFY_P2SH = true -> size h = 20 -> IsPushOnly scriptSig = true ->
  eval CheckLowS flags checker SIGVERSION_BASE [] scriptSig = Ok (redeem :: args) ->
  Z.of_nat (length args) < MAX_STACK_SIZE - 2 ->
  VerifyScript CheckLowS flags checker scriptSig (GetScriptForDestination (CScriptID h)) witness =
  if bytes_eqb (CHash160 redeem) h then
    match verify_p2sh CheckLowS flags checker scriptSig witness redeem args false with
    | Err e => Failure e
    | Ok (hadWitness, s) => verify_end flags witness hadWitness s
    end
  else Failure SCRIPT_ERR_EVAL_FALSE.
Proof.
  intros Hp Hh Hpo He Ha; unfold VerifyScript; rewrite Hpo, He; cbn [negb]; rewrite andb_false_r.
  rewrite eval_script_hash by assumption; destruct (p2sh_form h Hh) as [F1 F2].
  unfold verify_bare_witness; rewrite Hp, F1, F2; cbn [top_true].
  destruct (bytes_eqb (CHash160 redeem) h); cbn [vch_bool vchTrue vchFalse CastToBool Z.eqb negb andb]; [| reflexivity].
  destruct (flag flags SCRIPT_VERIFY_WITNESS); reflexivity.
Qed.

(** The script-hash script fails on an empty stack. *)
Lemma eval_script_hash_empty (script : CScript) : IsPayToScriptHash script = true ->
  eval CheckLowS flags checker SIGVERSION_BASE [] script = Err SCRIPT_ERR_INVALID_STACK_OPERATION.
Proof.
  intros Hp; unfold IsPayToScriptHash in Hp; bool_to_prop.
  destruct script as [| c script]; [discriminate |].
  assert (c = opcode_value OP_HASH160) as -> by assumption.
  assert (Hs : size (opcode_value OP_HASH160 :: script) <= MAX_SCRIPT_SIZE) by (unfold size, MAX_SCRIPT_SIZE; lia).
  rewrite (runs_eval CheckLowS flags checker SIGVERSION_BASE _ _ (Err SCRIPT_ERR_INVALID_STACK_OPERATION) Hs); [reflexivity |].
  apply runs_error; rewrite (step_op CheckLowS flags checker SIGVERSION_BASE);
    try reflexivity; try discriminate; unfold MAX_OPS_PER_SCRIPT; cbn; lia.
Qed.

Lemma verify_end_no_assert (witness : list bytes) (had : bool) (s : list valtype) : flags_consistent flags ->
  verify_end flags witness had s <> AssertFailed.
Proof.
  intros [Hc Hw]; unfold verify_end.
  destruct (flag flags SCRIPT_VERIFY_CLEANSTACK); [rewrite (Hc eq_refl) |];
    destruct (flag flags SCRIPT_VERIFY_WITNESS); rewrite ?(Hw eq_refl), ?(Hw (Hc eq_refl)); cbn [andb negb];
    repeat case_if; discriminate.
Qed.

Lemma verify_no_assert (scriptSig scriptPubKey : CScript) (witness : list bytes) : flags_consistent flags ->
  VerifyScript CheckLowS flags checker scriptSig scriptPubKey witness <> AssertFailed.
Proof.
  intros Hf; unfold VerifyScript; case_if; [discriminate |].
  destruct (eval CheckLowS flags checker SIGVERSION_BASE [] scriptSig) as [s0 |]; [| discriminate].
  destruct (eval CheckLowS flags checker SIGVERSION_BASE s0 scriptPubKey) as [s1 |] eqn:E1; [| discriminate].
  destruct (negb (top_true s1)); [discriminate |].
  destruct (verify_bare_witness _ _ _ _ _ _ _) as [[h2 s2] |]; [| discriminate].
  destruct (flag flags SCRIPT_VERIFY_P2SH && IsPayToScriptHash scriptPubKey) eqn:Ep;
    [| apply verify_end_no_assert, Hf].
  destruct (negb _); [discriminate |]; apply andb_prop in Ep; destruct Ep as [_ Ep].
  destruct s0 as [| redeem s0]; [rewrite eval_script_hash_empty in E1 by exact Ep; discriminate |].
  destruct (verify_p2sh _ _ _ _ _ _ _ _) as [[h3 s3] |]; [apply verify_end_no_assert, Hf | discriminate].
Qed.

End ScriptHash.

(** * Theorems *)

(** C11: turning on verification flags is a soft fork: whatever is valid under
    a set of flags is valid under every subset of it, with any scripts,
    witness and checker.  The subset must be one the code admits
    (clean stack needs witness, witness needs script hash) and, where it
    discourages upgradable opcodes, must enforce the two lock-time opcodes. *)
Theorem VerifyScript_soft_fork {Checker : Type} `{BaseSignatureChecker Checker} `{HashFunctions}
    (CheckLowS : bytes -> bool) (checker : Checker) (flags flags' : Z)
    (scriptSig scriptPubKey : CScript) (witness : list bytes) :
  Z.land flags flags' = flags -> flags_consistent flags -> locks_enforced flags ->
  VerifyScript CheckLowS flags' checker scriptSig scriptPubKey witness = Success ->
  VerifyScript CheckLowS flags checker scriptSig scriptPubKey witness = Success.
Proof. intros Hab Hc Hl; apply VerifyScript_mono; assumption. Qed.

(** Hash functions that only fix the size, for the witnesses. *)
#[local] Instance pad_hash_functions : HashFunctions := {
  CRIPEMD160 v := firstn 20 (map w8 v ++ repeat 0 20);
  CSHA1 v := firstn 20 (map w8 v ++ repeat 0 20);
  CSHA256 v := firstn 32 (map w8 v ++ repeat 0 32)
}.

Lemma VerifyScript_soft_fork_witness :
  VerifyScript (fun _ => true) (Z.lor SCRIPT_VERIFY_P2SH SCRIPT_VERIFY_WITNESS) BaseChecker
    [opcode_value OP_3] [opcode_value OP_3; opcode_value OP_NUMEQUAL] [] = Success.
Proof.
  apply (VerifyScript_soft_fork (fun _ => true) BaseChecker
    (Z.lor SCRIPT_VERIFY_P2SH SCRIPT_VERIFY_WITNESS) (2 ^ 16 - 1)); try reflexivity.
  - split; reflexivity.
  - discriminate.
Defined.

(** C26: spending an output that pays to a key hash, in the classic form and
    as a version 0 witness program: the input is valid exactly when the key
    has the hash, the encodings satisfy the flags and the signature is good
    for the key; otherwise the error says which of these failed, in that
    order. *)
Theorem KeyHash_spending {Checker : Type} `{BaseSignatureChecker Checker} `{HashFunctions}
    (CheckLowS : bytes -> bool) (checker : Checker) (flags : Z) (h key sig : bytes) :
  flags_consistent flags -> size h = 20 -> 2 <= size sig <= 75 -> 2 <= size key <= 75 ->
  VerifyScript CheckLowS flags checker (push_data [] sig ++ push_data [] key)
    (GetScriptForDestination (CKeyID h)) [] =
    key_hash_verdict CheckLowS flags checker SIGVERSION_BASE h key sig /\
  (flag flags SCRIPT_VERIFY_WITNESS = true -> CastToBool h = true ->
   VerifyScript CheckLowS flags checker [] (p2wpkh_script h) [sig; key] =
     key_hash_verdict CheckLowS flags checker SIGVERSION_WITNESS_V0 h key sig).
Proof.
  intros Hf Hh Hs Hk; split; [apply verify_p2pkh; assumption |]; intros Hw Hb.
  apply verify_p2wpkh; auto; unfold MAX_SCRIPT_ELEMENT_SIZE; lia.
Qed.

Lemma KeyHash_spending_witness :
  VerifyScript (fun _ => true) SCRIPT_VERIFY_P2SH BaseChecker (push_data [] [1; 2] ++ push_data [] [3; 4])
    (GetScriptForDestination (CKeyID (repeat 5 20))) [] = Failure SCRIPT_ERR_EQUALVERIFY.
Proof.
  destruct (KeyHash_spending (fun _ => true) BaseChecker SCRIPT_VERIFY_P2SH (repeat 5 20) [3; 4] [1; 2])
    as [E _]; [split; discriminate | reflexivity | cbn; lia | cbn; lia |].
  rewrite E; reflexivity.
Defined.

(** Spending an output that pays to a script hash: with a push-only
    scriptSig whose last element has the hash, the outcome is that of running
    the redeem script on the elements below it, with the witness rules for a
    redeem script that is a witness program; a different hash is a false
    result.  With admissible flags no assertion of the verifier can fail, on
    any scripts and witness. *)
Theorem ScriptHash_spending {Checker : Type} `{BaseSignatureChecker Checker} `{HashFunctions}
    (CheckLowS : bytes -> bool) (checker : Checker) (flags : Z) (scriptSig redeem h : bytes)
    (args : list valtype) (witness : list bytes) :
  flags_consistent flags -> flag flags SCRIPT_VERIFY_P2SH = true -> size h = 20 ->
  IsPushOnly scriptSig = true ->
  eval CheckLowS flags checker SIGVERSION_BASE [] scriptSig = Ok (redeem :: args) ->
  Z.of_nat (length args) < MAX_STACK_SIZE - 2 ->
  VerifyScript CheckLowS flags checker scriptSig (GetScriptForDestination (CScriptID h)) witness =
    (if bytes_eqb (CHash160 redeem) h then
       match verify_p2sh CheckLowS flags checker scriptSig witness redeem args false with
       | Err e => Failure e
       | Ok (hadWitness, s) => verify_end flags witness hadWitness s
       end
     else Failure SCRIPT_ERR_EVAL_FALSE) /\
  (forall sig key wit, VerifyScript CheckLowS flags checker sig key wit <> AssertFailed).
Proof.
  intros Hf Hp Hh Hpo He Ha; split; [apply verify_script_hash; assumption |].
  intros sig key wit; apply verify_no_assert, Hf.
Qed.

Lemma ScriptHash_spending_witness :
  VerifyScript (fun _ => true) SCRIPT_VERIFY_P2SH BaseChecker [opcode_value OP_5; 2; 85; 135]
    (GetScriptForDestination (CScriptID ([85; 135] ++ repeat 0 18))) [] = Success.
Proof.
  destruct (ScriptHash_spending (fun _ => true) BaseChecker SCRIPT_VERIFY_P2SH [opcode_value OP_5; 2; 85; 135]
    [85; 135] ([85; 135] ++ repeat 0 18) [[5]] []) as [E _];
    [split; discriminate | reflexivity | reflexivity | reflexivity | reflexivity | reflexivity |].
  rewrite E; vm_compute; reflexivity.
Defined.
