(* ===== verification/AssetTx.v ===== *)
(** Transactions that create assets (src/assets/assets.cpp): which
    transactions issue or reissue an asset, what such a transaction must
    contain (the burn fee, the owner token, nothing else of the kind), and the
    checks on the issued data and on verifier strings that need no state.

    What the checks read from the rest of the node is the class [Node]: the
    burn fees of the chain, the activation of the asset rules, and the hash and
    encoding functions.  A check that sets an error text and returns false is
    [Err] of that text; texts that go on with formatted data are cut there.
    [vout[vout.size() - 1]] of a transaction without outputs is undefined in
    the source; [back] gives the null output, and [CheckTransaction] has turned
    such transactions away before any of these functions runs. *)

From Stdlib Require Import ZArith String Ascii List Bool Lia Arith.
From S2P Require Import Prelude Serialize Script Standard Transaction BoolEE AssetTypes AssetNames.
Import ListNotations.
Open Scope Z_scope.

(** * The node the checks run in *)

(** The burn fees of [CChainParams]. *)
Record CChainParams := mkParams {
  nIssueAssetBurnAmount : Z; nReissueAssetBurnAmount : Z; nIssueSubAssetBurnAmount : Z;
  nIssueUniqueAssetBurnAmount : Z; nIssueMsgChannelAssetBurnAmount : Z; nIssueQualifierAssetBurnAmount : Z;
  nIssueSubQualifierAssetBurnAmount : Z; nIssueRestrictedAssetBurnAmount : Z; nAddNullQualifierTagBurnAmount : Z;
  strIssueAssetBurnAddress : bytes; strReissueAssetBurnAddress : bytes; strIssueSubAssetBurnAddress : bytes;
  strIssueUniqueAssetBurnAddress : bytes; strIssueMsgChannelAssetBurnAddress : bytes;
  strIssueQualifierAssetBurnAddress : bytes; strIssueSubQualifierAssetBurnAddress : bytes;
  strIssueRestrictedAssetBurnAddress : bytes; strAddNullQualifierTagBurnAddress : bytes;
  fTestNet : bool
}.

Definition CMainParams : CChainParams :=
  mkParams (COIN / 4) (COIN / 20) (COIN / 20) (COIN / 100) (COIN / 20) (COIN / 4) (COIN / 20) (COIN / 4) (COIN / 20)
    (str "RXissueAssetXXXXXXXXXXXXXXXXXhhZGt") (str "RXReissueAssetXXXXXXXXXXXXXXVEFAWu")
    (str "RXissueSubAssetXXXXXXXXXXXXXWcwhwL") (str "RXissueUniqueAssetXXXXXXXXXXWEAe58")
    (str "RXissueMsgChanneLAssetXXXXXXSjHvAY") (str "RXissueQuaLifierXXXXXXXXXXXXUgEDbC")
    (str "RXissueSubQuaLifierXXXXXXXXXVTzvv5") (str "RXissueRestrictedXXXXXXXXXXXXzJZ1q")
    (str "RXaddTagBurnXXXXXXXXXXXXXXXXZQm5ya") false.

Class Node := {
  GetParams : CChainParams;
  AreAssetsDeployed : bool;
  IsRip5Active : bool;
  AreTransferScriptsSizeDeployed : bool;
  AreEnforcedValuesDeployed : bool;
  AreCoinbaseCheckAssetsDeployed : bool;
  node_Hash160 : bytes -> bytes;
  node_Hash : bytes -> bytes;
  EncodeDestination : CTxDestination -> bytes;
  EncodeBase58 : bytes -> bytes;
  (** What an [AssetType] that is declared and not set holds. *)
  indeterminate_type : AssetType
}.

Definition fail {A : Type} (reason : string) : result string A := Err reason.
Definition require (b : bool) (reason : string) : result string unit := if b then Ok tt else Err reason.
Definition text (s : bytes) : string := string_of_list_ascii (map (fun c => ascii_of_nat (Z.to_nat c)) s).

Definition AssetType_eqb (a b : AssetType) : bool :=
  match a, b with
  | ROOT, ROOT | SUB, SUB | UNIQUE, UNIQUE | MSGCHANNEL, MSGCHANNEL | QUALIFIER, QUALIFIER
  | SUB_QUALIFIER, SUB_QUALIFIER | RESTRICTED, RESTRICTED | VOTE, VOTE | REISSUE, REISSUE | OWNER, OWNER
  | NULL_ADD_QUALIFIER, NULL_ADD_QUALIFIER | INVALID, INVALID => true
  | _, _ => false
  end.

Definition OWNER_LENGTH : Z := 1.
Definition MAX_UNIT : Z := 8.
Definition UNIQUE_ASSET_AMOUNT : Z := 1 * COIN.
Definition UNIQUE_ASSET_UNITS : Z := 0.
Definition QUALIFIER_ASSET_MIN_AMOUNT : Z := 1 * COIN.
Definition QUALIFIER_ASSET_MAX_AMOUNT : Z := 10 * COIN.
Definition QUALIFIER_ASSET_UNITS : Z := 0.
Definition RESTRICTED_CHAR : Z := code "$".
Definition QUALIFIER_CHAR : Z := code "#".

Section Checks.
Context {node : Node}.

Definition AreMessagesDeployed : bool := IsRip5Active.
Definition AreRestrictedAssetsDeployed : bool := IsRip5Active.

Abbreviation asset_from := (AssetFromScript node_Hash160 EncodeDestination).
Abbreviation owner_from := (OwnerAssetFromScript node_Hash160 EncodeDestination).
Abbreviation reissue_from := (ReissueAssetFromScript node_Hash160 EncodeDestination).
Abbreviation transfer_from := (TransferAssetFromScript node_Hash160 EncodeDestination AreTransferScriptsSizeDeployed).

(** What [IsAssetNameValid(name, type)] leaves in a [type] that was not set:
    its first check returns before it writes. *)
Definition type_of_name (name : bytes) : AssetType :=
  match IsAssetNameValid name with
  | Ok type => type
  | Err NameOverlong => indeterminate_type
  | Err _ => INVALID
  end.

(** * Burn fees *)

Definition GetBurnAmount (type : AssetType) : Z :=
  match type with
  | ROOT => nIssueAssetBurnAmount GetParams
  | SUB => nIssueSubAssetBurnAmount GetParams
  | MSGCHANNEL => nIssueMsgChannelAssetBurnAmount GetParams
  | OWNER => 0
  | UNIQUE => nIssueUniqueAssetBurnAmount GetParams
  | VOTE => 0
  | REISSUE => nReissueAssetBurnAmount GetParams
  | QUALIFIER => nIssueQualifierAssetBurnAmount GetParams
  | SUB_QUALIFIER => nIssueSubQualifierAssetBurnAmount GetParams
  | RESTRICTED => nIssueRestrictedAssetBurnAmount GetParams
  | NULL_ADD_QUALIFIER => nAddNullQualifierTagBurnAmount GetParams
  | INVALID => 0
  end.

Definition GetBurnAddress (type : AssetType) : bytes :=
  match type with
  | ROOT => strIssueAssetBurnAddress GetParams
  | SUB => strIssueSubAssetBurnAddress GetParams
  | MSGCHANNEL => strIssueMsgChannelAssetBurnAddress GetParams
  | OWNER => []
  | UNIQUE => strIssueUniqueAssetBurnAddress GetParams
  | VOTE => []
  | REISSUE => strReissueAssetBurnAddress GetParams
  | QUALIFIER => strIssueQualifierAssetBurnAddress GetParams
  | SUB_QUALIFIER => strIssueSubQualifierAssetBurnAddress GetParams
  | RESTRICTED => strIssueRestrictedAssetBurnAddress GetParams
  | NULL_ADD_QUALIFIER => strAddNullQualifierTagBurnAddress GetParams
  | INVALID => []
  end.

Definition CheckIssueBurnTx (txOut : CTxOut) (type : AssetType) (numberIssued : Z) : bool :=
  match type with
  | REISSUE | VOTE | OWNER | INVALID => false
  | _ =>
      if negb (nValue txOut =? s64 (GetBurnAmount type * numberIssued)) then false
      else match ExtractDestination node_Hash160 (scriptPubKey txOut) with
           | None => false
           | Some destination =>
               if negb (IsValidDestination destination) then false
               else bytes_eqb (EncodeDestination destination) (GetBurnAddress type)
           end
  end.

Definition CheckReissueBurnTx (txOut : CTxOut) : bool :=
  if negb (nValue txOut =? nReissueAssetBurnAmount GetParams) then false
  else match ExtractDestination node_Hash160 (scriptPubKey txOut) with
       | None => false
       | Some destination =>
           if negb (IsValidDestination destination) then false
           else bytes_eqb (EncodeDestination destination) (strReissueAssetBurnAddress GetParams)
       end.

Definition CheckIssueDataTx (txOut : CTxOut) : bool := is_some (IsScriptNewAsset (scriptPubKey txOut)).
Definition CheckReissueDataTx (txOut : CTxOut) : bool := is_some (IsScriptReissueAsset (scriptPubKey txOut)).
Definition CheckOwnerDataTx (txOut : CTxOut) : bool := is_some (IsScriptOwnerAsset (scriptPubKey txOut)).

(** * Outputs that issue an asset of a given type *)

Definition IsScriptNewTyped (wanted : AssetType -> bool) (s : CScript) : option nat :=
  match IsAssetScript s with
  | None => None
  | Some (_, _, nStartingIndex) =>
      match asset_from s with
      | None => None
      | Some (asset, _) =>
          match IsAssetNameValid (na_strName asset) with
          | Err _ => None
          | Ok assetType => if wanted assetType then Some nStartingIndex else None
          end
      end
  end.

Definition IsScriptNewUniqueAsset : CScript -> option nat := IsScriptNewTyped (AssetType_eqb UNIQUE).
Definition IsScriptNewMsgChannelAsset : CScript -> option nat := IsScriptNewTyped (AssetType_eqb MSGCHANNEL).
Definition IsScriptNewQualifierAsset : CScript -> option nat :=
  IsScriptNewTyped (fun assetType => AssetType_eqb QUALIFIER assetType || AssetType_eqb SUB_QUALIFIER assetType).
Definition IsScriptNewRestrictedAsset : CScript -> option nat := IsScriptNewTyped (AssetType_eqb RESTRICTED).

Definition asset_at (start : option nat) (s : CScript) : option (CNewAsset * bytes) :=
  match start with
  | None => None
  | Some nStartingIndex => with_address node_Hash160 EncodeDestination s (parse_at read_new_asset s nStartingIndex)
  end.
Definition MsgChannelAssetFromScript (s : CScript) : option (CNewAsset * bytes) :=
  asset_at (IsScriptNewMsgChannelAsset s) s.
Definition QualifierAssetFromScript (s : CScript) : option (CNewAsset * bytes) :=
  asset_at (IsScriptNewQualifierAsset s) s.
Definition RestrictedAssetFromScript (s : CScript) : option (CNewAsset * bytes) :=
  asset_at (IsScriptNewRestrictedAsset s) s.

(** * Kinds of transactions *)

Definition back (outs : list CTxOut) : CTxOut := last outs txout_null.
Definition before_back (outs : list CTxOut) : CTxOut := nth (length outs - 2) outs txout_null.

Definition tx_IsNewAsset (tx : CTransaction) : bool :=
  if Z.of_nat (length (vout tx)) <? 3 then false
  else if negb (CheckIssueDataTx (back (vout tx))) then false
  else if negb (CheckOwnerDataTx (before_back (vout tx))) then false
  else
    let script := scriptPubKey (back (vout tx)) in
    if is_some (IsScriptNewUniqueAsset script) || is_some (IsScriptNewRestrictedAsset script) then false else true.

Definition tx_IsNewUniqueAsset (tx : CTransaction) : bool :=
  if negb (CheckIssueDataTx (back (vout tx))) then false
  else is_some (IsScriptNewUniqueAsset (scriptPubKey (back (vout tx)))).
Definition tx_IsNewMsgChannelAsset (tx : CTransaction) : bool :=
  if negb (CheckIssueDataTx (back (vout tx))) then false
  else is_some (IsScriptNewMsgChannelAsset (scriptPubKey (back (vout tx)))).
Definition tx_IsNewQualifierAsset (tx : CTransaction) : bool :=
  if negb (CheckIssueDataTx (back (vout tx))) then false
  else is_some (IsScriptNewQualifierAsset (scriptPubKey (back (vout tx)))).
Definition tx_IsNewRestrictedAsset (tx : CTransaction) : bool :=
  if negb (CheckIssueDataTx (back (vout tx))) then false
  else is_some (IsScriptNewRestrictedAsset (scriptPubKey (back (vout tx)))).
Definition tx_IsReissueAsset (tx : CTransaction) : bool := CheckReissueDataTx (back (vout tx)).

Definition AssetFromTransaction (tx : CTransaction) : option (CNewAsset * bytes) :=
  if negb (tx_IsNewAsset tx) then None else asset_from (scriptPubKey (back (vout tx))).
Definition MsgChannelAssetFromTransaction (tx : CTransaction) : option (CNewAsset * bytes) :=
  if negb (tx_IsNewMsgChannelAsset tx) then None else MsgChannelAssetFromScript (scriptPubKey (back (vout tx))).
Definition QualifierAssetFromTransaction (tx : CTransaction) : option (CNewAsset * bytes) :=
  if negb (tx_IsNewQualifierAsset tx) then None else QualifierAssetFromScript (scriptPubKey (back (vout tx))).
Definition RestrictedAssetFromTransaction (tx : CTransaction) : option (CNewAsset * bytes) :=
  if negb (tx_IsNewRestrictedAsset tx) then None else RestrictedAssetFromScript (scriptPubKey (back (vout tx))).
Definition ReissueAssetFromTransaction (tx : CTransaction) : option (CReissueAsset * bytes) :=
  if negb (tx_IsReissueAsset tx) then None else reissue_from (scriptPubKey (back (vout tx))).
Definition UniqueAssetFromTransaction (tx : CTransaction) : option (CNewAsset * bytes) :=
  if negb (tx_IsNewUniqueAsset tx) then None else asset_from (scriptPubKey (back (vout tx))).
Definition OwnerFromTransaction (tx : CTransaction) : option (bytes * bytes) :=
  if negb (tx_IsNewAsset tx) then None else owner_from (scriptPubKey (before_back (vout tx))).

(** * What such a transaction must contain *)

Definition IsNewOwnerTxValid (tx : CTransaction) (assetName address : bytes) : result string unit :=
  match OwnerFromTransaction tx with
  | None => fail "bad-txns-bad-owner"
  | Some (ownerName, ownerAddress) =>
      if negb (bytes_eqb ownerAddress address) then fail "bad-txns-owner-address-mismatch"
      else if Z.of_nat (length ownerName) <? OWNER_LENGTH + MIN_ASSET_LENGTH then fail "bad-txns-owner-asset-length"
      else if negb (bytes_eqb ownerName (assetName ++ OWNER_TAG)) then fail "bad-txns-owner-name-mismatch"
      else Ok tt
  end.

(** The loops that look for a transfer of a given asset and for a burn fee. *)
Definition has_transfer (name : bytes) (outs : list CTxOut) : bool :=
  existsb (fun out =>
    match transfer_from (scriptPubKey out) with
    | Some (transfer, _) => bytes_eqb name (at_strName transfer)
    | None => false
    end) outs.
Definition pays_burn (type : AssetType) (numberIssued : Z) (outs : list CTxOut) : bool :=
  existsb (fun out => CheckIssueBurnTx out type numberIssued) outs.

Record asset_counts := mkCounts { issues : Z; reissues : Z; transfers : Z; owners : Z }.

Definition GetTxOutAssetTypes (outs : list CTxOut) : asset_counts :=
  fold_left (fun n out =>
    match IsAssetScript (scriptPubKey out) with
    | Some (TX_NEW_ASSET, false, _) => mkCounts (issues n + 1) (reissues n) (transfers n) (owners n)
    | Some (TX_NEW_ASSET, true, _) => mkCounts (issues n) (reissues n) (transfers n) (owners n + 1)
    | Some (TX_TRANSFER_ASSET, _, _) => mkCounts (issues n) (reissues n) (transfers n + 1) (owners n)
    | Some (TX_REISSUE_ASSET, _, _) => mkCounts (issues n) (reissues n + 1) (transfers n) (owners n)
    | _ => n
    end) outs (mkCounts 0 0 0 0).

(** The new unique assets: their common root, and how many there are. *)
Fixpoint unique_loop (outs : list CTxOut) (setUniqueAssets : list bytes) (assetRoot : bytes)
    (assetOutpointCount : Z) : result string (bytes * Z) :=
  match outs with
  | [] => Ok (assetRoot, assetOutpointCount)
  | out :: outs' =>
      if is_some (IsScriptNewUniqueAsset (scriptPubKey out)) then
        match asset_from (scriptPubKey out) with
        | None => fail "bad-txns-issue-unique-asset-from-script"
        | Some (asset, _) =>
            let root := GetParentName (na_strName asset) in
            let assetRoot := if bytes_eqb assetRoot [] then root else assetRoot in
            if negb (bytes_eqb assetRoot root) then fail "bad-txns-issue-unique-asset-compare-failed"
            else if existsb (bytes_eqb (na_strName asset)) setUniqueAssets
            then fail "bad-txns-issue-unique-duplicate-name-in-same-tx"
            else unique_loop outs' (na_strName asset :: setUniqueAssets) assetRoot (assetOutpointCount + 1)
        end
      else unique_loop outs' setUniqueAssets assetRoot assetOutpointCount
  end.

Definition VerifyNewUniqueAsset (tx : CTransaction) : result string unit :=
  if Z.of_nat (length (vout tx)) <? 3 then fail "bad-txns-unique-vout-size-to-small"
  else
    let! found := unique_loop (vout tx) [] [] 0 in
    let '(assetRoot, assetOutpointCount) := found in
    if assetOutpointCount =? 0 then fail "bad-txns-issue-unique-asset-bad-outpoint-count"
    else if negb (pays_burn UNIQUE assetOutpointCount (vout tx))
    then fail "bad-txns-issue-unique-asset-burn-outpoints-not-found"
    else if negb (has_transfer (assetRoot ++ OWNER_TAG) (vout tx))
    then fail "bad-txns-issue-unique-asset-missing-owner-asset"
    else
      let n := GetTxOutAssetTypes (vout tx) in
      if (owners n >? 0) || (reissues n >? 0) || negb (issues n =? assetOutpointCount)
      then fail "bad-txns-failed-unique-asset-formatting-check" else Ok tt.

Definition VerifyNewAsset (tx : CTransaction) : result string unit :=
  if Z.of_nat (length (vout tx)) <? 3 then fail "bad-txns-issue-vout-size-to-small"
  else if negb (CheckIssueDataTx (back (vout tx))) then fail "bad-txns-issue-data-not-found"
  else if negb (CheckOwnerDataTx (before_back (vout tx))) then fail "bad-txns-issue-owner-data-not-found"
  else match asset_from (scriptPubKey (back (vout tx))) with
  | None => fail "bad-txns-issue-serialzation-failed"
  | Some (asset, _) =>
      let assetType := type_of_name (na_strName asset) in
      match owner_from (scriptPubKey (before_back (vout tx))) with
      | None => fail "bad-txns-issue-owner-serialzation-failed"
      | Some (strOwnerName, _) =>
          if negb (bytes_eqb strOwnerName (na_strName asset ++ OWNER_TAG))
          then fail "bad-txns-issue-owner-name-doesn't-match"
          else if negb (pays_burn assetType 1 (vout tx)) then fail "bad-txns-issue-burn-not-found"
          else if AssetType_eqb assetType SUB &&
                  negb (has_transfer (GetParentName (na_strName asset) ++ OWNER_TAG) (vout tx))
          then fail "bad-txns-issue-new-asset-missing-owner-asset"
          else
            let n := GetTxOutAssetTypes (vout tx) in
            if negb (owners n =? 1) || negb (issues n =? 1) || (reissues n >? 0)
            then fail "bad-txns-failed-issue-asset-formatting-check" else Ok tt
      end
  end.

Definition VerifyNewMsgChannelAsset (tx : CTransaction) : result string unit :=
  if Z.of_nat (length (vout tx)) <? 3 then fail "bad-txns-issue-msgchannel-vout-size-to-small"
  else if negb (CheckIssueDataTx (back (vout tx))) then fail "bad-txns-issue-data-not-found"
  else match MsgChannelAssetFromScript (scriptPubKey (back (vout tx))) with
  | None => fail "bad-txns-issue-msgchannel-serialzation-failed"
  | Some (asset, _) =>
      if negb (pays_burn MSGCHANNEL 1 (vout tx)) then fail "bad-txns-issue-msgchannel-burn-not-found"
      else if negb (has_transfer (GetParentName (na_strName asset) ++ OWNER_TAG) (vout tx))
      then fail "bad-txns-issue-msg-channel-asset-bad-owner-asset"
      else
        let n := GetTxOutAssetTypes (vout tx) in
        if negb (owners n =? 0) || negb (issues n =? 1) || (reissues n >? 0)
        then fail "bad-txns-failed-issue-msgchannel-asset-formatting-check" else Ok tt
  end.

Definition VerifyNewQualfierAsset (tx : CTransaction) : result string unit :=
  if Z.of_nat (length (vout tx)) <? 2 then fail "bad-txns-issue-qualifier-vout-size-to-small"
  else if negb (CheckIssueDataTx (back (vout tx))) then fail "bad-txns-issue-qualifider-data-not-found"
  else match QualifierAssetFromScript (scriptPubKey (back (vout tx))) with
  | None => fail "bad-txns-issue-qualifier-serialzation-failed"
  | Some (asset, _) =>
      let assetType := type_of_name (na_strName asset) in
      if negb (pays_burn assetType 1 (vout tx)) then fail "bad-txns-issue-qualifier-burn-not-found"
      else if AssetType_eqb assetType SUB_QUALIFIER && negb (has_transfer (GetParentName (na_strName asset)) (vout tx))
      then fail "bad-txns-issue-sub-qualifier-parent-outpoint-not-found"
      else
        let n := GetTxOutAssetTypes (vout tx) in
        if negb (owners n =? 0) || negb (issues n =? 1) || (reissues n >? 0)
        then fail "bad-txns-failed-issue-asset-formatting-check" else Ok tt
  end.

(** The error says whether no verifier string was found. *)
Fixpoint verifier_loop (outs : list CTxOut) (verifier : option bytes) : result (bool * string) (option bytes) :=
  match outs with
  | [] => Ok verifier
  | out :: outs' =>
      if IsNullAssetVerifierTxDataScript (scriptPubKey out) then
        match verifier with
        | Some _ => Err (false, "Multiple verifier strings found in transaction"%string)
        | None =>
            match AssetNullVerifierDataFromScript (scriptPubKey out) with
            | None => Err (false, "Failed to get verifier string from output: "%string)
            | Some v => verifier_loop outs' (Some v)
            end
        end
      else verifier_loop outs' verifier
  end.
Definition GetVerifierStringFromTx (tx : CTransaction) : result (bool * string) bytes :=
  let! found := verifier_loop (vout tx) None in
  match found with
  | None => Err (true, "Verifier string not found"%string)
  | Some verifier => Ok verifier
  end.

Definition VerifyNewRestrictedAsset (tx : CTransaction) : result string unit :=
  if Z.of_nat (length (vout tx)) <? 4 then fail "bad-txns-issue-restricted-vout-size-to-small"
  else if negb (CheckIssueDataTx (back (vout tx))) then fail "bad-txns-issue-restricted-data-not-found"
  else match RestrictedAssetFromScript (scriptPubKey (back (vout tx))) with
  | None => fail "bad-txns-issue-restricted-serialization-failed"
  | Some (asset, _) =>
      if negb (pays_burn (type_of_name (na_strName asset)) 1 (vout tx))
      then fail "bad-txns-issue-restricted-burn-not-found"
      else if negb (has_transfer (skipn 1 (GetParentName (na_strName asset)) ++ OWNER_TAG) (vout tx))
      then fail "bad-txns-issue-restricted-root-owner-token-outpoint-not-found"
      else match GetVerifierStringFromTx tx with
      | Err (_, strError) => fail strError
      | Ok _ =>
          let n := GetTxOutAssetTypes (vout tx) in
          if negb (owners n =? 0) || negb (issues n =? 1) || (reissues n >? 0)
          then fail "bad-txns-failed-issue-asset-formatting-check" else Ok tt
      end
  end.

(** [asset_type] is set to [INVALID] before the name is checked. *)
Definition VerifyReissueAsset (tx : CTransaction) : result string unit :=
  if Z.of_nat (length (vout tx)) <? 3 then fail "bad-txns-vout-size-to-small"
  else if negb (CheckReissueDataTx (back (vout tx))) then fail "bad-txns-reissue-data-not-found"
  else match reissue_from (scriptPubKey (back (vout tx))) with
  | None => fail "bad-txns-reissue-serialization-failed"
  | Some (reissue, _) =>
      let asset_name_to_check :=
        match IsAssetNameValid (ra_strName reissue) with
        | Ok RESTRICTED => skipn 1 (ra_strName reissue)
        | _ => ra_strName reissue
        end in
      if negb (has_transfer (asset_name_to_check ++ OWNER_TAG) (vout tx))
      then fail "bad-txns-reissue-owner-outpoint-not-found"
      else if negb (existsb CheckReissueBurnTx (vout tx)) then fail "bad-txns-reissue-burn-outpoint-not-found"
      else
        let n := GetTxOutAssetTypes (vout tx) in
        if (owners n >? 0) || negb (reissues n =? 1) || (issues n >? 0)
        then fail "bad-txns-failed-reissue-asset-formatting-check" else Ok tt
  end.

Definition CheckAddingTagBurnFee (tx : CTransaction) (count : Z) : bool := pays_burn NULL_ADD_QUALIFIER count (vout tx).

(** * The issued data *)

Definition CheckAmountWithUnits (nAmount nUnits : Z) : bool :=
  let nDivisor := MAX_UNIT - nUnits in
  if (nDivisor <? 0) || (nDivisor >? 8) then false
  else Z.rem nAmount (nth (Z.to_nat nDivisor) [1; 10; 100; 1000; 10000; 100000; 1000000; 10000000; 100000000] 1) =? 0.

Definition hexmap : bytes := str "0123456789abcdef".
Definition HexStr (v : bytes) : bytes :=
  flat_map (fun val => [nth (Z.to_nat (Z.shiftr val 4)) hexmap 0; nth (Z.to_nat (Z.land val 15)) hexmap 0]) v.
(** [p_util_hexdigit] *)
Definition HexDigit (c : Z) : Z :=
  if between "0" "9" c then c - code "0"
  else if between "a" "f" c then c - code "a" + 10
  else if between "A" "F" c then c - code "A" + 10
  else -1.
Definition IsHex (s : bytes) : bool :=
  if negb (forallb (fun c => 0 <=? HexDigit c) s) then false
  else (Z.of_nat (length s) >? 0) && (Z.of_nat (length s) mod 2 =? 0).

Definition EncodeAssetData (decoded : bytes) : bytes :=
  if Z.of_nat (length decoded) =? 34 then EncodeBase58 decoded
  else if Z.of_nat (length decoded) =? 32 then HexStr decoded
  else [].

Definition CheckEncoded (hash : bytes) : result string unit :=
  let encodedStr := EncodeAssetData hash in
  if bytes_eqb (firstn 2 encodedStr) (str "Qm") && (Z.of_nat (length encodedStr) =? 46) then Ok tt
  else if AreMessagesDeployed && (IsHex encodedStr && (Z.of_nat (length encodedStr) =? 64)) then Ok tt
  else fail "Invalid parameter: ipfs_hash is not valid, or txid hash is not the right length".

Definition CheckNewAsset (asset : CNewAsset) : result string unit :=
  match IsAssetNameValid (na_strName asset) with
  | Err _ => fail "Invalid parameter: asset_name must only consist of valid characters and have a size between 3 and 30 characters. See help for more details."
  | Ok assetType =>
      let! _ :=
        match assetType with
        | UNIQUE | MSGCHANNEL =>
            if negb (na_units asset =? UNIQUE_ASSET_UNITS) then fail "Invalid parameter: units must be 0"
            else if negb (na_nAmount asset =? UNIQUE_ASSET_AMOUNT) then fail "Invalid parameter: amount must be 100000000"
            else require (na_nReissuable asset =? 0) "Invalid parameter: reissuable must be 0"
        | QUALIFIER | SUB_QUALIFIER =>
            if negb (na_units asset =? QUALIFIER_ASSET_UNITS) then fail "Invalid parameter: units must be 0"
            else if (na_nAmount asset <? QUALIFIER_ASSET_MIN_AMOUNT) || (na_nAmount asset >? QUALIFIER_ASSET_MAX_AMOUNT)
            then fail "Invalid parameter: amount must be between 100000000 - 1000000000"
            else require (na_nReissuable asset =? 0) "Invalid parameter: reissuable must be 0"
        | _ => Ok tt
        end in
      if IsAssetNameAnOwner (na_strName asset)
      then fail "Invalid parameters: asset_name can't have a '!' at the end of it. See help for more details."
      else if na_nAmount asset <=? 0 then fail "Invalid parameter: asset amount can't be equal to or less than zero."
      else if na_nAmount asset >? MAX_MONEY then fail "Invalid parameter: asset amount greater than max money: 21000000000"
      else if (na_units asset <? 0) || (na_units asset >? 8) then fail "Invalid parameter: units must be between 0-8."
      else if negb (CheckAmountWithUnits (na_nAmount asset) (na_units asset))
      then fail "Invalid parameter: amount must be divisible by the smaller unit assigned to the asset"
      else if negb (na_nReissuable asset =? 0) && negb (na_nReissuable asset =? 1)
      then fail "Invalid parameter: reissuable must be 0 or 1"
      else if negb (na_nHasIPFS asset =? 0) && negb (na_nHasIPFS asset =? 1)
      then fail "Invalid parameter: has_ipfs must be 0 or 1."
      else Ok tt
  end.

Definition CheckReissueAsset (asset : CReissueAsset) : result string unit :=
  if (ra_nAmount asset <? 0) || (ra_nAmount asset >=? MAX_MONEY)
  then fail "Unable to reissue asset: amount must be 0 or larger"
  else if (ra_nUnits asset >? MAX_UNIT) || (ra_nUnits asset <? -1)
  then fail "Unable to reissue asset: unit must be between 8 and -1"
  else
    let fSkip :=
      fTestNet GetParams &&
      ((bytes_eqb (ra_strName asset) (str "GAMINGWEB") && (ra_nReissuable asset =? 109)) ||
       (bytes_eqb (ra_strName asset) (str "UINT8") && (ra_nReissuable asset =? -47))) in
    if negb fSkip && negb (ra_nReissuable asset =? 0) && negb (ra_nReissuable asset =? 1)
    then fail "Unable to reissue asset: reissuable must be 0 or 1" else Ok tt.

Definition VerifyNullAssetDataFlag (flag : Z) : result string unit :=
  if negb (flag =? 0) && negb (flag =? 1) then fail "bad-txns-null-data-flag-must-be-0-or-1" else Ok tt.

(** * Verifier strings *)

Definition chars (s : bytes) : BoolEE.str := map (fun c => ascii_of_nat (Z.to_nat c)) s.
Definition codes (s : BoolEE.str) : bytes := map AssetNames.code s.

(** A [std::set] of strings, as the sorted list of its elements. *)
Fixpoint string_ltb (a b : bytes) : bool :=
  match a, b with
  | _, [] => false
  | [], _ :: _ => true
  | x :: a', y :: b' => (x <? y) || ((x =? y) && string_ltb a' b')
  end.
Fixpoint string_insert (s : bytes) (l : list bytes) : list bytes :=
  match l with
  | [] => [s]
  | t :: l' => if string_ltb s t then s :: l else if bytes_eqb s t then l else t :: string_insert s l'
  end.

(** The leftmost longest match of [[A-Z0-9_.]+], and the rest of the string. *)
Fixpoint span (f : Z -> bool) (s : bytes) : bytes * bytes :=
  match s with
  | [] => ([], [])
  | c :: s' => if f c then let '(a, b) := span f s' in (c :: a, b) else ([], s)
  end.
Fixpoint qualifier_loop (fuel : nat) (s : bytes) (qualifiers : list bytes) : list bytes :=
  match fuel with
  | O => qualifiers
  | S fuel' =>
      let '(found, suffix) := span name_char (snd (span (fun c => negb (name_char c)) s)) in
      match found with
      | [] => qualifiers
      | _ => qualifier_loop fuel' suffix (string_insert found qualifiers)
      end
  end.
Definition ExtractVerifierStringQualifiers (verifier : bytes) : list bytes :=
  qualifier_loop (S (length verifier)) verifier [].

Definition GetStrippedVerifierString (verifier : bytes) : bytes :=
  codes (removeCharacter (removeWhitespaces (chars verifier)) "#"%char).

(** The qualifiers of the verifier string. *)
Definition CheckVerifierString (verifier : bytes) : result string (list bytes) :=
  if bytes_eqb verifier (str "true") then Ok []
  else match verifier with
  | [] => fail "Verifier string can not be empty. To default to true, use 'true'"
  | _ =>
      let strippedVerifier := GetStrippedVerifierString verifier in
      if Z.of_nat (length strippedVerifier) >? 80
      then fail "Verifier string has length greater than 80 after whitespaces and '#' are removed"
      else
        let setFoundQualifiers := ExtractVerifierStringQualifiers strippedVerifier in
        match find (fun q => negb (IsQualifierNameValid (QUALIFIER_CHAR :: q))) setFoundQualifiers with
        | Some qualifier => fail ("bad-txns-null-verifier-invalid-asset-name-" ++ text qualifier)
        | None =>
            match resolve (chars verifier) (map (fun q => (chars q, true)) setFoundQualifiers) with
            | Ok _ => Ok setFoundQualifiers
            | Err _ => fail "bad-txns-null-verifier-failed-syntax-check"
            end
        end
  end.

Definition CheckVerifierAssetTxOut (txout : CTxOut) : result string unit :=
  match AssetNullVerifierDataFromScript (scriptPubKey txout) with
  | None => fail "bad-txns-null-verifier-data-serialization"
  | Some verifier =>
      if existsb (Z.eqb 32) verifier then fail "bad-txns-null-verifier-data-contained-whitespaces"
      else if existsb (Z.eqb QUALIFIER_CHAR) verifier
      then fail "bad-txns-null-verifier-data-contained-qualifier-character-#"
      else let! _ := CheckVerifierString verifier in Ok tt
  end.
End Checks.

(** * Lemmas *)

(** Every check on the way to a positive answer was passed. *)
Ltac passed R :=
  repeat (match type of R with
  | bind ?c _ = Ok _ => let E := fresh "E" in destruct c eqn:E; cbn [bind] in R; [|discriminate R]
  | (if ?b then _ else _) = Ok _ => let E := fresh "E" in destruct b eqn:E; try discriminate R
  | match ?x with _ => _ end = Ok _ => let E := fresh "E" in destruct x eqn:E; try discriminate R
  end).

Lemma eqb_type (a b : AssetType) : AssetType_eqb a b = true <-> a = b.
Proof. destruct a, b; cbn; split; congruence. Qed.

Section Outputs.
Context {A : Type}.
Implicit Types (f g : A -> bool) (l : list A).

Definition count f l : Z := Z.of_nat (length (filter f l)).

Lemma count_nonneg f l : 0 <= count f l.
Proof. unfold count; lia. Qed.

Lemma count_snoc f l x : count f (l ++ [x]) = count f l + (if f x then 1 else 0).
Proof. unfold count; rewrite filter_app, length_app; cbn; destruct (f x); cbn; lia. Qed.

Lemma count_cons f l x : count f (x :: l) = (if f x then 1 else 0) + count f l.
Proof. unfold count; cbn; destruct (f x); cbn [length]; lia. Qed.

Lemma count_none f l x : count f l = 0 -> In x l -> f x = false.
Proof.
  unfold count; intros C I; destruct (f x) eqn:F; [|reflexivity].
  pose proof (proj2 (filter_In f x l) (conj I F)) as K; destruct (filter f l); [destruct K|cbn in C; lia].
Qed.

Lemma count_one f l x y : count f l = 1 -> In x l -> In y l -> f x = true -> f y = true -> x = y.
Proof.
  unfold count; intros C Ix Iy Fx Fy.
  pose proof (proj2 (filter_In f x l) (conj Ix Fx)) as Kx; pose proof (proj2 (filter_In f y l) (conj Iy Fy)) as Ky.
  destruct (filter f l) as [|z [|]]; cbn in C, Kx, Ky; try lia.
  destruct Kx as [<- | []], Ky as [<- | []]; reflexivity.
Qed.

Lemma count_pos f l : 0 < count f l -> exists x, In x l /\ f x = true.
Proof.
  unfold count; destruct (filter f l) as [|x k] eqn:E; cbn; [lia|intros _].
  exists x; apply filter_In; rewrite E; now left.
Qed.

(** Where the elements with [f] are as many as those with [g], which they all
    have, they are the same. *)
Lemma count_equal f g l : (forall x, f x = true -> g x = true) -> count f l = count g l ->
  forall x, In x l -> g x = true -> f x = true.
Proof.
  intros S; assert (L : forall k, count f k <= count g k).
  { induction k as [|y k IH]; [unfold count; cbn; lia|rewrite !count_cons].
    pose proof (S y) as Sy; destruct (f y); [rewrite Sy by reflexivity; lia|destruct (g y); lia]. }
  induction l as [|y l IH]; intros C x I G; [destruct I|].
  rewrite !count_cons in C; pose proof (L l) as Ll; pose proof (S y) as Sy.
  destruct I as [<-|I]; [destruct (f y) eqn:F; [reflexivity|rewrite G in C; lia]|].
  apply IH; auto; destruct (f y); [rewrite Sy in C by reflexivity; lia|destruct (g y); lia].
Qed.
End Outputs.

Lemma back_in outs : outs <> [] -> In (back outs) outs.
Proof.
  induction outs as [|o outs IH]; [congruence|intros _].
  destruct outs as [|o' outs]; [now left|right; apply IH; discriminate].
Qed.

Lemma before_back_in outs : (2 <= length outs)%nat -> In (before_back outs) outs.
Proof. intros L; unfold before_back; apply nth_In; lia. Qed.

Section Facts.
Context {node : Node}.

Abbreviation asset_from := (AssetFromScript node_Hash160 EncodeDestination).
Abbreviation owner_from := (OwnerAssetFromScript node_Hash160 EncodeDestination).
Abbreviation reissue_from := (ReissueAssetFromScript node_Hash160 EncodeDestination).
Abbreviation transfer_from := (TransferAssetFromScript node_Hash160 EncodeDestination AreTransferScriptsSizeDeployed).

(** The counts are those of the outputs of each kind. *)
Lemma counts_correct outs :
  let n := GetTxOutAssetTypes outs in
  issues n = count CheckIssueDataTx outs /\ owners n = count CheckOwnerDataTx outs /\
  reissues n = count CheckReissueDataTx outs.
Proof.
  unfold GetTxOutAssetTypes; induction outs as [|o outs IH] using rev_ind; [repeat split|].
  rewrite fold_left_app; cbn [fold_left]; cbn zeta in IH |- *; destruct IH as (I & W & R).
  rewrite !count_snoc, <- I, <- W, <- R; unfold CheckIssueDataTx, CheckOwnerDataTx, CheckReissueDataTx.
  unfold IsScriptNewAsset, IsScriptOwnerAsset, IsScriptReissueAsset.
  destruct (IsAssetScript (scriptPubKey o)) as [[[[] []] ?]|]; cbn; repeat split; lia.
Qed.

Lemma issue_output s a addr : asset_from s = Some (a, addr) -> is_some (IsScriptNewAsset s) = true.
Proof. unfold AssetFromScript; destruct (IsScriptNewAsset s); [reflexivity|discriminate]. Qed.
Lemma owner_output s n addr : owner_from s = Some (n, addr) -> is_some (IsScriptOwnerAsset s) = true.
Proof. unfold OwnerAssetFromScript; destruct (IsScriptOwnerAsset s); [reflexivity|discriminate]. Qed.
Lemma reissue_output s r addr : reissue_from s = Some (r, addr) -> is_some (IsScriptReissueAsset s) = true.
Proof. unfold ReissueAssetFromScript; destruct (IsScriptReissueAsset s); [reflexivity|discriminate]. Qed.

Lemma typed_output wanted s : is_some (IsScriptNewTyped wanted s) = true ->
  exists a addr t, asset_from s = Some (a, addr) /\ IsAssetNameValid (na_strName a) = Ok t /\ wanted t = true /\
    asset_at (IsScriptNewTyped wanted s) s = Some (a, addr).
Proof.
  unfold IsScriptNewTyped; destruct (IsAssetScript s) as [[[ty ow] i]|] eqn:S; [|discriminate].
  destruct (asset_from s) as [[a addr]|] eqn:F; [|discriminate].
  destruct (IsAssetNameValid (na_strName a)) as [t|] eqn:V; [|discriminate].
  destruct (wanted t) eqn:W; [|discriminate]; intros _; exists a, addr, t; repeat split; auto.
  unfold AssetFromScript, IsScriptNewAsset in F; rewrite S in F; cbn.
  destruct ty; try discriminate F; destruct ow; [discriminate F|exact F].
Qed.

Lemma typed_same wanted s a addr : asset_from s = Some (a, addr) ->
  is_some (IsScriptNewTyped wanted s) =
  match IsAssetNameValid (na_strName a) with Ok t => wanted t | Err _ => false end.
Proof.
  intros F; unfold IsScriptNewTyped; rewrite F.
  destruct (IsAssetScript s) as [[[ty ow] i]|] eqn:S.
  - destruct (IsAssetNameValid _) as [t|]; [destruct (wanted t)|]; reflexivity.
  - unfold AssetFromScript, IsScriptNewAsset in F; rewrite S in F; discriminate.
Qed.

(** * Who may create an asset *)

(** The token whose owner may issue an asset. *)
Definition authority (name : bytes) (t : AssetType) : option bytes :=
  match t with
  | SUB | UNIQUE | MSGCHANNEL => Some (GetParentName name ++ OWNER_TAG)
  | SUB_QUALIFIER => Some (GetParentName name)
  | RESTRICTED => Some (skipn 1 name ++ OWNER_TAG)
  | _ => None
  end.

Definition authorised (name : bytes) (t : AssetType) (outs : list CTxOut) : Prop :=
  match authority name t with Some token => has_transfer token outs = true | None => True end.

Lemma type_valid name t : IsAssetNameValid name = Ok t -> type_of_name name = t.
Proof. unfold type_of_name; now intros ->. Qed.

Lemma single_issue outs o : issues (GetTxOutAssetTypes outs) = 1 -> CheckIssueDataTx (back outs) = true ->
  In o outs -> CheckIssueDataTx o = true -> o = back outs.
Proof.
  intros C B I D; rewrite (proj1 (counts_correct outs)) in C.
  apply (count_one CheckIssueDataTx outs); auto; apply back_in; intros ->; destruct I.
Qed.

(** The last output of a transaction with one issue is that issue. *)
Lemma last_issue tx o a addr : issues (GetTxOutAssetTypes (vout tx)) = 1 ->
  CheckIssueDataTx (back (vout tx)) = true -> In o (vout tx) -> asset_from (scriptPubKey o) = Some (a, addr) ->
  o = back (vout tx).
Proof. intros C B I F; apply single_issue; auto; exact (issue_output _ _ _ F). Qed.

Lemma single_count outs : issues (GetTxOutAssetTypes outs) = 1 -> count CheckIssueDataTx outs = 1.
Proof. now rewrite (proj1 (counts_correct outs)). Qed.

Lemma VerifyNewAsset_ok tx o a addr t : VerifyNewAsset tx = Ok tt -> In o (vout tx) ->
  asset_from (scriptPubKey o) = Some (a, addr) -> IsAssetNameValid (na_strName a) = Ok t ->
  o = back (vout tx) /\ pays_burn t (count CheckIssueDataTx (vout tx)) (vout tx) = true /\ (t = SUB -> authorised (na_strName a) t (vout tx)) /\
  exists addr', owner_from (scriptPubKey (before_back (vout tx))) = Some (na_strName a ++ OWNER_TAG, addr').
Proof.
  unfold VerifyNewAsset; intros R I F V; passed R; bool_to_prop.
  assert (O : o = back (vout tx)) by (eapply last_issue; eauto); subst o.
  match goal with E : asset_from _ = Some (?a', ?d) |- _ => rewrite E in F; injection F as -> -> end.
  rewrite (type_valid _ _ V), (single_count _ H1) in *; split_all; auto.
  - intros ->; unfold authorised; cbn [authority].
    match goal with E : AssetType_eqb SUB SUB && _ = false |- _ => cbn [AssetType_eqb andb] in E end; now bool_to_prop.
  - match goal with E : bytes_eqb ?n _ = true |- _ => apply bytes_eqb_eq in E; subst n end; eauto.
Qed.

Lemma typed_from wanted s c a addr : asset_at (IsScriptNewTyped wanted s) s = Some c ->
  asset_from s = Some (a, addr) ->
  c = (a, addr) /\ exists t, IsAssetNameValid (na_strName a) = Ok t /\ wanted t = true.
Proof.
  intros C F; assert (S : is_some (IsScriptNewTyped wanted s) = true) by
    (destruct (IsScriptNewTyped wanted s); [reflexivity|discriminate]).
  destruct (typed_output _ _ S) as (a' & d & t & F' & V & W & C'); rewrite F in F'; injection F' as <- <-.
  rewrite C in C'; injection C' as ->; eauto.
Qed.

(** The three other kinds of assets that are issued alone. *)
Definition issued_alone (from : CScript -> option (CNewAsset * bytes)) (types : AssetType -> Prop) (tx : CTransaction)
  : Prop := forall o a addr, In o (vout tx) -> asset_from (scriptPubKey o) = Some (a, addr) ->
  from (scriptPubKey (back (vout tx))) = Some (a, addr) /\
  exists t, IsAssetNameValid (na_strName a) = Ok t /\ types t /\
    pays_burn t (count CheckIssueDataTx (vout tx)) (vout tx) = true /\ authorised (na_strName a) t (vout tx).

Ltac issued_alone tx wanted :=
  intros R o a addr I F; passed R; bool_to_prop; subst;
  assert (o = back (vout tx)) as -> by (eapply last_issue; eauto);
  match goal with E : _ = Some (_, _), F : asset_from _ = Some _ |- _ =>
    let K := fresh "K" in let t := fresh "t" in let V := fresh "V" in let W := fresh "W" in
    destruct (typed_from wanted _ _ _ _ E F) as (K & t & V & W); injection K as -> ->;
    split; [reflexivity || assumption|exists t]; rewrite ?(type_valid _ _ V) in *
  end;
  match goal with C : issues _ = 1 |- _ => rewrite (single_count _ C) end.

Lemma VerifyNewMsgChannelAsset_ok tx : VerifyNewMsgChannelAsset tx = Ok tt ->
  issued_alone MsgChannelAssetFromScript (eq MSGCHANNEL) tx.
Proof.
  unfold VerifyNewMsgChannelAsset; issued_alone tx (AssetType_eqb MSGCHANNEL).
  apply eqb_type in W; subst t; auto.
Qed.

Lemma VerifyNewQualfierAsset_ok tx : VerifyNewQualfierAsset tx = Ok tt ->
  issued_alone QualifierAssetFromScript (fun t => t = QUALIFIER \/ t = SUB_QUALIFIER) tx.
Proof.
  unfold VerifyNewQualfierAsset;
    issued_alone tx (fun t => AssetType_eqb QUALIFIER t || AssetType_eqb SUB_QUALIFIER t).
  apply orb_true_iff in W; rewrite !eqb_type in W; destruct W; subst t; split_all; auto; [exact Logic.I|].
  unfold authorised; cbn [authority].
  match goal with E : AssetType_eqb SUB_QUALIFIER SUB_QUALIFIER && _ = false |- _ => cbn [AssetType_eqb andb] in E end.
  now bool_to_prop.
Qed.

Lemma VerifyNewRestrictedAsset_ok tx : VerifyNewRestrictedAsset tx = Ok tt ->
  issued_alone RestrictedAssetFromScript (eq RESTRICTED) tx.
Proof.
  unfold VerifyNewRestrictedAsset; issued_alone tx (AssetType_eqb RESTRICTED).
  apply eqb_type in W; subst t; split_all; auto.
  unfold authorised; cbn [authority]; unfold GetParentName in *; rewrite V in *; assumption.
Qed.

Lemma VerifyReissueAsset_ok tx o r addr : VerifyReissueAsset tx = Ok tt -> In o (vout tx) ->
  reissue_from (scriptPubKey o) = Some (r, addr) ->
  o = back (vout tx) /\ existsb CheckReissueBurnTx (vout tx) = true /\
  has_transfer ((if AssetType_eqb (type_of_name (ra_strName r)) RESTRICTED && name_valid (ra_strName r)
                 then skipn 1 (ra_strName r) else ra_strName r) ++ OWNER_TAG) (vout tx) = true.
Proof.
  unfold VerifyReissueAsset; intros R I F; passed R; bool_to_prop; subst.
  assert (O : o = back (vout tx)).
  { apply (count_one CheckReissueDataTx (vout tx)); auto.
    - rewrite <- (proj2 (proj2 (counts_correct (vout tx)))); assumption.
    - apply back_in; intros N; rewrite N in I; destruct I.
    - exact (reissue_output _ _ _ F). }
  subst o; match goal with E : reissue_from _ = Some _ |- _ => rewrite F in E; injection E as <- <- end.
  split_all; auto; unfold type_of_name, name_valid; destruct (IsAssetNameValid (ra_strName r)) as [[]|]; cbn;
    rewrite ?andb_false_r; assumption.
Qed.

(** ** Unique assets *)

Definition is_unique (out : CTxOut) : bool := is_some (IsScriptNewUniqueAsset (scriptPubKey out)).

Lemma unique_parent name : IsAssetNameValid name = Ok UNIQUE -> GetParentName name <> [].
Proof.
  intros V; destruct (unique_inv name V) as (p & t & -> & T & B & _).
  unfold GetParentName; rewrite V; cbv zeta.
  change (p ++ str "#" ++ t) with (p ++ UNIQUE_TAG_DELIMITER :: t); rewrite upto_delimiter by exact T.
  intros ->; vm_compute in B; discriminate.
Qed.

Lemma unique_loop_ok outs : forall names root n root' n', unique_loop outs names root n = Ok (root', n') ->
  n' = n + count is_unique outs /\ (root <> [] -> root' = root) /\
  (forall o a addr, In o outs -> is_unique o = true -> asset_from (scriptPubKey o) = Some (a, addr) ->
   root' = GetParentName (na_strName a)).
Proof.
  induction outs as [|o outs IH]; intros names root n root' n'; cbn [unique_loop].
  - intros [= <- <-]; unfold count; cbn; split_all; [lia|auto|intros ? ? ? []].
  - rewrite count_cons; fold (is_unique o); destruct (is_unique o) eqn:U; intros R.
    + destruct (typed_output _ _ U) as (a & addr & t & F & V & W & _); apply eqb_type in W; subst t.
      rewrite F in R; passed R; bool_to_prop; apply IH in R; destruct R as (-> & K & Q).
      match goal with E : bytes_eqb _ (GetParentName _) = true |- _ => apply bytes_eqb_eq in E; rewrite E in * end.
      specialize (K (unique_parent _ V)); split_all; [lia| |].
      * intros N; destruct (bytes_eqb root []) eqn:B; [apply bytes_eqb_eq in B; contradiction|congruence].
      * intros o' a' addr' [<-|I] U' F'; [rewrite F in F'; injection F' as <- <-; exact K|eauto].
    + apply IH in R; destruct R as (-> & K & Q); split_all; [lia|exact K|].
      intros o' a' addr' [<-|I] U'; [congruence|eauto].
Qed.

Lemma VerifyNewUniqueAsset_ok tx o a addr : VerifyNewUniqueAsset tx = Ok tt -> In o (vout tx) ->
  asset_from (scriptPubKey o) = Some (a, addr) ->
  IsAssetNameValid (na_strName a) = Ok UNIQUE /\ is_unique o = true /\
  pays_burn UNIQUE (count CheckIssueDataTx (vout tx)) (vout tx) = true /\
  authorised (na_strName a) UNIQUE (vout tx).
Proof.
  unfold VerifyNewUniqueAsset; intros R I F; passed R; subst; bool_to_prop.
  match goal with E : unique_loop _ _ _ _ = Ok _ |- _ => apply unique_loop_ok in E; destruct E as (N & _ & Q) end.
  match goal with E : issues _ = _ |- _ => rewrite (proj1 (counts_correct (vout tx))) in E; rename E into C end.
  assert (U : is_unique o = true).
  { apply (count_equal is_unique CheckIssueDataTx (vout tx)); [|lia|exact I|exact (issue_output _ _ _ F)].
    intros o' U; destruct (typed_output _ _ U) as (a' & d & t & F' & _); exact (issue_output _ _ _ F'). }
  destruct (typed_output _ _ U) as (a' & d & t & F' & V & W & _); rewrite F in F'; injection F' as <- <-.
  apply eqb_type in W; subst t; rewrite C, (Q _ _ _ I U F) in *; auto.
Qed.
End Facts.
