(* ===== verification/TxCheck.v ===== *)
(** The checks on a transaction that need no context (src/consensus/tx_verify.cpp:
    [CheckTransaction]): its size, amounts and inputs, the asset data in its
    outputs, and the form of transactions that create assets.

    [state.DoS(level, false, code, reason)] is [DoS level reason].  The sets
    and the map of the source are sorted lists of their keys; every count in
    [mapNullDataTxCount] is one, as a second change is rejected at once. *)

From Stdlib Require Import ZArith String Ascii List Bool Lia Arith.
From S2P Require Import Prelude Serialize Script Standard Transaction Compressor BoolEE AssetTypes AssetNames AssetTx.
Import ListNotations.
Open Scope Z_scope.

Inductive rejection := DoS (nDoS : Z) (strRejectReason : string).

Definition WITNESS_SCALE_FACTOR : Z := 4.
Definition GetMaxBlockWeight : Z := MAX_BLOCK_WEIGHT_RIP2.

(** A check of the asset code, whose error becomes the reject reason. *)
Definition check {A : Type} (level : Z) (prefix : string) (r : result string A) : result rejection A :=
  match r with Ok a => Ok a | Err e => Err (DoS level (prefix ++ e)) end.
Definition reject {A : Type} (level : Z) (reason : string) : result rejection A := Err (DoS level reason).

(** What the loop over the outputs has found so far. *)
Record out_scan := mkScan {
  nValueOut : Z;
  setAssetTransferNames : list bytes;
  mapNullDataTxCount : list (bytes * bytes);
  setNullGlobalAssetChanges : list bytes;
  fContainsNullAssetVerifierTx : bool;
  nCountAddTagOuts : Z
}.

Definition pair_ltb (a b : bytes * bytes) : bool :=
  string_ltb (fst a) (fst b) || (bytes_eqb (fst a) (fst b) && string_ltb (snd a) (snd b)).
Definition pair_eqb (a b : bytes * bytes) : bool := bytes_eqb (fst a) (fst b) && bytes_eqb (snd a) (snd b).
Fixpoint pair_insert (p : bytes * bytes) (l : list (bytes * bytes)) : list (bytes * bytes) :=
  match l with
  | [] => [p]
  | q :: l' => if pair_ltb p q then p :: l else if pair_eqb p q then l else q :: pair_insert p l'
  end.

Definition is_nil {A : Type} (l : list A) : bool := match l with [] => true | _ => false end.
Definition outpoint_eqb (a b : COutPoint) : bool := bytes_eqb (op_hash a) (op_hash b) && (op_n a =? op_n b).

Section CheckTransaction.
Context {node : Node}.

Abbreviation asset_from := (AssetFromScript node_Hash160 EncodeDestination).
Abbreviation reissue_from := (ReissueAssetFromScript node_Hash160 EncodeDestination).
Abbreviation transfer_from := (TransferAssetFromScript node_Hash160 EncodeDestination AreTransferScriptsSizeDeployed).
Abbreviation null_data_from := (AssetNullDataFromScript node_Hash160 EncodeDestination).

(** * One output *)

Definition scan_value (txout : CTxOut) (s : out_scan) : result rejection out_scan :=
  if nValue txout <? 0 then reject 100 "bad-txns-vout-negative"
  else if nValue txout >? MAX_MONEY then reject 100 "bad-txns-vout-toolarge"
  else
    let total := s64 (nValueOut s + nValue txout) in
    if negb (MoneyRange total) then reject 100 "bad-txns-txouttotal-toolarge"
    else Ok (mkScan total (setAssetTransferNames s) (mapNullDataTxCount s) (setNullGlobalAssetChanges s)
               (fContainsNullAssetVerifierTx s) (nCountAddTagOuts s)).

(** Restrictions and tags of addresses, global freezes, and verifier strings. *)
Definition scan_null_asset (txout : CTxOut) (s : out_scan) : result rejection out_scan :=
  if negb (IsNullAsset (scriptPubKey txout)) then Ok s
  else if IsNullAssetTxDataScript (scriptPubKey txout) then
    match null_data_from (scriptPubKey txout) with
    | None => reject 100 "bad-txns-null-asset-data-serialization"
    | Some (data, address) =>
        let! _ := check 100 "" (VerifyNullAssetDataFlag (nd_flag data)) in
        let pair := (nd_asset_name data, address) in
        if existsb (pair_eqb pair) (mapNullDataTxCount s)
        then reject 100 "bad-txns-null-data-only-one-change-per-asset-address"
        else
          Ok (mkScan (nValueOut s) (setAssetTransferNames s) (pair_insert pair (mapNullDataTxCount s))
                (setNullGlobalAssetChanges s) (fContainsNullAssetVerifierTx s)
                (if IsAssetNameAQualifier (nd_asset_name data) false && (nd_flag data =? 1)
                 then nCountAddTagOuts s + 1 else nCountAddTagOuts s))
    end
  else if IsNullGlobalRestrictionAssetTxDataScript (scriptPubKey txout) then
    match GlobalAssetNullDataFromScript (scriptPubKey txout) with
    | None => reject 100 "bad-txns-null-global-asset-data-serialization"
    | Some data =>
        let! _ := check 100 "" (VerifyNullAssetDataFlag (nd_flag data)) in
        if existsb (bytes_eqb (nd_asset_name data)) (setNullGlobalAssetChanges s)
        then reject 100 "bad-txns-null-data-only-one-global-change-per-asset-name"
        else
          Ok (mkScan (nValueOut s) (setAssetTransferNames s) (mapNullDataTxCount s)
                (string_insert (nd_asset_name data) (setNullGlobalAssetChanges s))
                (fContainsNullAssetVerifierTx s) (nCountAddTagOuts s))
    end
  else if IsNullAssetVerifierTxDataScript (scriptPubKey txout) then
    let! _ := check 100 "" (CheckVerifierAssetTxOut txout) in
    if fContainsNullAssetVerifierTx s then reject 100 "bad-txns-null-data-only-one-verifier-per-tx"
    else Ok (mkScan (nValueOut s) (setAssetTransferNames s) (mapNullDataTxCount s) (setNullGlobalAssetChanges s)
               true (nCountAddTagOuts s))
  else Ok s.

Definition scan_transfer (txout : CTxOut) (s : out_scan) : result rejection out_scan :=
  match transfer_from (scriptPubKey txout) with
  | None => reject 100 "bad-txns-transfer-asset-bad-deserialize"
  | Some (transfer, _) =>
      match IsAssetNameValid (at_strName transfer) with
      | Err _ => reject 100 "bad-txns-transfer-asset-name-invalid"
      | Ok assetType =>
          if IsAssetNameAnOwner (at_strName transfer) && negb (at_nAmount transfer =? OWNER_ASSET_AMOUNT)
          then reject 100 "bad-txns-transfer-owner-amount-was-not-1"
          else if AssetType_eqb assetType UNIQUE && negb (at_nAmount transfer =? UNIQUE_ASSET_AMOUNT)
          then reject 100 "bad-txns-transfer-unique-amount-was-not-1"
          else if (AssetType_eqb assetType QUALIFIER || AssetType_eqb assetType SUB_QUALIFIER) &&
                  ((at_nAmount transfer <? QUALIFIER_ASSET_MIN_AMOUNT) ||
                   (at_nAmount transfer >? QUALIFIER_ASSET_MAX_AMOUNT))
          then reject 100 "bad-txns-transfer-qualifier-amount-must be between 1 - 100"
          else if negb (nValue txout =? 0) then reject 100 "bad-txns-asset-transfer-amount-isn't-zero"
          else Ok (mkScan (nValueOut s) (string_insert (at_strName transfer) (setAssetTransferNames s))
                     (mapNullDataTxCount s) (setNullGlobalAssetChanges s) (fContainsNullAssetVerifierTx s)
                     (nCountAddTagOuts s))
      end
  end.

Definition scan_asset (fMempoolCheck fBlockCheck : bool) (txout : CTxOut) (s : out_scan)
  : result rejection out_scan :=
  match IsAssetScript (scriptPubKey txout) with
  | None => Ok s
  | Some (TX_TRANSFER_ASSET, _, _) => scan_transfer txout s
  | Some (TX_NEW_ASSET, _, _) =>
      if negb (nValue txout =? 0) then reject 100 "bad-txns-asset-issued-amount-isn't-zero" else Ok s
  | Some (TX_REISSUE_ASSET, _, _) =>
      if AreEnforcedValuesDeployed && fBlockCheck && negb (nValue txout =? 0)
      then reject 0 "bad-txns-asset-reissued-amount-isn't-zero"
      else if fMempoolCheck && negb (nValue txout =? 0)
      then reject 0 "bad-mempool-txns-asset-reissued-amount-isn't-zero"
      else Ok s
  | Some (_, _, _) => reject 0 "bad-asset-type-not-any-of-the-main-three"
  end.

Fixpoint scan_outputs (fMempoolCheck fBlockCheck : bool) (outs : list CTxOut) (s : out_scan)
  : result rejection out_scan :=
  match outs with
  | [] => Ok s
  | txout :: outs' =>
      let! s := scan_value txout s in
      let! s := scan_null_asset txout s in
      let! s := scan_asset fMempoolCheck fBlockCheck txout s in
      scan_outputs fMempoolCheck fBlockCheck outs' s
  end.

(** * The whole transaction *)

(** The first character of a string.  The standard leaves [front] of an empty
    string undefined; the library of the node reads the terminating zero. *)
Definition front_char (s : bytes) : Z := hd 0 s.

Definition check_tags (tx : CTransaction) (s : out_scan) : result rejection unit :=
  if negb (nCountAddTagOuts s =? 0) && negb (CheckAddingTagBurnFee tx (nCountAddTagOuts s))
  then reject 100 "bad-txns-tx-doesn't-contain-required-burn-fee-for-adding-tags"
  else Ok tt.

Fixpoint check_null_data (transferred : list bytes) (entries : list (bytes * bytes)) : result rejection unit :=
  match entries with
  | [] => Ok tt
  | (name, _) :: entries' =>
      if front_char name =? RESTRICTED_CHAR then
        if negb (existsb (bytes_eqb (skipn 1 name ++ OWNER_TAG)) transferred)
        then reject 100 "bad-txns-tx-contains-restricted-asset-null-tx-without-asset-transfer"
        else check_null_data transferred entries'
      else
        if negb (existsb (bytes_eqb name) transferred)
        then reject 100 "bad-txns-tx-contains-qualifier-asset-null-tx-without-asset-transfer"
        else check_null_data transferred entries'
  end.

Fixpoint check_global (transferred : list bytes) (names : list bytes) : result rejection unit :=
  match names with
  | [] => Ok tt
  | name :: names' =>
      if Z.of_nat (length name) =? 0
      then reject 100 "bad-txns-tx-contains-global-asset-null-tx-with-null-asset-name"
      else if negb (existsb (bytes_eqb (skipn 1 name ++ OWNER_TAG)) transferred)
      then reject 100 "bad-txns-tx-contains-global-asset-null-tx-without-asset-transfer"
      else check_global transferred names'
  end.

Fixpoint check_duplicates (ins : list CTxIn) (vInOutPoints : list COutPoint) : result rejection unit :=
  match ins with
  | [] => Ok tt
  | txin :: ins' =>
      if existsb (outpoint_eqb (prevout txin)) vInOutPoints then reject 100 "bad-txns-inputs-duplicate"
      else check_duplicates ins' (prevout txin :: vInOutPoints)
  end.

Definition check_inputs (tx : CTransaction) : result rejection unit :=
  if IsCoinBase tx then
    let len := match vin tx with txin :: _ => Z.of_nat (length (scriptSig txin)) | [] => 0 end in
    if (len <? 2) || (len >? 100) then reject 100 "bad-cb-length"
    else if AreCoinbaseCheckAssetsDeployed &&
            existsb (fun out => is_some (IsAssetScript (scriptPubKey out)) || IsNullAsset (scriptPubKey out)) (vout tx)
    then reject 0 "bad-txns-coinbase-contains-asset-txes"
    else Ok tt
  else if existsb (fun txin => outpoint_IsNull (prevout txin)) (vin tx) then reject 10 "bad-txns-prevout-null"
  else Ok tt.

(** * Transactions that create assets *)

Definition check_new_asset (tx : CTransaction) : result rejection unit :=
  let! _ := check 100 "" (VerifyNewAsset tx) in
  match AssetFromTransaction tx with
  | None => reject 100 "bad-txns-issue-asset-from-transaction"
  | Some (asset, strAddress) =>
      let! _ := check 100 "" (IsNewOwnerTxValid tx (na_strName asset) strAddress) in
      check 100 "" (CheckNewAsset asset)
  end.

(** Whether a restricted asset is reissued. *)
Definition check_reissue (tx : CTransaction) : result rejection bool :=
  let! _ := check 100 "" (VerifyReissueAsset tx) in
  match ReissueAssetFromTransaction tx with
  | None => reject 100 "bad-txns-reissue-asset"
  | Some (reissue, _) =>
      let! _ := check 100 "" (CheckReissueAsset reissue) in
      if AssetType_eqb (type_of_name (ra_strName reissue)) RESTRICTED then
        match GetVerifierStringFromTx tx with
        | Err (false, strError) => reject 100 ("bad-txns-reissue-restricted-verifier-" ++ strError)
        | _ => Ok true
        end
      else Ok false
  end.

Fixpoint check_uniques (outs : list CTxOut) : result rejection unit :=
  match outs with
  | [] => Ok tt
  | out :: outs' =>
      let! _ :=
        if is_some (IsScriptNewUniqueAsset (scriptPubKey out)) then
          match asset_from (scriptPubKey out) with
          | None => reject 100 "bad-txns-check-transaction-issue-unique-asset-serialization"
          | Some (asset, _) => check 100 "bad-txns-issue-unique" (CheckNewAsset asset)
          end
        else Ok tt in
      check_uniques outs'
  end.
Definition check_new_unique (tx : CTransaction) : result rejection unit :=
  let! _ := check 100 "" (VerifyNewUniqueAsset tx) in check_uniques (vout tx).

Definition check_new_channel (tx : CTransaction) : result rejection unit :=
  let! _ := check 100 "" (VerifyNewMsgChannelAsset tx) in
  match MsgChannelAssetFromTransaction tx with
  | None => reject 100 "bad-txns-issue-msgchannel-from-transaction"
  | Some (asset, _) => check 100 "bad-txns-issue-msgchannel" (CheckNewAsset asset)
  end.

Definition check_new_qualifier (tx : CTransaction) : result rejection unit :=
  let! _ := check 100 "" (VerifyNewQualfierAsset tx) in
  match QualifierAssetFromTransaction tx with
  | None => reject 100 "bad-txns-issue-qualifier-from-transaction"
  | Some (asset, _) => check 100 "bad-txns-issue-qualfier" (CheckNewAsset asset)
  end.

Definition check_new_restricted (tx : CTransaction) : result rejection unit :=
  let! _ := check 100 "" (VerifyNewRestrictedAsset tx) in
  match RestrictedAssetFromTransaction tx with
  | None => reject 100 "bad-txns-issue-restricted-from-transaction"
  | Some (asset, _) =>
      let! _ := check 100 "bad-txns-issue-restricted" (CheckNewAsset asset) in
      match GetVerifierStringFromTx tx with
      | Err (_, strError) => reject 100 ("bad-txns-issue-restricted-verifier-search-" ++ strError)
      | Ok _ => Ok tt
      end
  end.

(** No asset is created: only transfers, and [OP_HEMP_ASSET] nowhere else but
    at the start of a script. *)
Fixpoint check_no_issue (outs : list CTxOut) : result rejection unit :=
  match outs with
  | [] => Ok tt
  | out :: outs' =>
      match IsAssetScript (scriptPubKey out) with
      | Some (TX_TRANSFER_ASSET, _, _) => check_no_issue outs'
      | Some _ => reject 100 "bad-txns-bad-asset-transaction"
      | None =>
          if negb (Find (scriptPubKey out) OP_HEMP_ASSET =? 0) && negb (get (scriptPubKey out) 0 =? OP_HEMP_ASSET)
          then reject 100 "bad-txns-op-hemp-asset-not-in-right-script-location"
          else check_no_issue outs'
      end
  end.

(** Which restricted asset the transaction creates: a new one, or more of an
    existing one. *)
Definition check_issuance (tx : CTransaction) : result rejection (bool * bool) :=
  if tx_IsNewAsset tx then let! _ := check_new_asset tx in Ok (false, false)
  else if tx_IsReissueAsset tx then let! restricted := check_reissue tx in Ok (false, restricted)
  else if tx_IsNewUniqueAsset tx then let! _ := check_new_unique tx in Ok (false, false)
  else if tx_IsNewMsgChannelAsset tx then let! _ := check_new_channel tx in Ok (false, false)
  else if tx_IsNewQualifierAsset tx then let! _ := check_new_qualifier tx in Ok (false, false)
  else if tx_IsNewRestrictedAsset tx then let! _ := check_new_restricted tx in Ok (true, false)
  else let! _ := check_no_issue (vout tx) in Ok (false, false).

Definition CheckTransaction (tx : CTransaction) (fCheckDuplicateInputs fMempoolCheck fBlockCheck : bool)
  : result rejection unit :=
  if is_nil (vin tx) then reject 10 "bad-txns-vin-empty"
  else if is_nil (vout tx) then reject 10 "bad-txns-vout-empty"
  else if Z.of_nat (length (SerializeTransaction false tx)) * WITNESS_SCALE_FACTOR >? GetMaxBlockWeight
  then reject 100 "bad-txns-oversize"
  else
    let! s := scan_outputs fMempoolCheck fBlockCheck (vout tx) (mkScan 0 [] [] [] false 0) in
    let! _ := check_tags tx s in
    let! _ := check_null_data (setAssetTransferNames s) (mapNullDataTxCount s) in
    let! _ := check_global (setAssetTransferNames s) (setNullGlobalAssetChanges s) in
    let! _ := if fCheckDuplicateInputs then check_duplicates (vin tx) [] else Ok tt in
    let! _ := check_inputs tx in
    let! restricted := check_issuance tx in
    let '(fContainsNewRestrictedAsset, fContainsRestrictedAssetReissue) := restricted in
    if fContainsNullAssetVerifierTx s && negb fContainsRestrictedAssetReissue && negb fContainsNewRestrictedAsset
    then reject 100 "bad-txns-tx-cointains-verifier-string-without-restricted-asset-issuance-or-reissuance"
    else if fContainsNewRestrictedAsset && negb (fContainsNullAssetVerifierTx s)
    then reject 100 "bad-txns-tx-cointains-restricted-asset-issuance-without-verifier"
    else Ok tt.
End CheckTransaction.

(** * Sets and maps as sorted lists *)

Lemma string_insert_in s t l : In t (string_insert s l) <-> t = s \/ In t l.
Proof.
  induction l as [|u l IH]; cbn [string_insert]; [cbn; intuition congruence|].
  destruct (string_ltb s u); [cbn; intuition congruence|].
  destruct (bytes_eqb s u) eqn:E; [apply bytes_eqb_eq in E; subst; cbn; intuition congruence|].
  cbn; rewrite IH; intuition congruence.
Qed.

Lemma pair_eqb_eq a b : pair_eqb a b = true <-> a = b.
Proof.
  unfold pair_eqb; destruct a, b; cbn; rewrite andb_true_iff, !bytes_eqb_eq; intuition congruence.
Qed.

Lemma pair_insert_in p q l : In q (pair_insert p l) <-> q = p \/ In q l.
Proof.
  induction l as [|u l IH]; cbn [pair_insert]; [cbn; intuition congruence|].
  destruct (pair_ltb p u); [cbn; intuition congruence|].
  destruct (pair_eqb p u) eqn:E; [apply pair_eqb_eq in E; subst; cbn; intuition congruence|].
  cbn; rewrite IH; intuition congruence.
Qed.

Lemma outpoint_eqb_eq a b : outpoint_eqb a b = true <-> a = b.
Proof.
  unfold outpoint_eqb; destruct a, b; cbn; rewrite andb_true_iff, bytes_eqb_eq, Z.eqb_eq; intuition congruence.
Qed.

Lemma existsb_eqb {A : Type} (eqb : A -> A -> bool) (E : forall a b, eqb a b = true <-> a = b) x l :
  existsb (eqb x) l = true <-> In x l.
Proof.
  rewrite existsb_exists; split; [intros (y & I & K); apply E in K; now subst|].
  intros I; exists x; split; [exact I|now apply E].
Qed.

Lemma existsb_fresh {A : Type} (eqb : A -> A -> bool) (E : forall a b, eqb a b = true <-> a = b) x l :
  existsb (eqb x) l = false -> ~ In x l.
Proof. rewrite <- not_true_iff_false, (existsb_eqb eqb E); auto. Qed.

Lemma check_ok {A : Type} level prefix (r : result string A) a : check level prefix r = Ok a -> r = Ok a.
Proof. unfold check; destruct r; congruence. Qed.

(** * What the scan of the outputs has established *)

Section Scan.
Context {node : Node}.

Abbreviation asset_from := (AssetFromScript node_Hash160 EncodeDestination).
Abbreviation owner_from := (OwnerAssetFromScript node_Hash160 EncodeDestination).
Abbreviation reissue_from := (ReissueAssetFromScript node_Hash160 EncodeDestination).
Abbreviation transfer_from := (TransferAssetFromScript node_Hash160 EncodeDestination AreTransferScriptsSizeDeployed).
Abbreviation null_data_from := (AssetNullDataFromScript node_Hash160 EncodeDestination).

(** A transfer of a valid asset, in the amounts its type allows, that carries
    no coins. *)
Definition transfer_ok (o : CTxOut) : Prop :=
  IsTransferAsset (scriptPubKey o) = true ->
  nValue o = 0 /\
  exists transfer address t,
    transfer_from (scriptPubKey o) = Some (transfer, address) /\ IsAssetNameValid (at_strName transfer) = Ok t /\
    match t with
    | OWNER => at_nAmount transfer = OWNER_ASSET_AMOUNT
    | UNIQUE => at_nAmount transfer = UNIQUE_ASSET_AMOUNT
    | QUALIFIER | SUB_QUALIFIER => QUALIFIER_ASSET_MIN_AMOUNT <= at_nAmount transfer <= QUALIFIER_ASSET_MAX_AMOUNT
    | _ => True
    end.

(** The changes of tags and restrictions, as pairs of asset and address. *)
Definition null_pairs (outs : list CTxOut) : list (bytes * bytes) :=
  flat_map (fun o => match null_data_from (scriptPubKey o) with
                     | Some (data, address) => [(nd_asset_name data, address)]
                     | None => []
                     end) outs.
Definition global_names (outs : list CTxOut) : list bytes :=
  flat_map (fun o => match GlobalAssetNullDataFromScript (scriptPubKey o) with
                     | Some data => [nd_asset_name data]
                     | None => []
                     end) outs.
Definition adds_tag (o : CTxOut) : bool :=
  match null_data_from (scriptPubKey o) with
  | Some (data, _) => IsAssetNameAQualifier (nd_asset_name data) false && (nd_flag data =? 1)
  | None => false
  end.
Definition has_verifier (o : CTxOut) : bool := IsNullAssetVerifierTxDataScript (scriptPubKey o).

(** Every flag is 0 or 1, and the data of every output of these kinds parses. *)
Definition null_ok (o : CTxOut) : Prop :=
  (IsNullAssetTxDataScript (scriptPubKey o) = true -> exists data address,
     null_data_from (scriptPubKey o) = Some (data, address) /\ (nd_flag data = 0 \/ nd_flag data = 1)) /\
  (IsNullGlobalRestrictionAssetTxDataScript (scriptPubKey o) = true -> exists data,
     GlobalAssetNullDataFromScript (scriptPubKey o) = Some data /\ (nd_flag data = 0 \/ nd_flag data = 1)) /\
  (has_verifier o = true -> CheckVerifierAssetTxOut o = Ok tt).

Definition zero_ok (mempool block : bool) (o : CTxOut) : Prop :=
  (Script.IsNewAsset (scriptPubKey o) = true \/ IsOwnerAsset (scriptPubKey o) = true -> nValue o = 0) /\
  (IsReissueAsset (scriptPubKey o) = true -> mempool || (AreEnforcedValuesDeployed && block) = true -> nValue o = 0).

Record scanned (mempool block : bool) (outs : list CTxOut) (s : out_scan) : Prop := {
  sc_value : nValueOut s = sum (map nValue outs) /\ 0 <= nValueOut s <= MAX_MONEY;
  sc_values : Forall (fun o => 0 <= nValue o <= MAX_MONEY) outs;
  sc_transfers : Forall transfer_ok outs;
  sc_zero : Forall (zero_ok mempool block) outs;
  sc_null : Forall null_ok outs;
  sc_names : forall n, In n (setAssetTransferNames s) -> has_transfer n outs = true;
  sc_pairs : NoDup (null_pairs outs) /\ forall p, In p (null_pairs outs) <-> In p (mapNullDataTxCount s);
  sc_globals : NoDup (global_names outs) /\ forall n, In n (global_names outs) <-> In n (setNullGlobalAssetChanges s);
  sc_verifier : count has_verifier outs = if fContainsNullAssetVerifierTx s then 1 else 0;
  sc_tags : nCountAddTagOuts s = count adds_tag outs
}.

(** ** The three kinds of null asset data exclude each other *)

Lemma null_kinds s :
  (IsNullAssetTxDataScript s = true ->
   IsNullGlobalRestrictionAssetTxDataScript s = false /\ IsNullAssetVerifierTxDataScript s = false) /\
  (IsNullGlobalRestrictionAssetTxDataScript s = true -> IsNullAssetVerifierTxDataScript s = false).
Proof.
  unfold IsNullAssetTxDataScript, IsNullGlobalRestrictionAssetTxDataScript, IsNullAssetVerifierTxDataScript.
  split; intros E; bool_to_prop.
  - match goal with K : get s 1 = 0x14 |- _ => rewrite K end; split; rewrite andb_false_r; reflexivity.
  - match goal with K : get s 2 = _ |- _ => rewrite K end; apply andb_false_r.
Qed.

Lemma no_null_data s : IsNullAssetTxDataScript s = false -> null_data_from s = None.
Proof. unfold AssetNullDataFromScript; now intros ->. Qed.
Lemma no_global_data s : IsNullGlobalRestrictionAssetTxDataScript s = false -> GlobalAssetNullDataFromScript s = None.
Proof. unfold GlobalAssetNullDataFromScript; now intros ->. Qed.

Lemma flag_ok level prefix flag u : check level prefix (VerifyNullAssetDataFlag flag) = Ok u -> flag = 0 \/ flag = 1.
Proof. intros K; apply check_ok in K; unfold VerifyNullAssetDataFlag in K; passed K; bool_to_prop.
  apply andb_false_iff in E; destruct E; bool_to_prop; auto. Qed.

(** ** One output *)

Lemma scan_value_ok o s s' : 0 <= nValueOut s <= MAX_MONEY -> scan_value o s = Ok s' ->
  0 <= nValue o <= MAX_MONEY /\ 0 <= nValueOut s' <= MAX_MONEY /\
  s' = mkScan (nValueOut s + nValue o) (setAssetTransferNames s) (mapNullDataTxCount s) (setNullGlobalAssetChanges s)
         (fContainsNullAssetVerifierTx s) (nCountAddTagOuts s).
Proof.
  unfold scan_value; intros B R; passed R; bool_to_prop; injection R as <-; cbn [nValueOut].
  assert (S : s64 (nValueOut s + nValue o) = nValueOut s + nValue o).
  { apply swrap_id; [lia|]; unfold in_s; change (2 ^ (64 - 1)) with 9223372036854775808.
    unfold MAX_MONEY, COIN in *; lia. }
  rewrite S in *; match goal with E : MoneyRange _ = true |- _ => apply MoneyRange_spec in E end.
  split_all; auto; lia.
Qed.

(** The null asset data of one output, recorded. *)
Record recorded (o : CTxOut) (s s' : out_scan) : Prop := {
  rc_value : nValueOut s' = nValueOut s;
  rc_names : setAssetTransferNames s' = setAssetTransferNames s;
  rc_pairs : match null_pairs [o] with
             | [] => mapNullDataTxCount s' = mapNullDataTxCount s
             | p :: _ => ~ In p (mapNullDataTxCount s) /\ mapNullDataTxCount s' = pair_insert p (mapNullDataTxCount s)
             end;
  rc_globals : match global_names [o] with
               | [] => setNullGlobalAssetChanges s' = setNullGlobalAssetChanges s
               | n :: _ => ~ In n (setNullGlobalAssetChanges s) /\
                           setNullGlobalAssetChanges s' = string_insert n (setNullGlobalAssetChanges s)
               end;
  rc_verifier : if has_verifier o then fContainsNullAssetVerifierTx s = false /\ fContainsNullAssetVerifierTx s' = true
                else fContainsNullAssetVerifierTx s' = fContainsNullAssetVerifierTx s;
  rc_tags : nCountAddTagOuts s' = nCountAddTagOuts s + (if adds_tag o then 1 else 0)
}.

Ltac recorded_fields := split; unfold null_pairs, global_names, has_verifier, adds_tag; cbn [flat_map].

Lemma scan_null_ok o s s' : scan_null_asset o s = Ok s' -> null_ok o /\ recorded o s s'.
Proof.
  unfold scan_null_asset, IsNullAsset; destruct (null_kinds (scriptPubKey o)) as [K1 K2].
  pose proof (no_null_data (scriptPubKey o)) as N1; pose proof (no_global_data (scriptPubKey o)) as N2.
  destruct (IsNullAssetTxDataScript _) eqn:D; [|destruct (IsNullGlobalRestrictionAssetTxDataScript _) eqn:G];
    cbn [orb negb].
  - destruct (K1 eq_refl) as [G V]; specialize (N2 G).
    intros R; passed R; subst; apply flag_ok in E1; injection R as <-; split.
    + unfold null_ok, has_verifier; rewrite D, G, V; split_all; try discriminate; eauto.
    + recorded_fields; rewrite ?E, ?N2, ?V; cbn; auto.
      * split; [|reflexivity]; now apply (existsb_fresh pair_eqb pair_eqb_eq).
      * destruct (_ && _); lia.
  - specialize (N1 eq_refl); intros R; passed R; subst; apply flag_ok in E0; injection R as <-; split.
    + unfold null_ok, has_verifier; rewrite D, G, K2 by reflexivity; split_all; try discriminate; eauto.
    + recorded_fields; rewrite ?E, ?N1, ?K2 by reflexivity; cbn; auto; [|lia].
      split; [|reflexivity]; now apply (existsb_fresh bytes_eqb bytes_eqb_eq).
  - specialize (N1 eq_refl); specialize (N2 eq_refl); destruct (IsNullAssetVerifierTxDataScript _) eqn:V; cbn [negb].
    + intros R; passed R; injection R as <-; apply check_ok in E; split.
      * unfold null_ok, has_verifier; rewrite D, G, V; split_all; try discriminate; destruct a; auto.
      * recorded_fields; rewrite ?N1, ?N2, ?V; cbn; auto; lia.
    + intros [= <-]; split.
      * unfold null_ok, has_verifier; rewrite D, G, V; split_all; discriminate.
      * recorded_fields; rewrite ?N1, ?N2, ?V; cbn; auto; lia.
Qed.

Lemma owner_type name : IsAssetNameValid name = Ok OWNER -> IsAssetNameAnOwner name = true.
Proof.
  intros V; unfold IsAssetNameAnOwner, name_valid; rewrite V; cbn [andb].
  destruct (regex_match name OWNER_INDICATOR) eqn:O; [reflexivity|exfalso].
  unfold IsAssetNameValid in V; destruct (_ >? 40); [discriminate|]; rewrite O in V; refute_branch V name; cbv zeta in V.
  apply bind_ok in V; destruct V as ([] & _ & V); destruct (IsAssetNameASubasset name); discriminate V.
Qed.

Lemma scan_transfer_ok o s s' : scan_transfer o s = Ok s' -> transfer_ok o /\
  exists transfer address, transfer_from (scriptPubKey o) = Some (transfer, address) /\
    s' = mkScan (nValueOut s) (string_insert (at_strName transfer) (setAssetTransferNames s)) (mapNullDataTxCount s)
           (setNullGlobalAssetChanges s) (fContainsNullAssetVerifierTx s) (nCountAddTagOuts s).
Proof.
  unfold scan_transfer; intros R; passed R; subst; bool_to_prop; injection R as <-; split; [|eauto].
  intros _; split; [assumption|]; do 3 eexists; split; [eassumption|]; split; [eassumption|].
  destruct a; auto; repeat match goal with E : _ && _ = false |- _ => cbn [AssetType_eqb orb andb] in E end; bool_to_prop;
    auto.
  match goal with V : IsAssetNameValid _ = Ok OWNER |- _ => apply owner_type in V; rewrite V in * end.
  cbn [andb] in *; now bool_to_prop.
Qed.

Lemma scan_asset_ok mempool block o s s' : scan_asset mempool block o s = Ok s' ->
  transfer_ok o /\ zero_ok mempool block o /\
  nValueOut s' = nValueOut s /\ mapNullDataTxCount s' = mapNullDataTxCount s /\
  setNullGlobalAssetChanges s' = setNullGlobalAssetChanges s /\
  fContainsNullAssetVerifierTx s' = fContainsNullAssetVerifierTx s /\ nCountAddTagOuts s' = nCountAddTagOuts s /\
  (forall n, In n (setAssetTransferNames s') -> In n (setAssetTransferNames s) \/ has_transfer n [o] = true).
Proof.
  unfold scan_asset, transfer_ok, zero_ok, IsTransferAsset, Script.IsNewAsset, IsOwnerAsset, IsReissueAsset; intros R.
  destruct (IsAssetScript (scriptPubKey o)) as [[[[] ow] i]|] eqn:S; try discriminate R.
  - passed R; bool_to_prop; injection R as <-; destruct ow; split_all; auto; intros; discriminate.
  - passed R; injection R as <-; destruct ow; split_all; auto; try (intros [|]; discriminate); try discriminate;
      intros _ D; (destruct mempool; cbn [orb andb] in *; [now bool_to_prop|rewrite D in *; cbn [andb] in *; now bool_to_prop]).
  - apply scan_transfer_ok in R; destruct R as (T & t & addr & F & ->).
    unfold transfer_ok, IsTransferAsset in T; rewrite S in T; destruct ow; split_all; auto;
      try (intros [|]; discriminate); try discriminate; cbn;
      intros n I; apply string_insert_in in I; destruct I as [->|I]; auto; right;
      unfold has_transfer; cbn; rewrite F, (proj2 (bytes_eqb_eq _ _) eq_refl); reflexivity.
  - injection R as <-; split_all; auto; try (intros [|]; discriminate); discriminate.
Qed.

Lemma has_transfer_app n l l' : has_transfer n (l ++ l') = has_transfer n l || has_transfer n l'.
Proof. apply existsb_app. Qed.

Lemma sum_snoc l x : sum (l ++ [x]) = sum l + x.
Proof. unfold sum; induction l as [|y l IH]; cbn; [lia|rewrite IH; lia]. Qed.

Lemma NoDup_snoc {A : Type} (l : list A) x : NoDup l -> ~ In x l -> NoDup (l ++ [x]).
Proof. intros N I; apply NoDup_app; auto; [repeat constructor; auto|intros y Iy [<-|[]]; auto]. Qed.

Lemma null_pairs_app l l' : null_pairs (l ++ l') = null_pairs l ++ null_pairs l'.
Proof. apply flat_map_app. Qed.
Lemma global_names_app l l' : global_names (l ++ l') = global_names l ++ global_names l'.
Proof. apply flat_map_app. Qed.

Lemma null_pairs_one o : null_pairs [o] = [] \/ exists p, null_pairs [o] = [p].
Proof. unfold null_pairs; cbn; destruct (null_data_from _) as [[]|]; cbn; eauto. Qed.
Lemma global_names_one o : global_names [o] = [] \/ exists n, global_names [o] = [n].
Proof. unfold global_names; cbn; destruct (GlobalAssetNullDataFromScript _) as [[]|]; cbn; eauto. Qed.

(** The keys recorded so far, and one more. *)
Lemma keys_step {A : Type} (insert : A -> list A -> list A) (keys one set set' : list A) :
  (forall x y l, In y (insert x l) <-> y = x \/ In y l) ->
  (one = [] \/ exists x, one = [x]) ->
  NoDup keys /\ (forall x, In x keys <-> In x set) ->
  match one with [] => set' = set | x :: _ => ~ In x set /\ set' = insert x set end ->
  NoDup (keys ++ one) /\ (forall x, In x (keys ++ one) <-> In x set').
Proof.
  intros I [->|[x ->]] [N S] E; [subst set'; rewrite app_nil_r; auto|]; destruct E as [F ->]; split.
  - apply NoDup_snoc; [exact N|now rewrite S].
  - intros y; rewrite in_app_iff, S, I; cbn; intuition congruence.
Qed.

Lemma scanned_step mempool block outs s o s1 s2 s3 : scanned mempool block outs s ->
  scan_value o s = Ok s1 -> scan_null_asset o s1 = Ok s2 -> scan_asset mempool block o s2 = Ok s3 ->
  scanned mempool block (outs ++ [o]) s3.
Proof.
  intros S R1 R2 R3; destruct S as [[Sv Sb] Svs St Sz Sn Sa Sp Sg Sf Sc].
  apply scan_value_ok in R1; [|exact Sb]; destruct R1 as (Bo & B1 & E1).
  apply scan_null_ok in R2; destruct R2 as [Nok [Nv Nn Np Ng Nf Nc]].
  apply scan_asset_ok in R3; destruct R3 as (Tok & Zok & Av & Ap & Ag & Af & Ac & An).
  rewrite E1 in *; cbn [nValueOut setAssetTransferNames mapNullDataTxCount setNullGlobalAssetChanges
    fContainsNullAssetVerifierTx nCountAddTagOuts] in *.
  rewrite Nn in *; split; rewrite ?Forall_app; auto.
  - rewrite Av, Nv, map_app; cbn [map]; rewrite sum_snoc; lia.
  - intros n I; rewrite has_transfer_app, orb_true_iff; apply An in I; destruct I; auto.
  - rewrite null_pairs_app, Ap; eapply keys_step; eauto using pair_insert_in, null_pairs_one.
  - rewrite global_names_app, Ag; eapply keys_step; eauto; [intros; apply string_insert_in|apply global_names_one].
  - rewrite Af, count_snoc, Sf; destruct (has_verifier o); [destruct Nf as [-> ->]; lia|rewrite Nf; lia].
  - rewrite Ac, Nc, count_snoc, Sc; lia.
Qed.

Lemma scan_outputs_ok mempool block outs : forall done s s', scanned mempool block done s ->
  scan_outputs mempool block outs s = Ok s' -> scanned mempool block (done ++ outs) s'.
Proof.
  induction outs as [|o outs IH]; intros done s s' S R; cbn [scan_outputs] in R.
  - injection R as <-; now rewrite app_nil_r.
  - passed R; change (o :: outs) with ([o] ++ outs); rewrite app_assoc; eapply IH; [eapply scanned_step|]; eauto.
Qed.

Lemma scan_empty mempool block : scanned mempool block [] (mkScan 0 [] [] [] false 0).
Proof.
  assert (0 <= 0 <= MAX_MONEY) by (unfold MAX_MONEY, COIN; lia).
  split; cbn; auto; try tauto; split; try reflexivity; try constructor; try assumption; contradiction.
Qed.

(** * The parts of a transaction that was accepted *)

Record accepted (tx : CTransaction) (dup mempool block : bool) (s : out_scan) (new_restricted reissued : bool) : Prop := {
  ac_vin : vin tx <> [];
  ac_vout : vout tx <> [];
  ac_size : Z.of_nat (length (SerializeTransaction false tx)) * WITNESS_SCALE_FACTOR <= GetMaxBlockWeight;
  ac_scan : scanned mempool block (vout tx) s;
  ac_tags : check_tags tx s = Ok tt;
  ac_null : check_null_data (setAssetTransferNames s) (mapNullDataTxCount s) = Ok tt;
  ac_global : check_global (setAssetTransferNames s) (setNullGlobalAssetChanges s) = Ok tt;
  ac_dup : dup = true -> check_duplicates (vin tx) [] = Ok tt;
  ac_inputs : check_inputs tx = Ok tt;
  ac_issuance : check_issuance tx = Ok (new_restricted, reissued);
  ac_verifier : fContainsNullAssetVerifierTx s = true -> new_restricted = true \/ reissued = true;
  ac_restricted : new_restricted = true -> fContainsNullAssetVerifierTx s = true
}.

Lemma CheckTransaction_inv tx dup mempool block : CheckTransaction tx dup mempool block = Ok tt ->
  exists s new_restricted reissued, accepted tx dup mempool block s new_restricted reissued.
Proof.
  unfold CheckTransaction; intros R; passed R.
  repeat match goal with a : unit |- _ => destruct a end; subst; bool_to_prop.
  eexists _, _, _; split; try eassumption.
  - destruct (vin tx); discriminate.
  - destruct (vout tx); discriminate.
  - apply (scan_outputs_ok _ _ _ [] _ _ (scan_empty _ _)); eassumption.
  - intros ->; assumption.
  - intros F; rewrite F in *; destruct b, b0; auto; discriminate.
  - intros ->; cbn in *; now bool_to_prop.
Qed.

Lemma check_null_data_ok transferred entries : check_null_data transferred entries = Ok tt ->
  forall name address, In (name, address) entries ->
  In (if front_char name =? RESTRICTED_CHAR then skipn 1 name ++ OWNER_TAG else name) transferred.
Proof.
  induction entries as [|[n a] entries IH]; intros R name address I; [destruct I|destruct I as [K|I]];
    cbn [check_null_data] in R.
  - injection K as -> ->; destruct (front_char name =? RESTRICTED_CHAR); passed R; bool_to_prop;
      apply (existsb_eqb bytes_eqb bytes_eqb_eq); assumption.
  - destruct (front_char n =? RESTRICTED_CHAR); passed R; eapply IH; eauto.
Qed.

Lemma check_global_ok transferred names : check_global transferred names = Ok tt ->
  forall name, In name names -> name <> [] /\ In (skipn 1 name ++ OWNER_TAG) transferred.
Proof.
  induction names as [|n names IH]; intros R name I; [destruct I|]; cbn [check_global] in R; passed R; bool_to_prop.
  destruct I as [->|I]; [|auto]; split; [intros ->; cbn in *; lia|].
  apply (existsb_eqb bytes_eqb bytes_eqb_eq); assumption.
Qed.

Lemma check_duplicates_ok ins : forall seen, check_duplicates ins seen = Ok tt ->
  NoDup (map prevout ins) /\ forall p, In p (map prevout ins) -> ~ In p seen.
Proof.
  induction ins as [|i ins IH]; intros seen R; cbn [check_duplicates map] in *; [split; [constructor|intros _ []]|].
  passed R; apply IH in R; destruct R as [N F].
  pose proof (existsb_fresh outpoint_eqb outpoint_eqb_eq _ _ E) as Fi; split.
  - constructor; [intros I; apply (F _ I); now left|exact N].
  - intros p [<-|I]; [exact Fi|intros K; apply (F _ I); now right].
Qed.

Lemma check_inputs_ok tx : check_inputs tx = Ok tt ->
  if IsCoinBase tx
  then (exists i, vin tx = [i] /\ 2 <= Z.of_nat (length (scriptSig i)) <= 100) /\
       (AreCoinbaseCheckAssetsDeployed = true -> Forall (fun o =>
          is_some (IsAssetScript (scriptPubKey o)) = false /\ IsNullAsset (scriptPubKey o) = false) (vout tx))
  else Forall (fun i => outpoint_IsNull (prevout i) = false) (vin tx).
Proof.
  unfold check_inputs; destruct (IsCoinBase tx) eqn:C; intros R; passed R; bool_to_prop.
  - unfold IsCoinBase in C; destruct (vin tx) as [|i [|]]; try discriminate C; split; [exists i; auto|].
    intros D; rewrite D in *; cbn [andb] in *; apply Forall_forall; intros o I.
    assert (N : is_some (IsAssetScript (scriptPubKey o)) || IsNullAsset (scriptPubKey o) = false); [|now bool_to_prop].
    apply not_true_iff_false; intros K; apply not_true_iff_false in E0; apply E0, existsb_exists; eauto.
  - apply Forall_forall; intros i I; apply not_true_iff_false; intros K.
    apply not_true_iff_false in E; apply E, existsb_exists; eauto.
Qed.

Lemma subset_sum (f : CTxOut -> bool) outs : Forall (fun o => 0 <= nValue o <= MAX_MONEY) outs ->
  0 <= sum (map nValue (filter f outs)) <= sum (map nValue outs).
Proof.
  unfold sum; induction 1 as [|o outs B _ IH]; cbn; [lia|destruct (f o); cbn; lia].
Qed.

(** C32: a transaction that passes the checks has inputs and outputs and
    fits a block, every output and their sum (taken without overflow) lie between
    zero and the money limit, so that the sum computed later never throws, no
    output is spent twice, a coinbase has a script of 2 to 100 bytes and any
    other transaction names real outputs; transfers move valid assets in the
    amounts their type allows, and outputs with assets carry no coins. *)
Theorem CheckTransaction_values (tx : CTransaction) (dup mempool block : bool) :
  valid_tx tx -> CheckTransaction tx dup mempool block = Ok tt ->
  vin tx <> [] /\ vout tx <> [] /\ Z.of_nat (length (SerializeTransaction false tx)) * 4 <= 8000000 /\
  Forall (fun o => 0 <= nValue o <= MAX_MONEY) (vout tx) /\ sum (map nValue (vout tx)) <= MAX_MONEY /\
  (forall enforced, exists v, GetValueOut enforced tx = Some v /\ 0 <= v <= sum (map nValue (vout tx))) /\
  (dup = true -> NoDup (map prevout (vin tx))) /\
  (if IsCoinBase tx
   then (exists i, vin tx = [i] /\ 2 <= Z.of_nat (length (scriptSig i)) <= 100) /\
        (AreCoinbaseCheckAssetsDeployed = true -> Forall (fun o =>
           is_some (IsAssetScript (scriptPubKey o)) = false /\ IsNullAsset (scriptPubKey o) = false) (vout tx))
   else Forall (fun i => outpoint_IsNull (prevout i) = false) (vin tx)) /\
  Forall transfer_ok (vout tx) /\ Forall (zero_ok mempool block) (vout tx).
Proof.
  intros W R; destruct (CheckTransaction_inv _ _ _ _ R) as (s & nr & re & A); destruct (ac_scan _ _ _ _ _ _ _ A).
  destruct sc_value0 as [V B]; rewrite <- V; split_all; auto; try apply A; try lia.
  - intros enforced; pose proof (subset_sum (fun o => enforced || negb (is_some (IsAssetScript (scriptPubKey o)))) _ sc_values0) as L.
    fold (counted enforced (vout tx)) in L; rewrite V; eexists; split; [|exact L].
    apply value_out_loop_spec; [unfold MAX_MONEY, COIN; lia|apply W|split_all; [|lia|lia]].
    apply Forall_map, incl_Forall with (l1 := vout tx); [intros o I; now apply filter_In in I|assumption].
  - intros D; apply (check_duplicates_ok _ []); now apply A.
  - apply check_inputs_ok, A.
Qed.

(** The token that must be moved to change a restriction or a tag. *)
Definition command_token (name : bytes) : bytes :=
  if front_char name =? RESTRICTED_CHAR then skipn 1 name ++ OWNER_TAG else name.

Definition reissues_restricted (tx : CTransaction) : Prop :=
  exists r address, tx_IsReissueAsset tx = true /\ reissue_from (scriptPubKey (back (vout tx))) = Some (r, address) /\
    type_of_name (ra_strName r) = RESTRICTED.

Lemma restricted_flags tx nr re : check_issuance tx = Ok (nr, re) ->
  (nr = true -> tx_IsNewRestrictedAsset tx = true) /\ (re = true -> reissues_restricted tx).
Proof.
  unfold check_issuance; intros R; passed R; injection R as <- <-; split; intros K; auto; try discriminate K; subst.
  unfold check_reissue in *.
  match goal with E : bind _ _ = Ok true |- _ => passed E; try discriminate E end; subst;
    unfold ReissueAssetFromTransaction in *;
    match goal with E : AssetType_eqb _ _ = true |- _ => apply eqb_type in E end;
    match goal with T : tx_IsReissueAsset tx = true |- _ => rewrite T in *; cbn [negb] in * end;
    unfold reissues_restricted; eauto 6.
Qed.

Lemma restricted_issued tx nr re : tx_IsNewRestrictedAsset tx = true -> check_issuance tx = Ok (nr, re) -> nr = true.
Proof.
  intros N; pose proof N as N0; unfold tx_IsNewRestrictedAsset in N0.
  destruct (CheckIssueDataTx (back (vout tx))) eqn:D; cbn [negb] in N0; [|discriminate].
  destruct (typed_output _ _ N0) as (a & addr & t & F & V & W & _); apply eqb_type in W; subst t.
  assert (P : forall wanted, is_some (IsScriptNewTyped wanted (scriptPubKey (back (vout tx)))) = wanted RESTRICTED).
  { intros wanted; now rewrite (typed_same wanted _ _ _ F), V. }
  unfold check_issuance, tx_IsNewAsset, tx_IsReissueAsset, tx_IsNewUniqueAsset, tx_IsNewMsgChannelAsset,
    tx_IsNewQualifierAsset, IsScriptNewUniqueAsset, IsScriptNewMsgChannelAsset, IsScriptNewQualifierAsset,
    IsScriptNewRestrictedAsset; rewrite N, D, !P; cbn [AssetType_eqb orb negb].
  assert (E : CheckReissueDataTx (back (vout tx)) = false).
  { unfold CheckReissueDataTx, CheckIssueDataTx, IsScriptNewAsset, IsScriptReissueAsset in *.
    destruct (IsAssetScript _) as [[[[] []] ?]|]; auto; discriminate D. }
  rewrite E; repeat destruct (_ <? _); repeat destruct (negb _); intros R; passed R; congruence.
Qed.

(** Every command has a flag and moves the token it needs. *)
Lemma null_command_ok tx dup mempool block o data address : CheckTransaction tx dup mempool block = Ok tt ->
  In o (vout tx) -> null_data_from (scriptPubKey o) = Some (data, address) ->
  (nd_flag data = 0 \/ nd_flag data = 1) /\ has_transfer (command_token (nd_asset_name data)) (vout tx) = true.
Proof.
  intros R I E; destruct (CheckTransaction_inv _ _ _ _ R) as (s & nr & re & A); destruct (ac_scan _ _ _ _ _ _ _ A).
  pose proof (proj1 (Forall_forall _ _) sc_null0 _ I) as F; split.
  - destruct F as [N _]; destruct (IsNullAssetTxDataScript _) eqn:K; [|now rewrite no_null_data in E].
    destruct (N eq_refl) as (d' & a' & E' & Fl); congruence.
  - apply sc_names0; eapply (check_null_data_ok _ _ (ac_null _ _ _ _ _ _ _ A)), (proj2 sc_pairs0).
    unfold null_pairs; apply in_flat_map; exists o; split; [exact I|rewrite E; now left].
Qed.

Lemma global_command_ok tx dup mempool block o data : CheckTransaction tx dup mempool block = Ok tt ->
  In o (vout tx) -> GlobalAssetNullDataFromScript (scriptPubKey o) = Some data ->
  (nd_flag data = 0 \/ nd_flag data = 1) /\
  has_transfer (skipn 1 (nd_asset_name data) ++ OWNER_TAG) (vout tx) = true.
Proof.
  intros R I E; destruct (CheckTransaction_inv _ _ _ _ R) as (s & nr & re & A); destruct (ac_scan _ _ _ _ _ _ _ A).
  pose proof (proj1 (Forall_forall _ _) sc_null0 _ I) as F; split.
  - destruct F as (_ & N & _); destruct (IsNullGlobalRestrictionAssetTxDataScript _) eqn:K; [|now rewrite no_global_data in E].
    destruct (N eq_refl) as (d' & E' & Fl); congruence.
  - apply sc_names0; eapply (check_global_ok _ _ (ac_global _ _ _ _ _ _ _ A)), (proj2 sc_globals0).
    unfold global_names; apply in_flat_map; exists o; split; [exact I|rewrite E; now left].
Qed.

(** In a transaction that passes the checks, every change of a
    restriction moves the owner token of the restricted asset and every change
    of a tag moves the qualifier; no address is changed twice for the same asset
    and no asset is frozen twice; the fee for the added tags is burnt; and there is at most
    one verifier string, well formed, in a transaction that issues or reissues a
    restricted asset, which a transaction that issues one always has. *)
Theorem Commands_authorised (tx : CTransaction) (dup mempool block : bool) :
  CheckTransaction tx dup mempool block = Ok tt ->
  (forall o data address, In o (vout tx) -> null_data_from (scriptPubKey o) = Some (data, address) ->
   (nd_flag data = 0 \/ nd_flag data = 1) /\ has_transfer (command_token (nd_asset_name data)) (vout tx) = true) /\
  (forall o data, In o (vout tx) -> GlobalAssetNullDataFromScript (scriptPubKey o) = Some data ->
   (nd_flag data = 0 \/ nd_flag data = 1) /\
   has_transfer (skipn 1 (nd_asset_name data) ++ OWNER_TAG) (vout tx) = true) /\
  NoDup (null_pairs (vout tx)) /\ NoDup (global_names (vout tx)) /\
  (0 < count adds_tag (vout tx) -> pays_burn NULL_ADD_QUALIFIER (count adds_tag (vout tx)) (vout tx) = true) /\
  count has_verifier (vout tx) <= 1 /\
  (tx_IsNewRestrictedAsset tx = true -> count has_verifier (vout tx) = 1) /\
  (forall o, In o (vout tx) -> has_verifier o = true -> CheckVerifierAssetTxOut o = Ok tt /\
   (tx_IsNewRestrictedAsset tx = true \/ reissues_restricted tx)).
Proof.
  intros R; destruct (CheckTransaction_inv _ _ _ _ R) as (s & nr & re & A); destruct (ac_scan _ _ _ _ _ _ _ A).
  destruct sc_pairs0 as [Np Ip], sc_globals0 as [Ng Ig].
  assert (F : forall o, In o (vout tx) -> null_ok o) by now apply Forall_forall.
  split_all; auto.
  - intros o d addr; exact (null_command_ok _ _ _ _ _ _ _ R).
  - intros o d; exact (global_command_ok _ _ _ _ _ _ R).
  - intros P; pose proof (ac_tags _ _ _ _ _ _ _ A) as T; unfold check_tags in T; passed T.
    rewrite sc_tags0 in E; apply andb_false_iff in E; destruct E; bool_to_prop; [lia|assumption].
  - rewrite sc_verifier0; destruct (fContainsNullAssetVerifierTx s); lia.
  - intros N; rewrite sc_verifier0, (ac_restricted _ _ _ _ _ _ _ A); [reflexivity|].
    exact (restricted_issued _ _ _ N (ac_issuance _ _ _ _ _ _ _ A)).
  - intros o I V; split; [now apply (F o I)|].
    destruct (restricted_flags _ _ _ (ac_issuance _ _ _ _ _ _ _ A)) as [K1 K2].
    destruct (ac_verifier _ _ _ _ _ _ _ A) as [K|K]; auto.
    destruct (fContainsNullAssetVerifierTx s); [reflexivity|].
    rewrite (count_none _ _ _ sc_verifier0 I) in V; discriminate.
Qed.

(** * Who may create assets *)

Lemma CheckNewAsset_valid a : CheckNewAsset a = Ok tt -> exists t, IsAssetNameValid (na_strName a) = Ok t.
Proof. unfold CheckNewAsset; destruct (IsAssetNameValid _); [eauto|discriminate]. Qed.

(** An issue in a transaction: the data is sound, the fee is burnt, and the
    token of the parent is moved. *)
Definition issue_ok (tx : CTransaction) (a : CNewAsset) : Prop :=
  exists t, IsAssetNameValid (na_strName a) = Ok t /\ CheckNewAsset a = Ok tt /\
    pays_burn t (count CheckIssueDataTx (vout tx)) (vout tx) = true /\
    (authorised (na_strName a) t (vout tx) \/
     (t = MSGCHANNEL \/ t = SUB_QUALIFIER) /\ tx_IsNewAsset tx = true).

Lemma kinds_exclusive o : CheckIssueDataTx o = true -> CheckReissueDataTx o = false /\ CheckOwnerDataTx o = false.
Proof.
  unfold CheckIssueDataTx, CheckReissueDataTx, CheckOwnerDataTx, IsScriptNewAsset, IsScriptReissueAsset, IsScriptOwnerAsset.
  destruct (IsAssetScript _) as [[[[] []] ?]|]; auto; discriminate.
Qed.

Lemma no_issue_ok outs o : check_no_issue outs = Ok tt -> In o outs ->
  CheckIssueDataTx o = false /\ CheckReissueDataTx o = false /\ CheckOwnerDataTx o = false.
Proof.
  induction outs as [|o' outs IH]; intros R I; [destruct I|]; cbn [check_no_issue] in R.
  destruct I as [->|I].
  - unfold CheckIssueDataTx, CheckReissueDataTx, CheckOwnerDataTx, IsScriptNewAsset, IsScriptReissueAsset, IsScriptOwnerAsset.
    destruct (IsAssetScript _) as [[[[] ?] ?]|]; try discriminate R; auto.
  - apply IH; [passed R; assumption|exact I].
Qed.

Lemma uniques_ok outs o a addr : check_uniques outs = Ok tt -> In o outs -> is_unique o = true ->
  asset_from (scriptPubKey o) = Some (a, addr) -> CheckNewAsset a = Ok tt.
Proof.
  unfold is_unique; induction outs as [|o' outs IH]; intros R I U F; [destruct I|]; cbn [check_uniques] in R.
  passed R; destruct I as [->|I]; [|eauto]; rewrite U, F in E; apply check_ok in E; destruct a0; assumption.
Qed.

(** ** One kind of transaction at a time *)

Lemma new_asset_issue tx o a addr : tx_IsNewAsset tx = true -> check_new_asset tx = Ok tt -> In o (vout tx) ->
  asset_from (scriptPubKey o) = Some (a, addr) -> issue_ok tx a.
Proof.
  intros N R I F; unfold check_new_asset, AssetFromTransaction in R; rewrite N in R; cbn [negb] in R; passed R; subst.
  apply check_ok in E, R; destruct a0.
  assert (V' : exists t, IsAssetNameValid (na_strName a) = Ok t).
  { assert (o = back (vout tx)) as ->; [|rewrite F in E0; injection E0 as <- <-; now apply CheckNewAsset_valid].
    unfold VerifyNewAsset in E; passed E; bool_to_prop; eapply last_issue; eauto. }
  destruct V' as [t V]; destruct (VerifyNewAsset_ok _ _ _ _ _ E I F V) as (-> & B & Au & _).
  rewrite F in E0; injection E0 as <- <-; exists t; split_all; auto.
  assert (X : t <> UNIQUE /\ t <> RESTRICTED).
  { clear - N F V; unfold tx_IsNewAsset, IsScriptNewUniqueAsset, IsScriptNewRestrictedAsset in N.
    rewrite !(typed_same _ _ _ _ F), V in N.
    repeat match type of N with (if ?b then _ else _) = true => destruct b eqn:?; [discriminate N|] end.
    bool_to_prop; split; intros ->; discriminate. }
  destruct X; destruct t; auto; try congruence; left; exact Logic.I.
Qed.

Lemma issued_alone_ok from types tx o a addr : issued_alone from types tx ->
  In o (vout tx) -> asset_from (scriptPubKey o) = Some (a, addr) ->
  (from (scriptPubKey (back (vout tx))) = Some (a, addr) -> CheckNewAsset a = Ok tt) -> issue_ok tx a.
Proof. intros A I F C; destruct (A _ _ _ I F) as (E & t & V & _ & B & Au); exists t; auto. Qed.

Ltac from_transaction N R :=
  unfold MsgChannelAssetFromTransaction, QualifierAssetFromTransaction, RestrictedAssetFromTransaction in R;
  rewrite N in R; cbn [negb] in R; passed R; subst;
  repeat match goal with u : unit |- _ => destruct u end;
  repeat match goal with K : check _ _ _ = Ok _ |- _ => apply check_ok in K end.

Lemma new_channel_issue tx o a addr : tx_IsNewMsgChannelAsset tx = true -> check_new_channel tx = Ok tt ->
  In o (vout tx) -> asset_from (scriptPubKey o) = Some (a, addr) -> issue_ok tx a.
Proof.
  intros N R I F; unfold check_new_channel in R; from_transaction N R.
  apply (issued_alone_ok _ _ _ _ _ _ (VerifyNewMsgChannelAsset_ok _ E) I F); congruence.
Qed.

Lemma new_qualifier_issue tx o a addr : tx_IsNewQualifierAsset tx = true -> check_new_qualifier tx = Ok tt ->
  In o (vout tx) -> asset_from (scriptPubKey o) = Some (a, addr) -> issue_ok tx a.
Proof.
  intros N R I F; unfold check_new_qualifier in R; from_transaction N R.
  apply (issued_alone_ok _ _ _ _ _ _ (VerifyNewQualfierAsset_ok _ E) I F); congruence.
Qed.

Lemma new_restricted_issue tx o a addr : tx_IsNewRestrictedAsset tx = true -> check_new_restricted tx = Ok tt ->
  In o (vout tx) -> asset_from (scriptPubKey o) = Some (a, addr) -> issue_ok tx a.
Proof.
  intros N R I F; unfold check_new_restricted in R; from_transaction N R.
  apply (issued_alone_ok _ _ _ _ _ _ (VerifyNewRestrictedAsset_ok _ E) I F); congruence.
Qed.

Lemma new_unique_issue tx o a addr : check_new_unique tx = Ok tt -> In o (vout tx) ->
  asset_from (scriptPubKey o) = Some (a, addr) -> issue_ok tx a.
Proof.
  intros R I F; unfold check_new_unique in R; passed R; destruct a0; apply check_ok in E.
  destruct (VerifyNewUniqueAsset_ok _ _ _ _ E I F) as (V & U & B & Au).
  exists UNIQUE; split_all; auto; exact (uniques_ok _ _ _ _ R I U F).
Qed.

(** ** The counts of the other kinds of creating outputs *)

Lemma no_kind (f : CTxOut -> bool) outs o : count f outs <= 0 -> In o outs -> f o = false.
Proof. intros L I; pose proof (count_nonneg f outs); apply (count_none f outs); [lia|exact I]. Qed.

(** What a transaction of a kind creates no output of. *)
Definition creates_no (issue owner reissue : bool) (tx : CTransaction) : Prop :=
  (issue = true -> count CheckIssueDataTx (vout tx) <= 0) /\
  (owner = true -> count CheckOwnerDataTx (vout tx) <= 0) /\
  (reissue = true -> count CheckReissueDataTx (vout tx) <= 0).

Ltac no_outputs R := passed R; bool_to_prop; split_all; intros K; try discriminate K; lia.

Lemma verify_counts tx :
  (VerifyNewAsset tx = Ok tt -> creates_no false false true tx) /\
  (VerifyReissueAsset tx = Ok tt -> creates_no true true false tx) /\
  (VerifyNewUniqueAsset tx = Ok tt \/ VerifyNewMsgChannelAsset tx = Ok tt \/ VerifyNewQualfierAsset tx = Ok tt \/
   VerifyNewRestrictedAsset tx = Ok tt -> creates_no false true true tx).
Proof.
  unfold creates_no; destruct (counts_correct (vout tx)) as (<- & <- & <-).
  unfold VerifyNewAsset, VerifyReissueAsset, VerifyNewUniqueAsset, VerifyNewMsgChannelAsset, VerifyNewQualfierAsset,
    VerifyNewRestrictedAsset; split; [|split]; [intros R; no_outputs R|intros R; no_outputs R|].
  intros [R|[R|[R|R]]]; no_outputs R.
Qed.

Lemma no_issue_counts tx : check_no_issue (vout tx) = Ok tt -> creates_no true true true tx.
Proof.
  intros R; unfold creates_no, count; split_all; intros _;
    match goal with |- Z.of_nat (length (filter ?f ?l)) <= 0 =>
      destruct (filter f l) as [|o k] eqn:E; [cbn; lia|exfalso];
      assert (K : In o (filter f l)) by (rewrite E; now left); apply filter_In in K; destruct K as [I K];
      destruct (no_issue_ok _ _ R I) as (? & ? & ?); congruence
    end.
Qed.

Lemma issuance_counts tx fl : check_issuance tx = Ok fl ->
  (tx_IsNewAsset tx = true /\ check_new_asset tx = Ok tt /\ creates_no false false true tx) \/
  (tx_IsReissueAsset tx = true /\ (exists b, check_reissue tx = Ok b) /\ creates_no true true false tx) \/
  ((forall o a addr, In o (vout tx) -> asset_from (scriptPubKey o) = Some (a, addr) -> issue_ok tx a) /\
   creates_no false true true tx).
Proof.
  destruct (verify_counts tx) as (V1 & V2 & V3); unfold check_issuance; intros R; passed R.
  - left; destruct a; split_all; auto; apply V1.
    unfold check_new_asset in *; passed E0; destruct a; eapply check_ok; eassumption.
  - right; left; split; [first [assumption|reflexivity]|split; [eauto|]]; apply V2.
    unfold check_reissue in *; passed E1; destruct a0; eapply check_ok; eassumption.
  - right; right; destruct a; split; [intros; eapply new_unique_issue; eauto|apply V3; left].
    unfold check_new_unique in *; passed E2; destruct a; eapply check_ok; eassumption.
  - right; right; destruct a; split; [intros; eapply new_channel_issue; eauto|apply V3; right; left].
    unfold check_new_channel in *; passed E3; destruct a; eapply check_ok; eassumption.
  - right; right; destruct a; split; [intros; eapply new_qualifier_issue; eauto|apply V3; right; right; left].
    unfold check_new_qualifier in *; passed E4; destruct a; eapply check_ok; eassumption.
  - right; right; destruct a; split; [intros; eapply new_restricted_issue; eauto|apply V3; do 3 right].
    unfold check_new_restricted in *; passed E5; destruct a; eapply check_ok; eassumption.
  - right; right; destruct a; destruct (no_issue_counts tx ltac:(eassumption)) as (C1 & C2 & C3).
    split; [|split; [discriminate|auto]]; intros o a addr I F; apply issue_output in F.
    pose proof (no_kind _ _ _ (C1 eq_refl) I) as K; unfold CheckIssueDataTx in K; congruence.
Qed.

(** The owner token of the reissued asset. *)
Definition reissue_token (name : bytes) : bytes :=
  (if AssetType_eqb (type_of_name name) RESTRICTED && name_valid name then skipn 1 name else name) ++ OWNER_TAG.

Lemma reissued_ok tx b : tx_IsReissueAsset tx = true -> check_reissue tx = Ok b ->
  forall o r addr, In o (vout tx) -> reissue_from (scriptPubKey o) = Some (r, addr) ->
  CheckReissueAsset r = Ok tt /\ existsb CheckReissueBurnTx (vout tx) = true /\
  has_transfer (reissue_token (ra_strName r)) (vout tx) = true.
Proof.
  intros N C o r addr I F; unfold check_reissue, ReissueAssetFromTransaction in C; rewrite N in C; cbn [negb] in C.
  apply bind_ok in C; destruct C as ([] & V & C); apply check_ok in V.
  destruct (VerifyReissueAsset_ok _ _ _ _ V I F) as (-> & B & T); rewrite F in C.
  apply bind_ok in C; destruct C as ([] & C & _); apply check_ok in C; auto.
Qed.

Lemma new_owner tx : tx_IsNewAsset tx = true -> check_new_asset tx = Ok tt ->
  forall o name addr, In o (vout tx) -> owner_from (scriptPubKey o) = Some (name, addr) ->
  exists a, asset_from (scriptPubKey (back (vout tx))) = Some (a, addr) /\ name = na_strName a ++ OWNER_TAG.
Proof.
  intros N C o name addr I F; unfold check_new_asset, AssetFromTransaction in C; rewrite N in C; cbn [negb] in C.
  apply bind_ok in C; destruct C as ([] & V & C); apply check_ok in V.
  destruct (asset_from (scriptPubKey (back (vout tx)))) as [[a addr']|]; [|discriminate].
  apply bind_ok in C; destruct C as ([] & W & _); apply check_ok in W.
  unfold VerifyNewAsset in V; passed V; bool_to_prop.
  assert (o = before_back (vout tx)) as ->.
  { apply (count_one CheckOwnerDataTx (vout tx)); auto; [|apply before_back_in; lia|exact (owner_output _ _ _ F)].
    now rewrite <- (proj1 (proj2 (counts_correct (vout tx)))). }
  unfold IsNewOwnerTxValid, OwnerFromTransaction in W; rewrite N in W; cbn [negb] in W; rewrite F in W; passed W.
  bool_to_prop; exists a; rewrite !bytes_eqb_eq in *; subst; auto.
Qed.

Lemma issuance_ok tx dup mempool block : CheckTransaction tx dup mempool block = Ok tt ->
  (forall o a address, In o (vout tx) -> asset_from (scriptPubKey o) = Some (a, address) -> issue_ok tx a) /\
  (forall o r address, In o (vout tx) -> reissue_from (scriptPubKey o) = Some (r, address) ->
   CheckReissueAsset r = Ok tt /\ existsb CheckReissueBurnTx (vout tx) = true /\
   has_transfer (reissue_token (ra_strName r)) (vout tx) = true) /\
  (forall o name address, In o (vout tx) -> owner_from (scriptPubKey o) = Some (name, address) ->
   exists a, asset_from (scriptPubKey (back (vout tx))) = Some (a, address) /\ name = na_strName a ++ OWNER_TAG).
Proof.
  intros R; destruct (CheckTransaction_inv _ _ _ _ R) as (s & nr & re & A).
  destruct (issuance_counts _ _ (ac_issuance _ _ _ _ _ _ _ A)) as [(N & C & _ & _ & Z)|[(N & [b C] & Z1 & Z2 & _)|(P & _ & Z1 & Z2)]].
  - split_all; [intros o a addr I F; eapply new_asset_issue; eauto| |].
    + intros o r addr I F; apply reissue_output in F.
      pose proof (no_kind _ _ _ (Z eq_refl) I) as K; unfold CheckReissueDataTx in K; congruence.
    + eapply new_owner; eauto.
  - split_all.
    + intros o a addr I F; apply issue_output in F.
      pose proof (no_kind _ _ _ (Z1 eq_refl) I) as K; unfold CheckIssueDataTx in K; congruence.
    + eapply reissued_ok; eauto.
    + intros o n addr I F; apply owner_output in F.
      pose proof (no_kind _ _ _ (Z2 eq_refl) I) as K; unfold CheckOwnerDataTx in K; congruence.
  - split_all; [exact P| |].
    + intros o r addr I F; apply reissue_output in F.
      pose proof (no_kind _ _ _ (Z2 eq_refl) I) as K; unfold CheckReissueDataTx in K; congruence.
    + intros o n addr I F; apply owner_output in F.
      pose proof (no_kind _ _ _ (Z1 eq_refl) I) as K; unfold CheckOwnerDataTx in K; congruence.
Qed.

(** C33: in a transaction that passes the checks, every issued asset has sound
    data, its burn fee (for each of the unique assets issued together) is paid, and the
    transaction moves the token of the asset it derives from: the owner token of the
    parent of a sub-asset, unique asset, message channel or restricted asset,
    the parent of a sub-qualifier.  The exception are message channels and
    sub-qualifiers issued together with an owner token, which go through the
    checks for plain assets.  Every reissue has sound data, burns the fee and
    moves the owner token of the asset, and a new owner token is the one of
    the asset issued with it, to the same address. *)
Theorem Issuance_authorised (tx : CTransaction) (dup mempool block : bool) :
  CheckTransaction tx dup mempool block = Ok tt ->
  (forall o a address, In o (vout tx) -> asset_from (scriptPubKey o) = Some (a, address) -> issue_ok tx a) /\
  (forall o r address, In o (vout tx) -> reissue_from (scriptPubKey o) = Some (r, address) ->
   CheckReissueAsset r = Ok tt /\ existsb CheckReissueBurnTx (vout tx) = true /\
   has_transfer (reissue_token (ra_strName r)) (vout tx) = true) /\
  (forall o name address, In o (vout tx) -> owner_from (scriptPubKey o) = Some (name, address) ->
   exists a, asset_from (scriptPubKey (back (vout tx))) = Some (a, address) /\ name = na_strName a ++ OWNER_TAG).
Proof. exact (issuance_ok tx dup mempool block). Qed.
End Scan.

(** * Examples *)

Definition example_burn (k : Z) : bytes := repeat k 20.
Definition example_params : CChainParams :=
  mkParams (COIN / 4) (COIN / 20) (COIN / 20) (COIN / 100) (COIN / 20) (COIN / 4) (COIN / 20) (COIN / 4) (COIN / 20)
    (example_burn 1) (example_burn 2) (example_burn 3) (example_burn 4) (example_burn 5) (example_burn 6)
    (example_burn 7) (example_burn 8) (example_burn 9) false.
Definition example_encode (d : CTxDestination) : bytes :=
  match d with CNoDestination => [] | CKeyID h => h | CScriptID h => 5 :: h end.

(** Every rule is active; hashes and addresses are the bytes themselves. *)
#[export] Instance example_node : Node :=
  Build_Node example_params true true true true true (firstn 20) (firstn 32) example_encode (fun b => b) INVALID.

Definition example_key : CScript := GetScriptForDestination (CKeyID (example_burn 11)).
Definition example_input : CTxIn := mkTxIn (mkOutPoint (repeat 7 32) 1) [] SEQUENCE_FINAL [].

(** The owner token of ABC moves, and an address is frozen for $ABC. *)
Definition freeze_tx : CTransaction :=
  mkTx [example_input]
    [mkTxOut 0 (ConstructTransfer (mkTransfer (str "ABC!") COIN [] 0) example_key);
     mkTxOut 0 (ConstructNullData (mkNullData (str "$ABC") 1) (GetScriptForNullAssetDataDestination (CKeyID (example_burn 12))))]
    2 0.

(** A message channel of ABC is issued with an owner token of its own; the
    owner token of ABC is not moved. *)
Definition channel_tx : CTransaction :=
  mkTx [example_input]
    [mkTxOut (COIN / 20) (GetScriptForDestination (CKeyID (example_burn 5)));
     mkTxOut 0 (ConstructOwner (mkNewAsset (str "ABC~NEWS") COIN 0 0 0 []) example_key);
     mkTxOut 0 (ConstructNewAsset (mkNewAsset (str "ABC~NEWS") COIN 0 0 0 []) example_key)]
    2 0.

Lemma freeze_accepted : CheckTransaction freeze_tx true true true = Ok tt.
Proof. vm_compute; reflexivity. Qed.

Lemma unauthorised_channel :
  CheckTransaction channel_tx true true true = Ok tt /\ has_transfer (str "ABC!") (vout channel_tx) = false.
Proof. split; vm_compute; reflexivity. Qed.

Lemma short_check (b : bytes) : Nat.leb (length b) 200 && forallb (fun x => (0 <=? x) && (x <? 256)) b = true ->
  short_bytes b.
Proof.
  intros K; apply andb_prop in K; destruct K as [L B]; apply Nat.leb_le in L; split; [unfold MAX_SIZE; lia|].
  apply Forall_forall; intros x I; rewrite forallb_forall in B; specialize (B x I); bool_to_prop; split; lia.
Qed.

Lemma freeze_valid : valid_tx freeze_tx.
Proof.
  assert (Z : in_s 64 0) by (split; lia).
  split; try (cbn; unfold MAX_SIZE, in_s, in_u; lia).
  - repeat constructor; cbn; unfold in_u, in_s, MAX_SIZE, SEQUENCE_FINAL; lia.
  - constructor; [|constructor; [|constructor]]; (split; [exact Z|apply short_check; vm_compute; reflexivity]).
Qed.

Lemma CheckTransaction_values_witness :
  NoDup (map prevout (vin freeze_tx)) /\ sum (map nValue (vout freeze_tx)) <= MAX_MONEY.
Proof.
  destruct (CheckTransaction_values freeze_tx true true true freeze_valid freeze_accepted)
    as (_ & _ & _ & _ & S & _ & D & _).
  split; [exact (D eq_refl)|exact S].
Defined.

Lemma Commands_authorised_witness : has_transfer (command_token (str "$ABC")) (vout freeze_tx) = true.
Proof.
  destruct (Commands_authorised freeze_tx true true true freeze_accepted) as (C & _).
  refine (proj2 (C (back (vout freeze_tx)) (mkNullData (str "$ABC") 1) (example_burn 12) _ _));
    [right; left; reflexivity|vm_compute; reflexivity].
Defined.

Lemma Issuance_authorised_witness : issue_ok channel_tx (mkNewAsset (str "ABC~NEWS") COIN 0 0 0 []).
Proof.
  destruct (Issuance_authorised channel_tx true true true (proj1 unauthorised_channel)) as (C & _).
  refine (C (back (vout channel_tx)) _ (example_burn 11) _ _); [do 2 right; left; reflexivity|vm_compute; reflexivity].
Defined.
