(* ===== verification/PartialMerkle.v ===== *)
(** Partial Merkle trees (src/merkleblock.h, src/merkleblock.cpp): the proof
    that some transactions are in a block, as it is built by a full node, put
    on the wire and read by a light client.

    [TraverseAndBuild] and [TraverseAndExtract] are recursive on the height,
    as in the source.  The extraction does not stop at the first problem: it
    sets [fBad] and goes on, which the state [extraction] keeps.  The theorems
    tie the two to the tree of [Merkle]: what is extracted from a proof built
    for a block whose root is not marked as mutated is the root of the block
    and the selected transactions, in order. *)

From Stdlib Require Import ZArith List Bool Lia Arith.
From S2P Require Import Prelude Serialize Script Standard Transaction Hasher Sha2 Hashes Merkle TxCheck.
Import ListNotations.
Open Scope Z_scope.

Definition MIN_TRANSACTION_WEIGHT : Z := WITNESS_SCALE_FACTOR * 60.

Inductive pmt_error := NoTxids | TxidOutOfRange | HeightOutOfRange.

Record CPartialMerkleTree := mkTree {
  nTransactions : Z;
  vBits : list bool;
  vHash : list bytes;
  fBad : bool
}.

Definition CalcTreeWidth (nTransactions : Z) (height : nat) : Z :=
  Z.shiftr (w32 (nTransactions + s32 (Z.shiftl 1 (Z.of_nat height)) - 1)) (Z.of_nat height).

(** [while (CalcTreeWidth(nHeight) > 1) nHeight++] *)
Fixpoint height_loop (fuel : nat) (nTransactions : Z) (nHeight : nat) : result pmt_error nat :=
  match fuel with
  | O => Err HeightOutOfRange
  | S fuel' =>
      if CalcTreeWidth nTransactions nHeight >? 1 then height_loop fuel' nTransactions (S nHeight) else Ok nHeight
  end.

Section Partial.
Variable Hash : bytes -> bytes.

Section Build.
Variable nTransactions : Z.
Variable vTxid : list bytes.
Variable vMatch : list bool.

Fixpoint CalcHash (height : nat) (pos : Z) : result pmt_error bytes :=
  match vTxid with
  | [] => Err NoTxids
  | _ =>
      match height with
      | O => match nth_error vTxid (Z.to_nat pos) with Some t => Ok t | None => Err TxidOutOfRange end
      | S height' =>
          let! lhs := CalcHash height' (w32 (pos * 2)) in
          let! rhs :=
            if w32 (pos * 2 + 1) <? CalcTreeWidth nTransactions height' then CalcHash height' (w32 (pos * 2 + 1))
            else Ok lhs in
          Ok (Hash (lhs ++ rhs))
      end
  end.

(** The loop that collects [fParentOfMatch] over the leaves below a node. *)
Fixpoint match_loop (n : nat) (p last : Z) (fParentOfMatch : bool) : bool :=
  match n with
  | O => fParentOfMatch
  | S n' =>
      if (p <? last) && (p <? nTransactions)
      then match_loop n' (p + 1) last (fParentOfMatch || nth (Z.to_nat p) vMatch false)
      else fParentOfMatch
  end.

(** The bits and hashes pushed. *)
Fixpoint TraverseAndBuild (height : nat) (pos : Z) : result pmt_error (list bool * list bytes) :=
  let first := w32 (Z.shiftl pos (Z.of_nat height)) in
  let last := w32 (Z.shiftl (pos + 1) (Z.of_nat height)) in
  let fParentOfMatch := match_loop (Z.to_nat nTransactions) first last false in
  let here :=
    let! hash := CalcHash height pos in Ok ([fParentOfMatch], [hash]) in
  match height with
  | O => here
  | S height' =>
      if negb fParentOfMatch then here
      else
        let! l := TraverseAndBuild height' (w32 (pos * 2)) in
        let! r :=
          if w32 (pos * 2 + 1) <? CalcTreeWidth nTransactions height' then TraverseAndBuild height' (w32 (pos * 2 + 1))
          else Ok ([], []) in
        Ok (fParentOfMatch :: fst l ++ fst r, snd l ++ snd r)
  end.
End Build.

(** The constructor from the transactions of a block and a selection. *)
Definition CPartialMerkleTree_build (vTxid : list bytes) (vMatch : list bool) : result pmt_error CPartialMerkleTree :=
  let n := w32 (Z.of_nat (length vTxid)) in
  let! nHeight := height_loop 32 n 0 in
  let! r := TraverseAndBuild n vTxid vMatch nHeight 0 in
  Ok (mkTree n (fst r) (snd r) false).

(** What the traversal of [ExtractMatches] changes. *)
Record extraction := mkExtraction {
  nBitsUsed : nat;
  nHashUsed : nat;
  bad : bool;
  ex_match : list bytes;
  ex_index : list Z
}.

Section Extract.
Variable t : CPartialMerkleTree.

Definition set_bad (s : extraction) : extraction :=
  mkExtraction (nBitsUsed s) (nHashUsed s) true (ex_match s) (ex_index s).

Fixpoint TraverseAndExtract (height : nat) (pos : Z) (s : extraction) : bytes * extraction :=
  match nth_error (vBits t) (nBitsUsed s) with
  | None => (null_hash, set_bad s)
  | Some fParentOfMatch =>
      let s := mkExtraction (S (nBitsUsed s)) (nHashUsed s) (bad s) (ex_match s) (ex_index s) in
      let here :=
        match nth_error (vHash t) (nHashUsed s) with
        | None => (null_hash, set_bad s)
        | Some hash =>
            let found := (match height with O => true | S _ => false end) && fParentOfMatch in
            (hash, mkExtraction (nBitsUsed s) (S (nHashUsed s)) (bad s)
                     (ex_match s ++ if found then [hash] else []) (ex_index s ++ if found then [pos] else []))
        end in
      match height with
      | O => here
      | S height' =>
          if negb fParentOfMatch then here
          else
            let '(lhs, s) := TraverseAndExtract height' (w32 (pos * 2)) s in
            if w32 (pos * 2 + 1) <? CalcTreeWidth (nTransactions t) height' then
              let '(rhs, s) := TraverseAndExtract height' (w32 (pos * 2 + 1)) s in
              (Hash (lhs ++ rhs), if bytes_eqb rhs lhs then set_bad s else s)
            else (Hash (lhs ++ lhs), s)
      end
  end.

(** The root or null, [vMatch] and [vnIndex], to which the indices found are
    appended. *)
Definition ExtractMatches (vnIndex : list Z) : result pmt_error (bytes * list bytes * list Z) :=
  if nTransactions t =? 0 then Ok (null_hash, [], vnIndex)
  else if nTransactions t >? GetMaxBlockWeight / MIN_TRANSACTION_WEIGHT then Ok (null_hash, [], vnIndex)
  else if Z.of_nat (length (vHash t)) >? nTransactions t then Ok (null_hash, [], vnIndex)
  else if (length (vBits t) <? length (vHash t))%nat then Ok (null_hash, [], vnIndex)
  else
    let! nHeight := height_loop 32 (nTransactions t) 0 in
    let '(hashMerkleRoot, s) := TraverseAndExtract nHeight 0 (mkExtraction 0 0 (fBad t) [] vnIndex) in
    let root :=
      if bad s then null_hash
      else if negb ((nBitsUsed s + 7) / 8 =? (length (vBits t) + 7) / 8)%nat then null_hash
      else if negb (nHashUsed s =? length (vHash t))%nat then null_hash
      else hashMerkleRoot in
    Ok (root, ex_match s, ex_index s).
End Extract.
End Partial.

(** * The wire format *)

(** [vBytes[p / 8] |= vBits[p] << (p % 8)] for every bit [p]. *)
Definition pack_bits (vBits : list bool) : bytes :=
  fold_left (fun vBytes p => upd vBytes (p / 8) (Z.lor (get vBytes (p / 8))
               (Z.shiftl (Z.b2z (nth p vBits false)) (Z.of_nat (p mod 8)))))
    (seq 0 (length vBits)) (repeat 0 ((length vBits + 7) / 8)).

(** [vBits[p] = (vBytes[p / 8] & (1 << (p % 8))) != 0] *)
Definition unpack_bits (vBytes : bytes) : list bool :=
  map (fun p => negb (Z.land (get vBytes (p / 8)) (Z.shiftl 1 (Z.of_nat (p mod 8))) =? 0))
    (seq 0 (length vBytes * 8)).

(** * The shape of the tree *)

Section Shape.
Variable leaves : list bytes.
Local Abbreviation n := (size leaves).
Hypothesis Hn : 0 < n <= 2 ^ 20.

Lemma small_span k : (k <= 20)%nat -> span k <= 2 ^ 20.
Proof. intros; change (2 ^ 20) with (span 20); now apply span_mono. Qed.

Lemma CalcTreeWidth_ok i k : (k <= 20)%nat -> 0 <= i -> (i <? CalcTreeWidth n k) = (i * span k <? n).
Proof.
  intros K I; pose proof (span_pos k) as Sp; pose proof (small_span k K) as Sm; unfold CalcTreeWidth.
  rewrite Z.shiftl_1_l; fold (span k); rewrite (swrap_id 32 : forall x, 0 < 32 -> in_s 32 x -> s32 x = x) by (unfold in_s; lia).
  unfold w32; rewrite wrap_id by (unfold in_u; lia); rewrite Z.shiftr_div_pow2 by lia; fold (span k).
  apply eq_true_iff_eq; rewrite !Z.ltb_lt; split; intros L.
  - pose proof (Z.mul_div_le (n + span k - 1) (span k) Sp); nia.
  - assert (i + 1 <= (n + span k - 1) / span k) by (apply Z.div_le_lower_bound; lia); lia.
Qed.

Lemma height_bound : (height leaves <= 20)%nat /\ span (height leaves) < 2 * n /\ n <= span (height leaves).
Proof.
  assert (N : leaves <> []) by (intros ->; cbn in Hn; lia); pose proof (span_height leaves N) as U.
  assert (L : span (height leaves) < 2 * n).
  { unfold span, height; rewrite Z2Nat.id by apply Z.log2_up_nonneg; destruct (Z.eq_dec n 1) as [->|Ne]; [cbn; lia|].
    destruct (Z.log2_up_spec n ltac:(lia)) as [A _]; pose proof (Z.log2_up_pos n ltac:(lia)) as B.
    replace (Z.log2_up n) with (Z.succ (Z.pred (Z.log2_up n))) by lia; rewrite Z.pow_succ_r by lia; lia. }
  split; [|lia]; destruct (Nat.le_gt_cases (height leaves) 20) as [|G]; [auto|].
  pose proof (span_mono 21 (height leaves) ltac:(lia)); change (span 21) with (2 ^ 21) in *; lia.
Qed.

Lemma height_loop_ok fuel : forall k, (20 < fuel + k)%nat -> (k <= height leaves)%nat ->
  height_loop fuel n k = Ok (height leaves).
Proof.
  destruct height_bound as (B & U & L); induction fuel as [|fuel IH]; intros k F K; [lia|cbn [height_loop]].
  rewrite Z.gtb_ltb, CalcTreeWidth_ok by lia; rewrite Z.mul_1_l; destruct (Z.ltb_spec (span k) n) as [G|G].
  - apply IH; [lia|]; destruct (Nat.eq_dec k (height leaves)) as [->|]; lia.
  - destruct (Nat.eq_dec k (height leaves)) as [->|]; [reflexivity|].
    pose proof (span_lt k (height leaves) ltac:(lia)); lia.
Qed.

Lemma child_index k pos : 0 <= pos -> pos * span (S k) < n ->
  w32 (pos * 2) = 2 * pos /\ w32 (pos * 2 + 1) = 2 * pos + 1 /\ 2 * pos * span k < n.
Proof.
  intros P L; rewrite span_succ in L; pose proof (span_pos k); unfold w32.
  assert (2 * pos < n) by nia; rewrite !wrap_id by (unfold in_u; lia); split_all; lia.
Qed.
End Shape.

(** * Building *)

Section Building.
Variable Hash : bytes -> bytes.
Variable leaves : list bytes.
Variable vMatch : list bool.
Local Abbreviation n := (size leaves).
Local Abbreviation node := (node Hash leaves).
Hypothesis Hn : 0 < n <= 2 ^ 20.

Lemma CalcHash_ok k : (k <= 20)%nat -> forall pos, 0 <= pos -> pos * span k < n ->
  CalcHash Hash n leaves k pos = Ok (node k pos).
Proof.
  assert (N : leaves <> []) by (intros E; rewrite E in Hn; cbn in Hn; lia).
  assert (U : forall k pos, CalcHash Hash n leaves k pos = match k with
    | O => match nth_error leaves (Z.to_nat pos) with Some t => Ok t | None => Err TxidOutOfRange end
    | S k' => let! lhs := CalcHash Hash n leaves k' (w32 (pos * 2)) in
              let! rhs := if w32 (pos * 2 + 1) <? CalcTreeWidth n k' then CalcHash Hash n leaves k' (w32 (pos * 2 + 1))
                          else Ok lhs in Ok (Hash (lhs ++ rhs)) end)
    by (intros [|k'] p; cbn [CalcHash]; destruct leaves; congruence || reflexivity).
  induction k as [|k IH]; intros K pos P L; rewrite U.
  - cbn [Merkle.node]; rewrite span_0 in L; destruct (nth_error leaves (Z.to_nat pos)) eqn:E.
    + now rewrite (nth_error_nth _ _ _ E).
    + apply nth_error_None in E; unfold size in L; lia.
  - destruct (child_index leaves Hn k pos P L) as (E1 & E2 & L2); rewrite E1, E2, IH by lia; cbn [bind Merkle.node].
    rewrite CalcTreeWidth_ok by lia; unfold Hash2; destruct (Z.ltb_spec ((2 * pos + 1) * span k) n); [|reflexivity].
    rewrite IH by lia; reflexivity.
Qed.

(** The selected positions from [a] to before [b]. *)
Definition picked (a b : nat) : list nat := filter (fun p => nth p vMatch false) (seq a (b - a)).

Lemma picked_split a b c : (a <= b <= c)%nat -> picked a c = picked a b ++ picked b c.
Proof.
  intros L; unfold picked; replace (c - a)%nat with ((b - a) + (c - b))%nat by lia.
  rewrite seq_app, filter_app; now replace (a + (b - a))%nat with b by lia.
Qed.

Lemma picked_nil a b : (b <= a)%nat -> picked a b = [].
Proof. intros L; unfold picked; now replace (b - a)%nat with 0%nat by lia. Qed.

Lemma picked_cons a b : (a < b)%nat -> picked a b = (if nth a vMatch false then [a] else []) ++ picked (S a) b.
Proof.
  intros L; rewrite (picked_split a (S a) b) by lia; f_equal; unfold picked.
  replace (S a - a)%nat with 1%nat by lia; cbn; now destruct (nth a vMatch false).
Qed.

Lemma match_loop_ok last k : forall p b, 0 <= p -> Z.min last n - p <= Z.of_nat k ->
  match_loop n vMatch k p last b = b || negb (is_nil (picked (Z.to_nat p) (Z.to_nat (Z.min last n)))).
Proof.
  induction k as [|k IH]; intros p b P L; cbn [match_loop].
  - rewrite picked_nil by lia; now rewrite orb_false_r.
  - destruct ((p <? last) && (p <? n)) eqn:E; bool_to_prop.
    + rewrite IH, (picked_cons (Z.to_nat p)) by lia; replace (Z.to_nat (p + 1)) with (S (Z.to_nat p)) by lia.
      rewrite <- orb_assoc; f_equal; destruct (nth (Z.to_nat p) vMatch false); reflexivity.
    + rewrite picked_nil by lia; now rewrite orb_false_r.
Qed.

Definition first (k : nat) (pos : Z) : nat := Z.to_nat (pos * span k).
Definition beyond (k : nat) (pos : Z) : nat := Z.to_nat (Z.min ((pos + 1) * span k) n).
Definition below (k : nat) (pos : Z) : list nat := picked (first k pos) (beyond k pos).

(** The leaves below a node are those below its children. *)
Lemma range_children k pos : 0 <= pos -> pos * span (S k) < n ->
  first (S k) pos = first k (2 * pos) /\ (first k (2 * pos) <= beyond k (2 * pos))%nat /\
  if (2 * pos + 1) * span k <? n
  then beyond k (2 * pos) = first k (2 * pos + 1) /\ beyond (S k) pos = beyond k (2 * pos + 1) /\
       (first k (2 * pos + 1) <= beyond k (2 * pos + 1))%nat
  else beyond (S k) pos = beyond k (2 * pos).
Proof.
  intros P L; pose proof (span_pos k) as Sp; pose proof (span_succ k) as Sk; unfold first, beyond.
  assert (E1 : pos * span (S k) = 2 * pos * span k) by (rewrite Sk; ring).
  assert (E2 : (pos + 1) * span (S k) = (2 * pos + 1 + 1) * span k) by (rewrite Sk; ring).
  rewrite E1 in *; rewrite E2; assert ((2 * pos + 1 + 1) * span k = (2 * pos + 1) * span k + span k) by ring.
  assert ((2 * pos + 1) * span k = 2 * pos * span k + span k) by ring.
  destruct (Z.ltb_spec ((2 * pos + 1) * span k) n); split_all; try reflexivity; try lia.
Qed.

Lemma below_children k pos : 0 <= pos -> pos * span (S k) < n ->
  below (S k) pos = below k (2 * pos) ++ if (2 * pos + 1) * span k <? n then below k (2 * pos + 1) else [].
Proof.
  intros P L; destruct (range_children k pos P L) as (E1 & L1 & E); unfold below; rewrite E1.
  destruct ((2 * pos + 1) * span k <? n); [destruct E as (E2 & -> & L2)|rewrite E; now rewrite app_nil_r].
  rewrite E2 in *; apply picked_split; lia.
Qed.

Lemma below_leaf pos : 0 <= pos < n -> below 0 pos = if nth (Z.to_nat pos) vMatch false then [Z.to_nat pos] else [].
Proof.
  intros P; unfold below, first, beyond; rewrite span_0, !Z.mul_1_r.
  rewrite picked_cons, picked_nil, app_nil_r by lia; reflexivity.
Qed.

Lemma parent_of_match k pos : (k <= 20)%nat -> 0 <= pos -> pos * span k < n ->
  match_loop n vMatch (Z.to_nat n) (w32 (Z.shiftl pos (Z.of_nat k))) (w32 (Z.shiftl (pos + 1) (Z.of_nat k))) false =
  negb (is_nil (below k pos)).
Proof.
  intros K P L; pose proof (span_pos k) as Sp; pose proof (small_span k K) as Sm.
  rewrite !Z.shiftl_mul_pow2 by lia; fold (span k); unfold w32; rewrite !wrap_id by (unfold in_u; nia).
  rewrite match_loop_ok by nia; reflexivity.
Qed.

(** The traversal that builds the proof of a subtree, and the one that reads
    it at any place of the proof of the whole tree. *)
Definition reads_back (k : nat) (pos : Z) (bits : list bool) (hashes : list bytes) : Prop :=
  forall t pre post preh posth s,
  vBits t = pre ++ bits ++ post -> vHash t = preh ++ hashes ++ posth -> nTransactions t = n ->
  nBitsUsed s = length pre -> nHashUsed s = length preh ->
  TraverseAndExtract Hash t k pos s =
    (node k pos, mkExtraction (length pre + length bits) (length preh + length hashes) (bad s)
       (ex_match s ++ map (fun p => nth p leaves []) (below k pos)) (ex_index s ++ map Z.of_nat (below k pos))).

Definition distinct_siblings : Prop := forall k i, (k < height leaves)%nat -> 0 <= i -> (2 * i + 1) * span k < n ->
  node k (2 * i) <> node k (2 * i + 1).

Lemma nth_error_middle {A} (l r : list A) x i : i = length l -> nth_error (l ++ x :: r) i = Some x.
Proof. intros ->; rewrite nth_error_app2, Nat.sub_diag by lia; reflexivity. Qed.

(** A node that is not opened: one bit and its hash. *)
Lemma reads_back_closed k pos b : 0 <= pos -> pos * span k < n -> b = negb (is_nil (below k pos)) ->
  (k = O \/ b = false) -> reads_back k pos [b] [node k pos].
Proof.
  intros P L B C t pre post preh posth s; destruct t as [tn tb th tf], s as [nb nh bd em ei]; cbn [vBits vHash nTransactions nBitsUsed nHashUsed bad ex_match ex_index].
  intros -> -> -> -> ->; cbn [app]; assert (F : (match k with O => true | S _ => false end) && b = b).
  { destruct C as [-> | ->]; [reflexivity|apply andb_false_r]. }
  assert (M : map (fun p => nth p leaves []) (below k pos) = (if b then [node k pos] else []) /\
              map Z.of_nat (below k pos) = if b then [pos] else []).
  { destruct C as [->|Bf].
    - rewrite span_0 in L; rewrite below_leaf in * by lia; destruct (nth (Z.to_nat pos) vMatch false); cbn in B; subst b; cbn; split; auto.
      rewrite Z2Nat.id by lia; reflexivity.
    - rewrite B in Bf; destruct (below k pos); [subst b; auto|discriminate]. }
  destruct M as [M1 M2]; rewrite M1, M2.
  destruct k; cbn [TraverseAndExtract vBits vHash nBitsUsed nHashUsed bad ex_match ex_index length];
    rewrite !nth_error_middle by reflexivity; cbn [nBitsUsed nHashUsed bad ex_match ex_index negb andb] in *.
  - repeat f_equal; lia.
  - destruct C as [C|C]; [discriminate|]; rewrite C; cbn [negb]; repeat f_equal; lia.
Qed.

Lemma reads_back_open k pos l r hl hr : (S k <= height leaves)%nat -> (S k <= 20)%nat -> distinct_siblings ->
  0 <= pos -> pos * span (S k) < n ->
  reads_back k (2 * pos) l hl ->
  (if (2 * pos + 1) * span k <? n then reads_back k (2 * pos + 1) r hr else r = [] /\ hr = []) ->
  reads_back (S k) pos (true :: l ++ r) (hl ++ hr).
Proof.
  intros Kh K D P L Rl Rr t pre post preh posth s; destruct t as [tn tb th tf], s as [nb nh bd em ei].
  cbn [vBits vHash nTransactions nBitsUsed nHashUsed bad ex_match ex_index]; intros -> -> -> -> ->.
  destruct (child_index leaves Hn k pos P L) as (E1 & E2 & L2); cbn [TraverseAndExtract vBits nBitsUsed nTransactions].
  cbn [app]; rewrite nth_error_middle by reflexivity; cbn [negb]; rewrite E1, E2, CalcTreeWidth_ok by lia.
  erewrite (Rl _ (pre ++ [true]) (r ++ post) preh (hr ++ posth));
    cbn [vBits vHash nTransactions nBitsUsed nHashUsed bad ex_match ex_index]; try reflexivity;
    [|now rewrite <- !app_assoc|now rewrite <- !app_assoc|rewrite length_app; cbn; lia].
  rewrite (below_children k pos P L); destruct (Z.ltb_spec ((2 * pos + 1) * span k) n) as [R|R].
  - erewrite (Rr _ (pre ++ [true] ++ l) post (preh ++ hl) posth);
      cbn [vBits vHash nTransactions nBitsUsed nHashUsed bad ex_match ex_index]; try reflexivity;
      [|now rewrite <- !app_assoc|now rewrite <- !app_assoc|rewrite !length_app; cbn; lia|now rewrite length_app].
    replace (bytes_eqb _ _) with false.
    2: { symmetry; apply not_true_iff_false; intros E; apply bytes_eqb_eq in E; apply (D k pos); auto; lia. }
    rewrite node_pair by exact R; unfold Hash2; rewrite !map_app, !app_assoc, !length_app; cbn [length].
    rewrite length_app; f_equal; f_equal; lia.
  - destruct Rr as [-> ->]; rewrite node_last by exact R; unfold Hash2; rewrite !app_nil_r, !length_app; cbn [length].
    f_equal; f_equal; lia.
Qed.

Lemma build_ok k : (k <= height leaves)%nat -> (k <= 20)%nat -> distinct_siblings -> forall pos, 0 <= pos -> pos * span k < n ->
  exists bits hashes, TraverseAndBuild Hash n leaves vMatch k pos = Ok (bits, hashes) /\
    reads_back k pos bits hashes /\ (length hashes <= length bits)%nat /\
    (length hashes <= beyond k pos - first k pos)%nat.
Proof.
  intros Kh K D; induction k as [|k IH]; intros pos P L; cbn [TraverseAndBuild]; rewrite parent_of_match, CalcHash_ok by lia; cbn [bind].
  - do 2 eexists; split; [reflexivity|]; split; [now apply reads_back_closed; auto|]; split; [auto|].
    unfold beyond, first; rewrite span_0 in *; cbn; lia.
  - destruct (is_nil (below (S k) pos)) eqn:B; cbn [negb].
    + do 2 eexists; split; [reflexivity|]; split; [apply reads_back_closed; auto; now rewrite B|]; split; [auto|].
      unfold beyond, first; pose proof (span_pos (S k)); cbn [length]; nia.
    + destruct (child_index leaves Hn k pos P L) as (E1 & E2 & L2); rewrite E1, E2.
      destruct (IH ltac:(lia) ltac:(lia) (2 * pos) ltac:(lia) L2) as (l & hl & -> & Rl & C1 & C2); cbn [bind].
      rewrite CalcTreeWidth_ok by lia; destruct (range_children k pos P L) as (F1 & F2 & F).
      destruct (Z.ltb_spec ((2 * pos + 1) * span k) n) as [R|R].
      * destruct (IH ltac:(lia) ltac:(lia) (2 * pos + 1) ltac:(lia) R) as (r & hr & -> & Rr & D1 & D2); cbn [bind fst snd].
        do 2 eexists; split; [reflexivity|]; split.
        { apply reads_back_open; auto; rewrite (proj2 (Z.ltb_lt _ _)) by exact R; exact Rr. }
        cbn [length]; rewrite !length_app, F1; destruct F as (F3 & F4 & F5); lia.
      * cbn [bind fst snd]; do 2 eexists; split; [reflexivity|]; split.
        { apply reads_back_open; auto; rewrite (proj2 (Z.ltb_ge _ _)) by exact R; auto. }
        cbn [length]; rewrite !app_nil_r, F1, F; lia.
Qed.
End Building.

(** Siblings differ in a tree without complete twins. *)
Lemma distinct_ok Hash leaves : no_collision Hash leaves leaves -> ~ twins Hash leaves (size leaves) ->
  distinct_siblings Hash leaves.
Proof.
  intros N T k i K I L E; apply T; destruct (Z.le_gt_cases ((2 * i + 2) * span k) (size leaves)) as [C|C].
  - exists k, i; auto.
  - apply (incomplete_twin Hash leaves k N ltac:(lia) (2 * i) (2 * i + 1)); auto; try lia.
Qed.

(** * The wire format *)

Lemma enough_bytes l : (l <= 8 * ((l + 7) / 8))%nat.
Proof. pose proof (Nat.div_mod (l + 7) 8); pose proof (Nat.mod_upper_bound (l + 7) 8); lia. Qed.

Lemma pack_bits_ok vBits j r : (r < 8)%nat ->
  Z.testbit (get (pack_bits vBits) j) (Z.of_nat r) = nth (8 * j + r) vBits false.
Proof.
  intros R; set (size := ((length vBits + 7) / 8)%nat).
  pose proof (enough_bytes (length vBits)) as Sz; fold size in Sz.
  enough (G : forall m, (m <= length vBits)%nat -> let v := fold_left (fun vBytes p => upd vBytes (p / 8)
      (Z.lor (get vBytes (p / 8)) (Z.shiftl (Z.b2z (nth p vBits false)) (Z.of_nat (p mod 8))))) (seq 0 m) (repeat 0 size) in
    length v = size /\ Z.testbit (get v j) (Z.of_nat r) = (8 * j + r <? m)%nat && nth (8 * j + r) vBits false).
  { destruct (G (length vBits) (Nat.le_refl _)) as [_ E]; unfold pack_bits; fold size; rewrite E.
    destruct (Nat.ltb_spec (8 * j + r) (length vBits)); [reflexivity|now rewrite nth_overflow]. }
  induction m as [|m IH]; intros M; cbv zeta.
  - split; [apply repeat_length|]; unfold get; cbn [seq fold_left]; rewrite nth_repeat, Z.testbit_0_l; reflexivity.
  - destruct (IH ltac:(lia)) as [L E]; rewrite seq_S, fold_left_app; cbn [fold_left Nat.add]; set (v := fold_left _ _ _) in *.
    pose proof (Nat.div_mod m 8 ltac:(lia)) as D; pose proof (Nat.mod_upper_bound m 8 ltac:(lia)) as U.
    split; [now rewrite length_upd|]; rewrite get_upd by lia; destruct (Nat.eqb_spec (m / 8) j) as [Q|Q].
    + rewrite Q, Z.lor_spec, E, Z.shiftl_spec by lia; destruct (Nat.eq_dec r (m mod 8)) as [->|Nr].
      * replace (8 * j + m mod 8)%nat with m by lia; rewrite Z.sub_diag, Nat.ltb_irrefl, (proj2 (Nat.ltb_lt _ _)) by lia.
        cbn; now destruct (nth m vBits false).
      * assert (X : Z.testbit (Z.b2z (nth m vBits false)) (Z.of_nat r - Z.of_nat (m mod 8)) = false).
        { destruct (Z.lt_ge_cases (Z.of_nat r) (Z.of_nat (m mod 8))); [apply Z.testbit_neg_r; lia|].
          destruct (nth m vBits false); cbn [Z.b2z]; [|apply Z.testbit_0_l]; apply Z.bits_above_log2; [|change (Z.log2 1) with 0]; lia. }
        rewrite X, orb_false_r; f_equal; apply eq_true_iff_eq; rewrite !Nat.ltb_lt; lia.
    + rewrite E; f_equal; apply eq_true_iff_eq; rewrite !Nat.ltb_lt; lia.
Qed.

Lemma length_pack_bits vBits : length (pack_bits vBits) = ((length vBits + 7) / 8)%nat.
Proof.
  unfold pack_bits; set (f := fun _ _ => _); assert (G : forall l v, length (fold_left f l v) = length v).
  { induction l as [|p l IH]; intros v; cbn [fold_left]; [reflexivity|rewrite IH; unfold f; apply length_upd]. }
  now rewrite G, repeat_length.
Qed.

(** Reading the bytes back gives the bits and the padding of the last byte. *)
Lemma unpack_pack vBits : unpack_bits (pack_bits vBits) =
  vBits ++ repeat false (((length vBits + 7) / 8) * 8 - length vBits).
Proof.
  unfold unpack_bits; rewrite length_pack_bits; set (size := ((length vBits + 7) / 8)%nat).
  pose proof (enough_bytes (length vBits)) as Sz; fold size in Sz.
  apply (nth_ext _ _ false false); [rewrite length_map, length_seq, length_app, repeat_length; lia|].
  intros p; rewrite length_map, length_seq; intros P.
  rewrite (nth_indep _ false (negb (Z.land (get (pack_bits vBits) (0 / 8)) (Z.shiftl 1 (Z.of_nat (0 mod 8))) =? 0)))
    by (rewrite length_map, length_seq; exact P).
  rewrite (map_nth (fun p => negb (Z.land (get (pack_bits vBits) (p / 8)) (Z.shiftl 1 (Z.of_nat (p mod 8))) =? 0))), seq_nth by lia.
  cbn [Nat.add]; rewrite Z.shiftl_1_l, land_pow2_eqb, negb_involutive by lia.
  rewrite pack_bits_ok by (apply Nat.mod_upper_bound; lia); rewrite <- Nat.div_mod by lia.
  destruct (Nat.lt_ge_cases p (length vBits)); [now rewrite app_nth1|].
  rewrite app_nth2, nth_repeat by lia; now apply nth_overflow.
Qed.

(** * What a proof can show *)

(** The strings that a traversal hashes. *)
Fixpoint traversed (Hash : bytes -> bytes) (t : CPartialMerkleTree) (height : nat) (pos : Z) (s : extraction) : list bytes :=
  match height, nth_error (vBits t) (nBitsUsed s) with
  | S height', Some true =>
      let s := mkExtraction (S (nBitsUsed s)) (nHashUsed s) (bad s) (ex_match s) (ex_index s) in
      let '(lhs, s') := TraverseAndExtract Hash t height' (w32 (pos * 2)) s in
      traversed Hash t height' (w32 (pos * 2)) s ++
      if w32 (pos * 2 + 1) <? CalcTreeWidth (nTransactions t) height' then
        let '(rhs, _) := TraverseAndExtract Hash t height' (w32 (pos * 2 + 1)) s' in
        traversed Hash t height' (w32 (pos * 2 + 1)) s' ++ [lhs ++ rhs]
      else [lhs ++ lhs]
  | _, _ => []
  end.

(** The strings that [ExtractMatches] hashes for a proof. *)
Definition extracted (Hash : bytes -> bytes) (t : CPartialMerkleTree) (vnIndex : list Z) : list bytes :=
  match height_loop 32 (nTransactions t) 0 with
  | Ok height => traversed Hash t height 0 (mkExtraction 0 0 (fBad t) [] vnIndex)
  | _ => []
  end.

(** None of some strings collides with another one that is hashed in the tree. *)
Definition no_second_preimage (Hash : bytes -> bytes) (leaves : list bytes) (strings : list bytes) : Prop :=
  forall x y z, hashed Hash leaves x y -> In z strings -> Hash z = Hash2 Hash x y -> z = x ++ y.

(** A transaction and an index found. *)
Definition in_block (leaves : list bytes) (m : bytes) (i : Z) : Prop :=
  0 <= i < size leaves /\ nth (Z.to_nat i) leaves [] = m.

Section Soundness.
Variable Hash : bytes -> bytes.
Variable leaves : list bytes.
Variable t : CPartialMerkleTree.
Local Abbreviation n := (size leaves).
Local Abbreviation node := (node Hash leaves).
Hypothesis Hn : 0 < n <= 2 ^ 20.
Hypothesis Hsize : forall x, length (Hash x) = 32%nat.
Hypothesis Hhashes : Forall (fun x => length x = 32%nat) (vHash t).
Hypothesis Hleaves : Forall (fun x => length x = 32%nat) leaves.
Hypothesis Hcount : nTransactions t = n.

Lemma node_size k i : 0 <= i -> i * span k < n -> length (node k i) = 32%nat.
Proof.
  intros I L; destruct k; [|apply Hsize]; rewrite span_0 in L; cbn.
  apply (proj1 (Forall_forall _ _) Hleaves), nth_In; unfold size in L; lia.
Qed.

(** What a traversal that did not fail has found, given that it ended with
    the hash of the tree. *)
Definition finds (s s' : extraction) : Prop :=
  exists ms ix, ex_match s' = ex_match s ++ ms /\ ex_index s' = ex_index s ++ ix /\ Forall2 (in_block leaves) ms ix.

Lemma finds_trans s1 s2 s3 : finds s1 s2 -> finds s2 s3 -> finds s1 s3.
Proof.
  intros (m1 & i1 & E1 & E2 & F) (m2 & i2 & E3 & E4 & G); exists (m1 ++ m2), (i1 ++ i2).
  rewrite E3, E1, E4, E2, <- !app_assoc; split_all; auto; now apply Forall2_app.
Qed.

(** The outcome of a traversal at a node. *)
Definition sound_at (k : nat) (pos : Z) (s : extraction) (r : bytes * extraction) : Prop :=
  bad (snd r) = false ->
  bad s = false /\ length (fst r) = 32%nat /\ (fst r = node k pos -> finds s (snd r)).

Lemma closed_sound k pos s b : 0 <= pos -> pos * span k < n ->
  let s1 := mkExtraction (S (nBitsUsed s)) (nHashUsed s) (bad s) (ex_match s) (ex_index s) in
  sound_at k pos s
    match nth_error (vHash t) (nHashUsed s1) with
    | None => (null_hash, set_bad s1)
    | Some hash =>
        let found := (match k with O => true | S _ => false end) && b in
        (hash, mkExtraction (nBitsUsed s1) (S (nHashUsed s1)) (bad s1)
                 (ex_match s1 ++ if found then [hash] else []) (ex_index s1 ++ if found then [pos] else []))
    end.
Proof.
  intros P L s1; unfold sound_at, s1; cbn [nHashUsed bad ex_match ex_index nBitsUsed].
  destruct (nth_error (vHash t) (nHashUsed s)) as [hash|] eqn:E; cbn [fst snd bad set_bad]; [|discriminate].
  intros B; split; [exact B|]; split; [exact (proj1 (Forall_forall _ _) Hhashes _ (nth_error_In _ _ E))|].
  intros H; do 2 eexists; cbn [ex_match ex_index]; split; [reflexivity|]; split; [reflexivity|].
  destruct k; [|cbn; constructor]; destruct b; cbn; repeat constructor; rewrite span_0 in L; cbn in H; [lia|lia|congruence].
Qed.

Lemma second_app Ha lv l l' : no_second_preimage Ha lv (l ++ l') -> no_second_preimage Ha lv l /\ no_second_preimage Ha lv l'.
Proof. intros R; split; intros x y z X Z; apply (R _ _ _ X), in_or_app; auto. Qed.

Lemma extract_sound k : (k <= height leaves)%nat -> (k <= 20)%nat -> forall pos s, 0 <= pos -> pos * span k < n ->
  no_second_preimage Hash leaves (traversed Hash t k pos s) -> sound_at k pos s (TraverseAndExtract Hash t k pos s).
Proof.
  intros Kh K; induction k as [|k IH]; intros pos s P L; cbn [TraverseAndExtract traversed];
    (destruct (nth_error (vBits t) (nBitsUsed s)) as [b|]; [|intros _ B; discriminate]); [intros _; now apply closed_sound|].
  destruct b; cbn [negb]; [|intros _; now apply (closed_sound (S k) pos s false)].
  destruct (child_index leaves Hn k pos P L) as (E1 & E2 & L2); rewrite E1, E2, Hcount, CalcTreeWidth_ok by lia.
  match goal with |- context[TraverseAndExtract Hash t k (2 * pos) ?x] => set (s1 := x) end.
  assert (H : hashed Hash leaves (node k (2 * pos))
    (if (2 * pos + 1) * span k <? n then node k (2 * pos + 1) else node k (2 * pos))) by (exists k, pos; split_all; auto).
  pose proof (IH ltac:(lia) ltac:(lia) (2 * pos) s1 ltac:(lia) L2) as Sl.
  pose proof (node_size k (2 * pos) ltac:(lia) L2) as Nl.
  destruct (TraverseAndExtract Hash t k (2 * pos) s1) as [lhs s2]; unfold sound_at in Sl |- *; cbn [fst snd] in Sl.
  destruct (Z.ltb_spec ((2 * pos + 1) * span k) n) as [R|R].
  - pose proof (IH ltac:(lia) ltac:(lia) (2 * pos + 1) s2 ltac:(lia) R) as Sr.
    destruct (TraverseAndExtract Hash t k (2 * pos + 1) s2) as [rhs s3]; unfold sound_at in Sr; cbn [fst snd] in Sr |- *.
    intros Res; pose proof (second_app _ _ _ _ Res) as [Rl Rr]; apply second_app in Rr; destruct Rr as [Rr Rp].
    specialize (Sl Rl); specialize (Sr Rr); intros B; assert (B3 : bad s3 = false) by (destruct (bytes_eqb rhs lhs); [discriminate|exact B]).
    assert (Es : (if bytes_eqb rhs lhs then set_bad s3 else s3) = s3) by (destruct (bytes_eqb rhs lhs); [discriminate|reflexivity]).
    destruct (Sr B3) as (B2 & Lr & Fr), (Sl B2) as (B1 & Ll & Fl); split; [exact B1|]; split; [apply Hsize|].
    rewrite Es, (node_pair Hash leaves k pos R); intros E; pose proof (Rp _ _ _ H (or_introl eq_refl) E) as Q; apply app_eq_length in Q; [|congruence]; destruct Q as [-> ->].
    exact (finds_trans _ _ _ (Fl eq_refl) (Fr eq_refl)).
  - cbn [fst snd]; intros Res; apply second_app in Res; destruct Res as [Rl Rp]; specialize (Sl Rl); intros B; destruct (Sl B) as (B1 & Ll & Fl); split; [exact B1|]; split; [apply Hsize|].
    rewrite (node_last Hash leaves k pos R); intros E; pose proof (Rp _ _ _ H (or_introl eq_refl) E) as Q.
    apply app_eq_length in Q; [|congruence]; destruct Q as [-> _]; exact (Fl eq_refl).
Qed.
End Soundness.

Definition max_transactions : Z := GetMaxBlockWeight / MIN_TRANSACTION_WEIGHT.

Lemma max_transactions_small : max_transactions <= 2 ^ 20.
Proof. vm_compute; discriminate. Qed.

(** * Theorems *)

(** C30: a proof built for a selection of the transactions of a block, put on
    the wire and read back, gives the Merkle root of the block and exactly
    the selected transactions with their positions, in order.  The block is
    one whose root is not marked as mutated, and the strings hashed for it do
    not collide. *)
Theorem PartialMerkleTree_complete (Hash : bytes -> bytes) (vTxid : list bytes) (vMatch : list bool) (r : bytes)
  (vnIndex : list Z) :
  vTxid <> [] -> size vTxid <= max_transactions -> no_collision Hash vTxid vTxid ->
  ComputeMerkleRoot Hash vTxid = Ok (r, false) ->
  let selected := filter (fun p => nth p vMatch false) (seq 0 (length vTxid)) in
  exists t, CPartialMerkleTree_build Hash vTxid vMatch = Ok t /\
    ExtractMatches Hash (mkTree (nTransactions t) (unpack_bits (pack_bits (vBits t))) (vHash t) false) vnIndex =
      Ok (r, map (fun p => nth p vTxid []) selected, vnIndex ++ map Z.of_nat selected).
Proof.
  intros N M C R selected; pose proof max_transactions_small as Sm.
  assert (P : 0 < size vTxid) by (unfold size; destruct vTxid; [congruence|cbn [length]; lia]).
  destruct (MerkleComputation_ok Hash vTxid false 0 ltac:(discriminate) ltac:(lia) (w32 (-1)) ltac:(discriminate) N) as (mu & br & E & T & _).
  unfold ComputeMerkleRoot in R; rewrite E in R; cbn [bind fst] in R; injection R as <- ->.
  assert (D : distinct_siblings Hash vTxid) by (apply distinct_ok; [exact C|intros X; apply T in X; discriminate]).
  assert (B : 0 < size vTxid <= 2 ^ 20) by lia; destruct (height_bound vTxid B) as (H20 & HU & HL).
  destruct (build_ok Hash vTxid vMatch B (height vTxid) ltac:(lia) H20 D 0 ltac:(lia) ltac:(lia)) as (bits & hs & Eb & Rb & C1 & C2).
  unfold CPartialMerkleTree_build; fold (size vTxid); unfold w32; rewrite wrap_id by (unfold in_u; lia).
  rewrite (height_loop_ok vTxid B 32 0) by lia; cbn [bind]; rewrite Eb; cbn [bind fst snd].
  eexists; split; [reflexivity|]; unfold ExtractMatches; cbn [nTransactions vBits vHash fBad]; rewrite unpack_pack.
  unfold beyond, first in C2; pose proof (enough_bytes (length bits)) as Eb8.
  rewrite (proj2 (Z.eqb_neq _ _)), !Z.gtb_ltb, (proj2 (Z.ltb_ge max_transactions _)), (proj2 (Z.ltb_ge (size vTxid) _)) by lia.
  rewrite length_app, repeat_length, (proj2 (Nat.ltb_ge _ _)), (height_loop_ok vTxid B 32 0) by lia; cbn [bind].
  rewrite (Rb _ [] (repeat false ((length bits + 7) / 8 * 8 - length bits)) [] []) by (auto; now rewrite app_nil_r).
  cbn [bad nBitsUsed nHashUsed ex_match ex_index length Nat.add app]; rewrite Nat.eqb_refl; cbn [negb].
  replace (length bits + ((length bits + 7) / 8 * 8 - length bits))%nat with ((length bits + 7) / 8 * 8)%nat by lia.
  rewrite (Nat.div_add_l _ 8 7), Nat.add_0_r, Nat.eqb_refl by lia; cbn [negb].
  assert (Sel : below vTxid vMatch (height vTxid) 0 = selected).
  { unfold below, first, beyond, picked, selected; cbn [Z.mul Z.to_nat]; f_equal; f_equal; unfold size in *; lia. }
  rewrite Sel; reflexivity.
Qed.

(** C29: what a light client accepts.  Take any proof, made by anyone, that
    claims the number of transactions of a block and for which
    [ExtractMatches] returns the Merkle root of that block: when no string
    that [ExtractMatches] hashes collides with another one hashed in the
    block's tree, every transaction returned is in the block, at the position returned
    with it. *)
Theorem PartialMerkleTree_sound (Hash : bytes -> bytes) (vTxid : list bytes) (t : CPartialMerkleTree) (vnIndex : list Z)
  (ms : list bytes) (ix : list Z) :
  vTxid <> [] -> nTransactions t = size vTxid -> (forall x, length (Hash x) = 32%nat) ->
  Forall (fun x => length x = 32%nat) vTxid -> Forall (fun x => length x = 32%nat) (vHash t) ->
  no_second_preimage Hash vTxid (extracted Hash t vnIndex) -> root Hash vTxid <> null_hash ->
  ExtractMatches Hash t vnIndex = Ok (root Hash vTxid, ms, ix) ->
  exists found, ix = vnIndex ++ found /\ Forall2 (in_block vTxid) ms found.
Proof.
  intros N Et Hs Hl Hh Hr Nz E; pose proof max_transactions_small as Sm; unfold ExtractMatches in E; rewrite Et in E.
  assert (P : 0 < size vTxid) by (unfold size; destruct vTxid; [congruence|cbn [length]; lia]).
  rewrite (proj2 (Z.eqb_neq _ _)) in E by lia; rewrite Z.gtb_ltb in E; fold max_transactions in E.
  destruct (Z.ltb_spec max_transactions (size vTxid)); [congruence|].
  destruct (Z.of_nat _ >? _); [congruence|]; destruct (_ <? _)%nat; [congruence|].
  assert (B : 0 < size vTxid <= 2 ^ 20) by lia; destruct (height_bound vTxid B) as (H20 & HU & HL).
  unfold extracted in Hr; rewrite Et, (height_loop_ok vTxid B 32 0) in Hr by lia.
  rewrite (height_loop_ok vTxid B 32 0) in E by lia; cbn [bind] in E.
  pose proof (extract_sound Hash vTxid t B Hs Hh Hl Et (height vTxid) ltac:(lia) H20 0
    (mkExtraction 0 0 (fBad t) [] vnIndex) ltac:(lia) ltac:(lia) Hr) as X.
  destruct (TraverseAndExtract _ _ _ _ _) as [hash s]; unfold sound_at in X; cbn [fst snd] in X.
  destruct (bad s); [congruence|]; destruct (negb _); [congruence|]; destruct (negb _); [congruence|].
  injection E as -> <- <-; destruct (X eq_refl) as (_ & _ & F); destruct (F eq_refl) as (m & i & -> & -> & G); cbn [ex_match ex_index app] in *.
  exists i; auto.
Qed.

Lemma PartialMerkleTree_complete_witness :
  exists t, CPartialMerkleTree_build keep_all [[1]; [2]] [false; true] = Ok t /\
    ExtractMatches keep_all (mkTree (nTransactions t) (unpack_bits (pack_bits (vBits t))) (vHash t) false) [] =
      Ok ([255; 1; 2; 254], [[2]], [1]).
Proof.
  apply (PartialMerkleTree_complete keep_all [[1]; [2]] [false; true] [255; 1; 2; 254] []); try discriminate; try reflexivity.
  exact two_leaves_collision_free.
Defined.

(** With the node's double SHA-256, a proof for the first of two transactions. *)
Definition example_txids : list bytes := [repeat 1 32; repeat 2 32].
Definition example_hash (x : bytes) : bytes := Hashes.Hash (zeros 64) [x].
Definition example_proof : CPartialMerkleTree := mkTree 2 [true; true; false] example_txids false.

Lemma example_strings : no_second_preimage example_hash example_txids (extracted example_hash example_proof []).
Proof.
  intros x y z (k & i & K & I & L & -> & ->) [<-|[]] _; change (height example_txids) with 1%nat in K.
  assert (k = 0%nat) by lia; subst k; change (size example_txids) with 2 in *; change (span 1) with 2 in L.
  assert (i = 0) by lia; now subst i.
Qed.

Lemma PartialMerkleTree_sound_witness : exists found, [0] = [] ++ found /\ Forall2 (in_block example_txids) [repeat 1 32] found.
Proof.
  apply (PartialMerkleTree_sound example_hash example_txids example_proof [] [repeat 1 32] [0]);
    [discriminate|reflexivity| |repeat constructor|repeat constructor|exact example_strings| |vm_compute; reflexivity].
  - intros x; apply sha256_output_blob.
  - intros E; apply (f_equal (fun l => nth 0 l 0)) in E; vm_compute in E; discriminate.
Defined.
