(* ===== verification/TxLocks.v ===== *)
(** Time locks of transactions (src/consensus/tx_verify.cpp): [IsFinalTx] for
    the absolute lock of a transaction, [CalculateSequenceLocks] and
    [EvaluateSequenceLocks] for the relative locks of its inputs, and how the
    two lock opcodes of scripts rely on them.

    The block is an entry of the block index of [Chain]; the heights of the
    spent outputs are a list, which the calculation overwrites. *)

From Stdlib Require Import ZArith List Bool Lia Arith.
From S2P Require Import Prelude Serialize Script Standard Transaction ArithUint256 Chain MedianTime Interpreter SigHash.
Import ListNotations.
Open Scope Z_scope.

Definition LOCKTIME_VERIFY_SEQUENCE : Z := Z.shiftl 1 0.

Definition IsFinalTx (tx : CTransaction) (nBlockHeight nBlockTime : Z) : bool :=
  if nLockTime tx =? 0 then true
  else if nLockTime tx <? (if nLockTime tx <? LOCKTIME_THRESHOLD then nBlockHeight else nBlockTime) then true
  else forallb (fun txin => nSequence txin =? SEQUENCE_FINAL) (vin tx).

Section Locks.
Variable a : arena.

(** [block.GetAncestor(height)->GetMedianTimePast()] *)
Definition ancestor_time (block : nat) (height : Z) : result chain_error Z :=
  let! r := GetAncestor a block height in
  match r with
  | None => Err NullDeref
  | Some q => GetMedianTimePast a q
  end.

(** One turn of the loop: the new height and the two bounds. *)
Definition lock_step (block : nat) (txin : CTxIn) (nCoinHeight nMinHeight nMinTime : Z)
  : result chain_error (Z * Z * Z) :=
  if negb (Z.land (nSequence txin) SEQUENCE_LOCKTIME_DISABLE_FLAG =? 0) then Ok (0, nMinHeight, nMinTime)
  else if negb (Z.land (nSequence txin) SEQUENCE_LOCKTIME_TYPE_FLAG =? 0) then
    let! nCoinTime := ancestor_time block (Z.max (s32 (nCoinHeight - 1)) 0) in
    Ok (nCoinHeight, nMinHeight,
        Z.max nMinTime
          (s64 (nCoinTime +
                w32 (Z.shiftl (Z.land (nSequence txin) SEQUENCE_LOCKTIME_MASK) SEQUENCE_LOCKTIME_GRANULARITY) - 1)))
  else
    Ok (nCoinHeight, Z.max nMinHeight (s32 (nCoinHeight + Z.land (nSequence txin) SEQUENCE_LOCKTIME_MASK - 1)), nMinTime).

Fixpoint locks_loop (block : nat) (ins : list CTxIn) (prevHeights : list Z) (nMinHeight nMinTime : Z)
  : result chain_error (Z * Z * list Z) :=
  match ins, prevHeights with
  | txin :: ins', h :: heights =>
      let! r := lock_step block txin h nMinHeight nMinTime in
      let '(h, nMinHeight, nMinTime) := r in
      let! r := locks_loop block ins' heights nMinHeight nMinTime in
      let '(low, time, heights) := r in Ok (low, time, h :: heights)
  | _, _ => Ok (nMinHeight, nMinTime, [])
  end.

Definition CalculateSequenceLocks (tx : CTransaction) (flags : Z) (prevHeights : list Z) (block : nat)
  : result chain_error (Z * Z * list Z) :=
  if negb (Nat.eqb (length prevHeights) (length (vin tx))) then Err AssertFailed
  else
    let fEnforceBIP68 := (w32 (nVersion tx) >=? 2) && negb (Z.land flags LOCKTIME_VERIFY_SEQUENCE =? 0) in
    if negb fEnforceBIP68 then Ok (-1, -1, prevHeights)
    else locks_loop block (vin tx) prevHeights (-1) (-1).

Definition EvaluateSequenceLocks (block : nat) (lockPair : Z * Z) : result chain_error bool :=
  let! b := deref a block in
  match pprev b with
  | None => Err AssertFailed
  | Some q =>
      let! nBlockTime := GetMedianTimePast a q in
      Ok (if (fst lockPair >=? nHeight b) || (snd lockPair >=? nBlockTime) then false else true)
  end.

Definition SequenceLocks (tx : CTransaction) (flags : Z) (prevHeights : list Z) (block : nat)
  : result chain_error (bool * list Z) :=
  let! r := CalculateSequenceLocks tx flags prevHeights block in
  let '(low, time, heights) := r in
  let! ok := EvaluateSequenceLocks block (low, time) in
  Ok (ok, heights).
End Locks.

(** * Relative locks *)

Section Relative.
Variable a : arena.
Hypothesis Hwf : wf_index a.
Hypothesis Htime : Forall (fun b => in_u 32 (nTime b)) a.

(** The median time past of the block before the one with the output. *)
Definition spent_time (block : nat) (h : Z) : Z :=
  match ancestor a block (Z.max (h - 1) 0) with Some q => median a q | None => 0 end.

Definition lock_value (i : CTxIn) : Z := Z.land (nSequence i) SEQUENCE_LOCKTIME_MASK.

(** What the sequence number of an input asks for, with an output of height
    [h] and a block of the given height, whose predecessor is [q]. *)
Definition unlocked (block q : nat) (height : Z) (i : CTxIn) (h : Z) : Prop :=
  if negb (Z.land (nSequence i) SEQUENCE_LOCKTIME_DISABLE_FLAG =? 0) then True
  else if negb (Z.land (nSequence i) SEQUENCE_LOCKTIME_TYPE_FLAG =? 0)
  then spent_time block h + 512 * lock_value i <= median a q
  else h + lock_value i <= height.

Definition kept_height (i : CTxIn) (h : Z) : Z :=
  if negb (Z.land (nSequence i) SEQUENCE_LOCKTIME_DISABLE_FLAG =? 0) then 0 else h.

Lemma lock_value_bounds i : 0 <= lock_value i <= 65535.
Proof. unfold lock_value; apply land_le; unfold SEQUENCE_LOCKTIME_MASK; lia. Qed.

Lemma spent_time_ok block h : (block < length a)%nat -> 0 <= h <= height_of a block -> h < 2 ^ 30 ->
  ancestor_time a block (Z.max (s32 (h - 1)) 0) = Ok (spent_time block h) /\ in_u 32 (spent_time block h).
Proof.
  intros P B L; replace (s32 (h - 1)) with (h - 1) by (symmetry; apply swrap_id; [lia|unfold in_s; lia]).
  unfold ancestor_time, spent_time; rewrite (GetAncestor_ok a block _ Hwf P).
  rewrite (proj2 (Z.ltb_ge _ _)), (proj2 (Z.ltb_ge _ _)) by lia; cbn [orb bind].
  destruct (ancestor_valid a Hwf block (Z.max (h - 1) 0) P ltac:(lia)) as (q & -> & Q & _).
  destruct (median_ok a Hwf Htime q Q) as (t & E & T); unfold median; rewrite E; auto.
Qed.

Lemma lock_step_ok block q height i h lo ti : (block < length a)%nat -> 0 <= h <= height_of a block -> h < 2 ^ 30 ->
  exists lo' ti', lock_step a block i h lo ti = Ok (kept_height i h, lo', ti') /\
    (lo' < height /\ ti' < median a q <-> (lo < height /\ ti < median a q) /\ unlocked block q height i h).
Proof.
  intros P B L; unfold lock_step, unlocked, kept_height; pose proof (lock_value_bounds i) as V.
  destruct (negb (Z.land (nSequence i) SEQUENCE_LOCKTIME_DISABLE_FLAG =? 0)); [exists lo, ti; split; [reflexivity|tauto]|].
  destruct (negb (Z.land (nSequence i) SEQUENCE_LOCKTIME_TYPE_FLAG =? 0)).
  - destruct (spent_time_ok block h P B L) as [E T]; rewrite E; cbn [bind]; fold (lock_value i).
    replace (w32 (Z.shiftl (lock_value i) SEQUENCE_LOCKTIME_GRANULARITY)) with (512 * lock_value i).
    2: { unfold w32, SEQUENCE_LOCKTIME_GRANULARITY; rewrite Z.shiftl_mul_pow2 by lia.
         rewrite wrap_id by (unfold in_u; lia); lia. }
    rewrite (swrap_id 64 : forall x, 0 < 64 -> in_s 64 x -> s64 x = x) by (unfold in_s, in_u in *; lia).
    do 2 eexists; split; [reflexivity|lia].
  - fold (lock_value i); rewrite (swrap_id 32 : forall x, 0 < 32 -> in_s 32 x -> s32 x = x) by (unfold in_s; lia).
    do 2 eexists; split; [reflexivity|lia].
Qed.

Lemma locks_loop_ok block q height ins : (block < length a)%nat -> height_of a block < 2 ^ 30 ->
  forall heights lo ti, length heights = length ins -> Forall (fun h => 0 <= h <= height_of a block) heights ->
  exists lo' ti', locks_loop a block ins heights lo ti =
      Ok (lo', ti', map (fun '(i, h) => kept_height i h) (combine ins heights)) /\
    (lo' < height /\ ti' < median a q <->
     (lo < height /\ ti < median a q) /\ Forall2 (unlocked block q height) ins heights).
Proof.
  intros P M; induction ins as [|i ins IH]; intros [|h heights] lo ti L F; try discriminate L; cbn [locks_loop].
  - exists lo, ti; split; [reflexivity|]; intuition constructor.
  - apply Forall_cons_iff in F; destruct F as [B F]; injection L as L.
    destruct (lock_step_ok block q height i h lo ti P B ltac:(lia)) as (lo1 & ti1 & E1 & Q1).
    destruct (IH heights lo1 ti1 L F) as (lo2 & ti2 & E2 & Q2); rewrite E1; cbn [bind]; rewrite E2; cbn [bind combine map].
    exists lo2, ti2; split; [reflexivity|]; rewrite Q2, Q1; split.
    + intros [[H U] V]; auto using Forall2_cons.
    + intros [H V]; inversion V; subst; auto.
Qed.
End Relative.

Definition fEnforceBIP68 (tx : CTransaction) (flags : Z) : bool :=
  (w32 (nVersion tx) >=? 2) && negb (Z.land flags LOCKTIME_VERIFY_SEQUENCE =? 0).

Lemma SequenceLocks_ok (a : arena) (block q : nat) (b : CBlockIndex) (tx : CTransaction) (flags : Z) (heights : list Z) :
  wf_index a -> Forall (fun b => in_u 32 (nTime b)) a ->
  nth_error a block = Some b -> pprev b = Some q -> nHeight b < 2 ^ 30 ->
  length heights = length (vin tx) -> Forall (fun h => 0 <= h <= nHeight b) heights ->
  exists ok, SequenceLocks a tx flags heights block =
      Ok (ok, if fEnforceBIP68 tx flags then map (fun '(i, h) => kept_height i h) (combine (vin tx) heights) else heights) /\
    (ok = true <->
     (fEnforceBIP68 tx flags = true -> Forall2 (unlocked a block q (nHeight b)) (vin tx) heights)).
Proof.
  intros W T E Q M L F.
  assert (P : (block < length a)%nat) by (apply nth_error_Some; congruence).
  assert (HB : height_of a block = nHeight b) by (unfold height_of; now rewrite E).
  destruct (W block b E) as [K _]; rewrite Q in K; destruct K as (Pq & HQ & _).
  pose proof (height_nonneg a W q) as NQ.
  destruct (median_ok a W T q ltac:(lia)) as (t & Et & Bt).
  assert (HE : forall lo ti, EvaluateSequenceLocks a block (lo, ti) =
     Ok (if (lo >=? nHeight b) || (ti >=? median a q) then false else true)).
  { intros lo ti; unfold EvaluateSequenceLocks, deref, median; rewrite E; cbn [bind]; rewrite Q, Et; reflexivity. }
  assert (HD : forall lo ti, (if (lo >=? nHeight b) || (ti >=? median a q) then false else true) = true <->
     lo < nHeight b /\ ti < median a q).
  { intros lo ti; rewrite !Z.geb_leb; destruct (Z.leb_spec (nHeight b) lo), (Z.leb_spec (median a q) ti); cbn; split;
      try discriminate; auto; lia. }
  assert (B0 : -1 < nHeight b /\ -1 < median a q).
  { unfold median; rewrite Et; unfold in_u in Bt; lia. }
  unfold SequenceLocks, CalculateSequenceLocks; rewrite L, Nat.eqb_refl; cbn [negb]; fold (fEnforceBIP68 tx flags).
  destruct (fEnforceBIP68 tx flags); cbn [negb bind].
  - destruct (locks_loop_ok a W T block q (nHeight b) (vin tx) P ltac:(lia) heights (-1) (-1) L) as (lo & ti & EL & QL);
      [rewrite HB; exact F|].
    rewrite EL; cbn [bind]; rewrite HE; cbn [bind]; eexists; split; [reflexivity|]; rewrite HD, QL; tauto.
  - rewrite HE; cbn [bind]; eexists; split; [reflexivity|]; rewrite HD; split; [discriminate|intros _; exact B0].
Qed.

(** * The lock opcodes of scripts *)

Lemma land_pow2 (x n : Z) : 0 <= n -> Z.land x (2 ^ n) = if Z.testbit x n then 2 ^ n else 0.
Proof.
  intros N; apply Z.bits_inj'; intros k K; rewrite Z.land_spec, Z.pow2_bits_eqb by exact N.
  destruct (Z.eqb_spec n k) as [<-|D].
  - rewrite andb_true_r; destruct (Z.testbit x n) eqn:E; [now rewrite Z.pow2_bits_true|now rewrite Z.bits_0].
  - rewrite andb_false_r; destruct (Z.testbit x n); [now rewrite Z.pow2_bits_false|now rewrite Z.bits_0].
Qed.

(** The bits that are compared: the type and the value. *)
Lemma masked_sequence (x : Z) :
  Z.land x (Z.lor SEQUENCE_LOCKTIME_TYPE_FLAG SEQUENCE_LOCKTIME_MASK) =
  (if Z.testbit x 22 then 4194304 else 0) + Z.land x SEQUENCE_LOCKTIME_MASK /\
  (Z.land x SEQUENCE_LOCKTIME_TYPE_FLAG =? 0) = negb (Z.testbit x 22) /\
  0 <= Z.land x SEQUENCE_LOCKTIME_MASK <= 65535.
Proof.
  assert (T : Z.land x SEQUENCE_LOCKTIME_TYPE_FLAG = if Z.testbit x 22 then 4194304 else 0)
    by exact (land_pow2 x 22 ltac:(lia)).
  split; [|split].
  - rewrite Z.land_lor_distr_r, <- T.
    pose proof (Z.add_lor_land (Z.land x SEQUENCE_LOCKTIME_TYPE_FLAG) (Z.land x SEQUENCE_LOCKTIME_MASK)) as A.
    replace (Z.land (Z.land x SEQUENCE_LOCKTIME_TYPE_FLAG) (Z.land x SEQUENCE_LOCKTIME_MASK)) with 0 in A; [lia|].
    symmetry; rewrite (Z.land_comm x SEQUENCE_LOCKTIME_TYPE_FLAG), <- Z.land_assoc, (Z.land_assoc x x), Z.land_diag.
    rewrite (Z.land_comm x), Z.land_assoc; reflexivity.
  - rewrite T; destruct (Z.testbit x 22); reflexivity.
  - apply land_le; unfold SEQUENCE_LOCKTIME_MASK; lia.
Qed.

(** What an operand of [OP_CHECKSEQUENCEVERIFY] asks of the spent output. *)
Definition age_reached (a : arena) (block q : nat) (height : Z) (operand h : Z) : Prop :=
  if negb (Z.land operand SEQUENCE_LOCKTIME_TYPE_FLAG =? 0)
  then spent_time a block h + 512 * Z.land operand SEQUENCE_LOCKTIME_MASK <= median a q
  else h + Z.land operand SEQUENCE_LOCKTIME_MASK <= height.

Lemma sequence_operand (a : arena) (block q : nat) (height h operand : Z) (c : TransactionSignatureChecker) :
  tx_CheckSequence c operand = true ->
  unlocked a block q height (nth (nIn c) (vin (txTo c)) txin_null) h -> age_reached a block q height operand h.
Proof.
  unfold tx_CheckSequence, unlocked, age_reached, lock_value.
  set (i := nth (nIn c) (vin (txTo c)) txin_null); cbv zeta.
  destruct (_ <? 2); [discriminate|].
  destruct (negb (Z.land (nSequence i) SEQUENCE_LOCKTIME_DISABLE_FLAG =? 0)); [discriminate|].
  destruct (masked_sequence (nSequence i)) as (-> & -> & Bi), (masked_sequence operand) as (-> & -> & Bo).
  change SEQUENCE_LOCKTIME_TYPE_FLAG with 4194304.
  destruct (Z.testbit (nSequence i) 22), (Z.testbit operand 22); cbn [negb];
    repeat match goal with
    | |- context [(?x <? ?y)%Z] => destruct (Z.ltb_spec x y); try lia
    | |- context [(?x >=? ?y)%Z] => rewrite (Z.geb_leb x y); destruct (Z.leb_spec y x); try lia
    | |- context [(?x >? ?y)%Z] => rewrite (Z.gtb_ltb x y)
    end; cbn; try discriminate; intros _; lia.
Qed.

(** C31: the relative locks of a transaction: in a valid block index the
    calculation neither fails nor overflows, and with the rule in force the
    transaction may enter the block exactly when for every input whose
    sequence number is a lock, the block is high enough above the output, or
    the median time past of its predecessor far enough after the one the
    output was mined at; the heights of the other inputs are reset. *)
Theorem SequenceLocks_correct (a : arena) (block q : nat) (b : CBlockIndex) (tx : CTransaction) (flags : Z)
  (heights : list Z) :
  wf_index a -> Forall (fun b => in_u 32 (nTime b)) a ->
  nth_error a block = Some b -> pprev b = Some q -> nHeight b < 2 ^ 30 ->
  length heights = length (vin tx) -> Forall (fun h => 0 <= h <= nHeight b) heights ->
  exists ok, SequenceLocks a tx flags heights block =
      Ok (ok, if fEnforceBIP68 tx flags then map (fun '(i, h) => kept_height i h) (combine (vin tx) heights) else heights) /\
    (ok = true <->
     (fEnforceBIP68 tx flags = true -> Forall2 (unlocked a block q (nHeight b)) (vin tx) heights)).
Proof. intros; now apply SequenceLocks_ok. Qed.

(** The lock opcodes do what their operands say: if the script of an input
    passes [OP_CHECKLOCKTIMEVERIFY], a block the transaction is final in is
    past the height or time of the operand; if it passes
    [OP_CHECKSEQUENCEVERIFY], a block whose sequence locks the transaction
    passes is as many blocks, or units of 512 seconds, past the spent output
    as the operand says. *)
Theorem LockOpcodes_enforced (c : TransactionSignatureChecker) (operand : Z) :
  (nIn c < length (vin (txTo c)))%nat -> 0 <= operand ->
  (forall height time, 0 < height -> 0 < time ->
   tx_CheckLockTime c operand = true -> IsFinalTx (txTo c) height time = true ->
   operand < if operand <? LOCKTIME_THRESHOLD then height else time) /\
  (forall a block q b flags heights heights',
   wf_index a -> Forall (fun b => in_u 32 (nTime b)) a ->
   nth_error a block = Some b -> pprev b = Some q -> nHeight b < 2 ^ 30 ->
   length heights = length (vin (txTo c)) -> Forall (fun h => 0 <= h <= nHeight b) heights ->
   Z.land flags LOCKTIME_VERIFY_SEQUENCE <> 0 ->
   tx_CheckSequence c operand = true -> SequenceLocks a (txTo c) flags heights block = Ok (true, heights') ->
   age_reached a block q (nHeight b) operand (nth (nIn c) heights 0)).
Proof.
  intros N P; split.
  - intros height time H T C F; unfold tx_CheckLockTime in C; unfold IsFinalTx in F; cbv zeta in C.
    destruct (negb _) eqn:K in C; [discriminate|]; destruct (operand >? nLockTime (txTo c)) eqn:L; [discriminate|].
    destruct (SEQUENCE_FINAL =? _) eqn:S in C; [discriminate|]; apply negb_false_iff, orb_prop in K.
    destruct (nLockTime (txTo c) =? 0) eqn:Z0; bool_to_prop.
    { assert (operand = 0) by lia; subst operand; exact H. }
    destruct (nLockTime (txTo c) <? LOCKTIME_THRESHOLD) eqn:Kt;
      [destruct (nLockTime (txTo c) <? height) eqn:G|destruct (nLockTime (txTo c) <? time) eqn:G].
    2, 4: rewrite forallb_forall in F; specialize (F _ (nth_In _ txin_null N)); apply Z.eqb_eq in F; congruence.
    all: destruct K as [K|K]; bool_to_prop; try lia; destruct (Z.ltb_spec operand LOCKTIME_THRESHOLD); lia.
  - intros a block q b flags heights heights' W T E Q M L F FL C R.
    destruct (SequenceLocks_ok a block q b (txTo c) flags heights W T E Q M L F) as (ok & R' & D).
    rewrite R in R'; injection R' as <- _.
    assert (EN : fEnforceBIP68 (txTo c) flags = true).
    { unfold fEnforceBIP68, tx_CheckSequence in *; cbv zeta in C.
      destruct (w32 (nVersion (txTo c)) <? 2) eqn:V; [discriminate|]; apply andb_true_intro; split.
      - bool_to_prop; apply Z.geb_le; lia.
      - apply negb_true_iff, Z.eqb_neq, FL. }
    specialize (proj1 D eq_refl EN) as U.
    apply (sequence_operand a block q (nHeight b) _ operand c C).
    clear - U N; revert N; generalize (nIn c); induction U as [|i h ins hs U _ IH]; intros [|n] N; cbn in *; try lia; auto.
    apply IH; lia.
Qed.

(** An output of the first block, spent in the second with a lock of one
    block. *)
Definition locked_tx : CTransaction :=
  mkTx [mkTxIn (mkOutPoint (repeat 7 32) 0) [] 1 []] [mkTxOut 50 [0x51]] 2 1.
Definition locked_checker : TransactionSignatureChecker := mkTxChecker locked_tx 0 50 None.

Lemma ex_arena_times : Forall (fun b => in_u 32 (nTime b)) ex_arena.
Proof. repeat constructor; cbn; lia. Qed.

Lemma SequenceLocks_correct_witness : SequenceLocks ex_arena locked_tx 1 [0] 1 = Ok (true, [0]).
Proof.
  destruct (SequenceLocks_correct ex_arena 1 0 (nth 1 ex_arena (new_index 0 ex_genesis)) locked_tx 1 [0] wf_ex_arena
    ex_arena_times eq_refl eq_refl) as (ok & E & D); [cbn; lia|reflexivity|repeat constructor; cbn; lia|].
  rewrite E, (proj2 D); [reflexivity|]; intros _; constructor; [vm_compute; discriminate|constructor].
Defined.

Lemma LockOpcodes_enforced_witness :
  age_reached ex_arena 1 0 1 1 0 /\ 1 < (if 1 <? LOCKTIME_THRESHOLD then 2 else 5).
Proof.
  destruct (LockOpcodes_enforced locked_checker 1) as [A R]; [cbn; lia|lia|]; split.
  - refine (R ex_arena 1%nat 0%nat (nth 1 ex_arena (new_index 0 ex_genesis)) 1 [0] [0] wf_ex_arena ex_arena_times
      eq_refl eq_refl _ eq_refl _ _ eq_refl eq_refl); [cbn; lia|repeat constructor; cbn; lia|discriminate].
  - exact (A 2 5 eq_refl eq_refl eq_refl eq_refl).
Defined.
