(* ===== verification/TxInputs.v ===== *)
(** The inputs of a transaction (src/consensus/tx_verify.cpp): the signature
    operations counted against the block's limit and [CheckTxInputs], over the
    cache of unspent outputs of [Coins].

    A check reads the cache, which remembers what it looks up: it is a
    function of the cache to its result and the cache afterwards, [stm]. *)

From Stdlib Require Import String.
From stdpp Require Import base gmap list fin_maps.
From Stdlib Require Import ZArith Lia.
From S2P Require Import Prelude Serialize Script Standard Transaction Compressor AssetTypes AssetNames Coins.
From S2P Require Import Interpreter VerifyScript AssetTx TxCheck.
Open Scope Z_scope.

(** * Checks that change a state *)

Definition stm (S E A : Type) : Type := S -> result E A * S.

Section Stm.
Context {S E : Type}.

Definition sret {A : Type} (a : A) : stm S E A := fun s => (Ok a, s).
Definition sfail {A : Type} (e : E) : stm S E A := fun s => (Err e, s).
Definition sbind {A B : Type} (m : stm S E A) (f : A -> stm S E B) : stm S E B := fun s =>
  match m s with
  | (Ok a, s) => f a s
  | (Err e, s) => (Err e, s)
  end.
Definition slift {A : Type} (r : result E A) : stm S E A := fun s => (r, s).
(** A lookup that always answers. *)
Definition ask {A : Type} (f : S -> A * S) : stm S E A := fun s => let '(a, s) := f s in (Ok a, s).

Lemma sbind_ok {A B : Type} (m : stm S E A) (f : A -> stm S E B) s b s' :
  sbind m f s = (Ok b, s') <-> exists a s1, m s = (Ok a, s1) /\ f a s1 = (Ok b, s').
Proof.
  unfold sbind; destruct (m s) as [[a|e] s1]; split; try (intros; discriminate); eauto.
  - intros (a' & s1' & [= <- <-] & R); exact R.
  - intros (a' & s1' & [=] & _).
Qed.
End Stm.

Notation "'do!' x := c 'in' k" := (sbind c (fun x => k))
  (at level 10, x pattern, c at level 100, k at level 200) : hemp_scope.

(** Every check on the way to a positive answer was passed. *)
Ltac ran R :=
  repeat (match type of R with
  | sbind _ _ _ = (Ok _, _) =>
      let a := fresh "a" in let s := fresh "s" in let E := fresh "E" in
      apply sbind_ok in R; destruct R as (a & s & E & R)
  | sret _ _ = (Ok _, _) => injection R as ? ?
  | slift (Ok _) _ = (Ok _, _) => injection R as ? ?
  | sfail _ _ = (Ok _, _) => discriminate R
  | (if ?b then _ else _) _ = (Ok _, _) => let E := fresh "E" in destruct b eqn:E; try discriminate R
  | (match ?x with _ => _ end) _ = (Ok _, _) => let E := fresh "E" in destruct x eqn:E; try discriminate R
  end).

(** How a check can end without an answer: the transaction is turned away, an
    assertion fails, or an exception is thrown. *)
Inductive tx_error := Rejected (r : rejection) | AssertionFailed | ValueOutOfRange.

Definition turn_away {S A : Type} (level : Z) (reason : string) : stm S tx_error A := sfail (Rejected (DoS level reason)).

Definition COINBASE_MATURITY : Z := 100.

Section Inputs.
Context `{CCoinsView V}.
Variable DynamicUsage : CScript -> Z.

Abbreviation cache := (CCoinsViewCache V).

Definition access {E : Type} (p : COutPoint) : stm cache E Coin := ask (fun c => AccessCoin DynamicUsage c p).

(** An output that must be unspent. *)
Definition access_unspent (p : COutPoint) : stm cache tx_error Coin :=
  do! coin := access p in if IsSpent coin then sfail AssertionFailed else sret coin.

(** * Signature operations *)

Definition GetLegacySigOpCount (tx : CTransaction) : Z :=
  let nSigOps := fold_left (fun n txin => w32 (n + GetSigOpCount (scriptSig txin) false)) (vin tx) 0 in
  fold_left (fun n txout => w32 (n + GetSigOpCount (scriptPubKey txout) false)) (vout tx) nSigOps.

Fixpoint p2sh_loop (ins : list CTxIn) (nSigOps : Z) : stm cache tx_error Z :=
  match ins with
  | [] => sret nSigOps
  | txin :: ins' =>
      do! coin := access_unspent (prevout txin) in
      let script := scriptPubKey (coin_out coin) in
      p2sh_loop ins' (if IsPayToScriptHash script then w32 (nSigOps + GetSigOpCountP2SH script (scriptSig txin)) else nSigOps)
  end.
Definition GetP2SHSigOpCount (tx : CTransaction) : stm cache tx_error Z :=
  if IsCoinBase tx then sret 0 else p2sh_loop (vin tx) 0.

Fixpoint witness_loop (flags : Z) (ins : list CTxIn) (nSigOps : Z) : stm cache tx_error Z :=
  match ins with
  | [] => sret nSigOps
  | txin :: ins' =>
      do! coin := access_unspent (prevout txin) in
      match CountWitnessSigOps (scriptSig txin) (scriptPubKey (coin_out coin)) (scriptWitness txin) flags with
      | None => sfail AssertionFailed
      | Some n => witness_loop flags ins' (nSigOps + n)
      end
  end.

Definition GetTransactionSigOpCost (tx : CTransaction) (flags : Z) : stm cache tx_error Z :=
  let nSigOps := w32 (GetLegacySigOpCount tx * WITNESS_SCALE_FACTOR) in
  if IsCoinBase tx then sret nSigOps
  else
    do! nSigOps :=
      if flag flags SCRIPT_VERIFY_P2SH then
        do! n := GetP2SHSigOpCount tx in sret (nSigOps + w32 (n * WITNESS_SCALE_FACTOR))
      else sret nSigOps in
    witness_loop flags (vin tx) nSigOps.
(** * Coins spent *)

Fixpoint inputs_loop (nSpendHeight : Z) (ins : list CTxIn) (nValueIn : Z) : stm cache tx_error Z :=
  match ins with
  | [] => sret nValueIn
  | txin :: ins' =>
      do! coin := access_unspent (prevout txin) in
      if fCoinBase coin && (s32 (nSpendHeight - nHeight coin) <? COINBASE_MATURITY)
      then turn_away 0 "bad-txns-premature-spend-of-coinbase"
      else
        let nValueIn := s64 (nValueIn + nValue (coin_out coin)) in
        if negb (MoneyRange (nValue (coin_out coin))) || negb (MoneyRange nValueIn)
        then turn_away 100 "bad-txns-inputvalues-outofrange"
        else inputs_loop nSpendHeight ins' nValueIn
  end.

(** The fee. *)
Definition CheckTxInputs (AreEnforcedValuesDeployed : bool) (tx : CTransaction) (nSpendHeight : Z)
  : stm cache tx_error Z :=
  do! have := ask (fun c => HaveInputs DynamicUsage c tx) in
  if negb have then turn_away 100 "bad-txns-inputs-missingorspent"
  else
    do! nValueIn := inputs_loop nSpendHeight (vin tx) 0 in
    match GetValueOut AreEnforcedValuesDeployed tx with
    | None => sfail ValueOutOfRange
    | Some value_out =>
        if nValueIn <? value_out then turn_away 100 "bad-txns-in-belowout"
        else
          let txfee_aux := nValueIn - value_out in
          if negb (MoneyRange txfee_aux) then turn_away 100 "bad-txns-fee-out-of-range" else sret txfee_aux
    end.
End Inputs.

(** * The fee is what the inputs exceed the outputs by *)

Section FeeProofs.
Context `{CoinsViewLaws V}.
Variable DynamicUsage : CScript -> Z.

Abbreviation cache := (CCoinsViewCache V).
Abbreviation cache_ok := (cache_ok DynamicUsage).

(** A lookup leaves the cache standing for the same unspent outputs. *)
Definition same_coins (c c' : cache) : Prop := cache_ok c' /\ cache_utxo c' = cache_utxo c.

Lemma same_coins_refl c : cache_ok c -> same_coins c c.
Proof. now split. Qed.

Lemma same_coins_trans c c1 c2 : same_coins c c1 -> same_coins c1 c2 -> same_coins c c2.
Proof. intros [O E] [O' E']; split; congruence. Qed.

Lemma access_unspent_spec (c : cache) p : cache_ok c -> exists c', same_coins c c' /\
  access_unspent DynamicUsage p c =
  (match cache_utxo c !! p with Some coin => Ok coin | None => Err AssertionFailed end, c').
Proof.
  intros O; destruct (AccessCoin_spec DynamicUsage c p O) as (coin & c' & E & O' & U & L).
  exists c'; split; [split; assumption|].
  unfold access_unspent, access, ask, sbind; rewrite E, L; destruct (IsSpent coin); reflexivity.
Qed.

Lemma have_inputs_spec ins : forall c : cache, cache_ok c -> exists c', same_coins c c' /\
  have_inputs_loop DynamicUsage c ins = (forallb (fun i => is_some (cache_utxo c !! prevout i)) ins, c').
Proof.
  induction ins as [|i ins IH]; intros c O; cbn [have_inputs_loop forallb]; [exists c; auto using same_coins_refl|].
  destruct (HaveCoin_spec DynamicUsage c (prevout i) O) as (c1 & E & O1 & U1); rewrite E.
  destruct (is_some (cache_utxo c !! prevout i)); cbn [negb andb]; [|exists c1; split; [split|]; auto].
  destruct (IH c1 O1) as (c2 & S & E2); rewrite E2, U1; exists c2; split; [|reflexivity].
  eapply same_coins_trans; [split; eassumption|exact S].
Qed.

(** Coins that are on disk: amounts of 64 bits, heights of 31. *)
Definition coin_fits (coin : Coin) : Prop := in_s 64 (nValue (coin_out coin)) /\ 0 <= nHeight coin < 2 ^ 31.

Definition mature (nSpendHeight : Z) (coin : Coin) : Prop :=
  fCoinBase coin = true -> COINBASE_MATURITY <= nSpendHeight - nHeight coin.

Definition in_money (coin : Coin) : Prop := 0 <= nValue (coin_out coin) <= MAX_MONEY.
Definition total (coins : list Coin) : Z := sum (map (fun coin => nValue (coin_out coin)) coins).

Lemma total_cons coin coins : total (coin :: coins) = nValue (coin_out coin) + total coins.
Proof. reflexivity. Qed.
Lemma total_nonneg coins : Forall in_money coins -> 0 <= total coins.
Proof. induction 1 as [|c coins B _ IH]; [reflexivity|rewrite total_cons; unfold in_money in B; lia]. Qed.

(** The sum of two amounts in range does not wrap. *)
Lemma s64_money acc v : 0 <= acc <= MAX_MONEY -> 0 <= v <= MAX_MONEY -> s64 (acc + v) = acc + v.
Proof.
  intros A B; apply swrap_id; [lia|]; unfold in_s; change (2 ^ (64 - 1)) with 9223372036854775808.
  unfold MAX_MONEY, COIN in *; lia.
Qed.

Lemma inputs_loop_spec nSpendHeight ins : 0 <= nSpendHeight < 2 ^ 31 -> forall (c : cache) coins acc, cache_ok c ->
  Forall2 (fun i coin => cache_utxo c !! prevout i = Some coin) ins coins -> Forall coin_fits coins ->
  0 <= acc <= MAX_MONEY ->
  exists r c', inputs_loop DynamicUsage nSpendHeight ins acc c = (r, c') /\ same_coins c c' /\
    (forall v, r = Ok v <-> Forall (mature nSpendHeight) coins /\ Forall in_money coins /\
       acc + total coins <= MAX_MONEY /\ v = acc + total coins) /\
    (forall e, r = Err e -> exists rej, e = Rejected rej).
Proof.
  intros HS; induction ins as [|i ins IH]; intros c coins acc O L F A.
  - inversion L; subst; exists (Ok acc), c; split; [reflexivity|]; split; [split; auto|]; split; [|discriminate].
    intros v; change (total []) with 0; rewrite Z.add_0_r; split; [intros [= <-]; split_and!; auto; lia|].
    intros (_ & _ & _ & ->); reflexivity.
  - inversion L as [|? coin ? coins' Li Ls]; subst; apply Forall_cons in F; destruct F as [[Fv Fh] F].
    destruct (access_unspent_spec c (prevout i) O) as (c1 & [O1 U1] & E).
    cbn [inputs_loop]; unfold sbind at 1; rewrite E, Li.
    replace (s32 (nSpendHeight - nHeight coin)) with (nSpendHeight - nHeight coin)
      by (symmetry; apply swrap_id; [lia|unfold in_s; lia]).
    setoid_rewrite Forall_cons; rewrite total_cons.
    assert (R : forall lvl reason, exists r c', turn_away lvl reason c1 = (r, c') /\ same_coins c c' /\
        r = @Err tx_error Z (Rejected (DoS lvl reason))) by (intros; eexists _, _; split; [reflexivity|split; [split|]; auto]).
    destruct (fCoinBase coin && _) eqn:M; [|destruct (negb (MoneyRange (nValue (coin_out coin))) || _) eqn:B].
    + destruct (R 0 "bad-txns-premature-spend-of-coinbase"%string) as (r & c' & E' & S & ->).
      exists (Err (Rejected (DoS 0 "bad-txns-premature-spend-of-coinbase"%string))), c'; split; [exact E'|]; split; [exact S|].
      split; [|intros e [= <-]; eauto]; intros v; split; [discriminate|]; intros ([K _] & _).
      bool_to_prop; specialize (K ltac:(assumption)); lia.
    + destruct (R 100 "bad-txns-inputvalues-outofrange"%string) as (r & c' & E' & S & ->).
      exists (Err (Rejected (DoS 100 "bad-txns-inputvalues-outofrange"%string))), c'; split; [exact E'|]; split; [exact S|].
      split; [|intros e [= <-]; eauto]; intros v; split; [discriminate|]; intros (_ & [Bm Bs] & T & _).
      pose proof (total_nonneg _ Bs); unfold in_money in Bm; rewrite s64_money in B by assumption.
      apply orb_prop in B; destruct B as [B|B]; apply negb_true_iff, not_true_iff_false in B;
        exfalso; apply B, MoneyRange_spec; lia.
    + bool_to_prop; match goal with K : MoneyRange (nValue _) = true |- _ => apply MoneyRange_spec in K; rename K into Bm end.
      rewrite s64_money in * by assumption.
      match goal with K : MoneyRange (_ + _) = true |- _ => apply MoneyRange_spec in K; rename K into Ba end.
      destruct (IH c1 coins' (acc + nValue (coin_out coin)) O1) as (r & c' & E' & S & Q & P); auto; [rewrite U1; exact Ls|].
      exists r, c'; split; [exact E'|]; split; [eapply same_coins_trans; [split; eassumption|exact S]|]; split; [|exact P].
      intros v; rewrite Q; unfold mature at 3, in_money at 3; rewrite !Z.add_assoc.
      split; [intros (K1 & K2 & K3 & K4); split_and!; auto; try lia|tauto].
      intros CB; rewrite CB in M; cbn [andb] in M; apply Z.ltb_ge in M; exact M.
Qed.

Lemma all_known (u : gmap COutPoint Coin) ins :
  if forallb (fun i => is_some (u !! prevout i)) ins
  then exists coins, Forall2 (fun i coin => u !! prevout i = Some coin) ins coins
  else forall coins, ~ Forall2 (fun i coin => u !! prevout i = Some coin) ins coins.
Proof.
  induction ins as [|i ins IH]; cbn [forallb]; [exists []; constructor|].
  destruct (u !! prevout i) as [coin|] eqn:E; cbn [is_some andb].
  - destruct (forallb _ ins); [destruct IH as [coins L]; exists (coin :: coins); now constructor|].
    intros coins L; inversion L; subst; eapply IH; eassumption.
  - intros coins L; inversion L; subst; congruence.
Qed.

Lemma known_unique (u : gmap COutPoint Coin) ins coins coins' :
  Forall2 (fun i coin => u !! prevout i = Some coin) ins coins ->
  Forall2 (fun i coin => u !! prevout i = Some coin) ins coins' -> coins = coins'.
Proof.
  intros L; revert coins'; induction L as [|i coin ins coins E _ IH]; intros coins' L'; inversion L'; subst; [reflexivity|].
  f_equal; [congruence|auto].
Qed.

(** C5: a transaction other than a coinbase is given a fee exactly when every
    output it spends is unspent, coinbase outputs are mature, the amounts and
    their sum are within the money limit and cover the outputs; the fee is the
    difference of the exact sums.  Otherwise it is turned away, or the sum of
    its outputs throws, which it does not for a transaction that passed
    [CheckTransaction]; no assertion fails, and the cache stands for the same
    unspent outputs. *)
Theorem CheckTxInputs_correct (c : cache) (enforced : bool) (tx : CTransaction) (nSpendHeight : Z) :
  cache_ok c -> (forall p coin, cache_utxo c !! p = Some coin -> coin_fits coin) ->
  valid_tx tx -> IsCoinBase tx = false -> 0 <= nSpendHeight < 2 ^ 31 ->
  exists r c', CheckTxInputs DynamicUsage enforced tx nSpendHeight c = (r, c') /\ same_coins c c' /\
    (forall fee, r = Ok fee <-> exists coins value_out,
       Forall2 (fun i coin => cache_utxo c !! prevout i = Some coin) (vin tx) coins /\
       Forall (mature nSpendHeight) coins /\ Forall in_money coins /\ total coins <= MAX_MONEY /\
       GetValueOut enforced tx = Some value_out /\ fee = total coins - value_out /\ 0 <= fee) /\
    (forall e, r = Err e -> (exists rej, e = Rejected rej) \/ (e = ValueOutOfRange /\ GetValueOut enforced tx = None)).
Proof.
  intros O FC W CB HS; unfold CheckTxInputs, HaveInputs, ask, sbind; rewrite CB; cbn [negb].
  destruct (have_inputs_spec (vin tx) c O) as (c1 & [O1 U1] & E); rewrite E.
  pose proof (all_known (cache_utxo c) (vin tx)) as K.
  destruct (forallb _ _); cbn [negb].
  2: { eexists _, c1; split; [reflexivity|]; split; [now split|]; split; [|intros e [= <-]; eauto].
       intros fee; split; [discriminate|]; intros (coins & vo & L & _); destruct (K coins L). }
  destruct K as [coins L].
  assert (F : Forall coin_fits coins).
  { clear - L FC; induction L; constructor; eauto. }
  destruct (inputs_loop_spec nSpendHeight (vin tx) HS c1 coins 0 O1) as (r & c2 & E2 & S2 & Q & P); auto;
    [rewrite U1; exact L|unfold MAX_MONEY, COIN; lia|].
  assert (S : same_coins c c2) by (eapply same_coins_trans; [split; eassumption|exact S2]); rewrite E2.
  destruct r as [v|e]; cbn [negb].
  2: { eexists _, c2; split; [reflexivity|]; split; [exact S|]; split; [|intros e' [= <-]; left; eauto].
       intros fee; split; [discriminate|]; intros (coins' & vo & L' & M & B & T & _).
       rewrite (known_unique _ _ _ _ L' L) in *; discriminate (proj2 (Q (total coins)) (conj M (conj B (conj T eq_refl)))). }
  destruct (proj1 (Q v) eq_refl) as (M & B & T & ->); rewrite Z.add_0_l in *.
  pose proof (total_nonneg _ B) as TN.
  destruct (GetValueOut enforced tx) as [vo|] eqn:G.
  2: { eexists _, c2; split; [reflexivity|]; split; [exact S|]; split; [|intros e [= <-]; auto].
       intros fee; split; [discriminate|]; intros (coins' & vo & _ & _ & _ & _ & [=] & _). }
  assert (VO : 0 <= vo).
  { apply value_out_loop_spec in G; [|unfold MAX_MONEY, COIN; lia|apply W]; destruct G as (B' & <- & _).
    pose proof (sum_nonneg _ B'); lia. }
  assert (QF : forall fee, (exists coins' value_out,
     Forall2 (fun i coin => cache_utxo c !! prevout i = Some coin) (vin tx) coins' /\
     Forall (mature nSpendHeight) coins' /\ Forall in_money coins' /\ total coins' <= MAX_MONEY /\
     Some vo = Some value_out /\ fee = total coins' - value_out /\ 0 <= fee) <-> fee = total coins - vo /\ 0 <= fee).
  { intros fee; split; [|intros []; exists coins, vo; auto 8].
    intros (coins' & vo' & L' & _ & _ & _ & [= <-] & -> & D); now rewrite (known_unique _ _ _ _ L L'). }
  setoid_rewrite QF; destruct (Z.ltb_spec (total coins) vo).
  - eexists _, c2; split; [reflexivity|]; split; [exact S|]; split; [|intros e [= <-]; eauto].
    intros fee; split; [discriminate|lia].
  - rewrite (proj2 (MoneyRange_spec _)) by lia; cbn [negb].
    eexists _, c2; split; [reflexivity|]; split; [exact S|]; split; [|discriminate].
    intros fee; split; [intros [= <-]; lia|intros [-> _]; reflexivity].
Qed.
End FeeProofs.

(** * An example *)

#[export] Instance example_view : CCoinsView CCoinsViewDB := db_view (fun b => Z.of_nat (length b)) 1.
#[export] Instance example_laws : CoinsViewLaws CCoinsViewDB := db_laws (fun b => Z.of_nat (length b)) 1.

Definition spent_out : COutPoint := mkOutPoint (repeat 7 32) 1.
Definition spent_db (coin : Coin) : CCoinsViewDB := mkDB {[spent_out := coin]} (Some [9]) None.

Lemma spent_cache coin : IsSpent coin = false ->
  Coins.cache_ok ex_usage (new_cache (spent_db coin)) /\ cache_utxo (new_cache (spent_db coin)) = {[spent_out := coin]}.
Proof.
  intros S; refine (new_cache_ok ex_usage (spent_db coin) _); intros p c L.
  change (db_coins (spent_db coin)) with ({[spent_out := coin]} : gmap COutPoint Coin) in L.
  apply lookup_singleton_Some in L; destruct L as [_ <-]; exact S.
Qed.

Lemma CheckTxInputs_correct_witness :
  fst (CheckTxInputs ex_usage true tx_example 9 (new_cache (spent_db (ex_coin 80)))) = Ok 30.
Proof.
  destruct (spent_cache (ex_coin 80) eq_refl) as [O U].
  destruct (CheckTxInputs_correct ex_usage (new_cache (spent_db (ex_coin 80))) true tx_example 9 O) as (r & c' & E & _ & Q & _).
  - rewrite U; intros p coin L; apply lookup_singleton_Some in L; destruct L as [_ <-].
    unfold coin_fits, in_s; cbn; lia.
  - exact tx_example_valid.
  - reflexivity.
  - lia.
  - rewrite E; cbn [fst]; apply Q; exists [ex_coin 80], 50; rewrite U; split_and!; try reflexivity; try lia.
    + constructor; [apply lookup_singleton_eq|constructor].
    + repeat constructor; discriminate.
    + repeat constructor; unfold MAX_MONEY, COIN; cbn; lia.
    + unfold total, MAX_MONEY, COIN; cbn; lia.
Defined.
