(* ===== verification/Blocks.v ===== *)
(** Blocks: their serialization (src/primitives/block.h), the checks that need
    no context and those that need the previous headers ([CheckBlock] and
    [ContextualCheckBlock] of src/validation.cpp), and the commitment to the
    witnesses in the coinbase ([GenerateCoinbaseCommitment],
    [UpdateUncommittedBlockStructures]).

    The checks compose the header checks of [Headers], the Merkle trees of
    [Merkle], the transaction checks of [TxCheck], the lock times of
    [TxLocks] and the signature operation counts of [TxInputs].  A hash in a
    header is the little-endian number of its 32 bytes.  An error says
    whether the block may have been corrupted on the way, in which case the
    header must not be marked as invalid. *)

From stdpp Require Import base.
From Stdlib Require Import ZArith String List Bool Lia Arith.
From S2P Require Import Prelude Serialize Script Standard ArithUint256 Chain MedianTime VersionBits Pow Headers.
From S2P Require Import Transaction Merkle Compressor BoolEE AssetTypes AssetNames AssetTx TxCheck TxLocks TxInputs.
Import ListNotations.
Open Scope Z_scope.

(** * Serialization *)

Record CBlock := mkBlock {
  header : CBlockHeader;
  vtx : list CTransaction;
  fChecked : bool
}.

Section Format.
Variable nKAWPOWActivationTime : Z.

Definition write_uint256 (h : Z) : bytes := le_split 8 32 h.
Definition read_uint256 : reader Z := read_le 32.

Definition SerializeHeader (b : CBlockHeader) : bytes :=
  ser_writedata32 (h_nVersion b) ++ write_uint256 (h_hashPrevBlock b) ++ write_uint256 (h_hashMerkleRoot b) ++
  ser_writedata32 (h_nTime b) ++ ser_writedata32 (h_nBits b) ++
  if h_nTime b <? nKAWPOWActivationTime then ser_writedata32 (h_nNonce b)
  else ser_writedata32 (h_nHeight b) ++ ser_writedata64 (h_nNonce64 b) ++ write_uint256 (h_mix_hash b).

(** Reading into a header that is null. *)
Definition UnserializeHeader : reader CBlockHeader := fun s =>
  let! version := read_i32 s in
  let! prev := read_uint256 (snd version) in
  let! merkle := read_uint256 (snd prev) in
  let! time := ser_readdata32 (snd merkle) in
  let! bits := ser_readdata32 (snd time) in
  if fst time <? nKAWPOWActivationTime then
    let! nonce := ser_readdata32 (snd bits) in
    Ok (mkHeader (fst version) (fst prev) (fst merkle) (fst time) (fst bits) (fst nonce) 0 0 0, snd nonce)
  else
    let! height := ser_readdata32 (snd bits) in
    let! nonce64 := ser_readdata64 (snd height) in
    let! mix := read_uint256 (snd nonce64) in
    Ok (mkHeader (fst version) (fst prev) (fst merkle) (fst time) (fst bits) 0 (fst height) (fst nonce64) (fst mix), snd mix).

Definition SerializeBlock (fAllowWitness : bool) (block : CBlock) : bytes :=
  SerializeHeader (header block) ++ write_list (SerializeTransaction fAllowWitness) (vtx block).

Definition UnserializeBlock (fAllowWitness : bool) : reader CBlock := fun s =>
  let! h := UnserializeHeader s in
  let! txs := read_list (UnserializeTransaction fAllowWitness) (snd h) in
  Ok (mkBlock (fst h) (fst txs) false, snd txs).

Definition GetBlockWeight (block : CBlock) : Z :=
  Z.of_nat (length (SerializeBlock false block)) * (WITNESS_SCALE_FACTOR - 1) + Z.of_nat (length (SerializeBlock true block)).
End Format.

(** * Checks *)

Definition MAX_BLOCK_SIGOPS_COST : Z := 80000.
Definition LOCKTIME_MEDIAN_TIME_PAST : Z := Z.shiftl 1 1.

Inductive block_error :=
| InHeader (e : header_error)
| InTransaction (e : rejection)
| BadBlock (nDoS : Z) (strRejectReason : string)
| Corrupted (nDoS : Z) (strRejectReason : string)
| MerkleFailed (e : merkle_error)
| IndexFailed (e : chain_error)
| NoCoinbase.

Definition lift {E A : Type} (f : E -> block_error) (r : result E A) : result block_error A :=
  match r with Ok x => Ok x | Err e => Err (f e) end.

Section Checks.
Context {hashes : HeaderHashes} {node : Node}.
Variable chainparams : Headers.CChainParams.
Variable env : environment.
Variable a : arena.

Fixpoint check_transactions (fBlockCheck : bool) (txs : list CTransaction) : result block_error unit :=
  match txs with
  | [] => Ok tt
  | tx :: txs' =>
      let! _ := lift InTransaction (CheckTransaction tx true false fBlockCheck) in
      check_transactions fBlockCheck txs'
  end.

Definition block_sigops (txs : list CTransaction) : Z :=
  fold_left (fun n tx => w32 (n + GetLegacySigOpCount tx)) txs 0.

(** The Merkle root of the header, and no twins in the tree. *)
Definition check_merkle (block : CBlock) : result block_error unit :=
  let! r := lift MerkleFailed (BlockMerkleRoot node_Hash (vtx block)) in
  if negb (h_hashMerkleRoot (header block) =? le_val 8 (fst r)) then Err (Corrupted 100 "bad-txnmrklroot")
  else if snd r then Err (Corrupted 100 "bad-txns-duplicate")
  else Ok tt.

(** The checks after those for corruption. *)
Definition check_contents (block : CBlock) (fDBCheck : bool) : result block_error unit :=
  match vtx block with
  | [] => Err (BadBlock 100 "bad-blk-length")
  | coinbase :: others =>
      if (Z.of_nat (length (vtx block)) * WITNESS_SCALE_FACTOR >? GetMaxBlockWeight) ||
         (Z.of_nat (length (SerializeBlock (nKAWPOWActivationTime chainparams) false block)) * WITNESS_SCALE_FACTOR
            >? GetMaxBlockWeight)
      then Err (BadBlock 100 "bad-blk-length")
      else if negb (IsCoinBase coinbase) then Err (BadBlock 100 "bad-cb-missing")
      else if existsb IsCoinBase others then Err (BadBlock 100 "bad-cb-multiple")
      else
        let! _ := check_transactions (negb fDBCheck) (vtx block) in
        if w32 (block_sigops (vtx block) * WITNESS_SCALE_FACTOR) >? MAX_BLOCK_SIGOPS_COST
        then Err (BadBlock 100 "bad-blk-sigops")
        else Ok tt
  end.

(** The block with the mark that it has been checked. *)
Definition CheckBlock (block : CBlock) (fCheckPOW fCheckMerkleRoot fDBCheck : bool) : result block_error CBlock :=
  if fChecked block then Ok block
  else
    let! _ := lift InHeader (CheckBlockHeader chainparams env a (header block) fCheckPOW) in
    let! _ := if fCheckMerkleRoot then check_merkle block else Ok tt in
    let! _ := check_contents block fDBCheck in
    Ok (mkBlock (header block) (vtx block) (fCheckPOW && fCheckMerkleRoot)).

(** * Witness commitments *)

Definition is_commitment (script : bytes) : bool :=
  (38 <=? Z.of_nat (length script)) && (get script 0 =? opcode_value OP_RETURN) && (get script 1 =? 0x24) &&
  (get script 2 =? 0xaa) && (get script 3 =? 0x21) && (get script 4 =? 0xa9) && (get script 5 =? 0xed).

(** The position of the last commitment among the outputs from position [o]. *)
Fixpoint commitment_loop (o : Z) (outs : list CTxOut) (commitpos : Z) : Z :=
  match outs with
  | [] => commitpos
  | out :: outs' => commitment_loop (o + 1) outs' (if is_commitment (scriptPubKey out) then o else commitpos)
  end.

Definition GetWitnessCommitmentIndex (block : CBlock) : Z :=
  match vtx block with
  | [] => -1
  | coinbase :: _ => commitment_loop 0 (vout coinbase) (-1)
  end.

Definition witness_nonce : bytes := repeat 0 32.

Definition UpdateUncommittedBlockStructures (nSegwitEnabled : bool) (block : CBlock) : result block_error CBlock :=
  match vtx block with
  | [] => Ok block
  | coinbase :: others =>
      if negb (GetWitnessCommitmentIndex block =? -1) && nSegwitEnabled && negb (HasWitness coinbase) then
        match vin coinbase with
        | [] => Err NoCoinbase
        | i :: ins =>
            Ok (mkBlock (header block)
                  (mkTx (set_witness i [witness_nonce] :: ins) (vout coinbase) (nVersion coinbase) (nLockTime coinbase) :: others)
                  (fChecked block))
        end
      else Ok block
  end.

(** The commitment script, empty when none is added, and the block. *)
Definition GenerateCoinbaseCommitment (nSegwitEnabled : bool) (block : CBlock) : result block_error (bytes * CBlock) :=
  if nSegwitEnabled && (GetWitnessCommitmentIndex block =? -1) then
    let! r := lift MerkleFailed (BlockWitnessMerkleRoot node_Hash (vtx block)) in
    match vtx block with
    | [] => Err NoCoinbase
    | coinbase :: others =>
        let script := [opcode_value OP_RETURN; 0x24; 0xaa; 0x21; 0xa9; 0xed] ++ node_Hash (fst r ++ witness_nonce) in
        let coinbase' := mkTx (vin coinbase) (vout coinbase ++ [mkTxOut 0 script]) (nVersion coinbase) (nLockTime coinbase) in
        let! block' := UpdateUncommittedBlockStructures nSegwitEnabled (mkBlock (header block) (coinbase' :: others) (fChecked block)) in
        Ok (script, block')
    end
  else let! block' := UpdateUncommittedBlockStructures nSegwitEnabled block in Ok ([], block').

(** Whether the block commits to its witnesses, checked. *)
Definition check_commitment (nSegwitEnabled : bool) (block : CBlock) : result block_error bool :=
  let commitpos := GetWitnessCommitmentIndex block in
  if nSegwitEnabled && negb (commitpos =? -1) then
    let! r := lift MerkleFailed (BlockWitnessMerkleRoot node_Hash (vtx block)) in
    match vtx block with
    | coinbase :: _ =>
        match vin coinbase with
        | i :: _ =>
            match scriptWitness i with
            | [nonce] =>
                if negb (Z.of_nat (length nonce) =? 32) then Err (Corrupted 100 "bad-witness-nonce-size")
                else
                  let script := scriptPubKey (nth (Z.to_nat commitpos) (vout coinbase) txout_null) in
                  if negb (bytes_eqb (node_Hash (fst r ++ nonce)) (firstn 32 (skipn 6 script)))
                  then Err (Corrupted 100 "bad-witness-merkle-match")
                  else Ok true
            | _ => Err (Corrupted 100 "bad-witness-nonce-size")
            end
        | [] => Err NoCoinbase
        end
    | [] => Err NoCoinbase
    end
  else Ok false.

Definition ContextualCheckBlock (nCSVEnabled nBIP34Enabled nSegwitEnabled : bool) (block : CBlock) (pindexPrev : option nat)
  : result block_error unit :=
  let! height :=
    match pindexPrev with
    | None => Ok 0
    | Some p => let! b := lift IndexFailed (deref a p) in Ok (s32 (Chain.nHeight b + 1))
    end in
  let nLockTimeFlags := if nCSVEnabled then LOCKTIME_MEDIAN_TIME_PAST else 0 in
  let! nLockTimeCutoff :=
    match pindexPrev with
    | Some p =>
        if negb (Z.land nLockTimeFlags LOCKTIME_MEDIAN_TIME_PAST =? 0) then lift IndexFailed (GetMedianTimePast a p)
        else Ok (h_nTime (header block))
    | None => Ok (h_nTime (header block))
    end in
  if negb (forallb (fun tx => IsFinalTx tx height nLockTimeCutoff) (vtx block)) then Err (BadBlock 10 "bad-txns-nonfinal")
  else
    let expect := push_int64 [] height in
    let! _ :=
      if nBIP34Enabled then
        match vtx block with
        | coinbase :: _ =>
            match vin coinbase with
            | i :: _ =>
                if (Z.of_nat (length (scriptSig i)) <? Z.of_nat (length expect)) ||
                   negb (bytes_eqb expect (firstn (length expect) (scriptSig i)))
                then Err (BadBlock 100 "bad-cb-height") else Ok tt
            | [] => Err NoCoinbase
            end
        | [] => Err NoCoinbase
        end
      else Ok tt in
    let! fHaveWitness := check_commitment nSegwitEnabled block in
    if negb fHaveWitness && existsb HasWitness (vtx block) then Err (Corrupted 100 "unexpected-witness")
    else if GetBlockWeight (nKAWPOWActivationTime chainparams) block >? GetMaxBlockWeight then Err (BadBlock 100 "bad-blk-weight")
    else Ok tt.
End Checks.

(** * The format of blocks *)

Section Codec.
Variable act : Z.

(** A header as it is read: the members that its time does not ask for are null. *)
Definition valid_header (b : CBlockHeader) : Prop :=
  in_s 32 (h_nVersion b) /\ in_u 256 (h_hashPrevBlock b) /\ in_u 256 (h_hashMerkleRoot b) /\
  in_u 32 (h_nTime b) /\ in_u 32 (h_nBits b) /\
  if h_nTime b <? act
  then in_u 32 (h_nNonce b) /\ h_nHeight b = 0 /\ h_nNonce64 b = 0 /\ h_mix_hash b = 0
  else h_nNonce b = 0 /\ in_u 32 (h_nHeight b) /\ in_u 64 (h_nNonce64 b) /\ in_u 256 (h_mix_hash b).

#[export] Instance format_uint256 : Format read_uint256 write_uint256 (in_u 256) := format_le 32.

#[export] Instance format_header : Format (UnserializeHeader act) (SerializeHeader act) valid_header.
Proof.
  split.
  - intros [v p m t b n h n64 mx] rest (Hv & Hp & Hm & Ht & Hb & Hr); unfold UnserializeHeader, SerializeHeader.
    cbn [h_nVersion h_hashPrevBlock h_hashMerkleRoot h_nTime h_nBits h_nNonce h_nHeight h_nNonce64 h_mix_hash] in *.
    read_fields; destruct (t <? act); destruct Hr as (H1 & H2 & H3 & H4); subst; read_fields; reflexivity.
  - intros s x rest Hs H; unfold UnserializeHeader in H; do 5 (apply bind_ok in H;
      destruct H as ([? ?] & E & H); cbn [fst snd] in H; apply format_inverts in E; [|assumption]; destruct E as (-> & ? & ?)).
    unfold SerializeHeader, valid_header; destruct (_ <? act) eqn:L; invert_fields H;
      cbn [h_nVersion h_hashPrevBlock h_hashMerkleRoot h_nTime h_nBits h_nNonce h_nHeight h_nNonce64 h_mix_hash];
      rewrite L, <- !app_assoc; split_all; auto.
Qed.

Definition valid_block (w : bool) (block : CBlock) : Prop :=
  valid_header (header block) /\ Z.of_nat (length (vtx block)) <= MAX_SIZE /\
  Forall (fun tx => valid_tx tx /\ (vin tx <> [] \/ vout tx = [] \/ w = false)) (vtx block).

Lemma read_transactions w txs rest : Z.of_nat (length txs) <= MAX_SIZE ->
  Forall (fun tx => valid_tx tx /\ (vin tx <> [] \/ vout tx = [] \/ w = false)) txs ->
  read_list (UnserializeTransaction w) (write_list (SerializeTransaction w) txs ++ rest) =
  Ok (map (fun tx => if w then tx else strip_tx tx) txs, rest).
Proof.
  intros L F; unfold read_list, write_list; rewrite <- app_assoc, ReadCompactSize_reads by lia; cbn [bind fst snd].
  rewrite Nat2Z.id; clear L; induction F as [|tx txs [V C] F IH]; [reflexivity|].
  cbn [length read_elements flat_map map]; rewrite <- app_assoc, Unserialize_reads by auto; cbn [bind fst snd].
  rewrite IH; reflexivity.
Qed.
End Codec.

(** * Checks that do not see the witnesses *)

Lemma strip_serialize tx : SerializeTransaction false (strip_tx tx) = SerializeTransaction false tx.
Proof. rewrite !SerializeTransaction_form; cbn [andb]; unfold strip_tx, basic_form; cbn; now rewrite write_ins_strip. Qed.

Lemma strip_coinbase tx : IsCoinBase (strip_tx tx) = IsCoinBase tx.
Proof. destruct tx as [ins outs v l]; unfold IsCoinBase, strip_tx; cbn; destruct ins as [|i [|j ins]]; reflexivity. Qed.

Lemma strip_sigops tx : GetLegacySigOpCount (strip_tx tx) = GetLegacySigOpCount tx.
Proof.
  unfold GetLegacySigOpCount, strip_tx; cbn [vin vout]; f_equal; generalize 0; induction (vin tx) as [|i ins IH]; intros z; [reflexivity|].
  cbn [map fold_left]; apply IH.
Qed.

Section Witnesses.
Context {node : Node}.

Lemma strip_duplicates ins : forall seen, check_duplicates (map strip ins) seen = check_duplicates ins seen.
Proof.
  induction ins as [|i ins IH]; intros seen; [reflexivity|]; cbn [map check_duplicates].
  change (prevout (strip i)) with (prevout i); now rewrite IH.
Qed.

Lemma strip_inputs tx : check_inputs (strip_tx tx) = check_inputs tx.
Proof.
  unfold check_inputs; rewrite strip_coinbase; destruct tx as [ins outs v l]; unfold strip_tx; cbn [vin vout].
  replace (existsb (fun txin => outpoint_IsNull (prevout txin)) (map strip ins)) with
    (existsb (fun txin => outpoint_IsNull (prevout txin)) ins) by (induction ins as [|i ins IH]; cbn; congruence).
  destruct ins; reflexivity.
Qed.

Lemma strip_check tx dup mempool blk : CheckTransaction (strip_tx tx) dup mempool blk = CheckTransaction tx dup mempool blk.
Proof.
  unfold CheckTransaction; rewrite strip_serialize, strip_inputs.
  change (vin (strip_tx tx)) with (map strip (vin tx)); change (vout (strip_tx tx)) with (vout tx); rewrite strip_duplicates.
  replace (is_nil (map strip (vin tx))) with (is_nil (vin tx)) by (destruct (vin tx); reflexivity).
  change (check_issuance (strip_tx tx)) with (check_issuance tx); reflexivity.
Qed.
End Witnesses.

Definition strip_block (block : CBlock) : CBlock := mkBlock (header block) (map strip_tx (vtx block)) (fChecked block).

Lemma strip_write act block : SerializeBlock act false (strip_block block) = SerializeBlock act false block.
Proof.
  unfold SerializeBlock, strip_block, write_list; cbn [header vtx]; rewrite length_map; do 2 f_equal.
  induction (vtx block) as [|tx txs IH]; [reflexivity|]; cbn [map flat_map]; now rewrite strip_serialize, IH.
Qed.

Section Verdicts.
Context {hashes : HeaderHashes} {node : Node}.
Variable chainparams : Headers.CChainParams.

Lemma strip_contents block db :
  check_contents chainparams (strip_block block) db = check_contents chainparams block db.
Proof.
  unfold check_contents; rewrite strip_write; unfold strip_block; cbn [vtx header]; rewrite length_map.
  destruct (vtx block) as [|cb txs] eqn:E; [reflexivity|]; cbn [map]; rewrite strip_coinbase.
  replace (existsb IsCoinBase (map strip_tx txs)) with (existsb IsCoinBase txs)
    by (clear E; induction txs as [|tx txs IH]; cbn; rewrite ?strip_coinbase; congruence).
  replace (check_transactions (negb db) (strip_tx cb :: map strip_tx txs)) with (check_transactions (negb db) (cb :: txs)).
  2: { cbn [check_transactions]; rewrite strip_check; destruct (lift InTransaction _); [cbn [bind]|reflexivity].
       clear E; induction txs as [|tx txs IH]; [reflexivity|]; cbn [map check_transactions]; now rewrite strip_check, IH. }
  replace (block_sigops (strip_tx cb :: map strip_tx txs)) with (block_sigops (cb :: txs)); [reflexivity|].
  unfold block_sigops; cbn [fold_left]; rewrite strip_sigops; clear E; generalize (w32 (0 + GetLegacySigOpCount cb)).
  induction txs as [|tx txs IH]; intros z; [reflexivity|]; cbn [map fold_left]; rewrite strip_sigops; apply IH.
Qed.

Definition txids (block : CBlock) : list bytes := map (GetHash node_Hash) (vtx block).

(** No two different transactions of the blocks have the same id. *)
Definition distinct_ids (b1 b2 : CBlock) : Prop :=
  forall tx tx', In tx (vtx b1) -> In tx' (vtx b2) -> GetHash node_Hash tx = GetHash node_Hash tx' ->
  SerializeTransaction false tx = SerializeTransaction false tx'.

Lemma same_transactions b1 b2 : Forall valid_tx (vtx b1) -> Forall valid_tx (vtx b2) -> distinct_ids b1 b2 ->
  txids b1 = txids b2 -> map strip_tx (vtx b1) = map strip_tx (vtx b2).
Proof.
  unfold txids, distinct_ids; intros V1; revert V1; generalize (vtx b2); induction (vtx b1) as [|t1 l1 IH];
    intros [|t2 l2] V1 V2 D E; cbn [map] in *; try discriminate; [reflexivity|]; injection E as E1 E2.
  inversion_clear V1; inversion_clear V2; f_equal; [apply same_bytes_strip; auto; apply D; auto; now left|].
  apply IH; auto; intros tx tx' I1 I2; apply D; now right.
Qed.

Hypothesis Hash_size : forall x, is_blob 32 (node_Hash x).

Lemma root_blob leaves : Forall (is_blob 32) leaves -> leaves <> [] -> is_blob 32 (root node_Hash leaves).
Proof.
  intros F N; unfold root; destruct (height leaves) as [|k]; [|apply Hash_size].
  cbn; destruct leaves; [congruence|]; now inversion F.
Qed.

(** The Merkle check, with the root of the tree. *)
Lemma check_merkle_ok block : vtx block <> [] -> Z.of_nat (length (vtx block)) <= 2 ^ 31 ->
  (exists level reason, check_merkle block = Err (Corrupted level reason)) \/
  check_merkle block = Ok tt /\ ComputeMerkleRoot node_Hash (txids block) = Ok (root node_Hash (txids block), false) /\
  h_hashMerkleRoot (header block) = le_val 8 (root node_Hash (txids block)).
Proof.
  intros N L; unfold check_merkle, BlockMerkleRoot; fold (txids block).
  assert (N' : txids block <> []) by (unfold txids; destruct (vtx block); [congruence|discriminate]).
  destruct (MerkleComputation_ok node_Hash (txids block) false 0 ltac:(discriminate)) with (branchpos := w32 (-1))
    as (mu & br & E & _); auto; [unfold size, txids; rewrite length_map; exact L|discriminate|].
  unfold ComputeMerkleRoot; rewrite E; cbn [bind lift fst snd].
  destruct (Z.eqb_spec (h_hashMerkleRoot (header block)) (le_val 8 (root node_Hash (txids block)))); cbn [negb]; [|eauto].
  destruct mu; [eauto|right; auto].
Qed.

Lemma same_merkle b1 b2 : header b1 = header b2 -> vtx b1 <> [] -> vtx b2 <> [] ->
  Z.of_nat (length (vtx b1)) <= 2 ^ 31 -> Z.of_nat (length (vtx b2)) <= 2 ^ 31 ->
  height (txids b1) = height (txids b2) -> no_collision node_Hash (txids b1) (txids b2) ->
  check_merkle b1 = Ok tt -> check_merkle b2 = Ok tt -> txids b1 = txids b2.
Proof.
  intros Hh N1 N2 L1 L2 He C M1 M2.
  destruct (check_merkle_ok b1 N1 L1) as [(l & r & X)|(_ & R1 & E1)]; [congruence|].
  destruct (check_merkle_ok b2 N2 L2) as [(l & r & X)|(_ & R2 & E2)]; [congruence|].
  assert (Blob : forall b, vtx b <> [] -> is_blob 32 (root node_Hash (txids b))).
  { intros b N; apply root_blob; unfold txids; [|destruct (vtx b); [congruence|discriminate]].
    apply Forall_forall; intros x H; apply in_map_iff in H as (tx & <- & _); apply Hash_size. }
  assert (R : root node_Hash (txids b1) = root node_Hash (txids b2)).
  { destruct (Blob b1 N1) as [S1 B1], (Blob b2 N2) as [S2 B2]; apply (le_val_inj 8); auto; [lia|congruence|].
    rewrite <- E1, <- E2, Hh; reflexivity. }
  assert (Ne : forall b, vtx b <> [] -> txids b <> []) by (intros b N; unfold txids; destruct (vtx b); [congruence|discriminate]).
  assert (Sz : forall b, Z.of_nat (length (vtx b)) <= 2 ^ 31 -> size (txids b) <= 2 ^ 31)
    by (intros b L; unfold size, txids; rewrite length_map; exact L).
  apply (roots_bind node_Hash _ _ (root node_Hash (txids b1))); auto; rewrite R; exact R2.
Qed.
End Verdicts.

(** * Commitments *)

Lemma commitment_last outs out : is_commitment (scriptPubKey out) = true -> forall o c,
  commitment_loop o (outs ++ [out]) c = o + Z.of_nat (length outs).
Proof.
  intros I; induction outs as [|x outs IH]; intros o c; cbn [app commitment_loop length]; [rewrite I; lia|].
  rewrite IH; lia.
Qed.

Lemma update_commits block cb others i ins out : vtx block = cb :: others -> vin cb = i :: ins -> HasWitness cb = false ->
  is_commitment (scriptPubKey out) = true ->
  UpdateUncommittedBlockStructures true
    (mkBlock (header block) (mkTx (vin cb) (vout cb ++ [out]) (nVersion cb) (nLockTime cb) :: others) (fChecked block)) =
  Ok (mkBlock (header block) (mkTx (set_witness i [witness_nonce] :: ins) (vout cb ++ [out]) (nVersion cb) (nLockTime cb) :: others)
        (fChecked block)).
Proof.
  intros Ev Ei W I; unfold UpdateUncommittedBlockStructures, GetWitnessCommitmentIndex; cbn [vtx vout vin header fChecked nVersion nLockTime].
  rewrite commitment_last by exact I; rewrite (proj2 (Z.eqb_neq (0 + _) _)) by lia; cbn [negb andb].
  change (HasWitness (mkTx (vin cb) (vout cb ++ [out]) (nVersion cb) (nLockTime cb))) with (HasWitness cb); now rewrite W, Ei.
Qed.

(** * Theorems *)

(** Blocks on the wire and on disk.  A valid block is read back as
    written, its transactions without their witnesses when these are not
    written; the bytes of a header, whose format depends on its time,
    determine it, and whatever is read as a header is the encoding of a valid
    one. *)
Theorem Block_codec (act : Z) (w : bool) (block : CBlock) (s rest : bytes) (h h' : CBlockHeader) :
  (valid_block act w block ->
   UnserializeBlock act w (SerializeBlock act w block ++ rest) =
   Ok (mkBlock (header block) (map (fun tx => if w then tx else strip_tx tx) (vtx block)) false, rest)) /\
  (valid_header act h -> valid_header act h' -> SerializeHeader act h = SerializeHeader act h' -> h = h') /\
  (is_bytes s -> UnserializeHeader act s = Ok (h, rest) -> valid_header act h /\ s = SerializeHeader act h ++ rest).
Proof.
  split_all.
  - intros (V & L & F); unfold UnserializeBlock, SerializeBlock; rewrite <- app_assoc, format_reads by exact V; cbn [bind fst snd].
    rewrite read_transactions by assumption; reflexivity.
  - intros V V' E; apply (format_prefix (read := UnserializeHeader act) (write := SerializeHeader act) h h' [] []); auto.
    now rewrite !app_nil_r.
  - intros B E; apply format_inverts in E; tauto.
Qed.

(** C8: a block is not condemned for data that came with it.  When
    [CheckBlock] rejects a block for another reason than possible corruption,
    every block with the same header (and a Merkle tree of the same height)
    is rejected for the same reason or for corruption, whatever its
    transactions and witnesses are; so the header may be marked as invalid. *)
Theorem CheckBlock_verdict {hashes : HeaderHashes} {node : Node} (chainparams : Headers.CChainParams) (env : environment)
  (a : arena) (b1 b2 : CBlock) (pow db : bool) (e : block_error) :
  (forall x, is_blob 32 (node_Hash x)) -> header b1 = header b2 -> fChecked b1 = false -> fChecked b2 = false ->
  vtx b1 <> [] -> vtx b2 <> [] -> Z.of_nat (length (vtx b1)) <= 2 ^ 31 -> Z.of_nat (length (vtx b2)) <= 2 ^ 31 ->
  Forall valid_tx (vtx b1) -> Forall valid_tx (vtx b2) -> height (txids b1) = height (txids b2) ->
  no_collision node_Hash (txids b1) (txids b2) -> distinct_ids b1 b2 ->
  CheckBlock chainparams env a b1 pow true db = Err e ->
  (forall level reason, e <> Corrupted level reason) ->
  CheckBlock chainparams env a b2 pow true db = Err e \/
  exists level reason, CheckBlock chainparams env a b2 pow true db = Err (Corrupted level reason).
Proof.
  intros S Hh F1 F2 N1 N2 L1 L2 V1 V2 He C D; unfold CheckBlock; rewrite F1, F2, Hh.
  destruct (lift InHeader _) as [[]|e0]; cbn [bind]; [|auto].
  destruct (check_merkle_ok b1 N1 L1) as [(l & r & X)|(M1 & _)]; [rewrite X; cbn [bind]; intros [= <-] NC; exfalso; now apply (NC l r)|].
  destruct (check_merkle_ok b2 N2 L2) as [(l & r & X)|(M2 & _)]; [rewrite X; cbn [bind]; eauto|].
  pose proof (same_merkle S b1 b2 Hh N1 N2 L1 L2 He C M1 M2) as T; rewrite M1, M2; cbn [bind].
  assert (E : check_contents chainparams b1 db = check_contents chainparams b2 db).
  { rewrite <- strip_contents, <- (strip_contents chainparams b2); unfold strip_block.
    rewrite (same_transactions b1 b2 V1 V2 D T), Hh, F1, F2; reflexivity. }
  rewrite E; destruct (check_contents chainparams b2 db); cbn [bind]; [discriminate|auto].
Qed.

(** A commitment that is generated is accepted.  For a block template
    without a commitment, [GenerateCoinbaseCommitment] adds one output to the
    coinbase and a witness to its input and changes no other transaction, and
    the block passes the check of its witnesses by [ContextualCheckBlock]. *)
Theorem GenerateCoinbaseCommitment_accepted {node : Node} (block : CBlock) (coinbase : CTransaction) (others : list CTransaction)
  (i : CTxIn) (ins : list CTxIn) :
  (forall x, is_blob 32 (node_Hash x)) -> vtx block = coinbase :: others -> vin coinbase = i :: ins ->
  HasWitness coinbase = false -> Z.of_nat (length (vtx block)) <= 2 ^ 31 -> GetWitnessCommitmentIndex block = -1 ->
  exists script out block', GenerateCoinbaseCommitment true block = Ok (script, block') /\
    check_commitment true block' = Ok true /\ header block' = header block /\
    vtx block' = mkTx (set_witness i [witness_nonce] :: ins) (vout coinbase ++ [out]) (nVersion coinbase) (nLockTime coinbase) :: others /\
    nValue out = 0 /\ scriptPubKey out = script.
Proof.
  intros S Ev Ei W L G; unfold GenerateCoinbaseCommitment; rewrite G, Ev; cbn [andb Z.eqb Pos.eqb].
  unfold BlockWitnessMerkleRoot; set (leaves := null_hash :: map (GetWitnessHash node_Hash) others).
  destruct (MerkleComputation_ok node_Hash leaves false 0 ltac:(discriminate)) with (branchpos := w32 (-1)) as (mu & br & E & _);
    [unfold size, leaves; rewrite Ev in L; cbn [length] in *; rewrite length_map; exact L|discriminate|discriminate|].
  unfold ComputeMerkleRoot; rewrite E; cbn [bind lift fst snd]; set (r := root node_Hash leaves).
  set (script := [opcode_value OP_RETURN; 0x24; 0xaa; 0x21; 0xa9; 0xed] ++ node_Hash (r ++ witness_nonce)).
  assert (Sc : is_commitment script = true).
  { unfold is_commitment, script; cbn [app get nth]; rewrite (proj2 (Z.leb_le 38 _)); [reflexivity|].
    cbn [app length]; rewrite (proj1 (S _)); lia. }
  rewrite (update_commits block coinbase others i ins (mkTxOut 0 script)) by auto; cbn [bind].
  exists script, (mkTxOut 0 script); eexists; split; [reflexivity|].
  split; [|auto]; unfold check_commitment, GetWitnessCommitmentIndex; cbn [vtx vout vin].
  rewrite commitment_last by exact Sc; rewrite (proj2 (Z.eqb_neq _ _)) by lia; cbn [negb andb].
  unfold BlockWitnessMerkleRoot; fold leaves; unfold ComputeMerkleRoot; rewrite E; cbn [bind lift fst snd]; fold r.
  cbn [set_witness scriptWitness]; change (Z.of_nat (length witness_nonce) =? 32) with true; cbn [negb].
  rewrite Z.add_0_l, Nat2Z.id, app_nth2, Nat.sub_diag by lia; cbn [nth scriptPubKey].
  change (skipn 6 script) with (node_Hash (r ++ witness_nonce)); pose proof (proj1 (S (r ++ witness_nonce))) as L32.
  rewrite firstn_all2 by (unfold bytes in *; rewrite L32; lia).
  now rewrite (proj2 (bytes_eqb_eq _ _) eq_refl).
Qed.

(** * A block of one transaction *)

(** A node whose hash is the first 32 bytes. *)
Definition block_node : Node :=
  Build_Node TxCheck.example_params true true true true true (firstn 20)
    (fun x => map (fun z => z mod 2 ^ 8) (firstn 32 (x ++ repeat 0 32))) example_encode (fun b => b) INVALID.

Lemma block_node_hash x : is_blob 32 (@node_Hash block_node x).
Proof.
  split; cbn [node_Hash block_node].
  - rewrite length_map, length_firstn, length_app, repeat_length; lia.
  - apply Forall_forall; intros z H; apply in_map_iff in H as (y & <- & _); apply Z.mod_pos_bound; lia.
Qed.

Definition block_header : CBlockHeader :=
  mkHeader 4 1 (le_val 8 (GetHash (@node_Hash block_node) tx_example)) 1060 0x1e0fffff 2 0 0 0.
Definition block_with (tx : CTransaction) : CBlock := mkBlock block_header [tx] false.

Lemma stripped_valid : valid_tx (strip_tx tx_example).
Proof.
  destruct tx_example_valid as [V1 V2 V3 V4 V5 V6]; split; auto; cbn.
  repeat constructor; cbn; unfold in_u, in_s, MAX_SIZE, SEQUENCE_FINAL; lia.
Qed.

Lemma Block_codec_witness : valid_block 2000 true (block_with tx_example) /\
  UnserializeBlock 2000 true (SerializeBlock 2000 true (block_with tx_example) ++ [9]) = Ok (block_with tx_example, [9]).
Proof.
  assert (V : valid_block 2000 true (block_with tx_example)).
  { split; [|split; [cbn; unfold MAX_SIZE; lia|]].
    - unfold valid_header, block_with, block_header; cbn [header h_nVersion h_hashPrevBlock h_hashMerkleRoot h_nTime h_nBits h_nNonce
        h_nHeight h_nNonce64 h_mix_hash]; change (1060 <? 2000) with true; cbv iota.
      split_all; try (unfold in_u, in_s; lia); destruct (block_node_hash (SerializeTransaction false tx_example)) as [L B].
      pose proof (le_val_bounds 8 _ ltac:(lia) B) as Q; rewrite L in Q; exact Q.
    - constructor; [split; [exact tx_example_valid|left; discriminate]|constructor]. }
  split; [exact V|].
  exact (proj1 (Block_codec 2000 true (block_with tx_example) [] [9] block_header block_header) V).
Defined.

Lemma CheckBlock_verdict_witness :
  let check b := @CheckBlock example_hashes block_node example_chainparams example_env [] b false true false in
  check (block_with tx_example) = Err (BadBlock 100 "bad-cb-missing") /\
  (check (block_with (strip_tx tx_example)) = Err (BadBlock 100 "bad-cb-missing") \/
   exists level reason, check (block_with (strip_tx tx_example)) = Err (Corrupted level reason)).
Proof.
  split; [vm_compute; reflexivity|].
  apply (@CheckBlock_verdict example_hashes block_node example_chainparams example_env [] (block_with tx_example)
    (block_with (strip_tx tx_example))); try discriminate; try reflexivity.
  - exact block_node_hash.
  - constructor; [exact tx_example_valid|constructor].
  - constructor; [exact stripped_valid|constructor].
  - intros x y x' y' [(k & i & K & _)|(k & i & K & _)]; change (k < 0)%nat in K; lia.
  - intros tx tx' [<-|[]] [<-|[]] _; reflexivity.
Defined.

Lemma GenerateCoinbaseCommitment_accepted_witness : exists script out block',
  @GenerateCoinbaseCommitment block_node true (block_with (strip_tx tx_example)) = Ok (script, block') /\
  @check_commitment block_node true block' = Ok true /\ scriptPubKey out = script.
Proof.
  destruct (@GenerateCoinbaseCommitment_accepted block_node (block_with (strip_tx tx_example)) (strip_tx tx_example) []
    (strip (mkTxIn (mkOutPoint (repeat 7 32) 1) [0x51] SEQUENCE_FINAL [[1; 2]; []])) []
    block_node_hash eq_refl eq_refl eq_refl ltac:(vm_compute; discriminate) eq_refl) as (s & o & b & E & C & _ & _ & _ & So).
  exists s, o, b; auto.
Defined.
