(* ===== verification/AssetRules.v ===== *)
(** The checks on asset data that depend on the state of the assets
    (src/assets/assets.cpp, the functions [ContextualCheck...] and
    [Verify...Change]): whether an asset exists and may be reissued, whether a
    restriction or tag may change, and whether an address satisfies the
    verifier string of a restricted asset.

    What these checks ask of the asset cache is the class [AssetsLookup]; a
    lookup may change the state that answers it.  [AssetsLookupLaws] is what
    the cache promises: the answers are those of an [assets_view], which no
    lookup changes.  The cache [CAssetsCache] is an instance of both. *)

From Stdlib Require Import String.
From stdpp Require Import base gmap list fin_maps.
From Stdlib Require Import ZArith Lia.
From S2P Require Import Prelude Serialize Script Standard Transaction Compressor BoolEE AssetTypes AssetNames Coins.
From S2P Require Import LruCache AssetCache AssetTx TxCheck TxInputs.
Open Scope Z_scope.

(** * What the checks ask of the asset cache *)

Class AssetsLookup (G : Type) := {
  (** [CheckIfAssetExists(name, true)] *)
  look_exists : bytes -> G -> bool * G;
  look_metadata : bytes -> G -> option CNewAsset * G;
  (** [GetAssetVerifierStringIfExists(name, verifier, fSkipTempCache)] *)
  look_verifier : bytes -> bool -> G -> option bytes * G;
  (** With [fSkipTempCache] set, as in every check. *)
  look_restricted : bytes -> bytes -> G -> bool * G;
  look_global : bytes -> G -> bool * G;
  look_qualifier : bytes -> bytes -> G -> bool * G
}.

(** Mutable globals of the node that the checks read. *)
Class Globals := {
  fUnitTest : bool;
  fMessaging : bool;
  (** [mempool.mapAssetToHash.count(name)] *)
  mempool_asset : bytes -> bool;
  mapReissuedAssets : gmap bytes bytes;
  GetTime : Z
}.

Section Rules.
Context {node : Node} {globals : Globals} `{AssetsLookup G}.

Abbreviation check_s := (stm G string).

Definition serror {A : Type} (reason : string) : check_s A := sfail reason.

(** A check whose error text goes to a local variable that hides the
    caller's. *)
Definition unreported {A : Type} (m : check_s A) : check_s A := fun g =>
  match m g with (Err _, g) => (Err ""%string, g) | r => r end.

(** * Tags and restrictions *)

Definition VerifyQualifierChange (data : CNullAssetTxData) (address : bytes) : check_s unit :=
  do! _ := slift (VerifyNullAssetDataFlag (nd_flag data)) in
  do! fHasQualifier := ask (look_qualifier (nd_asset_name data) address) in
  if negb (nd_flag data =? 0) then
    if fHasQualifier : bool then serror "bad-txns-null-data-add-qualifier-when-already-assigned" else sret tt
  else
    if negb fHasQualifier then serror "bad-txns-null-data-removing-qualifier-when-not-assigned" else sret tt.

Definition VerifyRestrictedAddressChange (data : CNullAssetTxData) (address : bytes) : check_s unit :=
  do! _ := slift (VerifyNullAssetDataFlag (nd_flag data)) in
  do! fIsFrozen := ask (look_restricted (nd_asset_name data) address) in
  if negb (nd_flag data =? 0) then
    if fIsFrozen : bool then serror "bad-txns-null-data-freeze-address-when-already-frozen" else sret tt
  else
    if negb fIsFrozen then serror "bad-txns-null-data-unfreeze-address-when-not-frozen" else sret tt.

Definition VerifyGlobalRestrictedChange (data : CNullAssetTxData) : check_s unit :=
  do! _ := slift (VerifyNullAssetDataFlag (nd_flag data)) in
  do! fIsGloballyFrozen := ask (look_global (nd_asset_name data)) in
  if negb (nd_flag data =? 0) then
    if fIsGloballyFrozen : bool then serror "bad-txns-null-data-global-freeze-when-already-frozen" else sret tt
  else
    if negb fIsGloballyFrozen then serror "bad-txns-null-data-global-unfreeze-when-not-frozen" else sret tt.

(** Without the list of changes that concern the wallet. *)
Definition ContextualCheckNullAssetTxOut (txout : CTxOut) : check_s unit :=
  match AssetNullDataFromScript node_Hash160 EncodeDestination (scriptPubKey txout) with
  | None => serror "bad-txns-null-asset-data-serialization"
  | Some (data, address) =>
      if IsAssetNameAQualifier (nd_asset_name data) false then VerifyQualifierChange data address
      else if IsAssetNameAnRestricted (nd_asset_name data) then VerifyRestrictedAddressChange data address
      else serror "bad-txns-null-asset-data-on-non-restricted-or-qualifier-asset"
  end.

Definition ContextualCheckGlobalAssetTxOut (txout : CTxOut) : check_s unit :=
  match GlobalAssetNullDataFromScript (scriptPubKey txout) with
  | None => serror "bad-txns-null-global-asset-data-serialization"
  | Some data => VerifyGlobalRestrictedChange data
  end.

(** * Verifier strings *)

Fixpoint issued_loop (qualifiers : list bytes) : check_s unit :=
  match qualifiers with
  | [] => sret tt
  | qualifier :: qualifiers' =>
      do! found := ask (look_exists (QUALIFIER_CHAR :: qualifier)) in
      if negb found then serror "bad-txns-null-verifier-contains-non-issued-qualifier" else issued_loop qualifiers'
  end.

Fixpoint vals_loop (qualifiers : list bytes) (check_address : bytes) : check_s Vals :=
  match qualifiers with
  | [] => sret []
  | qualifier :: qualifiers' =>
      do! has_qualifier := ask (look_qualifier (QUALIFIER_CHAR :: qualifier) check_address) in
      do! vals := vals_loop qualifiers' check_address in
      sret ((chars qualifier, has_qualifier) :: vals)
  end.

Definition ContextualCheckVerifierString (verifier check_address : bytes) : check_s unit :=
  if bytes_eqb verifier (str "true") then sret tt
  else
    do! setFoundQualifiers := slift (CheckVerifierString verifier) in
    do! _ := issued_loop setFoundQualifiers in
    match check_address with
    | [] => sret tt
    | _ =>
        do! vals := vals_loop setFoundQualifiers check_address in
        match resolve (chars verifier) vals with
        | Ok true => sret tt
        | Ok false => serror "bad-txns-null-verifier-address-failed-verification"
        | Err _ => serror "bad-txns-null-verifier-failed-contexual-syntax-check"
        end
    end.

Definition ContextualCheckVerifierAssetTxOut (txout : CTxOut) : check_s unit :=
  match AssetNullVerifierDataFromScript (scriptPubKey txout) with
  | None => serror "bad-txns-null-verifier-data-serialization"
  | Some verifier => unreported (ContextualCheckVerifierString verifier [])
  end.

Definition ContextualCheckAgainstVerifyString (transfer : CAssetTransfer) (address : bytes) : check_s unit :=
  do! verifier := ask (look_verifier (at_strName transfer) true) in
  match verifier with
  | None => serror ("Verifier String doesn't exist for asset: " ++ text (at_strName transfer))
  | Some verifier => ContextualCheckVerifierString verifier address
  end.

(** * Transfers *)

Definition is_empty (s : bytes) : bool := match s with [] => true | _ => false end.

(** The attached message. *)
Definition check_message (transfer : CAssetTransfer) : result string unit :=
  if is_empty (at_message transfer) && (at_nExpireTime transfer >? 0)
  then fail "Invalid parameter: asset transfer expiration time requires a message to be attached to the transfer"
  else if at_nExpireTime transfer <? 0 then fail "Invalid parameter: expiration time must be a positive value"
  else if negb (is_empty (at_message transfer)) then CheckEncoded (at_message transfer) else Ok tt.

Definition ContextualCheckTransferAsset (transfer : CAssetTransfer) (address : bytes) : check_s unit :=
  match IsAssetNameValid (at_strName transfer) with
  | Err _ => serror "Invalid parameter: asset_name must only consist of valid characters and have a size between 3 and 30 characters. See help for more details."
  | Ok assetType =>
      if at_nAmount transfer <=? 0
      then serror "Invalid parameter: asset amount can't be equal to or less than zero."
      else
        do! _ := if AreMessagesDeployed then slift (check_message transfer) else sret tt in
        match assetType with
        | MSGCHANNEL =>
            if negb AreMessagesDeployed then serror "bad-txns-transfer-msgchannel-before-messaging-is-active" else sret tt
        | RESTRICTED =>
            if negb AreRestrictedAssetsDeployed then serror "bad-txns-transfer-restricted-before-it-is-active"
            else
              do! frozen := ask (look_global (at_strName transfer)) in
              if frozen : bool then serror "bad-txns-transfer-restricted-asset-that-is-globally-restricted"
              else unreported (ContextualCheckAgainstVerifyString transfer address)
        | QUALIFIER | SUB_QUALIFIER =>
            if negb AreRestrictedAssetsDeployed then serror "bad-txns-transfer-qualifier-before-it-is-active" else sret tt
        | _ => sret tt
        end
  end.

(** * Issues and reissues *)

Definition ContextualCheckNewAsset (asset : CNewAsset) (fCheckMempool : bool) : check_s unit :=
  if negb AreAssetsDeployed && negb fUnitTest then serror "bad-txns-new-asset-when-assets-is-not-active"
  else
    do! _ := slift (CheckNewAsset asset) in
    do! exists_ := ask (look_exists (na_strName asset)) in
    if exists_ : bool then serror ("Invalid parameter: asset_name '" ++ text (na_strName asset) ++ "' has already been used")
    else if fCheckMempool && mempool_asset (na_strName asset) then serror "Asset with this name is already in the mempool"
    else
      let size := Z.of_nat (length (na_strIPFSHash asset)) in
      if negb (na_nHasIPFS asset =? 0) && negb (size =? 34) && (negb AreMessagesDeployed || negb (size =? 32))
      then serror "Invalid parameter: ipfs_hash must be 46 characters. Txid must be valid 64 character hash"
      else if negb (na_nHasIPFS asset =? 0) then slift (CheckEncoded (na_strIPFSHash asset)) else sret tt.

(** The receiver of reissued units of a restricted asset satisfies the new
    verifier string, or the current one. *)
Definition check_reissue_verifier (reissue_asset : CReissueAsset) (strAddress : bytes) (tx : CTransaction) : check_s unit :=
  match GetVerifierStringFromTx tx with
  | Err (false, strError) => serror strError
  | new_verifier =>
      if ra_nAmount reissue_asset >? 0 then
        match new_verifier with
        | Ok verifier => ContextualCheckVerifierString verifier strAddress
        | Err _ =>
            do! current_verifier := ask (look_verifier (ra_strName reissue_asset) false) in
            match current_verifier with
            | Some verifier => ContextualCheckVerifierString verifier strAddress
            | None => serror "failed to get verifier string from a restricted asset, database is out of sync. Reindex required. Please report this is to development team"
            end
        end
      else sret tt
  end.

Definition ContextualCheckReissueAsset (reissue_asset : CReissueAsset) (tx : CTransaction) : check_s unit :=
  match ReissueAssetFromTransaction tx with
  | None => serror "bad-txns-reissue-asset-contextual-check"
  | Some (_, strAddress) =>
      do! _ := slift (CheckReissueAsset reissue_asset) in
      do! prev := ask (look_metadata (ra_strName reissue_asset)) in
      match prev with
      | None => serror ("Unable to reissue asset: asset_name '" ++ text (ra_strName reissue_asset) ++ "' doesn't exist in the database")
      | Some prev_asset =>
          if na_nReissuable prev_asset =? 0 then serror "Unable to reissue asset: reissuable is set to false"
          else if s64 (na_nAmount prev_asset + ra_nAmount reissue_asset) >? MAX_MONEY
          then serror ("Unable to reissue asset: asset_name '" ++ text (ra_strName reissue_asset) ++ "' the amount trying to reissue is to large")
          else if negb (CheckAmountWithUnits (ra_nAmount reissue_asset) (na_units prev_asset))
          then serror "Unable to reissue asset: amount must be divisible by the smaller unit assigned to the asset"
          else if (ra_nUnits reissue_asset <? na_units prev_asset) && negb (ra_nUnits reissue_asset =? -1)
          then serror "Unable to reissue asset: unit must be larger than current unit selection"
          else
            let size := Z.of_nat (length (ra_strIPFSHash reissue_asset)) in
            if negb (size =? 0) && negb (size =? 34) && (AreMessagesDeployed && negb (size =? 32))
            then serror "Invalid parameter: ipfs_hash must be 34 bytes, Txid must be 32 bytes"
            else
              do! _ := if negb (size =? 0) then slift (CheckEncoded (ra_strIPFSHash reissue_asset)) else sret tt in
              if IsAssetNameAnRestricted (ra_strName reissue_asset)
              then check_reissue_verifier reissue_asset strAddress tx else sret tt
      end
  end.

Fixpoint ContextualCheckUniqueAssetTx (outs : list CTxOut) : check_s unit :=
  match outs with
  | [] => sret tt
  | out :: outs' =>
      do! _ :=
        if is_some (IsScriptNewUniqueAsset (scriptPubKey out)) then
          match AssetFromScript node_Hash160 EncodeDestination (scriptPubKey out) with
          | None => serror "bad-txns-issue-unique-serialization-failed"
          | Some (asset, _) => ContextualCheckNewAsset asset false
          end
        else sret tt in
      ContextualCheckUniqueAssetTx outs'
  end.
End Rules.

(** * What the asset cache promises *)

Record assets_view := mkView {
  view_exists : bytes -> bool;
  view_metadata : bytes -> option CNewAsset;
  view_verifier : bytes -> bool -> option bytes;
  view_frozen : bytes -> bytes -> bool;
  view_global : bytes -> bool;
  view_tagged : bytes -> bytes -> bool
}.

Class AssetsLookupLaws (G : Type) `{AssetsLookup G} := {
  look_ok : G -> Prop;
  look_view : G -> assets_view;
  (** The names and addresses whose keys the cache tells from each other. *)
  look_usable : bytes -> bytes -> Prop;
  same_view (g g' : G) : Prop := look_ok g' /\ look_view g' = look_view g;
  exists_law name g : look_ok g ->
    let '(r, g') := look_exists name g in same_view g g' /\ r = view_exists (look_view g) name;
  metadata_law name g : look_ok g ->
    let '(r, g') := look_metadata name g in same_view g g' /\ r = view_metadata (look_view g) name;
  verifier_law name skip g : look_ok g ->
    let '(r, g') := look_verifier name skip g in same_view g g' /\ r = view_verifier (look_view g) name skip;
  restricted_law name address g : look_ok g -> look_usable name address ->
    let '(r, g') := look_restricted name address g in same_view g g' /\ r = view_frozen (look_view g) name address;
  global_law name g : look_ok g ->
    let '(r, g') := look_global name g in same_view g g' /\ r = view_global (look_view g) name;
  qualifier_law name address g : look_ok g -> look_usable name address ->
    let '(r, g') := look_qualifier name address g in same_view g g' /\ r = view_tagged (look_view g) name address
}.

(** * What an accepted check says *)

Section Accepted.
Context {node : Node} {globals : Globals} `{AssetsLookupLaws G}.
Implicit Types (g : G) (v : assets_view).

Lemma same_view_refl g : look_ok g -> same_view g g.
Proof. now split. Qed.
Lemma same_view_trans g g1 g2 : same_view g g1 -> same_view g1 g2 -> same_view g g2.
Proof. intros [_ E] [O' E']; split; congruence. Qed.

(** An answered lookup. *)
Lemma asked {A : Type} (m : G -> A * G) (a : A) g (x : A) g' :
  (let '(r, g'') := m g in same_view g g'' /\ r = a) -> @ask G string A m g = (Ok x, g') -> same_view g g' /\ x = a.
Proof. unfold ask; destruct (m g) as [r g'']; intros [S ->] [= <- <-]; auto. Qed.

Lemma unreported_ok {A : Type} (m : stm G string A) g a g' : unreported m g = (Ok a, g') -> m g = (Ok a, g').
Proof. unfold unreported; destruct (m g) as [[] ?]; congruence. Qed.

Lemma change_flag_ok (f : Z) g u g' : slift (VerifyNullAssetDataFlag f) g = (Ok u, g') -> g' = g /\ (f = 0 \/ f = 1).
Proof.
  unfold slift, VerifyNullAssetDataFlag; destruct (Z.eqb_spec f 0), (Z.eqb_spec f 1); cbn; intros [= <- <-]; auto.
Qed.

Lemma slift_ok {A : Type} (r : result string A) g a g' : slift r g = (Ok a, g') -> r = Ok a /\ g' = g.
Proof. intros [= -> ->]; auto. Qed.

(** A change is accepted when it changes something: [m] looks up the state,
    [b]. *)
Lemma change_ok (m : G -> bool * G) (b : bool) (data : CNullAssetTxData) (set unset : string) g u g' :
  (let '(r, g'') := m g in same_view g g'' /\ r = b) ->
  (do! _ := slift (VerifyNullAssetDataFlag (nd_flag data)) in
   do! now_ := ask m in
   if negb (nd_flag data =? 0) then if now_ : bool then serror set else sret tt
   else if negb now_ then serror unset else sret tt) g = (Ok u, g') ->
  same_view g g' /\ b = (nd_flag data =? 0).
Proof.
  intros L R; ran R; subst; (apply change_flag_ok in E; destruct E as [-> F]; eapply asked in E0; [|exact L];
    destruct E0 as [S X]; split; [exact S|]; rewrite <- X; destruct F as [F|F]; rewrite F in *; cbn in *; bool_to_prop; congruence).
Qed.

Lemma qualifier_change data address g u g' : look_ok g -> look_usable (nd_asset_name data) address ->
  VerifyQualifierChange data address g = (Ok u, g') ->
  same_view g g' /\ view_tagged (look_view g) (nd_asset_name data) address = (nd_flag data =? 0).
Proof. intros O U; exact (change_ok _ _ _ _ _ _ _ _ (qualifier_law _ _ g O U)). Qed.

Lemma restricted_change data address g u g' : look_ok g -> look_usable (nd_asset_name data) address ->
  VerifyRestrictedAddressChange data address g = (Ok u, g') ->
  same_view g g' /\ view_frozen (look_view g) (nd_asset_name data) address = (nd_flag data =? 0).
Proof. intros O U; exact (change_ok _ _ _ _ _ _ _ _ (restricted_law _ _ g O U)). Qed.

Lemma global_change data g u g' : look_ok g -> VerifyGlobalRestrictedChange data g = (Ok u, g') ->
  same_view g g' /\ view_global (look_view g) (nd_asset_name data) = (nd_flag data =? 0).
Proof. intros O; exact (change_ok _ _ _ _ _ _ _ _ (global_law _ g O)). Qed.

(** The change of an output is one of the current state. *)
Definition null_change v (txout : CTxOut) : Prop :=
  exists data address, AssetNullDataFromScript node_Hash160 EncodeDestination (scriptPubKey txout) = Some (data, address) /\
    if IsAssetNameAQualifier (nd_asset_name data) false
    then view_tagged v (nd_asset_name data) address = (nd_flag data =? 0)
    else IsAssetNameAnRestricted (nd_asset_name data) = true /\
         view_frozen v (nd_asset_name data) address = (nd_flag data =? 0).

Lemma null_asset_ok txout g u g' : look_ok g ->
  (forall data address, AssetNullDataFromScript node_Hash160 EncodeDestination (scriptPubKey txout) = Some (data, address) ->
   look_usable (nd_asset_name data) address) ->
  ContextualCheckNullAssetTxOut txout g = (Ok u, g') -> same_view g g' /\ null_change (look_view g) txout.
Proof.
  intros O U R; unfold ContextualCheckNullAssetTxOut in R; unfold null_change.
  destruct (AssetNullDataFromScript _ _ _) as [[data address]|] eqn:F; [|discriminate].
  pose proof (U _ _ eq_refl) as U'.
  destruct (IsAssetNameAQualifier _ _) eqn:Q; [|destruct (IsAssetNameAnRestricted _) eqn:A; [|discriminate]].
  - apply qualifier_change in R as [S C]; auto; split; [exact S|]; exists data, address; rewrite Q; auto.
  - apply restricted_change in R as [S C]; auto; split; [exact S|]; exists data, address; rewrite Q; auto.
Qed.

Definition global_ok v (txout : CTxOut) : Prop :=
  exists data, GlobalAssetNullDataFromScript (scriptPubKey txout) = Some data /\
    view_global v (nd_asset_name data) = (nd_flag data =? 0).

Lemma global_asset_ok txout g u g' : look_ok g ->
  ContextualCheckGlobalAssetTxOut txout g = (Ok u, g') -> same_view g g' /\ global_ok (look_view g) txout.
Proof.
  intros O R; unfold ContextualCheckGlobalAssetTxOut in R; unfold global_ok.
  destruct (GlobalAssetNullDataFromScript _) as [data|]; [|discriminate].
  apply global_change in R as [S C]; eauto.
Qed.

(** ** Verifier strings *)

(** Every qualifier of the verifier string was issued, and the address
    satisfies it with the tags it has. *)
Definition satisfies v (verifier address : bytes) : Prop :=
  verifier = str "true" \/
  exists qualifiers, CheckVerifierString verifier = Ok qualifiers /\
    (forall q, In q qualifiers -> view_exists v (QUALIFIER_CHAR :: q) = true) /\
    (address = [] \/
     resolve (chars verifier) (map (fun q => (chars q, view_tagged v (QUALIFIER_CHAR :: q) address)) qualifiers) = Ok true).

Lemma issued_ok qualifiers : forall g u g', look_ok g -> issued_loop qualifiers g = (Ok u, g') ->
  same_view g g' /\ forall q, In q qualifiers -> view_exists (look_view g) (QUALIFIER_CHAR :: q) = true.
Proof.
  induction qualifiers as [|q qs IH]; intros g u g' O R; cbn [issued_loop] in R.
  - injection R as <- <-; split; [now apply same_view_refl|contradiction].
  - ran R; eapply asked in E; [|now apply exists_law]; destruct E as [S ->]; apply negb_false_iff in E0.
    destruct (IH _ _ _ (proj1 S) R) as [S' I]; split; [eapply same_view_trans; eassumption|].
    intros q' [<-|M]; [exact E0|]; rewrite <- (proj2 S); auto.
Qed.

(** The qualifiers of a verifier string, at an address. *)
Definition verifier_usable (verifier address : bytes) : Prop :=
  address = [] \/ forall qualifiers q, CheckVerifierString verifier = Ok qualifiers -> In q qualifiers ->
    look_usable (QUALIFIER_CHAR :: q) address.

Lemma vals_ok qualifiers address : (forall q, In q qualifiers -> look_usable (QUALIFIER_CHAR :: q) address) ->
  forall g vals g', look_ok g ->
  vals_loop qualifiers address g = (Ok vals, g') ->
  same_view g g' /\ vals = map (fun q => (chars q, view_tagged (look_view g) (QUALIFIER_CHAR :: q) address)) qualifiers.
Proof.
  induction qualifiers as [|q qs IH]; intros U g vals g' O R; cbn [vals_loop] in R.
  - injection R as <- <-; split; [now apply same_view_refl|reflexivity].
  - ran R; subst; eapply asked in E; [|apply qualifier_law; auto; apply U; now left]; destruct E as [S ->].
    destruct (IH (fun q' I => U q' (or_intror I)) _ _ _ (proj1 S) E0) as [S' ->]; split; [eapply same_view_trans; eassumption|].
    now rewrite (proj2 S).
Qed.

Lemma verifier_string_ok verifier address g u g' : look_ok g -> verifier_usable verifier address ->
  ContextualCheckVerifierString verifier address g = (Ok u, g') ->
  same_view g g' /\ satisfies (look_view g) verifier address.
Proof.
  intros O U R; unfold ContextualCheckVerifierString in R; unfold satisfies.
  destruct (bytes_eqb verifier (str "true")) eqn:T.
  { injection R as <- <-; apply bytes_eqb_eq in T; split; [now apply same_view_refl|auto]. }
  ran R; subst; apply slift_ok in E; destruct E as [E ->]; apply issued_ok in E0; try assumption; destruct E0 as [S I].
  - split; [exact S|right; eauto].
  - apply vals_ok in E2; [|destruct U as [U|U]; [discriminate|eauto]|apply S]; destruct E2 as [S' ->]; split; [eapply same_view_trans; eassumption|].
    right; exists a; split_and!; auto; right; rewrite <- (proj2 S); assumption.
Qed.

(** A transfer leaves the asset to an address that may hold it. *)
Definition may_receive v (name address : bytes) : Prop :=
  view_global v name = false /\
  exists verifier, view_verifier v name true = Some verifier /\ satisfies v verifier address.

Lemma contextual_transfer_ok transfer address g u g' : look_ok g ->
  (forall verifier, view_verifier (look_view g) (at_strName transfer) true = Some verifier -> verifier_usable verifier address) ->
  ContextualCheckTransferAsset transfer address g = (Ok u, g') ->
  same_view g g' /\ 0 < at_nAmount transfer /\
  exists t, IsAssetNameValid (at_strName transfer) = Ok t /\
    (t = RESTRICTED -> may_receive (look_view g) (at_strName transfer) address) /\
    (t = MSGCHANNEL -> AreMessagesDeployed = true) /\
    (t = RESTRICTED \/ t = QUALIFIER \/ t = SUB_QUALIFIER -> AreRestrictedAssetsDeployed = true).
Proof.
  intros O U R; unfold ContextualCheckTransferAsset in R.
  destruct (IsAssetNameValid _) as [t|] eqn:V; [|discriminate]; destruct (Z.leb_spec (at_nAmount transfer) 0); [discriminate|].
  apply sbind_ok in R; destruct R as (x & g1 & M & R).
  assert (g1 = g) as -> by (destruct AreMessagesDeployed; [now apply slift_ok in M|now injection M]); clear M.
  assert (K : t = RESTRICTED \/ t <> RESTRICTED) by (destruct t; auto; right; discriminate); destruct K as [->|K].
  - ran R; apply negb_false_iff in E; eapply asked in E0; [|now apply global_law]; destruct E0 as [S X].
    apply unreported_ok in R; unfold ContextualCheckAgainstVerifyString in R; ran R; subst.
    eapply asked in E0; [|apply verifier_law, S]; destruct E0 as [S1 W].
    rewrite (proj2 S) in W; apply verifier_string_ok in R; [|apply S1|apply U; now symmetry]; destruct R as [S2 Q].
    split; [eapply same_view_trans; [exact S|eapply same_view_trans; eassumption]|split; [assumption|]].
    rewrite (proj2 S1), (proj2 S) in Q.
    exists RESTRICTED; split_and!; auto; try discriminate; intros _; split; eauto using eq_sym.
  - destruct t; try now destruct K.
    all: ran R; subst; bool_to_prop; (split; [now apply same_view_refl|split; [assumption|]]; eexists; split; [reflexivity|]);
      split_and!; intuition congruence.
Qed.

Lemma verifier_asset_ok txout g u g' : look_ok g ->
  ContextualCheckVerifierAssetTxOut txout g = (Ok u, g') ->
  same_view g g' /\ exists verifier, AssetNullVerifierDataFromScript (scriptPubKey txout) = Some verifier /\
    satisfies (look_view g) verifier [].
Proof.
  intros O R; unfold ContextualCheckVerifierAssetTxOut in R.
  destruct (AssetNullVerifierDataFromScript _) as [verifier|]; [|discriminate].
  apply unreported_ok, verifier_string_ok in R; [|assumption|now left]; destruct R as [S Q]; eauto.
Qed.

(** ** Issues and reissues *)

Definition may_issue v (asset : CNewAsset) (fCheckMempool : bool) : Prop :=
  CheckNewAsset asset = Ok tt /\ view_exists v (na_strName asset) = false /\
  (fCheckMempool = true -> mempool_asset (na_strName asset) = false) /\
  (AreAssetsDeployed = true \/ fUnitTest = true).

Lemma new_asset_ok asset fCheckMempool g u g' : look_ok g ->
  ContextualCheckNewAsset asset fCheckMempool g = (Ok u, g') ->
  same_view g g' /\ may_issue (look_view g) asset fCheckMempool.
Proof.
  intros O R; unfold ContextualCheckNewAsset in R; destruct (negb AreAssetsDeployed && negb fUnitTest) eqn:D; [discriminate|].
  apply sbind_ok in R; destruct R as ([] & g1 & E & R); apply slift_ok in E; destruct E as [E ->].
  apply sbind_ok in R; destruct R as (b & g1 & E0 & R); eapply asked in E0; [|now apply exists_law]; destruct E0 as [S ->].
  destruct (view_exists _ _) eqn:X; [discriminate|]; destruct (fCheckMempool && _) eqn:M; [discriminate|].
  destruct (_ && _ && _); [discriminate|].
  assert (g' = g1) as ->.
  { destruct (negb (na_nHasIPFS asset =? 0)); [now apply slift_ok in R|now injection R]. }
  split; [exact S|]; unfold may_issue; split_and!; auto.
  - intros ->; exact M.
  - destruct AreAssetsDeployed, fUnitTest; auto.
Qed.

Lemma contextual_uniques_ok outs : forall g u g', look_ok g -> ContextualCheckUniqueAssetTx outs g = (Ok u, g') ->
  same_view g g' /\ forall o, In o outs -> is_some (IsScriptNewUniqueAsset (scriptPubKey o)) = true ->
    exists asset address, AssetFromScript node_Hash160 EncodeDestination (scriptPubKey o) = Some (asset, address) /\
      may_issue (look_view g) asset false.
Proof.
  induction outs as [|o outs IH]; intros g u g' O R; cbn [ContextualCheckUniqueAssetTx] in R.
  { injection R as <- <-; split; [now apply same_view_refl|contradiction]. }
  apply sbind_ok in R; destruct R as ([] & g1 & E & R).
  assert (C : same_view g g1 /\ (is_some (IsScriptNewUniqueAsset (scriptPubKey o)) = true ->
    exists asset address, AssetFromScript node_Hash160 EncodeDestination (scriptPubKey o) = Some (asset, address) /\
      may_issue (look_view g) asset false)).
  { destruct (is_some _); [|injection E as <-; split; [now apply same_view_refl|discriminate]].
    destruct (AssetFromScript _ _ _) as [[asset address]|]; [|discriminate].
    apply new_asset_ok in E as [S M]; [split; eauto|assumption]. }
  destruct C as [S C], (IH _ _ _ (proj1 S) R) as [S' I]; split; [eapply same_view_trans; eassumption|].
  intros o' [<-|M] K; [exact (C K)|]; rewrite <- (proj2 S); exact (I _ M K).
Qed.

(** The units a reissue adds keep the supply within the limit, and go to an
    address that satisfies the verifier string of a restricted asset. *)
Definition may_reissue v (r : CReissueAsset) (tx : CTransaction) : Prop :=
  CheckReissueAsset r = Ok tt /\
  exists prev data address, view_metadata v (ra_strName r) = Some prev /\ na_nReissuable prev <> 0 /\
    s64 (na_nAmount prev + ra_nAmount r) <= MAX_MONEY /\ CheckAmountWithUnits (ra_nAmount r) (na_units prev) = true /\
    (na_units prev <= ra_nUnits r \/ ra_nUnits r = -1) /\
    ReissueAssetFromTransaction tx = Some (data, address) /\
    (IsAssetNameAnRestricted (ra_strName r) = true -> 0 < ra_nAmount r -> exists verifier,
       (GetVerifierStringFromTx tx = Ok verifier \/
        ((exists e, GetVerifierStringFromTx tx = Err (true, e)) /\ view_verifier v (ra_strName r) false = Some verifier)) /\
       satisfies v verifier address).

Lemma reissue_verifier_ok r address tx g u g' : look_ok g ->
  (forall verifier, GetVerifierStringFromTx tx = Ok verifier \/ view_verifier (look_view g) (ra_strName r) false = Some verifier ->
   verifier_usable verifier address) ->
  check_reissue_verifier r address tx g = (Ok u, g') -> same_view g g' /\
  (0 < ra_nAmount r -> exists verifier,
    (GetVerifierStringFromTx tx = Ok verifier \/
     ((exists e, GetVerifierStringFromTx tx = Err (true, e)) /\ view_verifier (look_view g) (ra_strName r) false = Some verifier)) /\
    satisfies (look_view g) verifier address).
Proof.
  intros O U R; unfold check_reissue_verifier in R; destruct (Z.gtb_spec (ra_nAmount r) 0) as [P|P].
  - destruct (GetVerifierStringFromTx tx) as [verifier|[[] e]] eqn:V; [| |discriminate].
    + apply verifier_string_ok in R; auto; destruct R; split; eauto.
    + ran R; subst; eapply asked in E; [|now apply verifier_law]; destruct E as [S W].
      apply verifier_string_ok in R; [|apply S|apply U; right; now symmetry]; destruct R as [S' Q]; rewrite (proj2 S) in Q.
      split; [eapply same_view_trans; eassumption|]; intros _; eauto 8.
  - split; [|lia]; destruct (GetVerifierStringFromTx tx) as [verifier|[[] e]]; try discriminate R;
      injection R as <- <-; now apply same_view_refl.
Qed.

Lemma reissue_ok r tx g u g' : look_ok g ->
  (forall data address verifier, ReissueAssetFromTransaction tx = Some (data, address) ->
   GetVerifierStringFromTx tx = Ok verifier \/ view_verifier (look_view g) (ra_strName r) false = Some verifier ->
   verifier_usable verifier address) ->
  ContextualCheckReissueAsset r tx g = (Ok u, g') -> same_view g g' /\ may_reissue (look_view g) r tx.
Proof.
  intros O U R; unfold ContextualCheckReissueAsset in R; unfold may_reissue.
  destruct (ReissueAssetFromTransaction tx) as [[data address]|]; [|discriminate].
  apply sbind_ok in R; destruct R as ([] & g1 & E & R); apply slift_ok in E; destruct E as [E ->].
  apply sbind_ok in R; destruct R as (prev & g1 & E0 & R); eapply asked in E0; [|now apply metadata_law]; destruct E0 as [S ->].
  destruct (view_metadata _ _) as [prev|]; [|discriminate].
  destruct (Z.eqb_spec (na_nReissuable prev) 0); [discriminate|].
  destruct (Z.gtb_spec (s64 (na_nAmount prev + ra_nAmount r)) MAX_MONEY); [discriminate|].
  destruct (CheckAmountWithUnits _ _) eqn:CU; [|discriminate]; destruct (_ && _) eqn:Units; [discriminate|].
  destruct (_ && _ && _); [discriminate|]; apply sbind_ok in R; destruct R as (x & g2 & E1 & R).
  assert (g2 = g1) as -> by (destruct (negb (Z.of_nat (length (ra_strIPFSHash r)) =? 0)); [now apply slift_ok in E1|now injection E1]); clear E1.
  assert (UN : na_units prev <= ra_nUnits r \/ ra_nUnits r = -1).
  { destruct (Z.ltb_spec (ra_nUnits r) (na_units prev)); [|auto]; right; destruct (Z.eqb_spec (ra_nUnits r) (-1)); auto; discriminate. }
  destruct (IsAssetNameAnRestricted _).
  - apply reissue_verifier_ok in R; [|apply S|rewrite (proj2 S); intros; eapply U; eauto]; destruct R as [S' Q]; rewrite (proj2 S) in Q.
    split; [eapply same_view_trans; eassumption|]; split; [exact E|]; exists prev, data, address; split_and!; auto.
  - injection R as <- <-; split; [exact S|]; split; [exact E|]; exists prev, data, address; split_and!; auto; discriminate.
Qed.
End Accepted.

(** * The asset cache keeps the promises *)

Section Cache.
Variable fReindex : bool.
Variable Hash : bytes -> bytes.
(** The temporary cache of the block or the mempool. *)
Variable c : CAssetsCache.

Definition assets_cache_lookups : AssetsLookup assets_state := {|
  look_exists name := CheckIfAssetExists fReindex true name c;
  look_metadata name g :=
    let '(r, g) := GetAssetMetaDataIfExists name 0 [] c g in ((fun d => fst (fst d)) <$> r, g);
  look_verifier name skip := GetAssetVerifierStringIfExists name skip c;
  look_restricted name address := CheckForAddressRestriction Hash name address true c;
  look_global name := CheckForGlobalRestriction name true c;
  look_qualifier name address := CheckForAddressQualifier Hash name address true c
|}.
End Cache.

Section CacheLaws.
Variable Hash : bytes -> bytes.
Variable c : CAssetsCache.
Variable usable : name_address -> Prop.
Hypothesis cache_key_inj : forall k k', usable k -> usable k' -> cache_key Hash k = cache_key Hash k' -> k = k'.
Implicit Types (p : CAssetsCache) (db : assets_db) (g : assets_state).

(** The data of an asset: as reissued, else as issued, else as stored. *)
Definition metadata_of p db (name : bytes) : option CNewAsset :=
  match mapReissuedAssetData c !! name, mapReissuedAssetData p !! name with
  | Some a, _ | None, Some a => Some a
  | None, None =>
      if bool_decide (is_Some (ToRemove (setNewAssets c) !! name)) ||
         bool_decide (is_Some (ToRemove (setNewAssets p) !! name)) then None
      else match ToAdd (setNewAssets c) !! name, ToAdd (setNewAssets p) !! name with
           | Some e, _ | None, Some e => Some (cn_asset e)
           | None, None => dd_asset <$> ReadAssetData db name
           end
  end.

(** The tag, or a tag below it. *)
Definition tagged p db (k : name_address) : bool :=
  match ToRemove (setNewQualifierAddress p) !! k, ToAdd (setNewQualifierAddress p) !! k with
  | Some t, _ => bool_decide (t = REMOVE_QUALIFIER)
  | None, Some t => bool_decide (t = ADD_QUALIFIER) || root_added (mapRootQualifierAddressesAdd p) k
  | None, None => root_added (mapRootQualifierAddressesAdd p) k || ReadFlag db (ADDRESS_QUALIFIER (snd k) (fst k)) ||
                  CheckForAddressRootQualifier db (snd k) (fst k)
  end.

Definition assets_cache_view g : assets_view := {|
  view_exists name :=
    if shadowed (setNewAssets c) (setNewAssets (passets g)) name then asset_exists (passets g) (passetsdb g) name
    else asset_exists (flush_into c (passets g)) (passetsdb g) name;
  view_metadata := metadata_of (passets g) (passetsdb g);
  view_verifier name skip :=
    if skip || shadowed (setNewRestrictedVerifier c) (setNewRestrictedVerifier (passets g)) name
    then verifier_of (passets g) (passetsdb g) name else verifier_of (flush_into c (passets g)) (passetsdb g) name;
  view_frozen name address := frozen (passets g) (passetsdb g) (name, address);
  view_global := global_frozen (passets g) (passetsdb g);
  view_tagged name address := tagged (passets g) (passetsdb g) (name, address)
|}.

Lemma same_assets_cache g g' : same_assets Hash usable g g' -> state_ok Hash usable g' /\ assets_cache_view g' = assets_cache_view g.
Proof. intros (P & D & O); split; [exact O|]; unfold assets_cache_view; now rewrite P, D. Qed.

Lemma metadata_lookup name g : state_ok Hash usable g ->
  let '(r, g') := GetAssetMetaDataIfExists name 0 [] c g in
  same_assets Hash usable g g' /\ (fun d => fst (fst d)) <$> r = metadata_of (passets g) (passetsdb g) name.
Proof.
  intros O; unfold GetAssetMetaDataIfExists, metadata_of.
  destruct (mapReissuedAssetData c !! name); [now split; [apply same_refl|]|].
  destruct (mapReissuedAssetData (passets g) !! name); [now split; [apply same_refl|]|].
  do 2 (destruct (bool_decide _); cbn [orb]; [now split; [apply same_refl|]|]).
  destruct (ToAdd (setNewAssets c) !! name); [now split; [apply same_refl|]|].
  destruct (ToAdd (setNewAssets (passets g)) !! name); [now split; [apply same_refl|]|].
  pose proof (get_sound _ name _ (ok_cache _ _ _ O)) as L.
  destruct (LruCache.Get name (passetsCache g)) as [[d cache]|].
  - destruct L as [-> S]; split; [|reflexivity]; split_and!; try reflexivity; destruct O; split; auto.
  - destruct (ReadAssetData (passetsdb g) name) as [d|] eqn:R; [|now split; [apply same_refl|]].
    split; [|reflexivity]; split; [reflexivity|]; split; [reflexivity|].
    pose proof (ok_names _ _ _ O _ _ R) as N; rewrite N; destruct O; split; auto; cbn.
    apply put_sound; [exact R|]; now apply any_sound.
Qed.

Lemma qualifier_lookup name address g : state_ok Hash usable g -> usable (name, address) ->
  let '(r, g') := CheckForAddressQualifier Hash name address true c g in
  same_assets Hash usable g g' /\ r = tagged (passets g) (passetsdb g) (name, address).
Proof.
  intros O U; unfold CheckForAddressQualifier, tagged.
  destruct (ToRemove (setNewQualifierAddress (passets g)) !! _); [now split; [apply same_refl|]|].
  destruct (ToAdd (setNewQualifierAddress (passets g)) !! _); [now split; [apply same_refl|]|]; cbn [negb andb fst snd].
  destruct (root_added _ _); [now split; [apply same_refl|]|]; cbn [orb].
  destruct (LruCache.Exists _ _) eqn:E.
  - split; [now apply same_refl|]; apply (exists_sound _ _ _ (ok_qualifiers _ _ _ O)) in E as [v R].
    pose proof (R _ U eq_refl) as F; cbn [fst snd] in F; now rewrite F.
  - destruct (ReadFlag _ _) eqn:R; [|now split; [apply same_refl|]].
    split; [|reflexivity]; split_and!; try reflexivity; destruct O; split; auto; cbn.
    apply put_sound; [|now apply any_sound].
    intros k Uk KE; now rewrite (cache_key_inj k (name, address) Uk U KE).
Qed.

Lemma assets_cache_laws : @AssetsLookupLaws assets_state (assets_cache_lookups false Hash c).
Proof.
  refine {| look_ok := state_ok Hash usable; look_view := assets_cache_view; look_usable n a := usable (n, a) |};
    cbn [assets_cache_lookups look_exists look_metadata look_verifier look_restricted look_global look_qualifier].
  - intros name g O; generalize (exists_lookup Hash usable name c g O).
    destruct (CheckIfAssetExists _ _ _ _ _); intros [S ->]; split; [now apply same_assets_cache|reflexivity].
  - intros name g O; generalize (metadata_lookup name g O).
    destruct (GetAssetMetaDataIfExists _ _ _ _ _); intros [S ->]; split; [now apply same_assets_cache|reflexivity].
  - intros name skip g O; generalize (verifier_lookup Hash usable name skip c g O).
    destruct (GetAssetVerifierStringIfExists _ _ _ _); intros [S ->]; split; [now apply same_assets_cache|reflexivity].
  - intros name address g O U; generalize (restriction_lookup Hash usable cache_key_inj name address true c g O U).
    destruct (CheckForAddressRestriction _ _ _ _ _ _); intros [S ->]; split; [now apply same_assets_cache|reflexivity].
  - intros name g O; generalize (global_lookup Hash usable name true c g O).
    destruct (CheckForGlobalRestriction _ _ _ _); intros [S ->]; split; [now apply same_assets_cache|reflexivity].
  - intros name address g O U; generalize (qualifier_lookup name address g O U).
    destruct (CheckForAddressQualifier _ _ _ _ _ _); intros [S ->]; split; [now apply same_assets_cache|reflexivity].
Defined.
End CacheLaws.
