(* ===== verification/TxAssets.v ===== *)
(** The assets of a transaction against the outputs it spends and the state
    of the assets (src/consensus/tx_verify.cpp, [SafeAddAssetTotal] and
    [CheckTxAssets]).

    The state of the check is the cache of unspent outputs, the asset cache
    as [AssetsLookup] sees it, and the two containers the caller passes by
    reference, which keep what was written to them also when the check
    fails. *)

From Stdlib Require Import String.
From S2P Require Import Hasher Sha2 Hashes.
From stdpp Require Import base gmap list fin_maps.
From Stdlib Require Import ZArith Lia.
From S2P Require Import Prelude Serialize Script Standard Transaction Compressor BoolEE AssetTypes AssetNames Coins.
From S2P Require Import LruCache AssetCache AssetTx TxCheck TxInputs AssetRules.
Open Scope Z_scope.

Inductive MessageStatus := READ | UNREAD | EXPIRED | SPAM | HIDDEN | ORPHAN | MSG_ERROR.

Record CMessage := mkMessage {
  msg_out : COutPoint;
  msg_strName : bytes;
  msg_ipfsHash : bytes;
  msg_time : Z;
  msg_nExpiredTime : Z;
  msg_status : MessageStatus;
  msg_nBlockHeight : Z
}.
Definition new_message (out : COutPoint) (strName ipfsHash : bytes) (nExpiredTime time : Z) : CMessage :=
  mkMessage out strName ipfsHash time nExpiredTime UNREAD 0.

(** The sum, where the operands and the sum are amounts. *)
Definition SafeAddAssetTotal (current amount : Z) : option Z :=
  if (current <? 0) || (current >? MAX_MONEY) then None
  else if (amount <? 0) || (amount >? MAX_MONEY) then None
  else if amount >? MAX_MONEY - current then None
  else Some (current + amount).

Section CheckTxAssets.
Context {node : Node} {globals : Globals} `{AssetsLookup G} `{CCoinsView V}.
Variable DynamicUsage : CScript -> Z.
Variable DecodeDestination : bytes -> CTxDestination.

Record assets_check := mkCheck {
  ck_coins : CCoinsViewCache V;
  ck_assets : G;
  vPairReissueAssets : list (bytes * bytes);
  (** A null pointer, or the set, whose order looks at the outpoint only. *)
  setMessages : option (gmap COutPoint CMessage)
}.

Abbreviation txm := (stm assets_check tx_error).

Definition on_coins {A : Type} (m : stm (CCoinsViewCache V) tx_error A) : txm A := fun s =>
  let '(r, coins) := m (ck_coins s) in (r, mkCheck coins (ck_assets s) (vPairReissueAssets s) (setMessages s)).
Definition on_assets {A : Type} (m : G -> A * G) : txm A := fun s =>
  let '(r, g) := m (ck_assets s) in (Ok r, mkCheck (ck_coins s) g (vPairReissueAssets s) (setMessages s)).
(** A contextual check; its error text follows the prefix. *)
Definition contextual {A : Type} (prefix : string) (m : stm G string A) : txm A := fun s =>
  match m (ck_assets s) with
  | (Ok a, g) => (Ok a, mkCheck (ck_coins s) g (vPairReissueAssets s) (setMessages s))
  | (Err strError, g) =>
      (Err (Rejected (DoS 100 (prefix ++ strError))), mkCheck (ck_coins s) g (vPairReissueAssets s) (setMessages s))
  end.
Definition add_reissue (name hash : bytes) : txm unit := fun s =>
  (Ok tt, mkCheck (ck_coins s) (ck_assets s) (vPairReissueAssets s ++ [(name, hash)]) (setMessages s)).
Definition add_message (m : CMessage) : txm unit := fun s =>
  (Ok tt, mkCheck (ck_coins s) (ck_assets s) (vPairReissueAssets s) (set_insert (msg_out m) m <$> setMessages s)).

Definition txid (tx : CTransaction) : bytes := GetHash node_Hash tx.

(** * Inputs *)

Definition input_data := (asset_of_script node_Hash160 EncodeDestination AreTransferScriptsSizeDeployed).

(** Adds one amount to the total of its asset. *)
Definition add_total (totals : gmap bytes Z) (name : bytes) (amount : Z) : option (gmap bytes Z) :=
  total ← SafeAddAssetTotal (default 0 (totals !! name)) amount; Some (<[name := total]> totals).

Fixpoint asset_inputs (ins : list CTxIn) (totalInputs : gmap bytes Z) (mapAddresses : gmap bytes bytes)
  : txm (gmap bytes Z * gmap bytes bytes) :=
  match ins with
  | [] => sret (totalInputs, mapAddresses)
  | txin :: ins' =>
      do! coin := on_coins (access_unspent DynamicUsage (prevout txin)) in
      if negb (is_some (IsAssetScript (scriptPubKey (coin_out coin)))) then asset_inputs ins' totalInputs mapAddresses
      else match input_data (scriptPubKey (coin_out coin)) with
      | None => turn_away 100 "bad-txns-failed-to-get-asset-from-script"
      | Some (assetName, address, nAmount) =>
          if nAmount <? 0 then turn_away 100 "bad-txns-input-asset-amount-negative"
          else if nAmount >? MAX_MONEY then turn_away 100 "bad-txns-input-asset-amount-toolarge"
          else match add_total totalInputs assetName nAmount with
          | None => turn_away 100 "bad-txns-input-asset-totalInputs-toolarge"
          | Some totalInputs =>
              let address := EncodeDestination (DecodeDestination address) in
              let mapAddresses := if AreMessagesDeployed then set_insert assetName address mapAddresses else mapAddresses in
              do! frozen :=
                if IsAssetNameAnRestricted assetName then on_assets (look_restricted assetName address) else sret false in
              if frozen : bool then turn_away 100 "bad-txns-restricted-asset-transfer-from-frozen-address"
              else asset_inputs ins' totalInputs mapAddresses
          end
      end
  end.

(** * Outputs *)

Definition check_null_asset (txout : CTxOut) : txm unit :=
  let script := scriptPubKey txout in
  if negb (IsNullAsset script) then sret tt
  else if negb AreRestrictedAssetsDeployed
  then turn_away 100 "bad-tx-null-asset-data-before-restricted-assets-activated"
  else if IsNullAssetTxDataScript script then contextual "" (ContextualCheckNullAssetTxOut txout)
  else if IsNullGlobalRestrictionAssetTxDataScript script then contextual "" (ContextualCheckGlobalAssetTxOut txout)
  else if IsNullAssetVerifierTxDataScript script then contextual "" (ContextualCheckVerifierAssetTxOut txout)
  else turn_away 100 "bad-tx-null-asset-data-unknown-type".

(** The amount is a multiple of what the asset allows. *)
Definition check_units (transfer : CAssetTransfer) : txm unit :=
  if IsAssetNameAnOwner (at_strName transfer) then
    if negb (at_nAmount transfer =? OWNER_ASSET_AMOUNT) then turn_away 100 "bad-txns-transfer-owner-amount-was-not-1"
    else sret tt
  else
    do! data := on_assets (look_metadata (at_strName transfer)) in
    match data with
    | None => turn_away 100 "bad-txns-transfer-asset-not-exist"
    | Some asset =>
        if negb (bytes_eqb (na_strName asset) (at_strName transfer)) then turn_away 100 "bad-txns-asset-database-corrupted"
        else if negb (CheckAmountWithUnits (at_nAmount transfer) (na_units asset))
        then turn_away 100 "bad-txns-transfer-asset-amount-not-match-units" else sret tt
    end.

(** A message is taken from a transfer to the address the token was first
    spent from. *)
Definition has_message (mapAddresses : gmap bytes bytes) (transfer : CAssetTransfer) (address : bytes) : bool :=
  AreMessagesDeployed && fMessaging &&
  (IsAssetNameAnOwner (at_strName transfer) || IsAssetNameAnMsgChannel (at_strName transfer)) &&
  negb (is_empty (at_message transfer)) &&
  ((at_nExpireTime transfer =? 0) || (at_nExpireTime transfer >? GetTime)) &&
  match mapAddresses !! at_strName transfer with Some from => bytes_eqb from address | None => false end.

Definition check_transfer (tx : CTransaction) (index : Z) (mapAddresses : gmap bytes bytes)
    (fRunningUnitTests : bool) (nBlocktime : Z) (txout : CTxOut) (totalOutputs : gmap bytes Z) : txm (gmap bytes Z) :=
  match TransferAssetFromScript node_Hash160 EncodeDestination AreTransferScriptsSizeDeployed (scriptPubKey txout) with
  | None => turn_away 100 "bad-tx-asset-transfer-bad-deserialize"
  | Some (transfer, address) =>
      if at_nAmount transfer <? 0 then turn_away 100 "bad-txns-transfer-asset-amount-negative"
      else if at_nAmount transfer >? MAX_MONEY then turn_away 100 "bad-txns-transfer-asset-amount-toolarge"
      else
        do! _ := contextual "" (ContextualCheckTransferAsset transfer address) in
        match add_total totalOutputs (at_strName transfer) (at_nAmount transfer) with
        | None => turn_away 100 "bad-txns-transfer-asset-totalOutputs-toolarge"
        | Some totalOutputs =>
            do! _ := if negb fRunningUnitTests then check_units transfer else sret tt in
            do! _ :=
              if has_message mapAddresses transfer address
              then add_message (new_message (mkOutPoint (txid tx) (w32 index)) (at_strName transfer) (at_message transfer)
                     (at_nExpireTime transfer) nBlocktime)
              else sret tt in
            sret totalOutputs
        end
  end.

(** An asset is reissued by one transaction of the mempool at a time. *)
Definition check_chaining (tx : CTransaction) (txout : CTxOut) : txm unit :=
  match ReissueAssetFromScript node_Hash160 EncodeDestination (scriptPubKey txout) with
  | None => turn_away 100 "bad-tx-asset-reissue-bad-deserialize"
  | Some (reissue, _) =>
      match mapReissuedAssets !! ra_strName reissue with
      | Some hash => if negb (bytes_eqb hash (txid tx)) then turn_away 100 "bad-tx-reissue-chaining-not-allowed" else sret tt
      | None => add_reissue (ra_strName reissue) (txid tx)
      end
  end.

Fixpoint asset_outputs (tx : CTransaction) (mapAddresses : gmap bytes bytes) (fRunningUnitTests : bool)
    (nBlocktime : Z) (outs : list CTxOut) (index : Z) (totalOutputs : gmap bytes Z) : txm (gmap bytes Z) :=
  match outs with
  | [] => sret totalOutputs
  | txout :: outs' =>
      let type := IsAssetScript (scriptPubKey txout) in
      if is_some type && negb AreAssetsDeployed then turn_away 100 "bad-txns-is-asset-and-asset-not-active"
      else
        do! _ := check_null_asset txout in
        do! totalOutputs :=
          match type with
          | Some (TX_TRANSFER_ASSET, _, _) =>
              check_transfer tx index mapAddresses fRunningUnitTests nBlocktime txout totalOutputs
          | Some (TX_REISSUE_ASSET, _, _) => do! _ := check_chaining tx txout in sret totalOutputs
          | _ => sret totalOutputs
          end in
        asset_outputs tx mapAddresses fRunningUnitTests nBlocktime outs' (index + 1) totalOutputs
  end.

(** * Issues *)

Fixpoint only_transfers (outs : list CTxOut) : txm unit :=
  match outs with
  | [] => sret tt
  | out :: outs' =>
      match IsAssetScript (scriptPubKey out) with
      | Some (TX_TRANSFER_ASSET, _, _) => only_transfers outs'
      | Some _ => turn_away 100 "bad-txns-bad-asset-transaction"
      | None =>
          if negb (Find (scriptPubKey out) OP_HEMP_ASSET =? 0) then
            if AreRestrictedAssetsDeployed then
              if negb (get (scriptPubKey out) 0 =? OP_HEMP_ASSET)
              then turn_away 100 "bad-txns-op-hemp-asset-not-in-right-script-location" else only_transfers outs'
            else turn_away 100 "bad-txns-bad-asset-script"
          else only_transfers outs'
      end
  end.

Definition issue_restricted (tx : CTransaction) (fCheckMempool : bool) : txm unit :=
  if negb AreRestrictedAssetsDeployed then turn_away 100 "bad-txns-issue-restricted-before-it-is-active"
  else match RestrictedAssetFromTransaction tx with
  | None => turn_away 100 "bad-txns-issue-restricted-serialzation-failed"
  | Some (asset, strAddress) =>
      do! _ := contextual "bad-txns-issue-restricted-contextual" (ContextualCheckNewAsset asset fCheckMempool) in
      match GetVerifierStringFromTx tx with
      | Err (_, strError) => turn_away 100 ("bad-txns-issue-restricted-verifier-search-" ++ strError)
      | Ok verifier => contextual "" (ContextualCheckVerifierString verifier strAddress)
      end
  end.

Definition contextual_issue (tx : CTransaction) (fCheckMempool : bool) : txm unit :=
  let last := scriptPubKey (back (vout tx)) in
  if tx_IsNewAsset tx then
    match AssetFromScript node_Hash160 EncodeDestination last with
    | None => turn_away 100 "bad-txns-issue-serialzation-failed"
    | Some (asset, _) => contextual "" (ContextualCheckNewAsset asset fCheckMempool)
    end
  else if tx_IsReissueAsset tx then
    match ReissueAssetFromScript node_Hash160 EncodeDestination last with
    | None => turn_away 100 "bad-txns-reissue-serialzation-failed"
    | Some (reissue, _) => contextual "bad-txns-reissue-contextual-" (ContextualCheckReissueAsset reissue tx)
    end
  else if tx_IsNewUniqueAsset tx
  then contextual "bad-txns-issue-unique-contextual-" (ContextualCheckUniqueAssetTx (vout tx))
  else if tx_IsNewMsgChannelAsset tx then
    if negb AreMessagesDeployed then turn_away 100 "bad-txns-issue-msgchannel-before-messaging-is-active"
    else match MsgChannelAssetFromTransaction tx with
    | None => turn_away 100 "bad-txns-issue-msgchannel-serialzation-failed"
    | Some (asset, _) =>
        contextual "bad-txns-issue-msgchannel-contextual-" (ContextualCheckNewAsset asset fCheckMempool)
    end
  else if tx_IsNewQualifierAsset tx then
    if negb AreRestrictedAssetsDeployed then turn_away 100 "bad-txns-issue-qualifier-before-it-is-active"
    else match QualifierAssetFromTransaction tx with
    | None => turn_away 100 "bad-txns-issue-qualifier-serialzation-failed"
    | Some (asset, _) => contextual "bad-txns-issue-qualfier-contextual" (ContextualCheckNewAsset asset fCheckMempool)
    end
  else if tx_IsNewRestrictedAsset tx then issue_restricted tx fCheckMempool
  else only_transfers (vout tx).

(** * Nothing is created or burnt *)

(** The names of a [std::map], in order. *)
Definition names (m : gmap bytes Z) : list bytes := fold_right string_insert [] (map fst (map_to_list m)).

Fixpoint compare_totals (totalInputs totalOutputs : gmap bytes Z) (ns : list bytes) : txm unit :=
  match ns with
  | [] => sret tt
  | n :: ns' =>
      match totalInputs !! n with
      | None =>
          turn_away 100 ("bad-tx-inputs-outputs-mismatch Bad Transaction - Trying to create outpoint for asset that you don't have: "
                         ++ text n)
      | Some total =>
          if negb (total =? default 0 (totalOutputs !! n))
          then turn_away 100 ("bad-tx-inputs-outputs-mismatch Bad Transaction - Assets would be burnt " ++ text n)
          else compare_totals totalInputs totalOutputs ns'
      end
  end.

Definition CheckTxAssets (tx : CTransaction) (fCheckMempool fRunningUnitTests : bool) (nBlocktime : Z) : txm unit :=
  do! have := on_coins (ask (fun c => HaveInputs DynamicUsage c tx)) in
  if negb have then turn_away 100 "bad-txns-inputs-missing-or-spent"
  else
    do! inputs := asset_inputs (vin tx) ∅ ∅ in
    let '(totalInputs, mapAddresses) := inputs in
    do! totalOutputs := asset_outputs tx mapAddresses fRunningUnitTests nBlocktime (vout tx) 0 ∅ in
    do! _ := contextual_issue tx fCheckMempool in
    do! _ := compare_totals totalInputs totalOutputs (names totalOutputs) in
    if negb (size totalOutputs =? size totalInputs)%nat
    then turn_away 100 "bad-tx-asset-inputs-size-does-not-match-outputs-size" else sret tt.
End CheckTxAssets.

(** * What an accepted transaction does *)

Section Accepted.
Context {node : Node} {globals : Globals} `{AssetsLookupLaws G} `{CoinsViewLaws V}.
Variable DynamicUsage : CScript -> Z.
Variable DecodeDestination : bytes -> CTxDestination.
Implicit Types (s : @assets_check G V).

Abbreviation cache_ok := (cache_ok DynamicUsage).

(** What the checks read: the unspent outputs and the state of the assets. *)
Definition context_ok s : Prop := cache_ok (ck_coins s) /\ look_ok (ck_assets s).
Definition same_state s s' : Prop :=
  same_coins DynamicUsage (ck_coins s) (ck_coins s') /\ same_view (ck_assets s) (ck_assets s').

Lemma same_state_refl s : context_ok s -> same_state s s.
Proof. intros []; split; [now apply same_coins_refl|now apply same_view_refl]. Qed.
Lemma same_state_trans s s1 s2 : same_state s s1 -> same_state s1 s2 -> same_state s s2.
Proof. intros [] []; split; [eapply same_coins_trans|eapply same_view_trans]; eassumption. Qed.
Lemma same_state_ok s s' : same_state s s' -> context_ok s'.
Proof. intros [[] []]; split; assumption. Qed.

Abbreviation utxo s := (cache_utxo (ck_coins s)).
Abbreviation view s := (look_view (ck_assets s)).
Lemma same_state_eq s s' : same_state s s' -> utxo s' = utxo s /\ view s' = view s.
Proof. intros [[] []]; auto. Qed.

Lemma contextual_ok {A : Type} prefix (m : stm G string A) (P : assets_view -> Prop) s a s' :
  context_ok s -> (forall g', m (ck_assets s) = (Ok a, g') -> same_view (ck_assets s) g' /\ P (view s)) ->
  contextual prefix m s = (Ok a, s') -> same_state s s' /\ P (view s).
Proof.
  intros [O _] L R; unfold contextual in R; destruct (m (ck_assets s)) as [[x|e] g'] eqn:E; [|discriminate].
  injection R as -> <-; destruct (L g' eq_refl) as [S Q]; split; [|exact Q]; split; [now apply same_coins_refl|exact S].
Qed.

Lemma on_assets_ok {A : Type} (m : G -> A * G) (b : A) s a s' :
  context_ok s -> (let '(r, g') := m (ck_assets s) in same_view (ck_assets s) g' /\ r = b) ->
  on_assets m s = (Ok a, s') -> same_state s s' /\ a = b.
Proof.
  intros [O _] L R; unfold on_assets in R; destruct (m (ck_assets s)) as [r g']; destruct L as [S ->].
  injection R as <- <-; split; [|reflexivity]; split; [now apply same_coins_refl|exact S].
Qed.

(** * Totals per asset *)

Definition amount_of (name : bytes) (e : bytes * Z) : Z := if bytes_eqb (fst e) name then snd e else 0.
(** The sum of the amounts of the asset. *)
Definition sum_of (l : list (bytes * Z)) (name : bytes) : Z := sum (map (amount_of name) l).
Definition amounts_ok (l : list (bytes * Z)) : Prop := Forall (fun e => 0 <= snd e <= MAX_MONEY) l.

(** The map holds the totals of the list, each of them an amount. *)
Definition totals_of (m : gmap bytes Z) (l : list (bytes * Z)) : Prop :=
  amounts_ok l /\ forall n,
    (m !! n = None /\ ~ In n (map fst l)) \/ (m !! n = Some (sum_of l n) /\ In n (map fst l) /\ 0 <= sum_of l n <= MAX_MONEY).

Lemma sum_app (l l' : list Z) : sum (l ++ l') = sum l + sum l'.
Proof. induction l as [|x l IH]; cbn; [reflexivity|]; unfold sum in *; cbn; lia. Qed.

Lemma sum_of_app l l' n : sum_of (l ++ l') n = sum_of l n + sum_of l' n.
Proof. unfold sum_of; rewrite map_app; apply sum_app. Qed.

Lemma sum_of_one n x k : sum_of [(n, x)] k = if bytes_eqb n k then x else 0.
Proof. unfold sum_of, amount_of; cbn; lia. Qed.

Lemma sum_of_absent l n : ~ In n (map fst l) -> sum_of l n = 0.
Proof.
  induction l as [|[k x] l IH]; intros A; [reflexivity|]; change ((k, x) :: l) with ([(k, x)] ++ l).
  rewrite sum_of_app, sum_of_one, IH by (intros I; apply A; now right).
  destruct (bytes_eqb k n) eqn:E; [apply bytes_eqb_eq in E; destruct A; now left|reflexivity].
Qed.

Lemma SafeAdd_ok a b t : SafeAddAssetTotal a b = Some t <->
  0 <= a <= MAX_MONEY /\ 0 <= b <= MAX_MONEY /\ t = a + b /\ a + b <= MAX_MONEY.
Proof.
  unfold SafeAddAssetTotal; destruct (Z.ltb_spec a 0), (Z.gtb_spec a MAX_MONEY), (Z.ltb_spec b 0), (Z.gtb_spec b MAX_MONEY),
    (Z.gtb_spec b (MAX_MONEY - a)); cbn [orb]; (split; [intros [=]; subst; lia|]); intros (? & ? & -> & ?);
    first [reflexivity|lia].
Qed.

Lemma totals_empty : totals_of ∅ [].
Proof. split; [constructor|]; intros n; left; split; [apply lookup_empty|intros []]. Qed.

Lemma add_total_ok m l n x m' : totals_of m l -> add_total m n x = Some m' -> totals_of m' (l ++ [(n, x)]).
Proof.
  intros [A T] R; unfold add_total in R; destruct (SafeAddAssetTotal _ _) as [t|] eqn:S; [|discriminate].
  injection R as <-; apply SafeAdd_ok in S; destruct S as (B & X & -> & D).
  assert (D0 : default 0 (m !! n) = sum_of l n).
  { destruct (T n) as [[-> N]|[-> _]]; [now rewrite sum_of_absent|reflexivity]. }
  split; [apply Forall_app; split; [exact A|constructor; [exact X|constructor]]|].
  intros k; rewrite sum_of_app, sum_of_one, map_app, in_app_iff; cbn [map fst].
  destruct (bytes_eqb n k) eqn:E.
  - apply bytes_eqb_eq in E; subst k; right; rewrite lookup_insert_eq, D0 in *; split_and!; auto; [right; now left|lia].
  - assert (NE : n <> k) by (intros K; apply bytes_eqb_eq in K; congruence).
    rewrite lookup_insert_ne, Z.add_0_r by exact NE.
    destruct (T k) as [[-> N]|(-> & I & C)]; [left; split; [reflexivity|]; intros [I|[I|[]]]; auto|right; auto].
Qed.

(** * Inputs *)

Abbreviation address_of := (script_address node_Hash160 EncodeDestination).
(** The address of a spent output, as the check for frozen addresses has it. *)
Definition input_address (script : CScript) : bytes := EncodeDestination (DecodeDestination (address_of script)).

Definition asset_amount (script : CScript) : list (bytes * Z) :=
  match input_data script with Some (n, _, x) => [(n, x)] | None => [] end.
Definition spent_assets (coins : list Coin) : list (bytes * Z) :=
  flat_map (fun coin => asset_amount (scriptPubKey (coin_out coin))) coins.

Lemma input_data_address script n a x : input_data script = Some (n, a, x) -> a = address_of script.
Proof.
  unfold input_data, asset_of_script; destruct (IsAssetScript script) as [[[[] []] i]|] eqn:T; try discriminate;
    unfold AssetFromScript, OwnerAssetFromScript, ReissueAssetFromScript, TransferAssetFromScript, with_address;
    repeat case_match; cbn; try discriminate; try (destruct (parse_at _ _ _); cbn; [|discriminate]); congruence.
Qed.

Lemma input_data_asset script : is_some (IsAssetScript script) = false -> asset_amount script = [].
Proof. unfold asset_amount, input_data, asset_of_script; now destruct (IsAssetScript script). Qed.

(** An asset output that may be spent. *)
Definition may_spend (v : assets_view) (coin : Coin) : Prop :=
  is_some (IsAssetScript (scriptPubKey (coin_out coin))) = true ->
  exists n a x, input_data (scriptPubKey (coin_out coin)) = Some (n, a, x) /\
    (IsAssetNameAnRestricted n = true -> view_frozen v n (input_address (scriptPubKey (coin_out coin))) = false).

Abbreviation spends s := (Forall2 (fun i coin => utxo s !! prevout i = Some coin)).

Lemma coin_read s p coin s1 : cache_ok (ck_coins s) -> on_coins (access_unspent DynamicUsage p) s = (Ok coin, s1) ->
  same_coins DynamicUsage (ck_coins s) (ck_coins s1) /\ ck_assets s1 = ck_assets s /\ utxo s !! p = Some coin.
Proof.
  intros O R; unfold on_coins in R; destruct (access_unspent_spec DynamicUsage (ck_coins s) p O) as (c' & S & E).
  rewrite E in R; destruct (utxo s !! p) as [coin'|]; [|discriminate]; injection R as -> <-; auto.
Qed.

Lemma asset_inputs_totals ins : forall s m addrs l m' addrs' s', cache_ok (ck_coins s) -> totals_of m l ->
  asset_inputs DynamicUsage DecodeDestination ins m addrs s = (Ok (m', addrs'), s') ->
  exists coins, spends s ins coins /\ totals_of m' (l ++ spent_assets coins).
Proof.
  induction ins as [|i ins IH]; intros s m addrs l m' addrs' s' O T R; cbn [asset_inputs] in R.
  { injection R as <- <- <-; exists []; rewrite app_nil_r; auto. }
  apply sbind_ok in R; destruct R as (coin & s1 & E & R); apply coin_read in E as ([O1 EU] & _ & K); [|exact O].
  set (sc := scriptPubKey (coin_out coin)) in *.
  assert (Next : forall s2 m2 addrs2, ck_coins s2 = ck_coins s1 -> totals_of m2 (l ++ asset_amount sc) ->
    asset_inputs DynamicUsage DecodeDestination ins m2 addrs2 s2 = (Ok (m', addrs'), s') ->
    exists coins, spends s (i :: ins) coins /\ totals_of m' (l ++ spent_assets coins)).
  { intros s2 m2 addrs2 S2 T2 R2; destruct (IH s2 m2 addrs2 _ m' addrs' s' ltac:(now rewrite S2) T2 R2) as (coins & L & T3).
    exists (coin :: coins); rewrite S2, EU in L; split; [now constructor|].
    unfold spent_assets; cbn [flat_map]; rewrite app_assoc; exact T3. }
  destruct (is_some (IsAssetScript sc)) eqn:A; cbn [negb] in R.
  2: { eapply Next; [reflexivity| |exact R]; rewrite input_data_asset by exact A; now rewrite app_nil_r. }
  destruct (input_data sc) as [[[n a] x]|] eqn:D; [|discriminate].
  destruct (x <? 0); [discriminate|]; destruct (x >? MAX_MONEY); [discriminate|].
  destruct (add_total m n x) as [m2|] eqn:AT; [|discriminate].
  apply sbind_ok in R; destruct R as (b & s2 & E & R); destruct b; [discriminate|].
  eapply Next; [|unfold asset_amount; rewrite D; eapply add_total_ok; eassumption|exact R].
  destruct (IsAssetNameAnRestricted n); [|injection E as <-; reflexivity].
  unfold on_assets in E; destruct (look_restricted _ _ _); injection E as _ <-; reflexivity.
Qed.

Lemma asset_inputs_ok ins : forall s m addrs m' addrs' s', context_ok s ->
  (forall i coin n a x, In i ins -> utxo s !! prevout i = Some coin -> input_data (scriptPubKey (coin_out coin)) = Some (n, a, x) ->
   IsAssetNameAnRestricted n = true -> look_usable n (input_address (scriptPubKey (coin_out coin)))) ->
  asset_inputs DynamicUsage DecodeDestination ins m addrs s = (Ok (m', addrs'), s') ->
  same_state s s' /\ exists coins, spends s ins coins /\ Forall (may_spend (view s)) coins.
Proof.
  induction ins as [|i ins IH]; intros s m addrs m' addrs' s' O U R; cbn [asset_inputs] in R.
  { injection R as <- <- <-; split; [now apply same_state_refl|]; exists []; auto. }
  apply sbind_ok in R; destruct R as (coin & s1 & E & R); apply coin_read in E as (SC & EG & K); [|apply O].
  assert (S : same_state s s1) by (split; [exact SC|rewrite EG; apply same_view_refl, O]).
  destruct (same_state_eq _ _ S) as [EU EV]; pose proof (same_state_ok _ _ S) as O1.
  set (sc := scriptPubKey (coin_out coin)) in *.
  assert (Next : forall s2 m2 addrs2, same_state s1 s2 ->
    asset_inputs DynamicUsage DecodeDestination ins m2 addrs2 s2 = (Ok (m', addrs'), s') -> may_spend (view s) coin ->
    same_state s s' /\ exists coins, spends s (i :: ins) coins /\ Forall (may_spend (view s)) coins).
  { intros s2 m2 addrs2 S2 R2 F; destruct (same_state_eq _ _ S2) as [EU2 EV2].
    destruct (IH s2 m2 addrs2 m' addrs' s' (same_state_ok _ _ S2)) as (S3 & coins & L & F3); auto.
    { rewrite EU2, EU; intros i0 c0 n0 a0 x0 I0; apply U; now right. }
    split; [eapply same_state_trans; [exact S|eapply same_state_trans; eassumption]|]; exists (coin :: coins).
    rewrite EU2, EU in L; rewrite EV2, EV in F3; split; now constructor. }
  destruct (is_some (IsAssetScript sc)) eqn:A; cbn [negb] in R.
  2: { eapply Next; [now apply same_state_refl|exact R|]; intros A'; unfold sc in A; congruence. }
  destruct (input_data sc) as [[[n a] x]|] eqn:D; [|discriminate]; pose proof (U i coin n a x (or_introl eq_refl) K D) as Uc.
  pose proof (input_data_address _ _ _ _ D); subst a.
  destruct (x <? 0); [discriminate|]; destruct (x >? MAX_MONEY); [discriminate|].
  destruct (add_total m n x) as [m2|]; [|discriminate].
  apply sbind_ok in R; destruct R as (b & s2 & E & R); destruct b; [discriminate|].
  assert (C : same_state s1 s2 /\ (IsAssetNameAnRestricted n = true -> view_frozen (view s) n (input_address sc) = false)).
  { destruct (IsAssetNameAnRestricted n); [|injection E as <-; split; [now apply same_state_refl|discriminate]].
    eapply on_assets_ok in E; [|exact O1|apply restricted_law; [apply O1|exact (Uc eq_refl)]].
    destruct E as [S2 X]; split; [exact S2|]; intros _; rewrite EV in X; now symmetry. }
  destruct C as [S2 C]; eapply Next; [exact S2|exact R|]; intros _; exists n, (address_of sc), x; auto.
Qed.

(** * Outputs *)

Abbreviation transfer_from := (TransferAssetFromScript node_Hash160 EncodeDestination AreTransferScriptsSizeDeployed).

Definition moved_amount (o : CTxOut) : list (bytes * Z) :=
  match transfer_from (scriptPubKey o) with Some (t, _) => [(at_strName t, at_nAmount t)] | None => [] end.
Definition moved_assets (outs : list CTxOut) : list (bytes * Z) := flat_map moved_amount outs.

(** The amount fits the units of the asset. *)
Definition units_ok (v : assets_view) (t : CAssetTransfer) : Prop :=
  if IsAssetNameAnOwner (at_strName t) then at_nAmount t = OWNER_ASSET_AMOUNT
  else exists asset, view_metadata v (at_strName t) = Some asset /\ na_strName asset = at_strName t /\
    CheckAmountWithUnits (at_nAmount t) (na_units asset) = true.

(** What is known of an accepted transfer, and of an accepted output. *)
Definition may_move (v : assets_view) (unit_tests : bool) (o : CTxOut) : Prop :=
  forall t a, transfer_from (scriptPubKey o) = Some (t, a) ->
    0 < at_nAmount t /\ (IsAssetNameAnRestricted (at_strName t) = true -> may_receive v (at_strName t) a) /\
    (unit_tests = false -> units_ok v t).
Record may_create (v : assets_view) (unit_tests : bool) (o : CTxOut) : Prop := {
  mc_null : IsNullAssetTxDataScript (scriptPubKey o) = true -> null_change v o;
  mc_global : IsNullGlobalRestrictionAssetTxDataScript (scriptPubKey o) = true -> global_ok v o;
  mc_verifier : IsNullAssetVerifierTxDataScript (scriptPubKey o) = true ->
    exists verifier, AssetNullVerifierDataFromScript (scriptPubKey o) = Some verifier /\ satisfies v verifier [];
  mc_transfer : may_move v unit_tests o
}.

Lemma no_transfer o : IsTransferAsset (scriptPubKey o) = false -> transfer_from (scriptPubKey o) = None.
Proof.
  unfold IsTransferAsset, TransferAssetFromScript, IsScriptTransferAsset.
  destruct (IsAssetScript _) as [[[[] ?] ?]|]; auto; discriminate.
Qed.

(** The key of a command. *)
Definition command_usable (o : CTxOut) : Prop :=
  forall data address, AssetNullDataFromScript node_Hash160 EncodeDestination (scriptPubKey o) = Some (data, address) ->
  look_usable (nd_asset_name data) address.

Lemma null_output_ok o s u s' : context_ok s -> command_usable o ->
  check_null_asset o s = (Ok u, s') -> same_state s s' /\
  (IsNullAssetTxDataScript (scriptPubKey o) = true -> null_change (view s) o) /\
  (IsNullGlobalRestrictionAssetTxDataScript (scriptPubKey o) = true -> global_ok (view s) o) /\
  (IsNullAssetVerifierTxDataScript (scriptPubKey o) = true ->
    exists verifier, AssetNullVerifierDataFromScript (scriptPubKey o) = Some verifier /\ satisfies (view s) verifier []).
Proof.
  intros O U R; unfold check_null_asset, IsNullAsset in R; destruct (null_kinds (scriptPubKey o)) as [K1 K2].
  destruct (IsNullAssetTxDataScript _); [|destruct (IsNullGlobalRestrictionAssetTxDataScript _);
    [|destruct (IsNullAssetVerifierTxDataScript _)]]; cbn [orb negb] in R.
  4: { injection R as <- <-; split; [now apply same_state_refl|]; split_and!; discriminate. }
  all: destruct AreRestrictedAssetsDeployed; [|discriminate]; cbn [negb] in R.
  - destruct (K1 eq_refl) as [-> ->]; eapply (contextual_ok _ _ (fun v => null_change v o)) in R; [|exact O|].
    + destruct R; split_and!; auto; discriminate.
    + intros g'; apply null_asset_ok; [apply O|exact U].
  - rewrite (K2 eq_refl); eapply (contextual_ok _ _ (fun v => global_ok v o)) in R; [|exact O|].
    + destruct R; split_and!; auto; discriminate.
    + intros g'; apply global_asset_ok, O.
  - eapply (contextual_ok _ _ (fun v => exists verifier, AssetNullVerifierDataFromScript (scriptPubKey o) = Some verifier /\
      satisfies v verifier [])) in R; [|exact O|].
    + destruct R; split_and!; auto; discriminate.
    + intros g'; apply verifier_asset_ok, O.
Qed.

Lemma check_units_ok t s u s' : context_ok s -> check_units t s = (Ok u, s') -> same_state s s' /\ units_ok (view s) t.
Proof.
  intros O R; unfold check_units in R; unfold units_ok; destruct (IsAssetNameAnOwner _).
  - destruct (Z.eqb_spec (at_nAmount t) OWNER_ASSET_AMOUNT); [|discriminate]; injection R as <- <-.
    split; [now apply same_state_refl|assumption].
  - apply sbind_ok in R; destruct R as (d & s1 & E & R); eapply on_assets_ok in E; [|exact O|apply metadata_law, O].
    destruct E as [S ->]; destruct (view_metadata _ _) as [asset|]; [|discriminate].
    destruct (bytes_eqb _ _) eqn:B; [|discriminate]; destruct (CheckAmountWithUnits _ _) eqn:C; [|discriminate].
    injection R as <- <-; apply bytes_eqb_eq in B; split; [exact S|eauto].
Qed.

(** The keys of the qualifiers that a transferred asset asks for. *)
Definition transfer_usable (v : assets_view) (o : CTxOut) : Prop :=
  forall t a verifier, transfer_from (scriptPubKey o) = Some (t, a) -> view_verifier v (at_strName t) true = Some verifier ->
  verifier_usable verifier a.

Lemma check_transfer_ok tx index addrs ut time o m s m' s' : context_ok s ->
  transfer_usable (view s) o ->
  check_transfer tx index addrs ut time o m s = (Ok m', s') ->
  same_state s s' /\ may_move (view s) ut o.
Proof.
  intros O U R; unfold check_transfer in R; unfold may_move; unfold transfer_usable in U.
  destruct (transfer_from (scriptPubKey o)) as [[t a]|] eqn:F; [|discriminate].
  assert (A : a = address_of (scriptPubKey o)).
  { unfold TransferAssetFromScript, with_address in F; destruct (IsScriptTransferAsset _); [|discriminate].
    destruct (parse_at _ _ _); [|discriminate]; now injection F as _ <-. }
  subst a; destruct (_ <? 0); [discriminate|]; destruct (_ >? MAX_MONEY); [discriminate|].
  apply sbind_ok in R; destruct R as (x & s1 & E & R).
  eapply (contextual_ok _ _ (fun v => 0 < at_nAmount t /\
    (IsAssetNameAnRestricted (at_strName t) = true -> may_receive v (at_strName t) (address_of (scriptPubKey o))))) in E;
    [|exact O|].
  2: { intros g' C; apply contextual_transfer_ok in C; [|apply O|intros ver Vr; exact (U _ _ _ eq_refl Vr)]; destruct C as (S & P & ty & TV & C & _).
       split; [exact S|]; split; [exact P|]; intros Q; apply restricted_type in Q; apply C; congruence. }
  destruct E as (S & P & Q); destruct (add_total _ _ _) as [m2|]; [|discriminate].
  apply sbind_ok in R; destruct R as (x2 & s2 & E & R); apply sbind_ok in R; destruct R as (x3 & s3 & E3 & R).
  injection R as <- <-; pose proof (same_state_ok _ _ S) as O1.
  assert (C : same_state s1 s2 /\ (ut = false -> units_ok (view s) t)).
  { destruct ut; cbn [negb] in E; [injection E as _ <-; split; [now apply same_state_refl|discriminate]|].
    apply check_units_ok in E; [|exact O1]; destruct E as [S2 C]; rewrite (proj2 (same_state_eq _ _ S)) in C; auto. }
  destruct C as [S2 C]; assert (S3 : same_state s2 s3).
  { pose proof (same_state_ok _ _ S2) as O2; destruct (has_message _ _ _); injection E3 as _ <-; exact (same_state_refl s2 O2). }
  split; [eapply same_state_trans; [exact S|eapply same_state_trans; eassumption]|].
  intros t' a' [= <- <-]; auto.
Qed.

Lemma asset_outputs_ok tx addrs ut time outs : forall index s m m' s', context_ok s ->
  (forall o, In o outs -> command_usable o /\ transfer_usable (view s) o) ->
  asset_outputs tx addrs ut time outs index m s = (Ok m', s') ->
  same_state s s' /\ Forall (may_create (view s) ut) outs.
Proof.
  induction outs as [|o outs IH]; intros index s m m' s' O U R; cbn [asset_outputs] in R.
  { injection R as <- <-; split; [now apply same_state_refl|auto]. }
  destruct (_ && _); [discriminate|]; apply sbind_ok in R; destruct R as (x & s1 & E & R).
  apply null_output_ok in E; [|exact O|apply U; now left]; destruct E as (S1 & N1 & N2 & N3).
  apply sbind_ok in R; destruct R as (m1 & s2 & E & R); pose proof (same_state_ok _ _ S1) as O1.
  assert (C : same_state s1 s2 /\ may_move (view s) ut o).
  { destruct (same_state_eq _ _ S1) as [_ EV].
    assert (K : IsTransferAsset (scriptPubKey o) = false -> same_state s1 s2 -> same_state s1 s2 /\ may_move (view s) ut o).
    { intros X S; unfold may_move; rewrite (no_transfer _ X); split; auto; discriminate. }
    unfold IsTransferAsset in K; destruct (IsAssetScript (scriptPubKey o)) as [[[[] b] i]|];
      try (injection E as <- <-; apply K; auto; now apply same_state_refl).
    - apply sbind_ok in E; destruct E as (y & s3 & E & E'); injection E' as <- <-; apply K; auto.
      unfold check_chaining in E; destruct (ReissueAssetFromScript _ _ _) as [[r ?]|]; [|discriminate].
      destruct (mapReissuedAssets !! _); [destruct (negb _); [discriminate|]|]; injection E as _ <-; exact (same_state_refl s1 O1).
    - eapply check_transfer_ok in E; [|exact O1|rewrite EV; apply U; now left]; rewrite EV in E; exact E. }
  destruct C as (S2 & C); destruct (same_state_eq _ _ (same_state_trans _ _ _ S1 S2)) as [_ EV].
  destruct (IH _ _ _ _ _ (same_state_ok _ _ S2) ltac:(rewrite EV; intros; apply U; now right) R) as (S3 & F3).
  split; [eapply same_state_trans; [exact S1|eapply same_state_trans; eassumption]|].
  rewrite EV in F3; constructor; [split; auto|exact F3].
Qed.

(** ** Totals, whatever the state *)

Lemma asset_outputs_totals tx addrs ut time outs : forall index s m l m' s', totals_of m l ->
  asset_outputs tx addrs ut time outs index m s = (Ok m', s') -> totals_of m' (l ++ moved_assets outs).
Proof.
  induction outs as [|o outs IH]; intros index s m l m' s' T R; cbn [asset_outputs] in R.
  { injection R as <- <-; cbn; now rewrite app_nil_r. }
  destruct (_ && _); [discriminate|]; apply sbind_ok in R; destruct R as (x & s1 & _ & R).
  apply sbind_ok in R; destruct R as (m1 & s2 & E & R); cbn [moved_assets flat_map]; rewrite app_assoc.
  refine (IH _ _ _ _ _ _ _ R).
  assert (K : IsTransferAsset (scriptPubKey o) = false -> m1 = m -> totals_of m1 (l ++ moved_amount o)).
  { intros X ->; unfold moved_amount; now rewrite (no_transfer _ X), app_nil_r. }
  unfold IsTransferAsset in K; destruct (IsAssetScript (scriptPubKey o)) as [[[[] b] i]|];
    try (injection E as <- <-; now apply K).
  - apply sbind_ok in E; destruct E as (y & s3 & _ & E); injection E as <- <-; now apply K.
  - unfold check_transfer in E; unfold moved_amount; destruct (transfer_from _) as [[t a]|]; [|discriminate].
    destruct (_ <? 0); [discriminate|]; destruct (_ >? MAX_MONEY); [discriminate|].
    apply sbind_ok in E; destruct E as (y & s3 & _ & E); destruct (add_total _ _ _) as [m2|] eqn:AT; [|discriminate].
    do 2 (apply sbind_ok in E; destruct E as (? & ? & _ & E)); injection E as <- <-; eapply add_total_ok; eassumption.
Qed.

(** The comparison says that the maps are equal. *)
Lemma names_in (m : gmap bytes Z) n : In n (names m) <-> is_Some (m !! n).
Proof.
  unfold names; rewrite <- (list_to_map_to_list m) at 2.
  generalize (map_to_list m); intros l.
  induction l as [|[k x] l IH]; cbn [map fst fold_right list_to_map].
  - rewrite lookup_empty; split; [intros []|intros [? [=]]].
  - rewrite string_insert_in, IH; cbn; destruct (decide (k = n)) as [->|NE].
    + rewrite lookup_insert_eq; split; eauto.
    + rewrite lookup_insert_ne by exact NE; split; [intros [->|]; [contradiction|assumption]|auto].
Qed.

Lemma compare_ok mi mo ns : forall s u s', compare_totals mi mo ns s = (Ok u, s') ->
  forall n, In n ns -> mi !! n = Some (default 0 (mo !! n)).
Proof.
  induction ns as [|k ns IH]; intros s u s' R n I; [destruct I|]; cbn [compare_totals] in R.
  destruct (mi !! k) as [t|] eqn:E; [|discriminate]; destruct (Z.eqb_spec t (default 0 (mo !! k))); [|discriminate].
  destruct I as [<-|I]; [congruence|exact (IH _ _ _ R _ I)].
Qed.

Lemma totals_equal mi mo s u s' : compare_totals mi mo (names mo) s = (Ok u, s') -> size mo = size mi -> mi = mo.
Proof.
  intros R S; pose proof (compare_ok _ _ _ _ _ _ R) as C; symmetry.
  assert (Sub : mo ⊆ mi).
  { apply map_subseteq_spec; intros n x L; rewrite (C n) by (apply names_in; eauto); now rewrite L. }
  apply map_eq; intros n; destruct (mo !! n) as [x|] eqn:L; [symmetry; exact (lookup_weaken _ _ _ _ L Sub)|].
  destruct (mi !! n) as [x|] eqn:M; [exfalso|reflexivity].
  assert (mo ⊂ mi) as P.
  { split; [exact Sub|]; intros Sup; rewrite (lookup_weaken _ _ _ _ M Sup) in L; discriminate. }
  apply map_subset_size in P; lia.
Qed.

(** * Issues *)

Abbreviation asset_from := (AssetFromScript node_Hash160 EncodeDestination).
Abbreviation reissue_from := (ReissueAssetFromScript node_Hash160 EncodeDestination).

Definition issue_context (v : assets_view) (tx : CTransaction) (mp : bool) : Prop :=
  let last := scriptPubKey (back (vout tx)) in
  if tx_IsNewAsset tx then exists asset a, asset_from last = Some (asset, a) /\ may_issue v asset mp
  else if tx_IsReissueAsset tx then exists r a, reissue_from last = Some (r, a) /\ may_reissue v r tx
  else if tx_IsNewUniqueAsset tx then
    forall o, In o (vout tx) -> is_some (IsScriptNewUniqueAsset (scriptPubKey o)) = true ->
    exists asset a, asset_from (scriptPubKey o) = Some (asset, a) /\ may_issue v asset false
  else if tx_IsNewMsgChannelAsset tx then
    exists asset a, MsgChannelAssetFromTransaction tx = Some (asset, a) /\ may_issue v asset mp
  else if tx_IsNewQualifierAsset tx then
    exists asset a, QualifierAssetFromTransaction tx = Some (asset, a) /\ may_issue v asset mp
  else if tx_IsNewRestrictedAsset tx then
    exists asset a verifier, RestrictedAssetFromTransaction tx = Some (asset, a) /\ may_issue v asset mp /\
      GetVerifierStringFromTx tx = Ok verifier /\ satisfies v verifier a
  else True.

Lemma only_transfers_state outs : forall s u s', only_transfers outs s = (Ok u, s') -> s' = s.
Proof.
  induction outs as [|o outs IH]; intros s u s' R; cbn [only_transfers] in R; [now injection R|].
  ran R; eauto.
Qed.

(** The keys of the qualifiers that a new or reissued asset asks for. *)
Definition issue_usable (v : assets_view) (tx : CTransaction) : Prop :=
  (forall verifier, GetVerifierStringFromTx tx = Ok verifier -> verifier_usable verifier (address_of (scriptPubKey (back (vout tx))))) /\
  (forall r a verifier, reissue_from (scriptPubKey (back (vout tx))) = Some (r, a) ->
   view_verifier v (ra_strName r) false = Some verifier -> verifier_usable verifier a).

Lemma issue_restricted_ok tx mp s u s' : context_ok s -> issue_usable (view s) tx ->
  issue_restricted tx mp s = (Ok u, s') -> same_state s s' /\
  exists asset a verifier, RestrictedAssetFromTransaction tx = Some (asset, a) /\ may_issue (view s) asset mp /\
    GetVerifierStringFromTx tx = Ok verifier /\ satisfies (view s) verifier a.
Proof.
  intros O U R; unfold issue_restricted in R; destruct AreRestrictedAssetsDeployed; [|discriminate]; cbn [negb] in R.
  destruct (RestrictedAssetFromTransaction tx) as [[asset a]|] eqn:F; [|discriminate].
  assert (A : a = address_of (scriptPubKey (back (vout tx)))).
  { unfold RestrictedAssetFromTransaction, RestrictedAssetFromScript, asset_at, with_address in F.
    destruct (negb _); [discriminate|]; destruct (IsScriptNewRestrictedAsset _); [|discriminate].
    destruct (parse_at _ _ _); [|discriminate]; now injection F. }
  apply sbind_ok in R; destruct R as (x & s1 & E & R).
  eapply (contextual_ok _ _ (fun v => may_issue v asset mp)) in E; [|exact O|intros g'; apply new_asset_ok, O].
  destruct E as [S M]; destruct (GetVerifierStringFromTx tx) as [verifier|[? ?]] eqn:GV; [|discriminate].
  eapply (contextual_ok _ _ (fun v => satisfies v verifier a)) in R; [|eapply same_state_ok; eassumption|].
  - destruct R as [S2 Q]; rewrite (proj2 (same_state_eq _ _ S)) in Q; split; [eapply same_state_trans; eassumption|eauto 8].
  - intros g'; apply verifier_string_ok; [apply (same_state_ok _ _ S)|subst a; exact (proj1 U _ GV)].
Qed.

Lemma contextual_issue_ok tx mp s u s' : context_ok s ->
  issue_usable (view s) tx ->
  contextual_issue tx mp s = (Ok u, s') -> same_state s s' /\ issue_context (view s) tx mp.
Proof.
  intros O U R; unfold contextual_issue in R; unfold issue_context; cbv zeta in *.
  assert (New : forall prefix asset, contextual prefix (ContextualCheckNewAsset asset mp) s = (Ok u, s') ->
    same_state s s' /\ may_issue (view s) asset mp).
  { intros prefix asset E; eapply (contextual_ok _ _ (fun v => may_issue v asset mp)) in E;
      [exact E|exact O|intros g'; apply new_asset_ok, O]. }
  destruct (tx_IsNewAsset tx).
  { destruct (asset_from _) as [[asset a]|]; [|discriminate]; apply New in R as []; eauto. }
  destruct (tx_IsReissueAsset tx) eqn:RE.
  { destruct (reissue_from _) as [[r a]|] eqn:F; [|discriminate].
    eapply (contextual_ok _ _ (fun v => may_reissue v r tx)) in R; [destruct R; eauto|exact O|].
    intros g'; apply reissue_ok; [apply O|]; unfold ReissueAssetFromTransaction; rewrite RE; cbn [negb]; rewrite F.
    intros d a' ver [= <- <-] [Vr|Vr]; [|exact (proj2 U _ _ _ F Vr)].
    pose proof (proj1 U _ Vr) as K; unfold ReissueAssetFromScript, with_address in F; destruct (IsScriptReissueAsset _); [|discriminate].
    destruct (parse_at _ _ _); [|discriminate]; injection F as _ <-; exact K. }
  destruct (tx_IsNewUniqueAsset tx).
  { eapply (contextual_ok _ _ (fun v => forall o, In o (vout tx) -> is_some (IsScriptNewUniqueAsset (scriptPubKey o)) = true ->
      exists asset a, asset_from (scriptPubKey o) = Some (asset, a) /\ may_issue v asset false)) in R; [exact R|exact O|].
    intros g'; apply contextual_uniques_ok, O. }
  destruct (tx_IsNewMsgChannelAsset tx).
  { destruct (negb _); [discriminate|]; destruct (MsgChannelAssetFromTransaction tx) as [[asset a]|]; [|discriminate].
    apply New in R as []; eauto. }
  destruct (tx_IsNewQualifierAsset tx).
  { destruct (negb _); [discriminate|]; destruct (QualifierAssetFromTransaction tx) as [[asset a]|]; [|discriminate].
    apply New in R as []; eauto. }
  destruct (tx_IsNewRestrictedAsset tx).
  - eapply issue_restricted_ok; eassumption.
  - apply only_transfers_state in R; subst; split; [now apply same_state_refl|exact Logic.I].
Qed.

(** * Both checks together *)







(** ** The parts of the check *)

Abbreviation CheckTxAssets := (CheckTxAssets DynamicUsage DecodeDestination).

Lemma have_inputs_ok tx s b s1 : cache_ok (ck_coins s) ->
  on_coins (ask (fun c => HaveInputs DynamicUsage c tx)) s = (Ok b, s1) ->
  same_coins DynamicUsage (ck_coins s) (ck_coins s1) /\ ck_assets s1 = ck_assets s.
Proof.
  intros O R; unfold on_coins, ask, HaveInputs in R; destruct (IsCoinBase tx); cbn [negb] in R.
  - injection R as _ <-; split; [now apply same_coins_refl|reflexivity].
  - destruct (have_inputs_spec DynamicUsage (vin tx) (ck_coins s) O) as (c' & S & E); rewrite E in R.
    injection R as _ <-; auto.
Qed.

(** The steps of an accepted transaction. *)
Lemma CheckTxAssets_steps tx mp ut time s u s' : cache_ok (ck_coins s) -> CheckTxAssets tx mp ut time s = (Ok u, s') ->
  exists s1 mi addrs s2 mo s3 s4, same_coins DynamicUsage (ck_coins s) (ck_coins s1) /\ ck_assets s1 = ck_assets s /\
    asset_inputs DynamicUsage DecodeDestination (vin tx) ∅ ∅ s1 = (Ok (mi, addrs), s2) /\
    asset_outputs tx addrs ut time (vout tx) 0 ∅ s2 = (Ok mo, s3) /\
    contextual_issue tx mp s3 = (Ok tt, s4) /\ mi = mo.
Proof.
  intros O R; unfold TxAssets.CheckTxAssets in R; apply sbind_ok in R; destruct R as (b & s1 & E & R).
  apply have_inputs_ok in E as [S EG]; [|exact O]; destruct b; [|discriminate]; cbn [negb] in R.
  apply sbind_ok in R; destruct R as ([mi addrs] & s2 & E & R); apply sbind_ok in R; destruct R as (mo & s3 & E1 & R).
  apply sbind_ok in R; destruct R as ([] & s4 & E2 & R); apply sbind_ok in R; destruct R as (x & s5 & E3 & R).
  destruct (Nat.eqb_spec (size mo) (size mi)); [|discriminate].
  exists s1, mi, addrs, s2, mo, s3, s4; split_and!; auto; eapply totals_equal; eassumption.
Qed.

(** The keys that the check asks the cache about are told from each other:
    the restricted assets spent, the commands, and the qualifiers of the
    verifier strings concerned, each at its address. *)
Record keys_usable s (tx : CTransaction) : Prop := {
  ku_inputs i coin n a x : In i (vin tx) -> utxo s !! prevout i = Some coin ->
    input_data (scriptPubKey (coin_out coin)) = Some (n, a, x) -> IsAssetNameAnRestricted n = true ->
    look_usable n (input_address (scriptPubKey (coin_out coin)));
  ku_commands o : In o (vout tx) -> command_usable o;
  ku_transfers o : In o (vout tx) -> transfer_usable (view s) o;
  ku_issue : issue_usable (view s) tx
}.

Lemma CheckTxAssets_view tx mp ut time s u s' : context_ok s -> keys_usable s tx ->
  CheckTxAssets tx mp ut time s = (Ok u, s') ->
  (exists coins, spends s (vin tx) coins /\ Forall (may_spend (view s)) coins) /\
  Forall (may_create (view s) ut) (vout tx) /\ issue_context (view s) tx mp.
Proof.
  intros O [UI UC UT US] R; apply CheckTxAssets_steps in R as (s1 & mi & addrs & s2 & mo & s3 & s4 & SC & EG & E & E1 & E2 & _);
    [|apply O].
  assert (S1 : same_state s s1) by (split; [exact SC|rewrite EG; apply same_view_refl, O]).
  destruct (same_state_eq _ _ S1) as [EU EV].
  apply asset_inputs_ok in E; [|eapply same_state_ok; eassumption|rewrite EU; exact UI].
  destruct E as (S2 & coins & L & F); pose proof (same_state_trans _ _ _ S1 S2) as S12.
  apply asset_outputs_ok in E1;
    [|eapply same_state_ok; eassumption|rewrite (proj2 (same_state_eq _ _ S12)); auto]; destruct E1 as (S3 & F3).
  pose proof (same_state_trans _ _ _ S12 S3) as S13.
  apply contextual_issue_ok in E2; [|eapply same_state_ok; eassumption|now rewrite (proj2 (same_state_eq _ _ S13))].
  destruct E2 as (_ & IC); rewrite (proj2 (same_state_eq _ _ S12)) in F3; rewrite (proj2 (same_state_eq _ _ S13)) in IC.
  rewrite EU in L; rewrite EV in F; split_and!; eauto.
Qed.

(** The transaction spends an output that holds the token. *)
Definition spends_token (coins : list Coin) (token : bytes) : Prop :=
  exists coin a x, In coin coins /\ input_data (scriptPubKey (coin_out coin)) = Some (token, a, x).

Lemma totals_conserved tx mp ut time s u s' : cache_ok (ck_coins s) -> CheckTxAssets tx mp ut time s = (Ok u, s') ->
  exists coins m, spends s (vin tx) coins /\ totals_of m (spent_assets coins) /\ totals_of m (moved_assets (vout tx)).
Proof.
  intros O R; apply CheckTxAssets_steps in R as (s1 & mi & addrs & s2 & mo & s3 & s4 & [O1 EU] & _ & E & E1 & _ & <-);
    [|exact O].
  apply (asset_inputs_totals _ _ _ _ [] _ _ _ O1 totals_empty) in E; destruct E as (coins & L & T).
  apply (asset_outputs_totals _ _ _ _ _ _ _ _ [] _ _ totals_empty) in E1; rewrite EU in L; eauto.
Qed.

Lemma token_spent tx mp ut time s u s' coins token : cache_ok (ck_coins s) -> CheckTxAssets tx mp ut time s = (Ok u, s') ->
  spends s (vin tx) coins -> has_transfer token (vout tx) = true -> spends_token coins token.
Proof.
  intros O R L K; destruct (totals_conserved _ _ _ _ _ _ _ O R) as (coins' & m & L' & [_ T] & [_ T']).
  rewrite (known_unique _ _ _ _ L' L) in T; clear coins' L'.
  assert (I : In token (map fst (moved_assets (vout tx)))).
  { unfold has_transfer in K; apply existsb_exists in K; destruct K as (o & I & K).
    destruct (transfer_from (scriptPubKey o)) as [[t a]|] eqn:F; [|discriminate]; apply bytes_eqb_eq in K.
    apply in_map_iff; exists (at_strName t, at_nAmount t); split; [auto|].
    apply in_flat_map; exists o; split; [exact I|]; unfold moved_amount; rewrite F; now left. }
  destruct (T' token) as [[_ N]|(E & _)]; [contradiction|]; destruct (T token) as [[E' _]|(_ & I' & _)]; [congruence|].
  apply in_map_iff in I'; destruct I' as ([n x] & <- & I'); apply in_flat_map in I'; destruct I' as (coin & IC & I').
  unfold asset_amount in I'; destruct (input_data _) as [[[n' a] x']|] eqn:D; [|destruct I'].
  destruct I' as [[= <- <-]|[]]; unfold spends_token; eauto.
Qed.

(** C6: an accepted transaction spends existing outputs, and of every asset
    it moves on exactly what it spends: the sum of the transfers is the sum of
    the inputs, both taken without overflow and within the money limit. *)
Theorem Assets_conserved (tx : CTransaction) (mp ut : bool) (time : Z) s u s' :
  cache_ok (ck_coins s) -> CheckTxAssets tx mp ut time s = (Ok u, s') ->
  exists coins, spends s (vin tx) coins /\
    amounts_ok (spent_assets coins) /\ amounts_ok (moved_assets (vout tx)) /\
    forall name, sum_of (moved_assets (vout tx)) name = sum_of (spent_assets coins) name /\
      0 <= sum_of (spent_assets coins) name <= MAX_MONEY /\
      (In name (map fst (moved_assets (vout tx))) <-> In name (map fst (spent_assets coins))).
Proof.
  intros O R; destruct (totals_conserved _ _ _ _ _ _ _ O R) as (coins & m & L & [A T] & [A' T']).
  exists coins; split_and!; auto; intros n.
  destruct (T n) as [[E N]|(E & I & B)], (T' n) as [[E' N']|(E' & I' & B')]; try congruence.
  - rewrite !sum_of_absent by assumption; unfold MAX_MONEY, COIN; tauto || (split_and!; auto; try lia; tauto).
  - rewrite E in E'; injection E' as <-; tauto.
Qed.

(** C20: a transaction accepted by both checks spends the tokens its commands
    and issues need: the owner token of the restricted asset it freezes or
    unfreezes, the qualifier it adds or removes, the owner token of the asset
    it reissues, and the token of the parent of an asset it issues, except for
    the message channels and sub-qualifiers that are issued like plain
    assets. *)
Theorem Tokens_spent (tx : CTransaction) (dup mempool block mp ut : bool) (time : Z) s u s' :
  cache_ok (ck_coins s) -> CheckTransaction tx dup mempool block = Ok tt ->
  CheckTxAssets tx mp ut time s = (Ok u, s') ->
  exists coins, spends s (vin tx) coins /\
    (forall o data address, In o (vout tx) ->
     AssetNullDataFromScript node_Hash160 EncodeDestination (scriptPubKey o) = Some (data, address) ->
     spends_token coins (command_token (nd_asset_name data))) /\
    (forall o data, In o (vout tx) -> GlobalAssetNullDataFromScript (scriptPubKey o) = Some data ->
     spends_token coins (skipn 1 (nd_asset_name data) ++ OWNER_TAG)) /\
    (forall o r address, In o (vout tx) -> reissue_from (scriptPubKey o) = Some (r, address) ->
     spends_token coins (reissue_token (ra_strName r))) /\
    (forall o a address, In o (vout tx) -> asset_from (scriptPubKey o) = Some (a, address) ->
     exists t, IsAssetNameValid (na_strName a) = Ok t /\
       ((t = MSGCHANNEL \/ t = SUB_QUALIFIER) /\ tx_IsNewAsset tx = true \/
        match authority (na_strName a) t with Some token => spends_token coins token | None => True end)).
Proof.
  intros O C R; destruct (totals_conserved _ _ _ _ _ _ _ O R) as (coins & _ & L & _); exists coins.
  assert (K := fun token => token_spent _ _ _ _ _ _ _ coins token O R L); destruct (issuance_ok _ _ _ _ C) as (IA & IR & _).
  split_and!; auto.
  - intros o data addr I F; apply K; exact (proj2 (null_command_ok _ _ _ _ _ _ _ C I F)).
  - intros o data I F; apply K; exact (proj2 (global_command_ok _ _ _ _ _ _ C I F)).
  - intros o r addr I F; apply K; exact (proj2 (proj2 (IR _ _ _ I F))).
  - intros o a addr I F; destruct (IA _ _ _ I F) as (t & TV & _ & _ & A); exists t; split; [exact TV|].
    unfold authorised in A; destruct A as [A|A]; [right; destruct (authority _ _); auto|auto].
Qed.

(** C21: over a state of the assets that answers as its view says, an accepted
    transaction spends no restricted asset from a frozen address, moves one
    only while it is not globally frozen and only to an address with the
    qualifiers its verifier string asks for, transfers amounts that fit the
    units of the asset, and sets or clears only tags and restrictions that are
    not already so.  The hashes that serve as keys of the cache are supposed
    to tell the names and addresses apart that the check looks up. *)
Theorem Restrictions_enforced (tx : CTransaction) (mp ut : bool) (time : Z) s u s' :
  context_ok s -> keys_usable s tx -> CheckTxAssets tx mp ut time s = (Ok u, s') ->
  (exists coins, spends s (vin tx) coins /\ Forall (may_spend (view s)) coins) /\
  Forall (may_create (view s) ut) (vout tx).
Proof. intros O U R; destruct (CheckTxAssets_view _ _ _ _ _ _ _ O U R) as (A & B & _); auto. Qed.

End Accepted.

(** * Examples *)

#[local] Instance example_globals : Globals := Build_Globals false true (fun _ => false) ∅ 1000.

(** The keys of a cache with the node's double SHA-256. *)
Definition sha256d (b : bytes) : bytes := Hashes.Hash (zeros 64) [b].
Definition example_keys : list name_address :=
  [(str "$ABC"%string, example_burn 12); (str "#KYC"%string, example_burn 11)].
Definition known_key (k : name_address) : Prop := In k example_keys.

Lemma known_keys (k k' : name_address) : known_key k -> known_key k' -> cache_key sha256d k = cache_key sha256d k' -> k = k'.
Proof.
  unfold known_key, example_keys; intros [<-|[<-|[]]] [<-|[<-|[]]]; try reflexivity;
    intros E; apply (f_equal (fun l => nth 0 l 0)) in E; vm_compute in E; discriminate.
Qed.

#[local] Instance example_lookups : AssetsLookup assets_state := assets_cache_lookups false sha256d empty_assets.
#[local] Instance example_lookups_laws : AssetsLookupLaws assets_state :=
  assets_cache_laws sha256d empty_assets known_key known_keys.

(** The qualifier #KYC is issued, and an address has it. *)
Definition kyc_assets : assets_state :=
  mkState (AddQualifierAddress (str "#KYC"%string) (example_burn 11) ADD_QUALIFIER
             (snd (fst (AddNewAsset false false (mkNewAsset (str "#KYC"%string) COIN 0 0 0 []) (example_burn 11) 3 [] no_assets empty_assets))))
    (lru_new 10) (lru_new 10) (lru_new 10) (lru_new 10) (lru_new 10) ∅.

Lemma kyc_assets_ok : state_ok sha256d known_key kyc_assets.
Proof. split; try apply lru_new_sound; intros n d; unfold ReadAssetData; cbn [passetsdb kyc_assets]; now rewrite lookup_empty. Qed.

Definition token_coin : Coin :=
  mkCoin (mkTxOut 0 (ConstructTransfer (mkTransfer (str "ABC!"%string) COIN [] 0) example_key)) false 5.
Definition state_with (coin : Coin) : assets_check := mkCheck (new_cache (spent_db coin)) kyc_assets [] None.



Abbreviation run tx coin := (CheckTxAssets ex_usage CKeyID tx true false 0 (state_with coin)).

Lemma state_ok_with coin : IsSpent coin = false -> context_ok ex_usage (state_with coin).
Proof. intros S; split; [exact (proj1 (spent_cache coin S))|exact kyc_assets_ok]. Qed.

Lemma freeze_runs : fst (run freeze_tx token_coin) = Ok tt.
Proof. vm_compute; reflexivity. Qed.

Lemma token_input i coin n a x : cache_utxo (ck_coins (state_with token_coin)) !! prevout i = Some coin ->
  input_data (scriptPubKey (coin_out coin)) = Some (n, a, x) -> IsAssetNameAnRestricted n = true ->
  look_usable n (input_address CKeyID (scriptPubKey (coin_out coin))).
Proof.
  cbn [ck_coins state_with]; rewrite (proj2 (spent_cache token_coin eq_refl)); intros K.
  apply lookup_singleton_Some in K; destruct K as [_ <-]; intros D Q; exfalso; vm_compute in D.
  injection D as <- _ _; discriminate.
Qed.

Lemma Assets_conserved_witness : exists coins, sum_of (spent_assets coins) (str "ABC!"%string) = COIN.
Proof.
  destruct (run freeze_tx token_coin) as [r s'] eqn:R; pose proof freeze_runs as E; rewrite R in E; cbn [fst] in E; subst r.
  destruct (Assets_conserved ex_usage CKeyID _ _ _ _ _ _ _ (proj1 (state_ok_with token_coin eq_refl)) R)
    as (coins & _ & _ & _ & C).
  exists coins; rewrite <- (proj1 (C _)); vm_compute; reflexivity.
Defined.

Lemma Tokens_spent_witness : exists coins, spends_token coins (str "ABC!"%string).
Proof.
  destruct (run freeze_tx token_coin) as [r s'] eqn:R; pose proof freeze_runs as E; rewrite R in E; cbn [fst] in E; subst r.
  destruct (Tokens_spent ex_usage CKeyID freeze_tx true true true _ _ _ _ _ _ (proj1 (state_ok_with token_coin eq_refl))
    freeze_accepted R) as (coins & _ & C & _).
  exists coins; exact (C (back (vout freeze_tx)) (mkNullData (str "$ABC"%string) 1) (example_burn 12)
    (or_intror (or_introl eq_refl)) ltac:(vm_compute; reflexivity)).
Defined.

Lemma Restrictions_enforced_witness :
  Forall (may_create (look_view (ck_assets (state_with token_coin))) false) (vout freeze_tx).
Proof.
  destruct (run freeze_tx token_coin) as [r s'] eqn:R; pose proof freeze_runs as E; rewrite R in E; cbn [fst] in E; subst r.
  refine (proj2 (Restrictions_enforced ex_usage CKeyID _ _ _ _ _ _ _ (state_ok_with token_coin eq_refl) _ R)).
  split; [intros i coin n a x _; apply token_input| | |split].
  - intros o [<-|[<-|[]]] d a D; vm_compute in D; [discriminate|injection D as <- <-; now left].
  - intros o [<-|[<-|[]]] t a v D Q; exfalso; vm_compute in D; [|discriminate]; injection D as <- <-; vm_compute in Q; discriminate.
  - intros v D; exfalso; vm_compute in D; discriminate.
  - intros r a v D; exfalso; vm_compute in D; discriminate.
Defined.

