(* ===== verification/Connect.v ===== *)
(** Applying a block to the unspent outputs and the assets, and undoing it:
    [AddCoins] with an asset cache (src/coins.cpp), [UpdateCoins],
    [ApplyTxInUndo] and [DisconnectBlock] (src/validation.cpp).

    The state is the coin cache, the asset cache of the block and the global
    asset objects of [AssetCache].  A transaction is undone from the coins its
    inputs spent, the undo data of the block; what was read from disk, undo
    data and the undo data of reissued assets, are arguments.  Every caller
    in the node passes an asset cache.  The address and spent indexes, the
    message store and the wallet are not part of the state. *)

From Stdlib Require Import String.
From stdpp Require Import base gmap list fin_maps.
From Stdlib Require Import ZArith Lia.
From S2P Require Import Prelude Serialize Script Standard Transaction Compressor AssetTypes AssetNames Coins.
From S2P Require Import LruCache AssetCache AssetTx TxCheck TxInputs.
Open Scope Z_scope.

(** * State *)

(** What a parse that fails leaves in its output arguments, and an [int] that
    is declared and not set: the checks on the block make sure that the data
    parses, and the code does not look at the results. *)
Class Unparsed := {
  left_asset : CScript -> CNewAsset * bytes;
  left_owner : CScript -> bytes * bytes;
  left_reissue : CScript -> CReissueAsset * bytes;
  left_null_data : CScript -> CNullAssetTxData * bytes;
  left_global : CScript -> CNullAssetTxData;
  left_verifier : CScript -> bytes;
  left_height : Z
}.

Inductive DisconnectResult := DISCONNECT_OK | DISCONNECT_UNCLEAN | DISCONNECT_FAILED.

(** Why an update of the coins stops: an exception of [AddCoin], or an input
    that is not there. *)
Inductive update_error := CannotAdd (e : add_error) | NotSpent.

Section Connect.
Context {node : Node} {unparsed : Unparsed} `{CCoinsView V}.
Variable DynamicUsage : CScript -> Z.
Variable DecodeDestination : bytes -> CTxDestination.
Variable fAssetIndex : bool.
Variable fReindex : bool.

Record chain_state := mkChain {
  coins : CCoinsViewCache V;
  assets : CAssetsCache;
  globals : assets_state
}.

Definition with_coins (c : CCoinsViewCache V) (st : chain_state) : chain_state := mkChain c (assets st) (globals st).
Definition with_assets (c : CAssetsCache) (g : assets_state) (st : chain_state) : chain_state := mkChain (coins st) c g.

Abbreviation assets_pair := (CAssetsCache * assets_state)%type.

(** A change that looks nothing up. *)
Definition change (f : CAssetsCache -> CAssetsCache) (s : assets_pair) : assets_pair := (f s.1, s.2).

(** * Assets of a transaction that is connected *)

Definition null_asset : CNewAsset := mkNewAsset [] 0 MAX_UNIT 0 0 [].

Definition add_new_asset (asset : CNewAsset * bytes) (height : Z) (blockHash : bytes) (s : assets_pair) : assets_pair :=
  let '(_, c, g) := AddNewAsset fAssetIndex fReindex asset.1 asset.2 height blockHash s.2 s.1 in (c, g).

(** The first output with a verifier string. *)
Definition verifier_output (outs : list CTxOut) : option CScript :=
  List.find IsNullAssetVerifierTxDataScript (map scriptPubKey outs).

(** The verifier string of a reissued restricted asset: the old one, for the
    undo data, when there is a new one. *)
Definition add_reissue_verifier (tx : CTransaction) (name : bytes) (s : assets_pair) : option bytes * assets_pair :=
  match verifier_output (vout tx) ≫= AssetNullVerifierDataFromScript with
  | None => (None, s)
  | Some verifier =>
      let '(old, g) := GetAssetVerifierStringIfExists name false s.1 s.2 in
      (Some (default [] old), (AddRestrictedVerifier name verifier s.1, g))
  end.

Definition add_reissue_asset (tx : CTransaction) (txid : bytes) (s : assets_pair)
  : option (bytes * CBlockAssetUndo) * assets_pair :=
  let script := scriptPubKey (back (vout tx)) in
  let '(reissue, strAddress) := default (left_reissue script) (ReissueAssetFromTransaction tx) in
  let '(found, g) := GetAssetMetaDataIfExists (ra_strName reissue) left_height (repeat 0 32) s.1 s.2 in
  let asset := match found with Some (a, _, _) => a | None => null_asset end in
  let '(_, c, g) := AddReissueAsset fAssetIndex left_height reissue strAddress
                      (mkOutPoint txid (Z.of_nat (length (vout tx)) - 1)) g s.1 in
  let fIPFSChanged := negb (is_empty_string (ra_strIPFSHash reissue)) in
  let fUnitsChanged := negb (ra_nUnits reissue =? -1) in
  let '(old, s) :=
    if AssetType_eqb RESTRICTED (type_of_name (na_strName asset)) then add_reissue_verifier tx (na_strName asset) (c, g)
    else (None, (c, g)) in
  (if fIPFSChanged || fUnitsChanged || is_some old then
     Some (ra_strName reissue, mkAssetUndo fIPFSChanged fUnitsChanged (na_strIPFSHash asset) (na_units asset)
                                 (is_some old) (default [] old))
   else None, s).

Definition add_unique_asset (height : Z) (blockHash : bytes) (s : assets_pair) (out : CTxOut) : assets_pair :=
  let script := scriptPubKey out in
  if is_some (IsScriptNewUniqueAsset script) then
    add_new_asset (default (left_asset script) (AssetFromScript node_Hash160 EncodeDestination script)) height blockHash s
  else s.

(** What the transaction issues; the undo data is for a reissued asset. *)
Definition connect_issue (tx : CTransaction) (txid : bytes) (height : Z) (blockHash : bytes) (s : assets_pair)
  : option (bytes * CBlockAssetUndo) * assets_pair :=
  let script := scriptPubKey (back (vout tx)) in
  if tx_IsNewAsset tx then
    let '(ownerName, ownerAddress) :=
      default (left_owner (scriptPubKey (before_back (vout tx)))) (OwnerFromTransaction tx) in
    let s := add_new_asset (default (left_asset script) (AssetFromTransaction tx)) height blockHash s in
    (None, change (AddOwnerAsset fAssetIndex ownerName ownerAddress) s)
  else if tx_IsReissueAsset tx then add_reissue_asset tx txid s
  else if tx_IsNewUniqueAsset tx then (None, fold_left (add_unique_asset height blockHash) (vout tx) s)
  else if tx_IsNewMsgChannelAsset tx then
    (None, add_new_asset (default (left_asset script) (MsgChannelAssetFromTransaction tx)) height blockHash s)
  else if tx_IsNewQualifierAsset tx then
    (None, add_new_asset (default (left_asset script) (QualifierAssetFromTransaction tx)) height blockHash s)
  else if tx_IsNewRestrictedAsset tx then
    let asset := default (left_asset script) (RestrictedAssetFromTransaction tx) in
    let s := add_new_asset asset height blockHash s in
    (None, match verifier_output (vout tx) with
           | None => s
           | Some v =>
               change (AddRestrictedVerifier (na_strName asset.1) (default (left_verifier v) (AssetNullVerifierDataFromScript v))) s
           end)
  else (None, s).

(** What an output does to balances, tags and restrictions. *)
Definition connect_null_data (script : CScript) (c : CAssetsCache) : CAssetsCache :=
  if IsNullAssetTxDataScript script then
    let '(data, address) :=
      default (left_null_data script) (AssetNullDataFromScript node_Hash160 EncodeDestination script) in
    let adds := negb (nd_flag data =? 0) in
    match type_of_name (nd_asset_name data) with
    | RESTRICTED =>
        AddRestrictedAddress (nd_asset_name data) address (if adds then FREEZE_ADDRESS else UNFREEZE_ADDRESS) c
    | QUALIFIER | SUB_QUALIFIER =>
        AddQualifierAddress (nd_asset_name data) address (if adds then ADD_QUALIFIER else REMOVE_QUALIFIER) c
    | _ => c
    end
  else if IsNullGlobalRestrictionAssetTxDataScript script then
    let data := default (left_global script) (GlobalAssetNullDataFromScript script) in
    AddGlobalRestricted (nd_asset_name data) (if negb (nd_flag data =? 0) then GLOBAL_FREEZE else GLOBAL_UNFREEZE) c
  else c.

(** The constructor of a transfer keeps an expiry only with a message. *)
Definition new_transfer (strAssetName : bytes) (nAmount : Z) (message : bytes) (nExpireTime : Z) : CAssetTransfer :=
  mkTransfer strAssetName nAmount message (if is_empty_string message then 0 else nExpireTime).

Definition connect_transfer (script : CScript) (out : COutPoint) (s : assets_pair) : assets_pair :=
  match IsAssetScript script with
  | Some (TX_TRANSFER_ASSET, _, _) =>
      match TransferAssetFromScript node_Hash160 EncodeDestination AreTransferScriptsSizeDeployed script with
      | Some (transfer, address) =>
          if 0 <? at_nAmount transfer then
            let transfer :=
              new_transfer (at_strName transfer) (at_nAmount transfer) (at_message transfer) (at_nExpireTime transfer) in
            change (AddTransferAsset fAssetIndex transfer (EncodeDestination (DecodeDestination address)) out s.2) s
          else s
      | None => s
      end
  | _ => s
  end.

Definition connect_output (script : CScript) (out : COutPoint) (s : assets_pair) : assets_pair :=
  let s := connect_transfer script out s in
  if IsNullAsset script then change (connect_null_data script) s else s.

(** * Coins *)

Definition on_assets_of (f : assets_pair -> assets_pair) (st : chain_state) : chain_state :=
  let '(c, g) := f (assets st, globals st) in with_assets c g st.

(** The loop of [AddCoins] over the outputs from number [i]. *)
Fixpoint add_outputs (txid : bytes) (fCoinbase check : bool) (height : Z) (outs : list CTxOut) (i : Z) (st : chain_state)
  : result update_error chain_state :=
  match outs with
  | [] => Ok st
  | o :: outs' =>
      let p := mkOutPoint txid i in
      let '(overwrite, c) := if check then HaveCoin DynamicUsage (coins st) p else (fCoinbase, coins st) in
      match AddCoin DynamicUsage c p (new_coin o height fCoinbase) overwrite with
      | Err e => Err (CannotAdd e)
      | Ok c =>
          let st := with_coins c st in
          add_outputs txid fCoinbase check height outs' (i + 1)
            (if AreAssetsDeployed then on_assets_of (connect_output (scriptPubKey o) p) st else st)
      end
  end.

Definition AddCoins (tx : CTransaction) (height : Z) (blockHash : bytes) (check : bool) (st : chain_state)
  : result update_error (option (bytes * CBlockAssetUndo) * chain_state) :=
  let txid := GetHash node_Hash tx in
  let '(undo, st) :=
    if AreAssetsDeployed then
      let '(undo, (c, g)) := connect_issue tx txid height blockHash (assets st, globals st) in (undo, with_assets c g st)
    else (None, st) in
  let! st := add_outputs txid (IsCoinBase tx) check height (vout tx) 0 st in
  Ok (undo, st).

Definition spend (p : COutPoint) (temp : CAssetsCache) (st : chain_state)
  : bool * Coin * CAssetsCache * chain_state :=
  let try_spend c (_ : COutPoint) out :=
    TrySpendCoin fAssetIndex node_Hash160 EncodeDestination AreTransferScriptsSizeDeployed (scriptPubKey out) (globals st) c in
  let '(ok, moved, c, temp') := SpendCoin DynamicUsage try_spend AreAssetsDeployed (coins st) p (Some temp) in
  (ok, default coinEmpty moved, default temp temp', with_coins c st).

Fixpoint spend_inputs (ins : list CTxIn) (vprevout : list Coin) (st : chain_state)
  : result update_error (list Coin * chain_state) :=
  match ins with
  | [] => Ok (vprevout, st)
  | txin :: ins' =>
      let '(is_spent, coin, temp, st) := spend (prevout txin) (assets st) st in
      if is_spent then spend_inputs ins' (vprevout ++ [coin]) (with_assets temp (globals st) st) else Err NotSpent
  end.

(** The coins spent, the undo data of the transaction. *)
Definition UpdateCoins (tx : CTransaction) (height : Z) (blockHash : bytes) (st : chain_state)
  : result update_error (list Coin * option (bytes * CBlockAssetUndo) * chain_state) :=
  let! spent := if negb (IsCoinBase tx) then spend_inputs (vin tx) [] st else Ok ([], st) in
  let! added := AddCoins tx height blockHash false (snd spent) in
  Ok (fst spent, fst added, snd added).

(** * Undoing a transaction *)

(** What is noted of the outputs of a transaction: whether they matched, the
    transfers, the commands and the verifier string among them. *)
Record outputs_seen := mkSeen {
  fClean : bool;
  vAssetTxIndex : list (Z * CScript);
  vNullAssetTxIndex : list CScript;
  verifierString : option CScript
}.

Definition see_output (matched : bool) (o : Z) (script : CScript) (seen : outputs_seen) : outputs_seen :=
  if IsUnspendable script then
    if AreRestrictedAssetsDeployed && IsNullAsset script then
      if IsNullAssetVerifierTxDataScript script then
        mkSeen (fClean seen) (vAssetTxIndex seen) (vNullAssetTxIndex seen) (Some script)
      else mkSeen (fClean seen) (vAssetTxIndex seen) (vNullAssetTxIndex seen ++ [script]) (verifierString seen)
    else seen
  else
    mkSeen (fClean seen && matched)
      (if AreAssetsDeployed && is_some (IsScriptTransferAsset script) then vAssetTxIndex seen ++ [(o, script)]
       else vAssetTxIndex seen)
      (vNullAssetTxIndex seen) (verifierString seen).

Definition txout_eqb (a b : CTxOut) : bool := (nValue a =? nValue b) && bytes_eqb (scriptPubKey a) (scriptPubKey b).

(** Taking back the outputs from number [o]; the copy of the asset cache that
    is told of them is dropped at the end of the block. *)
Fixpoint take_outputs (txid : bytes) (is_coinbase : bool) (height : Z) (outs : list CTxOut) (o : Z) (temp : CAssetsCache)
  (seen : outputs_seen) (st : chain_state) : outputs_seen * CAssetsCache * chain_state :=
  match outs with
  | [] => (seen, temp, st)
  | out :: outs' =>
      let '(matched, temp, st) :=
        if IsUnspendable (scriptPubKey out) then (true, temp, st)
        else
          let '(is_spent, coin, temp, st) := spend (mkOutPoint txid o) temp st in
          (is_spent && txout_eqb out (coin_out coin) && (height =? nHeight coin) && Bool.eqb is_coinbase (fCoinBase coin),
           temp, st) in
      take_outputs txid is_coinbase height outs' (o + 1) temp (see_output matched o (scriptPubKey out) seen) st
  end.

(** The asset is removed where the cache knows it; [None] for an error. *)
Definition remove_asset (asset : CNewAsset * bytes) (s : assets_pair) : option assets_pair :=
  let '(found, g) := CheckIfAssetExists fReindex true (na_strName asset.1) s.1 s.2 in
  if found then
    let '(ok, c, g) := RemoveNewAsset fAssetIndex fReindex asset.1 asset.2 g s.1 in
    if ok then Some (c, g) else None
  else Some (s.1, g).

Fixpoint remove_uniques (outs : list CTxOut) (s : assets_pair) : option assets_pair :=
  match outs with
  | [] => Some s
  | out :: outs' =>
      let script := scriptPubKey out in
      if is_some (IsScriptNewUniqueAsset script) then
        asset ← AssetFromScript node_Hash160 EncodeDestination script; s ← remove_asset asset s; remove_uniques outs' s
      else remove_uniques outs' s
  end.

Definition remove_reissue (tx : CTransaction) (txid : bytes) (vUndoData : list (bytes * CBlockAssetUndo)) (s : assets_pair)
  : option assets_pair :=
  '(reissue, strAddress) ← ReissueAssetFromTransaction tx;
  let '(found, g) := CheckIfAssetExists fReindex true (ra_strName reissue) s.1 s.2 in
  if found then
    let '(ok, c, g) := RemoveReissueAsset fAssetIndex left_height reissue strAddress
                         (mkOutPoint txid (Z.of_nat (length (vout tx)) - 1)) vUndoData g s.1 in
    if ok then Some (c, g) else None
  else Some (s.1, g).

Definition disconnect_issue (tx : CTransaction) (txid : bytes) (verifier : option CScript)
  (vUndoData : list (bytes * CBlockAssetUndo)) (s : assets_pair) : option assets_pair :=
  if tx_IsNewAsset tx then
    asset ← AssetFromTransaction tx;
    s ← remove_asset asset s;
    '(ownerName, ownerAddress) ← OwnerFromTransaction tx;
    Some (change (RemoveOwnerAsset fAssetIndex ownerName ownerAddress) s)
  else if tx_IsReissueAsset tx then remove_reissue tx txid vUndoData s
  else if tx_IsNewUniqueAsset tx then remove_uniques (vout tx) s
  else if tx_IsNewMsgChannelAsset tx then asset ← MsgChannelAssetFromTransaction tx; remove_asset asset s
  else if tx_IsNewQualifierAsset tx then asset ← QualifierAssetFromTransaction tx; remove_asset asset s
  else if tx_IsNewRestrictedAsset tx then
    asset ← RestrictedAssetFromTransaction tx;
    s ← remove_asset asset s;
    script ← verifier;
    v ← AssetNullVerifierDataFromScript script;
    Some (change (RemoveRestrictedVerifier (na_strName asset.1) v false) s)
  else Some s.

Fixpoint disconnect_transfers (txid : bytes) (l : list (Z * CScript)) (s : assets_pair) : option assets_pair :=
  match l with
  | [] => Some s
  | (index, script) :: l' =>
      '(transfer, strAddress) ← TransferAssetFromScript node_Hash160 EncodeDestination AreTransferScriptsSizeDeployed script;
      let '(ok, c) := RemoveTransfer fAssetIndex transfer strAddress (mkOutPoint txid index) s.2 s.1 in
      if ok then disconnect_transfers txid l' (c, s.2) else None
  end.

Definition disconnect_null_data (script : CScript) (c : CAssetsCache) : option CAssetsCache :=
  if IsNullAssetTxDataScript script then
    '(data, address) ← AssetNullDataFromScript node_Hash160 EncodeDestination script;
    let adds := negb (nd_flag data =? 0) in
    Some match type_of_name (nd_asset_name data) with
         | QUALIFIER | SUB_QUALIFIER =>
             RemoveQualifierAddress (nd_asset_name data) address (if adds then ADD_QUALIFIER else REMOVE_QUALIFIER) c
         | RESTRICTED =>
             RemoveRestrictedAddress (nd_asset_name data) address (if adds then FREEZE_ADDRESS else UNFREEZE_ADDRESS) c
         | _ => c
         end
  else if IsNullGlobalRestrictionAssetTxDataScript script then
    data ← GlobalAssetNullDataFromScript script;
    Some (RemoveGlobalRestricted (nd_asset_name data) (if negb (nd_flag data =? 0) then GLOBAL_FREEZE else GLOBAL_UNFREEZE) c)
  else Some c.

Fixpoint disconnect_null_outputs (l : list CScript) (c : CAssetsCache) : option CAssetsCache :=
  match l with
  | [] => Some c
  | script :: l' => c ← disconnect_null_data script c; disconnect_null_outputs l' c
  end.

Definition disconnect_assets (tx : CTransaction) (txid : bytes) (seen : outputs_seen)
  (vUndoData : list (bytes * CBlockAssetUndo)) (s : assets_pair) : option assets_pair :=
  s ← disconnect_issue tx txid (verifierString seen) vUndoData s;
  s ← disconnect_transfers txid (vAssetTxIndex seen) s;
  if AreRestrictedAssetsDeployed then c ← disconnect_null_outputs (vNullAssetTxIndex seen) s.1; Some (c, s.2) else Some s.

(** [None] for [DISCONNECT_FAILED], which leaves the view in an indeterminate
    state; an exception of [AddCoin] is passed on. *)
Definition ApplyTxInUndo (undo : Coin) (out : COutPoint) (st : chain_state)
  : result update_error (option (bool * chain_state)) :=
  let '(have, c) := HaveCoin DynamicUsage (coins st) out in
  let '(restored, c) :=
    if nHeight undo =? 0 then
      let '(alternate, c) := AccessByTxid DynamicUsage c (op_hash out) in
      (if negb (IsSpent alternate) then Some (mkCoin (coin_out undo) (fCoinBase alternate) (nHeight alternate)) else None, c)
    else (Some undo, c) in
  match restored with
  | None => Ok None
  | Some coin =>
      match AddCoin DynamicUsage c out coin have with
      | Err e => Err (CannotAdd e)
      | Ok c =>
          let st := with_coins c st in
          if AreAssetsDeployed && coin_IsAsset undo then
            let '(ok, a) := UndoAssetCoin fAssetIndex node_Hash160 EncodeDestination AreTransferScriptsSizeDeployed
                              (scriptPubKey (coin_out undo)) (globals st) (assets st) in
            Ok (Some (negb have && ok, with_assets a (globals st) st))
          else Ok (Some (negb have, st))
      end
  end.

(** The inputs, from the last to the first. *)
Fixpoint restore_inputs (ins : list (CTxIn * Coin)) (clean : bool) (st : chain_state)
  : result update_error (option (bool * chain_state)) :=
  match ins with
  | [] => Ok (Some (clean, st))
  | (txin, undo) :: ins' =>
      let! r := ApplyTxInUndo undo (prevout txin) st in
      match r with
      | None => Ok None
      | Some (ok, st) => restore_inputs ins' (clean && ok) st
      end
  end.

(** Undoing a transaction; [txundo] is [None] for the first one. *)
Definition disconnect_tx (tx : CTransaction) (txundo : option (list Coin)) (height : Z)
  (vUndoData : list (bytes * CBlockAssetUndo)) (clean : bool) (temp : CAssetsCache) (st : chain_state)
  : result update_error (option (bool * CAssetsCache * chain_state)) :=
  let txid := GetHash node_Hash tx in
  let '(seen, temp, st) :=
    take_outputs txid (IsCoinBase tx) height (vout tx) 0 temp (mkSeen clean [] [] None) st in
  match (if AreAssetsDeployed then disconnect_assets tx txid seen vUndoData (assets st, globals st)
         else Some (assets st, globals st)) with
  | None => Ok None
  | Some (c, g) =>
      let st := with_assets c g st in
      match txundo with
      | None => Ok (Some (fClean seen, temp, st))
      | Some vprevout =>
          if negb (length vprevout =? length (vin tx))%nat then Ok None
          else
            let! r := restore_inputs (rev (zip (vin tx) vprevout)) (fClean seen) st in
            Ok (option_map (fun '(clean, st) => (clean, temp, st)) r)
      end
  end.

(** The transactions with their undo data, from the last to the first. *)
Fixpoint disconnect_txs (l : list (CTransaction * option (list Coin))) (height : Z)
  (vUndoData : list (bytes * CBlockAssetUndo)) (clean : bool) (temp : CAssetsCache) (st : chain_state)
  : result update_error (option (bool * CAssetsCache * chain_state)) :=
  match l with
  | [] => Ok (Some (clean, temp, st))
  | (tx, txundo) :: l' =>
      let! r := disconnect_tx tx txundo height vUndoData clean temp st in
      match r with
      | None => Ok None
      | Some (clean, temp, st) => disconnect_txs l' height vUndoData clean temp st
      end
  end.

(** [blockUndo] and [vUndoData] are what was read from disk, if it could be;
    [prevHash] is the hash of the previous block. *)
Definition DisconnectBlock (block : list CTransaction) (height : Z) (prevHash : bytes)
  (blockUndo : option (list (list Coin))) (vUndoData : option (list (bytes * CBlockAssetUndo))) (st : chain_state)
  : result update_error (DisconnectResult * option chain_state) :=
  match blockUndo, vUndoData with
  | Some vtxundo, Some vUndo =>
      if negb (length vtxundo + 1 =? length block)%nat then Ok (DISCONNECT_FAILED, None)
      else
        let! r := disconnect_txs (rev (zip block (None :: map Some vtxundo))) height vUndo true (assets st) st in
        Ok match r with
           | None => (DISCONNECT_FAILED, None)
           | Some (clean, _, st) =>
               (if clean then DISCONNECT_OK else DISCONNECT_UNCLEAN, Some (with_coins (SetBestBlock (coins st) prevHash) st))
           end
  | _, _ => Ok (DISCONNECT_FAILED, None)
  end.
End Connect.
Arguments chain_state V : clear implicits.
Arguments mkChain {V} _ _ _.
Arguments coins {V} _.
Arguments assets {V} _.
Arguments globals {V} _.

(** * The unspent outputs *)

Section Coins.
Context {node : Node} {unparsed : Unparsed} `{CoinsViewLaws V}.
Variable DynamicUsage : CScript -> Z.
Variable DecodeDestination : bytes -> CTxDestination.
Variable fAssetIndex : bool.
Variable fReindex : bool.
Hypothesis usage_nil : DynamicUsage [] = 0.
Implicit Types (st : chain_state V) (u : gmap COutPoint Coin) (tx : CTransaction).

Abbreviation cache_ok := (cache_ok DynamicUsage).
Abbreviation utxo_of st := (cache_utxo (coins st)).

(** The effect of a transaction on the unspent outputs. *)
Definition spend_all (ins : list CTxIn) u : gmap COutPoint Coin :=
  fold_left (fun u i => delete (prevout i) u) ins u.
Definition txid tx : bytes := GetHash node_Hash tx.
Definition spend_tx tx u : gmap COutPoint Coin := if IsCoinBase tx then u else spend_all (vin tx) u.
Definition apply_tx (height : Z) u tx : gmap COutPoint Coin :=
  spec_add (spend_tx tx u) (txid tx) (IsCoinBase tx) height (vout tx) 0.

(** No output of the transaction is there yet. *)
Definition new_id tx u : Prop := forall n, u !! mkOutPoint (txid tx) n = None.
(** The coins that the inputs name are there, each of them once. *)
Definition spends tx u (spent : list Coin) : Prop :=
  Forall2 (fun i coin => u !! prevout i = Some coin) (vin tx) spent /\ NoDup (map prevout (vin tx)).

Lemma spend_spec p temp st : cache_ok (coins st) ->
  exists ok coin temp' st', spend DynamicUsage fAssetIndex p temp st = (ok, coin, temp', st') /\
    cache_ok (coins st') /\ utxo_of st' = delete p (utxo_of st) /\
    assets st' = assets st /\ globals st' = globals st /\
    (forall c, utxo_of st !! p = Some c -> coin = c /\
       (AreAssetsDeployed = false \/ IsAssetScript (scriptPubKey (coin_out c)) = None -> ok = true /\ temp' = temp)).
Proof.
  intros O; unfold spend; set (try := fun _ _ _ => _).
  destruct (SpendCoin_spec DynamicUsage usage_nil try AreAssetsDeployed (coins st) p (Some temp) O)
    as (ok & moved & c' & temp' & E & O' & U & M & _); rewrite E.
  eexists _, _, _, _; split; [reflexivity|]; split_all; auto; intros c L; destruct (M c L) as [-> K]; split; [reflexivity|].
  destruct AreAssetsDeployed; [|intros _; destruct K as [-> ->]; auto].
  injection K as -> ->; cbn [from_option]; intros [D|D]; [discriminate|]; unfold try, TrySpendCoin; rewrite D; auto.
Qed.

Lemma spend_inputs_spec ins : forall vprevout st spent st', cache_ok (coins st) ->
  spend_inputs DynamicUsage fAssetIndex ins vprevout st = Ok (spent, st') ->
  cache_ok (coins st') /\ utxo_of st' = spend_all ins (utxo_of st) /\
  (forall cs, Forall2 (fun i coin => utxo_of st !! prevout i = Some coin) ins cs -> NoDup (map prevout ins) ->
     spent = vprevout ++ cs).
Proof.
  induction ins as [|i ins IH]; intros vprevout st spent st' O R; cbn [spend_inputs] in R.
  - injection R as <- <-; split_all; auto; intros cs L _; inversion L; now rewrite app_nil_r.
  - destruct (spend_spec (prevout i) (assets st) st O) as (ok & coin & temp & st1 & E & O1 & U1 & _ & _ & K).
    rewrite E in R; destruct ok; [|discriminate].
    destruct (IH _ _ _ _ (O1 : cache_ok (coins (with_assets temp (globals st1) st1))) R) as (O2 & U2 & S); split_all; auto.
    + rewrite U2; cbn [with_assets coins]; now rewrite U1.
    + intros cs L N; inversion L as [|? c ? cs' Li Ls]; subst; apply NoDup_cons in N; destruct N as [Ni N].
      destruct (K c Li) as [-> _]; rewrite (S cs'); [now rewrite <- app_assoc| |exact N].
      cbn [with_assets coins]; rewrite U1; revert Ls Ni; clear; intros Ls Ni.
      induction Ls as [|j c' js cs' Lj _ IH]; constructor.
      * rewrite lookup_delete_ne; [exact Lj|]; intros E; apply Ni, elem_of_cons; left; congruence.
      * apply IH; intros I; apply Ni, elem_of_cons; now right.
Qed.

Lemma add_coin_ok (c c' : CCoinsViewCache V) p coin ow : cache_ok c -> (ow = false -> cache_utxo c !! p = None) ->
  AddCoin DynamicUsage c p coin ow = Ok c' ->
  cache_ok c' /\ IsSpent coin = false /\
  cache_utxo c' = if IsUnspendable (scriptPubKey (coin_out coin)) then cache_utxo c else <[p := coin]> (cache_utxo c).
Proof.
  intros O F R; destruct (IsSpent coin) eqn:Sp; [unfold AddCoin in R; rewrite Sp in R; discriminate|].
  destruct (IsUnspendable (scriptPubKey (coin_out coin))) eqn:Un.
  - unfold AddCoin in R; rewrite Sp, Un in R; injection R as <-; auto.
  - destruct (AddCoin_spec DynamicUsage c p coin ow O Sp Un F) as (c1 & E & O1 & U1).
    rewrite E in R; injection R as <-; auto.
Qed.

Lemma coins_on_assets (f : CAssetsCache * assets_state -> CAssetsCache * assets_state) st :
  coins (on_assets_of f st) = coins st.
Proof. unfold on_assets_of; now destruct (f _). Qed.

Lemma add_outputs_spec id cb height outs : forall i st st', cache_ok (coins st) ->
  (cb = false -> forall n, i <= n -> utxo_of st !! mkOutPoint id n = None) ->
  add_outputs DynamicUsage DecodeDestination fAssetIndex id cb false height outs i st = Ok st' ->
  cache_ok (coins st') /\ utxo_of st' = spec_add (utxo_of st) id cb height outs i /\ Forall (fun o => txout_IsNull o = false) outs.
Proof.
  induction outs as [|o outs IH]; intros i st st' O F R; cbn [add_outputs spec_add] in *; [injection R as <-; auto|].
  destruct (AddCoin _ _ _ _ _) as [c|] eqn:A; [|discriminate].
  destruct (add_coin_ok _ _ _ _ _ O (fun E => F E i ltac:(lia)) A) as (O1 & S1 & U1); cbn [new_coin coin_out] in S1, U1.
  match type of R with add_outputs _ _ _ _ _ _ _ _ _ ?s = _ => set (st1 := s) in R end.
  assert (C1 : coins st1 = c) by (unfold st1; destruct AreAssetsDeployed; [apply coins_on_assets|reflexivity]).
  apply IH in R; [rewrite C1, U1 in R; destruct R as (Or & Ur & Fr); split_all; auto; now constructor|now rewrite C1|].
  intros E n L; rewrite C1, U1; specialize (F E); destruct (IsUnspendable _); [apply F; lia|].
  rewrite lookup_insert_ne by (intros [=]; lia); apply F; lia.
Qed.

Lemma spend_all_lookup ins : forall u p,
  spend_all ins u !! p = if decide (p ∈ map prevout ins) then None else u !! p.
Proof.
  induction ins as [|i ins IH]; intros u p; cbn [spend_all fold_left map].
  - rewrite decide_False; [reflexivity|apply not_elem_of_nil].
  - change (fold_left _ ins (delete (prevout i) u)) with (spend_all ins (delete (prevout i) u)); rewrite IH.
    destruct (decide (p ∈ map prevout ins)) as [I|I]; [rewrite decide_True; [reflexivity|apply elem_of_cons; auto]|].
    destruct (decide (p = prevout i)) as [->|N].
    + now rewrite lookup_delete_eq, decide_True by (apply elem_of_cons; auto).
    + rewrite lookup_delete_ne, decide_False; auto; intros K; apply elem_of_cons in K; tauto.
Qed.

Lemma new_id_spend tx tx' u : new_id tx u -> new_id tx (spend_tx tx' u).
Proof.
  intros F n; unfold spend_tx; destruct (IsCoinBase tx'); [apply F|]; rewrite spend_all_lookup; destruct (decide _); auto.
Qed.

Lemma UpdateCoins_spec tx height blockHash st spent undo st' : cache_ok (coins st) ->
  (IsCoinBase tx = false -> new_id tx (utxo_of st)) ->
  UpdateCoins DynamicUsage DecodeDestination fAssetIndex fReindex tx height blockHash st = Ok (spent, undo, st') ->
  cache_ok (coins st') /\ utxo_of st' = apply_tx height (utxo_of st) tx /\ Forall (fun o => txout_IsNull o = false) (vout tx) /\
  (IsCoinBase tx = false -> forall cs, spends tx (utxo_of st) cs -> spent = cs).
Proof.
  unfold UpdateCoins; intros O F R; apply bind_ok in R; destruct R as ([cs st1] & E1 & R).
  apply bind_ok in R; destruct R as ([un st2] & E2 & R); cbn [fst snd] in *; injection R as -> -> ->.
  assert (S : cache_ok (coins st1) /\ utxo_of st1 = spend_tx tx (utxo_of st) /\
              (IsCoinBase tx = false -> forall cs, spends tx (utxo_of st) cs -> spent = cs)).
  { unfold spend_tx; destruct (IsCoinBase tx); cbn [negb] in E1; [injection E1 as <- <-; split_all; auto; discriminate|].
    destruct (spend_inputs_spec _ _ _ _ _ O E1) as (O1 & U1 & K); split_all; auto.
    intros _ cs [L N]; now rewrite (K cs L N). }
  destruct S as (O1 & U1 & K); unfold AddCoins in E2.
  destruct (if AreAssetsDeployed then _ else _) as [un' st3] eqn:I.
  assert (C3 : coins st3 = coins st1).
  { destruct AreAssetsDeployed; [destruct (connect_issue _ _ _ _ _ _ _) as [un'' [c g]]|]; injection I as <- <-; reflexivity. }
  apply bind_ok in E2; destruct E2 as (st4 & E2 & R); injection R as <- ->.
  apply add_outputs_spec in E2; rewrite C3 in *; [|exact O1|].
  - destruct E2 as (O2 & U2 & F2); rewrite U2, U1; auto.
  - intros CB n _; rewrite U1; now apply new_id_spend, F.
Qed.

Lemma coinbase_spends_nothing tx height blockHash st spent undo st' : IsCoinBase tx = true ->
  UpdateCoins DynamicUsage DecodeDestination fAssetIndex fReindex tx height blockHash st = Ok (spent, undo, st') -> spent = [].
Proof.
  unfold UpdateCoins; intros ->; cbn [negb bind]; intros R; apply bind_ok in R; destruct R as (x & _ & R); now injection R.
Qed.

(** ** Taking back outputs *)

Fixpoint drop_outputs (id : bytes) (outs : list CTxOut) (o : Z) u : gmap COutPoint Coin :=
  match outs with
  | [] => u
  | out :: outs' =>
      drop_outputs id outs' (o + 1) (if IsUnspendable (scriptPubKey out) then u else delete (mkOutPoint id o) u)
  end.

Lemma spec_add_other id cb height outs : forall u i p, op_hash p <> id \/ op_n p < i ->
  spec_add u id cb height outs i !! p = u !! p.
Proof.
  induction outs as [|o outs IH]; intros u i p N; cbn [spec_add]; [reflexivity|].
  rewrite IH by (destruct N; [now left|right; lia]); destruct (IsUnspendable _); [reflexivity|].
  apply lookup_insert_ne; intros <-; destruct N as [N|N]; cbn in N; [congruence|lia].
Qed.

Lemma spec_add_here id cb height outs : forall u i k out, nth_error outs k = Some out ->
  IsUnspendable (scriptPubKey out) = false ->
  spec_add u id cb height outs i !! mkOutPoint id (i + Z.of_nat k) = Some (new_coin out height cb).
Proof.
  induction outs as [|o outs IH]; intros u i [|k] out N S; cbn [nth_error spec_add] in *; try discriminate.
  - injection N as ->; rewrite S, spec_add_other by (cbn; lia); cbn; rewrite Z.add_0_r; apply lookup_insert_eq.
  - replace (i + Z.of_nat (Datatypes.S k)) with (i + 1 + Z.of_nat k) by lia; now apply IH.
Qed.

Lemma spec_add_delete id cb height outs : forall u i p, op_n p < i ->
  delete p (spec_add u id cb height outs i) = spec_add (delete p u) id cb height outs i.
Proof.
  induction outs as [|o outs IH]; intros u i p N; cbn [spec_add]; [reflexivity|]; rewrite IH by lia; f_equal.
  destruct (IsUnspendable _); [reflexivity|]; apply delete_insert_ne; intros ->; cbn in N; lia.
Qed.

Lemma drop_spec_add id cb height outs : forall u i, (forall n, i <= n -> u !! mkOutPoint id n = None) ->
  drop_outputs id outs i (spec_add u id cb height outs i) = u.
Proof.
  induction outs as [|o outs IH]; intros u i F; cbn [spec_add drop_outputs]; [reflexivity|].
  destruct (IsUnspendable _); [apply IH; intros n L; apply F; lia|].
  rewrite spec_add_delete by (cbn; lia); rewrite delete_insert_id by (apply F; lia).
  apply IH; intros n L; apply F; lia.
Qed.

(** Outputs without assets. *)
Definition plain_script (s : CScript) : Prop := IsAssetScript s = None /\ IsNullAsset s = false.
Definition plain (out : CTxOut) : Prop := plain_script (scriptPubKey out).

Lemma plain_output matched o s seen : plain_script s ->
  see_output matched o s seen = mkSeen (fClean seen && (IsUnspendable s || matched)) (vAssetTxIndex seen)
    (vNullAssetTxIndex seen) (verifierString seen).
Proof.
  intros [A N]; unfold see_output; rewrite N, andb_false_r.
  assert (T : IsScriptTransferAsset s = None) by (unfold IsScriptTransferAsset; now rewrite A).
  rewrite T, andb_false_r; destruct (IsUnspendable s); cbn [orb]; [rewrite andb_true_r; now destruct seen|reflexivity].
Qed.

Lemma txout_eqb_refl o : txout_eqb o o = true.
Proof. unfold txout_eqb; now rewrite Z.eqb_refl, (proj2 (bytes_eqb_eq _ _) eq_refl). Qed.

Lemma take_outputs_spec id cb height outs : in_u 31 height -> forall o temp seen st, cache_ok (coins st) ->
  (forall k out, nth_error outs k = Some out -> IsUnspendable (scriptPubKey out) = false ->
     utxo_of st !! mkOutPoint id (o + Z.of_nat k) = Some (new_coin out height cb)) ->
  exists seen' temp' st', take_outputs DynamicUsage fAssetIndex id cb height outs o temp seen st = (seen', temp', st') /\
    cache_ok (coins st') /\ utxo_of st' = drop_outputs id outs o (utxo_of st) /\
    assets st' = assets st /\ globals st' = globals st /\
    (AreAssetsDeployed = false -> fClean seen' = fClean seen /\ temp' = temp) /\
    (Forall plain outs -> seen' = seen /\ temp' = temp).
Proof.
  intros B; induction outs as [|out outs IH]; intros o temp seen st O L; cbn [take_outputs drop_outputs].
  { eexists _, _, _; split; [reflexivity|]; split_all; auto. }
  pose proof (L 0%nat out eq_refl) as L0; rewrite Z.add_0_r in L0.
  destruct (IsUnspendable (scriptPubKey out)) eqn:Un.
  - destruct (IH (o + 1) temp (see_output true o (scriptPubKey out) seen) st O) as (s' & t' & st' & E & O' & U & A & G & C & P).
    { intros k out' N S; replace (o + 1 + Z.of_nat k) with (o + Z.of_nat (Datatypes.S k)) by lia; now apply L. }
    exists s', t', st'; split; [exact E|]; split_all; auto.
    + intros D; destruct (C D) as [-> ->]; split; [|reflexivity]; unfold see_output; rewrite Un.
      destruct (_ && _); [destruct (IsNullAssetVerifierTxDataScript _)|]; reflexivity.
    + intros Ps; apply Forall_cons in Ps; destruct Ps as [P0 Ps]; destruct (P Ps) as [-> ->]; split; [|reflexivity].
      rewrite plain_output, Un, andb_true_r by exact P0; now destruct seen.
  - destruct (spend_spec (mkOutPoint id o) temp st O) as (ok & coin & temp1 & st1 & E1 & O1 & U1 & A1 & G1 & K).
    destruct (K _ (L0 eq_refl)) as [-> K1]; rewrite E1.
    set (m := ok && _ && _ && _).
    assert (M : ok = true -> m = true).
    { intros ->; unfold m; cbn [new_coin coin_out nHeight fCoinBase]; rewrite txout_eqb_refl, wrap_id by exact B.
      now rewrite Z.eqb_refl, eqb_reflx. }
    destruct (IH (o + 1) temp1 (see_output m o (scriptPubKey out) seen) st1 O1) as (s' & t' & st' & E & O' & U & A & G & C & P).
    { intros k out' N S; rewrite U1, lookup_delete_ne by (intros [=]; lia).
      replace (o + 1 + Z.of_nat k) with (o + Z.of_nat (Datatypes.S k)) by lia; now apply L. }
    exists s', t', st'; split; [exact E|]; rewrite U, U1; split_all; auto; try congruence.
    + intros D; destruct (C D) as [-> ->]; destruct (K1 (or_introl D)) as [Ok ->]; split; [|reflexivity].
      unfold see_output; rewrite Un, (M Ok), andb_true_r; reflexivity.
    + intros Ps; apply Forall_cons in Ps; destruct Ps as [P0 Ps]; destruct (P Ps) as [-> ->].
      destruct (K1 (or_intror (proj1 P0))) as [Ok ->]; split; [|reflexivity].
      rewrite plain_output, (M Ok), orb_true_r, andb_true_r by exact P0; now destruct seen.
Qed.

(** ** Restoring inputs *)

Definition insert_all (l : list (CTxIn * Coin)) u : gmap COutPoint Coin :=
  fold_left (fun u '(i, c) => <[prevout i := c]> u) l u.
Definition keys (l : list (CTxIn * Coin)) : list COutPoint := map (fun e => prevout e.1) l.

(** A coin that can be put back. *)
Definition restorable (c : Coin) : Prop :=
  IsSpent c = false /\ IsUnspendable (scriptPubKey (coin_out c)) = false /\ nHeight c <> 0.
Definition coins_ok u : Prop := forall p c, u !! p = Some c -> restorable c.

Definition plain_coin (c : Coin) : Prop := plain (coin_out c).

Lemma ApplyTxInUndo_spec undo p st : cache_ok (coins st) -> restorable undo -> utxo_of st !! p = None ->
  exists ok st', ApplyTxInUndo DynamicUsage fAssetIndex undo p st = Ok (Some (ok, st')) /\
    cache_ok (coins st') /\ utxo_of st' = <[p := undo]> (utxo_of st) /\ globals st' = globals st /\
    (AreAssetsDeployed = false \/ plain_coin undo -> ok = true /\ assets st' = assets st).
Proof.
  intros O (Sp & Un & Ht) F; unfold ApplyTxInUndo.
  destruct (HaveCoin_spec DynamicUsage (coins st) p O) as (c & E & O1 & U1); rewrite E, F; cbn [is_some].
  rewrite (proj2 (Z.eqb_neq _ _)) by exact Ht.
  destruct (AddCoin_spec DynamicUsage c p undo false O1 Sp Un) as (c' & E' & O2 & U2); [intros _; now rewrite U1|].
  rewrite E'; cbn [negb andb]; destruct (AreAssetsDeployed && coin_IsAsset undo) eqn:D.
  - destruct (UndoAssetCoin _ _ _ _ _ _ _) as [ok a].
    eexists _, _; split; [reflexivity|]; cbn [with_assets with_coins coins globals]; rewrite U2, U1; split_all; auto.
    apply andb_true_iff in D; destruct D as [D1 D2]; intros [K|[K _]]; [congruence|].
    unfold coin_IsAsset in D2; now rewrite K in D2.
  - eexists _, _; split; [reflexivity|]; cbn [with_coins coins globals assets]; rewrite U2, U1; split_all; auto.
Qed.

Lemma restore_inputs_spec l : forall clean st, cache_ok (coins st) -> NoDup (keys l) ->
  Forall (fun e => restorable e.2 /\ utxo_of st !! prevout e.1 = None) l ->
  exists clean' st', restore_inputs DynamicUsage fAssetIndex l clean st = Ok (Some (clean', st')) /\
    cache_ok (coins st') /\ utxo_of st' = insert_all l (utxo_of st) /\ globals st' = globals st /\
    (AreAssetsDeployed = false \/ Forall (fun e => plain_coin e.2) l -> clean' = clean /\ assets st' = assets st).
Proof.
  induction l as [|[i c] l IH]; intros clean st O N F; cbn [restore_inputs insert_all fold_left].
  { eexists _, _; split; [reflexivity|]; split_all; auto. }
  apply Forall_cons in F; destruct F as [[R F0] F]; apply NoDup_cons in N; destruct N as [Ni N]; cbn [fst snd] in *.
  destruct (ApplyTxInUndo_spec c (prevout i) st O R F0) as (ok & st1 & E & O1 & U1 & G1 & K1); rewrite E; cbn [bind].
  destruct (IH (clean && ok) st1 O1 N) as (cl & st2 & E2 & O2 & U2 & G2 & K2).
  { apply Forall_forall; intros e I; rewrite Forall_forall in F; destruct (F e I) as [Re Fe]; split; [exact Re|].
    rewrite U1, lookup_insert_ne; [exact Fe|]; intros K; apply Ni; rewrite K; apply list_elem_of_In, (in_map (fun e => prevout e.1)).
    now apply list_elem_of_In. }
  exists cl, st2; split; [exact E2|]; rewrite U2, U1; split_all; auto; [congruence|].
  intros P; destruct K1 as [-> A1]; [destruct P as [D|P]; [now left|right; now apply Forall_cons in P]|].
  destruct K2 as [-> A2]; [destruct P as [D|P]; [now left|right; now apply Forall_cons in P]|].
  rewrite andb_true_r; split; congruence.
Qed.

Lemma insert_all_lookup l : forall u p, NoDup (keys l) ->
  insert_all l u !! p = match List.find (fun e => bool_decide (prevout e.1 = p)) l with Some e => Some e.2 | None => u !! p end.
Proof.
  induction l as [|[i c] l IH]; intros u p N; cbn [insert_all fold_left List.find]; [reflexivity|].
  apply NoDup_cons in N; destruct N as [Ni N]; change (fold_left _ l ?x) with (insert_all l x); rewrite IH by exact N.
  destruct (bool_decide_reflect (prevout (i, c).1 = p)) as [E|E]; cbn [fst snd] in *.
  - assert (Fn : List.find (fun e => bool_decide (prevout e.1 = p)) l = None).
    { destruct (List.find _ l) as [e|] eqn:Fd; [|reflexivity]; apply find_some in Fd; destruct Fd as [I K].
      apply bool_decide_eq_true in K; exfalso; apply Ni; rewrite E, <- K; apply list_elem_of_In.
      now apply (in_map (fun e => prevout e.1)). }
    rewrite Fn, <- E; apply lookup_insert_eq.
  - destruct (List.find _ l); [reflexivity|]; now apply lookup_insert_ne.
Qed.

Lemma zip_keys (ins : list CTxIn) (cs : list Coin) : length ins = length cs -> keys (zip ins cs) = map prevout ins.
Proof.
  revert cs; induction ins as [|i ins IH]; intros [|c cs] L; cbn in *; try discriminate; [reflexivity|].
  f_equal; apply IH; lia.
Qed.

Lemma keys_rev l : keys (rev l) = rev (keys l).
Proof. apply map_rev. Qed.

Lemma spends_zip tx u cs : spends tx u cs ->
  length (vin tx) = length cs /\ NoDup (keys (rev (zip (vin tx) cs))) /\
  Forall (fun e => u !! prevout e.1 = Some e.2) (rev (zip (vin tx) cs)).
Proof.
  intros [L N]; pose proof (Forall2_length _ _ _ L) as E; split; [exact E|]; split.
  - rewrite keys_rev, zip_keys by exact E; apply NoDup_ListNoDup, List.NoDup_rev, NoDup_ListNoDup; exact N.
  - apply Forall_rev; clear - L; induction L as [|i c ins cs K _ IH]; cbn; [constructor|now constructor].
Qed.

Lemma restored tx u cs : spends tx u cs -> insert_all (rev (zip (vin tx) cs)) (spend_all (vin tx) u) = u.
Proof.
  intros S; destruct (spends_zip tx u cs S) as (E & N & F); apply map_eq; intros p.
  rewrite insert_all_lookup by exact N; destruct (List.find _ _) as [e|] eqn:Fd.
  - apply find_some in Fd; destruct Fd as [I K]; apply bool_decide_eq_true in K; rewrite <- K.
    rewrite Forall_forall in F; symmetry; apply F; now apply list_elem_of_In.
  - rewrite spend_all_lookup; destruct (decide (p ∈ map prevout (vin tx))) as [I|I]; [|reflexivity].
    rewrite <- (zip_keys (vin tx) cs E) in I; apply list_elem_of_In, in_map_iff in I; destruct I as (e & K & I).
    exfalso; apply in_rev in I; apply (find_none _ _ Fd e) in I.
    apply bool_decide_eq_false in I; exact (I K).
Qed.

(** A transaction without assets is undone without touching them. *)
Lemma plain_back outs : Forall plain outs -> IsAssetScript (scriptPubKey (back outs)) = None /\
  IsAssetScript (scriptPubKey (before_back outs)) = None.
Proof.
  intros P; assert (D : forall o, o = txout_null \/ In o outs -> IsAssetScript (scriptPubKey o) = None).
  { intros o [->|I]; [reflexivity|]; rewrite Forall_forall in P; apply (P o); now apply list_elem_of_In. }
  split; apply D.
  - unfold back; destruct outs as [|o outs] using rev_ind; [now left|rewrite last_last; right; apply in_or_app; right; now left].
  - unfold before_back; destruct (Nat.lt_ge_cases (length outs - 2) (length outs)) as [K|K];
      [right; now apply nth_In|left; now apply nth_overflow].
Qed.

Lemma plain_assets tx id clean vUndo s : Forall plain (vout tx) ->
  disconnect_assets fAssetIndex fReindex tx id (mkSeen clean [] [] None) vUndo s = Some s.
Proof.
  intros P; destruct (plain_back _ P) as [B _].
  assert (T : forall wanted, IsScriptNewTyped wanted (scriptPubKey (back (vout tx))) = None)
    by (intros wanted; unfold IsScriptNewTyped; now rewrite B).
  assert (D : CheckIssueDataTx (back (vout tx)) = false).
  { unfold CheckIssueDataTx, IsScriptNewAsset; now rewrite B. }
  unfold disconnect_assets, disconnect_issue, tx_IsNewAsset, tx_IsNewUniqueAsset, tx_IsNewMsgChannelAsset,
    tx_IsNewQualifierAsset, tx_IsNewRestrictedAsset, tx_IsReissueAsset, CheckReissueDataTx, IsScriptReissueAsset.
  rewrite B, D; cbn [negb is_some]; destruct (_ <? 3); cbn; destruct AreRestrictedAssetsDeployed; now destruct s.
Qed.

(** ** Asset data that parses *)

(** What the code reads of an output when it disconnects it. *)
Definition output_readable (o : CTxOut) : Prop :=
  let s := scriptPubKey o in
  (is_some (IsScriptTransferAsset s) = true ->
     is_Some (TransferAssetFromScript node_Hash160 EncodeDestination AreTransferScriptsSizeDeployed s)) /\
  (IsNullAssetTxDataScript s = true -> is_Some (AssetNullDataFromScript node_Hash160 EncodeDestination s)) /\
  (IsNullGlobalRestrictionAssetTxDataScript s = true -> is_Some (GlobalAssetNullDataFromScript s)) /\
  (IsNullAssetVerifierTxDataScript s = true -> is_Some (AssetNullVerifierDataFromScript s)).

Definition unique_readable (o : CTxOut) : Prop :=
  is_some (IsScriptNewUniqueAsset (scriptPubKey o)) = true ->
  is_Some (AssetFromScript node_Hash160 EncodeDestination (scriptPubKey o)).

(** The asset data of a transaction parses; one that issues a restricted asset
    has a verifier string. *)
Definition readable tx : Prop :=
  (if tx_IsNewAsset tx then is_Some (AssetFromTransaction tx) /\ is_Some (OwnerFromTransaction tx)
   else if tx_IsReissueAsset tx then is_Some (ReissueAssetFromTransaction tx)
   else if tx_IsNewUniqueAsset tx then Forall unique_readable (vout tx)
   else if tx_IsNewMsgChannelAsset tx then is_Some (MsgChannelAssetFromTransaction tx)
   else if tx_IsNewQualifierAsset tx then is_Some (QualifierAssetFromTransaction tx)
   else if tx_IsNewRestrictedAsset tx then is_Some (RestrictedAssetFromTransaction tx) /\ 0 < count has_verifier (vout tx)
   else True) /\ Forall output_readable (vout tx).

Lemma accepted_outputs mempool block outs s : scanned mempool block outs s -> Forall output_readable outs.
Proof.
  intros S; pose proof (sc_transfers _ _ _ _ S) as T; pose proof (sc_null _ _ _ _ S) as N; clear S.
  rewrite Forall_forall in *; intros o I; destruct (N o I) as (N1 & N2 & N3); unfold has_verifier in N3.
  split; [|split; [|split]].
  - intros K; destruct (T o I) as (_ & t & addr & ty & E & _); [|rewrite E; eauto].
    unfold IsTransferAsset, IsScriptTransferAsset in *; destruct (IsAssetScript _) as [[[[] ?] ?]|]; easy.
  - intros K; destruct (N1 K) as (d & addr & E & _); rewrite E; eauto.
  - intros K; destruct (N2 K) as (d & E & _); rewrite E; eauto.
  - intros K; specialize (N3 K); unfold CheckVerifierAssetTxOut in N3; destruct (AssetNullVerifierDataFromScript _); easy.
Qed.

Lemma checked_uniques outs : check_uniques outs = Ok tt -> Forall unique_readable outs.
Proof.
  induction outs as [|o outs IH]; intros R; cbn [check_uniques] in R; constructor; apply bind_ok in R; destruct R as ([] & E & R); auto.
  intros K; rewrite K in E; destruct (AssetFromScript _ _ _) as [[]|]; [eauto|discriminate].
Qed.

(** [CheckTransaction] has parsed the data. *)
Lemma CheckTransaction_readable tx dup mempool block : CheckTransaction tx dup mempool block = Ok tt -> readable tx.
Proof.
  intros R; destruct (CheckTransaction_inv _ _ _ _ R) as (sc & nr & re & A); pose proof (ac_scan _ _ _ _ _ _ _ A) as S.
  split; [|exact (accepted_outputs _ _ _ _ S)].
  pose proof (ac_issuance _ _ _ _ _ _ _ A) as C; pose proof (ac_restricted _ _ _ _ _ _ _ A) as Nr.
  pose proof (sc_verifier _ _ _ _ S) as N; clear R A S; unfold check_issuance in C.
  repeat match type of C with (if ?x then _ else _) = _ => destruct x end; auto;
    apply bind_ok in C; destruct C as (r & C & D).
  - unfold check_new_asset in C; apply bind_ok in C; destruct C as (_ & _ & C).
    destruct (AssetFromTransaction tx) as [[]|]; [|discriminate]; apply bind_ok in C; destruct C as (u & C & _).
    apply check_ok in C; unfold IsNewOwnerTxValid in C; destruct (OwnerFromTransaction tx); [eauto|discriminate].
  - unfold check_reissue in C; apply bind_ok in C; destruct C as (_ & _ & C).
    destruct (ReissueAssetFromTransaction tx); [eauto|discriminate].
  - unfold check_new_unique in C; apply bind_ok in C; destruct C as (_ & _ & C); destruct r; now apply checked_uniques.
  - unfold check_new_channel in C; apply bind_ok in C; destruct C as (_ & _ & C).
    destruct (MsgChannelAssetFromTransaction tx); [eauto|discriminate].
  - unfold check_new_qualifier in C; apply bind_ok in C; destruct C as (_ & _ & C).
    destruct (QualifierAssetFromTransaction tx); [eauto|discriminate].
  - unfold check_new_restricted in C; apply bind_ok in C; destruct C as (_ & _ & C); injection D as <- _.
    destruct (RestrictedAssetFromTransaction tx); [split; [eauto|]|discriminate].
    rewrite N, Nr by reflexivity; lia.
Qed.

(** What was noted comes from the outputs. *)
Record seen_in (outs : list CTxOut) (seen : outputs_seen) : Prop := {
  si_transfers i s : In (i, s) (vAssetTxIndex seen) ->
    is_some (IsScriptTransferAsset s) = true /\ exists o, In o outs /\ scriptPubKey o = s;
  si_null s : In s (vNullAssetTxIndex seen) -> exists o, In o outs /\ scriptPubKey o = s;
  si_verifier s : verifierString seen = Some s -> has_verifier (mkTxOut 0 s) = true /\ exists o, In o outs /\ scriptPubKey o = s
}.

Lemma verifier_unspendable s : IsNullAssetVerifierTxDataScript s = true -> IsUnspendable s = true /\ IsNullAsset s = true.
Proof.
  intros E; split; [|unfold IsNullAsset; rewrite E; apply orb_true_r].
  unfold IsNullAssetVerifierTxDataScript in E; bool_to_prop.
  match goal with G : get s 0 = _ |- _ => unfold IsUnspendable; rewrite G end.
  replace (Z.of_nat (length s) >? 0) with true by (symmetry; apply Z.gtb_lt; lia); reflexivity.
Qed.

Lemma see_output_in outs matched i o seen : In o outs -> seen_in outs seen ->
  seen_in outs (see_output matched i (scriptPubKey o) seen) /\
  (AreRestrictedAssetsDeployed = true -> has_verifier o = true \/ is_Some (verifierString seen) ->
   is_Some (verifierString (see_output matched i (scriptPubKey o) seen))).
Proof.
  intros I [T N Ve]; pose proof (verifier_unspendable (scriptPubKey o)) as Un; unfold see_output, has_verifier.
  destruct (IsUnspendable (scriptPubKey o)); [destruct AreRestrictedAssetsDeployed, (IsNullAsset (scriptPubKey o)); cbn [andb];
    [destruct (IsNullAssetVerifierTxDataScript (scriptPubKey o)) eqn:K|..]|].
  - split; [split; cbn; auto|cbn; eauto]; intros s [= <-]; split; [exact K|eauto].
  - split; [split; cbn; auto|intros _ [K0|K0]; [discriminate|exact K0]].
    intros s J; apply in_app_or in J; destruct J as [J|[<-|[]]]; eauto.
  - split; [split; auto|intros _ [K0|K0]; [now apply Un in K0|exact K0]].
  - split; [split; auto|discriminate].
  - split; [split; auto|discriminate].
  - split; [split; cbn; auto|intros _ [K0|K0]; [now apply Un in K0|exact K0]].
    intros j s J; destruct (AreAssetsDeployed && is_some _) eqn:K; [|eauto].
    apply in_app_or in J; destruct J as [J|[[= <- <-]|[]]]; eauto; bool_to_prop; eauto.
Qed.

Lemma take_outputs_in all id cb height outs : forall o temp seen st, (forall x, In x outs -> In x all) -> seen_in all seen ->
  let seen' := fst (fst (take_outputs DynamicUsage fAssetIndex id cb height outs o temp seen st)) in
  seen_in all seen' /\
  (AreRestrictedAssetsDeployed = true -> 0 < count has_verifier outs \/ is_Some (verifierString seen) -> is_Some (verifierString seen')).
Proof.
  induction outs as [|out outs IH]; intros o temp seen st Sub S; cbn [take_outputs].
  { split; [exact S|intros _ [K|K]; [now unfold count in K|exact K]]. }
  destruct (if IsUnspendable _ then _ else _) as [[m temp1] st1].
  destruct (see_output_in all m o out seen (Sub out (or_introl eq_refl)) S) as [S1 V1].
  destruct (IH (o + 1) temp1 _ st1 (fun x I => Sub x (or_intror I)) S1) as [S2 V2]; split; [exact S2|].
  intros D K; apply (V2 D); rewrite count_cons in K; destruct (has_verifier out); [right; auto|].
  destruct K as [K|K]; [left; lia|right; auto].
Qed.

(** ** When the assets can be disconnected *)

(** A node without the asset index that is not reindexing, with restricted
    assets active; the cache of asset data is a proper one. *)
Record settled (g : assets_state) : Prop := {
  se_index : fAssetIndex = false;
  se_reindex : fReindex = false;
  se_restricted : AreRestrictedAssetsDeployed = true;
  se_cache : LruCache.lru_ok (passetsCache g)
}.

Lemma settled_cache g f : settled g -> LruCache.lru_ok (f (passetsCache g)) -> settled (with_cache f g).
Proof. intros [A B C _] L; now split. Qed.

(** What makes [CheckIfAssetExists] find an asset. *)
Definition known (name : bytes) (c : CAssetsCache) (g : assets_state) : Prop :=
  ToRemove (setNewAssets c) !! name = None /\ ToRemove (setNewAssets (passets g)) !! name = None /\
  (is_Some (ToAdd (setNewAssets c) !! name) \/ is_Some (ToAdd (setNewAssets (passets g)) !! name) \/
   LruCache.Exists (passetsCache g) name = true \/ is_Some (ReadAssetData (passetsdb g) name)).

Lemma exists_known name c g : fst (CheckIfAssetExists false true name c g) = true <-> known name c g.
Proof.
  unfold CheckIfAssetExists, known.
  destruct (ToRemove (setNewAssets c) !! name); [cbn; split; [discriminate|intros ([=] & _)]|].
  destruct (ToRemove (setNewAssets (passets g)) !! name); [cbn; split; [discriminate|intros (_ & [=] & _)]|].
  destruct (ToAdd (setNewAssets c) !! name); [cbn; split; eauto 8|].
  destruct (ToAdd (setNewAssets (passets g)) !! name); [cbn; split; eauto 8|]; cbn [bool_decide is_Some andb].
  destruct (LruCache.Exists (passetsCache g) name); [cbn; split; eauto 8|].
  destruct (ReadAssetData (passetsdb g) name); cbn [fst]; [split; eauto 8|].
  split; [discriminate|intros (_ & _ & [K|[K|[K|K]]]); [now destruct K|now destruct K|discriminate|now destruct K]].
Qed.

Lemma exists_again name c g : settled g ->
  settled (snd (CheckIfAssetExists false true name c g)) /\
  (known name c g -> known name c (snd (CheckIfAssetExists false true name c g))).
Proof.
  intros S; unfold CheckIfAssetExists; repeat match goal with |- context [if ?x then _ else _] => destruct x; [now split|] end.
  destruct (ReadAssetData (passetsdb g) name) as [d|] eqn:R; [cbn [snd]|now split]; split.
  - apply settled_cache; [exact S|]; apply Put_ok, (se_cache _ S).
  - intros (A & B & _); split; [exact A|]; split; [exact B|]; cbn; rewrite R; eauto.
Qed.

Lemma known_data name h b c g : settled g -> known name c g ->
  is_Some (fst (GetAssetMetaDataIfExists name h b c g)) /\ settled (snd (GetAssetMetaDataIfExists name h b c g)).
Proof.
  intros S (A & B & K); pose proof (se_cache _ S) as L; unfold GetAssetMetaDataIfExists.
  destruct (mapReissuedAssetData c !! name); [cbn; eauto|]; destruct (mapReissuedAssetData (passets g) !! name); [cbn; eauto|].
  rewrite A, B; cbn [bool_decide is_Some]; destruct (ToAdd (setNewAssets c) !! name); [cbn; eauto|].
  destruct (ToAdd (setNewAssets (passets g)) !! name); [cbn; eauto|].
  pose proof (Get_ok name (passetsCache g) L) as G; destruct (LruCache.Get name (passetsCache g)) as [[d c']|].
  { cbn; split; [eauto|]; apply settled_cache; [exact S|apply G]. }
  destruct (ReadAssetData (passetsdb g) name) as [d|].
  { cbn; split; [eauto|]; apply settled_cache; [exact S|]; apply Put_ok, L. }
  exfalso; destruct K as [K|[K|[K|K]]]; try (now destruct K); unfold LruCache.Exists in K.
  apply bool_decide_eq_true, (index_keys _ _ L) in K; contradiction.
Qed.

Lemma remove_asset_some asset s : settled s.2 -> exists s', remove_asset fAssetIndex fReindex asset s = Some s' /\ settled s'.2.
Proof.
  intros S; unfold remove_asset, RemoveNewAsset; rewrite (se_reindex _ S).
  destruct (exists_again (na_strName asset.1) s.1 s.2 S) as [S1 K1]; pose proof (exists_known (na_strName asset.1) s.1 s.2) as E.
  destruct (CheckIfAssetExists false true (na_strName asset.1) s.1 s.2) as [[] g1]; cbn [fst snd] in *; [|eauto].
  destruct (exists_again (na_strName asset.1) s.1 g1 S1) as [S2 _].
  pose proof (proj2 (exists_known _ _ _) (K1 (proj1 E eq_refl))) as F.
  destruct (CheckIfAssetExists false true (na_strName asset.1) s.1 g1) as [r g2]; cbn [fst snd] in *; subst r; cbn [negb]; eauto.
Qed.

Lemma remove_uniques_some outs : Forall unique_readable outs -> forall s, settled s.2 ->
  exists s', remove_uniques fAssetIndex fReindex outs s = Some s' /\ settled s'.2.
Proof.
  induction 1 as [|o outs U _ IH]; intros s S; cbn [remove_uniques]; [eauto|]; unfold unique_readable in U.
  destruct (is_some _); [|auto]; destruct (U eq_refl) as [a ->]; cbn.
  destruct (remove_asset_some a s S) as (s1 & E & S1); rewrite E; cbn; auto.
Qed.

Lemma remove_reissue_some tx id vUndo s : is_Some (ReissueAssetFromTransaction tx) -> settled s.2 ->
  exists s', remove_reissue fAssetIndex fReindex tx id vUndo s = Some s' /\ settled s'.2.
Proof.
  intros [[r addr] E] S; unfold remove_reissue, RemoveReissueAsset; rewrite E; cbn; rewrite (se_reindex _ S), (se_index _ S).
  destruct (exists_again (ra_strName r) s.1 s.2 S) as [S1 K1]; pose proof (exists_known (ra_strName r) s.1 s.2) as X.
  destruct (CheckIfAssetExists false true (ra_strName r) s.1 s.2) as [[] g1]; cbn [fst snd] in *; [|eauto].
  destruct (known_data (ra_strName r) left_height (repeat 0 32) s.1 g1 S1 (K1 (proj1 X eq_refl))) as [[[[a h] b] D] S2].
  destruct (GetAssetMetaDataIfExists _ _ _ _ _) as [d g2]; cbn [fst snd] in *; subst d.
  destruct (undo_reissue _ _ _) as [a' v]; eauto.
Qed.

Lemma disconnect_issue_some tx id seen vUndo s : readable tx -> seen_in (vout tx) seen ->
  (0 < count has_verifier (vout tx) -> is_Some (verifierString seen)) -> settled s.2 ->
  exists s', disconnect_issue fAssetIndex fReindex tx id (verifierString seen) vUndo s = Some s' /\ settled s'.2.
Proof.
  intros [R Ro] Sn Vs S; unfold disconnect_issue.
  destruct (tx_IsNewAsset tx).
  { destruct R as [[a ->] [[n addr] ->]]; cbn; destruct (remove_asset_some a s S) as (s1 & -> & S1); cbn; eauto. }
  destruct (tx_IsReissueAsset tx); [now apply remove_reissue_some|].
  destruct (tx_IsNewUniqueAsset tx); [now apply remove_uniques_some|].
  destruct (tx_IsNewMsgChannelAsset tx); [destruct R as [a ->]; now apply remove_asset_some|].
  destruct (tx_IsNewQualifierAsset tx); [destruct R as [a ->]; now apply remove_asset_some|].
  destruct (tx_IsNewRestrictedAsset tx); [|eauto].
  destruct R as [[a ->] Cv]; cbn; destruct (remove_asset_some a s S) as (s1 & -> & S1); cbn.
  destruct (Vs Cv) as [script E]; rewrite E; cbn; destruct (si_verifier _ _ Sn script E) as (Hv & o & Io & <-).
  rewrite Forall_forall in Ro; destruct (proj2 (proj2 (proj2 (Ro o (proj2 (list_elem_of_In _ _) Io)))) Hv) as [v ->]; cbn; eauto.
Qed.

Lemma disconnect_transfers_some outs id l : Forall output_readable outs ->
  (forall i s, In (i, s) l -> is_some (IsScriptTransferAsset s) = true /\ exists o, In o outs /\ scriptPubKey o = s) ->
  forall s, settled s.2 -> exists s', disconnect_transfers fAssetIndex id l s = Some s' /\ settled s'.2.
Proof.
  intros Ro; induction l as [|[i script] l IH]; intros L s S; cbn [disconnect_transfers]; [eauto|].
  destruct (L i script (or_introl eq_refl)) as (T & o & Io & <-); rewrite Forall_forall in Ro.
  destruct (proj1 (Ro o (proj2 (list_elem_of_In _ _) Io)) T) as [[t addr] ->]; cbn.
  assert (Rm : fst (RemoveTransfer fAssetIndex t addr (mkOutPoint id i) s.2 s.1) = true)
    by (unfold RemoveTransfer, UndoTransfer; now rewrite (se_index _ S)).
  destruct (RemoveTransfer _ _ _ _ _ _) as [ok c]; cbn [fst] in Rm; subst ok.
  apply IH; [intros j s0 J; apply (L j); now right|exact S].
Qed.

Lemma disconnect_null_some outs l : Forall output_readable outs -> (forall s, In s l -> exists o, In o outs /\ scriptPubKey o = s) ->
  forall c, is_Some (disconnect_null_outputs l c).
Proof.
  intros Ro; induction l as [|script l IH]; intros L c; cbn [disconnect_null_outputs]; [eauto|].
  destruct (L script (or_introl eq_refl)) as (o & Io & <-); rewrite Forall_forall in Ro.
  destruct (Ro o (proj2 (list_elem_of_In _ _) Io)) as (_ & N & G & _).
  assert (D : is_Some (disconnect_null_data (scriptPubKey o) c)).
  { unfold disconnect_null_data; destruct (IsNullAssetTxDataScript _); [destruct (N eq_refl) as [[d addr] ->]; cbn; eauto|].
    destruct (IsNullGlobalRestrictionAssetTxDataScript _); [destruct (G eq_refl) as [d ->]; cbn; eauto|eauto]. }
  destruct D as [c' ->]; cbn; apply IH; intros s I; apply L; now right.
Qed.

(** Assets whose data parses are disconnected without an error. *)
Lemma disconnect_assets_some tx id seen vUndo s : readable tx -> seen_in (vout tx) seen ->
  (0 < count has_verifier (vout tx) -> is_Some (verifierString seen)) -> settled s.2 ->
  exists s', disconnect_assets fAssetIndex fReindex tx id seen vUndo s = Some s' /\ settled s'.2.
Proof.
  intros R Sn Vs S; unfold disconnect_assets.
  destruct (disconnect_issue_some tx id seen vUndo s R Sn Vs S) as (s1 & -> & S1); cbn.
  destruct (disconnect_transfers_some (vout tx) id (vAssetTxIndex seen) (proj2 R) (si_transfers _ _ Sn) s1 S1) as (s2 & -> & S2); cbn.
  rewrite (se_restricted _ S2); destruct (disconnect_null_some (vout tx) (vNullAssetTxIndex seen) (proj2 R) (si_null _ _ Sn) s2.1) as [c ->].
  cbn; eauto.
Qed.

Definition undo_of tx (spent : list Coin) : option (list Coin) := if IsCoinBase tx then None else Some spent.
Definition quiet tx (spent : list Coin) : Prop :=
  AreAssetsDeployed = false \/ (Forall plain (vout tx) /\ Forall plain_coin spent).

Lemma taken_assets tx height vUndo clean temp st seen temp1 st1 :
  take_outputs DynamicUsage fAssetIndex (txid tx) (IsCoinBase tx) height (vout tx) 0 temp (mkSeen clean [] [] None) st =
    (seen, temp1, st1) -> globals st1 = globals st -> readable tx -> settled (globals st) ->
  exists s', (if AreAssetsDeployed then disconnect_assets fAssetIndex fReindex tx (txid tx) seen vUndo (assets st1, globals st1)
              else Some (assets st1, globals st1)) = Some s' /\ settled s'.2.
Proof.
  intros E1 G1 R S; rewrite <- G1 in S; destruct AreAssetsDeployed; [|eauto].
  destruct (take_outputs_in (vout tx) (txid tx) (IsCoinBase tx) height (vout tx) 0 temp (mkSeen clean [] [] None) st
    (fun _ I => I)) as [Sn Vs]; [now split|]; rewrite E1 in Sn, Vs; cbn [fst] in *.
  apply disconnect_assets_some; auto; intros K; apply (Vs (se_restricted _ S)); now left.
Qed.

Lemma disconnect_tx_spec tx spent height vUndo clean temp u st : 0 < height < 2 ^ 31 ->
  new_id tx u -> (IsCoinBase tx = false -> spends tx u spent) -> coins_ok u ->
  cache_ok (coins st) -> utxo_of st = apply_tx height u tx ->
  exists r, disconnect_tx DynamicUsage fAssetIndex fReindex tx (undo_of tx spent) height vUndo clean temp st = Ok r /\
    match r with
    | Some (clean', temp', st') => cache_ok (coins st') /\ utxo_of st' = u /\
        (quiet tx spent -> clean' = clean /\ temp' = temp /\ assets st' = assets st /\ globals st' = globals st) /\
        (readable tx -> settled (globals st) -> settled (globals st'))
    | None => ~ quiet tx spent /\ ~ (readable tx /\ settled (globals st))
    end.
Proof.
  intros B F S Ok O U; unfold disconnect_tx.
  assert (F' : new_id tx (spend_tx tx u)) by now apply new_id_spend.
  destruct (take_outputs_spec (txid tx) (IsCoinBase tx) height (vout tx) ltac:(unfold in_u; lia) 0 temp
    (mkSeen clean [] [] None) st O) as (seen & temp1 & st1 & E1 & O1 & U1 & A1 & G1 & C1 & P1).
  { intros k out N Sp; rewrite U; unfold apply_tx; now apply spec_add_here. }
  fold (txid tx); rewrite E1; rewrite U in U1; unfold apply_tx in U1; rewrite drop_spec_add in U1 by (intros n _; apply F').
  assert (Q1 : quiet tx spent -> (if AreAssetsDeployed then disconnect_assets fAssetIndex fReindex tx (txid tx) seen vUndo
      (assets st1, globals st1) else Some (assets st1, globals st1)) = Some (assets st, globals st) /\
      fClean seen = clean /\ temp1 = temp).
  { rewrite <- A1, <- G1; intros [D|[P _]]; [rewrite D; destruct (C1 D); auto|].
    destruct (P1 P) as [-> ->]; rewrite plain_assets by exact P; destruct AreAssetsDeployed; auto. }
  pose proof (taken_assets tx height vUndo clean temp st seen temp1 st1 E1 G1) as R1.
  destruct (if AreAssetsDeployed then _ else _) as [[c g]|];
    [|exists None; split; [reflexivity|]; split; [intros Q; now apply Q1 in Q|intros [R S0]; now destruct (R1 R S0) as (s' & [=] & _)]].
  assert (R2 : readable tx -> settled (globals st) -> settled g)
    by (intros R S0; destruct (R1 R S0) as (s' & [= <-] & S'); exact S'); clear R1.
  unfold undo_of, spend_tx in *; destruct (IsCoinBase tx) eqn:CB.
  { eexists; split; [reflexivity|]; cbn [with_assets coins assets globals]; split_all; auto.
    intros Q; destruct (Q1 Q) as ([= <- <-] & -> & ->); auto. }
  specialize (S eq_refl); destruct (spends_zip _ _ _ S) as (E & N & Z).
  rewrite E, Nat.eqb_refl; cbn [negb].
  destruct (restore_inputs_spec (rev (zip (vin tx) spent)) (fClean seen) (with_assets c g st1) O1 N)
    as (clean2 & st2 & E2 & O2 & U2 & G2 & K2).
  { apply Forall_forall; intros e I; rewrite Forall_forall in Z; specialize (Z e I); split; [now apply (Ok (prevout e.1))|].
    cbn [with_assets coins]; rewrite U1, spend_all_lookup, decide_True; [reflexivity|].
    rewrite <- (zip_keys (vin tx) spent E); apply list_elem_of_In, (in_map (fun e => prevout e.1)), in_rev; now apply list_elem_of_In. }
  rewrite E2; cbn [bind option_map]; eexists; split; [reflexivity|]; cbv beta iota; split_all; [exact O2| | |rewrite G2; exact R2].
  - rewrite U2; cbn [with_assets coins]; rewrite U1; now apply restored.
  - intros Q; destruct (Q1 Q) as ([= -> ->] & Cl & ->).
    destruct K2 as [-> A2]; [destruct Q as [D|[_ P]]; [now left|right]|cbn [with_assets assets globals] in *; auto].
    apply Forall_rev, Forall_forall; intros [i c0] I; apply elem_of_zip_r in I; rewrite Forall_forall in P; now apply P.
Qed.

(** ** A block applied and disconnected *)

Lemma spec_add_ok id cb height outs : 0 < height < 2 ^ 31 -> Forall (fun o => txout_IsNull o = false) outs ->
  forall u i, coins_ok u -> coins_ok (spec_add u id cb height outs i).
Proof.
  intros B; induction 1 as [|o outs No _ IH]; intros u i K; cbn [spec_add]; [exact K|]; apply IH.
  destruct (IsUnspendable _) eqn:Un; [exact K|]; intros p c L; apply lookup_insert_Some in L.
  destruct L as [[_ <-]|[_ L]]; [|now apply (K p)].
  unfold restorable, new_coin; cbn [coin_out nHeight]; unfold IsSpent; cbn [coin_out]; split_all; auto.
  rewrite wrap_id by (unfold in_u; lia); lia.
Qed.

Lemma apply_tx_ok height u tx : 0 < height < 2 ^ 31 -> Forall (fun o => txout_IsNull o = false) (vout tx) ->
  coins_ok u -> coins_ok (apply_tx height u tx).
Proof.
  intros B F K; apply spec_add_ok; [exact B|exact F|]; unfold spend_tx; destruct (IsCoinBase tx); [exact K|].
  intros p c; rewrite spend_all_lookup; destruct (decide _); [discriminate|apply K].
Qed.

(** The transactions of a block applied one after the other, each with a new
    identifier and with inputs that are there, and the coins they spent. *)
Inductive applied (height : Z) : list CTransaction -> list (list Coin) -> gmap COutPoint Coin -> gmap COutPoint Coin -> Prop :=
| applied_nil u : applied height [] [] u u
| applied_cons tx txs spent spents u u' :
    new_id tx u -> (IsCoinBase tx = false -> spends tx u spent) -> Forall (fun o => txout_IsNull o = false) (vout tx) ->
    applied height txs spents (apply_tx height u tx) u' ->
    applied height (tx :: txs) (spent :: spents) u u'.

Lemma disconnect_txs_app l1 l2 height vUndo : forall clean temp st,
  disconnect_txs DynamicUsage fAssetIndex fReindex (l1 ++ l2) height vUndo clean temp st =
  let! r := disconnect_txs DynamicUsage fAssetIndex fReindex l1 height vUndo clean temp st in
  match r with
  | None => Ok None
  | Some (clean, temp, st) => disconnect_txs DynamicUsage fAssetIndex fReindex l2 height vUndo clean temp st
  end.
Proof.
  induction l1 as [|[tx undo] l1 IH]; intros clean temp st; cbn [app disconnect_txs]; [reflexivity|].
  destruct (disconnect_tx _ _ _ _ _ _ _ _ _ _) as [[[[c t] s]|]|]; cbn [bind]; auto.
Qed.

(** Nothing in the transactions is about assets, or assets are not active. *)
Definition quiet_all (txs : list CTransaction) (spents : list (list Coin)) : Prop := Forall2 quiet txs spents.

Lemma disconnect_txs_spec height txs spents u u' : 0 < height < 2 ^ 31 -> applied height txs spents u u' -> coins_ok u ->
  forall vUndo clean temp st2, cache_ok (coins st2) -> utxo_of st2 = u' ->
  exists r, disconnect_txs DynamicUsage fAssetIndex fReindex (rev (zip txs (zip_with undo_of txs spents))) height vUndo clean temp st2
      = Ok r /\
    match r with
    | Some (clean', temp', st3) => cache_ok (coins st3) /\ utxo_of st3 = u /\
        (quiet_all txs spents -> clean' = clean /\ temp' = temp /\ assets st3 = assets st2 /\ globals st3 = globals st2) /\
        (Forall readable txs -> settled (globals st2) -> settled (globals st3))
    | None => ~ quiet_all txs spents /\ ~ (Forall readable txs /\ settled (globals st2))
    end.
Proof.
  intros B A; induction A as [u|tx txs spent spents u u' New Ins F1 A IH]; intros K vUndo clean temp st2 O2 U2.
  { eexists; split; [reflexivity|]; cbv beta iota; split_all; auto. }
  cbn [zip zip_with rev]; rewrite disconnect_txs_app.
  destruct (IH (apply_tx_ok _ _ _ B F1 K) vUndo clean temp st2 O2 U2) as (r & E & R).
  rewrite E; cbn [bind].
  destruct r as [[[clean1 temp1] st3]|]; [|exists None; split; [reflexivity|]; destruct R as [R1 R2];
    split; [intros Q; inversion Q; auto|intros [Q S0]; inversion Q; auto]].
  destruct R as (O3 & U3 & Q3 & S3); cbn [disconnect_txs].
  destruct (disconnect_tx_spec tx spent height vUndo clean1 temp1 u st3 B New) as (r & E4 & R); auto.
  rewrite E4; cbn [bind]; destruct r as [[[clean2 temp2] st4]|]; [|exists None; split; [reflexivity|]; destruct R as [R1 R2];
    split; [intros Q; inversion Q; auto|intros [Q S0]; inversion Q; auto]].
  eexists; split; [reflexivity|]; destruct R as (O4 & U4 & Q4 & S4); cbv beta iota; split_all; auto.
  - intros Q; inversion Q as [|? ? ? ? Q0 Q1]; subst; destruct (Q3 Q1) as (-> & -> & A3 & G3).
    destruct (Q4 Q0) as (-> & -> & A4 & G4); split_all; congruence.
  - intros Q S0; inversion Q; auto.
Qed.

Lemma applied_length height txs spents u u' : applied height txs spents u u' -> length txs = length spents.
Proof. induction 1; cbn; lia. Qed.

(** The undo data of the transactions after the coinbase, as [DisconnectBlock]
    pairs it. *)
Lemma undo_data txs spents : Forall (fun tx => IsCoinBase tx = false) txs -> length txs = length spents ->
  zip_with undo_of txs spents = map Some spents.
Proof.
  intros F; revert spents; induction F as [|tx txs CB _ IH]; intros [|c cs] L; cbn in *; try discriminate; [reflexivity|].
  unfold undo_of at 1; rewrite CB; f_equal; apply IH; lia.
Qed.

(** Disconnecting a block undoes it, on any state with the same unspent
    outputs. *)
Lemma Disconnect_restores height prevHash cb txs spent spents u u' vUndo st2 : 0 < height < 2 ^ 31 -> coins_ok u ->
  IsCoinBase cb = true -> Forall (fun tx => IsCoinBase tx = false) txs ->
  applied height (cb :: txs) (spent :: spents) u u' -> cache_ok (coins st2) -> utxo_of st2 = u' ->
  exists r, DisconnectBlock DynamicUsage fAssetIndex fReindex (cb :: txs) height prevHash (Some spents) (Some vUndo) st2 = Ok r /\
    match r with
    | (DISCONNECT_FAILED, None) => ~ quiet_all (cb :: txs) (spent :: spents) /\
        ~ (Forall readable (cb :: txs) /\ settled (globals st2))
    | (DISCONNECT_FAILED, Some _) => False
    | (_, None) => False
    | (res, Some st3) => cache_ok (coins st3) /\ utxo_of st3 = u /\ hashBlock (coins st3) = prevHash /\
        (quiet_all (cb :: txs) (spent :: spents) ->
           res = DISCONNECT_OK /\ assets st3 = assets st2 /\ globals st3 = globals st2)
    end.
Proof.
  intros B K CB F A O2 U2; unfold DisconnectBlock.
  pose proof (applied_length _ _ _ _ _ A) as L; cbn [length] in L.
  replace (negb _) with false by (cbn [length]; symmetry; apply negb_false_iff, Nat.eqb_eq; lia).
  destruct (disconnect_txs_spec _ _ _ _ _ B A K vUndo true (assets st2) st2 O2 U2) as (r & E & R).
  cbn [zip_with] in E; rewrite undo_data in E by (auto; lia); unfold undo_of in E; rewrite CB in E; cbn [zip_with]; rewrite E; cbn [bind].
  eexists; split; [reflexivity|]; destruct r as [[[clean temp] st3]|]; [|exact R].
  destruct R as (O3 & U3 & Q3 & _); assert (G : cache_ok (SetBestBlock (coins st3) prevHash) /\
    cache_utxo (SetBestBlock (coins st3) prevHash) = utxo_of st3) by (split; [destruct O3; now split|reflexivity]).
  destruct clean; cbn [with_coins coins assets globals]; split_all; try apply G; auto; try (now rewrite (proj2 G)); try reflexivity.
  - intros Q; destruct (Q3 Q) as (_ & _ & ? & ?); auto.
  - intros Q; destruct (Q3 Q) as ([=] & _).
Qed.
End Coins.
