(* ===== verification/History.v ===== *)
(** The unspent outputs of a chain as a function of the transactions applied
    to it: why identifiers do not repeat, and how much money there is.

    The operations are those of [Connect] ([UpdateCoins] of
    src/validation.cpp, [AddCoins] of src/coins.cpp), seen through the finite
    map of unspent outputs that the caches stand for.  BIP30, the check that
    no transaction overwrites an older one, is commented out in
    [ConnectBlock]; the invariant here is what replaces it. *)

From stdpp Require Import base gmap list fin_maps.
From Stdlib Require Import ZArith Lia.
From S2P Require Import Prelude Serialize Script Standard Transaction Compressor AssetTypes Coins AssetTx TxCheck TxInputs Connect.
Open Scope Z_scope.

(** * Identifiers *)

Section History.
Context {node : Node}.
Implicit Types (u : gmap COutPoint Coin) (tx : CTransaction) (hist : list CTransaction).

(** The output that [p] names is one of a transaction of the history. *)
Definition named hist (p : COutPoint) (out : CTxOut) : Prop :=
  exists tx, In tx hist /\ txid tx = op_hash p /\ nth_error (vout tx) (Z.to_nat (op_n p)) = Some out.
Definition origins hist u : Prop := forall p c, u !! p = Some c -> named hist p (coin_out c).

(** Every unspent output comes from a transaction of the history; what a
    transaction of the history spent is gone, and came from there too. *)
Record history_ok hist u : Prop := {
  ho_origin : origins hist u;
  ho_spent tx i : In tx hist -> IsCoinBase tx = false -> In i (vin tx) ->
    u !! prevout i = None /\ exists tx', In tx' hist /\ txid tx' = op_hash (prevout i)
}.

(** Transactions with the same identifier differ in witnesses only. *)
Definition no_collisions (l : list CTransaction) : Prop :=
  forall tx tx', In tx l -> In tx' l -> txid tx = txid tx' -> strip_tx tx = strip_tx tx'.

Definition fresh hist tx : Prop := forall tx', In tx' hist -> txid tx' <> txid tx.

Lemma same_prevouts tx tx' : strip_tx tx = strip_tx tx' -> map prevout (vin tx) = map prevout (vin tx').
Proof.
  intros E; apply (f_equal vin) in E; cbn [strip_tx vin] in E.
  apply (f_equal (map prevout)) in E; rewrite !map_map in E; exact E.
Qed.

Lemma same_coinbase tx tx' : strip_tx tx = strip_tx tx' -> IsCoinBase tx = IsCoinBase tx'.
Proof.
  intros E; apply same_prevouts in E; unfold IsCoinBase.
  destruct (vin tx) as [|i [|]], (vin tx') as [|i' [|]]; cbn in E; try discriminate; auto; now injection E as ->.
Qed.

Lemma history_empty : history_ok [] ∅.
Proof. split; [intros p c; rewrite lookup_empty; discriminate|intros tx i []]. Qed.

(** A name stands for one output. *)
Lemma named_once hist p out out' : no_collisions hist -> named hist p out -> named hist p out' -> out = out'.
Proof.
  intros N (tx & I & E & L) (tx' & I' & E' & L').
  assert (S : strip_tx tx = strip_tx tx') by (apply N; congruence).
  apply (f_equal vout) in S; cbn [strip_tx vout] in S; congruence.
Qed.

Lemma named_sub hist hist' p out : (forall tx, In tx hist -> In tx hist') -> named hist p out -> named hist' p out.
Proof. intros S (tx & I & E); exists tx; auto. Qed.

Lemma spec_add_lookup id cb height outs : forall u i p c, spec_add u id cb height outs i !! p = Some c ->
  u !! p = Some c \/ op_hash p = id /\ exists k, op_n p = i + Z.of_nat k /\ nth_error outs k = Some (coin_out c).
Proof.
  induction outs as [|o outs IH]; intros u i p c L; cbn [spec_add] in L; [now left|].
  apply IH in L; destruct L as [L|(E & k & K & L)]; [|right; split; [exact E|exists (S k); split; [lia|exact L]]].
  destruct (IsUnspendable _); [now left|]; apply lookup_insert_Some in L; destruct L as [[<- <-]|[_ L]]; [|now left].
  right; split; [reflexivity|exists 0%nat; split; [cbn; lia|reflexivity]].
Qed.

(** A transaction that spends unspent outputs is new: had it been there
    before, they would be spent. *)
Lemma fresh_tx hist u tx cs : history_ok hist u -> no_collisions (tx :: hist) -> IsCoinBase tx = false -> vin tx <> [] ->
  spends tx u cs -> fresh hist tx.
Proof.
  intros K N CB V [L _] tx' I E; assert (S : strip_tx tx' = strip_tx tx) by (apply N; [now right|now left|exact E]).
  destruct (vin tx) as [|i ins] eqn:Vi; [now destruct V|].
  assert (P : In (prevout i) (map prevout (vin tx'))) by (rewrite (same_prevouts _ _ S), Vi; now left).
  apply in_map_iff in P; destruct P as (i' & P & I'); rewrite <- (same_coinbase _ _ S) in CB.
  destruct (ho_spent _ _ K tx' i' I CB I') as [G _]; inversion L; congruence.
Qed.

Lemma fresh_new_id hist u tx : history_ok hist u -> fresh hist tx -> new_id tx u.
Proof.
  intros K F n; destruct (u !! _) as [c|] eqn:E; [|reflexivity]; destruct (ho_origin _ _ K _ _ E) as (tx' & I & Id & _).
  exfalso; exact (F tx' I Id).
Qed.

Lemma spend_tx_sub tx u p c : spend_tx tx u !! p = Some c -> u !! p = Some c.
Proof. unfold spend_tx; destruct (IsCoinBase tx); [auto|]; rewrite spend_all_lookup; now destruct (decide _). Qed.

Lemma origins_apply hist u tx height : In tx hist -> origins hist u -> origins hist (apply_tx height u tx).
Proof.
  intros I K p c L; apply spec_add_lookup in L; destruct L as [L|(E & k & En & L)]; [now apply K, (spend_tx_sub tx)|].
  exists tx; split; [exact I|]; split; [now symmetry|]; rewrite En; now replace (Z.to_nat (0 + Z.of_nat k)) with k by lia.
Qed.

Lemma history_step hist u tx height cs : history_ok hist u -> fresh hist tx -> (IsCoinBase tx = false -> spends tx u cs) ->
  history_ok (tx :: hist) (apply_tx height u tx).
Proof.
  intros K F S; split.
  - apply origins_apply; [now left|]; intros p c L; eapply named_sub; [|exact (ho_origin _ _ K _ _ L)]; intros t I; now right.
  - intros tx' i [<-|I] CB Ii.
    + destruct (S CB) as [L _]; assert (Sp : exists c, u !! prevout i = Some c).
      { clear - L Ii; induction L; [destruct Ii|destruct Ii as [<-|Ii]; eauto]. }
      destruct Sp as [c Sp]; destruct (ho_origin _ _ K _ _ Sp) as (t & It & Et & _).
      split; [|exists t; split; [now right|exact Et]].
      unfold apply_tx; rewrite spec_add_other by (left; rewrite <- Et; now apply F).
      unfold spend_tx; rewrite CB, spend_all_lookup, decide_True; [reflexivity|].
      apply list_elem_of_In, in_map_iff; eauto.
    + destruct (ho_spent _ _ K tx' i I CB Ii) as [G (t & It & Et)]; split; [|exists t; split; [now right|exact Et]].
      unfold apply_tx; rewrite spec_add_other by (left; rewrite <- Et; now apply F).
      destruct (spend_tx tx u !! prevout i) as [c|] eqn:E; [|reflexivity]; apply spend_tx_sub in E; congruence.
Qed.
End History.

(** * Money *)

Definition value (c : Coin) : Z := nValue (coin_out c).
(** The amounts of all unspent outputs. *)
Definition supply (u : gmap COutPoint Coin) : Z := map_fold (fun _ c acc => value c + acc) 0 u.

Lemma supply_empty : supply ∅ = 0.
Proof. apply map_fold_empty. Qed.

Lemma supply_insert u p c : u !! p = None -> supply (<[p := c]> u) = value c + supply u.
Proof. intros L; unfold supply; rewrite map_fold_insert_L; [reflexivity|intros; lia|exact L]. Qed.

Lemma supply_delete u p c : u !! p = Some c -> supply (delete p u) = supply u - value c.
Proof.
  intros L; pose proof (supply_insert (delete p u) p c (lookup_delete_eq u p)) as E.
  rewrite insert_delete_id in E by exact L; lia.
Qed.

Lemma supply_spend ins : forall u cs, Forall2 (fun i c => u !! prevout i = Some c) ins cs -> NoDup (map prevout ins) ->
  supply (spend_all ins u) = supply u - total cs.
Proof.
  induction ins as [|i ins IH]; intros u cs L N; inversion L as [|? c ? cs' Li Ls]; subst; [change (total []) with 0; cbn; lia|].
  cbn [spend_all fold_left map] in *; apply NoDup_cons in N; destruct N as [Ni N].
  change (fold_left _ ins (delete (prevout i) u)) with (spend_all ins (delete (prevout i) u)).
  rewrite IH with (cs := cs'); [rewrite (supply_delete _ _ _ Li), total_cons; unfold value; lia| |exact N].
  clear - Ls Ni; induction Ls as [|j c' js cs' Lj _ IH]; constructor.
  - rewrite lookup_delete_ne; [exact Lj|]; intros E; apply Ni, elem_of_cons; left; congruence.
  - apply IH; intros I; apply Ni, elem_of_cons; now right.
Qed.

Lemma supply_add id cb height outs : Forall (fun o => 0 <= nValue o) outs -> forall u i,
  (forall n, i <= n -> u !! mkOutPoint id n = None) ->
  supply (spec_add u id cb height outs i) <= supply u + sum (map nValue outs).
Proof.
  induction 1 as [|o outs B _ IH]; intros u i F; cbn [spec_add map]; [unfold sum; cbn; lia|].
  change (sum (nValue o :: map nValue outs)) with (nValue o + sum (map nValue outs)).
  destruct (IsUnspendable _).
  - specialize (IH u (i + 1) ltac:(intros n L; apply F; lia)); lia.
  - assert (F' : forall n, i + 1 <= n -> <[mkOutPoint id i := new_coin o height cb]> u !! mkOutPoint id n = None).
    { intros n L; rewrite lookup_insert_ne by (intros [=]; lia); apply F; lia. }
    specialize (IH _ _ F'); rewrite supply_insert in IH by (apply F; lia).
    unfold value in IH; cbn [new_coin coin_out] in IH; lia.
Qed.

(** A transaction adds at most what its outputs exceed its inputs by. *)
Lemma supply_apply {node : Node} height u tx cs : new_id tx u -> (IsCoinBase tx = false -> spends tx u cs) ->
  Forall (fun o => 0 <= nValue o) (vout tx) ->
  supply (apply_tx height u tx) <= supply u - (if IsCoinBase tx then 0 else total cs) + sum (map nValue (vout tx)).
Proof.
  intros N S B; unfold apply_tx; etransitivity; [apply supply_add; [exact B|intros n _; now apply new_id_spend]|].
  unfold spend_tx; destruct (IsCoinBase tx); [lia|]; destruct (S eq_refl) as [L D]; rewrite (supply_spend _ _ _ L D); lia.
Qed.

(** Amounts in range, heights of 31 bits, and coins that can be put back. *)
Definition coins_valid (u : gmap COutPoint Coin) : Prop :=
  forall p c, u !! p = Some c -> in_money c /\ 0 <= nHeight c < 2 ^ 31 /\ restorable c.

Lemma supply_nonneg u : coins_valid u -> 0 <= supply u.
Proof.
  unfold supply; induction u as [|p c u L IH] using map_ind; intros K; [rewrite map_fold_empty; lia|].
  rewrite map_fold_insert_L by (auto; intros; lia).
  destruct (K p c (lookup_insert_eq u p c)) as [M _]; unfold in_money in M; unfold value.
  enough (0 <= map_fold (fun _ c acc => value c + acc) 0 u) by (unfold value in *; lia).
  apply IH; intros q d Lq; apply (K q); rewrite lookup_insert_ne; [exact Lq|congruence].
Qed.

Lemma coins_valid_empty : coins_valid ∅.
Proof. intros p c; rewrite lookup_empty; discriminate. Qed.

Lemma coins_valid_apply {node : Node} height u tx : 0 < height < 2 ^ 31 ->
  Forall (fun o => 0 <= nValue o <= MAX_MONEY) (vout tx) -> coins_valid u -> coins_valid (apply_tx height u tx).
Proof.
  intros B F K; assert (K' : coins_valid (spend_tx tx u)) by (intros p c L; apply spend_tx_sub in L; now apply (K p)).
  unfold apply_tx; revert K'; generalize (spend_tx tx u), 0; clear K.
  induction F as [|o outs Bo _ IH]; intros v i K; cbn [spec_add]; [exact K|]; apply IH.
  destruct (IsUnspendable _) eqn:Un; [exact K|]; intros p c L; apply lookup_insert_Some in L.
  destruct L as [[_ <-]|[_ L]]; [|now apply (K p)].
  unfold in_money, restorable, IsSpent, txout_IsNull; cbn [new_coin coin_out nHeight].
  rewrite wrap_id by (unfold in_u; lia); split_all; try lia; try exact Un; apply Z.eqb_neq; lia.
Qed.

(** An asset output that is not of a reissue carries no coins:
    [CheckTransaction] makes sure of that with or without enforced values. *)
Definition carries_nothing (o : CTxOut) : Prop :=
  is_some (IsAssetScript (scriptPubKey o)) = true -> IsReissueAsset (scriptPubKey o) = false -> nValue o = 0.

(** What the outputs of a transaction carry that [GetValueOut] leaves out: the
    amounts of reissue outputs, before values are enforced. *)
Definition uncounted (enforced : bool) (tx : CTransaction) : Z :=
  if enforced then 0 else sum (map nValue (List.filter (fun o => IsReissueAsset (scriptPubKey o)) (vout tx))).

Lemma reissue_is_asset s : IsReissueAsset s = true -> is_some (IsAssetScript s) = true.
Proof. unfold IsReissueAsset; now destruct (IsAssetScript s). Qed.

Lemma value_out_rest enforced outs vo : Forall (fun o => 0 <= nValue o <= MAX_MONEY) outs -> Forall carries_nothing outs ->
  forall acc, 0 <= acc <= MAX_MONEY -> value_out_loop enforced outs acc = Some vo ->
  acc + sum (map nValue outs) =
    vo + if enforced then 0 else sum (map nValue (List.filter (fun o => IsReissueAsset (scriptPubKey o)) outs)).
Proof.
  induction 1 as [|o outs B _ IH]; intros N acc A R; cbn [value_out_loop map List.filter] in *; [injection R as <-; destruct enforced; reflexivity|].
  apply Forall_cons in N; destruct N as [No N]; pose proof (reissue_is_asset (scriptPubKey o)) as Ra; unfold carries_nothing in No.
  change (sum (nValue o :: map nValue outs)) with (nValue o + sum (map nValue outs)).
  destruct (negb enforced && is_some (IsAssetScript (scriptPubKey o))) eqn:Sk.
  - specialize (IH N _ A R); destruct enforced; [discriminate|]; cbn [negb andb] in Sk.
    destruct (IsReissueAsset (scriptPubKey o)); [|rewrite (No Sk eq_refl); lia].
    cbn [map]; unfold sum in *; cbn [fold_right]; lia.
  - rewrite s64_money in R by assumption.
    destruct (MoneyRange (nValue o)), (MoneyRange (acc + nValue o)) eqn:M; try discriminate R; apply MoneyRange_spec in M.
    specialize (IH N _ M R); destruct enforced; [lia|]; cbn [negb andb] in Sk.
    destruct (IsReissueAsset (scriptPubKey o)); [rewrite Ra in Sk by reflexivity; discriminate|lia].
Qed.

Lemma GetValueOut_rest enforced tx vo : Forall (fun o => 0 <= nValue o <= MAX_MONEY) (vout tx) -> Forall carries_nothing (vout tx) ->
  GetValueOut enforced tx = Some vo -> sum (map nValue (vout tx)) = vo + uncounted enforced tx.
Proof. intros F N R; apply (value_out_rest _ _ _ F N) in R; [exact R|unfold MAX_MONEY, COIN; lia]. Qed.
