(* ===== verification/CheckQueue.v ===== *)
(** The queue of script checks and its threads, [CCheckQueue] and
    [CCheckQueueControl] of src/checkqueue.h.

    Everything the threads share is behind one mutex: a critical section is
    one step, a check is run outside of it in a step of its own, and the steps
    of the threads interleave in any order.  A thread that waits on a
    condition variable leaves it when it is notified, or on its own.  The
    vector of the queue is a list with its back first, as it is used as a
    stack; running a check is a function.  The interruption of the threads
    when the node stops is not modelled. *)

From stdpp Require Import base list sets.
From Stdlib Require Import ZArith Lia.
From S2P Require Import Prelude.
Open Scope Z_scope.
Set Default Goal Selector "!".

Section CheckQueue.
Context {T : Type}.
(** [T::operator()]. *)
Variable check : T -> bool.

(** * The shared state *)

Record CCheckQueue := mkQueue {
  queue : list T;
  nIdle : Z;
  nTotal : Z;
  fAllOk : bool;
  nTodo : Z;
  fQuit : bool;
  nBatchSize : Z }.

Definition new_queue (nBatchSizeIn : Z) : CCheckQueue := mkQueue [] 0 0 true 0 false nBatchSizeIn.

Definition idle (d : Z) (q : CCheckQueue) : CCheckQueue :=
  mkQueue (queue q) (nIdle q + d) (nTotal q) (fAllOk q) (nTodo q) (fQuit q) (nBatchSize q).

(** Where a thread is in [Loop]: before its first lock, with a batch of which
    [vChecks] are still to be run, in [cond.wait] before and after it was
    notified, or back from the call. *)
Inductive thread :=
| Starting
| Working (nNow : Z) (vChecks : list T) (fOk : bool)
| Waiting
| Woken
| Returned (fRet : bool).

(** * The critical section of [Loop] *)

(** The clean-up of the previous run; [true] if the master is notified. *)
Definition clean_up (fMaster : bool) (nNow : Z) (fOk : bool) (q : CCheckQueue) : CCheckQueue * bool :=
  if nNow =? 0 then
    (mkQueue (queue q) (nIdle q) (nTotal q + 1) (fAllOk q) (nTodo q) (fQuit q) (nBatchSize q), false)
  else
    let todo := w32 (nTodo q - nNow) in
    (mkQueue (queue q) (nIdle q) (nTotal q) (fAllOk q && fOk) todo (fQuit q) (nBatchSize q),
     (todo =? 0) && negb fMaster).

Definition batch (q : CCheckQueue) : Z :=
  Z.max 1 (Z.min (nBatchSize q) (Z.of_nat (length (queue q)) / w32 (nTotal q + nIdle q + 1))).

(** One round of the inner loop: return, wait, or take a batch. *)
Definition take_batch (fMaster : bool) (q : CCheckQueue) : CCheckQueue * thread :=
  match queue q with
  | [] =>
      if (fMaster || fQuit q) && (nTodo q =? 0) then
        (mkQueue [] (nIdle q) (nTotal q - 1) (if fMaster then true else fAllOk q) (nTodo q) (fQuit q) (nBatchSize q),
         Returned (fAllOk q))
      else (idle 1 q, Waiting)
  | _ :: _ =>
      let nNow := batch q in
      (mkQueue (drop (Z.to_nat nNow) (queue q)) (nIdle q) (nTotal q) (fAllOk q) (nTodo q) (fQuit q) (nBatchSize q),
       Working nNow (take (Z.to_nat nNow) (queue q)) (fAllOk q))
  end.

(** What a thread does between taking the lock and giving it up: the new
    shared state, where the thread is then, and whether it notified the
    master.  [None] if the thread is not about to take the lock. *)
Definition locked (fMaster : bool) (l : thread) (q : CCheckQueue) : option (CCheckQueue * thread * bool) :=
  match l with
  | Starting => let '(q1, n) := clean_up fMaster 0 true q in Some (take_batch fMaster q1, n)
  | Working nNow [] fOk => let '(q1, n) := clean_up fMaster nNow fOk q in Some (take_batch fMaster q1, n)
  | Woken => Some (take_batch fMaster (idle (-1) q), false)
  | _ => None
  end.

(** The next check of a batch; after a failure the others are skipped. *)
Definition work (l : thread) : option thread :=
  match l with
  | Working nNow (c :: cs) fOk => Some (Working nNow cs (if fOk then check c else false))
  | _ => None
  end.

Definition Add (vChecks : list T) (q : CCheckQueue) : CCheckQueue :=
  mkQueue (rev vChecks ++ queue q) (nIdle q) (nTotal q) (fAllOk q) (w32 (nTodo q + Z.of_nat (length vChecks)))
    (fQuit q) (nBatchSize q).

Definition wake (l : thread) : thread := match l with Waiting => Woken | _ => l end.

(** * The threads *)

(** The master is [None] while it is not in [Loop]; [added] are the checks
    added since it last returned, which the code does not keep. *)
Record system := mkSystem {
  shared : CCheckQueue;
  master : option thread;
  workers : list thread;
  added : list T }.

Definition new_system (nBatchSizeIn : Z) (n : nat) : system :=
  mkSystem (new_queue nBatchSizeIn) None (replicate n Starting) [].

(** [condWorker.notify_one()] and [notify_all()] at the end of [Add]. *)
Inductive notified (n : nat) (ws : list thread) : list thread -> Prop :=
| notify_none : n = 0%nat -> notified n ws ws
| notify_one i : n = 1%nat -> ws !! i = Some Waiting -> notified n ws (<[i := Woken]> ws)
| notify_nobody : n = 1%nat -> Waiting ∉ ws -> notified n ws ws
| notify_all : (1 < n)%nat -> notified n ws (map wake ws).

(** A step of the system; [true] marks a thread that wakes on its own. *)
Inductive step : bool -> system -> system -> Prop :=
(** The master adds checks. *)
| step_add q ws ad v ws' : Z.of_nat (length (ad ++ v)) < 2 ^ 32 -> notified (length v) ws ws' ->
    step false (mkSystem q None ws ad) (mkSystem (Add v q) None ws' (ad ++ v))
(** The master calls [Wait], and goes on after it with a new round. *)
| step_wait q ws ad : step false (mkSystem q None ws ad) (mkSystem q (Some Starting) ws ad)
| step_done q ws ad r : step false (mkSystem q (Some (Returned r)) ws ad) (mkSystem q None ws [])
(** The master in [Loop]. *)
| step_master q l ws ad q' l' n : locked true l q = Some (q', l', n) ->
    step false (mkSystem q (Some l) ws ad) (mkSystem q' (Some l') ws ad)
| step_master_work q l ws ad l' : work l = Some l' ->
    step false (mkSystem q (Some l) ws ad) (mkSystem q (Some l') ws ad)
| step_master_wakes q ws ad : step true (mkSystem q (Some Waiting) ws ad) (mkSystem q (Some Woken) ws ad)
(** A worker in [Loop]; the master is notified if it waits. *)
| step_worker q m ws ad i l q' l' (n : bool) : ws !! i = Some l -> locked false l q = Some (q', l', n) ->
    step false (mkSystem q m ws ad) (mkSystem q' (if n then wake <$> m else m) (<[i := l']> ws) ad)
| step_worker_work q m ws ad i l l' : ws !! i = Some l -> work l = Some l' ->
    step false (mkSystem q m ws ad) (mkSystem q m (<[i := l']> ws) ad)
| step_worker_wakes q m ws ad i : ws !! i = Some Waiting ->
    step true (mkSystem q m ws ad) (mkSystem q m (<[i := Woken]> ws) ad).

Inductive reachable (b : Z) (n : nat) : system -> Prop :=
| reachable_start : reachable b n (new_system b n)
| reachable_step k s s' : reachable b n s -> step k s s' -> reachable b n s'.

(** * The invariant *)

Implicit Types (q : CCheckQueue) (l : thread) (ts : list thread).

(** What a thread contributes to the counters, and its checks. *)
Definition todo l : Z := match l with Working n _ _ => n | _ => 0 end.
Definition inside l : Z := match l with Working _ _ _ | Waiting | Woken => 1 | _ => 0 end.
Definition idling l : Z := match l with Waiting | Woken => 1 | _ => 0 end.
Definition pending l : list T := match l with Working _ cs _ => cs | _ => [] end.

Definition total (f : thread -> Z) ts : Z := foldr (fun l z => f l + z) 0 ts.

Definition wf l : Prop :=
  match l with Working n cs ok => Z.of_nat (length cs) <= n /\ (n = 0 -> ok = true) | _ => True end.
Definition busy l : Prop := match l with Working n _ _ => 1 <= n | _ => True end.

(** A failure that was seen: in the shared result, or in that of a batch. *)
Definition failing q ts : Prop := fAllOk q = false \/ exists n cs, Working n cs false ∈ ts.

(** The shared state and the threads, when the checks of the round are [cur]. *)
Record good (cur : list T) q ts : Prop := {
  good_total : nTotal q = total inside ts;
  good_idle : nIdle q = total idling ts;
  good_todo : nTodo q = Z.of_nat (length (queue q)) + total todo ts;
  good_max : nTodo q <= Z.of_nat (length cur) < 2 ^ 32;
  good_quit : fQuit q = false;
  good_wf : Forall wf ts;
  good_known : forall c, c ∈ queue q \/ (exists l, l ∈ ts /\ c ∈ pending l) -> c ∈ cur;
  good_checked : forall c, c ∈ cur -> check c = true \/ c ∈ queue q \/ (exists l, l ∈ ts /\ c ∈ pending l) \/ failing q ts;
  good_failing : failing q ts -> exists c, c ∈ cur /\ check c = false }.

(** A thread that holds the lock. *)
Definition InLock : thread := Working 0 [] true.

Lemma total_insert f ts i l l' : ts !! i = Some l -> total f (<[i := l']> ts) = total f ts - f l + f l'.
Proof.
  revert i; induction ts as [|x ts IH]; intros [|i] E; simplify_eq/=; [lia|].
  rewrite (IH _ E); lia.
Qed.

Lemma threads_nonneg f ts : (forall l, l ∈ ts -> 0 <= f l) -> 0 <= total f ts.
Proof.
  induction ts as [|x ts IH]; simpl; intros N; [lia|].
  assert (0 <= f x) by (apply N; set_solver). assert (0 <= total f ts) by (apply IH; set_solver). lia.
Qed.

Lemma total_zero f ts l : (forall l, l ∈ ts -> 0 <= f l) -> total f ts = 0 -> l ∈ ts -> f l = 0.
Proof.
  induction ts as [|x ts IH]; simpl; intros N Z0 L; [set_solver|].
  assert (0 <= f x) by (apply N; set_solver). assert (0 <= total f ts) by (apply threads_nonneg; set_solver).
  apply elem_of_cons in L as [->|L]; [lia|]. apply IH; [set_solver|lia|exact L].
Qed.

Lemma elem_insert ts i l l' x : ts !! i = Some l -> x ∈ <[i := l']> ts -> x = l' \/ x ∈ ts.
Proof.
  intros E X. apply list_elem_of_lookup in X as [j X].
  apply list_lookup_insert_Some in X as [(-> & -> & _)|(_ & X)]; [now left|right].
  now apply list_elem_of_lookup_2 in X.
Qed.

Lemma elem_kept ts i l l' x : ts !! i = Some l -> x ∈ ts -> x = l \/ x ∈ <[i := l']> ts.
Proof.
  intros E X. apply list_elem_of_lookup in X as [j X].
  destruct (decide (i = j)) as [->|N]; [left; congruence|right].
  apply list_elem_of_lookup_2 with j. now rewrite list_lookup_insert_ne.
Qed.

Lemma elem_new ts i l l' : ts !! i = Some l -> l' ∈ <[i := l']> ts.
Proof.
  intros E. apply list_elem_of_lookup_2 with i, list_lookup_insert_eq. now apply lookup_lt_Some in E.
Qed.

Lemma wf_insert ts i l' : Forall wf ts -> wf l' -> Forall wf (<[i := l']> ts).
Proof. intros F W. now apply Forall_insert. Qed.

Lemma todo_nonneg ts l : Forall wf ts -> l ∈ ts -> 0 <= todo l.
Proof. intros F L. rewrite Forall_forall in F. specialize (F l L). destruct l; simpl in *; lia. Qed.

(** A thread moves from [l] to [l'] and changes the shared state. *)
Lemma good_change cur q ts i l q' l' : good cur q ts -> ts !! i = Some l ->
  nTotal q' = nTotal q + inside l' - inside l -> nIdle q' = nIdle q + idling l' - idling l ->
  nTodo q' = nTodo q + Z.of_nat (length (queue q')) - Z.of_nat (length (queue q)) + todo l' - todo l ->
  nTodo q' <= nTodo q -> fQuit q' = fQuit q -> wf l' ->
  (forall c, c ∈ queue q' \/ c ∈ pending l' -> c ∈ queue q \/ c ∈ pending l) ->
  (forall c, c ∈ queue q \/ c ∈ pending l ->
     check c = true \/ c ∈ queue q' \/ c ∈ pending l' \/ failing q' (<[i := l']> ts)) ->
  (failing q ts -> failing q' (<[i := l']> ts)) ->
  (failing q' (<[i := l']> ts) -> failing q ts \/ exists c, (c ∈ queue q \/ c ∈ pending l) /\ check c = false) ->
  good cur q' (<[i := l']> ts).
Proof.
  intros G E Tot Idl Tod Le Qu W Sub Chk F1 F2.
  destruct G as [G1 G2 G3 G4 G5 G6 G7 G8 G9].
  assert (Known : forall c, c ∈ queue q \/ c ∈ pending l -> c ∈ cur).
  { intros c [Q|Q]; apply G7; [now left|right]. exists l. split; [now apply list_elem_of_lookup_2 in E|exact Q]. }
  split; rewrite ?(total_insert _ _ _ _ _ E); try lia; try congruence; auto using wf_insert.
  - intros c [Q|(x & X & Q)]; [apply Known, Sub; now left|].
    destruct (elem_insert _ _ _ _ _ E X) as [->|X']; [apply Known, Sub; now right|apply G7; right; eauto].
  - intros c C.
    assert (New : check c = true \/ c ∈ queue q' \/ c ∈ pending l' \/ failing q' (<[i := l']> ts) ->
      check c = true \/ c ∈ queue q' \/ (exists x, x ∈ <[i := l']> ts /\ c ∈ pending x) \/ failing q' (<[i := l']> ts))
      by (pose proof (elem_new _ _ _ l' E); intros [K|[K|[K|K]]]; eauto 6).
    destruct (G8 c C) as [K|[K|[(x & X & K)|K]]]; [now left|now apply New, Chk; left| |now do 3 right; apply F1].
    destruct (elem_kept _ _ _ l' _ E X) as [->|X']; [now apply New, Chk; right|eauto 7].
  - intros F. destruct (F2 F) as [F'|(c & K & N)]; [now apply G9|exists c; auto].
Qed.

Lemma failing_kept q ts i l q' l' : ts !! i = Some l -> (fAllOk q = false -> fAllOk q' = false) ->
  (forall n cs, l = Working n cs false -> fAllOk q' = false \/ exists n cs, l' = Working n cs false) ->
  failing q ts -> failing q' (<[i := l']> ts).
Proof.
  intros E A B [F|(n & cs & F)]; [left; auto|].
  destruct (elem_kept _ _ _ l' _ E F) as [X|X]; [|right; eauto].
  symmetry in X; destruct (B _ _ X) as [K|(n' & cs' & ->)]; [now left|right; exists n', cs'; now apply elem_new with l].
Qed.

Lemma failing_back q ts i l q' l' : ts !! i = Some l -> (fAllOk q' = false -> failing q ts) ->
  (forall n cs, l' = Working n cs false -> failing q ts) -> failing q' (<[i := l']> ts) -> failing q ts.
Proof.
  intros E A B [F|(n & cs & F)]; [auto|].
  destruct (elem_insert _ _ _ _ _ E F) as [X|X]; [now apply (B n cs)|right; eauto].
Qed.

(** A thread without a batch moves, and the queue and the result stay. *)
Lemma good_moves cur q ts i l q' l' : good cur q ts -> ts !! i = Some l ->
  queue q' = queue q -> fAllOk q' = fAllOk q -> nTodo q' = nTodo q -> fQuit q' = fQuit q ->
  nTotal q' = nTotal q + inside l' - inside l -> nIdle q' = nIdle q + idling l' - idling l ->
  todo l = 0 /\ pending l = [] -> todo l' = 0 /\ pending l' = [] -> wf l' ->
  good cur q' (<[i := l']> ts).
Proof.
  intros G E Q A D Qu Tot Idl [L1 L2] [M1 M2] W.
  assert (NF : forall n cs, l <> Working n cs false).
  { pose proof (good_wf _ _ _ G) as F. rewrite Forall_lookup in F. specialize (F _ _ E). intros n cs ->.
    simpl in *. destruct F as [_ F]. now discriminate F. }
  assert (NF' : forall n cs, l' <> Working n cs false) by (intros n cs ->; destruct W as [_ W]; now discriminate W).
  apply (good_change _ _ _ _ _ _ _ G E); rewrite ?Q, ?L2, ?M2; auto; try lia.
  - intros c [C|C]; [auto|set_solver].
  - apply (failing_kept _ _ _ _ _ _ E); [congruence|intros n cs X; now destruct (NF n cs)].
  - intros K; left; revert K. apply (failing_back _ _ _ _ _ _ E); [left; congruence|intros n cs X; now destruct (NF' n cs)].
Qed.

Lemma good_work cur q ts i l l' : good cur q ts -> ts !! i = Some l -> work l = Some l' ->
  good cur q (<[i := l']> ts).
Proof.
  intros G E W. destruct l as [|n [|c cs] ok| | |]; simplify_eq/=.
  pose proof (good_wf _ _ _ G) as F. rewrite Forall_lookup in F. specialize (F _ _ E) as [F1 F2]; simpl in F1.
  apply (good_change _ _ _ _ _ _ _ G E); simpl; try lia; auto.
  - set_solver.
  - intros x [X|X]; [auto|]. apply elem_of_cons in X as [->|X]; [|auto].
    destruct ok; [destruct (check c) eqn:C; [auto|]|];
      do 3 right; right; exists n, cs; now apply (elem_new _ _ _ _ E).
  - apply (failing_kept _ _ _ _ _ _ E); [auto|]. intros n' cs' X. simplify_eq. right; eauto.
  - intros K. destruct ok; [destruct (check c) eqn:C|].
    + left. revert K; apply (failing_back _ _ _ _ _ _ E); [now left|discriminate].
    + right. exists c. set_solver.
    + left. right. exists n, (c :: cs). now apply list_elem_of_lookup_2 in E.
Qed.

Lemma good_wake cur q ts i : good cur q ts -> ts !! i = Some Waiting -> good cur q (<[i := Woken]> ts).
Proof.
  intros G E. apply (good_moves _ _ _ _ _ _ _ G E); simpl; auto; lia.
Qed.

Lemma todo_member ts i l : Forall wf ts -> ts !! i = Some l -> 0 <= todo l <= total todo ts.
Proof.
  intros F E. split; [now apply todo_nonneg with ts; [|apply list_elem_of_lookup_2 in E]|].
  pose proof (total_insert todo ts i l Waiting E) as D; simpl in D.
  assert (0 <= total todo (<[i := Waiting]> ts)); [|lia].
  apply threads_nonneg. intros x X. apply todo_nonneg with (<[i := Waiting]> ts); [|exact X]. now apply wf_insert.
Qed.

Lemma good_cleaned cur q ts i l n ok fm q1 note : good cur q ts -> ts !! i = Some l ->
  l = Starting /\ n = 0 /\ ok = true \/ l = Working n [] ok /\ 1 <= n ->
  clean_up fm n ok q = (q1, note) -> good cur q1 (<[i := InLock]> ts).
Proof.
  intros G E [(-> & -> & ->)|(-> & N)] C; unfold clean_up in C.
  - simpl in C. simplify_eq. apply (good_moves _ _ _ _ _ _ _ G E); simpl; auto; lia.
  - destruct (Z.eqb_spec n 0) as [|_]; [lia|]. simplify_eq.
    pose proof (todo_member _ _ _ (good_wf _ _ _ G) E) as M; simpl in M.
    assert (W : w32 (nTodo q - n) = nTodo q - n).
    { apply wrap_id. destruct G as [_ _ G3 G4 _ _ _ _ _]. unfold in_u. lia. }
    apply (good_change _ _ _ _ _ _ _ G E); simpl; rewrite ?W; try lia; auto; try set_solver.
    + apply (failing_kept _ _ _ _ _ _ E); simpl; [now intros ->|].
      intros n' cs' X. simplify_eq. left. now rewrite andb_false_r.
    + intros K; left; revert K; apply (failing_back _ _ _ _ _ _ E); [|discriminate]; simpl.
      intros [K|K]%andb_false_iff; [now left|]. subst ok. right. exists n, []. now apply list_elem_of_lookup_2 in E.
Qed.

Lemma good_woken cur q ts i : good cur q ts -> ts !! i = Some Woken -> good cur (idle (-1) q) (<[i := InLock]> ts).
Proof.
  intros G E. apply (good_moves _ _ _ _ _ _ _ G E); simpl; auto; lia.
Qed.

(** When nothing is left to do, no thread has a batch. *)
Lemma good_idle_threads cur q ts l : good cur q ts -> queue q = [] -> nTodo q = 0 -> l ∈ ts ->
  pending l = [] /\ forall n cs, l <> Working n cs false.
Proof.
  intros G Q0 T0 L. destruct G as [_ _ G3 _ _ G6 _ _ _]. rewrite Q0 in G3; simpl in G3.
  assert (D : todo l = 0).
  { apply (total_zero todo ts); [intros; now apply todo_nonneg with ts|lia|exact L]. }
  rewrite Forall_forall in G6. specialize (G6 l L).
  destruct l as [|n cs ok| | |]; simpl in *; auto. destruct G6 as [W1 W2].
  split; [destruct cs; simpl in *; [auto|lia]|]. intros n' cs' X. simplify_eq. now discriminate W2.
Qed.

(** The result is then that of all checks, and a new round can start. *)
Lemma good_finished cur q ts : good cur q ts -> queue q = [] -> nTodo q = 0 -> fAllOk q = forallb check cur.
Proof.
  intros G Q0 T0. pose proof (fun l => good_idle_threads cur q ts l G Q0 T0) as Idle.
  destruct (fAllOk q) eqn:A; symmetry.
  - apply forallb_forall. intros c C. apply list_elem_of_In in C.
    destruct (good_checked _ _ _ G c C) as [K|[K|[(l & L & K)|[K|(n & cs & K)]]]].
    + exact K.
    + rewrite Q0 in K. set_solver.
    + rewrite (proj1 (Idle l L)) in K. set_solver.
    + congruence.
    + now destruct (proj2 (Idle _ K) n cs).
  - destruct (good_failing _ _ _ G (or_introl A)) as (c & C & N). apply not_true_is_false. intros F.
    rewrite forallb_forall in F. rewrite (F c) in N; [discriminate|now apply list_elem_of_In].
Qed.

Lemma good_fresh cur q ts : good cur q ts -> queue q = [] -> nTodo q = 0 ->
  good [] (mkQueue [] (nIdle q) (nTotal q) true (nTodo q) (fQuit q) (nBatchSize q)) ts.
Proof.
  intros G Q0 T0. pose proof (fun l => good_idle_threads cur q ts l G Q0 T0) as Idle.
  destruct G as [G1 G2 G3 G4 G5 G6 G7 G8 G9].
  split; auto; simpl; try lia; try set_solver.
  - now rewrite Q0 in G3.
  - intros c [C|(l & L & C)]; [set_solver|]. rewrite (proj1 (Idle l L)) in C; set_solver.
  - intros [F|(n & cs & F)]; [discriminate|now destruct (proj2 (Idle _ F) n cs)].
Qed.

Lemma batch_range q : 1 <= batch q.
Proof. unfold batch. lia. Qed.

Lemma batch_fits q : queue q <> [] -> batch q <= Z.of_nat (length (queue q)).
Proof.
  intros N. unfold batch. assert (1 <= Z.of_nat (length (queue q))) by (destruct (queue q); simpl; [congruence|lia]).
  assert (Z.of_nat (length (queue q)) / w32 (nTotal q + nIdle q + 1) <= Z.of_nat (length (queue q))); [|lia].
  pose proof (wrap_bounds 32 (nTotal q + nIdle q + 1) ltac:(lia)) as B. unfold in_u in B. unfold w32.
  destruct (Z.eq_dec (wrap 32 (nTotal q + nIdle q + 1)) 0) as [->|Z0]; [now rewrite Z.div_0_r; lia|].
  apply Z.div_le_upper_bound; nia.
Qed.

Lemma good_waits cur q ts i : good cur q ts -> ts !! i = Some InLock -> good cur (idle 1 q) (<[i := Waiting]> ts).
Proof.
  intros G E. apply (good_moves _ _ _ _ _ _ _ G E); simpl; auto; lia.
Qed.

Lemma good_taken cur q ts i fm q' l' : good cur q ts -> ts !! i = Some InLock -> take_batch fm q = (q', l') ->
  match l' with
  | Returned r => fm = true /\ r = forallb check cur /\ good [] q' (<[i := l']> ts)
  | _ => good cur q' (<[i := l']> ts) /\ busy l'
  end.
Proof.
  intros G E Tk. unfold take_batch in Tk. destruct (queue q) as [|c0 cs0] eqn:Q.
  - rewrite (good_quit _ _ _ G), orb_false_r in Tk. destruct (Z.eqb_spec (nTodo q) 0) as [T0|T0].
    + destruct fm; simplify_eq/=.
      * split; [reflexivity|]. split; [now apply good_finished with ts|].
        apply (good_moves _ _ _ _ _ _ _ (good_fresh _ _ _ G Q T0) E); simpl; auto; try lia.
        symmetry; apply (good_quit _ _ _ G).
      * split; [|exact I]. now apply good_waits.
    + rewrite andb_false_r in Tk. simplify_eq. split; [|exact I]. now apply good_waits.
  - rewrite <- Q in Tk. simplify_eq. pose proof (batch_range q) as B1.
    assert (B2 : batch q <= Z.of_nat (length (queue q))) by (apply batch_fits; congruence).
    split; [|exact B1].
    apply (good_change _ _ _ _ _ _ _ G E); simpl; rewrite ?length_take, ?length_drop; try lia; auto.
    + intros c [C|C]; left; rewrite <- (take_drop (Z.to_nat (batch q)) (queue q)); apply elem_of_app; auto.
    + intros c [C|C]; [|set_solver]. rewrite <- (take_drop (Z.to_nat (batch q)) (queue q)) in C.
      apply elem_of_app in C as [C|C]; auto.
    + now apply (failing_kept _ _ _ _ _ _ E).
    + intros K; left; revert K; apply (failing_back _ _ _ _ _ _ E); simpl; [now left|].
      intros n cs X. injection X as _ _ X. now left.
Qed.

Lemma good_locked cur q ts i l fm q' l' n : good cur q ts -> Forall busy ts -> ts !! i = Some l ->
  locked fm l q = Some (q', l', n) ->
  match l' with
  | Returned r => fm = true /\ r = forallb check cur /\ good [] q' (<[i := l']> ts)
  | _ => good cur q' (<[i := l']> ts) /\ busy l'
  end.
Proof.
  intros G B E L. assert (Lt : (i < length ts)%nat) by now apply lookup_lt_Some in E.
  assert (Step : exists q1, good cur q1 (<[i := InLock]> ts) /\ take_batch fm q1 = (q', l')).
  { rewrite Forall_lookup in B. specialize (B _ _ E).
    destruct l as [|nn [|c cs] ok| | |]; simpl in L; try discriminate.
    - injection L as L _. eexists; split; [|exact L].
      eapply (good_cleaned _ _ _ _ _ 0 true fm); [exact G|exact E|now left|reflexivity].
    - destruct (clean_up fm nn ok q) as [q1 m] eqn:C. injection L as L _. exists q1. split; [|exact L].
      eapply good_cleaned; eauto.
    - injection L as L _. exists (idle (-1) q). split; [now apply good_woken|exact L]. }
  destruct Step as (q1 & G1 & Tk). apply (good_taken _ _ _ i _ _ _ G1) in Tk.
  - now rewrite list_insert_insert_eq in Tk.
  - now apply list_lookup_insert_eq.
Qed.

Lemma good_wake_all cur q ts : good cur q ts -> good cur q (map wake ts).
Proof.
  assert (Tot : forall f, (forall l, f (wake l) = f l) -> total f (map wake ts) = total f ts).
  { intros f W. induction ts as [|x xs IH]; simpl; [reflexivity|]. now rewrite W, IH. }
  assert (Same : forall l, pending (wake l) = pending l) by now intros [].
  assert (F : failing q (map wake ts) <-> failing q ts).
  { split; intros [A|(n & cs & X)]; [now left| |now left|]; right; exists n, cs.
    - apply list_elem_of_fmap in X as (l & Y & L). now destruct l; simplify_eq/=.
    - apply list_elem_of_fmap. now exists (Working n cs false). }
  intros [G1 G2 G3 G4 G5 G6 G7 G8 G9]. split; rewrite ?Tot by (now intros []); auto.
  - apply Forall_forall. intros l' L. apply list_elem_of_fmap in L as (l & -> & L).
    rewrite Forall_forall in G6. specialize (G6 l L). now destruct l.
  - intros c [C|(l' & L & C)]; [auto|]. apply list_elem_of_fmap in L as (l & -> & L). rewrite Same in C. eauto.
  - intros c C. rewrite F. destruct (G8 c C) as [K|[K|[(l & L & K)|K]]]; auto.
    right; right; left. exists (wake l). rewrite Same. split; [now apply list_elem_of_fmap_2|exact K].
  - now rewrite F.
Qed.

Lemma good_add cur q ts v : good cur q ts -> Z.of_nat (length (cur ++ v)) < 2 ^ 32 -> good (cur ++ v) (Add v q) ts.
Proof.
  intros G L. rewrite length_app in L.
  assert (W : w32 (nTodo q + Z.of_nat (length v)) = nTodo q + Z.of_nat (length v)).
  { apply wrap_id. unfold in_u. pose proof (threads_nonneg todo ts (fun l => todo_nonneg ts l (good_wf _ _ _ G))).
    pose proof (good_todo _ _ _ G). pose proof (good_max _ _ _ G). lia. }
  assert (In : forall c, c ∈ rev v ++ queue q <-> c ∈ v \/ c ∈ queue q).
  { intros c. rewrite elem_of_app, !list_elem_of_In, <- in_rev. tauto. }
  destruct G as [G1 G2 G3 G4 G5 G6 G7 G8 G9].
  split; simpl; rewrite ?W, ?length_app, ?length_rev; auto; try lia.
  - intros c. rewrite In, elem_of_app. intros [[C|C]|C]; [now right|left; auto|left; auto].
  - intros c. rewrite In, elem_of_app. intros [C|C]; [|auto].
    destruct (G8 c C) as [K|[K|[K|K]]]; auto.
  - intros F. destruct (G9 F) as (c & C & N). exists c. rewrite elem_of_app. auto.
Qed.

(** * Every reachable state *)

Definition threads (s : system) : list thread := default (Returned true) (master s) :: workers s.

(** The checks that the shared state is about: none when the result is out. *)
Definition current (s : system) : list T := match master s with Some (Returned _) => [] | _ => added s end.

Record ok (s : system) : Prop := {
  ok_good : good (current s) (shared s) (threads s);
  ok_busy : Forall busy (threads s);
  ok_workers : forall r, Returned r ∉ workers s;
  ok_result : forall r, master s = Some (Returned r) -> r = forallb check (added s) }.

Lemma not_returned (s : system) (l : thread) : master s = Some l -> (forall r, l <> Returned r) -> current s = added s.
Proof. intros M N. unfold current. rewrite M. now destruct l as [| | | |r]; [..|destruct (N r)]. Qed.

Lemma new_worker ws i l' : (forall r, Returned r ∉ ws) -> (forall r, l' <> Returned r) -> (i < length ws)%nat ->
  forall r, Returned r ∉ <[i := l']> ws.
Proof.
  intros N L Lt r X. destruct (lookup_lt_is_Some_2 ws i Lt) as [l E].
  destruct (elem_insert _ _ _ _ _ E X) as [Y|Y]; [now destruct (L r)|now destruct (N r)].
Qed.

Lemma notified_ok cur q r ws n ws' : good cur q (Returned r :: ws) -> Forall busy (Returned r :: ws) ->
  (forall r, Returned r ∉ ws) -> notified n ws ws' ->
  good cur q (Returned r :: ws') /\ Forall busy (Returned r :: ws') /\ forall r, Returned r ∉ ws'.
Proof.
  intros G B N [n0|i n1 E|n1 NW|n2].
  - auto.
  - split; [now apply (good_wake _ _ _ (S i) G)|]. split; [now apply (Forall_insert _ _ (S i) Woken B)|].
    apply new_worker; [exact N|discriminate|now apply lookup_lt_Some in E].
  - auto.
  - split; [exact (good_wake_all _ _ _ G)|]. split.
    + apply Forall_cons in B as [B1 B2]. apply Forall_cons. split; [auto|]. apply Forall_fmap.
      apply (Forall_impl _ _ _ B2). now intros [].
    + intros r' X. apply list_elem_of_fmap in X as (l & Y & L). destruct l; simplify_eq/=. now apply N in L.
Qed.

Lemma ok_start b n : ok (new_system b n).
Proof.
  assert (Tot : forall f, f Starting = 0 -> total f (replicate n Starting) = 0).
  { intros f F. induction n as [|n IH]; simpl; [reflexivity|]. now rewrite F, IH. }
  assert (Only : forall l, l ∈ threads (new_system b n) -> l = Returned true \/ l = Starting).
  { intros l L. apply elem_of_cons in L as [->|L]; [auto|]. right; now apply elem_of_replicate in L as [L _]. }
  split.
  - split; simpl; rewrite ?Tot by reflexivity; auto; try lia.
    + apply Forall_forall. intros l L. now destruct (Only l L) as [-> | ->].
    + intros c [C|(l & L & C)]; [exact C|]. destruct (Only l L) as [-> | ->]; exact C.
    + intros [F|(m & cs & F)]; [discriminate|]. now destruct (Only _ F).
  - apply Forall_forall. intros l L. now destruct (Only l L) as [-> | ->].
  - intros r X. now apply elem_of_replicate in X as [X _].
  - discriminate.
Qed.

Lemma busy_returned r : busy (Returned r).
Proof. exact I. Qed.

Lemma master_moves q m ws ad q' l' : ok (mkSystem q m ws ad) ->
  match l' with
  | Returned r => r = forallb check ad /\ good [] q' (l' :: ws)
  | _ => good ad q' (l' :: ws) /\ busy l'
  end -> ok (mkSystem q' (Some l') ws ad).
Proof.
  intros [_ B N _] K. apply Forall_cons in B as [_ B]. unfold threads, current in *; simpl in *.
  split; simpl; auto; destruct l' as [| | | |r]; try apply K; try discriminate;
    try (apply Forall_cons; split; [apply K || exact I|exact B]).
  intros r' [= <-]. apply K.
Qed.

Lemma worker_moves q m ws ad i q' l' (n : bool) : ok (mkSystem q m ws ad) -> (i < length ws)%nat -> busy l' ->
  (forall r, l' <> Returned r) -> good (current (mkSystem q m ws ad)) q' (default (Returned true) m :: <[i := l']> ws) ->
  ok (mkSystem q' (if n then wake <$> m else m) (<[i := l']> ws) ad).
Proof.
  intros O Lt Bl Nl G. destruct O as [_ B N R]; unfold threads in *; simpl in *.
  assert (O : ok (mkSystem q' m (<[i := l']> ws) ad)).
  { split; simpl; auto using new_worker. apply Forall_cons in B as [B1 B2].
    apply Forall_cons; split; [exact B1|now apply Forall_insert]. }
  destruct n, m as [[]|]; simpl; auto.
  apply master_moves with q' (Some Waiting); [exact O|]. split; [|exact I]. now apply (good_wake _ _ _ 0 G).
Qed.

Lemma step_ok k s s' : step k s s' -> ok s -> ok s'.
Proof.
  intros St O. pose proof (ok_good _ O) as G. pose proof (ok_busy _ O) as B. unfold threads, current in G, B.
  destruct St as
    [q ws ad v ws' L No|q ws ad|q ws ad r|q l ws ad q' l' n L|q l ws ad l' L|q ws ad|q m ws ad i l q' l' n E L
    |q m ws ad i l l' E L|q m ws ad i E]; simpl in *.
  - destruct (notified_ok _ _ _ _ _ _ G B (ok_workers _ O) No) as (G' & B' & N').
    split; auto; unfold current; simpl; [now apply good_add|discriminate].
  - apply (master_moves _ _ _ _ _ _ O). split; [|exact I].
    apply (good_moves _ _ _ 0 _ _ Starting G eq_refl); simpl; auto; lia.
  - split; auto; unfold threads; simpl; try discriminate; [|apply (Forall_insert _ _ 0 (Returned true) B I)|apply (ok_workers _ O)].
    apply (good_moves _ _ _ 0 _ _ (Returned true) G eq_refl); simpl; auto; lia.
  - apply (master_moves _ _ _ _ _ _ O). assert (Cur : match l with Returned _ => [] | _ => ad end = ad) by now destruct l as [|? []| | |].
    rewrite Cur in G. pose proof (good_locked _ _ _ 0 _ _ _ _ _ G B eq_refl L) as K.
    destruct l' as [| | | |r]; [exact K..|exact (proj2 K)].
  - apply (master_moves _ _ _ _ _ _ O). destruct l as [|nn [|c cs] okk| | |]; simplify_eq/=.
    split; [exact (good_work _ _ _ 0 _ _ G eq_refl eq_refl)|]. now apply Forall_cons in B as [B _].
  - apply (master_moves _ _ _ _ _ _ O). split; [now apply (good_wake _ _ _ 0 G)|exact I].
  - pose proof (good_locked _ _ _ (S i) _ _ _ _ _ G B E L) as K. apply lookup_lt_Some in E.
    destruct l' as [| | | |r]; [..|now destruct K];
      (apply worker_moves with q; [exact O|exact E|apply K|discriminate|apply K]).
  - assert (K := good_work _ _ _ (S i) _ _ G E L). pose proof (lookup_lt_Some _ _ _ E) as Lt.
    destruct l as [|nn [|c cs] okk| | |]; simplify_eq/=.
    apply (worker_moves q m ws ad i q _ false O Lt); [|discriminate|exact K].
    apply Forall_cons in B as [_ B]. rewrite Forall_lookup in B. exact (B _ _ E).
  - apply (worker_moves q m ws ad i q Woken false O (lookup_lt_Some _ _ _ E) I); [discriminate|].
    now apply (good_wake _ _ _ (S i) G).
Qed.

Lemma queue_ok b n s : reachable b n s -> ok s.
Proof. induction 1 as [|k s s' _ IH St]; [apply ok_start|now apply step_ok with k s]. Qed.

Lemma total_le f ts : (forall l, f l <= 1) -> total f ts <= Z.of_nat (length ts).
Proof. intros L. induction ts as [|x xs IH]; simpl; [lia|]. specialize (L x). lia. Qed.

Lemma workers_length b n s : reachable b n s -> length (workers s) = n.
Proof.
  induction 1 as [|k s s' _ IH St]; [apply length_replicate|].
  destruct St as [q ws ad v ws' L [|i ? ?| |]| | | | | | | |]; simpl in *; rewrite ?length_insert, ?length_map; auto.
Qed.

(** C9: in every interleaving of the threads, the result with which the master
    returns from [Wait] is the conjunction of all checks that were added, as
    if they had been run one after the other.  Until then the counters are
    those of the threads: the size of a batch is not divided by zero and no
    batch is larger than the queue. *)
Theorem CheckQueue_verdict b n s : reachable b n s -> Z.of_nat n < 2 ^ 30 ->
  (forall r, master s = Some (Returned r) -> r = forallb check (added s)) /\
  0 < w32 (nTotal (shared s) + nIdle (shared s) + 1) /\
  (queue (shared s) <> [] -> 1 <= batch (shared s) <= Z.of_nat (length (queue (shared s)))) /\
  nTodo (shared s) = Z.of_nat (length (queue (shared s))) + total todo (threads s).
Proof.
  intros R N. pose proof (queue_ok _ _ _ R) as O. pose proof (workers_length _ _ _ R) as Len.
  split; [apply (ok_result _ O)|]. pose proof (ok_good _ O) as G.
  split; [|split; [intros Q; split; [apply batch_range|now apply batch_fits]|apply (good_todo _ _ _ G)]].
  rewrite (good_total _ _ _ G), (good_idle _ _ _ G).
  assert (B : forall f, (forall l, 0 <= f l <= 1) -> 0 <= total f (threads s) <= Z.of_nat n + 1).
  { intros f F. split; [apply threads_nonneg; intros; apply F|]. etransitivity; [apply total_le; apply F|].
    unfold threads; simpl; lia. }
  assert (B1 := B inside ltac:(now intros []; simpl; lia)). assert (B2 := B idling ltac:(now intros []; simpl; lia)).
  unfold w32. rewrite wrap_id; unfold in_u; lia.
Qed.

(** * The master returns *)

Definition waits (s : system) : Prop := exists l, master s = Some l /\ forall r, l <> Returned r.

Definition weight l : Z :=
  match l with Starting | Woken => 1 | Working _ cs _ => Z.of_nat (length cs) + 2 | Waiting | Returned _ => 0 end.
Definition measure (s : system) : Z := 4 * Z.of_nat (length (queue (shared s))) + total weight (threads s).

(** [m] steps while the master is in [Wait], [k] of which are threads that
    wake on their own. *)
Inductive steps : nat -> nat -> system -> system -> Prop :=
| steps_none s : steps 0 0 s s
| steps_next (w : bool) m k s s' s'' : waits s -> step w s s' -> steps m k s' s'' ->
    steps (S m) (if w then S k else k) s s''.

Lemma take_batch_weight fm q q' l' : take_batch fm q = (q', l') ->
  4 * Z.of_nat (length (queue q')) + weight l' <= 4 * Z.of_nat (length (queue q)).
Proof.
  unfold take_batch. destruct (queue q) as [|c cs] eqn:Q.
  - destruct (_ && _); intros [= <- <-]; simpl; rewrite ?Q; simpl; lia.
  - rewrite <- Q. intros [= <- <-]. cbn [weight queue]. rewrite length_take, length_drop.
    pose proof (batch_range q). assert (1 <= Z.of_nat (length (queue q))) by (rewrite Q; simpl; lia). lia.
Qed.

Lemma locked_weight fm l q q' l' (n : bool) : locked fm l q = Some (q', l', n) ->
  4 * Z.of_nat (length (queue q')) + weight l' + (if n then 1 else 0) + 1 <=
  4 * Z.of_nat (length (queue q)) + weight l.
Proof.
  destruct l as [|nn [|c cs] okk| | |]; simpl; try discriminate.
  - intros [= E <-]. apply take_batch_weight in E. simpl in E. lia.
  - destruct (clean_up fm nn okk q) as [q1 m] eqn:C. intros [= E <-]. apply take_batch_weight in E.
    assert (queue q1 = queue q) as Q by (unfold clean_up in C; destruct (nn =? 0); now simplify_eq). rewrite Q in E.
    destruct m; lia.
  - intros [= E <-]. apply take_batch_weight in E. simpl in E. lia.
Qed.

Lemma step_measure k s s' : waits s -> step k s s' -> measure s' + 1 <= measure s + (if k then 2 else 0).
Proof.
  intros (m0 & M & NR) St. unfold measure, threads.
  destruct St as [| |q ws ad r|q l ws ad q' l' n L|q l ws ad l' L|q ws ad|q m ws ad i l q' l' n E L
    |q m ws ad i l l' E L|q m ws ad i E]; simpl in M; simplify_eq; simpl; rewrite ?(total_insert _ _ _ _ _ E).
  - now destruct (NR r).
  - apply locked_weight in L. destruct n; lia.
  - destruct m0 as [|? []| | |]; simplify_eq/=. lia.
  - lia.
  - apply locked_weight in L. destruct n; simpl; [destruct m0; simpl|]; lia.
  - destruct l as [|? []| | |]; simplify_eq/=. lia.
  - simpl. lia.
Qed.

(** The master sleeps only while there is something left to do, and not in
    the queue. *)
Definition asleep (s : system) : Prop :=
  master s = Some Waiting -> queue (shared s) = [] /\ nTodo (shared s) <> 0.

Lemma take_empty fm q q' l' : queue q = [] -> take_batch fm q = (q', l') ->
  queue q' = [] /\ nTodo q' = nTodo q /\ (fm = true -> l' = Waiting -> nTodo q <> 0).
Proof.
  intros Q. unfold take_batch. rewrite Q. destruct fm; simpl.
  - destruct (Z.eqb_spec (nTodo q) 0); intros [= <- <-]; simpl; auto.
  - destruct (_ && _); intros [= <- <-]; simpl; auto; repeat split; auto; discriminate.
Qed.

Lemma take_waiting q q' : take_batch true q = (q', Waiting) -> queue q' = [] /\ nTodo q' <> 0.
Proof.
  intros Tk. destruct (queue q) as [|c cs] eqn:Q; [|unfold take_batch in Tk; rewrite Q in Tk; discriminate].
  destruct (take_empty _ _ _ _ Q Tk) as (Q' & -> & W). split; [exact Q'|now apply W].
Qed.

Lemma locked_waiting l q q' n : locked true l q = Some (q', Waiting, n) -> queue q' = [] /\ nTodo q' <> 0.
Proof.
  destruct l as [|nn [|c cs] okk| | |]; cbn [locked]; try discriminate.
  - destruct (clean_up true 0 true q). intros [= E _]. now apply take_waiting in E.
  - destruct (clean_up true nn okk q). intros [= E _]. now apply take_waiting in E.
  - intros [= E _]. now apply take_waiting in E.
Qed.

(** A worker that leaves nothing to do notifies the master. *)
Lemma locked_notifies l q q' l' : locked false l q = Some (q', l', false) -> queue q = [] -> nTodo q <> 0 ->
  queue q' = [] /\ nTodo q' <> 0.
Proof.
  assert (K : forall q1, queue q1 = [] -> nTodo q1 <> 0 -> take_batch false q1 = (q', l') ->
    queue q' = [] /\ nTodo q' <> 0).
  { intros q1 Q1 T1 Tk. destruct (take_empty _ _ _ _ Q1 Tk) as (Q' & -> & _). auto. }
  destruct l as [|nn [|c cs] okk| | |]; cbn [locked]; try discriminate.
  - intros [= E] Q Td. now apply K in E.
  - unfold clean_up. destruct (nn =? 0); [intros [= E] Q Td; now apply K in E|].
    intros [= E N] Q Td. apply K in E; simpl; auto. now apply andb_false_iff in N as [N%Z.eqb_neq|]; [|].
  - intros [= E] Q Td. now apply K in E.
Qed.

Lemma step_asleep k s s' : step k s s' -> asleep s -> asleep s'.
Proof.
  unfold asleep. intros St A.
  destruct St as [| |q ws ad r|q l ws ad q' l' n L|q l ws ad l' L|q ws ad|q m ws ad i l q' l' n E L
    |q m ws ad i l l' E L|q m ws ad i E]; simpl in *; try discriminate; auto.
  - intros [= ->]. now apply locked_waiting in L.
  - intros [= ->]. now destruct l as [|? []| | |].
  - destruct n; [now destruct m as [[]|]|]. intros M. destruct (A M) as [Q Td]. now apply locked_notifies in L.
Qed.

Lemma reachable_asleep b n s : reachable b n s -> asleep s.
Proof. induction 1 as [|k s s' _ IH St]; [discriminate|now apply step_asleep with k s]. Qed.

(** A thread with a batch, or about to take the lock, can go on. *)
Lemma can_step l q fm : l <> Waiting -> (forall r, l <> Returned r) ->
  (exists l', work l = Some l') \/ exists q' l' n, locked fm l q = Some (q', l', n).
Proof.
  intros W R. destruct l as [|n [|c cs] okk| | |r]; simpl; eauto; try congruence.
  - right. destruct (take_batch _ _) as [q' l']; eauto.
  - right. destruct (clean_up _ _ _ _) as [q1 m]; destruct (take_batch _ _) as [q' l']; eauto.
  - right. destruct (take_batch _ _) as [q' l']; eauto.
Qed.

Lemma busy_worker ts : 0 < total todo ts -> exists i n cs okk, ts !! i = Some (Working n cs okk).
Proof.
  induction ts as [|x xs IH]; simpl; [lia|]. intros P.
  destruct x as [|n cs okk| | |]; simpl in P; try (destruct (IH ltac:(lia)) as (i & K); now exists (S i)).
  now exists 0%nat, n, cs, okk.
Qed.

Lemma waits_progress s : ok s -> asleep s -> waits s -> exists s', step false s s'.
Proof.
  intros O A (l & M & NR). destruct s as [q m ws ad]; simpl in M; subst m.
  assert (l = Waiting \/ l <> Waiting) as [->|NW] by (destruct l; auto; now right).
  - destruct (A eq_refl) as [Q Td]; simpl in Q, Td. pose proof (ok_good _ O) as G.
    pose proof (good_todo _ _ _ G) as E. unfold threads in E; simpl in E. rewrite Q in E; simpl in E.
    assert (0 <= total todo ws).
    { apply threads_nonneg. intros x X. apply todo_nonneg with (Waiting :: ws); [apply (good_wf _ _ _ G)|set_solver]. }
    destruct (busy_worker ws ltac:(lia)) as (i & n & cs & okk & W).
    destruct (can_step (Working n cs okk) q false) as [(l' & K)|(q' & l' & n' & K)]; try discriminate;
      eexists; [eapply step_worker_work|eapply step_worker]; eauto.
  - destruct (can_step l q true NW NR) as [(l' & K)|(q' & l' & n' & K)];
      eexists; [eapply step_master_work|eapply step_master]; eauto.
Qed.

Lemma steps_measure m k s s' : steps m k s s' -> Z.of_nat m + measure s' <= measure s + 2 * Z.of_nat k.
Proof.
  induction 1 as [s|w m k s s' s'' W St _ IH]; [lia|].
  pose proof (step_measure _ _ _ W St). destruct w; lia.
Qed.

Lemma steps_reachable b n m k s s' : steps m k s s' -> reachable b n s -> reachable b n s'.
Proof. induction 1 as [|w m k s s' s'' _ St _ IH]; eauto using reachable_step. Qed.

(** C10: [Wait] returns.  While the master is in it, some thread can go on; and
    every execution from there on has at most [measure s] steps, and two more
    for every time a thread wakes without having been notified, before the
    master is back.  So no notification is lost and the threads do not
    deadlock. *)
Theorem CheckQueue_progress b n s : reachable b n s -> waits s ->
  (exists s', step false s s') /\
  forall m k s', steps m k s s' -> Z.of_nat m <= measure s + 2 * Z.of_nat k /\
    (waits s' -> exists s'', step false s' s'').
Proof.
  intros R W. split; [now apply waits_progress; [apply (queue_ok b n)|apply (reachable_asleep b n)|]|].
  intros m k s' St. split.
  - assert (0 <= measure s'); [|pose proof (steps_measure _ _ _ _ St); lia].
    unfold measure. assert (0 <= total weight (threads s')); [|lia].
    apply threads_nonneg. intros [] _; simpl; lia.
  - pose proof (steps_reachable _ _ _ _ _ _ St R) as R'.
    now apply waits_progress; [apply (queue_ok b n)|apply (reachable_asleep b n)].
Qed.
End CheckQueue.

(** * An execution *)

(** One worker that has not started yet, and the checks of two outcomes. *)
Definition example_queued : system (T := bool) :=
  mkSystem (Add [false; true] (new_queue 128)) (Some Starting) [Starting] [false; true].
Definition example_done : system (T := bool) :=
  mkSystem (mkQueue [] 0 0 true 0 false 128) (Some (Returned false)) [Starting] [false; true].

Lemma example_queued_reachable : reachable id 128 1 example_queued.
Proof.
  apply reachable_step with false (mkSystem (Add [false; true] (new_queue 128)) None [Starting] [false; true]); [|constructor].
  apply reachable_step with false (new_system 128 1); [constructor|].
  apply (step_add _ _ _ [] [false; true]); [simpl; lia|]. apply (notify_all 2 [Starting]); lia.
Qed.

Ltac master_runs k H :=
  match k with
  | O => exact H
  | S ?k => eapply reachable_step;
      [master_runs k H|first [eapply step_master; reflexivity|eapply step_master_work; reflexivity]]
  end.

Lemma example_done_reachable : reachable id 128 1 example_done.
Proof. master_runs 5%nat example_queued_reachable. Qed.

Lemma CheckQueue_verdict_witness : false = forallb id [false; true].
Proof. exact (proj1 (CheckQueue_verdict id 128 1 example_done example_done_reachable ltac:(lia)) false eq_refl). Defined.

Lemma CheckQueue_progress_witness : exists s', step id false example_queued s'.
Proof.
  refine (proj1 (CheckQueue_progress id 128 1 example_queued example_queued_reachable _)).
  exists Starting. split; [reflexivity|discriminate].
Defined.
