(* ===== verification/ConnectBlock.v ===== *)
(** Connecting a block to the chain: [CScriptCheck], [CheckInputs],
    [GetBlockScriptFlags] and [ConnectBlock] of src/validation.cpp, with the
    caching signature checker of src/script/sigcache.cpp.

    The block is checked again ([Blocks]), every transaction is checked
    against the unspent outputs and the assets ([TxInputs], [TxAssets],
    [TxLocks]), its scripts are run or queued ([VerifyScript] with the checker
    of [SigHash]; the queue is [CheckQueue]), and it is applied ([Connect]).  The state carries the coin
    cache, the asset caches, the sums of the block, its undo data and the
    queue of script checks.  The caches of valid signatures and of valid
    script executions are parameters; what is written to disk (undo data and
    indexes), the messages of the block and the wallet's own lists are left to
    the caller of the model, with the undo data and the messages in the final
    state. *)

From Stdlib Require Import String.
From stdpp Require Import base gmap list fin_maps.
From Stdlib Require Import ZArith Lia FunctionalExtensionality.
From S2P Require Import CheckQueue.
From S2P Require Import Prelude ArithUint256 Chain MedianTime VersionBits Pow Headers Serialize Script Standard Transaction Merkle.
From S2P Require Import Compressor AssetTypes AssetNames Coins LruCache AssetCache Interpreter SigHash VerifyScript AssetTx TxCheck.
From S2P Require Import TxLocks TxInputs Blocks AssetRules TxAssets Connect History.
Open Scope Z_scope.

(** * Script flags *)

(** The members of the consensus parameters that connecting depends on. *)
Record connect_params := mkConnectParams {
  nSubsidyHalvingInterval : Z;
  nBIP65Enabled : bool;
  nBIP66Enabled : bool;
  nCSVEnabled : bool;
  nSegwitEnabled : bool
}.

Definition GetBlockScriptFlags (params : connect_params) (pindex : CBlockIndex) : Z :=
  let nBIP16SwitchTime := 1333238400 in
  let flags := if GetBlockTime pindex >=? nBIP16SwitchTime then SCRIPT_VERIFY_P2SH else SCRIPT_VERIFY_NONE in
  let flags := if nBIP66Enabled params then Z.lor flags SCRIPT_VERIFY_DERSIG else flags in
  let flags := if nBIP65Enabled params then Z.lor flags SCRIPT_VERIFY_CHECKLOCKTIMEVERIFY else flags in
  let flags := if nCSVEnabled params then Z.lor flags SCRIPT_VERIFY_CHECKSEQUENCEVERIFY else flags in
  if nSegwitEnabled params then Z.lor (Z.lor flags SCRIPT_VERIFY_WITNESS) SCRIPT_VERIFY_NULLDUMMY else flags.

Definition MANDATORY_SCRIPT_VERIFY_FLAGS : Z := SCRIPT_VERIFY_P2SH.
Definition STANDARD_SCRIPT_VERIFY_FLAGS : Z :=
  fold_left Z.lor
    [SCRIPT_VERIFY_DERSIG; SCRIPT_VERIFY_STRICTENC; SCRIPT_VERIFY_MINIMALDATA; SCRIPT_VERIFY_NULLDUMMY;
     SCRIPT_VERIFY_DISCOURAGE_UPGRADABLE_NOPS; SCRIPT_VERIFY_CLEANSTACK; SCRIPT_VERIFY_MINIMALIF; SCRIPT_VERIFY_NULLFAIL;
     SCRIPT_VERIFY_CHECKLOCKTIMEVERIFY; SCRIPT_VERIFY_CHECKSEQUENCEVERIFY; SCRIPT_VERIFY_LOW_S; SCRIPT_VERIFY_WITNESS;
     SCRIPT_VERIFY_DISCOURAGE_UPGRADABLE_WITNESS_PROGRAM; SCRIPT_VERIFY_WITNESS_PUBKEYTYPE] MANDATORY_SCRIPT_VERIFY_FLAGS.
Definition STANDARD_NOT_MANDATORY_VERIFY_FLAGS : Z := Z.ldiff STANDARD_SCRIPT_VERIFY_FLAGS MANDATORY_SCRIPT_VERIFY_FLAGS.

(** * Script checks *)

(** How connecting stops: the block or a transaction is turned away, a script
    fails, the block index or an assertion fails, or applying throws. *)
Inductive connect_error :=
| InBlock (e : block_error)
| InTx (e : tx_error)
| BadConnect (nDoS : Z) (strRejectReason : string)
| ScriptFailed (nDoS : Z) (e : ScriptError)
| BadIndex (e : chain_error)
| Assertion
| UpdateFailed (e : update_error).

Definition of_error {E E' S A : Type} (f : E -> E') (m : stm S E A) : stm S E' A := fun s =>
  match m s with
  | (Ok a, s) => (Ok a, s)
  | (Err e, s) => (Err (f e), s)
  end.

Record CScriptCheck := mkScriptCheck {
  m_tx_out : CTxOut;
  ptxTo : CTransaction;
  sc_nIn : nat;
  nFlags : Z
}.

Section ConnectBlock.
Context {hashes : HeaderHashes} {node : Node} {unparsed : Unparsed} {mutable : Globals} `{HashFunctions} `{CCoinsView V}.
Variable DynamicUsage : CScript -> Z.
Variable DecodeDestination : bytes -> CTxDestination.
(** The curve library. *)
Variable Verify : bytes -> bytes -> bytes -> bool.
Variable CheckLowS : bytes -> bool.
(** The answers of the signature cache, and of the script execution cache on a
    witness hash and flags. *)
Variable signature_cached : bytes -> bytes -> bytes -> bool.
Variable script_executed : bytes -> Z -> bool.

Abbreviation cache := (CCoinsViewCache V).

(** [CachingTransactionSignatureChecker::VerifySignature] *)
Definition CachingVerify (pubkey sighash vchSig : bytes) : bool :=
  if signature_cached pubkey sighash vchSig then true else Verify pubkey sighash vchSig.

(** [CScriptCheck::operator()] *)
Definition run_check (check : CScriptCheck) : verdict :=
  let txin := nth (sc_nIn check) (vin (ptxTo check)) txin_null in
  VerifyScript (H := tx_checker node_Hash CachingVerify) CheckLowS (nFlags check)
    (mkTxChecker (ptxTo check) (sc_nIn check) (nValue (m_tx_out check)) (Some (precompute node_Hash (ptxTo check))))
    (scriptSig txin) (scriptPubKey (m_tx_out check)) (scriptWitness txin).

(** The checks of the inputs from position [i]; they are run at once unless
    they are collected for the script threads. *)
Fixpoint check_scripts (tx : CTransaction) (flags : Z) (pvChecks : bool) (i : nat) (ins : list CTxIn)
  : stm cache connect_error (list CScriptCheck) :=
  match ins with
  | [] => sret []
  | txin :: ins' =>
      do! coin := of_error InTx (access_unspent DynamicUsage (prevout txin)) in
      let check := mkScriptCheck (coin_out coin) tx i flags in
      if pvChecks then do! checks := check_scripts tx flags pvChecks (i + 1) ins' in sret (check :: checks)
      else
        match run_check check with
        | Success => check_scripts tx flags pvChecks (i + 1) ins'
        | AssertFailed => sfail Assertion
        | Failure e =>
            if flag flags STANDARD_NOT_MANDATORY_VERIFY_FLAGS then
              match run_check (mkScriptCheck (coin_out coin) tx i (Z.ldiff flags STANDARD_NOT_MANDATORY_VERIFY_FLAGS)) with
              | Success => sfail (ScriptFailed 0 e)
              | AssertFailed => sfail Assertion
              | Failure _ => sfail (ScriptFailed 100 e)
              end
            else sfail (ScriptFailed 100 e)
        end
  end.

Definition CheckInputs (tx : CTransaction) (fScriptChecks : bool) (flags : Z) (pvChecks : bool)
  : stm cache connect_error (list CScriptCheck) :=
  if IsCoinBase tx || negb fScriptChecks || script_executed (GetWitnessHash node_Hash tx) flags then sret []
  else check_scripts tx flags pvChecks 0 (vin tx).

(** * The transactions of the block *)

Record connecting := mkConnecting {
  chain : chain_state V;
  messages : gmap COutPoint CMessage;
  nFees : Z;
  nSigOpsCost : Z;
  vtxundo : list (list Coin);
  vUndoAssetData : list (bytes * CBlockAssetUndo);
  control : list CScriptCheck
}.

Abbreviation cm := (stm connecting connect_error).

Definition with_chain (c : chain_state V) (s : connecting) : connecting :=
  mkConnecting c (messages s) (nFees s) (nSigOpsCost s) (vtxundo s) (vUndoAssetData s) (control s).

Definition on_view {A : Type} (m : stm cache connect_error A) : cm A := fun s =>
  let '(r, c) := m (coins (chain s)) in (r, with_chain (with_coins c (chain s)) s).

Definition bad {A : Type} (level : Z) (reason : string) : cm A := sfail (BadConnect level reason).

Definition add_fee (txfee : Z) : cm unit := fun s =>
  let fees := s64 (nFees s + txfee) in
  let s := mkConnecting (chain s) (messages s) fees (nSigOpsCost s) (vtxundo s) (vUndoAssetData s) (control s) in
  if negb (MoneyRange fees) then bad 100 "bad-txns-accumulated-fee-outofrange" s else (Ok tt, s).

Definition add_sigops (cost : Z) : cm unit := fun s =>
  let total := nSigOpsCost s + cost in
  let s := mkConnecting (chain s) (messages s) (nFees s) total (vtxundo s) (vUndoAssetData s) (control s) in
  if total >? MAX_BLOCK_SIGOPS_COST then bad 100 "bad-blk-sigops" s else (Ok tt, s).

Definition add_checks (checks : list CScriptCheck) : cm unit := fun s =>
  (Ok tt, mkConnecting (chain s) (messages s) (nFees s) (nSigOpsCost s) (vtxundo s) (vUndoAssetData s) (control s ++ checks)).

(** Before assets are active, no output carries one. *)
Fixpoint assets_inactive (outs : list CTxOut) : cm unit :=
  match outs with
  | [] => sret tt
  | out :: outs' =>
      if is_some (IsAssetScript (scriptPubKey out)) then bad 100 "bad-txns-assets-not-active"
      else if IsNullAsset (scriptPubKey out) then bad 100 "bad-txns-null-data-assets-not-active"
      else assets_inactive outs'
  end.

Variable fReindex : bool.
Variable fAssetIndex : bool.

Definition check_assets (tx : CTransaction) (nTime : Z) : cm unit := fun s =>
  let lookups := assets_cache_lookups fReindex node_Hash (assets (chain s)) in
  let '(r, k) := CheckTxAssets (H := lookups) DynamicUsage DecodeDestination tx false false nTime
                   (mkCheck (coins (chain s)) (globals (chain s)) [] (Some (messages s))) in
  (match r with Ok _ => Ok tt | Err e => Err (InTx e) end,
   mkConnecting (mkChain (ck_coins k) (assets (chain s)) (ck_assets k)) (default (messages s) (setMessages k))
     (nFees s) (nSigOpsCost s) (vtxundo s) (vUndoAssetData s) (control s)).

Fixpoint prev_heights (ins : list CTxIn) : stm cache connect_error (list Z) :=
  match ins with
  | [] => sret []
  | txin :: ins' =>
      do! coin := access DynamicUsage (prevout txin) in
      do! heights := prev_heights ins' in sret (nHeight coin :: heights)
  end.

(** [UpdateCoins], with the undo data; the first transaction leaves none. *)
Definition update_coins (first : bool) (tx : CTransaction) (height : Z) (blockHash : bytes) : cm unit := fun s =>
  match UpdateCoins DynamicUsage DecodeDestination fAssetIndex fReindex tx height blockHash (chain s) with
  | Err e => (Err (UpdateFailed e), s)
  | Ok (spent, undo, c) =>
      let undone := match undo with Some u => if is_empty (fst u) then [] else [u] | None => [] end in
      (Ok tt, mkConnecting c (messages s) (nFees s) (nSigOpsCost s) (vtxundo s ++ if first then [] else [spent])
                (vUndoAssetData s ++ undone) (control s))
  end.

Variable a : arena.
(** Whether script threads are running. *)
Variable nScriptCheckThreads : bool.

Section Block.
Variable pindex : nat.
Variable height : Z.
Variable nTime : Z.
Variable blockHash : bytes.
Variable fScriptChecks : bool.
Variable flags : Z.
Variable nLockTimeFlags : Z.

(** What a transaction other than a coinbase is checked for. *)
Definition check_tx (tx : CTransaction) : cm unit :=
  do! txfee := on_view (of_error InTx (CheckTxInputs DynamicUsage AreEnforcedValuesDeployed tx height)) in
  do! _ := add_fee txfee in
  do! _ := if AreAssetsDeployed then check_assets tx nTime else assets_inactive (vout tx) in
  do! heights := on_view (prev_heights (vin tx)) in
  match SequenceLocks a tx nLockTimeFlags heights pindex with
  | Err e => sfail (BadIndex e)
  | Ok (false, _) => bad 100 "bad-txns-nonfinal"
  | Ok (true, _) => sret tt
  end.

Definition connect_tx (first : bool) (tx : CTransaction) : cm unit :=
  do! _ := if IsCoinBase tx then sret tt else check_tx tx in
  do! cost := on_view (of_error InTx (GetTransactionSigOpCost DynamicUsage tx flags)) in
  do! _ := add_sigops cost in
  do! checks := if IsCoinBase tx then sret [] else on_view (CheckInputs tx fScriptChecks flags nScriptCheckThreads) in
  do! _ := add_checks checks in
  update_coins first tx height blockHash.

Fixpoint connect_txs (first : bool) (txs : list CTransaction) : cm unit :=
  match txs with
  | [] => sret tt
  | tx :: txs' => do! _ := connect_tx first tx in connect_txs false txs'
  end.
End Block.

(** * The block *)

Variable params : connect_params.
Variable chainparams : Headers.CChainParams.
Variable env : environment.
Variable hashAssumeValid : Z.
Variable pindexBestHeader : option nat.
Variable nMinimumChainWork : list Z.

(** Whether the scripts must be run: not below a block that is assumed valid
    and two weeks of work below the best header. *)
Definition script_checks (pindex : nat) : result chain_error bool :=
  if hashAssumeValid =? 0 then Ok true
  else
    match find_hash a hashAssumeValid with
    | None => Ok true
    | Some it =>
        let! b := deref a pindex in
        let! assumed := GetAncestor a it (Chain.nHeight b) in
        if negb (bool_decide (assumed = Some pindex)) then Ok true
        else
          match pindexBestHeader with
          | None => Err NullDeref
          | Some best =>
              let! ancestor := GetAncestor a best (Chain.nHeight b) in
              let! top := deref a best in
              if bool_decide (ancestor = Some pindex) && BaseUint.ge (nChainWork top) nMinimumChainWork then
                let! time := GetBlockProofEquivalentTime (nChainWork top) (nChainWork b) (nBits top)
                               (nPowTargetSpacing (consensus chainparams)) in
                Ok (time <=? 60 * 60 * 24 * 7 * 2)
              else Ok true
          end
    end.

(** [control.Wait()]: the queued checks, in some order. *)
Fixpoint wait (checks : list CScriptCheck) : result connect_error unit :=
  match checks with
  | [] => Ok tt
  | check :: checks' =>
      match run_check check with
      | Success => wait checks'
      | AssertFailed => Err Assertion
      | Failure _ => Err (BadConnect 100 "block-validation-failed")
      end
  end.

Definition index_or_fail {A : Type} (r : result chain_error A) : cm A :=
  slift (match r with Ok x => Ok x | Err e => Err (BadIndex e) end).

(** The coinbase claims no more than the subsidy and the fees. *)
Definition check_reward (coinbase : CTransaction) (height : Z) : cm unit := fun s =>
  let blockReward := s64 (nFees s + GetBlockSubsidy (nSubsidyHalvingInterval params) height) in
  match GetValueOut AreEnforcedValuesDeployed coinbase with
  | None => (Err (InTx ValueOutOfRange), s)
  | Some value => if value >? blockReward then bad 100 "bad-cb-amount" s else (Ok tt, s)
  end.

Definition start (st : chain_state V) : connecting := mkConnecting st ∅ 0 0 [] [] [].

(** [has_hash] is false for the index entry made up for a block that is only
    tested. *)
Definition ConnectBlock (block : CBlock) (pindex : nat) (has_hash fJustCheck : bool) : cm unit :=
  do! b := index_or_fail (deref a pindex) in
  if has_hash && negb (phashBlock b =? Headers.GetHash (header block)) then sfail Assertion
  else
    do! _ := slift (match CheckBlock chainparams env a block (negb fJustCheck) (negb fJustCheck) false with
                    | Ok _ => Ok tt
                    | Err e => Err (InBlock e)
                    end) in
    do! hashPrevBlock := match pprev b with
                         | None => sret 0
                         | Some q => do! prev := index_or_fail (deref a q) in sret (phashBlock prev)
                         end in
    do! best := on_view (ask GetBestBlock) in
    if negb (bytes_eqb (hash_bytes hashPrevBlock) best) then sfail Assertion
    else if Headers.GetHash (header block) =? hashGenesisBlock chainparams then
      if fJustCheck then sret tt
      else on_view (ask (fun c => (tt, SetBestBlock c (hash_bytes (phashBlock b)))))
    else
      do! fScriptChecks := index_or_fail (script_checks pindex) in
      let nLockTimeFlags := if nCSVEnabled params then LOCKTIME_VERIFY_SEQUENCE else 0 in
      let flags := GetBlockScriptFlags params b in
      do! _ := connect_txs pindex (Chain.nHeight b) (h_nTime (header block)) (hash_bytes (Headers.GetHash (header block)))
                 fScriptChecks flags nLockTimeFlags true (vtx block) in
      do! _ := match vtx block with
               | [] => sfail Assertion
               | coinbase :: _ => check_reward coinbase (Chain.nHeight b)
               end in
      do! _ := (fun s => (wait (control s), s)) in
      if fJustCheck then sret tt
      else if negb has_hash then sfail Assertion
      else on_view (ask (fun c => (tt, SetBestBlock c (hash_bytes (phashBlock b))))).
End ConnectBlock.

(** * Checks only look things up *)

(** A step that leaves the coin cache standing for the same unspent outputs. *)
Section Keeps.
Context `{CoinsViewLaws V} {S : Type}.
Variable DynamicUsage : CScript -> Z.
Variable view : S -> CCoinsViewCache V.

Definition keeps {E A : Type} (m : stm S E A) : Prop :=
  forall s, cache_ok DynamicUsage (view s) -> same_coins DynamicUsage (view s) (view (snd (m s))).

Lemma keeps_ret {E A : Type} (x : A) : keeps (sret (E := E) x).
Proof. intros s O; now apply same_coins_refl. Qed.
Lemma keeps_fail {E A : Type} (e : E) : keeps (sfail (A := A) e).
Proof. intros s O; now apply same_coins_refl. Qed.
Lemma keeps_turn_away {A : Type} level reason : keeps (turn_away (A := A) level reason).
Proof. apply keeps_fail. Qed.
Lemma keeps_lift {E A : Type} (r : result E A) : keeps (slift r).
Proof. intros s O; now apply same_coins_refl. Qed.
Lemma keeps_bind {E A B : Type} (m : stm S E A) (f : A -> stm S E B) :
  keeps m -> (forall x, keeps (f x)) -> keeps (sbind m f).
Proof.
  intros K L s O; unfold sbind; specialize (K s O); destruct (m s) as [[x|e] s1]; cbn [snd] in *; [|exact K].
  eapply same_coins_trans; [exact K|]; apply L, K.
Qed.
Lemma keeps_error {E E' A : Type} (f : E -> E') (m : stm S E A) : keeps m -> keeps (of_error f m).
Proof. intros K s O; specialize (K s O); unfold of_error; destruct (m s) as [[x|e] s1]; exact K. Qed.
(** A step that does not touch the view. *)
Lemma keeps_same {E A : Type} (m : stm S E A) : (forall s, view (snd (m s)) = view s) -> keeps m.
Proof. intros K s O; rewrite K; now apply same_coins_refl. Qed.
End Keeps.

Create HintDb keeps.
#[export] Hint Resolve keeps_ret keeps_fail keeps_turn_away keeps_lift keeps_bind keeps_error : keeps.

Ltac keeps :=
  repeat first
    [ assumption
    | solve [auto with keeps]
    | apply keeps_bind; [|intros ?]
    | apply keeps_error
    | match goal with |- keeps _ _ (match ?x with _ => _ end) => destruct x end ].

Section Lookups.
Context `{CoinsViewLaws V}.
Variable DynamicUsage : CScript -> Z.
Abbreviation reads := (keeps DynamicUsage (fun c : CCoinsViewCache V => c)).

Lemma reads_access {E : Type} p : reads (access (E := E) DynamicUsage p).
Proof.
  intros c O; destruct (AccessCoin_spec DynamicUsage c p O) as (coin & c' & E' & O' & U & _).
  unfold access, ask; rewrite E'; now split.
Qed.
Lemma reads_access_unspent p : reads (access_unspent DynamicUsage p).
Proof. unfold access_unspent; apply keeps_bind; [apply reads_access|intros coin; destruct (IsSpent coin); auto with keeps]. Qed.
Lemma reads_HaveInputs {E : Type} tx : reads (ask (E := E) (fun c => HaveInputs DynamicUsage c tx)).
Proof.
  intros c O; unfold ask, HaveInputs; destruct (IsCoinBase tx); cbn [negb snd]; [now apply same_coins_refl|].
  destruct (have_inputs_spec DynamicUsage (vin tx) c O) as (c' & S & E'); rewrite E'; exact S.
Qed.
#[local] Hint Resolve reads_access reads_access_unspent reads_HaveInputs : keeps.

Lemma reads_inputs_loop height ins : forall v, reads (inputs_loop DynamicUsage height ins v).
Proof. induction ins as [|i ins IH]; intros v; cbn [inputs_loop]; keeps. Qed.
#[local] Hint Resolve reads_inputs_loop : keeps.
Lemma reads_CheckTxInputs enforced tx height : reads (CheckTxInputs DynamicUsage enforced tx height).
Proof. unfold CheckTxInputs; keeps. Qed.

Lemma reads_p2sh ins : forall n, reads (p2sh_loop DynamicUsage ins n).
Proof. induction ins as [|i ins IH]; intros n; cbn [p2sh_loop]; keeps. Qed.
Lemma reads_witness flags ins : forall n, reads (witness_loop DynamicUsage flags ins n).
Proof. induction ins as [|i ins IH]; intros n; cbn [witness_loop]; keeps. Qed.
#[local] Hint Resolve reads_p2sh reads_witness : keeps.
Lemma reads_GetTransactionSigOpCost tx flags : reads (GetTransactionSigOpCost DynamicUsage tx flags).
Proof. unfold GetTransactionSigOpCost, GetP2SHSigOpCount; keeps. Qed.

Lemma reads_prev_heights ins : reads (prev_heights DynamicUsage ins).
Proof. induction ins as [|i ins IH]; cbn [prev_heights]; keeps. Qed.
End Lookups.
#[export] Hint Resolve reads_access reads_access_unspent reads_HaveInputs reads_CheckTxInputs reads_GetTransactionSigOpCost
  reads_prev_heights : keeps.

(** The asset checks look things up in two places. *)
Section AssetLookups.
Context {node : Node} {mutable : Globals} `{AssetsLookup G} `{CoinsViewLaws V}.
Variable DynamicUsage : CScript -> Z.
Variable DecodeDestination : bytes -> CTxDestination.
Abbreviation checks := (keeps DynamicUsage (ck_coins (G := G) (V := V))).

Lemma checks_on_coins {A : Type} (m : stm (CCoinsViewCache V) tx_error A) :
  keeps DynamicUsage (fun c => c) m -> checks (on_coins m).
Proof. intros K s O; specialize (K (ck_coins s) O); unfold on_coins; destruct (m (ck_coins s)); exact K. Qed.
Lemma checks_on_assets {A : Type} (m : G -> A * G) : checks (on_assets m).
Proof. apply keeps_same; intros s; unfold on_assets; now destruct (m (ck_assets s)). Qed.
Lemma checks_contextual {A : Type} prefix (m : stm G string A) : checks (contextual prefix m).
Proof. apply keeps_same; intros s; unfold contextual; destruct (m (ck_assets s)) as [[x|e] g]; reflexivity. Qed.
Lemma checks_add_reissue name hash : checks (add_reissue name hash).
Proof. now apply keeps_same. Qed.
Lemma checks_add_message m : checks (add_message m).
Proof. now apply keeps_same. Qed.
#[local] Hint Resolve checks_on_coins checks_on_assets checks_contextual checks_add_reissue checks_add_message : keeps.

Lemma checks_asset_inputs ins : forall m addrs, checks (asset_inputs DynamicUsage DecodeDestination ins m addrs).
Proof. induction ins as [|i ins IH]; intros m addrs; cbn [asset_inputs]; keeps. Qed.

Lemma checks_asset_outputs tx addrs ut time outs : forall i m, checks (asset_outputs tx addrs ut time outs i m).
Proof.
  induction outs as [|o outs IH]; intros i m; cbn [asset_outputs]; [keeps|].
  unfold check_null_asset, check_transfer, check_units, check_chaining; keeps.
Qed.

Lemma checks_only_transfers outs : checks (only_transfers outs).
Proof. induction outs as [|o outs IH]; cbn [only_transfers]; keeps. Qed.
Lemma checks_compare mi mo ns : checks (compare_totals mi mo ns).
Proof. induction ns as [|n ns IH]; cbn [compare_totals]; keeps. Qed.
#[local] Hint Resolve checks_asset_inputs checks_asset_outputs checks_only_transfers checks_compare : keeps.

Lemma checks_CheckTxAssets tx mp ut time : checks (CheckTxAssets DynamicUsage DecodeDestination tx mp ut time).
Proof. unfold CheckTxAssets, contextual_issue, issue_restricted; keeps. Qed.
End AssetLookups.

(** * What a connected transaction went through *)

(** A step that leaves part of the state alone. *)
Section Leaves.
Context {S X : Type}.
Variable f : S -> X.

Definition leaves {E A : Type} (m : stm S E A) : Prop := forall s, f (snd (m s)) = f s.

Lemma leaves_ret {E A : Type} (x : A) : leaves (sret (E := E) x).
Proof. now intros s. Qed.
Lemma leaves_fail {E A : Type} (e : E) : leaves (sfail (A := A) e).
Proof. now intros s. Qed.
Lemma leaves_bind {E A B : Type} (m : stm S E A) (k : A -> stm S E B) :
  leaves m -> (forall x, leaves (k x)) -> leaves (sbind m k).
Proof.
  intros K L s; unfold sbind; specialize (K s); destruct (m s) as [[x|e] s1]; cbn [snd] in *; [|exact K].
  rewrite <- K; apply L.
Qed.
Lemma leaves_ok {E A : Type} (m : stm S E A) s r s' : leaves m -> m s = (r, s') -> f s' = f s.
Proof. intros K R; specialize (K s); now rewrite R in K. Qed.
End Leaves.

Lemma of_error_ok {E E' S A : Type} (f : E -> E') (m : stm S E A) s x s' : of_error f m s = (Ok x, s') -> m s = (Ok x, s').
Proof. unfold of_error; destruct (m s) as [[y|e] s1]; [intros [= -> ->]; reflexivity|discriminate]. Qed.

Section Connected.
Context {hashes : HeaderHashes} {node : Node} {unparsed : Unparsed} {mutable : Globals} `{HashFunctions} `{CoinsViewLaws V}.
Variable DynamicUsage : CScript -> Z.
Variable DecodeDestination : bytes -> CTxDestination.
Variable Verify : bytes -> bytes -> bytes -> bool.
Variable CheckLowS : bytes -> bool.
Variable signature_cached : bytes -> bytes -> bytes -> bool.
Variable script_executed : bytes -> Z -> bool.
Variables (fReindex fAssetIndex : bool).
Variable a : arena.
Variable nScriptCheckThreads : bool.
Hypothesis usage_nil : DynamicUsage [] = 0.

Abbreviation cache_ok := (cache_ok DynamicUsage).
Abbreviation view := (fun s : connecting (V := V) => coins (chain s)).
Abbreviation utxo s := (cache_utxo (coins (chain s))).
Abbreviation looks := (keeps DynamicUsage view).
Abbreviation reads := (keeps DynamicUsage (fun c : CCoinsViewCache V => c)).
Abbreviation run_check := (run_check Verify CheckLowS signature_cached).
Abbreviation CheckInputs := (CheckInputs DynamicUsage Verify CheckLowS signature_cached script_executed).
Abbreviation check_scripts := (check_scripts DynamicUsage Verify CheckLowS signature_cached).
Implicit Types s : connecting (V := V).

(** The sums, the undo data and the queue. *)
Definition books s := (nFees s, vtxundo s, control s).

Lemma looks_on_view {A : Type} (m : stm (CCoinsViewCache V) connect_error A) : reads m -> looks (on_view m).
Proof. intros K s O; specialize (K (view s) O); unfold on_view; destruct (m (coins (chain s))); exact K. Qed.
Lemma leaves_on_view {A : Type} (m : stm (CCoinsViewCache V) connect_error A) : leaves books (on_view m).
Proof. intros s; unfold on_view; now destruct (m (coins (chain s))). Qed.

Lemma looks_check_assets tx time : looks (check_assets DynamicUsage DecodeDestination fReindex tx time).
Proof.
  intros s O; unfold check_assets; set (l := assets_cache_lookups _ _ _); set (k0 := mkCheck _ _ _ _).
  pose proof (checks_CheckTxAssets (H := l) DynamicUsage DecodeDestination tx false false time k0 O) as K.
  destruct (CheckTxAssets _ _ _ _ _ _ k0) as [r k]; exact K.
Qed.
Lemma leaves_check_assets tx time : leaves books (check_assets DynamicUsage DecodeDestination fReindex tx time).
Proof. intros s; unfold check_assets; destruct (CheckTxAssets _ _ _ _ _ _ _) as [r k]; reflexivity. Qed.

Lemma inactive_state outs : forall s r s', assets_inactive outs s = (r, s') -> s' = s.
Proof.
  induction outs as [|o outs IH]; intros s r s' R; cbn [assets_inactive] in R; [now injection R|].
  destruct (is_some _); [now injection R|]; destruct (IsNullAsset _); [now injection R|eauto].
Qed.

Lemma asset_rules_ok tx time s s' :
  (if AreAssetsDeployed then check_assets DynamicUsage DecodeDestination fReindex tx time else assets_inactive (vout tx)) s = (Ok tt, s') ->
  cache_ok (view s) -> same_coins DynamicUsage (view s) (view s') /\ books s' = books s.
Proof.
  destruct AreAssetsDeployed; intros R O.
  - split; [|exact (leaves_ok _ _ _ _ _ (leaves_check_assets _ _) R)].
    pose proof (looks_check_assets tx time s O) as K; now rewrite R in K.
  - apply inactive_state in R; subst; split; [now apply same_coins_refl|reflexivity].
Qed.

Lemma on_view_ok {A : Type} (m : stm (CCoinsViewCache V) connect_error A) x s s' : reads m -> cache_ok (view s) ->
  on_view m s = (Ok x, s') -> same_coins DynamicUsage (view s) (view s') /\ books s' = books s /\
  m (view s) = (Ok x, view s').
Proof.
  intros K O R; split; [|split; [exact (leaves_ok _ _ _ _ _ (leaves_on_view m) R)|]].
  - pose proof (looks_on_view m K s O) as L; now rewrite R in L.
  - unfold on_view in R; destruct (m (coins (chain s))) as [r c]; injection R as -> <-; reflexivity.
Qed.

(** ** Fees *)

Lemma CheckTxInputs_fee (c : CCoinsViewCache V) enforced tx height c' fee : cache_ok c -> coins_valid (cache_utxo c) ->
  IsCoinBase tx = false -> 0 <= height < 2 ^ 31 -> CheckTxInputs DynamicUsage enforced tx height c = (Ok fee, c') ->
  exists spent vo, Forall2 (fun i coin => cache_utxo c !! prevout i = Some coin) (vin tx) spent /\
    Forall (mature height) spent /\ GetValueOut enforced tx = Some vo /\ fee = total spent - vo /\ 0 <= fee <= MAX_MONEY.
Proof.
  intros O K CB B R; unfold CheckTxInputs in R; apply sbind_ok in R; destruct R as (b & c1 & E & R).
  unfold ask, HaveInputs in E; rewrite CB in E; cbn [negb] in E.
  destruct (have_inputs_spec DynamicUsage (vin tx) c O) as (c1' & [O1 U1] & E'); rewrite E' in E; injection E as E <-.
  pose proof (all_known (cache_utxo c) (vin tx)) as Kn; rewrite E in Kn; destruct b; [|discriminate]; cbn [negb] in R.
  destruct Kn as [spent L]; assert (F : Forall coin_fits spent).
  { clear - L K; induction L as [|i coin ins coins Li _ IH]; constructor; [|exact IH].
    destruct (K _ _ Li) as ([] & ? & _); split; [|assumption]; unfold in_s, MAX_MONEY, COIN in *.
    change (2 ^ (64 - 1)) with 9223372036854775808; lia. }
  apply sbind_ok in R; destruct R as (v & c2 & E2 & R).
  destruct (inputs_loop_spec DynamicUsage height (vin tx) B c1' spent 0 O1) as (r & c2' & E3 & _ & Q & _); auto;
    [now rewrite U1|unfold MAX_MONEY, COIN; lia|].
  rewrite E3 in E2; injection E2 as -> <-; destruct (proj1 (Q v) eq_refl) as (M & _ & _ & ->); rewrite Z.add_0_l in *.
  destruct (GetValueOut enforced tx) as [vo|]; [|discriminate]; destruct (_ <? vo); [discriminate|].
  destruct (MoneyRange _) eqn:MR; [|discriminate]; injection R as <- _; apply MoneyRange_spec in MR; exists spent, vo; auto.
Qed.

Lemma add_fee_ok fee s s' : 0 <= nFees s <= MAX_MONEY -> 0 <= fee <= MAX_MONEY -> add_fee fee s = (Ok tt, s') ->
  nFees s' = nFees s + fee /\ nFees s' <= MAX_MONEY /\ chain s' = chain s /\ vtxundo s' = vtxundo s /\ control s' = control s.
Proof.
  intros B Bf R; unfold add_fee in R; rewrite s64_money in R by assumption.
  destruct (MoneyRange _) eqn:MR; [|discriminate]; injection R as <-; apply MoneyRange_spec in MR; cbn; split_all; auto; lia.
Qed.

Section Txs.
Variable pindex : nat.
Variable height : Z.
Variable nTime : Z.
Variable blockHash : bytes.
Variable fScriptChecks : bool.
Variable flags : Z.
Variable nLockTimeFlags : Z.
Hypothesis Hheight : 0 < height < 2 ^ 31.

Abbreviation check_tx := (check_tx DynamicUsage DecodeDestination fReindex a pindex height nTime nLockTimeFlags).
Abbreviation connect_tx := (connect_tx DynamicUsage DecodeDestination Verify CheckLowS signature_cached script_executed
  fReindex fAssetIndex a nScriptCheckThreads pindex height nTime blockHash fScriptChecks flags nLockTimeFlags).
Abbreviation connect_txs := (connect_txs DynamicUsage DecodeDestination Verify CheckLowS signature_cached script_executed
  fReindex fAssetIndex a nScriptCheckThreads pindex height nTime blockHash fScriptChecks flags nLockTimeFlags).
Abbreviation UpdateCoins := (UpdateCoins DynamicUsage DecodeDestination fAssetIndex fReindex).

Lemma check_tx_ok tx s s' : cache_ok (view s) -> coins_valid (utxo s) -> IsCoinBase tx = false ->
  0 <= nFees s <= MAX_MONEY -> check_tx tx s = (Ok tt, s') ->
  same_coins DynamicUsage (view s) (view s') /\ vtxundo s' = vtxundo s /\ control s' = control s /\
  nFees s <= nFees s' <= MAX_MONEY /\
  exists spent vo, Forall2 (fun i coin => utxo s !! prevout i = Some coin) (vin tx) spent /\ Forall (mature height) spent /\
    GetValueOut AreEnforcedValuesDeployed tx = Some vo /\ nFees s' = nFees s + (total spent - vo).
Proof.
  intros O K CB B R; unfold ConnectBlock.check_tx in R.
  apply sbind_ok in R; destruct R as (fee & s1 & E1 & R); apply sbind_ok in R; destruct R as ([] & s2 & E2 & R).
  apply sbind_ok in R; destruct R as ([] & s3 & E3 & R); apply sbind_ok in R; destruct R as (hs & s4 & E4 & R).
  assert (R' : s' = s4) by (destruct (SequenceLocks _ _ _ _ _) as [[[|] ?]|]; [now injection R|discriminate|discriminate]).
  subst s'; clear R.
  apply on_view_ok in E1; [|auto with keeps|exact O]; destruct E1 as (S1 & B1 & E1); apply of_error_ok in E1.
  destruct (CheckTxInputs_fee _ _ _ height _ _ O K CB ltac:(lia) E1) as (spent & vo & L & M & G & Ef & Bf).
  injection B1 as N1 V1 C1.
  destruct (add_fee_ok fee s1 s2 ltac:(rewrite N1; exact B) Bf E2) as (N2 & M2 & Ch2 & V2 & C2).
  assert (S2 : same_coins DynamicUsage (view s) (view s2)) by (cbn beta in *; now rewrite Ch2).
  destruct (asset_rules_ok _ _ _ _ E3 (proj1 S2)) as [S3 B3]; injection B3 as N3 V3 C3.
  apply on_view_ok in E4; [|auto with keeps|apply S3]; destruct E4 as (S4 & B4 & _); injection B4 as N4 V4 C4.
  split; [exact (same_coins_trans _ _ _ _ S2 (same_coins_trans _ _ _ _ S3 S4))|].
  split_all; [congruence|congruence|lia|lia|exists spent, vo; split_all; auto; lia].
Qed.

Lemma reads_check_scripts tx pv ins : forall i, reads (check_scripts tx flags pv i ins).
Proof. induction ins as [|txin ins IH]; intros i; cbn [ConnectBlock.check_scripts]; keeps. Qed.

Lemma reads_CheckInputs tx : reads (CheckInputs tx fScriptChecks flags nScriptCheckThreads).
Proof. unfold ConnectBlock.CheckInputs; destruct (_ || _ || _); [auto with keeps|apply reads_check_scripts]. Qed.

(** The check of the input at position [k]. *)
Abbreviation the_check tx k coin := (mkScriptCheck (coin_out coin) tx k flags).

Lemma check_scripts_ok tx pv ins : forall i spent (c c' : CCoinsViewCache V) checks, cache_ok c ->
  Forall2 (fun i coin => cache_utxo c !! prevout i = Some coin) ins spent ->
  check_scripts tx flags pv i ins c = (Ok checks, c') ->
  forall k coin, nth_error spent k = Some coin ->
  In (the_check tx (i + k) coin) checks \/ run_check (the_check tx (i + k) coin) = Success.
Proof.
  induction ins as [|txin ins IH]; intros i spent c c' checks O L R k coin N; inversion L as [|? c0 ? cs Li Ls]; subst.
  { destruct k; discriminate. }
  cbn [ConnectBlock.check_scripts] in R; apply sbind_ok in R; destruct R as (c1 & v1 & E & R); apply of_error_ok in E.
  destruct (access_unspent_spec DynamicUsage c (prevout txin) O) as (v & [O1 U1] & E'); rewrite E', Li in E.
  injection E as <- <-; rewrite <- U1 in Ls; replace (i + S k)%nat with (i + 1 + k)%nat in * by lia.
  destruct pv.
  - apply sbind_ok in R; destruct R as (rest & v2 & E2 & R); injection R as <- <-.
    destruct k as [|k]; cbn [nth_error] in N; [injection N as ->; rewrite Nat.add_0_r; left; now left|].
    replace (i + S k)%nat with (i + 1 + k)%nat by lia.
    destruct (IH _ _ _ _ _ O1 Ls E2 k coin N) as [I|I]; [left; now right|now right].
  - destruct (run_check (mkScriptCheck (coin_out c0) tx i flags)) eqn:V0;
      [|destruct (flag _ _) in R; [destruct (ConnectBlock.run_check _ _ _ _) in R|]; discriminate R|discriminate R].
    destruct k as [|k]; cbn [nth_error] in N; [injection N as ->; rewrite Nat.add_0_r; now right|].
    replace (i + S k)%nat with (i + 1 + k)%nat by lia; eapply IH; eassumption.
Qed.

Lemma CheckInputs_ok tx spent (c c' : CCoinsViewCache V) checks : cache_ok c -> IsCoinBase tx = false ->
  Forall2 (fun i coin => cache_utxo c !! prevout i = Some coin) (vin tx) spent ->
  CheckInputs tx fScriptChecks flags nScriptCheckThreads c = (Ok checks, c') ->
  fScriptChecks = false \/ script_executed (GetWitnessHash node_Hash tx) flags = true \/
  forall k coin, nth_error spent k = Some coin ->
    In (the_check tx k coin) checks \/ run_check (the_check tx k coin) = Success.
Proof.
  intros O CB L R; unfold ConnectBlock.CheckInputs in R; rewrite CB in R; destruct fScriptChecks; [|now left].
  destruct (script_executed _ _); [auto|]; right; right; exact (check_scripts_ok tx _ _ 0 _ _ _ _ O L R).
Qed.
Record connected_tx (first : bool) tx (spent : list Coin) s s' : Prop := {
  ct_update : exists st0 undo, cache_ok (coins st0) /\ cache_utxo (coins st0) = utxo s /\
    UpdateCoins tx height blockHash st0 = Ok (spent, undo, chain s');
  ct_new : new_id tx (utxo s);
  ct_ok : cache_ok (view s');
  ct_utxo : utxo s' = apply_tx height (utxo s) tx;
  ct_undo : vtxundo s' = vtxundo s ++ if first then [] else [spent];
  ct_control : exists checks, control s' = control s ++ checks;
  ct_spends : IsCoinBase tx = false -> spends tx (utxo s) spent /\ Forall (mature height) spent;
  ct_scripts : IsCoinBase tx = false -> fScriptChecks = false \/ script_executed (GetWitnessHash node_Hash tx) flags = true \/
    forall k coin, nth_error spent k = Some coin ->
      In (the_check tx k coin) (control s') \/ run_check (the_check tx k coin) = Success;
  ct_fees : nFees s <= nFees s' <= MAX_MONEY /\
    if IsCoinBase tx then nFees s' = nFees s
    else exists vo, GetValueOut AreEnforcedValuesDeployed tx = Some vo /\ nFees s' = nFees s + (total spent - vo)
}.

(** The checks of a transaction, with the coins it is about to spend. *)
Lemma before_update tx s s1 s2 s3 s4 s5 cost checks : cache_ok (view s) -> coins_valid (utxo s) -> 0 <= nFees s <= MAX_MONEY ->
  (if IsCoinBase tx then sret tt else check_tx tx) s = (Ok tt, s1) ->
  on_view (of_error InTx (GetTransactionSigOpCost DynamicUsage tx flags)) s1 = (Ok cost, s2) ->
  add_sigops cost s2 = (Ok tt, s3) ->
  (if IsCoinBase tx then sret [] else on_view (CheckInputs tx fScriptChecks flags nScriptCheckThreads)) s3 = (Ok checks, s4) ->
  add_checks checks s4 = (Ok tt, s5) ->
  same_coins DynamicUsage (view s) (view s5) /\ vtxundo s5 = vtxundo s /\ control s5 = control s ++ checks /\
  nFees s <= nFees s5 <= MAX_MONEY /\
  if IsCoinBase tx then nFees s5 = nFees s
  else exists spent vo, Forall2 (fun i coin => utxo s !! prevout i = Some coin) (vin tx) spent /\ Forall (mature height) spent /\
    GetValueOut AreEnforcedValuesDeployed tx = Some vo /\ nFees s5 = nFees s + (total spent - vo) /\
    (fScriptChecks = false \/ script_executed (GetWitnessHash node_Hash tx) flags = true \/
     forall k coin, nth_error spent k = Some coin -> In (the_check tx k coin) checks \/ run_check (the_check tx k coin) = Success).
Proof.
  intros O K B E1 E2 E3 E4 E5.
  assert (S1 : same_coins DynamicUsage (view s) (view s1) /\ vtxundo s1 = vtxundo s /\ control s1 = control s /\
    nFees s <= nFees s1 <= MAX_MONEY).
  { destruct (IsCoinBase tx) eqn:CB; [injection E1 as <-; split; [now apply same_coins_refl|split_all; auto; lia]|].
    destruct (check_tx_ok _ _ _ O K CB B E1) as (? & ? & ? & ? & _); auto. }
  destruct S1 as (S1 & V1 & C1 & N1).
  apply on_view_ok in E2; [|auto with keeps|apply S1]; destruct E2 as (S2 & B2 & _); injection B2 as N2 V2 C2.
  unfold add_sigops in E3; destruct (_ >? _); [discriminate|]; injection E3 as <-; injection E5 as <-.
  cbn [chain vtxundo control nFees] in *.
  pose proof (same_coins_trans _ _ _ _ S1 S2) as S3; destruct (IsCoinBase tx) eqn:CB.
  - injection E4 as <- <-; injection E1 as <-; cbn [chain vtxundo control nFees] in *; split_all; auto; try congruence; try lia; apply S3.
  - apply on_view_ok in E4; [|apply reads_CheckInputs|apply S3]; destruct E4 as (S4 & B4 & E4); injection B4 as N4 V4 C4.
    cbn [chain vtxundo control nFees] in *; destruct (check_tx_ok _ _ _ O K CB B E1) as (_ & _ & _ & _ & spent & vo & L & M & G & F).
    split; [exact (same_coins_trans _ _ _ _ S3 S4)|]; split_all; try congruence; try lia.
    exists spent, vo; split_all; auto; [lia|]; eapply CheckInputs_ok; [apply S3|exact CB| |exact E4].
    cbn beta iota; rewrite (proj2 S3); exact L.
Qed.

Lemma connect_tx_spec hist first tx s s' : cache_ok (view s) -> coins_valid (utxo s) -> history_ok hist (utxo s) ->
  0 <= nFees s <= MAX_MONEY -> no_collisions (tx :: hist) -> (IsCoinBase tx = true -> fresh hist tx) ->
  vin tx <> [] -> NoDup (map prevout (vin tx)) -> connect_tx first tx s = (Ok tt, s') ->
  fresh hist tx /\ exists spent, connected_tx first tx spent s s'.
Proof.
  intros O K Hi B N Fr Vi D R; unfold ConnectBlock.connect_tx in R.
  apply sbind_ok in R; destruct R as ([] & s1 & E1 & R); apply sbind_ok in R; destruct R as (cost & s2 & E2 & R).
  apply sbind_ok in R; destruct R as ([] & s3 & E3 & R); apply sbind_ok in R; destruct R as (checks & s4 & E4 & R).
  apply sbind_ok in R; destruct R as ([] & s5 & E5 & R).
  destruct (before_update _ _ _ _ _ _ _ _ _ O K B E1 E2 E3 E4 E5) as (S5 & V5 & C5 & N5 & M5).
  assert (F : fresh hist tx).
  { destruct (IsCoinBase tx) eqn:CB; [now apply Fr|]; destruct M5 as (spent & vo & L & _).
    apply (fresh_tx hist (utxo s) tx spent); auto; now split. }
  split; [exact F|]; unfold update_coins in R; destruct (UpdateCoins _ _ _ _) as [[[spent undo] c]|] eqn:U; [|discriminate].
  injection R as <-; exists spent.
  assert (New : new_id tx (utxo s5)) by (cbn beta; rewrite (proj2 S5); now apply (fresh_new_id hist)).
  destruct (UpdateCoins_spec DynamicUsage DecodeDestination fAssetIndex fReindex usage_nil _ _ _ _ _ _ _ (proj1 S5) (fun _ => New) U)
    as (O6 & U6 & _ & Sp); cbn beta in *; rewrite (proj2 S5) in *.
  assert (Sp' : IsCoinBase tx = false -> forall cs, Forall2 (fun i coin => utxo s !! prevout i = Some coin) (vin tx) cs -> spent = cs).
  { intros CB cs L; apply Sp; [exact CB|now split]. }
  split; cbn [chain vtxundo control nFees]; auto.
  - exists (chain s5), undo; split_all; [apply S5|apply S5|exact U].
  - now rewrite V5.
  - rewrite C5; eauto.
  - intros CB; rewrite CB in M5; destruct M5 as (cs & vo & L & M & _); rewrite (Sp' CB cs L); split; [split|]; auto.
  - intros CB; rewrite CB in M5; destruct M5 as (cs & vo & L & _ & _ & _ & Sc); rewrite (Sp' CB cs L).
    destruct Sc as [Sc|[Sc|Sc]]; auto; right; right; intros k coin Nk; destruct (Sc k coin Nk) as [I|I]; [left|now right].
    rewrite C5; apply in_or_app; now right.
  - split; [exact N5|]; destruct (IsCoinBase tx) eqn:CB; [exact M5|]; destruct M5 as (cs & vo & L & _ & G & F5 & _).
    rewrite (Sp' eq_refl cs L); exists vo; auto.
Qed.

(** ** All the transactions *)

Inductive connected : bool -> list CTransaction -> list (list Coin) -> connecting (V := V) -> connecting (V := V) -> Prop :=
| connected_nil first s : connected first [] [] s s
| connected_cons first tx txs spent spents s s1 s2 :
    connected_tx first tx spent s s1 -> connected false txs spents s1 s2 -> connected first (tx :: txs) (spent :: spents) s s2.

(** What [CheckTransaction] makes sure of. *)
Definition tx_valid tx : Prop :=
  vin tx <> [] /\ NoDup (map prevout (vin tx)) /\ Forall (fun o => 0 <= nValue o <= MAX_MONEY) (vout tx) /\
  Forall carries_nothing (vout tx).

Record ready hist s : Prop := {
  rd_ok : cache_ok (view s);
  rd_valid : coins_valid (utxo s);
  rd_history : history_ok hist (utxo s);
  rd_fees : 0 <= nFees s <= MAX_MONEY
}.

Lemma connect_tx_ready hist first tx s s' : ready hist s -> no_collisions (tx :: hist) -> (IsCoinBase tx = true -> fresh hist tx) ->
  tx_valid tx -> connect_tx first tx s = (Ok tt, s') ->
  ready (tx :: hist) s' /\ exists spent, connected_tx first tx spent s s'.
Proof.
  intros [O K Hi B] N Fr (Vi & D & Vo & _) R.
  destruct (connect_tx_spec hist first tx s s' O K Hi B N Fr Vi D R) as (F & spent & C); split; [|eauto].
  destruct C as [_ _ O' U' _ _ Sp _ [Fe _]]; split; [exact O'| | |lia]; cbn beta; rewrite U'.
  - now apply coins_valid_apply.
  - apply (history_step hist _ tx height spent); auto; intros CB; now apply Sp.
Qed.

Lemma no_collisions_sub (l l' : list CTransaction) : (forall tx, In tx l' -> In tx l) -> no_collisions l -> no_collisions l'.
Proof. intros S N tx tx' I I'; apply N; now apply S. Qed.

Lemma connect_txs_ready txs : forall hist first s s', ready hist s -> no_collisions (rev txs ++ hist) ->
  match txs with [] => True | tx :: _ => IsCoinBase tx = true -> fresh hist tx end ->
  Forall (fun tx => IsCoinBase tx = false) (tl txs) -> Forall tx_valid txs -> connect_txs first txs s = (Ok tt, s') ->
  ready (rev txs ++ hist) s' /\ exists spents, connected first txs spents s s'.
Proof.
  induction txs as [|tx txs IH]; intros hist first s s' Rd N Fr CB W R; cbn [ConnectBlock.connect_txs] in R.
  - injection R as <-; split; [exact Rd|exists []; constructor].
  - apply sbind_ok in R; destruct R as ([] & s1 & E & R); apply Forall_cons in W; destruct W as [W Ws]; cbn [rev tl] in *.
    rewrite <- app_assoc in *; cbn [app] in *.
    destruct (connect_tx_ready hist first tx s s1 Rd) as (Rd1 & spent & C); auto.
    { eapply no_collisions_sub; [|exact N]; intros t I; apply in_or_app; right; exact I. }
    destruct (IH (tx :: hist) false s1 s' Rd1 N) as (Rd2 & spents & Cs); auto.
    + destruct txs as [|t ts]; [exact I|]; apply Forall_cons in CB; destruct CB as [CB _]; congruence.
    + destruct txs as [|t ts]; [constructor|]; now apply Forall_cons in CB.
    + split; [exact Rd2|]; exists (spent :: spents); econstructor; eassumption.
Qed.

Lemma connected_applied first txs spents s s' : connected first txs spents s s' -> applied height txs spents (utxo s) (utxo s').
Proof.
  induction 1 as [first s|first tx txs spent spents s s1 s2 C _ IH]; [constructor|].
  destruct C as [(st0 & undo & O0 & U0 & E) New _ U _ _ Sp _ _]; cbn beta in *; rewrite U in IH; constructor; auto.
  - intros CB; now apply Sp.
  - rewrite <- U0 in New.
    now destruct (UpdateCoins_spec DynamicUsage DecodeDestination fAssetIndex fReindex usage_nil _ _ _ _ _ _ _ O0 (fun _ => New) E)
      as (_ & _ & ? & _).
Qed.

Lemma connected_undo first txs spents s s' : connected first txs spents s s' ->
  vtxundo s' = vtxundo s ++ if first then tl spents else spents.
Proof.
  induction 1 as [first s|first tx txs spent spents s s1 s2 C _ IH]; [destruct first; now rewrite app_nil_r|].
  rewrite IH, (ct_undo _ _ _ _ _ C), <- app_assoc; destruct first; reflexivity.
Qed.

Lemma connected_control first txs spents s s' : connected first txs spents s s' -> forall c, In c (control s) -> In c (control s').
Proof.
  induction 1 as [first s|first tx txs spent spents s s1 s2 C _ IH]; intros c I; [exact I|].
  apply IH; destruct (ct_control _ _ _ _ _ C) as [cs ->]; apply in_or_app; now left.
Qed.

(** The transactions after the coinbase leave their fees, and add what is not
    counted. *)
Lemma connected_supply first txs spents s s' : connected first txs spents s s' ->
  Forall tx_valid txs -> Forall (fun tx => IsCoinBase tx = false) txs ->
  supply (utxo s') + nFees s' <= supply (utxo s) + nFees s + sum (map (uncounted AreEnforcedValuesDeployed) txs).
Proof.
  intros C; induction C as [first s|first tx txs spent spents s s1 s2 C _ IH]; intros W CB; [unfold sum; cbn; lia|].
  apply Forall_cons in W; destruct W as [(_ & _ & Vo & No) W]; apply Forall_cons in CB; destruct CB as [CB CBs].
  specialize (IH W CBs); destruct C as [_ New _ U _ _ Sp _ [_ Fe]]; rewrite CB in Fe; destruct Fe as (vo & G & Fe).
  pose proof (supply_apply height (utxo s) tx spent New (fun E => proj1 (Sp E))) as L; rewrite CB in L.
  rewrite (GetValueOut_rest _ tx vo Vo No G) in L.
  specialize (L ltac:(eapply Forall_impl; [exact Vo|cbn; lia])); rewrite <- U in L; unfold sum in *; cbn [map fold_right]; cbn beta in *; lia.
Qed.
End Txs.

(** ** The block *)

Definition block_valid (block : CBlock) : Prop :=
  exists coinbase others, vtx block = coinbase :: others /\ IsCoinBase coinbase = true /\
    Forall (fun tx => IsCoinBase tx = false) others /\ Forall tx_valid (vtx block).

Lemma asset_script_types script t ow i : IsAssetScript script = Some (t, ow, i) ->
  t = TX_NEW_ASSET \/ t = TX_REISSUE_ASSET \/ t = TX_TRANSFER_ASSET.
Proof.
  unfold IsAssetScript; destruct (_ >? 31); [|discriminate]; destruct (_ =? OP_HEMP_ASSET); [|discriminate].
  destruct (if _ =? HEMP_R then _ else _); [|discriminate].
  repeat match goal with |- context [if ?x then _ else _] => destruct x end; try discriminate; intros [= <- _ _]; auto.
Qed.

Lemma scanned_values mempool block outs sc : scanned mempool block outs sc -> Forall carries_nothing outs.
Proof.
  intros S; pose proof (sc_transfers _ _ _ _ S) as T; pose proof (sc_zero _ _ _ _ S) as Z; rewrite Forall_forall in *.
  intros o I; specialize (T o I); destruct (Z o I) as [Z1 _]; unfold carries_nothing, transfer_ok, IsTransferAsset, Script.IsNewAsset,
    IsOwnerAsset, IsReissueAsset in *.
  destruct (IsAssetScript (scriptPubKey o)) as [[[t ow] i]|] eqn:E; [|discriminate].
  destruct (asset_script_types _ _ _ _ E) as [->|[->| ->]]; try discriminate; intros _ _; [|now apply T]; apply Z1; destruct ow; auto.
Qed.

Lemma CheckTransaction_valid tx mempool block : CheckTransaction tx true mempool block = Ok tt -> tx_valid tx.
Proof.
  intros R; destruct (CheckTransaction_inv _ _ _ _ R) as (sc & nr & re & A); split; [apply A|]; split; [|split].
  - apply NoDup_ListNoDup; apply (check_duplicates_ok _ []); now apply A.
  - exact (sc_values _ _ _ _ (ac_scan _ _ _ _ _ _ _ A)).
  - exact (scanned_values _ _ _ _ (ac_scan _ _ _ _ _ _ _ A)).
Qed.

(** A property that [CheckTransaction] makes sure of holds for all of them. *)
Lemma check_transactions_all (P : CTransaction -> Prop) db txs :
  (forall tx mempool block, CheckTransaction tx true mempool block = Ok tt -> P tx) -> check_transactions db txs = Ok tt -> Forall P txs.
Proof.
  intros K; induction txs as [|tx txs IH]; intros R; cbn [check_transactions] in R; [constructor|].
  apply bind_ok in R; destruct R as ([] & E & R); constructor; [|now apply IH].
  unfold lift in E; destruct (CheckTransaction _ _ _ _) as [[]|] eqn:C; [|discriminate]; eapply K, C.
Qed.

Lemma check_contents_valid chainparams block db : check_contents chainparams block db = Ok tt -> block_valid block.
Proof.
  unfold check_contents, block_valid; destruct (vtx block) as [|cb others] eqn:Vt; [discriminate|]; intros R.
  destruct (_ || _); [discriminate|]; destruct (IsCoinBase cb) eqn:CB; [|discriminate].
  destruct (existsb IsCoinBase others) eqn:Ex; [discriminate|]; cbn [negb] in R.
  apply bind_ok in R; destruct R as ([] & E & _); exists cb, others; split; [reflexivity|]; split; [exact CB|]; split.
  - apply Forall_forall; intros tx I; apply list_elem_of_In in I; apply not_true_iff_false; intros K.
    apply not_true_iff_false in Ex; apply Ex, existsb_exists; eauto.
  - exact (check_transactions_all tx_valid _ _ CheckTransaction_valid E).
Qed.

Lemma check_contents_readable chainparams block db : check_contents chainparams block db = Ok tt -> Forall readable (vtx block).
Proof.
  unfold check_contents; destruct (vtx block) as [|cb others]; [discriminate|]; intros R.
  destruct (_ || _); [discriminate|]; destruct (IsCoinBase cb); [|discriminate]; destruct (existsb IsCoinBase others); [discriminate|].
  cbn [negb] in R; apply bind_ok in R; destruct R as ([] & E & _).
  exact (check_transactions_all readable _ _ (fun tx => CheckTransaction_readable tx true) E).
Qed.

Section Block.
Variable params : connect_params.
Variable chainparams : Headers.CChainParams.
Variable env : environment.
Variable hashAssumeValid : Z.
Variable pindexBestHeader : option nat.
Variable nMinimumChainWork : list Z.
Abbreviation ConnectBlock := (ConnectBlock DynamicUsage DecodeDestination Verify CheckLowS signature_cached script_executed
  fReindex fAssetIndex a nScriptCheckThreads params chainparams env hashAssumeValid pindexBestHeader nMinimumChainWork).

Lemma CheckBlock_valid block pow merkle db r : (fChecked block = true -> block_valid block) ->
  CheckBlock chainparams env a block pow merkle db = Ok r -> block_valid block.
Proof.
  intros Ch R; unfold CheckBlock in R; destruct (fChecked block); [now apply Ch|].
  apply bind_ok in R; destruct R as ([] & _ & R); apply bind_ok in R; destruct R as ([] & _ & R).
  apply bind_ok in R; destruct R as ([] & E & _); eapply check_contents_valid, E.
Qed.

Lemma CheckBlock_readable block pow merkle db r : (fChecked block = true -> Forall readable (vtx block)) ->
  CheckBlock chainparams env a block pow merkle db = Ok r -> Forall readable (vtx block).
Proof.
  intros Ch R; unfold CheckBlock in R; destruct (fChecked block); [now apply Ch|].
  apply bind_ok in R; destruct R as ([] & _ & R); apply bind_ok in R; destruct R as ([] & _ & R).
  apply bind_ok in R; destruct R as ([] & E & _); eapply check_contents_readable, E.
Qed.

Lemma ConnectBlock_readable block pindex st s' : (fChecked block = true -> Forall readable (vtx block)) ->
  ConnectBlock block pindex true false (start st) = (Ok tt, s') -> Forall readable (vtx block).
Proof.
  intros Ch R; unfold ConnectBlock.ConnectBlock in R; apply sbind_ok in R; destruct R as (b & s0 & _ & R).
  destruct (_ && _) in R; [discriminate|]; apply sbind_ok in R; destruct R as ([] & s1 & E & _); unfold slift in E.
  destruct (CheckBlock _ _ _ _ _ _ _) eqn:Ck; [|discriminate]; exact (CheckBlock_readable _ _ _ _ _ Ch Ck).
Qed.

Lemma reads_GetBestBlock {E : Type} : reads (ask (E := E) GetBestBlock).
Proof.
  intros c O; destruct (cache_GetBestBlock DynamicUsage c O) as [U O']; unfold ask; destruct (GetBestBlock c); now split.
Qed.

Lemma wait_ok checks : wait Verify CheckLowS signature_cached checks = Ok tt -> forall c, In c checks -> run_check c = Success.
Proof.
  induction checks as [|x checks IH]; intros R c; [intros []|]; cbn [wait] in R.
  destruct (run_check x) eqn:E; try discriminate; intros [<-|I]; auto.
Qed.

(** The result of the script threads, whatever the order they run the queued
    checks in, is that of [wait]. *)
Lemma wait_threads n (s : CheckQueue.system) r :
  CheckQueue.reachable (fun c => match run_check c with Success => true | _ => false end) 128 n s ->
  CheckQueue.master s = Some (CheckQueue.Returned r) ->
  (forall c, In c (CheckQueue.added s) -> run_check c <> AssertFailed) ->
  r = true <-> wait Verify CheckLowS signature_cached (CheckQueue.added s) = Ok tt.
Proof.
  intros R M NA. rewrite (CheckQueue.ok_result _ _ (CheckQueue.queue_ok _ _ _ _ R) _ M). clear R M.
  induction (CheckQueue.added s) as [|c checks IH]; cbn [forallb wait]; [easy|].
  specialize (IH (fun x I => NA x (or_intror I))). specialize (NA c (or_introl eq_refl)).
  destruct (run_check c) eqn:E; simpl; [exact IH|easy|congruence].
Qed.

(** The state of the chain before a block: the caches stand for unspent
    outputs that come from the history. *)
Record chain_ok (hist : list CTransaction) (st : chain_state V) : Prop := {
  ch_ok : cache_ok (coins st);
  ch_valid : coins_valid (cache_utxo (coins st));
  ch_history : history_ok hist (cache_utxo (coins st))
}.

(** A block that may be next: the flag that it has been checked is not set by
    mistake, no identifiers collide, and the coinbase is a new one. *)
Record block_fits (hist : list CTransaction) (block : CBlock) (b : CBlockIndex) : Prop := {
  bf_height : 0 < Chain.nHeight b < 2 ^ 31;
  bf_checked : fChecked block = true -> block_valid block;
  bf_ids : no_collisions (rev (vtx block) ++ hist);
  bf_coinbase cb : List.hd_error (vtx block) = Some cb -> IsCoinBase cb = true -> fresh hist cb;
  bf_genesis : Headers.GetHash (header block) <> hashGenesisBlock chainparams
}.

(** The block lies below one that is assumed valid and below the best header,
    that has enough work, and two weeks of work below it. *)
Definition assumed_valid (pindex : nat) (b : CBlockIndex) : Prop :=
  hashAssumeValid <> 0 /\
  (exists it, find_hash a hashAssumeValid = Some it /\ GetAncestor a it (Chain.nHeight b) = Ok (Some pindex)) /\
  exists best top time, pindexBestHeader = Some best /\ GetAncestor a best (Chain.nHeight b) = Ok (Some pindex) /\
    deref a best = Ok top /\ BaseUint.ge (nChainWork top) nMinimumChainWork = true /\
    GetBlockProofEquivalentTime (nChainWork top) (nChainWork b) (nBits top) (nPowTargetSpacing (consensus chainparams)) = Ok time /\
    60 * 60 * 24 * 7 * 2 < time.

(** What connecting made sure of and did. *)
Record block_connected (hist : list CTransaction) (block : CBlock) (pindex : nat) (b : CBlockIndex) (spents : list (list Coin))
    (st : chain_state V) s' : Prop := {
  bc_valid : block_valid block;
  bc_run : exists fs s0 s1, utxo s0 = cache_utxo (coins st) /\ nFees s0 = 0 /\ vtxundo s0 = [] /\ cache_ok (view s0) /\
    connected (Chain.nHeight b) (hash_bytes (Headers.GetHash (header block))) fs (GetBlockScriptFlags params b)
      true (vtx block) spents s0 s1 /\
    ready (rev (vtx block) ++ hist) s1 /\
    (forall coinbase, List.hd_error (vtx block) = Some coinbase -> exists vo,
       GetValueOut AreEnforcedValuesDeployed coinbase = Some vo /\
       vo <= nFees s1 + GetBlockSubsidy (nSubsidyHalvingInterval params) (Chain.nHeight b)) /\
    (forall c, In c (control s1) -> run_check c = Success) /\
    (fs = false -> assumed_valid pindex b) /\
    chain s' = with_coins (SetBestBlock (coins (chain s1)) (hash_bytes (phashBlock b))) (chain s1) /\ vtxundo s' = vtxundo s1
}.

Lemma subsidy_bound interval height : 0 < interval -> 0 <= height -> 0 <= GetBlockSubsidy interval height <= 10 * COIN.
Proof.
  intros I B; rewrite subsidy_shift by assumption; pose proof (Z.div_pos height interval B I).
  assert (P : 0 < 2 ^ (height / interval)) by (apply Z.pow_pos_nonneg; lia).
  generalize dependent (2 ^ (height / interval)); intros k P.
  split; [apply Z.div_pos; [unfold COIN; lia|exact P]|apply Z.div_le_upper_bound; [exact P|unfold COIN; lia]].
Qed.

Lemma check_reward_ok coinbase height s s' : 0 < nSubsidyHalvingInterval params -> 0 <= height -> 0 <= nFees s <= MAX_MONEY ->
  check_reward params coinbase height s = (Ok tt, s') ->
  s' = s /\ exists vo, GetValueOut AreEnforcedValuesDeployed coinbase = Some vo /\
    vo <= nFees s + GetBlockSubsidy (nSubsidyHalvingInterval params) height.
Proof.
  intros I B F R; unfold check_reward in R; pose proof (subsidy_bound _ _ I B) as Sb.
  assert (M : 0 <= GetBlockSubsidy (nSubsidyHalvingInterval params) height <= MAX_MONEY) by (unfold MAX_MONEY, COIN in *; lia).
  rewrite (s64_money _ _ F M) in R.
  destruct (GetValueOut _ coinbase) as [vo|]; [|discriminate]; rewrite Z.gtb_ltb in R.
  destruct (Z.ltb_spec (nFees s + GetBlockSubsidy (nSubsidyHalvingInterval params) height) vo); [discriminate|].
  injection R as <-; eauto.
Qed.

Lemma same_chain_ok hist st (s0 : connecting (V := V)) : chain_ok hist st ->
  same_coins DynamicUsage (coins st) (view s0) -> nFees s0 = 0 -> ready hist s0.
Proof.
  intros [O K Hi] [O0 U0] N; split; [exact O0|now rewrite U0|now rewrite U0|rewrite N; unfold MAX_MONEY, COIN; lia].
Qed.

Lemma script_checks_off pindex b : deref a pindex = Ok b ->
  script_checks a chainparams hashAssumeValid pindexBestHeader nMinimumChainWork pindex = Ok false -> assumed_valid pindex b.
Proof.
  unfold script_checks, assumed_valid; intros Db R; destruct (Z.eqb_spec hashAssumeValid 0) as [|N]; [discriminate|].
  destruct (find_hash a hashAssumeValid) as [it|]; [|discriminate]; rewrite Db in R; cbn [bind] in R.
  apply bind_ok in R; destruct R as (anc & E1 & R); destruct (bool_decide (anc = Some pindex)) eqn:B1; [|discriminate].
  apply bool_decide_eq_true in B1; subst anc; cbn [negb] in R; destruct pindexBestHeader as [best|]; [|discriminate].
  apply bind_ok in R; destruct R as (anc & E2 & R); apply bind_ok in R; destruct R as (top & E3 & R).
  destruct (bool_decide (anc = Some pindex)) eqn:B2; [|discriminate]; apply bool_decide_eq_true in B2; subst anc.
  destruct (BaseUint.ge _ _) eqn:W; [|discriminate]; cbn [andb] in R; apply bind_ok in R; destruct R as (time & E4 & R).
  injection R as T; apply Z.leb_gt in T.
  split; [exact N|]; split; [eauto|]; exists best, top, time; auto 10.
Qed.

(** The part before the transactions. *)
Lemma ConnectBlock_start hist block pindex b st s' : deref a pindex = Ok b -> chain_ok hist st -> block_fits hist block b ->
  ConnectBlock block pindex true false (start st) = (Ok tt, s') ->
  block_valid block /\ exists fs s0, same_coins DynamicUsage (coins st) (view s0) /\ books s0 = books (start st) /\
    (fs = false -> assumed_valid pindex b) /\
    sbind (connect_txs DynamicUsage DecodeDestination Verify CheckLowS signature_cached script_executed fReindex fAssetIndex a
             nScriptCheckThreads pindex (Chain.nHeight b) (h_nTime (header block))
             (hash_bytes (Headers.GetHash (header block))) fs (GetBlockScriptFlags params b)
             (if nCSVEnabled params then LOCKTIME_VERIFY_SEQUENCE else 0) true (vtx block))
      (fun _ => sbind (match vtx block with [] => sfail Assertion | cb :: _ => check_reward params cb (Chain.nHeight b) end)
      (fun _ => sbind (fun s => (wait Verify CheckLowS signature_cached (control s), s))
      (fun _ => on_view (ask (fun c => (tt, SetBestBlock c (hash_bytes (phashBlock b)))))))) s0 = (Ok tt, s').
Proof.
  intros Db Ch [_ Fc _ _ Ge] R; unfold ConnectBlock.ConnectBlock in R; rewrite Db in R.
  apply sbind_ok in R; destruct R as (b' & s0 & E & R); injection E as <- <-.
  destruct (_ && _) in R; [discriminate|].
  apply sbind_ok in R; destruct R as ([] & s1 & E & R).
  destruct (CheckBlock chainparams env a block (negb false) (negb false) false) eqn:Ck; [|discriminate]; injection E as <-.
  split; [exact (CheckBlock_valid _ _ _ _ _ Fc Ck)|].
  apply sbind_ok in R; destruct R as (prev & s1 & E & R).
  assert (E1 : s1 = start st).
  { destruct (pprev b); [|now injection E]; apply sbind_ok in E; destruct E as (q & s2 & E2 & E); injection E as _ <-.
    unfold index_or_fail, slift in E2; destruct (deref _ _); [now injection E2|discriminate]. }
  subst s1; clear E; apply sbind_ok in R; destruct R as (best & s1 & E & R).
  apply on_view_ok in E; [|apply reads_GetBestBlock|apply Ch]; destruct E as (S1 & B1 & _).
  destruct (negb _) in R; [discriminate|]; rewrite (proj2 (Z.eqb_neq _ _) Ge) in R.
  apply sbind_ok in R; destruct R as (fs & s2 & E & R); unfold index_or_fail, slift in E.
  destruct (script_checks _ _ _ _ _ _) as [fs'|] eqn:Sc; [|discriminate]; injection E as -> <-.
  exists fs, s1; split; [exact S1|]; split; [exact B1|]; split; [intros ->; exact (script_checks_off _ _ Db Sc)|exact R].
Qed.

Lemma ConnectBlock_spec hist block pindex b st s' : 0 < nSubsidyHalvingInterval params -> deref a pindex = Ok b ->
  chain_ok hist st -> block_fits hist block b -> ConnectBlock block pindex true false (start st) = (Ok tt, s') ->
  exists spents, block_connected hist block pindex b spents st s'.
Proof.
  intros I Db Ch Bf R; destruct (ConnectBlock_start _ _ _ _ _ _ Db Ch Bf R) as (Bv & fs & s0 & S0 & B0 & Fs & R'); clear R.
  injection B0 as N0 V0 _; pose proof (same_chain_ok hist st s0 Ch S0 N0) as Rd; destruct Bf as [Hh _ Ids Cb _].
  apply sbind_ok in R'; destruct R' as ([] & s1 & E1 & R); apply sbind_ok in R; destruct R as ([] & s2 & E2 & R).
  apply sbind_ok in R; destruct R as ([] & s3 & E3 & R); injection E3 as W <-.
  pose proof Bv as (cb & others & Vt & CB & Nc & Tv).
  assert (Fr : match vtx block with [] => True | tx :: _ => IsCoinBase tx = true -> fresh hist tx end)
    by (rewrite Vt in *; now apply Cb).
  assert (Nt : Forall (fun tx => IsCoinBase tx = false) (tl (vtx block))) by now rewrite Vt.
  destruct (connect_txs_ready _ _ _ _ _ _ _ Hh (vtx block) hist true s0 s1 Rd Ids Fr Nt Tv E1) as (Rd1 & spents & C).
  rewrite Vt in E2; destruct (check_reward_ok cb (Chain.nHeight b) s1 s2 I ltac:(lia) (rd_fees _ _ Rd1) E2) as (-> & vo & G & L).
  injection R as <-; exists spents; split; [exact Bv|]; exists fs, s0, s1; split_all; auto; try apply S0.
  - intros x Hx; rewrite Vt in Hx; injection Hx as <-; eauto.
  - exact (wait_ok _ W).
Qed.

(** * What connecting a block does *)

(** The script of an output, run without caches, is satisfied by an input. *)
Definition holds (out : CTxOut) (tx : CTransaction) (k : nat) (flags : Z) : Prop :=
  ConnectBlock.run_check Verify CheckLowS (fun _ _ _ => false) (mkScriptCheck out tx k flags) = Success.

(** The caches hold what was found right: signatures that the curve library
    verifies, and transactions whose scripts hold for the outputs that their
    inputs name. *)
Record caches_right (hist txs : list CTransaction) (flags : Z) : Prop := {
  cr_signatures pubkey sighash vchSig : signature_cached pubkey sighash vchSig = true -> Verify pubkey sighash vchSig = true;
  cr_executed tx : In tx txs -> script_executed (GetWitnessHash node_Hash tx) flags = true ->
    exists outs, Forall2 (fun i out => named hist (prevout i) out) (vin tx) outs /\
      forall k out, nth_error outs k = Some out -> holds out tx k flags
}.

Lemma run_uncached check :
  (forall pubkey sighash vchSig, signature_cached pubkey sighash vchSig = true -> Verify pubkey sighash vchSig = true) ->
  run_check check = ConnectBlock.run_check Verify CheckLowS (fun _ _ _ => false) check.
Proof.
  intros K; unfold ConnectBlock.run_check.
  enough (CachingVerify Verify signature_cached = CachingVerify Verify (fun _ _ _ => false)) as -> by reflexivity.
  do 3 (apply functional_extensionality; intros ?); unfold CachingVerify.
  destruct (signature_cached _ _ _) eqn:E; [symmetry; now apply K|reflexivity].
Qed.

(** The transactions of a block, each spending mature outputs that are there,
    with scripts that hold for them if [fs]. *)
Inductive pays (height flags : Z) (fs : bool) : list CTransaction -> list (list Coin) ->
    gmap COutPoint Coin -> gmap COutPoint Coin -> Prop :=
| pays_nil u : pays height flags fs [] [] u u
| pays_cons tx txs spent spents u u' :
    spends tx u spent -> Forall (mature height) spent ->
    (fs = true -> forall k coin, nth_error spent k = Some coin -> holds (coin_out coin) tx k flags) ->
    pays height flags fs txs spents (apply_tx height u tx) u' ->
    pays height flags fs (tx :: txs) (spent :: spents) u u'.

(** The outputs that a cached execution was about are the spent ones. *)
Lemma executed_holds hist tx u spent flags : no_collisions hist -> origins hist u -> spends tx u spent ->
  (exists outs, Forall2 (fun i out => named hist (prevout i) out) (vin tx) outs /\
     forall k out, nth_error outs k = Some out -> holds out tx k flags) ->
  forall k coin, nth_error spent k = Some coin -> holds (coin_out coin) tx k flags.
Proof.
  intros N Og [L _] (outs & Lo & Ok) k coin E; apply Ok; clear Ok; revert outs spent L Lo k E.
  induction (vin tx) as [|i ins IH]; intros outs spent L Lo k E;
    inversion L as [|? c ? cs Li Ls]; inversion Lo as [|? o ? os Lio Los]; subst; [now destruct k|].
  destruct k as [|k]; cbn [nth_error] in *; [|now apply (IH os cs)].
  injection E as ->; f_equal; exact (named_once hist (prevout i) _ _ N Lio (Og _ _ Li)).
Qed.

Lemma connected_pays hist height blockHash fs flags first txs spents s s' : Forall (fun tx => IsCoinBase tx = false) txs ->
  no_collisions hist -> (forall tx, In tx txs -> In tx hist) -> origins hist (utxo s) -> caches_right hist txs flags ->
  connected height blockHash fs flags first txs spents s s' -> (forall c, In c (control s') -> run_check c = Success) ->
  pays height flags fs txs spents (utxo s) (utxo s').
Proof.
  intros CB N Sub Og [Cs Ce] C Ok; induction C as [first s|first tx txs spent spents s s1 s2 C Ct IH]; [constructor|].
  apply Forall_cons in CB; destruct CB as [CB CBs]; pose proof (connected_control _ _ _ _ _ _ _ _ _ Ct) as Mono.
  destruct C as [_ _ _ U _ _ Sp Sc _]; destruct (Sp CB) as [Sp1 M]; cbn beta in *; rewrite U in IH; constructor; auto.
  - intros Fs k coin E; destruct (Sc CB) as [K|[K|K]]; [congruence| |].
    + apply (executed_holds hist tx (utxo s) spent); auto; apply Ce; [now left|exact K].
    + unfold holds; rewrite <- run_uncached by exact Cs; destruct (K k coin E) as [I|I]; [apply Ok, Mono, I|exact I].
  - apply IH; auto; [intros t I; apply Sub; now right|apply origins_apply; [apply Sub; now left|exact Og]|].
    intros t I; apply Ce; now right.
Qed.

Lemma connected_utxo height blockHash fs flags first txs spents s s' :
  connected height blockHash fs flags first txs spents s s' -> utxo s' = fold_left (apply_tx height) txs (utxo s).
Proof.
  induction 1 as [first s|first tx txs spent spents s s1 s2 C Cs IH]; [reflexivity|].
  cbn [fold_left]; rewrite IH; f_equal; exact (ct_utxo _ _ _ _ _ _ _ _ _ C).
Qed.

Lemma best_block_coins (c : CCoinsViewCache V) h : cache_ok c -> cache_ok (SetBestBlock c h) /\ cache_utxo (SetBestBlock c h) = cache_utxo c.
Proof. intros O; split; [destruct O; now split|reflexivity]. Qed.

Lemma connected_chain hist block pindex b spents st s' : block_connected hist block pindex b spents st s' -> chain_ok (rev (vtx block) ++ hist) (chain s').
Proof.
  intros [_ (fs & s0 & s1 & _ & _ & _ & _ & _ & [O K Hi _] & _ & _ & _ & -> & _)].
  destruct (best_block_coins (coins (chain s1)) (hash_bytes (phashBlock b)) O) as [O' U'].
  split; cbn [with_coins coins]; [exact O'|rewrite U'; exact K|rewrite U'; exact Hi].
Qed.

(** A block adds no more than its subsidy and what is not counted. *)
Lemma connected_money hist block pindex b spents st s' : block_connected hist block pindex b spents st s' ->
  supply (utxo s') <= supply (cache_utxo (coins st)) + GetBlockSubsidy (nSubsidyHalvingInterval params) (Chain.nHeight b) +
    sum (map (uncounted AreEnforcedValuesDeployed) (vtx block)).
Proof.
  intros [(cb & others & Vt & CB & Nc & Tv) (fs & s0 & s1 & U0 & N0 & _ & _ & C & _ & Rw & _ & _ & Ch & _)].
  rewrite Ch; cbn [with_coins coins]; change (cache_utxo (SetBestBlock ?c ?h)) with (cache_utxo c); rewrite Vt in *; inversion C as [|? ? ? spent sps ? s2 ? C1 C2]; subst.
  apply Forall_cons in Tv; destruct Tv as [(_ & _ & Vo & No) Tv].
  pose proof (connected_supply _ _ _ _ _ _ _ _ _ C2 Tv Nc) as L; destruct C1 as [_ New _ U _ _ Sp _ [_ Fe]]; rewrite CB in Fe.
  destruct (Rw cb eq_refl) as (vo & G & Lv).
  pose proof (supply_apply (Chain.nHeight b) (utxo s0) cb spent New (fun E => proj1 (Sp E))) as L1; rewrite CB in L1.
  specialize (L1 ltac:(eapply Forall_impl; [exact Vo|cbn; lia])); rewrite (GetValueOut_rest _ cb vo Vo No G) in L1.
  unfold sum in *; cbn [map fold_right]; cbn beta in *; rewrite U in L; rewrite U0 in *; lia.
Qed.

(** C2: a block that is connected is paid for.  When [ConnectBlock] accepts a
    block on top of a consistent chain, its first transaction is its only
    coinbase, and every other one spends outputs that are unspent at that
    point, none of them twice, none of a coinbase that is not mature.  Unless
    the block is assumed valid, which means that it lies below the assumed
    valid block of the configuration and two weeks of work below a best header
    with enough work, the scripts of all spent outputs hold under the flags of
    the block, whether they were run at once, by the script threads, or in an
    earlier execution that is cached; the caches of signatures and executions
    are supposed to hold only what was found right.  The unspent outputs
    afterwards are those of applying the transactions in order, the undo data
    is the list of the spent coins, the block is the best one, and the chain
    is consistent again. *)
Theorem ConnectBlock_sound hist block pindex b st s' : 0 < nSubsidyHalvingInterval params -> deref a pindex = Ok b ->
  chain_ok hist st -> block_fits hist block b ->
  caches_right (rev (vtx block) ++ hist) (vtx block) (GetBlockScriptFlags params b) ->
  ConnectBlock block pindex true false (start st) = (Ok tt, s') ->
  exists coinbase others fs, vtx block = coinbase :: others /\ IsCoinBase coinbase = true /\
    (fs = false -> assumed_valid pindex b) /\
    pays (Chain.nHeight b) (GetBlockScriptFlags params b) fs others (vtxundo s')
      (apply_tx (Chain.nHeight b) (cache_utxo (coins st)) coinbase) (utxo s') /\
    hashBlock (coins (chain s')) = hash_bytes (phashBlock b) /\ chain_ok (rev (vtx block) ++ hist) (chain s').
Proof.
  intros I Db Ch Bf Cr R; destruct (ConnectBlock_spec _ _ _ _ _ _ I Db Ch Bf R) as [spents C].
  pose proof (connected_chain _ _ _ _ _ _ _ C) as Ch'.
  destruct C as [(cb & others & Vt & CB & Nc & _) (fs & s0 & s1 & U0 & _ & V0 & _ & C & _ & _ & Ok & Fs & E & Ve)].
  exists cb, others, fs; split; [exact Vt|]; split; [exact CB|]; split; [exact Fs|].
  pose proof (connected_undo _ _ _ _ _ _ _ _ _ C) as Un; rewrite V0 in Un; rewrite Ve, Un, E; cbn [app].
  split; [|split; [reflexivity|now rewrite <- E]].
  assert (Sub : forall tx, In tx (vtx block) -> In tx (rev (vtx block) ++ hist)) by (intros tx It; apply in_or_app; left; now apply in_rev in It).
  set (all := rev (vtx block) ++ hist) in *; assert (N : no_collisions all) by apply Bf.
  assert (Og : origins all (cache_utxo (coins st))).
  { intros p c L; eapply named_sub; [|exact (ho_origin _ _ (ch_history _ _ Ch) p c L)]; intros t It; apply in_or_app; now right. }
  clearbody all; rewrite Vt in *; inversion C as [|? ? ? spent sps ? s2 ? C1 C2]; subst; cbn [tl].
  pose proof (ct_utxo _ _ _ _ _ _ _ _ _ C1) as U; cbn beta in U; rewrite U0 in U; rewrite <- U.
  apply (connected_pays all (Chain.nHeight b) (hash_bytes (Headers.GetHash (header block))) _ _ false); auto.
  - intros tx It; apply Sub; now right.
  - rewrite U; apply origins_apply; [apply Sub; now left|exact Og].
  - destruct Cr as [Cs Ce]; split; [exact Cs|]; intros tx It; apply Ce; now right.
Qed.

(** Whatever state has the unspent outputs that connecting left, and whatever
    the settings of the node that disconnects. *)
Lemma connected_applied_block hist block pindex b spents st s' : block_connected hist block pindex b spents st s' -> spents = [] :: vtxundo s' /\
  applied (Chain.nHeight b) (vtx block) spents (cache_utxo (coins st)) (utxo s').
Proof.
  intros [(cb & others & Vt & CB & Nc & _) (fs & s0 & s1 & U0 & _ & V0 & O0 & C & _ & _ & _ & _ & E & Ve)].
  pose proof (connected_undo _ _ _ _ _ _ _ _ _ C) as Un; rewrite V0 in Un; cbn [app] in Un; rewrite Ve, Un.
  pose proof (connected_applied _ _ _ _ _ _ _ _ _ C) as A; rewrite E; cbn [with_coins coins].
  change (cache_utxo (SetBestBlock ?c ?h)) with (cache_utxo c); rewrite <- U0; split; [|exact A].
  rewrite Vt in C; inversion C as [|? ? ? spent sps ? s2 ? C1 C2]; subst; cbn [tl]; f_equal.
  destruct (ct_update _ _ _ _ _ _ _ _ _ C1) as (st0 & undo & _ & _ & Up); exact (coinbase_spends_nothing _ _ _ _ _ _ _ _ _ _ _ CB Up).
Qed.

(** C3: connecting a block can be undone.  [DisconnectBlock], given the undo
    data that [ConnectBlock] left, any undo data of reissued assets, and any
    state with the unspent outputs that connecting left, throws nothing.  If
    it does not fail, it leaves exactly the unspent outputs from before the
    block, with the block before it as the best one.  It does not fail when
    the node keeps no asset index, is not reindexing and restricted assets are
    active, because the checks of the block have parsed all that is read
    again; nor, whatever the node, when assets are not active or no output and
    no spent coin of the block carries any, and then the result is
    DISCONNECT_OK and the assets are as before. *)
Theorem ConnectBlock_undone hist block pindex b st s' vUndo prevHash st2 : 0 < nSubsidyHalvingInterval params ->
  deref a pindex = Ok b -> chain_ok hist st -> block_fits hist block b ->
  (fChecked block = true -> Forall readable (vtx block)) ->
  ConnectBlock block pindex true false (start st) = (Ok tt, s') ->
  cache_ok (coins st2) -> cache_utxo (coins st2) = utxo s' -> LruCache.lru_ok (passetsCache (globals st2)) ->
  let quiet := quiet_all (vtx block) ([] :: vtxundo s') in
  exists r, DisconnectBlock DynamicUsage fAssetIndex fReindex (vtx block) (Chain.nHeight b) prevHash
      (Some (vtxundo s')) (Some vUndo) st2 = Ok r /\
    match r with
    | (DISCONNECT_FAILED, None) => ~ quiet /\ (fAssetIndex = true \/ fReindex = true \/ AreRestrictedAssetsDeployed = false)
    | (DISCONNECT_FAILED, Some _) | (_, None) => False
    | (res, Some st3) => cache_ok (coins st3) /\ cache_utxo (coins st3) = cache_utxo (coins st) /\
        hashBlock (coins st3) = prevHash /\
        (quiet -> res = DISCONNECT_OK /\ assets st3 = assets st2 /\ globals st3 = globals st2)
    end.
Proof.
  intros I Db Ch Bf Rb R O2 U2 Lru quiet; destruct (ConnectBlock_spec _ _ _ _ _ _ I Db Ch Bf R) as [spents C].
  pose proof (ConnectBlock_readable _ _ _ _ Rb R) as Rd; clear Rb.
  destruct (connected_applied_block _ _ _ _ _ _ _ C) as [-> A]; destruct (bc_valid _ _ _ _ _ _ _ C) as (cb & others & Vt & CB & Nc & _).
  subst quiet; rewrite Vt in *.
  assert (K : coins_ok (cache_utxo (coins st))) by (intros p c L; now destruct (ch_valid _ _ Ch p c L) as (_ & _ & ?)).
  destruct (Disconnect_restores DynamicUsage fAssetIndex fReindex usage_nil _ prevHash cb others [] (vtxundo s') _ _ vUndo st2
    (bf_height _ _ _ Bf) K CB Nc A O2 U2) as (r & Er & P); exists r; split; [exact Er|]; destruct r as [[] [st3|]]; try exact P.
  destruct P as [Q S]; split; [exact Q|]; destruct fAssetIndex eqn:Ai, fReindex eqn:Re, AreRestrictedAssetsDeployed eqn:Ra; auto.
  exfalso; apply S; split; [exact Rd|now split].
Qed.
End Block.
End Connected.

(** * An example *)

#[local] Instance connect_hashes : HeaderHashes := { GetHash := h_nNonce; GetHashFull h := (h_nNonce h, 0) }.
#[local] Instance connect_functions : HashFunctions := {
  CRIPEMD160 := firstn 20; CSHA1 := firstn 20; CSHA256 := firstn 32
}.
#[local] Instance connect_unparsed : Unparsed :=
  Build_Unparsed (fun _ => (mkNewAsset [] 0 0 0 0 [], [])) (fun _ => ([], [])) (fun _ => (mkReissue [] 0 0 0 [], []))
    (fun _ => (mkNullData [] 0, [])) (fun _ => mkNullData [] 0) (fun _ => []) 0.
#[local] Instance connect_globals : Globals := Build_Globals false true (fun _ => false) ∅ 0.

(** A transaction of version 3 has the identifier that [tx_example] spends
    from; other identifiers are the first bytes. *)
#[local] Instance connect_node : Node :=
  Build_Node example_params true true true true true (firstn 20)
    (fun x => match x with 3 :: _ => repeat 7 32 | _ => firstn 32 x end) example_encode (fun b => b) INVALID.

Definition coinbase_of (version : Z) (amounts : list Z) : CTransaction :=
  mkTx [mkTxIn (mkOutPoint (repeat 0 32) (2 ^ 32 - 1)) [0x59; 0x51] SEQUENCE_FINAL []]
    (map (fun v => mkTxOut v [0x51]) amounts) version 0.

Definition connect_header (nonce : Z) : CBlockHeader := mkHeader 4 5 0 1400000000 0 nonce 0 0 0.
Definition connect_index : arena :=
  [mkIndex 5 None None 8 [] 0 0 0 (connect_header 5); mkIndex 6 (Some 0%nat) None 9 [] 0 0 0 (connect_header 6)].
Definition next_index : CBlockIndex := mkIndex 6 (Some 0%nat) None 9 [] 0 0 0 (connect_header 6).

(** A coinbase and a payment, on a chain with one unspent output. *)
Definition connect_block : CBlock := mkBlock (connect_header 6) [coinbase_of 1 [60]; tx_example] true.
Definition connect_db : CCoinsViewDB := mkDB {[spent_out := ex_coin 80]} (Some (hash_bytes 5)) None.
Definition connect_state : chain_state CCoinsViewDB := mkChain (new_cache connect_db) empty_assets no_assets.
Definition connect_history : list CTransaction := [coinbase_of 3 [60; 80]].
Definition connect_settings : connect_params := mkConnectParams 3 true true true false.

Abbreviation connect_example := (ConnectBlock ex_usage CKeyID (fun _ _ _ => false) (fun _ => true) (fun _ _ _ => false)
  (fun _ _ => false) false false connect_index true connect_settings example_chainparams example_env 0 None []
  connect_block 1%nat true false (start connect_state)).

Lemma connect_example_runs : let '(r, s') := connect_example in r = Ok tt /\ vtxundo s' = [[ex_coin 80]] /\ globals (chain s') = no_assets.
Proof. vm_compute; auto. Qed.

Lemma connect_block_valid : block_valid connect_block.
Proof.
  exists (coinbase_of 1 [60]), [tx_example]; split; [reflexivity|]; split; [reflexivity|]; split; [repeat constructor|].
  repeat constructor; cbn; unfold MAX_MONEY, COIN; try lia; try discriminate; apply not_elem_of_nil.
Qed.

Lemma connect_chain_ok : chain_ok ex_usage connect_history connect_state.
Proof.
  assert (D : view_ok connect_db).
  { intros p c L; change (db_coins connect_db) with ({[spent_out := ex_coin 80]} : gmap COutPoint Coin) in L; apply lookup_singleton_Some in L; destruct L as [_ <-]; reflexivity. }
  destruct (new_cache_ok ex_usage connect_db D) as [O U].
  change (utxo connect_db) with ({[spent_out := ex_coin 80]} : gmap COutPoint Coin) in U.
  split; [exact O| |]; cbn [connect_state coins]; rewrite U.
  - intros p c L; apply lookup_singleton_Some in L; destruct L as [_ <-].
    unfold in_money, restorable, MAX_MONEY, COIN; cbn; split_all; try lia; reflexivity.
  - split; [|intros tx i [<-|[]]; discriminate].
    intros p c L; apply lookup_singleton_Some in L; destruct L as [<- <-]; exists (coinbase_of 3 [60; 80]); split; [now left|split; reflexivity].
Qed.

Lemma connect_block_fits : block_fits example_chainparams connect_history connect_block next_index.
Proof.
  split; [cbn; lia|intros _; exact connect_block_valid| | |discriminate].
  - intros tx tx' I I' E; cbn in I, I'.
    repeat (destruct I as [<-|I]; [repeat (destruct I' as [<-|I']; [first [reflexivity|discriminate E]|]); destruct I'|]); destruct I.
  - intros cb E _ tx [<-|[]]; injection E as <-; discriminate.
Qed.

Lemma connect_caches : caches_right (fun _ _ _ => false) (fun _ => true) (fun _ _ _ => false) (fun _ _ => false)
  (rev (vtx connect_block) ++ connect_history) (vtx connect_block) (GetBlockScriptFlags connect_settings next_index).
Proof. split; discriminate. Qed.

Lemma connect_readable : fChecked connect_block = true -> Forall readable (vtx connect_block).
Proof.
  intros _; repeat constructor; try discriminate; vm_compute; exact I.
Qed.

Lemma ConnectBlock_sound_witness : exists s', connect_example = (Ok tt, s') /\ hashBlock (coins (chain s')) = hash_bytes 6.
Proof.
  destruct connect_example as [r s'] eqn:R; pose proof connect_example_runs as E; rewrite R in E; destruct E as (-> & Un & Gs).
  destruct (ConnectBlock_sound ex_usage CKeyID (fun _ _ _ => false) (fun _ => true) (fun _ _ _ => false) (fun _ _ => false)
    false false connect_index true eq_refl connect_settings example_chainparams example_env 0 None [] connect_history connect_block 1
    next_index connect_state s' eq_refl eq_refl connect_chain_ok connect_block_fits connect_caches R) as (_ & _ & _ & _ & _ & _ & _ & B & _).
  exists s'; split; [reflexivity|exact B].
Defined.

Lemma ConnectBlock_undone_witness : exists s' st3,
  DisconnectBlock ex_usage false false (vtx connect_block) 9 (hash_bytes 5) (Some (vtxundo s')) (Some []) (chain s') =
    Ok (DISCONNECT_OK, Some st3) /\ cache_utxo (coins st3) = {[spent_out := ex_coin 80]}.
Proof.
  destruct connect_example as [r s'] eqn:R; pose proof connect_example_runs as E; rewrite R in E; destruct E as (-> & Un & Gs).
  destruct (ConnectBlock_undone ex_usage CKeyID (fun _ _ _ => false) (fun _ => true) (fun _ _ _ => false) (fun _ _ => false)
    false false connect_index true eq_refl connect_settings example_chainparams example_env 0 None [] connect_history connect_block 1
    next_index connect_state s' [] (hash_bytes 5) (chain s') eq_refl eq_refl connect_chain_ok connect_block_fits connect_readable R)
    as ([res o] & D & P).
  - destruct (ConnectBlock_spec ex_usage CKeyID (fun _ _ _ => false) (fun _ => true) (fun _ _ _ => false) (fun _ _ => false)
      false false connect_index true eq_refl connect_settings example_chainparams example_env 0 None [] connect_history connect_block 1
      next_index connect_state s' eq_refl eq_refl connect_chain_ok connect_block_fits R) as (spents & C).
    apply (ch_ok _ _ _ (connected_chain _ _ _ _ _ _ _ _ _ _ _ _ _ _ _ _ _ _ _ _ _ C)).
  - reflexivity.
  - rewrite Gs; apply LruCache.lru_new_ok.
  - assert (Q : quiet_all (vtx connect_block) ([] :: vtxundo s'))
      by (rewrite Un; repeat constructor; right; split; repeat constructor; reflexivity).
    destruct res, o as [st3|]; try contradiction; try (now destruct (proj1 P Q)).
    + exists s', st3; split; [exact D|]; destruct P as (_ & -> & _); reflexivity.
    + destruct P as (_ & _ & _ & P); destruct (P Q) as ([=] & _).
Defined.
