(* ===== verification/ChainState.v ===== *)
(** The chain as a whole: blocks accepted one after the other by
    [ContextualCheckBlock] and [ConnectBlock] (src/validation.cpp), from no
    unspent outputs at all.

    Two facts about one block are not provable from that block alone: that
    its coinbase is a new transaction, and how much money there is.  Both
    follow along the chain: the height at the start of the script of every
    coinbase (BIP34) makes coinbases differ, and the subsidies bound the
    unspent outputs, up to what reissue outputs carry in blocks connected
    before values are enforced.  Between two blocks the caches may be flushed and looked
    at, deployments may become active, and every setting of the node may
    change. *)

From stdpp Require Import base gmap list fin_maps.
From Stdlib Require Import ZArith Lia.
From S2P Require Import Prelude ArithUint256 Chain MedianTime Headers Serialize Script Standard Transaction Compressor Coins.
From S2P Require Import AssetCache Interpreter VerifyScript AssetTx TxCheck TxInputs Blocks AssetRules TxAssets Connect History ConnectBlock.
Open Scope Z_scope.

(** * Heights in coinbases *)

(** The script of a coinbase starts with the height. *)
Definition starts_with (expect script : bytes) : Prop := firstn (length expect) script = expect.

Lemma pushed_height h : 0 < h < 2 ^ 31 ->
  push_int64 [] h = [h + 80] /\ h <= 16 \/
  exists k, push_int64 [] h = Z.of_nat k :: serialize h /\ length (serialize h) = k /\ (k <= 4)%nat /\ CScriptNum (serialize h) true 4 = Ok h.
Proof.
  intros B; unfold push_int64; rewrite (proj2 (Z.eqb_neq h (-1))), (proj2 (Z.eqb_neq h 0)) by lia; cbn [orb].
  rewrite Z.geb_leb, (proj2 (Z.leb_le 1 h)) by lia; cbn [andb]; destruct (Z.leb_spec h 16) as [L|L].
  - left; split; [|exact L]; change (opcode_value OP_1 - 1) with 80; reflexivity.
  - right; destruct (serialize_decodes h 4) as [_ D]; [lia|lia|]; exists (length (serialize h)).
    assert (K : (length (serialize h) <= 4)%nat).
    { unfold CScriptNum in D; destruct (_ >? 4) eqn:E in D; [discriminate|]; rewrite Z.gtb_ltb in E; apply Z.ltb_ge in E; lia. }
    split; [|auto]; unfold push_data; cbn [app]; rewrite (proj2 (Z.ltb_lt _ _)); [reflexivity|change (opcode_value OP_PUSHDATA1) with 76; lia].
Qed.

Lemma height_prefix_inj h h' script : 0 < h < 2 ^ 31 -> 0 < h' < 2 ^ 31 ->
  starts_with (push_int64 [] h) script -> starts_with (push_int64 [] h') script -> h = h'.
Proof.
  unfold starts_with; intros B B'; destruct script as [|x script]; [rewrite !firstn_nil|].
  - intros E; destruct (pushed_height h B) as [[P _]|(k & P & _)]; rewrite P in E; discriminate.
  - destruct (pushed_height h B) as [[P L]|(k & P & K & L & D)], (pushed_height h' B') as [[P' L']|(k' & P' & K' & L' & D')];
      rewrite P, P'; cbn [length firstn]; intros E E';
      pose proof (f_equal (hd 0) E) as F; pose proof (f_equal (hd 0) E') as F'; cbn [hd] in F, F'; try lia.
    injection E as _ E; injection E' as _ E'; assert (k = k') by lia; congruence.
Qed.

(** * The active chain *)

(** What a node is configured with, and what it sees, when it connects or
    disconnects a block. *)
Record settings := mkSettings {
  at_node : Node;
  at_globals : Globals;
  at_signature_cached : bytes -> bytes -> bytes -> bool;
  at_script_executed : bytes -> Z -> bool;
  at_reindex : bool;
  at_asset_index : bool;
  at_arena : arena;
  at_threads : bool;
  at_params : connect_params;
  at_chainparams : Headers.CChainParams;
  at_env : environment;
  at_assume_valid : Z;
  at_best_header : option nat;
  at_minimum_work : list Z
}.

(** A connected block with its height, its undo data, and whether values were
    enforced when it was connected: whether asset outputs counted. *)
Record entry := mkEntry {
  en_block : CBlock;
  en_height : Z;
  en_undo : list (list Coin);
  en_enforced : bool
}.

(** What the reissue outputs of the blocks connected before that carry. *)
Definition path_uncounted (path : list entry) : Z :=
  sum (map (fun e => sum (map (uncounted (en_enforced e)) (vtx (en_block e)))) path).

Section Chain.
Context {base : Node} {hashes : HeaderHashes} {unparsed : Unparsed} `{HashFunctions} `{CoinsViewLaws V}.
Variable DynamicUsage : CScript -> Z.
Variable DecodeDestination : bytes -> CTxDestination.
Variable Verify : bytes -> bytes -> bytes -> bool.
Variable CheckLowS : bytes -> bool.
Variable interval : Z.
Hypothesis usage_nil : DynamicUsage [] = 0.
Hypothesis interval_pos : 0 < interval.

(** The unspent outputs of a chain, the last block first, and its
    transactions. *)
Definition path_utxo (path : list entry) : gmap COutPoint Coin :=
  fold_right (fun e u => fold_left (apply_tx (en_height e)) (vtx (en_block e)) u) ∅ path.
Definition path_history (path : list entry) : list CTransaction := flat_map (fun e => rev (vtx (en_block e))) path.

Definition connects (w : settings) (block : CBlock) (pindex : nat) (st : chain_state V) (s' : connecting) : Prop :=
  ConnectBlock (node := at_node w) (mutable := at_globals w) DynamicUsage DecodeDestination Verify CheckLowS
    (at_signature_cached w) (at_script_executed w) (at_reindex w) (at_asset_index w) (at_arena w) (at_threads w) (at_params w)
    (at_chainparams w) (at_env w) (at_assume_valid w) (at_best_header w) (at_minimum_work w) block pindex true false (start st)
  = (Ok tt, s').

(** A block on top of a chain of blocks after the genesis block: the rules
    that BIP34 adds hold, and no identifiers collide. *)
Record on_top (w : settings) (path : list entry) (block : CBlock) (pindex : nat) (b : CBlockIndex) : Prop := {
  ot_hash : @node_Hash (at_node w) = node_Hash;
  ot_interval : nSubsidyHalvingInterval (at_params w) = interval;
  ot_index : deref (at_arena w) pindex = Ok b;
  ot_height : Chain.nHeight b = Z.of_nat (length path) + 1 /\ Chain.nHeight b < 2 ^ 31;
  ot_prev : exists q prev, pprev b = Some q /\ deref (at_arena w) q = Ok prev /\ Chain.nHeight prev = Z.of_nat (length path) /\
    ContextualCheckBlock (node := at_node w) (at_chainparams w) (at_arena w) (nCSVEnabled (at_params w)) true
      (nSegwitEnabled (at_params w)) block (Some q) = Ok tt;
  ot_checked : fChecked block = true -> block_valid block;
  ot_genesis : Headers.GetHash (header block) <> hashGenesisBlock (at_chainparams w);
  ot_ids : no_collisions (rev (vtx block) ++ path_history path)
}.

(** Blocks are connected and disconnected, and in between the caches may be
    flushed and looked at, and the assets may change. *)
Inductive reachable : list entry -> chain_state V -> Prop :=
| at_start st : cache_ok DynamicUsage (coins st) -> cache_utxo (coins st) = ∅ -> reachable [] st
| other_work path st st' : reachable path st -> cache_ok DynamicUsage (coins st') ->
    cache_utxo (coins st') = cache_utxo (coins st) -> reachable path st'
| connect w path st block pindex b s' : reachable path st -> on_top w path block pindex b ->
    connects w block pindex st s' -> reachable (mkEntry block (Chain.nHeight b) (vtxundo s') (@AreEnforcedValuesDeployed (at_node w)) :: path) (chain s')
| disconnect (node : Node) fAssetIndex fReindex e path st prevHash vUndo res st' : reachable (e :: path) st ->
    @node_Hash node = @node_Hash base ->
    DisconnectBlock (node := node) DynamicUsage fAssetIndex fReindex (vtx (en_block e)) (en_height e) prevHash
      (Some (en_undo e)) (Some vUndo) st = Ok (res, Some st') ->
    reachable path st'.

(** ** The same hash function at every node *)

Lemma apply_tx_same (node : Node) height u tx : @node_Hash node = @node_Hash base ->
  @apply_tx node height u tx = @apply_tx base height u tx.
Proof. intros E; unfold apply_tx, txid; now rewrite E. Qed.

Lemma applied_same (node node' : Node) height txs spents u u' : @node_Hash node = @node_Hash node' ->
  @applied node height txs spents u u' -> @applied node' height txs spents u u'.
Proof.
  intros E A; induction A as [u|tx txs spent spents u u' New Sp F _ IH]; [constructor|]; constructor; auto.
  - intros n; specialize (New n); unfold txid in *; now rewrite <- E.
  - unfold apply_tx, txid in *; now rewrite <- E.
Qed.

Lemma no_collisions_same (node node' : Node) l : @node_Hash node = @node_Hash node' ->
  @no_collisions node l -> @no_collisions node' l.
Proof. intros E N tx tx' I I'; specialize (N tx tx' I I'); unfold txid in *; now rewrite <- E. Qed.

Lemma history_same (node node' : Node) hist u : @node_Hash node = @node_Hash node' ->
  @history_ok node hist u -> @history_ok node' hist u.
Proof. intros E [P Q]; split; unfold origins, named, txid in *; now rewrite <- E. Qed.

Lemma applied_fold (node : Node) height txs spents u u' : applied height txs spents u u' -> u' = fold_left (apply_tx height) txs u.
Proof. induction 1; [reflexivity|assumption]. Qed.

(** ** New coinbases *)

Definition coinbase_script (tx : CTransaction) : bytes := match vin tx with i :: _ => scriptSig i | [] => [] end.

Lemma same_script tx tx' : strip_tx tx = strip_tx tx' -> coinbase_script tx = coinbase_script tx'.
Proof.
  intros E; apply (f_equal vin) in E; cbn [strip_tx vin] in E; unfold coinbase_script.
  destruct (vin tx) as [|i ins], (vin tx') as [|i' ins']; cbn [map] in E; try discriminate; [reflexivity|].
  exact (f_equal (fun l => match l with i :: _ => scriptSig i | [] => [] end) E).
Qed.

(** BIP34 *)
Lemma coinbase_height (node : Node) chainparams a csv segwit block q prev cb : deref a q = Ok prev ->
  0 <= Chain.nHeight prev < 2 ^ 31 - 1 -> List.hd_error (vtx block) = Some cb ->
  ContextualCheckBlock chainparams a csv true segwit block (Some q) = Ok tt ->
  starts_with (push_int64 [] (Chain.nHeight prev + 1)) (coinbase_script cb).
Proof.
  intros Dq B Hd R; unfold ContextualCheckBlock in R; rewrite Dq in R; cbn [lift bind] in R.
  replace (s32 (Chain.nHeight prev + 1)) with (Chain.nHeight prev + 1) in R by (symmetry; apply swrap_id; [lia|unfold in_s; lia]).
  apply bind_ok in R; destruct R as (cut & _ & R); destruct (negb (forallb _ _)) in R; [discriminate|].
  apply bind_ok in R; destruct R as ([] & E & _); unfold coinbase_script, starts_with.
  destruct (vtx block) as [|x others]; [discriminate|]; injection Hd as ->.
  destruct (vin cb) as [|i ins]; [discriminate|]; destruct (_ || _) eqn:K in E; [discriminate|].
  apply orb_false_elim in K; destruct K as [_ K]; apply negb_false_iff, bytes_eqb_eq in K; now symmetry.
Qed.

(** What is known of the coinbases of the chain. *)
Definition coinbases_ok (path : list entry) : Prop := forall tx, In tx (path_history path) -> IsCoinBase tx = true ->
  exists m, 0 < m <= Z.of_nat (length path) /\ starts_with (push_int64 [] m) (coinbase_script tx).

Lemma coinbase_fresh path cb : coinbases_ok path -> Z.of_nat (length path) + 1 < 2 ^ 31 -> IsCoinBase cb = true ->
  starts_with (push_int64 [] (Z.of_nat (length path) + 1)) (coinbase_script cb) ->
  no_collisions (cb :: path_history path) -> fresh (path_history path) cb.
Proof.
  intros Ok B CB S N tx I E; assert (St : strip_tx tx = strip_tx cb) by (apply N; [now right|now left|exact E]).
  destruct (Ok tx I) as (m & Bm & Sm); [now rewrite (same_coinbase _ _ St)|]; rewrite (same_script _ _ St) in Sm.
  assert (m = Z.of_nat (length path) + 1) by (apply (height_prefix_inj m _ (coinbase_script cb)); auto; lia).
  lia.
Qed.

(** ** The invariant *)

Record facts (path : list entry) : Prop := {
  fa_valid : coins_valid (path_utxo path);
  fa_history : history_ok (path_history path) (path_utxo path);
  fa_coinbases : coinbases_ok path;
  fa_supply : supply (path_utxo path) + GetBlockSubsidy interval 0 <= total_subsidy interval (S (length path)) + path_uncounted path
}.

Inductive built : list entry -> Prop :=
| built_nil : built []
| built_cons e path : built path -> facts (e :: path) -> block_valid (en_block e) -> 0 < en_height e < 2 ^ 31 ->
    applied (en_height e) (vtx (en_block e)) ([] :: en_undo e) (path_utxo path) (path_utxo (e :: path)) ->
    built (e :: path).

Lemma built_facts path : built path -> facts path.
Proof.
  intros [|]; [|assumption]; split.
  - apply coins_valid_empty.
  - apply history_empty.
  - intros tx [].
  - change (supply ∅ + GetBlockSubsidy interval 0 <= 0 + GetBlockSubsidy interval 0 + 0); rewrite supply_empty; lia.
Qed.

Lemma path_chain_ok (node : Node) path st : @node_Hash node = @node_Hash base -> facts path ->
  cache_ok DynamicUsage (coins st) -> cache_utxo (coins st) = path_utxo path ->
  chain_ok (node := node) DynamicUsage (path_history path) st.
Proof. intros E [K Hi _ _] O U; split; [exact O|now rewrite U|rewrite U; now apply (history_same base)]. Qed.

Lemma on_top_fits w path block pindex b : on_top w path block pindex b -> facts path ->
  block_fits (node := at_node w) (at_chainparams w) (path_history path) block b.
Proof.
  intros [Eh _ _ [Hh Hb] (q & prev & _ & Dq & Hq & Cx) Ck Ge Ids] F; split; auto; [lia| |].
  - now apply (no_collisions_same base).
  - intros cb Hd CB; rewrite <- Hq in Hh; pose proof (coinbase_height _ _ _ _ _ _ _ _ _ Dq ltac:(lia) Hd Cx) as S; rewrite Hq in S.
    assert (N : no_collisions (cb :: path_history path)).
    { eapply no_collisions_sub; [|exact Ids]; intros tx [<-|I]; apply in_or_app; [left|now right].
      destruct (vtx block); [discriminate|]; injection Hd as ->; cbn [rev]; apply in_or_app; right; now left. }
    pose proof (coinbase_fresh path cb (fa_coinbases _ F) ltac:(lia) CB S N) as Fr.
    intros tx I E; apply (Fr tx I); unfold txid in *; now rewrite <- Eh.
Qed.

Lemma coinbases_next w path block pindex b e : on_top w path block pindex b -> block_valid block -> en_block e = block ->
  coinbases_ok path -> coinbases_ok (e :: path).
Proof.
  intros [_ _ _ [Hh Hb] (q & prev & _ & Dq & Hq & Cx) _ _ _] (cb & others & Vt & _ & Nc & _) Eb Ok tx I CB.
  cbn [path_history flat_map] in I; rewrite Eb, in_app_iff, <- in_rev in I; cbn [length]; destruct I as [I|I].
  - rewrite Vt in I; destruct I as [<-|I];
      [|rewrite Forall_forall in Nc; rewrite (Nc tx) in CB; [discriminate|now apply list_elem_of_In]].
    exists (Z.of_nat (length path) + 1); split; [lia|]; rewrite <- Hq.
    eapply (coinbase_height (at_node w)); [exact Dq|lia|now rewrite Vt|exact Cx].
  - destruct (Ok tx I CB) as (m & Bm & Sm); exists m; split; [lia|exact Sm].
Qed.

Lemma connect_built w path st block pindex b s' : built path -> cache_ok DynamicUsage (coins st) ->
  cache_utxo (coins st) = path_utxo path -> on_top w path block pindex b -> connects w block pindex st s' ->
  let e := mkEntry block (Chain.nHeight b) (vtxundo s') (@AreEnforcedValuesDeployed (at_node w)) in
  cache_ok DynamicUsage (coins (chain s')) /\ cache_utxo (coins (chain s')) = path_utxo (e :: path) /\ built (e :: path).
Proof.
  intros Bu O U Ot R e; pose proof (built_facts _ Bu) as F; pose proof (on_top_fits _ _ _ _ _ Ot F) as Bf.
  pose proof (ot_hash _ _ _ _ _ Ot) as Eh; pose proof (path_chain_ok (at_node w) path st Eh F O U) as Ch.
  assert (I : 0 < nSubsidyHalvingInterval (at_params w)) by now rewrite (ot_interval _ _ _ _ _ Ot).
  unfold connects in R; apply (ConnectBlock_spec _ _ _ _ _ _ _ _ _ _ usage_nil _ _ _ _ _ _ _ _ _ b _ _ I (ot_index _ _ _ _ _ Ot) Ch Bf) in R.
  destruct R as [spents C]; pose proof (connected_chain _ _ _ _ _ _ _ _ _ _ _ _ _ _ _ _ _ _ _ _ _ C) as [O' K' Hi'].
  pose proof (connected_money _ _ _ _ _ _ _ _ _ _ _ _ _ _ _ _ _ _ _ _ _ C) as M.
  destruct (connected_applied_block _ _ _ _ _ _ _ _ _ usage_nil _ _ _ _ _ _ _ _ _ _ _ _ C) as [-> A].
  apply (applied_same _ base) in A; [|exact Eh]; rewrite U in *.
  assert (U' : cache_utxo (coins (chain s')) = path_utxo (e :: path)) by exact (applied_fold _ _ _ _ _ _ A).
  split; [exact O'|]; split; [exact U'|]; rewrite U' in *; pose proof (bc_valid _ _ _ _ _ _ _ _ _ _ _ _ _ _ _ _ _ _ _ _ _ C) as Bv.
  constructor; [exact Bu| |exact Bv|apply Bf|exact A]; split; [exact K'| | |].
  - now apply (history_same (at_node w)).
  - eapply coinbases_next; [exact Ot|exact Bv|reflexivity|apply F].
  - rewrite (ot_interval _ _ _ _ _ Ot) in M; destruct (ot_height _ _ _ _ _ Ot) as [Hh _]; rewrite Hh in M.
    pose proof (fa_supply _ F) as S; unfold path_uncounted in *; cbn [map en_enforced en_block e].
    change (sum (?x :: ?l)) with (x + sum l); cbn [length total_subsidy] in *; rewrite Nat2Z.inj_succ in *; unfold Z.succ in *; lia.
Qed.

Lemma disconnect_built (node : Node) fAssetIndex fReindex e path st prevHash vUndo : built (e :: path) ->
  @node_Hash node = @node_Hash base -> cache_ok DynamicUsage (coins st) -> cache_utxo (coins st) = path_utxo (e :: path) ->
  exists r, DisconnectBlock (node := node) DynamicUsage fAssetIndex fReindex (vtx (en_block e)) (en_height e) prevHash
      (Some (en_undo e)) (Some vUndo) st = Ok r /\
    (@AreAssetsDeployed node = false -> fst r = DISCONNECT_OK /\ snd r <> None) /\
    (settled (node := node) fAssetIndex fReindex (globals st) -> Forall (readable (node := node)) (vtx (en_block e)) -> snd r <> None) /\
    forall st', snd r = Some st' ->
      built path /\ cache_ok DynamicUsage (coins st') /\ cache_utxo (coins st') = path_utxo path.
Proof.
  intros Bu Eh O U; inversion Bu as [|e' path' Bp _ (cb & others & Vt & CB & Nc & _) B A]; subst; rewrite Vt in *.
  apply (applied_same _ node) in A; [|now symmetry].
  assert (K : coins_ok (path_utxo path)) by (intros p c L; now destruct (fa_valid _ (built_facts _ Bp) p c L) as (_ & _ & ?)).
  destruct (Disconnect_restores (node := node) DynamicUsage fAssetIndex fReindex usage_nil _ prevHash cb others [] (en_undo e) _ _
    vUndo st B K CB Nc A O U) as ([res o] & R & P); exists (res, o); split; [exact R|]; cbn [fst snd]; split; [|split].
  - intros D; assert (Q : quiet_all (node := node) (cb :: others) ([] :: en_undo e)).
    { pose proof (applied_length _ _ _ _ _ A) as L; revert L; generalize ([] :: en_undo e), (cb :: others); clear - D.
      intros spents txs; revert spents; induction txs as [|t ts IH]; intros [|s ss] L; try discriminate; constructor;
        [now left|apply IH; now injection L]. }
    destruct res, o as [st3|]; try contradiction;
      [now split|destruct P as (_ & _ & _ & P); destruct (P Q) as ([=] & _)|now destruct P].
  - intros S Rd; destruct res, o as [st3|]; try contradiction; try discriminate; now destruct (proj2 P (conj Rd S)).
  - intros st' ->; destruct res; try contradiction; destruct P as (O3 & U3 & _); auto.
Qed.

Lemma reachable_built path st : reachable path st ->
  cache_ok DynamicUsage (coins st) /\ cache_utxo (coins st) = path_utxo path /\ built path.
Proof.
  induction 1 as [st O U|path st st' _ (O & U & Bu) O' U'|w path st block pindex b s' _ (O & U & Bu) Ot R
    |node ai re e path st prevHash vUndo res st' _ (O & U & Bu) Eh R].
  - split; [exact O|]; split; [exact U|constructor].
  - split; [exact O'|]; split; [congruence|exact Bu].
  - exact (connect_built _ _ _ _ _ _ _ Bu O U Ot R).
  - destruct (disconnect_built node ai re e path st prevHash vUndo Bu Eh O U) as ([res' o] & R' & _ & _ & P).
    rewrite R in R'; injection R' as <- <-; destruct (P st' eq_refl) as (B' & O' & U'); auto.
Qed.
End Chain.

(** C1: the ledger.  Whatever blocks a node connects and disconnects, and
    whatever it looks up and flushes in between, its unspent outputs are
    those of applying the transactions of the active chain in order, so that
    they do not depend on the way there, and every amount is in range.  All of
    them together never exceed the subsidies of the blocks of the chain, nor,
    whatever its length, twice the first subsidy times the halving interval,
    plus one thing: what reissue outputs carry in blocks that were connected
    before values were enforced, which the code does not count.  The last
    block can be disconnected: no exception is thrown; without assets it is
    undone, and so it is with assets whose data parses when the node keeps no
    asset index, is not reindexing and restricted assets are active.  The
    height is in the coinbases (BIP34), and no identifiers collide. *)
Theorem Chain_consistent {base : Node} {hashes : HeaderHashes} {unparsed : Unparsed} `{HashFunctions} `{CoinsViewLaws V}
    (DynamicUsage : CScript -> Z) (DecodeDestination : bytes -> CTxDestination) (Verify : bytes -> bytes -> bytes -> bool)
    (CheckLowS : bytes -> bool) (interval : Z) (path : list entry) (st : chain_state V) :
  DynamicUsage [] = 0 -> 0 < interval -> reachable DynamicUsage DecodeDestination Verify CheckLowS interval path st ->
  cache_ok DynamicUsage (coins st) /\ cache_utxo (coins st) = path_utxo path /\ coins_valid (path_utxo path) /\
  0 <= supply (path_utxo path) <= total_subsidy interval (S (length path)) - GetBlockSubsidy interval 0 + path_uncounted path /\
  supply (path_utxo path) <= 20 * COIN * interval + path_uncounted path /\
  match path with
  | [] => True
  | e :: path' => forall (node : Node) fAssetIndex fReindex prevHash vUndo, @node_Hash node = @node_Hash base ->
      exists r, DisconnectBlock (node := node) DynamicUsage fAssetIndex fReindex (vtx (en_block e)) (en_height e) prevHash
          (Some (en_undo e)) (Some vUndo) st = Ok r /\
        (@AreAssetsDeployed node = false -> fst r = DISCONNECT_OK /\ snd r <> None) /\
        (settled (node := node) fAssetIndex fReindex (globals st) -> Forall (readable (node := node)) (vtx (en_block e)) ->
           snd r <> None) /\
        forall st', snd r = Some st' -> cache_utxo (coins st') = path_utxo (base := base) path'
  end.
Proof.
  intros Un I R; destruct (reachable_built DynamicUsage DecodeDestination Verify CheckLowS interval Un I _ _ R) as (O & U & Bu).
  pose proof (built_facts _ _ Bu) as [K _ _ Su]; pose proof (supply_nonneg _ K) as P.
  pose proof (subsidy_bound interval 0 I ltac:(lia)) as S0.
  pose proof (proj1 (GetBlockSubsidy_supply interval (S (length path)) I)) as T.
  split; [exact O|]; split; [exact U|]; split; [exact K|]; split; [lia|]; split; [lia|].
  destruct path as [|e path']; [exact Logic.I|]; intros node ai re prevHash vUndo Eh.
  destruct (disconnect_built DynamicUsage interval Un node ai re e path' st prevHash vUndo Bu Eh O U) as (r & Er & Q & S & C).
  exists r; split; [exact Er|]; split; [exact Q|]; split; [exact S|]; intros st' E; exact (proj2 (proj2 (C st' E))).
Qed.

(** * An example *)

#[local] Existing Instances connect_hashes connect_functions connect_unparsed connect_globals connect_node.

(** A block on top of the genesis block. *)
Definition first_block : CBlock :=
  mkBlock (connect_header 6)
    [mkTx [mkTxIn (mkOutPoint (repeat 0 32) (2 ^ 32 - 1)) [0x51; 0x51] SEQUENCE_FINAL []] [mkTxOut (10 * COIN) [0x51]] 1 0] true.
Definition first_index : CBlockIndex := mkIndex 6 (Some 0%nat) None 1 [] 0 0 0 (connect_header 6).
Definition first_settings : settings :=
  mkSettings connect_node connect_globals (fun _ _ _ => false) (fun _ _ => false) false false
    [mkIndex 5 None None 0 [] 0 0 0 (connect_header 5); first_index] true (mkConnectParams 3 true true true true)
    example_chainparams example_env 0 None [].
Definition empty_db : CCoinsViewDB := mkDB ∅ (Some (hash_bytes 5)) None.
Definition first_state : chain_state CCoinsViewDB := mkChain (new_cache empty_db) empty_assets no_assets.

Abbreviation first_connect := (ConnectBlock ex_usage CKeyID (fun _ _ _ => false) (fun _ => true) (fun _ _ _ => false)
  (fun _ _ => false) false false (at_arena first_settings) true (at_params first_settings) example_chainparams example_env 0 None []
  first_block 1%nat true false (start first_state)).

Lemma first_connects : fst first_connect = Ok tt.
Proof. vm_compute; reflexivity. Qed.

Lemma first_block_valid : block_valid first_block.
Proof.
  eexists _, []; split; [reflexivity|]; split; [reflexivity|]; split; [constructor|].
  repeat constructor; cbn; unfold MAX_MONEY, COIN; try lia; try discriminate; apply not_elem_of_nil.
Qed.

Lemma first_on_top : on_top 3 first_settings [] first_block 1 first_index.
Proof.
  split; try reflexivity; try discriminate; [split; reflexivity| |intros _; exact first_block_valid|].
  - eexists _, _; split; [reflexivity|]; split; [reflexivity|]; split; [reflexivity|vm_compute; reflexivity].
  - intros tx tx' [<-|[]] [<-|[]] _; reflexivity.
Qed.

Lemma Chain_consistent_witness : exists path st, length path = 1%nat /\
  reachable ex_usage CKeyID (fun _ _ _ => false) (fun _ => true) 3 path st /\ supply (cache_utxo (coins st)) <= 60 * COIN.
Proof.
  assert (D : view_ok empty_db) by (intros p c L; change (db_coins empty_db) with (∅ : gmap COutPoint Coin) in L; now rewrite lookup_empty in L).
  destruct (new_cache_ok ex_usage empty_db D) as [O U].
  destruct first_connect as [r s'] eqn:R; pose proof first_connects as E; rewrite R in E; cbn [fst] in E; subst r.
  exists [mkEntry first_block 1 (vtxundo s') true], (chain s'); split; [reflexivity|].
  assert (Re : reachable ex_usage CKeyID (fun _ _ _ => false) (fun _ => true) 3 [mkEntry first_block 1 (vtxundo s') true] (chain s')).
  { apply (connect ex_usage CKeyID _ _ 3 first_settings [] first_state first_block 1 first_index s'); [|exact first_on_top|exact R].
    now apply at_start. }
  split; [exact Re|].
  destruct (Chain_consistent ex_usage CKeyID (fun _ _ _ => false) (fun _ => true) 3 _ _ eq_refl eq_refl Re) as (_ & -> & _ & _ & B & _).
  exact B.
Defined.
